(* ===== verification/_CoqProject ===== *)
-Q . S2P
Prelude.v
SafeConv.v
Register.v
Opcode.v
Instruction.v
Shapes.v
Spec.v
JumpLayout.v
Extension.v
Jumps.v
Function.v
Builder.v
Verify.v
VerifySound.v
CallGraph.v
CallGraphScc.v
CallDepth.v
ArgCopy.v
Machine.v
MachineSafe.v
MachineFlow.v
Cost.v
FuseNarrow.v
TruncElide.v
PassFacts.v
Liveness.v
Ranges.v
RangesSound.v
RangesSolve.v
RangesElide.v
Dominators.v
Scope.v
ScopeSound.v
Wire.v
WireCodec.v
Relocate.v
OpenMachine.v
LivenessSound.v
LivenessRun.v
Peephole.v
CopyFusion.v
MoveElim.v
FuseDriver.v
Gvn.v
Compact.v
CompactMarks.v
CompactPlace.v
CompactRecode.v
CompactWords.v
CompactRun.v
CompactSound.v
Splice.v
SpliceRun.v
FusionWindow.v
CompareFusion.v
ConstFusion.v
RangeFusion.v
FusionPass.v
GvnSound.v
GvnRun.v
Text.v
Broker.v
BrokerSound.v
Pool.v
PoolSound.v
PoolRun.v
PoolDrain.v
Arena.v
ArenaSound.v
CallStack.v
ArenaPool.v
ArenaSizing.v
SizingWalk.v
ArenaSized.v
