(* ===== verification/Prelude.v ===== *)
(** * The pipit interpreter, verified in part

    pipit compiles Go source to a register bytecode and runs it.  A compiler
    emits instruction words through a builder, optimisation passes rewrite
    them with the help of tables that describe every operation, a verifier
    gates bytecode loaded from a file, and a virtual machine dispatches the words over typed
    register banks.  A program may also run in a worker process, which speaks
    a wire protocol with its host.  This library models the bytecode layer,
    from the integer conversions to the dispatch loop, the compiler's register
    scopes, nine of its passes and analyses, the arena the call frames live in
    and its sizing, the object pool, the wire protocol and the broker that
    decides what a worker may ask, by translating the Go definitions into Rocq,
    and proves what its parts promise each other.

    ** Files, in dependency order

    - [Prelude]: machine integers as [Z] with explicit wrap-around ([isU],
      [isS], [wrapU], [wrapS]), slices indexed by [Z] ([zget], [zset]),
      switches as membership tests, the tactics [word], [bool_hyps], [case_ifs].
    - [SafeConv]: [internal/safeconv/safeconv.go].
    - [Register], [Opcode], [Instruction]: the banks, the opcode
      enumerations of the four tiers and the four-byte word of [internal/isa].
    - [Shapes], [Spec]: the operand-shape table and the operation
      specification table of [internal/isa], row by row, with the package
      initialisation that builds them ([initShapes], [initSpecIndex]).
    - [JumpLayout], [Extension]: where an operation keeps its jump offset, and
      what its extension words name ([jump_layout.go], [extension_operands.go]).
    - [Jumps]: [internal/engine/program/jump_targets.go], reading and rewriting
      jump targets in an instruction stream.
    - [Function], [Builder]: the part of [CompiledFunction] these components
      share, and [bytecode_builder.go]: constant interning, emission, jump
      patching, the inlining blocker.  A Go pointer to a function is a reference
      into a store, so sharing and cycles are represented.
    - [Verify]: all of [internal/verify]: abstract states, the block walk
      and worklist, operand bounds, the traversal of nested functions, and
      the gate [VerifyLoadedFileSet].
    - [VerifySound]: the specification of the verifier (reachability,
      [body_in_range], [reachable_function]) and its theorems.
    - [CallGraph], [CallGraphScc], [CallDepth]: [call_graph.go] and
      [call_depth_analysis.go]; Tarjan's search; the estimate of the depth.
    - [ArgCopy]: [call_copy_program.go] with [runArgCopyProgram] of
      [internal/engine/vm_handler_calls.go].
    - [Machine]: 102 handlers of [internal/engine], the flat dispatch table and
      the dispatch span of [vm_run.go].
    - [MachineSafe], [MachineFlow]: the handlers against the tables, the types,
      the verifier's control flow and the verifier's bounds.
    - [Cost]: the cost metering of [vm_run.go]: chunks drawn from a shared
      budget, alone and with other machines in between.
    - [FuseNarrow], [TruncElide]: two passes of [internal/compile/passes] over
      a body, [function_fuse_narrow32.go] and [function_truncate_elision.go],
      against the machine ([execute] runs a body to its end).
    - [PassFacts]: what several passes read off a body: words spanned, fall
      through, registers written.
    - [Liveness], [OpenMachine], [LivenessSound], [LivenessRun]:
      [function_peephole_liveness.go], the search for registers that are dead;
      the machine with the operations [Machine] leaves out as uninterpreted
      steps; what the search is worth on its runs.
    - [Peephole], [CopyFusion], [MoveElim], [FuseDriver]: the windows of the
      peephole pass ([function_peephole_fusion.go],
      [function_peephole_compare_jump.go]), [function_copy_fusion.go], move
      elimination ([function_move_elimination.go] and [_jumps.go]) and the walk
      that applies them ([runPeepholeFusions] of [optimise_driver.go]).
    - [Splice], [SpliceRun], [FusionWindow], [CompareFusion], [ConstFusion],
      [RangeFusion], [FusionPass]: a window of a body rewritten, the runs of
      both bodies, each fusion over scalar registers, and the whole walk.
    - [Gvn], [GvnSound], [GvnRun]: [function_gvn_pass.go], which turns repeated
      computations into moves: the pass, what its value numbers mean over
      straight code, and the runs of the rewritten body.
    - [Ranges], [RangesSound], [RangesSolve], [RangesElide]:
      [function_truncate_ranges.go], the interval analysis that drops
      truncations which change nothing: the definitions, the transfer against
      the machine, the solver, the pass.
    - [Dominators]: [function_dominators.go], over the control-flow graph of
      [function_pointer_alias.go].
    - [Relocate], [Compact], [CompactMarks], [CompactPlace], [CompactRecode],
      [CompactWords], [CompactRun], [CompactSound]: [function_body_rewrite.go]
      and [function_compact.go], a body rebuilt without its dead words: the
      definitions, where every word goes, its jumps, its run on the machine.
    - [Scope], [ScopeSound]: [internal/compile/scope/scope.go], the register
      allocator and the stack of scopes, with the compiler's recycling of dead
      variables and promotion of captured ones; its invariant and theorems.
    - [Wire], [WireCodec]: [internal/sandboxwire], the session state machine
      against the protocol, and the JSON traversal, the envelopes and the
      framing, over abstract decoders and writers ([Decoder], [TokenStream],
      [Writer], [Delivers]).
    - [Text], [Broker], [BrokerSound]: Go's strings as far as they are used,
      and [internal/sandboxbroker]: paths, requests, responses and the budget.
    - [Pool], [PoolSound], [PoolRun], [PoolDrain]: [internal/stablepool], each
      goroutine a program of atomic accesses, in any interleaving.
    - [Arena], [ArenaSound], [CallStack], [ArenaPool]: [register_arena.go] and
      the calls and returns of [vm.go]: slabs and the windows frames keep into
      them, the simulation by a stack of register files, and an arena that
      machine after machine borrows.
    - [ArenaSizing], [SizingWalk], [ArenaSized]: [vm_arena_sizing.go] and
      [vm_arena_hints.go], what an arena is sized for and what that saves.

    ** What the theorems show

    - Tables.  The shape of an operation does not depend on the order of
      initialisation; the flat dispatch index names one operation and the
      specification index is complete; jump layouts agree with both tables.
    - Streams.  Rewriting a jump makes it read back as its new target and
      moves no other jump; it succeeds exactly when the displacement fits the
      layout; the builder's patches land, its pools intern, its cached inlining blocker is the
      first one emitted.
    - Verifier.  It terminates within its iteration cap and reports exactly
      the reachable backward rows of type switches; the bounds check decides
      [body_in_range] for every reachable function; a loaded program that
      passes has both properties.
    - Analyses.  Recursion detection decides cyclicity of the call graph within
      its depth bound; Tarjan's search flags exactly the functions on a cycle;
      the estimate of the depth bounds every chain of calls and is exact
      without recursion; the alias test licenses in-place argument copies.
    - Machine.  For each of the 102 operations: no register outside the shape's
      writes changes, nothing outside the shape's reads matters, registers
      stay machine words, a run stays on the verifier's paths, and on a
      program the gate accepts no step of a fixed-bank operation leaves the
      register file.  Narrow operations equal the wide
      operation followed by truncation, and truncation is Go's conversion.
      A dispatch span polls for cancellation within 1024 turns.
    - Metering.  However the charges of several machines interleave, no more
      than the budget is spent and every unit is spent, held or shared; a run
      that costs less than its budget by a chunk is admitted and its cost reported; one
      charge is an undisturbed run of its atomic steps.
    - Passes.  A body compacted ends as the old one does.
      Registers the search finds dead do not matter, whatever the operations
      outside the model do with the registers their words name; a walk of the
      peephole pass that uses the fusions over scalar registers leaves a
      function whose runs end as before; so does value numbering, as far as it
      rewrites words before the first jump target.
      A body rewritten by the narrowing fusion, by the elision of
      truncations after masks where its test is exact, or by the range
      analysis, ends as the old one does, after the same number of steps; the
      range analysis always ends.  The dominator table holds exactly the
      dominators of the control-flow graph, and they hold of every run.
    - Scopes.  Two live variables never share a register or a spill slot, a
      captured register is not given out again, no scope operation panics,
      and inner declarations shadow outer ones until their scope ends.
    - Calls.  Whatever is called, deferred, tail called and returned from, a
      frame's registers are its own, from machine to machine on one arena; a
      released arena keeps no pointer of the run in its banks; sizing visits
      exactly what an entry can call, and an arena sized for a program without
      recursion and byte slices does not grow.
    - Object pool.  No object is ever in two places, a goroutine alone
      finishes, and draining takes every idle object once.
    - Broker.  What is admitted is granted, reserved within the limits and
      named below its root; the budget answers as a ledger of the calls in
      flight does; a response that is accepted fits its call.
    - Wire protocol.  The session machine accepts exactly the sequences the
      protocol permits, keeps its ledger within the limits and stays failed
      once it has failed; the traversal of a JSON text returns and accepts
      exactly the admissible objects; what is written is read back, however
      the writes are split; an error poisons the codec.
    - Divergences.  Closed theorems exhibit where the code does not do what
      it or its documentation says: operands of a run-time bank are not bounded by
      the gate, jumps and extension words are not checked, undefined reads are
      never reported, a native call counts as a call of function 0, the
      alias test ignores recorded parameter registers, a pool ceiling above the
      index width makes indices collide, joined components are counted as one,
      a refill of one chunk refuses what the budget covers, the elisions
      drop truncations and masks that were needed, two paths of the
      compiler hand out a register that a live variable or pointer occupies,
      straightening skips a block, the check of a listing overflows, a get of
      the pool misses what other slots hold ([get_misses_other_slots]), a bank
      grown past its frame goes stale ([stale_bank_survives]), a release leaves
      scalars behind ([release_leaves_scalars]), byte slices are not sized
      ([byte_slices_not_sized]), the closure hint counts the upvalues of
      the wrong function, the jump fused into an addition lands a word late,
      a write to a bank the word does not name passes for a write to all, and value
      numbering forgets loops and joins.

    ** Integers, fuel and partiality

    [int] is 64 bits.  Lengths of slices are unbounded naturals; theorems that
    need a stream to fit in memory assume [wf_body], whose bound is [2^61]
    words.  Loops that are not structural take fuel: the body's length for
    walks along a body, where each turn advances; the size of the store plus
    one for the traversal of functions; the iteration cap for the worklist,
    which the code has as well; the recursion limits of the call-graph
    searches, which the code has as well; 1024 turns for a span.  [execute]
    takes the number of steps as its fuel, and says when it ran out.  The
    range solver takes 530 turns a block, from a measure that every turn
    lowers; reachability takes a turn a word; the dominator sweeps are capped
    at 64, as in the code; the JSON traversal takes two calls a token of its
    budget; a write takes a turn a byte; a lone goroutine of the pool takes two
    turns a shard, and the capacity, and ten; a drain takes a turn an object
    and one; the sizing walk two and a turn an edge; the searches over the call
    graph have a budget of 4096 calls, which programs of at most 4096
    functions do not reach; the search for dead registers has a budget of 4096
    words and fuel for one more; the scan of a copy 24 words and one, that of a
    move 64, as in the code.  Each other has a
    theorem or lemma that the fuel is never what ends it.  A Go panic is a
    value ([None] or [indexPanic]), an error is a value of a sum or an outcome.

    ** What is not modelled

    The compiler front end, the other optimisation passes (redundancy and
    hoisting of loads and bounds checks, pointer aliases), the fusions that
    [FusionPass] excludes as far as their runs go (copies, nil tests, map
    lookups, strings, appends and moves, which are defined and not proved), the slabs of strings,
    boxes and slice backings of the arena with the collector and its budget, the
    reflection-backed operations, the handlers of calls, floats, slices, maps
    and channels of the machine, the assembly dispatch and the frames it
    pushes, machines without an arena, the poisoning of the paranoid build,
    bytecode files, the sandbox processes behind the wire protocol and the
    application around them.  Error texts are
    structured values, and debug tables are left out of [CompiledFunction].
    In [ArgCopy] the values a boxing conversion produces are a parameter.

    ** Plan

    Next: move elimination against [OpenMachine]; policies and restricted
    roots; the second elision where its tests are
    exact; redundancy of loads and bounds checks, pointer aliases; panics and
    deferred calls; the collector's budget; the debugger; the linker; the
    bytecode file round trip.

    This file holds the shared prelude. *)

From Stdlib Require Import ZArith Lia Bool.
From stdpp Require Export base tactics option list numbers strings gmap.

#[export] Set Default Goal Selector "!".

Declare Scope pipit_scope.
Delimit Scope pipit_scope with pipit.

(** ** Machine integers

    Go's fixed-width integers are values of [Z] in the range of their type; a
    conversion between widths wraps, as Go's does.  [int] is 64 bits wide, as
    it is on every platform the engine's assembly targets. *)

Definition isU (w x : Z) : Prop := (0 ≤ x < 2 ^ w)%Z.
Definition isS (w x : Z) : Prop := (- 2 ^ (w - 1) ≤ x < 2 ^ (w - 1))%Z.

Definition wrapU (w x : Z) : Z := (x mod 2 ^ w)%Z.
Definition wrapS (w x : Z) : Z := ((x + 2 ^ (w - 1)) mod 2 ^ w - 2 ^ (w - 1))%Z.

Notation byte_ok := (isU 8) (only parsing).

#[export] Instance isU_dec w x : Decision (isU w x).
Proof. unfold isU. apply _. Defined.
#[export] Instance isS_dec w x : Decision (isS w x).
Proof. unfold isS. apply _. Defined.

Definition MaxUint8 : Z := 255.
Definition MaxUint16 : Z := 65535.
Definition MaxUint32 : Z := 4294967295.
Definition MaxUint64 : Z := 18446744073709551615.
Definition MaxInt8 : Z := 127.
Definition MinInt8 : Z := -128.
Definition MaxInt16 : Z := 32767.
Definition MinInt16 : Z := -32768.
Definition MaxInt32 : Z := 2147483647.
Definition MinInt32 : Z := -2147483648.
Definition MaxInt64 : Z := 9223372036854775807.
Definition MinInt64 : Z := -9223372036854775808.
Definition MaxInt : Z := MaxInt64.
Definition MinInt : Z := MinInt64.

Create HintDb word.
#[export] Hint Unfold isU isS wrapU wrapS MaxUint8 MaxUint16 MaxUint32 MaxUint64
  MaxInt8 MinInt8 MaxInt16 MinInt16 MaxInt32 MinInt32 MaxInt64 MinInt64 MaxInt
  MinInt : word.

(** Closed powers of two become numerals, so that [lia] sees linear facts. *)
Ltac norm_pow :=
  repeat match goal with
  | |- context [(2 ^ ?e)%Z] =>
      let e' := eval vm_compute in e in
      let v := eval vm_compute in (2 ^ e')%Z in
      match v with Z.pos _ => change (2 ^ e)%Z with v end
  | H : context [(2 ^ ?e)%Z] |- _ =>
      let e' := eval vm_compute in e in
      let v := eval vm_compute in (2 ^ e')%Z in
      match v with Z.pos _ => change (2 ^ e)%Z with v in H end
  end.

Ltac word_unfold := autounfold with word in *; norm_pow.

(** Linear facts about machine words of a known width. *)
Ltac word := word_unfold; Z.div_mod_to_equations; lia.

(** A [switch] over constants becomes a chain of boolean tests; this turns
    the tests in the context into equations. *)
Ltac bool_hyps :=
  repeat match goal with
  | H : andb _ _ = true |- _ => apply andb_true_iff in H; destruct H
  | H : andb _ _ = false |- _ => apply andb_false_iff in H
  | H : orb _ _ = false |- _ => apply orb_false_iff in H; destruct H
  | H : orb _ _ = true |- _ => apply orb_true_iff in H
  | H : negb _ = true |- _ => apply negb_true_iff in H
  | H : negb _ = false |- _ => apply negb_false_iff in H
  | H : Z.eqb _ _ = true |- _ => apply Z.eqb_eq in H
  | H : Z.eqb _ _ = false |- _ => apply Z.eqb_neq in H
  | H : Z.leb _ _ = true |- _ => apply Z.leb_le in H
  | H : Z.leb _ _ = false |- _ => apply Z.leb_gt in H
  | H : Z.ltb _ _ = true |- _ => apply Z.ltb_lt in H
  | H : Z.ltb _ _ = false |- _ => apply Z.ltb_ge in H
  end.

(** Case analysis on every [if] of the goal, with its test as a fact. *)
Ltac case_if :=
  match goal with
  | |- context [if ?b then _ else _] => let E := fresh "E" in destruct b eqn:E
  end.
Ltac case_ifs := repeat (case_if; bool_hyps).

Lemma wrapU_range w x : (0 ≤ w)%Z → isU w (wrapU w x).
Proof. intros. unfold isU, wrapU. apply Z.mod_pos_bound. lia. Qed.

Lemma wrapU_id w x : isU w x → wrapU w x = x.
Proof. intros. by apply Z.mod_small. Qed.

Lemma pow_half w : (0 < w)%Z → (2 ^ w = 2 * 2 ^ (w - 1))%Z.
Proof. intros. rewrite <- Z.pow_succ_r by lia. f_equal; lia. Qed.

Lemma wrapS_range w x : (0 < w)%Z → isS w (wrapS w x).
Proof.
  intros Hw. unfold isS, wrapS. pose proof (pow_half w Hw).
  pose proof (Z.mod_pos_bound (x + 2 ^ (w - 1)) (2 ^ w)). lia.
Qed.

Lemma wrapS_id w x : (0 < w)%Z → isS w x → wrapS w x = x.
Proof.
  intros Hw Hx. unfold isS, wrapS in *. pose proof (pow_half w Hw).
  rewrite Z.mod_small; lia.
Qed.

(** A signed and an unsigned view of the same bits determine each other. *)
Lemma wrapS_wrapU w x : (0 < w)%Z → isS w x → wrapS w (wrapU w x) = x.
Proof.
  intros Hw Hx. unfold wrapS, wrapU.
  rewrite Zplus_mod_idemp_l. by apply wrapS_id.
Qed.

Lemma wrapU_wrapS w x : (0 < w)%Z → isU w x → wrapU w (wrapS w x) = x.
Proof.
  intros Hw Hx. unfold wrapS, wrapU.
  rewrite Zminus_mod_idemp_l. rewrite Z.add_simpl_r. by apply Z.mod_small.
Qed.

(** Machine words are closed under the bitwise operators: what lies above the
    width is all zeros, or for a signed word all copies of the sign. *)

Lemma isU_shiftr w x : (0 ≤ w)%Z → isU w x ↔ Z.shiftr x w = 0%Z.
Proof.
  intros Hw. unfold isU. rewrite Z.shiftr_div_pow2 by done.
  pose proof (Z.pow_pos_nonneg 2 w). split.
  - intros ?. by apply Z.div_small.
  - intros Hd. pose proof (Z.div_mod x (2 ^ w)). pose proof (Z.mod_pos_bound x (2 ^ w)). lia.
Qed.

Lemma isS_shiftr w x :
  (0 < w)%Z → isS w x ↔ Z.shiftr x (w - 1) = 0%Z ∨ Z.shiftr x (w - 1) = (-1)%Z.
Proof.
  intros Hw. unfold isS. rewrite Z.shiftr_div_pow2 by lia.
  pose proof (Z.pow_pos_nonneg 2 (w - 1)).
  pose proof (Z.div_mod x (2 ^ (w - 1))). pose proof (Z.mod_pos_bound x (2 ^ (w - 1))).
  split.
  - intros ?. assert (-1 <= x / 2 ^ (w - 1) < 1)%Z; [|lia].
    split; [apply Z.div_le_lower_bound; lia|apply Z.div_lt_upper_bound; lia].
  - intros [Hd|Hd]; rewrite Hd in *; lia.
Qed.

Lemma isU_bitwise w x y :
  (0 ≤ w)%Z → isU w x → isU w y →
  isU w (Z.land x y) ∧ isU w (Z.lor x y) ∧ isU w (Z.lxor x y).
Proof.
  intros Hw. rewrite !isU_shiftr by done. intros Hx Hy.
  by rewrite Z.shiftr_land, Z.shiftr_lor, Z.shiftr_lxor, Hx, Hy.
Qed.

Lemma isS_bitwise w x y :
  (0 < w)%Z → isS w x → isS w y →
  isS w (Z.land x y) ∧ isS w (Z.lor x y) ∧ isS w (Z.lxor x y) ∧ isS w (Z.lnot x).
Proof.
  intros Hw. rewrite !isS_shiftr by done. intros Hx Hy.
  rewrite Z.shiftr_land, Z.shiftr_lor, Z.shiftr_lxor.
  replace (Z.shiftr (Z.lnot x) (w - 1)) with (Z.lnot (Z.shiftr x (w - 1))).
  - destruct Hx as [-> | ->], Hy as [-> | ->]; vm_compute; tauto.
  - apply Z.bits_inj'. intros n Hn.
    rewrite Z.lnot_spec, !Z.shiftr_spec, Z.lnot_spec by lia. done.
Qed.

(** ** Bytes

    A property of one byte, stated as a boolean, holds of every byte when it
    evaluates to [true] on the 256 of them. *)

Definition all_bytes : list Z := seqZ 0 256.

Lemma forall_byte (P : Z → bool) :
  forallb P all_bytes = true → ∀ b, byte_ok b → P b = true.
Proof.
  intros H b Hb. rewrite forallb_forall in H. apply H.
  apply list_elem_of_In, elem_of_seqZ. word.
Qed.

(** A 16-bit value is its two bytes. *)
Lemma lor_shiftl_add lo hi k :
  (0 ≤ k)%Z → isU k lo → Z.lor lo (Z.shiftl hi k) = (lo + hi * 2 ^ k)%Z.
Proof.
  intros Hk Hlo. rewrite Z.shiftl_mul_pow2 by done.
  rewrite Z.add_nocarry_lxor, Z.lxor_lor; [done| |].
  all: apply Z.bits_inj'; intros n Hn; rewrite Z.land_spec, Z.bits_0.
  all: destruct (decide (n < k)%Z);
    [rewrite Z.mul_pow2_bits_low by lia; by rewrite andb_false_r|].
  all: destruct (decide (lo = 0)%Z) as [->|]; [by rewrite Z.bits_0|].
  all: rewrite (Z.bits_above_log2 lo n); [done|unfold isU in Hlo; lia|].
  all: apply Z.log2_lt_pow2; [unfold isU in Hlo; lia|].
  all: unfold isU in Hlo; pose proof (Z.pow_le_mono_r 2 k n); lia.
Qed.

(** ** Switches

    A Go [switch] with several values in one [case] is a membership test. *)

Definition one_of (x : Z) (cs : list Z) : bool := existsb (Z.eqb x) cs.

Lemma one_of_spec x cs : one_of x cs = true ↔ x ∈ cs.
Proof.
  unfold one_of. rewrite existsb_exists. split.
  - intros (y & Hy & ->%Z.eqb_eq). by apply list_elem_of_In.
  - intros Hx. exists x. split; [by apply list_elem_of_In|apply Z.eqb_refl].
Qed.

(** Go indexes slices with [int]s: a negative index is out of range. *)
Definition zget {A} (l : list A) (i : Z) : option A :=
  if (i <? 0)%Z then None else l !! Z.to_nat i.

Definition zset {A} (l : list A) (i : Z) (x : A) : list A :=
  if (i <? 0)%Z then l else <[Z.to_nat i := x]> l.

Notation zlen l := (Z.of_nat (length l)).

Section zlist.
Context {A : Type}.
Implicit Types (l : list A) (i j : Z) (x : A).

Lemma zget_Some_range l i x : zget l i = Some x → (0 ≤ i < zlen l)%Z.
Proof.
  unfold zget. intros H. destruct (i <? 0)%Z eqn:E; [done|]. bool_hyps.
  apply lookup_lt_Some in H. lia.
Qed.

Lemma zget_lookup l i : (0 ≤ i)%Z → zget l i = l !! Z.to_nat i.
Proof. intros. unfold zget. case_if; bool_hyps; [lia|done]. Qed.

Lemma zget_is_Some l i : (0 ≤ i < zlen l)%Z → ∃ x, zget l i = Some x.
Proof.
  intros H. rewrite zget_lookup by lia. apply lookup_lt_is_Some. lia.
Qed.

Lemma zget_None l i : zget l i = None ↔ ¬ (0 ≤ i < zlen l)%Z.
Proof.
  unfold zget. case_if; bool_hyps.
  - split; [lia|done].
  - rewrite lookup_ge_None. lia.
Qed.

Lemma length_zset l i x : length (zset l i x) = length l.
Proof. unfold zset. case_if; [done|]. apply length_insert. Qed.

Lemma zget_zset_eq l i x : (0 ≤ i < zlen l)%Z → zget (zset l i x) i = Some x.
Proof.
  intros H. unfold zset, zget. case_if; bool_hyps; [lia|].
  apply list_lookup_insert_eq. lia.
Qed.

Lemma zget_zset_ne l i j x : i ≠ j → zget (zset l i x) j = zget l j.
Proof.
  intros H. unfold zset, zget.
  destruct (i <? 0)%Z eqn:Ei; [done|]. destruct (j <? 0)%Z eqn:Ej; [done|].
  bool_hyps. apply list_lookup_insert_ne. lia.
Qed.

Lemma zget_zset l i j x :
  zget (zset l i x) j =
    if (i =? j)%Z then (if bool_decide (0 ≤ j < zlen l)%Z then Some x else None)
    else zget l j.
Proof.
  case_if; bool_hyps; subst.
  - case_bool_decide; [by apply zget_zset_eq|].
    apply zget_None. by rewrite length_zset.
  - by apply zget_zset_ne.
Qed.

Lemma zset_id l i x : zget l i = Some x → zset l i x = l.
Proof.
  unfold zget, zset. intros H. case_if; [done|]. by apply list_insert_id.
Qed.
End zlist.

Lemma zset_zset {A} (l : list A) i x y : zset (zset l i x) i y = zset l i y.
Proof. unfold zset. case_if; [done|]. apply list_insert_insert_eq. Qed.

Lemma zget_seqZ n i : (0 ≤ i < n)%Z → zget (seqZ 0 n) i = Some i.
Proof. intros. rewrite zget_lookup by lia. apply lookup_seqZ. lia. Qed.

Lemma zget_replicate {A} n (x : A) i : (0 ≤ i < Z.of_nat n)%Z → zget (replicate n x) i = Some x.
Proof. intros. rewrite zget_lookup by lia. apply lookup_replicate_2. lia. Qed.

Lemma zget_map {A B} (g : A → B) l i y :
  zget (map g l) i = Some y ↔ ∃ x, zget l i = Some x ∧ y = g x.
Proof.
  destruct (decide (0 ≤ i)%Z) as [Hi|Hi].
  - rewrite !zget_lookup by done. rewrite list_lookup_fmap_Some. naive_solver.
  - split; [|intros (x & H & _)]; [intros H|]; apply zget_Some_range in H; lia.
Qed.

Lemma elem_of_zget {A} (l : list A) x : x ∈ l ↔ ∃ i, zget l i = Some x.
Proof.
  rewrite list_elem_of_lookup. split; intros [i Hi].
  - exists (Z.of_nat i). rewrite zget_lookup by lia. by rewrite Nat2Z.id.
  - pose proof (zget_Some_range _ _ _ Hi). exists (Z.to_nat i). by rewrite zget_lookup in Hi by lia.
Qed.

Create HintDb pipit.
#[export] Hint Rewrite @length_zset : pipit.
#[export] Hint Resolve wrapU_range wrapS_range : pipit.

#[global] Open Scope Z_scope.
