(* ===== verification/SafeConv.v ===== *)
(** * Integer conversions

    [internal/safeconv/safeconv.go].  The saturating conversions clamp to the
    bounds of the target type; the [Must] conversions panic ([None]) when the
    value does not fit; the reinterpretations keep the bits.  Every argument is
    a [Z] in the range of its Go type. *)

From S2P Require Import Prelude.

(** ** Saturating conversions *)

Definition IntToUint64 (n : Z) : Z := if n <? 0 then 0 else wrapU 64 n.

Definition IntToUint32 (n : Z) : Z :=
  if n <? 0 then 0 else if MaxUint32 <? n then MaxUint32 else wrapU 32 n.

Definition IntToUint16 (n : Z) : Z :=
  if n <? 0 then 0 else if MaxUint16 <? n then MaxUint16 else wrapU 16 n.

Definition IntToUint8 (n : Z) : Z :=
  if n <? 0 then 0 else if MaxUint8 <? n then MaxUint8 else wrapU 8 n.

Definition IntToInt32 (n : Z) : Z :=
  if MaxInt32 <? n then MaxInt32 else if n <? MinInt32 then MinInt32 else wrapS 32 n.

Definition IntToInt16 (n : Z) : Z :=
  if MaxInt16 <? n then MaxInt16 else if n <? MinInt16 then MinInt16 else wrapS 16 n.

Definition Int64ToInt16 (n : Z) : Z :=
  if MaxInt16 <? n then MaxInt16 else if n <? MinInt16 then MinInt16 else wrapS 16 n.

Definition IntToInt8 (n : Z) : Z :=
  if MaxInt8 <? n then MaxInt8 else if n <? MinInt8 then MinInt8 else wrapS 8 n.

Definition Int64ToUint32 (n : Z) : Z :=
  if n <? 0 then 0 else if MaxUint32 <? n then MaxUint32 else wrapU 32 n.

Definition Int64ToInt32 (n : Z) : Z :=
  if MaxInt32 <? n then MaxInt32 else if n <? MinInt32 then MinInt32 else wrapS 32 n.

Definition Int64ToUint16 (n : Z) : Z :=
  if n <? 0 then 0 else if MaxUint16 <? n then MaxUint16 else wrapU 16 n.

Definition Uint64ToUint32 (n : Z) : Z := if MaxUint32 <? n then MaxUint32 else wrapU 32 n.

Definition Uint64ToUint16 (n : Z) : Z := if MaxUint16 <? n then MaxUint16 else wrapU 16 n.

Definition Uint64ToUint8 (n : Z) : Z := if MaxUint8 <? n then MaxUint8 else wrapU 8 n.

Definition Uint64ToInt64 (n : Z) : Z := if MaxInt64 <? n then MaxInt64 else wrapS 64 n.

Definition Int64ToUint64 (n : Z) : Z := if n <? 0 then 0 else wrapU 64 n.

Definition Int64ToInt (n : Z) : Z :=
  if MaxInt <? n then MaxInt else if n <? MinInt then MinInt else wrapS 64 n.

Definition Uint64ToInt (n : Z) : Z := if MaxInt <? n then MaxInt else wrapS 64 n.

Definition IntToUintptr (n : Z) : Z := if n <? 0 then 0 else wrapU 64 n.

Definition Int32ToUint32 (n : Z) : Z := if n <? 0 then 0 else wrapU 32 n.

Definition Int16ToByte (n : Z) : Z :=
  if n <? 0 then 0 else if MaxUint8 <? n then MaxUint8 else wrapU 8 n.

Definition Uint32ToByte (n : Z) : Z := if MaxUint8 <? n then MaxUint8 else wrapU 8 n.

Definition RuneToUint16 (r : Z) : Z :=
  if r <? 0 then 0 else if MaxUint16 <? r then MaxUint16 else wrapU 16 r.

Definition RuneToByte (r : Z) : Z :=
  if r <? 0 then 0 else if MaxUint8 <? r then MaxUint8 else wrapU 8 r.

Definition Uint32ToInt16 (n : Z) : Z :=
  let v := wrapS 64 n in if MaxInt16 <? v then MaxInt16 else wrapS 16 v.

Definition Int64ToUint8 (n : Z) : Z :=
  if n <? 0 then 0 else if MaxUint8 <? n then MaxUint8 else wrapU 8 n.

Definition Int64ToInt8 (n : Z) : Z :=
  if MaxInt8 <? n then MaxInt8 else if n <? MinInt8 then MinInt8 else wrapS 8 n.

Definition Uint16ToUint8 (n : Z) : Z := if MaxUint8 <? n then MaxUint8 else wrapU 8 n.

Definition UintToUint8 (n : Z) : Z := if MaxUint8 <? n then MaxUint8 else wrapU 8 n.

Definition UintptrToInt (n : Z) : Z :=
  if wrapU 64 MaxInt <? wrapU 64 n then MaxInt else wrapS 64 n.

Definition UintptrToInt64 (n : Z) : Z :=
  if wrapU 64 MaxInt64 <? wrapU 64 n then MaxInt64 else wrapS 64 n.

(** ** Conversions that cannot lose a value *)

Definition Int32ToInt64 (n : Z) : Z := wrapS 64 n.
Definition Int32ToInt (n : Z) : Z := wrapS 64 n.
Definition Uint32ToInt64 (n : Z) : Z := wrapS 64 n.

(** ** Panicking conversions *)

Definition MustIntToUint8 (n : Z) : option Z :=
  if (n <? 0) || (MaxUint8 <? n) then None else Some (wrapU 8 n).

Definition MustIntToUint16 (n : Z) : option Z :=
  if (n <? 0) || (MaxUint16 <? n) then None else Some (wrapU 16 n).

Definition MustIntToInt16 (n : Z) : option Z :=
  if (n <? MinInt16) || (MaxInt16 <? n) then None else Some (wrapS 16 n).

Definition MustUintToUint8 (n : Z) : option Z :=
  if MaxUint8 <? n then None else Some (wrapU 8 n).

Definition MustUint8ToInt8 (n : Z) : option Z :=
  if MaxInt8 <? n then None else Some (wrapS 8 n).

Definition MustInt8ToUint8 (n : Z) : option Z :=
  if n <? 0 then None else Some (wrapU 8 n).

(** ** Reinterpretations and truncations *)

Definition Uint16ToInt16 (n : Z) : Z := wrapS 16 n.
Definition Int16ToUint16 (n : Z) : Z := wrapU 16 n.
Definition Int64ToUint64Reinterpret (n : Z) : Z := wrapU 64 n.
Definition Uint64ToInt64Reinterpret (n : Z) : Z := wrapS 64 n.
Definition Uint64ToByteTruncate (n : Z) : Z := wrapU 8 n.
Definition IntToUint32Truncate (n : Z) : Z := wrapU 32 n.

(** ** Saturation

    What a saturating conversion promises: the value of the target range that
    is nearest to the argument. *)

Definition saturates (lo hi : Z) (src : Z → Prop) (conv : Z → Z) : Prop :=
  ∀ n, src n → conv n = Z.max lo (Z.min hi n).

Lemma saturates_range lo hi src conv n :
  lo ≤ hi → saturates lo hi src conv → src n → lo ≤ conv n ≤ hi.
Proof. intros Hle H Hn. rewrite (H n Hn). lia. Qed.

Lemma saturates_id lo hi src conv n :
  saturates lo hi src conv → src n → lo ≤ n ≤ hi → conv n = n.
Proof. intros H Hn Hr. rewrite (H n Hn). lia. Qed.

Lemma saturates_monotone lo hi src conv m n :
  saturates lo hi src conv → src m → src n → m ≤ n → conv m ≤ conv n.
Proof. intros H Hm Hn Hle. rewrite (H m Hm), (H n Hn). lia. Qed.

Ltac solve_saturates :=
  cbv beta iota; intros n Hn;
  match goal with |- ?conv n = _ => unfold conv end; cbv zeta; case_ifs; word.

(** Every saturating conversion of the package, with the ranges of its source
    and target types. *)
Definition saturating_conversions : list ((Z → Z) * (Z → Prop) * (Z * Z)) :=
  [ (IntToUint64, isS 64, (0, MaxUint64)); (IntToUint32, isS 64, (0, MaxUint32));
    (IntToUint16, isS 64, (0, MaxUint16)); (IntToUint8, isS 64, (0, MaxUint8));
    (IntToInt32, isS 64, (MinInt32, MaxInt32)); (IntToInt16, isS 64, (MinInt16, MaxInt16));
    (Int64ToInt16, isS 64, (MinInt16, MaxInt16)); (IntToInt8, isS 64, (MinInt8, MaxInt8));
    (Int64ToUint32, isS 64, (0, MaxUint32)); (Int64ToInt32, isS 64, (MinInt32, MaxInt32));
    (Int64ToUint16, isS 64, (0, MaxUint16)); (Uint64ToUint32, isU 64, (0, MaxUint32));
    (Uint64ToUint16, isU 64, (0, MaxUint16)); (Uint64ToUint8, isU 64, (0, MaxUint8));
    (Uint64ToInt64, isU 64, (MinInt64, MaxInt64)); (Int64ToUint64, isS 64, (0, MaxUint64));
    (Int64ToInt, isS 64, (MinInt, MaxInt)); (Uint64ToInt, isU 64, (MinInt, MaxInt));
    (IntToUintptr, isS 64, (0, MaxUint64)); (Int32ToUint32, isS 32, (0, MaxUint32));
    (Int16ToByte, isS 16, (0, MaxUint8)); (Uint32ToByte, isU 32, (0, MaxUint8));
    (RuneToUint16, isS 32, (0, MaxUint16)); (RuneToByte, isS 32, (0, MaxUint8));
    (Uint32ToInt16, isU 32, (MinInt16, MaxInt16)); (Int64ToUint8, isS 64, (0, MaxUint8));
    (Int64ToInt8, isS 64, (MinInt8, MaxInt8)); (Uint16ToUint8, isU 16, (0, MaxUint8));
    (UintToUint8, isU 64, (0, MaxUint8)); (UintptrToInt, isU 64, (MinInt, MaxInt));
    (UintptrToInt64, isU 64, (MinInt64, MaxInt64)) ].

(** A panicking conversion keeps the value exactly when it fits and panics
    exactly when it does not. *)
Definition exact_or_panics (lo hi : Z) (src : Z → Prop) (conv : Z → option Z) : Prop :=
  ∀ n, src n → conv n = if decide (lo ≤ n ≤ hi) then Some n else None.

Definition panicking_conversions : list ((Z → option Z) * (Z → Prop) * (Z * Z)) :=
  [ (MustIntToUint8, isS 64, (0, MaxUint8)); (MustIntToUint16, isS 64, (0, MaxUint16));
    (MustIntToInt16, isS 64, (MinInt16, MaxInt16)); (MustUintToUint8, isU 64, (0, MaxUint8));
    (MustUint8ToInt8, isU 8, (MinInt8, MaxInt8)); (MustInt8ToUint8, isS 8, (0, MaxUint8)) ].

(** every saturating conversion returns, for every value of its source
    type, the value of its target type nearest to it. *)
Theorem saturating_conversions_clamp :
  Forall (λ '(conv, src, (lo, hi)), saturates lo hi src conv) saturating_conversions.
Proof.
  unfold saturating_conversions. repeat (apply Forall_cons; split; [solve_saturates|]). apply Forall_nil_2. Qed.

(** every [Must] conversion returns its argument when the target type
    holds it and panics otherwise. *)
Theorem panicking_conversions_exact :
  Forall (λ '(conv, src, (lo, hi)), exact_or_panics lo hi src conv) panicking_conversions.
Proof.
  unfold panicking_conversions.
  repeat (apply Forall_cons; split; [cbv beta iota; intros n Hn; match goal with |- ?f n = _ => unfold f end;
    case_decide; case_if; bool_hyps; try (f_equal; word); exfalso; word|]).
  apply Forall_nil_2.
Qed.

Lemma MustIntToInt16_fits n : isS 16 n → MustIntToInt16 n = Some n.
Proof. intros H. unfold MustIntToInt16. case_if; bool_hyps; [exfalso|f_equal]; word. Qed.
