(* ===== verification/Register.v ===== *)
(** * Register banks

    [internal/isa/register.go] and the constants of
    [internal/isa/encoding_constants.go].  A [RegisterKind] is a [uint8]:
    extension words carry one as an operand byte, so a kind is any byte and
    the named banks are constants. *)

From S2P Require Import Prelude.

Notation RegisterKind := Z (only parsing).

Definition RegisterInt : RegisterKind := 0.
Definition RegisterFloat : RegisterKind := 1.
Definition RegisterString : RegisterKind := 2.
Definition RegisterGeneral : RegisterKind := 3.
Definition RegisterBool : RegisterKind := 4.
Definition RegisterUint : RegisterKind := 5.
Definition RegisterComplex : RegisterKind := 6.
Definition RegisterSliceInt : RegisterKind := 7.
Definition RegisterSliceFloat : RegisterKind := 8.
Definition RegisterSliceString : RegisterKind := 9.
Definition RegisterSliceBool : RegisterKind := 10.
Definition RegisterSliceUint : RegisterKind := 11.
Definition RegisterSliceByte : RegisterKind := 12.

Definition NumRegisterKinds : Z := RegisterSliceByte + 1.

Definition NarrowIntegerBitWidth8 : Z := 8.
Definition NarrowIntegerBitWidth16 : Z := 16.
Definition NarrowIntegerBitWidth32 : Z := 32.

Definition RegisterKind_String (k : RegisterKind) : string :=
  if k =? RegisterInt then "int"
  else if k =? RegisterFloat then "float"
  else if k =? RegisterString then "string"
  else if k =? RegisterGeneral then "general"
  else if k =? RegisterBool then "bool"
  else if k =? RegisterUint then "uint"
  else if k =? RegisterComplex then "complex"
  else if k =? RegisterSliceInt then "sliceInt"
  else if k =? RegisterSliceFloat then "sliceFloat"
  else if k =? RegisterSliceString then "sliceString"
  else if k =? RegisterSliceBool then "sliceBool"
  else if k =? RegisterSliceUint then "sliceUint"
  else if k =? RegisterSliceByte then "sliceByte"
  else "unknown".

Definition IsTypedSliceKind (kind : RegisterKind) : bool :=
  one_of kind [RegisterSliceInt; RegisterSliceFloat; RegisterSliceString;
               RegisterSliceBool; RegisterSliceUint; RegisterSliceByte].

Definition ElementKindForTypedSlice (kind : RegisterKind) : RegisterKind :=
  if kind =? RegisterSliceInt then RegisterInt
  else if kind =? RegisterSliceFloat then RegisterFloat
  else if kind =? RegisterSliceString then RegisterString
  else if kind =? RegisterSliceBool then RegisterBool
  else if one_of kind [RegisterSliceUint; RegisterSliceByte] then RegisterUint
  else RegisterGeneral.

(** ** Encoding constants *)

Definition SliceMaxBitFlag : Z := 4.
Definition SliceLowBoundFlag : Z := 1.
Definition SliceHighBoundFlag : Z := 2.
Definition WideBitShift : Z := 8.
Definition SelectDirectionReceive : Z := 0.
Definition SelectDirectionSend : Z := 1.
Definition SelectDirectionDefault : Z := 2.
Definition SpillAreaOffset : Z := 256.

(** The banks, in order. *)
Definition allRegisterKinds : list RegisterKind := seqZ 0 NumRegisterKinds.

Lemma elem_allRegisterKinds k : k ∈ allRegisterKinds ↔ 0 ≤ k < NumRegisterKinds.
Proof. unfold allRegisterKinds. rewrite elem_of_seqZ. lia. Qed.

(** A kind has a name of its own exactly when it is a bank. *)
Lemma RegisterKind_String_injective :
  ∀ j k, j ∈ allRegisterKinds → k ∈ allRegisterKinds →
    RegisterKind_String j = RegisterKind_String k → j = k.
Proof.
  assert (H : Forall (λ j, Forall (λ k, RegisterKind_String j = RegisterKind_String k → j = k)
            allRegisterKinds) allRegisterKinds)
    by (vm_compute; repeat constructor; congruence).
  intros j k Hj Hk. rewrite Forall_forall in H. specialize (H j Hj).
  rewrite Forall_forall in H. by apply H.
Qed.
