(* ===== verification/Opcode.v ===== *)
(** * The opcode enumerations of the instruction set

    [internal/isa/opcode.go]: the four tiers of operation codes.  Each Go
    type is a [uint8], so a code is a [Z] between 0 and 255, and each constant
    has the value its position in the [iota] block gives it.  The operation
    byte of an instruction selects a tier-0 operation; when it is
    [OpDrillTier1] the A byte selects a tier-1 operation, and so on. *)

From S2P Require Import Prelude.

Notation Opcode := Z (only parsing).
Notation SubOpcode := Z (only parsing).
Notation SubOpcodeTier2 := Z (only parsing).
Notation SubOpcodeTier3 := Z (only parsing).


(** ** Opcode *)

Definition OpDrillTier1 : Opcode := 0.
Definition OpExt : Opcode := 1.
Definition OpLoadIntConst : Opcode := 2.
Definition OpLoadFloatConst : Opcode := 3.
Definition OpAddInt : Opcode := 4.
Definition OpSubInt : Opcode := 5.
Definition OpMulInt : Opcode := 6.
Definition OpDivInt : Opcode := 7.
Definition OpRemInt : Opcode := 8.
Definition OpBitAnd : Opcode := 9.
Definition OpBitOr : Opcode := 10.
Definition OpBitXor : Opcode := 11.
Definition OpBitAndNot : Opcode := 12.
Definition OpShiftLeft : Opcode := 13.
Definition OpShiftRight : Opcode := 14.
Definition OpAddFloat : Opcode := 15.
Definition OpSubFloat : Opcode := 16.
Definition OpMulFloat : Opcode := 17.
Definition OpDivFloat : Opcode := 18.
Definition OpEqInt : Opcode := 19.
Definition OpNeInt : Opcode := 20.
Definition OpLtInt : Opcode := 21.
Definition OpLeInt : Opcode := 22.
Definition OpGtInt : Opcode := 23.
Definition OpGeInt : Opcode := 24.
Definition OpEqFloat : Opcode := 25.
Definition OpNeFloat : Opcode := 26.
Definition OpLtFloat : Opcode := 27.
Definition OpLeFloat : Opcode := 28.
Definition OpGtFloat : Opcode := 29.
Definition OpGeFloat : Opcode := 30.
Definition OpJumpIfTrue : Opcode := 31.
Definition OpJumpIfFalse : Opcode := 32.
Definition OpSubIntConst : Opcode := 33.
Definition OpAddIntConst : Opcode := 34.
Definition OpMulIntConst : Opcode := 35.
Definition OpAddIntJump : Opcode := 36.
Definition OpStringIndex : Opcode := 37.
Definition OpEqString : Opcode := 38.
Definition OpNeString : Opcode := 39.
Definition OpSliceString : Opcode := 40.
Definition OpStringIndexToInt : Opcode := 41.
Definition OpMoveGeneral : Opcode := 42.
Definition OpLoadStringConst : Opcode := 43.
Definition OpLoadGeneralConst : Opcode := 44.
Definition OpLoadUintConst : Opcode := 45.
Definition OpLoadComplexConst : Opcode := 46.
Definition OpAddUint : Opcode := 47.
Definition OpSubUint : Opcode := 48.
Definition OpMulUint : Opcode := 49.
Definition OpDivUint : Opcode := 50.
Definition OpRemUint : Opcode := 51.
Definition OpBitAndUint : Opcode := 52.
Definition OpBitOrUint : Opcode := 53.
Definition OpBitXorUint : Opcode := 54.
Definition OpBitAndNotUint : Opcode := 55.
Definition OpShiftLeftUint : Opcode := 56.
Definition OpShiftRightUint : Opcode := 57.
Definition OpEqUint : Opcode := 58.
Definition OpNeUint : Opcode := 59.
Definition OpLtUint : Opcode := 60.
Definition OpLeUint : Opcode := 61.
Definition OpGtUint : Opcode := 62.
Definition OpGeUint : Opcode := 63.
Definition OpAddComplex : Opcode := 64.
Definition OpSubComplex : Opcode := 65.
Definition OpMulComplex : Opcode := 66.
Definition OpDivComplex : Opcode := 67.
Definition OpEqComplex : Opcode := 68.
Definition OpNeComplex : Opcode := 69.
Definition OpBuildComplex : Opcode := 70.
Definition OpConcatString : Opcode := 71.
Definition OpConcatRuneString : Opcode := 72.
Definition OpLtString : Opcode := 73.
Definition OpLeString : Opcode := 74.
Definition OpGtString : Opcode := 75.
Definition OpGeString : Opcode := 76.
Definition OpEqGeneral : Opcode := 77.
Definition OpNeGeneral : Opcode := 78.
Definition OpLtGeneral : Opcode := 79.
Definition OpLeGeneral : Opcode := 80.
Definition OpGtGeneral : Opcode := 81.
Definition OpGeGeneral : Opcode := 82.
Definition OpAdd : Opcode := 83.
Definition OpSub : Opcode := 84.
Definition OpMul : Opcode := 85.
Definition OpDiv : Opcode := 86.
Definition OpRem : Opcode := 87.
Definition OpTruncateNarrow : Opcode := 88.
Definition OpPackInterface : Opcode := 89.
Definition OpUnpackInterface : Opcode := 90.
Definition OpTestNilJumpTrue : Opcode := 91.
Definition OpTestNilJumpFalse : Opcode := 92.
Definition OpMakeClosure : Opcode := 93.
Definition OpGetUpvalue : Opcode := 94.
Definition OpSetUpvalue : Opcode := 95.
Definition OpDefer : Opcode := 96.
Definition OpGo : Opcode := 97.
Definition OpMakeSlice : Opcode := 98.
Definition OpIndex : Opcode := 99.
Definition OpIndexSet : Opcode := 100.
Definition OpMapIndex : Opcode := 101.
Definition OpMapSet : Opcode := 102.
Definition OpMapIndexOk : Opcode := 103.
Definition OpAppend : Opcode := 104.
Definition OpAppendSpread : Opcode := 105.
Definition OpAppendByteFast : Opcode := 106.
Definition OpCopy : Opcode := 107.
Definition OpSliceGetInt : Opcode := 108.
Definition OpSliceSetInt : Opcode := 109.
Definition OpSliceGetFloat : Opcode := 110.
Definition OpSliceSetFloat : Opcode := 111.
Definition OpSliceGetString : Opcode := 112.
Definition OpSliceSetString : Opcode := 113.
Definition OpSliceGetBool : Opcode := 114.
Definition OpSliceSetBool : Opcode := 115.
Definition OpSliceGetUint : Opcode := 116.
Definition OpSliceSetUint : Opcode := 117.
Definition OpLoadCompositeZeroReuse : Opcode := 118.
Definition OpRangeNextSliceByte : Opcode := 119.
Definition OpMapGetIntInt : Opcode := 120.
Definition OpMapSetIntInt : Opcode := 121.
Definition OpMapGetStringInt : Opcode := 122.
Definition OpMapSetStringInt : Opcode := 123.
Definition OpMapGetStringString : Opcode := 124.
Definition OpMapSetStringString : Opcode := 125.
Definition OpMapGetIntString : Opcode := 126.
Definition OpMapSetIntString : Opcode := 127.
Definition OpMapIndexOkIntInt : Opcode := 128.
Definition OpMapIndexOkStringInt : Opcode := 129.
Definition OpMapIndexOkStringString : Opcode := 130.
Definition OpMapIndexOkIntString : Opcode := 131.
Definition OpMapGetIntGeneral : Opcode := 132.
Definition OpMapIndexOkIntGeneral : Opcode := 133.
Definition OpMapGetStringGeneral : Opcode := 134.
Definition OpMapIndexOkStringGeneral : Opcode := 135.
Definition OpMapSetStringGeneral : Opcode := 136.
Definition OpMapAddIntInt : Opcode := 137.
Definition OpMapAddStringInt : Opcode := 138.
Definition OpGetField : Opcode := 139.
Definition OpSetField : Opcode := 140.
Definition OpSetFieldInt : Opcode := 141.
Definition OpGetFieldInt : Opcode := 142.
Definition OpBindMethod : Opcode := 143.
Definition OpChannelSend : Opcode := 144.
Definition OpAddr : Opcode := 145.
Definition OpDeref : Opcode := 146.
Definition OpAllocIndirect : Opcode := 147.
Definition OpTypeAssert : Opcode := 148.
Definition OpConvert : Opcode := 149.
Definition OpGetGlobal : Opcode := 150.
Definition OpSetGlobal : Opcode := 151.
Definition OpUnsafeString : Opcode := 152.
Definition OpUnsafeSlice : Opcode := 153.
Definition OpUnsafeAdd : Opcode := 154.
Definition OpStrContainsRune : Opcode := 155.
Definition OpStrContains : Opcode := 156.
Definition OpStrHasPrefix : Opcode := 157.
Definition OpStrHasSuffix : Opcode := 158.
Definition OpStrEqualFold : Opcode := 159.
Definition OpStrIndex : Opcode := 160.
Definition OpStrCount : Opcode := 161.
Definition OpStrTrimPrefix : Opcode := 162.
Definition OpStrTrimSuffix : Opcode := 163.
Definition OpStrTrim : Opcode := 164.
Definition OpStrIndexRune : Opcode := 165.
Definition OpStrRepeat : Opcode := 166.
Definition OpStrLastIndex : Opcode := 167.
Definition OpStrJoin : Opcode := 168.
Definition OpStrSplit : Opcode := 169.
Definition OpStrReplaceAll : Opcode := 170.
Definition OpMathPow : Opcode := 171.
Definition OpSliceGetIntDirect : Opcode := 172.
Definition OpSliceSetIntDirect : Opcode := 173.
Definition OpRangeNextSliceInt : Opcode := 174.
Definition OpGetStructFieldIntT0 : Opcode := 175.
Definition OpSetStructFieldIntT0 : Opcode := 176.
Definition OpGetStructFieldUint : Opcode := 177.
Definition OpSetStructFieldUint : Opcode := 178.
Definition OpGetStructFieldFloat : Opcode := 179.
Definition OpSetStructFieldFloat : Opcode := 180.
Definition OpGetStructFieldBool : Opcode := 181.
Definition OpSetStructFieldBool : Opcode := 182.
Definition OpGetStructFieldGeneral : Opcode := 183.
Definition OpSetStructFieldGeneral : Opcode := 184.
Definition OpCopyStructFieldGeneralT0 : Opcode := 185.
Definition OpSliceIndexStructFieldInt : Opcode := 186.
Definition OpSliceIndexStructFieldUint : Opcode := 187.
Definition OpSliceIndexStructFieldFloat : Opcode := 188.
Definition OpSliceIndexStructFieldBool : Opcode := 189.
Definition OpSliceIndexStructFieldString : Opcode := 190.
Definition OpMapIndexOkJumpIfFalseIntInt : Opcode := 191.
Definition OpMapIndexOkJumpIfFalseStringInt : Opcode := 192.
Definition OpMapIndexOkJumpIfFalseStringString : Opcode := 193.
Definition OpMapIndexOkJumpIfFalseIntString : Opcode := 194.
Definition OpMapIndexOkJumpIfFalseIntGeneral : Opcode := 195.
Definition OpMapIndexOkJumpIfFalseStringGeneral : Opcode := 196.
Definition OpSwapStructFieldsGeneralT0 : Opcode := 197.
Definition OpGetStructFieldRawPointerT0 : Opcode := 198.
Definition OpSliceGetIntDirectUnchecked : Opcode := 199.
Definition OpSliceSetIntDirectUnchecked : Opcode := 200.
Definition OpSliceGetIntUnchecked : Opcode := 201.
Definition OpSliceSetIntUnchecked : Opcode := 202.
Definition OpPackTyped : Opcode := 203.
Definition OpAppendByteFastInPlace : Opcode := 204.
Definition OpAppendInPlace : Opcode := 205.
Definition OpAppendSpreadInPlace : Opcode := 206.
Definition OpMapSetIntGeneral : Opcode := 207.
Definition OpGetStructFieldIndexGeneral : Opcode := 208.
Definition OpSetStructFieldIndexGeneral : Opcode := 209.
Definition OpDerefSliceGetInt : Opcode := 210.
Definition OpDerefSliceSetInt : Opcode := 211.
Definition OpGetStructFieldSliceLen : Opcode := 212.
Definition OpGetStructFieldSliceIndexScalar : Opcode := 213.
Definition OpAppendStructFast : Opcode := 214.
Definition OpAppendIntFast : Opcode := 215.
Definition OpAppendFloatFast : Opcode := 216.
Definition OpAppendStringFast : Opcode := 217.
Definition OpTypeSwitchCase : Opcode := 218.
Definition OpAddInt32 : Opcode := 219.
Definition OpSubInt32 : Opcode := 220.
Definition OpMulInt32 : Opcode := 221.
Definition OpAddInt32Const : Opcode := 222.
Definition OpSubInt32Const : Opcode := 223.
Definition OpAddUint32 : Opcode := 224.

(** ** SubOpcode *)

Definition SubOpDrillTier2 : SubOpcode := 0.
Definition SubOpMathSin : SubOpcode := 1.
Definition SubOpMathCos : SubOpcode := 2.
Definition SubOpMathExp : SubOpcode := 3.
Definition SubOpMathTan : SubOpcode := 4.
Definition SubOpMathMod : SubOpcode := 5.
Definition SubOpStrconvFormatBool : SubOpcode := 6.
Definition SubOpStrconvFormatInt : SubOpcode := 7.
Definition SubOpStrconvItoa : SubOpcode := 8.
Definition SubOpRealComplex : SubOpcode := 9.
Definition SubOpImagComplex : SubOpcode := 10.
Definition SubOpBytesToString : SubOpcode := 11.
Definition SubOpMakeMethodExpr : SubOpcode := 12.
Definition SubOpCap : SubOpcode := 13.
Definition SubOpNegComplex : SubOpcode := 14.
Definition SubOpMoveComplex : SubOpcode := 15.
Definition SubOpMakeSliceInt : SubOpcode := 16.
Definition SubOpLenSliceIntDirect : SubOpcode := 17.
Definition SubOpMakeSliceFloat : SubOpcode := 18.
Definition SubOpSliceGetFloatDirect : SubOpcode := 19.
Definition SubOpSliceSetFloatDirect : SubOpcode := 20.
Definition SubOpLenSliceFloatDirect : SubOpcode := 21.
Definition SubOpMakeSliceString : SubOpcode := 22.
Definition SubOpSliceGetStringDirect : SubOpcode := 23.
Definition SubOpSliceSetStringDirect : SubOpcode := 24.
Definition SubOpLenSliceStringDirect : SubOpcode := 25.
Definition SubOpMakeSliceBool : SubOpcode := 26.
Definition SubOpSliceGetBoolDirect : SubOpcode := 27.
Definition SubOpSliceSetBoolDirect : SubOpcode := 28.
Definition SubOpLenSliceBoolDirect : SubOpcode := 29.
Definition SubOpMakeSliceUint : SubOpcode := 30.
Definition SubOpSliceGetUintDirect : SubOpcode := 31.
Definition SubOpSliceSetUintDirect : SubOpcode := 32.
Definition SubOpLenSliceUintDirect : SubOpcode := 33.
Definition SubOpBoxSliceInt : SubOpcode := 34.
Definition SubOpMoveInt : SubOpcode := 35.
Definition SubOpMoveFloat : SubOpcode := 36.
Definition SubOpMoveString : SubOpcode := 37.
Definition SubOpMoveBool : SubOpcode := 38.
Definition SubOpMoveUint : SubOpcode := 39.
Definition SubOpMoveIntToGeneral : SubOpcode := 40.
Definition SubOpMoveGeneralToInt : SubOpcode := 41.
Definition SubOpMoveFloatToGeneral : SubOpcode := 42.
Definition SubOpMoveGeneralToFloat : SubOpcode := 43.
Definition SubOpMoveStringToGeneral : SubOpcode := 44.
Definition SubOpMoveGeneralToString : SubOpcode := 45.
Definition SubOpNegInt : SubOpcode := 46.
Definition SubOpNegFloat : SubOpcode := 47.
Definition SubOpBitNot : SubOpcode := 48.
Definition SubOpBitNotUint : SubOpcode := 49.
Definition SubOpIntToFloat : SubOpcode := 50.
Definition SubOpFloatToInt : SubOpcode := 51.
Definition SubOpNot : SubOpcode := 52.
Definition SubOpBoolToInt : SubOpcode := 53.
Definition SubOpIntToBool : SubOpcode := 54.
Definition SubOpIntToUint : SubOpcode := 55.
Definition SubOpUintToInt : SubOpcode := 56.
Definition SubOpUintToFloat : SubOpcode := 57.
Definition SubOpFloatToUint : SubOpcode := 58.
Definition SubOpMathSqrt : SubOpcode := 59.
Definition SubOpMathAbs : SubOpcode := 60.
Definition SubOpMathFloor : SubOpcode := 61.
Definition SubOpMathCeil : SubOpcode := 62.
Definition SubOpMathTrunc : SubOpcode := 63.
Definition SubOpMathRound : SubOpcode := 64.
Definition SubOpLenString : SubOpcode := 65.
Definition SubOpRuneToString : SubOpcode := 66.
Definition SubOpStrToUpper : SubOpcode := 67.
Definition SubOpStrToLower : SubOpcode := 68.
Definition SubOpStrTrimSpace : SubOpcode := 69.
Definition SubOpLen : SubOpcode := 70.
Definition SubOpStringToBytes : SubOpcode := 71.
Definition SubOpUnsafeStringData : SubOpcode := 72.
Definition SubOpUnsafeSliceData : SubOpcode := 73.
Definition SubOpJump : SubOpcode := 74.
Definition SubOpLoadIntConstSmall : SubOpcode := 75.
Definition SubOpLoadBool : SubOpcode := 76.
Definition SubOpIncIntJumpLt : SubOpcode := 77.
Definition SubOpLenStringLtJumpFalse : SubOpcode := 78.
Definition SubOpLoadZero : SubOpcode := 79.
Definition SubOpMakeChannel : SubOpcode := 80.
Definition SubOpMapDelete : SubOpcode := 81.
Definition SubOpChannelReceive : SubOpcode := 82.
Definition SubOpGetMethod : SubOpcode := 83.
Definition SubOpSpill : SubOpcode := 84.
Definition SubOpReload : SubOpcode := 85.
Definition SubOpGetStructFieldInt : SubOpcode := 86.
Definition SubOpGetStructFieldUint : SubOpcode := 87.
Definition SubOpGetStructFieldFloat : SubOpcode := 88.
Definition SubOpGetStructFieldBool : SubOpcode := 89.
Definition SubOpGetStructFieldString : SubOpcode := 90.
Definition SubOpSetStructFieldInt : SubOpcode := 91.
Definition SubOpSetStructFieldUint : SubOpcode := 92.
Definition SubOpSetStructFieldFloat : SubOpcode := 93.
Definition SubOpSetStructFieldBool : SubOpcode := 94.
Definition SubOpSetStructFieldString : SubOpcode := 95.
Definition SubOpAddUintConst : SubOpcode := 96.
Definition SubOpSubUintConst : SubOpcode := 97.
Definition SubOpBitAndUintConst : SubOpcode := 98.
Definition SubOpLoadUintConstSmall : SubOpcode := 99.
Definition SubOpAppendUint : SubOpcode := 100.
Definition SubOpAppendInt : SubOpcode := 101.
Definition SubOpAppendString : SubOpcode := 102.
Definition SubOpAppendFloat : SubOpcode := 103.
Definition SubOpAppendBool : SubOpcode := 104.
Definition SubOpStarAppendByteFast : SubOpcode := 105.
Definition SubOpStarAppendByteSpread : SubOpcode := 106.
Definition SubOpIncStructFieldInt : SubOpcode := 107.
Definition SubOpDecStructFieldInt : SubOpcode := 108.
Definition SubOpIncStructFieldUint : SubOpcode := 109.
Definition SubOpDecStructFieldUint : SubOpcode := 110.
Definition SubOpMakeSliceByte : SubOpcode := 111.
Definition SubOpSliceGetByteDirect : SubOpcode := 112.
Definition SubOpSliceSetByteDirect : SubOpcode := 113.
Definition SubOpLenSliceByteDirect : SubOpcode := 114.
Definition SubOpSliceByteSlice : SubOpcode := 115.
Definition SubOpLtIntJumpFalse : SubOpcode := 116.
Definition SubOpLeIntJumpFalse : SubOpcode := 117.
Definition SubOpGtIntJumpFalse : SubOpcode := 118.
Definition SubOpGeIntJumpFalse : SubOpcode := 119.
Definition SubOpEqIntJumpFalse : SubOpcode := 120.
Definition SubOpNeIntJumpFalse : SubOpcode := 121.
Definition SubOpLeIntConstJumpFalse : SubOpcode := 122.
Definition SubOpLtIntConstJumpFalse : SubOpcode := 123.
Definition SubOpEqIntConstJumpFalse : SubOpcode := 124.
Definition SubOpEqIntConstJumpTrue : SubOpcode := 125.
Definition SubOpGeIntConstJumpFalse : SubOpcode := 126.
Definition SubOpGtIntConstJumpFalse : SubOpcode := 127.
Definition SubOpCall : SubOpcode := 128.
Definition SubOpTailCall : SubOpcode := 129.
Definition SubOpCallNative : SubOpcode := 130.
Definition SubOpCallBuiltin : SubOpcode := 131.
Definition SubOpCallMethod : SubOpcode := 132.
Definition SubOpCallIIFE : SubOpcode := 133.
Definition SubOpCallScalar : SubOpcode := 134.
Definition SubOpCallMethodInlineable : SubOpcode := 135.
Definition SubOpEqStringConstJumpFalse : SubOpcode := 136.
Definition SubOpSelect : SubOpcode := 137.
Definition SubOpLoadBoolConst : SubOpcode := 138.
Definition SubOpResetSharedCell : SubOpcode := 139.
Definition SubOpWriteSharedCell : SubOpcode := 140.
Definition SubOpSliceOp : SubOpcode := 141.
Definition SubOpRangeInit : SubOpcode := 142.
Definition SubOpRangeNext : SubOpcode := 143.
Definition SubOpGetGlobalWide : SubOpcode := 144.
Definition SubOpSetGlobalWide : SubOpcode := 145.
Definition SubOpEqInterfaceNil : SubOpcode := 146.
Definition SubOpNeInterfaceNil : SubOpcode := 147.
Definition SubOpBoxSliceByte : SubOpcode := 148.
Definition SubOpSliceByteToString : SubOpcode := 149.
Definition SubOpEqUintConstJumpFalse : SubOpcode := 150.
Definition SubOpSimdDotProductFloat64 : SubOpcode := 151.
Definition SubOpSimdSumSliceFloat64 : SubOpcode := 152.
Definition SubOpSimdAddSliceFloat64 : SubOpcode := 153.
Definition SubOpSimdScaleSliceFloat64 : SubOpcode := 154.
Definition SubOpAdoptGeneralToSlicesFloat : SubOpcode := 155.
Definition SubOpAdoptGeneralToSlicesInt : SubOpcode := 156.
Definition SubOpAdoptGeneralToSlicesString : SubOpcode := 157.
Definition SubOpAdoptGeneralToSlicesBool : SubOpcode := 158.
Definition SubOpAdoptGeneralToSlicesUint : SubOpcode := 159.
Definition SubOpAdoptGeneralToSlicesByte : SubOpcode := 160.
Definition SubOpBoxSliceFloat : SubOpcode := 161.
Definition SubOpBoxSliceString : SubOpcode := 162.
Definition SubOpBoxSliceBool : SubOpcode := 163.
Definition SubOpBoxSliceUint : SubOpcode := 164.
Definition SubOpMoveSliceInt : SubOpcode := 165.
Definition SubOpMoveSliceFloat : SubOpcode := 166.
Definition SubOpMoveSliceString : SubOpcode := 167.
Definition SubOpMoveSliceBool : SubOpcode := 168.
Definition SubOpMoveSliceUint : SubOpcode := 169.
Definition SubOpMoveSliceByte : SubOpcode := 170.
Definition SubOpAppendSliceIntDirect : SubOpcode := 171.
Definition SubOpAppendSliceFloatDirect : SubOpcode := 172.
Definition SubOpAppendSliceStringDirect : SubOpcode := 173.
Definition SubOpAppendSliceBoolDirect : SubOpcode := 174.
Definition SubOpAppendSliceUintDirect : SubOpcode := 175.
Definition SubOpAppendSliceByteDirect : SubOpcode := 176.
Definition SubOpSliceSliceIntDirect : SubOpcode := 177.
Definition SubOpSliceSliceFloatDirect : SubOpcode := 178.
Definition SubOpSliceSliceStringDirect : SubOpcode := 179.
Definition SubOpSliceSliceBoolDirect : SubOpcode := 180.
Definition SubOpSliceSliceUintDirect : SubOpcode := 181.
Definition SubOpCopySliceIntDirect : SubOpcode := 182.
Definition SubOpCopySliceFloatDirect : SubOpcode := 183.
Definition SubOpCopySliceStringDirect : SubOpcode := 184.
Definition SubOpCopySliceBoolDirect : SubOpcode := 185.
Definition SubOpCopySliceUintDirect : SubOpcode := 186.
Definition SubOpCopySliceByteDirect : SubOpcode := 187.
Definition SubOpAppendUintInPlace : SubOpcode := 188.
Definition SubOpAppendByteSpreadInPlace : SubOpcode := 189.
Definition SubOpGetStructFieldSliceInt : SubOpcode := 190.
Definition SubOpGetStructFieldSliceFloat : SubOpcode := 191.
Definition SubOpGetStructFieldSliceUint : SubOpcode := 192.
Definition SubOpGetStructFieldSliceString : SubOpcode := 193.
Definition SubOpGetStructFieldSliceBool : SubOpcode := 194.
Definition SubOpGetStructFieldSliceByte : SubOpcode := 195.
Definition SubOpSetStructFieldSliceInt : SubOpcode := 196.
Definition SubOpSetStructFieldSliceFloat : SubOpcode := 197.
Definition SubOpSetStructFieldSliceUint : SubOpcode := 198.
Definition SubOpSetStructFieldSliceString : SubOpcode := 199.
Definition SubOpSetStructFieldSliceBool : SubOpcode := 200.
Definition SubOpSetStructFieldSliceByte : SubOpcode := 201.
Definition SubOpCapSliceIntDirect : SubOpcode := 202.
Definition SubOpCapSliceFloatDirect : SubOpcode := 203.
Definition SubOpCapSliceStringDirect : SubOpcode := 204.
Definition SubOpCapSliceBoolDirect : SubOpcode := 205.
Definition SubOpCapSliceUintDirect : SubOpcode := 206.
Definition SubOpCapSliceByteDirect : SubOpcode := 207.
Definition SubOpMakeSliceHeap : SubOpcode := 208.
Definition SubOpTypeSwitchJump : SubOpcode := 209.
Definition SubOpRoundFloat32 : SubOpcode := 210.
Definition SubOpRoundComplex64 : SubOpcode := 211.
Definition SubOpEqInterfaceStrict : SubOpcode := 212.
Definition SubOpNeInterfaceStrict : SubOpcode := 213.
Definition SubOpFieldAddr : SubOpcode := 214.

(** ** SubOpcodeTier2 *)

Definition SubOpTier2DrillTier3 : SubOpcodeTier2 := 0.
Definition SubOpTier2IncInt : SubOpcodeTier2 := 1.
Definition SubOpTier2DecInt : SubOpcodeTier2 := 2.
Definition SubOpTier2IncUint : SubOpcodeTier2 := 3.
Definition SubOpTier2DecUint : SubOpcodeTier2 := 4.
Definition SubOpTier2Panic : SubOpcodeTier2 := 5.
Definition SubOpTier2Recover : SubOpcodeTier2 := 6.
Definition SubOpTier2SetZero : SubOpcodeTier2 := 7.
Definition SubOpTier2ChannelClose : SubOpcodeTier2 := 8.
Definition SubOpTier2LoadNil : SubOpcodeTier2 := 9.
Definition SubOpTier2Return : SubOpcodeTier2 := 10.
Definition SubOpTier2MakeInterfaceMethodExpr : SubOpcodeTier2 := 11.
Definition SubOpTier2MakeMap : SubOpcodeTier2 := 12.
Definition SubOpTier2RangeCheckUintJumpFalse : SubOpcodeTier2 := 13.
Definition SubOpTier2AllocStructLiteral : SubOpcodeTier2 := 14.
Definition SubOpTier2SyncClosureUpvalues : SubOpcodeTier2 := 15.
Definition SubOpTier2IncInt32 : SubOpcodeTier2 := 16.
Definition SubOpTier2DecInt32 : SubOpcodeTier2 := 17.

(** ** SubOpcodeTier3 *)

Definition SubOpTier3Nop : SubOpcodeTier3 := 0.
Definition SubOpTier3ReturnVoid : SubOpcodeTier3 := 1.
Definition SubOpTier3SyncIIFEUpvalues : SubOpcodeTier3 := 2.

(** [OpNop] is the all-zero word: the alias of the drill marker. *)
Definition OpNop : Opcode := OpDrillTier1.

Definition OpcodeCount : Z := OpAddUint32 + 1.
