(* ===== verification/Instruction.v ===== *)
(** * Instruction words

    [internal/isa/instruction.go] and the drill predicates of
    [internal/isa/encoding_constants.go].  An instruction is four bytes; the
    jump offsets and wide indices are split over two of them. *)

From S2P Require Import Prelude SafeConv Register Opcode.

Record Instruction := NewInstruction {
  iOp : Opcode;
  iA : Z;
  iB : Z;
  iC : Z;
}.

#[export] Instance Instruction_eq_dec : EqDecision Instruction.
Proof. solve_decision. Defined.

(** The zero value of the struct. *)
Definition zeroInstruction : Instruction := NewInstruction 0 0 0 0.

(** Every field of the Go struct is one byte. *)
Definition wf_instruction (i : Instruction) : Prop :=
  byte_ok (iOp i) ∧ byte_ok (iA i) ∧ byte_ok (iB i) ∧ byte_ok (iC i).

#[export] Instance wf_instruction_dec i : Decision (wf_instruction i).
Proof. unfold wf_instruction. apply _. Defined.

Definition NewTier1Instruction (subOp : SubOpcode) (b c : Z) : Instruction :=
  NewInstruction OpDrillTier1 (wrapU 8 subOp) b c.

Definition NewTier2Instruction (subOp : SubOpcodeTier2) (c : Z) : Instruction :=
  NewInstruction OpDrillTier1 (wrapU 8 SubOpDrillTier2) (wrapU 8 subOp) c.

Definition NewTier3Instruction (subOp : SubOpcodeTier3) : Instruction :=
  NewInstruction OpDrillTier1 (wrapU 8 SubOpDrillTier2) (wrapU 8 SubOpTier2DrillTier3)
    (wrapU 8 subOp).

Definition SplitWide (value : Z) : Z * Z :=
  (wrapU 8 value, wrapU 8 (Z.shiftr value 8)).

Definition JoinWide (lo hi : Z) : Z :=
  Z.lor lo (wrapU 16 (Z.shiftl hi WideBitShift)).

Definition SplitOffset (offset : Z) : Z * Z := SplitWide (Int16ToUint16 offset).

Definition JoinOffset (lo hi : Z) : Z := Uint16ToInt16 (JoinWide lo hi).

Definition SignedOffset (i : Instruction) : Z := JoinOffset (iB i) (iC i).

Definition WideIndex (i : Instruction) : Z := JoinWide (iB i) (iC i).

Definition DecodeExtension24 (ext : Instruction) : Z :=
  Z.lor (Z.lor (iA ext) (wrapS 64 (Z.shiftl (iB ext) WideBitShift)))
    (wrapS 64 (Z.shiftl (iC ext) (2 * WideBitShift))).

Definition InstrIsTier1SubOp (instr : Instruction) (subOp : SubOpcode) : bool :=
  (iOp instr =? OpDrillTier1) && (iA instr =? subOp).

Definition InstrIsTier2SubOp (instr : Instruction) (subOp : SubOpcodeTier2) : bool :=
  (iOp instr =? OpDrillTier1) && (iA instr =? SubOpDrillTier2) && (iB instr =? subOp).

Definition InstrIsTier3SubOp (instr : Instruction) (subOp : SubOpcodeTier3) : bool :=
  (iOp instr =? OpDrillTier1) && (iA instr =? SubOpDrillTier2)
  && (iB instr =? SubOpTier2DrillTier3) && (iC instr =? subOp).

(** ** Arithmetic forms of the byte splits *)

Lemma SplitWide_spec value : SplitWide value = (value mod 256, (value / 256) mod 256).
Proof. unfold SplitWide, wrapU. rewrite Z.shiftr_div_pow2 by lia. done. Qed.

Lemma JoinWide_spec lo hi :
  byte_ok lo → byte_ok hi → JoinWide lo hi = lo + 256 * hi.
Proof.
  intros Hlo Hhi. unfold JoinWide, WideBitShift.
  rewrite wrapU_id.
  - rewrite lor_shiftl_add by (lia || done). lia.
  - rewrite Z.shiftl_mul_pow2 by lia. word.
Qed.

Lemma JoinWide_range lo hi : byte_ok lo → byte_ok hi → isU 16 (JoinWide lo hi).
Proof. intros. rewrite JoinWide_spec by done. word. Qed.

Lemma JoinOffset_range lo hi : isS 16 (JoinOffset lo hi).
Proof. apply wrapS_range. lia. Qed.

Lemma SplitWide_bytes value lo hi :
  SplitWide value = (lo, hi) → byte_ok lo ∧ byte_ok hi.
Proof. rewrite SplitWide_spec. intros [= <- <-]. split; word. Qed.

Lemma SplitOffset_bytes offset lo hi :
  SplitOffset offset = (lo, hi) → byte_ok lo ∧ byte_ok hi.
Proof. apply SplitWide_bytes. Qed.

Lemma JoinWide_SplitWide value lo hi :
  isU 16 value → SplitWide value = (lo, hi) → JoinWide lo hi = value.
Proof.
  intros Hv Hs. destruct (SplitWide_bytes _ _ _ Hs).
  rewrite JoinWide_spec by done. rewrite SplitWide_spec in Hs.
  injection Hs as <- <-. word.
Qed.

Lemma SplitWide_JoinWide lo hi :
  byte_ok lo → byte_ok hi → SplitWide (JoinWide lo hi) = (lo, hi).
Proof.
  intros Hlo Hhi. rewrite JoinWide_spec, SplitWide_spec by done. f_equal; word.
Qed.

Lemma Int16ToUint16_range n : isU 16 (Int16ToUint16 n).
Proof. apply wrapU_range. lia. Qed.

Lemma JoinOffset_SplitOffset offset lo hi :
  isS 16 offset → SplitOffset offset = (lo, hi) → JoinOffset lo hi = offset.
Proof.
  intros Ho Hs. unfold JoinOffset.
  rewrite (JoinWide_SplitWide (Int16ToUint16 offset) lo hi);
    [|apply Int16ToUint16_range|done].
  by apply wrapS_wrapU.
Qed.

Lemma DecodeExtension24_spec ext :
  wf_instruction ext →
  DecodeExtension24 ext = iA ext + 256 * iB ext + 65536 * iC ext.
Proof.
  intros (_ & HA & HB & HC). unfold DecodeExtension24.
  change (2 * WideBitShift) with 16. change WideBitShift with 8.
  assert (isU 16 (iA ext + iB ext * 2 ^ 8)) by word.
  rewrite (wrapS_id 64 (Z.shiftl (iB ext) 8)) by
    (try lia; rewrite Z.shiftl_mul_pow2 by lia; word).
  rewrite (wrapS_id 64 (Z.shiftl (iC ext) 16)) by
    (try lia; rewrite Z.shiftl_mul_pow2 by lia; word).
  rewrite (lor_shiftl_add (iA ext)) by (lia || done).
  rewrite lor_shiftl_add by (lia || done). word.
Qed.

#[export] Hint Resolve JoinWide_range JoinOffset_range Int16ToUint16_range : pipit.

(** splitting a signed 16-bit jump offset into its two operand bytes and
    joining them again gives the offset back, both ways round: every pair of
    bytes is the encoding of exactly one offset. *)
Theorem jump_offset_roundtrip :
  (∀ offset, isS 16 offset →
     let '(lo, hi) := SplitOffset offset in
     byte_ok lo ∧ byte_ok hi ∧ JoinOffset lo hi = offset) ∧
  (∀ lo hi, byte_ok lo → byte_ok hi →
     isS 16 (JoinOffset lo hi) ∧ SplitOffset (JoinOffset lo hi) = (lo, hi)).
Proof.
  split.
  - intros offset Ho. destruct (SplitOffset offset) as [lo hi] eqn:Hs.
    destruct (SplitOffset_bytes _ _ _ Hs). split_and!; [done|done|].
    by apply JoinOffset_SplitOffset.
  - intros lo hi Hlo Hhi. split; [apply JoinOffset_range|].
    unfold SplitOffset, JoinOffset, Int16ToUint16, Uint16ToInt16.
    rewrite wrapU_wrapS; [by apply SplitWide_JoinWide|lia|by apply JoinWide_range].
Qed.
