(* ===== verification/Shapes.v ===== *)
(** * Operand shapes

    [internal/isa/bytecode_operand_shapes*.go]: for every operation of every
    tier, what each operand byte names, which named registers are read and
    written, and the whole-instruction flags.  Each [populate] function of the
    source is the list of table writes it performs, in order; [operandShapes]
    is the table after package initialisation. *)

From S2P Require Import Prelude Register Opcode Instruction.

(** ** Tiers *)

Notation Tier := Z (only parsing).
Definition TierMain : Tier := 0.
Definition TierSub1 : Tier := 1.
Definition TierSub2 : Tier := 2.
Definition TierSub3 : Tier := 3.
Definition tierCount : Z := 4.
Definition SlotsPerTier : Z := 256.
Definition NumInstructionOperands : Z := 3.

(** ** Roles and flags *)

Inductive OperandRole :=
  | RoleNone
  | RoleRegInt
  | RoleRegFloat
  | RoleRegString
  | RoleRegBool
  | RoleRegUint
  | RoleRegComplex
  | RoleRegGeneral
  | RoleRegSliceInt
  | roleRegSliceFloat
  | roleRegSliceString
  | roleRegSliceBool
  | roleRegSliceUint
  | roleRegSliceByte
  | RoleRegDynamic
  | roleConstIndex
  | roleFieldIndex
  | RoleImmediate
  | roleTypeIndex
  | RoleKindMarker
  | roleSubOpcode
  | roleJumpOffsetLow
  | roleJumpOffsetHigh
  | roleCallSiteLow
  | roleCallSiteHigh
  | roleFollowsExtension
  | roleUnknown.

#[export] Instance OperandRole_eq_dec : EqDecision OperandRole.
Proof. solve_decision. Defined.

(** A [shapeFlag] is a [uint8] bit set. *)
Notation shapeFlag := Z (only parsing).
Definition ShapeFlagDescribed : shapeFlag := 1.
Definition ShapeFlagFollowsExtension : shapeFlag := 2.
Definition ShapeFlagControlFlow : shapeFlag := 4.
Definition ShapeFlagTerminator : shapeFlag := 8.
Definition ShapeFlagOpaqueWrites : shapeFlag := 16.

Notation "a .| b" := (Z.lor a b) (at level 50, left associativity) : pipit_scope.
#[local] Open Scope pipit_scope.

(** [flags&f != 0] *)
Definition hasFlag (flags f : shapeFlag) : bool := negb (Z.land flags f =? 0).

(** [[NumInstructionOperands]bool]: one mark per operand position. *)
Notation Mask := (bool * bool * bool)%type (only parsing).

Definition mask_at (m : Mask) (position : Z) : bool :=
  let '(a, b, c) := m in
  if position =? 0 then a else if position =? 1 then b
  else if position =? 2 then c else false.

Record OperandShape := mkShape {
  shA : OperandRole;
  shB : OperandRole;
  shC : OperandRole;
  shReads : Mask;
  shWrites : Mask;
  shFlags : shapeFlag;
}.

(** The opaque zero shape. *)
Definition zeroShape : OperandShape :=
  mkShape RoleNone RoleNone RoleNone (false, false, false) (false, false, false) 0.

Definition described (s : OperandShape) : bool := hasFlag (shFlags s) ShapeFlagDescribed.

(** ** Table writes *)

Notation ShapeWrite := (Tier * Z * OperandShape)%type (only parsing).

Definition described3 (op : Opcode) (ra rb rc : OperandRole) (reads writes : Mask)
    (flags : shapeFlag) : ShapeWrite :=
  (TierMain, op, mkShape ra rb rc reads writes (flags .| ShapeFlagDescribed)).

Definition describedSub1 (op : SubOpcode) (rb rc : OperandRole) (reads writes : Mask)
    (flags : shapeFlag) : ShapeWrite :=
  (TierSub1, op, mkShape RoleNone rb rc reads writes (flags .| ShapeFlagDescribed)).

Definition describedSub2 (op : SubOpcodeTier2) (rc : OperandRole) (readsC writesC : bool)
    (flags : shapeFlag) : ShapeWrite :=
  (TierSub2, op, mkShape RoleNone RoleNone rc (false, false, readsC)
                   (false, false, writesC) (flags .| ShapeFlagDescribed)).

Definition describedSub3 (op : SubOpcodeTier3) (flags : shapeFlag) : ShapeWrite :=
  (TierSub3, op, mkShape RoleNone RoleNone RoleNone (false, false, false)
                   (false, false, false) (flags .| ShapeFlagDescribed)).

Definition describeDstSrcSrc (op : Opcode) (kind : OperandRole) : ShapeWrite :=
  described3 op kind kind kind (false, true, true) (true, false, false) 0.

Definition describeDstSrcSrcMixed (op : Opcode) (destination source : OperandRole) : ShapeWrite :=
  described3 op destination source source (false, true, true) (true, false, false) 0.

Definition describeLoadConst (op : Opcode) (destination : OperandRole) : ShapeWrite :=
  described3 op destination roleConstIndex roleConstIndex
    (false, false, false) (true, false, false) 0.

Definition describeArithConst (op : Opcode) (kind : OperandRole) : ShapeWrite :=
  described3 op kind kind roleConstIndex (false, true, false) (true, false, false) 0.

Definition describeJumpCondition (op : Opcode) (source : OperandRole) : ShapeWrite :=
  described3 op source roleJumpOffsetLow roleJumpOffsetHigh
    (true, false, false) (false, false, false) ShapeFlagControlFlow.

Definition describeSub1DstSrc (op : SubOpcode) (destination source : OperandRole) : ShapeWrite :=
  describedSub1 op destination source (false, false, true) (false, true, false) 0.

Definition describeSub1DstSrcExtension (op : SubOpcode) (destination source : OperandRole)
    : ShapeWrite :=
  describedSub1 op destination source (false, false, true) (false, true, false)
    ShapeFlagFollowsExtension.

Definition describeSub1ConstJump (op : SubOpcode) (source : OperandRole) : ShapeWrite :=
  describedSub1 op source roleConstIndex (false, true, false) (false, false, false)
    (ShapeFlagControlFlow .| ShapeFlagFollowsExtension).

Definition describeSub1RegRegJump (op : SubOpcode) (source : OperandRole) : ShapeWrite :=
  describedSub1 op source source (false, true, true) (false, false, false)
    (ShapeFlagControlFlow .| ShapeFlagFollowsExtension).

Definition describeTypedSliceGet (op : Opcode) (destination : OperandRole) : ShapeWrite :=
  described3 op destination RoleRegGeneral RoleRegInt
    (false, true, true) (true, false, false) 0.

Definition describeTypedSliceSet (op : Opcode) (source : OperandRole) : ShapeWrite :=
  described3 op RoleRegGeneral RoleRegInt source
    (true, true, true) (false, false, false) 0.

Definition describeCallSite (op : SubOpcode) (flags : shapeFlag) : ShapeWrite :=
  describedSub1 op roleCallSiteLow roleCallSiteHigh
    (false, false, false) (false, false, false) (flags .| ShapeFlagOpaqueWrites).

(** ** The tier-0 rows *)

Definition populateScalarArithShapes : list ShapeWrite :=
  [describeDstSrcSrc OpAddInt RoleRegInt;
    describeDstSrcSrc OpAddInt32 RoleRegInt;
    describeDstSrcSrc OpSubInt32 RoleRegInt;
    describeDstSrcSrc OpMulInt32 RoleRegInt;
    describeArithConst OpAddInt32Const RoleRegInt;
    describeArithConst OpSubInt32Const RoleRegInt;
    describeDstSrcSrc OpAddUint32 RoleRegUint;
    describeDstSrcSrc OpSubInt RoleRegInt;
    describeDstSrcSrc OpMulInt RoleRegInt;
    describeDstSrcSrc OpDivInt RoleRegInt;
    describeDstSrcSrc OpRemInt RoleRegInt;
    describeDstSrcSrc OpBitAnd RoleRegInt;
    describeDstSrcSrc OpBitOr RoleRegInt;
    describeDstSrcSrc OpBitXor RoleRegInt;
    describeDstSrcSrc OpBitAndNot RoleRegInt;
    describeDstSrcSrc OpShiftLeft RoleRegInt;
    describeDstSrcSrc OpShiftRight RoleRegInt;
    describeDstSrcSrc OpAddFloat RoleRegFloat;
    describeDstSrcSrc OpSubFloat RoleRegFloat;
    describeDstSrcSrc OpMulFloat RoleRegFloat;
    describeDstSrcSrc OpDivFloat RoleRegFloat;
    describeDstSrcSrc OpAddUint RoleRegUint;
    describeDstSrcSrc OpSubUint RoleRegUint;
    describeDstSrcSrc OpMulUint RoleRegUint;
    describeDstSrcSrc OpDivUint RoleRegUint;
    describeDstSrcSrc OpRemUint RoleRegUint;
    describeDstSrcSrc OpBitAndUint RoleRegUint;
    describeDstSrcSrc OpBitOrUint RoleRegUint;
    describeDstSrcSrc OpBitXorUint RoleRegUint;
    describeDstSrcSrc OpBitAndNotUint RoleRegUint;
    describeDstSrcSrc OpShiftLeftUint RoleRegUint;
    describeDstSrcSrc OpShiftRightUint RoleRegUint;
    describeDstSrcSrc OpAddComplex RoleRegComplex;
    describeDstSrcSrc OpSubComplex RoleRegComplex;
    describeDstSrcSrc OpMulComplex RoleRegComplex;
    describeDstSrcSrc OpDivComplex RoleRegComplex].

Definition populateGenericArithShapes : list ShapeWrite :=
  [describeDstSrcSrc OpAdd RoleRegGeneral;
    describeDstSrcSrc OpSub RoleRegGeneral;
    describeDstSrcSrc OpMul RoleRegGeneral;
    describeDstSrcSrc OpDiv RoleRegGeneral;
    describeDstSrcSrc OpRem RoleRegGeneral].

Definition populateComparisonShapes : list ShapeWrite :=
  [describeDstSrcSrcMixed OpEqInt RoleRegInt RoleRegInt;
    describeDstSrcSrcMixed OpNeInt RoleRegInt RoleRegInt;
    describeDstSrcSrcMixed OpLtInt RoleRegInt RoleRegInt;
    describeDstSrcSrcMixed OpLeInt RoleRegInt RoleRegInt;
    describeDstSrcSrcMixed OpGtInt RoleRegInt RoleRegInt;
    describeDstSrcSrcMixed OpGeInt RoleRegInt RoleRegInt;
    describeDstSrcSrcMixed OpEqFloat RoleRegInt RoleRegFloat;
    describeDstSrcSrcMixed OpNeFloat RoleRegInt RoleRegFloat;
    describeDstSrcSrcMixed OpLtFloat RoleRegInt RoleRegFloat;
    describeDstSrcSrcMixed OpLeFloat RoleRegInt RoleRegFloat;
    describeDstSrcSrcMixed OpGtFloat RoleRegInt RoleRegFloat;
    describeDstSrcSrcMixed OpGeFloat RoleRegInt RoleRegFloat;
    describeDstSrcSrcMixed OpEqString RoleRegInt RoleRegString;
    describeDstSrcSrcMixed OpNeString RoleRegInt RoleRegString;
    describeDstSrcSrcMixed OpLtString RoleRegInt RoleRegString;
    describeDstSrcSrcMixed OpLeString RoleRegInt RoleRegString;
    describeDstSrcSrcMixed OpGtString RoleRegInt RoleRegString;
    describeDstSrcSrcMixed OpGeString RoleRegInt RoleRegString;
    describeDstSrcSrcMixed OpEqUint RoleRegInt RoleRegUint;
    describeDstSrcSrcMixed OpNeUint RoleRegInt RoleRegUint;
    describeDstSrcSrcMixed OpLtUint RoleRegInt RoleRegUint;
    describeDstSrcSrcMixed OpLeUint RoleRegInt RoleRegUint;
    describeDstSrcSrcMixed OpGtUint RoleRegInt RoleRegUint;
    describeDstSrcSrcMixed OpGeUint RoleRegInt RoleRegUint;
    describeDstSrcSrcMixed OpEqComplex RoleRegInt RoleRegComplex;
    describeDstSrcSrcMixed OpNeComplex RoleRegInt RoleRegComplex;
    describeDstSrcSrcMixed OpEqGeneral RoleRegInt RoleRegGeneral;
    describeDstSrcSrcMixed OpNeGeneral RoleRegInt RoleRegGeneral;
    describeDstSrcSrcMixed OpLtGeneral RoleRegInt RoleRegGeneral;
    describeDstSrcSrcMixed OpLeGeneral RoleRegInt RoleRegGeneral;
    describeDstSrcSrcMixed OpGtGeneral RoleRegInt RoleRegGeneral;
    describeDstSrcSrcMixed OpGeGeneral RoleRegInt RoleRegGeneral].

Definition populateConversionMoveShapes : list ShapeWrite :=
  [described3 OpTruncateNarrow RoleRegDynamic RoleImmediate RoleKindMarker (true, false, false) (true, false, false) 0;
    described3 OpMoveGeneral RoleRegGeneral RoleRegGeneral RoleImmediate (false, true, false) (true, false, false) 0;
    described3 OpPackInterface RoleRegGeneral RoleRegDynamic RoleKindMarker (false, true, false) (true, false, false) 0;
    described3 OpPackTyped RoleRegGeneral RoleRegDynamic RoleKindMarker (false, true, false) (true, false, false) ShapeFlagFollowsExtension;
    described3 OpUnpackInterface RoleRegDynamic RoleRegGeneral RoleKindMarker (false, true, false) (true, false, false) 0].

Definition populateConstantLoadShapes : list ShapeWrite :=
  [describeLoadConst OpLoadIntConst RoleRegInt;
    describeLoadConst OpLoadFloatConst RoleRegFloat;
    describeLoadConst OpLoadStringConst RoleRegString;
    describeLoadConst OpLoadGeneralConst RoleRegGeneral;
    describeLoadConst OpLoadCompositeZeroReuse RoleRegGeneral;
    describeLoadConst OpLoadUintConst RoleRegUint;
    describeLoadConst OpLoadComplexConst RoleRegComplex].

Definition populateJumpAndFusedShapes : list ShapeWrite :=
  [describeArithConst OpSubIntConst RoleRegInt;
    describeArithConst OpAddIntConst RoleRegInt;
    describeArithConst OpMulIntConst RoleRegInt;
    described3 OpAddIntJump RoleRegInt RoleRegInt roleConstIndex (false, true, false) (true, false, false) (ShapeFlagFollowsExtension .| ShapeFlagControlFlow);
    describeJumpCondition OpJumpIfTrue RoleRegInt;
    describeJumpCondition OpJumpIfFalse RoleRegInt;
    describeJumpCondition OpTestNilJumpTrue RoleRegGeneral;
    describeJumpCondition OpTestNilJumpFalse RoleRegGeneral].

Definition populateMathShapes : list ShapeWrite :=
  [describeDstSrcSrc OpMathPow RoleRegFloat;
    described3 OpDrillTier1 roleSubOpcode RoleRegDynamic RoleRegDynamic (false, true, true) (false, true, false) 0].

Definition populateStringShapes : list ShapeWrite :=
  [described3 OpStringIndex RoleRegUint RoleRegString RoleRegInt (false, true, true) (true, false, false) 0;
    described3 OpStringIndexToInt RoleRegInt RoleRegString RoleRegInt (false, true, true) (true, false, false) 0;
    describeDstSrcSrc OpConcatString RoleRegString;
    described3 OpConcatRuneString RoleRegString RoleRegString RoleRegInt (false, true, true) (true, false, false) 0].

Definition populateStringIntrinsicShapes : list ShapeWrite :=
  [described3 OpStrContainsRune RoleRegBool RoleRegString RoleRegInt (false, true, true) (true, false, false) 0;
    describeDstSrcSrcMixed OpStrContains RoleRegBool RoleRegString;
    describeDstSrcSrcMixed OpStrHasPrefix RoleRegBool RoleRegString;
    describeDstSrcSrcMixed OpStrHasSuffix RoleRegBool RoleRegString;
    describeDstSrcSrcMixed OpStrEqualFold RoleRegBool RoleRegString;
    describeDstSrcSrcMixed OpStrIndex RoleRegInt RoleRegString;
    describeDstSrcSrcMixed OpStrCount RoleRegInt RoleRegString;
    describeDstSrcSrc OpStrTrimPrefix RoleRegString;
    describeDstSrcSrc OpStrTrimSuffix RoleRegString;
    describeDstSrcSrc OpStrTrim RoleRegString;
    described3 OpStrIndexRune RoleRegInt RoleRegString RoleRegInt (false, true, true) (true, false, false) 0;
    described3 OpStrRepeat RoleRegString RoleRegString RoleRegInt (false, true, true) (true, false, false) 0;
    describeDstSrcSrcMixed OpStrLastIndex RoleRegInt RoleRegString;
    described3 OpStrJoin RoleRegString RoleRegGeneral RoleRegString (false, true, true) (true, false, false) 0;
    described3 OpStrSplit RoleRegGeneral RoleRegString RoleRegString (false, true, true) (true, false, false) 0;
    described3 OpStrReplaceAll RoleRegString RoleRegString RoleRegString (false, true, true) (true, false, false) ShapeFlagFollowsExtension].

Definition populateComplexAndFusedStringShapes : list ShapeWrite :=
  [describeDstSrcSrcMixed OpBuildComplex RoleRegComplex RoleRegFloat;
    described3 OpSliceString RoleRegString RoleRegString RoleImmediate (false, true, false) (true, false, false) ShapeFlagFollowsExtension].

Definition populateSliceAndAppendShapes : list ShapeWrite :=
  [describeTypedSliceGet OpSliceGetInt RoleRegInt;
    describeTypedSliceGet OpSliceGetFloat RoleRegFloat;
    describeTypedSliceGet OpSliceGetString RoleRegString;
    describeTypedSliceGet OpSliceGetBool RoleRegBool;
    describeTypedSliceGet OpSliceGetUint RoleRegUint;
    describeTypedSliceGet OpSliceGetIntUnchecked RoleRegInt;
    describeTypedSliceSet OpSliceSetInt RoleRegInt;
    describeTypedSliceSet OpSliceSetFloat RoleRegFloat;
    describeTypedSliceSet OpSliceSetString RoleRegString;
    describeTypedSliceSet OpSliceSetBool RoleRegBool;
    describeTypedSliceSet OpSliceSetUint RoleRegUint;
    describeTypedSliceSet OpSliceSetIntUnchecked RoleRegInt].

Definition populateTypedSliceDirectShapes : list ShapeWrite :=
  [described3 OpSliceGetIntDirect RoleRegInt RoleRegSliceInt RoleRegInt (false, true, true) (true, false, false) 0;
    described3 OpSliceSetIntDirect RoleRegSliceInt RoleRegInt RoleRegInt (true, true, true) (false, false, false) 0;
    described3 OpRangeNextSliceInt RoleRegInt RoleRegSliceInt RoleRegInt (true, true, false) (true, false, true) (ShapeFlagFollowsExtension .| ShapeFlagControlFlow);
    described3 OpRangeNextSliceByte RoleRegInt roleRegSliceByte RoleRegUint (true, true, false) (true, false, true) (ShapeFlagFollowsExtension .| ShapeFlagControlFlow);
    described3 OpSliceGetIntDirectUnchecked RoleRegInt RoleRegSliceInt RoleRegInt (false, true, true) (true, false, false) 0;
    described3 OpSliceSetIntDirectUnchecked RoleRegSliceInt RoleRegInt RoleRegInt (true, true, true) (false, false, false) 0].

Definition populateTypedMapShapes : list ShapeWrite :=
  [described3 OpMapGetIntInt RoleRegInt RoleRegGeneral RoleRegInt (false, true, true) (true, false, false) 0;
    described3 OpMapSetIntInt RoleRegGeneral RoleRegInt RoleRegInt (true, true, true) (false, false, false) 0;
    described3 OpMapGetStringInt RoleRegInt RoleRegGeneral RoleRegString (false, true, true) (true, false, false) 0;
    described3 OpMapSetStringInt RoleRegGeneral RoleRegString RoleRegInt (true, true, true) (false, false, false) 0;
    described3 OpMapSetIntGeneral RoleRegGeneral RoleRegInt RoleRegGeneral (true, true, true) (false, false, false) 0;
    described3 OpMapSetStringGeneral RoleRegGeneral RoleRegString RoleRegGeneral (true, true, true) (false, false, false) 0;
    described3 OpMapAddIntInt RoleRegGeneral RoleRegInt RoleRegInt (true, true, true) (false, false, false) 0;
    described3 OpMapAddStringInt RoleRegGeneral RoleRegString RoleRegInt (true, true, true) (false, false, false) 0;
    described3 OpMapGetStringString RoleRegString RoleRegGeneral RoleRegString (false, true, true) (true, false, false) 0;
    described3 OpMapSetStringString RoleRegGeneral RoleRegString RoleRegString (true, true, true) (false, false, false) 0;
    described3 OpMapGetIntString RoleRegString RoleRegGeneral RoleRegInt (false, true, true) (true, false, false) 0;
    described3 OpMapSetIntString RoleRegGeneral RoleRegInt RoleRegString (true, true, true) (false, false, false) 0].

Definition populateGenericFieldShapes : list ShapeWrite :=
  [described3 OpGetFieldInt RoleRegInt RoleRegGeneral roleFieldIndex (false, true, false) (true, false, false) 0;
    described3 OpSetFieldInt RoleRegGeneral roleFieldIndex RoleRegInt (true, false, true) (false, false, false) 0;
    described3 OpGetField RoleRegGeneral RoleRegGeneral roleFieldIndex (false, true, false) (true, false, false) 0;
    described3 OpSetField RoleRegGeneral roleFieldIndex RoleRegGeneral (true, false, true) (false, false, false) 0].

Definition populateFusedStructFieldCopyShape : list ShapeWrite :=
  [described3 OpCopyStructFieldGeneralT0 RoleRegGeneral RoleRegGeneral roleFieldIndex (true, true, false) (false, false, false) ShapeFlagFollowsExtension].

Definition populateStructFieldShapes : list ShapeWrite :=
  [described3 OpGetStructFieldIntT0 RoleRegInt RoleRegGeneral roleFieldIndex (false, true, false) (true, false, false) 0;
    described3 OpSetStructFieldIntT0 RoleRegGeneral RoleRegInt roleFieldIndex (true, true, false) (false, false, false) 0;
    described3 OpGetStructFieldUint RoleRegUint RoleRegGeneral roleFieldIndex (false, true, false) (true, false, false) 0;
    described3 OpSetStructFieldUint RoleRegGeneral RoleRegUint roleFieldIndex (true, true, false) (false, false, false) 0;
    described3 OpGetStructFieldFloat RoleRegFloat RoleRegGeneral roleFieldIndex (false, true, false) (true, false, false) 0;
    described3 OpSetStructFieldFloat RoleRegGeneral RoleRegFloat roleFieldIndex (true, true, false) (false, false, false) 0;
    described3 OpGetStructFieldBool RoleRegBool RoleRegGeneral roleFieldIndex (false, true, false) (true, false, false) 0;
    described3 OpSetStructFieldBool RoleRegGeneral RoleRegBool roleFieldIndex (true, true, false) (false, false, false) 0;
    described3 OpGetStructFieldGeneral RoleRegGeneral RoleRegGeneral roleFieldIndex (false, true, false) (true, false, false) 0;
    described3 OpGetStructFieldRawPointerT0 RoleRegGeneral RoleRegGeneral roleFieldIndex (false, true, false) (true, false, false) 0;
    described3 OpSetStructFieldGeneral RoleRegGeneral RoleRegGeneral roleFieldIndex (true, true, false) (false, false, false) 0]
  ++ populateFusedStructFieldCopyShape
  ++ [described3 OpSwapStructFieldsGeneralT0 RoleRegGeneral roleFieldIndex roleFieldIndex (true, false, false) (false, false, false) 0].

Definition populateSliceIndexStructFieldShapes : list ShapeWrite :=
  [described3 OpSliceIndexStructFieldInt RoleRegInt RoleRegGeneral RoleRegInt (false, true, true) (true, false, false) ShapeFlagFollowsExtension;
    described3 OpSliceIndexStructFieldUint RoleRegUint RoleRegGeneral RoleRegInt (false, true, true) (true, false, false) ShapeFlagFollowsExtension;
    described3 OpSliceIndexStructFieldFloat RoleRegFloat RoleRegGeneral RoleRegInt (false, true, true) (true, false, false) ShapeFlagFollowsExtension;
    described3 OpSliceIndexStructFieldBool RoleRegBool RoleRegGeneral RoleRegInt (false, true, true) (true, false, false) ShapeFlagFollowsExtension;
    described3 OpSliceIndexStructFieldString RoleRegString RoleRegGeneral RoleRegInt (false, true, true) (true, false, false) ShapeFlagFollowsExtension].

Definition populateMapAndFieldShapes : list ShapeWrite :=
  populateTypedMapShapes
  ++ populateGenericFieldShapes
  ++ populateStructFieldShapes
  ++ populateSliceIndexStructFieldShapes.

Definition populateUpvalueAndConvertShapes : list ShapeWrite :=
  [described3 OpGetUpvalue RoleRegDynamic RoleImmediate RoleKindMarker (false, false, false) (true, false, false) 0;
    described3 OpSetUpvalue RoleRegDynamic RoleImmediate RoleKindMarker (true, false, false) (false, false, false) 0].

Definition populateTerminatorShapes : list ShapeWrite :=
  [described3 OpExt RoleImmediate RoleImmediate RoleImmediate (false, false, false) (false, false, false) 0].

Definition populateStringKeyedGeneralMapShapes : list ShapeWrite :=
  [described3 OpMapGetStringGeneral RoleRegGeneral RoleRegGeneral RoleRegString (false, true, true) (true, false, false) 0;
    described3 OpMapIndexOkStringGeneral RoleRegGeneral RoleRegGeneral RoleRegString (false, true, true) (true, false, false) (ShapeFlagFollowsExtension .| ShapeFlagOpaqueWrites)].

Definition populateTypedMapIndexOkShapes : list ShapeWrite :=
  [described3 OpMapIndexOkIntInt RoleRegInt RoleRegGeneral RoleRegInt (false, true, true) (true, false, false) (ShapeFlagFollowsExtension .| ShapeFlagOpaqueWrites);
    described3 OpMapIndexOkStringInt RoleRegInt RoleRegGeneral RoleRegString (false, true, true) (true, false, false) (ShapeFlagFollowsExtension .| ShapeFlagOpaqueWrites);
    described3 OpMapIndexOkStringString RoleRegString RoleRegGeneral RoleRegString (false, true, true) (true, false, false) (ShapeFlagFollowsExtension .| ShapeFlagOpaqueWrites);
    described3 OpMapIndexOkIntString RoleRegString RoleRegGeneral RoleRegInt (false, true, true) (true, false, false) (ShapeFlagFollowsExtension .| ShapeFlagOpaqueWrites);
    described3 OpMapGetIntGeneral RoleRegGeneral RoleRegGeneral RoleRegInt (false, true, true) (true, false, false) 0;
    described3 OpMapIndexOkIntGeneral RoleRegGeneral RoleRegGeneral RoleRegInt (false, true, true) (true, false, false) (ShapeFlagFollowsExtension .| ShapeFlagOpaqueWrites)]
  ++ populateStringKeyedGeneralMapShapes
  ++ [described3 OpMapIndexOkJumpIfFalseIntInt RoleRegInt RoleRegGeneral RoleRegInt (false, true, true) (true, false, false) ((ShapeFlagFollowsExtension .| ShapeFlagOpaqueWrites) .| ShapeFlagControlFlow);
    described3 OpMapIndexOkJumpIfFalseStringInt RoleRegInt RoleRegGeneral RoleRegString (false, true, true) (true, false, false) ((ShapeFlagFollowsExtension .| ShapeFlagOpaqueWrites) .| ShapeFlagControlFlow);
    described3 OpMapIndexOkJumpIfFalseStringString RoleRegString RoleRegGeneral RoleRegString (false, true, true) (true, false, false) ((ShapeFlagFollowsExtension .| ShapeFlagOpaqueWrites) .| ShapeFlagControlFlow);
    described3 OpMapIndexOkJumpIfFalseIntString RoleRegString RoleRegGeneral RoleRegInt (false, true, true) (true, false, false) ((ShapeFlagFollowsExtension .| ShapeFlagOpaqueWrites) .| ShapeFlagControlFlow);
    described3 OpMapIndexOkJumpIfFalseIntGeneral RoleRegGeneral RoleRegGeneral RoleRegInt (false, true, true) (true, false, false) ((ShapeFlagFollowsExtension .| ShapeFlagOpaqueWrites) .| ShapeFlagControlFlow);
    described3 OpMapIndexOkJumpIfFalseStringGeneral RoleRegGeneral RoleRegGeneral RoleRegString (false, true, true) (true, false, false) ((ShapeFlagFollowsExtension .| ShapeFlagOpaqueWrites) .| ShapeFlagControlFlow)].

Definition populateFastAppendShapes : list ShapeWrite :=
  [described3 OpAppendStructFast RoleRegGeneral RoleRegGeneral RoleRegGeneral (false, true, true) (true, false, false) ShapeFlagFollowsExtension;
    described3 OpAppendIntFast RoleRegGeneral RoleRegGeneral RoleRegInt (false, true, true) (true, false, false) 0;
    described3 OpAppendFloatFast RoleRegGeneral RoleRegGeneral RoleRegFloat (false, true, true) (true, false, false) 0;
    described3 OpAppendStringFast RoleRegGeneral RoleRegGeneral RoleRegString (false, true, true) (true, false, false) 0].

Definition populateAppendShapes : list ShapeWrite :=
  [described3 OpAppend RoleRegGeneral RoleRegGeneral RoleRegGeneral (false, true, true) (true, false, false) 0;
    described3 OpAppendByteFast RoleRegGeneral RoleRegGeneral RoleRegUint (false, true, true) (true, false, false) 0]
  ++ populateFastAppendShapes
  ++ [described3 OpAppendByteFastInPlace RoleRegGeneral RoleRegGeneral RoleRegUint (false, true, true) (true, false, false) 0;
    described3 OpAppendInPlace RoleRegGeneral RoleRegGeneral RoleRegGeneral (false, true, true) (true, false, false) 0;
    described3 OpAppendSpreadInPlace RoleRegGeneral RoleRegGeneral RoleRegGeneral (false, true, true) (true, false, false) 0;
    described3 OpAppendSpread RoleRegGeneral RoleRegGeneral RoleRegGeneral (false, true, true) (true, false, false) 0].

Definition populateCollectionShapes : list ShapeWrite :=
  [described3 OpMakeSlice RoleRegGeneral RoleRegInt RoleRegInt (false, true, true) (true, false, false) ShapeFlagFollowsExtension;
    described3 OpIndex RoleRegGeneral RoleRegGeneral RoleRegInt (false, true, true) (true, false, false) 0;
    described3 OpDerefSliceGetInt RoleRegInt RoleRegGeneral RoleRegInt (false, true, true) (true, false, false) 0;
    described3 OpDerefSliceSetInt RoleRegGeneral RoleRegInt RoleRegInt (true, true, true) (false, false, false) 0;
    described3 OpGetStructFieldIndexGeneral RoleRegGeneral RoleRegGeneral roleFieldIndex (false, true, false) (true, false, false) ShapeFlagFollowsExtension;
    described3 OpSetStructFieldIndexGeneral RoleRegGeneral RoleRegGeneral roleFieldIndex (true, true, false) (false, false, false) ShapeFlagFollowsExtension;
    described3 OpIndexSet RoleRegGeneral RoleRegInt RoleRegGeneral (true, true, true) (false, false, false) 0;
    described3 OpMapIndex RoleRegGeneral RoleRegGeneral RoleRegGeneral (false, true, true) (true, false, false) 0;
    described3 OpMapSet RoleRegGeneral RoleRegGeneral RoleRegGeneral (true, true, true) (false, false, false) 0;
    described3 OpMapIndexOk RoleRegGeneral RoleRegGeneral RoleRegGeneral (false, true, true) (true, false, false) (ShapeFlagFollowsExtension .| ShapeFlagOpaqueWrites)]
  ++ populateTypedMapIndexOkShapes
  ++ populateAppendShapes
  ++ [describeDstSrcSrcMixed OpCopy RoleRegInt RoleRegGeneral;
    described3 OpChannelSend RoleRegGeneral RoleRegDynamic RoleKindMarker (true, true, false) (false, false, false) 0].

Definition populateAddressTypeShapes : list ShapeWrite :=
  [described3 OpAddr RoleRegGeneral RoleRegGeneral RoleImmediate (false, true, false) (true, true, false) 0;
    described3 OpDeref RoleRegGeneral RoleRegGeneral RoleImmediate (false, true, false) (true, false, false) 0;
    described3 OpAllocIndirect RoleRegGeneral RoleRegDynamic RoleKindMarker (false, true, false) (true, false, false) ShapeFlagFollowsExtension;
    described3 OpTypeAssert RoleRegGeneral RoleRegGeneral RoleRegInt (false, true, false) (true, false, true) ShapeFlagFollowsExtension;
    described3 OpConvert RoleRegGeneral RoleRegGeneral RoleImmediate (false, true, false) (true, false, false) ShapeFlagFollowsExtension;
    described3 OpBindMethod RoleRegGeneral RoleRegGeneral RoleImmediate (false, true, false) (true, false, false) ShapeFlagFollowsExtension;
    described3 OpMakeClosure RoleRegGeneral roleConstIndex roleConstIndex (false, false, false) (true, false, false) 0].

Definition populateGlobalUnsafeShapes : list ShapeWrite :=
  [described3 OpGetGlobal RoleRegDynamic roleConstIndex RoleKindMarker (false, false, false) (true, false, false) 0;
    described3 OpSetGlobal RoleRegDynamic roleConstIndex RoleKindMarker (true, false, false) (false, false, false) 0;
    described3 OpUnsafeString RoleRegString RoleRegGeneral RoleRegInt (false, true, true) (true, false, false) 0;
    described3 OpUnsafeSlice RoleRegGeneral RoleRegGeneral RoleRegInt (false, true, true) (true, false, false) 0;
    described3 OpUnsafeAdd RoleRegGeneral RoleRegGeneral RoleRegInt (false, true, true) (true, false, false) 0].

Definition populateCallAndFrameShapes : list ShapeWrite :=
  [described3 OpDefer RoleRegGeneral RoleImmediate RoleImmediate (true, false, false) (false, false, false) (ShapeFlagFollowsExtension .| ShapeFlagOpaqueWrites);
    described3 OpGo RoleRegGeneral RoleImmediate RoleImmediate (true, false, false) (false, false, false) (ShapeFlagFollowsExtension .| ShapeFlagOpaqueWrites);
    described3 OpGetStructFieldSliceLen RoleRegInt RoleRegGeneral roleFieldIndex (false, true, false) (true, false, false) 0;
    described3 OpGetStructFieldSliceIndexScalar RoleRegDynamic RoleRegGeneral roleFieldIndex (false, true, false) (true, false, false) ShapeFlagFollowsExtension].

Definition populateTypeSwitchJumpShapes : list ShapeWrite :=
  [described3 OpTypeSwitchCase roleTypeIndex roleJumpOffsetLow roleJumpOffsetHigh (false, false, false) (false, false, false) ShapeFlagControlFlow].

(** ** The deeper tiers

    [operandAccess] is a bit set over operand positions.  Each Go map is the
    association list of its literal. *)

Notation operandAccess := Z (only parsing).
Definition accessNone : operandAccess := 0.
Definition accessB : operandAccess := Z.shiftl 1 1.
Definition accessC : operandAccess := Z.shiftl 1 2.
Definition accessBC : operandAccess := accessB .| accessC.

Definition access_mask (a : operandAccess) : Mask :=
  (false, negb (Z.land a accessB =? 0), negb (Z.land a accessC =? 0)).

Definition access_touches (a other : operandAccess) : bool := negb (Z.land a other =? 0).

Definition sub1Shapes : list (Z * (OperandRole * OperandRole * operandAccess * operandAccess * shapeFlag)) :=
  [(SubOpSelect, (RoleImmediate, RoleRegInt, accessNone, accessC, (ShapeFlagFollowsExtension .| ShapeFlagOpaqueWrites)));
   (SubOpCallBuiltin, (RoleImmediate, RoleImmediate, accessNone, accessNone, (ShapeFlagFollowsExtension .| ShapeFlagOpaqueWrites)));
   (SubOpMathMod, (RoleRegFloat, RoleRegFloat, accessC, accessB, ShapeFlagFollowsExtension));
   (SubOpStrconvFormatInt, (RoleRegString, RoleRegInt, accessC, accessB, ShapeFlagFollowsExtension));
   (SubOpMakeMethodExpr, (RoleRegGeneral, RoleImmediate, accessNone, accessB, ShapeFlagFollowsExtension));
   (SubOpMakeSliceInt, (RoleRegSliceInt, RoleRegInt, accessC, accessB, ShapeFlagFollowsExtension));
   (SubOpMakeSliceFloat, (roleRegSliceFloat, RoleRegInt, accessC, accessB, ShapeFlagFollowsExtension));
   (SubOpSliceGetFloatDirect, (RoleRegFloat, roleRegSliceFloat, accessC, accessB, ShapeFlagFollowsExtension));
   (SubOpSliceSetFloatDirect, (roleRegSliceFloat, RoleRegInt, accessBC, accessNone, ShapeFlagFollowsExtension));
   (SubOpMakeSliceString, (roleRegSliceString, RoleRegInt, accessC, accessB, ShapeFlagFollowsExtension));
   (SubOpSliceGetStringDirect, (RoleRegString, roleRegSliceString, accessC, accessB, ShapeFlagFollowsExtension));
   (SubOpSliceSetStringDirect, (roleRegSliceString, RoleRegInt, accessBC, accessNone, ShapeFlagFollowsExtension));
   (SubOpMakeSliceBool, (roleRegSliceBool, RoleRegInt, accessC, accessB, ShapeFlagFollowsExtension));
   (SubOpSliceGetBoolDirect, (RoleRegBool, roleRegSliceBool, accessC, accessB, ShapeFlagFollowsExtension));
   (SubOpSliceSetBoolDirect, (roleRegSliceBool, RoleRegInt, accessBC, accessNone, ShapeFlagFollowsExtension));
   (SubOpMakeSliceUint, (roleRegSliceUint, RoleRegInt, accessC, accessB, ShapeFlagFollowsExtension));
   (SubOpSliceGetUintDirect, (RoleRegUint, roleRegSliceUint, accessC, accessB, ShapeFlagFollowsExtension));
   (SubOpSliceSetUintDirect, (roleRegSliceUint, RoleRegInt, accessBC, accessNone, ShapeFlagFollowsExtension));
   (SubOpLoadBoolConst, (RoleRegBool, roleConstIndex, accessNone, accessB, 0));
   (SubOpSliceOp, (RoleRegGeneral, RoleRegGeneral, accessC, accessB, ShapeFlagFollowsExtension));
   (SubOpGetGlobalWide, (RoleRegDynamic, RoleKindMarker, accessNone, accessB, ShapeFlagFollowsExtension));
   (SubOpSetGlobalWide, (RoleRegDynamic, RoleKindMarker, accessB, accessNone, ShapeFlagFollowsExtension));
   (SubOpResetSharedCell, (RoleRegDynamic, RoleKindMarker, accessNone, accessNone, 0));
   (SubOpWriteSharedCell, (RoleRegDynamic, RoleKindMarker, accessB, accessNone, 0));
   (SubOpRangeNext, (RoleRegGeneral, RoleRegDynamic, accessB, accessC, (ShapeFlagFollowsExtension .| ShapeFlagOpaqueWrites)));
   (SubOpJump, (roleJumpOffsetLow, roleJumpOffsetHigh, accessNone, accessNone, (ShapeFlagControlFlow .| ShapeFlagTerminator)));
   (SubOpLoadIntConstSmall, (RoleRegInt, RoleImmediate, accessNone, accessB, 0));
   (SubOpLoadBool, (RoleRegInt, RoleImmediate, accessNone, accessB, 0));
   (SubOpIncIntJumpLt, (RoleRegInt, RoleRegInt, accessBC, accessB, (ShapeFlagFollowsExtension .| ShapeFlagControlFlow)));
   (SubOpLenStringLtJumpFalse, (RoleRegInt, RoleRegString, accessBC, accessNone, (ShapeFlagFollowsExtension .| ShapeFlagControlFlow)));
   (SubOpLoadZero, (RoleRegDynamic, RoleKindMarker, accessNone, accessB, 0));
   (SubOpMakeChannel, (RoleRegGeneral, RoleRegInt, accessC, accessB, ShapeFlagFollowsExtension));
   (SubOpMapDelete, (RoleRegGeneral, RoleRegGeneral, accessBC, accessNone, 0));
   (SubOpChannelReceive, (RoleRegGeneral, RoleRegInt, accessB, accessC, (ShapeFlagFollowsExtension .| ShapeFlagOpaqueWrites)));
   (SubOpGetMethod, (RoleRegGeneral, RoleRegGeneral, accessC, accessBC, ShapeFlagFollowsExtension));
   (SubOpSpill, (RoleRegDynamic, RoleKindMarker, accessB, accessNone, (ShapeFlagFollowsExtension .| ShapeFlagOpaqueWrites)));
   (SubOpReload, (RoleRegDynamic, RoleKindMarker, accessNone, accessB, ShapeFlagFollowsExtension));
   (SubOpSetStructFieldInt, (RoleRegGeneral, RoleRegInt, accessBC, accessNone, ShapeFlagFollowsExtension));
   (SubOpSetStructFieldUint, (RoleRegGeneral, RoleRegUint, accessBC, accessNone, ShapeFlagFollowsExtension));
   (SubOpSetStructFieldFloat, (RoleRegGeneral, RoleRegFloat, accessBC, accessNone, ShapeFlagFollowsExtension));
   (SubOpSetStructFieldBool, (RoleRegGeneral, RoleRegBool, accessBC, accessNone, ShapeFlagFollowsExtension));
   (SubOpSetStructFieldString, (RoleRegGeneral, RoleRegString, accessBC, accessNone, ShapeFlagFollowsExtension));
   (SubOpLoadUintConstSmall, (RoleRegUint, RoleImmediate, accessNone, accessB, 0));
   (SubOpAppendUint, (RoleRegGeneral, RoleRegGeneral, accessC, accessB, ShapeFlagFollowsExtension));
   (SubOpAppendInt, (RoleRegGeneral, RoleRegGeneral, accessC, accessB, ShapeFlagFollowsExtension));
   (SubOpAppendString, (RoleRegGeneral, RoleRegGeneral, accessC, accessB, ShapeFlagFollowsExtension));
   (SubOpAppendFloat, (RoleRegGeneral, RoleRegGeneral, accessC, accessB, ShapeFlagFollowsExtension));
   (SubOpAppendBool, (RoleRegGeneral, RoleRegGeneral, accessC, accessB, ShapeFlagFollowsExtension));
   (SubOpStarAppendByteFast, (RoleRegGeneral, RoleRegUint, accessBC, accessNone, 0));
   (SubOpStarAppendByteSpread, (RoleRegGeneral, RoleRegGeneral, accessBC, accessNone, 0));
   (SubOpIncStructFieldInt, (RoleRegGeneral, roleFieldIndex, accessB, accessNone, 0));
   (SubOpDecStructFieldInt, (RoleRegGeneral, roleFieldIndex, accessB, accessNone, 0));
   (SubOpIncStructFieldUint, (RoleRegGeneral, roleFieldIndex, accessB, accessNone, 0));
   (SubOpDecStructFieldUint, (RoleRegGeneral, roleFieldIndex, accessB, accessNone, 0));
   (SubOpMakeSliceByte, (roleRegSliceByte, RoleRegInt, accessC, accessB, ShapeFlagFollowsExtension));
   (SubOpSliceGetByteDirect, (RoleRegUint, roleRegSliceByte, accessC, accessB, ShapeFlagFollowsExtension));
   (SubOpSliceSetByteDirect, (roleRegSliceByte, RoleRegInt, accessBC, accessNone, ShapeFlagFollowsExtension));
   (SubOpSliceByteSlice, (roleRegSliceByte, roleRegSliceByte, accessC, accessB, ShapeFlagFollowsExtension));
   (SubOpEqUintConstJumpFalse, (RoleRegUint, RoleImmediate, accessB, accessNone, (ShapeFlagFollowsExtension .| ShapeFlagControlFlow)));
   (SubOpSimdDotProductFloat64, (RoleRegFloat, roleRegSliceFloat, accessBC, accessB, ShapeFlagFollowsExtension));
   (SubOpSimdSumSliceFloat64, (RoleRegFloat, roleRegSliceFloat, accessBC, accessB, ShapeFlagFollowsExtension));
   (SubOpSimdAddSliceFloat64, (roleRegSliceFloat, roleRegSliceFloat, accessBC, accessNone, ShapeFlagFollowsExtension));
   (SubOpSimdScaleSliceFloat64, (roleRegSliceFloat, RoleRegFloat, accessBC, accessNone, ShapeFlagFollowsExtension));
   (SubOpAppendSliceIntDirect, (RoleRegSliceInt, RoleRegSliceInt, accessC, accessB, ShapeFlagFollowsExtension));
   (SubOpAppendSliceFloatDirect, (roleRegSliceFloat, roleRegSliceFloat, accessC, accessB, ShapeFlagFollowsExtension));
   (SubOpAppendSliceStringDirect, (roleRegSliceString, roleRegSliceString, accessC, accessB, ShapeFlagFollowsExtension));
   (SubOpAppendSliceBoolDirect, (roleRegSliceBool, roleRegSliceBool, accessC, accessB, ShapeFlagFollowsExtension));
   (SubOpAppendSliceUintDirect, (roleRegSliceUint, roleRegSliceUint, accessC, accessB, ShapeFlagFollowsExtension));
   (SubOpAppendSliceByteDirect, (roleRegSliceByte, roleRegSliceByte, accessC, accessB, ShapeFlagFollowsExtension));
   (SubOpSliceSliceIntDirect, (RoleRegSliceInt, RoleRegSliceInt, accessC, accessB, ShapeFlagFollowsExtension));
   (SubOpSliceSliceFloatDirect, (roleRegSliceFloat, roleRegSliceFloat, accessC, accessB, ShapeFlagFollowsExtension));
   (SubOpSliceSliceStringDirect, (roleRegSliceString, roleRegSliceString, accessC, accessB, ShapeFlagFollowsExtension));
   (SubOpSliceSliceBoolDirect, (roleRegSliceBool, roleRegSliceBool, accessC, accessB, ShapeFlagFollowsExtension));
   (SubOpSliceSliceUintDirect, (roleRegSliceUint, roleRegSliceUint, accessC, accessB, ShapeFlagFollowsExtension));
   (SubOpCopySliceIntDirect, (RoleRegSliceInt, RoleRegSliceInt, accessBC, accessNone, (ShapeFlagFollowsExtension .| ShapeFlagOpaqueWrites)));
   (SubOpCopySliceFloatDirect, (roleRegSliceFloat, roleRegSliceFloat, accessBC, accessNone, (ShapeFlagFollowsExtension .| ShapeFlagOpaqueWrites)));
   (SubOpCopySliceStringDirect, (roleRegSliceString, roleRegSliceString, accessBC, accessNone, (ShapeFlagFollowsExtension .| ShapeFlagOpaqueWrites)));
   (SubOpCopySliceBoolDirect, (roleRegSliceBool, roleRegSliceBool, accessBC, accessNone, (ShapeFlagFollowsExtension .| ShapeFlagOpaqueWrites)));
   (SubOpCopySliceUintDirect, (roleRegSliceUint, roleRegSliceUint, accessBC, accessNone, (ShapeFlagFollowsExtension .| ShapeFlagOpaqueWrites)));
   (SubOpCopySliceByteDirect, (roleRegSliceByte, roleRegSliceByte, accessBC, accessNone, (ShapeFlagFollowsExtension .| ShapeFlagOpaqueWrites)));
   (SubOpAppendUintInPlace, (RoleRegGeneral, RoleRegGeneral, accessC, accessB, ShapeFlagFollowsExtension));
   (SubOpAppendByteSpreadInPlace, (RoleRegGeneral, RoleRegGeneral, accessBC, accessB, 0));
   (SubOpSetStructFieldSliceInt, (RoleRegGeneral, RoleRegSliceInt, accessBC, accessNone, ShapeFlagFollowsExtension));
   (SubOpSetStructFieldSliceFloat, (RoleRegGeneral, roleRegSliceFloat, accessBC, accessNone, ShapeFlagFollowsExtension));
   (SubOpSetStructFieldSliceUint, (RoleRegGeneral, roleRegSliceUint, accessBC, accessNone, ShapeFlagFollowsExtension));
   (SubOpSetStructFieldSliceString, (RoleRegGeneral, roleRegSliceString, accessBC, accessNone, ShapeFlagFollowsExtension));
   (SubOpSetStructFieldSliceBool, (RoleRegGeneral, roleRegSliceBool, accessBC, accessNone, ShapeFlagFollowsExtension));
   (SubOpSetStructFieldSliceByte, (RoleRegGeneral, roleRegSliceByte, accessBC, accessNone, ShapeFlagFollowsExtension));
   (SubOpMakeSliceHeap, (RoleRegDynamic, RoleRegInt, accessC, accessB, ShapeFlagFollowsExtension));
   (SubOpTypeSwitchJump, (RoleRegGeneral, RoleRegGeneral, accessC, accessB, (ShapeFlagControlFlow .| ShapeFlagTerminator)));
   (SubOpEqInterfaceStrict, (RoleRegGeneral, RoleRegGeneral, accessBC, accessNone, (ShapeFlagFollowsExtension .| ShapeFlagOpaqueWrites)));
   (SubOpFieldAddr, (RoleRegGeneral, RoleRegGeneral, accessC, accessB, ShapeFlagFollowsExtension));
   (SubOpNeInterfaceStrict, (RoleRegGeneral, RoleRegGeneral, accessBC, accessNone, (ShapeFlagFollowsExtension .| ShapeFlagOpaqueWrites)))].

Definition sub1DstSrcShapes : list (Z * (OperandRole * OperandRole)) :=
  [(SubOpMathSin, (RoleRegFloat, RoleRegFloat));
   (SubOpMathCos, (RoleRegFloat, RoleRegFloat));
   (SubOpMathExp, (RoleRegFloat, RoleRegFloat));
   (SubOpMathTan, (RoleRegFloat, RoleRegFloat));
   (SubOpStrconvFormatBool, (RoleRegString, RoleRegBool));
   (SubOpStrconvItoa, (RoleRegString, RoleRegInt));
   (SubOpRealComplex, (RoleRegFloat, RoleRegComplex));
   (SubOpImagComplex, (RoleRegFloat, RoleRegComplex));
   (SubOpBytesToString, (RoleRegString, RoleRegGeneral));
   (SubOpCap, (RoleRegInt, RoleRegGeneral));
   (SubOpNegComplex, (RoleRegComplex, RoleRegComplex));
   (SubOpMoveComplex, (RoleRegComplex, RoleRegComplex));
   (SubOpLenSliceIntDirect, (RoleRegInt, RoleRegSliceInt));
   (SubOpLenSliceFloatDirect, (RoleRegInt, roleRegSliceFloat));
   (SubOpLenSliceStringDirect, (RoleRegInt, roleRegSliceString));
   (SubOpLenSliceBoolDirect, (RoleRegInt, roleRegSliceBool));
   (SubOpLenSliceUintDirect, (RoleRegInt, roleRegSliceUint));
   (SubOpBoxSliceInt, (RoleRegGeneral, RoleRegSliceInt));
   (SubOpMoveInt, (RoleRegInt, RoleRegInt));
   (SubOpMoveFloat, (RoleRegFloat, RoleRegFloat));
   (SubOpMoveString, (RoleRegString, RoleRegString));
   (SubOpMoveBool, (RoleRegBool, RoleRegBool));
   (SubOpMoveUint, (RoleRegUint, RoleRegUint));
   (SubOpMoveIntToGeneral, (RoleRegGeneral, RoleRegInt));
   (SubOpMoveGeneralToInt, (RoleRegInt, RoleRegGeneral));
   (SubOpMoveFloatToGeneral, (RoleRegGeneral, RoleRegFloat));
   (SubOpMoveGeneralToFloat, (RoleRegFloat, RoleRegGeneral));
   (SubOpMoveStringToGeneral, (RoleRegGeneral, RoleRegString));
   (SubOpMoveGeneralToString, (RoleRegString, RoleRegGeneral));
   (SubOpNegInt, (RoleRegInt, RoleRegInt));
   (SubOpNegFloat, (RoleRegFloat, RoleRegFloat));
   (SubOpBitNot, (RoleRegInt, RoleRegInt));
   (SubOpBitNotUint, (RoleRegUint, RoleRegUint));
   (SubOpIntToFloat, (RoleRegFloat, RoleRegInt));
   (SubOpFloatToInt, (RoleRegInt, RoleRegFloat));
   (SubOpNot, (RoleRegInt, RoleRegInt));
   (SubOpBoolToInt, (RoleRegInt, RoleRegBool));
   (SubOpIntToBool, (RoleRegBool, RoleRegInt));
   (SubOpIntToUint, (RoleRegUint, RoleRegInt));
   (SubOpUintToInt, (RoleRegInt, RoleRegUint));
   (SubOpUintToFloat, (RoleRegFloat, RoleRegUint));
   (SubOpFloatToUint, (RoleRegUint, RoleRegFloat));
   (SubOpMathSqrt, (RoleRegFloat, RoleRegFloat));
   (SubOpMathAbs, (RoleRegFloat, RoleRegFloat));
   (SubOpMathFloor, (RoleRegFloat, RoleRegFloat));
   (SubOpMathCeil, (RoleRegFloat, RoleRegFloat));
   (SubOpMathTrunc, (RoleRegFloat, RoleRegFloat));
   (SubOpMathRound, (RoleRegFloat, RoleRegFloat));
   (SubOpLenString, (RoleRegInt, RoleRegString));
   (SubOpRangeInit, (RoleRegGeneral, RoleRegGeneral));
   (SubOpEqInterfaceNil, (RoleRegInt, RoleRegGeneral));
   (SubOpNeInterfaceNil, (RoleRegInt, RoleRegGeneral));
   (SubOpRuneToString, (RoleRegString, RoleRegInt));
   (SubOpStrToUpper, (RoleRegString, RoleRegString));
   (SubOpStrToLower, (RoleRegString, RoleRegString));
   (SubOpStrTrimSpace, (RoleRegString, RoleRegString));
   (SubOpLen, (RoleRegInt, RoleRegGeneral));
   (SubOpStringToBytes, (RoleRegGeneral, RoleRegString));
   (SubOpUnsafeStringData, (RoleRegGeneral, RoleRegString));
   (SubOpUnsafeSliceData, (RoleRegGeneral, RoleRegGeneral));
   (SubOpLenSliceByteDirect, (RoleRegInt, roleRegSliceByte));
   (SubOpBoxSliceByte, (RoleRegGeneral, roleRegSliceByte));
   (SubOpSliceByteToString, (RoleRegString, roleRegSliceByte));
   (SubOpAdoptGeneralToSlicesFloat, (roleRegSliceFloat, RoleRegGeneral));
   (SubOpAdoptGeneralToSlicesInt, (RoleRegSliceInt, RoleRegGeneral));
   (SubOpAdoptGeneralToSlicesString, (roleRegSliceString, RoleRegGeneral));
   (SubOpAdoptGeneralToSlicesBool, (roleRegSliceBool, RoleRegGeneral));
   (SubOpAdoptGeneralToSlicesUint, (roleRegSliceUint, RoleRegGeneral));
   (SubOpAdoptGeneralToSlicesByte, (roleRegSliceByte, RoleRegGeneral));
   (SubOpBoxSliceFloat, (RoleRegGeneral, roleRegSliceFloat));
   (SubOpBoxSliceString, (RoleRegGeneral, roleRegSliceString));
   (SubOpBoxSliceBool, (RoleRegGeneral, roleRegSliceBool));
   (SubOpBoxSliceUint, (RoleRegGeneral, roleRegSliceUint));
   (SubOpMoveSliceInt, (RoleRegSliceInt, RoleRegSliceInt));
   (SubOpMoveSliceFloat, (roleRegSliceFloat, roleRegSliceFloat));
   (SubOpMoveSliceString, (roleRegSliceString, roleRegSliceString));
   (SubOpMoveSliceBool, (roleRegSliceBool, roleRegSliceBool));
   (SubOpMoveSliceUint, (roleRegSliceUint, roleRegSliceUint));
   (SubOpMoveSliceByte, (roleRegSliceByte, roleRegSliceByte));
   (SubOpCapSliceIntDirect, (RoleRegInt, RoleRegSliceInt));
   (SubOpCapSliceFloatDirect, (RoleRegInt, roleRegSliceFloat));
   (SubOpCapSliceStringDirect, (RoleRegInt, roleRegSliceString));
   (SubOpCapSliceBoolDirect, (RoleRegInt, roleRegSliceBool));
   (SubOpCapSliceUintDirect, (RoleRegInt, roleRegSliceUint));
   (SubOpCapSliceByteDirect, (RoleRegInt, roleRegSliceByte));
   (SubOpRoundFloat32, (RoleRegFloat, RoleRegFloat));
   (SubOpRoundComplex64, (RoleRegComplex, RoleRegComplex))].

Definition sub1DstSrcExtensionShapes : list (Z * (OperandRole * OperandRole)) :=
  [(SubOpAddUintConst, (RoleRegUint, RoleRegUint));
   (SubOpSubUintConst, (RoleRegUint, RoleRegUint));
   (SubOpBitAndUintConst, (RoleRegUint, RoleRegUint));
   (SubOpGetStructFieldInt, (RoleRegInt, RoleRegGeneral));
   (SubOpGetStructFieldUint, (RoleRegUint, RoleRegGeneral));
   (SubOpGetStructFieldFloat, (RoleRegFloat, RoleRegGeneral));
   (SubOpGetStructFieldBool, (RoleRegBool, RoleRegGeneral));
   (SubOpGetStructFieldString, (RoleRegString, RoleRegGeneral));
   (SubOpGetStructFieldSliceInt, (RoleRegSliceInt, RoleRegGeneral));
   (SubOpGetStructFieldSliceFloat, (roleRegSliceFloat, RoleRegGeneral));
   (SubOpGetStructFieldSliceUint, (roleRegSliceUint, RoleRegGeneral));
   (SubOpGetStructFieldSliceString, (roleRegSliceString, RoleRegGeneral));
   (SubOpGetStructFieldSliceBool, (roleRegSliceBool, RoleRegGeneral));
   (SubOpGetStructFieldSliceByte, (roleRegSliceByte, RoleRegGeneral))].

Definition sub1ConstJumpShapes : list (Z * OperandRole) :=
  [(SubOpEqStringConstJumpFalse, RoleRegString);
   (SubOpLeIntConstJumpFalse, RoleRegInt);
   (SubOpLtIntConstJumpFalse, RoleRegInt);
   (SubOpEqIntConstJumpFalse, RoleRegInt);
   (SubOpEqIntConstJumpTrue, RoleRegInt);
   (SubOpGeIntConstJumpFalse, RoleRegInt);
   (SubOpGtIntConstJumpFalse, RoleRegInt)].

Definition sub1RegRegJumpShapes : list (Z * OperandRole) :=
  [(SubOpLtIntJumpFalse, RoleRegInt);
   (SubOpLeIntJumpFalse, RoleRegInt);
   (SubOpGtIntJumpFalse, RoleRegInt);
   (SubOpGeIntJumpFalse, RoleRegInt);
   (SubOpEqIntJumpFalse, RoleRegInt);
   (SubOpNeIntJumpFalse, RoleRegInt)].

Definition sub1CallSiteShapes : list (Z * shapeFlag) :=
  [(SubOpCall, 0);
   (SubOpCallScalar, 0);
   (SubOpCallNative, 0);
   (SubOpCallIIFE, 0);
   (SubOpTailCall, (ShapeFlagControlFlow .| ShapeFlagTerminator));
   (SubOpCallMethod, ShapeFlagFollowsExtension);
   (SubOpCallMethodInlineable, ShapeFlagFollowsExtension)].

Definition sub2Shapes : list (Z * (OperandRole * operandAccess * operandAccess * shapeFlag)) :=
  [(SubOpTier2MakeInterfaceMethodExpr, (RoleRegGeneral, accessNone, accessC, ShapeFlagFollowsExtension));
   (SubOpTier2MakeMap, (RoleRegGeneral, accessNone, accessC, ShapeFlagFollowsExtension));
   (SubOpTier2RangeCheckUintJumpFalse, (RoleRegUint, accessC, accessNone, (ShapeFlagFollowsExtension .| ShapeFlagControlFlow)));
   (SubOpTier2AllocStructLiteral, (RoleRegGeneral, accessNone, accessC, ShapeFlagFollowsExtension));
   (SubOpTier2IncInt, (RoleRegInt, accessC, accessC, 0));
   (SubOpTier2DecInt, (RoleRegInt, accessC, accessC, 0));
   (SubOpTier2IncUint, (RoleRegUint, accessC, accessC, 0));
   (SubOpTier2DecUint, (RoleRegUint, accessC, accessC, 0));
   (SubOpTier2IncInt32, (RoleRegInt, accessC, accessC, 0));
   (SubOpTier2DecInt32, (RoleRegInt, accessC, accessC, 0));
   (SubOpTier2Panic, (RoleRegGeneral, accessC, accessNone, 0));
   (SubOpTier2Recover, (RoleRegGeneral, accessNone, accessC, 0));
   (SubOpTier2SetZero, (RoleRegGeneral, accessC, accessNone, 0));
   (SubOpTier2ChannelClose, (RoleRegGeneral, accessC, accessNone, 0));
   (SubOpTier2LoadNil, (RoleRegGeneral, accessNone, accessC, 0));
   (SubOpTier2Return, (RoleImmediate, accessNone, accessNone, (ShapeFlagControlFlow .| ShapeFlagTerminator)));
   (SubOpTier2SyncClosureUpvalues, (RoleRegGeneral, accessC, accessNone, ShapeFlagOpaqueWrites))].

Definition sub3Shapes : list (Z * shapeFlag) :=
  [(SubOpTier3Nop, 0);
   (SubOpTier3ReturnVoid, (ShapeFlagControlFlow .| ShapeFlagTerminator));
   (SubOpTier3SyncIIFEUpvalues, ShapeFlagOpaqueWrites)].

(** The maps are walked in Go's unspecified order; the rows are listed here in
    the order of the literals. *)
Definition populateSubTierShapes : list ShapeWrite :=
  map (λ '(op, (b, c, reads, writes, flags)),
         describedSub1 op b c (access_mask reads) (access_mask writes) flags) sub1Shapes
  ++ map (λ '(op, (destination, source)), describeSub1DstSrc op destination source)
       sub1DstSrcShapes
  ++ map (λ '(op, (destination, source)), describeSub1DstSrcExtension op destination source)
       sub1DstSrcExtensionShapes
  ++ map (λ '(op, source), describeSub1ConstJump op source) sub1ConstJumpShapes
  ++ map (λ '(op, source), describeSub1RegRegJump op source) sub1RegRegJumpShapes
  ++ map (λ '(op, flags), describeCallSite op flags) sub1CallSiteShapes
  ++ map (λ '(op, (c, reads, writes, flags)),
         describedSub2 op c (access_touches reads accessC) (access_touches writes accessC) flags)
       sub2Shapes
  ++ map (λ '(op, flags), describedSub3 op flags) sub3Shapes.

(** ** The table *)

(** The writes package initialisation performs, in order. *)
Definition initShapes : list ShapeWrite :=
  populateScalarArithShapes
  ++ populateGenericArithShapes
  ++ populateComparisonShapes
  ++ populateConversionMoveShapes
  ++ populateConstantLoadShapes
  ++ populateJumpAndFusedShapes
  ++ populateMathShapes
  ++ populateCollectionShapes
  ++ populateTypeSwitchJumpShapes
  ++ populateAddressTypeShapes
  ++ populateGlobalUnsafeShapes
  ++ populateStringShapes
  ++ populateStringIntrinsicShapes
  ++ populateComplexAndFusedStringShapes
  ++ populateSliceAndAppendShapes
  ++ populateTypedSliceDirectShapes
  ++ populateMapAndFieldShapes
  ++ populateUpvalueAndConvertShapes
  ++ populateTerminatorShapes
  ++ populateCallAndFrameShapes
  ++ populateSubTierShapes.

Notation ShapeTable := (list (list OperandShape)) (only parsing).

Definition emptyShapeTable : ShapeTable :=
  replicate (Z.to_nat tierCount) (replicate (Z.to_nat SlotsPerTier) zeroShape).

Definition writeShape (table : ShapeTable) (w : ShapeWrite) : ShapeTable :=
  let '(tier, code, s) := w in
  match zget table tier with
  | Some row => zset table tier (zset row code s)
  | None => table
  end.

Definition operandShapes : ShapeTable :=
  Eval vm_compute in foldl writeShape emptyShapeTable initShapes.

Definition OperandShapeAt (tier : Tier) (code : Z) : OperandShape :=
  default zeroShape (row ← zget operandShapes tier; zget row code).

Definition OperandShapeFor (op : Opcode) : OperandShape := OperandShapeAt TierMain op.

Definition ShapeForInstruction (instr : Instruction) : OperandShape :=
  if negb (iOp instr =? OpDrillTier1) then OperandShapeAt TierMain (iOp instr)
  else if negb (iA instr =? SubOpDrillTier2) then OperandShapeAt TierSub1 (iA instr)
  else if negb (iB instr =? SubOpTier2DrillTier3) then OperandShapeAt TierSub2 (iB instr)
  else OperandShapeAt TierSub3 (iC instr).

Definition CallSiteIndex (instr : Instruction) : option Z :=
  let shape := ShapeForInstruction instr in
  if bool_decide (shB shape = roleCallSiteLow) && bool_decide (shC shape = roleCallSiteHigh)
  then Some (WideIndex instr) else None.

Definition KindForRole (role : OperandRole) : option RegisterKind :=
  match role with
  | RoleRegInt => Some RegisterInt
  | RoleRegFloat => Some RegisterFloat
  | RoleRegString => Some RegisterString
  | RoleRegBool => Some RegisterBool
  | RoleRegUint => Some RegisterUint
  | RoleRegComplex => Some RegisterComplex
  | RoleRegGeneral => Some RegisterGeneral
  | RoleRegSliceInt => Some RegisterSliceInt
  | roleRegSliceFloat => Some RegisterSliceFloat
  | roleRegSliceString => Some RegisterSliceString
  | roleRegSliceBool => Some RegisterSliceBool
  | roleRegSliceUint => Some RegisterSliceUint
  | roleRegSliceByte => Some RegisterSliceByte
  | _ => None
  end.

Definition RoleIndexesPerFunctionTable (role : OperandRole) : bool :=
  match role with
  | roleConstIndex | roleTypeIndex => true
  | _ => false
  end.

Definition RoleForKind (kind : RegisterKind) : OperandRole :=
  if kind =? RegisterInt then RoleRegInt
  else if kind =? RegisterFloat then RoleRegFloat
  else if kind =? RegisterString then RoleRegString
  else if kind =? RegisterBool then RoleRegBool
  else if kind =? RegisterUint then RoleRegUint
  else if kind =? RegisterComplex then RoleRegComplex
  else if kind =? RegisterSliceInt then RoleRegSliceInt
  else if kind =? RegisterSliceFloat then roleRegSliceFloat
  else if kind =? RegisterSliceString then roleRegSliceString
  else if kind =? RegisterSliceBool then roleRegSliceBool
  else if kind =? RegisterSliceUint then roleRegSliceUint
  else if kind =? RegisterSliceByte then roleRegSliceByte
  else RoleRegGeneral.

(** ** The table is well defined *)

Definition write_key (w : ShapeWrite) : Tier * Z := w.1.

(** No operation is described twice, and every description is inside the
    table. *)
Lemma initShapes_keys_NoDup : NoDup (map write_key initShapes).
Proof. apply (bool_decide_unpack (NoDup (map write_key initShapes))). vm_compute. exact I. Qed.

Lemma initShapes_keys_in_range :
  Forall (λ w : ShapeWrite, 0 ≤ w.1.1 < tierCount ∧ 0 ≤ w.1.2 < SlotsPerTier) initShapes.
Proof. eapply bool_decide_unpack. vm_compute. exact I. Qed.

Lemma operandShapes_eq : operandShapes = foldl writeShape emptyShapeTable initShapes.
Proof. vm_compute. reflexivity. Qed.

Definition tableAt (table : ShapeTable) (tier : Tier) (code : Z) : option OperandShape :=
  row ← zget table tier; zget row code.

#[local] Arguments writeShape : simpl never.
#[local] Arguments tableAt : simpl never.

Lemma OperandShapeAt_tableAt tier code :
  OperandShapeAt tier code = default zeroShape (tableAt operandShapes tier code).
Proof. done. Qed.

Lemma tableAt_writeShape table tier code s t c :
  tableAt (writeShape table (tier, code, s)) t c =
    if bool_decide (tier = t ∧ code = c)
    then (if bool_decide (is_Some (tableAt table t c)) then Some s else None)
    else tableAt table t c.
Proof.
  unfold tableAt, writeShape. destruct (zget table tier) as [row|] eqn:Hrow.
  - rewrite zget_zset. pose proof (zget_Some_range _ _ _ Hrow).
    destruct (Z.eqb_spec tier t) as [->|Hne].
    + rewrite (bool_decide_true (0 ≤ t < zlen table)) by done. simpl. rewrite Hrow. simpl.
      rewrite zget_zset. destruct (Z.eqb_spec code c) as [->|].
      * rewrite (bool_decide_true (t = t ∧ c = c)) by done.
        destruct (zget row c) as [x|] eqn:Hc.
        -- apply zget_Some_range in Hc. by rewrite bool_decide_true.
        -- apply zget_None in Hc. by rewrite bool_decide_false.
      * rewrite bool_decide_false; naive_solver.
    + rewrite bool_decide_false; naive_solver.
  - case_bool_decide as Heq; [|done]. destruct Heq as [-> ->]. by rewrite Hrow.
Qed.

(** The row of a list of writes that describes an operation. *)
Fixpoint findWrite (writes : list ShapeWrite) (t c : Z) : option OperandShape :=
  match writes with
  | [] => None
  | (key, s) :: rest => if bool_decide (key = (t, c)) then Some s else findWrite rest t c
  end.

Lemma findWrite_elem_of writes t c s :
  findWrite writes t c = Some s → (t, c, s) ∈ writes.
Proof.
  induction writes as [|[key s'] rest IH]; simpl; [done|].
  case_bool_decide; [intros [= ->]; subst; by left|]. intros. right. auto.
Qed.

Lemma findWrite_None writes t c s :
  findWrite writes t c = None → (t, c, s) ∉ writes.
Proof.
  induction writes as [|[key s'] rest IH]; simpl; [by intros _ ?%elem_of_nil|].
  case_bool_decide; [done|]. intros Hf [[= <- <-]|]%elem_of_cons; [done|]. by apply IH.
Qed.

Lemma findWrite_unique writes t c s :
  NoDup (map write_key writes) → (t, c, s) ∈ writes → findWrite writes t c = Some s.
Proof.
  induction writes as [|[key s'] rest IH]; simpl; [by intros _ ?%elem_of_nil|].
  intros [Hnotin Hnd]%NoDup_cons [[= -> ->]|Hin]%elem_of_cons; [by rewrite bool_decide_true|].
  rewrite bool_decide_false; [auto|]. intros ->. apply Hnotin.
  apply list_elem_of_In, in_map_iff. exists (t, c, s). split; [done|by apply list_elem_of_In].
Qed.

Lemma tableAt_fold writes table t c :
  NoDup (map write_key writes) → is_Some (tableAt table t c) →
  tableAt (foldl writeShape table writes) t c =
    match findWrite writes t c with Some s => Some s | None => tableAt table t c end.
Proof.
  revert table. induction writes as [|[[tier code] s] writes IH]; intros table Hnd Hin; [done|].
  simpl in Hnd |- *. apply NoDup_cons in Hnd as [Hnotin Hnd].
  pose proof (tableAt_writeShape table tier code s t c) as Hw.
  rewrite (bool_decide_true _ Hin) in Hw.
  destruct (decide ((tier, code) = (t, c))) as [Heq|Hne].
  - rewrite (bool_decide_true (tier = t ∧ code = c)) in Hw by naive_solver.
    rewrite (bool_decide_true _ Heq). simplify_eq. rewrite IH, Hw by (done || by rewrite Hw).
    destruct (findWrite writes t c) as [s'|] eqn:Hf; [|done].
    exfalso. apply Hnotin, list_elem_of_In, in_map_iff. exists (t, c, s').
    split; [done|]. by apply list_elem_of_In, findWrite_elem_of.
  - rewrite (bool_decide_false (tier = t ∧ code = c)) in Hw by naive_solver.
    rewrite (bool_decide_false _ Hne). rewrite IH, Hw by (done || by rewrite Hw). done.
Qed.

Lemma findWrite_permutation writes writes' t c :
  NoDup (map write_key writes') → writes ≡ₚ writes' →
  findWrite writes t c = findWrite writes' t c.
Proof.
  intros Hnd Hperm. destruct (findWrite writes t c) as [s|] eqn:Hf.
  - symmetry. apply findWrite_unique; [done|]. rewrite <- Hperm. by apply findWrite_elem_of.
  - destruct (findWrite writes' t c) as [s|] eqn:Hf'; [|done].
    apply findWrite_elem_of in Hf'. rewrite <- Hperm in Hf'. by apply findWrite_None with (s := s) in Hf.
Qed.

Lemma tableAt_empty t c :
  0 ≤ t < tierCount → 0 ≤ c < SlotsPerTier → tableAt emptyShapeTable t c = Some zeroShape.
Proof.
  intros Ht Hc. unfold tableAt, emptyShapeTable.
  rewrite zget_lookup by lia. rewrite lookup_replicate_2; [|unfold tierCount in *; lia].
  cbn [mbind option_bind]. rewrite zget_lookup by lia.
  apply lookup_replicate_2. unfold SlotsPerTier in *; lia.
Qed.

(** the shape of every operation is the one row that describes it, or the
    opaque zero shape when no row does, whatever the order in which package
    initialisation performs the writes (Go walks the sub-tier maps in an
    unspecified order). *)
Theorem operand_shapes_order_independent writes t c :
  writes ≡ₚ initShapes →
  0 ≤ t < tierCount → 0 ≤ c < SlotsPerTier →
  tableAt (foldl writeShape emptyShapeTable writes) t c = Some (OperandShapeAt t c) ∧
  (∀ s, (t, c, s) ∈ writes → OperandShapeAt t c = s) ∧
  ((∀ s, (t, c, s) ∉ writes) → OperandShapeAt t c = zeroShape).
Proof.
  intros Hperm Ht Hc. pose proof (tableAt_empty t c Ht Hc) as Hempty.
  assert (Hsome : is_Some (tableAt emptyShapeTable t c)) by (rewrite Hempty; eauto).
  assert (Hnd : NoDup (map write_key writes)).
  { pose proof (Permutation_map write_key Hperm) as Hm. rewrite Hm.
    apply initShapes_keys_NoDup. }
  pose proof (findWrite_permutation _ _ t c initShapes_keys_NoDup Hperm) as Hsame.
  assert (Hval : OperandShapeAt t c = default zeroShape (findWrite writes t c)).
  { rewrite OperandShapeAt_tableAt, operandShapes_eq, Hsame.
    rewrite (tableAt_fold _ _ _ _ initShapes_keys_NoDup Hsome), Hempty.
    destruct (findWrite initShapes t c); reflexivity. }
  split_and!.
  - rewrite (tableAt_fold _ _ _ _ Hnd Hsome), Hval, Hempty.
    destruct (findWrite writes t c); reflexivity.
  - intros s Hs. rewrite Hval. by rewrite (findWrite_unique _ _ _ _ Hnd Hs).
  - intros Hno. rewrite Hval. destruct (findWrite writes t c) as [s|] eqn:Hf; [|done].
    by apply findWrite_elem_of, Hno in Hf.
Qed.

Theorem operand_shapes_order_independent_witness :
  rev initShapes ≡ₚ initShapes ∧
  tableAt (foldl writeShape emptyShapeTable (rev initShapes)) TierMain OpAddInt =
    Some (OperandShapeAt TierMain OpAddInt).
Proof.
  assert (H : rev initShapes ≡ₚ initShapes) by (symmetry; apply Permutation_rev).
  split; [exact H|].
  apply (operand_shapes_order_independent (rev initShapes) TierMain OpAddInt H);
    vm_compute; split; congruence.
Defined.

(** Banks and register roles name each other. *)
Lemma KindForRole_RoleForKind k :
  0 ≤ k < NumRegisterKinds → KindForRole (RoleForKind k) = Some k.
Proof.
  intros Hk. assert (H : Forall (λ k, KindForRole (RoleForKind k) = Some k) allRegisterKinds)
    by (vm_compute; repeat constructor).
  rewrite Forall_forall in H. apply H, elem_allRegisterKinds, Hk.
Qed.

Lemma KindForRole_range role k : KindForRole role = Some k → 0 ≤ k < NumRegisterKinds.
Proof. destruct role; intros [= <-]; vm_compute; split; congruence. Qed.

Lemma RoleForKind_KindForRole role k : KindForRole role = Some k → RoleForKind k = role.
Proof. destruct role; by intros [= <-]. Qed.

Lemma OperandShapeAt_out_of_table tier code :
  ¬ (0 ≤ tier < tierCount ∧ 0 ≤ code < SlotsPerTier) → OperandShapeAt tier code = zeroShape.
Proof.
  intros H. unfold OperandShapeAt.
  destruct (zget operandShapes tier) as [row|] eqn:Hr; [|done]. simpl.
  assert (Hlen : Forall (λ row, zlen row = SlotsPerTier) operandShapes)
    by (vm_compute; repeat constructor).
  pose proof (zget_Some_range _ _ _ Hr) as Htier.
  rewrite zget_lookup in Hr by lia. rewrite Forall_lookup in Hlen. apply Hlen in Hr.
  destruct (zget row code) eqn:Hc; [|done].
  apply zget_Some_range in Hc. exfalso. apply H. split; [|lia].
  change (zlen operandShapes) with tierCount in Htier. lia.
Qed.
