(* ===== verification/Spec.v ===== *)
(** * The operation specification table

    [internal/isa/spec*.go] and [internal/isa/cost_table.go]: one row per
    operation, from which the rest of the instruction set derives; the index
    built from the rows by package initialisation; the cost table; and the
    flat (tier, code) operation space the dispatch tables are keyed by. *)

From S2P Require Import Prelude Register Opcode Instruction Shapes.

#[local] Open Scope pipit_scope.

Notation specFlag := Z (only parsing).
Definition SpecJump : specFlag := 1.
Definition specReserved : specFlag := 2.
Definition specMeta : specFlag := 4.
Definition SpecShimNarrow : specFlag := 8.
Definition SpecShimSuppressed : specFlag := 16.
Definition specMutatesMemory : specFlag := 32.
Definition specMemoryPure : specFlag := 64.

Inductive DispatchPath :=
  | DispatchNone
  | DispatchAsm
  | DispatchShim
  | DispatchExit
  | DispatchGo.

#[export] Instance DispatchPath_eq_dec : EqDecision DispatchPath.
Proof. solve_decision. Defined.

Record OpSpec := mkOpSpec {
  spName : string;
  spHandler : string;
  spAsmBody : string;
  spAsmTable : string;
  spShim : string;
  spShimHandler : string;
  spExitStub : string;
  spExitReason : string;
  spCost : Z;
  spFlags : specFlag;
  spTier : Tier;
  spCode : Z;
}.

#[export] Instance OpSpec_eq_dec : EqDecision OpSpec.
Proof. solve_decision. Defined.

(** ** Costs *)

Definition costFree : Z := 0.
Definition costCheap : Z := 1.
Definition costMedium : Z := 3.
Definition costModerate : Z := 5.
Definition costExpensive : Z := 10.
Definition costVeryHeavy : Z := 20.

Definition FlatDispatchSlots : Z := tierCount * SlotsPerTier.

(** ** Rows

    The builder methods of the source, applied with [|>] in the order the
    method chain calls them. *)

Module SpecBuilder.
Definition spec (tier : Tier) (code : Z) (name : string) : OpSpec :=
  {| spName := name; spHandler := ""; spAsmBody := ""; spAsmTable := ""; spShim := "";
     spShimHandler := ""; spExitStub := ""; spExitReason := ""; spCost := costCheap;
     spFlags := 0; spTier := tier; spCode := code |}.

Definition main0 (op : Opcode) (name : string) : OpSpec := spec TierMain op name.
Definition sub1 (op : SubOpcode) (name : string) : OpSpec := spec TierSub1 op name.
Definition sub2 (op : SubOpcodeTier2) (name : string) : OpSpec := spec TierSub2 op name.
Definition sub3 (op : SubOpcodeTier3) (name : string) : OpSpec := spec TierSub3 op name.

Definition cost (charge : Z) (s : OpSpec) : OpSpec :=
  mkOpSpec (spName s) (spHandler s) (spAsmBody s) (spAsmTable s) (spShim s)
    (spShimHandler s) (spExitStub s) (spExitReason s) charge (spFlags s) (spTier s) (spCode s).

Definition handler (name : string) (s : OpSpec) : OpSpec :=
  mkOpSpec (spName s) name (spAsmBody s) (spAsmTable s) (spShim s)
    (spShimHandler s) (spExitStub s) (spExitReason s) (spCost s) (spFlags s) (spTier s) (spCode s).

Definition asm (symbol : string) (s : OpSpec) : OpSpec :=
  mkOpSpec (spName s) (spHandler s) symbol (spAsmTable s) (spShim s)
    (spShimHandler s) (spExitStub s) (spExitReason s) (spCost s) (spFlags s) (spTier s) (spCode s).

Definition asmIn (table symbol : string) (s : OpSpec) : OpSpec :=
  mkOpSpec (spName s) (spHandler s) symbol table (spShim s)
    (spShimHandler s) (spExitStub s) (spExitReason s) (spCost s) (spFlags s) (spTier s) (spCode s).

Definition shim (goHandler suffix : string) (s : OpSpec) : OpSpec :=
  mkOpSpec (spName s) (spHandler s) (spAsmBody s) (spAsmTable s) suffix
    goHandler (spExitStub s) (spExitReason s) (spCost s) (spFlags s) (spTier s) (spCode s).

Definition exit (stub reason : string) (s : OpSpec) : OpSpec :=
  mkOpSpec (spName s) (spHandler s) (spAsmBody s) (spAsmTable s) (spShim s)
    (spShimHandler s) stub reason (spCost s) (spFlags s) (spTier s) (spCode s).

Definition flags (f : specFlag) (s : OpSpec) : OpSpec :=
  mkOpSpec (spName s) (spHandler s) (spAsmBody s) (spAsmTable s) (spShim s)
    (spShimHandler s) (spExitStub s) (spExitReason s) (spCost s) (spFlags s .| f)
    (spTier s) (spCode s).

Definition mutates (s : OpSpec) : OpSpec := flags specMutatesMemory s.
Definition pure (s : OpSpec) : OpSpec := flags specMemoryPure s.
End SpecBuilder.

Section tables.
Import SpecBuilder.
#[local] Open Scope string_scope.
#[local] Notation "x |> f" := (f x) (at level 51, left associativity, only parsing).

Definition tierMainSpecs : list OpSpec :=
  [ main0 OpDrillTier1 "DRILL_TIER1" |> cost costMedium |> flags specMeta;
    main0 OpExt "EXT" |> cost costFree |> handler "handleExt" |> pure;
    main0 OpLoadIntConst "LOAD_INT_CONST" |> cost costFree |> handler "handleLoadIntConst" |> asm "handlerLoadIntConst" |> pure;
    main0 OpLoadFloatConst "LOAD_FLOAT_CONST" |> cost costFree |> handler "handleLoadFloatConst" |> asm "handlerLoadFloatConst" |> pure;
    main0 OpAddInt "ADD_INT" |> handler "handleAddInt" |> asm "handlerAddInt" |> pure;
    main0 OpSubInt "SUB_INT" |> handler "handleSubInt" |> asm "handlerSubInt" |> pure;
    main0 OpMulInt "MUL_INT" |> handler "handleMulInt" |> asm "handlerMulInt" |> pure;
    main0 OpDivInt "DIV_INT" |> handler "handleDivInt" |> asm "handlerDivInt" |> pure;
    main0 OpRemInt "REM_INT" |> handler "handleRemInt" |> asm "handlerRemInt" |> pure;
    main0 OpBitAnd "BIT_AND" |> handler "handleBitAnd" |> asm "handlerBitAnd" |> pure;
    main0 OpBitOr "BIT_OR" |> handler "handleBitOr" |> asm "handlerBitOr" |> pure;
    main0 OpBitXor "BIT_XOR" |> handler "handleBitXor" |> asm "handlerBitXor" |> pure;
    main0 OpBitAndNot "BIT_AND_NOT" |> handler "handleBitAndNot" |> asm "handlerBitAndNot" |> pure;
    main0 OpShiftLeft "SHIFT_LEFT" |> handler "handleShiftLeft" |> asm "handlerShiftLeft" |> pure;
    main0 OpShiftRight "SHIFT_RIGHT" |> handler "handleShiftRight" |> asm "handlerShiftRight" |> pure;
    main0 OpAddFloat "ADD_FLOAT" |> handler "handleAddFloat" |> asm "handlerAddFloat" |> pure;
    main0 OpSubFloat "SUB_FLOAT" |> handler "handleSubFloat" |> asm "handlerSubFloat" |> pure;
    main0 OpMulFloat "MUL_FLOAT" |> handler "handleMulFloat" |> asm "handlerMulFloat" |> pure;
    main0 OpDivFloat "DIV_FLOAT" |> handler "handleDivFloat" |> asm "handlerDivFloat" |> pure;
    main0 OpEqInt "EQ_INT" |> handler "handleEqInt" |> asm "handlerEqInt" |> pure;
    main0 OpNeInt "NE_INT" |> handler "handleNeInt" |> asm "handlerNeInt" |> pure;
    main0 OpLtInt "LT_INT" |> handler "handleLtInt" |> asm "handlerLtInt" |> pure;
    main0 OpLeInt "LE_INT" |> handler "handleLeInt" |> asm "handlerLeInt" |> pure;
    main0 OpGtInt "GT_INT" |> handler "handleGtInt" |> asm "handlerGtInt" |> pure;
    main0 OpGeInt "GE_INT" |> handler "handleGeInt" |> asm "handlerGeInt" |> pure;
    main0 OpEqFloat "EQ_FLOAT" |> handler "handleEqFloat" |> asm "handlerEqFloat" |> pure;
    main0 OpNeFloat "NE_FLOAT" |> handler "handleNeFloat" |> asm "handlerNeFloat" |> pure;
    main0 OpLtFloat "LT_FLOAT" |> handler "handleLtFloat" |> asm "handlerLtFloat" |> pure;
    main0 OpLeFloat "LE_FLOAT" |> handler "handleLeFloat" |> asm "handlerLeFloat" |> pure;
    main0 OpGtFloat "GT_FLOAT" |> handler "handleGtFloat" |> asm "handlerGtFloat" |> pure;
    main0 OpGeFloat "GE_FLOAT" |> handler "handleGeFloat" |> asm "handlerGeFloat" |> pure;
    main0 OpJumpIfTrue "JUMP_IF_TRUE" |> handler "handleJumpIfTrue" |> asm "handlerJumpIfTrue" |> flags SpecJump |> pure;
    main0 OpJumpIfFalse "JUMP_IF_FALSE" |> handler "handleJumpIfFalse" |> asm "handlerJumpIfFalse" |> flags SpecJump |> pure;
    main0 OpSubIntConst "SUB_INT_CONST" |> handler "handleSubIntConst" |> asm "handlerSubIntConst" |> pure;
    main0 OpAddIntConst "ADD_INT_CONST" |> handler "handleAddIntConst" |> asm "handlerAddIntConst" |> pure;
    main0 OpMulIntConst "MUL_INT_CONST" |> handler "handleMulIntConst" |> asm "handlerMulIntConst" |> pure;
    main0 OpAddIntJump "ADD_INT_JUMP" |> handler "handleAddIntJump" |> asm "handlerAddIntJump" |> flags SpecJump |> pure;
    main0 OpStringIndex "STRING_INDEX" |> handler "handleStringIndex" |> asm "handlerStringIndex" |> pure;
    main0 OpEqString "EQ_STRING" |> cost costMedium |> handler "handleEqString" |> asm "handlerEqString" |> pure;
    main0 OpNeString "NE_STRING" |> cost costMedium |> handler "handleNeString" |> asm "handlerNeString" |> pure;
    main0 OpSliceString "SLICE_STRING" |> cost costMedium |> handler "handleSliceString" |> asm "handlerSliceString" |> pure;
    main0 OpStringIndexToInt "STRING_INDEX_TO_INT" |> cost costMedium |> handler "handleStringIndexToInt" |> asm "handlerStringIndexToInt" |> pure;
    main0 OpMoveGeneral "MOVE_GENERAL" |> cost costFree |> handler "handleMoveGeneral" |> asm "handlerMoveGeneral" |> shim "HandleMoveGeneral" "MoveGeneral" |> flags SpecShimSuppressed |> pure;
    main0 OpLoadStringConst "LOAD_STRING_CONST" |> cost costFree |> handler "handleLoadStringConst" |> asm "handlerLoadStringConst" |> pure;
    main0 OpLoadGeneralConst "LOAD_GENERAL_CONST" |> cost costFree |> handler "handleLoadGeneralConst" |> shim "HandleLoadGeneralConst" "LoadGeneralConst" |> pure;
    main0 OpLoadUintConst "LOAD_UINT_CONST" |> cost costFree |> handler "handleLoadUintConst" |> asm "handlerLoadUintConst" |> pure;
    main0 OpLoadComplexConst "LOAD_COMPLEX_CONST" |> cost costFree |> handler "handleLoadComplexConst" |> shim "HandleLoadComplexConst" "LoadComplexConst" |> pure;
    main0 OpAddUint "ADD_UINT" |> handler "handleAddUint" |> asm "handlerAddUint" |> pure;
    main0 OpSubUint "SUB_UINT" |> handler "handleSubUint" |> asm "handlerSubUint" |> pure;
    main0 OpMulUint "MUL_UINT" |> handler "handleMulUint" |> asm "handlerMulUint" |> pure;
    main0 OpDivUint "DIV_UINT" |> handler "handleDivUint" |> asm "handlerDivUint" |> pure;
    main0 OpRemUint "REM_UINT" |> handler "handleRemUint" |> asm "handlerRemUint" |> pure;
    main0 OpBitAndUint "BIT_AND_UINT" |> handler "handleBitAndUint" |> asm "handlerBitAndUint" |> pure;
    main0 OpBitOrUint "BIT_OR_UINT" |> handler "handleBitOrUint" |> asm "handlerBitOrUint" |> pure;
    main0 OpBitXorUint "BIT_XOR_UINT" |> handler "handleBitXorUint" |> asm "handlerBitXorUint" |> pure;
    main0 OpBitAndNotUint "BIT_AND_NOT_UINT" |> handler "handleBitAndNotUint" |> asm "handlerBitAndNotUint" |> pure;
    main0 OpShiftLeftUint "SHIFT_LEFT_UINT" |> handler "handleShiftLeftUint" |> asm "handlerShiftLeftUint" |> pure;
    main0 OpShiftRightUint "SHIFT_RIGHT_UINT" |> handler "handleShiftRightUint" |> asm "handlerShiftRightUint" |> pure;
    main0 OpEqUint "EQ_UINT" |> handler "handleEqUint" |> asm "handlerEqUint" |> pure;
    main0 OpNeUint "NE_UINT" |> handler "handleNeUint" |> asm "handlerNeUint" |> pure;
    main0 OpLtUint "LT_UINT" |> handler "handleLtUint" |> asm "handlerLtUint" |> pure;
    main0 OpLeUint "LE_UINT" |> handler "handleLeUint" |> asm "handlerLeUint" |> pure;
    main0 OpGtUint "GT_UINT" |> handler "handleGtUint" |> asm "handlerGtUint" |> pure;
    main0 OpGeUint "GE_UINT" |> handler "handleGeUint" |> asm "handlerGeUint" |> pure;
    main0 OpAddComplex "ADD_COMPLEX" |> handler "handleAddComplex" |> shim "HandleAddComplex" "AddComplex" |> pure;
    main0 OpSubComplex "SUB_COMPLEX" |> handler "handleSubComplex" |> shim "HandleSubComplex" "SubComplex" |> pure;
    main0 OpMulComplex "MUL_COMPLEX" |> handler "handleMulComplex" |> shim "HandleMulComplex" "MulComplex" |> pure;
    main0 OpDivComplex "DIV_COMPLEX" |> handler "handleDivComplex" |> shim "HandleDivComplex" "DivComplex" |> pure;
    main0 OpEqComplex "EQ_COMPLEX" |> handler "handleEqComplex" |> shim "HandleEqComplex" "EqComplex" |> pure;
    main0 OpNeComplex "NE_COMPLEX" |> handler "handleNeComplex" |> shim "HandleNeComplex" "NeComplex" |> pure;
    main0 OpBuildComplex "BUILD_COMPLEX" |> handler "handleBuildComplex" |> shim "HandleBuildComplex" "BuildComplex" |> pure;
    main0 OpConcatString "CONCAT_STRING" |> cost costMedium |> handler "handleConcatString" |> shim "HandleConcatString" "ConcatString" |> pure;
    main0 OpConcatRuneString "CONCAT_RUNE_STRING" |> cost costMedium |> handler "handleConcatRuneString" |> shim "HandleConcatRuneString" "ConcatRuneString" |> pure;
    main0 OpLtString "LT_STRING" |> cost costMedium |> handler "handleLtString" |> pure;
    main0 OpLeString "LE_STRING" |> cost costMedium |> handler "handleLeString" |> pure;
    main0 OpGtString "GT_STRING" |> cost costMedium |> handler "handleGtString" |> pure;
    main0 OpGeString "GE_STRING" |> cost costMedium |> handler "handleGeString" |> pure;
    main0 OpEqGeneral "EQ_GENERAL" |> cost costMedium |> handler "handleEqGeneral" |> asm "handlerEqGeneral" |> shim "HandleEqGeneral" "EqGeneral" |> flags SpecShimSuppressed |> pure;
    main0 OpNeGeneral "NE_GENERAL" |> cost costMedium |> handler "handleNeGeneral" |> shim "HandleNeGeneral" "NeGeneral" |> pure;
    main0 OpLtGeneral "LT_GENERAL" |> cost costMedium |> handler "handleLtGeneral" |> shim "HandleLtGeneral" "LtGeneral" |> pure;
    main0 OpLeGeneral "LE_GENERAL" |> cost costMedium |> handler "handleLeGeneral" |> shim "HandleLeGeneral" "LeGeneral" |> pure;
    main0 OpGtGeneral "GT_GENERAL" |> cost costMedium |> handler "handleGtGeneral" |> shim "HandleGtGeneral" "GtGeneral" |> pure;
    main0 OpGeGeneral "GE_GENERAL" |> cost costMedium |> handler "handleGeGeneral" |> shim "HandleGeGeneral" "GeGeneral" |> pure;
    main0 OpAdd "ADD" |> cost costMedium |> handler "handleAdd" |> pure;
    main0 OpSub "SUB" |> cost costMedium |> handler "handleSub" |> pure;
    main0 OpMul "MUL" |> cost costMedium |> handler "handleMul" |> pure;
    main0 OpDiv "DIV" |> cost costMedium |> handler "handleDiv" |> pure;
    main0 OpRem "REM" |> cost costMedium |> handler "handleRem" |> pure;
    main0 OpTruncateNarrow "TRUNCATE_NARROW" |> handler "HandleTruncateNarrow" |> asm "handlerTruncateNarrow" |> pure;
    main0 OpPackInterface "PACK_INTERFACE" |> cost costModerate |> handler "handlePackInterface" |> shim "HandlePackInterface" "PackInterface" |> pure;
    main0 OpUnpackInterface "UNPACK_INTERFACE" |> cost costModerate |> handler "handleUnpackInterface" |> shim "HandleUnpackInterface" "UnpackInterface" |> pure;
    main0 OpTestNilJumpTrue "TEST_NIL_JUMP_TRUE" |> cost costModerate |> handler "handleTestNilJumpTrue" |> asm "handlerTestNilJumpTrue" |> shim "HandleTestNilJumpTrue" "TestNilJumpTrue" |> flags (SpecJump .| SpecShimSuppressed) |> pure;
    main0 OpTestNilJumpFalse "TEST_NIL_JUMP_FALSE" |> cost costModerate |> handler "handleTestNilJumpFalse" |> asm "handlerTestNilJumpFalse" |> shim "HandleTestNilJumpFalse" "TestNilJumpFalse" |> flags (SpecJump .| SpecShimSuppressed) |> pure;
    main0 OpMakeClosure "MAKE_CLOSURE" |> cost costModerate |> handler "handleMakeClosure" |> shim "HandleMakeClosure" "MakeClosure" |> mutates;
    main0 OpGetUpvalue "GET_UPVALUE" |> cost costModerate |> handler "handleGetUpvalue" |> asm "handlerGetUpvalueScalar" |> shim "HandleGetUpvalue" "GetUpvalue" |> flags SpecShimSuppressed |> pure;
    main0 OpSetUpvalue "SET_UPVALUE" |> cost costModerate |> handler "handleSetUpvalue" |> shim "HandleSetUpvalue" "SetUpvalue" |> mutates;
    main0 OpDefer "DEFER" |> cost costModerate |> handler "handleDefer" |> pure;
    main0 OpGo "GO" |> cost costExpensive |> handler "handleGo" |> pure;
    main0 OpMakeSlice "MAKE_SLICE" |> cost costVeryHeavy |> handler "handleMakeSlice" |> shim "HandleMakeSlice" "MakeSlice" |> pure;
    main0 OpIndex "INDEX" |> cost costModerate |> handler "handleIndex" |> shim "HandleIndex" "Index" |> pure;
    main0 OpIndexSet "INDEX_SET" |> cost costModerate |> handler "handleIndexSet" |> shim "HandleIndexSet" "IndexSet" |> mutates;
    main0 OpMapIndex "MAP_INDEX" |> cost costModerate |> handler "handleMapIndex" |> exit "handlerMapIndexExit" "exitMapIndex" |> pure;
    main0 OpMapSet "MAP_SET" |> cost costModerate |> handler "handleMapSet" |> shim "HandleMapSet" "MapSet" |> mutates;
    main0 OpMapIndexOk "MAP_INDEX_OK" |> cost costModerate |> handler "handleMapIndexOk" |> shim "HandleMapIndexOk" "MapIndexOk" |> pure;
    main0 OpAppend "APPEND" |> cost costExpensive |> handler "handleAppend" |> exit "handlerAppendExit" "exitAppend" |> mutates;
    main0 OpAppendSpread "APPEND_SPREAD" |> cost costExpensive |> handler "handleAppendSpread" |> shim "HandleAppendSpread" "AppendSpread" |> mutates;
    main0 OpAppendByteFast "APPEND_BYTE_FAST" |> cost costExpensive |> handler "handleAppendByteFast" |> exit "handlerAppendByteFastExit" "exitAppendByteFast" |> mutates;
    main0 OpCopy "COPY" |> cost costModerate |> handler "handleCopy" |> shim "HandleCopy" "Copy" |> mutates;
    main0 OpSliceGetInt "SLICE_GET_INT" |> cost costModerate |> handler "handleSliceGetInt" |> shim "HandleSliceGetInt" "SliceGetInt" |> pure;
    main0 OpSliceSetInt "SLICE_SET_INT" |> cost costModerate |> handler "handleSliceSetInt" |> shim "HandleSliceSetInt" "SliceSetInt" |> mutates;
    main0 OpSliceGetFloat "SLICE_GET_FLOAT" |> cost costModerate |> handler "handleSliceGetFloat" |> shim "HandleSliceGetFloat" "SliceGetFloat" |> pure;
    main0 OpSliceSetFloat "SLICE_SET_FLOAT" |> cost costModerate |> handler "handleSliceSetFloat" |> shim "HandleSliceSetFloat" "SliceSetFloat" |> mutates;
    main0 OpSliceGetString "SLICE_GET_STRING" |> cost costModerate |> handler "handleSliceGetString" |> shim "HandleSliceGetString" "SliceGetString" |> pure;
    main0 OpSliceSetString "SLICE_SET_STRING" |> cost costModerate |> handler "handleSliceSetString" |> shim "HandleSliceSetString" "SliceSetString" |> mutates;
    main0 OpSliceGetBool "SLICE_GET_BOOL" |> cost costModerate |> handler "handleSliceGetBool" |> shim "HandleSliceGetBool" "SliceGetBool" |> pure;
    main0 OpSliceSetBool "SLICE_SET_BOOL" |> cost costModerate |> handler "handleSliceSetBool" |> shim "HandleSliceSetBool" "SliceSetBool" |> mutates;
    main0 OpSliceGetUint "SLICE_GET_UINT" |> cost costModerate |> handler "handleSliceGetUint" |> shim "HandleSliceGetUint" "SliceGetUint" |> pure;
    main0 OpSliceSetUint "SLICE_SET_UINT" |> cost costModerate |> handler "handleSliceSetUint" |> shim "HandleSliceSetUint" "SliceSetUint" |> mutates;
    main0 OpLoadCompositeZeroReuse "LOAD_COMPOSITE_ZERO_REUSE" |> cost costFree |> handler "handleLoadCompositeZeroReuse" |> mutates;
    main0 OpRangeNextSliceByte "RANGE_NEXT_SLICE_BYTE" |> handler "handleRangeNextSliceByte" |> asm "handlerRangeNextSliceByte" |> flags SpecJump |> pure;
    main0 OpMapGetIntInt "MAP_GET_INT_INT" |> cost costModerate |> handler "handleMapGetIntInt" |> shim "HandleMapGetIntInt" "MapGetIntInt" |> pure;
    main0 OpMapSetIntInt "MAP_SET_INT_INT" |> cost costModerate |> handler "handleMapSetIntInt" |> shim "HandleMapSetIntInt" "MapSetIntInt" |> mutates;
    main0 OpMapGetStringInt "MAP_GET_STRING_INT" |> cost costModerate |> handler "handleMapGetStringInt" |> shim "HandleMapGetStringInt" "MapGetStringInt" |> pure;
    main0 OpMapSetStringInt "MAP_SET_STRING_INT" |> cost costModerate |> handler "handleMapSetStringInt" |> shim "HandleMapSetStringInt" "MapSetStringInt" |> mutates;
    main0 OpMapGetStringString "MAP_GET_STRING_STRING" |> cost costModerate |> handler "handleMapGetStringString" |> shim "HandleMapGetStringString" "MapGetStringString" |> pure;
    main0 OpMapSetStringString "MAP_SET_STRING_STRING" |> cost costModerate |> handler "handleMapSetStringString" |> shim "HandleMapSetStringString" "MapSetStringString" |> mutates;
    main0 OpMapGetIntString "MAP_GET_INT_STRING" |> cost costModerate |> handler "handleMapGetIntString" |> shim "HandleMapGetIntString" "MapGetIntString" |> pure;
    main0 OpMapSetIntString "MAP_SET_INT_STRING" |> cost costModerate |> handler "handleMapSetIntString" |> shim "HandleMapSetIntString" "MapSetIntString" |> mutates;
    main0 OpMapIndexOkIntInt "MAP_INDEX_OK_INT_INT" |> cost costModerate |> handler "handleMapIndexOkIntInt" |> shim "HandleMapIndexOkIntInt" "MapIndexOkIntInt" |> pure;
    main0 OpMapIndexOkStringInt "MAP_INDEX_OK_STRING_INT" |> cost costModerate |> handler "handleMapIndexOkStringInt" |> shim "HandleMapIndexOkStringInt" "MapIndexOkStringInt" |> pure;
    main0 OpMapIndexOkStringString "MAP_INDEX_OK_STRING_STRING" |> cost costModerate |> handler "handleMapIndexOkStringString" |> shim "HandleMapIndexOkStringString" "MapIndexOkStringString" |> pure;
    main0 OpMapIndexOkIntString "MAP_INDEX_OK_INT_STRING" |> cost costModerate |> handler "handleMapIndexOkIntString" |> shim "HandleMapIndexOkIntString" "MapIndexOkIntString" |> pure;
    main0 OpMapGetIntGeneral "MAP_GET_INT_GENERAL" |> cost costModerate |> handler "handleMapGetIntGeneral" |> shim "HandleMapGetIntGeneral" "MapGetIntGeneral" |> pure;
    main0 OpMapIndexOkIntGeneral "MAP_INDEX_OK_INT_GENERAL" |> cost costModerate |> handler "handleMapIndexOkIntGeneral" |> shim "HandleMapIndexOkIntGeneral" "MapIndexOkIntGeneral" |> pure;
    main0 OpMapGetStringGeneral "MAP_GET_STRING_GENERAL" |> handler "handleMapGetStringGeneral" |> shim "HandleMapGetStringGeneral" "MapGetStringGeneral" |> pure;
    main0 OpMapIndexOkStringGeneral "MAP_INDEX_OK_STRING_GENERAL" |> handler "handleMapIndexOkStringGeneral" |> shim "HandleMapIndexOkStringGeneral" "MapIndexOkStringGeneral" |> pure;
    main0 OpMapSetStringGeneral "MAP_SET_STRING_GENERAL" |> handler "handleMapSetStringGeneral" |> shim "HandleMapSetStringGeneral" "MapSetStringGeneral" |> mutates;
    main0 OpMapAddIntInt "MAP_ADD_INT_INT" |> handler "handleMapAddIntInt" |> shim "HandleMapAddIntInt" "MapAddIntInt" |> mutates;
    main0 OpMapAddStringInt "MAP_ADD_STRING_INT" |> handler "handleMapAddStringInt" |> shim "HandleMapAddStringInt" "MapAddStringInt" |> mutates;
    main0 OpGetField "GET_FIELD" |> cost costMedium |> handler "handleGetField" |> exit "handlerGetFieldExit" "exitGetField" |> pure;
    main0 OpSetField "SET_FIELD" |> cost costMedium |> handler "handleSetField" |> exit "handlerSetFieldExit" "exitSetField" |> mutates;
    main0 OpSetFieldInt "SET_FIELD_INT" |> cost costMedium |> handler "handleSetFieldInt" |> mutates;
    main0 OpGetFieldInt "GET_FIELD_INT" |> cost costMedium |> handler "handleGetFieldInt" |> pure;
    main0 OpBindMethod "BIND_METHOD" |> cost costModerate |> handler "handleBindMethod" |> shim "HandleBindMethod" "BindMethod" |> pure;
    main0 OpChannelSend "CHAN_SEND" |> cost costModerate |> handler "HandleChannelSend" |> mutates;
    main0 OpAddr "ADDR" |> cost costMedium |> handler "handleAddr" |> shim "HandleAddr" "Addr" |> mutates;
    main0 OpDeref "DEREF" |> cost costMedium |> handler "handleDeref" |> shim "HandleDeref" "Deref" |> pure;
    main0 OpAllocIndirect "ALLOC_INDIRECT" |> cost costModerate |> handler "handleAllocIndirect" |> shim "HandleAllocIndirect" "AllocIndirect" |> pure;
    main0 OpTypeAssert "TYPE_ASSERT" |> cost costModerate |> handler "handleTypeAssert" |> shim "HandleTypeAssert" "TypeAssert" |> pure;
    main0 OpConvert "CONVERT" |> cost costMedium |> handler "handleConvert" |> shim "HandleConvert" "Convert" |> pure;
    main0 OpGetGlobal "GET_GLOBAL" |> cost costModerate |> handler "handleGetGlobal" |> shim "HandleGetGlobal" "GetGlobal" |> pure;
    main0 OpSetGlobal "SET_GLOBAL" |> cost costModerate |> handler "handleSetGlobal" |> shim "HandleSetGlobal" "SetGlobal" |> mutates;
    main0 OpUnsafeString "UNSAFE_STRING" |> cost costModerate |> handler "handleUnsafeString" |> shim "HandleUnsafeString" "UnsafeString" |> mutates;
    main0 OpUnsafeSlice "UNSAFE_SLICE" |> cost costModerate |> handler "handleUnsafeSlice" |> shim "HandleUnsafeSlice" "UnsafeSlice" |> mutates;
    main0 OpUnsafeAdd "UNSAFE_ADD" |> cost costModerate |> handler "handleUnsafeAdd" |> shim "HandleUnsafeAdd" "UnsafeAdd" |> pure;
    main0 OpStrContainsRune "STR_CONTAINS_RUNE" |> cost costModerate |> handler "handleStrContainsRune" |> shim "HandleStrContainsRune" "StrContainsRune" |> pure;
    main0 OpStrContains "STR_CONTAINS" |> cost costModerate |> handler "handleStrContains" |> shim "HandleStrContains" "StrContains" |> pure;
    main0 OpStrHasPrefix "STR_HAS_PREFIX" |> cost costModerate |> handler "handleStrHasPrefix" |> shim "HandleStrHasPrefix" "StrHasPrefix" |> pure;
    main0 OpStrHasSuffix "STR_HAS_SUFFIX" |> cost costModerate |> handler "handleStrHasSuffix" |> shim "HandleStrHasSuffix" "StrHasSuffix" |> pure;
    main0 OpStrEqualFold "STR_EQUAL_FOLD" |> cost costModerate |> handler "handleStrEqualFold" |> shim "HandleStrEqualFold" "StrEqualFold" |> pure;
    main0 OpStrIndex "STR_INDEX" |> cost costModerate |> handler "handleStrIndex" |> shim "HandleStrIndex" "StrIndex" |> pure;
    main0 OpStrCount "STR_COUNT" |> cost costModerate |> handler "handleStrCount" |> shim "HandleStrCount" "StrCount" |> pure;
    main0 OpStrTrimPrefix "STR_TRIM_PREFIX" |> cost costModerate |> handler "handleStrTrimPrefix" |> shim "HandleStrTrimPrefix" "StrTrimPrefix" |> pure;
    main0 OpStrTrimSuffix "STR_TRIM_SUFFIX" |> cost costModerate |> handler "handleStrTrimSuffix" |> shim "HandleStrTrimSuffix" "StrTrimSuffix" |> pure;
    main0 OpStrTrim "STR_TRIM" |> cost costModerate |> handler "handleStrTrim" |> shim "HandleStrTrim" "StrTrim" |> pure;
    main0 OpStrIndexRune "STR_INDEX_RUNE" |> cost costModerate |> handler "handleStrIndexRune" |> shim "HandleStrIndexRune" "StrIndexRune" |> pure;
    main0 OpStrRepeat "STR_REPEAT" |> cost costModerate |> handler "handleStrRepeat" |> shim "HandleStrRepeat" "StrRepeat" |> pure;
    main0 OpStrLastIndex "STR_LAST_INDEX" |> cost costModerate |> handler "handleStrLastIndex" |> shim "HandleStrLastIndex" "StrLastIndex" |> pure;
    main0 OpStrJoin "STR_JOIN" |> cost costModerate |> handler "handleStrJoin" |> shim "HandleStrJoin" "StrJoin" |> pure;
    main0 OpStrSplit "STR_SPLIT" |> cost costModerate |> handler "handleStrSplit" |> shim "HandleStrSplit" "StrSplit" |> pure;
    main0 OpStrReplaceAll "STR_REPLACE_ALL" |> cost costModerate |> handler "handleStrReplaceAll" |> shim "HandleStrReplaceAll" "StrReplaceAll" |> pure;
    main0 OpMathPow "MATH_POW" |> cost costMedium |> handler "handleMathPow" |> shim "HandleMathPow" "MathPow" |> pure;
    main0 OpSliceGetIntDirect "SLICE_GET_INT_DIRECT" |> handler "handleSliceGetIntDirect" |> asm "handlerSliceGetIntDirect" |> pure;
    main0 OpSliceSetIntDirect "SLICE_SET_INT_DIRECT" |> handler "handleSliceSetIntDirect" |> asm "handlerSliceSetIntDirect" |> mutates;
    main0 OpRangeNextSliceInt "RANGE_NEXT_SLICE_INT" |> handler "handleRangeNextSliceInt" |> flags SpecJump |> pure;
    main0 OpGetStructFieldIntT0 "GET_STRUCT_FIELD_INT_T0" |> handler "handleGetStructFieldIntT0" |> asm "handlerGetStructFieldIntT0" |> shim "HandleGetStructFieldIntT0" "GetStructFieldIntT0" |> flags (SpecShimNarrow .| SpecShimSuppressed) |> pure;
    main0 OpSetStructFieldIntT0 "SET_STRUCT_FIELD_INT_T0" |> handler "handleSetStructFieldIntT0" |> asm "handlerSetStructFieldIntT0" |> shim "HandleSetStructFieldIntT0" "SetStructFieldIntT0" |> flags (SpecShimNarrow .| SpecShimSuppressed) |> mutates;
    main0 OpGetStructFieldUint "GET_STRUCT_FIELD_UINT_T0" |> handler "handleGetStructFieldUintT0" |> asm "handlerGetStructFieldUintT0" |> shim "HandleGetStructFieldUintT0" "GetStructFieldUintT0" |> flags (SpecShimNarrow .| SpecShimSuppressed) |> pure;
    main0 OpSetStructFieldUint "SET_STRUCT_FIELD_UINT_T0" |> handler "handleSetStructFieldUintT0" |> asm "handlerSetStructFieldUintT0" |> shim "HandleSetStructFieldUintT0" "SetStructFieldUintT0" |> flags (SpecShimNarrow .| SpecShimSuppressed) |> mutates;
    main0 OpGetStructFieldFloat "GET_STRUCT_FIELD_FLOAT_T0" |> handler "handleGetStructFieldFloatT0" |> asm "handlerGetStructFieldFloatT0" |> shim "HandleGetStructFieldFloatT0" "GetStructFieldFloatT0" |> flags (SpecShimNarrow .| SpecShimSuppressed) |> pure;
    main0 OpSetStructFieldFloat "SET_STRUCT_FIELD_FLOAT_T0" |> handler "handleSetStructFieldFloatT0" |> asm "handlerSetStructFieldFloatT0" |> shim "HandleSetStructFieldFloatT0" "SetStructFieldFloatT0" |> flags (SpecShimNarrow .| SpecShimSuppressed) |> mutates;
    main0 OpGetStructFieldBool "GET_STRUCT_FIELD_BOOL_T0" |> handler "handleGetStructFieldBoolT0" |> asm "handlerGetStructFieldBoolT0" |> shim "HandleGetStructFieldBoolT0" "GetStructFieldBoolT0" |> flags (SpecShimNarrow .| SpecShimSuppressed) |> pure;
    main0 OpSetStructFieldBool "SET_STRUCT_FIELD_BOOL_T0" |> handler "handleSetStructFieldBoolT0" |> asm "handlerSetStructFieldBoolT0" |> shim "HandleSetStructFieldBoolT0" "SetStructFieldBoolT0" |> flags (SpecShimNarrow .| SpecShimSuppressed) |> mutates;
    main0 OpGetStructFieldGeneral "GET_STRUCT_FIELD_GENERAL_T0" |> handler "handleGetStructFieldGeneralT0" |> asm "handlerGetStructFieldGeneralT0" |> shim "HandleGetStructFieldGeneralT0" "GetStructFieldGeneralT0" |> flags (SpecShimNarrow .| SpecShimSuppressed) |> pure;
    main0 OpSetStructFieldGeneral "SET_STRUCT_FIELD_GENERAL_T0" |> handler "handleSetStructFieldGeneralT0" |> asm "handlerSetStructFieldGeneralT0" |> shim "HandleSetStructFieldGeneralT0" "SetStructFieldGeneralT0" |> flags (SpecShimNarrow .| SpecShimSuppressed) |> mutates;
    main0 OpCopyStructFieldGeneralT0 "COPY_STRUCT_FIELD_GENERAL_T0" |> handler "handleCopyStructFieldGeneralT0" |> shim "HandleCopyStructFieldGeneralT0" "CopyStructFieldGeneralT0" |> flags SpecShimNarrow |> mutates;
    main0 OpSliceIndexStructFieldInt "SLICE_INDEX_STRUCT_FIELD_INT" |> handler "handleSliceIndexStructFieldInt" |> asm "handlerSliceIndexStructFieldInt" |> shim "HandleSliceIndexStructFieldInt" "SliceIndexStructFieldInt" |> flags SpecShimSuppressed |> pure;
    main0 OpSliceIndexStructFieldUint "SLICE_INDEX_STRUCT_FIELD_UINT" |> handler "handleSliceIndexStructFieldUint" |> pure;
    main0 OpSliceIndexStructFieldFloat "SLICE_INDEX_STRUCT_FIELD_FLOAT" |> handler "handleSliceIndexStructFieldFloat" |> asm "handlerSliceIndexStructFieldFloat" |> shim "HandleSliceIndexStructFieldFloat" "SliceIndexStructFieldFloat" |> flags SpecShimSuppressed |> pure;
    main0 OpSliceIndexStructFieldBool "SLICE_INDEX_STRUCT_FIELD_BOOL" |> handler "handleSliceIndexStructFieldBool" |> pure;
    main0 OpSliceIndexStructFieldString "SLICE_INDEX_STRUCT_FIELD_STRING" |> handler "handleSliceIndexStructFieldString" |> pure;
    main0 OpMapIndexOkJumpIfFalseIntInt "MAP_INDEX_OK_JUMP_IF_FALSE_INT_INT" |> cost costModerate |> handler "handleMapIndexOkJumpIfFalseIntInt" |> shim "HandleMapIndexOkJumpIfFalseIntInt" "MapIndexOkJumpIfFalseIntInt" |> flags SpecJump |> pure;
    main0 OpMapIndexOkJumpIfFalseStringInt "MAP_INDEX_OK_JUMP_IF_FALSE_STRING_INT" |> cost costModerate |> handler "handleMapIndexOkJumpIfFalseStringInt" |> shim "HandleMapIndexOkJumpIfFalseStringInt" "MapIndexOkJumpIfFalseStringInt" |> flags SpecJump |> pure;
    main0 OpMapIndexOkJumpIfFalseStringString "MAP_INDEX_OK_JUMP_IF_FALSE_STRING_STRING" |> cost costModerate |> handler "handleMapIndexOkJumpIfFalseStringString" |> shim "HandleMapIndexOkJumpIfFalseStringString" "MapIndexOkJumpIfFalseStringString" |> flags SpecJump |> pure;
    main0 OpMapIndexOkJumpIfFalseIntString "MAP_INDEX_OK_JUMP_IF_FALSE_INT_STRING" |> cost costModerate |> handler "handleMapIndexOkJumpIfFalseIntString" |> shim "HandleMapIndexOkJumpIfFalseIntString" "MapIndexOkJumpIfFalseIntString" |> flags SpecJump |> pure;
    main0 OpMapIndexOkJumpIfFalseIntGeneral "MAP_INDEX_OK_JUMP_IF_FALSE_INT_GENERAL" |> cost costModerate |> handler "handleMapIndexOkJumpIfFalseIntGeneral" |> shim "HandleMapIndexOkJumpIfFalseIntGeneral" "MapIndexOkJumpIfFalseIntGeneral" |> flags SpecJump |> pure;
    main0 OpMapIndexOkJumpIfFalseStringGeneral "MAP_INDEX_OK_JUMP_IF_FALSE_STRING_GENERAL" |> cost costModerate |> handler "handleMapIndexOkJumpIfFalseStringGeneral" |> shim "HandleMapIndexOkJumpIfFalseStringGeneral" "MapIndexOkJumpIfFalseStringGeneral" |> flags SpecJump |> pure;
    main0 OpSwapStructFieldsGeneralT0 "SWAP_STRUCT_FIELDS_GENERAL_T0" |> handler "handleSwapStructFieldsGeneralT0" |> shim "HandleSwapStructFieldsGeneralT0" "SwapStructFieldsGeneralT0" |> flags SpecShimNarrow |> mutates;
    main0 OpGetStructFieldRawPointerT0 "GET_STRUCT_FIELD_RAW_POINTER_T0" |> handler "handleGetStructFieldRawPointerT0" |> asm "handlerGetStructFieldRawPointerT0" |> shim "HandleGetStructFieldRawPointerT0" "GetStructFieldRawPointerT0" |> flags (SpecShimNarrow .| SpecShimSuppressed) |> pure;
    main0 OpSliceGetIntDirectUnchecked "SLICE_GET_INT_DIRECT_UNCHECKED" |> handler "handleSliceGetIntDirectUnchecked" |> asm "handlerSliceGetIntDirectUnchecked" |> pure;
    main0 OpSliceSetIntDirectUnchecked "SLICE_SET_INT_DIRECT_UNCHECKED" |> handler "handleSliceSetIntDirectUnchecked" |> asm "handlerSliceSetIntDirectUnchecked" |> mutates;
    main0 OpSliceGetIntUnchecked "SLICE_GET_INT_UNCHECKED" |> handler "handleSliceGetIntUnchecked" |> pure;
    main0 OpSliceSetIntUnchecked "SLICE_SET_INT_UNCHECKED" |> handler "handleSliceSetIntUnchecked" |> mutates;
    main0 OpPackTyped "PACK_TYPED" |> cost costModerate |> handler "handlePackTyped" |> pure;
    main0 OpAppendByteFastInPlace "APPEND_BYTE_FAST_INPLACE" |> cost costExpensive |> handler "handleAppendByteFastInPlace" |> mutates;
    main0 OpAppendInPlace "APPEND_INPLACE" |> cost costExpensive |> handler "handleAppendInPlace" |> mutates;
    main0 OpAppendSpreadInPlace "APPEND_SPREAD_INPLACE" |> cost costExpensive |> handler "handleAppendSpreadInPlace" |> mutates;
    main0 OpMapSetIntGeneral "MAP_SET_INT_GENERAL" |> handler "handleMapSetIntGeneral" |> shim "HandleMapSetIntGeneral" "MapSetIntGeneral" |> mutates;
    main0 OpGetStructFieldIndexGeneral "GET_STRUCT_FIELD_INDEX_GENERAL" |> handler "handleGetStructFieldIndexGeneral" |> shim "HandleGetStructFieldIndexGeneral" "GetStructFieldIndexGeneral" |> pure;
    main0 OpSetStructFieldIndexGeneral "SET_STRUCT_FIELD_INDEX_GENERAL" |> handler "handleSetStructFieldIndexGeneral" |> shim "HandleSetStructFieldIndexGeneral" "SetStructFieldIndexGeneral" |> mutates;
    main0 OpDerefSliceGetInt "DEREF_SLICE_GET_INT" |> handler "handleDerefSliceGetInt" |> asm "handlerDerefSliceGetInt" |> shim "HandleDerefSliceGetInt" "DerefSliceGetInt" |> flags SpecShimSuppressed |> pure;
    main0 OpDerefSliceSetInt "DEREF_SLICE_SET_INT" |> handler "handleDerefSliceSetInt" |> asm "handlerDerefSliceSetInt" |> shim "HandleDerefSliceSetInt" "DerefSliceSetInt" |> flags SpecShimSuppressed |> mutates;
    main0 OpGetStructFieldSliceLen "GET_STRUCT_FIELD_SLICE_LEN" |> handler "handleGetStructFieldSliceLen" |> asm "handlerGetStructFieldSliceLen" |> shim "HandleGetStructFieldSliceLen" "GetStructFieldSliceLen" |> flags (SpecShimNarrow .| SpecShimSuppressed) |> pure;
    main0 OpGetStructFieldSliceIndexScalar "GET_STRUCT_FIELD_SLICE_INDEX_SCALAR" |> handler "handleGetStructFieldSliceIndexScalar" |> asm "handlerGetStructFieldSliceIndexScalar" |> shim "HandleGetStructFieldSliceIndexScalar" "GetStructFieldSliceIndexScalar" |> flags SpecShimSuppressed |> pure;
    main0 OpAppendStructFast "APPEND_STRUCT_FAST" |> cost costExpensive |> handler "handleAppendStructFast" |> exit "handlerAppendStructFastExit" "exitAppendStructFast" |> mutates;
    main0 OpAppendIntFast "APPEND_INT_FAST" |> cost costExpensive |> handler "handleAppendInt" |> exit "handlerAppendIntFastExit" "exitAppendIntFast" |> mutates;
    main0 OpAppendFloatFast "APPEND_FLOAT_FAST" |> cost costExpensive |> handler "handleAppendFloat" |> exit "handlerAppendFloatFastExit" "exitAppendFloatFast" |> mutates;
    main0 OpAppendStringFast "APPEND_STRING_FAST" |> cost costExpensive |> handler "handleAppendString" |> exit "handlerAppendStringFastExit" "exitAppendStringFast" |> mutates;
    main0 OpTypeSwitchCase "TYPE_SWITCH_CASE" |> flags SpecJump |> pure;
    main0 OpAddInt32 "ADD_INT32" |> handler "handleAddInt32" |> asm "handlerAddInt32" |> pure;
    main0 OpSubInt32 "SUB_INT32" |> handler "handleSubInt32" |> asm "handlerSubInt32" |> pure;
    main0 OpMulInt32 "MUL_INT32" |> handler "handleMulInt32" |> asm "handlerMulInt32" |> pure;
    main0 OpAddInt32Const "ADD_INT32_CONST" |> handler "handleAddInt32Const" |> asm "handlerAddInt32Const" |> pure;
    main0 OpSubInt32Const "SUB_INT32_CONST" |> handler "handleSubInt32Const" |> asm "handlerSubInt32Const" |> pure;
    main0 OpAddUint32 "ADD_UINT32" |> handler "handleAddUint32" |> asm "handlerAddUint32" |> pure ].

Definition tierSub1Specs : list OpSpec :=
  [ sub1 SubOpDrillTier2 "DRILL_TIER2" |> flags specMeta;
    sub1 SubOpMathSin "MATH_SIN" |> cost costMedium |> handler "handleFlatSubOpMathSin" |> asmIn "tier1JumpTable" "handlerSubOpMathSin" |> pure;
    sub1 SubOpMathCos "MATH_COS" |> cost costMedium |> handler "handleFlatSubOpMathCos" |> asmIn "tier1JumpTable" "handlerSubOpMathCos" |> pure;
    sub1 SubOpMathExp "MATH_EXP" |> cost costMedium |> handler "handleFlatSubOpMathExp" |> asmIn "tier1JumpTable" "handlerSubOpMathExp" |> pure;
    sub1 SubOpMathTan "MATH_TAN" |> cost costMedium |> handler "handleFlatSubOpMathTan" |> asmIn "tier1JumpTable" "handlerSubOpMathTan" |> pure;
    sub1 SubOpMathMod "MATH_MOD" |> cost costMedium |> handler "handleFlatSubOpMathMod" |> asmIn "tier1JumpTable" "handlerSubOpMathMod" |> pure;
    sub1 SubOpStrconvFormatBool "STRCONV_FORMAT_BOOL" |> cost costMedium |> handler "handleFlatSubOpStrconvFormatBool" |> asmIn "tier1JumpTable" "handlerSubOpStrconvFormatBool" |> pure;
    sub1 SubOpStrconvFormatInt "STRCONV_FORMAT_INT" |> cost costMedium |> handler "handleFlatSubOpStrconvFormatInt" |> asmIn "tier1JumpTable" "handlerSubOpStrconvFormatInt" |> pure;
    sub1 SubOpStrconvItoa "STRCONV_ITOA" |> cost costMedium |> handler "handleFlatSubOpStrconvItoa" |> asmIn "tier1JumpTable" "handlerSubOpStrconvItoa" |> pure;
    sub1 SubOpRealComplex "REAL_COMPLEX" |> cost costCheap |> handler "handleFlatSubOpRealComplex" |> asmIn "tier1JumpTable" "handlerSubOpRealComplex" |> pure;
    sub1 SubOpImagComplex "IMAG_COMPLEX" |> cost costCheap |> handler "handleFlatSubOpImagComplex" |> asmIn "tier1JumpTable" "handlerSubOpImagComplex" |> pure;
    sub1 SubOpBytesToString "BYTES_TO_STRING" |> cost costMedium |> handler "handleFlatSubOpBytesToString" |> asmIn "tier1JumpTable" "handlerSubOpBytesToString" |> pure;
    sub1 SubOpMakeMethodExpr "MAKE_METHOD_EXPR" |> cost costModerate |> handler "runMakeMethodExpr" |> pure;
    sub1 SubOpCap "CAP" |> cost costCheap |> handler "handleFlatSubOpCap" |> asmIn "tier1JumpTable" "handlerSubOpCap" |> pure;
    sub1 SubOpNegComplex "NEG_COMPLEX" |> cost costCheap |> handler "handleFlatSubOpNegComplex" |> asmIn "tier1JumpTable" "handlerSubOpNegComplex" |> pure;
    sub1 SubOpMoveComplex "MOVE_COMPLEX" |> cost costFree |> handler "handleFlatSubOpMoveComplex" |> asmIn "tier1JumpTable" "handlerSubOpMoveComplex" |> pure;
    sub1 SubOpMakeSliceInt "MAKE_SLICE_INT" |> cost costVeryHeavy |> handler "handleSubOpMakeSliceInt" |> shim "HandleSubOpMakeSliceInt" "SubOpMakeSliceInt" |> pure;
    sub1 SubOpLenSliceIntDirect "LEN_SLICE_INT_DIRECT" |> cost costCheap |> handler "handleSubOpLenSliceIntDirect" |> asmIn "tier1JumpTable" "handlerSubOpLenSliceIntDirect" |> pure;
    sub1 SubOpMakeSliceFloat "MAKE_SLICE_FLOAT" |> cost costVeryHeavy |> handler "handleSubOpMakeSliceFloat" |> shim "HandleSubOpMakeSliceFloat" "SubOpMakeSliceFloat" |> pure;
    sub1 SubOpSliceGetFloatDirect "SLICE_GET_FLOAT_DIRECT" |> cost costModerate |> handler "handleSubOpSliceGetFloatDirect" |> asmIn "tier1JumpTable" "handlerSubOpSliceGetFloatDirect" |> pure;
    sub1 SubOpSliceSetFloatDirect "SLICE_SET_FLOAT_DIRECT" |> cost costModerate |> handler "handleSubOpSliceSetFloatDirect" |> asmIn "tier1JumpTable" "handlerSubOpSliceSetFloatDirect" |> mutates;
    sub1 SubOpLenSliceFloatDirect "LEN_SLICE_FLOAT_DIRECT" |> cost costCheap |> handler "handleSubOpLenSliceFloatDirect" |> asmIn "tier1JumpTable" "handlerSubOpLenSliceFloatDirect" |> pure;
    sub1 SubOpMakeSliceString "MAKE_SLICE_STRING" |> cost costVeryHeavy |> handler "handleSubOpMakeSliceString" |> shim "HandleSubOpMakeSliceString" "SubOpMakeSliceString" |> pure;
    sub1 SubOpSliceGetStringDirect "SLICE_GET_STRING_DIRECT" |> cost costModerate |> handler "handleSubOpSliceGetStringDirect" |> asmIn "tier1JumpTable" "handlerSubOpSliceGetStringDirect" |> pure;
    sub1 SubOpSliceSetStringDirect "SLICE_SET_STRING_DIRECT" |> cost costModerate |> handler "handleSubOpSliceSetStringDirect" |> exit "handlerSubOpSliceSetStringDirectExit" "exitSliceSetStringDirect" |> mutates;
    sub1 SubOpLenSliceStringDirect "LEN_SLICE_STRING_DIRECT" |> cost costCheap |> handler "handleSubOpLenSliceStringDirect" |> asmIn "tier1JumpTable" "handlerSubOpLenSliceStringDirect" |> pure;
    sub1 SubOpMakeSliceBool "MAKE_SLICE_BOOL" |> cost costVeryHeavy |> handler "handleSubOpMakeSliceBool" |> shim "HandleSubOpMakeSliceBool" "SubOpMakeSliceBool" |> pure;
    sub1 SubOpSliceGetBoolDirect "SLICE_GET_BOOL_DIRECT" |> cost costModerate |> handler "handleSubOpSliceGetBoolDirect" |> asmIn "tier1JumpTable" "handlerSubOpSliceGetBoolDirect" |> pure;
    sub1 SubOpSliceSetBoolDirect "SLICE_SET_BOOL_DIRECT" |> cost costModerate |> handler "handleSubOpSliceSetBoolDirect" |> asmIn "tier1JumpTable" "handlerSubOpSliceSetBoolDirect" |> mutates;
    sub1 SubOpLenSliceBoolDirect "LEN_SLICE_BOOL_DIRECT" |> cost costCheap |> handler "handleSubOpLenSliceBoolDirect" |> asmIn "tier1JumpTable" "handlerSubOpLenSliceBoolDirect" |> pure;
    sub1 SubOpMakeSliceUint "MAKE_SLICE_UINT" |> cost costVeryHeavy |> handler "handleSubOpMakeSliceUint" |> shim "HandleSubOpMakeSliceUint" "SubOpMakeSliceUint" |> pure;
    sub1 SubOpSliceGetUintDirect "SLICE_GET_UINT_DIRECT" |> cost costModerate |> handler "handleSubOpSliceGetUintDirect" |> asmIn "tier1JumpTable" "handlerSubOpSliceGetUintDirect" |> pure;
    sub1 SubOpSliceSetUintDirect "SLICE_SET_UINT_DIRECT" |> cost costModerate |> handler "handleSubOpSliceSetUintDirect" |> asmIn "tier1JumpTable" "handlerSubOpSliceSetUintDirect" |> mutates;
    sub1 SubOpLenSliceUintDirect "LEN_SLICE_UINT_DIRECT" |> cost costCheap |> handler "handleSubOpLenSliceUintDirect" |> asmIn "tier1JumpTable" "handlerSubOpLenSliceUintDirect" |> pure;
    sub1 SubOpBoxSliceInt "BOX_SLICE_INT" |> cost costFree |> handler "handleSubOpBoxSliceInt" |> asmIn "tier1JumpTable" "handlerSubOpBoxSliceInt" |> pure;
    sub1 SubOpMoveInt "MOVE_INT" |> cost costFree |> handler "handleFlatSubOpMoveInt" |> asmIn "tier1JumpTable" "handlerSubOpMoveInt" |> pure;
    sub1 SubOpMoveFloat "MOVE_FLOAT" |> cost costFree |> handler "handleFlatSubOpMoveFloat" |> asmIn "tier1JumpTable" "handlerSubOpMoveFloat" |> pure;
    sub1 SubOpMoveString "MOVE_STRING" |> cost costFree |> handler "handleFlatSubOpMoveString" |> asmIn "tier1JumpTable" "handlerSubOpMoveString" |> pure;
    sub1 SubOpMoveBool "MOVE_BOOL" |> cost costFree |> handler "handleFlatSubOpMoveBool" |> asmIn "tier1JumpTable" "handlerSubOpMoveBool" |> pure;
    sub1 SubOpMoveUint "MOVE_UINT" |> cost costFree |> handler "handleFlatSubOpMoveUint" |> asmIn "tier1JumpTable" "handlerSubOpMoveUint" |> pure;
    sub1 SubOpMoveIntToGeneral "MOVE_INT_TO_GENERAL" |> cost costFree |> handler "handleFlatSubOpMoveIntToGeneral" |> pure;
    sub1 SubOpMoveGeneralToInt "MOVE_GENERAL_TO_INT" |> cost costFree |> handler "handleFlatSubOpMoveGeneralToInt" |> pure;
    sub1 SubOpMoveFloatToGeneral "MOVE_FLOAT_TO_GENERAL" |> cost costFree |> handler "handleFlatSubOpMoveFloatToGeneral" |> pure;
    sub1 SubOpMoveGeneralToFloat "MOVE_GENERAL_TO_FLOAT" |> cost costFree |> handler "handleFlatSubOpMoveGeneralToFloat" |> pure;
    sub1 SubOpMoveStringToGeneral "MOVE_STRING_TO_GENERAL" |> cost costFree |> handler "handleFlatSubOpMoveStringToGeneral" |> pure;
    sub1 SubOpMoveGeneralToString "MOVE_GENERAL_TO_STRING" |> cost costFree |> handler "handleFlatSubOpMoveGeneralToString" |> pure;
    sub1 SubOpNegInt "NEG_INT" |> cost costCheap |> handler "handleFlatSubOpNegInt" |> asmIn "tier1JumpTable" "handlerSubOpNegInt" |> pure;
    sub1 SubOpNegFloat "NEG_FLOAT" |> cost costCheap |> handler "handleFlatSubOpNegFloat" |> asmIn "tier1JumpTable" "handlerSubOpNegFloat" |> pure;
    sub1 SubOpBitNot "BIT_NOT" |> cost costCheap |> handler "handleFlatSubOpBitNot" |> asmIn "tier1JumpTable" "handlerSubOpBitNot" |> pure;
    sub1 SubOpBitNotUint "BIT_NOT_UINT" |> cost costCheap |> handler "handleFlatSubOpBitNotUint" |> pure;
    sub1 SubOpIntToFloat "INT_TO_FLOAT" |> cost costCheap |> handler "handleFlatSubOpIntToFloat" |> asmIn "tier1JumpTable" "handlerSubOpIntToFloat" |> pure;
    sub1 SubOpFloatToInt "FLOAT_TO_INT" |> cost costCheap |> handler "handleFlatSubOpFloatToInt" |> asmIn "tier1JumpTable" "handlerSubOpFloatToInt" |> pure;
    sub1 SubOpNot "NOT" |> cost costCheap |> handler "handleFlatSubOpNot" |> pure;
    sub1 SubOpBoolToInt "BOOL_TO_INT" |> cost costCheap |> handler "handleFlatSubOpBoolToInt" |> pure;
    sub1 SubOpIntToBool "INT_TO_BOOL" |> cost costCheap |> handler "handleFlatSubOpIntToBool" |> pure;
    sub1 SubOpIntToUint "INT_TO_UINT" |> cost costCheap |> handler "handleFlatSubOpIntToUint" |> pure;
    sub1 SubOpUintToInt "UINT_TO_INT" |> cost costCheap |> handler "handleFlatSubOpUintToInt" |> pure;
    sub1 SubOpUintToFloat "UINT_TO_FLOAT" |> cost costCheap |> handler "handleFlatSubOpUintToFloat" |> asmIn "tier1JumpTable" "handlerSubOpUintToFloat" |> pure;
    sub1 SubOpFloatToUint "FLOAT_TO_UINT" |> cost costCheap |> handler "handleFlatSubOpFloatToUint" |> asmIn "tier1JumpTable" "handlerSubOpFloatToUint" |> pure;
    sub1 SubOpMathSqrt "MATH_SQRT" |> cost costMedium |> handler "handleFlatSubOpMathSqrt" |> asmIn "tier1JumpTable" "handlerSubOpMathSqrt" |> pure;
    sub1 SubOpMathAbs "MATH_ABS" |> cost costMedium |> handler "handleFlatSubOpMathAbs" |> asmIn "tier1JumpTable" "handlerSubOpMathAbs" |> pure;
    sub1 SubOpMathFloor "MATH_FLOOR" |> cost costMedium |> handler "handleFlatSubOpMathFloor" |> asmIn "tier1JumpTable" "handlerSubOpMathFloor" |> pure;
    sub1 SubOpMathCeil "MATH_CEIL" |> cost costMedium |> handler "handleFlatSubOpMathCeil" |> asmIn "tier1JumpTable" "handlerSubOpMathCeil" |> pure;
    sub1 SubOpMathTrunc "MATH_TRUNC" |> cost costMedium |> handler "handleFlatSubOpMathTrunc" |> asmIn "tier1JumpTable" "handlerSubOpMathTrunc" |> pure;
    sub1 SubOpMathRound "MATH_ROUND" |> cost costMedium |> handler "handleFlatSubOpMathRound" |> asmIn "tier1JumpTable" "handlerSubOpMathRound" |> pure;
    sub1 SubOpLenString "LEN_STRING" |> cost costMedium |> handler "handleFlatSubOpLenString" |> asmIn "tier1JumpTable" "handlerSubOpLenString" |> pure;
    sub1 SubOpRuneToString "RUNE_TO_STRING" |> cost costMedium |> handler "handleFlatSubOpRuneToString" |> pure;
    sub1 SubOpStrToUpper "STR_TO_UPPER" |> cost costMedium |> handler "handleFlatSubOpStrToUpper" |> pure;
    sub1 SubOpStrToLower "STR_TO_LOWER" |> cost costMedium |> handler "handleFlatSubOpStrToLower" |> pure;
    sub1 SubOpStrTrimSpace "STR_TRIM_SPACE" |> cost costMedium |> handler "handleFlatSubOpStrTrimSpace" |> pure;
    sub1 SubOpLen "LEN" |> cost costCheap |> handler "handleFlatSubOpLen" |> pure;
    sub1 SubOpStringToBytes "STRING_TO_BYTES" |> cost costMedium |> handler "handleFlatSubOpStringToBytes" |> pure;
    sub1 SubOpUnsafeStringData "UNSAFE_STRING_DATA" |> cost costFree |> handler "handleFlatSubOpUnsafeStringData" |> mutates;
    sub1 SubOpUnsafeSliceData "UNSAFE_SLICE_DATA" |> cost costFree |> handler "handleFlatSubOpUnsafeSliceData" |> mutates;
    sub1 SubOpJump "JUMP" |> cost costCheap |> handler "handleJump" |> asmIn "tier1JumpTable" "handlerJump" |> flags SpecJump |> pure;
    sub1 SubOpLoadIntConstSmall "LOAD_INT_CONST_SMALL" |> cost costFree |> handler "handleFlatSubOpLoadIntConstSmall" |> asmIn "tier1JumpTable" "handlerLoadIntConstSmall" |> pure;
    sub1 SubOpLoadBool "LOAD_BOOL" |> cost costFree |> handler "handleFlatSubOpLoadIntConstSmall" |> asmIn "tier1JumpTable" "handlerLoadBool" |> pure;
    sub1 SubOpIncIntJumpLt "INC_INT_JUMP_LT" |> cost costCheap |> handler "handleFlatSubOpIncIntJumpLt" |> asmIn "tier1JumpTable" "handlerIncIntJumpLt" |> flags SpecJump |> pure;
    sub1 SubOpLenStringLtJumpFalse "LEN_STRING_LT_JUMP_FALSE" |> cost costMedium |> handler "handleFlatSubOpLenStringLtJumpFalse" |> asmIn "tier1JumpTable" "handlerLenStringLtJumpFalse" |> flags SpecJump |> pure;
    sub1 SubOpLoadZero "LOAD_ZERO" |> cost costFree |> handler "handleFlatSubOpLoadZero" |> pure;
    sub1 SubOpMakeChannel "MAKE_CHANNEL" |> cost costVeryHeavy |> handler "handleFlatSubOpMakeChannel" |> pure;
    sub1 SubOpMapDelete "MAP_DELETE" |> cost costModerate |> handler "handleFlatSubOpMapDelete" |> mutates;
    sub1 SubOpChannelReceive "CHANNEL_RECEIVE" |> cost costModerate |> handler "handleFlatSubOpChannelReceive" |> mutates;
    sub1 SubOpGetMethod "GET_METHOD" |> cost costModerate |> handler "handleFlatSubOpGetMethod" |> pure;
    sub1 SubOpSpill "SPILL" |> cost costFree |> handler "handleFlatSubOpSpill" |> pure;
    sub1 SubOpReload "RELOAD" |> cost costFree |> handler "handleFlatSubOpReload" |> pure;
    sub1 SubOpGetStructFieldInt "GET_STRUCT_FIELD_INT" |> cost costMedium |> handler "handleGetStructFieldUnsafeInt" |> pure;
    sub1 SubOpGetStructFieldUint "GET_STRUCT_FIELD_UINT" |> cost costMedium |> handler "handleGetStructFieldUnsafeUint" |> pure;
    sub1 SubOpGetStructFieldFloat "GET_STRUCT_FIELD_FLOAT" |> cost costMedium |> handler "handleGetStructFieldUnsafeFloat" |> pure;
    sub1 SubOpGetStructFieldBool "GET_STRUCT_FIELD_BOOL" |> cost costMedium |> handler "handleGetStructFieldUnsafeBool" |> pure;
    sub1 SubOpGetStructFieldString "GET_STRUCT_FIELD_STRING" |> cost costMedium |> handler "handleGetStructFieldUnsafeString" |> pure;
    sub1 SubOpSetStructFieldInt "SET_STRUCT_FIELD_INT" |> cost costMedium |> handler "handleSetStructFieldUnsafeInt" |> mutates;
    sub1 SubOpSetStructFieldUint "SET_STRUCT_FIELD_UINT" |> cost costMedium |> handler "handleSetStructFieldUnsafeUint" |> mutates;
    sub1 SubOpSetStructFieldFloat "SET_STRUCT_FIELD_FLOAT" |> cost costMedium |> handler "handleSetStructFieldUnsafeFloat" |> mutates;
    sub1 SubOpSetStructFieldBool "SET_STRUCT_FIELD_BOOL" |> cost costMedium |> handler "handleSetStructFieldUnsafeBool" |> mutates;
    sub1 SubOpSetStructFieldString "SET_STRUCT_FIELD_STRING" |> cost costMedium |> handler "handleSetStructFieldUnsafeString" |> mutates;
    sub1 SubOpAddUintConst "ADD_UINT_CONST" |> cost costCheap |> handler "handleFlatSubOpAddUintConst" |> asmIn "tier1JumpTable" "handlerSubOpAddUintConst" |> pure;
    sub1 SubOpSubUintConst "SUB_UINT_CONST" |> cost costCheap |> handler "handleFlatSubOpSubUintConst" |> asmIn "tier1JumpTable" "handlerSubOpSubUintConst" |> pure;
    sub1 SubOpBitAndUintConst "BIT_AND_UINT_CONST" |> cost costCheap |> handler "handleFlatSubOpBitAndUintConst" |> asmIn "tier1JumpTable" "handlerSubOpBitAndUintConst" |> pure;
    sub1 SubOpLoadUintConstSmall "LOAD_UINT_CONST_SMALL" |> cost costFree |> handler "handleFlatSubOpLoadUintConstSmall" |> asmIn "tier1JumpTable" "handlerSubOpLoadUintConstSmall" |> pure;
    sub1 SubOpAppendUint "APPEND_UINT" |> cost costExpensive |> handler "handleSubOpAppendUint" |> mutates;
    sub1 SubOpAppendInt "APPEND_INT" |> cost costExpensive |> handler "handleSubOpAppendInt" |> mutates;
    sub1 SubOpAppendString "APPEND_STRING" |> cost costExpensive |> handler "handleSubOpAppendString" |> mutates;
    sub1 SubOpAppendFloat "APPEND_FLOAT" |> cost costExpensive |> handler "handleSubOpAppendFloat" |> mutates;
    sub1 SubOpAppendBool "APPEND_BOOL" |> cost costExpensive |> handler "handleSubOpAppendBool" |> mutates;
    sub1 SubOpStarAppendByteFast "STAR_APPEND_BYTE_FAST" |> cost costExpensive |> handler "handleSubOpStarAppendByteFast" |> mutates;
    sub1 SubOpStarAppendByteSpread "STAR_APPEND_BYTE_SPREAD" |> cost costExpensive |> handler "handleSubOpStarAppendByteSpread" |> mutates;
    sub1 SubOpIncStructFieldInt "INC_STRUCT_FIELD_INT" |> cost costMedium |> handler "handleSubOpIncStructFieldInt" |> asmIn "tier1JumpTable" "handlerSubOpIncStructFieldInt" |> mutates;
    sub1 SubOpDecStructFieldInt "DEC_STRUCT_FIELD_INT" |> cost costMedium |> handler "handleSubOpDecStructFieldInt" |> asmIn "tier1JumpTable" "handlerSubOpDecStructFieldInt" |> mutates;
    sub1 SubOpIncStructFieldUint "INC_STRUCT_FIELD_UINT" |> cost costMedium |> handler "handleSubOpIncStructFieldUint" |> asmIn "tier1JumpTable" "handlerSubOpIncStructFieldUint" |> mutates;
    sub1 SubOpDecStructFieldUint "DEC_STRUCT_FIELD_UINT" |> cost costMedium |> handler "handleSubOpDecStructFieldUint" |> asmIn "tier1JumpTable" "handlerSubOpDecStructFieldUint" |> mutates;
    sub1 SubOpMakeSliceByte "MAKE_SLICE_BYTE" |> cost costVeryHeavy |> handler "handleSubOpMakeSliceByte" |> shim "HandleSubOpMakeSliceByte" "SubOpMakeSliceByte" |> pure;
    sub1 SubOpSliceGetByteDirect "SLICE_GET_BYTE_DIRECT" |> cost costModerate |> handler "handleSliceGetByteDirect" |> asmIn "tier1JumpTable" "handlerSubOpSliceGetByteDirect" |> pure;
    sub1 SubOpSliceSetByteDirect "SLICE_SET_BYTE_DIRECT" |> cost costModerate |> handler "handleSliceSetByteDirect" |> asmIn "tier1JumpTable" "handlerSubOpSliceSetByteDirect" |> mutates;
    sub1 SubOpLenSliceByteDirect "LEN_SLICE_BYTE_DIRECT" |> cost costCheap |> handler "handleSubOpLenSliceByteDirect" |> asmIn "tier1JumpTable" "handlerSubOpLenSliceByteDirect" |> pure;
    sub1 SubOpSliceByteSlice "SLICE_BYTE_SLICE" |> cost costModerate |> handler "handleSubOpSliceByteSlice" |> asmIn "tier1JumpTable" "handlerSubOpSliceByteSlice" |> pure;
    sub1 SubOpLtIntJumpFalse "LT_INT_JUMP_FALSE" |> cost costCheap |> handler "handleLtIntJumpFalse" |> asmIn "tier1JumpTable" "handlerLtIntJumpFalse" |> flags SpecJump |> pure;
    sub1 SubOpLeIntJumpFalse "LE_INT_JUMP_FALSE" |> cost costCheap |> handler "handleLeIntJumpFalse" |> asmIn "tier1JumpTable" "handlerLeIntJumpFalse" |> flags SpecJump |> pure;
    sub1 SubOpGtIntJumpFalse "GT_INT_JUMP_FALSE" |> cost costCheap |> handler "handleGtIntJumpFalse" |> asmIn "tier1JumpTable" "handlerGtIntJumpFalse" |> flags SpecJump |> pure;
    sub1 SubOpGeIntJumpFalse "GE_INT_JUMP_FALSE" |> cost costCheap |> handler "handleGeIntJumpFalse" |> asmIn "tier1JumpTable" "handlerGeIntJumpFalse" |> flags SpecJump |> pure;
    sub1 SubOpEqIntJumpFalse "EQ_INT_JUMP_FALSE" |> cost costCheap |> handler "handleEqIntJumpFalse" |> asmIn "tier1JumpTable" "handlerEqIntJumpFalse" |> flags SpecJump |> pure;
    sub1 SubOpNeIntJumpFalse "NE_INT_JUMP_FALSE" |> cost costCheap |> handler "handleNeIntJumpFalse" |> asmIn "tier1JumpTable" "handlerNeIntJumpFalse" |> flags SpecJump |> pure;
    sub1 SubOpLeIntConstJumpFalse "LE_INT_CONST_JUMP_FALSE" |> cost costCheap |> handler "handleLeIntConstJumpFalse" |> asmIn "tier1JumpTable" "handlerLeIntConstJumpFalse" |> flags SpecJump |> pure;
    sub1 SubOpLtIntConstJumpFalse "LT_INT_CONST_JUMP_FALSE" |> cost costCheap |> handler "handleLtIntConstJumpFalse" |> asmIn "tier1JumpTable" "handlerLtIntConstJumpFalse" |> flags SpecJump |> pure;
    sub1 SubOpEqIntConstJumpFalse "EQ_INT_CONST_JUMP_FALSE" |> cost costCheap |> handler "handleEqIntConstJumpFalse" |> asmIn "tier1JumpTable" "handlerEqIntConstJumpFalse" |> flags SpecJump |> pure;
    sub1 SubOpEqIntConstJumpTrue "EQ_INT_CONST_JUMP_TRUE" |> cost costCheap |> handler "handleEqIntConstJumpTrue" |> asmIn "tier1JumpTable" "handlerEqIntConstJumpTrue" |> flags SpecJump |> pure;
    sub1 SubOpGeIntConstJumpFalse "GE_INT_CONST_JUMP_FALSE" |> cost costCheap |> handler "handleGeIntConstJumpFalse" |> asmIn "tier1JumpTable" "handlerGeIntConstJumpFalse" |> flags SpecJump |> pure;
    sub1 SubOpGtIntConstJumpFalse "GT_INT_CONST_JUMP_FALSE" |> cost costCheap |> handler "handleGtIntConstJumpFalse" |> asmIn "tier1JumpTable" "handlerGtIntConstJumpFalse" |> flags SpecJump |> pure;
    sub1 SubOpCall "CALL" |> cost costExpensive |> handler "handleCall" |> asmIn "tier1JumpTable" "handlerCallInline" |> pure;
    sub1 SubOpTailCall "TAIL_CALL" |> cost costExpensive |> handler "handleTailCall" |> asmIn "tier1JumpTable" "handlerTailCallInline" |> pure;
    sub1 SubOpCallNative "CALL_NATIVE" |> cost costExpensive |> handler "handleCallNative" |> pure;
    sub1 SubOpCallBuiltin "CALL_BUILTIN" |> cost costExpensive |> handler "handleCallBuiltin" |> pure;
    sub1 SubOpCallMethod "CALL_METHOD" |> cost costExpensive |> handler "handleCallMethod" |> asmIn "tier1JumpTable" "handlerCallMethodInline" |> pure;
    sub1 SubOpCallIIFE "CALL_IIFE" |> cost costExpensive |> handler "handleCallIIFE" |> pure;
    sub1 SubOpCallScalar "CALL_SCALAR" |> handler "handleCallScalar" |> asmIn "tier1JumpTable" "handlerCallInlineScalar" |> pure;
    sub1 SubOpCallMethodInlineable "CALL_METHOD_INLINEABLE" |> cost costExpensive |> handler "handleCallMethodInlineable" |> pure;
    sub1 SubOpEqStringConstJumpFalse "EQ_STRING_CONST_JUMP_FALSE" |> cost costModerate |> handler "handleEqStringConstJumpFalse" |> flags SpecJump |> pure;
    sub1 SubOpSelect "SELECT" |> cost costExpensive |> handler "handleSelect" |> pure;
    sub1 SubOpLoadBoolConst "LOAD_BOOL_CONST" |> cost costFree |> handler "handleLoadBoolConst" |> asmIn "tier1JumpTable" "handlerLoadBoolConst" |> pure;
    sub1 SubOpResetSharedCell "RESET_SHARED_CELL" |> cost costModerate |> handler "handleResetSharedCell" |> shim "HandleResetSharedCell" "ResetSharedCell" |> mutates;
    sub1 SubOpWriteSharedCell "WRITE_SHARED_CELL" |> cost costModerate |> handler "handleWriteSharedCell" |> shim "HandleWriteSharedCell" "WriteSharedCell" |> mutates;
    sub1 SubOpSliceOp "SLICE_OP" |> cost costModerate |> handler "handleSliceOp" |> shim "HandleSliceOp" "SliceOp" |> pure;
    sub1 SubOpRangeInit "RANGE_INIT" |> cost costModerate |> handler "handleRangeInit" |> shim "HandleRangeInit" "RangeInit" |> pure;
    sub1 SubOpRangeNext "RANGE_NEXT" |> cost costModerate |> handler "handleRangeNext" |> shim "HandleRangeNext" "RangeNext" |> pure;
    sub1 SubOpGetGlobalWide "GET_GLOBAL_WIDE" |> cost costModerate |> handler "handleGetGlobalWide" |> shim "HandleGetGlobalWide" "GetGlobalWide" |> pure;
    sub1 SubOpSetGlobalWide "SET_GLOBAL_WIDE" |> cost costModerate |> handler "handleSetGlobalWide" |> shim "HandleSetGlobalWide" "SetGlobalWide" |> mutates;
    sub1 SubOpEqInterfaceNil "EQ_INTERFACE_NIL" |> cost costCheap |> handler "handleEqInterfaceNil" |> shim "HandleEqInterfaceNil" "EqInterfaceNil" |> pure;
    sub1 SubOpNeInterfaceNil "NE_INTERFACE_NIL" |> cost costCheap |> handler "handleNeInterfaceNil" |> shim "HandleNeInterfaceNil" "NeInterfaceNil" |> pure;
    sub1 SubOpBoxSliceByte "BOX_SLICE_BYTE" |> cost costFree |> handler "handleSubOpBoxSliceByte" |> pure;
    sub1 SubOpSliceByteToString "SLICE_BYTE_TO_STRING" |> cost costMedium |> handler "handleSubOpSliceByteToString" |> pure;
    sub1 SubOpEqUintConstJumpFalse "EQ_UINT_CONST_JUMP_FALSE" |> cost costCheap |> handler "handleSubOpEqUintConstJumpFalse" |> asmIn "tier1JumpTable" "handlerSubOpEqUintConstJumpFalse" |> flags SpecJump |> pure;
    sub1 SubOpSimdDotProductFloat64 "SIMD_DOT_PRODUCT_FLOAT64" |> cost costExpensive |> handler "handleFlatSubOpSimdDotProductFloat64" |> pure;
    sub1 SubOpSimdSumSliceFloat64 "SIMD_SUM_SLICE_FLOAT64" |> cost costExpensive |> handler "handleFlatSubOpSimdSumSliceFloat64" |> pure;
    sub1 SubOpSimdAddSliceFloat64 "SIMD_ADD_SLICE_FLOAT64" |> cost costExpensive |> handler "handleFlatSubOpSimdAddSliceFloat64" |> mutates;
    sub1 SubOpSimdScaleSliceFloat64 "SIMD_SCALE_SLICE_FLOAT64" |> cost costExpensive |> handler "handleFlatSubOpSimdScaleSliceFloat64" |> mutates;
    sub1 SubOpAdoptGeneralToSlicesFloat "ADOPT_GENERAL_TO_SLICES_FLOAT" |> cost costFree |> handler "handleFlatSubOpAdoptGeneralToSlicesFloat" |> pure;
    sub1 SubOpAdoptGeneralToSlicesInt "ADOPT_GENERAL_TO_SLICES_INT" |> cost costFree |> handler "handleSubOpAdoptGeneralToSlicesInt" |> pure;
    sub1 SubOpAdoptGeneralToSlicesString "ADOPT_GENERAL_TO_SLICES_STRING" |> cost costFree |> handler "handleSubOpAdoptGeneralToSlicesString" |> pure;
    sub1 SubOpAdoptGeneralToSlicesBool "ADOPT_GENERAL_TO_SLICES_BOOL" |> cost costFree |> handler "handleSubOpAdoptGeneralToSlicesBool" |> pure;
    sub1 SubOpAdoptGeneralToSlicesUint "ADOPT_GENERAL_TO_SLICES_UINT" |> cost costFree |> handler "handleSubOpAdoptGeneralToSlicesUint" |> pure;
    sub1 SubOpAdoptGeneralToSlicesByte "ADOPT_GENERAL_TO_SLICES_BYTE" |> cost costFree |> handler "handleSubOpAdoptGeneralToSlicesByte" |> pure;
    sub1 SubOpBoxSliceFloat "BOX_SLICE_FLOAT" |> cost costFree |> handler "handleSubOpBoxSliceFloat" |> pure;
    sub1 SubOpBoxSliceString "BOX_SLICE_STRING" |> cost costFree |> handler "handleSubOpBoxSliceString" |> pure;
    sub1 SubOpBoxSliceBool "BOX_SLICE_BOOL" |> cost costFree |> handler "handleSubOpBoxSliceBool" |> pure;
    sub1 SubOpBoxSliceUint "BOX_SLICE_UINT" |> cost costFree |> handler "handleSubOpBoxSliceUint" |> pure;
    sub1 SubOpMoveSliceInt "MOVE_SLICE_INT" |> cost costFree |> handler "handleFlatSubOpMoveSliceInt" |> asmIn "tier1JumpTable" "handlerSubOpMoveSliceInt" |> pure;
    sub1 SubOpMoveSliceFloat "MOVE_SLICE_FLOAT" |> cost costFree |> handler "handleFlatSubOpMoveSliceFloat" |> asmIn "tier1JumpTable" "handlerSubOpMoveSliceFloat" |> pure;
    sub1 SubOpMoveSliceString "MOVE_SLICE_STRING" |> cost costFree |> handler "handleFlatSubOpMoveSliceString" |> asmIn "tier1JumpTable" "handlerSubOpMoveSliceString" |> pure;
    sub1 SubOpMoveSliceBool "MOVE_SLICE_BOOL" |> cost costFree |> handler "handleFlatSubOpMoveSliceBool" |> asmIn "tier1JumpTable" "handlerSubOpMoveSliceBool" |> pure;
    sub1 SubOpMoveSliceUint "MOVE_SLICE_UINT" |> cost costFree |> handler "handleFlatSubOpMoveSliceUint" |> asmIn "tier1JumpTable" "handlerSubOpMoveSliceUint" |> pure;
    sub1 SubOpMoveSliceByte "MOVE_SLICE_BYTE" |> cost costFree |> handler "handleFlatSubOpMoveSliceByte" |> asmIn "tier1JumpTable" "handlerSubOpMoveSliceByte" |> pure;
    sub1 SubOpAppendSliceIntDirect "APPEND_SLICE_INT_DIRECT" |> cost costExpensive |> handler "handleSubOpAppendSliceIntDirect" |> asmIn "tier1JumpTable" "handlerSubOpAppendSliceIntDirect" |> mutates;
    sub1 SubOpAppendSliceFloatDirect "APPEND_SLICE_FLOAT_DIRECT" |> cost costExpensive |> handler "handleSubOpAppendSliceFloatDirect" |> asmIn "tier1JumpTable" "handlerSubOpAppendSliceFloatDirect" |> mutates;
    sub1 SubOpAppendSliceStringDirect "APPEND_SLICE_STRING_DIRECT" |> cost costExpensive |> handler "handleSubOpAppendSliceStringDirect" |> asmIn "tier1JumpTable" "handlerSubOpAppendSliceStringDirect" |> mutates;
    sub1 SubOpAppendSliceBoolDirect "APPEND_SLICE_BOOL_DIRECT" |> cost costExpensive |> handler "handleSubOpAppendSliceBoolDirect" |> asmIn "tier1JumpTable" "handlerSubOpAppendSliceBoolDirect" |> mutates;
    sub1 SubOpAppendSliceUintDirect "APPEND_SLICE_UINT_DIRECT" |> cost costExpensive |> handler "handleSubOpAppendSliceUintDirect" |> asmIn "tier1JumpTable" "handlerSubOpAppendSliceUintDirect" |> mutates;
    sub1 SubOpAppendSliceByteDirect "APPEND_SLICE_BYTE_DIRECT" |> cost costExpensive |> handler "handleSubOpAppendSliceByteDirect" |> asmIn "tier1JumpTable" "handlerSubOpAppendSliceByteDirect" |> mutates;
    sub1 SubOpSliceSliceIntDirect "SLICE_SLICE_INT_DIRECT" |> cost costModerate |> handler "handleSubOpSliceSliceIntDirect" |> asmIn "tier1JumpTable" "handlerSubOpSliceSliceIntDirect" |> pure;
    sub1 SubOpSliceSliceFloatDirect "SLICE_SLICE_FLOAT_DIRECT" |> cost costModerate |> handler "handleSubOpSliceSliceFloatDirect" |> asmIn "tier1JumpTable" "handlerSubOpSliceSliceFloatDirect" |> pure;
    sub1 SubOpSliceSliceStringDirect "SLICE_SLICE_STRING_DIRECT" |> cost costModerate |> handler "handleSubOpSliceSliceStringDirect" |> asmIn "tier1JumpTable" "handlerSubOpSliceSliceStringDirect" |> pure;
    sub1 SubOpSliceSliceBoolDirect "SLICE_SLICE_BOOL_DIRECT" |> cost costModerate |> handler "handleSubOpSliceSliceBoolDirect" |> asmIn "tier1JumpTable" "handlerSubOpSliceSliceBoolDirect" |> pure;
    sub1 SubOpSliceSliceUintDirect "SLICE_SLICE_UINT_DIRECT" |> cost costModerate |> handler "handleSubOpSliceSliceUintDirect" |> asmIn "tier1JumpTable" "handlerSubOpSliceSliceUintDirect" |> pure;
    sub1 SubOpCopySliceIntDirect "COPY_SLICE_INT_DIRECT" |> cost costExpensive |> handler "handleSubOpCopySliceIntDirect" |> mutates;
    sub1 SubOpCopySliceFloatDirect "COPY_SLICE_FLOAT_DIRECT" |> cost costExpensive |> handler "handleSubOpCopySliceFloatDirect" |> mutates;
    sub1 SubOpCopySliceStringDirect "COPY_SLICE_STRING_DIRECT" |> cost costExpensive |> handler "handleSubOpCopySliceStringDirect" |> mutates;
    sub1 SubOpCopySliceBoolDirect "COPY_SLICE_BOOL_DIRECT" |> cost costExpensive |> handler "handleSubOpCopySliceBoolDirect" |> mutates;
    sub1 SubOpCopySliceUintDirect "COPY_SLICE_UINT_DIRECT" |> cost costExpensive |> handler "handleSubOpCopySliceUintDirect" |> mutates;
    sub1 SubOpCopySliceByteDirect "COPY_SLICE_BYTE_DIRECT" |> cost costExpensive |> handler "handleSubOpCopySliceByteDirect" |> mutates;
    sub1 SubOpAppendUintInPlace "APPEND_UINT_INPLACE" |> cost costExpensive |> handler "handleSubOpAppendUintInPlace" |> mutates;
    sub1 SubOpAppendByteSpreadInPlace "APPEND_BYTE_SPREAD_INPLACE" |> cost costExpensive |> handler "handleSubOpAppendByteSpreadInPlace" |> mutates;
    sub1 SubOpGetStructFieldSliceInt "GET_STRUCT_FIELD_SLICE_INT" |> cost costMedium |> handler "handleGetStructFieldUnsafeSliceInt" |> pure;
    sub1 SubOpGetStructFieldSliceFloat "GET_STRUCT_FIELD_SLICE_FLOAT" |> cost costMedium |> handler "handleGetStructFieldUnsafeSliceFloat" |> pure;
    sub1 SubOpGetStructFieldSliceUint "GET_STRUCT_FIELD_SLICE_UINT" |> cost costMedium |> handler "handleGetStructFieldUnsafeSliceUint" |> pure;
    sub1 SubOpGetStructFieldSliceString "GET_STRUCT_FIELD_SLICE_STRING" |> cost costMedium |> handler "handleGetStructFieldUnsafeSliceString" |> pure;
    sub1 SubOpGetStructFieldSliceBool "GET_STRUCT_FIELD_SLICE_BOOL" |> cost costMedium |> handler "handleGetStructFieldUnsafeSliceBool" |> pure;
    sub1 SubOpGetStructFieldSliceByte "GET_STRUCT_FIELD_SLICE_BYTE" |> cost costMedium |> handler "handleGetStructFieldUnsafeSliceByte" |> pure;
    sub1 SubOpSetStructFieldSliceInt "SET_STRUCT_FIELD_SLICE_INT" |> cost costMedium |> handler "handleSetStructFieldUnsafeSliceInt" |> mutates;
    sub1 SubOpSetStructFieldSliceFloat "SET_STRUCT_FIELD_SLICE_FLOAT" |> cost costMedium |> handler "handleSetStructFieldUnsafeSliceFloat" |> mutates;
    sub1 SubOpSetStructFieldSliceUint "SET_STRUCT_FIELD_SLICE_UINT" |> cost costMedium |> handler "handleSetStructFieldUnsafeSliceUint" |> mutates;
    sub1 SubOpSetStructFieldSliceString "SET_STRUCT_FIELD_SLICE_STRING" |> cost costMedium |> handler "handleSetStructFieldUnsafeSliceString" |> mutates;
    sub1 SubOpSetStructFieldSliceBool "SET_STRUCT_FIELD_SLICE_BOOL" |> cost costMedium |> handler "handleSetStructFieldUnsafeSliceBool" |> mutates;
    sub1 SubOpSetStructFieldSliceByte "SET_STRUCT_FIELD_SLICE_BYTE" |> cost costMedium |> handler "handleSetStructFieldUnsafeSliceByte" |> mutates;
    sub1 SubOpCapSliceIntDirect "CAP_SLICE_INT_DIRECT" |> cost costCheap |> handler "handleSubOpCapSliceIntDirect" |> pure;
    sub1 SubOpCapSliceFloatDirect "CAP_SLICE_FLOAT_DIRECT" |> cost costCheap |> handler "handleSubOpCapSliceFloatDirect" |> pure;
    sub1 SubOpCapSliceStringDirect "CAP_SLICE_STRING_DIRECT" |> cost costCheap |> handler "handleSubOpCapSliceStringDirect" |> pure;
    sub1 SubOpCapSliceBoolDirect "CAP_SLICE_BOOL_DIRECT" |> cost costCheap |> handler "handleSubOpCapSliceBoolDirect" |> pure;
    sub1 SubOpCapSliceUintDirect "CAP_SLICE_UINT_DIRECT" |> cost costCheap |> handler "handleSubOpCapSliceUintDirect" |> pure;
    sub1 SubOpCapSliceByteDirect "CAP_SLICE_BYTE_DIRECT" |> cost costCheap |> handler "handleSubOpCapSliceByteDirect" |> pure;
    sub1 SubOpMakeSliceHeap "MAKE_SLICE_HEAP" |> cost costVeryHeavy |> handler "handleSubOpMakeSliceHeap" |> pure;
    sub1 SubOpTypeSwitchJump "TYPE_SWITCH_JUMP" |> cost costModerate |> handler "handleSubOpTypeSwitchJump" |> flags SpecJump |> pure;
    sub1 SubOpRoundFloat32 "ROUND_FLOAT32" |> cost costCheap |> handler "handleFlatSubOpRoundFloat32" |> pure;
    sub1 SubOpRoundComplex64 "ROUND_COMPLEX64" |> cost costCheap |> handler "handleFlatSubOpRoundComplex64" |> pure;
    sub1 SubOpEqInterfaceStrict "EQ_INTERFACE_STRICT" |> cost costCheap |> handler "handleSubOpEqInterfaceStrict" |> pure;
    sub1 SubOpNeInterfaceStrict "NE_INTERFACE_STRICT" |> cost costCheap |> handler "handleSubOpNeInterfaceStrict" |> pure;
    sub1 SubOpFieldAddr "FIELD_ADDR" |> cost costMedium |> handler "handleSubOpFieldAddr" |> mutates ].

Definition tierSub2Specs : list OpSpec :=
  [ sub2 SubOpTier2DrillTier3 "DRILL_TIER3" |> flags specMeta;
    sub2 SubOpTier2IncInt "TIER2_INC_INT" |> cost costCheap |> handler "handleFlatSubOpTier2IncInt" |> asmIn "tier2JumpTable" "handlerSubOpTier2IncInt" |> pure;
    sub2 SubOpTier2DecInt "TIER2_DEC_INT" |> cost costCheap |> handler "handleFlatSubOpTier2DecInt" |> asmIn "tier2JumpTable" "handlerSubOpTier2DecInt" |> pure;
    sub2 SubOpTier2IncUint "TIER2_INC_UINT" |> cost costCheap |> handler "handleFlatSubOpTier2IncUint" |> asmIn "tier2JumpTable" "handlerSubOpTier2IncUint" |> pure;
    sub2 SubOpTier2DecUint "TIER2_DEC_UINT" |> cost costCheap |> handler "handleFlatSubOpTier2DecUint" |> asmIn "tier2JumpTable" "handlerSubOpTier2DecUint" |> pure;
    sub2 SubOpTier2IncInt32 "TIER2_INC_INT32" |> cost costCheap |> handler "handleFlatSubOpTier2IncInt32" |> asmIn "tier2JumpTable" "handlerSubOpTier2IncInt32" |> pure;
    sub2 SubOpTier2DecInt32 "TIER2_DEC_INT32" |> cost costCheap |> handler "handleFlatSubOpTier2DecInt32" |> asmIn "tier2JumpTable" "handlerSubOpTier2DecInt32" |> pure;
    sub2 SubOpTier2Panic "TIER2_PANIC" |> cost costModerate |> handler "handleFlatSubOpTier2Panic" |> pure;
    sub2 SubOpTier2Recover "TIER2_RECOVER" |> cost costModerate |> handler "handleFlatSubOpTier2Recover" |> pure;
    sub2 SubOpTier2SetZero "TIER2_SET_ZERO" |> cost costFree |> handler "handleFlatSubOpTier2SetZero" |> mutates;
    sub2 SubOpTier2ChannelClose "TIER2_CHANNEL_CLOSE" |> cost costModerate |> handler "handleFlatSubOpTier2ChannelClose" |> mutates;
    sub2 SubOpTier2LoadNil "TIER2_LOAD_NIL" |> cost costFree |> handler "handleFlatSubOpTier2LoadNil" |> pure;
    sub2 SubOpTier2Return "TIER2_RETURN" |> cost costCheap |> handler "handleFlatSubOpTier2Return" |> asmIn "tier2JumpTable" "handlerReturnInline" |> pure;
    sub2 SubOpTier2MakeInterfaceMethodExpr "MAKE_IFACE_METHOD_EXPR" |> cost costModerate |> handler "runMakeInterfaceMethodExpr" |> pure;
    sub2 SubOpTier2MakeMap "MAKE_MAP" |> cost costVeryHeavy |> handler "handleFlatSubOpTier2MakeMap" |> pure;
    sub2 SubOpTier2RangeCheckUintJumpFalse "RANGE_CHECK_UINT_JUMP_FALSE" |> cost costCheap |> handler "handleSubOpRangeCheckUintJumpFalse" |> asmIn "tier2JumpTable" "handlerSubOpRangeCheckUintJumpFalse" |> flags SpecJump |> pure;
    sub2 SubOpTier2AllocStructLiteral "ALLOC_STRUCT_LITERAL" |> cost costVeryHeavy |> handler "handleSubOpAllocStructLiteral" |> asmIn "tier2JumpTable" "handlerSubOpAllocStructLiteral" |> pure;
    sub2 SubOpTier2SyncClosureUpvalues "SYNC_CLOSURE_UPVALUES" |> cost costModerate |> handler "handleSyncClosureUpvalues" |> shim "HandleSyncClosureUpvalues" "SyncClosureUpvalues" |> mutates ].

Definition tierSub3Specs : list OpSpec :=
  [ sub3 SubOpTier3Nop "TIER3_NOP" |> cost costFree |> handler "handleFlatSubOpTier3Nop" |> flags specMeta |> pure;
    sub3 SubOpTier3ReturnVoid "TIER3_RETURN_VOID" |> cost costCheap |> handler "handleReturnVoid" |> asmIn "tier3JumpTable" "handlerReturnVoidInline" |> pure;
    sub3 SubOpTier3SyncIIFEUpvalues "SYNC_IIFE_UPVALUES" |> cost costModerate |> handler "handleSyncIIFEUpvalues" |> mutates ].

End tables.

(** ** Queries on a row *)

Definition Has (s : OpSpec) (f : specFlag) : bool := Z.land (spFlags s) f =? f.

Definition OpSpec_Shape (s : OpSpec) : OperandShape := OperandShapeAt (spTier s) (spCode s).

(** [(mutates, classified)] *)
Definition MutatesMemory (s : OpSpec) : bool * bool :=
  if Has s specMutatesMemory then (true, true)
  else if Has s specMemoryPure then (false, true)
  else (true, false).

Definition Dispatch (s : OpSpec) : DispatchPath :=
  if String.eqb (spHandler s) "" then DispatchNone
  else if negb (String.eqb (spExitStub s) "") then DispatchExit
  else if negb (String.eqb (spAsmBody s) "") then DispatchAsm
  else if negb (String.eqb (spShim s) "") then DispatchShim
  else DispatchGo.

Definition ExitsLoop (p : DispatchPath) : bool :=
  match p with DispatchExit | DispatchGo => true | _ => false end.

(** ** The index *)

Definition specRows : list OpSpec :=
  tierMainSpecs ++ tierSub1Specs ++ tierSub2Specs ++ tierSub3Specs.

Notation SpecIndex := (list (list (option OpSpec))) (only parsing).

Definition emptySpecIndex : SpecIndex :=
  replicate (Z.to_nat tierCount) (replicate (Z.to_nat SlotsPerTier) None).

(** One row of package initialisation: a duplicate panics. *)
Definition indexRow (index : SpecIndex) (row : OpSpec) : option SpecIndex :=
  slots ← zget index (spTier row);
  entry ← zget slots (spCode row);
  match entry with
  | Some _ => None
  | None => Some (zset index (spTier row) (zset slots (spCode row) (Some row)))
  end.

Fixpoint indexRows (index : SpecIndex) (rows : list OpSpec) : option SpecIndex :=
  match rows with
  | [] => Some index
  | row :: rest => index' ← indexRow index row; indexRows index' rest
  end.

Definition initSpecIndex : option SpecIndex := indexRows emptySpecIndex specRows.

Definition specIndex : SpecIndex := Eval vm_compute in default [] initSpecIndex.

Definition SpecAt (tier : Tier) (code : Z) : option OpSpec :=
  if tierCount <=? tier then None
  else slots ← zget specIndex tier; row ← zget slots code; row.

Definition SpecFor (op : Opcode) : option OpSpec := SpecAt TierMain op.

Definition SpecForInstruction (instr : Instruction) : option OpSpec :=
  if negb (iOp instr =? OpDrillTier1) then SpecAt TierMain (iOp instr)
  else if negb (iA instr =? SubOpDrillTier2) then SpecAt TierSub1 (iA instr)
  else if negb (iB instr =? SubOpTier2DrillTier3) then SpecAt TierSub2 (iB instr)
  else SpecAt TierSub3 (iC instr).

Definition AllSpecs : list OpSpec :=
  flat_map (λ slots, omap id slots) specIndex.

(** ** The flat operation space *)

Definition FlatIndexOf (op : Opcode) : Z := TierMain * SlotsPerTier + op.
Definition FlatIndexOfSub1 (op : SubOpcode) : Z := TierSub1 * SlotsPerTier + op.
Definition FlatIndexOfSub2 (op : SubOpcodeTier2) : Z := TierSub2 * SlotsPerTier + op.
Definition FlatIndexOfSub3 (op : SubOpcodeTier3) : Z := TierSub3 * SlotsPerTier + op.

Definition FlatIndexFor (instr : Instruction) : Z :=
  if negb (iOp instr =? OpDrillTier1) then iOp instr
  else if negb (iA instr =? SubOpDrillTier2) then TierSub1 * SlotsPerTier + iA instr
  else if negb (iB instr =? SubOpTier2DrillTier3) then TierSub2 * SlotsPerTier + iB instr
  else TierSub3 * SlotsPerTier + iC instr.

Definition CostTable : Type := list Z.

(** Slots without a row charge [costCheap]. *)
Definition initDefaultCostTable : CostTable :=
  foldl (λ table row, zset table (spTier row * SlotsPerTier + spCode row) (spCost row))
    (replicate (Z.to_nat FlatDispatchSlots) costCheap) AllSpecs.

Definition DefaultCostTable : CostTable := Eval vm_compute in initDefaultCostTable.

(** ** Package initialisation succeeds *)

(** package initialisation accepts the rows (none is a duplicate, all are
    inside their tier), and the index it builds holds exactly the rows of the
    four tables: a lookup finds a row if and only if the tables list one with
    that tier and code. *)
Theorem spec_index_complete :
  initSpecIndex = Some specIndex ∧
  (∀ tier code row, 0 ≤ tier →
     SpecAt tier code = Some row ↔ row ∈ specRows ∧ spTier row = tier ∧ spCode row = code).
Proof.
  split; [vm_compute; reflexivity|]. intros tier code row Htier.
  assert (Hkeys : Forall (λ row, SpecAt (spTier row) (spCode row) = Some row) specRows)
    by (eapply bool_decide_unpack; vm_compute; exact I).
  rewrite Forall_forall in Hkeys.
  assert (Hback : Forall (λ tier, Forall (λ code,
      Forall (λ row, row ∈ specRows ∧ spTier row = tier ∧ spCode row = code)
        (option_list (SpecAt tier code))) all_bytes) (seqZ 0 tierCount)) by (eapply bool_decide_unpack; vm_compute; exact I).
  rewrite Forall_forall in Hback. split; [|intros (Hin & <- & <-); by apply Hkeys].
  intros Hat. assert (Hrange : 0 ≤ tier < tierCount ∧ 0 ≤ code < 256).
  { unfold SpecAt in Hat. destruct (tierCount <=? tier) eqn:E; [done|]. bool_hyps.
    destruct (zget specIndex tier) as [slots|] eqn:Hs; [|done]. simpl in Hat.
    destruct (zget slots code) as [o|] eqn:Hc; [|done].
    assert (Hlen : Forall (λ l : list (option OpSpec), zlen l = 256) specIndex)
      by (vm_compute; repeat constructor).
    rewrite zget_lookup in Hs by lia. rewrite Forall_lookup in Hlen. apply Hlen in Hs.
    apply zget_Some_range in Hc. lia. }
  specialize (Hback tier). rewrite elem_of_seqZ, Forall_forall in Hback.
  specialize (Hback ltac:(lia) code). unfold all_bytes in Hback.
  rewrite elem_of_seqZ, Hat in Hback. specialize (Hback ltac:(lia)).
  exact (proj1 (proj1 (Forall_cons _ _ _) Hback)).
Qed.

Theorem spec_index_complete_witness :
  SpecAt TierMain OpAddInt = SpecFor OpAddInt ∧
  (∀ row, SpecAt TierMain OpAddInt = Some row ↔
     row ∈ specRows ∧ spTier row = TierMain ∧ spCode row = OpAddInt).
Proof.
  split; [reflexivity|]. intros row.
  apply (proj2 spec_index_complete TierMain OpAddInt row). vm_compute. congruence.
Defined.

(** The flat slot names the operation the drill cascade selects. *)
Definition flat_tier (slot : Z) : Tier := slot / SlotsPerTier.
Definition flat_code (slot : Z) : Z := slot mod SlotsPerTier.

Lemma flat_split t c :
  byte_ok c → flat_tier (t * SlotsPerTier + c) = t ∧ flat_code (t * SlotsPerTier + c) = c.
Proof. intros H. unfold flat_tier, flat_code, SlotsPerTier. split; word. Qed.

Lemma flat_index_range instr : wf_instruction instr → 0 ≤ FlatIndexFor instr < FlatDispatchSlots.
Proof.
  intros (Hop & Ha & Hb & Hc). unfold FlatIndexFor, FlatDispatchSlots, tierCount, SlotsPerTier,
    TierSub1, TierSub2, TierSub3. case_ifs; word.
Qed.

Lemma flat_index_resolves instr :
  wf_instruction instr →
  let slot := FlatIndexFor instr in
  SpecForInstruction instr = SpecAt (flat_tier slot) (flat_code slot) ∧
  ShapeForInstruction instr = OperandShapeAt (flat_tier slot) (flat_code slot).
Proof.
  intros (Hop & Ha & Hb & Hc) slot. subst slot.
  destruct (flat_split TierMain (iOp instr) Hop) as [H1 H2].
  change (TierMain * SlotsPerTier + iOp instr) with (iOp instr) in H1, H2.
  unfold FlatIndexFor, SpecForInstruction, ShapeForInstruction. case_ifs; rewrite ?H1, ?H2.
  - done.
  - by destruct (flat_split TierSub1 (iA instr) Ha) as [-> ->].
  - by destruct (flat_split TierSub2 (iB instr) Hb) as [-> ->].
  - by destruct (flat_split TierSub3 (iC instr) Hc) as [-> ->].
Qed.

Lemma cost_table_rows :
  Forall (λ slot, zget DefaultCostTable slot =
      Some (match SpecAt (flat_tier slot) (flat_code slot) with
            | Some row => spCost row | None => costCheap end)) (seqZ 0 FlatDispatchSlots).
Proof. eapply bool_decide_unpack; vm_compute; exact I. Qed.

(** the flat slot of an instruction identifies the operation the drill
    cascade resolves it to: it lies in the 1024-entry operation space, the
    specification row and the operand shape the instruction resolves to are
    those of the slot, and the default cost charged for the slot is the row's
    cost, or the cheap cost when the operation has no row. *)
Theorem flat_index_identifies_operation instr :
  wf_instruction instr →
  let slot := FlatIndexFor instr in
  0 ≤ slot < FlatDispatchSlots ∧
  SpecForInstruction instr = SpecAt (flat_tier slot) (flat_code slot) ∧
  ShapeForInstruction instr = OperandShapeAt (flat_tier slot) (flat_code slot) ∧
  zget DefaultCostTable slot =
    Some (match SpecForInstruction instr with Some row => spCost row | None => costCheap end).
Proof.
  intros Hwf slot. pose proof (flat_index_range instr Hwf) as Hrange.
  destruct (flat_index_resolves instr Hwf) as [Hspec Hshape].
  split_and!; [lia|subst slot; lia|done|done|]. rewrite Hspec.
  pose proof cost_table_rows as Hall. rewrite Forall_forall in Hall.
  apply Hall, elem_of_seqZ. subst slot. lia.
Qed.

Theorem flat_index_identifies_operation_witness :
  wf_instruction (NewTier1Instruction SubOpJump 1 0) ∧
  0 ≤ FlatIndexFor (NewTier1Instruction SubOpJump 1 0) < FlatDispatchSlots.
Proof.
  assert (H : wf_instruction (NewTier1Instruction SubOpJump 1 0))
    by (vm_compute; intuition congruence).
  split; [exact H|]. exact (proj1 (flat_index_identifies_operation _ H)).
Defined.

(** Every operation that is not a drill marker has a row, a described shape
    and a memory classification, and the jump flag agrees with the
    control-flow flag except for returns and the type-switch head. *)
Lemma specs_described_and_classified :
  Forall (λ row, Has row specMeta = true ∨ Has row specReserved = true ∨
            (described (OpSpec_Shape row) = true ∧ (MutatesMemory row).2 = true)) specRows.
Proof. eapply bool_decide_unpack. vm_compute. exact I. Qed.
