(* ===== verification/JumpLayout.v ===== *)
(** * Jump layouts

    [internal/isa/jump_layout.go]: where each operation keeps its relative
    jump offset, and how many words it spans. *)

From S2P Require Import Prelude Register Opcode Instruction Shapes Spec.

Inductive JumpLayout :=
  | JumpLayoutNone
  | JumpLayoutWord
  | JumpLayoutExtension
  | JumpLayoutSecondExtension
  | JumpLayoutExtension24
  | JumpLayoutMultiWay
  | JumpLayoutExtensionBC.

#[export] Instance JumpLayout_eq_dec : EqDecision JumpLayout.
Proof. solve_decision. Defined.

Definition EqUintConstJumpFalseNopCount : Z := 1.
Definition RangeCheckUintFusionNopCount : Z := 5.

Definition singleJumpWordCount : Z := 1.
Definition extensionJumpWordCount : Z := 2.
Definition secondExtensionJumpWordCount : Z := 3.

Definition isMapIndexOkJump (op : Opcode) : bool :=
  one_of op
    [OpMapIndexOkJumpIfFalseIntInt; OpMapIndexOkJumpIfFalseStringInt;
     OpMapIndexOkJumpIfFalseStringString; OpMapIndexOkJumpIfFalseIntString;
     OpMapIndexOkJumpIfFalseIntGeneral; OpMapIndexOkJumpIfFalseStringGeneral].

(** The layout and the number of trailing [OpNop] words. *)
Definition JumpLayoutOf (instr : Instruction) : JumpLayout * Z :=
  match SpecForInstruction instr with
  | None => (JumpLayoutNone, 0)
  | Some row =>
      if negb (Has row SpecJump) then (JumpLayoutNone, 0)
      else if InstrIsTier2SubOp instr SubOpTier2RangeCheckUintJumpFalse
      then (JumpLayoutSecondExtension, RangeCheckUintFusionNopCount)
      else if InstrIsTier1SubOp instr SubOpEqUintConstJumpFalse
      then (JumpLayoutExtension, EqUintConstJumpFalseNopCount)
      else if InstrIsTier1SubOp instr SubOpTypeSwitchJump then (JumpLayoutMultiWay, 0)
      else if isMapIndexOkJump (iOp instr) then (JumpLayoutExtensionBC, 0)
      else if (iOp instr =? OpRangeNextSliceInt) || (iOp instr =? OpRangeNextSliceByte)
      then (JumpLayoutExtension24, 0)
      else if hasFlag (shFlags (ShapeForInstruction instr)) ShapeFlagFollowsExtension
      then (JumpLayoutExtension, 0)
      else (JumpLayoutWord, 0)
  end.

Definition WordCount (layout : JumpLayout) : Z :=
  match layout with
  | JumpLayoutExtension | JumpLayoutExtension24 | JumpLayoutExtensionBC =>
      extensionJumpWordCount
  | JumpLayoutSecondExtension => secondExtensionJumpWordCount
  | _ => singleJumpWordCount
  end.

(** ** The layout is a property of the operation

    The bytes an operation does not use as discriminators play no part: two
    words with the same flat slot have the same layout, so that a statement
    about layouts is decided on one word per slot. *)

Definition slotInstruction (slot : Z) : Instruction :=
  let code := flat_code slot in
  if flat_tier slot =? TierMain then NewInstruction code 0 0 0
  else if flat_tier slot =? TierSub1 then NewTier1Instruction code 0 0
  else if flat_tier slot =? TierSub2 then NewTier2Instruction code 0
  else NewTier3Instruction code.

Definition allSlots : list Z := seqZ 0 FlatDispatchSlots.

(** The operation a word selects, as the discriminating bytes alone. *)
Definition normalise (instr : Instruction) : Instruction :=
  if negb (iOp instr =? OpDrillTier1) then NewInstruction (iOp instr) 0 0 0
  else if negb (iA instr =? SubOpDrillTier2) then NewInstruction OpDrillTier1 (iA instr) 0 0
  else if negb (iB instr =? SubOpTier2DrillTier3)
  then NewInstruction OpDrillTier1 SubOpDrillTier2 (iB instr) 0
  else NewInstruction OpDrillTier1 SubOpDrillTier2 SubOpTier2DrillTier3 (iC instr).

Lemma normalise_tests instr :
  SpecForInstruction (normalise instr) = SpecForInstruction instr ∧
  ShapeForInstruction (normalise instr) = ShapeForInstruction instr ∧
  JumpLayoutOf (normalise instr) = JumpLayoutOf instr.
Proof.
  assert (H : SpecForInstruction (normalise instr) = SpecForInstruction instr ∧
    ShapeForInstruction (normalise instr) = ShapeForInstruction instr ∧
    iOp (normalise instr) = iOp instr ∧
    (∀ s, InstrIsTier1SubOp (normalise instr) s = InstrIsTier1SubOp instr s) ∧
    (∀ s, InstrIsTier2SubOp (normalise instr) s = InstrIsTier2SubOp instr s)).
  { destruct instr as [op a b c].
    unfold normalise, SpecForInstruction, ShapeForInstruction, InstrIsTier1SubOp,
      InstrIsTier2SubOp; cbn [iOp iA iB iC].
    destruct (op =? OpDrillTier1) eqn:E0; cbn [iOp iA iB iC negb].
    2: { rewrite E0. split_and!; done. }
    apply Z.eqb_eq in E0 as ->.
    destruct (a =? SubOpDrillTier2) eqn:E1; cbn [iOp iA iB iC negb]; rewrite ?Z.eqb_refl.
    2: { rewrite E1. split_and!; done. }
    apply Z.eqb_eq in E1 as ->.
    destruct (b =? SubOpTier2DrillTier3) eqn:E2; cbn [iOp iA iB iC negb]; rewrite ?Z.eqb_refl.
    2: { rewrite E2. split_and!; done. }
    apply Z.eqb_eq in E2 as ->. split_and!; done. }
  destruct H as (Hs & Hsh & Hop & H1 & H2). split_and!; [done|done|].
  unfold JumpLayoutOf. by rewrite Hs, Hsh, Hop, !H1, H2.
Qed.

Lemma normalise_slot instr :
  wf_instruction instr → normalise instr = normalise (slotInstruction (FlatIndexFor instr)).
Proof.
  intros (Hop & Ha & Hb & Hc). destruct instr as [op a b c]. simpl in *.
  unfold FlatIndexFor, slotInstruction; cbn [iOp iA iB iC].
  destruct (op =? OpDrillTier1) eqn:E0; cbn [negb].
  2: { destruct (flat_split TierMain op Hop) as [H1 H2].
       change (TierMain * SlotsPerTier + op) with op in H1, H2. rewrite H1, H2, Z.eqb_refl.
       unfold normalise; cbn [iOp iA iB iC]. by rewrite E0. }
  apply Z.eqb_eq in E0 as ->.
  destruct (a =? SubOpDrillTier2) eqn:E1; cbn [negb].
  2: { destruct (flat_split TierSub1 a Ha) as [-> ->]. unfold NewTier1Instruction.
       rewrite wrapU_id by done. unfold normalise; cbn. by rewrite E1. }
  apply Z.eqb_eq in E1 as ->.
  destruct (b =? SubOpTier2DrillTier3) eqn:E2; cbn [negb].
  2: { destruct (flat_split TierSub2 b Hb) as [-> ->]. unfold NewTier2Instruction.
       rewrite (wrapU_id 8 b) by done. unfold normalise; cbn. by rewrite E2. }
  apply Z.eqb_eq in E2 as ->.
  destruct (flat_split TierSub3 c Hc) as [-> ->]. unfold NewTier3Instruction.
  by rewrite (wrapU_id 8 c) by done.
Qed.

(** What an analysis reads of an operation, decided slot by slot. *)
Lemma forall_operation (P : option OpSpec → OperandShape → JumpLayout * Z → bool) :
  forallb (λ slot, P (SpecForInstruction (slotInstruction slot))
                     (ShapeForInstruction (slotInstruction slot))
                     (JumpLayoutOf (slotInstruction slot))) allSlots = true →
  ∀ instr, wf_instruction instr →
    P (SpecForInstruction instr) (ShapeForInstruction instr) (JumpLayoutOf instr) = true.
Proof.
  intros H instr Hwf. rewrite forallb_forall in H.
  destruct (normalise_tests instr) as (<- & <- & <-).
  rewrite (normalise_slot instr Hwf).
  destruct (normalise_tests (slotInstruction (FlatIndexFor instr))) as (-> & -> & ->).
  apply H, list_elem_of_In, elem_of_seqZ.
  pose proof (flat_index_range instr Hwf). lia.
Qed.

(** The operations that transfer control without carrying an offset. *)
Definition offsetlessControlFlow : list string :=
  ["TAIL_CALL"; "TIER2_RETURN"; "TIER3_RETURN_VOID"]%string.

Definition layout_agrees (row : option OpSpec) (shape : OperandShape) (jl : JumpLayout * Z)
    : bool :=
  let '(layout, nops) := jl in
  let follows := hasFlag (shFlags shape) ShapeFlagFollowsExtension in
  let flow := hasFlag (shFlags shape) ShapeFlagControlFlow in
  let jump := match row with Some r => Has r SpecJump | None => false end in
  Bool.eqb jump (negb (bool_decide (layout = JumpLayoutNone)))
  && implb jump (flow || bool_decide (layout = JumpLayoutMultiWay))
  && implb flow (jump ||
       match row with Some r => bool_decide (spName r ∈ offsetlessControlFlow) | None => false end)
  && match layout with
     | JumpLayoutExtension | JumpLayoutSecondExtension | JumpLayoutExtension24
     | JumpLayoutExtensionBC => follows
     | JumpLayoutWord => negb follows
     | _ => true
     end
  && (0 <=? nops)
  && implb (0 <? nops) (bool_decide (layout = JumpLayoutExtension)
                        || bool_decide (layout = JumpLayoutSecondExtension)).

(** the jump-layout classification agrees with the specification table and
    the shape table for every instruction word: an operation has an offset
    layout exactly when its row is a jump; every operation that changes the
    program counter and is not a tail call or a return has a decodable layout;
    an offset lives in an extension word exactly when the shape declares
    extension words; and only the two padded fusions trail [OpNop] words. *)
Theorem jump_layout_agrees_with_tables instr :
  wf_instruction instr →
  layout_agrees (SpecForInstruction instr) (ShapeForInstruction instr) (JumpLayoutOf instr) = true.
Proof. apply forall_operation. vm_compute. reflexivity. Qed.

Theorem jump_layout_agrees_with_tables_witness :
  wf_instruction (NewInstruction OpAddIntJump 1 2 3) ∧
  JumpLayoutOf (NewInstruction OpAddIntJump 1 2 3) = (JumpLayoutExtension, 0) ∧
  layout_agrees (SpecForInstruction (NewInstruction OpAddIntJump 1 2 3))
    (ShapeForInstruction (NewInstruction OpAddIntJump 1 2 3)) (JumpLayoutExtension, 0) = true.
Proof.
  assert (H : wf_instruction (NewInstruction OpAddIntJump 1 2 3))
    by (vm_compute; intuition congruence).
  split; [exact H|]. split; [vm_compute; reflexivity|].
  exact (jump_layout_agrees_with_tables _ H).
Defined.
