(* ===== verification/Extension.v ===== *)
(** * Extension-word operands

    [internal/isa/extension_operands.go]: which bytes of the [OpExt] words that
    follow an operation name registers the operation reads and writes. *)

From S2P Require Import Prelude Register Opcode Instruction Shapes.

Notation ExtensionIntMask := (bool * bool * bool)%type (only parsing).

Definition extensionNone : ExtensionIntMask := (false, false, false).
Definition extensionByteA : ExtensionIntMask := (true, false, false).
Definition extensionByteC : ExtensionIntMask := (false, false, true).

Definition tier1ExtensionNamesOnlyIntRegisters (owner : Instruction) : bool :=
  if iA owner =? SubOpDrillTier2 then
    one_of (iB owner) [SubOpTier2MakeMap; SubOpTier2AllocStructLiteral]
  else one_of (iA owner)
      [SubOpSliceGetFloatDirect; SubOpSliceGetStringDirect; SubOpSliceGetBoolDirect;
      SubOpSliceGetUintDirect; SubOpSliceGetByteDirect; SubOpSliceOp; SubOpSliceByteSlice;
      SubOpSliceSliceIntDirect; SubOpSliceSliceFloatDirect; SubOpSliceSliceStringDirect;
      SubOpSliceSliceBoolDirect; SubOpSliceSliceUintDirect; SubOpGetStructFieldInt;
      SubOpGetStructFieldUint; SubOpGetStructFieldFloat; SubOpGetStructFieldBool;
      SubOpGetStructFieldString; SubOpFieldAddr; SubOpSetStructFieldInt;
      SubOpSetStructFieldUint; SubOpSetStructFieldFloat; SubOpSetStructFieldBool;
      SubOpSetStructFieldString; SubOpGetStructFieldSliceInt; SubOpGetStructFieldSliceFloat;
      SubOpGetStructFieldSliceUint; SubOpGetStructFieldSliceString;
      SubOpGetStructFieldSliceBool; SubOpGetStructFieldSliceByte;
      SubOpSetStructFieldSliceInt; SubOpSetStructFieldSliceFloat;
      SubOpSetStructFieldSliceUint; SubOpSetStructFieldSliceString;
      SubOpSetStructFieldSliceBool; SubOpSetStructFieldSliceByte].

Definition ExtensionNamesOnlyIntRegisters (owner : Instruction) : bool :=
  if one_of (iOp owner)
      [OpGetStructFieldIndexGeneral; OpSetStructFieldIndexGeneral; OpTypeAssert;
      OpPackTyped; OpAllocIndirect; OpAppendStructFast; OpSliceString]
  then true
  else if iOp owner =? OpDrillTier1 then tier1ExtensionNamesOnlyIntRegisters owner
  else false.

Definition sliceBoundsExtensionIntReads (first : Instruction) (ordinal : Z) : ExtensionIntMask :=
  let flags := iA first in
  if ordinal =? 0 then
    (false, negb (Z.land flags SliceLowBoundFlag =? 0),
      negb (Z.land flags SliceHighBoundFlag =? 0))
  else if ordinal =? 1 then (negb (Z.land flags SliceMaxBitFlag =? 0), false, false)
  else extensionNone.

(** [(reads, writes)] and whether the layout is recorded. *)
Definition tier2ExtensionIntUse (owner : Instruction)
    : ExtensionIntMask * ExtensionIntMask * bool :=
  if one_of (iB owner) [SubOpTier2MakeMap; SubOpTier2AllocStructLiteral]
  then (extensionNone, extensionNone, true)
  else (extensionNone, extensionNone, false).

(** The walk over the case words of a select: the position of the case that
    starts at or after [last].  The position grows by at least one, so the
    length of the words is enough fuel. *)
Fixpoint selectPosition (fuel : nat) (words : list Instruction) (position last : Z) : Z :=
  match fuel with
  | O => position
  | S fuel =>
      if position <? last then
        match zget words position with
        | None => position
        | Some w =>
            if one_of (iA w) [SelectDirectionReceive; SelectDirectionSend]
            then selectPosition fuel words (position + 2) last
            else selectPosition fuel words (position + 1) last
        end
      else position
  end.

Definition selectExtensionIntUse (words : list Instruction) : ExtensionIntMask * ExtensionIntMask :=
  let last := zlen words - 1 in
  let position := selectPosition (length words) words 0 last in
  if position =? last then (extensionNone, extensionNone)
  else match zget words (last - 1), zget words last with
  | Some header, Some word =>
      if iA header =? SelectDirectionSend then
        ((iB word =? RegisterInt, false, false), extensionNone)
      else if iA header =? SelectDirectionReceive then
        (extensionNone, (iB word =? RegisterInt, false, negb (iC header =? 0)))
      else (extensionNone, extensionNone)
  | _, _ => (extensionNone, extensionNone)
  end.

Definition rangeNextExtensionIntWrites (first word : Instruction) (ordinal : Z)
    : ExtensionIntMask :=
  let flags := iA first in
  if ordinal =? 0 then
    (false, negb (Z.land flags 1 =? 0) && (iC word =? RegisterInt), false)
  else if ordinal =? 1 then
    (false, negb (Z.land flags 2 =? 0) && (iC word =? RegisterInt), false)
  else extensionNone.

Definition tier1ExtensionIntUse (owner first word : Instruction) (words : list Instruction)
    : ExtensionIntMask * ExtensionIntMask * bool :=
  if iA owner =? SubOpDrillTier2 then tier2ExtensionIntUse owner
  else
  let ordinal := zlen words - 1 in
  let sub := iA owner in
  if one_of sub
      [SubOpMakeSliceInt; SubOpMakeSliceFloat; SubOpMakeSliceString; SubOpMakeSliceBool;
      SubOpMakeSliceUint; SubOpMakeSliceByte; SubOpMakeSliceHeap; SubOpSliceGetFloatDirect;
      SubOpSliceGetStringDirect; SubOpSliceGetBoolDirect; SubOpSliceGetUintDirect;
      SubOpSliceGetByteDirect; SubOpAppendSliceIntDirect; SubOpStrconvFormatInt]
  then (extensionByteA, extensionNone, true)
  else if one_of sub
      [SubOpSliceOp; SubOpSliceByteSlice; SubOpSliceSliceIntDirect;
      SubOpSliceSliceFloatDirect; SubOpSliceSliceStringDirect; SubOpSliceSliceBoolDirect;
      SubOpSliceSliceUintDirect]
  then (sliceBoundsExtensionIntReads first ordinal, extensionNone, true)
  else if sub =? SubOpCallBuiltin then
    ((iB word =? RegisterInt, false, false), extensionNone, true)
  else if sub =? SubOpSelect then
    let '(reads, writes) := selectExtensionIntUse words in (reads, writes, true)
  else if sub =? SubOpChannelReceive then
    (extensionNone, (iB word =? RegisterInt, false, false), true)
  else if sub =? SubOpRangeNext then
    (extensionNone, rangeNextExtensionIntWrites first word ordinal, true)
  else if one_of sub
      [SubOpCopySliceIntDirect; SubOpCopySliceFloatDirect; SubOpCopySliceStringDirect;
      SubOpCopySliceBoolDirect; SubOpCopySliceUintDirect; SubOpCopySliceByteDirect;
      SubOpEqInterfaceStrict; SubOpNeInterfaceStrict]
  then (extensionNone, extensionByteA, true)
  else if one_of sub
      [SubOpSliceSetFloatDirect; SubOpSliceSetStringDirect; SubOpSliceSetBoolDirect;
      SubOpSliceSetUintDirect; SubOpSliceSetByteDirect; SubOpAppendSliceFloatDirect;
      SubOpAppendSliceStringDirect; SubOpAppendSliceBoolDirect; SubOpAppendSliceUintDirect;
      SubOpAppendSliceByteDirect; SubOpAppendUintInPlace; SubOpCallMethod;
      SubOpCallMethodInlineable; SubOpGetMethod; SubOpSpill; SubOpReload;
      SubOpGetGlobalWide; SubOpSetGlobalWide; SubOpMakeMethodExpr; SubOpMakeChannel;
      SubOpMathMod; SubOpGetStructFieldInt; SubOpGetStructFieldUint;
      SubOpGetStructFieldFloat; SubOpGetStructFieldBool; SubOpGetStructFieldString;
      SubOpFieldAddr; SubOpSetStructFieldInt; SubOpSetStructFieldUint;
      SubOpSetStructFieldFloat; SubOpSetStructFieldBool; SubOpSetStructFieldString;
      SubOpGetStructFieldSliceInt; SubOpGetStructFieldSliceFloat;
      SubOpGetStructFieldSliceUint; SubOpGetStructFieldSliceString;
      SubOpGetStructFieldSliceBool; SubOpGetStructFieldSliceByte;
      SubOpSetStructFieldSliceInt; SubOpSetStructFieldSliceFloat;
      SubOpSetStructFieldSliceUint; SubOpSetStructFieldSliceString;
      SubOpSetStructFieldSliceBool; SubOpSetStructFieldSliceByte]
  then (extensionNone, extensionNone, true)
  else (extensionNone, extensionNone, false).

(** [words] is the extension words up to and including the one classified. *)
Definition ExtensionIntUse (owner : Instruction) (words : list Instruction)
    : ExtensionIntMask * ExtensionIntMask * bool :=
  match words, last words with
  | first :: _, Some word =>
      let op := iOp owner in
      if op =? OpDrillTier1 then tier1ExtensionIntUse owner first word words
      else if one_of op [OpGo; OpDefer] then
        ((false, iC word =? RegisterInt, false), extensionNone, true)
      else if op =? OpSliceString then
        ((negb (Z.land (iC owner) 1 =? 0), negb (Z.land (iC owner) 2 =? 0), false),
          extensionNone, true)
      else if one_of op
        [OpGetStructFieldIndexGeneral; OpSetStructFieldIndexGeneral;
        OpGetStructFieldSliceIndexScalar]
      then (if zlen words =? 1 then (extensionByteC, extensionNone, true)
            else (extensionNone, extensionNone, true))
      else if one_of op
        [OpMapIndexOk; OpMapIndexOkIntInt; OpMapIndexOkStringInt; OpMapIndexOkStringString;
        OpMapIndexOkIntString; OpMapIndexOkIntGeneral; OpMapIndexOkStringGeneral]
      then (extensionNone, extensionByteA, true)
      else if one_of op
        [OpMakeSlice; OpPackTyped; OpAllocIndirect; OpConvert; OpTypeAssert;
        OpAppendStructFast; OpBindMethod; OpCopyStructFieldGeneralT0; OpStrReplaceAll;
        OpSliceIndexStructFieldInt; OpSliceIndexStructFieldUint;
        OpSliceIndexStructFieldFloat; OpSliceIndexStructFieldBool;
        OpSliceIndexStructFieldString]
      then (extensionNone, extensionNone, true)
      else (extensionNone, extensionNone, false)
  | _, _ => (extensionNone, extensionNone, false)
  end.

(** The bank the value byte of a direct slice store names. *)
Definition directStoreSource (subOp : SubOpcode) : option RegisterKind :=
  if subOp =? SubOpSliceSetFloatDirect then Some RegisterFloat
  else if subOp =? SubOpSliceSetStringDirect then Some RegisterString
  else if subOp =? SubOpSliceSetBoolDirect then Some RegisterBool
  else if one_of subOp [SubOpSliceSetUintDirect; SubOpSliceSetByteDirect] then Some RegisterUint
  else None.

Definition ExtensionRegisterUse (owner : Instruction) (words : list Instruction)
    (kind : RegisterKind) : ExtensionIntMask * ExtensionIntMask * bool :=
  if zlen words =? 0 then (extensionNone, extensionNone, false)
  else if kind =? RegisterInt then ExtensionIntUse owner words
  else if ExtensionNamesOnlyIntRegisters owner then (extensionNone, extensionNone, true)
  else if negb (iOp owner =? OpDrillTier1) || negb (zlen words =? 1)
  then (extensionNone, extensionNone, false)
  else match directStoreSource (iA owner) with
  | Some source => ((kind =? source, false, false), extensionNone, true)
  | None => (extensionNone, extensionNone, false)
  end.
