(* ===== verification/Jumps.v ===== *)
(** * Jump targets

    [internal/engine/program/jump_targets.go], the predicates of
    [instruction_predicates.go] and [FitsJumpOffset] of [inline_refusal.go]:
    decoding where a jump lands and rewriting it in place.

    A program counter indexes a slice of four-byte words, so adding a decoded
    offset to it cannot leave the range of [int]; the subtraction in
    [SetJumpTarget] takes an arbitrary target and wraps. *)

From S2P Require Import Prelude SafeConv Register Opcode Instruction Shapes Spec JumpLayout.

Definition extension24Limit : Z := Z.shiftl 1 24.

Definition InstructionByteShift : Z := 8.

Definition FitsJumpOffset (offset : Z) : bool :=
  (MinInt16 <=? offset) && (offset <=? MaxInt16).

Definition IsReturnInstruction (instr : Instruction) : bool :=
  if negb (iOp instr =? OpDrillTier1) then false
  else if negb (iA instr =? SubOpDrillTier2) then false
  else if iB instr =? SubOpTier2Return then true
  else if iB instr =? SubOpTier2DrillTier3 then iC instr =? SubOpTier3ReturnVoid
  else false.

Definition DecodeJumpOffset (instr : Instruction) : Z :=
  let raw := Z.lor (iB instr) (wrapU 16 (Z.shiftl (iC instr) InstructionByteShift)) in
  Uint16ToInt16 raw.

Definition extensionWordAt (body : list Instruction) (pc : Z) : option Instruction :=
  match zget body pc with
  | Some word => if iOp word =? OpExt then Some word else None
  | None => None
  end.

Definition JumpTargetAt (body : list Instruction) (pc : Z) : option Z :=
  match zget body pc with
  | None => None
  | Some instr =>
      let '(layout, trailingNops) := JumpLayoutOf instr in
      match layout with
      | JumpLayoutWord => Some (pc + 1 + SignedOffset instr)
      | JumpLayoutExtension =>
          ext ← extensionWordAt body (pc + 1);
          Some (pc + WordCount layout + trailingNops + JoinOffset (iA ext) (iB ext))
      | JumpLayoutSecondExtension =>
          _ ← extensionWordAt body (pc + 1);
          ext ← extensionWordAt body (pc + 2);
          Some (pc + WordCount layout + trailingNops + JoinOffset (iA ext) (iB ext))
      | JumpLayoutExtension24 =>
          ext ← extensionWordAt body (pc + 1);
          Some (pc + WordCount layout + DecodeExtension24 ext)
      | JumpLayoutExtensionBC =>
          ext ← extensionWordAt body (pc + 1);
          Some (pc + WordCount layout + JoinOffset (iB ext) (iC ext))
      | JumpLayoutNone | JumpLayoutMultiWay => None
      end
  end.

(** The two bytes that carry the offset, when it fits. *)
Definition setWordOffset (offset : Z) : option (Z * Z) :=
  if negb (FitsJumpOffset offset) then None
  else offset16 ← MustIntToInt16 offset; Some (SplitOffset offset16).

Definition setExtension24Offset (offset : Z) : option Instruction :=
  if (offset <? 0) || (extension24Limit <=? offset) then None
  else Some (NewInstruction OpExt (wrapU 8 offset) (wrapU 8 (Z.shiftr offset WideBitShift))
               (wrapU 8 (Z.shiftr offset (2 * WideBitShift)))).

Definition setAB (word : Instruction) (bytes : Z * Z) : Instruction :=
  NewInstruction (iOp word) (fst bytes) (snd bytes) (iC word).
Definition setBC (word : Instruction) (bytes : Z * Z) : Instruction :=
  NewInstruction (iOp word) (iA word) (fst bytes) (snd bytes).

(** The instruction stream after the call, when the call returns [true]; a call
    that returns [false] has not touched it. *)
Definition SetJumpTarget (body : list Instruction) (pc target : Z) : option (list Instruction) :=
  match zget body pc with
  | None => None
  | Some instr =>
      let '(layout, trailingNops) := JumpLayoutOf instr in
      match layout with
      | JumpLayoutWord =>
          bytes ← setWordOffset (wrapS 64 (target - (pc + 1)));
          Some (zset body pc (setBC instr bytes))
      | JumpLayoutExtension =>
          ext ← extensionWordAt body (pc + 1);
          bytes ← setWordOffset (wrapS 64 (target - (pc + WordCount layout + trailingNops)));
          Some (zset body (pc + 1) (setAB ext bytes))
      | JumpLayoutSecondExtension =>
          _ ← extensionWordAt body (pc + 1);
          ext ← extensionWordAt body (pc + 2);
          bytes ← setWordOffset (wrapS 64 (target - (pc + WordCount layout + trailingNops)));
          Some (zset body (pc + 2) (setAB ext bytes))
      | JumpLayoutExtension24 =>
          _ ← extensionWordAt body (pc + 1);
          word ← setExtension24Offset (wrapS 64 (target - (pc + WordCount layout)));
          Some (zset body (pc + 1) word)
      | JumpLayoutExtensionBC =>
          ext ← extensionWordAt body (pc + 1);
          bytes ← setWordOffset (wrapS 64 (target - (pc + WordCount layout)));
          Some (zset body (pc + 1) (setBC ext bytes))
      | JumpLayoutNone | JumpLayoutMultiWay => None
      end
  end.

Definition JumpWordCount (instr : Instruction) : Z := WordCount (fst (JumpLayoutOf instr)).

Definition JumpFootprint (instr : Instruction) : Z :=
  let '(layout, trailingNops) := JumpLayoutOf instr in WordCount layout + trailingNops.

Definition JumpTargetsOf (body : list Instruction) : gset Z :=
  list_to_set (omap (JumpTargetAt body) (seqZ 0 (zlen body))).

(** ** Facts about layouts and words *)

(** An instruction stream that fits in memory: four bytes a word. *)
Definition wf_body (body : list Instruction) : Prop :=
  Forall wf_instruction body ∧ zlen body <= 2 ^ 61.

Lemma wf_body_zget body pc instr :
  wf_body body → zget body pc = Some instr → wf_instruction instr.
Proof.
  intros [H _]. unfold zget. case_if; [done|].
  rewrite Forall_lookup in H. apply H.
Qed.

Lemma wf_body_zset body pc word :
  wf_body body → wf_instruction word → wf_body (zset body pc word).
Proof.
  intros [H Hl] Hw. split; [|by rewrite length_zset].
  unfold zset. case_if; [done|]. by apply Forall_insert.
Qed.

Lemma extensionWordAt_Some body pc ext :
  extensionWordAt body pc = Some ext ↔ zget body pc = Some ext ∧ iOp ext = OpExt.
Proof.
  unfold extensionWordAt. destruct (zget body pc) as [w|] eqn:E.
  - destruct (iOp w =? OpExt) eqn:Eo; bool_hyps; naive_solver.
  - naive_solver.
Qed.

Lemma layout_of_extension word : iOp word = OpExt → JumpLayoutOf word = (JumpLayoutNone, 0).
Proof.
  intros Hop. destruct (normalise_tests word) as (_ & _ & <-).
  unfold normalise. rewrite Hop. vm_compute. reflexivity.
Qed.

(** No word-layout jump keeps its discriminator in the bytes of its offset, so
    patching the offset leaves the operation what it was. *)
Lemma word_layout_slots :
  forallb (λ slot, match fst (JumpLayoutOf (slotInstruction slot)) with
                   | JumpLayoutWord => slot <? TierSub2 * SlotsPerTier
                   | _ => true end) allSlots = true.
Proof. vm_compute. reflexivity. Qed.

Lemma word_layout_stable instr n b c :
  wf_instruction instr → JumpLayoutOf instr = (JumpLayoutWord, n) →
  JumpLayoutOf (setBC instr (b, c)) = (JumpLayoutWord, n) ∧ iOp instr ≠ OpExt.
Proof.
  intros Hwf HL. split.
  - enough (normalise (setBC instr (b, c)) = normalise instr) as Hn.
    { destruct (normalise_tests (setBC instr (b, c))) as (_ & _ & <-). rewrite Hn.
      by destruct (normalise_tests instr) as (_ & _ & ->). }
    pose proof (proj1 (forallb_forall _ _) word_layout_slots (FlatIndexFor instr)) as Hs.
    destruct (normalise_tests instr) as (_ & _ & HN).
    rewrite (normalise_slot instr Hwf) in HN.
    destruct (normalise_tests (slotInstruction (FlatIndexFor instr))) as (_ & _ & HN').
    rewrite HN' in HN. cbv beta in Hs. rewrite HN, HL in Hs. cbn [fst] in Hs.
    assert (FlatIndexFor instr < TierSub2 * SlotsPerTier) as Hlt.
    { apply Z.ltb_lt, Hs, list_elem_of_In, elem_of_seqZ.
      pose proof (flat_index_range instr Hwf). lia. }
    clear -Hlt Hwf. destruct instr as [op a b' c'], Hwf as (_ & _ & Hb & Hc).
    unfold FlatIndexFor, normalise, setBC in *; cbn [iOp iA iB iC fst snd] in *.
    destruct (op =? OpDrillTier1); cbn [negb] in *; [|done].
    destruct (a =? SubOpDrillTier2); cbn [negb] in *; [|done].
    exfalso. destruct (b' =? SubOpTier2DrillTier3); cbn [negb] in *.
    all: unfold TierSub2, TierSub3, SlotsPerTier in *; word.
  - intros Hop. by rewrite layout_of_extension in HL.
Qed.

Lemma FitsJumpOffset_spec offset : FitsJumpOffset offset = true ↔ isS 16 offset.
Proof.
  unfold FitsJumpOffset. rewrite andb_true_iff, !Z.leb_le. word.
Qed.

Lemma setWordOffset_Some offset bytes :
  setWordOffset offset = Some bytes ↔ isS 16 offset ∧ bytes = SplitOffset offset.
Proof.
  unfold setWordOffset. destruct (FitsJumpOffset offset) eqn:E; cbn [negb].
  - apply FitsJumpOffset_spec in E. rewrite MustIntToInt16_fits by done. cbn. naive_solver.
  - split; [done|]. intros [H%FitsJumpOffset_spec _]. congruence.
Qed.

Lemma setExtension24Offset_Some offset word :
  setExtension24Offset offset = Some word →
  isU 24 offset ∧ wf_instruction word ∧ iOp word = OpExt ∧ DecodeExtension24 word = offset.
Proof.
  unfold setExtension24Offset, extension24Limit. case_if; [done|]. intros [= <-].
  change (Z.shiftl 1 24) with 16777216 in *. change (2 * WideBitShift) with 16.
  change WideBitShift with 8.
  assert (Hwf : wf_instruction (NewInstruction OpExt (wrapU 8 offset)
    (wrapU 8 (Z.shiftr offset 8)) (wrapU 8 (Z.shiftr offset 16)))).
  { split; [by vm_compute|]. cbn [iA iB iC]. split_and!; apply wrapU_range; lia. }
  bool_hyps. split; [word|]. split; [done|]. split; [done|].
  rewrite DecodeExtension24_spec by done. cbn [iA iB iC].
  rewrite !Z.shiftr_div_pow2 by lia. word.
Qed.

Lemma setExtension24Offset_None offset :
  setExtension24Offset offset = None ↔ ¬ isU 24 offset.
Proof.
  unfold setExtension24Offset, extension24Limit.
  change (Z.shiftl 1 24) with 16777216.
  case_if; bool_hyps; (split; [|done || word]); [intros _|done]; word.
Qed.

(** Only the two padded fusions trail [OpNop] words. *)
Lemma layout_nops instr layout n :
  JumpLayoutOf instr = (layout, n) →
  0 <= n <= 5 ∧ (n = 0 ∨ layout = JumpLayoutExtension ∨ layout = JumpLayoutSecondExtension).
Proof.
  unfold JumpLayoutOf, RangeCheckUintFusionNopCount, EqUintConstJumpFalseNopCount.
  destruct (SpecForInstruction instr) as [row|]; [|intros [= <- <-]; lia].
  repeat case_if; intros [= <- <-]; (split; [lia|tauto]).
Qed.

(** The offsets the layout of a jump can carry. *)
Definition offset_fits (instr : Instruction) (offset : Z) : Prop :=
  match fst (JumpLayoutOf instr) with
  | JumpLayoutExtension24 => isU 24 offset
  | _ => isS 16 offset
  end.

Lemma extensionWordAt_zset body k w w' j :
  zget body k = Some w → (iOp w =? OpExt) = (iOp w' =? OpExt) →
  extensionWordAt (zset body k w') j =
    (if (k =? j) && (iOp w' =? OpExt) then Some w' else extensionWordAt body j).
Proof.
  intros Hk Hop. unfold extensionWordAt. rewrite zget_zset.
  pose proof (zget_Some_range _ _ _ Hk). destruct (k =? j) eqn:E; cbn [andb]; bool_hyps; [|done].
  subst. rewrite bool_decide_true by done. rewrite Hk, Hop. by destruct (iOp w' =? OpExt).
Qed.

(** Rewriting one extension word leaves the jumps that do not read it alone. *)
Lemma JumpTargetAt_frame_extension body k w w' pc :
  extensionWordAt body k = Some w → iOp w' = OpExt →
  (pc + 1 = k → is_Some (extensionWordAt body pc)) →
  (pc + 2 = k → extensionWordAt body (pc + 1) = None) →
  JumpTargetAt (zset body k w') pc = JumpTargetAt body pc.
Proof.
  intros Hk Hop H1 H2. apply extensionWordAt_Some in Hk as [Hk Hw].
  assert (Hext : ∀ j, extensionWordAt (zset body k w') j =
    if k =? j then Some w' else extensionWordAt body j).
  { intros j. rewrite (extensionWordAt_zset _ _ w) by (done || by rewrite Hop, Hw).
    by rewrite Hop, Z.eqb_refl, andb_true_r. }
  unfold JumpTargetAt. rewrite zget_zset. pose proof (zget_Some_range _ _ _ Hk).
  destruct (k =? pc) eqn:Ek; bool_hyps.
  { subst. rewrite bool_decide_true by done. by rewrite Hk, !layout_of_extension. }
  destruct (zget body pc) as [instr|] eqn:Epc; [|done].
  assert (Hl : pc + 1 = k → JumpLayoutOf instr = (JumpLayoutNone, 0)).
  { intros Hpk. destruct (H1 Hpk) as [e [He Hoe]%extensionWordAt_Some].
    apply layout_of_extension. congruence. }
  destruct (JumpLayoutOf instr) as [[] n] eqn:El; try done; rewrite !Hext.
  all: destruct (k =? pc + 1) eqn:E1; bool_hyps; [by (discriminate Hl; lia)|try done].
  destruct (k =? pc + 2) eqn:E2; bool_hyps; [|done].
  by rewrite H2 by lia.
Qed.

(** The same for the word of a one-word jump. *)
Lemma JumpTargetAt_frame_word body k w w' pc :
  zget body k = Some w → iOp w' = iOp w → iOp w ≠ OpExt → pc ≠ k →
  JumpTargetAt (zset body k w') pc = JumpTargetAt body pc.
Proof.
  intros Hk Hop Hw Hpc. apply Z.eqb_neq in Hw.
  assert (Hext : ∀ j, extensionWordAt (zset body k w') j = extensionWordAt body j).
  { intros j. rewrite (extensionWordAt_zset _ _ w) by (done || by rewrite Hop).
    by rewrite Hop, Hw, andb_false_r. }
  unfold JumpTargetAt. rewrite zget_zset_ne by done.
  destruct (zget body pc) as [instr|]; [|done].
  destruct (JumpLayoutOf instr) as [[] n]; by rewrite ?Hext.
Qed.

(** What a successful rewrite has found and done. *)
Inductive jump_rewritten (body : list Instruction) (pc target : Z) : list Instruction → Prop :=
  | rewritten_word instr offset :
      zget body pc = Some instr → JumpLayoutOf instr = (JumpLayoutWord, 0) →
      isS 16 offset → target = pc + 1 + offset →
      jump_rewritten body pc target (zset body pc (setBC instr (SplitOffset offset)))
  | rewritten_extension instr layout n k ext word :
      zget body pc = Some instr → JumpLayoutOf instr = (layout, n) →
      extensionWordAt body k = Some ext →
      k = (if decide (layout = JumpLayoutSecondExtension) then pc + 2 else pc + 1) →
      layout ∈ [JumpLayoutExtension; JumpLayoutSecondExtension; JumpLayoutExtension24;
                JumpLayoutExtensionBC] →
      (layout = JumpLayoutSecondExtension → is_Some (extensionWordAt body (pc + 1))) →
      iOp word = OpExt → wf_instruction word →
      (∃ offset, target = pc + WordCount layout + n + offset ∧
        match layout with
        | JumpLayoutExtension24 => DecodeExtension24 word = offset
        | JumpLayoutExtensionBC => JoinOffset (iB word) (iC word) = offset
        | _ => JoinOffset (iA word) (iB word) = offset
        end) →
      jump_rewritten body pc target (zset body k word).

Lemma pc_bound body pc instr : wf_body body → zget body pc = Some instr → 0 <= pc < 2 ^ 61.
Proof. intros [_ Hl] H. apply zget_Some_range in H. lia. Qed.

(** The wrapped difference is the difference whenever it fits an encoding. *)
Lemma displacement_exact target base :
  isS 64 target → 0 <= base < 2 ^ 62 →
  (isS 16 (wrapS 64 (target - base)) ∨ isU 24 (wrapS 64 (target - base))
   ∨ isS 16 (target - base) ∨ isU 24 (target - base)) →
  wrapS 64 (target - base) = target - base.
Proof. intros. word. Qed.

Lemma split_word_ok word offset bytes :
  wf_instruction word → isS 16 offset → bytes = SplitOffset offset →
  wf_instruction (setAB word bytes) ∧ wf_instruction (setBC word bytes) ∧
  JoinOffset (fst bytes) (snd bytes) = offset.
Proof.
  intros (Ho & Ha & Hb & Hc) Hs ->. destruct (SplitOffset offset) as [lo hi] eqn:E.
  destruct (SplitOffset_bytes _ _ _ E). split_and!; try done.
  all: try (split_and!; cbn; done). by apply JoinOffset_SplitOffset.
Qed.

Lemma WordCount_range layout : 1 <= WordCount layout <= 3.
Proof. destruct layout; vm_compute; split; congruence. Qed.

Lemma SetJumpTarget_inv body pc target body' :
  wf_body body → isS 64 target →
  SetJumpTarget body pc target = Some body' → jump_rewritten body pc target body'.
Proof.
  intros Hwf Ht. unfold SetJumpTarget.
  destruct (zget body pc) as [instr|] eqn:Epc; [|done].
  destruct (JumpLayoutOf instr) as [layout n] eqn:El.
  pose proof (pc_bound _ _ _ Hwf Epc) as Hpc.
  destruct (layout_nops _ _ _ El) as [Hn0 Hn]. pose proof (WordCount_range layout) as Hwc.
  assert (Hext : ∀ k e, extensionWordAt body k = Some e → wf_instruction e ∧ iOp e = OpExt).
  { intros k e [? ?]%extensionWordAt_Some. eauto using wf_body_zget. }
  assert (Hset : ∀ base bytes, 0 <= base < 2 ^ 62 →
    setWordOffset (wrapS 64 (target - base)) = Some bytes →
    isS 16 (target - base) ∧ bytes = SplitOffset (target - base)).
  { intros base bytes Hb [Hf ->]%setWordOffset_Some.
    rewrite (displacement_exact target base) in * by tauto. done. }
  destruct layout; try done.
  - destruct (setWordOffset _) as [bytes|] eqn:Es; intros [= <-].
    assert (n = 0) as -> by naive_solver. apply Hset in Es as [Hf ->]; [|norm_pow; lia].
    eapply rewritten_word; [done|done|done|lia].
  - destruct (extensionWordAt body (pc + 1)) as [ext|] eqn:E1; [|done].
    cbn [mbind option_bind].
    destruct (setWordOffset _) as [bytes|] eqn:Es; intros [= <-].
    apply Hset in Es as [Hf ->]; [|norm_pow; lia]. destruct (Hext _ _ E1) as [Hwe Hoe].
    destruct (split_word_ok _ _ _ Hwe Hf eq_refl) as (HA & HB & HJ).
    eapply rewritten_extension; try done; [set_solver|]. eexists; split; [|exact HJ]. lia.
  - destruct (extensionWordAt body (pc + 1)) as [ext1|] eqn:E1; [|done].
    cbn [mbind option_bind].
    destruct (extensionWordAt body (pc + 2)) as [ext|] eqn:E2; [|done].
    cbn [mbind option_bind].
    destruct (setWordOffset _) as [bytes|] eqn:Es; intros [= <-].
    apply Hset in Es as [Hf ->]; [|norm_pow; lia]. destruct (Hext _ _ E2) as [Hwe Hoe].
    destruct (split_word_ok _ _ _ Hwe Hf eq_refl) as (HA & HB & HJ).
    eapply rewritten_extension; try done; [set_solver|]. eexists; split; [|exact HJ]. lia.
  - destruct (extensionWordAt body (pc + 1)) as [ext1|] eqn:E1; [|done].
    cbn [mbind option_bind].
    destruct (setExtension24Offset _) as [word|] eqn:Es; intros [= <-].
    apply setExtension24Offset_Some in Es as (Hf & Hw & Ho & Hd).
    rewrite displacement_exact in Hd by (tauto || (norm_pow; lia)).
    eapply rewritten_extension; try done; [set_solver|]. eexists; split; [|exact Hd].
    assert (n = 0) as -> by naive_solver. lia.
  - destruct (extensionWordAt body (pc + 1)) as [ext|] eqn:E1; [|done].
    cbn [mbind option_bind].
    destruct (setWordOffset _) as [bytes|] eqn:Es; intros [= <-].
    apply Hset in Es as [Hf ->]; [|norm_pow; lia]. destruct (Hext _ _ E1) as [Hwe Hoe].
    destruct (split_word_ok _ _ _ Hwe Hf eq_refl) as (HA & HB & HJ).
    eapply rewritten_extension; try done; [set_solver|]. eexists; split; [|exact HJ].
    assert (n = 0) as -> by naive_solver. lia.
Qed.

Lemma extensionWordAt_set_eq body k ext word :
  extensionWordAt body k = Some ext → iOp word = OpExt →
  extensionWordAt (zset body k word) k = Some word.
Proof.
  intros [H He]%extensionWordAt_Some Ho.
  rewrite (extensionWordAt_zset _ _ ext) by (done || by rewrite Ho, He).
  by rewrite Ho, !Z.eqb_refl.
Qed.

Lemma extensionWordAt_set_ne body k j ext word :
  extensionWordAt body k = Some ext → iOp word = OpExt → k ≠ j →
  extensionWordAt (zset body k word) j = extensionWordAt body j.
Proof.
  intros [H He]%extensionWordAt_Some Ho Hne%Z.eqb_neq.
  rewrite (extensionWordAt_zset _ _ ext) by (done || by rewrite Ho, He). by rewrite Hne.
Qed.

(** The rewritten jump lands on its target. *)
Lemma jump_rewritten_target body pc target body' :
  wf_body body → jump_rewritten body pc target body' → JumpTargetAt body' pc = Some target.
Proof.
  intros Hwf [instr offset Epc El Hf Ht
    | instr layout n k ext word Epc El Hext Hk Hl H2 Ho Hw (offset & Ht & Hd)];
    unfold JumpTargetAt.
  - rewrite zget_zset_eq by eauto using zget_Some_range.
    pose proof (wf_body_zget _ _ _ Hwf Epc) as Hwi.
    destruct (SplitOffset offset) as [lo hi] eqn:Es.
    destruct (word_layout_stable instr 0 lo hi Hwi El) as [-> _].
    unfold SignedOffset, setBC; cbn [iB iC fst snd].
    rewrite (JoinOffset_SplitOffset offset lo hi) by done. by rewrite Ht.
  - assert (k ≠ pc) by (case_decide; lia).
    rewrite zget_zset_ne, Epc, El by done.
    destruct layout; try (exfalso; set_solver); subst k; cbn [decide] in *;
      repeat (case_decide; try done).
    all: try (destruct (H2 eq_refl) as [e1 He1];
              rewrite (extensionWordAt_set_ne _ _ (pc + 1) _ _ Hext Ho) by lia; rewrite He1).
    all: rewrite (extensionWordAt_set_eq _ _ _ _ Hext Ho); cbn [mbind option_bind].
    all: rewrite Hd; f_equal.
    all: destruct (layout_nops _ _ _ El) as [_ [->|[[=]|[=]]]] || idtac; lia.
Qed.

(** Every other jump lands where it did. *)
Lemma jump_rewritten_frame body pc target body' pc' :
  wf_body body → jump_rewritten body pc target body' → pc' ≠ pc →
  JumpTargetAt body' pc' = JumpTargetAt body pc'.
Proof.
  intros Hwf [instr offset Epc El Hf Ht
    | instr layout n k ext word Epc El Hext Hk Hl H2 Ho Hw _] Hne.
  - destruct (word_layout_stable instr 0 0 0 (wf_body_zget _ _ _ Hwf Epc) El) as [_ Hop].
    by eapply JumpTargetAt_frame_word.
  - assert (Hnone : extensionWordAt body pc = None).
    { unfold extensionWordAt. rewrite Epc. case_if; [|done]. bool_hyps.
      rewrite layout_of_extension in El by done. injection El as <- _.
      exfalso; set_solver. }
    eapply JumpTargetAt_frame_extension; [done|done|..].
    + intros Hpc'. case_decide; [|lia]. assert (pc' = pc + 1) as -> by lia. by apply H2.
    + intros Hpc'. case_decide; [lia|]. by assert (pc' + 1 = pc) as -> by lia.
Qed.

Lemma map_zset_id {B} (f : Instruction → B) body k w w' :
  zget body k = Some w → f w' = f w → map f (zset body k w') = map f body.
Proof.
  unfold zget, zset. case_if; [done|]. intros Hk Hf.
  change (f <$> <[Z.to_nat k:=w']> body = f <$> body).
  rewrite list_fmap_insert, Hf. apply list_insert_id. by rewrite list_lookup_fmap, Hk.
Qed.

Lemma jump_rewritten_words body pc target body' :
  wf_body body → jump_rewritten body pc target body' →
  wf_body body' ∧ map iOp body' = map iOp body.
Proof.
  intros Hwf [instr offset Epc El Hf Ht
    | instr layout n k ext word Epc El Hext Hk Hl H2 Ho Hw _].
  - destruct (split_word_ok instr offset _ (wf_body_zget _ _ _ Hwf Epc) Hf eq_refl)
      as (_ & HB & _).
    split; [by apply wf_body_zset|by eapply map_zset_id].
  - split; [by apply wf_body_zset|]. apply extensionWordAt_Some in Hext as [? ?].
    eapply map_zset_id; [done|congruence].
Qed.

(** C19: rewriting a jump in place makes it land on the requested target and changes
    no other jump: every other program counter decodes to the target it decoded
    to before (or to none, as before), the opcode of every word is unchanged and
    the stream stays well formed.  This holds for each of the five encodings
    and without any assumption on how the words are arranged. *)
Theorem set_jump_target_lands body pc target body' :
  wf_body body → isS 64 target → SetJumpTarget body pc target = Some body' →
  JumpTargetAt body' pc = Some target ∧
  (∀ pc', pc' ≠ pc → JumpTargetAt body' pc' = JumpTargetAt body pc') ∧
  map iOp body' = map iOp body ∧ wf_body body'.
Proof.
  intros Hwf Ht HS. pose proof (SetJumpTarget_inv _ _ _ _ Hwf Ht HS) as HR.
  destruct (jump_rewritten_words _ _ _ _ Hwf HR).
  split_and!; eauto using jump_rewritten_target, jump_rewritten_frame.
Qed.

Theorem set_jump_target_lands_witness :
  let body := [NewInstruction OpAddIntJump 1 2 3; NewInstruction OpExt 9 9 4;
               NewTier2Instruction SubOpTier2Return 0] in
  let body' := [NewInstruction OpAddIntJump 1 2 3; NewInstruction OpExt 255 255 4;
                NewTier2Instruction SubOpTier2Return 0] in
  SetJumpTarget body 0 1 = Some body' ∧ JumpTargetAt body' 0 = Some 1.
Proof.
  intros body body'. assert (H : SetJumpTarget body 0 1 = Some body') by (vm_compute; reflexivity).
  split; [exact H|].
  refine (proj1 (set_jump_target_lands body 0 1 body' _ _ H)).
  - split; [eapply bool_decide_unpack; vm_compute; exact I|vm_compute; congruence].
  - vm_compute; split; congruence.
Defined.

Lemma set_offset_iff target base :
  isS 64 target → 0 <= base < 2 ^ 62 →
  (is_Some (setWordOffset (wrapS 64 (target - base))) ↔ isS 16 (target - base)) ∧
  (is_Some (setExtension24Offset (wrapS 64 (target - base))) ↔ isU 24 (target - base)).
Proof.
  intros Ht Hb. pose proof (displacement_exact target base Ht Hb) as Hd. split.
  - split.
    + intros [bytes [Hf _]%setWordOffset_Some]. rewrite Hd in Hf by tauto. done.
    + intros Hf. rewrite Hd by tauto. eexists. by apply setWordOffset_Some.
  - split.
    + intros [word (Hf & _)%setExtension24Offset_Some]. rewrite Hd in Hf by tauto. done.
    + intros Hf. rewrite Hd by tauto. apply not_eq_None_Some.
      rewrite setExtension24Offset_None. tauto.
Qed.

(** Splitting a chain of lookups into its first step and the rest. *)
Lemma is_Some_bind {A B C} (o : option A) (f : A → option B) (g : A → option C) (P : Prop) :
  (∀ x, o = Some x → is_Some (f x) ↔ is_Some (g x) ∧ P) →
  is_Some (o ≫= f) ↔ is_Some (o ≫= g) ∧ P.
Proof.
  intros H. destruct o as [x|]; cbn; [by apply H|].
  split; [by intros [? ?]|by intros [[? ?] _]].
Qed.

Lemma is_Some_bind_Some {A B C} (o : option A) (f : A → B) (c : C) (P : Prop) :
  (is_Some o ↔ P) → is_Some (o ≫= λ x, Some (f x)) ↔ is_Some (Some c) ∧ P.
Proof.
  intros <-. destruct o; cbn; split; try naive_solver; by intros [? ?].
Qed.

(** a jump can be rewritten exactly when it can be decoded and the new
    displacement fits the field its layout has: signed 16 bits, or for the
    range-next steps an unsigned 24-bit forward distance.  No other call
    succeeds, so a truncated offset is never stored. *)
Theorem set_jump_target_succeeds_iff body pc target :
  wf_body body → isS 64 target →
  is_Some (SetJumpTarget body pc target) ↔
    ∃ instr, zget body pc = Some instr ∧ is_Some (JumpTargetAt body pc) ∧
      offset_fits instr (target - (pc + JumpFootprint instr)).
Proof.
  intros Hwf Ht.
  destruct (zget body pc) as [instr|] eqn:Epc.
  2: { unfold SetJumpTarget. rewrite Epc. split; [by intros [? ?]|by intros (? & ? & _)]. }
  transitivity (is_Some (JumpTargetAt body pc) ∧
                offset_fits instr (target - (pc + JumpFootprint instr))); [|naive_solver].
  unfold SetJumpTarget, JumpTargetAt, offset_fits, JumpFootprint. rewrite Epc.
  destruct (JumpLayoutOf instr) as [layout n] eqn:El; cbn [fst].
  pose proof (pc_bound _ _ _ Hwf Epc) as Hpc.
  destruct (layout_nops _ _ _ El) as [Hn0 Hn]. pose proof (WordCount_range layout) as Hwc.
  assert (Hb : 0 <= pc + WordCount layout + n < 2 ^ 62) by (norm_pow; lia).
  destruct (set_offset_iff target _ Ht Hb) as [H16 H24]. rewrite !Z.add_assoc in *.
  destruct layout; try (split; [by intros [? ?]|by intros [[? ?] _]]).
  1, 4, 5: assert (n = 0) as -> by naive_solver; rewrite Z.add_0_r in *.
  all: repeat (apply is_Some_bind; intros ? _); by apply is_Some_bind_Some.
Qed.

Theorem set_jump_target_succeeds_iff_witness :
  let body := [NewInstruction OpJumpIfTrue 0 0 0] in
  (is_Some (SetJumpTarget body 0 32768) ↔
    ∃ instr, zget body 0 = Some instr ∧ is_Some (JumpTargetAt body 0) ∧
      offset_fits instr (32768 - (0 + JumpFootprint instr))) ∧
  is_Some (SetJumpTarget body 0 32768) ∧ SetJumpTarget body 0 32769 = None.
Proof.
  intros body. split.
  - apply (set_jump_target_succeeds_iff body 0 32768).
    + split; [eapply bool_decide_unpack; vm_compute; exact I|vm_compute; congruence].
    + vm_compute; split; congruence.
  - split; vm_compute; eauto.
Defined.

(** the two decoders of a word-layout offset, [DecodeJumpOffset] of the
    optimiser and [SignedOffset] of the handlers, are the same function, and
    a return is exactly the two drilled return encodings, never a jump. *)
Theorem decoders_agree instr :
  DecodeJumpOffset instr = SignedOffset instr ∧
  (IsReturnInstruction instr = true ↔
    InstrIsTier2SubOp instr SubOpTier2Return = true ∨
    InstrIsTier3SubOp instr SubOpTier3ReturnVoid = true) ∧
  (IsReturnInstruction instr = true → fst (JumpLayoutOf instr) = JumpLayoutNone).
Proof.
  split; [done|].
  assert (Hiff : IsReturnInstruction instr = true ↔
    InstrIsTier2SubOp instr SubOpTier2Return = true ∨
    InstrIsTier3SubOp instr SubOpTier3ReturnVoid = true).
  { unfold IsReturnInstruction, InstrIsTier2SubOp, InstrIsTier3SubOp.
    destruct (iOp instr =? OpDrillTier1); cbn [negb andb]; [|tauto].
    destruct (iA instr =? SubOpDrillTier2); cbn [negb andb]; [|tauto].
    destruct (iB instr =? SubOpTier2Return); [tauto|].
    destruct (iB instr =? SubOpTier2DrillTier3); cbn [andb]; intuition congruence. }
  split; [exact Hiff|]. intros Hr. destruct (normalise_tests instr) as (_ & _ & <-).
  apply Hiff in Hr as [Hr|Hr]; unfold InstrIsTier2SubOp, InstrIsTier3SubOp in Hr; bool_hyps;
    unfold normalise; repeat match goal with H : _ instr = _ |- _ => rewrite H end;
    vm_compute; reflexivity.
Qed.
