(* ===== verification/Function.v ===== *)
(** * Compiled functions

    The part of [CompiledFunction], [CallSite] and [VarLocation]
    ([internal/engine/program/function.go], [var_location.go]) that the builder,
    the verifier and the call-graph analyses read and write, and the
    accessors of [function.go] over it.

    Go's [*CompiledFunction] is a reference: functions are shared between the
    tables of the functions that nest them.  A reference is a number into a
    store, and [None] is [nil]. *)

From S2P Require Import Prelude SafeConv Register Opcode Instruction.

Inductive InlineRefusal :=
  | InlineRefusalUnknown
  | InlineEligible
  | InlineRefusalUpvalues
  | InlineRefusalDefer
  | InlineRefusalGo
  | InlineRefusalRecursion
  | InlineRefusalMethodCall
  | InlineRefusalNativeCall
  | InlineRefusalTailCall
  | InlineRefusalGenericPlaceholder
  | InlineRefusalClosureOps
  | InlineRefusalChannelOps
  | InlineRefusalVariadic
  | InlineRefusalNoBody
  | InlineRefusalSiteIndirect
  | InlineRefusalOversize
  | InlineRefusalCapWatermark
  | InlineRefusalCallerCap
  | InlineRefusalAlreadyUnrolled
  | InlineRefusalSelfHairy
  | InlineRefusalSelfInLoop
  | InlineRefusalUnrollDisabled
  | InlineRefusalSpecialisedMethod
  | InlineRefusalRecover.

#[export] Instance InlineRefusal_eq_dec : EqDecision InlineRefusal.
Proof. solve_decision. Defined.

(** Where a value lives: its bank and register, or an upvalue or spill slot. *)
Record VarLocation := NewVarLocation {
  UpvalueIndex : Z;
  SpillSlot : Z;
  vlRegister : Z;
  vlKind : RegisterKind;
  IsUpvalue : bool;
  IsIndirect : bool;
  IsCaptured : bool;
  IsSpilled : bool;
}.

Record CallSite := NewCallSite {
  Arguments : list VarLocation;
  Returns : list VarLocation;
  FunctionIndex : Z;
  ClosureRegister : Z;
  NativeRegister : Z;
  IsClosure : bool;
  IsNative : bool;
  IsMethod : bool;
}.

(** A site that calls a function of the table, with no arguments. *)
Definition directCall (index : Z) : CallSite :=
  NewCallSite [] [] index 0 0 false false false.

Definition IsInlineableShape (site : CallSite) : bool :=
  if negb (zlen (Arguments site) =? 2) || negb (zlen (Returns site) =? 1) then false
  else match Arguments site, Returns site with
  | argument :: _, result :: _ =>
      if negb (vlKind argument =? RegisterGeneral) then false
      else if negb (vlKind result =? RegisterUint) then false
      else true
  | _, _ => false
  end.

Notation FunctionRef := (option nat) (only parsing).

Record CompiledFunction := NewCompiledFunction {
  Name : string;
  Body : list Instruction;
  Functions : list FunctionRef;
  StringConstants : list string;
  BoolConstants : list bool;
  UintConstants : list Z;
  IntConstants : list Z;
  StringConstIndex : option (gmap string Z);
  UintConstIndex : option (gmap Z Z);
  IntConstIndex : option (gmap Z Z);
  CallSites : list CallSite;
  ParameterKinds : list RegisterKind;
  ParameterRegisters : list Z;
  ResultKinds : list RegisterKind;
  NumRegisters : list Z;
  methodTable : option (gmap string Z);
  maxConstantPoolSize : Z;
  maxSpecialisations : Z;
  maxMethods : Z;
  EmittedInlineBlocker : InlineRefusal;
  JumpRangeExceeded : bool;
}.

Definition NewNamedFunction (name : string) : CompiledFunction :=
  NewCompiledFunction name
    [] [] [] []
    [] [] None None
    None [] [] []
    [] (replicate (Z.to_nat NumRegisterKinds) 0) None 0
    0 0 InlineRefusalUnknown false.

(** ** Field updates *)

Definition setBody (f : CompiledFunction) (v_Body : list Instruction) : CompiledFunction :=
  NewCompiledFunction
    (f.(Name)) v_Body (f.(Functions)) (f.(StringConstants))
    (f.(BoolConstants)) (f.(UintConstants)) (f.(IntConstants)) (f.(StringConstIndex))
    (f.(UintConstIndex)) (f.(IntConstIndex)) (f.(CallSites)) (f.(ParameterKinds))
    (f.(ParameterRegisters)) (f.(ResultKinds)) (f.(NumRegisters)) (f.(methodTable))
    (f.(maxConstantPoolSize)) (f.(maxSpecialisations)) (f.(maxMethods)) (f.(EmittedInlineBlocker))
    (f.(JumpRangeExceeded)).

Definition setFunctions (f : CompiledFunction) (v_Functions : list FunctionRef) : CompiledFunction :=
  NewCompiledFunction
    (f.(Name)) (f.(Body)) v_Functions (f.(StringConstants))
    (f.(BoolConstants)) (f.(UintConstants)) (f.(IntConstants)) (f.(StringConstIndex))
    (f.(UintConstIndex)) (f.(IntConstIndex)) (f.(CallSites)) (f.(ParameterKinds))
    (f.(ParameterRegisters)) (f.(ResultKinds)) (f.(NumRegisters)) (f.(methodTable))
    (f.(maxConstantPoolSize)) (f.(maxSpecialisations)) (f.(maxMethods)) (f.(EmittedInlineBlocker))
    (f.(JumpRangeExceeded)).

Definition setStringPool (f : CompiledFunction) (v_StringConstants : list string) (v_StringConstIndex : option (gmap string Z)) : CompiledFunction :=
  NewCompiledFunction
    (f.(Name)) (f.(Body)) (f.(Functions)) v_StringConstants
    (f.(BoolConstants)) (f.(UintConstants)) (f.(IntConstants)) v_StringConstIndex
    (f.(UintConstIndex)) (f.(IntConstIndex)) (f.(CallSites)) (f.(ParameterKinds))
    (f.(ParameterRegisters)) (f.(ResultKinds)) (f.(NumRegisters)) (f.(methodTable))
    (f.(maxConstantPoolSize)) (f.(maxSpecialisations)) (f.(maxMethods)) (f.(EmittedInlineBlocker))
    (f.(JumpRangeExceeded)).

Definition setUintPool (f : CompiledFunction) (v_UintConstants : list Z) (v_UintConstIndex : option (gmap Z Z)) : CompiledFunction :=
  NewCompiledFunction
    (f.(Name)) (f.(Body)) (f.(Functions)) (f.(StringConstants))
    (f.(BoolConstants)) v_UintConstants (f.(IntConstants)) (f.(StringConstIndex))
    v_UintConstIndex (f.(IntConstIndex)) (f.(CallSites)) (f.(ParameterKinds))
    (f.(ParameterRegisters)) (f.(ResultKinds)) (f.(NumRegisters)) (f.(methodTable))
    (f.(maxConstantPoolSize)) (f.(maxSpecialisations)) (f.(maxMethods)) (f.(EmittedInlineBlocker))
    (f.(JumpRangeExceeded)).

Definition setIntPool (f : CompiledFunction) (v_IntConstants : list Z) (v_IntConstIndex : option (gmap Z Z)) : CompiledFunction :=
  NewCompiledFunction
    (f.(Name)) (f.(Body)) (f.(Functions)) (f.(StringConstants))
    (f.(BoolConstants)) (f.(UintConstants)) v_IntConstants (f.(StringConstIndex))
    (f.(UintConstIndex)) v_IntConstIndex (f.(CallSites)) (f.(ParameterKinds))
    (f.(ParameterRegisters)) (f.(ResultKinds)) (f.(NumRegisters)) (f.(methodTable))
    (f.(maxConstantPoolSize)) (f.(maxSpecialisations)) (f.(maxMethods)) (f.(EmittedInlineBlocker))
    (f.(JumpRangeExceeded)).

Definition setBoolConstants (f : CompiledFunction) (v_BoolConstants : list bool) : CompiledFunction :=
  NewCompiledFunction
    (f.(Name)) (f.(Body)) (f.(Functions)) (f.(StringConstants))
    v_BoolConstants (f.(UintConstants)) (f.(IntConstants)) (f.(StringConstIndex))
    (f.(UintConstIndex)) (f.(IntConstIndex)) (f.(CallSites)) (f.(ParameterKinds))
    (f.(ParameterRegisters)) (f.(ResultKinds)) (f.(NumRegisters)) (f.(methodTable))
    (f.(maxConstantPoolSize)) (f.(maxSpecialisations)) (f.(maxMethods)) (f.(EmittedInlineBlocker))
    (f.(JumpRangeExceeded)).

Definition setCallSites (f : CompiledFunction) (v_CallSites : list CallSite) : CompiledFunction :=
  NewCompiledFunction
    (f.(Name)) (f.(Body)) (f.(Functions)) (f.(StringConstants))
    (f.(BoolConstants)) (f.(UintConstants)) (f.(IntConstants)) (f.(StringConstIndex))
    (f.(UintConstIndex)) (f.(IntConstIndex)) v_CallSites (f.(ParameterKinds))
    (f.(ParameterRegisters)) (f.(ResultKinds)) (f.(NumRegisters)) (f.(methodTable))
    (f.(maxConstantPoolSize)) (f.(maxSpecialisations)) (f.(maxMethods)) (f.(EmittedInlineBlocker))
    (f.(JumpRangeExceeded)).

Definition setMethodTable (f : CompiledFunction) (v_methodTable : option (gmap string Z)) : CompiledFunction :=
  NewCompiledFunction
    (f.(Name)) (f.(Body)) (f.(Functions)) (f.(StringConstants))
    (f.(BoolConstants)) (f.(UintConstants)) (f.(IntConstants)) (f.(StringConstIndex))
    (f.(UintConstIndex)) (f.(IntConstIndex)) (f.(CallSites)) (f.(ParameterKinds))
    (f.(ParameterRegisters)) (f.(ResultKinds)) (f.(NumRegisters)) v_methodTable
    (f.(maxConstantPoolSize)) (f.(maxSpecialisations)) (f.(maxMethods)) (f.(EmittedInlineBlocker))
    (f.(JumpRangeExceeded)).

Definition setLimits (f : CompiledFunction) (v_maxConstantPoolSize : Z) (v_maxSpecialisations : Z) (v_maxMethods : Z) : CompiledFunction :=
  NewCompiledFunction
    (f.(Name)) (f.(Body)) (f.(Functions)) (f.(StringConstants))
    (f.(BoolConstants)) (f.(UintConstants)) (f.(IntConstants)) (f.(StringConstIndex))
    (f.(UintConstIndex)) (f.(IntConstIndex)) (f.(CallSites)) (f.(ParameterKinds))
    (f.(ParameterRegisters)) (f.(ResultKinds)) (f.(NumRegisters)) (f.(methodTable))
    v_maxConstantPoolSize v_maxSpecialisations v_maxMethods (f.(EmittedInlineBlocker))
    (f.(JumpRangeExceeded)).

Definition setBlocker (f : CompiledFunction) (v_EmittedInlineBlocker : InlineRefusal) : CompiledFunction :=
  NewCompiledFunction
    (f.(Name)) (f.(Body)) (f.(Functions)) (f.(StringConstants))
    (f.(BoolConstants)) (f.(UintConstants)) (f.(IntConstants)) (f.(StringConstIndex))
    (f.(UintConstIndex)) (f.(IntConstIndex)) (f.(CallSites)) (f.(ParameterKinds))
    (f.(ParameterRegisters)) (f.(ResultKinds)) (f.(NumRegisters)) (f.(methodTable))
    (f.(maxConstantPoolSize)) (f.(maxSpecialisations)) (f.(maxMethods)) v_EmittedInlineBlocker
    (f.(JumpRangeExceeded)).

Definition setJumpRangeExceeded (f : CompiledFunction) (v_JumpRangeExceeded : bool) : CompiledFunction :=
  NewCompiledFunction
    (f.(Name)) (f.(Body)) (f.(Functions)) (f.(StringConstants))
    (f.(BoolConstants)) (f.(UintConstants)) (f.(IntConstants)) (f.(StringConstIndex))
    (f.(UintConstIndex)) (f.(IntConstIndex)) (f.(CallSites)) (f.(ParameterKinds))
    (f.(ParameterRegisters)) (f.(ResultKinds)) (f.(NumRegisters)) (f.(methodTable))
    (f.(maxConstantPoolSize)) (f.(maxSpecialisations)) (f.(maxMethods)) (f.(EmittedInlineBlocker))
    v_JumpRangeExceeded.

(** ** Accessors *)

Definition AppendFunction (f : CompiledFunction) (child : FunctionRef) : CompiledFunction * Z :=
  let f := setFunctions f (Functions f ++ [child]) in
  (f, IntToUint16 (zlen (Functions f) - 1)).

Definition TruncateFunctions (f : CompiledFunction) (n : Z) : CompiledFunction :=
  if (n <? 0) || (zlen (Functions f) <? n) then f
  else setFunctions f (take (Z.to_nat n) (Functions f)).

Definition ShareFunctionsWith (f source : CompiledFunction) : CompiledFunction :=
  setFunctions f (Functions source).

Definition ApplyResourceLimits (f : CompiledFunction)
    (constantPoolSize specialisations methods : Z) : CompiledFunction :=
  let f := if 0 <? constantPoolSize
           then setLimits f constantPoolSize (maxSpecialisations f) (maxMethods f) else f in
  let f := if 0 <? specialisations
           then setLimits f (maxConstantPoolSize f) specialisations (maxMethods f) else f in
  if 0 <? methods
  then setLimits f (maxConstantPoolSize f) (maxSpecialisations f) methods else f.

Definition BodyLen (f : CompiledFunction) : Z := zlen (Body f).

(** The functions a store and a table of references give, [nil] entries
    and dangling references left out. *)
Notation FunctionStore := (gmap nat CompiledFunction) (only parsing).

Definition derefFunctions (store : FunctionStore) (refs : list FunctionRef)
    : list (option CompiledFunction) :=
  map (λ r, match r with Some id => store !! id | None => None end) refs.
