(* ===== verification/Builder.v ===== *)
(** * The bytecode builder

    [internal/engine/program/bytecode_builder.go] and [BlockerForInstruction]
    of [inline_refusal.go]: constant pools with their deduplication index, the
    call-site and method tables with their ceilings, emission and jump
    patching.  An operation on a [*CompiledFunction] takes the function and
    returns it updated, with its result or its error. *)

From S2P Require Import Prelude SafeConv Register Opcode Instruction Shapes Spec JumpLayout Jumps Function.

Definition defaultMaxConstantPoolSize : Z := 65535.
Definition defaultMaxSpecialisations : Z := 1000.
Definition defaultMaxMethods : Z := 10000.
Definition MaxSpecialisationsPerFunction : Z := 32.

Inductive BuilderError := errConstantPoolExhausted | errMethodTableExhausted.

Definition constantPoolCap (f : CompiledFunction) : Z :=
  if 0 <? maxConstantPoolSize f then maxConstantPoolSize f else defaultMaxConstantPoolSize.

Definition methodsCap (f : CompiledFunction) : Z :=
  if 0 <? maxMethods f then maxMethods f else defaultMaxMethods.

Definition SpecialisationsCap (f : CompiledFunction) : Z :=
  if 0 <? maxSpecialisations f then maxSpecialisations f else defaultMaxSpecialisations.

(** ** Constant pools *)

Section pool.
Context {K : Type} `{Countable K}.

(** The loop that rebuilds the index: the first of equal entries keeps its
    position, which is stored as a [uint16]. *)
Fixpoint seedIndex (pool : list K) (i : Z) (seeded : gmap K Z) : gmap K Z :=
  match pool with
  | [] => seeded
  | c :: rest =>
      seedIndex rest (i + 1)
        (match seeded !! c with None => <[c := wrapU 16 i]> seeded | Some _ => seeded end)
  end.

Definition indexMap (index : option (gmap K Z)) : gmap K Z := default ∅ index.

Definition addDedupedConstant (pool : list K) (index : option (gmap K Z)) (v : K)
    (maxPoolSize : Z) : list K * option (gmap K Z) * (Z + BuilderError) :=
  let index :=
    match index with
    | None => if 0 <? zlen pool then Some (seedIndex pool 0 ∅) else None
    | Some _ => index
    end in
  match indexMap index !! v with
  | Some existing => (pool, index, inl existing)
  | None =>
      if maxPoolSize <=? zlen pool then (pool, index, inr errConstantPoolExhausted)
      else
        let newIndex := IntToUint16 (zlen pool) in
        (pool ++ [v], Some (<[v := newIndex]> (indexMap index)), inl newIndex)
  end.
End pool.

Definition AddIntConstant (f : CompiledFunction) (v : Z) : CompiledFunction * (Z + BuilderError) :=
  let '(pool, index, result) :=
    addDedupedConstant (IntConstants f) (IntConstIndex f) v (constantPoolCap f) in
  (setIntPool f pool index, result).

Definition AddUintConstant (f : CompiledFunction) (v : Z) : CompiledFunction * (Z + BuilderError) :=
  let '(pool, index, result) :=
    addDedupedConstant (UintConstants f) (UintConstIndex f) v (constantPoolCap f) in
  (setUintPool f pool index, result).

Definition AddStringConstant (f : CompiledFunction) (v : string)
    : CompiledFunction * (Z + BuilderError) :=
  let '(pool, index, result) :=
    addDedupedConstant (StringConstants f) (StringConstIndex f) v (constantPoolCap f) in
  (setStringPool f pool index, result).

(** The position of the first entry equal to [v]. *)
Fixpoint findBool (v : bool) (pool : list bool) (i : Z) : option Z :=
  match pool with
  | [] => None
  | c :: rest => if Bool.eqb c v then Some i else findBool v rest (i + 1)
  end.

Definition AddBoolConstant (f : CompiledFunction) (v : bool)
    : CompiledFunction * (Z + BuilderError) :=
  match findBool v (BoolConstants f) 0 with
  | Some i => (f, inl (IntToUint16 i))
  | None =>
      if constantPoolCap f <=? zlen (BoolConstants f) then (f, inr errConstantPoolExhausted)
      else (setBoolConstants f (BoolConstants f ++ [v]), inl (IntToUint16 (zlen (BoolConstants f))))
  end.

Definition AddCallSite (f : CompiledFunction) (site : CallSite)
    : CompiledFunction * (Z + BuilderError) :=
  if constantPoolCap f <=? zlen (CallSites f) then (f, inr errConstantPoolExhausted)
  else
    let index := zlen (CallSites f) in
    (setCallSites f (CallSites f ++ [site]), inl (IntToUint16 index)).

Definition RegisterMethod (f : CompiledFunction) (tableName : string) (functionIndex : Z)
    : CompiledFunction * (unit + BuilderError) :=
  match indexMap (methodTable f) !! tableName with
  | Some _ =>
      (setMethodTable f (Some (<[tableName := functionIndex]> (indexMap (methodTable f)))), inl tt)
  | None =>
      if methodsCap f <=? Z.of_nat (size (indexMap (methodTable f)))
      then (f, inr errMethodTableExhausted)
      else
        (setMethodTable f (Some (<[tableName := functionIndex]> (indexMap (methodTable f)))), inl tt)
  end.

(** ** Emission *)

Definition tier1Blocker (sub : SubOpcode) : InlineRefusal :=
  if one_of sub [SubOpCallMethod; SubOpCallMethodInlineable] then InlineRefusalMethodCall
  else if sub =? SubOpCallNative then InlineRefusalNativeCall
  else if sub =? SubOpTailCall then InlineRefusalTailCall
  else if sub =? SubOpCallIIFE then InlineRefusalClosureOps
  else if sub =? SubOpSelect then InlineRefusalChannelOps
  else InlineRefusalUnknown.

Definition BlockerForInstruction (inst : Instruction) : InlineRefusal :=
  if InstrIsTier2SubOp inst SubOpTier2SyncClosureUpvalues
     || InstrIsTier3SubOp inst SubOpTier3SyncIIFEUpvalues
  then InlineRefusalClosureOps
  else if iOp inst =? OpDrillTier1 then tier1Blocker (iA inst)
  else if iOp inst =? OpDefer then InlineRefusalDefer
  else if iOp inst =? OpGo then InlineRefusalGo
  else if one_of (iOp inst) [OpMakeClosure; OpGetUpvalue; OpSetUpvalue]
  then InlineRefusalClosureOps
  else if iOp inst =? OpChannelSend then InlineRefusalChannelOps
  else InlineRefusalUnknown.

(** [DebugEmitHook] is a callback that observes the program counter; it does
    not change the function. *)
Definition Emit (f : CompiledFunction) (op : Opcode) (a b c : Z) : CompiledFunction * Z :=
  let pc := zlen (Body f) in
  let instruction := NewInstruction op a b c in
  let f := setBody f (Body f ++ [instruction]) in
  let f :=
    if decide (EmittedInlineBlocker f = InlineRefusalUnknown) then
      let r := BlockerForInstruction instruction in
      if decide (r = InlineRefusalUnknown) then f else setBlocker f r
    else f in
  (f, pc).

Definition EmitWide (f : CompiledFunction) (op : Opcode) (a wide : Z) : CompiledFunction * Z :=
  let '(lo, hi) := SplitWide wide in Emit f op a lo hi.

Definition EmitExtension (f : CompiledFunction) (wide c : Z) : CompiledFunction * Z :=
  let '(lo, hi) := SplitWide wide in Emit f OpExt lo hi c.

Definition EmitJump (f : CompiledFunction) (op : Opcode) (conditionRegister : Z)
    : CompiledFunction * Z :=
  Emit f op conditionRegister 0 0.

Definition EmitTier1 (f : CompiledFunction) (subOp : SubOpcode) (b c : Z) : CompiledFunction * Z :=
  Emit f OpDrillTier1 subOp b c.

Definition EmitTier1Jump (f : CompiledFunction) : CompiledFunction * Z :=
  EmitTier1 f SubOpJump 0 0.

Definition EmitTier1Wide (f : CompiledFunction) (subOp : SubOpcode) (wide : Z)
    : CompiledFunction * Z :=
  let '(lo, hi) := SplitWide wide in EmitTier1 f subOp lo hi.

Definition EmitTier2 (f : CompiledFunction) (subOp : SubOpcodeTier2) (c : Z)
    : CompiledFunction * Z :=
  Emit f OpDrillTier1 SubOpDrillTier2 subOp c.

Definition EmitTier3 (f : CompiledFunction) (subOp : SubOpcodeTier3) : CompiledFunction * Z :=
  Emit f OpDrillTier1 SubOpDrillTier2 SubOpTier2DrillTier3 subOp.

Definition EncodeJumpOffset (f : CompiledFunction) (delta : Z)
    : option (CompiledFunction * (Z * Z)) :=
  if negb (FitsJumpOffset delta) then Some (setJumpRangeExceeded f true, (0, 0))
  else offset ← MustIntToInt16 delta; Some (f, SplitOffset offset).

(** [None] is Go's panic: an index out of range. *)
Definition PatchJump (f : CompiledFunction) (patchPC : Z) : option CompiledFunction :=
  '(f, bytes) ← EncodeJumpOffset f (zlen (Body f) - patchPC - 1);
  instr ← zget (Body f) patchPC;
  Some (setBody f (zset (Body f) patchPC (setBC instr bytes))).

Definition CurrentPC (f : CompiledFunction) : Z := zlen (Body f).

Definition MayCreateSharedCells (f : CompiledFunction) : bool :=
  existsb (λ instr, iOp instr =? OpMakeClosure) (Body f).

(** ** The pools' invariant

    The index is only a cache: when it exists it answers for exactly the
    entries of the pool, and every position fits the [uint16] that an
    instruction carries. *)

Section pool_facts.
Context {K : Type} `{Countable K}.
Implicit Types (pool : list K) (m : gmap K Z) (index : option (gmap K Z)) (v : K).

Definition index_of pool m : Prop :=
  (∀ v k, m !! v = Some k → zget pool k = Some v) ∧ (∀ v, v ∈ pool → is_Some (m !! v)).

Definition pool_ok pool index : Prop :=
  zlen pool <= 65536 ∧ match index with None => True | Some m => index_of pool m end.

Lemma zget_app_l pool rest k : k < zlen pool → zget (pool ++ rest) k = zget pool k.
Proof. intros. unfold zget. case_if; [done|]. bool_hyps. apply lookup_app_l. lia. Qed.

Lemma zget_snoc pool v : zget (pool ++ [v]) (zlen pool) = Some v.
Proof. rewrite zget_lookup by lia. rewrite lookup_app_r by lia. by rewrite Nat2Z.id, Nat.sub_diag. Qed.

Lemma seedIndex_index pre pool m :
  zlen (pre ++ pool) <= 65536 → index_of pre m →
  index_of (pre ++ pool) (seedIndex pool (zlen pre) m).
Proof.
  revert pre m. induction pool as [|c pool IH]; intros pre m Hlen Hm; cbn [seedIndex].
  { by rewrite app_nil_r. }
  rewrite length_app in Hlen; cbn [length] in Hlen.
  replace (zlen pre + 1) with (zlen (pre ++ [c])) by (rewrite length_app; cbn; lia).
  rewrite (cons_middle c pre pool). rewrite app_assoc. apply IH.
  { rewrite !length_app. cbn. lia. }
  destruct Hm as [H1 H2]. destruct (m !! c) as [k|] eqn:Ec; split.
  - intros w j Hw. rewrite zget_app_l; [by apply H1|]. apply H1, zget_Some_range in Hw. lia.
  - intros w [Hw|Hw%list_elem_of_singleton]%elem_of_app; [by apply H2|subst; eauto].
  - intros w j. rewrite lookup_insert. case_decide; intros Hw; simplify_eq.
    + rewrite wrapU_id by word. apply zget_snoc.
    + rewrite zget_app_l; [by apply H1|]. apply H1, zget_Some_range in Hw. lia.
  - intros w Hw. rewrite lookup_insert. case_decide; [eauto|].
    apply elem_of_app in Hw as [Hw|Hw%list_elem_of_singleton]; [by apply H2|by subst].
Qed.

Lemma index_of_empty : index_of [] (∅ : gmap K Z).
Proof. split; [intros v k; by rewrite lookup_empty|intros v Hv; by apply elem_of_nil in Hv]. Qed.

Lemma seedIndex_ok pool : zlen pool <= 65536 → index_of pool (seedIndex pool 0 ∅).
Proof.
  intros. apply (seedIndex_index [] pool ∅); [done|exact index_of_empty].
Qed.

(** The index the lookup consults. *)
Lemma indexMap_ok pool index :
  pool_ok pool index →
  index_of pool (indexMap (match index with
    | None => if 0 <? zlen pool then Some (seedIndex pool 0 ∅) else None
    | Some _ => index end)).
Proof.
  intros [Hl Hi]. destruct index as [m|]; [done|]. case_if; [by apply seedIndex_ok|].
  bool_hyps. destruct pool; [exact index_of_empty|cbn in *; lia].
Qed.

Lemma index_of_snoc pool m v :
  index_of pool m → index_of (pool ++ [v]) (<[v := zlen pool]> m).
Proof.
  intros [H1 H2]. split.
  - intros w k. rewrite lookup_insert. case_decide; intros Hw; simplify_eq; [apply zget_snoc|].
    rewrite zget_app_l; [by apply H1|]. apply H1, zget_Some_range in Hw. lia.
  - intros w Hw. rewrite lookup_insert. case_decide; [eauto|].
    apply elem_of_app in Hw as [Hw|Hw%list_elem_of_singleton]; [by apply H2|by subst].
Qed.

(** A second request for the same constant finds the first one's entry. *)
Lemma addDedupedConstant_again pool m v i cap :
  m !! v = Some i → addDedupedConstant pool (Some m) v cap = (pool, Some m, inl i).
Proof. intros Hv. unfold addDedupedConstant. change (indexMap (Some m)) with m. by rewrite Hv. Qed.

Lemma IntToUint16_id n : 0 <= n < 65536 → IntToUint16 n = n.
Proof. intros. unfold IntToUint16. case_ifs; word. Qed.

(** interning a constant under a ceiling that a 16-bit index can address
    returns a position that holds the constant, keeps every earlier
    position, never duplicates an entry and is idempotent; it fails exactly
    for a constant that is new to a pool at its ceiling, and then leaves the
    pool as it was.  The invariant survives, whether or not the index had
    been dropped and must be rebuilt. *)
Theorem interning_correct pool index v cap pool' index' result :
  pool_ok pool index → cap <= 65536 →
  addDedupedConstant pool index v cap = (pool', index', result) →
  pool_ok pool' index' ∧ (NoDup pool → NoDup pool') ∧ pool `prefix_of` pool' ∧
  match result with
  | inl i => isU 16 i ∧ zget pool' i = Some v ∧ (v ∈ pool → pool' = pool) ∧
             addDedupedConstant pool' index' v cap = (pool', index', inl i)
  | inr e => e = errConstantPoolExhausted ∧ pool' = pool ∧ v ∉ pool ∧ cap <= zlen pool
  end.
Proof.
  intros Hok Hcap. pose proof (indexMap_ok _ _ Hok) as Hm. destruct Hok as [Hlen Hi].
  unfold addDedupedConstant. revert Hm.
  assert (Hidx : match (match index with
    | None => if 0 <? zlen pool then Some (seedIndex pool 0 ∅) else None
    | Some _ => index end) with None => True | Some m => index_of pool m end).
  { destruct index; [done|]. case_if; [by apply seedIndex_ok|done]. }
  revert Hidx. generalize (match index with
    | None => if 0 <? zlen pool then Some (seedIndex pool 0 ∅) else None
    | Some _ => index end). clear index Hi. intros index Hidx [H1 H2].
  destruct (indexMap index !! v) as [i|] eqn:Ev.
  - intros [= <- <- <-]. pose proof (H1 _ _ Ev) as Hg. pose proof (zget_Some_range _ _ _ Hg).
    destruct index as [m|]; [|by pose proof (lookup_empty (M:=gmap K) (A:=Z) v); simplify_eq].
    assert (isU 16 i) by word. repeat (split; [done|]). by apply addDedupedConstant_again.
  - assert (Hnew : v ∉ pool) by (intros Hv; destruct (H2 _ Hv); congruence).
    case_if; bool_hyps; intros [= <- <- <-]; [by split_and!|].
    rewrite IntToUint16_id by lia.
    split; [split; [rewrite length_app; cbn; lia|by apply index_of_snoc]|].
    split; [|split; [by apply prefix_app_r|split; [word|split; [apply zget_snoc|split; [done|]]]]].
    + intros Hnd. apply NoDup_app. split_and!; [done| |apply NoDup_singleton].
      intros w Hw ->%list_elem_of_singleton. done.
    + apply addDedupedConstant_again. apply lookup_insert_eq.
Qed.

(** a ceiling above what sixteen bits address is not safe: the entry
    after the 65536th is stored, and its request succeeds, but the saturated
    position it returns is that of another constant. *)
Theorem oversized_ceiling_misresolves pool index v cap :
  pool_ok pool index → zlen pool = 65536 → v ∉ pool → 65536 < cap →
  ∃ pool' index', addDedupedConstant pool index v cap = (pool', index', inl 65535) ∧
    zget pool' 65535 ≠ Some v.
Proof.
  intros Hok Hlen Hv Hcap. pose proof (indexMap_ok _ _ Hok) as [H1 H2].
  unfold addDedupedConstant. destruct (indexMap _ !! v) as [i|] eqn:Ev.
  { exfalso. apply Hv. apply H1 in Ev. pose proof (zget_Some_range _ _ _ Ev).
    rewrite zget_lookup in Ev by lia. by eapply list_elem_of_lookup_2. }
  rewrite Hlen. destruct (cap <=? 65536) eqn:E; bool_hyps; [lia|].
  eexists _, _. split; [done|].
  rewrite zget_app_l by lia. intros Hg. apply Hv. rewrite zget_lookup in Hg by lia.
  by eapply list_elem_of_lookup_2.
Qed.
End pool_facts.

Theorem interning_correct_witness :
  let pool := [7; 9; 7] in
  addDedupedConstant pool None 7 defaultMaxConstantPoolSize
    = (pool, Some (seedIndex pool 0 ∅), inl 0) ∧
  zget pool 0 = Some 7.
Proof.
  intros pool.
  assert (Hok : pool_ok pool None) by (split; [vm_compute; congruence|done]).
  assert (HA : addDedupedConstant pool None 7 defaultMaxConstantPoolSize
    = (pool, Some (seedIndex pool 0 ∅), inl 0)) by (vm_compute; reflexivity).
  split; [exact HA|].
  assert (Hc : defaultMaxConstantPoolSize <= 65536) by (vm_compute; congruence).
  exact (proj1 (proj2 (proj2 (proj2 (proj2
    (interning_correct pool None 7 defaultMaxConstantPoolSize _ _ _ Hok Hc HA)))))).
Defined.

Theorem oversized_ceiling_misresolves_witness :
  ∃ pool' index', addDedupedConstant (seqZ 0 65536) None 65536 70000 = (pool', index', inl 65535) ∧
    zget pool' 65535 ≠ Some 65536.
Proof.
  apply (oversized_ceiling_misresolves (seqZ 0 65536) None 65536 70000).
  - split; [|done]. rewrite length_seqZ. vm_compute. congruence.
  - rewrite length_seqZ. vm_compute. reflexivity.
  - rewrite elem_of_seqZ. lia.
  - lia.
Defined.

(** ** Emission and patching *)

Lemma Body_setJumpRangeExceeded f b : Body (setJumpRangeExceeded f b) = Body f.
Proof. done. Qed.

(** patching an emitted word-layout jump either lands it on the next
    instruction to be emitted, with the function's flags unchanged, or, when
    the distance does not fit sixteen signed bits, marks the function so
    that the optimiser rejects it; no other jump of the body moves, and no
    word is added or removed. *)
Theorem patch_jump_lands f pc instr :
  wf_body (Body f) → zget (Body f) pc = Some instr → JumpLayoutOf instr = (JumpLayoutWord, 0) →
  ∃ f', PatchJump f pc = Some f' ∧ CurrentPC f' = CurrentPC f ∧
    (if FitsJumpOffset (CurrentPC f - pc - 1)
     then JumpTargetAt (Body f') pc = Some (CurrentPC f) ∧
          JumpRangeExceeded f' = JumpRangeExceeded f
     else JumpRangeExceeded f' = true) ∧
    ∀ pc', pc' ≠ pc → JumpTargetAt (Body f') pc' = JumpTargetAt (Body f) pc'.
Proof.
  intros Hwf Hpc HL. unfold PatchJump, EncodeJumpOffset, CurrentPC.
  assert (Hframe : ∀ bytes pc', pc' ≠ pc →
    JumpTargetAt (zset (Body f) pc (setBC instr bytes)) pc' = JumpTargetAt (Body f) pc').
  { intros bytes pc' Hne.
    destruct (word_layout_stable instr 0 0 0 (wf_body_zget _ _ _ Hwf Hpc) HL) as [_ Hop].
    by eapply JumpTargetAt_frame_word. }
  destruct (FitsJumpOffset (zlen (Body f) - pc - 1)) eqn:Hfit; cbn [negb].
  - apply FitsJumpOffset_spec in Hfit. rewrite MustIntToInt16_fits by done.
    cbn [mbind option_bind]. rewrite Hpc. cbn [mbind option_bind].
    eexists. split; [done|]. cbn [Body setBody JumpRangeExceeded]. rewrite length_zset.
    split; [done|]. split; [split; [|done]|by apply Hframe].
    apply (jump_rewritten_target (Body f)); [done|].
    apply rewritten_word; [done|done|done|lia].
  - cbn [mbind option_bind]. rewrite Body_setJumpRangeExceeded, Hpc. cbn [mbind option_bind].
    eexists. split; [done|]. cbn [Body setBody setJumpRangeExceeded JumpRangeExceeded].
    rewrite length_zset. split; [done|]. split; [done|by apply Hframe].
Qed.

Theorem patch_jump_lands_witness :
  let f := fst (Emit (fst (EmitJump (NewNamedFunction "f") OpJumpIfFalse 3)) OpAddIntJump 0 1 2) in
  ∃ f', PatchJump f 0 = Some f' ∧ JumpTargetAt (Body f') 0 = Some 2.
Proof.
  intros f.
  assert (Hwf : wf_body (Body f)).
  { split; [eapply bool_decide_unpack; vm_compute; exact I|vm_compute; congruence]. }
  destruct (patch_jump_lands f 0 (NewInstruction OpJumpIfFalse 3 0 0) Hwf eq_refl
    ltac:(vm_compute; reflexivity)) as (f' & Hf & _ & Ht & _).
  exists f'. split; [exact Hf|].
  assert (HF : FitsJumpOffset (CurrentPC f - 0 - 1) = true) by (vm_compute; reflexivity).
  rewrite HF in Ht. exact (proj1 Ht).
Defined.

(** The refusal the whole body implies: that of its first blocking word. *)
Definition first_blocker (body : list Instruction) : InlineRefusal :=
  default InlineRefusalUnknown
    (head (filter (λ r, r ≠ InlineRefusalUnknown) (map BlockerForInstruction body))).

Lemma first_blocker_snoc body instr :
  first_blocker (body ++ [instr]) =
    if decide (first_blocker body = InlineRefusalUnknown)
    then BlockerForInstruction instr else first_blocker body.
Proof.
  unfold first_blocker. rewrite map_app, filter_app.
  destruct (filter _ (map BlockerForInstruction body)) as [|r rs] eqn:E; cbn [head app default].
  - cbn [map]. rewrite filter_cons. cbn.
    destruct (decide (BlockerForInstruction instr = InlineRefusalUnknown)) as [->|]; [done|].
    by rewrite decide_True by done.
  - assert (r ≠ InlineRefusalUnknown).
    { assert (Hr : r ∈ filter (λ r, r ≠ InlineRefusalUnknown) (map BlockerForInstruction body))
        by (rewrite E; left). by apply list_elem_of_filter in Hr as [? _]. }
    cbn. by rewrite decide_False.
Qed.

(** whatever is emitted, the cached refusal is that of the first
    instruction of the body that forbids inlining, so the inliner need not
    scan it; emission appends exactly one word and returns its position. *)
Theorem emit_caches_first_blocker f op a b c :
  EmittedInlineBlocker f = first_blocker (Body f) →
  let '(f', pc) := Emit f op a b c in
  EmittedInlineBlocker f' = first_blocker (Body f') ∧
  Body f' = Body f ++ [NewInstruction op a b c] ∧ pc = CurrentPC f ∧
  zget (Body f') pc = Some (NewInstruction op a b c).
Proof.
  intros Hb. unfold Emit, CurrentPC.
  assert (Hz := zget_snoc (Body f) (NewInstruction op a b c)).
  pose proof (first_blocker_snoc (Body f) (NewInstruction op a b c)) as Hs.
  rewrite <- Hb in Hs.
  repeat case_decide; cbn [Body EmittedInlineBlocker setBody setBlocker] in *;
    (split; [congruence|done]).
Qed.

Theorem emit_caches_first_blocker_witness :
  let f := fst (EmitTier1 (NewNamedFunction "f") SubOpSelect 0 0) in
  EmittedInlineBlocker (fst (Emit f OpGo 0 0 0)) = InlineRefusalChannelOps ∧
  first_blocker (Body (fst (Emit f OpGo 0 0 0))) = InlineRefusalChannelOps.
Proof.
  intros f. assert (Hf : EmittedInlineBlocker f = first_blocker (Body f)) by reflexivity.
  pose proof (emit_caches_first_blocker f OpGo 0 0 0 Hf) as H.
  destruct (Emit f OpGo 0 0 0) as [f' pc] eqn:E. cbn [fst].
  assert (Hr : EmittedInlineBlocker f' = InlineRefusalChannelOps)
    by (change f' with (fst (f', pc)); rewrite <- E; reflexivity).
  split; [exact Hr|]. rewrite <- (proj1 H). exact Hr.
Defined.

(** A method table never outgrows its ceiling, and a name registered is the
    name found. *)
Lemma RegisterMethod_spec f name index f' :
  RegisterMethod f name index = (f', inl tt) →
  Z.of_nat (size (indexMap (methodTable f))) <= methodsCap f →
  indexMap (methodTable f') !! name = Some index ∧
  Z.of_nat (size (indexMap (methodTable f'))) <= methodsCap f' ∧
  ∀ other, other ≠ name → indexMap (methodTable f') !! other = indexMap (methodTable f) !! other.
Proof.
  unfold RegisterMethod. intros H Hsize.
  assert (Hget : ∀ g, indexMap (methodTable (setMethodTable f (Some g))) = g) by done.
  assert (Hcap : ∀ g, methodsCap (setMethodTable f (Some g)) = methodsCap f) by done.
  destruct (indexMap (methodTable f) !! name) as [old|] eqn:E.
  - injection H as <-. rewrite Hget, Hcap. split; [apply lookup_insert_eq|]. split.
    + by rewrite map_size_insert_Some by eauto.
    + intros other Hne. by apply lookup_insert_ne.
  - revert H. case_if; [done|]. bool_hyps. intros [= <-]. rewrite Hget, Hcap.
    split; [apply lookup_insert_eq|]. split.
    + rewrite map_size_insert_None by done. lia.
    + intros other Hne. by apply lookup_insert_ne.
Qed.
