(* ===== verification/Verify.v ===== *)
(** * The bytecode verifier

    [internal/verify]: the abstract interpreter that [RunFunctionVerifier] runs
    over one function, the traversal of the functions reachable from a root,
    the operand bounds check, and [VerifyLoadedFileSet], which gates bytecode
    decoded from a file. *)

From S2P Require Import Prelude SafeConv Register Opcode Instruction Shapes Spec JumpLayout Jumps.
From S2P Require Import Extension Function.

Definition maxVerifierIterations : Z := 100000.
Definition verifierIterationsPerByteFactor : Z := 50.
Definition verifierContextPollInterval : Z := 1024.
Definition entryStateSlotCount : nat := 256.

Inductive registerSlotKind := registerSlotUndefined | registerSlotDefined.

#[export] Instance registerSlotKind_eq_dec : EqDecision registerSlotKind.
Proof. solve_decision. Defined.

Record verificationError := NewVerificationError {
  functionName : string;
  operand : string;
  reason : string;
  errPC : Z;
  instruction : Instruction;
  bank : RegisterKind;
  slot : Z;
}.

#[export] Instance verificationError_eq_dec : EqDecision verificationError.
Proof. solve_decision. Defined.

Notation VerificationReport := (list verificationError) (only parsing).

Definition HasErrors (r : VerificationReport) : bool := 0 <? zlen r.

(** ** Abstract states

    One list of slots per bank.  Go reuses the destination's storage when it is
    large enough; either way the destination holds a copy. *)

Notation verifierState := (list (list registerSlotKind)) (only parsing).

Definition zeroVerifierState : verifierState := replicate (Z.to_nat NumRegisterKinds) [].

(** Go's [copy]: the common prefix. *)
Definition copyInto {A} (dst src : list A) : list A :=
  take (length dst) src ++ drop (length src) dst.

Definition cloneFrom (s source : verifierState) : verifierState :=
  zip_with (λ _ src, copyInto (replicate (length src) registerSlotUndefined) src) s source.

Definition joinSlotKind (a b : registerSlotKind) : registerSlotKind :=
  match a, b with
  | registerSlotDefined, registerSlotDefined => registerSlotDefined
  | _, _ => registerSlotUndefined
  end.

(** The slots of one bank after the join, and whether one of them changed. *)
Fixpoint joinSlots (dst src : list registerSlotKind) : list registerSlotKind * bool :=
  match dst, src with
  | a :: dst, b :: src =>
      let merged := joinSlotKind a b in
      let '(rest, changed) := joinSlots dst src in
      (merged :: rest, negb (bool_decide (merged = a)) || changed)
  | _, _ => (dst, false)
  end.

Definition growTo (n : nat) (slots : list registerSlotKind) : list registerSlotKind :=
  if Nat.ltb (length slots) n
  then copyInto (replicate n registerSlotUndefined) slots else slots.

Fixpoint joinFrom (s source : verifierState) : verifierState * bool :=
  match s, source with
  | dst :: s, src :: source =>
      let '(slots, changed) := joinSlots (growTo (length src) dst) src in
      let '(rest, changed') := joinFrom s source in
      (slots :: rest, changed || changed')
  | _, _ => (s, false)
  end.

Definition markDefined (s : verifierState) (bank : RegisterKind) (slot : Z) : verifierState :=
  match zget s bank with
  | None => s
  | Some slots =>
      let slots := if zlen slots <=? slot then growTo (Z.to_nat (slot + 1)) slots else slots in
      zset s bank (zset slots slot registerSlotDefined)
  end.

Definition isDefined (s : verifierState) (bank : RegisterKind) (slot : Z) : bool :=
  match zget s bank with
  | None => false
  | Some slots =>
      match zget slots slot with
      | None => false
      | Some kind => bool_decide (kind = registerSlotDefined)
      end
  end.

Definition initialEntryState : verifierState :=
  replicate (Z.to_nat NumRegisterKinds) (replicate entryStateSlotCount registerSlotDefined).

Definition applyOpaqueWrites (current : verifierState) : verifierState :=
  map (map (λ _, registerSlotDefined)) current.

(** ** One instruction *)

Definition checkOneRead (f : CompiledFunction) (pc : Z) (instr : Instruction)
    (current : verifierState) (name : string) (reads : bool) (role : OperandRole) (slot : Z)
    (report : VerificationReport) : VerificationReport :=
  if negb reads then report
  else match KindForRole role with
  | None => report
  | Some bank =>
      if isDefined current bank slot then report
      else report ++ [NewVerificationError (Name f) name "read of undefined slot in this bank"
                        pc instr bank slot]
  end.

Definition checkInstructionReads (f : CompiledFunction) (pc : Z) (instr : Instruction)
    (shape : OperandShape) (current : verifierState) (report : VerificationReport)
    : VerificationReport :=
  let report := checkOneRead f pc instr current "A" (mask_at (shReads shape) 0) (shA shape)
                  (iA instr) report in
  let report := checkOneRead f pc instr current "B" (mask_at (shReads shape) 1) (shB shape)
                  (iB instr) report in
  checkOneRead f pc instr current "C" (mask_at (shReads shape) 2) (shC shape) (iC instr) report.

Definition applyOneWrite (writes : bool) (role : OperandRole) (slot : Z) (current : verifierState)
    : verifierState :=
  if negb writes then current
  else match KindForRole role with
  | None => current
  | Some bank => markDefined current bank slot
  end.

Definition applyInstructionWrites (instr : Instruction) (shape : OperandShape)
    (current : verifierState) : verifierState :=
  let current := applyOneWrite (mask_at (shWrites shape) 0) (shA shape) (iA instr) current in
  let current := applyOneWrite (mask_at (shWrites shape) 1) (shB shape) (iB instr) current in
  applyOneWrite (mask_at (shWrites shape) 2) (shC shape) (iC instr) current.

Definition typeSwitchError (f : CompiledFunction) (pc : Z) (instr : Instruction)
    : verificationError :=
  NewVerificationError (Name f) "B" "type switch table row jumps backwards" pc instr 0 0.

Definition checkTypeSwitchCaseForward (f : CompiledFunction) (pc : Z) (instr : Instruction)
    (report : VerificationReport) : VerificationReport :=
  if negb (iOp instr =? OpTypeSwitchCase) || (0 <=? SignedOffset instr) then report
  else report ++ [typeSwitchError f pc instr].

(** The run of extension words from [pc]; each one advances [pc], so the
    length of the stream is enough fuel. *)
Fixpoint skipExtension (fuel : nat) (body : list Instruction) (pc : Z) : Z :=
  match fuel with
  | O => pc
  | S fuel =>
      match zget body pc with
      | Some word => if iOp word =? OpExt then skipExtension fuel body (pc + 1) else pc
      | None => pc
      end
  end.

Definition skipExtensionWords (body : list Instruction) (pc : Z) : Z :=
  skipExtension (length body) body pc.

Definition terminatorSuccessors (body : list Instruction) (pc : Z) (instr : Instruction) : list Z :=
  if InstrIsTier1SubOp instr SubOpTypeSwitchJump then
    if pc + 1 <? zlen body then [pc + 1] else []
  else match JumpTargetAt body pc with
  | Some target => if (0 <=? target) && (target <? zlen body) then [target] else []
  | None => []
  end.

Definition controlFlowSuccessors (body : list Instruction) (pc fallthroughPC : Z) : list Z :=
  let successors := if fallthroughPC <? zlen body then [fallthroughPC] else [] in
  match JumpTargetAt body pc with
  | None => successors
  | Some target =>
      if (0 <=? target) && (target <? zlen body) && negb (target =? fallthroughPC)
      then successors ++ [target] else successors
  end.

(** The state and the report after the instruction at [pc]. *)
Definition interpretInstruction (f : CompiledFunction) (pc : Z) (instr : Instruction)
    (current : verifierState) (report : VerificationReport)
    : verifierState * VerificationReport :=
  let shape := ShapeForInstruction instr in
  let '(current, report) :=
    if hasFlag (shFlags shape) ShapeFlagOpaqueWrites then
      (applyOpaqueWrites current, checkInstructionReads f pc instr shape current report)
    else if hasFlag (shFlags shape) ShapeFlagDescribed then
      (applyInstructionWrites instr shape current,
       checkInstructionReads f pc instr shape current report)
    else (applyOpaqueWrites current, report) in
  (current, checkTypeSwitchCaseForward f pc instr report).

(** The program counter after the instruction and the words it owns. *)
Definition nextPC (body : list Instruction) (pc : Z) (instr : Instruction) : Z :=
  match fst (JumpLayoutOf instr) with
  | JumpLayoutNone =>
      if hasFlag (shFlags (ShapeForInstruction instr)) ShapeFlagFollowsExtension
      then skipExtensionWords body (pc + 1) else pc + 1
  | _ => pc + JumpFootprint instr
  end.

(** ** Blocks and the worklist *)

(** The loop of [walkBlock]; [pc] grows at every turn, so the length of the body
    is enough fuel. *)
Fixpoint walkBlockLoop (fuel : nat) (f : CompiledFunction) (body : list Instruction)
    (start pc : Z) (jumpTargets : gset Z) (current : verifierState) (report : VerificationReport)
    : list Z * verifierState * VerificationReport :=
  match fuel with
  | O => ([], current, report)
  | S fuel =>
      match zget body pc with
      | None => ([], current, report)
      | Some instr =>
          let shape := ShapeForInstruction instr in
          let '(current, report) := interpretInstruction f pc instr current report in
          let next := nextPC body pc instr in
          if hasFlag (shFlags shape) ShapeFlagTerminator
          then (terminatorSuccessors body pc instr, current, report)
          else if hasFlag (shFlags shape) ShapeFlagControlFlow
          then (controlFlowSuccessors body pc next, current, report)
          else if (next <? zlen body) && bool_decide (next ∈ jumpTargets) && negb (next =? start)
          then ([next], current, report)
          else walkBlockLoop fuel f body start next jumpTargets current report
      end
  end.

Definition walkBlock (f : CompiledFunction) (body : list Instruction) (start : Z)
    (jumpTargets : gset Z) (current : verifierState) (report : VerificationReport)
    : list Z * verifierState * VerificationReport :=
  walkBlockLoop (S (length body)) f body start start jumpTargets current report.

Fixpoint enqueueVerifierSuccessors (successors : list Z) (bodyLength : Z)
    (current : verifierState) (entryStates : list verifierState) (visited : list bool)
    (worklist : list Z) : list verifierState * list bool * list Z :=
  match successors with
  | [] => (entryStates, visited, worklist)
  | succ :: rest =>
      if (succ <? 0) || (bodyLength <=? succ)
      then enqueueVerifierSuccessors rest bodyLength current entryStates visited worklist
      else
        let entry := default zeroVerifierState (zget entryStates succ) in
        if negb (default false (zget visited succ)) then
          enqueueVerifierSuccessors rest bodyLength current
            (zset entryStates succ (cloneFrom entry current)) (zset visited succ true)
            (worklist ++ [succ])
        else
          let '(joined, changed) := joinFrom entry current in
          enqueueVerifierSuccessors rest bodyLength current (zset entryStates succ joined) visited
            (if changed then worklist ++ [succ] else worklist)
  end.

Inductive VerifierError := errVerifierIterationLimitExceeded | contextError.

Definition verifierIterationCapFor (bodyLength : Z) : Z :=
  let scaled := verifierIterationsPerByteFactor * bodyLength in
  Z.max (Z.min maxVerifierIterations scaled) verifierIterationsPerByteFactor.

(** The worklist loop, last in first out.  [cancelled i] is what [ctx.Err]
    answers at iteration [i].  The loop stops at the iteration cap, which is
    the fuel. *)
Fixpoint verifierLoop (fuel : nat) (cancelled : Z → bool) (f : CompiledFunction)
    (jumpTargets : gset Z) (iterationCap iterations : Z) (entryStates : list verifierState)
    (visited : list bool) (worklist : list Z) (report : VerificationReport)
    : VerificationReport * option VerifierError :=
  match last worklist with
  | None => (report, None)
  | Some pc =>
      if iterationCap <=? iterations then (report, Some errVerifierIterationLimitExceeded)
      else if (Z.land iterations (verifierContextPollInterval - 1) =? 0) && cancelled iterations
      then (report, Some contextError)
      else
        match fuel with
        | O => (report, Some errVerifierIterationLimitExceeded)
        | S fuel =>
            let body := Body f in
            let current := cloneFrom zeroVerifierState
                             (default zeroVerifierState (zget entryStates pc)) in
            let '(next, current, report) := walkBlock f body pc jumpTargets current report in
            let '(entryStates, visited, worklist) :=
              enqueueVerifierSuccessors next (zlen body) current entryStates visited
                (removelast worklist) in
            verifierLoop fuel cancelled f jumpTargets iterationCap (iterations + 1) entryStates
              visited worklist report
        end
  end.

Definition RunFunctionVerifier (cancelled : Z → bool) (f : CompiledFunction)
    (report : VerificationReport) : VerificationReport * option VerifierError :=
  let body := Body f in
  if zlen body =? 0 then (report, None)
  else
    let entryStates := replicate (length body) zeroVerifierState in
    let visited := replicate (length body) false in
    let entryStates := zset entryStates 0 (cloneFrom zeroVerifierState initialEntryState) in
    let visited := zset visited 0 true in
    let iterationCap := verifierIterationCapFor (zlen body) in
    verifierLoop (Z.to_nat iterationCap) cancelled f (JumpTargetsOf body) iterationCap 0
      entryStates visited [0] report.

(** ** Operand bounds *)

Inductive BoundsError :=
  | ErrCallSiteOutOfRange (pc site : Z)
  | ErrRegisterOperandOutOfRange (pc : Z) (operand : string) (bank : RegisterKind) (slot : Z).

(** [NumRegisters[bank]]. *)
Definition registerCount (f : CompiledFunction) (bank : RegisterKind) : Z :=
  default 0 (zget (NumRegisters f) bank).

Definition checkOneOperandBound (f : CompiledFunction) (pc : Z) (name : string) (names : bool)
    (role : OperandRole) (slot : Z) : option BoundsError :=
  if negb names then None
  else match KindForRole role with
  | None => None
  | Some bank =>
      if slot <? registerCount f bank then None
      else Some (ErrRegisterOperandOutOfRange pc name bank slot)
  end.

Definition checkOperandBounds (f : CompiledFunction) (pc : Z) (instr : Instruction)
    (shape : OperandShape) : option BoundsError :=
  let names i := mask_at (shReads shape) i || mask_at (shWrites shape) i in
  match checkOneOperandBound f pc "A" (names 0) (shA shape) (iA instr) with
  | Some err => Some err
  | None =>
      match checkOneOperandBound f pc "B" (names 1) (shB shape) (iB instr) with
      | Some err => Some err
      | None => checkOneOperandBound f pc "C" (names 2) (shC shape) (iC instr)
      end
  end.

(** The first operand byte of an extension word that names an integer register
    beyond the file. *)
Definition checkExtensionWord (f : CompiledFunction) (last : Z) (reads writes : ExtensionIntMask)
    (word : Instruction) : option BoundsError :=
  let bad position slot :=
    (mask_at reads position || mask_at writes position)
    && negb (slot <? registerCount f RegisterInt) in
  if bad 0 (iA word) then Some (ErrRegisterOperandOutOfRange last "A" RegisterInt (iA word))
  else if bad 1 (iB word) then Some (ErrRegisterOperandOutOfRange last "B" RegisterInt (iB word))
  else if bad 2 (iC word) then Some (ErrRegisterOperandOutOfRange last "C" RegisterInt (iC word))
  else None.

(** The loop over the extension words of the instruction at [pc]; the last
    word classified, or the error. *)
Fixpoint extensionBoundsLoop (fuel : nat) (f : CompiledFunction) (owner : Instruction) (pc last : Z)
    : Z * option BoundsError :=
  match fuel with
  | O => (last, None)
  | S fuel =>
      match zget (Body f) (last + 1) with
      | None => (last, None)
      | Some word =>
          if negb (iOp word =? OpExt) then (last, None)
          else
            let last := last + 1 in
            let words := take (Z.to_nat (last - pc)) (drop (Z.to_nat (pc + 1)) (Body f)) in
            let '(reads, writes, ok) := ExtensionIntUse owner words in
            if negb ok then extensionBoundsLoop fuel f owner pc last
            else match checkExtensionWord f last reads writes word with
            | Some err => (last, Some err)
            | None => extensionBoundsLoop fuel f owner pc last
            end
      end
  end.

Definition checkExtensionBounds (f : CompiledFunction) (pc : Z) (owner : Instruction)
    : Z * option BoundsError :=
  extensionBoundsLoop (length (Body f)) f owner pc pc.

Definition checkInstructionBounds (f : CompiledFunction) (pc : Z) (instr : Instruction)
    : Z * option BoundsError :=
  let siteError :=
    match CallSiteIndex instr with
    | Some site =>
        if zlen (CallSites f) <=? site then Some (ErrCallSiteOutOfRange pc site) else None
    | None => None
    end in
  match siteError with
  | Some err => (pc, Some err)
  | None =>
      let shape := ShapeForInstruction instr in
      let operandError :=
        if hasFlag (shFlags shape) ShapeFlagDescribed then checkOperandBounds f pc instr shape
        else None in
      match operandError with
      | Some err => (pc, Some err)
      | None =>
          if negb (hasFlag (shFlags shape) ShapeFlagFollowsExtension) then (pc, None)
          else checkExtensionBounds f pc instr
      end
  end.

(** The loop over the body, one turn per instruction with the words it owns. *)
Fixpoint bodyBoundsLoop (fuel : nat) (f : CompiledFunction) (pc : Z) : option BoundsError :=
  match fuel with
  | O => None
  | S fuel =>
      match zget (Body f) pc with
      | None => None
      | Some instr =>
          let '(last, err) := checkInstructionBounds f pc instr in
          match err with
          | Some err => Some err
          | None => bodyBoundsLoop fuel f (last + 1)
          end
      end
  end.

Definition checkBodyBounds (f : CompiledFunction) : option BoundsError :=
  bodyBoundsLoop (S (length (Body f))) f 0.

(** ** Every function reachable from a root

    [verifyOneFunction] and [verifyFunctionOperandBounds] share one traversal:
    visit a function once, then its children in order, and stop at the first
    error.  The set of visited references grows at every level, so one more
    than the size of the store is enough fuel; [OutOfFuel] is never the
    answer. *)

Inductive Outcome (E : Type) := Continue | Stop (err : E) | OutOfFuel.
Arguments Continue {E}.
Arguments Stop {E} err.
Arguments OutOfFuel {E}.

Section traversal.
Context {S E : Type} (store : FunctionStore) (visit : CompiledFunction → S → S * option E).

Fixpoint walkChildren (step : FunctionRef → gset nat → S → gset nat * S * Outcome E)
    (refs : list FunctionRef) (visited : gset nat) (s : S) : gset nat * S * Outcome E :=
  match refs with
  | [] => (visited, s, Continue)
  | r :: rest =>
      match step r visited s with
      | (visited, s, Continue) => walkChildren step rest visited s
      | stopped => stopped
      end
  end.

Fixpoint walkFunctions (fuel : nat) (ref : FunctionRef) (visited : gset nat) (s : S)
    : gset nat * S * Outcome E :=
  match fuel with
  | O => (visited, s, OutOfFuel)
  | Datatypes.S fuel =>
      match ref with
      | None => (visited, s, Continue)
      | Some id =>
          if bool_decide (id ∈ visited) then (visited, s, Continue)
          else match store !! id with
          | None => (visited, s, Continue)
          | Some f =>
              match visit f s with
              | (s, Some err) => ({[id]} ∪ visited, s, Stop err)
              | (s, None) => walkChildren (walkFunctions fuel) (Functions f) ({[id]} ∪ visited) s
              end
          end
      end
  end.

Definition walkRoot (root : FunctionRef) (s : S) : gset nat * S * Outcome E :=
  walkFunctions (Datatypes.S (size (dom store))) root ∅ s.
End traversal.

Definition verifyOneFunction (cancelled : Z → bool) (f : CompiledFunction)
    (report : VerificationReport) : VerificationReport * option VerifierError :=
  if 0 <? zlen (Body f) then RunFunctionVerifier cancelled f report else (report, None).

Definition VerifyBytecode (cancelled : Z → bool) (store : FunctionStore) (root : FunctionRef)
    : VerificationReport * Outcome VerifierError :=
  let '(_, report, outcome) := walkRoot store (verifyOneFunction cancelled) root [] in
  (report, outcome).

Definition verifyFunctionOperandBounds (f : CompiledFunction) (s : unit)
    : unit * option BoundsError :=
  (s, checkBodyBounds f).

Definition VerifyOperandBounds (store : FunctionStore) (root : FunctionRef) : Outcome BoundsError :=
  snd (walkRoot store verifyFunctionOperandBounds root tt).

(** ** The gate on loaded bytecode *)

Inductive LoadError :=
  | loadVerifierError (err : VerifierError)
  | ErrBytecodeVerification (report : VerificationReport)
  | loadBoundsError (err : BoundsError).

Definition verifyLoadedRoot (cancelled : Z → bool) (store : FunctionStore) (root : FunctionRef)
    : Outcome LoadError :=
  match root with
  | None => Continue
  | Some _ =>
      match VerifyBytecode cancelled store root with
      | (_, Stop err) => Stop (loadVerifierError err)
      | (_, OutOfFuel) => OutOfFuel
      | (report, Continue) =>
          if HasErrors report then Stop (ErrBytecodeVerification report)
          else match VerifyOperandBounds store root with
          | Stop err => Stop (loadBoundsError err)
          | OutOfFuel => OutOfFuel
          | Continue => Continue
          end
      end
  end.

Definition VerifyLoadedFileSet (cancelled : Z → bool) (store : FunctionStore)
    (root variableInit : FunctionRef) : Outcome LoadError :=
  match verifyLoadedRoot cancelled store root with
  | Continue => verifyLoadedRoot cancelled store variableInit
  | other => other
  end.
