(* ===== verification/VerifySound.v ===== *)
(** * What the verifier establishes

    The abstract state of [RunFunctionVerifier] starts with all 256 slots of all
    banks defined and never loses one, so the states carry no information:
    what the verifier computes is the set of instructions reachable from the
    entry, and the rows of type-switch tables among them that jump
    backwards. *)

From S2P Require Import Prelude SafeConv Register Opcode Instruction Shapes Spec JumpLayout Jumps.
From S2P Require Import Extension Function Verify.

(** ** The entry state is a fixed point *)

Lemma initial_zget bank :
  0 <= bank < NumRegisterKinds →
  zget initialEntryState bank = Some (replicate entryStateSlotCount registerSlotDefined).
Proof.
  intros. rewrite zget_lookup by lia. apply lookup_replicate_2.
  unfold NumRegisterKinds, RegisterSliceByte in *. lia.
Qed.

Lemma initial_slot slot :
  byte_ok slot →
  zget (replicate entryStateSlotCount registerSlotDefined) slot = Some registerSlotDefined.
Proof.
  intros. rewrite zget_lookup by word. apply lookup_replicate_2. unfold entryStateSlotCount. word.
Qed.

Lemma isDefined_initial bank slot :
  0 <= bank < NumRegisterKinds → byte_ok slot → isDefined initialEntryState bank slot = true.
Proof. intros. unfold isDefined. rewrite initial_zget, initial_slot by done. done. Qed.

Lemma markDefined_initial bank slot :
  0 <= bank < NumRegisterKinds → byte_ok slot →
  markDefined initialEntryState bank slot = initialEntryState.
Proof.
  intros Hb Hs. unfold markDefined. rewrite initial_zget by done.
  rewrite length_replicate. case_if; bool_hyps; [unfold entryStateSlotCount in *; word|].
  apply zset_id. rewrite initial_zget by done. f_equal. symmetry. by apply zset_id, initial_slot.
Qed.

Lemma cloneFrom_initial s :
  length s = Z.to_nat NumRegisterKinds → cloneFrom s initialEntryState = initialEntryState.
Proof.
  intros Hl. transitivity (cloneFrom zeroVerifierState initialEntryState); [|vm_compute; reflexivity].
  unfold cloneFrom. do 13 (destruct s as [|? s]; [done|]). destruct s; [|done]. reflexivity.
Qed.

Lemma joinFrom_initial : joinFrom initialEntryState initialEntryState = (initialEntryState, false).
Proof. vm_compute. reflexivity. Qed.

Lemma applyOpaqueWrites_initial : applyOpaqueWrites initialEntryState = initialEntryState.
Proof. vm_compute. reflexivity. Qed.

#[local] Opaque initialEntryState.

Lemma checkOneRead_initial f pc instr name reads role slot report :
  byte_ok slot → checkOneRead f pc instr initialEntryState name reads role slot report = report.
Proof.
  intros Hs. unfold checkOneRead. destruct reads; [|done]. cbn [negb].
  destruct (KindForRole role) as [bank|] eqn:E; [|done].
  by rewrite isDefined_initial by eauto using KindForRole_range.
Qed.

Lemma applyOneWrite_initial writes role slot :
  byte_ok slot → applyOneWrite writes role slot initialEntryState = initialEntryState.
Proof.
  intros Hs. unfold applyOneWrite. destruct writes; [|done]. cbn [negb].
  destruct (KindForRole role) as [bank|] eqn:E; [|done].
  apply markDefined_initial; eauto using KindForRole_range.
Qed.

(** Interpreting an instruction in the entry state leaves the state alone and
    can only report a backward type-switch row. *)
Lemma interpretInstruction_initial f pc instr report :
  wf_instruction instr →
  interpretInstruction f pc instr initialEntryState report =
    (initialEntryState, checkTypeSwitchCaseForward f pc instr report).
Proof.
  intros (_ & HA & HB & HC).
  unfold interpretInstruction, checkInstructionReads, applyInstructionWrites.
  rewrite !checkOneRead_initial, !applyOneWrite_initial, applyOpaqueWrites_initial by done.
  by repeat case_if.
Qed.

(** ** Reachability *)

(** The successors of one instruction, blocks set aside. *)
Definition flowSuccessors (body : list Instruction) (pc : Z) (instr : Instruction) : list Z :=
  let flags := shFlags (ShapeForInstruction instr) in
  let next := nextPC body pc instr in
  if hasFlag flags ShapeFlagTerminator then terminatorSuccessors body pc instr
  else if hasFlag flags ShapeFlagControlFlow then controlFlowSuccessors body pc next
  else if next <? zlen body then [next] else [].

Inductive reachable (body : list Instruction) : Z → Prop :=
  | reachable_entry : 0 < zlen body → reachable body 0
  | reachable_step pc instr pc' :
      reachable body pc → zget body pc = Some instr → pc' ∈ flowSuccessors body pc instr →
      reachable body pc'.

(** The row of a type-switch table that jumps backwards, as it is reported. *)
Definition backward_row (f : CompiledFunction) (pc : Z) (e : verificationError) : Prop :=
  ∃ instr, zget (Body f) pc = Some instr ∧ iOp instr = OpTypeSwitchCase ∧
    SignedOffset instr < 0 ∧ e = typeSwitchError f pc instr.

Lemma skipExtension_ge fuel body pc : pc <= skipExtension fuel body pc.
Proof.
  revert pc. induction fuel as [|fuel IH]; intros pc; cbn [skipExtension]; [lia|].
  destruct (zget body pc); [|lia]. case_if; [|lia]. specialize (IH (pc + 1)). lia.
Qed.

Lemma JumpFootprint_pos instr : 1 <= JumpFootprint instr.
Proof.
  unfold JumpFootprint. destruct (JumpLayoutOf instr) as [layout n] eqn:E.
  apply layout_nops in E as [? _]. pose proof (WordCount_range layout). lia.
Qed.

Lemma nextPC_gt body pc instr : pc < nextPC body pc instr.
Proof.
  unfold nextPC. pose proof (JumpFootprint_pos instr).
  destruct (fst (JumpLayoutOf instr)); try lia. case_if; [|lia].
  pose proof (skipExtension_ge (length body) body (pc + 1)). unfold skipExtensionWords. lia.
Qed.

Lemma in_range_elem (body : list Instruction) pc pc' : pc' ∈ (if pc <? zlen body then [pc] else []) →
  pc' = pc ∧ pc < zlen body.
Proof. case_if; bool_hyps; set_solver. Qed.

Lemma flowSuccessors_range body pc instr pc' :
  0 <= pc → pc' ∈ flowSuccessors body pc instr → 0 <= pc' < zlen body.
Proof.
  intros Hpc. pose proof (nextPC_gt body pc instr).
  unfold flowSuccessors, terminatorSuccessors, controlFlowSuccessors.
  destruct (JumpTargetAt body pc) as [t|]; repeat case_if; bool_hyps;
    rewrite ?elem_of_app, ?list_elem_of_singleton, ?elem_of_nil; intros; intuition (subst; lia).
Qed.

Lemma reachable_range body pc : reachable body pc → 0 <= pc < zlen body.
Proof.
  induction 1 as [|pc instr pc' Hr IH Hg Hs]; [lia|].
  apply flowSuccessors_range in Hs; lia.
Qed.

(** ** One block *)

(** The instructions a block walk has visited, what it reports of them, and the
    successors it hands back. *)
Record block_walk (f : CompiledFunction) (start : Z) (path succs : list Z)
    (errs : list verificationError) : Prop := {
  bw_start : start ∈ path;
  bw_reach : reachable (Body f) start → Forall (reachable (Body f)) path;
  bw_closed : ∀ pc instr pc', pc ∈ path → zget (Body f) pc = Some instr →
    pc' ∈ flowSuccessors (Body f) pc instr → pc' ∈ path ∨ pc' ∈ succs;
  bw_succs : ∀ pc', pc' ∈ succs → ∃ pc instr, pc ∈ path ∧ zget (Body f) pc = Some instr ∧
    pc' ∈ flowSuccessors (Body f) pc instr;
  bw_errors : ∀ e, e ∈ errs ↔ ∃ pc, pc ∈ path ∧ backward_row f pc e;
}.

Lemma checkTypeSwitch_errors f pc instr report :
  zget (Body f) pc = Some instr →
  ∃ errs, checkTypeSwitchCaseForward f pc instr report = report ++ errs ∧
    ∀ e, e ∈ errs ↔ backward_row f pc e.
Proof.
  intros Hg. unfold checkTypeSwitchCaseForward. case_if; bool_hyps.
  - exists []. split; [by rewrite app_nil_r|]. intros e. split; [by intros ?%elem_of_nil|].
    intros (i & Hi & Ho & Hneg & _). simplify_eq. destruct E; bool_hyps; [done|lia].
  - exists [typeSwitchError f pc instr]. split; [done|]. intros e. rewrite list_elem_of_singleton.
    split; [intros ->; by exists instr|]. intros (i & Hi & _ & _ & ->). by simplify_eq.
Qed.

Lemma block_walk_single f pc instr errs :
  zget (Body f) pc = Some instr → (∀ e, e ∈ errs ↔ backward_row f pc e) →
  block_walk f pc [pc] (flowSuccessors (Body f) pc instr) errs.
Proof.
  intros Hg He. split.
  - apply list_elem_of_here.
  - intros Hr. by apply Forall_singleton.
  - intros p i p' ->%list_elem_of_singleton Hi Hs. simplify_eq. by right.
  - intros p' Hp'. exists pc, instr. split; [apply list_elem_of_here|done].
  - intros e. rewrite He. split; [intros Hb; exists pc; split; [apply list_elem_of_here|done]|].
    by intros (p & ->%list_elem_of_singleton & Hb).
Qed.

Lemma block_walk_cons f pc instr next path succs errs0 errs :
  zget (Body f) pc = Some instr → flowSuccessors (Body f) pc instr = [next] →
  (∀ e, e ∈ errs0 ↔ backward_row f pc e) → block_walk f next path succs errs →
  block_walk f pc (pc :: path) succs (errs0 ++ errs).
Proof.
  intros Hg Hflow He [Hst Hre Hcl Hsu Her]. split.
  - apply list_elem_of_here.
  - intros Hr. constructor; [done|]. apply Hre. eapply reachable_step; [done..|].
    rewrite Hflow. apply list_elem_of_here.
  - intros p i p' [->|Hp]%elem_of_cons Hi Hs.
    + simplify_eq. rewrite Hflow in Hs. apply list_elem_of_singleton in Hs as ->.
      left. by right.
    + destruct (Hcl p i p' Hp Hi Hs); [left; by right|by right].
  - intros p' Hp'. destruct (Hsu _ Hp') as (p & i & ? & ? & ?). exists p, i. split; [by right|done].
  - intros e. rewrite elem_of_app, He, Her. split.
    + intros [Hb|(p & Hp & Hb)]; [exists pc; split; [by left|done]|exists p; split; [by right|done]].
    + intros (p & [->|Hp]%elem_of_cons & Hb); [by left|right; by exists p].
Qed.

Lemma walkBlockLoop_outside fuel f start pc targets current report :
  zlen (Body f) <= pc →
  walkBlockLoop fuel f (Body f) start pc targets current report = ([], current, report).
Proof.
  intros Hpc. destruct fuel as [|fuel]; [done|]. cbn [walkBlockLoop].
  assert (zget (Body f) pc = None) as -> by (apply zget_None; lia). done.
Qed.

Lemma walkBlockLoop_initial f start targets fuel pc report :
  wf_body (Body f) → 0 <= pc < zlen (Body f) → zlen (Body f) - pc < Z.of_nat fuel →
  ∃ path succs errs,
    walkBlockLoop fuel f (Body f) start pc targets initialEntryState report =
      (succs, initialEntryState, report ++ errs) ∧ block_walk f pc path succs errs.
Proof.
  intros Hwf. revert pc report. induction fuel as [|fuel IH]; intros pc report Hpc Hfuel; [lia|].
  destruct (zget_is_Some _ _ Hpc) as [instr Hg]. cbn [walkBlockLoop]. rewrite Hg.
  rewrite interpretInstruction_initial by eauto using wf_body_zget.
  destruct (checkTypeSwitch_errors f pc instr report Hg) as (errs & -> & He).
  pose proof (block_walk_single f pc instr errs Hg He) as Hsingle.
  unfold flowSuccessors in Hsingle.
  destruct (hasFlag _ ShapeFlagTerminator) eqn:Hterm; [by eexists _, _, _|].
  destruct (hasFlag _ ShapeFlagControlFlow) eqn:Hflow; [by eexists _, _, _|].
  set (next := nextPC (Body f) pc instr) in *.
  assert (Hnext : pc < next) by apply nextPC_gt.
  destruct (next <? zlen (Body f)) eqn:Hin; cbn [andb].
  2: { bool_hyps. rewrite walkBlockLoop_outside by done. by eexists _, _, _. }
  case_if; [by eexists _, _, _|]. bool_hyps.
  destruct (IH next (report ++ errs)) as (path & succs & errs' & -> & HB); [lia..|].
  exists (pc :: path), succs, (errs ++ errs'). split; [by rewrite app_assoc|].
  eapply block_walk_cons; [done| |done|done].
  unfold flowSuccessors. rewrite Hterm, Hflow. fold next.
  assert (next <? zlen (Body f) = true) as -> by (apply Z.ltb_lt; lia). done.
Qed.

Lemma walkBlock_initial f start targets report :
  wf_body (Body f) → 0 <= start < zlen (Body f) →
  ∃ path succs errs,
    walkBlock f (Body f) start targets initialEntryState report =
      (succs, initialEntryState, report ++ errs) ∧ block_walk f start path succs errs.
Proof. intros Hwf Hs. apply walkBlockLoop_initial; [done|done|lia]. Qed.

(** ** The worklist *)

(** A visited entry is the entry state, any other is untouched. *)
Definition entries_ok (n : nat) (entries : list verifierState) (visited : list bool) : Prop :=
  length entries = n ∧ length visited = n ∧
  ∀ pc, 0 <= pc < Z.of_nat n →
    zget entries pc = Some (if default false (zget visited pc)
                            then initialEntryState else zeroVerifierState).

Definition is_visited (visited : list bool) (pc : Z) : Prop := zget visited pc = Some true.

Lemma entries_ok_visit n entries visited pc s :
  entries_ok n entries visited → 0 <= pc < Z.of_nat n → s = initialEntryState →
  entries_ok n (zset entries pc s) (zset visited pc true).
Proof.
  intros (He & Hv & H) Hpc ->. split_and!; [by rewrite length_zset..|].
  intros p Hp. rewrite !zget_zset. destruct (pc =? p) eqn:E; bool_hyps; subst.
  - by rewrite !bool_decide_true by lia.
  - by apply H.
Qed.

Lemma enqueue_initial n succs entries visited worklist :
  entries_ok n entries visited →
  ∃ entries' visited' added,
    enqueueVerifierSuccessors succs (Z.of_nat n) initialEntryState entries visited worklist =
      (entries', visited', worklist ++ added) ∧
    entries_ok n entries' visited' ∧ NoDup added ∧
    (∀ pc, pc ∈ added ↔ pc ∈ succs ∧ 0 <= pc < Z.of_nat n ∧ ¬ is_visited visited pc) ∧
    (∀ pc, is_visited visited' pc ↔ is_visited visited pc ∨ pc ∈ added).
Proof.
  revert entries visited worklist.
  induction succs as [|succ succs IH]; intros entries visited worklist Hok;
    cbn [enqueueVerifierSuccessors].
  { exists entries, visited, []. rewrite app_nil_r. split; [done|]. split; [done|].
    split; [constructor|]. split; set_solver. }
  case_if; bool_hyps.
  { destruct (IH entries visited worklist Hok) as (e' & v' & added & Heq & Hok' & Hnd & Ha & Hv).
    exists e', v', added. split; [done|]. split; [done|]. split; [done|]. split; [|done].
    intros pc. rewrite Ha, elem_of_cons. destruct E; bool_hyps; intuition (subst; lia). }
  destruct Hok as (He & Hv & Hz). pose proof (Hz succ ltac:(lia)) as Hsucc.
  destruct (default false (zget visited succ)) eqn:Hvis; cbn [negb].
  - assert (default zeroVerifierState (zget entries succ) = initialEntryState) as ->
      by (by rewrite Hsucc).
    rewrite joinFrom_initial. rewrite zset_id by done.
    destruct (IH entries visited worklist) as (e' & v' & added & Heq & Hok' & Hnd & Ha & Hv'); [done|].
    exists e', v', added. split; [done|]. split; [done|]. split; [done|]. split; [|done].
    assert (is_visited visited succ).
    { unfold is_visited. destruct (zget visited succ) as [[]|]; done. }
    intros pc. rewrite Ha, elem_of_cons. intuition (subst; done).
  - destruct (IH (zset entries succ (cloneFrom (default zeroVerifierState (zget entries succ))
      initialEntryState)) (zset visited succ true) (worklist ++ [succ]))
      as (e' & v' & added & Heq & Hok' & Hnd & Ha & Hv').
    { apply entries_ok_visit; [done|lia|]. rewrite Hsucc. by apply cloneFrom_initial. }
    exists e', v', (succ :: added).
    assert (Hset : ∀ pc, is_visited (zset visited succ true) pc ↔ is_visited visited pc ∨ pc = succ).
    { intros pc. unfold is_visited. rewrite zget_zset.
      destruct (succ =? pc) eqn:E'; bool_hyps; subst.
      - rewrite bool_decide_true by lia. naive_solver.
      - naive_solver. }
    assert (¬ is_visited visited succ).
    { unfold is_visited. intros Hs. by rewrite Hs in Hvis. }
    split; [by rewrite Heq, <- app_assoc|]. split; [done|]. split.
    { constructor; [|done]. rewrite Ha, Hset. naive_solver. }
    split.
    + intros pc. rewrite !elem_of_cons, Ha, Hset.
      destruct (decide (pc = succ)) as [->|]; [|naive_solver]. split; [|naive_solver].
      intros _. split_and!; [by left|lia|lia|done].
    + intros pc. rewrite Hv', Hset, elem_of_cons. naive_solver.
Qed.

Record loop_inv (f : CompiledFunction) (entries : list verifierState) (visited : list bool)
    (worklist popped path : list Z) (errs : list verificationError) : Prop := {
  li_entries : entries_ok (length (Body f)) entries visited;
  li_nodup : NoDup (popped ++ worklist);
  li_visited : ∀ pc, is_visited visited pc ↔ pc ∈ popped ∨ pc ∈ worklist;
  li_popped : ∀ pc, pc ∈ popped → pc ∈ path;
  li_closed : ∀ pc instr pc', pc ∈ path → zget (Body f) pc = Some instr →
    pc' ∈ flowSuccessors (Body f) pc instr → pc' ∈ path ∨ is_visited visited pc';
  li_reach_visited : ∀ pc, is_visited visited pc → reachable (Body f) pc;
  li_reach_path : Forall (reachable (Body f)) path;
  li_errors : ∀ e, e ∈ errs ↔ ∃ pc, pc ∈ path ∧ backward_row f pc e;
}.

Lemma loop_inv_entry f :
  0 < zlen (Body f) →
  loop_inv f (zset (replicate (length (Body f)) zeroVerifierState) 0 initialEntryState)
    (zset (replicate (length (Body f)) false) 0 true) [0] [] [] [].
Proof.
  intros Hlen.
  assert (Hvis : ∀ pc, is_visited (zset (replicate (length (Body f)) false) 0 true) pc ↔ pc = 0).
  { intros pc. unfold is_visited. rewrite zget_zset, length_replicate.
    destruct (0 =? pc) eqn:E; bool_hyps; subst; [by rewrite bool_decide_true by lia|].
    split; [|lia]. unfold zget. case_if; [done|].
    intros [[=] _]%lookup_replicate. }
  split.
  - apply entries_ok_visit; [|lia|done]. split; [apply length_replicate|].
    split; [apply length_replicate|]. intros pc Hpc. rewrite !zget_lookup by lia.
    rewrite !lookup_replicate_2 by lia. done.
  - apply NoDup_singleton.
  - intros pc. rewrite Hvis, list_elem_of_singleton. set_solver.
  - intros pc Hpc. by apply elem_of_nil in Hpc.
  - intros pc i pc' Hpc. by apply elem_of_nil in Hpc.
  - intros pc ->%Hvis. by apply reachable_entry.
  - constructor.
  - intros e. split; [by intros ?%elem_of_nil|]. by intros (pc & ?%elem_of_nil & _).
Qed.

(** One turn of the loop. *)
Lemma loop_inv_step f entries visited worklist pc popped path errs path' succs errs'
    entries' visited' added :
  loop_inv f entries visited (worklist ++ [pc]) popped path errs →
  block_walk f pc path' succs errs' →
  entries_ok (length (Body f)) entries' visited' → NoDup added →
  (∀ p, p ∈ added ↔ p ∈ succs ∧ 0 <= p < zlen (Body f) ∧ ¬ is_visited visited p) →
  (∀ p, is_visited visited' p ↔ is_visited visited p ∨ p ∈ added) →
  loop_inv f entries' visited' (worklist ++ added) (popped ++ [pc]) (path ++ path') (errs ++ errs').
Proof.
  intros [Hok Hnd Hvis Hpop Hcl Hrv Hrp He] [Hst Hre Hbc Hbs Hbe] Hok' Hnda Ha Hv'.
  assert (Hpc : reachable (Body f) pc).
  { apply Hrv, Hvis. right. apply elem_of_app. right. apply list_elem_of_here. }
  assert (Hadd : ∀ p, p ∈ added → reachable (Body f) p).
  { intros p [Hp _]%Ha. destruct (Hbs _ Hp) as (q & i & Hq & Hi & Hf).
    eapply reachable_step; [|done..]. by eapply Forall_forall; [apply Hre|]. }
  split.
  - done.
  - rewrite (Permutation_app_comm worklist added), app_assoc.
    rewrite <- (app_assoc popped [pc] added), (Permutation_app_comm [pc] added).
    rewrite app_assoc, <- app_assoc, (Permutation_app_comm [pc] worklist).
    rewrite <- app_assoc, (Permutation_app_comm added), app_assoc.
    apply NoDup_app. split; [done|]. split; [|done].
    intros p Hp Hpa%Ha. destruct Hpa as (_ & _ & Hn). apply Hn, Hvis. by apply elem_of_app.
  - intros p. rewrite Hv', Hvis, !elem_of_app, list_elem_of_singleton. tauto.
  - intros p. rewrite !elem_of_app, list_elem_of_singleton. intros [Hp| ->]; [left; auto|by right].
  - intros p i p' [Hp|Hp]%elem_of_app Hi Hf; rewrite elem_of_app, Hv'.
    + destruct (Hcl p i p' Hp Hi Hf); tauto.
    + destruct (Hbc p i p' Hp Hi Hf) as [|Hs]; [tauto|]. right.
      destruct (decide (zget visited p' = Some true)) as [|Hn]; [by left|]. right. apply Ha.
      split; [done|]. split; [|done]. eapply flowSuccessors_range; [|done].
      apply zget_Some_range in Hi. lia.
  - intros p [Hp|Hp]%Hv'; auto.
  - apply Forall_app. auto.
  - intros e. rewrite elem_of_app, He, Hbe. setoid_rewrite elem_of_app. naive_solver.
Qed.

(** The starts of the blocks walked and of those still to walk are distinct
    program counters, which bounds the number of turns. *)
Lemma loop_inv_bound f entries visited worklist popped path errs :
  loop_inv f entries visited worklist popped path errs →
  zlen popped + zlen worklist <= zlen (Body f).
Proof.
  intros [_ Hnd Hvis _ _ Hr _ _]. rewrite <- Nat2Z.inj_add, <- length_app.
  apply inj_le.
  transitivity (length (seqZ 0 (zlen (Body f)))); [|rewrite length_seqZ; lia].
  apply submseteq_length, NoDup_submseteq; [done|].
  intros p Hp. apply elem_of_seqZ.
  assert (is_visited visited p) as Hv by (by apply Hvis, elem_of_app).
  apply Hr, reachable_range in Hv. lia.
Qed.

Lemma loop_inv_complete f entries visited popped path errs :
  0 < zlen (Body f) → loop_inv f entries visited [] popped path errs → is_visited visited 0 →
  ∀ pc e, reachable (Body f) pc → backward_row f pc e → e ∈ errs.
Proof.
  intros Hlen [_ _ Hvis Hpop Hcl _ _ He] H0 pc e Hr Hb.
  assert (Hin : ∀ p, is_visited visited p → p ∈ path).
  { intros p [Hp|Hp%elem_of_nil]%Hvis; [by apply Hpop|done]. }
  assert (Hpath : pc ∈ path).
  { clear Hb. induction Hr as [|p i p' Hr IH Hi Hf]; [by apply Hin|].
    destruct (Hcl p i p' IH Hi Hf); [done|by apply Hin]. }
  apply He. by exists pc.
Qed.

Lemma last_snoc_split (l : list Z) x : last l = Some x → l = removelast l ++ [x].
Proof.
  destruct l as [|y l] using rev_ind; [done|].
  rewrite last_snoc, removelast_last. by intros [= ->].
Qed.

Lemma verifierLoop_inv fuel cancelled f cap iterations entries visited worklist popped path report
    errs report' result :
  wf_body (Body f) → loop_inv f entries visited worklist popped path errs →
  is_visited visited 0 → 0 < zlen (Body f) →
  iterations = zlen popped → cap - iterations <= Z.of_nat fuel →
  verifierLoop fuel cancelled f (JumpTargetsOf (Body f)) cap iterations entries visited worklist
    (report ++ errs) = (report', result) →
  ∃ errs', report' = report ++ errs' ∧
    (∀ e, e ∈ errs' → ∃ pc, reachable (Body f) pc ∧ backward_row f pc e) ∧
    (result = None → ∀ pc e, reachable (Body f) pc → backward_row f pc e → e ∈ errs') ∧
    ((∀ i, cancelled i = false) → zlen (Body f) <= cap → result = None).
Proof.
  intros Hwf Hinv H0 Hlen -> Hfuel.
  assert (Hstop : ∀ entries visited worklist popped path errs,
    loop_inv f entries visited worklist popped path errs →
    ∀ e, e ∈ errs → ∃ pc, reachable (Body f) pc ∧ backward_row f pc e).
  { intros ? ? ? ? ? ? [_ _ _ _ _ _ Hr He] e (pc & Hpc & Hb)%He. exists pc.
    split; [by eapply Forall_forall|done]. }
  revert entries visited worklist popped path errs Hinv H0 Hfuel.
  induction fuel as [|fuel IH]; intros entries visited worklist popped path errs Hinv H0 Hfuel.
  all: pose proof (loop_inv_bound _ _ _ _ _ _ _ Hinv) as Hbound.
  all: cbn [verifierLoop]; destruct (last worklist) as [pc|] eqn:Hlast.
  2, 4: apply last_None in Hlast as ->; intros [= <- <-]; exists errs;
    split; [done|split; [by eapply Hstop|split; [|done]]];
    intros _ ???; by eapply loop_inv_complete.
  all: pose proof (last_snoc_split _ _ Hlast) as Hwl;
    assert (zlen popped < zlen (Body f)) by (rewrite Hwl, length_app in Hbound; cbn in Hbound; lia).
  - assert (cap <=? zlen popped = true) as -> by (apply Z.leb_le; lia). intros [= <- <-].
    exists errs. split; [done|]. split; [by eapply Hstop|]. split; [done|]. lia.
  - destruct (cap <=? zlen popped) eqn:Hcap; bool_hyps.
    { intros [= <- <-]. exists errs. split; [done|]. split; [by eapply Hstop|].
      split; [done|]. lia. }
    destruct (_ && cancelled (zlen popped)) eqn:Hc.
    { intros [= <- <-]. exists errs. split; [done|]. split; [by eapply Hstop|]. split; [done|].
      intros Hnc _. by rewrite Hnc, andb_false_r in Hc. }
    rewrite Hwl in Hinv.
    assert (Hpcv : is_visited visited pc).
    { apply (li_visited _ _ _ _ _ _ _ Hinv). right. apply elem_of_app. right.
      apply list_elem_of_here. }
    assert (Hpcr : 0 <= pc < zlen (Body f)).
    { apply reachable_range. by apply (li_reach_visited _ _ _ _ _ _ _ Hinv). }
    destruct (li_entries _ _ _ _ _ _ _ Hinv) as (Hel & Hvl & Hz).
    assert (default zeroVerifierState (zget entries pc) = initialEntryState) as ->.
    { rewrite Hz by done. by rewrite Hpcv. }
    rewrite cloneFrom_initial by done.
    destruct (walkBlock_initial f pc (JumpTargetsOf (Body f)) (report ++ errs) Hwf Hpcr)
      as (path' & succs & errs' & -> & HB).
    destruct (enqueue_initial (length (Body f)) succs entries visited (removelast worklist)
      (li_entries _ _ _ _ _ _ _ Hinv)) as (entries' & visited' & added & -> & Hok' & Hnd & Ha & Hv').
    pose proof (loop_inv_step _ _ _ _ _ _ _ _ _ _ _ _ _ _ Hinv HB Hok' Hnd Ha Hv') as Hinv'.
    intros Hrun. eapply IH; [exact Hinv'| | |].
    + apply Hv'. by left.
    + rewrite length_app; cbn. lia.
    + rewrite length_app; cbn [length]. rewrite Nat2Z.inj_add.
      rewrite app_assoc. exact Hrun.
Qed.

Lemma RunFunctionVerifier_inv cancelled f report report' result :
  wf_body (Body f) → RunFunctionVerifier cancelled f report = (report', result) →
  ∃ errs, report' = report ++ errs ∧
    (∀ e, e ∈ errs → ∃ pc, reachable (Body f) pc ∧ backward_row f pc e) ∧
    (result = None → ∀ pc e, reachable (Body f) pc → backward_row f pc e → e ∈ errs) ∧
    ((∀ i, cancelled i = false) → zlen (Body f) <= maxVerifierIterations → result = None).
Proof.
  intros Hwf. unfold RunFunctionVerifier. case_if; bool_hyps.
  - intros [= <- <-]. exists []. rewrite app_nil_r. split; [done|].
    split; [by intros e ?%elem_of_nil|]. split; [|done].
    intros _ pc e Hr. apply reachable_range in Hr. lia.
  - assert (Hlen : 0 < zlen (Body f)) by lia.
    assert (Hinv := loop_inv_entry f Hlen). rewrite cloneFrom_initial by done.
    intros Hrun. rewrite <- (app_nil_r report) in Hrun.
    apply (verifierLoop_inv _ _ _ _ _ _ _ _ [] [] _ _ _ _ Hwf Hinv) in Hrun as
      (errs & ? & ? & ? & Hlim); [|apply (li_visited _ _ _ _ _ _ _ Hinv); right;
      apply list_elem_of_here|done|done|].
    + exists errs. split_and!; try done. intros Hc Hl. apply Hlim; [done|].
      unfold verifierIterationCapFor, maxVerifierIterations, verifierIterationsPerByteFactor in *.
      lia.
    + unfold verifierIterationCapFor, verifierIterationsPerByteFactor. lia.
Qed.

(** C31: on a body of at most 100000 words, and with a context that is not
    cancelled, the verifier always returns a verdict rather than its
    iteration-limit error, and what it adds to the report is exactly the
    type-switch rows that jump backwards at program counters reachable from
    the entry along fall-through, jump and table edges. *)
Theorem verifier_reports_backward_rows f report cancelled :
  wf_body (Body f) → (∀ i, cancelled i = false) → zlen (Body f) <= maxVerifierIterations →
  ∃ errs, RunFunctionVerifier cancelled f report = (report ++ errs, None) ∧
    ∀ e, e ∈ errs ↔ ∃ pc, reachable (Body f) pc ∧ backward_row f pc e.
Proof.
  intros Hwf Hc Hl. destruct (RunFunctionVerifier cancelled f report) as [report' result] eqn:Hr.
  destruct (RunFunctionVerifier_inv _ _ _ _ _ Hwf Hr) as (errs & -> & Hs & Hcomp & Hlim).
  rewrite (Hlim Hc Hl). exists errs. split; [done|]. intros e. split; [by apply Hs|].
  intros (pc & Hp & Hb). by eapply Hcomp; [apply Hlim| |].
Qed.

Definition sample_switch : CompiledFunction :=
  setBody (NewNamedFunction "f")
    [NewTier1Instruction SubOpTypeSwitchJump 0 0; NewInstruction OpTypeSwitchCase 0 255 255;
     NewTier3Instruction SubOpTier3ReturnVoid].

Theorem verifier_reports_backward_rows_witness :
  wf_body (Body sample_switch) ∧
  ∃ errs, RunFunctionVerifier (λ _, false) sample_switch [] = ([] ++ errs, None) ∧
    ∀ e, e ∈ errs ↔ ∃ pc, reachable (Body sample_switch) pc ∧ backward_row sample_switch pc e.
Proof.
  assert (Hwf : wf_body (Body sample_switch)).
  { split; [eapply bool_decide_unpack; vm_compute; exact I|vm_compute; congruence]. }
  split; [exact Hwf|].
  apply (verifier_reports_backward_rows sample_switch [] (λ _, false) Hwf (λ _, eq_refl)).
  vm_compute. congruence.
Defined.

(** the dataflow part of the verifier is vacuous: whatever the function,
    its length and the state of the context, no run ever reports the read of
    an undefined slot, because the entry state defines every slot and no
    instruction undefines one.  All it reports is type-switch rows that jump
    backwards.  The verifier's documentation presents the undefined reads as
    its purpose. *)
Theorem undefined_reads_never_reported f report cancelled report' result :
  wf_body (Body f) → RunFunctionVerifier cancelled f report = (report', result) →
  ∃ errs, report' = report ++ errs ∧
    Forall (λ e, ∃ pc, backward_row f pc e) errs.
Proof.
  intros Hwf Hr. destruct (RunFunctionVerifier_inv _ _ _ _ _ Hwf Hr) as (errs & -> & Hs & _).
  exists errs. split; [done|]. apply Forall_forall. intros e He.
  destruct (Hs e He) as (pc & _ & Hb). by exists pc.
Qed.

Theorem undefined_reads_never_reported_witness :
  let f := setBody (NewNamedFunction "f") [NewInstruction OpAddInt 0 200 201;
             NewTier3Instruction SubOpTier3ReturnVoid] in
  RunFunctionVerifier (λ _, false) f [] = ([], None) ∧
  ∃ errs, [] = [] ++ errs ∧
    Forall (λ e, ∃ pc, backward_row f pc e) errs.
Proof.
  intros f.
  assert (Hwf : wf_body (Body f)).
  { split; [eapply bool_decide_unpack; vm_compute; exact I|vm_compute; congruence]. }
  assert (Hr : RunFunctionVerifier (λ _, false) f [] = ([], None)) by (vm_compute; reflexivity).
  split; [exact Hr|]. exact (undefined_reads_never_reported f [] _ _ _ Hwf Hr).
Defined.

(** ** Operand bounds *)

(** The operands of an instruction that its shape says name registers. *)
Definition operands_in_range (f : CompiledFunction) (instr : Instruction) : Prop :=
  let shape := ShapeForInstruction instr in
  hasFlag (shFlags shape) ShapeFlagDescribed = true →
  ∀ position role slot bank,
    (position, role, slot) ∈
      [(0, shA shape, iA instr); (1, shB shape, iB instr); (2, shC shape, iC instr)] →
    mask_at (shReads shape) position || mask_at (shWrites shape) position = true →
    KindForRole role = Some bank → slot < registerCount f bank.

Definition site_in_range (f : CompiledFunction) (instr : Instruction) : Prop :=
  ∀ site, CallSiteIndex instr = Some site → site < zlen (CallSites f).

Lemma checkOneOperandBound_None f pc name names role slot :
  checkOneOperandBound f pc name names role slot = None ↔
    (names = true → ∀ bank, KindForRole role = Some bank → slot < registerCount f bank).
Proof.
  unfold checkOneOperandBound. destruct names; cbn [negb]; [|naive_solver].
  destruct (KindForRole role) as [bank|]; [|naive_solver].
  case_if; bool_hyps; split; try done; naive_solver lia.
Qed.

Lemma checkOperandBounds_None f pc instr :
  checkOperandBounds f pc instr (ShapeForInstruction instr) = None ↔
    ∀ position role slot bank,
    (position, role, slot) ∈
      [(0, shA (ShapeForInstruction instr), iA instr); (1, shB (ShapeForInstruction instr), iB instr);
       (2, shC (ShapeForInstruction instr), iC instr)] →
    mask_at (shReads (ShapeForInstruction instr)) position
      || mask_at (shWrites (ShapeForInstruction instr)) position = true →
    KindForRole role = Some bank → slot < registerCount f bank.
Proof.
  unfold checkOperandBounds.
  destruct (checkOneOperandBound f pc "A" _ _ _) eqn:EA.
  { split; [done|]. intros H. rewrite <- EA. apply checkOneOperandBound_None.
    intros Hm bank Hb. eapply H; [|done|done]. apply list_elem_of_here. }
  destruct (checkOneOperandBound f pc "B" _ _ _) eqn:EB.
  { split; [done|]. intros H. rewrite <- EB. apply checkOneOperandBound_None.
    intros Hm bank Hb. eapply H; [|done|done]. set_solver. }
  rewrite checkOneOperandBound_None in *. split.
  - intros HC position role slot bank Hin. rewrite !elem_of_cons, elem_of_nil in Hin.
    destruct Hin as [[= -> -> ->]|[[= -> -> ->]|[[= -> -> ->]|[]]]]; auto.
  - intros H Hm bank Hb. eapply H; [|done|done]. set_solver.
Qed.

Definition is_extension (body : list Instruction) (pc : Z) : Prop :=
  ∃ word, zget body pc = Some word ∧ iOp word = OpExt.

(** The extension words after [pc], up to the one at [k]. *)
Definition extensionWords (body : list Instruction) (pc k : Z) : list Instruction :=
  take (Z.to_nat (k - pc)) (drop (Z.to_nat (pc + 1)) body).

Definition word_in_range (f : CompiledFunction) (reads writes : ExtensionIntMask)
    (word : Instruction) : Prop :=
  ∀ position slot, (position, slot) ∈ [(0, iA word); (1, iB word); (2, iC word)] →
    mask_at reads position || mask_at writes position = true → slot < registerCount f RegisterInt.

(** The extension words after [last] that belong to the instruction at [pc]
    name integer registers inside the file. *)
Definition extension_in_range (f : CompiledFunction) (owner : Instruction) (pc last : Z) : Prop :=
  ∀ k word reads writes, last < k → (∀ j, pc < j <= k → is_extension (Body f) j) →
    zget (Body f) k = Some word →
    ExtensionIntUse owner (extensionWords (Body f) pc k) = (reads, writes, true) →
    word_in_range f reads writes word.

Lemma checkExtensionWord_None f last reads writes word :
  checkExtensionWord f last reads writes word = None ↔ word_in_range f reads writes word.
Proof.
  unfold checkExtensionWord, word_in_range. cbv zeta beta. split.
  - assert (Hbad : ∀ m slot, m && negb (slot <? registerCount f RegisterInt) = false →
      m = true → slot < registerCount f RegisterInt).
    { intros [] slot; [|done]. cbn [andb]. intros ?%negb_false_iff _. by apply Z.ltb_lt. }
    repeat case_if; try done. intros _ position slot Hin.
    rewrite !elem_of_cons, elem_of_nil in Hin.
    destruct Hin as [[= -> ->]|[[= -> ->]|[[= -> ->]|[]]]]; by apply Hbad.
  - intros H.
    assert (Hi : ∀ position slot, (position, slot) ∈ [(0, iA word); (1, iB word); (2, iC word)] →
      (mask_at reads position || mask_at writes position)
      && negb (slot <? registerCount f RegisterInt) = false).
    { intros position slot Hin. destruct (mask_at reads position || _) eqn:E; [|done].
      specialize (H _ _ Hin E). apply negb_false_iff, Z.ltb_lt. done. }
    rewrite !Hi; [done|set_solver..].
Qed.

Lemma extensionBoundsLoop_spec fuel f owner pc last :
  zlen (Body f) - last <= Z.of_nat fuel → pc <= last →
  (∀ j, pc < j <= last → is_extension (Body f) j) →
  (snd (extensionBoundsLoop fuel f owner pc last) = None ↔ extension_in_range f owner pc last) ∧
  (snd (extensionBoundsLoop fuel f owner pc last) = None →
   fst (extensionBoundsLoop fuel f owner pc last) + 1 = skipExtension fuel (Body f) (last + 1)).
Proof.
  revert last. induction fuel as [|fuel IH]; intros last Hfuel Hpc Hext;
    cbn [extensionBoundsLoop skipExtension].
  { split; [|done]. split; [|done]. intros _ k word ? ? Hk Hall Hw.
    apply zget_Some_range in Hw. lia. }
  assert (Hend : ¬ is_extension (Body f) (last + 1) → extension_in_range f owner pc last).
  { intros Hn k word ? ? Hk Hall _ _. destruct Hn. apply Hall. lia. }
  destruct (zget (Body f) (last + 1)) as [word|] eqn:Hw.
  2: { split; [|done]. split; [intros _; apply Hend|done]. intros (w & ? & _). congruence. }
  destruct (iOp word =? OpExt) eqn:Hop; cbn [negb]; bool_hyps.
  2: { split; [|done]. split; [intros _; apply Hend|done]. intros (w & ? & ?). congruence. }
  assert (Hext' : ∀ j, pc < j <= last + 1 → is_extension (Body f) j).
  { intros j Hj. destruct (decide (j = last + 1)) as [->|]; [by exists word|apply Hext; lia]. }
  destruct (IH (last + 1)) as [Hiff Hskip]; [lia|lia|done|].
  assert (Hsplit : extension_in_range f owner pc last ↔
    (∀ reads writes, ExtensionIntUse owner (extensionWords (Body f) pc (last + 1)) =
      (reads, writes, true) → word_in_range f reads writes word) ∧
    extension_in_range f owner pc (last + 1)).
  { split.
    - intros H. split; [intros r w; by apply H; try done; lia|].
      intros k w' r w Hk. apply H. lia.
    - intros [H1 H2] k w' r w Hk Hall Hw' Hu. destruct (decide (k = last + 1)) as [->|].
      + simplify_eq. by apply H1.
      + by eapply (H2 k); [lia|..]. }
  unfold extensionWords in Hsplit.
  destruct (ExtensionIntUse owner _) as [[reads writes] ok] eqn:Hu.
  destruct ok; cbn [negb].
  - destruct (checkExtensionWord f (last + 1) reads writes word) eqn:Hc; cbn [fst snd].
    + split; [|done]. split; [done|]. intros [H _]%Hsplit. specialize (H _ _ eq_refl).
      apply (checkExtensionWord_None f (last + 1)) in H. congruence.
    + split; [|done]. rewrite Hiff, Hsplit. split; [|naive_solver].
      intros H. split; [|done]. intros r w [= <- <-]. by apply (checkExtensionWord_None f (last + 1)).
  - split; [|done]. rewrite Hiff, Hsplit. split; [|naive_solver]. intros H. split; [done|done].
Qed.

(** The positions at which an instruction starts when the stream is read from
    [start]: extension words belong to the instruction before them. *)
Definition instructionEnd (body : list Instruction) (pc : Z) (instr : Instruction) : Z :=
  if hasFlag (shFlags (ShapeForInstruction instr)) ShapeFlagFollowsExtension
  then skipExtensionWords body (pc + 1) else pc + 1.

Inductive instruction_at (body : list Instruction) (start : Z) : Z → Prop :=
  | instruction_here : instruction_at body start start
  | instruction_later instr pc :
      zget body start = Some instr →
      instruction_at body (instructionEnd body start instr) pc → instruction_at body start pc.

Definition instruction_in_range (f : CompiledFunction) (pc : Z) (instr : Instruction) : Prop :=
  site_in_range f instr ∧ operands_in_range f instr ∧
  (hasFlag (shFlags (ShapeForInstruction instr)) ShapeFlagFollowsExtension = true →
   extension_in_range f instr pc pc).

Lemma checkInstructionBounds_spec f pc instr :
  0 <= pc →
  (snd (checkInstructionBounds f pc instr) = None ↔ instruction_in_range f pc instr) ∧
  (snd (checkInstructionBounds f pc instr) = None →
   fst (checkInstructionBounds f pc instr) + 1 = instructionEnd (Body f) pc instr).
Proof.
  intros Hpc. unfold checkInstructionBounds, instruction_in_range, instructionEnd.
  set (siteError := match CallSiteIndex instr with
    | Some site => if zlen (CallSites f) <=? site then Some (ErrCallSiteOutOfRange pc site) else None
    | None => None end).
  assert (Hsite : siteError = None ↔ site_in_range f instr).
  { unfold siteError, site_in_range. destruct (CallSiteIndex instr); [|naive_solver].
    case_if; bool_hyps; split; try done; naive_solver lia. }
  destruct siteError; cbn [snd fst]; [split; [|done]; split; [done|intros [?%Hsite _]; done]|].
  set (operandError := if hasFlag _ ShapeFlagDescribed then _ else None).
  assert (Hoper : operandError = None ↔ operands_in_range f instr).
  { unfold operandError, operands_in_range. case_if; [|naive_solver].
    rewrite checkOperandBounds_None. naive_solver. }
  destruct operandError; cbn [snd fst];
    [split; [|done]; split; [done|intros (_ & ?%Hoper & _); done]|].
  destruct (hasFlag _ ShapeFlagFollowsExtension) eqn:HF; cbn [negb fst snd]; [|naive_solver].
  unfold checkExtensionBounds, skipExtensionWords.
  destruct (extensionBoundsLoop_spec (length (Body f)) f instr pc pc) as [H1 H2];
    [lia|lia|intros; lia|]. split; [|done]. rewrite H1. naive_solver.
Qed.

Definition body_in_range (f : CompiledFunction) : Prop :=
  ∀ pc instr, instruction_at (Body f) 0 pc → zget (Body f) pc = Some instr →
    instruction_in_range f pc instr.

Lemma bodyBoundsLoop_spec fuel f start :
  0 <= start → zlen (Body f) - start < Z.of_nat fuel →
  bodyBoundsLoop fuel f start = None ↔
    ∀ pc instr, instruction_at (Body f) start pc → zget (Body f) pc = Some instr →
      instruction_in_range f pc instr.
Proof.
  revert start. induction fuel as [|fuel IH]; intros start Hs Hf; cbn [bodyBoundsLoop].
  { split; [|done]. intros _ pc instr Hat Hg.
    destruct Hat as [|i pc Hg' _]; [apply zget_Some_range in Hg|apply zget_Some_range in Hg']; lia. }
  destruct (zget (Body f) start) as [instr|] eqn:Hg.
  2: { split; [|done]. intros _ pc i Hat Hi. destruct Hat; congruence. }
  destruct (checkInstructionBounds_spec f start instr Hs) as [H1 H2].
  destruct (checkInstructionBounds f start instr) as [last [err|]]; cbn [fst snd] in *.
  { split; [done|]. intros H. assert (Some err = None); [|done].
    apply H1. apply H; [apply instruction_here|done]. }
  rewrite H2 by done.
  assert (Hgt : start < instructionEnd (Body f) start instr).
  { unfold instructionEnd. case_if; [|lia].
    pose proof (skipExtension_ge (length (Body f)) (Body f) (start + 1)).
    unfold skipExtensionWords. lia. }
  rewrite IH by lia. split.
  - intros H pc i Hat Hi. destruct Hat as [|i' pc Hg' Hat]; simplify_eq; [by apply H1|by apply H].
  - intros H pc i Hat. apply H. by eapply instruction_later.
Qed.

Lemma checkBodyBounds_None f : checkBodyBounds f = None ↔ body_in_range f.
Proof. apply bodyBoundsLoop_spec; lia. Qed.

(** ** Every reachable function is visited *)

Inductive reachable_function (store : FunctionStore) (root : FunctionRef)
    : nat → CompiledFunction → Prop :=
  | reachable_root id f : root = Some id → store !! id = Some f → reachable_function store root id f
  | reachable_child id f child g :
      reachable_function store root id f → Some child ∈ Functions f → store !! child = Some g →
      reachable_function store root child g.

Lemma reachable_function_trans store child root id f g i h :
  reachable_function store root id f → Some child ∈ Functions f → store !! child = Some g →
  reachable_function store (Some child) i h → reachable_function store root i h.
Proof.
  intros Hr Hin Hs. induction 1 as [i h [= ->] Hh|i h c g' _ IH Hc Hg'].
  - by eapply reachable_child.
  - by eapply reachable_child.
Qed.

Lemma reachable_function_ref store root id f :
  reachable_function store root id f → ∃ c h, root = Some c ∧ store !! c = Some h.
Proof. induction 1; eauto. Qed.

Lemma reachable_function_lookup store root id f :
  reachable_function store root id f → store !! id = Some f.
Proof. by destruct 1. Qed.

(** A visit that ends well in an acceptable state started in one and found the
    function good; a visit that stops found it bad. *)
Section traversal_facts.
Context {S E : Type} (store : FunctionStore) (visit : CompiledFunction → S → S * option E).
Context (acceptable : S → Prop) (good : CompiledFunction → Prop).
Context (visit_good : ∀ id f s s', store !! id = Some f → visit f s = (s', None) →
  acceptable s' → acceptable s ∧ good f).

Definition visited_closed (before after : gset nat) : Prop :=
  ∀ id f, id ∈ after → id ∉ before → store !! id = Some f →
    good f ∧ ∀ child g, Some child ∈ Functions f → store !! child = Some g → child ∈ after.

Lemma visited_closed_trans V1 V2 V3 :
  V2 ⊆ V3 → visited_closed V1 V2 → visited_closed V2 V3 → visited_closed V1 V3.
Proof.
  intros Hsub H12 H23 id f Hid Hn Hf. destruct (decide (id ∈ V2)) as [H2|H2].
  - destruct (H12 id f H2 Hn Hf) as [Hg Hc]. split; [done|]. intros c g Hin Hg'.
    by apply Hsub, (Hc c g).
  - by apply (H23 id f).
Qed.

(** What one call of the traversal on [refs] promises. *)
Definition walk_ok (refs : list FunctionRef) (V : gset nat) (s : S)
    (result : gset nat * S * Outcome E) : Prop :=
  let '(V', s', o) := result in
  V ⊆ V' ∧ o ≠ OutOfFuel ∧
  (o = Continue → acceptable s' → acceptable s ∧ visited_closed V V' ∧
    ∀ id f, Some id ∈ refs → store !! id = Some f → id ∈ V') ∧
  (∀ e, o = Stop e → ∃ ref id f s0 s1, ref ∈ refs ∧ reachable_function store ref id f ∧
    visit f s0 = (s1, Some e)).

Lemma walkChildren_ok step refs V s (fuelled : gset nat → Prop) :
  (∀ V V' : gset nat, V ⊆ V' → fuelled V → fuelled V') →
  (∀ r V s, fuelled V → walk_ok [r] V s (step r V s)) → fuelled V →
  walk_ok refs V s (walkChildren step refs V s).
Proof.
  intros Hmono Hstep. revert V s. induction refs as [|r refs IH]; intros V s HV; cbn [walkChildren].
  { split; [done|]. split; [done|]. split; [|done]. intros _ Ha. split; [done|].
    split; [intros id f ? ?; done|]. intros id f Hin. by apply elem_of_nil in Hin. }
  pose proof (Hstep r V s HV) as H1. destruct (step r V s) as [[V1 s1] o1].
  destruct H1 as (Hsub & Hfuel & Hgood & Hbad).
  destruct o1 as [|err|]; [|split; [done|]; split; [done|]; split; [done|]|done].
  - pose proof (IH V1 s1 (Hmono _ _ Hsub HV)) as H2.
    destruct (walkChildren step refs V1 s1) as [[V2 s2] o2].
    destruct H2 as (Hsub2 & Hfuel2 & Hgood2 & Hbad2).
    split; [by transitivity V1|]. split; [done|]. split.
    + intros Ho Ha. destruct (Hgood2 Ho Ha) as (Ha1 & Hc2 & Hr2).
      destruct (Hgood eq_refl Ha1) as (Ha0 & Hc1 & Hr1). split; [done|].
      split; [by eapply visited_closed_trans|].
      intros id f [Hid|Hid]%elem_of_cons Hf; [|by eapply Hr2].
      apply Hsub2. eapply Hr1; [|done]. rewrite Hid. apply list_elem_of_here.
    + intros e He. destruct (Hbad2 e He) as (ref & id & f & s3 & s4 & Hin & ?).
      exists ref, id, f, s3, s4. split; [by right|done].
  - intros e He. destruct (Hbad e He) as (ref & id & f & s3 & s4 & Hin & ?).
    exists ref, id, f, s3, s4. apply list_elem_of_singleton in Hin as ->.
    split; [by left|done].
Qed.

Lemma walkFunctions_ok fuel ref V s :
  (size (dom store ∖ V) < fuel)%nat → walk_ok [ref] V s (walkFunctions store visit fuel ref V s).
Proof.
  revert ref V s. induction fuel as [|fuel IH]; intros ref V s Hfuel; [lia|]. cbn [walkFunctions].
  assert (Hskip : (∀ id f, ref = Some id → store !! id = Some f → id ∈ V) →
    walk_ok [ref] V s (V, s, Continue)).
  { intros H. split; [done|]. split; [done|]. split; [|done]. intros _ Ha. split; [done|].
    split; [by intros ????|]. intros id f Hin%list_elem_of_singleton Hf. by eapply H. }
  destruct ref as [id|]; [|by apply Hskip].
  case_bool_decide as HV; [apply Hskip; by intros ?? [= ->]|].
  destruct (store !! id) as [f|] eqn:Hf; [|apply Hskip; intros ?? [= ->]; congruence].
  destruct (visit f s) as [s1 [err|]] eqn:Hv.
  { split; [set_solver|]. split; [done|]. split; [done|]. intros e [= ->].
    exists (Some id), id, f, s, s1. split; [apply list_elem_of_here|].
    split; [by apply reachable_root|done]. }
  assert (HV' : (size (dom store ∖ ({[id]} ∪ V)) < fuel)%nat).
  { assert (size (dom store ∖ ({[id]} ∪ V)) < size (dom store ∖ V))%nat; [|lia].
    apply subset_size. assert (id ∈ dom store) by (by eapply elem_of_dom_2). set_solver. }
  pose proof (walkChildren_ok (walkFunctions store visit fuel) (Functions f) ({[id]} ∪ V) s1
    (λ V, (size (dom store ∖ V) < fuel)%nat)) as Hch.
  destruct (walkChildren _ _ _ _) as [[V2 s2] o2].
  destruct Hch as (Hsub & Hno & Hgood & Hbad).
  { intros W W' HW HWf. eapply Nat.le_lt_trans; [|exact HWf]. apply subseteq_size. set_solver. }
  { intros r W t HW. by apply IH. }
  { done. }
  split; [set_solver|]. split; [done|]. split.
  - intros Ho Ha. destruct (Hgood Ho Ha) as (Ha1 & Hc & Hr).
    destruct (visit_good _ _ _ _ Hf Hv Ha1) as [Ha0 Hgf]. split; [done|]. split.
    + intros i g Hi Hn Hg. destruct (decide (i = id)) as [->|Hne].
      * simplify_eq. split; [done|]. intros c h Hin Hh. by eapply Hr.
      * apply (Hc i g); [done|set_solver|done].
    + intros i g Hin%list_elem_of_singleton Hg. simplify_eq. apply Hsub. set_solver.
  - intros e He. destruct (Hbad e He) as (ref & i & g & s3 & s4 & Hin & Hr & Hve).
    exists (Some id), i, g, s3, s4. split; [apply list_elem_of_here|]. split; [|done].
    destruct (reachable_function_ref _ _ _ _ Hr) as (c & h & -> & Hh).
    eapply reachable_function_trans; [by apply reachable_root|done..].
Qed.

(** The whole traversal: it has enough fuel, a verdict of [Continue] covers every
    reachable function, and a stop comes from one of them. *)
Lemma walkRoot_ok root s V' s' o :
  walkRoot store visit root s = (V', s', o) →
  o ≠ OutOfFuel ∧
  (o = Continue → acceptable s' → ∀ id f, reachable_function store root id f → good f) ∧
  (∀ e, o = Stop e → ∃ id f s0 s1, reachable_function store root id f ∧
    visit f s0 = (s1, Some e)).
Proof.
  intros Hw. unfold walkRoot in Hw.
  pose proof (walkFunctions_ok (Datatypes.S (size (dom store))) root ∅ s) as H.
  rewrite Hw in H. destruct H as (_ & Hno & Hgood & Hbad).
  { rewrite difference_empty_L. lia. }
  split; [done|]. split.
  - intros Ho Ha. destruct (Hgood Ho Ha) as (_ & Hc & Hr).
    assert (Hin : ∀ id f, reachable_function store root id f → id ∈ V').
    { induction 1 as [id f -> Hf|id f c g Hp IH Hch Hg].
      - eapply Hr; [apply list_elem_of_here|done].
      - pose proof (reachable_function_lookup _ _ _ _ Hp) as Hf.
        destruct (Hc id f IH ltac:(set_solver) Hf) as [_ H]. by eapply H. }
    intros id f Hr'. pose proof (reachable_function_lookup _ _ _ _ Hr') as Hf.
    by destruct (Hc id f (Hin _ _ Hr') ltac:(set_solver) Hf).
  - intros e He. destruct (Hbad e He) as (ref & id & f & s0 & s1 & ->%list_elem_of_singleton & H).
    by exists id, f, s0, s1.
Qed.
End traversal_facts.

Lemma operand_bounds_decide store root :
  VerifyOperandBounds store root ≠ OutOfFuel ∧
  (VerifyOperandBounds store root = Continue ↔
    ∀ id f, reachable_function store root id f → body_in_range f).
Proof.
  unfold VerifyOperandBounds.
  destruct (walkRoot store verifyFunctionOperandBounds root tt) as [[V s] o] eqn:Hw.
  destruct (walkRoot_ok store verifyFunctionOperandBounds (λ _, True) body_in_range) with
    (root := root) (s := tt) (V' := V) (s' := s) (o := o) as (Hno & Hgood & Hbad); [|done|].
  { intros _ f [] s' _ [= <- Hf] _. split; [done|]. by apply checkBodyBounds_None. }
  cbn [snd]. split; [done|]. split; [intros ->; by apply Hgood|].
  intros H. destruct o as [|e|]; [done| |done].
  destruct (Hbad e eq_refl) as (id & f & s0 & s1 & Hr & Hv).
  apply H, checkBodyBounds_None in Hr. unfold verifyFunctionOperandBounds in Hv. congruence.
Qed.

(** the operand bounds check accepts a program exactly when, in every
    function reachable from the root through the function tables, every
    instruction read from the start of the body, extension words counted
    with their owner, keeps its call-site index inside the call-site table,
    each operand byte its shape names as a register inside the declared bank,
    and each extension byte recorded as an integer register inside the
    integer file.  Sharing and cycles between the tables do not matter, and
    the traversal never exhausts its fuel. *)
Theorem operand_bounds_decide_range store root :
  VerifyOperandBounds store root ≠ OutOfFuel ∧
  (VerifyOperandBounds store root = Continue ↔
    ∀ id f, reachable_function store root id f → body_in_range f).
Proof. apply operand_bounds_decide. Qed.
Definition no_backward_rows (f : CompiledFunction) : Prop :=
  ∀ pc e, reachable (Body f) pc → ¬ backward_row f pc e.

Lemma verifyOneFunction_clean cancelled f report report' :
  wf_body (Body f) → verifyOneFunction cancelled f report = (report', None) → report' = [] →
  report = [] ∧ no_backward_rows f.
Proof.
  intros Hwf Hv ->. unfold verifyOneFunction in Hv. revert Hv. case_if; bool_hyps.
  - intros Hv. destruct (RunFunctionVerifier_inv _ _ _ _ _ Hwf Hv) as (errs & Heq & _ & Hc & _).
    symmetry in Heq. apply app_eq_nil in Heq as [-> ->]. split; [done|].
    intros pc e Hr Hb. by apply (Hc eq_refl pc e Hr), elem_of_nil in Hb.
  - intros [= ->]. split; [done|]. intros pc e Hr. apply reachable_range in Hr. lia.
Qed.

Lemma verifyLoadedRoot_sound cancelled store root :
  (∀ id f, store !! id = Some f → wf_body (Body f)) →
  verifyLoadedRoot cancelled store root = Continue →
  ∀ id f, reachable_function store root id f → body_in_range f ∧ no_backward_rows f.
Proof.
  intros Hwf Hv id f Hr. destruct root as [r|].
  2: { apply reachable_function_ref in Hr as (? & ? & ? & _). done. }
  unfold verifyLoadedRoot, VerifyBytecode in Hv.
  destruct (walkRoot store (verifyOneFunction cancelled) (Some r) []) as [[V report] o] eqn:Hw.
  destruct (walkRoot_ok store (verifyOneFunction cancelled) (λ r, r = []) no_backward_rows) with
    (root := Some r) (s := @nil verificationError) (V' := V) (s' := report) (o := o)
    as (_ & Hgood & _); [|done|].
  { intros i g s s' Hg Hv' Hs'. eapply verifyOneFunction_clean; eauto. }
  destruct o as [|e|]; [|done|done].
  destruct (HasErrors report) eqn:He; [done|].
  assert (report = []) as ->.
  { unfold HasErrors in He. destruct report; [done|]. bool_hyps. cbn [length] in He. lia. }
  destruct (operand_bounds_decide store (Some r)) as [_ Hb].
  split; [|by eapply Hgood]. destruct (VerifyOperandBounds store (Some r)); [|done|done].
  by eapply Hb.
Qed.

Lemma loaded_body_in_range cancelled store root variableInit :
  (∀ id f, store !! id = Some f → wf_body (Body f)) →
  VerifyLoadedFileSet cancelled store root variableInit = Continue →
  ∀ r id f, r ∈ [root; variableInit] → reachable_function store r id f →
    body_in_range f ∧ no_backward_rows f.
Proof.
  intros Hwf Hv. unfold VerifyLoadedFileSet in Hv.
  destruct (verifyLoadedRoot cancelled store root) eqn:Hroot; [|done|done].
  intros r id f [->|[->|[]%elem_of_nil]%elem_of_cons]%elem_of_cons.
  - by apply (verifyLoadedRoot_sound cancelled).
  - by apply (verifyLoadedRoot_sound cancelled).
Qed.

(** bytecode loaded from a file that passes the gate, from the main root or
    from the variable initialiser, has every described operand, call site
    and recorded extension register of every reachable function in range,
    and no reachable type-switch row that jumps backwards. *)
Theorem loaded_bytecode_is_bounded cancelled store root variableInit :
  (∀ id f, store !! id = Some f → wf_body (Body f)) →
  VerifyLoadedFileSet cancelled store root variableInit = Continue →
  ∀ r id f, r ∈ [root; variableInit] → reachable_function store r id f →
    body_in_range f ∧ no_backward_rows f.
Proof. apply loaded_body_in_range. Qed.

(** A program of two functions that share a child with themselves. *)
Definition loaded_sample : FunctionStore :=
  {[ 0%nat := setFunctions (setBody (NewNamedFunction "main")
       [NewInstruction OpAddIntJump 0 0 0; NewInstruction OpExt 0 0 0;
        NewTier3Instruction SubOpTier3ReturnVoid]) [Some 1%nat; None; Some 1%nat];
     1%nat := setFunctions (setBody (NewNamedFunction "f")
       [NewTier3Instruction SubOpTier3ReturnVoid]) [Some 0%nat] ]}.

(** The same with one integer register declared in [main]. *)
Definition withIntRegisters (n : Z) (f : CompiledFunction) : CompiledFunction :=
  NewCompiledFunction (Name f) (Body f) (Functions f) (StringConstants f)
    (BoolConstants f) (UintConstants f) (IntConstants f) (StringConstIndex f)
    (UintConstIndex f) (IntConstIndex f) (CallSites f) (ParameterKinds f)
    (ParameterRegisters f) (ResultKinds f) (zset (NumRegisters f) RegisterInt n) (methodTable f)
    (maxConstantPoolSize f) (maxSpecialisations f) (maxMethods f)
    (EmittedInlineBlocker f) (JumpRangeExceeded f).

Definition loaded_store : FunctionStore := withIntRegisters 1 <$> loaded_sample.

Lemma wf_store (store : FunctionStore) :
  map_Forall (λ _ f, wf_body (Body f)) store →
  ∀ id f, store !! id = Some f → wf_body (Body f).
Proof. intros H id f Hf. by apply (H id f). Qed.

#[export] Instance wf_body_dec body : Decision (wf_body body).
Proof. unfold wf_body. apply _. Defined.

Theorem loaded_bytecode_is_bounded_witness :
  VerifyLoadedFileSet (λ _, false) loaded_sample (Some 0%nat) None ≠ Continue ∧
  ∃ f, loaded_store !! 1%nat = Some f ∧ body_in_range f.
Proof.
  split; [vm_compute; congruence|].
  assert (Hwf : ∀ id f, loaded_store !! id = Some f → wf_body (Body f)).
  { apply wf_store. eapply bool_decide_unpack. vm_compute. exact I. }
  assert (Hv : VerifyLoadedFileSet (λ _, false) loaded_store (Some 0%nat) None = Continue)
    by (vm_compute; reflexivity).
  eexists. split; [reflexivity|].
  refine (proj1 (loaded_bytecode_is_bounded _ loaded_store (Some 0%nat) None Hwf Hv (Some 0%nat)
    1%nat _ _ _)).
  - left.
  - eapply reachable_child; [eapply reachable_root; reflexivity| |reflexivity]. left.
Defined.

(** the gate does not look at where jumps land or at whether the words an
    operation extends over are there, although the package's documentation
    says it confirms both: a conditional jump far outside the body, and an
    operation whose extension word is missing, are accepted. *)
Theorem gate_ignores_jumps_and_extensions :
  let wild := setBody (NewNamedFunction "wild")
    [NewTier1Instruction SubOpJump 255 127; NewTier3Instruction SubOpTier3ReturnVoid] in
  let truncated := withIntRegisters 1 (setBody (NewNamedFunction "truncated")
    [NewInstruction OpAddIntJump 0 0 0]) in
  let store := {[ 0%nat := wild; 1%nat := truncated ]} : FunctionStore in
  VerifyLoadedFileSet (λ _, false) store (Some 0%nat) (Some 1%nat) = Continue ∧
  JumpTargetAt (Body wild) 0 = Some 32768 ∧ zlen (Body wild) = 2 ∧
  hasFlag (shFlags (ShapeForInstruction (NewInstruction OpAddIntJump 0 0 0)))
    ShapeFlagFollowsExtension = true ∧
  extensionWordAt (Body truncated) 1 = None.
Proof. vm_compute. repeat split; reflexivity. Qed.
