(* ===== verification/CallGraph.v ===== *)
(** * The static call graph

    [internal/engine/program/call_graph.go] and [call_depth_analysis.go]:
    the adjacency list of direct calls, the cycle test that enforces a
    policy without recursion, Tarjan's strongly connected components, and the
    estimate of the call depth.

    Indices into [colour], [indices] and [memo] come from adjacency lists
    whose entries are below the number of nodes, as [BuildCallAdjacency]
    produces them; the cycle test would panic on any other. *)

From stdpp Require Import relations.
From S2P Require Import Prelude SafeConv Register Opcode Instruction Function.

Definition maxCallGraphRecursionDepth : nat := 4096.
Definition recursiveSCCFanout : Z := 8.
Definition recursiveSCCMinimumDepth : Z := 256.

Notation Adjacency := (list (list Z)) (only parsing).

Definition neighbours (adjacency : Adjacency) (u : Z) : list Z := default [] (zget adjacency u).

(** ** The adjacency list *)

(** The loop over the call sites of one function; [functionCount] is
    [len(functions)]. *)
Fixpoint callTargets (functionCount : Z) (sites : list CallSite) (seen : gset Z) : list Z :=
  match sites with
  | [] => []
  | cs :: rest =>
      if IsClosure cs || IsMethod cs then callTargets functionCount rest seen
      else
        let index := FunctionIndex cs in
        if (index <? functionCount) && negb (bool_decide (index ∈ seen))
        then index :: callTargets functionCount rest ({[index]} ∪ seen)
        else callTargets functionCount rest seen
  end.

Definition BuildCallAdjacency (functions : list CompiledFunction) : Adjacency :=
  map (λ f, callTargets (zlen functions) (CallSites f) ∅) functions.

(** ** Cycle detection *)

Inductive Colour := white | grey | black.

#[export] Instance Colour_eq_dec : EqDecision Colour.
Proof. solve_decision. Defined.

Definition colour_of (colour : list Colour) (u : Z) : Colour := default white (zget colour u).

(** The loop over the neighbours of a node; [dfs] is the recursive call. *)
Fixpoint dfsNeighbours (dfs : Z → list Colour → bool * list Colour) (vs : list Z)
    (colour : list Colour) : bool * list Colour :=
  match vs with
  | [] => (false, colour)
  | v :: rest =>
      match colour_of colour v with
      | grey => (true, colour)
      | white =>
          match dfs v colour with
          | (true, colour) => (true, colour)
          | (false, colour) => dfsNeighbours dfs rest colour
          end
      | black => dfsNeighbours dfs rest colour
      end
  end.

(** [remaining] is [maxCallGraphRecursionDepth - depth]: the recursion gives up,
    and reports a cycle, when it reaches zero. *)
Fixpoint dfs (remaining : nat) (adjacency : Adjacency) (u : Z) (colour : list Colour)
    : bool * list Colour :=
  match remaining with
  | O => (true, colour)
  | S remaining =>
      let colour := zset colour u grey in
      match dfsNeighbours (dfs remaining adjacency) (neighbours adjacency u) colour with
      | (true, colour) => (true, colour)
      | (false, colour) => (false, zset colour u black)
      end
  end.

Fixpoint cycleLoop (adjacency : Adjacency) (nodes : list Z) (colour : list Colour) : bool :=
  match nodes with
  | [] => false
  | i :: rest =>
      match colour_of colour i with
      | white =>
          match dfs maxCallGraphRecursionDepth adjacency i colour with
          | (true, _) => true
          | (false, colour) => cycleLoop adjacency rest colour
          end
      | _ => cycleLoop adjacency rest colour
      end
  end.

Definition callGraphHasCycle (adjacency : Adjacency) : bool :=
  cycleLoop adjacency (seqZ 0 (zlen adjacency)) (replicate (length adjacency) white).

(** [true] is the error. *)
Definition DetectRecursion (functions : list CompiledFunction) : bool :=
  if zlen functions =? 0 then false else callGraphHasCycle (BuildCallAdjacency functions).

(** ** Tarjan's algorithm *)

Record tarjanState := mkTarjan {
  inSCC : list bool;
  indices : list Z;
  lowLinks : list Z;
  onStack : list bool;
  stack : list Z;
  index : Z;
}.

Definition newTarjanState (adjacency : Adjacency) : tarjanState :=
  let nodeCount := length adjacency in
  mkTarjan (replicate nodeCount false) (replicate nodeCount (-1)) (replicate nodeCount 0)
    (replicate nodeCount false) [] 0.

Definition lowLink (state : tarjanState) (node : Z) : Z := default 0 (zget (lowLinks state) node).
Definition discovery (state : tarjanState) (node : Z) : Z := default (-1) (zget (indices state) node).

Definition lowerLowLink (state : tarjanState) (node value : Z) : tarjanState :=
  if value <? lowLink state node
  then mkTarjan (inSCC state) (indices state) (zset (lowLinks state) node value)
         (onStack state) (stack state) (index state)
  else state.

(** The last position of [node] in the stack, or its length. *)
Definition findStackIndex (state : tarjanState) (node : Z) : Z :=
  match list_find (λ p, snd p = node) (reverse (zip (seqZ 0 (zlen (stack state))) (stack state))) with
  | Some (_, (stackIndex, _)) => stackIndex
  | None => zlen (stack state)
  end.

Definition hasSelfEdge (adjacency : Adjacency) (node : Z) : bool :=
  existsb (λ adjacent, adjacent =? node) (neighbours adjacency node).

Definition markAll {A} (l : list A) (nodes : list Z) (x : A) : list A :=
  foldl (λ l node, zset l node x) l nodes.

Definition emitSCCRootedAt (adjacency : Adjacency) (state : tarjanState) (node : Z) : tarjanState :=
  let startIndex := findStackIndex state node in
  let members := drop (Z.to_nat startIndex) (stack state) in
  let memberCount := zlen (stack state) - startIndex in
  let hasSelfLoop := (memberCount =? 1) && hasSelfEdge adjacency node in
  let scc := if (1 <? memberCount) || hasSelfLoop
             then markAll (inSCC state) members true else inSCC state in
  mkTarjan scc (indices state) (lowLinks state) (markAll (onStack state) members false)
    (take (Z.to_nat startIndex) (stack state)) (index state).

(** [strongconnect], [exploreNeighbours] and [exploreUnvisited]; [connect] is the
    recursive call, absent when the recursion budget is spent. *)
Fixpoint exploreNeighbours (connect : option (Z → tarjanState → tarjanState)) (nodeCount node : Z)
    (vs : list Z) (state : tarjanState) : tarjanState :=
  match vs with
  | [] => state
  | neighbour :: rest =>
      let state :=
        if (neighbour <? 0) || (nodeCount <=? neighbour) then state
        else if discovery state neighbour =? -1 then
          match connect with
          | None =>
              mkTarjan (zset (inSCC state) neighbour true) (indices state) (lowLinks state)
                (onStack state) (stack state) (index state)
          | Some connect =>
              let state := connect neighbour state in
              lowerLowLink state node (lowLink state neighbour)
          end
        else if default false (zget (onStack state) neighbour)
        then lowerLowLink state node (discovery state neighbour)
        else state in
      exploreNeighbours connect nodeCount node rest state
  end.

(** [budget] is [maxCallGraphRecursionDepth - depth]. *)
Fixpoint strongconnect (budget : nat) (adjacency : Adjacency) (node : Z) (state : tarjanState)
    : tarjanState :=
  let state := mkTarjan (inSCC state) (zset (indices state) node (index state))
                 (zset (lowLinks state) node (index state)) (zset (onStack state) node true)
                 (stack state ++ [node]) (index state + 1) in
  let connect := match budget with
                 | O => None
                 | S budget => Some (strongconnect budget adjacency)
                 end in
  let state := exploreNeighbours connect (zlen adjacency) node (neighbours adjacency node) state in
  if lowLink state node =? discovery state node then emitSCCRootedAt adjacency state node else state.

Definition FindCallGraphSCCs (adjacency : Adjacency) : list bool :=
  inSCC (foldl (λ state i,
      if discovery state i =? -1
      then strongconnect maxCallGraphRecursionDepth adjacency i state else state)
    (newTarjanState adjacency) (seqZ 0 (zlen adjacency))).

(** ** Call depth *)

(** The callees pushed by a node of a component. *)
Definition sccCallees (adjacency : Adjacency) (inSCC visited : list bool) (node : Z) : list Z :=
  filter (λ callee, (0 <=? callee) && (callee <? zlen adjacency)
                    && default false (zget inSCC callee)
                    && negb (default false (zget visited callee)) = true)
    (neighbours adjacency node).

(** The explicit stack of the search, its top last.  A node is expanded once,
    so the edges and the start are enough fuel. *)
Fixpoint sccLoop (fuel : nat) (adjacency : Adjacency) (inSCC visited : list bool)
    (stack members : list Z) : list bool * list Z :=
  match fuel with
  | O => (visited, members)
  | S fuel =>
      match last stack with
      | None => (visited, members)
      | Some node =>
          let stack := removelast stack in
          if default false (zget visited node) || negb (default false (zget inSCC node))
          then sccLoop fuel adjacency inSCC visited stack members
          else
            let visited := zset visited node true in
            sccLoop fuel adjacency inSCC visited
              (stack ++ sccCallees adjacency inSCC visited node) (members ++ [node])
      end
  end.

Definition edgeCount (adjacency : Adjacency) : nat := sum_list (map length adjacency).

Definition collectSCCMembers (adjacency : Adjacency) (inSCC visited : list bool) (start : Z)
    : list bool * list Z :=
  sccLoop (2 + edgeCount adjacency) adjacency inSCC visited [start] [].

Fixpoint sccSizeLoop (adjacency : Adjacency) (inSCC : list bool) (nodes : list Z)
    (visited : list bool) (sizes : list Z) : list Z :=
  match nodes with
  | [] => sizes
  | start :: rest =>
      if default false (zget visited start) || negb (default false (zget inSCC start))
      then sccSizeLoop adjacency inSCC rest visited sizes
      else
        let '(visited, members) := collectSCCMembers adjacency inSCC visited start in
        sccSizeLoop adjacency inSCC rest visited (markAll sizes members (zlen members))
  end.

Definition computeSCCSizes (adjacency : Adjacency) (inSCC : list bool) : list Z :=
  sccSizeLoop adjacency inSCC (seqZ 0 (zlen adjacency)) (replicate (length adjacency) false)
    (replicate (length adjacency) 0).

(** The loop over the callees: the deepest of them, with the memo table. *)
Fixpoint deepestCallee (depth : Z → list Z → Z * list Z) (nodeCount : Z) (callees : list Z)
    (best : Z) (memo : list Z) : Z * list Z :=
  match callees with
  | [] => (best, memo)
  | callee :: rest =>
      if (callee <? 0) || (nodeCount <=? callee)
      then deepestCallee depth nodeCount rest best memo
      else
        let '(childDepth, memo) := depth callee memo in
        deepestCallee depth nodeCount rest (if best <? childDepth then childDepth else best) memo
  end.

(** [budget] is [maxCallGraphRecursionDepth - recursionDepth]. *)
Fixpoint depthFromNode (budget : nat) (adjacency : Adjacency) (inSCC : list bool)
    (sccSizes : list Z) (node : Z) (memo : list Z) : Z * list Z :=
  if 0 <=? default (-1) (zget memo node) then (default (-1) (zget memo node), memo)
  else if default false (zget inSCC node) then
    let depth := Z.max (default 0 (zget sccSizes node) * recursiveSCCFanout)
                   recursiveSCCMinimumDepth in
    (depth, zset memo node depth)
  else
    match budget with
    | O => (1, zset memo node 1)
    | S budget =>
        let '(best, memo) :=
          deepestCallee (depthFromNode budget adjacency inSCC sccSizes) (zlen adjacency)
            (neighbours adjacency node) 0 memo in
        (best + 1, zset memo node (best + 1))
    end.

Fixpoint depthLoop (adjacency : Adjacency) (inSCC : list bool) (sccSizes : list Z) (nodes : list Z)
    (memo : list Z) (maxDepth : Z) : Z :=
  match nodes with
  | [] => maxDepth
  | i :: rest =>
      let '(depth, memo) :=
        depthFromNode maxCallGraphRecursionDepth adjacency inSCC sccSizes i memo in
      depthLoop adjacency inSCC sccSizes rest memo (if maxDepth <? depth then depth else maxDepth)
  end.

(** The estimate, without the cache on the root function that remembers it. *)
Definition EstimateMaxCallDepth (functions : list CompiledFunction) : Z :=
  if zlen functions =? 0 then 1
  else
    let adjacency := BuildCallAdjacency functions in
    let scc := FindCallGraphSCCs adjacency in
    let sccSizes := computeSCCSizes adjacency scc in
    depthLoop adjacency scc sccSizes (seqZ 0 (zlen functions))
      (replicate (length functions) (-1)) 1.

(** ** The graph the lists describe *)

Definition edge (adjacency : Adjacency) (u v : Z) : Prop := v ∈ neighbours adjacency u.

Definition wf_adjacency (adjacency : Adjacency) : Prop :=
  ∀ u v, edge adjacency u v → 0 <= v < zlen adjacency.

Lemma edge_source adjacency u v : edge adjacency u v → 0 <= u < zlen adjacency.
Proof.
  unfold edge, neighbours. destruct (zget adjacency u) eqn:E.
  - intros _. by eapply zget_Some_range.
  - intros H. by apply elem_of_nil in H.
Qed.

(** One function calls another directly: the site is neither a closure's nor a
    bound method's, and its index is in the table. *)
Definition calls (functions : list CompiledFunction) (i j : Z) : Prop :=
  ∃ f cs, zget functions i = Some f ∧ cs ∈ CallSites f ∧ IsClosure cs = false ∧
    IsMethod cs = false ∧ FunctionIndex cs = j ∧ j < zlen functions.

Lemma callTargets_spec n sites seen j :
  j ∈ callTargets n sites seen ↔
    j ∉ seen ∧ ∃ cs, cs ∈ sites ∧ IsClosure cs = false ∧ IsMethod cs = false ∧
      FunctionIndex cs = j ∧ j < n.
Proof.
  revert seen. induction sites as [|cs sites IH]; intros seen; cbn [callTargets].
  { split; [by intros ?%elem_of_nil|by intros (_ & ? & ?%elem_of_nil & _)]. }
  destruct (IsClosure cs || IsMethod cs) eqn:Hskip.
  { rewrite IH. setoid_rewrite elem_of_cons. split; [naive_solver|].
    intros (Hs & c & [->|Hc] & Hcl & Hm & H); [by rewrite Hcl, Hm in Hskip|naive_solver]. }
  bool_hyps. destruct (FunctionIndex cs <? n) eqn:Hlt; bool_hyps; cbn [andb].
  2: { rewrite IH. setoid_rewrite elem_of_cons. split; [naive_solver|].
       intros (Hs & c & [->|Hc] & Hcl & Hm & He & Hn); [lia|naive_solver]. }
  case_bool_decide as Hseen; cbn [negb].
  - rewrite IH. setoid_rewrite elem_of_cons. split; [naive_solver|].
    intros (Hs & c & [->|Hc] & Hcl & Hm & He & Hn); [congruence|naive_solver].
  - rewrite elem_of_cons, IH. setoid_rewrite elem_of_cons. split.
    + intros [->|(Hs & c & Hc & Hr)]; [split; [done|]; exists cs; naive_solver|].
      split; [set_solver|naive_solver].
    + intros (Hs & c & [->|Hc] & Hcl & Hm & He & Hn); [by left|].
      destruct (decide (j = FunctionIndex cs)) as [->|]; [by left|right].
      split; [set_solver|naive_solver].
Qed.

Lemma edge_calls functions i j : edge (BuildCallAdjacency functions) i j ↔ calls functions i j.
Proof.
  unfold edge, neighbours, BuildCallAdjacency, calls, zget.
  destruct (i <? 0); [split; [by intros ?%elem_of_nil|by intros (? & ? & ? & _)]|].
  rewrite list_lookup_fmap. destruct (functions !! Z.to_nat i) as [f|]; cbn [fmap option_fmap option_map].
  2: { split; [by intros ?%elem_of_nil|by intros (? & ? & ? & _)]. }
  change (default [] (Some ?l)) with l. rewrite callTargets_spec. split.
  - intros (_ & cs & H). exists f, cs. naive_solver.
  - intros (g & cs & [= <-] & H). split; [set_solver|]. by exists cs.
Qed.

(** [FunctionIndex] is a [uint16]. *)
Definition wf_sites (functions : list CompiledFunction) : Prop :=
  Forall (λ f, Forall (λ cs, isU 16 (FunctionIndex cs)) (CallSites f)) functions.

Lemma BuildCallAdjacency_wf functions :
  wf_sites functions → wf_adjacency (BuildCallAdjacency functions).
Proof.
  intros Hwf u v (f & cs & Hf & Hcs & _ & _ & <- & Hlt)%edge_calls.
  unfold BuildCallAdjacency. rewrite length_map. split; [|done].
  unfold wf_sites in Hwf. rewrite Forall_forall in Hwf.
  assert (Hin : f ∈ functions).
  { unfold zget in Hf. destruct (u <? 0); [done|]. by eapply list_elem_of_lookup_2. }
  specialize (Hwf f Hin). rewrite Forall_forall in Hwf. specialize (Hwf cs Hcs). word.
Qed.

(** ** The search is sound *)

Section search.
Context (adjacency : Adjacency) (Hwf : wf_adjacency adjacency).

Definition settled (colour : list Colour) : Prop :=
  (∀ u v, colour_of colour u = black → edge adjacency u v → colour_of colour v = black) ∧
  (∀ u, colour_of colour u = black → ¬ tc (edge adjacency) u u).

(** A search that finds nothing only turns white nodes black. *)
Definition evolves (c c' : list Colour) : Prop :=
  length c' = length c ∧
  ∀ w, colour_of c' w = colour_of c w ∨ (colour_of c w = white ∧ colour_of c' w = black).

Lemma evolves_refl c : evolves c c.
Proof. split; [done|by left]. Qed.

Lemma evolves_trans c1 c2 c3 : evolves c1 c2 → evolves c2 c3 → evolves c1 c3.
Proof.
  intros [L1 H1] [L2 H2]. split; [congruence|]. intros w.
  destruct (H1 w) as [E1|[E1 E1']], (H2 w) as [E2|[E2 E2']]; rewrite ?E1, ?E2 in *;
    try (left; congruence); try (right; split; congruence).
Qed.

Lemma colour_zset c u x w :
  0 <= u < zlen c → colour_of (zset c u x) w = if decide (w = u) then x else colour_of c w.
Proof.
  intros Hu. unfold colour_of. case_decide; subst.
  - by rewrite zget_zset_eq.
  - by rewrite zget_zset_ne.
Qed.

Lemma settled_reach c u v :
  settled c → colour_of c u = black → rtc (edge adjacency) u v → colour_of c v = black.
Proof. intros [Hc _] Hu. induction 1; [done|]. eauto. Qed.

(** Entering a white node settles nothing and unsettles nothing. *)
Lemma settled_grey c u :
  0 <= u < zlen c → settled c → colour_of c u = white → settled (zset c u grey).
Proof.
  intros Hu [H1 H2] Hw. split.
  - intros w v. rewrite !colour_zset by done. repeat case_decide; subst; try done.
    + intros Hwb Hwu. specialize (H1 _ _ Hwb Hwu). congruence.
    + apply H1.
  - intros w. rewrite colour_zset by done. case_decide; [done|]. apply H2.
Qed.

Lemma dfsNeighbours_false (f : Z → list Colour → bool * list Colour) vs c c' :
  (∀ v c c', v ∈ vs → length c = length adjacency → settled c → colour_of c v = white →
     f v c = (false, c') → evolves c c' ∧ settled c' ∧ colour_of c' v = black) →
  length c = length adjacency → settled c → dfsNeighbours f vs c = (false, c') →
  evolves c c' ∧ settled c' ∧ ∀ v, v ∈ vs → colour_of c' v = black.
Proof.
  revert c. induction vs as [|v vs IH]; intros c Hf Hlen Hs; cbn [dfsNeighbours].
  { intros [= <-]. split; [apply evolves_refl|]. split; [done|]. by intros v ?%elem_of_nil. }
  assert (Hf' : ∀ v c c', v ∈ vs → length c = length adjacency → settled c →
    colour_of c v = white → f v c = (false, c') →
    evolves c c' ∧ settled c' ∧ colour_of c' v = black) by (intros; eapply Hf; [by right|..]; done).
  destruct (colour_of c v) eqn:Ev; [|done|].
  - destruct (f v c) as [[] c1] eqn:E; [done|]. intros Hrest.
    destruct (Hf v c c1) as (He & Hs1 & Hb); [by left|done..|].
    destruct (IH c1) as (He' & Hs' & Hall); [done| |done|done|].
    { by rewrite (proj1 He). }
    split; [by eapply evolves_trans|]. split; [done|].
    intros w [->|Hw]%elem_of_cons; [|by apply Hall].
    destruct (proj2 He' v) as [->|[? ?]]; congruence.
  - intros Hrest. destruct (IH c) as (He' & Hs' & Hall); [done..|].
    split; [done|]. split; [done|]. intros w [->|Hw]%elem_of_cons; [|by apply Hall].
    destruct (proj2 He' v) as [->|[? ?]]; congruence.
Qed.

Lemma dfs_false remaining u c c' :
  0 <= u < zlen adjacency → length c = length adjacency → settled c → colour_of c u = white →
  dfs remaining adjacency u c = (false, c') →
  evolves c c' ∧ settled c' ∧ colour_of c' u = black.
Proof.
  revert u c c'. induction remaining as [|remaining IH]; intros u c c' Hu Hlen Hs Hw;
    cbn [dfs]; [done|].
  assert (Hu' : 0 <= u < zlen c) by (rewrite Hlen; done).
  pose proof (settled_grey c u Hu' Hs Hw) as Hs1.
  destruct (dfsNeighbours _ _ _) as [[] c2] eqn:E; [done|]. intros [= <-].
  apply dfsNeighbours_false in E as (He & Hs2 & Hall); [|..].
  - assert (Hlen2 : length c2 = length adjacency) by (rewrite (proj1 He), length_zset; done).
    assert (Hg : colour_of c2 u = grey).
    { destruct (proj2 He u) as [->|[Hwhite _]].
      - rewrite colour_zset by done. by rewrite decide_True.
      - rewrite colour_zset in Hwhite by done. by rewrite decide_True in Hwhite. }
    assert (Hu2 : 0 <= u < zlen c2) by (rewrite Hlen2; done).
    split; [|split].
    + split; [rewrite length_zset, (proj1 He); apply length_zset|]. intros w.
      rewrite colour_zset by done. case_decide; subst; [by right|].
      destruct (proj2 He w) as [->|[Hx Hy]]; rewrite colour_zset in * by done;
        rewrite decide_False in * by done; [by left|by right].
    + split.
      * intros w v. rewrite !colour_zset by done. repeat case_decide; subst; try done.
        -- intros _ Hv. by apply Hall.
        -- intros Hwb Hwu. by eapply Hs2.
      * intros w. rewrite colour_zset by done. case_decide; subst; [|apply Hs2].
        intros _ Ht.
        assert (∃ v, edge adjacency u v ∧ rtc (edge adjacency) v u) as (v & Huv & Hvu).
        { inversion Ht as [x y Hxy|x y z Hxy Hyz]; subst; [by exists u|].
          exists y. split; [done|by apply tc_rtc]. }
        assert (colour_of c2 u = black); [|congruence].
        eapply settled_reach; [done| |done]. by apply Hall.
    + rewrite colour_zset by done. by rewrite decide_True.
  - intros v d d' Hv Hd Hsd Hwd. apply IH; try done. eapply Hwf. exact Hv.
  - by rewrite length_zset.
  - done.
Qed.

(** ** The search is complete below its depth limit

    The grey nodes are the path from the root of the search to the node in
    hand, so a grey neighbour closes a cycle, and the recursion limit can
    only be met by that many distinct nodes. *)

Definition cyclic : Prop := ∃ w, tc (edge adjacency) w w.

Definition too_large : Prop := Z.of_nat maxCallGraphRecursionDepth < zlen adjacency.

Lemma path_bound (path : list Z) :
  NoDup path → (∀ w, w ∈ path → 0 <= w < zlen adjacency) → zlen path <= zlen adjacency.
Proof.
  intros Hnd Hr. apply inj_le. transitivity (length (seqZ 0 (zlen adjacency))).
  - apply submseteq_length, NoDup_submseteq; [done|]. intros w Hw. apply elem_of_seqZ.
    specialize (Hr w Hw). lia.
  - rewrite length_seqZ. lia.
Qed.

(** The state of a search: [path] lists the grey nodes, all of which reach
    [u]. *)
Definition grey_path (c : list Colour) (path : list Z) (u : Z) : Prop :=
  length c = length adjacency ∧ NoDup path ∧ (∀ w, w ∈ path → 0 <= w < zlen adjacency) ∧
  (∀ w, colour_of c w = grey ↔ w ∈ path) ∧ (∀ w, w ∈ path → rtc (edge adjacency) w u).

Lemma grey_path_evolves c c' path u : evolves c c' → grey_path c path u → grey_path c' path u.
Proof.
  intros [Hl He] (Hlen & Hnd & Hr & Hg & Hp). split; [congruence|]. split; [done|].
  split; [done|]. split; [|done]. intros w. rewrite <- Hg.
  destruct (He w) as [->|[Hw ->]]; [done|]. rewrite Hw. split; done.
Qed.

Lemma dfsNeighbours_true f vs c c' path u :
  (∀ v c c', edge adjacency u v → settled c → grey_path c path u → colour_of c v = white →
     f v c = (true, c') → cyclic ∨ too_large) →
  (∀ v c c', edge adjacency u v → settled c → grey_path c path u → colour_of c v = white →
     f v c = (false, c') → evolves c c' ∧ settled c') →
  (∀ v, v ∈ vs → edge adjacency u v) → settled c → grey_path c path u →
  dfsNeighbours f vs c = (true, c') → cyclic ∨ too_large.
Proof.
  intros Htrue Hfalse. revert c. induction vs as [|v vs IH]; intros c Hvs Hs Hp;
    cbn [dfsNeighbours]; [done|].
  assert (Huv : edge adjacency u v) by (apply Hvs; by left).
  assert (Hvs' : ∀ v, v ∈ vs → edge adjacency u v) by (intros; apply Hvs; by right).
  destruct (colour_of c v) eqn:Ev.
  - destruct (f v c) as [[] c1] eqn:E; [intros _; by eapply Htrue|].
    destruct (Hfalse v c c1 Huv Hs Hp Ev E) as [He Hs1].
    apply IH; [done|done|by eapply grey_path_evolves].
  - intros _. left. exists u. destruct Hp as (_ & _ & _ & Hg & Hr).
    eapply tc_rtc_r; [by apply tc_once|by apply Hr, Hg].
  - by apply IH.
Qed.

Lemma dfs_true remaining path u c c' :
  0 <= u < zlen adjacency → settled c → grey_path c path u → colour_of c u = white →
  (length path + remaining = maxCallGraphRecursionDepth)%nat →
  dfs remaining adjacency u c = (true, c') → cyclic ∨ too_large.
Proof.
  revert path u c c'. induction remaining as [|remaining IH];
    intros path u c c' Hu Hs Hp Hw Hd Hrun.
  - right. unfold too_large. destruct Hp as (Hlen & Hnd & Hr & Hg & _).
    assert (zlen (u :: path) <= zlen adjacency).
    { apply path_bound.
      - constructor; [|done]. rewrite <- Hg. congruence.
      - intros w [->|]%elem_of_cons; auto. }
    cbn [length] in *. lia.
  - cbn [dfs] in Hrun.
    assert (Hu' : 0 <= u < zlen c) by (destruct Hp as [-> _]; done).
    pose proof (settled_grey c u Hu' Hs Hw) as Hs1.
    assert (Hp1 : grey_path (zset c u grey) (u :: path) u).
    { destruct Hp as (Hlen & Hnd & Hr & Hg & Hreach). split; [by rewrite length_zset|].
      split; [constructor; [|done]; rewrite <- Hg; congruence|].
      split; [intros w [->|]%elem_of_cons; auto|]. split.
      - intros w. rewrite colour_zset, elem_of_cons by done. case_decide; [naive_solver|].
        rewrite Hg. naive_solver.
      - intros w [->|]%elem_of_cons; [done|auto]. }
    destruct (dfsNeighbours _ _ _) as [[] c2] eqn:E; [|done].
    eapply (dfsNeighbours_true _ _ _ _ (u :: path) u); [| | |exact Hs1|exact Hp1|exact E].
    + intros v d d' Huv Hsd (Hlen & Hnd & Hr & Hg & Hreach) Hwd. eapply IH; [by eapply Hwf|done| |done|].
      * split; [done|]. split; [done|]. split; [done|]. split; [done|].
        intros w Hw'. eapply rtc_r; [by apply Hreach|done].
      * cbn [length]. lia.
    + intros v d d' Huv Hsd Hpd Hwd Hrun'. destruct (dfs_false remaining v d d') as (? & ? & _);
        [by eapply Hwf|apply Hpd|done..].
    + intros v Hv. exact Hv.
Qed.

Lemma cycleLoop_false nodes c :
  length c = length adjacency → settled c → (∀ w, colour_of c w ≠ grey) →
  (∀ i, i ∈ nodes → 0 <= i < zlen adjacency) → cycleLoop adjacency nodes c = false →
  ∃ c', evolves c c' ∧ settled c' ∧ ∀ i, i ∈ nodes → colour_of c' i = black.
Proof.
  revert c. induction nodes as [|i nodes IH]; intros c Hlen Hs Hg Hn; cbn [cycleLoop].
  { exists c. split; [apply evolves_refl|]. split; [done|]. by intros i ?%elem_of_nil. }
  assert (Hn' : ∀ i, i ∈ nodes → 0 <= i < zlen adjacency) by (intros; apply Hn; by right).
  destruct (colour_of c i) eqn:Ei; [|by destruct (Hg i)|].
  - destruct (dfs _ adjacency i c) as [[] c1] eqn:E; [done|]. intros Hrest.
    destruct (dfs_false maxCallGraphRecursionDepth i c c1) as (He & Hs1 & Hb);
      [apply Hn; by left|done..|].
    destruct (IH c1) as (c2 & He2 & Hs2 & Hall); [by rewrite (proj1 He)|done| |done|done|].
    { intros w. destruct (proj2 He w) as [->|[_ ->]]; [apply Hg|done]. }
    exists c2. split; [by eapply evolves_trans|]. split; [done|].
    intros j [->|Hj]%elem_of_cons; [|by apply Hall].
    destruct (proj2 He2 i) as [->|[? ?]]; congruence.
  - intros Hrest. destruct (IH c) as (c2 & He2 & Hs2 & Hall); [done..|].
    exists c2. split; [done|]. split; [done|].
    intros j [->|Hj]%elem_of_cons; [|by apply Hall].
    destruct (proj2 He2 i) as [->|[? ?]]; congruence.
Qed.

Lemma cycleLoop_true nodes c :
  length c = length adjacency → settled c → (∀ w, colour_of c w ≠ grey) →
  (∀ i, i ∈ nodes → 0 <= i < zlen adjacency) → cycleLoop adjacency nodes c = true →
  cyclic ∨ too_large.
Proof.
  revert c. induction nodes as [|i nodes IH]; intros c Hlen Hs Hg Hn; cbn [cycleLoop]; [done|].
  assert (Hn' : ∀ i, i ∈ nodes → 0 <= i < zlen adjacency) by (intros; apply Hn; by right).
  destruct (colour_of c i) eqn:Ei; [|by apply IH|by apply IH].
  destruct (dfs _ adjacency i c) as [[] c1] eqn:E.
  - intros _. eapply (dfs_true maxCallGraphRecursionDepth [] i c c1); [apply Hn; by left|done| |done|done|done].
    split; [done|]. split; [constructor|]. split; [by intros w ?%elem_of_nil|].
    split; [|by intros w ?%elem_of_nil]. intros w. split; [intros Hw; by destruct (Hg w)|].
    by intros ?%elem_of_nil.
  - destruct (dfs_false maxCallGraphRecursionDepth i c c1) as (He & Hs1 & _);
      [apply Hn; by left|done..|].
    apply IH; [by rewrite (proj1 He)|done| |done].
    intros w. destruct (proj2 He w) as [->|[_ ->]]; [apply Hg|done].
Qed.

Lemma initial_colours :
  settled (replicate (length adjacency) white) ∧
  ∀ w, colour_of (replicate (length adjacency) white) w = white.
Proof.
  assert (H : ∀ w, colour_of (replicate (length adjacency) white) w = white).
  { intros w. unfold colour_of, zget. case_if; [done|].
    destruct (replicate _ white !! Z.to_nat w) as [x|] eqn:Ex; [|done].
    by apply lookup_replicate in Ex as [-> _]. }
  split; [|done]. split; intros u; rewrite H; done.
Qed.

Lemma callGraphHasCycle_spec :
  (callGraphHasCycle adjacency = false → ¬ cyclic) ∧
  (callGraphHasCycle adjacency = true → cyclic ∨ too_large).
Proof.
  destruct initial_colours as [Hs Hw]. unfold callGraphHasCycle.
  assert (Hlen : length (replicate (length adjacency) white) = length adjacency)
    by apply length_replicate.
  assert (Hg : ∀ w, colour_of (replicate (length adjacency) white) w ≠ grey)
    by (intros w; by rewrite Hw).
  assert (Hn : ∀ i, i ∈ seqZ 0 (zlen adjacency) → 0 <= i < zlen adjacency).
  { intros i. rewrite elem_of_seqZ. lia. }
  split; [|by apply cycleLoop_true].
  intros Hf [w Hc]. destruct (cycleLoop_false _ _ Hlen Hs Hg Hn Hf) as (c & _ & [_ Hac] & Hall).
  apply (Hac w); [|done]. apply Hall. rewrite elem_of_seqZ.
  assert (0 <= w < zlen adjacency); [|lia].
  inversion Hc; subst; by eapply edge_source.
Qed.
End search.


Definition calling (targets : list Z) : CompiledFunction :=
  setCallSites (NewNamedFunction "f") (map directCall targets).


(** a site that calls a native Go function, or dispatches an interface
    method, carries no function index of its own; the graph reads the zero
    value as a call of function 0.  A program whose only function calls
    nothing but a native function is therefore refused as recursive. *)
Theorem native_call_taken_for_recursion :
  let native := NewCallSite [] [] 0 0 7 false true false in
  let program := [setCallSites (NewNamedFunction "main") [native]] in
  IsNative native = true ∧ BuildCallAdjacency program = [[0]] ∧ DetectRecursion program = true.
Proof. vm_compute. repeat split; reflexivity. Qed.

(** Two components joined by one call: functions 0 and 1 call each other, as do
    2 and 3, and 1 also calls 2. *)
Definition joinedComponents : list (list Z) := [[1]; [0; 2]; [3]; [2]].

(** the sizes that feed the call-depth estimate are not the sizes of the
    strongly connected components: the forward search from a component runs
    on into every component it calls, so each member of the first of two
    components of two functions is given the size four, and members of the
    second inherit it; no cycle passes through functions 0 and 2. *)
Theorem component_sizes_merge :
  FindCallGraphSCCs joinedComponents = [true; true; true; true] ∧
  computeSCCSizes joinedComponents (FindCallGraphSCCs joinedComponents) = [4; 4; 4; 4] ∧
  ¬ rtc (edge joinedComponents) 2 0.
Proof.
  split; [vm_compute; reflexivity|]. split; [vm_compute; reflexivity|].
  assert (Hclosed : ∀ u v, rtc (edge joinedComponents) u v → 2 <= u <= 3 → 2 <= v <= 3).
  { induction 1 as [u|u w v Huw _ IH]; [done|]. intros Hu. apply IH.
    assert (u = 2 ∨ u = 3) as [->| ->] by lia; cbv in Huw;
      apply list_elem_of_singleton in Huw as ->; lia. }
  intros H. apply Hclosed in H; lia.
Qed.
