(* ===== verification/CallGraphScc.v ===== *)
(** * Recursive functions are found

    [FindCallGraphSCCs], Tarjan's algorithm, flags exactly the functions that
    lie on a cycle of direct calls, and the estimate of the call depth that is
    built on it. *)

From stdpp Require Import relations.
From S2P Require Import Prelude SafeConv Register Opcode Instruction Function CallGraph.

Section tarjan.
Context (adjacency : list (list Z)) (Hwf : wf_adjacency adjacency).

#[local] Notation n := (zlen adjacency).
#[local] Notation E := (edge adjacency).
#[local] Notation num := discovery.
Implicit Types (s : tarjanState) (u v w x y node : Z) (g : list Z).

Definition flagged s u : bool := default false (zget (inSCC s) u).
Definition on s u : bool := default false (zget (onStack s) u).
Definition visited s u : Prop := 0 <= num s u.
(** A node whose component has been emitted. *)
Definition emitted s u : Prop := visited s u ∧ u ∉ stack s.

(** [g] is the path of the recursion.  The nodes of the stack are in the order
    of their numbers; each is reached from the path nodes numbered below it and
    reaches one of them; what has been left has no unvisited callee, what has
    been emitted calls only what has been emitted. *)
Record inv (g : list Z) s : Prop := {
  iv_flags : length (inSCC s) = length adjacency;
  iv_indices : length (indices s) = length adjacency;
  iv_lows : length (lowLinks s) = length adjacency;
  iv_ons : length (onStack s) = length adjacency;
  iv_index : 0 <= index s;
  iv_num u : num s u = -1 ∨ 0 <= num s u < index s;
  iv_sorted i j u v : stack s !! i = Some u → stack s !! j = Some v → (i < j)%nat → num s u < num s v;
  iv_on u : on s u = true ↔ u ∈ stack s;
  iv_stack u : u ∈ stack s → 0 <= u < n ∧ visited s u;
  iv_path u : u ∈ g → u ∈ stack s;
  iv_left u w : visited s u → u ∉ g → E u w → visited s w;
  iv_closed u w : emitted s u → E u w → emitted s w;
  iv_down x y : x ∈ g → y ∈ stack s → num s x <= num s y → rtc E x y;
  iv_up y : y ∈ stack s → ∃ x, x ∈ g ∧ num s x <= num s y ∧ rtc E y x;
  iv_flagged u : flagged s u = true ↔ emitted s u ∧ tc E u u;
}.

(** What a search leaves of the state: numbers, low links but that of [node],
    and the stack below. *)
Record later node s s' : Prop := {
  la_num u : visited s u → num s' u = num s u;
  la_low u : visited s u → u ≠ node → lowLink s' u = lowLink s u;
  la_new u : num s u = -1 → num s' u = -1 ∨ index s <= num s' u;
  la_index : index s <= index s';
  la_stack : ∃ new, stack s' = stack s ++ new ∧ ∀ u, u ∈ new → num s u = -1;
}.

Lemma later_refl node s : later node s s.
Proof.
  split; [done|done|by left|lia|]. exists []. rewrite app_nil_r. split; [done|]. by intros u ?%elem_of_nil.
Qed.

Lemma visited_later node s s' u : later node s s' → visited s u → visited s' u.
Proof. intros Hl Hu. unfold visited. rewrite (la_num _ _ _ Hl u Hu). exact Hu. Qed.

Lemma num_cases g s u : inv g s → num s u = -1 ∨ visited s u.
Proof. intros Hi. destruct (iv_num _ _ Hi u); unfold visited; lia. Qed.

Lemma later_trans g g' v node s s' s'' :
  inv g s → inv g' s' → v = node ∨ num s v = -1 → later v s s' → later node s' s'' → later node s s''.
Proof.
  intros Hi Hi' Hv H1 H2. destruct (la_stack _ _ _ H1) as (l1 & E1 & N1), (la_stack _ _ _ H2) as (l2 & E2 & N2). split.
  - intros u Hu. rewrite (la_num _ _ _ H2) by (by eapply visited_later). by apply (la_num _ _ _ H1).
  - intros u Hu Hne. rewrite (la_low _ _ _ H2) by (done || by eapply visited_later). apply (la_low _ _ _ H1); [done|].
    intros ->. destruct Hv as [->|Hv]; [done|]. unfold visited in Hu. lia.
  - intros u Hu. destruct (la_new _ _ _ H1 u Hu) as [Hn|Hn].
    + destruct (la_new _ _ _ H2 u Hn) as [?|?]; [by left|right]. pose proof (la_index _ _ _ H1). lia.
    + right. rewrite (la_num _ _ _ H2 u); [done|]. unfold visited. pose proof (iv_index _ _ Hi). lia.
  - pose proof (la_index _ _ _ H1). pose proof (la_index _ _ _ H2). lia.
  - exists (l1 ++ l2). rewrite E2, E1, app_assoc. split; [done|]. intros u [Hu|Hu]%elem_of_app; [by apply N1|].
    destruct (num_cases g s u Hi) as [?|Hs]; [done|]. apply N2 in Hu. pose proof (la_num _ _ _ H1 u Hs). unfold visited in Hs. lia.
Qed.

(** The stack of an invariant has no duplicates. *)
Lemma stack_index g s i j u : inv g s → stack s !! i = Some u → stack s !! j = Some u → i = j.
Proof.
  intros Hi H1 H2. destruct (lt_eq_lt_dec i j) as [[Hlt|]|Hlt]; [|done|].
  - pose proof (iv_sorted _ _ Hi _ _ _ _ H1 H2 Hlt). lia.
  - pose proof (iv_sorted _ _ Hi _ _ _ _ H2 H1 Hlt). lia.
Qed.

Lemma stack_num g s i j u v : inv g s → stack s !! i = Some u → stack s !! j = Some v → num s u <= num s v → (i <= j)%nat.
Proof. intros Hi H1 H2 Hle. destruct (decide (j < i)%nat) as [Hlt|]; [|lia]. pose proof (iv_sorted _ _ Hi _ _ _ _ H2 H1 Hlt). lia. Qed.

Lemma num_inj g s u v : inv g s → u ∈ stack s → v ∈ stack s → num s u = num s v → u = v.
Proof.
  intros Hi [i Hu]%list_elem_of_lookup [j Hv]%list_elem_of_lookup He.
  assert (i = j) as <-; [|congruence].
  pose proof (stack_num _ _ _ _ _ _ Hi Hu Hv ltac:(lia)). pose proof (stack_num _ _ _ _ _ _ Hi Hv Hu ltac:(lia)). lia.
Qed.

(** Nothing on the stack is reached from an emitted node. *)
Lemma emitted_closed g s u w : inv g s → emitted s u → rtc E u w → emitted s w.
Proof. intros Hi Hu. induction 1 as [|u v w Huv _ IH]; [done|]. apply IH. by eapply iv_closed. Qed.

Lemma edge_range u w : E u w → 0 <= u < n ∧ 0 <= w < n.
Proof. intros H. split; [by eapply edge_source|by eapply Hwf]. Qed.

(** ** Entering a node *)

Definition enter s node : tarjanState :=
  mkTarjan (inSCC s) (zset (indices s) node (index s)) (zset (lowLinks s) node (index s)) (zset (onStack s) node true)
    (stack s ++ [node]) (index s + 1).

Lemma num_enter g s node u : inv g s → 0 <= node < n → num (enter s node) u = if node =? u then index s else num s u.
Proof.
  intros Hi Hn. unfold discovery. cbn [enter indices]. rewrite zget_zset, (iv_indices _ _ Hi). case_if; bool_hyps; [|done].
  subst u. by rewrite bool_decide_eq_true_2.
Qed.

Lemma low_enter g s node u : inv g s → 0 <= node < n → lowLink (enter s node) u = if node =? u then index s else lowLink s u.
Proof.
  intros Hi Hn. unfold lowLink. cbn [enter lowLinks]. rewrite zget_zset, (iv_lows _ _ Hi). case_if; bool_hyps; [|done].
  subst u. by rewrite bool_decide_eq_true_2.
Qed.

Lemma visited_enter g s node u : inv g s → 0 <= node < n → visited (enter s node) u ↔ u = node ∨ visited s u.
Proof.
  intros Hi Hn. unfold visited. rewrite (num_enter g) by done. pose proof (iv_index _ _ Hi).
  destruct (Z.eqb_spec node u) as [->|]; naive_solver lia.
Qed.

Lemma later_enter g s node : inv g s → 0 <= node < n → num s node = -1 → later node s (enter s node).
Proof.
  intros Hi Hn Hnew. split.
  - intros u Hu. rewrite (num_enter g) by done. destruct (Z.eqb_spec node u) as [->|]; [unfold visited in Hu; lia|done].
  - intros u Hu Hne. rewrite (low_enter g) by done. by rewrite (proj2 (Z.eqb_neq _ _)) by congruence.
  - intros u Hu. rewrite (num_enter g) by done. case_if; [right; lia|by left].
  - cbn. lia.
  - exists [node]. split; [done|]. by intros u ->%list_elem_of_singleton.
Qed.

Lemma enter_inv g s node :
  inv g s → 0 <= node < n → num s node = -1 → (∀ x, x ∈ g → rtc E x node) → inv (node :: g) (enter s node).
Proof.
  intros Hi Hn Hnew Hreach. pose proof Hi as [I1 I2 I3 I4 I5 I6 I7 I8 I9 I10 I11 I12 I13 I14 I15].
  assert (Hns : node ∉ stack s) by (intros Hin; apply I9 in Hin as [_ Hin]; unfold visited in Hin; lia).
  assert (Hnum := λ u, num_enter g s node u Hi Hn). assert (Hvis := λ u, visited_enter g s node u Hi Hn).
  assert (Hst : ∀ u, u ∈ stack (enter s node) ↔ u = node ∨ u ∈ stack s).
  { intros u. cbn [enter stack]. rewrite elem_of_app, list_elem_of_singleton. naive_solver. }
  assert (Hold : ∀ u, u ∈ stack s → num (enter s node) u = num s u ∧ num s u < index s).
  { intros u Hu. rewrite Hnum. pose proof (I6 u). destruct (I9 u Hu) as [_ Hv]. unfold visited in Hv.
    destruct (Z.eqb_spec node u) as [->|]; [done|]. split; [done|lia]. }
  assert (Hnode : num (enter s node) node = index s) by (by rewrite Hnum, Z.eqb_refl).
  split; cbn [enter inSCC indices lowLinks onStack index]; rewrite ?length_zset; try done.
  - lia.
  - intros u. rewrite Hnum. pose proof (I6 u). case_if; [right|]; lia.
  - intros i j u v Hu Hv Hij. cbn [enter stack] in Hu, Hv.
    destruct (decide (j < length (stack s))%nat) as [Hj|Hj].
    + rewrite lookup_app_l in Hu, Hv by lia. destruct (Hold u) as [-> _]; [by eapply list_elem_of_lookup_2|].
      destruct (Hold v) as [-> _]; [by eapply list_elem_of_lookup_2|]. by eapply I7.
    + rewrite lookup_app_r in Hv by lia. apply list_lookup_singleton_Some in Hv as [Hj0 <-]. rewrite Hnode.
      rewrite lookup_app_l in Hu by lia. apply list_elem_of_lookup_2 in Hu. destruct (Hold u Hu) as [-> ?]. done.
  - intros u. rewrite Hst. unfold on. cbn [enter onStack]. rewrite zget_zset, I4. destruct (Z.eqb_spec node u) as [->|Hne].
    + rewrite bool_decide_eq_true_2 by done. cbn. naive_solver.
    + change (default false (zget (onStack s) u)) with (on s u). rewrite I8. naive_solver.
  - intros u [->|Hu]%Hst; [split; [done|]; rewrite Hvis; by left|]. destruct (I9 u Hu). split; [done|]. rewrite Hvis. by right.
  - intros u [->|Hu]%elem_of_cons; rewrite Hst; auto.
  - intros u w [->|Hu]%Hvis Hg Hedge; [by destruct Hg; left|]. rewrite Hvis. right. eapply I11; [exact Hu| |exact Hedge].
    intros Hin. apply Hg. by right.
  - intros u w [Hu Hs] Hedge. rewrite Hst in Hs. apply Hvis in Hu as [->|Hu]; [naive_solver|].
    destruct (I12 u w) as [Hw Hws]; [split; [done|naive_solver]|done|]. split; [rewrite Hvis; by right|].
    rewrite Hst. intros [->|?]; [|done]. unfold visited in Hw. lia.
  - intros x y Hx Hy Hle. rewrite Hst in Hy. apply elem_of_cons in Hx as [->|Hx].
    + destruct Hy as [->|Hy]; [done|]. rewrite Hnode, (proj1 (Hold y Hy)) in Hle. destruct (Hold y Hy). lia.
    + destruct Hy as [->|Hy]; [by apply Hreach|]. destruct (Hold x ltac:(auto)) as [Ex _], (Hold y Hy) as [Ey _]. rewrite Ex, Ey in Hle. by apply I13.
  - intros y [->|Hy]%Hst.
    + exists node. split_and!; [by left|lia|done].
    + destruct (I14 y Hy) as (x & Hx & Hle & Hr). exists x. split_and!; [by right| |done].
      destruct (Hold x ltac:(auto)) as [-> _], (Hold y Hy) as [-> _]. done.
  - intros u. change (flagged (enter s node) u) with (flagged s u). rewrite I15. unfold emitted. rewrite Hvis, Hst.
    split; [|naive_solver]. intros [[Hv Hns'] Ht]. split; [|done]. split; [by right|]. intros [->|?]; [|done].
    unfold visited in Hv. lia.
Qed.

(** ** Lowering a link *)

Lemma lower_same s node value :
  inSCC (lowerLowLink s node value) = inSCC s ∧ indices (lowerLowLink s node value) = indices s ∧
  onStack (lowerLowLink s node value) = onStack s ∧ stack (lowerLowLink s node value) = stack s ∧
  index (lowerLowLink s node value) = index s ∧ length (lowLinks (lowerLowLink s node value)) = length (lowLinks s).
Proof. unfold lowerLowLink. case_if; cbn; rewrite ?length_zset; done. Qed.

Lemma num_lower s node value u : num (lowerLowLink s node value) u = num s u.
Proof. unfold lowerLowLink. by case_if. Qed.

Lemma lower_inv g s node value : inv g s → inv g (lowerLowLink s node value).
Proof.
  destruct (lower_same s node value) as (E1 & E2 & E3 & E4 & E5 & E6).
  assert (En := num_lower s node value).
  assert (Eo : ∀ u, on (lowerLowLink s node value) u = on s u) by (intros; unfold on; by rewrite E3).
  assert (Ef : ∀ u, flagged (lowerLowLink s node value) u = flagged s u) by (intros; unfold flagged; by rewrite E1).
  intros [I1 I2 I3 I4 I5 I6 I7 I8 I9 I10 I11 I12 I13 I14 I15].
  split; unfold emitted, visited in *; try setoid_rewrite En; try setoid_rewrite Eo; try setoid_rewrite Ef; rewrite ?E1, ?E2, ?E3, ?E4, ?E5, ?E6; try done.
Qed.

Lemma lower_low g s node value u : inv g s → 0 <= node < n →
  lowLink (lowerLowLink s node value) u = if node =? u then Z.min (lowLink s node) value else lowLink s u.
Proof.
  intros Hi Hn. unfold lowerLowLink. destruct (Z.ltb_spec value (lowLink s node)) as [Hlt|Hge].
  - unfold lowLink at 1. cbn [lowLinks]. rewrite zget_zset, (iv_lows _ _ Hi). case_if; bool_hyps; [|done]. subst u.
    rewrite bool_decide_eq_true_2 by done. cbn. lia.
  - case_if; bool_hyps; [|done]. subst u. lia.
Qed.

Lemma later_lower g s node value : inv g s → 0 <= node < n → later node s (lowerLowLink s node value).
Proof.
  intros Hi Hn. destruct (lower_same s node value) as (E1 & E2 & E3 & E4 & E5 & E6).
  assert (En := num_lower s node value).
  split.
  - intros u _. apply En.
  - intros u _ Hne. rewrite (lower_low g) by done. by rewrite (proj2 (Z.eqb_neq _ _)) by congruence.
  - intros u Hu. rewrite En. by left.
  - lia.
  - exists []. rewrite E4, app_nil_r. split; [done|]. by intros u ?%elem_of_nil.
Qed.

(** ** Exploring the callees of a node *)

(** The callees in [explored] are done; the link of the node is the number of a
    node of the stack it reaches, and nothing above it calls below the link. *)
Record exploring g node (explored : list Z) s : Prop := {
  ex_inv : inv (node :: g) s;
  ex_top x : x ∈ g → num s x < num s node;
  ex_low : ∃ y, y ∈ stack s ∧ num s y = lowLink s node ∧ lowLink s node <= num s node ∧ rtc E node y;
  ex_explored w : w ∈ explored → visited s w;
  ex_above u w : u ∈ stack s → num s node < num s u → E u w → w ∈ stack s → lowLink s node <= num s w;
  ex_calls w : w ∈ explored → w ∈ stack s → lowLink s node <= num s w;
}.

(** What entering and leaving a node achieves: it is emitted, or its link is the
    number of a node below it that it reaches. *)
Record connected g v s s' : Prop := {
  co_inv : inv g s';
  co_later : later v s s';
  co_visited : visited s' v;
  co_low : (stack s' = stack s ∧ v ∉ stack s' ∧ lowLink s' v = num s' v) ∨
    ∃ y, v ∈ stack s' ∧ y ∈ stack s ∧ num s' y = lowLink s' v ∧ rtc E v y;
  co_exit u w : u ∈ stack s' → u ∉ stack s → E u w → w ∈ stack s' → lowLink s' v <= num s' w;
}.

Lemma node_range g node explored s : exploring g node explored s → 0 <= node < n ∧ visited s node ∧ node ∈ stack s.
Proof.
  intros Hx. assert (Hin : node ∈ stack s) by (apply (iv_path _ _ (ex_inv _ _ _ _ Hx)); by left).
  destruct (iv_stack _ _ (ex_inv _ _ _ _ Hx) node Hin). done.
Qed.

(** What was visited and is on the later stack was on the earlier one. *)
Lemma later_on v s s' u : later v s s' → visited s u → u ∈ stack s' → u ∈ stack s.
Proof.
  intros Hl Hu. destruct (la_stack _ _ _ Hl) as (new & -> & Hn). intros [?|Hin]%elem_of_app; [done|].
  apply Hn in Hin. unfold visited in Hu. lia.
Qed.

Lemma later_keeps v s s' u : later v s s' → u ∈ stack s → u ∈ stack s'.
Proof. intros Hl Hu. destruct (la_stack _ _ _ Hl) as (new & -> & _). apply elem_of_app. by left. Qed.

Lemma explore_visited g node explored s w :
  exploring g node explored s → E node w → w ∈ stack s → exploring g node (explored ++ [w]) (lowerLowLink s node (num s w)).
Proof.
  intros Hx Hedge Hw. destruct (node_range _ _ _ _ Hx) as (Hn & Hv & Hin). pose proof Hx as [Hi Ht Hl He Ha Hc].
  destruct (lower_same s node (num s w)) as (E1 & E2 & E3 & E4 & E5 & E6).
  assert (En := num_lower s node (num s w)).
  assert (Elow := lower_low _ s node (num s w) node Hi Hn). rewrite Z.eqb_refl in Elow.
  split; rewrite ?E4, ?Elow.
  - by apply lower_inv.
  - intros x Hxg. rewrite !En. by apply Ht.
  - destruct Hl as (y & Hy & Hny & Hle & Hr). rewrite En. destruct (Z.min_spec (lowLink s node) (num s w)) as [[Hlt ->]|[Hge ->]].
    + exists y. rewrite En. by split_and!.
    + exists w. rewrite En. split_and!; [done|done|lia|by apply rtc_once].
  - intros u [Hu| ->%list_elem_of_singleton]%elem_of_app; unfold visited; rewrite En; [by apply He|].
    by destruct (iv_stack _ _ Hi w Hw).
  - intros u x. rewrite !En. intros Hu Hlt Hux Hxs. specialize (Ha u x Hu Hlt Hux Hxs). lia.
  - intros u [Hu| ->%list_elem_of_singleton]%elem_of_app Hus; rewrite En; [specialize (Hc u Hu Hus); lia|lia].
Qed.

Lemma explore_skip g node explored s w :
  exploring g node explored s → visited s w → w ∉ stack s → exploring g node (explored ++ [w]) s.
Proof.
  intros [Hi Ht Hl He Ha Hc] Hv Hw. split; try done.
  - intros u [Hu| ->%list_elem_of_singleton]%elem_of_app; [by apply He|done].
  - intros u [Hu| ->%list_elem_of_singleton]%elem_of_app Hus; [by apply Hc|done].
Qed.

Lemma explore_new g node explored s s' w :
  exploring g node explored s → E node w → num s w = -1 → connected (node :: g) w s s' →
  exploring g node (explored ++ [w]) (lowerLowLink s' node (lowLink s' w)) ∧
  later node s (lowerLowLink s' node (lowLink s' w)).
Proof.
  intros Hx Hedge Hnew [Ci Cl Cv Clow Cexit]. destruct (node_range _ _ _ _ Hx) as (Hn & Hv & Hin). pose proof Hx as [Hi Ht Hl He Ha Hc].
  set (value := lowLink s' w). destruct (lower_same s' node value) as (E1 & E2 & E3 & E4 & E5 & E6).
  assert (En := num_lower s' node value).
  assert (Hne : node ≠ w) by (intros ->; unfold visited in Hv; lia).
  assert (Elow := lower_low _ s' node value node Ci Hn). rewrite Z.eqb_refl, (la_low _ _ _ Cl node Hv Hne) in Elow.
  assert (Hold : ∀ u, u ∈ stack s → num s' u = num s u).
  { intros u Hu. apply (la_num _ _ _ Cl). by destruct (iv_stack _ _ Hi u Hu). }
  assert (Hwnum : index s <= num s' w).
  { destruct (la_new _ _ _ Cl w Hnew) as [Hm|]; [|done]. unfold visited in Cv. lia. }
  assert (Hlt : ∀ u, u ∈ stack s → num s u < index s).
  { intros u Hu. destruct (iv_stack _ _ Hi u Hu) as [_ Hu']. destruct (iv_num _ _ Hi u); unfold visited in Hu'; lia. }
  split; [split; rewrite ?E4, ?Elow|].
  - by apply lower_inv.
  - intros x Hxg. rewrite !En, !Hold by (done || apply (iv_path _ _ Hi); by right). by apply Ht.
  - destruct Hl as (y & Hy & Hny & Hle & Hr). rewrite !En, !(Hold node Hin). destruct (Z.min_spec (lowLink s node) value) as [[Hm ->]|[Hm ->]].
    + exists y. rewrite En, Hold by done. split_and!; [by eapply later_keeps|done|done|done].
    + destruct Clow as [(_ & _ & Hlw)|(z & _ & Hz & Hnz & Hrz)].
      * exfalso. unfold value in Hm. rewrite Hlw in Hm. specialize (Hlt node Hin). lia.
      * exists z. rewrite En. split_and!; [by eapply later_keeps|done|lia|]. by eapply rtc_l.
  - intros u [Hu| ->%list_elem_of_singleton]%elem_of_app; unfold visited; rewrite En; [|done].
    rewrite (la_num _ _ _ Cl) by (by apply He). by apply He.
  - intros u x. rewrite !En. intros Hu Hnu Hux Hxs. destruct (decide (u ∈ stack s)) as [Hus|Hus].
    + rewrite !Hold in Hnu by done. assert (Hvx : visited s x).
      { apply (iv_left _ _ Hi u x); [by destruct (iv_stack _ _ Hi u Hus)| |done].
        intros [->|Hug]%elem_of_cons; [lia|]. specialize (Ht u Hug). lia. }
      pose proof (later_on _ _ _ _ Cl Hvx Hxs) as Hxs'. rewrite Hold by done. specialize (Ha u x Hus Hnu Hux Hxs'). lia.
    + specialize (Cexit u x Hu Hus Hux Hxs). unfold value. lia.
  - intros u [Hu| ->%list_elem_of_singleton]%elem_of_app Hus; rewrite En.
    + pose proof (later_on _ _ _ _ Cl (He u Hu) Hus) as Hus'. rewrite Hold by done. specialize (Hc u Hu Hus'). lia.
    + destruct Clow as [(_ & Hns & _)|(z & _ & Hz & Hnz & _)]; [done|]. unfold value. rewrite <- Hnz, Hold by done.
      specialize (Hlt z Hz). lia.
  - eapply later_trans; [exact Hi|exact Ci|by right|exact Cl|by eapply later_lower].
Qed.

Definition connects g (connect : option (Z → tarjanState → tarjanState)) : Prop :=
  match connect with
  | Some connect => ∀ v s, inv g s → 0 <= v < n → num s v = -1 → (∀ x, x ∈ g → rtc E x v) → connected g v s (connect v s)
  | None => ∀ v s, inv g s → 0 <= v < n → num s v ≠ -1
  end.

Lemma exploreNeighbours_ok g node connect vs explored s :
  connects (node :: g) connect → exploring g node explored s → (∀ v, v ∈ vs → E node v) → (∀ x, x ∈ g → rtc E x node) →
  exploring g node (explored ++ vs) (exploreNeighbours connect n node vs s) ∧
  later node s (exploreNeighbours connect n node vs s).
Proof.
  intros Hc. revert explored s. induction vs as [|w vs IH]; intros explored s Hx Hvs Hr; cbn [exploreNeighbours].
  { rewrite app_nil_r. split; [done|apply later_refl]. }
  assert (Hedge : E node w) by (apply Hvs; by left). destruct (edge_range node w Hedge) as [Hnr Hwr].
  rewrite (proj2 (Z.ltb_ge w 0)), (proj2 (Z.leb_gt n w)) by lia. cbn [orb].
  set (s' := if num s w =? -1 then _ else _).
  assert (H1 : exploring g node (explored ++ [w]) s' ∧ later node s s').
  { unfold s'. destruct (Z.eqb_spec (num s w) (-1)) as [Hnew|Hold].
    - destruct connect as [connect|]; [|by destruct (Hc w s (ex_inv _ _ _ _ Hx) Hwr Hnew)].
      apply explore_new; [done|done|done|]. apply Hc; [by destruct Hx|done|done|].
      intros x [->|Hxg]%elem_of_cons; [by apply rtc_once|]. eapply rtc_r; [by apply Hr|done].
    - destruct (num_cases _ _ w (ex_inv _ _ _ _ Hx)) as [?|Hv]; [done|].
      change (default false (zget (onStack s) w)) with (on s w). destruct (on s w) eqn:Ho.
      + apply (iv_on _ _ (ex_inv _ _ _ _ Hx)) in Ho. split; [by apply explore_visited|].
        eapply later_lower; [by destruct Hx|done].
      + split; [|apply later_refl]. apply explore_skip; [done|done|]. rewrite <- (iv_on _ _ (ex_inv _ _ _ _ Hx)). by rewrite Ho. }
  destruct H1 as [Hx' Hl']. destruct (IH (explored ++ [w]) s' Hx') as [Hx'' Hl'']; [intros; apply Hvs; by right|done|].
  rewrite <- app_assoc in Hx''. split; [exact Hx''|].
  eapply later_trans; [by destruct Hx|by destruct Hx'|by left|exact Hl'|exact Hl''].
Qed.

(** ** Leaving a node *)

(** The state when the callees of [node] are done: what has been pushed since
    the entry lies above [node]. *)
Record finished g node s s' : Prop := {
  fi_before : inv g s;
  fi_new : num s node = -1;
  fi_range : 0 <= node < n;
  fi_exploring : exploring g node (neighbours adjacency node) s';
  fi_later : later node s s';
  fi_number : num s' node = index s;
  fi_segment : ∃ new, stack s' = stack s ++ node :: new;
}.

Section leave.
Context (g : list Z) (node : Z) (s s' : tarjanState) (Hf : finished g node s s').

#[local] Definition segment u : Prop := u ∈ stack s' ∧ u ∉ stack s.

Let Hi : inv g s := fi_before _ _ _ _ Hf.
Let Hx : exploring g node (neighbours adjacency node) s' := fi_exploring _ _ _ _ Hf.
Let Hi' : inv (node :: g) s' := ex_inv _ _ _ _ Hx.

Lemma segment_number u : u ∈ stack s' → (u ∉ stack s ↔ num s' node <= num s' u).
Proof.
  intros Hu. rewrite (fi_number _ _ _ _ Hf). split.
  - intros Hns. destruct (num_cases _ _ u Hi) as [Hn|Hv].
    + destruct (la_new _ _ _ (fi_later _ _ _ _ Hf) u Hn) as [Hn'|]; [|done].
      destruct (iv_stack _ _ Hi' u Hu) as [_ Hv]. unfold visited in Hv. lia.
    + destruct Hns. by apply (later_on _ _ _ _ (fi_later _ _ _ _ Hf)).
  - intros Hle Hs. destruct (iv_stack _ _ Hi u Hs) as [_ Hv]. rewrite (la_num _ _ _ (fi_later _ _ _ _ Hf) u Hv) in Hle.
    destruct (iv_num _ _ Hi u); unfold visited in Hv; lia.
Qed.

Lemma node_on : node ∈ stack s'.
Proof. apply (iv_path _ _ Hi'). by left. Qed.

Lemma below u : u ∈ stack s → num s' u < num s' node.
Proof.
  intros Hu. pose proof (segment_number u (later_keeps _ _ _ _ (fi_later _ _ _ _ Hf) Hu)) as [_ H].
  destruct (decide (num s' node <= num s' u)); [by apply H in Hu|lia].
Qed.

Lemma segment_exit u w : segment u → E u w → visited s' w ∧ (w ∈ stack s' → lowLink s' node <= num s' w).
Proof.
  intros [Hu Hns] Hedge. destruct (decide (u = node)) as [->|Hne].
  - split; [by apply (ex_explored _ _ _ _ Hx)|intros; by apply (ex_calls _ _ _ _ Hx)].
  - assert (Hlt : num s' node < num s' u).
    { apply segment_number in Hns; [|done]. assert (num s' node ≠ num s' u); [|lia]. intros He. apply Hne.
      symmetry. exact (num_inj _ _ _ _ Hi' node_on Hu He). }
    split.
    + apply (iv_left _ _ Hi' u w); [by destruct (iv_stack _ _ Hi' u Hu)| |done].
      intros [->|Hug]%elem_of_cons; [done|]. pose proof (ex_top _ _ _ _ Hx u Hug). lia.
    + intros Hw. by apply (ex_above _ _ _ _ Hx u w).
Qed.

(** With a link below its number the node stays on the stack. *)
Lemma leave_pending : lowLink s' node ≠ num s' node → connected g node s s'.
Proof.
  intros Hne. pose proof Hx as [_ Ht (y & Hy & Hny & Hle & Hr) He Ha Hc].
  assert (Hys : y ∈ stack s).
  { destruct (decide (y ∈ stack s)) as [|Hn]; [done|]. apply segment_number in Hn; [lia|done]. }
  pose proof Hi' as [I1 I2 I3 I4 I5 I6 I7 I8 I9 I10 I11 I12 I13 I14 I15]. split.
  - split; try done.
    + intros u Hu. apply I10. by right.
    + intros u w Hv Hu Hedge. destruct (decide (u = node)) as [->|]; [by apply He|].
      eapply I11; [exact Hv| |exact Hedge]. by intros [?|?]%elem_of_cons.
    + intros x z Hxg. apply I13. by right.
    + intros z Hz. destruct (I14 z Hz) as (x & [->|Hxg]%elem_of_cons & Hxz & Hzx); [|by exists x].
      destruct (I14 y Hy) as (x & [->|Hxg]%elem_of_cons & Hxy & Hyx); [lia|].
      exists x. split_and!; [done|lia|]. etransitivity; [exact Hzx|]. by etransitivity.
  - by apply (fi_later _ _ _ _ Hf).
  - apply (iv_stack _ _ Hi'), node_on.
  - right. exists y. split_and!; [apply node_on|done|done|done].
  - intros u w Hu Hns Hedge Hw. destruct (segment_exit u w (conj Hu Hns) Hedge) as [_ H]. by apply H.
Qed.

Lemma segment_closed u w : segment u → lowLink s' node = num s' node → rtc E u w → w ∈ stack s' → segment w.
Proof.
  intros Hu Hroot Hr Hw. revert Hu. induction Hr as [|u v w Huv Hvw IH]; intros Hu; [done|]. apply IH; [done|].
  destruct (segment_exit u v Hu Huv) as [Hv Hlow]. destruct (decide (v ∈ stack s')) as [Hvs|Hvs].
  - split; [done|]. apply segment_number; [done|]. specialize (Hlow Hvs). lia.
  - exfalso. destruct (emitted_closed _ _ v w Hi' (conj Hv Hvs) Hvw). done.
Qed.

(** The segment is a component: its root reaches every node of it, and back. *)
Lemma segment_connected u : segment u → lowLink s' node = num s' node → rtc E node u ∧ rtc E u node.
Proof.
  intros Hu Hroot. pose proof Hu as [Hus Hns]. split.
  - apply (iv_down _ _ Hi'); [by left|done|by apply segment_number].
  - destruct (iv_up _ _ Hi' u Hus) as (x & [->|Hxg]%elem_of_cons & Hle & Hr); [done|].
    assert (Hxs : x ∈ stack s') by (apply (iv_path _ _ Hi'); by right).
    destruct (segment_closed u x Hu Hroot Hr Hxs) as [_ Hxn]. apply segment_number in Hxn; [|done].
    pose proof (ex_top _ _ _ _ Hx x Hxg). lia.
Qed.

Lemma rtc_tc_ne u w : rtc E u w → u ≠ w → tc E u w.
Proof. intros Hr Hne. apply rtc_tc in Hr as [|]; done. Qed.

Lemma tc_first u w : tc E u w → ∃ v, E u v ∧ rtc E v w.
Proof. destruct 1 as [u w Huw|u v w Huv Hvw]; [by exists w|]. exists v. split; [done|by apply tc_rtc]. Qed.

(** Its nodes lie on a cycle when there are two, or when the only one calls
    itself. *)
Lemma segment_cyclic u : segment u → lowLink s' node = num s' node →
  (tc E u u ↔ (∃ w, segment w ∧ w ≠ node) ∨ E node node).
Proof.
  intros Hu Hroot. assert (Hnode : segment node) by (split; [apply node_on|apply segment_number; [apply node_on|lia]]).
  destruct (segment_connected u Hu Hroot) as [Hnu Hun]. split.
  - intros Hc. assert (Hcn : tc E node node).
    { destruct (decide (node = u)) as [->|Hne]; [done|]. eapply tc_rtc_r; [by apply rtc_tc_ne|done]. }
    destruct (tc_first node node Hcn) as (v & Hv & Hvn). destruct (decide (v = node)) as [->|Hne]; [by right|left].
    exists v. split; [|done]. destruct (segment_exit node v Hnode Hv) as [Hvis _].
    destruct (decide (v ∈ stack s')) as [Hvs|Hvs].
    + apply (segment_closed node v Hnode Hroot (rtc_once _ _ Hv) Hvs).
    + exfalso. destruct (emitted_closed _ _ v node Hi' (conj Hvis Hvs) Hvn) as [_ Hnn]. apply Hnn, node_on.
  - intros [(w & Hw & Hne)|Hself].
    + destruct (segment_connected w Hw Hroot) as [Hnw Hwn].
      eapply tc_rtc_l; [exact Hun|]. eapply tc_rtc_r; [|exact Hnu].
      eapply tc_rtc_r; [apply rtc_tc_ne; [exact Hnw|congruence]|done].
    + eapply tc_rtc_l; [exact Hun|]. eapply tc_rtc_r; [by apply tc_once|done].
Qed.

Lemma findStackIndex_segment : findStackIndex s' node = zlen (stack s).
Proof.
  destruct (fi_segment _ _ _ _ Hf) as [new Hst].
  assert (Hat : stack s' !! length (stack s) = Some node) by (rewrite Hst; by apply list_lookup_middle).
  unfold findStackIndex. destruct (list_find _ _) as [[i [k x]]|] eqn:Hfind.
  - apply list_find_Some in Hfind as (Hl & Hx' & _). cbn in Hx'. subst x.
    apply list_elem_of_lookup_2 in Hl. rewrite elem_of_reverse in Hl. apply list_elem_of_lookup in Hl as [j Hj].
    apply lookup_zip_Some in Hj as [Hk Hn]. apply lookup_seqZ in Hk as [-> _].
    pose proof (stack_index _ _ _ _ _ Hi' Hn Hat). lia.
  - apply list_find_None in Hfind. exfalso. rewrite Forall_forall in Hfind.
    apply (Hfind (zlen (stack s), node)); [|done]. apply elem_of_reverse.
    apply (list_elem_of_lookup_2 _ (length (stack s))), lookup_zip_Some. split; [|done].
    apply lookup_seqZ. split; [lia|]. apply lookup_lt_Some in Hat. lia.
Qed.

Lemma members_segment u : u ∈ drop (length (stack s)) (stack s') ↔ segment u.
Proof.
  destruct (fi_segment _ _ _ _ Hf) as [new Hst]. unfold segment. rewrite Hst, drop_app_length, elem_of_app.
  split; [|naive_solver]. intros Hu. split; [by right|]. intros Hs. pose proof (below u Hs) as Hlt.
  assert (Hu' : u ∈ stack s') by (rewrite Hst; apply elem_of_app; by right).
  apply list_elem_of_lookup in Hu as [j Hj]. assert (Hlu : stack s' !! (length (stack s) + j)%nat = Some u).
  { rewrite Hst. rewrite lookup_app_r by lia. by replace (length (stack s) + j - length (stack s))%nat with j by lia. }
  assert (Hln : stack s' !! length (stack s) = Some node) by (rewrite Hst; by apply list_lookup_middle).
  destruct j as [|j]; [cbn in Hj; injection Hj as ->; lia|].
  pose proof (iv_sorted _ _ Hi' _ _ _ _ Hln Hlu ltac:(lia)). lia.
Qed.
End leave.

Lemma length_markAll {A} (l : list A) nodes (x : A) : length (markAll l nodes x) = length l.
Proof. unfold markAll. revert l. induction nodes as [|u nodes IH]; intros l; cbn [foldl]; [done|]. by rewrite IH, length_zset. Qed.

Lemma zget_markAll {A} (l : list A) nodes (x : A) u :
  (∀ w, w ∈ nodes → 0 <= w < zlen l) → zget (markAll l nodes x) u = if bool_decide (u ∈ nodes) then Some x else zget l u.
Proof.
  unfold markAll. revert l. induction nodes as [|w nodes IH]; intros l Hr; cbn [foldl].
  { rewrite bool_decide_eq_false_2; [done|]. by intros ?%elem_of_nil. }
  rewrite IH by (intros; rewrite length_zset; apply Hr; by right). rewrite zget_zset.
  destruct (decide (u ∈ nodes)) as [Hu|Hu].
  - rewrite !bool_decide_eq_true_2; [done|by right|done].
  - rewrite (bool_decide_eq_false_2 (u ∈ nodes)) by done. destruct (Z.eqb_spec w u) as [->|Hne].
    + rewrite !bool_decide_eq_true_2; [done|by left|by apply Hr; left].
    + rewrite bool_decide_eq_false_2; [done|]. by intros [->|?]%elem_of_cons.
Qed.

Section emit.
Context (g : list Z) (node : Z) (s s' : tarjanState) (Hf : finished g node s s').
Hypothesis Hroot : lowLink s' node = num s' node.

#[local] Notation seg := (drop (length (stack s)) (stack s')).
#[local] Notation s'' := (emitSCCRootedAt adjacency s' node).

Let Hi : inv g s := fi_before _ _ _ _ Hf.
Let Hx : exploring g node (neighbours adjacency node) s' := fi_exploring _ _ _ _ Hf.
Let Hi' : inv (node :: g) s' := ex_inv _ _ _ _ Hx.

Lemma emit_stack : stack s'' = stack s.
Proof.
  cbn [emitSCCRootedAt stack]. rewrite (findStackIndex_segment g node s s' Hf), Nat2Z.id.
  destruct (fi_segment _ _ _ _ Hf) as [new ->]. by apply take_app_length.
Qed.

Lemma segment_range u : u ∈ seg → 0 <= u < n.
Proof. intros Hu. apply (members_segment g node s s' Hf) in Hu as [Hu _]. by apply (iv_stack _ _ Hi'). Qed.

Lemma emit_on u : on s'' u = true ↔ u ∈ stack s.
Proof.
  unfold on. cbn [emitSCCRootedAt onStack]. rewrite (findStackIndex_segment g node s s' Hf), Nat2Z.id.
  rewrite zget_markAll by (intros w Hw; rewrite (iv_ons _ _ Hi'); by apply segment_range).
  case_bool_decide as Hu.
  - apply (members_segment g node s s' Hf) in Hu as [_ Hu]. done.
  - change (default false (zget (onStack s') u)) with (on s' u). rewrite (iv_on _ _ Hi').
    rewrite (members_segment g node s s' Hf) in Hu. unfold segment in Hu. split.
    + intros Hs. destruct (decide (u ∈ stack s)) as [|Hn]; [done|]. by destruct Hu.
    + by apply (later_keeps _ _ _ _ (fi_later _ _ _ _ Hf)).
Qed.

(** The flags that are set are those of the members on a cycle. *)
Lemma emit_flags u : length (inSCC s'') = length adjacency ∧
  (flagged s'' u = true ↔ flagged s' u = true ∨ segment s s' u ∧ tc E u u).
Proof.
  cbn [emitSCCRootedAt inSCC]. unfold flagged at 1. cbn [emitSCCRootedAt inSCC].
  rewrite (findStackIndex_segment g node s s' Hf), Nat2Z.id.
  set (many := 1 <? _). set (self := _ =? 1).
  assert (Hnode : segment s s' node).
  { split; [by apply (node_on g node s)|]. apply (segment_number g node s s' Hf); [by apply (node_on g node s)|lia]. }
  assert (Hlen : zlen (stack s') - zlen (stack s) = zlen seg) by (rewrite length_drop; destruct (fi_segment _ _ _ _ Hf) as [new ->]; rewrite length_app; lia).
  assert (Hcond : many || self && hasSelfEdge adjacency node = true ↔ (∃ w, segment s s' w ∧ w ≠ node) ∨ E node node).
  { unfold many, self. rewrite Hlen. destruct (fi_segment _ _ _ _ Hf) as [new Hst].
    assert (Hseg : seg = node :: new) by (rewrite Hst; apply drop_app_length).
    assert (Hself : hasSelfEdge adjacency node = true ↔ E node node).
    { unfold hasSelfEdge. rewrite existsb_exists. unfold edge. rewrite list_elem_of_In. split.
      - intros (w & Hw & Heq). bool_hyps. by subst w.
      - intros Hw. exists node. split; [done|]. apply Z.eqb_refl. }
    destruct new as [|w new].
    - assert (zlen seg = 1) as -> by (by rewrite Hseg). change (1 <? 1) with false. change (1 =? 1) with true. cbn [orb andb].
      rewrite Hself. split; [by right|]. intros [(w & Hw & Hne)|?]; [|done]. exfalso.
      apply (members_segment g node s s' Hf) in Hw. rewrite Hseg in Hw. by apply list_elem_of_singleton in Hw.
    - assert (1 < zlen seg) by (rewrite Hseg; cbn [length]; lia). rewrite (proj2 (Z.ltb_lt 1 _)) by done. cbn [orb].
      split; [intros _; left|done]. exists w. split.
      + apply (members_segment g node s s' Hf). rewrite Hseg. right. by left.
      + intros ->. assert (L1 : stack s' !! length (stack s) = Some node) by (rewrite Hst; by apply list_lookup_middle).
        assert (L2 : stack s' !! S (length (stack s)) = Some node).
        { rewrite Hst, lookup_app_r by lia. by replace (S (length (stack s)) - length (stack s))%nat with 1%nat by lia. }
        pose proof (stack_index _ _ _ _ _ Hi' L1 L2). lia. }
  destruct (many || self && hasSelfEdge adjacency node) eqn:Hc.
  - rewrite length_markAll. split; [by destruct Hi'|].
    rewrite zget_markAll by (intros w Hw; rewrite (iv_flags _ _ Hi'); by apply segment_range).
    case_bool_decide as Hu.
    + apply (members_segment g node s s' Hf) in Hu. cbn. split; [intros _; right|done]. split; [done|].
      apply (segment_cyclic g node s s' Hf); [done|done|by apply Hcond].
    + change (default false (zget (inSCC s') u)) with (flagged s' u). rewrite (members_segment g node s s' Hf) in Hu.
      split; [by left|]. by intros [?|[? _]].
  - split; [by destruct Hi'|]. change (default false (zget (inSCC s') u)) with (flagged s' u).
    split; [by left|]. intros [?|[Hu Ht]]; [done|]. apply (segment_cyclic g node s s' Hf) in Ht; [|done|done].
    apply Hcond in Ht. done.
Qed.

Lemma emitted_emit u : emitted s'' u ↔ emitted s' u ∨ segment s s' u.
Proof.
  unfold emitted, segment. rewrite emit_stack. change (visited s'' u) with (visited s' u). split.
  - intros [Hv Hn]. destruct (decide (u ∈ stack s')); auto.
  - intros [[Hv Hn]|[Hu Hn]].
    + split; [done|]. intros Hs. apply Hn. by apply (later_keeps _ _ _ _ (fi_later _ _ _ _ Hf)).
    + split; [|done]. by destruct (iv_stack _ _ Hi' u Hu).
Qed.

Lemma leave_root : connected g node s s''.
Proof.
  pose proof Hi' as [I1 I2 I3 I4 I5 I6 I7 I8 I9 I10 I11 I12 I13 I14 I15].
  assert (Hkeep := λ u, later_keeps _ _ _ u (fi_later _ _ _ _ Hf)).
  assert (Hnode : segment s s' node).
  { split; [by apply (node_on g node s)|]. apply (segment_number g node s s' Hf); [by apply (node_on g node s)|lia]. }
  split.
  - split; try done; try exact I5.
    + apply (emit_flags node).
    + cbn [emitSCCRootedAt onStack]. by rewrite length_markAll.
    + intros j k u v. rewrite emit_stack. change (num s'' u) with (num s' u). change (num s'' v) with (num s' v).
      intros Hu Hv. destruct (fi_segment _ _ _ _ Hf) as [new Hst]. apply I7; rewrite Hst; by apply lookup_app_l_Some.
    + intros u. rewrite emit_stack. apply emit_on.
    + intros u. rewrite emit_stack. intros Hu. by apply I9, Hkeep.
    + intros u Hu. rewrite emit_stack. by apply (iv_path _ _ Hi).
    + intros u w Hv Hu Hedge. change (visited s' w). destruct (decide (u = node)) as [->|]; [by apply (ex_explored _ _ _ _ Hx)|].
      eapply I11; [exact Hv| |exact Hedge]. by intros [?|?]%elem_of_cons.
    + intros u w Hu Hedge. apply emitted_emit. apply emitted_emit in Hu as [Hu|Hu]; [left; by eapply I12|].
      destruct (segment_exit g node s s' Hf u w Hu Hedge) as [Hw _]. destruct (decide (w ∈ stack s')) as [Hws|Hws]; [right|by left].
      by apply (segment_closed g node s s' Hf u w Hu Hroot (rtc_once _ _ Hedge)).
    + intros x y Hxg. rewrite emit_stack. intros Hy. apply I13; [by right|by apply Hkeep].
    + intros y. rewrite emit_stack. intros Hy. destruct (I14 y (Hkeep y Hy)) as (x & [->|Hxg]%elem_of_cons & Hxy & Hr); [|by exists x].
      pose proof (below g node s s' Hf y Hy). lia.
    + intros u. rewrite emitted_emit, (proj2 (emit_flags u)), (I15 u). naive_solver.
  - pose proof (fi_later _ _ _ _ Hf) as [L1 L2 L3 L4 L5]. split; try done. exists []. rewrite emit_stack, app_nil_r.
    split; [done|]. by intros u ?%elem_of_nil.
  - change (visited s' node). by destruct (I9 node (proj1 Hnode)).
  - left. rewrite emit_stack. split_and!; [done|by apply Hnode|exact Hroot].
  - intros u w. rewrite emit_stack. by intros Hu Hns.
Qed.
End emit.

(** The body of [strongconnect] after the entry. *)
Definition visit connect v s : tarjanState :=
  let s := exploreNeighbours connect n v (neighbours adjacency v) (enter s v) in
  if lowLink s v =? num s v then emitSCCRootedAt adjacency s v else s.

Lemma strongconnect_visit budget v s :
  strongconnect budget adjacency v s =
    visit (match budget with O => None | S budget => Some (strongconnect budget adjacency) end) v s.
Proof. by destruct budget. Qed.

Lemma exploring_enter g v s : inv g s → 0 <= v < n → num s v = -1 → (∀ x, x ∈ g → rtc E x v) → exploring g v [] (enter s v).
Proof.
  intros Hi Hv Hnew Hr. assert (Hnv : num (enter s v) v = index s) by (by rewrite (num_enter g), Z.eqb_refl by done).
  assert (Hold : ∀ u, u ∈ stack s → num (enter s v) u < index s).
  { intros u Hu. destruct (iv_stack _ _ Hi u Hu) as [_ Hvis]. rewrite (la_num _ _ _ (later_enter g s v Hi Hv Hnew) u Hvis).
    pose proof (iv_num _ _ Hi u). unfold visited in Hvis. lia. }
  split; [by apply enter_inv| | |by intros w ?%elem_of_nil| |by intros w ?%elem_of_nil].
  - intros x Hx. rewrite Hnv. by apply Hold, (iv_path _ _ Hi).
  - exists v. rewrite Hnv, (low_enter g), Z.eqb_refl by done. split_and!; [|done|lia|done].
    cbn. apply elem_of_app. right. by apply list_elem_of_singleton.
  - intros u w Hu. rewrite Hnv. cbn [enter stack] in Hu.
    apply elem_of_app in Hu as [Hu| ->%list_elem_of_singleton]; [specialize (Hold u Hu); lia|lia].
Qed.

Lemma visit_ok connect g v s :
  inv g s → 0 <= v < n → num s v = -1 → (∀ x, x ∈ g → rtc E x v) → connects (v :: g) connect → connected g v s (visit connect v s).
Proof.
  intros Hi Hv Hnew Hr Hc. pose proof (exploring_enter g v s Hi Hv Hnew Hr) as Hx0.
  destruct (exploreNeighbours_ok g v connect (neighbours adjacency v) [] (enter s v) Hc Hx0) as [Hx1 Hl1]; [done|done|].
  cbn [app] in Hx1. unfold visit. set (s1 := exploreNeighbours connect n v (neighbours adjacency v) (enter s v)) in *.
  assert (Hfin : finished g v s s1).
  { split; [done|done|done|done| | |].
    - eapply later_trans; [exact Hi|exact (ex_inv _ _ _ _ Hx0)|by left|by apply (later_enter g)|exact Hl1].
    - rewrite (la_num _ _ _ Hl1 v) by (apply (node_range _ _ _ _ Hx0)). by rewrite (num_enter g), Z.eqb_refl by done.
    - destruct (la_stack _ _ _ Hl1) as (new & Hst & _). exists new. rewrite Hst. cbn. by rewrite <- app_assoc. }
  destruct (Z.eqb_spec (lowLink s1 v) (num s1 v)) as [Heq|Hne]; [by apply leave_root|by apply leave_pending].
Qed.

Lemma strongconnect_ok budget g v s :
  inv g s → 0 <= v < n → num s v = -1 → (∀ x, x ∈ g → rtc E x v) → NoDup g → n <= zlen g + Z.of_nat budget + 1 →
  connected g v s (strongconnect budget adjacency v s).
Proof.
  revert g v s. induction budget as [|budget IH]; intros g v s Hi Hv Hnew Hr Hnd Hb; rewrite strongconnect_visit;
    (apply visit_ok; [done..|]); assert (Hnd' : NoDup (v :: g))
    by (apply NoDup_cons; split; [|done]; intros Hin; apply (iv_path _ _ Hi), (iv_stack _ _ Hi) in Hin as [_ Hvis]; unfold visited in Hvis; lia).
  - intros w s1 H1 Hw Hn1. assert (Hold : ∀ u, u ∈ v :: g → 0 <= u < n ∧ num s1 u ≠ -1).
    { intros u Hu. apply (iv_path _ _ H1), (iv_stack _ _ H1) in Hu as [? Hvis]. split; [done|]. unfold visited in Hvis. lia. }
    pose proof (path_bound adjacency (w :: v :: g)) as Hp. cbn [length] in Hp. enough (n < n) by lia.
    eapply Z.lt_le_trans; [|apply Hp]; [lia| |].
    + apply NoDup_cons. split; [|done]. intros Hin. by apply Hold in Hin as [_ ?].
    + intros u [->|Hu]%elem_of_cons; [done|by apply Hold].
  - intros w s1 H1 Hw Hn1 Hr1. apply IH; [done..|]. cbn [length]. lia.
Qed.

(** ** Every node *)

Lemma newTarjan_inv : inv [] (newTarjanState adjacency).
Proof.
  assert (Hnum : ∀ u, num (newTarjanState adjacency) u = -1).
  { intros u. unfold discovery. cbn [newTarjanState indices]. destruct (zget _ u) as [x|] eqn:E; [|done].
    apply (ex_intro (λ u, zget _ u = Some x)), elem_of_zget, elem_of_replicate in E as [-> _]. done. }
  assert (Hfalse : ∀ u, default false (zget (replicate (length adjacency) false) u) = false).
  { intros u. destruct (zget _ u) as [x|] eqn:E; [|done].
    apply (ex_intro (λ u, zget _ u = Some x)), elem_of_zget, elem_of_replicate in E as [-> _]. done. }
  split; unfold visited, emitted; cbn [newTarjanState inSCC indices lowLinks onStack stack index]; rewrite ?length_replicate; try done.
  - intros u. left. apply Hnum.
  - intros u. unfold on. cbn [newTarjanState onStack]. rewrite Hfalse. split; [done|by intros ?%elem_of_nil].
  - by intros u ?%elem_of_nil.
  - intros u w Hu. rewrite Hnum in Hu. lia.
  - intros u w [Hu _]. unfold visited in Hu. rewrite Hnum in Hu. lia.
  - by intros x y ?%elem_of_nil.
  - by intros y ?%elem_of_nil.
  - intros u. unfold flagged. cbn [newTarjanState inSCC]. rewrite Hfalse. split; [done|]. intros [[Hu _] _].
    unfold visited in Hu. rewrite Hnum in Hu. lia.
Qed.

#[local] Definition search s i : tarjanState :=
  if num s i =? -1 then strongconnect maxCallGraphRecursionDepth adjacency i s else s.

Lemma searches_ok nodes s :
  n <= Z.of_nat maxCallGraphRecursionDepth + 1 → inv [] s → (∀ u, u ∈ nodes → 0 <= u < n) →
  inv [] (foldl search s nodes) ∧ (∀ u, u ∈ nodes ∨ visited s u → visited (foldl search s nodes) u).
Proof.
  intros Hn. revert s. induction nodes as [|i nodes IH]; intros s Hi Hr; cbn [foldl].
  { split; [done|]. by intros u [?%elem_of_nil|]. }
  assert (H1 : inv [] (search s i) ∧ visited (search s i) i ∧ ∀ u, visited s u → visited (search s i) u).
  { unfold search. destruct (Z.eqb_spec (num s i) (-1)) as [Hnew|Hold].
    - destruct (strongconnect_ok maxCallGraphRecursionDepth [] i s) as [Ci Cl Cv _ _];
        [done|apply Hr; by left|done|by intros x ?%elem_of_nil|constructor|cbn [length]; lia|].
      split_and!; [done|done|]. intros u. by apply visited_later with i.
    - destruct (num_cases _ _ i Hi) as [?|Hv]; [done|]. by split_and!. }
  destruct H1 as (Hi1 & Hv1 & Hk1). destruct (IH (search s i) Hi1) as [Hi2 Hv2]; [intros; apply Hr; by right|].
  split; [done|]. intros u [[->|Hu]%elem_of_cons|Hu]; apply Hv2; auto.
Qed.

(** The flags are exactly the nodes on a cycle. *)
Lemma FindCallGraphSCCs_exact u :
  n <= Z.of_nat maxCallGraphRecursionDepth + 1 → 0 <= u < n →
  ∃ b, zget (FindCallGraphSCCs adjacency) u = Some b ∧ (b = true ↔ tc E u u).
Proof.
  intros Hn Hu. destruct (searches_ok (seqZ 0 n) (newTarjanState adjacency) Hn newTarjan_inv) as [Hi Hv].
  { intros w. rewrite elem_of_seqZ. lia. }
  change (FindCallGraphSCCs adjacency) with (inSCC (foldl search (newTarjanState adjacency) (seqZ 0 n))).
  set (s := foldl search _ _) in *. destruct (zget_is_Some (inSCC s) u) as [b Hb]; [rewrite (iv_flags _ _ Hi); lia|].
  exists b. split; [done|]. assert (Hf : flagged s u = b) by (unfold flagged; by rewrite Hb).
  rewrite <- Hf, (iv_flagged _ _ Hi u). split; [by intros [_ ?]|]. intros Ht. split; [|done]. split.
  - apply Hv. left. apply elem_of_seqZ. lia.
  - intros Hs. destruct (iv_up _ _ Hi u Hs) as (x & ?%elem_of_nil & _). done.
Qed.
End tarjan.

(** ** Functions *)

Lemma tc_calls functions i j : tc (edge (BuildCallAdjacency functions)) i j ↔ tc (calls functions) i j.
Proof. split; apply (tc_congruence id); intros x y; apply edge_calls. Qed.


