(* ===== verification/CallDepth.v ===== *)
(** * The estimate of the call depth

    [EstimateMaxCallDepth] is the length of the longest chain of direct calls
    of a program without recursion, bounds every chain that meets no recursive
    function, and charges a recursive one its floor. *)

From stdpp Require Import relations.
From S2P Require Import Prelude SafeConv Register Opcode Instruction Function CallGraph CallGraphScc.

(** A chain of calls: each function calls the next. *)
Fixpoint chain (R : Z → Z → Prop) (u : Z) (l : list Z) : Prop :=
  match l with [] => True | v :: l => R u v ∧ chain R v l end.

Lemma chain_mono (R R' : Z → Z → Prop) u l : (∀ x y, R x y → R' x y) → chain R u l → chain R' u l.
Proof. intros H. revert u. induction l as [|v l IH]; intros u; cbn; [done|]. intros [Huv Hl]. eauto. Qed.

Section depth.
Context (adjacency : list (list Z)) (Hwf : wf_adjacency adjacency).
Context (flags : list bool) (sizes : list Z).

#[local] Notation n := (zlen adjacency).
#[local] Notation E := (edge adjacency).

Hypothesis flags_exact : ∀ u, 0 <= u < n → default false (zget flags u) = true ↔ tc E u u.

Definition recursive u : Prop := tc E u u.

(** What an entry of the memo table is worth: no chain that avoids recursion is
    longer, it is the length of one if recursion cannot be reached, and a
    recursive function is charged the floor. *)
Record worth (u d : Z) : Prop := {
  wo_bound l : chain E u l → (∀ x, x ∈ u :: l → ¬ recursive x) → zlen (u :: l) <= d;
  wo_attained : (∀ x, rtc E u x → ¬ recursive x) → ∃ l, chain E u l ∧ zlen (u :: l) = d;
  wo_recursive : recursive u → recursiveSCCMinimumDepth <= d;
}.

Record memo_ok (memo : list Z) : Prop := {
  me_length : length memo = length adjacency;
  me_entry u d : zget memo u = Some d → 0 <= d → worth u d;
}.

Lemma memo_set memo u d : memo_ok memo → worth u d → memo_ok (zset memo u d).
Proof.
  intros [Hl He] Hw. split; [by rewrite length_zset|]. intros v x. rewrite zget_zset.
  destruct (Z.eqb_spec u v) as [<-|]; [|apply He]. case_bool_decide; [|done]. by intros [= <-].
Qed.

Lemma worth_recursive u d : recursive u → recursiveSCCMinimumDepth <= d → worth u d.
Proof.
  intros Hr Hd. split; [|intros H; by destruct (H u)|done]. intros l _ H. destruct (H u); [by left|done].
Qed.

Lemma deepestCallee_ok (depth : Z → list Z → Z * list Z) vs best memo :
  (∀ v memo, v ∈ vs → memo_ok memo → let '(d, memo') := depth v memo in 0 <= d ∧ worth v d ∧ memo_ok memo') →
  (∀ v, v ∈ vs → 0 <= v < n) → memo_ok memo →
  let '(best', memo') := deepestCallee depth n vs best memo in
    memo_ok memo' ∧ best <= best' ∧ (∀ v, v ∈ vs → ∃ d, worth v d ∧ d <= best') ∧
    (best' = best ∨ ∃ v, v ∈ vs ∧ worth v best').
Proof.
  revert best memo. induction vs as [|v vs IH]; intros best memo Hd Hr Hm; cbn [deepestCallee].
  { split_and!; [done|lia|by intros ? ?%elem_of_nil|by left]. }
  assert (Hv : 0 <= v < n) by (apply Hr; by left). rewrite (proj2 (Z.ltb_ge v 0)), (proj2 (Z.leb_gt n v)) by lia. cbn [orb].
  pose proof (Hd v memo ltac:(by left) Hm) as H1. destruct (depth v memo) as [d memo1]. destruct H1 as (Hd0 & Hw & Hm1).
  set (best1 := if best <? d then d else best). assert (Hb1 : best <= best1 ∧ d <= best1 ∧ (best1 = best ∨ best1 = d)).
  { unfold best1. destruct (Z.ltb_spec best d); split_and!; auto; lia. }
  pose proof (IH best1 memo1 ltac:(intros; apply Hd; [by right|done]) ltac:(intros; apply Hr; by right) Hm1) as H2.
  destruct (deepestCallee depth n vs best1 memo1) as [best' memo']. destruct H2 as (Hm' & Hle & Hall & Hat).
  split_and!; [done|lia| |].
  - intros x [->|Hx]%elem_of_cons; [exists d; split; [done|lia]|by apply Hall].
  - destruct Hat as [->|(x & Hx & Hwx)]; [|right; exists x; split; [by right|done]].
    destruct Hb1 as (_ & _ & [->|Heq]); [by left|]. right. exists v. rewrite Heq. split; [by left|done].
Qed.

Lemma worth_callees node best :
  0 <= best → (∀ v, v ∈ neighbours adjacency node → ∃ d, worth v d ∧ d <= best) →
  (best = 0 ∨ ∃ v, v ∈ neighbours adjacency node ∧ worth v best) → ¬ recursive node → worth node (best + 1).
Proof.
  intros H0 Hall Hat Hr. split; [| |done].
  - intros [|v l]; cbn [chain length]; [lia|]. intros [Huv Hl] Hno. destruct (Hall v Huv) as (d & Hw & Hd).
    pose proof (wo_bound _ _ Hw l Hl ltac:(intros; apply Hno; by right)) as Hb. cbn [length] in Hb. lia.
  - intros Hno. destruct Hat as [->|(v & Hv & Hw)]; [by exists []|].
    destruct (wo_attained _ _ Hw) as (l & Hl & Hlen); [intros x Hx; apply Hno; by eapply rtc_l|].
    exists (v :: l). split; [done|]. cbn [length] in *. lia.
Qed.

Lemma depthFromNode_ok budget path node memo :
  memo_ok memo → 0 <= node < n → NoDup path → (∀ x, x ∈ path → 0 <= x < n ∧ tc E x node) →
  n <= zlen path + Z.of_nat budget →
  let '(d, memo') := depthFromNode budget adjacency flags sizes node memo in 0 <= d ∧ worth node d ∧ memo_ok memo'.
Proof.
  revert path node memo. induction budget as [|budget IH]; intros path node memo Hm Hn Hnd Hp Hb; cbn [depthFromNode];
    (destruct (Z.leb_spec 0 (default (-1) (zget memo node))) as [Hle|_];
     [destruct (zget memo node) as [d|] eqn:Hd; cbn in *; [|lia]; split_and!; [done|by apply (me_entry _ Hm)|done]|]);
    (destruct (default false (zget flags node)) eqn:Hfl;
     [apply flags_exact in Hfl; [|done]; assert (Hw := worth_recursive node (Z.max (default 0 (zget sizes node) * recursiveSCCFanout)
        recursiveSCCMinimumDepth) Hfl ltac:(lia)); split_and!; [unfold recursiveSCCMinimumDepth; lia|done|by apply memo_set]|]);
    (assert (Hr : ¬ recursive node) by (intros Hr; apply flags_exact in Hr; [congruence|done]));
    (assert (Hnd' : NoDup (node :: path)) by (apply NoDup_cons; split; [|done]; intros Hin; apply Hr; by apply Hp));
    (assert (Hlen := path_bound adjacency (node :: path) Hnd'
      ltac:(intros w [->|Hw]%elem_of_cons; [done|by apply Hp])); cbn [length] in Hlen); [lia|].
  pose proof (deepestCallee_ok (depthFromNode budget adjacency flags sizes) (neighbours adjacency node) 0 memo) as Hdc.
  destruct (deepestCallee _ _ _ _ _) as [best memo1]. destruct Hdc as (Hm1 & H0 & Hall & Hat).
  - intros v m Hv Hmm. apply (IH (node :: path)); [done|by eapply Hwf|done| |cbn [length]; lia].
    intros x [->|Hx]%elem_of_cons; [split; [done|by apply tc_once]|]. split; [by apply Hp|]. eapply tc_r; [by apply Hp|done].
  - intros v Hv. by eapply Hwf.
  - done.
  - assert (Hw : worth node (best + 1)) by (by apply worth_callees). split_and!; [lia|done|by apply memo_set].
Qed.

Lemma depthLoop_ok nodes memo maxDepth :
  n <= Z.of_nat maxCallGraphRecursionDepth → (∀ u, u ∈ nodes → 0 <= u < n) → memo_ok memo →
  let result := depthLoop adjacency flags sizes nodes memo maxDepth in
    maxDepth <= result ∧ (∀ u, u ∈ nodes → ∃ d, worth u d ∧ d <= result) ∧
    (result = maxDepth ∨ ∃ u, u ∈ nodes ∧ worth u result).
Proof.
  intros Hn. revert memo maxDepth. induction nodes as [|u nodes IH]; intros memo maxDepth Hr Hm; cbn [depthLoop].
  { split_and!; [lia|by intros ? ?%elem_of_nil|by left]. }
  pose proof (depthFromNode_ok maxCallGraphRecursionDepth [] u memo Hm ltac:(apply Hr; by left) ltac:(constructor)
    ltac:(by intros ? ?%elem_of_nil) ltac:(cbn [length]; lia)) as H1.
  destruct (depthFromNode _ _ _ _ u memo) as [d memo1]. destruct H1 as (H0 & Hw & Hm1).
  set (max1 := if maxDepth <? d then d else maxDepth). assert (Hb1 : maxDepth <= max1 ∧ d <= max1 ∧ (max1 = maxDepth ∨ max1 = d)).
  { unfold max1. destruct (Z.ltb_spec maxDepth d); split_and!; auto; lia. }
  destruct (IH memo1 max1 ltac:(intros; apply Hr; by right) Hm1) as (Hle & Hall & Hat). split_and!; [lia| |].
  - intros x [->|Hx]%elem_of_cons; [exists d; split; [done|lia]|by apply Hall].
  - destruct Hat as [Heq|(x & Hx & Hwx)]; [|right; exists x; split; [by right|done]]. rewrite Heq.
    destruct Hb1 as (_ & _ & [->| ->]); [by left|]. right. exists u. split; [by left|done].
Qed.
End depth.

Lemma EstimateMaxCallDepth_ok functions :
  wf_sites functions → 0 < zlen functions <= Z.of_nat maxCallGraphRecursionDepth →
  (∀ u l, 0 <= u < zlen functions → chain (calls functions) u l → (∀ x, x ∈ u :: l → ¬ tc (calls functions) x x) →
    zlen (u :: l) <= EstimateMaxCallDepth functions) ∧
  ((∀ x, ¬ tc (calls functions) x x) →
    ∃ u l, 0 <= u < zlen functions ∧ chain (calls functions) u l ∧ zlen (u :: l) = EstimateMaxCallDepth functions) ∧
  ((∃ x, tc (calls functions) x x) → recursiveSCCMinimumDepth <= EstimateMaxCallDepth functions).
Proof.
  intros Hwf Hn. set (adjacency := BuildCallAdjacency functions).
  assert (Hl : zlen adjacency = zlen functions) by (unfold adjacency, BuildCallAdjacency; by rewrite length_map).
  pose proof (BuildCallAdjacency_wf functions Hwf) as Hwa. fold adjacency in Hwa.
  assert (Hflags : ∀ u, 0 <= u < zlen adjacency →
    default false (zget (FindCallGraphSCCs adjacency) u) = true ↔ tc (edge adjacency) u u).
  { intros u Hu. destruct (FindCallGraphSCCs_exact adjacency Hwa u) as (b & -> & Hb); [lia|done|done]. }
  assert (Hnodes : ∀ u, u ∈ seqZ 0 (zlen functions) ↔ 0 <= u < zlen functions) by (intros u; rewrite elem_of_seqZ; lia).
  assert (Hmemo : memo_ok adjacency (replicate (length functions) (-1))).
  { split; [rewrite length_replicate; lia|]. intros u d Hd Hd0.
    apply (ex_intro (λ u, zget _ u = Some d)), elem_of_zget, elem_of_replicate in Hd as [-> _]. lia. }
  unfold EstimateMaxCallDepth. rewrite (proj2 (Z.eqb_neq _ 0)) by lia. fold adjacency.
  destruct (depthLoop_ok adjacency Hwa _ (computeSCCSizes adjacency (FindCallGraphSCCs adjacency)) Hflags (seqZ 0 (zlen functions))
    (replicate (length functions) (-1)) 1 ltac:(lia) ltac:(intros u; rewrite Hnodes; lia) Hmemo) as (H1 & Hall & Hat).
  set (result := depthLoop _ _ _ _ _ _) in *.
  assert (Hrec : ∀ x, recursive adjacency x ↔ tc (calls functions) x x) by (intros; apply tc_calls).
  split_and!.
  - intros u l Hu Hc Hno. destruct (Hall u) as (d & Hw & Hd); [by apply Hnodes|].
    pose proof (wo_bound _ _ _ Hw l) as Hb. etransitivity; [apply Hb|exact Hd].
    + eapply chain_mono; [|exact Hc]. intros x y Hxy. by apply edge_calls.
    + intros x Hx. rewrite Hrec. by apply Hno.
  - intros Hno. destruct Hat as [Heq|(u & Hu & Hw)].
    + exists 0, []. rewrite Heq. split_and!; [lia|lia|done|done].
    + destruct (wo_attained _ _ _ Hw) as (l & Hc & Hlen); [intros x _; rewrite Hrec; apply Hno|].
      exists u, l. apply Hnodes in Hu. split_and!; [lia|lia| |done]. eapply chain_mono; [|exact Hc]. intros x y Hxy. by apply edge_calls.
  - intros [x Hx]. assert (Hxr : 0 <= x < zlen functions).
    { rewrite <- tc_calls in Hx. rewrite <- Hl. destruct (tc_first _ x x Hx) as (y & Hy & _). by eapply edge_source. }
    destruct (Hall x) as (d & Hw & Hd); [by apply Hnodes|]. etransitivity; [apply (wo_recursive _ _ _ Hw); by apply Hrec|exact Hd].
Qed.

Lemma call_depth_bound functions :
  wf_sites functions → 0 < zlen functions <= Z.of_nat maxCallGraphRecursionDepth →
  (∀ u l, 0 <= u < zlen functions → chain (calls functions) u l → (∀ x, x ∈ u :: l → ¬ tc (calls functions) x x) →
    zlen (u :: l) <= EstimateMaxCallDepth functions) ∧ 0 < EstimateMaxCallDepth functions.
Proof.
  intros Hwf Hn. destruct (EstimateMaxCallDepth_ok functions Hwf Hn) as (Hb & _ & Hr). split; [done|].
  destruct (decide (0 < EstimateMaxCallDepth functions)) as [|Hneg]; [done|]. exfalso.
  specialize (Hb 0 [] ltac:(lia) I). cbn [length] in Hb.
  enough (1 <= EstimateMaxCallDepth functions) by lia. apply Hb. intros x ->%list_elem_of_singleton Hx.
  specialize (Hr (ex_intro _ 0 Hx)). unfold recursiveSCCMinimumDepth in Hr. lia.
Qed.


