(* ===== verification/ArgCopy.v ===== *)
(** * Argument copies

    [internal/engine/program/call_copy_program.go]: the per-call-site plan that
    moves arguments into the callee's parameter registers and the alias
    test that lets a self tail call run the plan over one register file; and
    [runArgCopyProgram] of [internal/engine/vm_handler_calls.go], which runs
    it.  What one copy does to a value (boxing, unboxing, the boundary copy of
    a struct) is a parameter. *)

From S2P Require Import Prelude SafeConv Register Opcode Instruction Function.

Definition kindByteDestShift : Z := 4.

Definition UpvalueKindAsPointer : RegisterKind := 255.

Notation callArgCopyOp := Z (only parsing).

Definition CopyIntToInt : callArgCopyOp := 0.
Definition CopyFloatToFloat : callArgCopyOp := 1.
Definition CopyStringToString : callArgCopyOp := 2.
Definition CopyGeneralToGeneral : callArgCopyOp := 3.
Definition CopyBoolToBool : callArgCopyOp := 4.
Definition CopyUintToUint : callArgCopyOp := 5.
Definition CopyComplexToComplex : callArgCopyOp := 6.
Definition CopySliceIntToSliceInt : callArgCopyOp := 7.
Definition CopySliceFloatToSliceFloat : callArgCopyOp := 8.
Definition CopySliceStringToSliceString : callArgCopyOp := 9.
Definition CopySliceBoolToSliceBool : callArgCopyOp := 10.
Definition CopySliceUintToSliceUint : callArgCopyOp := 11.
Definition CopySliceByteToSliceByte : callArgCopyOp := 12.
Definition CopyBoxOrUnbox : callArgCopyOp := 13.

Record CallArgCopy := NewCallArgCopy {
  copyOp : callArgCopyOp;
  SourceRegister : Z;
  DestinationRegister : Z;
  KindByte : Z;
}.

Definition sameKindCopyOp (kind : RegisterKind) : option callArgCopyOp :=
  if kind =? RegisterInt then Some CopyIntToInt
  else if kind =? RegisterFloat then Some CopyFloatToFloat
  else if kind =? RegisterString then Some CopyStringToString
  else if kind =? RegisterGeneral then Some CopyGeneralToGeneral
  else if kind =? RegisterBool then Some CopyBoolToBool
  else if kind =? RegisterUint then Some CopyUintToUint
  else if kind =? RegisterComplex then Some CopyComplexToComplex
  else if kind =? RegisterSliceInt then Some CopySliceIntToSliceInt
  else if kind =? RegisterSliceFloat then Some CopySliceFloatToSliceFloat
  else if kind =? RegisterSliceString then Some CopySliceStringToSliceString
  else if kind =? RegisterSliceBool then Some CopySliceBoolToSliceBool
  else if kind =? RegisterSliceUint then Some CopySliceUintToSliceUint
  else if kind =? RegisterSliceByte then Some CopySliceByteToSliceByte
  else None.

Definition packKinds (source destination : RegisterKind) : Z :=
  Z.lor (wrapU 8 source) (wrapU 8 (Z.shiftl (wrapU 8 destination) kindByteDestShift)).

Definition buildOneArgCopyEntry (argument : VarLocation) (destinationKind : RegisterKind)
    (destinationRegister : Z) : CallArgCopy :=
  if negb (vlKind argument =? destinationKind) then
    NewCallArgCopy CopyBoxOrUnbox (vlRegister argument) destinationRegister
      (packKinds (vlKind argument) destinationKind)
  else match sameKindCopyOp destinationKind with
  | None => NewCallArgCopy CopyBoxOrUnbox (vlRegister argument) destinationRegister
              (packKinds (vlKind argument) destinationKind)
  | Some op => NewCallArgCopy op (vlRegister argument) destinationRegister 0
  end.

(** [[NumRegisterKinds]int], all zero. *)
Definition noneAllocated : list Z := replicate (Z.to_nat NumRegisterKinds) 0.

(** The loop over the first [n] arguments; [None] is the panic of a register
    that does not fit a byte. *)
Fixpoint copyEntries (arguments : list VarLocation) (parameterKinds : list RegisterKind)
    (parameterRegisters : list Z) (kindIndex : list Z) : option (list CallArgCopy) :=
  match arguments, parameterKinds with
  | argument :: arguments, kind :: parameterKinds =>
      let '(destination, kindIndex, parameterRegisters) :=
        match parameterRegisters with
        | register :: rest => (register, zset kindIndex kind (register + 1), rest)
        | [] =>
            let naive := default 0 (zget kindIndex kind) in
            (naive, zset kindIndex kind (naive + 1), [])
        end in
      register ← MustIntToUint8 destination;
      rest ← copyEntries arguments parameterKinds parameterRegisters kindIndex;
      Some (buildOneArgCopyEntry argument kind register :: rest)
  | _, _ => Some []
  end.

(** [nil] is the empty plan. *)
Definition BuildCallArgCopyProgram (arguments : list VarLocation)
    (parameterKinds : list RegisterKind) (parameterRegisters : list Z)
    : option (list CallArgCopy) :=
  if Z.min (zlen arguments) (zlen parameterKinds) =? 0 then Some []
  else if negb (zlen parameterRegisters =? zlen parameterKinds) then Some []
  else copyEntries arguments parameterKinds parameterRegisters noneAllocated.

(** The destinations the alias test assumes: each bank is filled in order. *)
Fixpoint destinationPositions (parameterKinds : list RegisterKind) (kindIndex : list Z)
    : list (RegisterKind * Z) :=
  match parameterKinds with
  | [] => []
  | kind :: rest =>
      let reg := default 0 (zget kindIndex kind) in
      (kind, reg) :: destinationPositions rest (zset kindIndex kind (reg + 1))
  end.

(** For each destination, is it the source of a later argument? *)
Fixpoint aliasLoop (positions : list (RegisterKind * Z)) (arguments : list VarLocation) : bool :=
  match positions, arguments with
  | (kind, reg) :: positions, _ :: later =>
      existsb (λ source, (vlKind source =? kind) && (vlRegister source =? reg)) later
      || aliasLoop positions later
  | _, _ => false
  end.

Definition DetectTailCallArgsAlias (arguments : list VarLocation)
    (parameterKinds : list RegisterKind) : bool :=
  let n := Nat.min (length arguments) (length parameterKinds) in
  aliasLoop (destinationPositions (take n parameterKinds) noneAllocated) (take n arguments).

(** ** Running a plan *)

Section run.
Context {V : Type}.

(** The value that arrives in the destination bank, if one is stored. *)
Context (transfer : RegisterKind → RegisterKind → V → option V).

(** A register file: a value for each bank and index. *)
Notation File := (RegisterKind * Z → V) (only parsing).

Definition writeFile (r : File) (k : RegisterKind * Z) (v : V) : File :=
  λ k', if decide (k' = k) then v else r k'.

(** The banks an entry reads and writes: the operation names them, or the kind
    byte does. *)
Definition entryKinds (c : CallArgCopy) : RegisterKind * RegisterKind :=
  if copyOp c =? CopyBoxOrUnbox
  then (Z.land (KindByte c) 15, Z.shiftr (KindByte c) 4)
  else
    let bank :=
      if copyOp c =? CopyIntToInt then RegisterInt
      else if copyOp c =? CopyFloatToFloat then RegisterFloat
      else if copyOp c =? CopyStringToString then RegisterString
      else if copyOp c =? CopyGeneralToGeneral then RegisterGeneral
      else if copyOp c =? CopyBoolToBool then RegisterBool
      else if copyOp c =? CopyUintToUint then RegisterUint
      else if copyOp c =? CopyComplexToComplex then RegisterComplex
      else if copyOp c =? CopySliceIntToSliceInt then RegisterSliceInt
      else if copyOp c =? CopySliceFloatToSliceFloat then RegisterSliceFloat
      else if copyOp c =? CopySliceStringToSliceString then RegisterSliceString
      else if copyOp c =? CopySliceBoolToSliceBool then RegisterSliceBool
      else if copyOp c =? CopySliceUintToSliceUint then RegisterSliceUint
      else RegisterSliceByte in
    (bank, bank).

Definition entrySource (c : CallArgCopy) : RegisterKind * Z := (fst (entryKinds c), SourceRegister c).
Definition entryDestination (c : CallArgCopy) : RegisterKind * Z :=
  (snd (entryKinds c), DestinationRegister c).

Definition runEntry (callerRegisters destination : File) (c : CallArgCopy) : File :=
  match transfer (snd (entryKinds c)) (fst (entryKinds c)) (callerRegisters (entrySource c)) with
  | Some v => writeFile destination (entryDestination c) v
  | None => destination
  end.

(** The caller's registers and the callee's are two files. *)
Definition runArgCopyProgram (callerRegisters destination : File) (plan : list CallArgCopy) : File :=
  foldl (runEntry callerRegisters) destination plan.

(** The same loop when the callee reuses the caller's frame: the file it reads
    is the file it writes. *)
Definition runArgCopyInPlace (registers : File) (plan : list CallArgCopy) : File :=
  foldl (λ r c, runEntry r r c) registers plan.

(** No entry writes what a later one reads. *)
Fixpoint clobber_free (plan : list CallArgCopy) : Prop :=
  match plan with
  | [] => True
  | c :: rest => Forall (λ d, entrySource d ≠ entryDestination c) rest ∧ clobber_free rest
  end.

Lemma in_place_is_snapshot plan caller r :
  clobber_free plan → Forall (λ c, r (entrySource c) = caller (entrySource c)) plan →
  runArgCopyInPlace r plan = runArgCopyProgram caller r plan.
Proof.
  revert r. induction plan as [|c plan IH]; intros r Hfree Hsame; [done|].
  destruct Hfree as [Hc Hfree]. apply Forall_cons in Hsame as [He Hsame].
  unfold runArgCopyInPlace, runArgCopyProgram in *. cbn [foldl].
  assert (Hstep : runEntry r r c = runEntry caller r c) by (unfold runEntry; by rewrite He).
  rewrite Hstep. apply IH; [done|]. rewrite Forall_forall in *.
  intros d Hd. unfold runEntry. destruct (transfer _ _ _); [|by apply Hsame].
  unfold writeFile. rewrite decide_False by (by apply Hc). by apply Hsame.
Qed.
End run.

(** ** The plan says what the locations say *)

Definition is_bank (k : RegisterKind) : Prop := 0 <= k < NumRegisterKinds.

Lemma packKinds_split source destination :
  is_bank source → is_bank destination →
  Z.land (packKinds source destination) 15 = source ∧
  Z.shiftr (packKinds source destination) 4 = destination.
Proof.
  intros Hs Hd.
  assert (H : forallb (λ s, forallb (λ d, (Z.land (packKinds s d) 15 =? s)
    && (Z.shiftr (packKinds s d) 4 =? d)) allRegisterKinds) allRegisterKinds = true)
    by (vm_compute; reflexivity).
  rewrite forallb_forall in H.
  specialize (H source ltac:(by apply list_elem_of_In, elem_allRegisterKinds)). cbv beta in H.
  rewrite forallb_forall in H.
  specialize (H destination ltac:(by apply list_elem_of_In, elem_allRegisterKinds)).
  cbv beta in H. bool_hyps. done.
Qed.

Lemma sameKindCopyOp_kinds k op s d :
  sameKindCopyOp k = Some op → entryKinds (NewCallArgCopy op s d 0) = (k, k).
Proof.
  unfold sameKindCopyOp. repeat case_if; intros [= <-]; bool_hyps; subst; reflexivity.
Qed.

Lemma buildOneArgCopyEntry_spec argument kind register :
  is_bank (vlKind argument) → is_bank kind →
  entrySource (buildOneArgCopyEntry argument kind register) = (vlKind argument, vlRegister argument) ∧
  entryDestination (buildOneArgCopyEntry argument kind register) = (kind, register).
Proof.
  intros Ha Hk. destruct (packKinds_split (vlKind argument) kind Ha Hk) as [HA HK].
  unfold buildOneArgCopyEntry, entrySource, entryDestination.
  destruct (vlKind argument =? kind) eqn:E; bool_hyps; cbn [negb].
  2: { change (entryKinds _) with (Z.land (packKinds (vlKind argument) kind) 15,
         Z.shiftr (packKinds (vlKind argument) kind) 4). by rewrite HA, HK. }
  subst kind. destruct (sameKindCopyOp (vlKind argument)) as [op|] eqn:Ho.
  - by rewrite (sameKindCopyOp_kinds _ _ _ _ Ho).
  - change (entryKinds _) with (Z.land (packKinds (vlKind argument) (vlKind argument)) 15,
      Z.shiftr (packKinds (vlKind argument) (vlKind argument)) 4). by rewrite HA, HK.
Qed.

(** What the compiler hands to the planner: banks and byte registers. *)
Definition wf_location (a : VarLocation) : Prop := is_bank (vlKind a) ∧ byte_ok (vlRegister a).

Lemma MustIntToUint8_fits n : byte_ok n → MustIntToUint8 n = Some n.
Proof. intros. unfold MustIntToUint8. case_if; bool_hyps; [exfalso|f_equal]; word. Qed.

Lemma copyEntries_spec arguments kinds registers kindIndex :
  Forall wf_location arguments → Forall is_bank kinds → Forall byte_ok registers →
  length registers = length kinds →
  ∃ plan, copyEntries arguments kinds registers kindIndex = Some plan ∧
    map entrySource plan =
      map (λ a, (vlKind a, vlRegister a)) (take (length kinds) arguments) ∧
    map entryDestination plan = take (length arguments) (zip kinds registers).
Proof.
  revert kinds registers kindIndex.
  induction arguments as [|a arguments IH]; intros kinds registers kindIndex Ha Hk Hr Hlen.
  { exists []. cbn [copyEntries]. by rewrite take_nil. }
  destruct kinds as [|k kinds]; [by exists []|].
  destruct registers as [|register registers]; [done|]. cbn [copyEntries].
  apply Forall_cons in Ha as [Ha Has], Hk as [Hk Hks], Hr as [Hr Hrs].
  rewrite MustIntToUint8_fits by done. cbn [mbind option_bind].
  destruct (IH kinds registers (zset kindIndex k (register + 1)) Has Hks Hrs) as
    (plan & -> & Hsrc & Hdst); [cbn in Hlen; congruence|]. cbn [mbind option_bind].
  destruct (buildOneArgCopyEntry_spec a k register) as [H1 H2]; [apply Ha|done|].
  eexists. split; [done|]. cbn [map length take zip zip_with].
  by rewrite H1, H2, Hsrc, Hdst.
Qed.

Lemma destinationPositions_zip kinds kindIndex :
  destinationPositions kinds kindIndex =
    zip kinds (map snd (destinationPositions kinds kindIndex)).
Proof.
  revert kindIndex. induction kinds as [|k kinds IH]; intros kindIndex; [done|].
  cbn [destinationPositions map zip zip_with snd]. by rewrite <- IH.
Qed.

Lemma destinationPositions_take n kinds kindIndex :
  destinationPositions (take n kinds) kindIndex = take n (destinationPositions kinds kindIndex).
Proof.
  revert kinds kindIndex. induction n as [|n IH]; intros [|k kinds] kindIndex; [done..|].
  cbn [take destinationPositions]. by rewrite IH.
Qed.

(** The alias test compares each destination it assumes with the sources that
    follow; when the plan's own destinations are those, a negative answer
    means that no entry clobbers a later source. *)
Lemma aliasLoop_clobber_free plan positions arguments :
  map entrySource plan = map (λ a, (vlKind a, vlRegister a)) arguments →
  map entryDestination plan = positions →
  aliasLoop positions arguments = false → clobber_free plan.
Proof.
  revert positions arguments.
  induction plan as [|c plan IH]; intros positions [|a arguments] Hs <-; try done.
  cbn [map] in Hs. injection Hs as _ _ Hrest.
  destruct (entryDestination c) as [kind reg] eqn:Ed. cbn [map aliasLoop clobber_free]. rewrite Ed.
  intros [Halias Hlater]%orb_false_iff. split; [|by eapply IH].
  apply Forall_forall. intros d Hd Hclobber.
  assert (Hin : entrySource d ∈ map entrySource plan) by (by apply list_elem_of_fmap_2).
  rewrite Hrest, Hclobber in Hin. apply list_elem_of_fmap in Hin as (b & Hb & Hin).
  simplify_eq. rewrite <- not_true_iff_false in Halias. apply Halias.
  apply existsb_exists. exists b. split; [by apply list_elem_of_In|].
  by rewrite !Z.eqb_refl.
Qed.

(** The registers a callee has when its parameters fill each bank in order. *)
Definition sequentialRegisters (kinds : list RegisterKind) : list Z :=
  map snd (destinationPositions kinds noneAllocated).

Lemma length_destinationPositions kinds kindIndex :
  length (destinationPositions kinds kindIndex) = length kinds.
Proof.
  revert kindIndex. induction kinds as [|k kinds IH]; intros kindIndex; [done|].
  cbn [destinationPositions length]. by rewrite IH.
Qed.

(** C34: a self tail call may run its plan over its own registers: when the
    callee's parameters fill each bank in order and the alias test answers
    no, running the plan in place leaves every register as it would be had
    the arguments been read from a snapshot taken before the first copy,
    whatever the conversions do. *)
Theorem alias_test_licenses_in_place {V} (transfer : RegisterKind → RegisterKind → V → option V)
    arguments kinds plan (registers : RegisterKind * Z → V) :
  Forall wf_location arguments → Forall is_bank kinds →
  Forall byte_ok (sequentialRegisters kinds) →
  BuildCallArgCopyProgram arguments kinds (sequentialRegisters kinds) = Some plan →
  DetectTailCallArgsAlias arguments kinds = false →
  ∀ k, runArgCopyInPlace transfer registers plan k =
       runArgCopyProgram transfer registers registers plan k.
Proof.
  intros Ha Hk Hr Hplan Halias k.
  rewrite (in_place_is_snapshot transfer plan registers); [done| |by apply Forall_true].
  unfold BuildCallArgCopyProgram in Hplan.
  assert (Hlen : length (sequentialRegisters kinds) = length kinds).
  { unfold sequentialRegisters. by rewrite length_map, length_destinationPositions. }
  revert Hplan. repeat case_if; [by intros [= <-]..|]. intros Hplan.
  destruct (copyEntries_spec arguments kinds _ noneAllocated Ha Hk Hr Hlen) as
    (plan' & Hplan' & Hsrc & Hdst). simplify_eq.
  unfold DetectTailCallArgsAlias in Halias.
  rewrite destinationPositions_take, destinationPositions_zip in Halias.
  fold (sequentialRegisters kinds) in Halias.
  eapply aliasLoop_clobber_free; [|exact Hdst|].
  - exact Hsrc.
  - rewrite <- Halias. f_equal.
    + destruct (Nat.min_spec (length arguments) (length kinds)) as [[? ->]|[? ->]]; [done|].
      rewrite !take_ge; [done|..]; rewrite length_zip; lia.
    + destruct (Nat.min_spec (length arguments) (length kinds)) as [[? ->]|[? ->]]; [|done].
      by rewrite !take_ge by lia.
Qed.

(** An argument in a register of a bank. *)
Definition inRegister (kind : RegisterKind) (register : Z) : VarLocation :=
  NewVarLocation 0 0 register kind false false false false.

(** Every transfer stores its value. *)
Definition keepValue (destination source : RegisterKind) (v : Z) : option Z := Some v.

Theorem alias_test_licenses_in_place_witness :
  let arguments := [inRegister RegisterInt 0; inRegister RegisterInt 5; inRegister RegisterBool 1] in
  let kinds := [RegisterInt; RegisterInt; RegisterGeneral] in
  let registers := λ k : RegisterKind * Z, 100 * fst k + snd k in
  ∃ plan, BuildCallArgCopyProgram arguments kinds (sequentialRegisters kinds) = Some plan ∧
    length plan = 3%nat ∧
    runArgCopyInPlace keepValue registers plan (RegisterGeneral, 0) =
    runArgCopyProgram keepValue registers registers plan (RegisterGeneral, 0).
Proof.
  intros arguments kinds registers.
  eexists. split; [vm_compute; reflexivity|]. split; [reflexivity|].
  apply (alias_test_licenses_in_place keepValue arguments kinds _ registers).
  - repeat constructor; vm_compute; congruence.
  - repeat constructor; vm_compute; congruence.
  - repeat constructor; vm_compute; congruence.
  - vm_compute. reflexivity.
  - vm_compute. reflexivity.
Defined.

(** the alias test and the plan disagree about where parameters live.  A
    callee whose first parameter is boxed because its address is taken has
    its later general parameters one register higher than the naive
    counter; for a self call that swaps those two, the test finds no alias,
    and running the plan in place gives both parameters the same value. *)
Theorem alias_test_ignores_recorded_registers :
  let kinds := [RegisterGeneral; RegisterGeneral; RegisterGeneral] in
  let recorded := [0; 2; 3] in
  let arguments := [inRegister RegisterGeneral 0; inRegister RegisterGeneral 3;
                    inRegister RegisterGeneral 2] in
  let registers := λ k : RegisterKind * Z, snd k in
  DetectTailCallArgsAlias arguments kinds = false ∧
  ∃ plan, BuildCallArgCopyProgram arguments kinds recorded = Some plan ∧
    runArgCopyProgram keepValue registers registers plan (RegisterGeneral, 3) = 2 ∧
    runArgCopyInPlace keepValue registers plan (RegisterGeneral, 3) = 3.
Proof.
  split; [vm_compute; reflexivity|]. eexists. split; [vm_compute; reflexivity|].
  split; vm_compute; reflexivity.
Qed.
