(* ===== verification/Machine.v ===== *)
(** * The interpreter's scalar handlers

    The handlers of [internal/engine] for the integer, unsigned, boolean and
    string-move operations, their fused compare-and-branch forms, the
    32-bit wrap-around forms and the narrowing truncation
    ([vm_handler_ops.go], [vm_handler_ops_uint.go], [vm_handler_ops_int32.go],
    [vm_handler_ops_fused.go], [vm_handler_ops_arithmetic.go],
    [vm_handler_super_range_check.go], [vm_handler_flat_tier1.go]), the
    dispatch over flat slots ([vm_handler_flat_table.go],
    [vm_handler_flat_switch.go]) and the fetch step of the run loop
    ([vm_run.go]).

    A register bank is a list; an access outside it is Go's index panic, which
    the run loop recovers.  A handler runs with the program counter already
    past the word it decodes. *)

From S2P Require Import Prelude SafeConv Register Opcode Instruction Shapes Spec JumpLayout Jumps.
From S2P Require Import Extension Function.

Record Registers := NewRegisters {
  Ints : list Z;
  Uints : list Z;
  Strings : list string;
  Bools : list bool;
}.

Record CallFrame := NewCallFrame {
  ProgramCounter : Z;
  registers : Registers;
}.

Inductive boundsTable :=
  | boundsTableIntConstant | boundsTableUintConstant | boundsTableStringConstant | boundsTableBoolConstant.

(** [opContinue] with the new frame; [opPanicError] after [vMBoundsError]; an
    interpreted panic for a division by zero; or Go's own index panic. *)
Inductive OpResult (A : Type) :=
  | opContinue (x : A)
  | boundsError (table : boundsTable) (index : Z)
  | integerDivideByZero
  | indexPanic.
Arguments opContinue {A} x.
Arguments boundsError {A} table index.
Arguments integerDivideByZero {A}.
Arguments indexPanic {A}.

#[export] Instance OpResult_ret : MRet OpResult := λ A x, opContinue x.
#[export] Instance OpResult_bind : MBind OpResult := λ A B f m,
  match m with
  | opContinue x => f x
  | boundsError table index => boundsError table index
  | integerDivideByZero => integerDivideByZero
  | indexPanic => indexPanic
  end.

(** ** Register access *)

Definition getReg {V} (bank : list V) (slot : Z) : OpResult V :=
  match zget bank slot with Some v => opContinue v | None => indexPanic end.

Definition setReg {V} (bank : list V) (slot : Z) (v : V) : OpResult (list V) :=
  match zget bank slot with Some _ => opContinue (zset bank slot v) | None => indexPanic end.

Definition getInt (r : Registers) (slot : Z) : OpResult Z := getReg (Ints r) slot.
Definition getUint (r : Registers) (slot : Z) : OpResult Z := getReg (Uints r) slot.
Definition getString (r : Registers) (slot : Z) : OpResult string := getReg (Strings r) slot.
Definition getBool (r : Registers) (slot : Z) : OpResult bool := getReg (Bools r) slot.

Definition setInt (r : Registers) (slot v : Z) : OpResult Registers :=
  bank ← setReg (Ints r) slot v; mret (NewRegisters bank (Uints r) (Strings r) (Bools r)).
Definition setUint (r : Registers) (slot v : Z) : OpResult Registers :=
  bank ← setReg (Uints r) slot v; mret (NewRegisters (Ints r) bank (Strings r) (Bools r)).
Definition setString (r : Registers) (slot : Z) (v : string) : OpResult Registers :=
  bank ← setReg (Strings r) slot v; mret (NewRegisters (Ints r) (Uints r) bank (Bools r)).
Definition setBool (r : Registers) (slot : Z) (v : bool) : OpResult Registers :=
  bank ← setReg (Bools r) slot v; mret (NewRegisters (Ints r) (Uints r) (Strings r) bank).

Definition withRegisters (frame : CallFrame) (m : OpResult Registers) : OpResult CallFrame :=
  r ← m; mret (NewCallFrame (ProgramCounter frame) r).

Definition advance (frame : CallFrame) (n : Z) : CallFrame :=
  NewCallFrame (ProgramCounter frame + n) (registers frame).

Notation Handler := (CompiledFunction → CallFrame → Instruction → OpResult CallFrame)
  (only parsing).

(** ** Go's operators at 64 bits

    A shift by the width or more, which Go defines, is written out: the count
    of a shift is an unsigned 64-bit value. *)

Definition registerBitWidth : Z := 64.

Definition shiftLeft64 (x count : Z) : Z :=
  if 64 <=? count then 0 else x * 2 ^ count.
Definition shiftRight64 (x count : Z) : Z :=
  if 64 <=? count then (if x <? 0 then -1 else 0) else Z.shiftr x count.

Definition boolToInt64 (b : bool) : Z := if b then 1 else 0.

(** [A := op B C] over the integer bank, the unsigned bank, and from the
    unsigned bank into the integer bank. *)
Definition binaryInt (op : Z → Z → Z) : Handler := λ _ frame instr,
  let r := registers frame in
  withRegisters frame (x ← getInt r (iB instr); y ← getInt r (iC instr); setInt r (iA instr) (op x y)).
Definition binaryUint (op : Z → Z → Z) : Handler := λ _ frame instr,
  let r := registers frame in
  withRegisters frame (x ← getUint r (iB instr); y ← getUint r (iC instr); setUint r (iA instr) (op x y)).
Definition compareUint (op : Z → Z → bool) : Handler := λ _ frame instr,
  let r := registers frame in
  withRegisters frame
    (x ← getUint r (iB instr); y ← getUint r (iC instr); setInt r (iA instr) (boolToInt64 (op x y))).
Definition unaryInt (op : Z → Z) : Handler := λ _ frame instr,
  let r := registers frame in
  withRegisters frame (x ← getInt r (iB instr); setInt r (iA instr) (op x)).
Definition unaryUint (op : Z → Z) : Handler := λ _ frame instr,
  let r := registers frame in
  withRegisters frame (x ← getUint r (iB instr); setUint r (iA instr) (op x)).
(** [A := op A]. *)
Definition updateInt (op : Z → Z) : Handler := λ _ frame instr,
  let r := registers frame in
  withRegisters frame (x ← getInt r (iA instr); setInt r (iA instr) (op x)).
Definition updateUint (op : Z → Z) : Handler := λ _ frame instr,
  let r := registers frame in
  withRegisters frame (x ← getUint r (iA instr); setUint r (iA instr) (op x)).

(** ** Moves, loads and conversions *)

Definition handleExt : Handler := λ _ frame _, mret frame.
Definition handleFlatSubOpTier3Nop : Handler := λ _ frame _, mret frame.

Definition handleMoveInt : Handler := unaryInt (λ x, x).
Definition handleMoveUint : Handler := unaryUint (λ x, x).
Definition handleMoveString : Handler := λ _ frame instr,
  let r := registers frame in
  withRegisters frame (x ← getString r (iB instr); setString r (iA instr) x).
Definition handleMoveBool : Handler := λ _ frame instr,
  let r := registers frame in
  withRegisters frame (x ← getBool r (iB instr); setBool r (iA instr) x).

Definition handleLoadIntConst : Handler := λ f frame instr,
  let index := WideIndex instr in
  match zget (IntConstants f) index with
  | None => boundsError boundsTableIntConstant index
  | Some v => withRegisters frame (setInt (registers frame) (iA instr) v)
  end.
Definition handleLoadUintConst : Handler := λ f frame instr,
  let index := WideIndex instr in
  match zget (UintConstants f) index with
  | None => boundsError boundsTableUintConstant index
  | Some v => withRegisters frame (setUint (registers frame) (iA instr) v)
  end.
Definition handleLoadStringConst : Handler := λ f frame instr,
  let index := WideIndex instr in
  match zget (StringConstants f) index with
  | None => boundsError boundsTableStringConstant index
  | Some v => withRegisters frame (setString (registers frame) (iA instr) v)
  end.
Definition handleLoadBoolConst : Handler := λ f frame instr,
  match zget (BoolConstants f) (iC instr) with
  | None => boundsError boundsTableBoolConstant (iC instr)
  | Some v => withRegisters frame (setBool (registers frame) (iB instr) v)
  end.
Definition handleFlatSubOpLoadIntConstSmall : Handler := λ _ frame instr,
  withRegisters frame (setInt (registers frame) (iB instr) (iC instr)).

Definition handleFlatSubOpLoadUintConstSmall : Handler := λ _ frame instr,
  withRegisters frame (setUint (registers frame) (iB instr) (iC instr)).

Definition handleIntToUint : Handler := λ _ frame instr,
  let r := registers frame in
  withRegisters frame
    (x ← getInt r (iB instr); setUint r (iA instr) (Int64ToUint64Reinterpret x)).
Definition handleUintToInt : Handler := λ _ frame instr,
  let r := registers frame in
  withRegisters frame
    (x ← getUint r (iB instr); setInt r (iA instr) (Uint64ToInt64Reinterpret x)).
Definition handleBoolToInt : Handler := λ _ frame instr,
  let r := registers frame in
  withRegisters frame (x ← getBool r (iB instr); setInt r (iA instr) (boolToInt64 x)).
Definition handleIntToBool : Handler := λ _ frame instr,
  let r := registers frame in
  withRegisters frame (x ← getInt r (iB instr); setBool r (iA instr) (negb (x =? 0))).
(** [int64(len(s))]: a length is an [int]. *)
Definition handleLenString : Handler := λ _ frame instr,
  let r := registers frame in
  withRegisters frame
    (s ← getString r (iB instr); setInt r (iA instr) (wrapS 64 (Z.of_nat (String.length s)))).

(** ** Signed arithmetic *)

Definition handleAddInt : Handler := binaryInt (λ x y, wrapS 64 (x + y)).
Definition handleSubInt : Handler := binaryInt (λ x y, wrapS 64 (x - y)).
Definition handleMulInt : Handler := binaryInt (λ x y, wrapS 64 (x * y)).

Definition handleDivInt : Handler := λ _ frame instr,
  let r := registers frame in
  divisor ← getInt r (iC instr);
  if divisor =? 0 then integerDivideByZero
  else withRegisters frame
    (x ← getInt r (iB instr); setInt r (iA instr) (wrapS 64 (Z.quot x divisor))).
Definition handleRemInt : Handler := λ _ frame instr,
  let r := registers frame in
  divisor ← getInt r (iC instr);
  if divisor =? 0 then integerDivideByZero
  else withRegisters frame (x ← getInt r (iB instr); setInt r (iA instr) (Z.rem x divisor)).

Definition handleNegInt : Handler := unaryInt (λ x, wrapS 64 (- x)).
Definition handleBitAnd : Handler := binaryInt Z.land.
Definition handleBitOr : Handler := binaryInt Z.lor.
Definition handleBitXor : Handler := binaryInt Z.lxor.
Definition handleBitAndNot : Handler := binaryInt (λ x y, Z.land x (Z.lnot y)).
Definition handleBitNot : Handler := unaryInt Z.lnot.
Definition handleShiftLeft : Handler :=
  binaryInt (λ x y, wrapS 64 (shiftLeft64 x (wrapU 64 y))).
Definition handleShiftRight : Handler := binaryInt (λ x y, shiftRight64 x (wrapU 64 y)).
Definition handleIncInt : Handler := updateInt (λ x, wrapS 64 (x + 1)).
Definition handleDecInt : Handler := updateInt (λ x, wrapS 64 (x - 1)).

(** [A := op B K(C)] for a constant of the integer pool. *)
Definition intConst (op : Z → Z → Z) : Handler := λ f frame instr,
  match zget (IntConstants f) (iC instr) with
  | None => boundsError boundsTableIntConstant (iC instr)
  | Some k =>
      let r := registers frame in
      withRegisters frame (x ← getInt r (iB instr); setInt r (iA instr) (op x k))
  end.

Definition handleSubIntConst : Handler := intConst (λ x k, wrapS 64 (x - k)).
Definition handleAddIntConst : Handler := intConst (λ x k, wrapS 64 (x + k)).
Definition handleMulIntConst : Handler := intConst (λ x k, wrapS 64 (x * k)).

Definition handleAddInt32 : Handler := binaryInt (λ x y, wrapS 32 (wrapS 64 (x + y))).
Definition handleSubInt32 : Handler := binaryInt (λ x y, wrapS 32 (wrapS 64 (x - y))).
Definition handleMulInt32 : Handler := binaryInt (λ x y, wrapS 32 (wrapS 64 (x * y))).
Definition handleAddInt32Const : Handler := intConst (λ x k, wrapS 32 (wrapS 64 (x + k))).
Definition handleSubInt32Const : Handler := intConst (λ x k, wrapS 32 (wrapS 64 (x - k))).
Definition handleIncInt32 : Handler := updateInt (λ x, wrapS 32 (wrapS 64 (x + 1))).
Definition handleDecInt32 : Handler := updateInt (λ x, wrapS 32 (wrapS 64 (x - 1))).
Definition handleAddUint32 : Handler := binaryUint (λ x y, wrapU 32 (wrapU 64 (x + y))).

Definition handleEqInt : Handler := binaryInt (λ x y, boolToInt64 (x =? y)).
Definition handleNeInt : Handler := binaryInt (λ x y, boolToInt64 (negb (x =? y))).
Definition handleLtInt : Handler := binaryInt (λ x y, boolToInt64 (x <? y)).
Definition handleLeInt : Handler := binaryInt (λ x y, boolToInt64 (x <=? y)).
Definition handleGtInt : Handler := binaryInt (λ x y, boolToInt64 (y <? x)).
Definition handleGeInt : Handler := binaryInt (λ x y, boolToInt64 (y <=? x)).
Definition handleNot : Handler := unaryInt (λ x, boolToInt64 (x =? 0)).

(** ** Unsigned arithmetic *)

Definition handleAddUint : Handler := binaryUint (λ x y, wrapU 64 (x + y)).
Definition handleSubUint : Handler := binaryUint (λ x y, wrapU 64 (x - y)).
Definition handleMulUint : Handler := binaryUint (λ x y, wrapU 64 (x * y)).
Definition handleDivUint : Handler := λ _ frame instr,
  let r := registers frame in
  divisor ← getUint r (iC instr);
  if divisor =? 0 then integerDivideByZero
  else withRegisters frame (x ← getUint r (iB instr); setUint r (iA instr) (x / divisor)).
Definition handleRemUint : Handler := λ _ frame instr,
  let r := registers frame in
  divisor ← getUint r (iC instr);
  if divisor =? 0 then integerDivideByZero
  else withRegisters frame (x ← getUint r (iB instr); setUint r (iA instr) (x mod divisor)).
Definition handleBitAndUint : Handler := binaryUint Z.land.
Definition handleBitOrUint : Handler := binaryUint Z.lor.
Definition handleBitXorUint : Handler := binaryUint Z.lxor.
Definition handleBitAndNotUint : Handler := binaryUint (λ x y, Z.land x (wrapU 64 (Z.lnot y))).
Definition handleBitNotUint : Handler := unaryUint (λ x, wrapU 64 (Z.lnot x)).
Definition handleShiftLeftUint : Handler := binaryUint (λ x y, wrapU 64 (shiftLeft64 x y)).
Definition handleShiftRightUint : Handler := binaryUint shiftRight64.
Definition handleIncUint : Handler := updateUint (λ x, wrapU 64 (x + 1)).
Definition handleDecUint : Handler := updateUint (λ x, wrapU 64 (x - 1)).

Definition handleEqUint : Handler := compareUint (λ x y, x =? y).
Definition handleNeUint : Handler := compareUint (λ x y, negb (x =? y)).
Definition handleLtUint : Handler := compareUint (λ x y, x <? y).
Definition handleLeUint : Handler := compareUint (λ x y, x <=? y).
Definition handleGtUint : Handler := compareUint (λ x y, y <? x).
Definition handleGeUint : Handler := compareUint (λ x y, y <=? x).

(** ** Strings

    Go compares strings byte by byte, as [String.compare] does. *)

Definition compareString (op : string → string → bool) : Handler := λ _ frame instr,
  let r := registers frame in
  withRegisters frame
    (x ← getString r (iB instr); y ← getString r (iC instr); setInt r (iA instr) (boolToInt64 (op x y))).

Definition handleEqString : Handler := compareString String.eqb.
Definition handleNeString : Handler := compareString (λ x y, negb (String.eqb x y)).
Definition handleLtString : Handler := compareString String.ltb.
Definition handleLeString : Handler := compareString String.leb.
Definition handleGtString : Handler := compareString (λ x y, String.ltb y x).
Definition handleGeString : Handler := compareString (λ x y, String.leb y x).

(** ** Extension words *)

Definition readExtensionWord (f : CompiledFunction) (frame : CallFrame) : OpResult Instruction :=
  match zget (Body f) (ProgramCounter frame) with
  | Some word => opContinue word
  | None => indexPanic
  end.

Definition readExtensionWideIndex (f : CompiledFunction) (frame : CallFrame)
    : OpResult (CallFrame * Z) :=
  ext ← readExtensionWord f frame;
  mret (advance frame 1, Z.lor (iA ext) (wrapU 16 (Z.shiftl (iB ext) 8))).

(** [A := op B K(wide index)] for a constant of the unsigned pool. *)
Definition uintConst (op : Z → Z → Z) : Handler := λ f frame instr,
  '(frame, constIdx) ← readExtensionWideIndex f frame;
  match zget (UintConstants f) constIdx with
  | None => boundsError boundsTableUintConstant constIdx
  | Some k =>
      let r := registers frame in
      withRegisters frame (x ← getUint r (iB instr); setUint r (iA instr) (op x k))
  end.

Definition handleAddUintConst : Handler := uintConst (λ x k, wrapU 64 (x + k)).
Definition handleSubUintConst : Handler := uintConst (λ x k, wrapU 64 (x - k)).
Definition handleBitAndUintConst : Handler := uintConst Z.land.

Definition HandleTruncateNarrow : Handler := λ _ frame instr,
  let r := registers frame in
  let bitWidth := iB instr in
  if iC instr =? RegisterUint then
    let mask := wrapU 64 (wrapU 64 (shiftLeft64 1 bitWidth) - 1) in
    withRegisters frame (x ← getUint r (iA instr); setUint r (iA instr) (Z.land x mask))
  else
    let shift := wrapU 64 (registerBitWidth - bitWidth) in
    withRegisters frame
      (value ← getInt r (iA instr);
       setInt r (iA instr) (shiftRight64 (wrapS 64 (shiftLeft64 value shift)) shift)).

(** ** Jumps *)

Definition handleJump : Handler := λ _ frame instr, mret (advance frame (SignedOffset instr)).

Definition handleJumpIfTrue : Handler := λ _ frame instr,
  x ← getInt (registers frame) (iA instr);
  mret (if negb (x =? 0) then advance frame (SignedOffset instr) else frame).
Definition handleJumpIfFalse : Handler := λ _ frame instr,
  x ← getInt (registers frame) (iA instr);
  mret (if x =? 0 then advance frame (SignedOffset instr) else frame).

Definition conditionalJump (f : CompiledFunction) (frame : CallFrame) (shouldJump : bool)
    : OpResult CallFrame :=
  extensionWord ← readExtensionWord f frame;
  let frame := advance frame 1 in
  mret (if shouldJump then advance frame (JoinOffset (iA extensionWord) (iB extensionWord))
        else frame).

(** Compare two integer registers, or one with a constant, and branch. *)
Definition jumpInts (shouldJump : Z → Z → bool) : Handler := λ f frame instr,
  x ← getInt (registers frame) (iB instr);
  y ← getInt (registers frame) (iC instr);
  conditionalJump f frame (shouldJump x y).
Definition jumpIntConst (shouldJump : Z → Z → bool) : Handler := λ f frame instr,
  match zget (IntConstants f) (iC instr) with
  | None => boundsError boundsTableIntConstant (iC instr)
  | Some k => x ← getInt (registers frame) (iB instr); conditionalJump f frame (shouldJump x k)
  end.

Definition handleLeIntConstJumpFalse : Handler := jumpIntConst (λ x k, k <? x).
Definition handleLtIntConstJumpFalse : Handler := jumpIntConst (λ x k, k <=? x).
Definition handleEqIntConstJumpFalse : Handler := jumpIntConst (λ x k, negb (x =? k)).
Definition handleEqIntConstJumpTrue : Handler := jumpIntConst (λ x k, x =? k).
Definition handleGeIntConstJumpFalse : Handler := jumpIntConst (λ x k, x <? k).
Definition handleGtIntConstJumpFalse : Handler := jumpIntConst (λ x k, x <=? k).
Definition handleLtIntJumpFalse : Handler := jumpInts (λ x y, y <=? x).
Definition handleLeIntJumpFalse : Handler := jumpInts (λ x y, y <? x).
Definition handleGtIntJumpFalse : Handler := jumpInts (λ x y, x <=? y).
Definition handleGeIntJumpFalse : Handler := jumpInts (λ x y, x <? y).
Definition handleEqIntJumpFalse : Handler := jumpInts (λ x y, negb (x =? y)).
Definition handleNeIntJumpFalse : Handler := jumpInts (λ x y, x =? y).

Definition handleEqStringConstJumpFalse : Handler := λ f frame instr,
  match zget (StringConstants f) (iC instr) with
  | None => boundsError boundsTableStringConstant (iC instr)
  | Some k =>
      s ← getString (registers frame) (iB instr);
      conditionalJump f frame (negb (bool_decide (s = k)))
  end.

Definition handleAddIntJump : Handler := λ f frame instr,
  match zget (IntConstants f) (iC instr) with
  | None => boundsError boundsTableIntConstant (iC instr)
  | Some k =>
      let r := registers frame in
      frame ← withRegisters frame
        (x ← getInt r (iB instr); setInt r (iA instr) (wrapS 64 (x + k)));
      conditionalJump f frame true
  end.

Definition handleIncIntJumpLt : Handler := λ f frame instr,
  let r := registers frame in
  frame ← withRegisters frame (x ← getInt r (iA instr); setInt r (iA instr) (wrapS 64 (x + 1)));
  extensionWord ← readExtensionWord f frame;
  let frame := advance frame 1 in
  x ← getInt (registers frame) (iA instr);
  y ← getInt (registers frame) (iB instr);
  mret (if x <? y then advance frame (JoinOffset (iA extensionWord) (iB extensionWord)) else frame).

Definition handleLenStringLtJumpFalse : Handler := λ f frame instr,
  extensionWord ← readExtensionWord f frame;
  let frame := advance frame 1 in
  x ← getInt (registers frame) (iA instr);
  s ← getString (registers frame) (iB instr);
  mret (if wrapS 64 (Z.of_nat (String.length s)) <=? x
        then advance frame (JoinOffset (iA extensionWord) (iB extensionWord)) else frame).

Definition handleSubOpRangeCheckUintJumpFalse : Handler := λ f frame instr,
  ext1 ← readExtensionWord f frame;
  let frame := advance frame 1 in
  ext2 ← readExtensionWord f frame;
  let frame := advance frame 1 in
  let frame := advance frame RangeCheckUintFusionNopCount in
  value ← getUint (registers frame) (iC instr);
  let lo := iA ext1 in
  let hi := iB ext1 in
  mret (if (value <? lo) || (hi <? value)
        then advance frame (JoinOffset (iA ext2) (iB ext2)) else frame).

Definition handleSubOpEqUintConstJumpFalse : Handler := λ f frame instr,
  ext1 ← readExtensionWord f frame;
  let frame := advance frame 1 in
  let frame := advance frame EqUintConstJumpFalseNopCount in
  value ← getUint (registers frame) (iB instr);
  mret (if negb (value =? iC instr)
        then advance frame (JoinOffset (iA ext1) (iB ext1)) else frame).

(** ** Dispatch *)

Definition flatHandlerTier1Base : Z := 256.
Definition flatHandlerTier2Base : Z := 512.
Definition flatHandlerTier3Base : Z := 768.

Definition flatDispatchIndex (instr : Instruction) : Z :=
  if negb (iOp instr =? 0) then iOp instr
  else if negb (iA instr =? 0) then flatHandlerTier1Base + iA instr
  else if negb (iB instr =? 0) then flatHandlerTier2Base + iB instr
  else flatHandlerTier3Base + iC instr.

(** The generated wrappers hand a drilled operation's operands to the shared
    handler in its first bytes. *)
Definition reshapeTier1 (h : Handler) : Handler := λ f frame instr,
  h f frame (NewInstruction 0 (iB instr) (iC instr) 0).
Definition reshapeTier2 (h : Handler) : Handler := λ f frame instr,
  h f frame (NewInstruction 0 (iC instr) 0 0).

(** The arms of [flatDispatchSwitch] whose handlers are modelled. *)
Definition flatDispatchArms : list (Z * Handler) :=
  [ (OpAddInt, handleAddInt);
    (OpAddInt32, handleAddInt32);
    (OpAddInt32Const, handleAddInt32Const);
    (OpAddIntConst, handleAddIntConst);
    (OpAddIntJump, handleAddIntJump);
    (OpAddUint, handleAddUint);
    (OpAddUint32, handleAddUint32);
    (OpBitAnd, handleBitAnd);
    (OpBitAndNot, handleBitAndNot);
    (OpBitAndNotUint, handleBitAndNotUint);
    (OpBitAndUint, handleBitAndUint);
    (OpBitOr, handleBitOr);
    (OpBitOrUint, handleBitOrUint);
    (OpBitXor, handleBitXor);
    (OpBitXorUint, handleBitXorUint);
    (OpDivInt, handleDivInt);
    (OpDivUint, handleDivUint);
    (OpEqInt, handleEqInt);
    (OpEqString, handleEqString);
    (OpEqUint, handleEqUint);
    (OpExt, handleExt);
    (OpGeInt, handleGeInt);
    (OpGeString, handleGeString);
    (OpGeUint, handleGeUint);
    (OpGtInt, handleGtInt);
    (OpGtString, handleGtString);
    (OpGtUint, handleGtUint);
    (OpJumpIfFalse, handleJumpIfFalse);
    (OpJumpIfTrue, handleJumpIfTrue);
    (OpLeInt, handleLeInt);
    (OpLeString, handleLeString);
    (OpLeUint, handleLeUint);
    (OpLoadIntConst, handleLoadIntConst);
    (OpLoadStringConst, handleLoadStringConst);
    (OpLoadUintConst, handleLoadUintConst);
    (OpLtInt, handleLtInt);
    (OpLtString, handleLtString);
    (OpLtUint, handleLtUint);
    (OpMulInt, handleMulInt);
    (OpMulInt32, handleMulInt32);
    (OpMulIntConst, handleMulIntConst);
    (OpMulUint, handleMulUint);
    (OpNeInt, handleNeInt);
    (OpNeString, handleNeString);
    (OpNeUint, handleNeUint);
    (OpRemInt, handleRemInt);
    (OpRemUint, handleRemUint);
    (OpShiftLeft, handleShiftLeft);
    (OpShiftLeftUint, handleShiftLeftUint);
    (OpShiftRight, handleShiftRight);
    (OpShiftRightUint, handleShiftRightUint);
    (OpSubInt, handleSubInt);
    (OpSubInt32, handleSubInt32);
    (OpSubInt32Const, handleSubInt32Const);
    (OpSubIntConst, handleSubIntConst);
    (OpSubUint, handleSubUint);
    (OpTruncateNarrow, HandleTruncateNarrow);
    (flatHandlerTier1Base + SubOpAddUintConst, reshapeTier1 handleAddUintConst);
    (flatHandlerTier1Base + SubOpBitAndUintConst, reshapeTier1 handleBitAndUintConst);
    (flatHandlerTier1Base + SubOpBitNot, reshapeTier1 handleBitNot);
    (flatHandlerTier1Base + SubOpBitNotUint, reshapeTier1 handleBitNotUint);
    (flatHandlerTier1Base + SubOpBoolToInt, reshapeTier1 handleBoolToInt);
    (flatHandlerTier1Base + SubOpEqIntConstJumpFalse, handleEqIntConstJumpFalse);
    (flatHandlerTier1Base + SubOpEqIntConstJumpTrue, handleEqIntConstJumpTrue);
    (flatHandlerTier1Base + SubOpEqIntJumpFalse, handleEqIntJumpFalse);
    (flatHandlerTier1Base + SubOpEqStringConstJumpFalse, handleEqStringConstJumpFalse);
    (flatHandlerTier1Base + SubOpEqUintConstJumpFalse, handleSubOpEqUintConstJumpFalse);
    (flatHandlerTier1Base + SubOpGeIntConstJumpFalse, handleGeIntConstJumpFalse);
    (flatHandlerTier1Base + SubOpGeIntJumpFalse, handleGeIntJumpFalse);
    (flatHandlerTier1Base + SubOpGtIntConstJumpFalse, handleGtIntConstJumpFalse);
    (flatHandlerTier1Base + SubOpGtIntJumpFalse, handleGtIntJumpFalse);
    (flatHandlerTier1Base + SubOpIncIntJumpLt, reshapeTier1 handleIncIntJumpLt);
    (flatHandlerTier1Base + SubOpIntToBool, reshapeTier1 handleIntToBool);
    (flatHandlerTier1Base + SubOpIntToUint, reshapeTier1 handleIntToUint);
    (flatHandlerTier1Base + SubOpJump, handleJump);
    (flatHandlerTier1Base + SubOpLeIntConstJumpFalse, handleLeIntConstJumpFalse);
    (flatHandlerTier1Base + SubOpLeIntJumpFalse, handleLeIntJumpFalse);
    (flatHandlerTier1Base + SubOpLenString, reshapeTier1 handleLenString);
    (flatHandlerTier1Base + SubOpLenStringLtJumpFalse, reshapeTier1 handleLenStringLtJumpFalse);
    (flatHandlerTier1Base + SubOpLoadBool, handleFlatSubOpLoadIntConstSmall);
    (flatHandlerTier1Base + SubOpLoadBoolConst, handleLoadBoolConst);
    (flatHandlerTier1Base + SubOpLoadIntConstSmall, handleFlatSubOpLoadIntConstSmall);
    (flatHandlerTier1Base + SubOpLoadUintConstSmall, handleFlatSubOpLoadUintConstSmall);
    (flatHandlerTier1Base + SubOpLtIntConstJumpFalse, handleLtIntConstJumpFalse);
    (flatHandlerTier1Base + SubOpLtIntJumpFalse, handleLtIntJumpFalse);
    (flatHandlerTier1Base + SubOpMoveBool, reshapeTier1 handleMoveBool);
    (flatHandlerTier1Base + SubOpMoveInt, reshapeTier1 handleMoveInt);
    (flatHandlerTier1Base + SubOpMoveString, reshapeTier1 handleMoveString);
    (flatHandlerTier1Base + SubOpMoveUint, reshapeTier1 handleMoveUint);
    (flatHandlerTier1Base + SubOpNeIntJumpFalse, handleNeIntJumpFalse);
    (flatHandlerTier1Base + SubOpNegInt, reshapeTier1 handleNegInt);
    (flatHandlerTier1Base + SubOpNot, reshapeTier1 handleNot);
    (flatHandlerTier1Base + SubOpSubUintConst, reshapeTier1 handleSubUintConst);
    (flatHandlerTier1Base + SubOpUintToInt, reshapeTier1 handleUintToInt);
    (flatHandlerTier2Base + SubOpTier2DecInt, reshapeTier2 handleDecInt);
    (flatHandlerTier2Base + SubOpTier2DecInt32, reshapeTier2 handleDecInt32);
    (flatHandlerTier2Base + SubOpTier2DecUint, reshapeTier2 handleDecUint);
    (flatHandlerTier2Base + SubOpTier2IncInt, reshapeTier2 handleIncInt);
    (flatHandlerTier2Base + SubOpTier2IncInt32, reshapeTier2 handleIncInt32);
    (flatHandlerTier2Base + SubOpTier2IncUint, reshapeTier2 handleIncUint);
    (flatHandlerTier2Base + SubOpTier2RangeCheckUintJumpFalse, handleSubOpRangeCheckUintJumpFalse);
    (flatHandlerTier3Base + SubOpTier3Nop, handleFlatSubOpTier3Nop) ].

Definition findArm (slot : Z) (arms : list (Z * Handler)) : option Handler :=
  snd <$> find (λ arm, fst arm =? slot) arms.

Definition flatDispatchSwitch (instr : Instruction) : option Handler :=
  findArm (flatDispatchIndex instr) flatDispatchArms.

(** One turn of the dispatch loop: fetch, advance, dispatch.  [None] is the end
    of the body or an operation that is not modelled. *)
Definition dispatchStep (f : CompiledFunction) (frame : CallFrame) : option (OpResult CallFrame) :=
  if zlen (Body f) <=? ProgramCounter frame then None
  else match zget (Body f) (ProgramCounter frame) with
  | None => Some indexPanic
  | Some instr =>
      handler ← flatDispatchSwitch instr;
      Some (handler f (advance frame 1) instr)
  end.

(** ** Spans

    [dispatchSpan] of [vm_run.go]: instructions run until a handler does not
    continue, the periodic checks fall due, or the body ends. *)

Definition cancellationCheckMask : Z := 1023.

Inductive spanEnd :=
  | spanStopResult (rc : OpResult CallFrame)
  | spanStopCheckpoint (frame : CallFrame)
  | spanStopEndOfBody (frame : CallFrame)
  | unmodelledOperation (frame : CallFrame)
  | outOfFuel.

(** Why the span ended, and the instruction counter, which wraps at 32 bits.  A
    turn counts before it looks, so the mask's period of turns reaches a
    checkpoint. *)
Fixpoint dispatchSpan (fuel : nat) (f : CompiledFunction) (frame : CallFrame) (ops : Z)
    : spanEnd * Z :=
  match fuel with
  | O => (outOfFuel, ops)
  | S fuel =>
      let ops := wrapU 32 (ops + 1) in
      if Z.land ops cancellationCheckMask =? 0 then (spanStopCheckpoint frame, ops)
      else if zlen (Body f) <=? ProgramCounter frame then (spanStopEndOfBody frame, ops)
      else match dispatchStep f frame with
      | None => (unmodelledOperation frame, ops)
      | Some (opContinue frame) => dispatchSpan fuel f frame ops
      | Some rc => (spanStopResult rc, ops)
      end
  end.
