(* ===== verification/MachineSafe.v ===== *)
(** * The handlers keep the tables' promises

    The optimiser and the verifier read what an operation does off its operand
    shape and its jump layout; these theorems check the handlers against
    the tables, operation by operation. *)

From S2P Require Import Prelude SafeConv Register Opcode Instruction Shapes Spec JumpLayout Jumps.
From S2P Require Import Extension Function Verify VerifySound Machine.

(** ** Dispatch *)

Lemma flatDispatchIndex_FlatIndexFor instr : flatDispatchIndex instr = FlatIndexFor instr.
Proof. reflexivity. Qed.

(** What the tables say of a word depends on its slot alone. *)
Lemma slot_tables instr slot :
  wf_instruction instr → flatDispatchIndex instr = slot →
  ShapeForInstruction instr = ShapeForInstruction (slotInstruction slot) ∧
  JumpLayoutOf instr = JumpLayoutOf (slotInstruction slot).
Proof.
  intros Hwf <-. rewrite flatDispatchIndex_FlatIndexFor.
  destruct (normalise_tests instr) as (_ & H1 & H2).
  destruct (normalise_tests (slotInstruction (FlatIndexFor instr))) as (_ & H3 & H4).
  rewrite (normalise_slot instr Hwf) in H1, H2. split; congruence.
Qed.

Lemma findArm_in slot arms h : findArm slot arms = Some h → (slot, h) ∈ arms.
Proof.
  unfold findArm. intros Hf. destruct (find _ arms) as [[s h']|] eqn:E; [|done].
  apply find_some in E as [Hin Hs]. bool_hyps. cbn [fst] in Hs. subst.
  injection Hf as <-. by apply list_elem_of_In.
Qed.

(** A property of every arm holds of every dispatch. *)
Lemma forall_arms (P : Z → Handler → Prop) :
  Forall (λ arm, P (fst arm) (snd arm)) flatDispatchArms →
  ∀ instr h, flatDispatchSwitch instr = Some h → P (flatDispatchIndex instr) h.
Proof.
  rewrite Forall_forall. intros H instr h Hd. by apply (H (_, h)), findArm_in.
Qed.

(** ** Inverting a run of a handler *)

Lemma bind_continue {A B} (m : OpResult A) (k : A → OpResult B) y :
  m ≫= k = opContinue y → ∃ x, m = opContinue x ∧ k x = opContinue y.
Proof. destruct m; [|done..]. intros H. by exists x. Qed.

Lemma continue_inj {A} (x y : A) : opContinue x = opContinue y → y = x.
Proof. by intros [= ->]. Qed.

Lemma getReg_continue {V} (bank : list V) slot v :
  getReg bank slot = opContinue v → zget bank slot = Some v.
Proof. unfold getReg. destruct (zget bank slot); [|done]. by intros [= ->]. Qed.

Lemma setReg_continue {V} (bank bank' : list V) slot v :
  setReg bank slot v = opContinue bank' → bank' = zset bank slot v ∧ is_Some (zget bank slot).
Proof. unfold setReg. destruct (zget bank slot); [|done]. intros [= <-]. eauto. Qed.

Ltac unfold_operation :=
  cbv beta delta [handleExt handleFlatSubOpTier3Nop handleMoveInt handleMoveUint handleMoveString
    handleMoveBool handleLoadIntConst handleLoadUintConst handleFlatSubOpLoadIntConstSmall
    handleFlatSubOpLoadUintConstSmall handleIntToUint handleUintToInt handleBoolToInt
    handleIntToBool handleLenString handleAddInt handleSubInt handleMulInt handleDivInt
    handleRemInt handleNegInt handleBitAnd handleBitOr handleBitXor handleBitAndNot
    handleBitNot handleShiftLeft handleShiftRight handleIncInt handleDecInt handleSubIntConst
    handleAddIntConst handleMulIntConst handleAddInt32 handleSubInt32 handleMulInt32
    handleAddInt32Const handleSubInt32Const handleIncInt32 handleDecInt32 handleAddUint32
    handleEqInt handleNeInt handleLtInt handleLeInt handleGtInt handleGeInt handleNot
    handleAddUint handleSubUint handleMulUint handleDivUint handleRemUint handleBitAndUint
    handleBitOrUint handleBitXorUint handleBitAndNotUint handleBitNotUint handleShiftLeftUint
    handleShiftRightUint handleIncUint handleDecUint handleEqUint handleNeUint handleLtUint
    handleLeUint handleGtUint handleGeUint handleAddUintConst handleSubUintConst
    handleBitAndUintConst HandleTruncateNarrow handleJump handleJumpIfTrue handleJumpIfFalse
    handleLeIntConstJumpFalse handleLtIntConstJumpFalse handleEqIntConstJumpFalse
    handleEqIntConstJumpTrue handleGeIntConstJumpFalse handleGtIntConstJumpFalse
    handleLtIntJumpFalse handleLeIntJumpFalse handleGtIntJumpFalse handleGeIntJumpFalse
    handleEqIntJumpFalse handleNeIntJumpFalse handleEqStringConstJumpFalse handleAddIntJump
    handleIncIntJumpLt handleLenStringLtJumpFalse handleSubOpRangeCheckUintJumpFalse
    handleSubOpEqUintConstJumpFalse handleLoadStringConst handleLoadBoolConst handleEqString handleNeString
    handleLtString handleLeString handleGtString handleGeString compareString
    binaryInt binaryUint compareUint unaryInt unaryUint updateInt updateUint intConst uintConst
    jumpInts jumpIntConst conditionalJump readExtensionWideIndex readExtensionWord
    reshapeTier1 reshapeTier2] in *; cbv zeta beta in *; cbn [iOp iA iB iC] in *.

Ltac unfold_handler :=
  unfold_operation;
  cbv beta delta [withRegisters getInt getUint getString getBool
    setInt setUint setString setBool] in *; cbv zeta beta in *.

(** Turn [handler ... = opContinue frame'] into the reads it made and the frame
    it built. *)
Ltac handler_inv :=
  repeat match goal with
  | H : _ ≫= _ = opContinue _ |- _ =>
      let x := fresh "x" in let E := fresh "E" in
      apply bind_continue in H as (x & E & H);
      try match type of x with prod _ _ => destruct x as [? ?] end; cbv beta iota in H, E
  | H : (_, _) = (_, _) |- _ => injection H as ? ?; subst
  | H : mret _ = opContinue _ |- _ => apply continue_inj in H; subst
  | H : opContinue _ = opContinue _ |- _ => apply continue_inj in H; subst
  | H : getReg _ _ = opContinue _ |- _ => apply getReg_continue in H
  | H : setReg _ _ _ = opContinue _ |- _ => apply setReg_continue in H as [-> H]
  | H : match zget ?l ?i with _ => _ end = opContinue _ |- _ =>
      let E := fresh "E" in destruct (zget l i) eqn:E; [|discriminate H]
  | H : (if ?b then _ else _) = opContinue _ |- _ =>
      let E := fresh "E" in destruct b eqn:E; [discriminate H|] || destruct b eqn:E
  end.

(** ** Named registers *)

Inductive RegValue := VInt (x : Z) | VUint (x : Z) | VString (s : string) | VBool (b : bool).

(** The value of a register of a modelled bank. *)
Definition readReg (r : Registers) (bank : RegisterKind) (slot : Z) : option RegValue :=
  if bank =? RegisterInt then VInt <$> zget (Ints r) slot
  else if bank =? RegisterUint then VUint <$> zget (Uints r) slot
  else if bank =? RegisterString then VString <$> zget (Strings r) slot
  else if bank =? RegisterBool then VBool <$> zget (Bools r) slot
  else None.

(** The banks an operand of a role can be a register of: one, any of them for
    a role whose bank another operand selects at run time, or none. *)
Definition roleBanks (role : OperandRole) : list RegisterKind :=
  match role with
  | RoleRegDynamic => allRegisterKinds
  | _ => option_list (KindForRole role)
  end.

(** The registers a shape names under a mask. *)
Definition namedBy (shape : OperandShape) (mask : Mask) (instr : Instruction)
    : list (RegisterKind * Z) :=
  mjoin (map (λ '(position, role, slot),
      if mask_at mask position then map (λ bank, (bank, slot)) (roleBanks role) else [])
    [(0, shA shape, iA instr); (1, shB shape, iB instr); (2, shC shape, iC instr)]).

Definition namedWrites (instr : Instruction) : list (RegisterKind * Z) :=
  namedBy (ShapeForInstruction instr) (shWrites (ShapeForInstruction instr)) instr.
Definition namedReads (instr : Instruction) : list (RegisterKind * Z) :=
  namedBy (ShapeForInstruction instr) (shReads (ShapeForInstruction instr)) instr.

(** In a goal about the word in [slot], replace what the tables say of it by
    its value. *)
Ltac compute_tables Hwf Hslot Hshape Hlayout :=
  destruct (slot_tables _ _ Hwf Hslot) as [Hshape Hlayout];
  match type of Hshape with _ = ?s => let v := eval vm_compute in s in change s with v in Hshape end;
  match type of Hlayout with _ = ?s => let v := eval vm_compute in s in change s with v in Hlayout end.

(** ** The frame of a step *)

Section read_set.
Context (r : Registers) (bank : RegisterKind) (reg slot : Z).

Lemma readReg_setInts v :
  (bank, reg) ≠ (RegisterInt, slot) →
  readReg (NewRegisters (zset (Ints r) slot v) (Uints r) (Strings r) (Bools r)) bank reg =
  readReg r bank reg.
Proof.
  intros H. unfold readReg; cbn [Ints Uints Strings Bools]. case_ifs; try done.
  subst. rewrite zget_zset_ne; [done|]. congruence.
Qed.

Lemma readReg_setUints v :
  (bank, reg) ≠ (RegisterUint, slot) →
  readReg (NewRegisters (Ints r) (zset (Uints r) slot v) (Strings r) (Bools r)) bank reg =
  readReg r bank reg.
Proof.
  intros H. unfold readReg; cbn [Ints Uints Strings Bools]. case_ifs; try done.
  subst. rewrite zget_zset_ne; [done|]. congruence.
Qed.

Lemma readReg_setStrings v :
  (bank, reg) ≠ (RegisterString, slot) →
  readReg (NewRegisters (Ints r) (Uints r) (zset (Strings r) slot v) (Bools r)) bank reg =
  readReg r bank reg.
Proof.
  intros H. unfold readReg; cbn [Ints Uints Strings Bools]. case_ifs; try done.
  subst. rewrite zget_zset_ne; [done|]. congruence.
Qed.

Lemma readReg_setBools v :
  (bank, reg) ≠ (RegisterBool, slot) →
  readReg (NewRegisters (Ints r) (Uints r) (Strings r) (zset (Bools r) slot v)) bank reg =
  readReg r bank reg.
Proof.
  intros H. unfold readReg; cbn [Ints Uints Strings Bools]. case_ifs; try done.
  subst. rewrite zget_zset_ne; [done|]. congruence.
Qed.
End read_set.

Definition writes_named (slot : Z) (h : Handler) : Prop :=
  ∀ f frame instr frame', wf_instruction instr → flatDispatchIndex instr = slot →
    h f frame instr = opContinue frame' →
    ∀ bank reg, (bank, reg) ∉ namedWrites instr →
      readReg (registers frame') bank reg = readReg (registers frame) bank reg.

Ltac solve_writes_named :=
  intros f [pc r] instr frame' Hwf Hslot Hrun bank reg Hnot;
  let Hshape := fresh "Hshape" in let Hlayout := fresh "Hlayout" in
  compute_tables Hwf Hslot Hshape Hlayout; unfold namedWrites in *; rewrite Hshape in *;
  cbn in Hnot; clear Hshape Hlayout Hslot;
  unfold_handler; cbn [registers ProgramCounter advance] in *; handler_inv;
  cbn [registers ProgramCounter advance] in *;
  repeat case_if; cbn [registers ProgramCounter advance];
  first [ reflexivity
        | apply readReg_setInts; set_solver | apply readReg_setUints; set_solver
        | apply readReg_setStrings; set_solver | apply readReg_setBools; set_solver ].

(** Split a statement about every arm into one goal per handler. *)
Ltac per_arm tac :=
  unfold flatDispatchArms;
  repeat (apply Forall_cons; split; [cbn [fst snd]; solve [tac]|]);
  apply Forall_nil_2.

Lemma writes_named_arms : Forall (λ arm, writes_named (fst arm) (snd arm)) flatDispatchArms.
Proof. per_arm solve_writes_named. Qed.

(** C2: a modelled handler changes no register but those its operand shape
    records as written: whatever operation dispatch selects, every register
    outside the shape's writes keeps its value.  The optimiser's liveness and
    its register reuse rest on it. *)
Theorem handlers_write_what_shapes_name f frame instr h frame' :
  wf_instruction instr → flatDispatchSwitch instr = Some h →
  h f frame instr = opContinue frame' →
  ∀ bank reg, (bank, reg) ∉ namedWrites instr →
    readReg (registers frame') bank reg = readReg (registers frame) bank reg.
Proof.
  intros Hwf Hd Hrun. pose proof (forall_arms _ writes_named_arms _ _ Hd) as Hw.
  by eapply Hw.
Qed.

Definition sample_frame : CallFrame :=
  NewCallFrame 1 (NewRegisters [5; 7; 0] [3] ["s"%string] [true]).

Theorem handlers_write_what_shapes_name_witness :
  let instr := NewInstruction OpAddInt 2 0 1 in
  let frame' := NewCallFrame 1 (NewRegisters [5; 7; 12] [3] ["s"%string] [true]) in
  namedWrites instr = [(RegisterInt, 2)] ∧
  handleAddInt (NewNamedFunction "f") sample_frame instr = opContinue frame' ∧
  readReg (registers frame') RegisterInt 1 = readReg (registers sample_frame) RegisterInt 1.
Proof.
  split; [vm_compute; reflexivity|]. split; [vm_compute; reflexivity|].
  refine (handlers_write_what_shapes_name (NewNamedFunction "f") sample_frame
    (NewInstruction OpAddInt 2 0 1) handleAddInt _ _ _ _ RegisterInt 1 _).
  - eapply bool_decide_unpack; vm_compute; exact I.
  - reflexivity.
  - vm_compute. reflexivity.
  - eapply bool_decide_unpack; vm_compute; exact I.
Defined.

(** ** What a step reads *)

Definition same_result {A B} (R : A → B → Prop) (m1 : OpResult A) (m2 : OpResult B) : Prop :=
  match m1, m2 with
  | opContinue x, opContinue y => R x y
  | boundsError table index, boundsError table' index' => table = table' ∧ index = index'
  | integerDivideByZero, integerDivideByZero => True
  | indexPanic, indexPanic => True
  | _, _ => False
  end.

Lemma same_result_bind {A B A' B'} (R : A → A' → Prop) (S : B → B' → Prop) m1 m2 k1 k2 :
  same_result R m1 m2 → (∀ x y, R x y → same_result S (k1 x) (k2 y)) →
  same_result S (m1 ≫= k1) (m2 ≫= k2).
Proof. destruct m1, m2; cbn; try done. intros H Hk. by apply Hk. Qed.

Lemma same_result_mono {A B} (R S : A → B → Prop) m1 m2 :
  same_result R m1 m2 → (∀ x y, R x y → S x y) → same_result S m1 m2.
Proof. destruct m1, m2; cbn; auto. Qed.

(** The banks of two files have the same sizes. *)
Definition same_sizes (r1 r2 : Registers) : Prop :=
  length (Ints r1) = length (Ints r2) ∧ length (Uints r1) = length (Uints r2) ∧
  length (Strings r1) = length (Strings r2) ∧ length (Bools r1) = length (Bools r2).

(** Two files of the same sizes that hold the same values in some registers. *)
Definition agree (D : list (RegisterKind * Z)) (r1 r2 : Registers) : Prop :=
  same_sizes r1 r2 ∧
  ∀ bank reg, (bank, reg) ∈ D → readReg r1 bank reg = readReg r2 bank reg.

Definition agree_frames (D : list (RegisterKind * Z)) (x y : CallFrame) : Prop :=
  ProgramCounter x = ProgramCounter y ∧ agree D (registers x) (registers y).

Lemma agree_mono D D' r1 r2 : agree D r1 r2 → D' ⊆ D → agree D' r1 r2.
Proof. intros [Hs H] Hsub. split; [done|]. intros bank reg Hin. by apply H, Hsub. Qed.

Lemma same_set {V} (l1 l2 : list V) slot v :
  length l1 = length l2 →
  same_result (λ x y, x = zset l1 slot v ∧ y = zset l2 slot v ∧ zget x slot = Some v ∧
                 zget y slot = Some v) (setReg l1 slot v) (setReg l2 slot v).
Proof.
  intros Hlen. unfold setReg. destruct (zget l1 slot) eqn:E1, (zget l2 slot) eqn:E2; cbn.
  - apply zget_Some_range in E1, E2. rewrite !zget_zset_eq by done. done.
  - apply zget_Some_range in E1. rewrite zget_None in E2. lia.
  - apply zget_Some_range in E2. rewrite zget_None in E1. lia.
  - done.
Qed.

Lemma fmap_Some_inj {A B} (g : A → B) (x y : option A) :
  (∀ a b, g a = g b → a = b) → g <$> x = g <$> y → x = y.
Proof. intros Hg. destruct x, y; cbn; [|done..]. intros [= ->%Hg]. done. Qed.

Lemma same_getReg {V} (g : V → RegValue) (b1 b2 : list V) slot :
  (∀ a b, g a = g b → a = b) → g <$> zget b1 slot = g <$> zget b2 slot →
  same_result eq (getReg b1 slot) (getReg b2 slot).
Proof. unfold getReg. intros Hg ->%fmap_Some_inj; [|done]. by destruct (zget b2 slot). Qed.

Section agreement.
Context (D : list (RegisterKind * Z)) (r1 r2 : Registers) (Hagree : agree D r1 r2).

Lemma agree_cons bank0 slot r1' r2' :
  same_sizes r1' r2' → readReg r1' bank0 slot = readReg r2' bank0 slot →
  (∀ bank reg, (bank, reg) ≠ (bank0, slot) →
    readReg r1' bank reg = readReg r1 bank reg ∧ readReg r2' bank reg = readReg r2 bank reg) →
  agree ((bank0, slot) :: D) r1' r2'.
Proof.
  intros Hsizes Hw Hframe. split; [done|]. intros bank reg Hin.
  destruct (decide ((bank, reg) = (bank0, slot))) as [[= -> ->]|Hne]; [done|].
  destruct (Hframe bank reg Hne) as [-> ->].
  apply elem_of_cons in Hin as [?|Hin]; [done|]. by apply Hagree.
Qed.

Ltac solve_same_get g :=
  intros Hin; apply Hagree in Hin; eapply (same_getReg g); [by intros ? ? [= ->]|exact Hin].

Lemma same_getInt slot : (RegisterInt, slot) ∈ D → same_result eq (getInt r1 slot) (getInt r2 slot).
Proof. solve_same_get VInt. Qed.
Lemma same_getUint slot :
  (RegisterUint, slot) ∈ D → same_result eq (getUint r1 slot) (getUint r2 slot).
Proof. solve_same_get VUint. Qed.
Lemma same_getString slot :
  (RegisterString, slot) ∈ D → same_result eq (getString r1 slot) (getString r2 slot).
Proof. solve_same_get VString. Qed.
Lemma same_getBool slot :
  (RegisterBool, slot) ∈ D → same_result eq (getBool r1 slot) (getBool r2 slot).
Proof. solve_same_get VBool. Qed.

(** Writing the same value extends the agreement to the register written. *)
Ltac solve_same_set frame :=
  destruct Hagree as [(? & ? & ? & ?) _];
  eapply same_result_bind; [by apply same_set|];
  intros ? ? (-> & -> & E1 & E2); apply agree_cons;
  [unfold same_sizes; cbn [Ints Uints Strings Bools]; by rewrite !length_zset
  |unfold readReg; cbn; by rewrite E1, E2
  |intros bank reg Hne; split; by apply frame].

Lemma same_setInt slot v :
  same_result (agree ((RegisterInt, slot) :: D)) (setInt r1 slot v) (setInt r2 slot v).
Proof. solve_same_set readReg_setInts. Qed.
Lemma same_setUint slot v :
  same_result (agree ((RegisterUint, slot) :: D)) (setUint r1 slot v) (setUint r2 slot v).
Proof. solve_same_set readReg_setUints. Qed.
Lemma same_setString slot v :
  same_result (agree ((RegisterString, slot) :: D)) (setString r1 slot v) (setString r2 slot v).
Proof. solve_same_set readReg_setStrings. Qed.
Lemma same_setBool slot v :
  same_result (agree ((RegisterBool, slot) :: D)) (setBool r1 slot v) (setBool r2 slot v).
Proof. solve_same_set readReg_setBools. Qed.

Lemma same_withRegisters D' pc m1 m2 :
  same_result (agree D') m1 m2 →
  same_result (agree_frames D') (withRegisters (NewCallFrame pc r1) m1)
    (withRegisters (NewCallFrame pc r2) m2).
Proof. intros H. eapply same_result_bind; [exact H|]. by intros r1' r2' Hr. Qed.
End agreement.

Definition reads_named (slot : Z) (h : Handler) : Prop :=
  ∀ f pc r1 r2 instr, wf_instruction instr → flatDispatchIndex instr = slot →
    agree (namedReads instr) r1 r2 →
    same_result (agree_frames (namedWrites instr ++ namedReads instr))
      (h f (NewCallFrame pc r1) instr) (h f (NewCallFrame pc r2) instr).

Ltac named_register :=
  unfold RegisterInt, RegisterUint, RegisterString, RegisterBool in *; set_solver.

Ltac same_step :=
  match goal with
  | |- context [match zget ?l ?i with _ => _ end] =>
      destruct (zget l i); cbn [mbind OpResult_bind mret OpResult_ret]
  | H : agree _ ?r1 ?r2 |- same_result _ (getInt ?r1 _) (getInt ?r2 _) =>
      eapply same_getInt; [exact H|named_register]
  | H : agree _ ?r1 ?r2 |- same_result _ (getUint ?r1 _) (getUint ?r2 _) =>
      eapply same_getUint; [exact H|named_register]
  | H : agree _ ?r1 ?r2 |- same_result _ (getString ?r1 _) (getString ?r2 _) =>
      eapply same_getString; [exact H|named_register]
  | H : agree _ ?r1 ?r2 |- same_result _ (getBool ?r1 _) (getBool ?r2 _) =>
      eapply same_getBool; [exact H|named_register]
  | H : agree _ ?r1 ?r2 |- same_result _ (setInt ?r1 _ _) (setInt ?r2 _ _) =>
      eapply same_setInt; exact H
  | H : agree _ ?r1 ?r2 |- same_result _ (setUint ?r1 _ _) (setUint ?r2 _ _) =>
      eapply same_setUint; exact H
  | H : agree _ ?r1 ?r2 |- same_result _ (setString ?r1 _ _) (setString ?r2 _ _) =>
      eapply same_setString; exact H
  | H : agree _ ?r1 ?r2 |- same_result _ (setBool ?r1 _ _) (setBool ?r2 _ _) =>
      eapply same_setBool; exact H
  | |- same_result ?R (withRegisters _ _) _ => is_evar R; eapply same_withRegisters
  | |- same_result _ (withRegisters _ _) _ =>
      eapply same_result_mono;
      [eapply same_withRegisters; repeat same_step
      |intros ? ? [? ?]; split; [done|eapply agree_mono; [eassumption|named_register]]]
  | |- same_result _ (_ ≫= _) (_ ≫= _) => eapply same_result_bind
  | |- ∀ x y, x = y → _ => intros ? ? ->
  | |- ∀ x y, agree_frames _ x y → _ =>
      let H := fresh "Hframes" in
      intros [? ?] [? ?] [H ?]; cbn [ProgramCounter registers] in *; subst
  | |- same_result _ integerDivideByZero _ => done
  | |- same_result _ indexPanic _ => done
  | |- same_result _ (boundsError _ _) _ => done
  | |- same_result _ (mret _) (mret _) => cbn [same_result mret OpResult_ret]
  | |- same_result _ (opContinue _) (opContinue _) => cbn [same_result]
  | |- agree_frames _ _ _ =>
      split; [reflexivity|eapply agree_mono; [eassumption|named_register]]
  | |- context [if ?b then _ else _] => destruct b
  end.

Ltac solve_reads_named :=
  intros f pc r1 r2 instr Hwf Hslot Hagree;
  let Hshape := fresh "Hshape" in let Hlayout := fresh "Hlayout" in
  compute_tables Hwf Hslot Hshape Hlayout;
  unfold namedWrites, namedReads in *; rewrite Hshape in *;
  cbn in Hagree |- *; clear Hshape Hlayout Hslot;
  unfold_operation; cbn [registers ProgramCounter advance] in *;
  repeat (same_step; cbn [registers ProgramCounter advance] in *).

Lemma reads_named_arms : Forall (λ arm, reads_named (fst arm) (snd arm)) flatDispatchArms.
Proof. per_arm solve_reads_named. Qed.

(** a modelled handler depends on no register but those its operand shape
    records as read: on two register files of the same sizes that agree on
    them, with the same program counter, it ends the same way, error and
    program counter included, and leaves the same values in every register
    the shape names as read or written. *)
Theorem handlers_read_what_shapes_name f pc r1 r2 instr h :
  wf_instruction instr → flatDispatchSwitch instr = Some h →
  agree (namedReads instr) r1 r2 →
  same_result (agree_frames (namedWrites instr ++ namedReads instr))
    (h f (NewCallFrame pc r1) instr) (h f (NewCallFrame pc r2) instr).
Proof.
  intros Hwf Hd. pose proof (forall_arms _ reads_named_arms _ _ Hd) as Hr. by apply Hr.
Qed.

Theorem handlers_read_what_shapes_name_witness :
  let instr := NewInstruction OpAddInt 2 0 1 in
  let r1 := NewRegisters [5; 7; 0] [3] [] [] in
  let r2 := NewRegisters [5; 7; 9] [4] [] [] in
  agree (namedReads instr) r1 r2 ∧
  same_result (agree_frames (namedWrites instr ++ namedReads instr))
    (handleAddInt (NewNamedFunction "f") (NewCallFrame 1 r1) instr)
    (handleAddInt (NewNamedFunction "f") (NewCallFrame 1 r2) instr).
Proof.
  assert (H : agree (namedReads (NewInstruction OpAddInt 2 0 1))
    (NewRegisters [5; 7; 0] [3] [] []) (NewRegisters [5; 7; 9] [4] [] [])).
  { split; [done|]. change (namedReads _) with [(RegisterInt, 0); (RegisterInt, 1)].
    intros bank reg Hin. rewrite !elem_of_cons, elem_of_nil in Hin.
    destruct Hin as [[= -> ->]|[[= -> ->]|[]]]; reflexivity. }
  split; [exact H|].
  apply (handlers_read_what_shapes_name (NewNamedFunction "f") 1 _ _
    (NewInstruction OpAddInt 2 0 1) handleAddInt); [|reflexivity|exact H].
  eapply bool_decide_unpack. vm_compute. exact I.
Defined.
