(* ===== verification/MachineFlow.v ===== *)
(** * Types, control flow and bounds of a step

    A step keeps every register inside its machine width, goes where the
    verifier's control flow says it goes, and cannot index out of a register
    file the verifier has measured. *)

From S2P Require Import Prelude SafeConv Register Opcode Instruction Shapes Spec JumpLayout Jumps.
From S2P Require Import Extension Function Verify VerifySound Machine MachineSafe.

(** ** Registers stay machine words *)

Record typed (r : Registers) : Prop := {
  typed_ints : Forall (isS 64) (Ints r);
  typed_uints : Forall (isU 64) (Uints r);
}.

Record typed_pools (f : CompiledFunction) : Prop := {
  typed_int_constants : Forall (isS 64) (IntConstants f);
  typed_uint_constants : Forall (isU 64) (UintConstants f);
}.

Lemma Forall_zget {A} (P : A → Prop) l i x : Forall P l → zget l i = Some x → P x.
Proof.
  intros Hl Hg. pose proof (zget_Some_range _ _ _ Hg). rewrite zget_lookup in Hg by lia.
  rewrite Forall_lookup in Hl. by eapply Hl.
Qed.

Lemma Forall_zset {A} (P : A → Prop) l i x : Forall P l → P x → Forall P (zset l i x).
Proof. intros Hl Hx. unfold zset. case_if; [done|]. by apply Forall_insert. Qed.

Lemma typed_setInts r slot v :
  typed r → isS 64 v → typed (NewRegisters (zset (Ints r) slot v) (Uints r) (Strings r) (Bools r)).
Proof. intros [Hi Hu] Hv. split; [by apply Forall_zset|done]. Qed.
Lemma typed_setUints r slot v :
  typed r → isU 64 v → typed (NewRegisters (Ints r) (zset (Uints r) slot v) (Strings r) (Bools r)).
Proof. intros [Hi Hu] Hv. split; [done|by apply Forall_zset]. Qed.
Lemma typed_setStrings r slot v :
  typed r → typed (NewRegisters (Ints r) (Uints r) (zset (Strings r) slot v) (Bools r)).
Proof. intros [Hi Hu]. by split. Qed.
Lemma typed_setBools r slot v :
  typed r → typed (NewRegisters (Ints r) (Uints r) (Strings r) (zset (Bools r) slot v)).
Proof. intros [Hi Hu]. by split. Qed.

Lemma typed_getInt r slot x : zget (Ints r) slot = Some x → typed r → isS 64 x.
Proof. intros Hg [Hi _]. by eapply Forall_zget. Qed.
Lemma typed_getUint r slot x : zget (Uints r) slot = Some x → typed r → isU 64 x.
Proof. intros Hg [_ Hu]. by eapply Forall_zget. Qed.
Lemma typed_intConstant f i x : zget (IntConstants f) i = Some x → typed_pools f → isS 64 x.
Proof. intros Hg [Hi _]. by eapply Forall_zget. Qed.
Lemma typed_uintConstant f i x : zget (UintConstants f) i = Some x → typed_pools f → isU 64 x.
Proof. intros Hg [_ Hu]. by eapply Forall_zget. Qed.

Lemma isS_boolToInt64 b : isS 64 (boolToInt64 b).
Proof. destruct b; unfold boolToInt64; word. Qed.

Lemma isS_narrow x : isS 32 x → isS 64 x.
Proof. word. Qed.
Lemma isU_narrow x : isU 32 x → isU 64 x.
Proof. word. Qed.


Lemma isS_rem x y : isS 64 y → y ≠ 0 → isS 64 (Z.rem x y).
Proof. intros Hy Hnz. pose proof (Z.rem_bound_abs x y Hnz). word_unfold. lia. Qed.

Lemma isU_div x y : isU 64 x → y ≠ 0 → isU 64 y → isU 64 (x / y).
Proof.
  unfold isU. intros Hx Hnz Hy. split; [apply Z.div_pos; lia|].
  apply Z.le_lt_trans with x; [|lia]. apply Z.div_le_upper_bound; nia.
Qed.
Lemma isU_mod x y : y ≠ 0 → isU 64 y → isU 64 (x mod y).
Proof. unfold isU. intros Hnz Hy. pose proof (Z.mod_pos_bound x y). lia. Qed.

Lemma shiftr_between x n : 0 <= n → Z.min x (-1) <= Z.shiftr x n <= Z.max x 0.
Proof.
  intros Hn. rewrite Z.shiftr_div_pow2 by done. pose proof (Z.pow_pos_nonneg 2 n).
  split.
  - apply Z.div_le_lower_bound; [lia|]. destruct (Z.min_spec x (-1)) as [[? ->]|[? ->]]; nia.
  - apply Z.div_le_upper_bound; [lia|]. destruct (Z.max_spec x 0) as [[? ->]|[? ->]]; nia.
Qed.

Lemma isS_shiftRight64 x n : isS 64 x → isU 64 n → isS 64 (shiftRight64 x n).
Proof.
  intros Hx Hn. unfold shiftRight64. case_ifs; [word..|].
  pose proof (shiftr_between x n). word_unfold. lia.
Qed.
Lemma isU_shiftRight64 x n : isU 64 x → isU 64 n → isU 64 (shiftRight64 x n).
Proof.
  intros Hx Hn. unfold shiftRight64. case_ifs; [word..|].
  pose proof (Z.shiftr_nonneg x n). pose proof (shiftr_between x n). word_unfold. lia.
Qed.

Create HintDb typed.
#[export] Hint Resolve typed_setInts typed_setUints typed_setStrings typed_setBools
  isS_boolToInt64 isS_narrow isU_narrow isS_rem isU_div isU_mod isS_shiftRight64
  isU_shiftRight64 typed_getInt typed_getUint typed_intConstant typed_uintConstant : typed.

Lemma isS_wrapS64 x : isS 64 (wrapS 64 x). Proof. by apply wrapS_range. Qed.
Lemma isS_wrapS32 x : isS 64 (wrapS 32 x). Proof. apply isS_narrow. by apply wrapS_range. Qed.
Lemma isU_wrapU64 x : isU 64 (wrapU 64 x). Proof. by apply wrapU_range. Qed.
Lemma isU_wrapU32 x : isU 64 (wrapU 32 x). Proof. apply isU_narrow. by apply wrapU_range. Qed.
Lemma isS_land x y : isS 64 x → isS 64 y → isS 64 (Z.land x y).
Proof. intros. by apply isS_bitwise. Qed.
Lemma isS_lor x y : isS 64 x → isS 64 y → isS 64 (Z.lor x y).
Proof. intros. by apply isS_bitwise. Qed.
Lemma isS_lxor x y : isS 64 x → isS 64 y → isS 64 (Z.lxor x y).
Proof. intros. by apply isS_bitwise. Qed.
Lemma isS_lnot x : isS 64 x → isS 64 (Z.lnot x).
Proof. intros. by apply (isS_bitwise 64 x x). Qed.
Lemma isU_land x y : isU 64 x → isU 64 y → isU 64 (Z.land x y).
Proof. intros. by apply isU_bitwise. Qed.
Lemma isU_lor x y : isU 64 x → isU 64 y → isU 64 (Z.lor x y).
Proof. intros. by apply isU_bitwise. Qed.
Lemma isU_lxor x y : isU 64 x → isU 64 y → isU 64 (Z.lxor x y).
Proof. intros. by apply isU_bitwise. Qed.
Lemma isS_byte x : byte_ok x → isS 64 x. Proof. word. Qed.
Lemma isU_byte x : byte_ok x → isU 64 x. Proof. word. Qed.

#[export] Hint Resolve isS_wrapS64 isS_wrapS32 isU_wrapU64 isU_wrapU32 isS_land isS_lor isS_lxor
  isS_lnot isU_land isU_lor isU_lxor isS_byte isU_byte : typed.

Definition keeps_typed (slot : Z) (h : Handler) : Prop :=
  ∀ f frame instr frame', wf_instruction instr → typed_pools f → typed (registers frame) →
    h f frame instr = opContinue frame' → typed (registers frame').

Ltac solve_keeps_typed :=
  intros f [pc r] instr frame' (Hop & Ha & Hb & Hc) Hpools Htyped Hrun;
  unfold_handler; unfold Int64ToUint64Reinterpret, Uint64ToInt64Reinterpret in *;
  cbn [registers ProgramCounter advance] in *; handler_inv;
  cbn [registers ProgramCounter advance] in *; repeat case_if; bool_hyps;
  cbn [registers ProgramCounter advance]; eauto 8 with typed.

Lemma keeps_typed_arms : Forall (λ arm, keeps_typed (fst arm) (snd arm)) flatDispatchArms.
Proof. per_arm solve_keeps_typed. Qed.

Lemma dispatchStep_inv f frame rc :
  dispatchStep f frame = Some rc →
  (zget (Body f) (ProgramCounter frame) = None ∧ ProgramCounter frame < 0 ∧ rc = indexPanic) ∨
  ∃ instr h, zget (Body f) (ProgramCounter frame) = Some instr ∧
    flatDispatchSwitch instr = Some h ∧ h f (advance frame 1) instr = rc.
Proof.
  unfold dispatchStep. case_if; bool_hyps; [done|].
  destruct (zget (Body f) (ProgramCounter frame)) as [instr|] eqn:Eg.
  - destruct (flatDispatchSwitch instr) as [h|] eqn:Eh; [|done]. intros [= <-]. right. eauto.
  - intros [= <-]. left. split; [done|]. apply zget_None in Eg.
    split; [lia|done].
Qed.


(** [MinInt64 / -1]. *)
Definition sample_division : CompiledFunction :=
  setBody (NewNamedFunction "f") [NewInstruction OpDivInt 0 0 1].


(** ** Spans end *)

Definition is_out_of_fuel (e : spanEnd) : bool :=
  match e with outOfFuel => true | _ => false end.

Lemma mask_period ops : Z.land ops cancellationCheckMask = ops mod 1024.
Proof. exact (Z.land_ones ops 10 ltac:(lia)). Qed.

Lemma dispatchSpan_counts fuel f frame ops :
  isU 32 ops → 1024 - ops mod 1024 <= Z.of_nat fuel →
  ∃ e k, dispatchSpan fuel f frame ops = (e, wrapU 32 (ops + k)) ∧ e ≠ outOfFuel ∧
    1 <= k <= 1024 - ops mod 1024 ∧
    ((∃ frame', e = spanStopCheckpoint frame') ↔ (ops + k) mod 1024 = 0).
Proof.
  revert frame ops. induction fuel as [|fuel IH]; intros frame ops Hops Hfuel.
  { pose proof (Z.mod_pos_bound ops 1024). lia. }
  cbn [dispatchSpan]. cbv zeta. rewrite mask_period.
  assert (Hmod : wrapU 32 (ops + 1) mod 1024 = (ops + 1) mod 1024) by word.
  rewrite Hmod. case_if; bool_hyps.
  { exists (spanStopCheckpoint frame), 1. split_and!; [done|done|lia|word|]. split; [done|by eauto]. }
  assert (Hnow : ∀ e, (∀ frame', e ≠ spanStopCheckpoint frame') → e ≠ outOfFuel →
    ∃ e' k, (e, wrapU 32 (ops + 1)) = (e', wrapU 32 (ops + k)) ∧ e' ≠ outOfFuel ∧
      1 <= k <= 1024 - ops mod 1024 ∧
      ((∃ frame', e' = spanStopCheckpoint frame') ↔ (ops + k) mod 1024 = 0)).
  { intros e Hne Hno. exists e, 1. split_and!; [done|done|lia|word|].
    split; [by intros [fr He]; destruct (Hne fr)|]. intros ?. exfalso. word. }
  case_if; [by apply Hnow|].
  destruct (dispatchStep f frame) as [[frame'|t i| |]|]; try by apply Hnow.
  destruct (IH frame' (wrapU 32 (ops + 1))) as (e & k & -> & Hne & Hk & Hiff);
    [by apply wrapU_range|word|].
  assert (Hstep : (ops + 1) mod 1024 = ops mod 1024 + 1) by word.
  exists e, (1 + k). split_and!; [f_equal; word|done|lia|word|].
  rewrite Hiff. split; word.
Qed.

Lemma dispatchSpan_fuel fuel fuel' f frame ops e ops' :
  dispatchSpan fuel f frame ops = (e, ops') → e ≠ outOfFuel → (fuel <= fuel')%nat →
  dispatchSpan fuel' f frame ops = (e, ops').
Proof.
  revert fuel' frame ops. induction fuel as [|fuel IH]; intros fuel' frame ops; cbn [dispatchSpan].
  { by intros [= <- <-]. }
  intros H He Hle. destruct fuel' as [|fuel']; [lia|]. cbn [dispatchSpan].
  repeat (case_if; [done|]).
  destruct (dispatchStep f frame) as [[frame'|t i| |]|]; try done. apply IH; [done|done|lia].
Qed.

(** a span always ends, within 1024 turns from any counter value, so a
    cancelled program is noticed after at most that many instructions: with
    that much fuel it is never cut short, more fuel changes nothing, and it
    stops for the periodic checks exactly when the counter reaches a multiple
    of 1024, the 32-bit wrap-around of the counter included. *)
Theorem dispatch_span_polls f frame ops fuel :
  isU 32 ops → (1024 <= fuel)%nat →
  dispatchSpan fuel f frame ops = dispatchSpan 1024 f frame ops ∧
  ∃ e k, dispatchSpan fuel f frame ops = (e, wrapU 32 (ops + k)) ∧ is_out_of_fuel e = false ∧
    1 <= k <= 1024 ∧
    ((∃ frame', e = spanStopCheckpoint frame') ↔ (ops + k) mod 1024 = 0).
Proof.
  intros Hops Hfuel. pose proof (Z.mod_pos_bound ops 1024).
  destruct (dispatchSpan_counts 1024 f frame ops Hops) as (e & k & Hd & He & Hk & Hiff); [lia|].
  pose proof (dispatchSpan_fuel _ fuel _ _ _ _ _ Hd He Hfuel) as Hd'.
  split; [congruence|]. exists e, k. split_and!; [done|by destruct e|lia|lia|done].
Qed.

(** A loop of one jump to itself. *)
Definition sample_loop : CompiledFunction :=
  setBody (NewNamedFunction "f") [NewInstruction OpDrillTier1 SubOpJump 255 255].

Theorem dispatch_span_polls_witness :
  dispatchSpan 1024 sample_loop (NewCallFrame 0 (NewRegisters [] [] [] [])) 4294967000 =
    (spanStopCheckpoint (NewCallFrame 0 (NewRegisters [] [] [] [])), 0) ∧
  dispatchSpan 2000 sample_loop (NewCallFrame 0 (NewRegisters [] [] [] [])) 4294967000 =
    dispatchSpan 1024 sample_loop (NewCallFrame 0 (NewRegisters [] [] [] [])) 4294967000.
Proof.
  split; [vm_compute; reflexivity|].
  apply (dispatch_span_polls sample_loop (NewCallFrame 0 (NewRegisters [] [] [] [])) 4294967000 2000);
    [eapply bool_decide_unpack; vm_compute; exact I|lia].
Defined.

(** ** Narrowing *)

Lemma shiftLeft64_small x n : 0 <= n < 64 → shiftLeft64 x n = x * 2 ^ n.
Proof. intros Hn. unfold shiftLeft64. case_if; bool_hyps; [lia|done]. Qed.

(** Shifting a word up and back down, the sign with it, keeps its low bits. *)
Lemma shift_up_down x w :
  0 < w <= 64 → Z.shiftr (wrapS 64 (x * 2 ^ (64 - w))) (64 - w) = wrapS w x.
Proof.
  intros Hw. rewrite Z.shiftr_div_pow2 by lia. unfold wrapS.
  set (k := 2 ^ (64 - w)). assert (Hk : 0 < k) by (apply Z.pow_pos_nonneg; lia).
  replace (2 ^ (64 - 1)) with (2 ^ (w - 1) * k)
    by (unfold k; rewrite <- Z.pow_add_r by lia; f_equal; lia).
  replace (2 ^ 64) with (2 ^ w * k) by (unfold k; rewrite <- Z.pow_add_r by lia; f_equal; lia).
  rewrite <- Z.mul_add_distr_r, Z.mul_mod_distr_r by (try apply Z.pow_nonzero; lia).
  rewrite <- Z.mul_sub_distr_r. apply Z.div_mul. lia.
Qed.

Lemma truncate_int x w :
  0 < w <= 64 →
  shiftRight64 (wrapS 64 (shiftLeft64 x (wrapU 64 (registerBitWidth - w))))
    (wrapU 64 (registerBitWidth - w)) = wrapS w x.
Proof.
  intros Hw. rewrite wrapU_id by (unfold registerBitWidth; word).
  rewrite shiftLeft64_small by (unfold registerBitWidth; lia).
  unfold shiftRight64, registerBitWidth. case_if; bool_hyps; [lia|]. by apply shift_up_down.
Qed.

Lemma truncate_uint x w :
  0 < w <= 64 → Z.land x (wrapU 64 (wrapU 64 (shiftLeft64 1 w) - 1)) = wrapU w x.
Proof.
  intros Hw. unfold wrapU at 3.
  replace (wrapU 64 (wrapU 64 (shiftLeft64 1 w) - 1)) with (Z.ones w); [by rewrite Z.land_ones by lia|].
  rewrite Z.ones_equiv. destruct (decide (w = 64)) as [->|]; [reflexivity|].
  rewrite shiftLeft64_small, Z.mul_1_l by lia.
  pose proof (Z.pow_lt_mono_r 2 w 64). pose proof (Z.pow_pos_nonneg 2 w).
  rewrite (wrapU_id 64 (2 ^ w)) by (unfold isU; lia).
  rewrite wrapU_id by (unfold isU; lia). lia.
Qed.

(** Go's conversion of a register value to an integer type of [w] bits. *)
Definition convert (bank : RegisterKind) (w x : Z) : Z :=
  if bank =? RegisterUint then wrapU w x else wrapS w x.

Lemma HandleTruncateNarrow_convert f frame instr :
  0 < iB instr <= 64 →
  HandleTruncateNarrow f frame instr =
    withRegisters frame
      (if iC instr =? RegisterUint
       then x ← getUint (registers frame) (iA instr);
            setUint (registers frame) (iA instr) (convert RegisterUint (iB instr) x)
       else x ← getInt (registers frame) (iA instr);
            setInt (registers frame) (iA instr) (convert RegisterInt (iB instr) x)).
Proof.
  unfold convert. intros Hw. unfold HandleTruncateNarrow. cbv zeta. case_if.
  - destruct (getUint (registers frame) (iA instr)); cbn; [|done..]. by rewrite truncate_uint.
  - destruct (getInt (registers frame) (iA instr)); cbn; [|done..]. by rewrite truncate_int.
Qed.

(** [OpTruncateNarrow] with a width of 1 to 64 bits computes Go's
    conversion to that width: register [A] becomes its value modulo the width,
    reinterpreted as signed in the integer bank and as unsigned in the
    unsigned bank. *)
Theorem truncate_narrow_converts f frame instr :
  0 < iB instr <= 64 →
  HandleTruncateNarrow f frame instr =
    withRegisters frame
      (if iC instr =? RegisterUint
       then x ← getUint (registers frame) (iA instr);
            setUint (registers frame) (iA instr) (convert RegisterUint (iB instr) x)
       else x ← getInt (registers frame) (iA instr);
            setInt (registers frame) (iA instr) (convert RegisterInt (iB instr) x)).
Proof. apply HandleTruncateNarrow_convert. Qed.

Theorem truncate_narrow_converts_witness :
  HandleTruncateNarrow (NewNamedFunction "f")
    (NewCallFrame 1 (NewRegisters [200] [] [] [])) (NewInstruction OpTruncateNarrow 0 8 RegisterInt) =
  opContinue (NewCallFrame 1 (NewRegisters [-56] [] [] [])).
Proof.
  rewrite (truncate_narrow_converts (NewNamedFunction "f")
    (NewCallFrame 1 (NewRegisters [200] [] [] [])) (NewInstruction OpTruncateNarrow 0 8 RegisterInt));
    [vm_compute; reflexivity|cbn [iB]; lia].
Defined.

(** The narrow operations, each with the operation it fuses with a 32-bit
    truncation and the bank of the truncation. *)
Definition narrow32 : list (Handler * Handler * RegisterKind) :=
  [ (handleAddInt32, handleAddInt, RegisterInt);
    (handleSubInt32, handleSubInt, RegisterInt);
    (handleMulInt32, handleMulInt, RegisterInt);
    (handleAddInt32Const, handleAddIntConst, RegisterInt);
    (handleSubInt32Const, handleSubIntConst, RegisterInt);
    (handleIncInt32, handleIncInt, RegisterInt);
    (handleDecInt32, handleDecInt, RegisterInt);
    (handleAddUint32, handleAddUint, RegisterUint) ].

Definition fuses_truncation (entry : Handler * Handler * RegisterKind) : Prop :=
  let '(narrow, wide, bank) := entry in
  ∀ f frame instr,
    narrow f frame instr =
      (frame' ← wide f frame instr;
       HandleTruncateNarrow f frame' (NewInstruction OpTruncateNarrow (iA instr) 32 bank)).

Lemma getReg_zset {A} (l : list A) i x y :
  zget l i = Some y → getReg (zset l i x) i = opContinue x.
Proof. intros H. unfold getReg. by rewrite zget_zset_eq by by eapply zget_Some_range. Qed.

Lemma truncate_after_setInt f frame slot v :
  (frame' ← withRegisters frame (setInt (registers frame) slot v);
   HandleTruncateNarrow f frame' (NewInstruction OpTruncateNarrow slot 32 RegisterInt)) =
  withRegisters frame (setInt (registers frame) slot (wrapS 32 v)).
Proof.
  unfold setInt at 1 2, setReg at 1 2. destruct (zget (Ints (registers frame)) slot) eqn:E; [|done].
  cbn [withRegisters mbind OpResult_bind mret OpResult_ret].
  rewrite HandleTruncateNarrow_convert by (cbn [iB]; lia). cbn [iA iB iC registers].
  change (RegisterInt =? RegisterUint) with false. cbv iota.
  unfold getInt, setInt, setReg. cbn [Ints].
  rewrite (getReg_zset _ _ _ _ E), zget_zset_eq by by eapply zget_Some_range.
  cbn. by rewrite zset_zset.
Qed.

Lemma truncate_after_setUint f frame slot v :
  (frame' ← withRegisters frame (setUint (registers frame) slot v);
   HandleTruncateNarrow f frame' (NewInstruction OpTruncateNarrow slot 32 RegisterUint)) =
  withRegisters frame (setUint (registers frame) slot (wrapU 32 v)).
Proof.
  unfold setUint at 1 2, setReg at 1 2. destruct (zget (Uints (registers frame)) slot) eqn:E; [|done].
  cbn [withRegisters mbind OpResult_bind mret OpResult_ret].
  rewrite HandleTruncateNarrow_convert by (cbn [iB]; lia). cbn [iA iB iC registers].
  change (RegisterUint =? RegisterUint) with true. cbv iota.
  unfold getUint, setUint, setReg. cbn [Uints].
  rewrite (getReg_zset _ _ _ _ E), zget_zset_eq by by eapply zget_Some_range.
  cbn. by rewrite zset_zset.
Qed.

Ltac solve_fuses :=
  intros f frame instr;
  cbv beta zeta delta [handleAddInt32 handleSubInt32 handleMulInt32 handleAddInt32Const
    handleSubInt32Const handleIncInt32 handleDecInt32 handleAddUint32 handleAddInt handleSubInt
    handleMulInt handleAddIntConst handleSubIntConst handleIncInt handleDecInt handleAddUint
    binaryInt binaryUint intConst updateInt];
  repeat match goal with
  | |- context [match zget ?l ?i with _ => _ end] => destruct (zget l i); [|done]
  | |- context [getInt ?r ?i] => destruct (getInt r i); [|done..]
  | |- context [getUint ?r ?i] => destruct (getUint r i); [|done..]
  end; cbn [mbind OpResult_bind] in *;
  symmetry; (apply truncate_after_setInt || apply truncate_after_setUint).

(** each 32-bit operation stores exactly what its 64-bit operation
    followed by the truncation of its destination to 32 bits would have
    stored, with the same errors, on every input. *)
Theorem narrow32_fuses_truncation : Forall fuses_truncation narrow32.
Proof. unfold narrow32. repeat apply Forall_cons_2; [solve_fuses..|apply Forall_nil_2]. Qed.

(** ** Where a step goes *)

(** The extension words an instruction owns are there: those its jump layout
    reads, and one for the operations with a wide constant index. *)
Definition well_extended (body : list Instruction) (pc : Z) (instr : Instruction) : Prop :=
  match fst (JumpLayoutOf instr) with
  | JumpLayoutNone =>
      hasFlag (shFlags (ShapeForInstruction instr)) ShapeFlagFollowsExtension = true →
      is_Some (extensionWordAt body (pc + 1)) ∧ extensionWordAt body (pc + 2) = None
  | JumpLayoutSecondExtension =>
      is_Some (extensionWordAt body (pc + 1)) ∧ is_Some (extensionWordAt body (pc + 2))
  | JumpLayoutExtension | JumpLayoutExtension24 | JumpLayoutExtensionBC =>
      is_Some (extensionWordAt body (pc + 1))
  | JumpLayoutWord | JumpLayoutMultiWay => True
  end.

(** The program counter after a step: the recorded jump target of an operation
    that may branch, or the word after the instruction. *)
Definition step_target (body : list Instruction) (pc : Z) (instr : Instruction) (pc' : Z) : Prop :=
  let flags := shFlags (ShapeForInstruction instr) in
  (JumpTargetAt body pc = Some pc' ∧
   hasFlag flags ShapeFlagTerminator || hasFlag flags ShapeFlagControlFlow = true) ∨
  (pc' = nextPC body pc instr ∧ hasFlag flags ShapeFlagTerminator = false).

Lemma InstrIsTier1SubOp_index instr s :
  InstrIsTier1SubOp instr s = true → s ≠ 0 → flatDispatchIndex instr = flatHandlerTier1Base + s.
Proof.
  unfold InstrIsTier1SubOp, flatDispatchIndex. intros H Hs. bool_hyps.
  repeat (case_if; bool_hyps); subst; try done; unfold OpDrillTier1 in *; congruence.
Qed.

Lemma skipExtensionWords_none body pc :
  extensionWordAt body pc = None → skipExtensionWords body pc = pc.
Proof.
  unfold skipExtensionWords, extensionWordAt. intros H. destruct (length body); [done|]. cbn.
  destruct (zget body pc) as [w|]; [|done]. by destruct (iOp w =? OpExt).
Qed.

Lemma skipExtensionWords_one body pc :
  is_Some (extensionWordAt body pc) → extensionWordAt body (pc + 1) = None →
  skipExtensionWords body pc = pc + 1.
Proof.
  intros [w Hw] Hnone. apply extensionWordAt_Some in Hw as [Hg Ho].
  pose proof (zget_Some_range _ _ _ Hg) as Hr. unfold skipExtensionWords.
  destruct (length body) as [|n] eqn:En; [lia|]. cbn [skipExtension]. rewrite Hg, Ho.
  change (OpExt =? OpExt) with true. cbv iota.
  destruct n as [|n]; cbn [skipExtension]; [done|].
  unfold extensionWordAt in Hnone. destruct (zget body (pc + 1)) as [w'|]; [|done].
  by destruct (iOp w' =? OpExt).
Qed.

Definition flows (slot : Z) (h : Handler) : Prop :=
  ∀ f frame instr frame',
    wf_instruction instr → flatDispatchIndex instr = slot →
    zget (Body f) (ProgramCounter frame) = Some instr →
    well_extended (Body f) (ProgramCounter frame) instr →
    h f (advance frame 1) instr = opContinue frame' →
    step_target (Body f) (ProgramCounter frame) instr (ProgramCounter frame').

(** Name the extension words. *)
Ltac extension_hyps :=
  repeat match goal with
  | H : true = true → _ |- _ => specialize (H eq_refl)
  | H : _ ∧ _ |- _ => destruct H
  | H : is_Some (extensionWordAt _ _) |- _ =>
      let ext := fresh "ext" in let E := fresh "Eext" in
      destruct H as [ext E]; rewrite ?E;
      pose proof (proj1 (proj1 (extensionWordAt_Some _ _ _) E))
  end.

Ltac compute_flags :=
  repeat match goal with
  | H : context [hasFlag ?x ?y] |- _ =>
      let v := eval vm_compute in (hasFlag x y) in change (hasFlag x y) with v in H
  | |- context [hasFlag ?x ?y] =>
      let v := eval vm_compute in (hasFlag x y) in change (hasFlag x y) with v
  end.

Ltac solve_flows :=
  intros f [pc r] instr frame' Hwf Hslot Hg Hext Hrun;
  let Hshape := fresh "Hshape" in let Hlayout := fresh "Hlayout" in
  compute_tables Hwf Hslot Hshape Hlayout; clear Hslot;
  unfold step_target, well_extended, nextPC, JumpTargetAt, JumpFootprint in *;
  cbn [ProgramCounter registers] in *;
  rewrite Hg; rewrite ?Hlayout, ?Hshape in *; clear Hshape Hlayout; cbn in Hext |- *;
  compute_flags; cbv iota in *; extension_hyps;
  unfold_handler; cbn [registers ProgramCounter advance] in *; handler_inv;
  cbn [registers ProgramCounter advance] in *;
  replace (pc + 1 + 1) with (pc + 2) in * by lia; simplify_eq;
  repeat case_if; cbn [registers ProgramCounter advance mbind option_bind];
  unfold singleJumpWordCount, extensionJumpWordCount, secondExtensionJumpWordCount,
    EqUintConstJumpFalseNopCount, RangeCheckUintFusionNopCount in *;
  first
    [ right; split; [lia|reflexivity]
    | left; split; [f_equal; lia|reflexivity]
    | right; split; [|reflexivity]; rewrite skipExtensionWords_one; [lia|by eauto|];
      by replace (pc + 1 + 1) with (pc + 2) by lia ].

Lemma flows_arms : Forall (λ arm, flows (fst arm) (snd arm)) flatDispatchArms.
Proof. per_arm solve_flows. Qed.

Lemma arms_without_table :
  Forall (λ arm : Z * Handler, fst arm ≠ flatHandlerTier1Base + SubOpTypeSwitchJump) flatDispatchArms.
Proof. unfold flatDispatchArms. repeat apply Forall_cons_2; [vm_compute; congruence..|apply Forall_nil_2]. Qed.

Lemma step_target_flows body pc instr pc' :
  InstrIsTier1SubOp instr SubOpTypeSwitchJump = false →
  step_target body pc instr pc' → 0 <= pc' < zlen body →
  pc' ∈ flowSuccessors body pc instr.
Proof.
  intros Ht Hs Hr. unfold flowSuccessors, terminatorSuccessors, controlFlowSuccessors.
  rewrite Ht. destruct Hs as [[-> Hflags]|[-> ->]].
  - destruct (hasFlag _ ShapeFlagTerminator), (hasFlag _ ShapeFlagControlFlow); try done;
      repeat case_if; bool_hyps; try set_solver;
      repeat match goal with H : _ ∨ _ |- _ => destruct H end; bool_hyps; subst; try lia; set_solver.
  - destruct (hasFlag _ ShapeFlagControlFlow), (JumpTargetAt body pc); repeat case_if; bool_hyps;
      try lia; set_solver.
Qed.

(** One step inside the body goes to a successor of the verifier's. *)
Lemma step_flows f frame instr frame' :
  wf_body (Body f) → zget (Body f) (ProgramCounter frame) = Some instr →
  well_extended (Body f) (ProgramCounter frame) instr →
  dispatchStep f frame = Some (opContinue frame') →
  0 <= ProgramCounter frame' < zlen (Body f) →
  ProgramCounter frame' ∈ flowSuccessors (Body f) (ProgramCounter frame) instr.
Proof.
  intros Hwf Hg Hext Hstep Hr.
  apply dispatchStep_inv in Hstep as [(_ & _ & ?)|(instr' & h & Hg' & Hd & Hrun)]; [done|].
  simplify_eq. pose proof (forall_arms _ flows_arms _ _ Hd) as Hf.
  pose proof (forall_arms (λ slot _, slot ≠ _) arms_without_table _ _ Hd) as Hno.
  apply step_target_flows; [|eapply Hf; eauto using wf_body_zget|done].
  destruct (InstrIsTier1SubOp instr SubOpTypeSwitchJump) eqn:E; [|done].
  apply InstrIsTier1SubOp_index in E; done.
Qed.

Inductive runs (f : CompiledFunction) (start : CallFrame) : CallFrame → Prop :=
  | runs_start : runs f start start
  | runs_step frame frame' :
      runs f start frame → dispatchStep f frame = Some (opContinue frame') →
      runs f start frame'.


(** [for i < n { i++ }]: a compare-and-branch, an increment, a jump back. *)
Definition sample_count : CompiledFunction :=
  setBody (NewNamedFunction "f")
    [NewInstruction OpDrillTier1 SubOpLtIntJumpFalse 0 1; NewInstruction OpExt 2 0 0;
     NewInstruction OpDrillTier1 SubOpDrillTier2 SubOpTier2IncInt 0;
     NewInstruction OpDrillTier1 SubOpJump 252 255].


(** ** Checked bytecode stays inside its register file *)

(** The register file of a frame, sized by the function's declared counts. *)
Record covers (f : CompiledFunction) (r : Registers) : Prop := {
  covers_ints : registerCount f RegisterInt <= zlen (Ints r);
  covers_uints : registerCount f RegisterUint <= zlen (Uints r);
  covers_strings : registerCount f RegisterString <= zlen (Strings r);
  covers_bools : registerCount f RegisterBool <= zlen (Bools r);
}.

(** A result that is not Go's index panic, and satisfies [P] when it
    continues. *)
Definition safe {A} (P : A → Prop) (m : OpResult A) : Prop :=
  match m with opContinue x => P x | indexPanic => False | _ => True end.

Lemma safe_bind {A B} (P : A → Prop) (Q : B → Prop) m k :
  safe P m → (∀ x, P x → safe Q (k x)) → safe Q (m ≫= k).
Proof. destruct m; cbn; try done. intros HP Hk. by apply Hk. Qed.

Lemma safe_getReg {V} (bank : list V) n slot :
  n <= zlen bank → 0 <= slot < n → safe (λ _, True) (getReg bank slot).
Proof.
  intros Hn Hs. unfold getReg. destruct (zget_is_Some bank slot) as [x ->]; [lia|done].
Qed.

Lemma safe_setReg {V} (bank : list V) n slot v :
  n <= zlen bank → 0 <= slot < n → safe (λ bank', length bank' = length bank) (setReg bank slot v).
Proof.
  intros Hn Hs. unfold setReg. destruct (zget_is_Some bank slot) as [x ->]; [lia|].
  apply length_zset.
Qed.

Section covered.
Context (f : CompiledFunction) (r : Registers) (Hc : covers f r).

Lemma safe_getInt slot : 0 <= slot < registerCount f RegisterInt → safe (λ _, True) (getInt r slot).
Proof. destruct Hc. by apply safe_getReg. Qed.
Lemma safe_getUint slot : 0 <= slot < registerCount f RegisterUint → safe (λ _, True) (getUint r slot).
Proof. destruct Hc. by apply safe_getReg. Qed.
Lemma safe_getString slot :
  0 <= slot < registerCount f RegisterString → safe (λ _, True) (getString r slot).
Proof. destruct Hc. by apply safe_getReg. Qed.
Lemma safe_getBool slot : 0 <= slot < registerCount f RegisterBool → safe (λ _, True) (getBool r slot).
Proof. destruct Hc. by apply safe_getReg. Qed.

Ltac solve_safe_set :=
  intros Hs; destruct Hc; eapply safe_bind; [by eapply safe_setReg|];
  intros bank Hlen; split; cbn [Ints Uints Strings Bools]; rewrite ?Hlen; done.

Lemma safe_setInt slot v :
  0 <= slot < registerCount f RegisterInt → safe (covers f) (setInt r slot v).
Proof. solve_safe_set. Qed.
Lemma safe_setUint slot v :
  0 <= slot < registerCount f RegisterUint → safe (covers f) (setUint r slot v).
Proof. solve_safe_set. Qed.
Lemma safe_setString slot v :
  0 <= slot < registerCount f RegisterString → safe (covers f) (setString r slot v).
Proof. solve_safe_set. Qed.
Lemma safe_setBool slot v :
  0 <= slot < registerCount f RegisterBool → safe (covers f) (setBool r slot v).
Proof. solve_safe_set. Qed.

Lemma safe_withRegisters pc m :
  safe (covers f) m →
  safe (λ frame, ∃ r', frame = NewCallFrame pc r' ∧ covers f r') (withRegisters (NewCallFrame pc r) m).
Proof. intros H. eapply safe_bind; [exact H|]. intros r' Hr. by exists r'. Qed.

Lemma safe_mono {A} (P Q : A → Prop) m : safe P m → (∀ x, P x → Q x) → safe Q m.
Proof. destruct m; cbn; auto. Qed.
End covered.

(** The words a step decodes: the instruction, and the extension words its
    handler reads. *)
Definition decodedWords (instr : Instruction) : Z :=
  match fst (JumpLayoutOf instr) with
  | JumpLayoutNone =>
      if hasFlag (shFlags (ShapeForInstruction instr)) ShapeFlagFollowsExtension then 2 else 1
  | layout => WordCount layout
  end.

Definition bounded (slot : Z) (h : Handler) : Prop :=
  ∀ f frame instr,
    wf_instruction instr → flatDispatchIndex instr = slot → slot ≠ OpTruncateNarrow →
    operands_in_range f instr → covers f (registers frame) →
    0 <= ProgramCounter frame → ProgramCounter frame + decodedWords instr <= zlen (Body f) →
    safe (λ frame', covers f (registers frame')) (h f (advance frame 1) instr).

Ltac operand_bound :=
  split; [lia|];
  match goal with
  | H : ∀ position role slot bank, _ |- _ < registerCount _ _ =>
      first [ eapply (H 0); [apply list_elem_of_here|reflexivity|reflexivity]
            | eapply (H 1);
              [apply list_elem_of_further, list_elem_of_here|reflexivity|reflexivity]
            | eapply (H 2);
              [apply list_elem_of_further, list_elem_of_further, list_elem_of_here
              |reflexivity|reflexivity] ]
  end.

Ltac safe_step :=
  match goal with
  | |- context [zget (Body ?f) ?pc] =>
      let E := fresh "E" in
      destruct (zget_is_Some (Body f) pc) as [? E]; [lia|]; rewrite E;
      cbn [mbind OpResult_bind mret OpResult_ret]; clear E
  | |- context [match zget ?l ?i with _ => _ end] =>
      destruct (zget l i); cbn [mbind OpResult_bind mret OpResult_ret]
  | H : covers _ ?r |- safe _ (getInt ?r _) => eapply safe_getInt; [exact H|operand_bound]
  | H : covers _ ?r |- safe _ (getUint ?r _) => eapply safe_getUint; [exact H|operand_bound]
  | H : covers _ ?r |- safe _ (getString ?r _) => eapply safe_getString; [exact H|operand_bound]
  | H : covers _ ?r |- safe _ (getBool ?r _) => eapply safe_getBool; [exact H|operand_bound]
  | H : covers _ ?r |- safe _ (setInt ?r _ _) => eapply safe_setInt; [exact H|operand_bound]
  | H : covers _ ?r |- safe _ (setUint ?r _ _) => eapply safe_setUint; [exact H|operand_bound]
  | H : covers _ ?r |- safe _ (setString ?r _ _) => eapply safe_setString; [exact H|operand_bound]
  | H : covers _ ?r |- safe _ (setBool ?r _ _) => eapply safe_setBool; [exact H|operand_bound]
  | |- safe ?P (withRegisters _ _) =>
      tryif is_evar P then eapply safe_withRegisters
      else (eapply safe_mono; [eapply safe_withRegisters|by intros ? (? & -> & ?)])
  | |- safe _ (_ ≫= _) => eapply safe_bind
  | |- ∀ x, _ → safe _ _ =>
      let x := fresh "x" in let H := fresh "H" in
      intros x H; cbv beta in H; try (destruct H as (? & -> & ?))
  | |- safe _ integerDivideByZero => exact I
  | |- safe _ (boundsError _ _) => exact I
  | |- safe _ (mret _) => cbn [safe mret OpResult_ret]
  | |- covers _ _ => assumption
  | |- context [if ?b then _ else _] => destruct b
  end.

Ltac solve_bounded :=
  intros f [pc r] instr (Hop & Ha & Hb & Hc) Hslot Hnot Hrange Hcovers Hpc Hwords;
  try (exfalso; apply Hnot; reflexivity);
  let Hshape := fresh "Hshape" in let Hlayout := fresh "Hlayout" in
  assert (Hwf : wf_instruction instr) by (by split);
  compute_tables Hwf Hslot Hshape Hlayout; clear Hslot Hnot Hwf;
  unfold decodedWords, operands_in_range in *;
  rewrite ?Hlayout, ?Hshape in *; clear Hshape Hlayout;
  cbn [ProgramCounter registers fst shA shB shC shFlags shReads shWrites WordCount] in *;
  compute_flags; cbv iota in *; specialize (Hrange eq_refl);
  unfold isU in *;
  unfold singleJumpWordCount, extensionJumpWordCount, secondExtensionJumpWordCount in *;
  unfold_operation; cbn [registers ProgramCounter advance] in *;
  repeat (safe_step; cbv beta; cbn [registers ProgramCounter advance] in *).

Lemma bounded_arms : Forall (λ arm, bounded (fst arm) (snd arm)) flatDispatchArms.
Proof. per_arm solve_bounded. Qed.

(** A word that is not an extension word starts an instruction. *)
Lemma skipExtension_le fuel body pc target word :
  zget body target = Some word → iOp word ≠ OpExt → pc <= target →
  skipExtension fuel body pc <= target.
Proof.
  intros Hg Ho. revert pc. induction fuel as [|fuel IH]; intros pc Hle; cbn [skipExtension]; [done|].
  destruct (zget body pc) as [w|] eqn:E; [|done]. case_if; bool_hyps; [|done].
  apply IH. destruct (decide (pc = target)) as [->|]; [congruence|lia].
Qed.

Lemma instruction_at_word body pc word :
  zget body pc = Some word → iOp word ≠ OpExt → instruction_at body 0 pc.
Proof.
  intros Hg Ho. pose proof (zget_Some_range _ _ _ Hg) as Hpc.
  assert (H : ∀ n start, 0 <= start <= pc → pc - start <= Z.of_nat n → instruction_at body start pc).
  { induction n as [|n IH]; intros start Hs Hn.
    - assert (start = pc) as -> by lia. apply instruction_here.
    - destruct (decide (start = pc)) as [->|Hne]; [apply instruction_here|].
      destruct (zget_is_Some body start) as [instr Hi]; [lia|].
      assert (Hend : start < instructionEnd body start instr <= pc).
      { unfold instructionEnd, skipExtensionWords. case_if; [|lia].
        pose proof (skipExtension_ge (length body) body (start + 1)).
        pose proof (skipExtension_le (length body) body (start + 1) pc word Hg Ho). lia. }
      eapply instruction_later; [exact Hi|]. apply IH; lia. }
  apply (H (Z.to_nat pc)); lia.
Qed.

Lemma flatDispatchIndex_main instr op :
  wf_instruction instr → flatDispatchIndex instr = op → 0 < op < 256 → iOp instr = op.
Proof.
  intros (Ho & Ha & Hb & Hc). unfold isU in *.
  unfold flatDispatchIndex, flatHandlerTier1Base, flatHandlerTier2Base, flatHandlerTier3Base.
  case_ifs; lia.
Qed.

Lemma dispatch_extension instr h :
  iOp instr = OpExt → flatDispatchSwitch instr = Some h → h = handleExt.
Proof.
  unfold flatDispatchSwitch, flatDispatchIndex. intros ->.
  change (negb (OpExt =? 0)) with true. cbv iota. intros H. by injection H as <-.
Qed.

Lemma step_stays_in_file f frame instr :
  wf_body (Body f) → body_in_range f → covers f (registers frame) →
  zget (Body f) (ProgramCounter frame) = Some instr → iOp instr ≠ OpTruncateNarrow →
  ProgramCounter frame + decodedWords instr <= zlen (Body f) →
  match dispatchStep f frame with
  | Some rc => safe (λ frame', covers f (registers frame')) rc
  | None => True
  end.
Proof.
  intros Hwf Hrange Hcovers Hg Hnot Hwords.
  destruct (dispatchStep f frame) as [rc|] eqn:Hstep; [|done].
  pose proof (zget_Some_range _ _ _ Hg) as Hpc.
  apply dispatchStep_inv in Hstep as [(_ & ? & _)|(instr' & h & Hg' & Hd & <-)]; [lia|].
  replace instr' with instr in * by congruence. clear Hg'. pose proof (wf_body_zget _ _ _ Hwf Hg) as Hwi.
  destruct (decide (iOp instr = OpExt)) as [He|He].
  { by rewrite (dispatch_extension _ _ He Hd). }
  pose proof (forall_arms _ bounded_arms _ _ Hd) as Hb. apply Hb; [done|done| | |done|lia|done].
  { intros Hslot. apply Hnot. by apply flatDispatchIndex_main. }
  by apply (Hrange _ _ (instruction_at_word _ _ _ Hg He) Hg).
Qed.



(** the gate does not bound an operand whose bank another operand selects:
    it accepts a truncation of integer register 200 in a function that
    declares one integer register, and on the file of that size the handler
    indexes outside it. *)
Theorem dynamic_operands_are_unchecked :
  let f := withIntRegisters 1 (setBody (NewNamedFunction "f")
    [NewInstruction OpTruncateNarrow 200 8 RegisterInt]) in
  let store := {[ 0%nat := f ]} : FunctionStore in
  VerifyLoadedFileSet (λ _, false) store (Some 0%nat) None = Continue ∧
  covers f (NewRegisters [4] [] [] []) ∧
  dispatchStep f (NewCallFrame 0 (NewRegisters [4] [] [] [])) = Some indexPanic.
Proof. cbv zeta. split_and!; [|split|]; vm_compute; congruence. Qed.
