(* ===== verification/Cost.v ===== *)
(** * Cost metering

    The metering half of [internal/engine/vm_run.go]: a virtual machine draws
    chunks of a shared budget into a local counter, charges each instruction
    against the counter before it runs, and aborts when the budget cannot
    refill it.  The budget is an atomic integer that every machine of an
    execution shares; its loads and compare-and-swaps are the steps of the
    interleaved model. *)

From S2P Require Import Prelude SafeConv Register Opcode Instruction Shapes Spec.

Definition CostChunk : Z := 1024.
Definition UnmeteredCostSentinel : Z := -1.

(** The fields of a [VM] that metering reads: the configured budget, the shared
    remainder behind the tracker pointer, which may be [nil], and the local
    counter. *)
Record Meter := NewMeter {
  CostBudget : Z;
  TrackerCostRemaining : option Z;
  CostRemaining : Z;
}.

Definition setCostRemaining (m : Meter) (v : Z) : Meter :=
  NewMeter (CostBudget m) (TrackerCostRemaining m) v.

(** ** One machine, undisturbed

    With no other machine on the tracker the compare-and-swap succeeds at
    once.  A result is the machine and whether the budget is exhausted; [None]
    is the dereference of a [nil] tracker. *)

Definition RefillCostChunk (m : Meter) : option (Meter * bool) :=
  if CostBudget m =? 0 then Some (setCostRemaining m UnmeteredCostSentinel, false)
  else match TrackerCostRemaining m with
  | None => None
  | Some available =>
      if available <=? 0 then Some (m, true)
      else
        let take := Z.min available CostChunk in
        let local := wrapS 64 (CostRemaining m + take) in
        Some (NewMeter (CostBudget m) (Some (available - take)) local, local <=? 0)
  end.

Definition instructionCost (table : CostTable) (instr : Instruction) : Z :=
  default 0 (zget table (FlatIndexFor instr)).

Definition chargeCost (m : Meter) (cost : Z) : option (Meter * bool) :=
  let m := setCostRemaining m (wrapS 64 (CostRemaining m - cost)) in
  if 0 <? CostRemaining m then Some (m, false) else RefillCostChunk m.

Definition chargeInstructionCost (table : CostTable) (m : Meter) (instr : Instruction)
    : option (Meter * bool) :=
  if CostRemaining m =? 0 then
    match RefillCostChunk m with
    | None => None
    | Some (m, exhausted) =>
        if exhausted || (CostRemaining m <? 0) then Some (m, exhausted)
        else chargeCost m (instructionCost table instr)
    end
  else chargeCost m (instructionCost table instr).

Definition AccountForInstructionCost (table : CostTable) (m : Meter) (instr : Instruction)
    : option (Meter * bool) :=
  if CostRemaining m <? 0 then Some (m, false) else chargeInstructionCost table m instr.

Definition SeedCostBudget (m : Meter) : Meter :=
  match TrackerCostRemaining m with
  | Some _ =>
      if CostBudget m =? 0 then setCostRemaining m UnmeteredCostSentinel
      else NewMeter (CostBudget m) (Some (CostBudget m)) 0
  | None => setCostRemaining m UnmeteredCostSentinel
  end.

Definition ReturnUnspentCostChunk (m : Meter) : Meter :=
  match TrackerCostRemaining m with
  | Some shared =>
      if (CostRemaining m <=? 0) || (CostBudget m =? 0) then m
      else NewMeter (CostBudget m) (Some (wrapS 64 (shared + CostRemaining m))) 0
  | None => m
  end.

Definition CostUsed (m : Meter) : Z :=
  match TrackerCostRemaining m with
  | Some shared =>
      if CostBudget m =? 0 then 0
      else wrapS 64 (CostBudget m - wrapS 64 (shared + Z.max (CostRemaining m) 0))
  | None => 0
  end.

(** The charges of a run loop: instruction after instruction, until one is
    refused. *)
Fixpoint chargeAll (table : CostTable) (m : Meter) (instrs : list Instruction)
    : option (Meter * bool) :=
  match instrs with
  | [] => Some (m, false)
  | instr :: rest =>
      match AccountForInstructionCost table m instr with
      | Some (m, false) => chargeAll table m rest
      | other => other
      end
  end.

(** ** Machines that share a tracker

    Each machine is between instructions, about to load the shared remainder,
    about to swap the value it loaded, or refused.  [dispatched] counts the cost of the
    instructions it has been allowed to run. *)

(** What a refill is for: an empty counter before a charge, or a counter the
    charge has drained. *)
Inductive refillReason := beforeCharge (cost : Z) | afterCharge (cost : Z).

Inductive vmPhase :=
  | Running
  | Loading (why : refillReason)
  | Swapping (why : refillReason) (available : Z)
  | Exhausted (why : refillReason).

Record vmCost := NewVmCost {
  local : Z;
  phase : vmPhase;
  dispatched : Z;
}.

Definition startCharge (v : vmCost) (cost : Z) : vmCost :=
  let rest := wrapS 64 (local v - cost) in
  if 0 <? rest then NewVmCost rest Running (dispatched v + cost)
  else NewVmCost rest (Loading (afterCharge cost)) (dispatched v).

(** After a swap that took units. *)
Definition finishRefill (v : vmCost) (why : refillReason) (take : Z) : vmCost :=
  let rest := wrapS 64 (local v + take) in
  if rest <=? 0 then NewVmCost rest (Exhausted why) (dispatched v)
  else match why with
  | beforeCharge cost => startCharge (NewVmCost rest Running (dispatched v)) cost
  | afterCharge cost => NewVmCost rest Running (dispatched v + cost)
  end.

(** One atomic action of a machine; [cost] is that of its next instruction. *)
Definition vmStep (shared : Z) (v : vmCost) (cost : Z) : Z * vmCost :=
  match phase v with
  | Running =>
      if local v =? 0 then (shared, NewVmCost 0 (Loading (beforeCharge cost)) (dispatched v))
      else (shared, startCharge v cost)
  | Loading why =>
      if shared <=? 0 then (shared, NewVmCost (local v) (Exhausted why) (dispatched v))
      else (shared, NewVmCost (local v) (Swapping why shared) (dispatched v))
  | Swapping why available =>
      if shared =? available then
        let take := Z.min available CostChunk in (available - take, finishRefill v why take)
      else (shared, NewVmCost (local v) (Loading why) (dispatched v))
  | Exhausted _ => (shared, v)
  end.

(** A machine between instructions hands its chunk back. *)
Definition vmReturn (shared : Z) (v : vmCost) : Z * vmCost :=
  match phase v with
  | Running =>
      if local v <=? 0 then (shared, v)
      else (wrapS 64 (shared + local v), NewVmCost 0 Running (dispatched v))
  | _ => (shared, v)
  end.

Definition newVm : vmCost := NewVmCost 0 Running 0.

(** Any machine acts, returns its chunk, or a machine is started. *)
Inductive metered (maxCost : Z) : Z * list vmCost → Z * list vmCost → Prop :=
  | metered_step shared vms i v cost :
      vms !! i = Some v → 0 <= cost <= maxCost →
      metered maxCost (shared, vms)
        (fst (vmStep shared v cost), <[i := snd (vmStep shared v cost)]> vms)
  | metered_return shared vms i v :
      vms !! i = Some v →
      metered maxCost (shared, vms) (fst (vmReturn shared v), <[i := snd (vmReturn shared v)]> vms)
  | metered_spawn shared vms : metered maxCost (shared, vms) (shared, vms ++ [newVm]).

(** ** Arithmetic of a charge *)

Lemma wrapS64_id x : isS 64 x → wrapS 64 x = x.
Proof. by apply wrapS_id. Qed.

Definition totalCost (table : CostTable) (instrs : list Instruction) : Z :=
  foldr (λ instr total, instructionCost table instr + total) 0 instrs.

(** Every entry of the table is at most a chunk, as the default table's are. *)
Definition chunkable (table : CostTable) : Prop := Forall (λ c, 0 <= c <= CostChunk) table.

#[export] Instance chunkable_dec table : Decision (chunkable table).
Proof. unfold chunkable. apply _. Defined.

Lemma instructionCost_range table instr :
  chunkable table → 0 <= instructionCost table instr <= CostChunk.
Proof.
  intros H. unfold instructionCost. destruct (zget table (FlatIndexFor instr)) as [c|] eqn:E.
  - pose proof (zget_Some_range _ _ _ E). rewrite zget_lookup in E by lia.
    unfold chunkable in H. rewrite Forall_lookup in H. by apply H in E.
  - cbn. unfold CostChunk. lia.
Qed.

(** A machine alone on its tracker, after charges of [spent]. *)
Record metering (budget spent : Z) (m : Meter) : Prop := {
  mt_budget : CostBudget m = budget;
  mt_shared : ∃ shared, TrackerCostRemaining m = Some shared ∧ 0 <= shared ∧
    shared + CostRemaining m + spent = budget;
  mt_local : 0 <= CostRemaining m;
}.

Definition refused (budget spent : Z) (r : option (Meter * bool)) : Prop :=
  ∃ m exhausted, r = Some (m, exhausted) ∧ exhausted = (budget <=? spent) ∧
    (exhausted = false → metering budget spent m ∧ 0 < CostRemaining m).

Lemma RefillCostChunk_spec budget spent m :
  0 < budget <= MaxInt64 → 0 <= spent → CostBudget m = budget →
  (∃ shared, TrackerCostRemaining m = Some shared ∧ 0 <= shared ∧
    shared + CostRemaining m + spent = budget) →
  - CostChunk < CostRemaining m <= 0 → refused budget spent (RefillCostChunk m).
Proof.
  intros HB Hs Hb (shared & Ht & Hsh & Hsum) Hl. unfold RefillCostChunk. rewrite Ht, Hb.
  case_if; bool_hyps; [lia|]. unfold CostChunk in *. case_if; bool_hyps.
  - exists m, true. split; [done|]. split; [symmetry; apply Z.leb_le; lia|done].
  - cbv zeta. rewrite wrapS64_id by word. eexists _, _. split; [done|]. split.
    + destruct (Z.min_spec shared 1024) as [[? ->]|[? ->]];
        destruct (budget <=? spent) eqn:E'; bool_hyps; first [apply Z.leb_le|apply Z.leb_gt]; lia.
    + intros Hpos. bool_hyps. split; [|done]. split; cbn; [done| |lia]. eexists. split; [done|]. lia.
Qed.

Lemma chargeCost_spec budget spent m cost :
  0 < budget <= MaxInt64 → 0 <= spent → metering budget spent m → 0 < CostRemaining m →
  0 <= cost <= CostChunk → refused budget (spent + cost) (chargeCost m cost).
Proof.
  intros HB Hs [Hb (shared & Ht & Hsh & Hsum) Hl] Hpos Hc. unfold chargeCost. cbv zeta.
  unfold CostChunk in *.
  rewrite wrapS64_id by word. cbn [CostRemaining setCostRemaining]. case_if; bool_hyps.
  - eexists _, _. split; [done|]. split; [symmetry; apply Z.leb_gt; lia|].
    intros _. split; [|done]. split; cbn; [done| |lia]. eexists. split; [done|]. lia.
  - apply RefillCostChunk_spec; cbn; [done|lia|done| |unfold CostChunk; lia].
    exists shared. split; [done|]. lia.
Qed.

Lemma AccountForInstructionCost_spec table budget spent m instr :
  0 < budget <= MaxInt64 → chunkable table → 0 <= spent < budget → metering budget spent m →
  refused budget (spent + instructionCost table instr) (AccountForInstructionCost table m instr).
Proof.
  intros HB Htable Hs Hm. pose proof (instructionCost_range table instr Htable) as Hc.
  pose proof Hm as [Hb (shared & Ht & Hsh & Hsum) Hl].
  unfold AccountForInstructionCost. case_if; bool_hyps; [lia|].
  unfold chargeInstructionCost. case_if; bool_hyps.
  2: { apply chargeCost_spec; [done|lia|done|lia|done]. }
  destruct (RefillCostChunk_spec budget spent m HB) as (m' & e & -> & He & Hm');
    [lia|done|by exists shared|unfold CostChunk; lia|].
  destruct (budget <=? spent) eqn:E'; bool_hyps; [lia|]. subst e.
  destruct (Hm' eq_refl) as [Hmet Hpos]. cbn [orb]. case_if; bool_hyps; [lia|].
  apply chargeCost_spec; [done|lia|done..].
Qed.

Lemma totalCost_nonneg table instrs : chunkable table → 0 <= totalCost table instrs.
Proof.
  intros H. induction instrs as [|instr rest IH]; cbn; [done|].
  pose proof (instructionCost_range table instr H). unfold totalCost in *. lia.
Qed.

Lemma chargeAll_spec table budget spent m instrs :
  0 < budget <= MaxInt64 → chunkable table → 0 <= spent < budget → metering budget spent m →
  ∃ m' exhausted, chargeAll table m instrs = Some (m', exhausted) ∧
    exhausted = (budget <=? spent + totalCost table instrs) ∧
    (exhausted = false → metering budget (spent + totalCost table instrs) m').
Proof.
  intros HB Htable. revert spent m. induction instrs as [|instr rest IH]; intros spent m Hs Hm.
  { exists m, false. cbn. rewrite Z.add_0_r. split; [done|].
    split; [symmetry; apply Z.leb_gt; lia|done]. }
  cbn [chargeAll totalCost foldr].
  pose proof (instructionCost_range table instr Htable) as Hc.
  pose proof (totalCost_nonneg table rest Htable) as Hrest. unfold totalCost in Hrest.
  destruct (AccountForInstructionCost_spec table budget spent m instr HB Htable Hs Hm)
    as (m' & e & -> & He & Hm').
  destruct (budget <=? spent + instructionCost table instr) eqn:E; bool_hyps; subst e.
  - exists m', true. split; [done|]. split; [symmetry; apply Z.leb_le; lia|done].
  - destruct (Hm' eq_refl) as [Hmet _].
    destruct (IH (spent + instructionCost table instr) m') as (m'' & e & -> & He & Hm''); [lia|done|].
    unfold totalCost in *. rewrite Z.add_assoc. by exists m'', e.
Qed.

(** a machine alone on its tracker runs exactly the programs that cost
    less than the budget: seeded with any positive budget, under a table whose
    entries fit a chunk, a sequence of instructions is refused if and only if
    its total cost reaches the budget, a tracker is never missing, and the
    cost reported after a sequence that was not refused is its total. *)
Theorem budget_admits_what_costs_less table m shared instrs :
  chunkable table → TrackerCostRemaining m = Some shared → 0 < CostBudget m <= MaxInt64 →
  ∃ m' exhausted, chargeAll table (SeedCostBudget m) instrs = Some (m', exhausted) ∧
    (exhausted = true ↔ CostBudget m <= totalCost table instrs) ∧
    (exhausted = false → CostUsed m' = totalCost table instrs).
Proof.
  intros Htable Ht HB. unfold SeedCostBudget. rewrite Ht. case_if; bool_hyps; [lia|].
  destruct (chargeAll_spec table (CostBudget m) 0
    (NewMeter (CostBudget m) (Some (CostBudget m)) 0) instrs HB Htable)
    as (m' & e & -> & He & Hm'); [lia| |].
  { split; cbn; [done| |lia]. eexists. split; [done|]. lia. }
  exists m', e. split; [done|]. split.
  - subst e. rewrite Z.leb_le. done.
  - intros Hf. pose proof (totalCost_nonneg table instrs Htable).
    destruct (Hm' Hf) as [Hb (s & Hs & Hnn & Hsum) Hl]. unfold CostUsed. rewrite Hs, Hb.
    case_if; bool_hyps; [lia|]. rewrite (Z.max_l (CostRemaining m')) by lia.
    assert (Hsub : CostBudget m - (s + CostRemaining m') = totalCost table instrs) by lia.
    rewrite (wrapS64_id (s + CostRemaining m')) by word. rewrite Hsub. apply wrapS64_id. word.
Qed.

Theorem budget_admits_what_costs_less_witness :
  let instrs := [NewInstruction OpAddInt 0 0 0; NewInstruction OpAddInt 0 0 0] in
  totalCost DefaultCostTable instrs = 2 ∧
  ∃ m' exhausted, chargeAll DefaultCostTable (SeedCostBudget (NewMeter 3 (Some 0) 0)) instrs =
    Some (m', exhausted) ∧ (exhausted = true ↔ 3 <= totalCost DefaultCostTable instrs) ∧
    (exhausted = false → CostUsed m' = totalCost DefaultCostTable instrs).
Proof.
  cbv zeta. split; [vm_compute; reflexivity|].
  apply (budget_admits_what_costs_less DefaultCostTable (NewMeter 3 (Some 0) 0) 0).
  - eapply bool_decide_unpack. vm_compute. exact I.
  - reflexivity.
  - vm_compute. split; congruence.
Defined.

(** a refusal does not mean what the documentation of the limit says.  The
    limit is documented as the error of a cost that exceeds the budget, and a
    refill as failing when the shared budget cannot cover the deficit; but a
    program that costs exactly its budget is refused, and so is one
    instruction of cost 3000 under a budget of a million, because a refill
    takes a single chunk. *)
Theorem refusals_within_the_budget :
  let instr := NewInstruction OpAddInt 0 0 0 in
  let dear := replicate 1024 3000 in
  (totalCost DefaultCostTable [instr] = 1 ∧
   ∃ m, chargeAll DefaultCostTable (SeedCostBudget (NewMeter 1 (Some 0) 0)) [instr] = Some (m, true)) ∧
  (totalCost dear [instr] = 3000 ∧
   ∃ m, chargeAll dear (SeedCostBudget (NewMeter 1000000 (Some 0) 0)) [instr] = Some (m, true)).
Proof.
  cbv zeta. split; (split; [vm_compute; reflexivity|eexists; vm_compute; reflexivity]).
Qed.

(** ** The interleaved machines *)

Section sum.
Context {A : Type} (f : A → Z).

Definition Zsum (l : list A) : Z := foldr (λ x total, f x + total) 0 l.

Lemma Zsum_app l k : Zsum (l ++ k) = Zsum l + Zsum k.
Proof. induction l as [|x l IH]; cbn; [done|]. unfold Zsum in *. lia. Qed.

Lemma Zsum_insert l i x y : l !! i = Some x → Zsum (<[i := y]> l) = Zsum l - f x + f y.
Proof.
  revert i. induction l as [|z l IH]; intros [|i] Hi; [done|done|injection Hi as ->|].
  - cbn. lia.
  - change (Zsum (<[S i := y]> (z :: l))) with (f z + Zsum (<[i := y]> l)).
    change (Zsum (z :: l)) with (f z + Zsum l). rewrite (IH i Hi). lia.
Qed.

Lemma Zsum_nonneg l : Forall (λ x, 0 <= f x) l → 0 <= Zsum l.
Proof. induction 1; cbn; [done|]. unfold Zsum in *. lia. Qed.

Lemma Zsum_elem l i x : Forall (λ x, 0 <= f x) l → l !! i = Some x → f x <= Zsum l.
Proof.
  intros Hl. revert i. induction Hl as [|z l Hz Hl IH]; intros [|i]; cbn; try done.
  - intros [= ->]. pose proof (Zsum_nonneg l Hl). unfold Zsum in *. lia.
  - intros Hi. specialize (IH i Hi). unfold Zsum in *. lia.
Qed.
End sum.

(** What a machine has been charged for an instruction it has not run. *)
Definition owed (v : vmCost) : Z :=
  match phase v with
  | Running => 0
  | Loading why | Swapping why _ | Exhausted why =>
      match why with beforeCharge _ => 0 | afterCharge cost => cost end
  end.

(** The units a machine has drawn: in its counter, owed, and dispatched. *)
Definition drawn (v : vmCost) : Z := local v + owed v + dispatched v.

Definition refill_ok (maxCost local : Z) (why : refillReason) : Prop :=
  match why with
  | beforeCharge cost => local = 0 ∧ 0 <= cost <= maxCost
  | afterCharge cost => 0 <= cost <= maxCost ∧ local <= 0 < local + cost
  end.

Definition vm_ok (maxCost : Z) (v : vmCost) : Prop :=
  0 <= dispatched v ∧
  match phase v with
  | Running => 0 <= local v
  | Loading why | Exhausted why => refill_ok maxCost (local v) why
  | Swapping why available => refill_ok maxCost (local v) why ∧ 0 < available
  end.

Lemma vm_ok_drawn maxCost v : vm_ok maxCost v → 0 <= dispatched v <= drawn v.
Proof.
  unfold vm_ok, drawn, owed. destruct v as [l p d]; cbn.
  destruct p as [|why|why a|why]; try destruct why; cbn; lia.
Qed.

Lemma startCharge_ok maxCost v cost :
  0 <= cost <= maxCost → maxCost <= MaxInt64 → 0 < local v <= MaxInt64 → 0 <= dispatched v →
  vm_ok maxCost (startCharge v cost) ∧
  drawn (startCharge v cost) = local v + dispatched v.
Proof.
  intros Hc HC Hl Hd. unfold startCharge. cbv zeta. rewrite wrapS64_id by word.
  unfold vm_ok, drawn, owed. case_if; bool_hyps; cbn; lia.
Qed.

Lemma finishRefill_ok maxCost v why take :
  refill_ok maxCost (local v) why → maxCost <= MaxInt64 → 0 <= dispatched v →
  0 < take → local v + take <= MaxInt64 →
  (∃ a, phase v = Swapping why a) →
  vm_ok maxCost (finishRefill v why take) ∧ drawn (finishRefill v why take) = drawn v + take.
Proof.
  intros Hr HC Hd Ht Hle [a Hp]. unfold finishRefill. cbv zeta.
  rewrite wrapS64_id by (destruct why; cbn in Hr; word).
  assert (Hv : drawn v = local v +
    match why with beforeCharge _ => 0 | afterCharge cost => cost end + dispatched v)
    by (unfold drawn, owed; by rewrite Hp).
  rewrite Hv. destruct why as [cost|cost]; cbn in Hr.
  - case_if; bool_hyps; [lia|].
    destruct (startCharge_ok maxCost (NewVmCost (local v + take) Running (dispatched v)) cost)
      as [Hok Heq]; cbn; [lia..|]. split; [done|]. rewrite Heq. cbn. lia.
  - unfold vm_ok, drawn, owed. case_if; bool_hyps; cbn; lia.
Qed.

(** One action neither creates nor destroys units. *)
Lemma vmStep_ok maxCost budget shared v cost :
  vm_ok maxCost v → 0 <= cost <= maxCost → maxCost <= MaxInt64 → budget <= MaxInt64 →
  0 <= shared → shared + drawn v <= budget →
  vm_ok maxCost (snd (vmStep shared v cost)) ∧ 0 <= fst (vmStep shared v cost) ∧
  fst (vmStep shared v cost) + drawn (snd (vmStep shared v cost)) = shared + drawn v.
Proof.
  intros Hok Hc HC HB Hs Hsum. pose proof (vm_ok_drawn _ _ Hok) as Hd.
  pose proof Hok as [Hdis Hphase]. unfold vmStep.
  destruct (phase v) as [|why|why available|why] eqn:Hp.
  - unfold drawn, owed in Hsum, Hd |- *. rewrite Hp in *. case_if; bool_hyps; cbn [fst snd].
    + unfold vm_ok, owed. cbn. lia.
    + destruct (startCharge_ok maxCost v cost) as [Hok' Heq]; [lia..|].
      unfold drawn, owed in Heq. split; [done|]. rewrite Heq. lia.
  - case_if; bool_hyps; cbn [fst snd]; (split; [by split; cbn|]);
      unfold drawn, owed; cbn; rewrite Hp; lia.
  - destruct Hphase as [Hr Ha]. case_if; bool_hyps; cbn [fst snd].
    + subst shared. pose proof (Z.le_min_l available CostChunk).
      assert (0 < Z.min available CostChunk) by (unfold CostChunk; lia).
      destruct (finishRefill_ok maxCost v why (Z.min available CostChunk) Hr) as [Hok' Heq];
        [done|done|done| |by exists available|].
      { unfold drawn, owed in Hsum, Hd. rewrite Hp in *. destruct why; cbn in Hr; lia. }
      split; [done|]. lia.
    + split; [by split; cbn|]. unfold drawn, owed. cbn. rewrite Hp. lia.
  - cbn [fst snd]. split; [done|]. lia.
Qed.

Lemma vmReturn_ok maxCost budget shared v :
  vm_ok maxCost v → budget <= MaxInt64 → 0 <= shared → shared + drawn v <= budget →
  vm_ok maxCost (snd (vmReturn shared v)) ∧ 0 <= fst (vmReturn shared v) ∧
  fst (vmReturn shared v) + drawn (snd (vmReturn shared v)) = shared + drawn v.
Proof.
  intros Hok HB Hs Hsum. unfold vmReturn. pose proof Hok as [Hd Hp'].
  destruct (phase v) eqn:Hp; try (cbn [fst snd]; split; [done|lia]).
  case_if; bool_hyps; cbn [fst snd]; [split; [done|lia]|].
  unfold drawn, owed in *. rewrite Hp in *. rewrite wrapS64_id by word.
  unfold vm_ok. cbn. lia.
Qed.

Definition within (maxCost budget : Z) (s : Z * list vmCost) : Prop :=
  0 <= fst s ∧ Forall (vm_ok maxCost) (snd s) ∧ fst s + Zsum drawn (snd s) = budget.

Lemma within_drawn maxCost budget s :
  within maxCost budget s → Forall (λ v, 0 <= drawn v) (snd s).
Proof.
  intros (_ & H & _). eapply Forall_impl; [exact H|]. intros v Hv.
  apply vm_ok_drawn in Hv. cbn. lia.
Qed.

Lemma metered_within maxCost budget s s' :
  maxCost <= MaxInt64 → budget <= MaxInt64 →
  metered maxCost s s' → within maxCost budget s → within maxCost budget s'.
Proof.
  intros HC HB Hstep Hw. pose proof (within_drawn _ _ _ Hw) as Hnn.
  destruct Hw as (Hs & Hok & Hsum).
  assert (Hkeep : ∀ i v shared', snd s !! i = Some v →
    (vm_ok maxCost v → fst s + drawn v <= budget →
      vm_ok maxCost (snd shared') ∧ 0 <= fst shared' ∧
      fst shared' + drawn (snd shared') = fst s + drawn v) →
    within maxCost budget (fst shared', <[i := snd shared']> (snd s))).
  { intros i v [shared' v'] Hi Hv.
    pose proof (Zsum_elem drawn _ i v Hnn Hi) as Hle.
    destruct Hv as (Hok' & Hs' & Heq); [by eapply Forall_lookup_1|lia|]. cbn [fst snd] in *.
    split; [done|]. split; [by apply Forall_insert|]. cbn [fst snd].
    rewrite (Zsum_insert drawn _ i v v' Hi). lia. }
  destruct Hstep as [shared vms i v cost Hi Hc|shared vms i v Hi|shared vms]; cbn [fst snd] in *.
  - eapply (Hkeep i v (vmStep shared v cost) Hi). intros Hv Hle. by eapply vmStep_ok.
  - eapply (Hkeep i v (vmReturn shared v) Hi). intros Hv Hle. by eapply vmReturn_ok.
  - split; [done|]. cbn [fst snd]. split.
    + apply Forall_app. split; [done|]. apply Forall_singleton. split; cbn; lia.
    + rewrite Zsum_app. change (Zsum drawn [newVm]) with 0. lia.
Qed.

Lemma metered_runs_within maxCost budget s s' :
  maxCost <= MaxInt64 → budget <= MaxInt64 →
  rtc (metered maxCost) s s' → within maxCost budget s → within maxCost budget s'.
Proof.
  intros HC HB. induction 1 as [s|s s1 s2 Hstep _ IH]; [done|].
  intros Hw. apply IH. by eapply metered_within.
Qed.

Lemma Zsum_le {A} (f g : A → Z) l : Forall (λ x, f x <= g x) l → Zsum f l <= Zsum g l.
Proof. induction 1; cbn; [done|]. unfold Zsum in *. lia. Qed.



(** ** One machine of the interleaving is the sequential code *)

Definition alone (n : nat) (shared : Z) (v : vmCost) (cost : Z) : Z * vmCost :=
  Nat.iter n (λ s, vmStep (fst s) (snd s) cost) (shared, v).

(** The state of the interleaving in which a sequential charge ends. *)
Definition charged (m : Meter) (exhausted : bool) (s : Z * vmCost) : Prop :=
  TrackerCostRemaining m = Some (fst s) ∧ CostRemaining m = local (snd s) ∧
  if exhausted then ∃ why, phase (snd s) = Exhausted why else phase (snd s) = Running.

Lemma alone_later n k shared v cost :
  alone (n + k) shared v cost = alone n (fst (alone k shared v cost)) (snd (alone k shared v cost)) cost.
Proof. unfold alone. rewrite Nat.iter_add. by rewrite <- surjective_pairing. Qed.

Lemma refill_alone budget shared rest cost cost' spent :
  0 < budget →
  ∃ m' exhausted n, RefillCostChunk (NewMeter budget (Some shared) rest) = Some (m', exhausted) ∧
    (n <= 2)%nat ∧
    charged m' exhausted (alone n shared (NewVmCost rest (Loading (afterCharge cost)) spent) cost').
Proof.
  intros HB. unfold RefillCostChunk. cbn [CostBudget TrackerCostRemaining CostRemaining].
  case_if; bool_hyps; [lia|]. destruct (shared <=? 0) eqn:E'.
  - eexists _, _, 1%nat. split; [done|]. split; [lia|]. cbn. rewrite E'. unfold charged. cbn. eauto.
  - eexists _, _, 2%nat. split; [done|]. split; [lia|]. cbn. rewrite E'. cbn. rewrite Z.eqb_refl.
    unfold charged, finishRefill. cbn. case_if; cbn; eauto.
Qed.

Lemma chargeCost_alone budget shared l cost spent :
  0 < budget → l ≠ 0 →
  ∃ m' exhausted n, chargeCost (NewMeter budget (Some shared) l) cost = Some (m', exhausted) ∧
    (n <= 2)%nat ∧
    charged m' exhausted (alone n shared (startCharge (NewVmCost l Running spent) cost) cost).
Proof.
  intros HB Hl. unfold chargeCost, startCharge. cbv zeta.
  cbn [CostRemaining setCostRemaining CostBudget TrackerCostRemaining local dispatched].
  case_if; [|by apply refill_alone].
  eexists _, _, 0%nat. split; [done|]. split; [lia|]. done.
Qed.

(** a machine nobody disturbs does in at most five atomic actions what
    the charge of one instruction does in one call: between instructions,
    with a counter that is not negative, the sequential charge and the
    machine of the interleaving end with the same shared remainder, the same
    counter and the same verdict. *)
Theorem charge_is_an_undisturbed_run table budget shared v instr :
  0 < budget → 0 <= shared → phase v = Running → 0 <= local v <= MaxInt64 →
  let m := NewMeter budget (Some shared) (local v) in
  ∃ m' exhausted n, chargeInstructionCost table m instr = Some (m', exhausted) ∧ (n <= 5)%nat ∧
    charged m' exhausted (alone n shared v (instructionCost table instr)).
Proof.
  intros HB Hs Hp Hl m. destruct v as [l p d]. cbn in Hp, Hl. subst p.
  set (cost := instructionCost table instr).
  unfold chargeInstructionCost. fold cost. unfold m. cbn [CostRemaining local].
  destruct (l =? 0) eqn:El; bool_hyps.
  2: { destruct (chargeCost_alone budget shared l cost d HB El) as (m' & e & n & Hr & Hn & Hc).
       exists m', e, (n + 1)%nat. split; [done|]. split; [lia|]. rewrite alone_later. cbn.
       by rewrite (proj2 (Z.eqb_neq l 0) El). }
  subst l. unfold RefillCostChunk. cbn [CostBudget TrackerCostRemaining CostRemaining].
  destruct (budget =? 0) eqn:EB; bool_hyps; [lia|]. destruct (shared <=? 0) eqn:E'.
  { eexists _, _, 2%nat. split; [done|]. split; [lia|]. cbn. rewrite E'. unfold charged. cbn. eauto. }
  bool_hyps. cbv zeta. set (take := Z.min shared CostChunk).
  assert (Ht : 0 < take <= 1024) by (unfold take, CostChunk; lia).
  rewrite wrapS64_id by word. destruct (0 + take <=? 0) eqn:E1; bool_hyps; [lia|].
  cbn [orb CostRemaining]. destruct (0 + take <? 0) eqn:E2; bool_hyps; [lia|].
  destruct (chargeCost_alone budget (shared - take) (0 + take) cost d HB)
    as (m' & e & n & Hr & Hn & Hc); [lia|].
  exists m', e, (n + 3)%nat. split; [done|]. split; [lia|]. rewrite alone_later.
  assert (H3 : alone 3 shared (NewVmCost 0 Running d) cost =
    (shared - take, startCharge (NewVmCost (0 + take) Running d) cost)).
  { cbn. destruct (shared <=? 0) eqn:E3; bool_hyps; [lia|]. cbn. rewrite Z.eqb_refl.
    unfold finishRefill. fold take. cbn [local dispatched]. rewrite wrapS64_id by word.
    by destruct (0 + take <=? 0) eqn:E4; bool_hyps; [lia|]. }
  by rewrite H3.
Qed.

Theorem charge_is_an_undisturbed_run_witness :
  let m := NewMeter 300 (Some 300) 0 in
  let instr := NewInstruction OpAddInt 0 0 0 in
  chargeInstructionCost DefaultCostTable m instr = Some (NewMeter 300 (Some 0) 299, false) ∧
  ∃ m' exhausted n, chargeInstructionCost DefaultCostTable m instr = Some (m', exhausted) ∧
    (n <= 5)%nat ∧
    charged m' exhausted (alone n 300 newVm (instructionCost DefaultCostTable instr)).
Proof.
  cbv zeta. split; [vm_compute; reflexivity|].
  apply (charge_is_an_undisturbed_run DefaultCostTable 300 300 newVm); [lia|lia|reflexivity|].
  cbn. word.
Defined.
