(* ===== verification/FuseNarrow.v ===== *)
(** * The pass that fuses 32-bit truncations

    [internal/compile/passes/function_fuse_narrow32.go]: an integer operation
    followed by the 32-bit truncation of its result becomes one narrow
    operation, and the truncation a no-op.  The pass is proved against the
    interpreter: the rewritten body computes what the old one did. *)

From S2P Require Import Prelude SafeConv Register Opcode Instruction Shapes Spec JumpLayout Jumps.
From S2P Require Import Extension Function Verify VerifySound Machine MachineSafe MachineFlow.

Definition narrow32Width : Z := 32.

Definition nop : Instruction := NewInstruction OpNop 0 0 0.

Definition isCanonicalNop (instr : Instruction) : bool :=
  (iOp instr =? OpDrillTier1) && (iA instr =? SubOpDrillTier2)
  && (iB instr =? SubOpTier2DrillTier3) && (iC instr =? SubOpTier3Nop).

(** The fused instruction with the bank and register of the destination. *)
Definition narrow32Tier2Form (inst : Instruction) : option (Instruction * RegisterKind * Z) :=
  if InstrIsTier2SubOp inst SubOpTier2IncInt
  then Some (NewTier2Instruction SubOpTier2IncInt32 (iC inst), RegisterInt, iC inst)
  else if InstrIsTier2SubOp inst SubOpTier2DecInt
  then Some (NewTier2Instruction SubOpTier2DecInt32 (iC inst), RegisterInt, iC inst)
  else None.

Definition withOp (inst : Instruction) (op : Opcode) : Instruction :=
  NewInstruction op (iA inst) (iB inst) (iC inst).

Definition narrow32Form (inst : Instruction) : option (Instruction * RegisterKind * Z) :=
  let op := iOp inst in
  if op =? OpAddInt then Some (withOp inst OpAddInt32, RegisterInt, iA inst)
  else if op =? OpSubInt then Some (withOp inst OpSubInt32, RegisterInt, iA inst)
  else if op =? OpMulInt then Some (withOp inst OpMulInt32, RegisterInt, iA inst)
  else if op =? OpAddIntConst then Some (withOp inst OpAddInt32Const, RegisterInt, iA inst)
  else if op =? OpSubIntConst then Some (withOp inst OpSubInt32Const, RegisterInt, iA inst)
  else if op =? OpAddUint then Some (withOp inst OpAddUint32, RegisterUint, iA inst)
  else if op =? OpDrillTier1 then narrow32Tier2Form inst
  else None.

(** The loop of [followingTruncation]: [next] grows, so the body's length is
    enough fuel. *)
Fixpoint followingTruncationFrom (fuel : nat) (body : list Instruction) (jumpTargets : gset Z)
    (next : Z) (kind : RegisterKind) (reg : Z) : option Z :=
  match fuel with
  | O => None
  | S fuel =>
      match zget body next with
      | None => None
      | Some inst =>
          if bool_decide (next ∈ jumpTargets) then None
          else if isCanonicalNop inst
          then followingTruncationFrom fuel body jumpTargets (next + 1) kind reg
          else if (iOp inst =? OpTruncateNarrow) && (iA inst =? reg)
               && (iB inst =? narrow32Width) && (iC inst =? kind)
          then Some next else None
      end
  end.

Definition followingTruncation (body : list Instruction) (jumpTargets : gset Z) (pc : Z)
    (kind : RegisterKind) (reg : Z) : option Z :=
  followingTruncationFrom (length body) body jumpTargets (pc + 1) kind reg.

Fixpoint nextNonNopFrom (fuel : nat) (body : list Instruction) (pc : Z) : Z :=
  match fuel with
  | O => pc
  | S fuel =>
      match zget body pc with
      | Some inst => if isCanonicalNop inst then nextNonNopFrom fuel body (pc + 1) else pc
      | None => pc
      end
  end.

Definition nextNonNop (body : list Instruction) (pc : Z) : Z :=
  nextNonNopFrom (length body) body pc.

Definition feedsMaskedReturn (body : list Instruction) (pc : Z) : bool :=
  let next := nextNonNop body (pc + 1) in
  let next :=
    match zget body next with
    | Some inst => if InstrIsTier1SubOp inst SubOpMoveUint then nextNonNop body (next + 1) else next
    | None => next
    end in
  match zget body next with
  | Some inst => IsReturnInstruction inst
  | None => false
  end.

(** One turn of the loop over the body. *)
Definition fuseAt (jumpTargets : gset Z) (state : list Instruction * bool) (pc : Z)
    : list Instruction * bool :=
  let '(body, changed) := state in
  match inst ← zget body pc; narrow32Form inst with
  | None => state
  | Some (fused, kind, dest) =>
      match followingTruncation body jumpTargets pc kind dest with
      | None => state
      | Some truncation =>
          if (kind =? RegisterUint) && feedsMaskedReturn body truncation then state
          else (zset (zset body pc fused) truncation nop, true)
      end
  end.

Definition fuseNarrow32 (body : list Instruction) (jumpTargets : gset Z)
    : list Instruction * bool :=
  foldl (fuseAt jumpTargets) (body, false) (seqZ 0 (zlen body)).

(** ** Running a body to its end *)

Inductive outcome :=
  | reachedEnd (frame : CallFrame)
  | stopped (rc : OpResult CallFrame)
  | unmodelled (frame : CallFrame)
  | stillRunning.

(** At most [fuel] steps. *)
Fixpoint execute (fuel : nat) (f : CompiledFunction) (frame : CallFrame) : outcome :=
  match fuel with
  | O => stillRunning
  | S fuel =>
      if zlen (Body f) <=? ProgramCounter frame then reachedEnd frame
      else match dispatchStep f frame with
      | None => unmodelled frame
      | Some (opContinue frame) => execute fuel f frame
      | Some rc => stopped rc
      end
  end.

(** The words an instruction spans: itself, its extension words, and the
    padding a fusion left. *)
Definition span (instr : Instruction) : Z :=
  match fst (JumpLayoutOf instr) with
  | JumpLayoutNone =>
      if hasFlag (shFlags (ShapeForInstruction instr)) ShapeFlagFollowsExtension then 2 else 1
  | _ => JumpFootprint instr
  end.

(** A body as the builder and the fusions lay it out: every modelled
    instruction has its extension words, and spans only extension words and
    padding. *)
Definition laid_out (body : list Instruction) : Prop :=
  ∀ pc instr h, zget body pc = Some instr → flatDispatchSwitch instr = Some h →
    well_extended body pc instr ∧
    ∀ j, pc < j < pc + span instr →
      ∃ word, zget body j = Some word ∧ (iOp word = OpExt ∨ isCanonicalNop word = true).

(** ** One fusion *)

Definition truncation32 (kind : RegisterKind) (dest : Z) : Instruction :=
  NewInstruction OpTruncateNarrow dest narrow32Width kind.

(** What the fused handler computes, against the handler it replaces. *)
Definition fuses (instr fused : Instruction) (kind : RegisterKind) (dest : Z)
    (wide narrow : Handler) : Prop :=
  ∀ f body frame,
    narrow (setBody f body) frame fused =
      (frame' ← wide f frame instr; HandleTruncateNarrow f frame' (truncation32 kind dest)) ∧
    ∀ frame', wide f frame instr = opContinue frame' →
      ProgramCounter frame' = ProgramCounter frame ∧
      ∃ r, HandleTruncateNarrow f frame' (truncation32 kind dest) =
        opContinue (NewCallFrame (ProgramCounter frame') r).

Lemma setInt_then_truncate f frame slot v frame' :
  withRegisters frame (setInt (registers frame) slot v) = opContinue frame' →
  ProgramCounter frame' = ProgramCounter frame ∧
  ∃ r, HandleTruncateNarrow f frame' (truncation32 RegisterInt slot) =
    opContinue (NewCallFrame (ProgramCounter frame') r).
Proof.
  intros Hset. pose proof (truncate_after_setInt f frame slot v) as Ht.
  rewrite Hset in Ht. cbn [mbind OpResult_bind] in Ht. unfold truncation32, narrow32Width.
  rewrite Ht. revert Hset. unfold setInt, setReg.
  destruct (zget (Ints (registers frame)) slot); [|done]. cbn. intros [= <-]. cbn. eauto.
Qed.

Lemma setUint_then_truncate f frame slot v frame' :
  withRegisters frame (setUint (registers frame) slot v) = opContinue frame' →
  ProgramCounter frame' = ProgramCounter frame ∧
  ∃ r, HandleTruncateNarrow f frame' (truncation32 RegisterUint slot) =
    opContinue (NewCallFrame (ProgramCounter frame') r).
Proof.
  intros Hset. pose proof (truncate_after_setUint f frame slot v) as Ht.
  rewrite Hset in Ht. cbn [mbind OpResult_bind] in Ht. unfold truncation32, narrow32Width.
  rewrite Ht. revert Hset. unfold setUint, setReg.
  destruct (zget (Uints (registers frame)) slot); [|done]. cbn. intros [= <-]. cbn. eauto.
Qed.

Ltac solve_form_fuses :=
  intros f body frame; cbn [snd]; unfold truncation32, narrow32Width;
  cbv beta zeta delta [handleAddInt32 handleSubInt32 handleMulInt32 handleAddInt32Const
    handleSubInt32Const handleIncInt32 handleDecInt32 handleAddUint32 handleAddInt handleSubInt
    handleMulInt handleAddIntConst handleSubIntConst handleIncInt handleDecInt handleAddUint
    binaryInt binaryUint intConst updateInt reshapeTier2 withOp NewTier2Instruction];
  cbn [iOp iA iB iC IntConstants setBody];
  repeat match goal with
  | |- context [match zget ?l ?i with _ => _ end] => destruct (zget l i); [|done]
  | |- context [getInt ?r ?i] => destruct (getInt r i); [|done..]
  | |- context [getUint ?r ?i] => destruct (getUint r i); [|done..]
  end; cbn [mbind OpResult_bind] in *;
  (split; [symmetry; (apply truncate_after_setInt || apply truncate_after_setUint)
          |intros ? Hrun; first [exact (setInt_then_truncate _ _ _ _ _ Hrun)
                                |exact (setUint_then_truncate _ _ _ _ _ Hrun)]]).

Lemma dispatch_main op a b c h :
  op ≠ 0 → findArm op flatDispatchArms = Some h →
  flatDispatchSwitch (NewInstruction op a b c) = Some h.
Proof.
  intros Ho Hf. unfold flatDispatchSwitch, flatDispatchIndex. cbn [iOp].
  by rewrite (proj2 (Z.eqb_neq op 0) Ho).
Qed.

(** Every form of the pass is a fusion of two arms of the dispatch. *)
Lemma narrow32Form_fuses instr fused kind dest :
  narrow32Form instr = Some (fused, kind, dest) →
  ∃ wide narrow, flatDispatchSwitch instr = Some wide ∧ flatDispatchSwitch fused = Some narrow ∧
    fuses instr fused kind dest wide narrow.
Proof.
  destruct instr as [op a b c]. unfold narrow32Form, narrow32Tier2Form, withOp.
  cbn [iOp iA iB iC].
  repeat match goal with
  | |- (if op =? ?o then _ else _) = _ → _ =>
      destruct (op =? o) eqn:?; bool_hyps; [subst op|]
  end; try discriminate.
  7: { unfold InstrIsTier2SubOp; cbn [iOp iA iB].
       case_if; bool_hyps; [|case_if; bool_hyps; [|done]]; subst; intros [= <- <- <-];
         (eexists _, _; split; [reflexivity|]; split; [reflexivity|]; solve_form_fuses). }
  all: intros [= <- <- <-]; eexists _, _;
    (split; [apply dispatch_main; [done|reflexivity]|]);
    (split; [apply dispatch_main; [done|reflexivity]|]); solve_form_fuses.
Qed.

(** A handler reads the body only in the words its instruction spans. *)
Definition reads_own_words (slot : Z) (h : Handler) : Prop :=
  ∀ f body frame instr,
    wf_instruction instr → flatDispatchIndex instr = slot →
    (∀ j, ProgramCounter frame < j < ProgramCounter frame + span instr →
      zget body j = zget (Body f) j) →
    h (setBody f body) (advance frame 1) instr = h f (advance frame 1) instr.

Ltac solve_own_words :=
  intros f body [pc r] instr Hwf Hslot Hsame;
  let Hshape := fresh "Hshape" in let Hlayout := fresh "Hlayout" in
  compute_tables Hwf Hslot Hshape Hlayout; clear Hslot;
  unfold span, JumpFootprint in Hsame; cbn [ProgramCounter registers] in *;
  rewrite ?Hlayout, ?Hshape in Hsame; clear Hshape Hlayout; cbn in Hsame;
  compute_flags; cbv iota in Hsame;
  unfold singleJumpWordCount, extensionJumpWordCount, secondExtensionJumpWordCount,
    EqUintConstJumpFalseNopCount, RangeCheckUintFusionNopCount in Hsame;
  unfold_operation;
  cbn [registers ProgramCounter advance Body IntConstants UintConstants StringConstants setBody];
  first
    [ reflexivity
    | repeat match goal with
      | |- context [zget body ?j] => rewrite (Hsame j) by lia
      | |- context [getInt ?r ?i] => destruct (getInt r i)
      | |- context [getUint ?r ?i] => destruct (getUint r i)
      | |- context [getString ?r ?i] => destruct (getString r i)
      | |- context [match zget ?l ?i with _ => _ end] => destruct (zget l i)
      | |- context [setInt ?r ?i ?v] => destruct (setInt r i v)
      | _ => progress cbn [mbind OpResult_bind mret OpResult_ret withRegisters registers
               ProgramCounter advance]
      end; reflexivity ].

Lemma reads_own_words_arms :
  Forall (λ arm, reads_own_words (fst arm) (snd arm)) flatDispatchArms.
Proof. per_arm solve_own_words. Qed.

Lemma isCanonicalNop_nop w : isCanonicalNop w = true → w = nop.
Proof.
  destruct w as [op a b c]. unfold isCanonicalNop; cbn [iOp iA iB iC].
  intros H. bool_hyps. by subst.
Qed.

Lemma narrow32Form_op instr r : narrow32Form instr = Some r →
  iOp instr ≠ OpExt ∧ isCanonicalNop instr = false ∧ iOp instr ≠ OpTruncateNarrow.
Proof.
  intros H. split_and!.
  - intros E. unfold narrow32Form in H. by rewrite E in H.
  - destruct (isCanonicalNop instr) eqn:E; [|done]. by apply isCanonicalNop_nop in E as ->.
  - intros E. unfold narrow32Form in H. by rewrite E in H.
Qed.

(** An operation at [pc], its truncation at [t], and what lies between. *)
Record site (targets : gset Z) (body : list Instruction) (pc t : Z)
    (instr fused : Instruction) (kind : RegisterKind) (dest : Z) : Prop := {
  st_op : zget body pc = Some instr;
  st_form : narrow32Form instr = Some (fused, kind, dest);
  st_after : pc < t;
  st_truncation : zget body t = Some (truncation32 kind dest);
  st_nops : ∀ j, pc < j < t → zget body j = Some nop;
  st_targets : ∀ j, pc < j <= t → j ∉ targets;
}.

Lemma followingTruncationFrom_spec fuel body targets next kind reg t :
  followingTruncationFrom fuel body targets next kind reg = Some t →
  next <= t ∧ zget body t = Some (truncation32 kind reg) ∧
  (∀ j, next <= j < t → zget body j = Some nop) ∧ (∀ j, next <= j <= t → j ∉ targets).
Proof.
  revert next. induction fuel as [|fuel IH]; intros next; cbn [followingTruncationFrom]; [done|].
  destruct (zget body next) as [inst|] eqn:Eg; [|done].
  case_bool_decide as Ht; [done|]. destruct (isCanonicalNop inst) eqn:En.
  - intros (Hle & Hg & Hnops & Htargets)%IH. apply isCanonicalNop_nop in En as ->.
    split; [lia|]. split; [done|]. split; intros j Hj;
      (destruct (decide (j = next)) as [->|]; [done|]; [apply Hnops || apply Htargets; lia..]).
  - case_if; [|done]. intros [= <-]. bool_hyps. split; [lia|].
    split; [destruct inst as [op a b c]; cbn in *; by subst|]. split; [intros; lia|].
    intros j Hj. by replace j with next by lia.
Qed.

Lemma followingTruncation_site targets body pc t instr fused kind dest :
  zget body pc = Some instr → narrow32Form instr = Some (fused, kind, dest) →
  followingTruncation body targets pc kind dest = Some t →
  site targets body pc t instr fused kind dest.
Proof.
  intros Hg Hform (Hle & Ht & Hn & Htg)%followingTruncationFrom_spec.
  split; try done; [lia| |]; intros j Hj; [apply Hn|apply Htg]; lia.
Qed.

Definition rewritten (body : list Instruction) (pc t : Z) (fused : Instruction)
    : list Instruction := zset (zset body pc fused) t nop.

Lemma withRegisters_continue pc rs m r :
  withRegisters (NewCallFrame pc rs) m = opContinue (NewCallFrame pc r) ↔ m = opContinue r.
Proof. destruct m; cbn; split; try done; by intros [= ->]. Qed.

Lemma HandleTruncateNarrow_advance f x instr r n :
  HandleTruncateNarrow f x instr = opContinue (NewCallFrame (ProgramCounter x) r) →
  HandleTruncateNarrow f (advance x n) instr =
    opContinue (advance (NewCallFrame (ProgramCounter x) r) n).
Proof.
  unfold HandleTruncateNarrow, advance. destruct x as [p rs]. cbv zeta.
  cbn [registers ProgramCounter]. case_if; by rewrite !withRegisters_continue.
Qed.

Lemma dispatchStep_at g x i h :
  zget (Body g) (ProgramCounter x) = Some i → flatDispatchSwitch i = Some h →
  dispatchStep g x = Some (h g (advance x 1) i).
Proof.
  intros Hg Hd. pose proof (zget_Some_range _ _ _ Hg). unfold dispatchStep.
  case_if; bool_hyps; [lia|]. by rewrite Hg, Hd.
Qed.

(** A step goes to the jump target of its instruction, or, past a word that is
    not a terminator, over the words the instruction spans. *)
Lemma step_goes f x i h y :
  wf_body (Body f) → laid_out (Body f) →
  zget (Body f) (ProgramCounter x) = Some i → flatDispatchSwitch i = Some h →
  h f (advance x 1) i = opContinue y →
  JumpTargetAt (Body f) (ProgramCounter x) = Some (ProgramCounter y) ∨
  (ProgramCounter y = ProgramCounter x + span i ∧ 1 <= span i ∧
   hasFlag (shFlags (ShapeForInstruction i)) ShapeFlagTerminator = false).
Proof.
  intros Hwf Hlaid Hg Hd Hrun. destruct (Hlaid _ _ _ Hg Hd) as [Hext _].
  pose proof (forall_arms _ flows_arms _ _ Hd) as Hf.
  pose proof (Hf f x i y (wf_body_zget _ _ _ Hwf Hg) eq_refl Hg Hext Hrun) as Htarget.
  destruct Htarget as [[Hjump _]|[Hnext Hterm]]; [by left|].
  right. assert (Hnext' : ProgramCounter y = ProgramCounter x + span i).
  { rewrite Hnext. unfold nextPC, span, well_extended in *.
    destruct (fst (JumpLayoutOf i)); [|done..].
    destruct (hasFlag _ ShapeFlagFollowsExtension); [|done].
    destruct (Hext eq_refl) as [H1 H2]. rewrite skipExtensionWords_one; [lia|done|].
    by replace (ProgramCounter x + 1 + 1) with (ProgramCounter x + 2) by lia. }
  split; [done|]. pose proof (nextPC_gt (Body f) (ProgramCounter x) i). split; [lia|done].
Qed.

Lemma JumpTargetAt_elem body pc t : JumpTargetAt body pc = Some t → t ∈ JumpTargetsOf body.
Proof.
  intros Hj. unfold JumpTargetsOf. apply elem_of_list_to_set, list_elem_of_omap.
  exists pc. split; [|done]. apply elem_of_seqZ. unfold JumpTargetAt in Hj.
  destruct (zget body pc) eqn:Hg; [|done]. pose proof (zget_Some_range _ _ _ Hg). lia.
Qed.

Lemma step_successor f x i h y :
  wf_body (Body f) → laid_out (Body f) →
  zget (Body f) (ProgramCounter x) = Some i → flatDispatchSwitch i = Some h →
  h f (advance x 1) i = opContinue y →
  ProgramCounter y ∈ JumpTargetsOf (Body f) ∨
  (ProgramCounter y = ProgramCounter x + span i ∧ 1 <= span i).
Proof.
  intros Hwf Hlaid Hg Hd Hrun.
  destruct (step_goes _ _ _ _ _ Hwf Hlaid Hg Hd Hrun) as [Hj|(? & ? & _)]; [left|by right].
  by eapply JumpTargetAt_elem.
Qed.

Section one_fusion.
Context (f : CompiledFunction) (targets : gset Z) (pc t : Z) (instr fused : Instruction)
  (kind : RegisterKind) (dest : Z).
Context (Hsite : site targets (Body f) pc t instr fused kind dest).
Context (Hwf : wf_body (Body f)) (Hlaid : laid_out (Body f)).
Context (Htargets : JumpTargetsOf (Body f) ⊆ targets).

#[local] Notation body' := (rewritten (Body f) pc t fused).
#[local] Notation f' := (setBody f body').

Lemma rewritten_length : length body' = length (Body f).
Proof. unfold rewritten. by rewrite !length_zset. Qed.

Lemma rewritten_other j : j ≠ pc → j ≠ t → zget body' j = zget (Body f) j.
Proof. intros. unfold rewritten. by rewrite !zget_zset_ne by done. Qed.

Lemma rewritten_op : zget body' pc = Some fused.
Proof.
  destruct Hsite as [Hop _ Hlt _ _ _]. pose proof (zget_Some_range _ _ _ Hop).
  unfold rewritten. rewrite zget_zset_ne by lia. by apply zget_zset_eq.
Qed.

Lemma rewritten_truncation : zget body' t = Some nop.
Proof.
  destruct Hsite as [_ _ _ Htr _ _]. pose proof (zget_Some_range _ _ _ Htr).
  unfold rewritten. apply zget_zset_eq. by rewrite length_zset.
Qed.

(** The frames of the two runs: the same, or between the operation and its
    truncation with the truncation still to come. *)
Inductive related : CallFrame → CallFrame → Prop :=
  | related_same x : ¬ (pc < ProgramCounter x <= t) → related x x
  | related_pending x r :
      pc < ProgramCounter x <= t →
      HandleTruncateNarrow f x (truncation32 kind dest) =
        opContinue (NewCallFrame (ProgramCounter x) r) →
      related x (NewCallFrame (ProgramCounter x) r).

(** Where a step outside the gap can go. *)
Lemma step_stays_out x i h y :
  ¬ (pc < ProgramCounter x <= t) → ProgramCounter x ≠ pc →
  zget (Body f) (ProgramCounter x) = Some i → flatDispatchSwitch i = Some h →
  h f (advance x 1) i = opContinue y → ¬ (pc < ProgramCounter y <= t).
Proof.
  intros Hout Hne Hg Hd Hrun Hy. destruct (Hlaid _ _ _ Hg Hd) as [_ Hspan].
  destruct (step_successor f x i h y Hwf Hlaid Hg Hd Hrun) as [Hjump|[Hnext Hpos]].
  - apply (st_targets _ _ _ _ _ _ _ _ Hsite (ProgramCounter y) Hy). by apply Htargets.
  - destruct (decide (ProgramCounter x < pc)).
    + destruct (Hspan pc) as (w & Hw & Hor); [lia|].
      destruct Hsite as [Hop Hform _ _ _ _]. rewrite Hop in Hw. injection Hw as <-.
      apply narrow32Form_op in Hform as (? & Hnop & _). destruct Hor; [done|congruence].
    + pose proof (st_after _ _ _ _ _ _ _ _ Hsite). lia.
Qed.

Lemma step_lock x x' :
  related x x' →
  match dispatchStep f x with
  | None => dispatchStep f' x' = None ∧ (ProgramCounter x < zlen (Body f) → x = x')
  | Some (opContinue y) => ∃ y', dispatchStep f' x' = Some (opContinue y') ∧ related y y'
  | Some rc => dispatchStep f' x' = Some rc
  end.
Proof.
  pose proof Hsite as [Hop Hform Hlt Htr Hnops _].
  destruct 1 as [x Hout|x r Hin Htrunc].
  - destruct (zget (Body f) (ProgramCounter x)) as [i|] eqn:Hg.
    2: { unfold dispatchStep. cbn [Body setBody]. rewrite rewritten_length.
         rewrite rewritten_other, Hg by (intros ?; congruence). case_if; eauto. }
    destruct (decide (ProgramCounter x = pc)) as [Hpc|Hne].
    + rewrite Hpc in Hg. rewrite Hop in Hg. injection Hg as <-.
      destruct (narrow32Form_fuses _ _ _ _ Hform) as (wide & narrow & Hw & Hn & Hfuses).
      destruct (Hfuses f body' (advance x 1)) as [Heq Hthen].
      rewrite (dispatchStep_at f x instr wide) by (done || by rewrite Hpc).
      rewrite (dispatchStep_at f' x fused narrow);
        [|cbn [Body setBody]; rewrite Hpc; apply rewritten_op|done].
      rewrite Heq. destruct (wide f (advance x 1) instr) as [y| | |] eqn:Hrun; try done.
      destruct (Hthen y eq_refl) as [Hy [r Hr]]. cbn [mbind OpResult_bind]. rewrite Hr.
      eexists. split; [done|]. apply related_pending; [|done]. rewrite Hy.
      destruct x as [p rs]; cbn in Hpc |- *. lia.
    + assert (Hg' : zget body' (ProgramCounter x) = Some i).
      { rewrite rewritten_other; [done|done|]. lia. }
      destruct (flatDispatchSwitch i) as [h|] eqn:Hd.
      2: { unfold dispatchStep. cbn [Body setBody]. rewrite rewritten_length, Hg, Hg', Hd.
           case_if; by cbn. }
      rewrite (dispatchStep_at f x i h Hg Hd), (dispatchStep_at f' x i h Hg' Hd).
      destruct (Hlaid _ _ _ Hg Hd) as [_ Hspan].
      assert (Hsame : h f' (advance x 1) i = h f (advance x 1) i).
      { pose proof (forall_arms _ reads_own_words_arms _ _ Hd) as Hr.
        apply Hr; [by eapply wf_body_zget|done|]. intros j Hj.
        destruct (Hspan j Hj) as (w & Hw & Hor). apply rewritten_other.
        - intros ->. rewrite Hop in Hw. injection Hw as <-.
          apply narrow32Form_op in Hform as (? & ? & _). destruct Hor; [done|congruence].
        - intros ->. rewrite Htr in Hw. injection Hw as <-. by destruct Hor. }
      rewrite Hsame. destruct (h f (advance x 1) i) as [y| | |] eqn:Hrun; try done.
      exists y. split; [done|]. apply related_same. by eapply step_stays_out.
  - set (x' := NewCallFrame (ProgramCounter x) r) in *.
    destruct (decide (ProgramCounter x = t)) as [Ht|Hne].
    + rewrite (dispatchStep_at f x (truncation32 kind dest) HandleTruncateNarrow);
        [|by rewrite Ht|reflexivity].
      rewrite (dispatchStep_at f' x' nop handleFlatSubOpTier3Nop);
        [|cbn [Body setBody x' ProgramCounter]; rewrite Ht; apply rewritten_truncation|reflexivity].
      assert (Hadv : HandleTruncateNarrow f (advance x 1) (truncation32 kind dest) =
        opContinue (advance x' 1)) by (by apply HandleTruncateNarrow_advance).
      rewrite Hadv. exists (advance x' 1). split; [done|]. apply related_same. cbn. lia.
    + assert (Hg : zget (Body f) (ProgramCounter x) = Some nop) by (apply Hnops; lia).
      rewrite (dispatchStep_at f x nop handleFlatSubOpTier3Nop); [|done|reflexivity].
      rewrite (dispatchStep_at f' x' nop handleFlatSubOpTier3Nop);
        [|cbn [Body setBody x' ProgramCounter]; by rewrite rewritten_other by lia|reflexivity].
      exists (advance x' 1). split; [done|]. apply related_pending; [cbn; lia|].
      by apply HandleTruncateNarrow_advance.
Qed.

Lemma execute_lock fuel x x' : related x x' → execute fuel f x = execute fuel f' x'.
Proof.
  revert x x'. induction fuel as [|fuel IH]; intros x x' Hr; [done|]. cbn [execute].
  assert (Hpc : ProgramCounter x' = ProgramCounter x) by (by destruct Hr).
  cbn [Body setBody]. rewrite rewritten_length, Hpc. case_if; bool_hyps.
  - destruct Hr as [x|x r Hin _]; [done|]. destruct Hsite as [_ _ _ Htr _ _].
    apply zget_Some_range in Htr. lia.
  - pose proof (step_lock x x' Hr) as Hs. destruct (dispatchStep f x) as [[y| | |]|].
    + destruct Hs as (y' & -> & Hy). by apply IH.
    + by rewrite Hs.
    + by rewrite Hs.
    + by rewrite Hs.
    + destruct Hs as [-> Heq]. by rewrite Heq.
Qed.
End one_fusion.

(** ** Every fusion of a body *)

(** A word that is not part of a longer instruction, and starts none. *)
Definition plain (w : Instruction) : Prop :=
  fst (JumpLayoutOf w) = JumpLayoutNone ∧
  hasFlag (shFlags (ShapeForInstruction w)) ShapeFlagFollowsExtension = false ∧ iOp w ≠ OpExt.

Lemma narrow32Form_plain instr fused kind dest :
  wf_instruction instr → narrow32Form instr = Some (fused, kind, dest) →
  plain instr ∧ plain fused ∧ wf_instruction fused.
Proof.
  destruct instr as [op a b c]. intros (Ho & Ha & Hb & Hc).
  unfold narrow32Form, narrow32Tier2Form. cbn [iOp iA iB iC] in *.
  repeat match goal with
  | |- (if op =? ?o then _ else _) = _ → _ => destruct (op =? o) eqn:?; bool_hyps; [subst op|]
  end; try discriminate.
  7: { unfold InstrIsTier2SubOp; cbn [iOp iA iB iC].
       case_if; bool_hyps; [|case_if; bool_hyps; [|done]]; subst; intros [= <- <- <-];
         (split; [split; [reflexivity|split; [reflexivity|done]]|]);
         (split; [split; [reflexivity|split; [reflexivity|done]]|]);
         unfold NewTier2Instruction, wf_instruction; cbn [iOp iA iB iC];
         (split; [done|split; [by apply wrapU_range|split; [by apply wrapU_range|done]]]). }
  all: intros [= <- <- <-].
  all: (split; [split; [reflexivity|split; [reflexivity|done]]|]).
  all: (split; [split; [reflexivity|split; [reflexivity|done]]|]).
  all: unfold withOp, wf_instruction; cbn [iOp iA iB iC]; (split; [|done]).
  all: eapply bool_decide_unpack; vm_compute; exact I.
Qed.

Lemma plain_truncation kind dest : plain (truncation32 kind dest).
Proof. split; [reflexivity|]. split; [reflexivity|done]. Qed.
Lemma plain_nop : plain nop.
Proof. split; [reflexivity|]. split; [reflexivity|done]. Qed.

Section plain_word.
Context (body : list Instruction) (j : Z) (w w' : Instruction).
Context (Hg : zget body j = Some w) (Hw : plain w) (Hw' : plain w').

Lemma plain_zget k : zget (zset body j w') k = if k =? j then Some w' else zget body k.
Proof.
  case_if; bool_hyps; [subst|by rewrite zget_zset_ne].
  apply zget_zset_eq. by eapply zget_Some_range.
Qed.

Lemma plain_extension k : extensionWordAt (zset body j w') k = extensionWordAt body k.
Proof.
  unfold extensionWordAt. rewrite plain_zget. case_if; bool_hyps; [subst k|done].
  rewrite Hg. destruct Hw as (_ & _ & H1), Hw' as (_ & _ & H2).
  by rewrite (proj2 (Z.eqb_neq _ _) H1), (proj2 (Z.eqb_neq _ _) H2).
Qed.

Lemma plain_jump k : JumpTargetAt (zset body j w') k = JumpTargetAt body k.
Proof.
  unfold JumpTargetAt. rewrite plain_zget. case_if; bool_hyps.
  - subst k. rewrite Hg. destruct Hw as (H1 & _), Hw' as (H2 & _).
    destruct (JumpLayoutOf w) as [l n], (JumpLayoutOf w') as [l' n']. cbn in *. by subst.
  - destruct (zget body k) as [i|]; [|done]. destruct (JumpLayoutOf i) as [l n].
    by destruct l; rewrite ?plain_extension.
Qed.

Lemma plain_targets : JumpTargetsOf (zset body j w') = JumpTargetsOf body.
Proof.
  unfold JumpTargetsOf. rewrite length_zset. f_equal.
  induction (seqZ 0 (zlen body)) as [|k l IH]; [done|]. cbn. by rewrite plain_jump, IH.
Qed.

Lemma plain_laid_out : isCanonicalNop w = false → laid_out body → laid_out (zset body j w').
Proof.
  intros Hnop Hlaid pc instr h Hpc Hd. rewrite plain_zget in Hpc.
  destruct (pc =? j) eqn:E; bool_hyps.
  - injection Hpc as <-. destruct Hw' as (H1 & H2 & _). unfold well_extended, span.
    rewrite H1, H2. split; [done|]. intros k Hk. lia.
  - destruct (Hlaid pc instr h Hpc Hd) as [Hext Hspan]. split.
    + unfold well_extended in *. by destruct (fst (JumpLayoutOf instr)); rewrite ?plain_extension.
    + intros k Hk. destruct (Hspan k Hk) as (x & Hx & Hor). exists x. split; [|done].
      rewrite plain_zget. case_if; bool_hyps; [|done]. subst k. rewrite Hg in Hx.
      injection Hx as <-. destruct Hw as (_ & _ & H3). destruct Hor; [done|congruence].
Qed.
End plain_word.

(** What a fusion keeps of a body, for the next one. *)
Definition fusable (f : CompiledFunction) (targets : gset Z) (body : list Instruction) : Prop :=
  wf_body body ∧ laid_out body ∧ JumpTargetsOf body = targets ∧
  ∀ fuel frame, ProgramCounter frame = 0 → execute fuel (setBody f body) frame = execute fuel f frame.

Lemma execute_setBody f fuel frame : execute fuel (setBody f (Body f)) frame = execute fuel f frame.
Proof. by destruct f. Qed.

Lemma fuseAt_fusable f targets body changed pc body' changed' :
  0 <= pc → fusable f targets body → fuseAt targets (body, changed) pc = (body', changed') →
  fusable f targets body'.
Proof.
  intros Hpc (Hwf & Hlaid & Htargets & Hexec). unfold fuseAt.
  destruct (zget body pc) as [instr|] eqn:Hg; cbn [mbind option_bind]; [|by intros [= <- <-]].
  destruct (narrow32Form instr) as [[[fused kind] dest]|] eqn:Hform; [|by intros [= <- <-]].
  destruct (followingTruncation body targets pc kind dest) as [t|] eqn:Ht; [|by intros [= <- <-]].
  case_if; [by intros [= <- <-]|]. intros [= <- <-].
  pose proof (followingTruncation_site _ _ _ _ _ _ _ _ Hg Hform Ht) as Hsite.
  pose proof Hsite as [_ _ Hlt Htr _ _].
  pose proof (wf_body_zget _ _ _ Hwf Hg) as Hwi.
  destruct (narrow32Form_plain _ _ _ _ Hwi Hform) as (Hp & Hp' & Hwf').
  destruct (narrow32Form_op _ _ Hform) as (_ & Hnop & _).
  assert (Htr' : zget (zset body pc fused) t = Some (truncation32 kind dest))
    by (rewrite zget_zset_ne by lia; done).
  pose proof (plain_truncation kind dest) as Hpt. pose proof plain_nop as Hpn.
  split; [|split; [|split]].
  - by repeat apply wf_body_zset.
  - apply (plain_laid_out _ _ _ _ Htr' Hpt Hpn); [done|].
    by apply (plain_laid_out _ _ _ _ Hg Hp Hp').
  - rewrite (plain_targets _ _ _ _ Htr' Hpt Hpn), (plain_targets _ _ _ _ Hg Hp Hp'). done.
  - intros fuel frame H0. rewrite <- (Hexec fuel frame H0).
    symmetry. erewrite (execute_lock (setBody f body) targets pc t instr fused kind dest);
      [reflexivity|done|done|done|cbn [Body setBody]; set_solver|].
    apply related_same. lia.
Qed.

(** C4: the pass preserves what a function computes.  Run from its entry on any
    registers, the rewritten body ends the same way as the old one after
    the same number of steps: at the end with the same registers, with the
    same error, or at the same unmodelled operation; and it ends exactly when
    the old one does. *)
Theorem fuse_narrow32_preserves_execution f fuel frame :
  wf_body (Body f) → laid_out (Body f) → ProgramCounter frame = 0 →
  execute fuel (setBody f (fst (fuseNarrow32 (Body f) (JumpTargetsOf (Body f))))) frame =
  execute fuel f frame.
Proof.
  intros Hwf Hlaid H0. unfold fuseNarrow32.
  assert (Hfold : ∀ pcs state, Forall (λ pc, 0 <= pc) pcs →
    fusable f (JumpTargetsOf (Body f)) (fst state) →
    fusable f (JumpTargetsOf (Body f)) (fst (foldl (fuseAt (JumpTargetsOf (Body f))) state pcs))).
  { intros pcs. induction pcs as [|pc pcs IH]; intros [body changed] Hpcs Hstate; [done|].
    apply Forall_cons in Hpcs as [Hpc Hpcs]. cbn [foldl]. apply IH; [done|].
    destruct (fuseAt (JumpTargetsOf (Body f)) (body, changed) pc) as [body' changed'] eqn:E.
    by eapply fuseAt_fusable. }
  apply (Hfold (seqZ 0 (zlen (Body f))) (Body f, false)); [| |done].
  - apply Forall_forall. intros pc Hpc%elem_of_seqZ. lia.
  - split; [done|]. split; [done|]. split; [done|]. intros. apply execute_setBody.
Qed.

Definition sample_narrow : CompiledFunction :=
  setBody (NewNamedFunction "f")
    [NewInstruction OpAddInt 0 0 1; nop; truncation32 RegisterInt 0;
     NewTier1Instruction SubOpJump 0 0].

Theorem fuse_narrow32_preserves_execution_witness :
  let start := NewCallFrame 0 (NewRegisters [MaxInt32; 1] [] [] []) in
  fst (fuseNarrow32 (Body sample_narrow) (JumpTargetsOf (Body sample_narrow))) =
    [NewInstruction OpAddInt32 0 0 1; nop; nop; NewTier1Instruction SubOpJump 0 0] ∧
  execute 9 sample_narrow start = reachedEnd (NewCallFrame 4 (NewRegisters [MinInt32; 1] [] [] [])) ∧
  execute 9 (setBody sample_narrow
    (fst (fuseNarrow32 (Body sample_narrow) (JumpTargetsOf (Body sample_narrow))))) start =
  execute 9 sample_narrow start.
Proof.
  cbv zeta. split; [vm_compute; reflexivity|]. split; [vm_compute; reflexivity|].
  apply fuse_narrow32_preserves_execution; [| |reflexivity].
  - split; [eapply bool_decide_unpack; vm_compute; exact I|vm_compute; congruence].
  - intros pc instr h Hg Hd. pose proof (zget_Some_range _ _ _ Hg) as Hr.
    change (zlen (Body sample_narrow)) with 4 in Hr.
    assert (pc = 0 ∨ pc = 1 ∨ pc = 2 ∨ pc = 3) as [-> | [-> | [-> | ->]]] by lia;
      injection Hg as <-;
      (split; [vm_compute; try done; eauto|intros j Hj; change (span _) with 1 in Hj; lia]).
Defined.
