(* ===== verification/TruncElide.v ===== *)
(** * The pass that elides redundant truncations

    [internal/compile/passes/function_truncate_elision.go]: a 32-bit
    truncation after a 32-bit mask, and a 32-bit mask after a 32-bit
    truncation, are removed.  The first elision is proved to preserve what a
    function computes where its test is exact; closed theorems show where
    the tests of both are not. *)

From S2P Require Import Prelude SafeConv Register Opcode Instruction Shapes Spec JumpLayout Jumps.
From S2P Require Import Extension Function Verify VerifySound Machine MachineSafe MachineFlow.
From S2P Require Import FuseNarrow.

Definition minTruncateAfterBitAndWindow : Z := 3.
Definition minBitAndAfterTruncateWindow : Z := 4.
Definition truncateNarrowWidth32 : Z := 32.
Definition uint32Mask : Z := 0xFFFFFFFF.

Inductive uintRegReadDecision := uintRegReadContinue | uintRegReadSafe | uintRegReadEscapes.

(** The constant at an index of the pool is the mask. *)
Definition isUint32Mask (f : CompiledFunction) (constantIndex : Z) : bool :=
  match zget (UintConstants f) constantIndex with
  | Some v => v =? uint32Mask
  | None => false
  end.

(** ** A truncation after a mask *)

Definition matchesTruncateAfterBitAnd (f : CompiledFunction) (body : list Instruction) (i : Z)
    (jumpTargets : gset Z) : bool :=
  match zget body i, zget body (i + 1), zget body (i + 2) with
  | Some mask, Some ext, Some truncation =>
      (iOp mask =? OpDrillTier1) && (iA mask =? SubOpBitAndUintConst)
      && (iOp ext =? OpExt)
      && (iOp truncation =? OpTruncateNarrow)
      && (iA truncation =? iB mask)
      && (iB truncation =? truncateNarrowWidth32)
      && isUint32Mask f (iA ext)
      && negb (bool_decide (i + 2 ∈ jumpTargets))
  | _, _, _ => false
  end.

Definition elideTruncateAt (f : CompiledFunction) (jumpTargets : gset Z) (body : list Instruction)
    (i : Z) : list Instruction :=
  if matchesTruncateAfterBitAnd f body i jumpTargets then zset body (i + 2) nop else body.

(** The body after the call. *)
Definition elideRedundantTruncateAfterBitAnd (f : CompiledFunction) (body : list Instruction)
    : list Instruction :=
  if zlen body <? minTruncateAfterBitAndWindow then body
  else foldl (elideTruncateAt f (JumpTargetsOf body)) body (seqZ 0 (zlen body - 2)).

(** ** A mask after a truncation *)

Fixpoint skipTrailingNopsFrom (fuel : nat) (body : list Instruction) (moveIndex : Z) : Z :=
  match fuel with
  | O => moveIndex
  | S fuel =>
      match zget body moveIndex with
      | Some w =>
          if (iOp w =? OpDrillTier1) && (iA w =? 0) && (iB w =? 0) && (iC w =? 0)
          then skipTrailingNopsFrom fuel body (moveIndex + 1) else moveIndex
      | None => moveIndex
      end
  end.

Definition skipTrailingNops (body : list Instruction) (startIndex : Z) : Z :=
  skipTrailingNopsFrom (length body) body startIndex.

Definition classifyUintRegReadTier1 (instr : Instruction) (reg : Z) : uintRegReadDecision :=
  if one_of (iA instr) [SubOpMoveUint; SubOpBitAndUintConst; SubOpAddUintConst; SubOpSubUintConst]
  then if iC instr =? reg then uintRegReadEscapes else uintRegReadContinue
  else if iA instr =? SubOpLoadUintConstSmall then uintRegReadContinue
  else if iA instr =? SubOpDrillTier2
  then if iB instr =? SubOpTier2Return then uintRegReadSafe else uintRegReadEscapes
  else uintRegReadEscapes.

Definition classifyUintRegRead (instr : Instruction) (reg : Z) : uintRegReadDecision :=
  if (iOp instr =? OpDrillTier1) && (iA instr =? 0) && (iB instr =? 0) && (iC instr =? 0)
  then uintRegReadContinue
  else if one_of (iOp instr) [OpAddUint; OpSubUint; OpMulUint; OpEqUint; OpGeUint; OpLeUint]
  then if (iB instr =? reg) || (iC instr =? reg) then uintRegReadEscapes else uintRegReadContinue
  else if iOp instr =? OpTruncateNarrow
  then if iA instr =? reg then uintRegReadEscapes else uintRegReadContinue
  else if iOp instr =? OpDrillTier1 then classifyUintRegReadTier1 instr reg
  else uintRegReadEscapes.

Fixpoint uintRegReadFrom (fuel : nat) (body : list Instruction) (j reg : Z)
    (jumpTargets : gset Z) : bool :=
  match fuel with
  | O => false
  | S fuel =>
      match zget body j with
      | None => false
      | Some instr =>
          if bool_decide (j ∈ jumpTargets) then true
          else match classifyUintRegRead instr reg with
          | uintRegReadContinue => uintRegReadFrom fuel body (j + 1) reg jumpTargets
          | uintRegReadSafe => false
          | uintRegReadEscapes => true
          end
      end
  end.

Definition uintRegReadAfter (body : list Instruction) (startIndex reg : Z) (jumpTargets : gset Z)
    : bool := uintRegReadFrom (length body) body startIndex reg jumpTargets.

(** The register kept as the source of the move, and where the move is. *)
Definition matchBitAndAfterTruncate (f : CompiledFunction) (body : list Instruction) (i : Z)
    (jumpTargets : gset Z) : option (Z * Z) :=
  match zget body i, zget body (i + 1), zget body (i + 2) with
  | Some truncation, Some mask, Some ext =>
      let x := iA truncation in
      let y := iB mask in
      if negb ((iOp truncation =? OpTruncateNarrow) && (iB truncation =? truncateNarrowWidth32)
          && (iOp mask =? OpDrillTier1) && (iA mask =? SubOpBitAndUintConst)
          && (iC mask =? x) && (iOp ext =? OpExt) && isUint32Mask f (iA ext)) then None
      else
        let moveIndex := skipTrailingNops body (i + minTruncateAfterBitAndWindow) in
        match zget body moveIndex with
        | None => None
        | Some move =>
            if negb ((iOp move =? OpDrillTier1) && (iA move =? SubOpMoveUint) && (iC move =? y))
            then None
            else if bool_decide (i + 1 ∈ jumpTargets) || bool_decide (i + 2 ∈ jumpTargets)
                 || bool_decide (moveIndex ∈ jumpTargets) then None
            else if uintRegReadAfter body (moveIndex + 1) y jumpTargets then None
            else Some (x, moveIndex)
        end
  | _, _, _ => None
  end.

Definition elideBitAndAt (f : CompiledFunction) (jumpTargets : gset Z) (body : list Instruction)
    (i : Z) : list Instruction :=
  match matchBitAndAfterTruncate f body i jumpTargets with
  | None => body
  | Some (x, moveIndex) =>
      let moved :=
        match zget body moveIndex with
        | Some move => zset body moveIndex (NewInstruction (iOp move) (iA move) (iB move) x)
        | None => body
        end in
      zset (zset moved (i + 1) nop) (i + 2) nop
  end.

Definition elideRedundantBitAndAfterTruncate (f : CompiledFunction) (body : list Instruction)
    : list Instruction :=
  if zlen body <? minBitAndAfterTruncateWindow then body
  else foldl (elideBitAndAt f (JumpTargetsOf body)) body (seqZ 0 (zlen body - 3)).

(** [truncateElisionPass.Run]. *)
Definition truncateElision (f : CompiledFunction) : CompiledFunction :=
  let f := setBody f (elideRedundantTruncateAfterBitAnd f (Body f)) in
  setBody f (elideRedundantBitAndAfterTruncate f (Body f)).

(** ** The first elision, where its test is exact *)

(** The mask's constant index fits a byte, and the truncation is unsigned. *)
Definition exact_masks (f : CompiledFunction) (body : list Instruction) : Prop :=
  ∀ i ext truncation,
    matchesTruncateAfterBitAnd f body i (JumpTargetsOf body) = true →
    zget body (i + 1) = Some ext → zget body (i + 2) = Some truncation →
    iB ext = 0 ∧ iC truncation = RegisterUint.

(** No jump goes to an extension word. *)
Definition jumps_to_words (body : list Instruction) : Prop :=
  ∀ j word, j ∈ JumpTargetsOf body → zget body j = Some word → iOp word ≠ OpExt.

(** A mask at [pc], its constant, and the truncation it makes redundant. *)
Record elidable (f : CompiledFunction) (pc reg src index : Z) : Prop := {
  el_mask : zget (Body f) pc = Some (NewInstruction OpDrillTier1 SubOpBitAndUintConst reg src);
  el_ext : ∃ c, zget (Body f) (pc + 1) = Some (NewInstruction OpExt index 0 c);
  el_truncation : zget (Body f) (pc + 2) = Some (truncation32 RegisterUint reg);
  el_index : 0 <= index < 256;
  el_constant : zget (UintConstants f) index = Some uint32Mask;
  el_target : pc + 2 ∉ JumpTargetsOf (Body f);
}.

Lemma matches_elidable f i :
  wf_body (Body f) → exact_masks f (Body f) →
  matchesTruncateAfterBitAnd f (Body f) i (JumpTargetsOf (Body f)) = true →
  ∃ reg src index, elidable f i reg src index.
Proof.
  intros Hwf Hexact Hm. pose proof (Hexact i) as He. revert Hm.
  unfold matchesTruncateAfterBitAnd at 1.
  destruct (zget (Body f) i) as [[mo ma mb mc]|] eqn:E0; [|done].
  destruct (zget (Body f) (i + 1)) as [[eo ea eb ec]|] eqn:E1; [|done].
  destruct (zget (Body f) (i + 2)) as [[op a b c]|] eqn:E2; [|done].
  intros Hm. destruct (He _ _ ltac:(unfold matchesTruncateAfterBitAnd; by rewrite E0, E1, E2)
    eq_refl eq_refl) as [Heb Hc]. cbn [iOp iA iB iC] in *. bool_hyps.
  destruct (wf_body_zget _ _ _ Hwf E1) as (_ & Hea & _). cbn in Hea.
  match goal with H : isUint32Mask _ _ = true |- _ => revert H end. unfold isUint32Mask.
  destruct (zget (UintConstants f) ea) as [v|] eqn:Ek; [|done]. intros Hv. bool_hyps. subst.
  exists mb, mc, ea. split; [done|by exists ec|done| |done|by case_bool_decide].
  exact Hea.
Qed.

Lemma masked_word x : wrapU 32 (Z.land x uint32Mask) = Z.land x uint32Mask.
Proof.
  change uint32Mask with (Z.ones 32). unfold wrapU. rewrite Z.land_ones by lia.
  by rewrite Zmod_mod.
Qed.

(** Truncating a register that holds a 32-bit value changes nothing. *)
Lemma truncate_masked f x reg v :
  zget (Uints (registers x)) reg = Some v → wrapU 32 v = v →
  HandleTruncateNarrow f x (truncation32 RegisterUint reg) = opContinue x.
Proof.
  intros Hv Hwrap. rewrite HandleTruncateNarrow_convert by (by cbv).
  unfold truncation32, convert. cbn [iA iB iC]. change (RegisterUint =? RegisterUint) with true.
  cbv iota. unfold getUint, getReg, setUint, setReg, narrow32Width. rewrite Hv.
  cbn [mbind OpResult_bind]. rewrite Hwrap. cbn. rewrite zset_id by done.
  by destruct x as [pc [? ? ? ?]].
Qed.

Section one_elision.
Context (f : CompiledFunction) (pc reg src index : Z).
Context (Hsite : elidable f pc reg src index).
Context (Hwf : wf_body (Body f)) (Hlaid : laid_out (Body f)) (Hwords : jumps_to_words (Body f)).

#[local] Notation f' := (setBody f (zset (Body f) (pc + 2) nop)).

(** A frame whose next truncation, if it is the elided one, does nothing. *)
Definition unaffected (x : CallFrame) : Prop :=
  ProgramCounter x ≠ pc + 1 ∧
  (ProgramCounter x = pc + 2 →
   HandleTruncateNarrow f x (truncation32 RegisterUint reg) = opContinue x).

(** The mask leaves a value the truncation keeps. *)
Lemma mask_then_truncate x h y :
  flatDispatchSwitch (NewInstruction OpDrillTier1 SubOpBitAndUintConst reg src) = Some h →
  ProgramCounter x = pc →
  h f (advance x 1) (NewInstruction OpDrillTier1 SubOpBitAndUintConst reg src) = opContinue y →
  HandleTruncateNarrow f y (truncation32 RegisterUint reg) = opContinue y.
Proof.
  intros [= <-] Hpc. destruct Hsite as [_ [c Hext] _ Hindex Hk _].
  unfold reshapeTier1, handleBitAndUintConst, uintConst, readExtensionWideIndex, readExtensionWord.
  destruct x as [p r]. cbn in Hpc. subst p. cbn [ProgramCounter advance registers iA iB iC].
  rewrite Hext. cbn [mbind OpResult_bind mret OpResult_ret iA iB].
  change (wrapU 16 (Z.shiftl 0 8)) with 0. rewrite Z.lor_0_r, Hk.
  unfold getUint, getReg, setUint, setReg, advance. cbn [registers ProgramCounter].
  destruct (zget (Uints r) src) as [v|]; [|done]. cbn [mbind OpResult_bind].
  destruct (zget (Uints r) reg) as [w|] eqn:Ew; [|done]. intros [= <-].
  apply (truncate_masked f _ _ (Z.land v uint32Mask)); [|apply masked_word].
  cbn. apply zget_zset_eq. by eapply zget_Some_range.
Qed.

Lemma step_unaffected x i h y :
  unaffected x → zget (Body f) (ProgramCounter x) = Some i → flatDispatchSwitch i = Some h →
  h f (advance x 1) i = opContinue y → unaffected y.
Proof.
  intros [Hne _] Hg Hd Hrun. destruct Hsite as [Hmask [c Hext] Htrunc _ _ Htarget].
  destruct (Hlaid _ _ _ Hg Hd) as [_ Hspan].
  assert (Hover : ProgramCounter x < pc → ProgramCounter x + span i <= pc).
  { intros Hlt. destruct (decide (ProgramCounter x + span i <= pc)); [done|].
    destruct (Hspan pc) as (w & Hw & Hor); [lia|]. rewrite Hmask in Hw.
    injection Hw as <-. by destruct Hor. }
  destruct (step_successor f x i h y Hwf Hlaid Hg Hd Hrun) as [Hjump|[Hnext Hpos]].
  - split; [|by intros Hy; rewrite Hy in Hjump].
    intros Hy. rewrite Hy in Hjump. by apply (Hwords _ _ Hjump Hext).
  - destruct (decide (ProgramCounter x = pc)) as [Hpc|Hpc].
    2: { assert (ProgramCounter y <= pc ∨ pc + 2 < ProgramCounter y)
           by (destruct (decide (ProgramCounter x < pc)); [left; rewrite Hnext; auto|right; lia]).
         split; [lia|intros Hy; exfalso; lia]. }
    rewrite Hpc, Hmask in Hg. injection Hg as <-.
    split; [rewrite Hnext, Hpc; change (span _) with 2; lia|].
    intros _. by eapply mask_then_truncate.
Qed.

Lemma elided_zget k : k ≠ pc + 2 → zget (Body f') k = zget (Body f) k.
Proof. intros. cbn [Body setBody]. by rewrite zget_zset_ne by congruence. Qed.

Lemma step_elided x :
  unaffected x → dispatchStep f' x = dispatchStep f x ∧
  ∀ y, dispatchStep f x = Some (opContinue y) → unaffected y.
Proof.
  intros Hx. pose proof Hx as [_ Hsame]. pose proof (el_truncation _ _ _ _ _ Hsite) as Htrunc.
  destruct (decide (ProgramCounter x = pc + 2)) as [Hpc|Hpc].
  - pose proof (zget_Some_range _ _ _ Htrunc).
    rewrite (dispatchStep_at f x (truncation32 RegisterUint reg) HandleTruncateNarrow)
      by (done || by rewrite Hpc).
    rewrite (dispatchStep_at f' x nop handleFlatSubOpTier3Nop);
      [|cbn [Body setBody]; rewrite Hpc; by apply zget_zset_eq|reflexivity].
    assert (Hadv : HandleTruncateNarrow f (advance x 1) (truncation32 RegisterUint reg) =
      opContinue (advance x 1)).
    { destruct x as [p r]. apply (HandleTruncateNarrow_advance f (NewCallFrame p r) _ r).
      by apply Hsame. }
    rewrite Hadv. split; [done|]. intros y [= <-].
    unfold unaffected. destruct x as [p r]. cbn in *. split; lia.
  - unfold dispatchStep at 1. change (Body f') with (zset (Body f) (pc + 2) nop).
    rewrite length_zset.
    rewrite zget_zset_ne by congruence. unfold dispatchStep.
    case_if; [done|]. destruct (zget (Body f) (ProgramCounter x)) as [i|] eqn:Hg; [|done].
    destruct (flatDispatchSwitch i) as [h|] eqn:Hd; [|done].
    assert (Heq : h f' (advance x 1) i = h f (advance x 1) i).
    { pose proof (forall_arms _ reads_own_words_arms _ _ Hd) as Hr.
      apply Hr; [by eapply wf_body_zget|done|]. intros j Hj.
      destruct (Hlaid _ _ _ Hg Hd) as [_ Hspan]. destruct (Hspan j Hj) as (w & Hw & Hor).
      apply zget_zset_ne. intros <-. rewrite Htrunc in Hw. injection Hw as <-. by destruct Hor. }
    split; [cbn; by rewrite <- Heq|]. intros y [= Hrun]. by eapply step_unaffected.
Qed.

Lemma execute_elided fuel x : unaffected x → execute fuel f' x = execute fuel f x.
Proof.
  revert x. induction fuel as [|fuel IH]; intros x Hx; [done|]. cbn [execute].
  destruct (step_elided x Hx) as [-> Hnext]. cbn [Body setBody]. rewrite length_zset. case_if; [done|].
  destruct (dispatchStep f x) as [[y| | |]|]; try done. by apply IH, Hnext.
Qed.
End one_elision.

(** What an elision keeps of a body, for the next one: each word is the one
    it was, or a no-op. *)
Definition elided (f : CompiledFunction) (body : list Instruction) : Prop :=
  fusable f (JumpTargetsOf (Body f)) body ∧ jumps_to_words body ∧ exact_masks f body.

Lemma matches_nop f body i k targets :
  matchesTruncateAfterBitAnd f (zset body k nop) i targets = true →
  ∀ j, i <= j <= i + 2 → j ≠ k.
Proof.
  unfold matchesTruncateAfterBitAnd. intros Hm j Hj ->.
  assert (k = i ∨ k = i + 1 ∨ k = i + 2) as Hk by lia.
  destruct (zget (zset body k nop) i) as [w0|] eqn:E0; [|done].
  destruct (zget (zset body k nop) (i + 1)) as [w1|] eqn:E1; [|done].
  destruct (zget (zset body k nop) (i + 2)) as [w2|] eqn:E2; [|done].
  assert (∃ w, zget body k = Some w) as [w Hw].
  { assert (Hr : 0 <= k < zlen (zset body k nop))
      by (destruct Hk as [->|[->| ->]]; by eapply zget_Some_range).
    rewrite length_zset in Hr. by apply zget_is_Some. }
  assert (Hnop : zget (zset body k nop) k = Some nop)
    by (apply zget_zset_eq; by eapply zget_Some_range).
  destruct Hk as [->|[->| ->]];
    rewrite Hnop in *; simplify_eq; cbn in Hm; by rewrite ?andb_false_r in Hm.
Qed.

Lemma exact_nop f body k :
  JumpTargetsOf (zset body k nop) = JumpTargetsOf body → exact_masks f body → exact_masks f (zset body k nop).
Proof.
  intros Ht Hexact i ext truncation. rewrite Ht. intros Hm.
  pose proof (matches_nop _ _ _ _ _ Hm) as Hk. revert Hm. unfold matchesTruncateAfterBitAnd.
  rewrite !zget_zset_ne by (intros ->; by eapply Hk; [|reflexivity]; lia).
  apply (Hexact i).
Qed.

Lemma jumps_to_words_nop body k :
  JumpTargetsOf (zset body k nop) = JumpTargetsOf body →
  jumps_to_words body → jumps_to_words (zset body k nop).
Proof.
  intros Ht Hw j word. rewrite Ht. intros Hj. rewrite zget_zset.
  case_if; [|by apply Hw]. case_if; [|done]. by intros [= <-].
Qed.

Lemma elideTruncateAt_elided f i body :
  0 <= i → elided f body → elided f (elideTruncateAt f (JumpTargetsOf (Body f)) body i).
Proof.
  intros Hi [(Hwf & Hlaid & Ht & Hexec) [Hwords Hexact]]. unfold elideTruncateAt.
  destruct (matchesTruncateAfterBitAnd _ _ _ _) eqn:Hm; [|by split].
  destruct (matches_elidable (setBody f body) i) as (reg & src & index & Hsite); [done|done|
    by cbn [Body setBody]; rewrite Ht|].
  pose proof (el_truncation _ _ _ _ _ Hsite) as Hw. cbn [Body setBody] in Hw.
  assert (Htargets : JumpTargetsOf (zset body (i + 2) nop) = JumpTargetsOf body).
  { eapply plain_targets; [done|apply plain_truncation|apply plain_nop]. }
  split; [|split; [by apply jumps_to_words_nop|by apply exact_nop]].
  split; [by apply wf_body_zset|]. split; [|split; [congruence|]].
  - eapply plain_laid_out; [done|apply plain_truncation|apply plain_nop|done|done].
  - intros fuel frame H0. rewrite <- (Hexec fuel frame H0).
    apply (execute_elided (setBody f body) i reg src index Hsite); [done..|].
    split; [|intros]; lia.
Qed.

(** the first elision preserves what a function computes, where its test
    is exact: the masks' constant indices fit a byte and the truncations are
    unsigned.  Run from its entry on any registers, the rewritten body ends
    the same way as the old one, after the same number of steps. *)
Theorem elide_after_mask_preserves_execution f fuel frame :
  wf_body (Body f) → laid_out (Body f) → jumps_to_words (Body f) → exact_masks f (Body f) →
  ProgramCounter frame = 0 →
  execute fuel (setBody f (elideRedundantTruncateAfterBitAnd f (Body f))) frame =
  execute fuel f frame.
Proof.
  intros Hwf Hlaid Hwords Hexact H0. unfold elideRedundantTruncateAfterBitAnd.
  case_if; [apply execute_setBody|].
  assert (Hfold : ∀ pcs body, Forall (λ i, 0 <= i) pcs → elided f body →
    elided f (foldl (elideTruncateAt f (JumpTargetsOf (Body f))) body pcs)).
  { intros pcs. induction pcs as [|i pcs IH]; intros body Hpcs Hbody; [done|].
    apply Forall_cons in Hpcs as [Hi Hpcs]. apply IH; [done|]. by apply elideTruncateAt_elided. }
  apply (Hfold (seqZ 0 (zlen (Body f) - 2)) (Body f)); [| |done].
  - apply Forall_forall. intros i Hi%elem_of_seqZ. lia.
  - split; [|done]. split; [done|]. split; [done|]. split; [done|]. intros. apply execute_setBody.
Qed.

Definition sample_elision : CompiledFunction :=
  setUintPool (setBody (NewNamedFunction "f")
    [NewTier1Instruction SubOpBitAndUintConst 0 1; NewInstruction OpExt 0 0 0;
     truncation32 RegisterUint 0; NewTier1Instruction SubOpMoveUint 1 0]) [uint32Mask] None.

Theorem elide_after_mask_preserves_execution_witness :
  let start := NewCallFrame 0 (NewRegisters [] [0; 2 ^ 40 + 7] [] []) in
  let body := elideRedundantTruncateAfterBitAnd sample_elision (Body sample_elision) in
  zget body 2 = Some nop ∧
  execute 9 sample_elision start = reachedEnd (NewCallFrame 4 (NewRegisters [] [7; 7] [] [])) ∧
  execute 9 (setBody sample_elision body) start = execute 9 sample_elision start.
Proof.
  cbv zeta. split; [vm_compute; reflexivity|]. split; [vm_compute; reflexivity|].
  assert (Hrange : ∀ pc i, zget (Body sample_elision) pc = Some i →
    pc = 0 ∨ pc = 1 ∨ pc = 2 ∨ pc = 3).
  { intros pc i Hg%zget_Some_range. change (zlen (Body sample_elision)) with 4 in Hg. lia. }
  apply elide_after_mask_preserves_execution; [| | | |reflexivity].
  - split; [eapply bool_decide_unpack; vm_compute; exact I|vm_compute; congruence].
  - intros pc instr h Hg Hd. destruct (Hrange _ _ Hg) as [-> | [-> | [-> | ->]]];
      injection Hg as <-;
      (split; [vm_compute; try done; eauto|]); intros j Hj;
      match type of Hj with _ < _ < _ + span ?w =>
        let n := eval vm_compute in (span w) in change (span w) with n in Hj end; try lia.
    replace j with 1 by lia. eexists. split; [reflexivity|by left].
  - intros j word Hj. exfalso. revert Hj.
    replace (JumpTargetsOf (Body sample_elision)) with (∅ : gset Z) by (vm_compute; reflexivity).
    set_solver.
  - intros i ext truncation Hm Hext Htrunc. destruct (Hrange _ _ Htrunc) as [Hi|[Hi|[Hi|Hi]]].
    + replace i with (-2) in * by lia. discriminate.
    + replace i with (-1) in * by lia. discriminate.
    + replace i with 0 in * by lia. injection Hext as <-. by injection Htrunc as <-.
    + replace i with 1 in * by lia. vm_compute in Hm. discriminate.
Defined.

(** ** Where the tests are not exact *)

(** Run from the entry on a register file. *)
Definition runFrom (f : CompiledFunction) (r : Registers) : outcome :=
  execute 20 f (NewCallFrame 0 r).

(** A function with 257 unsigned constants, the 32-bit mask first and a
    40-bit one last: the mask of the body is the last one. *)
Definition wide_mask : CompiledFunction :=
  setUintPool (setBody (NewNamedFunction "f")
    [NewTier1Instruction SubOpBitAndUintConst 0 0; NewInstruction OpExt 0 1 0;
     truncation32 RegisterUint 0])
    (uint32Mask :: replicate 255 0 ++ [2 ^ 40 - 1]) None.

(** [v = u & 0xFFFFFFFF] right after an [int32] of the same register number. *)
Definition signed_before_mask : CompiledFunction :=
  setUintPool (setBody (NewNamedFunction "f")
    [truncation32 RegisterInt 0;
     NewTier1Instruction SubOpBitAndUintConst 1 0; NewInstruction OpExt 0 0 0;
     NewTier1Instruction SubOpMoveUint 2 1]) [uint32Mask] None.

Definition wide_input : Registers := NewRegisters [] [2 ^ 36 + 5] [] [].
Definition signed_input : Registers := NewRegisters [3] [2 ^ 32 + 7; 0; 0] [] [].

(** C35: the tests of both elisions are too weak, and the pass changes what
    two functions compute.  In the first, the truncation follows a 40-bit mask
    whose constant index has the 32-bit mask's low byte; it is dropped, and the
    register keeps more than 32 bits.  In the second, an unsigned mask follows the truncation of
    the signed register of the same number; it is dropped, and the move
    reads the unmasked value. *)
Theorem truncate_elision_changes_results :
  wf_body (Body wide_mask) ∧ wf_body (Body signed_before_mask) ∧
  runFrom wide_mask wide_input = reachedEnd (NewCallFrame 3 (NewRegisters [] [5] [] [])) ∧
  runFrom (truncateElision wide_mask) wide_input =
    reachedEnd (NewCallFrame 3 (NewRegisters [] [2 ^ 36 + 5] [] [])) ∧
  runFrom signed_before_mask signed_input =
    reachedEnd (NewCallFrame 4 (NewRegisters [3] [2 ^ 32 + 7; 7; 7] [] [])) ∧
  runFrom (truncateElision signed_before_mask) signed_input =
    reachedEnd (NewCallFrame 4 (NewRegisters [3] [2 ^ 32 + 7; 0; 2 ^ 32 + 7] [] [])).
Proof.
  split; [split; [eapply bool_decide_unpack; vm_compute; exact I|vm_compute; congruence]|].
  split; [split; [eapply bool_decide_unpack; vm_compute; exact I|vm_compute; congruence]|].
  split_and!; vm_compute; reflexivity.
Qed.
