(* ===== verification/PassFacts.v ===== *)
(** * What the passes read off a body

    Helpers of [internal/compile/passes] that several passes share: how many
    words an instruction spans ([function_compact.go]), whether control falls
    through it ([function_licm_field_read.go]), and which registers of a bank
    it writes ([function_cse_field_read.go], [function_copy_fusion.go]).  The
    written registers are proved to cover what the machine writes. *)

From stdpp Require Import sorting.
From S2P Require Import Prelude SafeConv Register Opcode Instruction Shapes Spec JumpLayout Jumps.
From S2P Require Import Extension Function Builder Verify VerifySound Machine MachineSafe MachineFlow.
From S2P Require Import FuseNarrow.

(** ** Words and control *)

(** The loop of [instructionFootprint]: each turn moves one word on. *)
Fixpoint footprintFrom (fuel : nat) (body : list Instruction) (pc width : Z) : Z :=
  match fuel with
  | O => width
  | S fuel =>
      match zget body (pc + width) with
      | Some word => if iOp word =? OpExt then footprintFrom fuel body pc (width + 1) else width
      | None => width
      end
  end.

Definition instructionFootprint (body : list Instruction) (pc : Z) : Z :=
  match zget body pc with
  | None => 1
  | Some instr =>
      if bool_decide (fst (JumpLayoutOf instr) ≠ JumpLayoutNone) then JumpFootprint instr
      else footprintFrom (length body) body pc 1
  end.

Definition tier1RedirectsControlFlow (inst : Instruction) : bool :=
  let sub := iA inst in
  if (sub =? SubOpJump) || (sub =? SubOpTypeSwitchJump) then true
  else if negb (sub =? SubOpDrillTier2) then false
  else
    let tier2 := iB inst in
    if tier2 =? SubOpTier2Return then true
    else (tier2 =? SubOpTier2DrillTier3) && (iC inst =? SubOpTier3ReturnVoid).

Definition isLinearFallThroughFrom (inst : Instruction) : bool :=
  if negb (iOp inst =? OpDrillTier1) then true
  else if iA inst =? SubOpTailCall then false
  else negb (tier1RedirectsControlFlow inst).

Definition bodyHasTypeSwitch (body : list Instruction) : bool :=
  existsb (λ inst, InstrIsTier1SubOp inst SubOpTypeSwitchJump) body.

Definition IsCallInstruction (inst : Instruction) : bool :=
  if negb (iOp inst =? OpDrillTier1) then false
  else one_of (iA inst)
    [SubOpCall; SubOpCallScalar; SubOpTailCall; SubOpCallMethod;
     SubOpCallMethodInlineable; SubOpCallNative; SubOpCallIIFE].

(** ** Written registers *)

(** The operand positions with their roles and values. *)
Definition operands (instr : Instruction) (shape : OperandShape) : list (Z * OperandRole * Z) :=
  [(0, shA shape, iA instr); (1, shB shape, iB instr); (2, shC shape, iC instr)].

Definition kindMarkerOperandOf (instr : Instruction) (shape : OperandShape) : option RegisterKind :=
  if bool_decide (shA shape = RoleKindMarker) then Some (iA instr)
  else if bool_decide (shB shape = RoleKindMarker) then Some (iB instr)
  else if bool_decide (shC shape = RoleKindMarker) then Some (iC instr)
  else None.

Definition resolveTier1WriteBank (sub : SubOpcode) : option OperandRole :=
  if one_of sub [SubOpMoveInt; SubOpMoveGeneralToInt] then Some RoleRegInt
  else if sub =? SubOpMoveUint then Some RoleRegUint
  else if one_of sub [SubOpMoveFloat; SubOpMoveGeneralToFloat] then Some RoleRegFloat
  else if sub =? SubOpMoveBool then Some RoleRegBool
  else if one_of sub [SubOpMoveString; SubOpMoveGeneralToString] then Some RoleRegString
  else if sub =? SubOpMoveComplex then Some RoleRegComplex
  else if one_of sub [SubOpMoveIntToGeneral; SubOpMoveFloatToGeneral; SubOpMoveStringToGeneral]
  then Some RoleRegGeneral
  else if sub =? SubOpGetStructFieldInt then Some RoleRegInt
  else if sub =? SubOpGetStructFieldUint then Some RoleRegUint
  else if sub =? SubOpGetStructFieldFloat then Some RoleRegFloat
  else if sub =? SubOpGetStructFieldBool then Some RoleRegBool
  else if sub =? SubOpGetStructFieldString then Some RoleRegString
  else if one_of sub [SubOpIncStructFieldInt; SubOpDecStructFieldInt] then Some RoleRegInt
  else if one_of sub [SubOpIncStructFieldUint; SubOpDecStructFieldUint] then Some RoleRegUint
  else if one_of sub
    [SubOpLen; SubOpLenString;
     SubOpLenSliceIntDirect; SubOpLenSliceFloatDirect;
     SubOpLenSliceStringDirect; SubOpLenSliceBoolDirect;
     SubOpLenSliceUintDirect; SubOpLenSliceByteDirect;
     SubOpCapSliceIntDirect; SubOpCapSliceFloatDirect;
     SubOpCapSliceStringDirect; SubOpCapSliceBoolDirect;
     SubOpCapSliceUintDirect; SubOpCapSliceByteDirect] then Some RoleRegInt
  else None.

(** The bank by the sub-opcode or the kind operand. *)
Definition markedWriteBank (inst : Instruction) : option OperandRole :=
  RoleForKind <$> kindMarkerOperandOf inst (ShapeForInstruction inst).

Definition resolveDynamicWriteBank (inst : Instruction) (pos : Z) : option OperandRole :=
  if iOp inst =? OpTruncateNarrow then
    if negb (pos =? 0) then None else Some (RoleForKind (iC inst))
  else if (iOp inst =? OpDrillTier1) && (pos =? 1) then
    match resolveTier1WriteBank (iA inst) with
    | Some bank => Some bank
    | None => markedWriteBank inst
    end
  else markedWriteBank inst.

Definition operandWriteMatchesBank (inst : Instruction) (pos : Z) (observed bank : OperandRole)
    : bool :=
  if bool_decide (observed = bank) then true
  else if bool_decide (observed ≠ RoleRegDynamic) then false
  else match resolveDynamicWriteBank inst pos with
  | None => true
  | Some resolved => bool_decide (resolved = bank)
  end.

Record bankWrites := NewBankWrites { written : list Z; writesAny : bool }.

(** One turn of the loop over the operands. *)
Definition addWrite (inst : Instruction) (shape : OperandShape) (bank : OperandRole)
    (writes : list Z) (operand : Z * OperandRole * Z) : list Z :=
  let '(position, role, register) := operand in
  if negb (mask_at (shWrites shape) position)
     || negb (operandWriteMatchesBank inst position role bank) then writes
  else if bool_decide (register ∈ writes) then writes else writes ++ [register].

Definition registersWrittenInBank (inst : Instruction) (bank : OperandRole) : bankWrites :=
  if bool_decide (bank = RoleNone) then NewBankWrites [] false
  else
    let shape := ShapeForInstruction inst in
    if negb (hasFlag (shFlags shape) ShapeFlagDescribed)
       || hasFlag (shFlags shape) ShapeFlagOpaqueWrites then NewBankWrites [] true
    else NewBankWrites
      (merge_sort Z.le (foldl (addWrite inst shape bank) [] (operands inst shape))) false.

Definition instructionWritesRegisterInBank (inst : Instruction) (bank : OperandRole) (reg : Z)
    : bool :=
  let writes := registersWrittenInBank inst bank in
  writesAny writes || bool_decide (reg ∈ written writes).

(** ** The written registers cover what the machine writes *)

Lemma elem_of_addWrite inst shape bank writes position role register reg :
  reg ∈ addWrite inst shape bank writes (position, role, register) ↔
  reg ∈ writes ∨ (reg = register ∧ mask_at (shWrites shape) position = true ∧
    operandWriteMatchesBank inst position role bank = true).
Proof.
  unfold addWrite. destruct (mask_at _ _); [|naive_solver].
  destruct (operandWriteMatchesBank _ _ _ _); [|naive_solver]. cbn [negb orb].
  case_bool_decide; [naive_solver|]. rewrite elem_of_app, list_elem_of_singleton. naive_solver.
Qed.

Lemma elem_of_addWrites inst shape bank entries writes reg :
  reg ∈ foldl (addWrite inst shape bank) writes entries ↔
  reg ∈ writes ∨ ∃ position role, (position, role, reg) ∈ entries ∧
    mask_at (shWrites shape) position = true ∧
    operandWriteMatchesBank inst position role bank = true.
Proof.
  revert writes. induction entries as [|[[position role] register] entries IH]; intros writes.
  - cbn. split; [by left|]. by intros [?|(? & ? & ?%not_elem_of_nil & _)].
  - cbn [foldl]. rewrite IH, elem_of_addWrite. setoid_rewrite elem_of_cons. naive_solver.
Qed.

(** [true] exactly when some operand the shape marks written is the register. *)
Lemma instructionWrites_spec inst bank reg :
  bank ≠ RoleNone → hasFlag (shFlags (ShapeForInstruction inst)) ShapeFlagDescribed = true →
  hasFlag (shFlags (ShapeForInstruction inst)) ShapeFlagOpaqueWrites = false →
  instructionWritesRegisterInBank inst bank reg = true ↔
  ∃ position role, (position, role, reg) ∈ operands inst (ShapeForInstruction inst) ∧
    mask_at (shWrites (ShapeForInstruction inst)) position = true ∧
    operandWriteMatchesBank inst position role bank = true.
Proof.
  intros Hb Hd Ho. unfold instructionWritesRegisterInBank, registersWrittenInBank.
  rewrite bool_decide_eq_false_2 by done. rewrite Hd, Ho. cbn [negb orb writesAny written].
  rewrite bool_decide_eq_true, merge_sort_Permutation, elem_of_addWrites.
  split; [intros [?%elem_of_nil|?]|]; eauto. done.
Qed.

(** The shape of a slot has no written operand whose bank another selects,
    and describes the writes it has. *)
Definition static_writes (slot : Z) : bool :=
  let shape := ShapeForInstruction (slotInstruction slot) in
  hasFlag (shFlags shape) ShapeFlagDescribed &&
  negb (hasFlag (shFlags shape) ShapeFlagOpaqueWrites) &&
  forallb (λ '(position, role, _),
    negb (mask_at (shWrites shape) position && bool_decide (role = RoleRegDynamic)))
    (operands zeroInstruction shape).

Lemma static_arms :
  Forall (λ arm : Z * Handler, fst arm = OpTruncateNarrow ∨ static_writes (fst arm) = true)
    flatDispatchArms.
Proof.
  unfold flatDispatchArms.
  repeat apply Forall_cons_2; [first [right; vm_compute; reflexivity|by left]..|apply Forall_nil_2].
Qed.

Lemma namedWrites_static instr slot bank reg :
  wf_instruction instr → flatDispatchIndex instr = slot → static_writes slot = true →
  (bank, reg) ∈ namedWrites instr →
  instructionWritesRegisterInBank instr (RoleForKind bank) reg = true.
Proof.
  intros Hwf Hslot Hs Hin. destruct (slot_tables _ _ Hwf Hslot) as [Hshape _].
  unfold static_writes in Hs. rewrite <- Hshape in Hs. bool_hyps.
  apply instructionWrites_spec; [|done|done|].
  { unfold RoleForKind. repeat case_if; done. }
  apply list_elem_of_join in Hin as (l & Hin & Hl).
  apply list_elem_of_In, in_map_iff in Hl as ([[position role] register] & <- & Hop%list_elem_of_In).
  exists position, role. destruct (mask_at _ position) eqn:Em; [|by apply not_elem_of_nil in Hin].
  apply list_elem_of_In, in_map_iff in Hin as (bank' & [= -> ->] & Hbank%list_elem_of_In).
  split; [exact Hop|]. split; [done|].
  assert (Hnd : role ≠ RoleRegDynamic).
  { intros ->. match goal with H : forallb _ _ = true |- _ => rename H into Hf end.
    rewrite forallb_forall in Hf. specialize (Hf (position, RoleRegDynamic, 0)).
    cbv beta iota in Hf. rewrite Em, bool_decide_eq_true_2 in Hf by done.
    discriminate Hf. apply list_elem_of_In in Hop. cbn in Hop |- *. intuition congruence. }
  unfold operandWriteMatchesBank. rewrite bool_decide_eq_true_2; [done|].
  symmetry. apply Shapes.RoleForKind_KindForRole. destruct role; try done; cbn in Hbank |- *; set_solver.
Qed.

Lemma RoleForKind_neq_RoleNone bank : RoleForKind bank ≠ RoleNone.
Proof. unfold RoleForKind. repeat case_if; done. Qed.

(** A modelled operation other than a truncation changes no register that is
    not among those the passes say it writes. *)
Lemma written_covers f frame instr h frame' bank reg :
  wf_instruction instr → flatDispatchSwitch instr = Some h →
  h f frame instr = opContinue frame' → iOp instr ≠ OpTruncateNarrow →
  instructionWritesRegisterInBank instr (RoleForKind bank) reg = false →
  readReg (registers frame') bank reg = readReg (registers frame) bank reg.
Proof.
  intros Hwf Hd Hrun Hop Hnot.
  pose proof (forall_arms _ writes_named_arms _ _ Hd) as Hw.
  apply (Hw f frame instr frame' Hwf eq_refl Hrun). intros Hin.
  destruct (forall_arms (λ slot _, slot = OpTruncateNarrow ∨ static_writes slot = true)
    static_arms _ _ Hd) as [Hs|Hs].
  - exfalso. destruct Hwf as (? & ? & ? & ?). revert Hs. unfold flatDispatchIndex.
    unfold flatHandlerTier1Base, flatHandlerTier2Base, flatHandlerTier3Base, OpTruncateNarrow, isU in *.
    repeat (case_if; bool_hyps); try congruence; lia.
  - by rewrite (namedWrites_static _ _ _ _ Hwf eq_refl Hs Hin) in Hnot.
Qed.

(** ** The instructions of a body *)

(** The program counters a walk by footprints from the entry visits. *)
Inductive instruction_start (body : list Instruction) : Z → Prop :=
  | start_first : instruction_start body 0
  | start_next pc :
      instruction_start body pc → pc < zlen body →
      instruction_start body (pc + instructionFootprint body pc).

(** A body whose modelled instructions span their footprints, and whose jumps
    land on instructions. *)
Record walkable (body : list Instruction) : Prop := {
  wk_wf : wf_body body;
  wk_laid_out : laid_out body;
  wk_span pc instr h : instruction_start body pc → zget body pc = Some instr →
    flatDispatchSwitch instr = Some h → span instr = instructionFootprint body pc;
  wk_targets t : t ∈ JumpTargetsOf body → 0 <= t ∧ (t < zlen body → instruction_start body t);
}.

Lemma footprintFrom_ge fuel body pc width : width <= footprintFrom fuel body pc width.
Proof.
  revert width. induction fuel as [|fuel IH]; intros width; cbn; [lia|].
  destruct (zget body (pc + width)) as [w|]; [|lia]. case_if; [|lia].
  specialize (IH (width + 1)). lia.
Qed.

Lemma instructionFootprint_pos body pc : 1 <= instructionFootprint body pc.
Proof.
  unfold instructionFootprint. destruct (zget body pc) as [i|]; [|lia].
  case_bool_decide; [|apply footprintFrom_ge]. unfold JumpFootprint. revert H.
  unfold JumpLayoutOf. destruct (SpecForInstruction i) as [row|]; [|done].
  repeat case_if; cbn; done.
Qed.

(** The words after an instruction are extension words up to its footprint,
    when it is not a jump. *)
Lemma footprintFrom_words fuel body pc width j :
  pc + width <= j < pc + footprintFrom fuel body pc width →
  ∃ word, zget body j = Some word ∧ iOp word = OpExt.
Proof.
  revert width. induction fuel as [|fuel IH]; intros width; cbn; [lia|].
  destruct (zget body (pc + width)) as [w|] eqn:Hg; [|lia]. case_if; [|lia]. bool_hyps.
  intros Hj. destruct (decide (j = pc + width)) as [->|]; [eauto|]. apply (IH (width + 1)). lia.
Qed.

(** Only a jump, a return or a tail call does not fall through, and of these
    only the jump is modelled. *)
Lemma falls_through instr h :
  flatDispatchSwitch instr = Some h →
  hasFlag (shFlags (ShapeForInstruction instr)) ShapeFlagTerminator = false →
  isLinearFallThroughFrom instr = true ∧ IsReturnInstruction instr = false.
Proof.
  intros Hd Hterm. destruct instr as [op a b c]. unfold flatDispatchSwitch, flatDispatchIndex in Hd.
  unfold isLinearFallThroughFrom, tier1RedirectsControlFlow, IsReturnInstruction.
  unfold ShapeForInstruction in Hterm. cbn [iOp iA iB iC] in *.
  change OpDrillTier1 with 0 in *. change SubOpDrillTier2 with 0 in *.
  change SubOpTier2DrillTier3 with 0 in *.
  destruct (op =? 0) eqn:Eo; cbn [negb] in *; [|done].
  destruct (a =? 0) eqn:Ea; cbn [negb] in *; bool_hyps; subst.
  - change (0 =? SubOpTailCall) with false. change (0 =? SubOpJump) with false.
    change (0 =? SubOpTypeSwitchJump) with false. cbn [orb negb].
    destruct (b =? SubOpTier2Return) eqn:Er; bool_hyps; [subst; discriminate Hd|].
    destruct (b =? 0) eqn:Eb; [|done]. bool_hyps; subst. cbn [andb].
    destruct (c =? SubOpTier3ReturnVoid) eqn:Ec; bool_hyps; [subst; discriminate Hd|done].
  - destruct (a =? SubOpTailCall) eqn:E1; bool_hyps; [subst; discriminate Hd|].
    destruct (a =? SubOpJump) eqn:E2; bool_hyps; [subst; discriminate Hterm|].
    destruct (a =? SubOpTypeSwitchJump) eqn:E3; bool_hyps; [subst; discriminate Hd|]. done.
Qed.
