(* ===== verification/Liveness.v ===== *)
(** * Dead registers

    [internal/compile/passes/function_peephole_liveness.go], with the result
    slots of [function_move_elimination.go]: a bounded search that follows every
    path from a point until the register is written or the frame ends.  When
    the search succeeds the register is dead there: some set of program counters
    is closed under the paths and meets no read. *)

From S2P Require Import Prelude SafeConv Register Opcode Instruction Shapes Spec JumpLayout Jumps.
From S2P Require Import Extension Function Verify VerifySound Machine MachineSafe MachineFlow.
From S2P Require Import FuseNarrow PassFacts.

(** ** Result slots *)

Definition returnSlotCount (f : CompiledFunction) (kind : RegisterKind) : Z :=
  zlen (filter (λ k, k = kind) (ResultKinds f)).

Definition resultSlotReadByRecover (f : CompiledFunction) (kind : RegisterKind) (reg : Z) : bool :=
  if returnSlotCount f kind <=? reg then false
  else existsb (λ inst, iOp inst =? OpDefer) (Body f).

(** ** What a word does with the register *)

Definition operandMayNameBank (instr : Instruction) (shape : OperandShape)
    (role bankRole : OperandRole) (kind : RegisterKind) : bool :=
  if bool_decide (role = bankRole) then true
  else if bool_decide (role = RoleRegDynamic) then
    match kindMarkerOperandOf instr shape with
    | None => true
    | Some markerKind => markerKind =? kind
    end
  else false.

(** [(reads, writes)]. *)
Definition instructionRegisterUse (instr : Instruction) (kind : RegisterKind) (role : OperandRole)
    (reg : Z) : bool * bool :=
  let shape := ShapeForInstruction instr in
  if negb (hasFlag (shFlags shape) ShapeFlagDescribed) then
    ((iA instr =? reg) || (iB instr =? reg) || (iC instr =? reg), false)
  else
    let named '(position, operandRole, register) :=
      (register =? reg) && operandMayNameBank instr shape operandRole role kind in
    (existsb (λ o, named o && mask_at (shReads shape) (fst (fst o))) (operands instr shape),
     existsb (λ o, named o && mask_at (shWrites shape) (fst (fst o))) (operands instr shape)).

Definition callSiteRegisterUse (f : CompiledFunction) (instr : Instruction) (kind : RegisterKind)
    (reg : Z) (replacesFrame : bool) : bool * bool :=
  match zget (CallSites f) (WideIndex instr) with
  | None => (true, false)
  | Some site =>
      if existsb (λ argument, (vlKind argument =? kind) && (vlRegister argument =? reg)) (Arguments site)
      then (true, false)
      else if replacesFrame then (false, true)
      else (false, existsb (λ result, (vlKind result =? kind) && (vlRegister result =? reg)
             && negb (IsSpilled result || IsIndirect result || IsUpvalue result)) (Returns site))
  end.

Definition classifyCall (f : CompiledFunction) (instr : Instruction) (kind : RegisterKind) (reg : Z)
    : option (bool * bool) :=
  if one_of (iA instr) [SubOpCall; SubOpCallScalar; SubOpCallMethod; SubOpCallMethodInlineable;
      SubOpCallNative; SubOpCallIIFE]
  then Some (callSiteRegisterUse f instr kind reg false)
  else if iA instr =? SubOpTailCall then Some (callSiteRegisterUse f instr kind reg true)
  else None.

Definition classify (f : CompiledFunction) (instr : Instruction) (kind : RegisterKind) (reg : Z)
    : bool * bool :=
  match (if iOp instr =? OpDrillTier1 then classifyCall f instr kind reg else None) with
  | Some use => use
  | None => instructionRegisterUse instr kind (RoleForKind kind) reg
  end.

Definition maskNamesReg (mask : ExtensionIntMask) (word : Instruction) (reg : Z) : bool :=
  let '(a, b, c) := mask in
  (a && (iA word =? reg)) || (b && (iB word =? reg)) || (c && (iC word =? reg)).

Definition extensionWordUse (body : list Instruction) (ownerPC pc : Z) (kind : RegisterKind) (reg : Z)
    : bool * bool :=
  match zget body pc with
  | None => (false, false)
  | Some word =>
      let anyByte := (iA word =? reg) || (iB word =? reg) || (iC word =? reg) in
      match zget body ownerPC with
      | None => (anyByte, false)
      | Some owner =>
          let words := take (Z.to_nat (pc - ownerPC)) (drop (Z.to_nat (ownerPC + 1)) body) in
          let '(readMask, writeMask, ok) := ExtensionRegisterUse owner words kind in
          if negb ok then (anyByte, false)
          else (maskNamesReg readMask word reg, maskNamesReg writeMask word reg)
      end
  end.

(** ** The search *)

Definition conditionLivenessBudget : Z := 4096.

Inductive walkVerdict := walkContinue | walkDead | walkLive | walkBranch.

#[export] Instance walkVerdict_eq_dec : EqDecision walkVerdict.
Proof. solve_decision. Defined.

Definition verdictFor (use : bool * bool) : walkVerdict :=
  let '(reads, writes) := use in
  if reads then walkLive else if writes then walkDead else walkContinue.

(** The verdict on the word at [pc] and the owner of the extension words after
    it. *)
Definition walkStep (f : CompiledFunction) (kind : RegisterKind) (reg : Z) (instr : Instruction)
    (pc ownerPC : Z) : walkVerdict * Z :=
  if iOp instr =? OpExt then (verdictFor (extensionWordUse (Body f) ownerPC pc kind reg), ownerPC)
  else if IsReturnInstruction instr then
    ((if reg <? returnSlotCount f kind then walkLive else walkDead), ownerPC)
  else
    let '(reads, writes) := classify f instr kind reg in
    if reads || writes then (verdictFor (reads, writes), ownerPC)
    else if bool_decide (fst (JumpLayoutOf instr) ≠ JumpLayoutNone) then (walkBranch, pc)
    else (walkContinue, pc).

(** The points entered so far and what is left of the budget. *)
Record registerLivenessWalk := NewWalk { entered : gset Z; budget : Z }.

Definition newRegisterLivenessWalk : registerLivenessWalk := NewWalk ∅ conditionLivenessBudget.

Section walk.
Context (f : CompiledFunction) (kind : RegisterKind) (reg : Z).

(** [deadFrom], given the loop over the words from the point entered. *)
Definition enterWith (scan : registerLivenessWalk → Z → Z → bool * registerLivenessWalk)
    (w : registerLivenessWalk) (start : Z) : bool * registerLivenessWalk :=
  if start <? 0 then (false, w)
  else if bool_decide (start ∈ entered w) then (true, w)
  else scan (NewWalk ({[start]} ∪ entered w) (budget w)) start (-1).

(** Every turn spends one unit of the budget, so one more than the budget is
    enough fuel. *)
Fixpoint walkFrom (fuel : nat) (w : registerLivenessWalk) (pc ownerPC : Z)
    : bool * registerLivenessWalk :=
  match fuel with
  | O => (false, w)
  | S fuel =>
      match zget (Body f) pc with
      | None => (true, w)
      | Some instr =>
          if budget w <=? 0 then (false, w)
          else
            let w := NewWalk (entered w) (budget w - 1) in
            let '(verdict, ownerPC) := walkStep f kind reg instr pc ownerPC in
            match verdict with
            | walkDead => (true, w)
            | walkLive => (false, w)
            | walkContinue => walkFrom fuel w (pc + 1) ownerPC
            | walkBranch =>
                if bool_decide (fst (JumpLayoutOf instr) = JumpLayoutMultiWay) then (false, w)
                else match JumpTargetAt (Body f) pc with
                | None => (false, w)
                | Some target =>
                    if InstrIsTier1SubOp instr SubOpJump then enterWith (walkFrom fuel) w target
                    else
                      let '(dead, w) := enterWith (walkFrom fuel) w (pc + JumpFootprint instr) in
                      if dead then enterWith (walkFrom fuel) w target else (false, w)
                end
            end
      end
  end.

Definition deadFrom (w : registerLivenessWalk) (start : Z) : bool * registerLivenessWalk :=
  enterWith (walkFrom (Z.to_nat (conditionLivenessBudget + 1))) w start.

Definition registerDeadFrom (startPC : Z) : bool :=
  if resultSlotReadByRecover f kind reg then false
  else fst (deadFrom newRegisterLivenessWalk startPC).

Definition registerDeadAfterBranch (branchPC : Z) : bool :=
  if resultSlotReadByRecover f kind reg then false
  else match JumpTargetAt (Body f) branchPC, zget (Body f) branchPC with
  | Some target, Some instr =>
      let '(dead, w) := deadFrom newRegisterLivenessWalk (branchPC + JumpFootprint instr) in
      if dead then fst (deadFrom w target) else false
  | _, _ => false
  end.
End walk.

Definition writeDroppedSafely (f : CompiledFunction) (resumePC : Z) (kind : RegisterKind)
    (reg stillWritten : Z) : bool :=
  (reg =? stillWritten) || registerDeadFrom f kind reg resumePC.

(** ** Deadness *)

Section dead.
Context (f : CompiledFunction) (kind : RegisterKind) (reg : Z).

#[local] Notation body := (Body f).

(** No word from [pc] on reads the register before one writes it or the frame
    ends, up to the jumps into [E]. *)
Inductive deadOn (E : gset Z) : Z → Z → Prop :=
  | dead_end pc owner : zget body pc = None → deadOn E pc owner
  | dead_here pc owner instr owner' :
      zget body pc = Some instr → walkStep f kind reg instr pc owner = (walkDead, owner') →
      deadOn E pc owner
  | dead_next pc owner instr owner' :
      zget body pc = Some instr → walkStep f kind reg instr pc owner = (walkContinue, owner') →
      deadOn E (pc + 1) owner' → deadOn E pc owner
  | dead_jump pc owner instr owner' target :
      zget body pc = Some instr → walkStep f kind reg instr pc owner = (walkBranch, owner') →
      fst (JumpLayoutOf instr) ≠ JumpLayoutMultiWay → JumpTargetAt body pc = Some target →
      target ∈ E →
      (InstrIsTier1SubOp instr SubOpJump = true ∨ pc + JumpFootprint instr ∈ E) →
      deadOn E pc owner.

Definition closed (E : gset Z) : Prop := ∀ s, s ∈ E → deadOn E s (-1).

(** The register is dead at [pc]. *)
Definition Dead (pc : Z) : Prop :=
  resultSlotReadByRecover f kind reg = false ∧ ∃ E, closed E ∧ deadOn E pc (-1).

Lemma deadOn_mono E E' pc owner : E ⊆ E' → deadOn E pc owner → deadOn E' pc owner.
Proof.
  intros Hsub. induction 1; [by apply dead_end|by eapply dead_here|by eapply dead_next|].
  eapply dead_jump; [done..|by apply Hsub|]. destruct H4; [by left|right; by apply Hsub].
Qed.

(** What a search that succeeds has established. *)
Definition searched (w w' : registerLivenessWalk) : Prop :=
  entered w ⊆ entered w' ∧ ∀ s, s ∈ entered w' → s ∉ entered w → deadOn (entered w') s (-1).

Lemma searched_refl w w' : entered w' = entered w → searched w w'.
Proof. intros He. unfold searched. rewrite He. by split. Qed.

Lemma searched_trans w1 w2 w3 : searched w1 w2 → searched w2 w3 → searched w1 w3.
Proof.
  intros [H1 H2] [H3 H4]. split; [set_solver|]. intros s Hs Hn.
  destruct (decide (s ∈ entered w2)) as [Hin|Hin]; [|by apply H4].
  eapply deadOn_mono; [exact H3|]. by apply H2.
Qed.

Lemma enterWith_ok scan w start w' :
  (∀ w pc owner w', scan w pc owner = (true, w') → searched w w' ∧ deadOn (entered w') pc owner) →
  enterWith scan w start = (true, w') → searched w w' ∧ start ∈ entered w'.
Proof.
  intros Hscan. unfold enterWith. case_if; [done|]. case_bool_decide as Hin.
  { intros [= <-]. by split; [apply searched_refl|]. }
  intros [[H1 H2] H3]%Hscan. cbn [entered] in *. split; [|set_solver]. split; [set_solver|].
  intros s Hs Hn. destruct (decide (s = start)) as [->|]; [exact H3|]. apply H2; set_solver.
Qed.

Lemma walkFrom_ok fuel w pc owner w' :
  walkFrom f kind reg fuel w pc owner = (true, w') → searched w w' ∧ deadOn (entered w') pc owner.
Proof.
  revert w pc owner w'. induction fuel as [|fuel IH]; intros w pc owner w'; [done|]. cbn [walkFrom].
  destruct (zget body pc) as [instr|] eqn:Hg.
  2: { intros [= <-]. split; [by apply searched_refl|by apply dead_end]. }
  case_if; [done|]. destruct (walkStep f kind reg instr pc owner) as [verdict owner'] eqn:Hstep.
  destruct verdict; [| |done|].
  - intros [Hs Hd]%IH. split; [exact Hs|]. by eapply dead_next.
  - intros [= <-]. split; [by apply searched_refl|by eapply dead_here].
  - case_bool_decide as Hm; [done|]. destruct (JumpTargetAt body pc) as [target|] eqn:Ht; [|done].
    case_if.
    + intros [Hs Hin]%(enterWith_ok _ _ _ _ IH). split; [exact Hs|]. by eapply dead_jump; eauto.
    + destruct (enterWith _ _ (pc + _)) as [[] w1] eqn:H1; [|done].
      intros [Hs2 Hin2]%(enterWith_ok _ _ _ _ IH). apply (enterWith_ok _ _ _ _ IH) in H1 as [Hs1 Hin1].
      split; [exact (searched_trans _ _ _ Hs1 Hs2)|]. eapply dead_jump; eauto.
      right. by apply Hs2.
Qed.

Lemma deadFrom_ok w start w' :
  deadFrom f kind reg w start = (true, w') → searched w w' ∧ start ∈ entered w'.
Proof. apply enterWith_ok. apply walkFrom_ok. Qed.

Lemma closed_searched w : searched newRegisterLivenessWalk w → closed (entered w).
Proof. intros [_ H] s Hs. apply H; [done|set_solver]. Qed.

(** The answers of the search are right. *)
Lemma registerDeadFrom_ok pc : registerDeadFrom f kind reg pc = true → Dead pc.
Proof.
  unfold registerDeadFrom. destruct (resultSlotReadByRecover f kind reg) eqn:Hr; [done|].
  destruct (deadFrom f kind reg _ pc) as [[] w] eqn:Hd; [|done]. intros _.
  apply deadFrom_ok in Hd as [Hs Hin]. split; [done|]. exists (entered w).
  pose proof (closed_searched w Hs) as Hc. split; [done|]. by apply Hc.
Qed.

Lemma registerDeadAfterBranch_ok pc instr :
  zget body pc = Some instr → registerDeadAfterBranch f kind reg pc = true →
  Dead (pc + JumpFootprint instr) ∧ ∃ target, JumpTargetAt body pc = Some target ∧ Dead target.
Proof.
  intros Hg. unfold registerDeadAfterBranch. rewrite Hg.
  destruct (resultSlotReadByRecover f kind reg) eqn:Hr; [done|].
  destruct (JumpTargetAt body pc) as [target|]; [|done].
  destruct (deadFrom f kind reg newRegisterLivenessWalk _) as [[] w] eqn:Hd; [|done].
  destruct (deadFrom f kind reg w target) as [[] w'] eqn:Hd'; [|done]. intros _.
  apply deadFrom_ok in Hd as [Hs Hin]. apply deadFrom_ok in Hd' as [Hs' Hin'].
  pose proof (closed_searched w' (searched_trans _ _ _ Hs Hs')) as Hc.
  split; [|exists target; split; [done|]]; (split; [done|]); exists (entered w'); (split; [done|]); apply Hc.
  - by apply Hs'.
  - done.
Qed.

(** ** Following a dead register *)

(** The owner matters to extension words alone. *)
Lemma deadOn_owner E pc owner owner' instr :
  zget body pc = Some instr → iOp instr ≠ OpExt → deadOn E pc owner → deadOn E pc owner'.
Proof.
  intros Hg Hop Hd.
  assert (Hsame : ∀ v o, walkStep f kind reg instr pc owner = (v, o) →
    ∃ o', walkStep f kind reg instr pc owner' = (v, o') ∧ (v = walkContinue → o' = o)).
  { unfold walkStep. rewrite (proj2 (Z.eqb_neq _ _)) by done.
    case_if; [intros v o [= <- <-]; eexists; split; [done|]; by case_if|].
    destruct (classify f instr kind reg) as [[] []]; cbn; try case_if; intros v o [= <- <-]; by eexists. }
  destruct Hd as [pc owner H|pc owner i o H H'|pc owner i o H H' Hn|pc owner i o t H H' Hm Ht Hin Hor]; simplify_eq;
    destruct (Hsame _ _ H') as (o' & Hw & Heq).
  - by eapply dead_here.
  - rewrite (Heq eq_refl) in Hw. by eapply dead_next.
  - by eapply dead_jump.
Qed.

Lemma Dead_entered E pc : closed E → resultSlotReadByRecover f kind reg = false → pc ∈ E → Dead pc.
Proof. intros Hc Hr Hin. split; [done|]. exists E. split; [done|]. by apply Hc. Qed.

(** The extension words from [pc] on, when they neither read nor write. *)
Lemma deadOn_extensions E n pc owner :
  deadOn E pc owner →
  (∀ j, pc <= j < pc + Z.of_nat n → ∃ word, zget body j = Some word ∧ iOp word = OpExt) →
  (∃ j, pc <= j < pc + Z.of_nat n ∧ snd (extensionWordUse body owner j kind reg) = true ∧
     ∀ k, pc <= k <= j → fst (extensionWordUse body owner k kind reg) = false) ∨
  ((∀ j, pc <= j < pc + Z.of_nat n → fst (extensionWordUse body owner j kind reg) = false) ∧
   deadOn E (pc + Z.of_nat n) owner).
Proof.
  revert pc. induction n as [|n IH]; intros pc Hd Hext.
  { right. split; [lia|]. by replace (pc + Z.of_nat 0) with pc by lia. }
  destruct (Hext pc ltac:(lia)) as (word & Hg & Hop).
  assert (Hw : ∀ o, walkStep f kind reg word pc o = (verdictFor (extensionWordUse body o pc kind reg), o)).
  { intros o. unfold walkStep. by rewrite Hop. }
  assert (∃ u, extensionWordUse body owner pc kind reg = u) as [[rd wr] Hu] by eauto.
  inversion Hd as [? ? H|? ? i o H H'|? ? i o H H' Hn|? ? i o t H H']; simplify_eq;
    rewrite Hw in H'; rewrite Hu in H'; destruct rd, wr; cbn in H'; try discriminate.
  - left. exists pc. rewrite Hu. split_and!; [lia|lia|done|]. intros k Hk.
    replace k with pc by lia. by rewrite Hu.
  - injection H' as <-. destruct (IH (pc + 1) Hn) as [(j & Hj & Hwr & Hrd)|[Hrd Hlast]].
    + intros j Hj. apply Hext. lia.
    + left. exists j. split_and!; [lia|lia|done|]. intros k Hk.
      destruct (decide (k = pc)) as [->|]; [by rewrite Hu|]. apply Hrd. lia.
    + right. split; [|by replace (pc + Z.of_nat (S n)) with (pc + 1 + Z.of_nat n) by lia].
      intros j Hj. destruct (decide (j = pc)) as [->|]; [by rewrite Hu|]. apply Hrd. lia.
Qed.
End dead.
