(* ===== verification/Ranges.v ===== *)
(** * Value ranges

    [internal/compile/passes/function_truncate_ranges.go]: the ranges of the
    integer and unsigned registers, propagated through the basic blocks of a
    body to a fixed point, and the truncations they make redundant.

    Go's maps are [gmap]s; a function that updates a state in place returns
    it.  The soundness of the analysis is in [RangesSound]. *)

From S2P Require Import Prelude SafeConv Register Opcode Instruction Shapes Spec JumpLayout Jumps.
From S2P Require Import Extension Function Builder FuseNarrow PassFacts.

Definition rangeWideningVisits : Z := 8.
Definition maxRangeAnalysisWords : Z := 8192.
Definition byteValueMax : Z := MaxUint8.
Definition registerBits : Z := 64.

(** ** Ranges and states *)

Record intRange := NewIntRange { lo : Z; hi : Z }.
Record uintRange := NewUintRange { ulo : Z; uhi : Z }.

#[export] Instance intRange_eq_dec : EqDecision intRange.
Proof. solve_decision. Defined.
#[export] Instance uintRange_eq_dec : EqDecision uintRange.
Proof. solve_decision. Defined.

Record rangeState := NewRangeState { ints : gmap Z intRange; uints : gmap Z uintRange }.

#[export] Instance rangeState_eq_dec : EqDecision rangeState.
Proof. solve_decision. Defined.

Definition newRangeState : rangeState := NewRangeState ∅ ∅.

Definition setInts (state : rangeState) (m : gmap Z intRange) : rangeState :=
  NewRangeState m (uints state).
Definition setUints (state : rangeState) (m : gmap Z uintRange) : rangeState :=
  NewRangeState (ints state) m.

(** Go's zero value of an absent entry. *)
Definition intAt (state : rangeState) (reg : Z) : intRange :=
  default (NewIntRange 0 0) (ints state !! reg).
Definition uintAt (state : rangeState) (reg : Z) : uintRange :=
  default (NewUintRange 0 0) (uints state !! reg).
Definition intKnown (state : rangeState) (reg : Z) : bool :=
  bool_decide (is_Some (ints state !! reg)).
Definition uintKnown (state : rangeState) (reg : Z) : bool :=
  bool_decide (is_Some (uints state !! reg)).

Definition forget (state : rangeState) : rangeState := newRangeState.

Definition joinIntRange (known incoming : intRange) : intRange :=
  NewIntRange (Z.min (lo known) (lo incoming)) (Z.max (hi known) (hi incoming)).
Definition joinUintRange (known incoming : uintRange) : uintRange :=
  NewUintRange (Z.min (ulo known) (ulo incoming)) (Z.max (uhi known) (uhi incoming)).

(** The registers both states know. *)
Definition join (state other : rangeState) : rangeState :=
  NewRangeState
    (map_imap (λ reg known, joinIntRange known <$> ints other !! reg) (ints state))
    (map_imap (λ reg known, joinUintRange known <$> uints other !! reg) (uints state)).

(** The integer half compares with the zero range when the register is absent,
    the unsigned half checks that it is present. *)
Definition widen (state next : rangeState) : rangeState :=
  NewRangeState
    (map_imap (λ reg known, if bool_decide (intAt state reg = known) then Some known else None)
      (ints next))
    (map_imap (λ reg known,
      if uintKnown state reg && bool_decide (uintAt state reg = known) then Some known else None)
      (uints next)).

Definition equal (state other : rangeState) : bool :=
  bool_decide (ints state = ints other) && bool_decide (uints state = uints other).

(** ** Arithmetic on ranges *)

Definition setIntResult (state : rangeState) (reg : Z) (result : intRange) (known : bool)
    : rangeState :=
  setInts state (if negb known then delete reg (ints state) else <[reg := result]> (ints state)).

Definition setUintResult (state : rangeState) (reg : Z) (result : uintRange) (known : bool)
    : rangeState :=
  setUints state (if negb known then delete reg (uints state) else <[reg := result]> (uints state)).

Definition forgetRegister (state : rangeState) (kind : RegisterKind) (reg : Z) : rangeState :=
  if kind =? RegisterInt then setInts state (delete reg (ints state))
  else if kind =? RegisterUint then setUints state (delete reg (uints state))
  else state.

(** [None] on overflow. *)
Definition intCorner (op : Opcode) (x y : Z) : option Z :=
  if op =? OpAddInt then
    let sum := wrapS 64 (x + y) in
    if eqb (x <? sum) (0 <? y) || (y =? 0) then Some sum else None
  else if op =? OpSubInt then
    let difference := wrapS 64 (x - y) in
    if eqb (difference <? x) (0 <? y) || (y =? 0) then Some difference else None
  else if (x =? 0) || (y =? 0) then Some 0
  else
    let product := wrapS 64 (x * y) in
    if (wrapS 64 (Z.quot product y) =? x) && (negb (x =? -1) || negb (y =? MinInt64))
       && (negb (y =? -1) || negb (x =? MinInt64))
    then Some product else None.

Definition fullIntRange : intRange := NewIntRange MinInt64 MaxInt64.

(** The loop over the corners. *)
Fixpoint hullOfCorners (op : Opcode) (corners : list (Z * Z)) (result : intRange) : intRange :=
  match corners with
  | [] => result
  | (x, y) :: corners =>
      match intCorner op x y with
      | None => fullIntRange
      | Some value =>
          hullOfCorners op corners
            (NewIntRange (Z.min (lo result) value) (Z.max (hi result) value))
      end
  end.

Definition combineInts (op : Opcode) (b c : intRange) : intRange :=
  hullOfCorners op [(lo b, lo c); (lo b, hi c); (hi b, lo c); (hi b, hi c)]
    (NewIntRange MaxInt64 MinInt64).

Definition fusedIntBase (op : Opcode) : Opcode :=
  if op =? OpSubIntConst then OpSubInt
  else if op =? OpMulIntConst then OpMulInt
  else OpAddInt.

Definition andIntRange (b : intRange) (bKnown : bool) (c : intRange) (cKnown : bool)
    : intRange * bool :=
  let bNonNegative := bKnown && (0 <=? lo b) in
  let cNonNegative := cKnown && (0 <=? lo c) in
  if bNonNegative && cNonNegative then (NewIntRange 0 (Z.min (hi b) (hi c)), true)
  else if bNonNegative then (NewIntRange 0 (hi b), true)
  else if cNonNegative then (NewIntRange 0 (hi c), true)
  else (NewIntRange 0 0, false).

Definition intPoolRange (f : CompiledFunction) (index : Z) : intRange * bool :=
  match zget (IntConstants f) index with
  | None => (NewIntRange 0 0, false)
  | Some value => (NewIntRange value value, true)
  end.

Definition uintPoolBound (f : CompiledFunction) (index : Z) : Z * bool :=
  match zget (UintConstants f) index with
  | None => (0, false)
  | Some value => (value, true)
  end.

Definition boundOrMax (known : uintRange) (isKnown : bool) : Z :=
  if isKnown then uhi known else MaxUint64.

(** [bits.LeadingZeros64] *)
Definition LeadingZeros64 (value : Z) : Z := if value =? 0 then 64 else 63 - Z.log2 value.

Definition allOnesCovering (value : Z) : Z :=
  if value =? 0 then 0 else Z.shiftr MaxUint64 (LeadingZeros64 value).

Definition shiftRightUint (value count : Z) : Z :=
  if registerBits <=? count then 0 else Z.shiftr value count.

(** ** Transfer of an instruction *)

(** The state after a truncation, and whether its input already fitted. *)
Definition truncateRange (state : rangeState) (inst : Instruction) : rangeState * bool :=
  let width := iB inst in
  let reg := iA inst in
  if (width =? 0) || (registerBits <=? width) then (state, false)
  else if iC inst =? RegisterUint then
    let limit := wrapU 64 (wrapU 64 (Z.shiftl 1 width) - 1) in
    if uintKnown state reg && (uhi (uintAt state reg) <=? limit) then (state, true)
    else (setUints state (<[reg := NewUintRange 0 limit]> (uints state)), false)
  else
    let bounds := NewIntRange (Z.shiftl (-1) (width - 1)) (Z.shiftl 1 (width - 1) - 1) in
    let known := intAt state reg in
    if intKnown state reg && (lo bounds <=? lo known) && (hi known <=? hi bounds)
    then (state, true)
    else (setInts state (<[reg := bounds]> (ints state)), false).

(** [None] when the instruction is not modelled; the state is then unchanged. *)
Definition intRangeTransfer (f : CompiledFunction) (state : rangeState) (inst : Instruction)
    : option rangeState :=
  let b := intAt state (iB inst) in let bKnown := intKnown state (iB inst) in
  let c := intAt state (iC inst) in let cKnown := intKnown state (iC inst) in
  let op := iOp inst in
  if op =? OpLoadIntConst then
    if negb (iC inst =? 0) then None
    else match zget (IntConstants f) (iB inst) with
    | None => None
    | Some value => Some (setInts state (<[iA inst := NewIntRange value value]> (ints state)))
    end
  else if one_of op [OpAddInt; OpSubInt; OpMulInt]
  then Some (setIntResult state (iA inst) (combineInts op b c) (bKnown && cKnown))
  else if one_of op [OpAddIntConst; OpSubIntConst; OpMulIntConst] then
    let '(constant, ok) := intPoolRange f (iC inst) in
    Some (setIntResult state (iA inst) (combineInts (fusedIntBase op) b constant) (bKnown && ok))
  else if op =? OpBitAnd then
    let '(result, ok) := andIntRange b bKnown c cKnown in
    Some (setIntResult state (iA inst) result ok)
  else if op =? OpShiftRight
  then Some (setIntResult state (iA inst) (NewIntRange (Z.min (lo b) 0) (Z.max (hi b) 0)) bKnown)
  else None.

Definition uintRangeTransfer (f : CompiledFunction) (state : rangeState) (inst : Instruction)
    : option rangeState :=
  let b := uintAt state (iB inst) in let bKnown := uintKnown state (iB inst) in
  let c := uintAt state (iC inst) in let cKnown := uintKnown state (iC inst) in
  let op := iOp inst in
  if op =? OpLoadUintConst then
    if negb (iC inst =? 0) then None
    else match zget (UintConstants f) (iB inst) with
    | None => None
    | Some value => Some (setUints state (<[iA inst := NewUintRange value value]> (uints state)))
    end
  else if op =? OpAddUint then
    let sum := NewUintRange (wrapU 64 (ulo b + ulo c)) (wrapU 64 (uhi b + uhi c)) in
    let carry := (uhi b + uhi c) / 2 ^ 64 in
    Some (setUintResult state (iA inst) sum (bKnown && cKnown && (carry =? 0)))
  else if op =? OpBitAndUint then
    Some (setUintResult state (iA inst)
      (NewUintRange 0 (Z.min (boundOrMax b bKnown) (boundOrMax c cKnown))) (bKnown || cKnown))
  else if one_of op [OpBitOrUint; OpBitXorUint] then
    Some (setUintResult state (iA inst)
      (NewUintRange 0 (allOnesCovering (Z.max (uhi b) (uhi c)))) (bKnown && cKnown))
  else if op =? OpShiftRightUint then
    let c := if negb cKnown then NewUintRange 0 MaxUint64 else c in
    Some (setUintResult state (iA inst)
      (NewUintRange (shiftRightUint (ulo b) (uhi c)) (shiftRightUint (uhi b) (ulo c))) bKnown)
  else None.

Definition tier1RangeTransfer (f : CompiledFunction) (state : rangeState) (pc : Z)
    (inst : Instruction) : option rangeState :=
  let b := iB inst in let c := iC inst in
  if InstrIsTier1SubOp inst SubOpLoadIntConstSmall
  then Some (setInts state (<[b := NewIntRange c c]> (ints state)))
  else if InstrIsTier1SubOp inst SubOpLoadUintConstSmall
  then Some (setUints state (<[b := NewUintRange c c]> (uints state)))
  else if InstrIsTier1SubOp inst SubOpMoveInt
  then Some (setIntResult state b (intAt state c) (intKnown state c))
  else if InstrIsTier1SubOp inst SubOpMoveUint
  then Some (setUintResult state b (uintAt state c) (uintKnown state c))
  else if InstrIsTier1SubOp inst SubOpUintToInt then
    let known := uintAt state c in
    Some (setIntResult state b
      (NewIntRange (wrapS 64 (Z.min (ulo known) MaxInt64)) (wrapS 64 (Z.min (uhi known) MaxInt64)))
      (uintKnown state c && (uhi known <=? MaxInt64)))
  else if InstrIsTier1SubOp inst SubOpIntToUint then
    let known := intAt state c in
    Some (setUintResult state b
      (NewUintRange (wrapU 64 (Z.max (lo known) 0)) (wrapU 64 (Z.max (hi known) 0)))
      (intKnown state c && (0 <=? lo known)))
  else if InstrIsTier1SubOp inst SubOpSliceGetByteDirect
  then Some (setUints state (<[b := NewUintRange 0 byteValueMax]> (uints state)))
  else
    match (if InstrIsTier1SubOp inst SubOpBitAndUintConst then zget (Body f) (pc + 1) else None) with
    | Some ext =>
        let '(mask, ok) := uintPoolBound f (JoinWide (iA ext) (iB ext)) in
        let sourceKnown := uintKnown state c in
        Some (setUintResult state b
          (NewUintRange 0 (Z.min (boundOrMax (NewUintRange 0 mask) ok)
                                 (boundOrMax (uintAt state c) sourceKnown)))
          (ok || sourceKnown))
    | None =>
        if InstrIsTier1SubOp inst SubOpGetGlobalWide then Some (forgetRegister state c b)
        else if InstrIsTier1SubOp inst SubOpSetGlobalWide
             || InstrIsTier1SubOp inst SubOpSetStructFieldSliceByte
             || InstrIsTier1SubOp inst SubOpGetStructFieldSliceByte then Some state
        else None
    end.

(** [None] when the layout of the extension word is unknown. *)
Definition forgetExtensionWordWrites (body : list Instruction) (state : rangeState)
    (owner word : Z) (kind : RegisterKind) : option rangeState :=
  ownerWord ← zget body owner;
  extension ← zget body word;
  let words := take (Z.to_nat (word - owner)) (drop (Z.to_nat (owner + 1)) body) in
  let '(_, writes, ok) := ExtensionRegisterUse ownerWord words kind in
  if negb ok then None
  else Some (foldl (λ state '(position, operand),
      if mask_at writes position then forgetRegister state kind operand else state)
    state [(0, iA extension); (1, iB extension); (2, iC extension)]).

Fixpoint forgetExtensionWords (body : list Instruction) (state : rangeState) (pc : Z)
    (words : list Z) : option rangeState :=
  match words with
  | [] => Some state
  | word :: words =>
      state ← forgetExtensionWordWrites body state pc word RegisterInt;
      state ← forgetExtensionWordWrites body state pc word RegisterUint;
      forgetExtensionWords body state pc words
  end.

Definition forgetExtensionWrites (body : list Instruction) (state : rangeState) (pc : Z)
    (inst : Instruction) : option rangeState :=
  match fst (JumpLayoutOf inst) with
  | JumpLayoutNone =>
      forgetExtensionWords body state pc (seqZ (pc + 1) (instructionFootprint body pc - 1))
  | JumpLayoutExtensionBC | JumpLayoutMultiWay => None
  | _ => Some state
  end.

Definition forgetWrites (body : list Instruction) (state : rangeState) (pc : Z)
    (inst : Instruction) : rangeState :=
  let shape := ShapeForInstruction inst in
  if IsCallInstruction inst || negb (hasFlag (shFlags shape) ShapeFlagDescribed)
     || hasFlag (shFlags shape) ShapeFlagOpaqueWrites then forget state
  else
    let intWrites := registersWrittenInBank inst (RoleForKind RegisterInt) in
    let uintWrites := registersWrittenInBank inst (RoleForKind RegisterUint) in
    if writesAny intWrites || writesAny uintWrites then forget state
    else match forgetExtensionWrites body state pc inst with
    | None => forget state
    | Some state =>
        NewRangeState (foldl (λ m reg, delete reg m) (ints state) (written intWrites))
                      (foldl (λ m reg, delete reg m) (uints state) (written uintWrites))
    end.

(** The state after the instruction at [pc], and whether it is a truncation whose
    input already fits; [None] when [pc] is out of range. *)
Definition applyRangeTransfer (f : CompiledFunction) (state : rangeState) (pc : Z)
    : option (rangeState * bool) :=
  inst ← zget (Body f) pc;
  Some
    (if isCanonicalNop inst then (state, false)
     else if iOp inst =? OpTruncateNarrow then truncateRange state inst
     else
       let modelled :=
         if iOp inst =? OpDrillTier1 then tier1RangeTransfer f state pc inst
         else match intRangeTransfer f state inst with
              | Some state => Some state
              | None => uintRangeTransfer f state inst
              end in
       match modelled with
       | Some state => (state, false)
       | None => (forgetWrites (Body f) state pc inst, false)
       end).

(** ** Basic blocks *)

Record rangeBlock := NewRangeBlock { successors : list Z; start : Z; blockEnd : Z }.

(** [for pc := from; pc < limit; pc += instructionFootprint(body, pc)]: the
    program counters visited.  Each turn advances. *)
Fixpoint walkWords (fuel : nat) (body : list Instruction) (pc limit : Z) : list Z :=
  match fuel with
  | O => []
  | S fuel =>
      if limit <=? pc then []
      else pc :: walkWords fuel body (pc + instructionFootprint body pc) limit
  end.

Definition walk (body : list Instruction) (from limit : Z) : list Z :=
  walkWords (Z.to_nat (limit - from)) body from limit.

Definition addLeaders (body : list Instruction) (leaders : gset Z) (pc : Z) : gset Z :=
  let next := pc + instructionFootprint body pc in
  let leaders :=
    match JumpTargetAt body pc with
    | Some target => {[target]} ∪ {[next]} ∪ leaders
    | None => leaders
    end in
  match zget body pc with
  | Some inst =>
      if IsReturnInstruction inst || negb (isLinearFallThroughFrom inst) then {[next]} ∪ leaders
      else leaders
  | None => leaders
  end.

Definition leadersOf (body : list Instruction) : gset Z :=
  foldl (addLeaders body) {[0]} (walk body 0 (zlen body)).

(** Whether the block that reached [last] ends after it. *)
Definition endsBlock (body : list Instruction) (leaders : gset Z) (last : Z) : bool :=
  bool_decide (last + instructionFootprint body last ∈ leaders)
  || match zget body last with
     | Some inst => negb (isLinearFallThroughFrom inst) || IsReturnInstruction inst
     | None => false
     end.

(** The inner loop: the end of the block that has reached [end_]. *)
Fixpoint blockEndFrom (fuel : nat) (body : list Instruction) (leaders : gset Z) (end_ : Z) : Z :=
  match fuel with
  | O => end_
  | S fuel =>
      if zlen body <=? end_ then end_
      else
        let next := end_ + instructionFootprint body end_ in
        if endsBlock body leaders end_ then next else blockEndFrom fuel body leaders next
  end.

(** The outer loop: the bounds of the blocks from [pc] on. *)
Fixpoint blocksFrom (fuel : nat) (body : list Instruction) (leaders : gset Z) (pc : Z)
    : list (Z * Z) :=
  match fuel with
  | O => []
  | S fuel =>
      if zlen body <=? pc then []
      else
        let end_ := blockEndFrom (length body) body leaders pc in
        (pc, end_) :: blocksFrom fuel body leaders end_
  end.

Definition blockAtOf (bounds : list (Z * Z)) : gmap Z Z :=
  list_to_map (zip (map fst bounds) (seqZ 0 (zlen bounds))).

(** The last instruction of a block. *)
Definition lastWord (body : list Instruction) (bounds : Z * Z) : Z :=
  List.last (walk body (fst bounds) (snd bounds)) (fst bounds).

Definition rangeSuccessors (body : list Instruction) (bounds : Z * Z) (blockAt : gmap Z Z)
    : list Z :=
  let last := lastWord body bounds in
  let jumps :=
    match JumpTargetAt body last with
    | Some target => option_list (blockAt !! target)
    | None => []
    end in
  let falls :=
    match zget body last with
    | Some inst =>
        if isLinearFallThroughFrom inst && negb (IsReturnInstruction inst)
        then option_list (blockAt !! snd bounds) else []
    | None => []
    end in
  jumps ++ falls.

Definition blockBounds (body : list Instruction) : list (Z * Z) :=
  blocksFrom (length body) body (leadersOf body) 0.

Definition rangeBlocks (body : list Instruction) : list rangeBlock * gmap Z Z :=
  let bounds := blockBounds body in
  let blockAt := blockAtOf bounds in
  (map (λ b, NewRangeBlock (rangeSuccessors body b blockAt) (fst b) (snd b)) bounds, blockAt).

(** ** The fixed point *)

(** [pending] has the top of the stack first. *)
Record rangeSolver := NewRangeSolver {
  entries : gmap Z rangeState;
  visits : gmap Z Z;
  pending : list Z;
}.

Definition flow (solver : rangeSolver) (successor : Z) (state : rangeState) : rangeSolver :=
  match entries solver !! successor with
  | None =>
      NewRangeSolver (<[successor := state]> (entries solver)) (visits solver)
        (successor :: pending solver)
  | Some previous =>
      let next := join previous state in
      if equal next previous then solver
      else
        let count := default 0 (visits solver !! successor) + 1 in
        let next := if rangeWideningVisits <? count then widen previous next else next in
        NewRangeSolver (<[successor := next]> (entries solver))
          (<[successor := count]> (visits solver)) (successor :: pending solver)
  end.

(** The state after the instructions at the given program counters. *)
Definition transferWords (f : CompiledFunction) (state : rangeState) (words : list Z)
    : option rangeState :=
  foldl (λ state pc, state ← state; fst <$> applyRangeTransfer f state pc) (Some state) words.

Definition transferBlock (f : CompiledFunction) (state : rangeState) (block : rangeBlock)
    : option rangeState :=
  transferWords f state (walk (Body f) (start block) (blockEnd block)).

(** One turn of the worklist loop. *)
Definition solveStep (f : CompiledFunction) (blocks : list rangeBlock) (solver : rangeSolver)
    (index : Z) (rest : list Z) : option rangeSolver :=
  block ← zget blocks index;
  state ← transferBlock f (default newRangeState (entries solver !! index)) block;
  Some (foldl (λ solver successor, flow solver successor state)
    (NewRangeSolver (entries solver) (visits solver) rest) (successors block)).

(** [None] when the fuel runs out or an index is out of range. *)
Fixpoint solveFrom (fuel : nat) (f : CompiledFunction) (blocks : list rangeBlock)
    (solver : rangeSolver) : option (gmap Z rangeState) :=
  match fuel with
  | O => None
  | S fuel =>
      match pending solver with
      | [] => Some (entries solver)
      | index :: rest => solver ← solveStep f blocks solver index rest; solveFrom fuel f blocks solver
      end
  end.

(** Each block changes at most nine times before its entry state can only lose
    registers, and a state knows at most 512. *)
Definition solverFuel (blocks : list rangeBlock) : nat := 530 * length blocks + 2.

Definition solveRanges (f : CompiledFunction) (blocks : list rangeBlock) (blockAt : gmap Z Z)
    : option (gmap Z rangeState) :=
  let entry := default 0 (blockAt !! 0) in
  solveFrom (solverFuel blocks) f blocks (NewRangeSolver {[entry := newRangeState]} ∅ [entry]).

(** ** The elision *)

Fixpoint elideWords (fuel : nat) (f : CompiledFunction) (state : rangeState) (pc limit : Z)
    (removed : bool) : option (CompiledFunction * bool) :=
  match fuel with
  | O => Some (f, removed)
  | S fuel =>
      if limit <=? pc then Some (f, removed)
      else
        result ← applyRangeTransfer f state pc;
        let '(state, fits) := (result : rangeState * bool) in
        let '(f, removed) :=
          if fits then (setBody f (zset (Body f) pc nop), true) else (f, removed) in
        elideWords fuel f state (pc + instructionFootprint (Body f) pc) limit removed
  end.

Fixpoint elideBlocks (f : CompiledFunction) (entries : gmap Z rangeState)
    (blocks : list (Z * rangeBlock)) (removed : bool) : option (CompiledFunction * bool) :=
  match blocks with
  | [] => Some (f, removed)
  | (index, block) :: blocks =>
      match entries !! index with
      | None => elideBlocks f entries blocks removed
      | Some entry =>
          result ← elideWords (Z.to_nat (blockEnd block - start block)) f entry
                     (start block) (blockEnd block) removed;
          elideBlocks (fst result) entries blocks (snd result)
      end
  end.

(** The function after the pass, and whether a truncation was removed. *)
Definition elideRangedTruncates (f : CompiledFunction) : option (CompiledFunction * bool) :=
  let body := Body f in
  if (zlen body =? 0) || (maxRangeAnalysisWords <? zlen body) || bodyHasTypeSwitch body
     || MayCreateSharedCells f then Some (f, false)
  else
    let '(blocks, blockAt) := rangeBlocks body in
    entries ← solveRanges f blocks blockAt;
    elideBlocks f entries (zip (seqZ 0 (zlen blocks)) blocks) false.
