(* ===== verification/RangesSound.v ===== *)
(** * The transfer of ranges is sound

    The states of [Ranges] against the registers of [Machine]: a transfer
    covers the step of its instruction.  The solver and the elision are in
    [RangesSolve]. *)

From S2P Require Import Prelude SafeConv Register Opcode Instruction Shapes Spec JumpLayout Jumps.
From S2P Require Import Extension Function Builder Verify VerifySound Machine MachineSafe MachineFlow.
From S2P Require Import FuseNarrow PassFacts Ranges.

(** ** What a state says of the registers *)

Record holds (state : rangeState) (r : Registers) : Prop := {
  holds_ints reg rng : ints state !! reg = Some rng →
    ∃ v, zget (Ints r) reg = Some v ∧ lo rng <= v <= hi rng;
  holds_uints reg rng : uints state !! reg = Some rng →
    ∃ v, zget (Uints r) reg = Some v ∧ ulo rng <= v <= uhi rng;
}.

Definition wf_intRange (rng : intRange) : Prop := isS 64 (lo rng) ∧ isS 64 (hi rng).
Definition wf_uintRange (rng : uintRange) : Prop := isU 64 (ulo rng) ∧ isU 64 (uhi rng).

(** States of byte registers and machine words. *)
Record wf_state (state : rangeState) : Prop := {
  wfs_ints reg rng : ints state !! reg = Some rng → byte_ok reg ∧ wf_intRange rng;
  wfs_uints reg rng : uints state !! reg = Some rng → byte_ok reg ∧ wf_uintRange rng;
}.

Lemma holds_new r : holds newRangeState r.
Proof. split; intros reg rng; cbn; by rewrite lookup_empty. Qed.
Lemma wf_new : wf_state newRangeState.
Proof. split; intros reg rng; cbn; by rewrite lookup_empty. Qed.

Lemma isS_min w x y : isS w x → isS w y → isS w (Z.min x y).
Proof. unfold isS. lia. Qed.
Lemma isS_max w x y : isS w x → isS w y → isS w (Z.max x y).
Proof. unfold isS. lia. Qed.
Lemma isU_min w x y : isU w x → isU w y → isU w (Z.min x y).
Proof. unfold isU. lia. Qed.
Lemma isU_max w x y : isU w x → isU w y → isU w (Z.max x y).
Proof. unfold isU. lia. Qed.
#[local] Hint Resolve isS_min isS_max isU_min isU_max : typed.

(** [state] says no more than [other]. *)
Definition weaker (state other : rangeState) : Prop := ∀ r, holds other r → holds state r.

#[export] Instance weaker_preorder : PreOrder weaker.
Proof. split; [by intros s r|]. intros s1 s2 s3 H1 H2 r Hr. by apply H1, H2. Qed.

Lemma lookup_join_ints state other reg rng :
  ints (join state other) !! reg = Some rng ↔
  ∃ known incoming, ints state !! reg = Some known ∧ ints other !! reg = Some incoming ∧
    rng = joinIntRange known incoming.
Proof.
  unfold join. cbn [ints]. rewrite map_lookup_imap.
  destruct (ints state !! reg), (ints other !! reg); naive_solver.
Qed.
Lemma lookup_join_uints state other reg rng :
  uints (join state other) !! reg = Some rng ↔
  ∃ known incoming, uints state !! reg = Some known ∧ uints other !! reg = Some incoming ∧
    rng = joinUintRange known incoming.
Proof.
  unfold join. cbn [uints]. rewrite map_lookup_imap.
  destruct (uints state !! reg), (uints other !! reg); naive_solver.
Qed.

Lemma join_weaker_l state other : weaker (join state other) state.
Proof.
  intros r [Hi Hu]. split; intros reg rng.
  - intros (known & incoming & Hk & _ & ->)%lookup_join_ints.
    destruct (Hi _ _ Hk) as (v & Hv & ?). exists v. split; [done|]. cbn. lia.
  - intros (known & incoming & Hk & _ & ->)%lookup_join_uints.
    destruct (Hu _ _ Hk) as (v & Hv & ?). exists v. split; [done|]. cbn. lia.
Qed.

Lemma join_weaker_r state other : weaker (join state other) other.
Proof.
  intros r [Hi Hu]. split; intros reg rng.
  - intros (known & incoming & _ & Hk & ->)%lookup_join_ints.
    destruct (Hi _ _ Hk) as (v & Hv & ?). exists v. split; [done|]. cbn. lia.
  - intros (known & incoming & _ & Hk & ->)%lookup_join_uints.
    destruct (Hu _ _ Hk) as (v & Hv & ?). exists v. split; [done|]. cbn. lia.
Qed.

Lemma wf_join state other : wf_state state → wf_state other → wf_state (join state other).
Proof.
  intros [Hi Hu] [Hi' Hu']. split; intros reg rng.
  - intros (known & incoming & Hk & Hn & ->)%lookup_join_ints.
    destruct (Hi _ _ Hk) as (? & ? & ?), (Hi' _ _ Hn) as (_ & ? & ?).
    split; [done|]. split; cbn; eauto with typed.
  - intros (known & incoming & Hk & Hn & ->)%lookup_join_uints.
    destruct (Hu _ _ Hk) as (? & ? & ?), (Hu' _ _ Hn) as (_ & ? & ?).
    split; [done|]. split; cbn; eauto with typed.
Qed.

Lemma lookup_widen_ints state next reg rng :
  ints (widen state next) !! reg = Some rng ↔
  ints next !! reg = Some rng ∧ intAt state reg = rng.
Proof.
  unfold widen. cbn [ints]. rewrite map_lookup_imap.
  destruct (ints next !! reg) as [known|]; cbn; [|naive_solver].
  case_bool_decide; naive_solver.
Qed.
Lemma lookup_widen_uints state next reg rng :
  uints (widen state next) !! reg = Some rng ↔
  uints next !! reg = Some rng ∧ uints state !! reg = Some rng.
Proof.
  unfold widen, uintKnown, uintAt. cbn [uints]. rewrite map_lookup_imap.
  destruct (uints next !! reg) as [known|]; cbn; [|naive_solver].
  destruct (uints state !! reg) as [rng'|]; cbn.
  - case_bool_decide; naive_solver.
  - naive_solver.
Qed.

Lemma widen_weaker state next : weaker (widen state next) next.
Proof.
  intros r [Hi Hu]. split; intros reg rng.
  - intros [Hk _]%lookup_widen_ints. by apply Hi.
  - intros [Hk _]%lookup_widen_uints. by apply Hu.
Qed.

Lemma wf_widen state next : wf_state next → wf_state (widen state next).
Proof.
  intros [Hi Hu]. split; intros reg rng.
  - intros [Hk _]%lookup_widen_ints. by apply Hi.
  - intros [Hk _]%lookup_widen_uints. by apply Hu.
Qed.

(** ** Arithmetic *)

Lemma wrapS_congruent w x : 0 < w → ∃ k, wrapS w x = x + k * 2 ^ w.
Proof.
  intros Hw. unfold wrapS. exists (- ((x + 2 ^ (w - 1)) / 2 ^ w)).
  pose proof (Z.div_mod (x + 2 ^ (w - 1)) (2 ^ w)). lia.
Qed.

(** Dividing a wrapped product by a factor gives the other one back only when
    the product did not wrap. *)
Lemma product_check x y :
  isS 64 x → isS 64 y → y ≠ 0 → wrapS 64 (Z.quot (wrapS 64 (x * y)) y) = x →
  ¬ (y = -1 ∧ x = MinInt64) → wrapS 64 (x * y) = x * y.
Proof.
  intros Hx Hy Hy0 Hq Hmin. destruct (wrapS_congruent 64 (x * y)) as [k Hk]; [lia|].
  pose proof (isS_wrapS64 (x * y)) as Hp.
  destruct (decide (y = -1)) as [->|Hy1].
  { apply wrapS_id; [lia|]. word_unfold. lia. }
  set (p := wrapS 64 (x * y)) in *.
  pose proof (Z.quot_rem p y Hy0) as Hdiv. pose proof (Z.rem_bound_abs p y Hy0) as Hrem.
  assert (Hs : isS 64 (Z.quot p y)).
  { destruct (decide (y = 1)) as [->|]; [by rewrite Z.quot_1_r|].
    assert (Z.abs (Z.quot p y) <= Z.abs p / 2).
    { rewrite <- Z.quot_abs, Z.quot_div_nonneg by lia. apply Z.div_le_compat_l; lia. }
    word. }
  rewrite wrapS_id in Hq by (done || lia). rewrite Hq in Hdiv. clearbody p. clear Hq Hs Hmin.
  assert (Z.abs (k * 2 ^ 64) < 2 ^ 63); [|norm_pow; assert (k = 0) as -> by lia; lia].
  replace (k * 2 ^ 64) with (Z.rem p y) by lia. word_unfold. lia.
Qed.

(** The operation a range operation stands for. *)
Definition intOperation (op : Opcode) (x y : Z) : Z :=
  if op =? OpAddInt then x + y else if op =? OpSubInt then x - y else x * y.

Lemma intCorner_exact op x y v :
  isS 64 x → isS 64 y → intCorner op x y = Some v → v = intOperation op x y ∧ isS 64 v.
Proof.
  intros Hx Hy. unfold intCorner, intOperation.
  destruct (op =? OpAddInt); [|destruct (op =? OpSubInt)].
  - case_if; [|done]. intros [= <-]. split; [|by apply isS_wrapS64].
    revert E. destruct (y =? 0) eqn:E0; [bool_hyps; subst; intros _; rewrite Z.add_0_r; by apply wrapS_id|].
    rewrite orb_false_r. intros E%eqb_prop. word_unfold. bool_hyps.
    destruct (x <? _) eqn:E1, (0 <? y) eqn:E2; try done; bool_hyps; Z.div_mod_to_equations; lia.
  - case_if; [|done]. intros [= <-]. split; [|by apply isS_wrapS64].
    revert E. destruct (y =? 0) eqn:E0; [bool_hyps; subst; intros _; rewrite Z.sub_0_r; by apply wrapS_id|].
    rewrite orb_false_r. intros E%eqb_prop. word_unfold. bool_hyps.
    destruct (_ <? x) eqn:E1, (0 <? y) eqn:E2; try done; bool_hyps; Z.div_mod_to_equations; lia.
  - destruct ((x =? 0) || (y =? 0)) eqn:E0.
    + intros [= <-]. split; [bool_hyps; destruct E0; bool_hyps; subst; lia|word].
    + bool_hyps. case_if; [|done]. intros [= <-]. split; [|by apply isS_wrapS64]. bool_hyps.
      unfold intOperation. apply product_check; try done.
      intros [-> ->]. by destruct H2.
Qed.

Lemma linear_between (a b x k l h : Z) :
  a <= x <= b → l <= a * k <= h → l <= b * k <= h → l <= x * k <= h.
Proof. intros. destruct (Z.le_ge_cases 0 k); nia. Qed.

Lemma intCorner_range op x y v : intCorner op x y = Some v → isS 64 v.
Proof.
  unfold intCorner. repeat case_if; intros [= <-]; try apply isS_wrapS64. word.
Qed.

Lemma wf_fullIntRange : wf_intRange fullIntRange.
Proof. split; cbn; word. Qed.

Lemma hullOfCorners_spec op corners result :
  wf_intRange result →
  let r := hullOfCorners op corners result in
  wf_intRange r ∧
  (r = fullIntRange ∨
   (lo r <= lo result ∧ hi result <= hi r ∧
    Forall (λ '(x, y), ∃ v, intCorner op x y = Some v ∧ lo r <= v <= hi r) corners)).
Proof.
  revert result. induction corners as [|[x y] corners IH]; intros result Hwf; cbn zeta.
  - split; [done|]. right. cbn. split; [lia|]. split; [lia|constructor].
  - cbn [hullOfCorners]. destruct (intCorner op x y) as [v|] eqn:Ec.
    2: { split; [apply wf_fullIntRange|by left]. }
    pose proof (intCorner_range _ _ _ _ Ec) as Hv. destruct Hwf as [Hl Hh].
    destruct (IH (NewIntRange (Z.min (lo result) v) (Z.max (hi result) v))) as [Hr Hcases].
    { split; cbn; eauto with typed. }
    split; [done|]. destruct Hcases as [->|(H1 & H2 & H3)]; [by left|]. right. cbn in H1, H2.
    split; [lia|]. split; [lia|]. constructor; [|done]. exists v. split; [done|lia].
Qed.

(** The range of an operation holds its results, which do not wrap unless the
    range is the full one. *)
Lemma combineInts_sound op b c x y :
  wf_intRange b → wf_intRange c → lo b <= x <= hi b → lo c <= y <= hi c →
  wf_intRange (combineInts op b c) ∧
  lo (combineInts op b c) <= wrapS 64 (intOperation op x y) <= hi (combineInts op b c).
Proof.
  intros [Hb1 Hb2] [Hc1 Hc2] Hx Hy. unfold combineInts.
  destruct (hullOfCorners_spec op
    [(lo b, lo c); (lo b, hi c); (hi b, lo c); (hi b, hi c)] (NewIntRange MaxInt64 MinInt64))
    as [Hwf Hcases]; [split; cbn; word|].
  set (r := hullOfCorners _ _ _) in *. split; [done|].
  destruct Hcases as [->|(_ & _ & Hcorners)].
  { cbn. pose proof (isS_wrapS64 (intOperation op x y)). word. }
  repeat setoid_rewrite Forall_cons in Hcorners.
  destruct Hcorners as ((v1 & E1 & ?) & (v2 & E2 & ?) & (v3 & E3 & ?) & (v4 & E4 & ?) & _).
  apply intCorner_exact in E1 as [-> _], E2 as [-> _], E3 as [-> _], E4 as [-> _]; try done.
  assert (Hin : lo r <= intOperation op x y <= hi r).
  { unfold intOperation in *. destruct (op =? OpAddInt); [lia|]. destruct (op =? OpSubInt); [lia|].
    apply (linear_between (lo b) (hi b)); [done| |];
      rewrite (Z.mul_comm _ y); apply (linear_between (lo c) (hi c)); try done;
      by rewrite (Z.mul_comm _ (_ b)). }
  rewrite wrapS_id; [done|lia|]. destruct Hwf. unfold isS in *. lia.
Qed.

Lemma land_between x y : 0 <= x → 0 <= Z.land x y <= x.
Proof.
  intros Hx. apply Z.ldiff_le; [done|]. apply Z.bits_inj'. intros n Hn.
  rewrite Z.ldiff_spec, Z.land_spec, Z.bits_0. by destruct (Z.testbit x n), (Z.testbit y n).
Qed.

Lemma andIntRange_sound b bKnown c cKnown x y rng :
  (bKnown = true → lo b <= x <= hi b ∧ wf_intRange b) →
  (cKnown = true → lo c <= y <= hi c ∧ wf_intRange c) →
  andIntRange b bKnown c cKnown = (rng, true) →
  wf_intRange rng ∧ lo rng <= Z.land x y <= hi rng.
Proof.
  intros Hb Hc. unfold andIntRange.
  destruct (bKnown && (0 <=? lo b)) eqn:Eb, (cKnown && (0 <=? lo c)) eqn:Ec; cbn [andb];
    intros [= <-]; bool_hyps; subst.
  all: try (destruct (Hb eq_refl) as [? [? ?]]; pose proof (land_between x y)).
  all: try (destruct (Hc eq_refl) as [? [? ?]]; pose proof (land_between y x) as Hy;
    rewrite (Z.land_comm y x) in Hy).
  all: unfold wf_intRange; cbn [lo hi]; split; [split; [word|eauto with typed]|lia].
Qed.

Lemma allOnesCovering_ones v : 0 < v → isU 64 v → allOnesCovering v = Z.ones (Z.log2 v + 1).
Proof.
  intros Hv Hu. unfold allOnesCovering, LeadingZeros64.
  rewrite (proj2 (Z.eqb_neq v 0)) by lia.
  assert (Z.log2 v < 64) by (apply Z.log2_lt_pow2; unfold isU in Hu; lia).
  pose proof (Z.log2_nonneg v).
  change MaxUint64 with (Z.ones 64). rewrite Z.shiftr_div_pow2, Z.ones_div_pow2 by lia.
  f_equal. lia.
Qed.

(** A value whose top bit is no higher than the bound's. *)
Lemma allOnesCovering_bound v m :
  0 <= v → 0 <= m → isU 64 m → (0 < v → 0 < m ∧ Z.log2 v <= Z.log2 m) →
  isU 64 (allOnesCovering m) ∧ v <= allOnesCovering m.
Proof.
  intros Hv Hm Hu Hlog. destruct (decide (m = 0)) as [->|].
  - change (allOnesCovering 0) with 0. split; [word|]. destruct (decide (0 < v)); [|lia].
    destruct Hlog; lia.
  - rewrite allOnesCovering_ones by (done || lia). rewrite Z.ones_equiv.
    assert (Z.log2 m < 64) by (apply Z.log2_lt_pow2; unfold isU in Hu; lia).
    pose proof (Z.log2_nonneg m).
    pose proof (Z.pow_le_mono_r 2 (Z.log2 m + 1) 64). pose proof (Z.pow_pos_nonneg 2 (Z.log2 m + 1)).
    split; [unfold isU; lia|]. destruct (decide (v = 0)) as [->|]; [lia|].
    destruct Hlog as [_ Hlog]; [lia|].
    assert (v < 2 ^ (Z.log2 m + 1)); [|lia]. apply Z.log2_lt_pow2; lia.
Qed.

Lemma lor_lxor_bound x y m :
  0 <= x <= m → 0 <= y <= m → isU 64 m →
  isU 64 (allOnesCovering m) ∧ 0 <= Z.lor x y <= allOnesCovering m ∧
  0 <= Z.lxor x y <= allOnesCovering m.
Proof.
  intros Hx Hy Hm.
  pose proof (Z.log2_le_mono x m). pose proof (Z.log2_le_mono y m).
  assert (Hor : 0 <= Z.lor x y) by (apply Z.lor_nonneg; lia).
  assert (Hxor : 0 <= Z.lxor x y) by (apply Z.lxor_nonneg; lia).
  pose proof (Z.log2_lor x y). pose proof (Z.log2_lxor x y).
  assert (Hpos : ∀ v, 0 < v → v = Z.lor x y ∨ v = Z.lxor x y → 0 < m).
  { intros v Hv Heq. destruct (decide (m = 0)) as [->|]; [|lia].
    assert (x = 0) as -> by lia. assert (y = 0) as -> by lia.
    rewrite Z.lor_0_r, Z.lxor_0_r in Heq. lia. }
  destruct (allOnesCovering_bound (Z.lor x y) m) as [Hu Hle]; [lia|lia|done| |].
  { intros Hv. split; [eauto|]. lia. }
  destruct (allOnesCovering_bound (Z.lxor x y) m) as [_ Hle']; [lia|lia|done| |].
  { intros Hv. split; [eauto|]. lia. }
  split; [done|lia].
Qed.

Lemma shiftRightUint_mono x x' n n' :
  0 <= x <= x' → 0 <= n <= n' → 0 <= shiftRightUint x n' <= shiftRightUint x' n.
Proof.
  intros Hx Hn. unfold shiftRightUint. rewrite !Z.shiftr_div_pow2 by lia.
  assert (0 < 2 ^ n) by (apply Z.pow_pos_nonneg; lia).
  assert (2 ^ n <= 2 ^ n') by (apply Z.pow_le_mono_r; lia).
  repeat case_if; bool_hyps; try lia.
  - split; [lia|]. apply Z.div_pos; lia.
  - split; [apply Z.div_pos; lia|]. trans (x / 2 ^ n); [apply Z.div_le_compat_l; lia|].
    apply Z.div_le_mono; lia.
Qed.

(** ** Updating a state with the registers *)

Lemma wf_intAt state reg : wf_state state → wf_intRange (intAt state reg).
Proof.
  intros Hwf. unfold intAt. destruct (ints state !! reg) eqn:E; cbn; [by eapply Hwf|].
  split; cbn; word.
Qed.
Lemma wf_uintAt state reg : wf_state state → wf_uintRange (uintAt state reg).
Proof.
  intros Hwf. unfold uintAt. destruct (uints state !! reg) eqn:E; cbn; [by eapply Hwf|].
  split; cbn; word.
Qed.

Lemma wf_setIntResult state reg rng known :
  wf_state state → byte_ok reg → (known = true → wf_intRange rng) →
  wf_state (setIntResult state reg rng known).
Proof.
  intros [Hi Hu] Hreg Hrng. split; [|done]. intros reg' rng'. unfold setIntResult. cbn.
  destruct known; cbn [negb].
  - rewrite lookup_insert. case_decide; [|apply Hi]. intros [= <-]. subst. auto.
  - rewrite lookup_delete. case_decide; [done|apply Hi].
Qed.
Lemma wf_setUintResult state reg rng known :
  wf_state state → byte_ok reg → (known = true → wf_uintRange rng) →
  wf_state (setUintResult state reg rng known).
Proof.
  intros [Hi Hu] Hreg Hrng. split; [done|]. intros reg' rng'. unfold setUintResult. cbn.
  destruct known; cbn [negb].
  - rewrite lookup_insert. case_decide; [|apply Hu]. intros [= <-]. subst. auto.
  - rewrite lookup_delete. case_decide; [done|apply Hu].
Qed.

Section updates.
Context (state : rangeState) (r : Registers) (Hst : holds state r).

Lemma known_int reg :
  intKnown state reg = true →
  ∃ v, zget (Ints r) reg = Some v ∧ lo (intAt state reg) <= v <= hi (intAt state reg).
Proof.
  unfold intKnown, intAt. rewrite bool_decide_eq_true. intros [rng Hrng]. rewrite Hrng. cbn.
  by eapply Hst.
Qed.
Lemma known_uint reg :
  uintKnown state reg = true →
  ∃ v, zget (Uints r) reg = Some v ∧ ulo (uintAt state reg) <= v <= uhi (uintAt state reg).
Proof.
  unfold uintKnown, uintAt. rewrite bool_decide_eq_true. intros [rng Hrng]. rewrite Hrng. cbn.
  by eapply Hst.
Qed.

Lemma holds_setIntResult reg rng known v :
  is_Some (zget (Ints r) reg) → (known = true → lo rng <= v <= hi rng) →
  holds (setIntResult state reg rng known)
    (NewRegisters (zset (Ints r) reg v) (Uints r) (Strings r) (Bools r)).
Proof.
  intros [old Hold] Hrng. pose proof (zget_Some_range _ _ _ Hold) as Hr.
  split; [|apply Hst]. intros reg' rng'. unfold setIntResult. cbn.
  destruct known; cbn [negb]; [rewrite lookup_insert|rewrite lookup_delete]; case_decide; try done.
  - intros [= <-]. subst. exists v. split; [by apply zget_zset_eq|auto].
  - rewrite zget_zset_ne by done. apply Hst.
  - rewrite zget_zset_ne by done. apply Hst.
Qed.

Lemma holds_setUintResult reg rng known v :
  is_Some (zget (Uints r) reg) → (known = true → ulo rng <= v <= uhi rng) →
  holds (setUintResult state reg rng known)
    (NewRegisters (Ints r) (zset (Uints r) reg v) (Strings r) (Bools r)).
Proof.
  intros [old Hold] Hrng. pose proof (zget_Some_range _ _ _ Hold) as Hr.
  split; [apply Hst|]. intros reg' rng'. unfold setUintResult. cbn.
  destruct known; cbn [negb]; [rewrite lookup_insert|rewrite lookup_delete]; case_decide; try done.
  - intros [= <-]. subst. exists v. split; [by apply zget_zset_eq|auto].
  - rewrite zget_zset_ne by done. apply Hst.
  - rewrite zget_zset_ne by done. apply Hst.
Qed.
End updates.

(** ** The transfer keeps states well formed *)

Lemma isS_pool f i rng ok : typed_pools f → intPoolRange f i = (rng, ok) → wf_intRange rng.
Proof.
  intros Hp. unfold intPoolRange. destruct (zget (IntConstants f) i) eqn:E; intros [= <- <-].
  - split; cbn; eauto with typed.
  - split; cbn; word.
Qed.
Lemma isU_pool f i v ok : typed_pools f → uintPoolBound f i = (v, ok) → isU 64 v.
Proof.
  intros Hp. unfold uintPoolBound. destruct (zget (UintConstants f) i) eqn:E; intros [= <- <-].
  - eauto with typed.
  - word.
Qed.

Lemma wf_boundOrMax rng known : isU 64 (uhi rng) → isU 64 (boundOrMax rng known).
Proof. intros ?. unfold boundOrMax. case_if; [done|word]. Qed.

Lemma wf_combineInts op b c : wf_intRange (combineInts op b c).
Proof.
  unfold combineInts. eapply (proj1 (hullOfCorners_spec _ _ _ _)). Unshelve. split; cbn; word.
Qed.

Lemma wf_andIntRange b bKnown c cKnown rng ok :
  wf_intRange b → wf_intRange c → andIntRange b bKnown c cKnown = (rng, ok) → wf_intRange rng.
Proof.
  intros [_ Hb] [_ Hc]. unfold andIntRange.
  destruct (bKnown && (0 <=? lo b)), (cKnown && (0 <=? lo c)); intros [= <- _];
    (split; cbn; [word|]); first [done|by apply isS_min|word].
Qed.

Lemma wf_intRangeTransfer f state inst state' :
  wf_instruction inst → typed_pools f → wf_state state →
  intRangeTransfer f state inst = Some state' → wf_state state'.
Proof.
  intros (_ & Ha & Hb & Hc) Hp Hwf. unfold intRangeTransfer.
  pose proof (wf_intAt _ (iB inst) Hwf) as [Hb1 Hb2].
  pose proof (wf_intAt _ (iC inst) Hwf) as [Hc1 Hc2].
  repeat case_if; try done.
  - destruct (zget (IntConstants f) (iB inst)) as [v|] eqn:E'; [|done]. intros [= <-].
    apply (wf_setIntResult state _ _ true); [done..|]. intros _. split; cbn; eauto with typed.
  - intros [= <-]. apply wf_setIntResult; [done..|]. intros _. apply wf_combineInts.
  - destruct (intPoolRange f (iC inst)) as [rng ok] eqn:E'. intros [= <-].
    apply wf_setIntResult; [done..|]. intros _. apply wf_combineInts.
  - destruct (andIntRange _ _ _ _) as [rng ok] eqn:E'. intros [= <-].
    apply wf_setIntResult; [done..|]. intros ->.
    eapply wf_andIntRange; [..|exact E']; by apply wf_intAt.
  - intros [= <-]. apply wf_setIntResult; [done..|]. intros _. split; cbn;
      [apply isS_min|apply isS_max]; done || word.
Qed.

Lemma isU_shiftRightUint x n : isU 64 x → 0 <= n → isU 64 (shiftRightUint x n).
Proof.
  intros Hx Hn. unfold shiftRightUint. case_if; [word|].
  pose proof (Z.shiftr_nonneg x n). pose proof (shiftr_between x n Hn). word_unfold. lia.
Qed.

Lemma wf_allOnesCovering v : isU 64 v → isU 64 (allOnesCovering v).
Proof. intros Hv. destruct (lor_lxor_bound 0 0 v) as [? _]; [unfold isU in Hv; lia..|done|done]. Qed.

Lemma wf_uintRangeTransfer f state inst state' :
  wf_instruction inst → typed_pools f → wf_state state →
  uintRangeTransfer f state inst = Some state' → wf_state state'.
Proof.
  intros (_ & Ha & Hb & Hc) Hp Hwf. unfold uintRangeTransfer.
  pose proof (wf_uintAt _ (iB inst) Hwf) as [Hb1 Hb2].
  pose proof (wf_uintAt _ (iC inst) Hwf) as [Hc1 Hc2].
  repeat case_if; try done; bool_hyps.
  - destruct (zget (UintConstants f) (iB inst)) as [v|] eqn:E'; [|done]. intros [= <-].
    apply (wf_setUintResult state _ _ true); [done..|]. intros _. split; cbn; eauto with typed.
  - intros [= <-]. apply wf_setUintResult; [done..|]. intros _. split; cbn; apply isU_wrapU64.
  - intros [= <-]. apply wf_setUintResult; [done..|]. intros _. split; cbn; [word|].
    apply isU_min; by apply wf_boundOrMax.
  - intros [= <-]. apply wf_setUintResult; [done..|]. intros _. split; cbn; [word|].
    apply wf_allOnesCovering. by apply isU_max.
  - intros [= <-]. apply wf_setUintResult; [done..|]. intros _.
    split; cbn [ulo uhi]; (apply isU_shiftRightUint; [done|unfold isU in *; lia || word]).
  - intros [= <-]. apply wf_setUintResult; [done..|]. intros _.
    split; cbn [ulo uhi]; (apply isU_shiftRightUint; [done|unfold isU in *; lia || word]).
Qed.

Lemma wf_delete_ints state m :
  wf_state state → (∀ reg, m !! reg = ints state !! reg ∨ m !! reg = None) → wf_state (setInts state m).
Proof.
  intros [Hi Hu] Hm. split; [|done]. intros reg rng. cbn.
  destruct (Hm reg) as [-> | ->]; [apply Hi|done].
Qed.
Lemma wf_delete_uints state m :
  wf_state state → (∀ reg, m !! reg = uints state !! reg ∨ m !! reg = None) → wf_state (setUints state m).
Proof.
  intros [Hi Hu] Hm. split; [done|]. intros reg rng. cbn.
  destruct (Hm reg) as [-> | ->]; [apply Hu|done].
Qed.

Lemma wf_forgetRegister state kind reg : wf_state state → wf_state (forgetRegister state kind reg).
Proof.
  intros Hwf. unfold forgetRegister. repeat case_if; [| |done].
  - apply wf_delete_ints; [done|]. intros reg'. rewrite lookup_delete. case_decide; auto.
  - apply wf_delete_uints; [done|]. intros reg'. rewrite lookup_delete. case_decide; auto.
Qed.

Lemma wf_tier1RangeTransfer f state pc inst state' :
  wf_instruction inst → typed_pools f → wf_state state →
  tier1RangeTransfer f state pc inst = Some state' → wf_state state'.
Proof.
  intros (_ & Ha & Hb & Hc) Hp Hwf. unfold tier1RangeTransfer.
  pose proof (wf_uintAt _ (iC inst) Hwf) as [Hu1 Hu2].
  pose proof (wf_intAt _ (iC inst) Hwf) as [Hc1 Hc2].
  repeat lazymatch goal with
  | |- (if _ then _ else _) = _ → _ => case_if; bool_hyps
  end.
  - intros [= <-]. apply (wf_setIntResult state _ _ true); [done..|]. intros _.
    split; cbn; by apply isS_byte.
  - intros [= <-]. apply (wf_setUintResult state _ _ true); [done..|]. intros _.
    split; cbn; by apply isU_byte.
  - intros [= <-]. apply wf_setIntResult; [done..|]. by split.
  - intros [= <-]. apply wf_setUintResult; [done..|]. by split.
  - intros [= <-]. apply wf_setIntResult; [done..|]. intros _. split; cbn; apply isS_wrapS64.
  - intros [= <-]. apply wf_setUintResult; [done..|]. intros _. split; cbn; apply isU_wrapU64.
  - intros [= <-]. apply (wf_setUintResult state _ _ true); [done..|]. intros _.
    split; cbn; unfold byteValueMax; word.
  - destruct (if InstrIsTier1SubOp inst SubOpBitAndUintConst then _ else _) as [ext|].
    + destruct (uintPoolBound _ _) as [mask ok] eqn:E'. intros [= <-].
      apply wf_setUintResult; [done..|]. intros _. split; cbn; [word|].
      apply isU_min; apply wf_boundOrMax; [by eapply isU_pool|done].
    + case_if; [intros [= <-]; by apply wf_forgetRegister|]. case_if; [|done]. by intros [= <-].
Qed.

(** *** Forgetting *)

(** [fewer] forgets registers of [state] and keeps the ranges of the rest. *)
Definition fewer (state fewer : rangeState) : Prop :=
  ints fewer ⊆ ints state ∧ uints fewer ⊆ uints state.

#[export] Instance fewer_preorder : PreOrder fewer.
Proof. split; [by split|]. intros s1 s2 s3 [? ?] [? ?]. split; by etrans. Qed.

Lemma fewer_wf state state' : fewer state state' → wf_state state → wf_state state'.
Proof.
  intros [Hi Hu] [Hi' Hu']. split; intros reg rng H.
  - apply Hi'. by eapply lookup_weaken.
  - apply Hu'. by eapply lookup_weaken.
Qed.

Lemma fewer_new state : fewer state newRangeState.
Proof. split; apply map_empty_subseteq. Qed.

Lemma fewer_forgetRegister state kind reg : fewer state (forgetRegister state kind reg).
Proof.
  unfold forgetRegister. repeat case_if; split; cbn; try done; apply delete_subseteq.
Qed.

Lemma fewer_extensionWord body state owner word kind state' :
  forgetExtensionWordWrites body state owner word kind = Some state' → fewer state state'.
Proof.
  unfold forgetExtensionWordWrites. destruct (zget body owner); [|done].
  destruct (zget body word) as [ext|]; [|done]. cbn [mbind option_bind].
  destruct (ExtensionRegisterUse _ _ _) as [[reads writes] ok]. case_if; [done|].
  intros [= <-]. cbn [foldl].
  repeat case_if; repeat (etrans; [|apply fewer_forgetRegister]); done.
Qed.

Lemma fewer_extensionWrites body state pc inst state' :
  forgetExtensionWrites body state pc inst = Some state' → fewer state state'.
Proof.
  unfold forgetExtensionWrites.
  destruct (fst (JumpLayoutOf inst)); try (by intros [= <-]); try done.
  generalize (seqZ (pc + 1) (instructionFootprint body pc - 1)). intros words.
  revert state. induction words as [|word words IH]; intros state; cbn; [by intros [= <-]|].
  destruct (forgetExtensionWordWrites _ _ _ _ RegisterInt) as [s1|] eqn:E1; [|done]. cbn.
  destruct (forgetExtensionWordWrites _ _ _ _ RegisterUint) as [s2|] eqn:E2; [|done]. cbn.
  intros H%IH. etrans; [by eapply fewer_extensionWord|]. etrans; [by eapply fewer_extensionWord|].
  done.
Qed.

Lemma delete_all_subseteq {A} (regs : list Z) (m : gmap Z A) :
  foldl (λ m reg, delete reg m) m regs ⊆ m.
Proof.
  revert m. induction regs as [|reg regs IH]; intros m; cbn; [done|].
  etrans; [apply IH|]. apply delete_subseteq.
Qed.

Lemma delete_all_lookup {A} (regs : list Z) (m : gmap Z A) reg x :
  foldl (λ m reg, delete reg m) m regs !! reg = Some x → reg ∉ regs.
Proof.
  revert m. induction regs as [|reg' regs IH]; intros m; cbn; [by intros _ ?%not_elem_of_nil|].
  intros H. rewrite not_elem_of_cons. split; [|by eapply IH]. intros ->.
  pose proof (lookup_weaken _ _ _ _ H (delete_all_subseteq regs (delete reg' m))) as H'.
  by rewrite lookup_delete_eq in H'.
Qed.

(** What is known after an instruction with undescribed results was known
    before, of registers the instruction does not write. *)
Lemma forgetWrites_spec body state pc inst :
  let state' := forgetWrites body state pc inst in
  fewer state state' ∧
  (∀ reg rng, ints state' !! reg = Some rng →
    instructionWritesRegisterInBank inst (RoleForKind RegisterInt) reg = false) ∧
  (∀ reg rng, uints state' !! reg = Some rng →
    instructionWritesRegisterInBank inst (RoleForKind RegisterUint) reg = false).
Proof.
  cbn zeta. unfold forgetWrites.
  assert (Hnew : fewer state newRangeState ∧
    (∀ reg rng, ints newRangeState !! reg = Some rng →
      instructionWritesRegisterInBank inst (RoleForKind RegisterInt) reg = false) ∧
    (∀ reg rng, uints newRangeState !! reg = Some rng →
      instructionWritesRegisterInBank inst (RoleForKind RegisterUint) reg = false)).
  { split; [apply fewer_new|]. cbn. split; intros reg rng; by rewrite lookup_empty. }
  case_if; [exact Hnew|]. case_if; [exact Hnew|].
  destruct (forgetExtensionWrites body state pc inst) as [state'|] eqn:Ee; [|exact Hnew].
  apply fewer_extensionWrites in Ee as [Hi Hu]. bool_hyps.
  split; [split; cbn; (etrans; [apply delete_all_subseteq|done])|].
  cbn. split; intros reg rng Hl%delete_all_lookup; unfold instructionWritesRegisterInBank;
    rewrite bool_decide_eq_false_2 by done; by rewrite orb_false_r.
Qed.

Lemma wf_truncateRange state inst :
  wf_instruction inst → wf_state state → wf_state (fst (truncateRange state inst)).
Proof.
  intros (_ & Ha & Hb & _) Hwf. unfold truncateRange. repeat case_if; cbn; try done; bool_hyps.
  - apply (wf_setUintResult state _ _ true); [done..|]. intros _. split; cbn; [word|apply isU_wrapU64].
  - apply (wf_setIntResult state _ _ true); [done..|]. intros _. unfold registerBits in *.
    assert (Hw : 0 <= iB inst - 1 <= 62) by (unfold isU in Hb; lia).
    rewrite !Z.shiftl_mul_pow2 by lia.
    assert (1 <= 2 ^ (iB inst - 1) <= 2 ^ 62)
      by (split; [change 1 with (2 ^ 0)|]; apply Z.pow_le_mono_r; lia).
    split; cbn [lo hi]; word_unfold; lia.
Qed.

Lemma transfer_wf f state pc state' fits :
  wf_body (Body f) → typed_pools f → wf_state state →
  applyRangeTransfer f state pc = Some (state', fits) → wf_state state'.
Proof.
  intros Hwf Hp Hst. unfold applyRangeTransfer.
  destruct (zget (Body f) pc) as [inst|] eqn:Hg; [|done]. cbn [mbind option_bind]. intros [= H].
  pose proof (wf_body_zget _ _ _ Hwf Hg) as Hi. revert H.
  case_if; [by intros [= <- _]|]. case_if.
  { pose proof (wf_truncateRange state inst Hi Hst) as Ht. intros H. by rewrite H in Ht. }
  case_match eqn:Em; intros [= <- _].
  - revert Em. case_if; [by apply wf_tier1RangeTransfer|].
    case_match eqn:Ei; [intros [= <-]; by eapply wf_intRangeTransfer|by apply wf_uintRangeTransfer].
  - eapply fewer_wf; [|done]. apply (forgetWrites_spec (Body f) state pc inst).
Qed.

(** ** A transfer covers the step of its instruction *)

(** Replace the handler of a main-tier operation known by its opcode. *)
Ltac main_handler Hd :=
  match type of Hd with
  | flatDispatchSwitch (NewInstruction ?op ?a ?b ?c) = Some ?h =>
      let H := fresh in
      pose proof (dispatch_main op a b c _ ltac:(done) ltac:(reflexivity)) as H;
      rewrite H in Hd; clear H; injection Hd as <-
  end.

(** Split a membership test into one goal per opcode. *)
Ltac each_op E :=
  unfold one_of in E; cbn [existsb] in E; bool_hyps;
  repeat (match type of E with _ ∨ _ => destruct E as [E|E] end; bool_hyps);
  try discriminate; subst.

Ltac run_handler Hrun :=
  unfold_handler; cbn [registers ProgramCounter advance] in *; handler_inv;
  cbn [registers ProgramCounter advance] in *.

(** Bring in what the state says of every register it knows. *)
Ltac use_known Hst :=
  bool_hyps;
  repeat match goal with
  | H : intKnown _ _ = true |- _ =>
      let v := fresh "v" in destruct (known_int _ _ Hst _ H) as (v & ? & ?); clear H; simplify_eq
  | H : uintKnown _ _ = true |- _ =>
      let v := fresh "v" in destruct (known_uint _ _ Hst _ H) as (v & ? & ?); clear H; simplify_eq
  end.

Ltac apply_combine Hb Hc :=
  lazymatch goal with
  | |- lo (combineInts ?op ?b ?c) <= _ <= _ =>
      refine (proj2 (combineInts_sound op b c _ _ Hb Hc _ _))
  end.

Lemma shiftRight64_between v n : 0 <= n → Z.min v 0 <= shiftRight64 v n <= Z.max v 0.
Proof.
  intros Hn. unfold shiftRight64. repeat case_if; bool_hyps; [lia..|].
  pose proof (shiftr_between v n Hn). pose proof (Z.shiftr_nonneg v n). lia.
Qed.

Lemma shiftRight64_bounds v n b c :
  0 <= ulo b → ulo b <= v <= uhi b → 0 <= ulo c → ulo c <= n <= uhi c →
  shiftRightUint (ulo b) (uhi c) <= shiftRight64 v n <= shiftRightUint (uhi b) (ulo c).
Proof.
  intros Hb Hv Hc Hn.
  assert (shiftRight64 v n = shiftRightUint v n) as ->.
  { unfold shiftRight64, shiftRightUint, registerBits. repeat case_if; bool_hyps; lia. }
  pose proof (shiftRightUint_mono (ulo b) v n (uhi c)).
  pose proof (shiftRightUint_mono v (uhi b) (ulo c) n). lia.
Qed.

Section step.
Context (f : CompiledFunction) (state : rangeState) (x y : CallFrame).
Context (Hpools : typed_pools f) (Htyped : typed (registers x)).
Context (Hst : holds state (registers x)) (Hwfst : wf_state state).

Lemma int_transfer_holds op a b c h state' :
  flatDispatchSwitch (NewInstruction op a b c) = Some h →
  h f (advance x 1) (NewInstruction op a b c) = opContinue y →
  intRangeTransfer f state (NewInstruction op a b c) = Some state' → holds state' (registers y).
Proof.
  intros Hd Hrun. unfold intRangeTransfer. cbn [iOp iA iB iC].
  pose proof (wf_intAt _ b Hwfst) as Hwb. pose proof (wf_intAt _ c Hwfst) as Hwc.
  destruct x as [pc r]. cbn [registers] in *.
  repeat lazymatch goal with
  | |- (if ?t then _ else _) = _ → _ => let E := fresh "E" in destruct t eqn:E
  end; try done.
  - bool_hyps; subst. main_handler Hd. destruct (zget (IntConstants f) b) as [k|] eqn:Ek; [|done].
    intros [= <-]. run_handler Hrun. unfold WideIndex in *. cbn [iB iC] in *.
    change (JoinWide b 0) with (Z.lor b 0) in *. rewrite Z.lor_0_r in *. simplify_eq.
    apply (holds_setIntResult state r Hst a (NewIntRange _ _) true); [done|]. cbn; lia.
  - each_op E0; intros [= <-]; main_handler Hd; run_handler Hrun;
      (apply holds_setIntResult; [done..|]; intros Hk; use_known Hst).
    all: apply_combine Hwb Hwc; eassumption.
  - destruct (intPoolRange f c) as [rng ok] eqn:Ep. pose proof (isS_pool _ _ _ _ Hpools Ep) as Hwr.
    unfold intPoolRange in Ep.
    each_op E1; intros [= <-]; main_handler Hd; run_handler Hrun; simplify_eq;
      (apply holds_setIntResult; [done..|]; intros Hk; use_known Hst).
    all: apply_combine Hwb Hwr; [eassumption|cbn [lo hi]; lia].
  - bool_hyps; subst. destruct (andIntRange _ _ _ _) as [rng ok] eqn:Ea. intros [= <-].
    main_handler Hd. run_handler Hrun. apply holds_setIntResult; [done..|]. intros ->.
    refine (proj2 (andIntRange_sound _ _ _ _ _ _ _ _ _ Ea)); intros Hk; use_known Hst; done.
  - bool_hyps; subst. intros [= <-]. main_handler Hd. run_handler Hrun.
    apply holds_setIntResult; [done..|]. intros Hk. use_known Hst. cbn [lo hi].
    match goal with |- _ <= shiftRight64 ?v ?n <= _ =>
      pose proof (shiftRight64_between v n (proj1 (isU_wrapU64 _))) end. lia.
Qed.

Lemma uint_transfer_holds op a b c h state' :
  flatDispatchSwitch (NewInstruction op a b c) = Some h →
  h f (advance x 1) (NewInstruction op a b c) = opContinue y →
  uintRangeTransfer f state (NewInstruction op a b c) = Some state' → holds state' (registers y).
Proof.
  intros Hd Hrun. unfold uintRangeTransfer. cbn [iOp iA iB iC].
  pose proof (wf_uintAt _ b Hwfst) as [Hb1 Hb2]. pose proof (wf_uintAt _ c Hwfst) as [Hc1 Hc2].
  destruct x as [pc r]. cbn [registers] in *.
  repeat lazymatch goal with
  | |- (if ?t then _ else _) = _ → _ => let E := fresh "E" in destruct t eqn:E
  end; try done.
  - bool_hyps; subst. main_handler Hd. destruct (zget (UintConstants f) b) as [k|] eqn:Ek; [|done].
    intros [= <-]. run_handler Hrun. unfold WideIndex in *. cbn [iB iC] in *.
    change (JoinWide b 0) with (Z.lor b 0) in *. rewrite Z.lor_0_r in *. simplify_eq.
    apply (holds_setUintResult state r Hst a (NewUintRange _ _) true); [done|]. cbn; lia.
  - bool_hyps; subst. intros [= <-]. main_handler Hd. run_handler Hrun.
    apply holds_setUintResult; [done..|]. intros Hk. use_known Hst. cbn [ulo uhi].
    assert (uhi (uintAt state b) + uhi (uintAt state c) < 2 ^ 64)
      by (unfold isU in *; apply Z.div_small_iff in H0; lia).
    unfold isU in *. rewrite !(wrapU_id 64) by (unfold isU; lia). lia.
  - bool_hyps; subst. intros [= <-]. main_handler Hd. run_handler Hrun.
    apply holds_setUintResult; [done..|]. intros Hk. cbn [ulo uhi].
    match goal with |- _ <= Z.land ?v ?w <= _ =>
      assert (isU 64 v ∧ isU 64 w) as [Hv Hw] by eauto with typed;
      pose proof (land_between v w (proj1 Hv)); pose proof (land_between w v (proj1 Hw));
      rewrite (Z.land_comm w v) in * end.
    assert (∀ reg v, zget (Uints r) reg = Some v →
      v <= boundOrMax (uintAt state reg) (uintKnown state reg)) as Hbound.
    { intros reg v Hg. unfold boundOrMax. case_if; [use_known Hst; lia|].
      assert (isU 64 v) by eauto with typed. word. }
    repeat match goal with H : zget (Uints r) _ = Some _ |- _ => apply Hbound in H end. lia.
  - each_op E2; intros [= <-]; main_handler Hd; run_handler Hrun;
      (apply holds_setUintResult; [done..|]; intros Hk; use_known Hst; cbn [ulo uhi]);
      match goal with
      | Hx : ulo ?b <= ?v <= uhi ?b, Hy : ulo ?c <= ?w <= uhi ?c
        |- 0 <= _ ?v ?w <= allOnesCovering ?m =>
          destruct (lor_lxor_bound v w m) as (_ & ? & ?);
            [unfold isU in *; lia|unfold isU in *; lia|by apply isU_max|done]
      end.
  - bool_hyps; subst. intros [= <-]. main_handler Hd. run_handler Hrun.
    apply holds_setUintResult; [done..|]. intros Hk. use_known Hst. cbn [ulo uhi].
    apply shiftRight64_bounds; [unfold isU in *; lia|lia| |].
    + destruct (uintKnown state c) eqn:Ec; cbn [negb]; [unfold isU in *; lia|by cbn].
    + destruct (uintKnown state c) eqn:Ec; cbn [negb]; [by use_known Hst|].
      match goal with H : zget (Uints r) c = Some ?n |- _ => assert (isU 64 n) by eauto with typed end.
      cbn. word.
Qed.

Lemma InstrIsTier1SubOp_true op a b c s :
  InstrIsTier1SubOp (NewInstruction op a b c) s = true → op = OpDrillTier1 ∧ a = s.
Proof. unfold InstrIsTier1SubOp. cbn. intros. by bool_hyps. Qed.

Lemma tier1_transfer_holds op a b c h state' :
  zget (Body f) (ProgramCounter x) = Some (NewInstruction op a b c) → byte_ok c →
  flatDispatchSwitch (NewInstruction op a b c) = Some h →
  h f (advance x 1) (NewInstruction op a b c) = opContinue y →
  tier1RangeTransfer f state (ProgramCounter x) (NewInstruction op a b c) = Some state' →
  holds state' (registers y).
Proof.
  intros Hg Hbyte Hd Hrun. unfold tier1RangeTransfer. cbn [iOp iA iB iC].
  pose proof (wf_uintAt _ c Hwfst) as [Hu1 Hu2]. pose proof (wf_intAt _ c Hwfst) as [Hc1 Hc2].
  destruct x as [pc r]. cbn [registers ProgramCounter] in *.
  repeat lazymatch goal with
  | |- (if InstrIsTier1SubOp ?i ?s then _ else _) = _ → _ =>
      let E := fresh "E" in destruct (InstrIsTier1SubOp i s) eqn:E
  end.
  - apply InstrIsTier1SubOp_true in E as [-> ->]. injection Hd as <-. intros [= <-].
    run_handler Hrun. apply (holds_setIntResult state r Hst b (NewIntRange _ _) true); [done|].
    cbn; lia.
  - apply InstrIsTier1SubOp_true in E0 as [-> ->]. injection Hd as <-. intros [= <-].
    run_handler Hrun. apply (holds_setUintResult state r Hst b (NewUintRange _ _) true); [done|].
    cbn; lia.
  - apply InstrIsTier1SubOp_true in E1 as [-> ->]. injection Hd as <-. intros [= <-].
    run_handler Hrun. apply holds_setIntResult; [done..|]. intros Hk. by use_known Hst.
  - apply InstrIsTier1SubOp_true in E2 as [-> ->]. injection Hd as <-. intros [= <-].
    run_handler Hrun. apply holds_setUintResult; [done..|]. intros Hk. by use_known Hst.
  - apply InstrIsTier1SubOp_true in E3 as [-> ->]. injection Hd as <-. intros [= <-].
    run_handler Hrun. apply holds_setIntResult; [done..|]. intros Hk. use_known Hst. cbn [lo hi].
    unfold Uint64ToInt64Reinterpret in *.
    assert (∀ n, 0 <= n <= MaxInt64 → wrapS 64 n = n) as Hid by (intros; apply wrapS_id; [done|word]).
    unfold isU in *. rewrite !Z.min_l by lia. rewrite !Hid by lia. lia.
  - apply InstrIsTier1SubOp_true in E4 as [-> ->]. injection Hd as <-. intros [= <-].
    run_handler Hrun. apply holds_setUintResult; [done..|]. intros Hk. use_known Hst. cbn [ulo uhi].
    unfold Int64ToUint64Reinterpret in *.
    assert (∀ n, 0 <= n → isS 64 n → wrapU 64 n = n) as Hid by (intros; apply wrapU_id; word).
    match goal with H : zget (Ints r) c = Some ?n |- _ => assert (isS 64 n) by eauto with typed end.
    rewrite !Z.max_l by lia. rewrite !Hid by (done || lia). lia.
  - apply InstrIsTier1SubOp_true in E5 as [-> ->]. discriminate Hd.
  - destruct (InstrIsTier1SubOp _ SubOpBitAndUintConst) eqn:E6;
      [destruct (zget (Body f) (pc + 1)) as [ext|] eqn:Eext|].
    + apply InstrIsTier1SubOp_true in E6 as [-> ->]. injection Hd as <-.
      destruct (uintPoolBound _ _) as [mask ok] eqn:Ep. intros [= <-].
      pose proof (isU_pool _ _ _ _ Hpools Ep) as Hmask.
      unfold uintPoolBound in Ep. run_handler Hrun.
      apply holds_setUintResult; [done..|]. intros Hk. cbn [ulo uhi].
      unfold JoinWide, WideBitShift in *. simplify_eq.
      match goal with H : zget (UintConstants f) _ = Some _ |- _ => rewrite H in Ep end.
      injection Ep as <- <-. cbn [boundOrMax uhi].
      match goal with |- _ <= Z.land ?v ?w <= _ =>
        assert (isU 64 v) as Hv by eauto with typed;
        pose proof (land_between v w (proj1 Hv)); pose proof (land_between w v (proj1 Hmask));
        rewrite (Z.land_comm w v) in *;
        assert (v <= boundOrMax (uintAt state c) (uintKnown state c)) end.
      { unfold boundOrMax. case_if; [use_known Hst; lia|word]. }
      lia.
    + apply InstrIsTier1SubOp_true in E6 as [-> ->]. discriminate.
    + case_if; [apply InstrIsTier1SubOp_true in E7 as [-> ->]; discriminate Hd|].
      case_if; [|done]. bool_hyps.
      repeat (match goal with H : _ ∨ _ |- _ => destruct H end; bool_hyps);
        match goal with H : InstrIsTier1SubOp _ _ = true |- _ =>
          apply InstrIsTier1SubOp_true in H as [-> ->] end; discriminate Hd.
Qed.

(** *** Forgetting *)

Lemma readReg_Int_inv r r' reg v :
  readReg r' RegisterInt reg = readReg r RegisterInt reg →
  zget (Ints r) reg = Some v → zget (Ints r') reg = Some v.
Proof.
  unfold readReg. cbn. intros H Hv. rewrite Hv in H. cbn in H.
  destruct (zget (Ints r') reg); [|done]. by injection H as ->.
Qed.
Lemma readReg_Uint_inv r r' reg v :
  readReg r' RegisterUint reg = readReg r RegisterUint reg →
  zget (Uints r) reg = Some v → zget (Uints r') reg = Some v.
Proof.
  unfold readReg. cbn. intros H Hv. rewrite Hv in H. cbn in H.
  destruct (zget (Uints r') reg); [|done]. by injection H as ->.
Qed.

Lemma forget_holds inst h pc body :
  wf_instruction inst → iOp inst ≠ OpTruncateNarrow → flatDispatchSwitch inst = Some h →
  h f (advance x 1) inst = opContinue y → holds (forgetWrites body state pc inst) (registers y).
Proof.
  intros Hwf Hop Hd Hrun.
  destruct (forgetWrites_spec body state pc inst) as ([Hi Hu] & Hints & Huints).
  split; intros reg rng Hl.
  - destruct (holds_ints _ _ Hst _ _ (lookup_weaken _ _ _ _ Hl Hi)) as (v & Hv & Hrange).
    exists v. split; [|done]. eapply readReg_Int_inv; [|exact Hv].
    eapply (written_covers f (advance x 1)); eauto.
  - destruct (holds_uints _ _ Hst _ _ (lookup_weaken _ _ _ _ Hl Hu)) as (v & Hv & Hrange).
    exists v. split; [|done]. eapply readReg_Uint_inv; [|exact Hv].
    eapply (written_covers f (advance x 1)); eauto.
Qed.

(** *** Truncations *)

Lemma truncate_limit w : 0 < w < 64 → wrapU 64 (wrapU 64 (Z.shiftl 1 w) - 1) = 2 ^ w - 1.
Proof.
  intros Hw. rewrite Z.shiftl_1_l. pose proof (Z.pow_lt_mono_r 2 w 64).
  pose proof (Z.pow_pos_nonneg 2 w).
  rewrite (wrapU_id 64 (2 ^ w)) by (unfold isU; lia). by rewrite wrapU_id by (unfold isU; lia).
Qed.

Lemma truncate_bounds w v :
  0 < w < 64 → (Z.shiftl (-1) (w - 1) <= v <= Z.shiftl 1 (w - 1) - 1 ↔ isS w v).
Proof. intros Hw. rewrite !Z.shiftl_mul_pow2 by lia. unfold isS. lia. Qed.

Lemma setUint_same r reg v : zget (Uints r) reg = Some v → setUint r reg v = opContinue r.
Proof.
  intros Hv. unfold setUint, setReg. rewrite Hv. cbn. rewrite zset_id by done. by destruct r.
Qed.
Lemma setInt_same r reg v : zget (Ints r) reg = Some v → setInt r reg v = opContinue r.
Proof.
  intros Hv. unfold setInt, setReg. rewrite Hv. cbn. rewrite zset_id by done. by destruct r.
Qed.

(** A truncation whose input fits does nothing. *)
Lemma truncate_fits inst :
  0 < iB inst <= 64 → snd (truncateRange state inst) = true →
  HandleTruncateNarrow f (advance x 1) inst = opContinue (advance x 1).
Proof.
  intros Hw. rewrite HandleTruncateNarrow_convert by done. destruct x as [pc r].
  cbn [advance registers ProgramCounter] in *. unfold truncateRange, registerBits, convert in *.
  destruct ((iB inst =? 0) || (64 <=? iB inst)) eqn:Ew; [done|]. bool_hyps.
  destruct (iC inst =? RegisterUint).
  - case_if; [|done]. rewrite truncate_limit in * by lia. use_known Hst. intros _.
    unfold getUint, getReg. match goal with H : zget _ _ = Some ?v |- _ =>
      rewrite H; assert (isU 64 v) by eauto with typed end. cbn [mbind OpResult_bind].
    change (RegisterUint =? RegisterUint) with true. cbv iota.
    by rewrite wrapU_id, setUint_same by (done || unfold isU in *; lia).
  - case_if; [|done]. cbn [lo hi] in *. use_known Hst. intros _.
    unfold getInt, getReg. match goal with H : zget _ _ = Some _ |- _ => rewrite H end. cbn [mbind OpResult_bind].
    change (RegisterInt =? RegisterUint) with false. cbv iota.
    by rewrite wrapS_id, setInt_same by (done || lia || apply truncate_bounds; lia).
Qed.

Lemma truncate_holds inst :
  0 < iB inst <= 64 →
  HandleTruncateNarrow f (advance x 1) inst = opContinue y →
  holds (fst (truncateRange state inst)) (registers y).
Proof.
  intros Hw. rewrite HandleTruncateNarrow_convert by done. destruct x as [pc r].
  cbn [advance registers ProgramCounter] in *. unfold truncateRange, registerBits, convert in *.
  rewrite (proj2 (Z.eqb_neq (iB inst) 0)) by lia. cbn [orb].
  destruct (iC inst =? RegisterUint); unfold getUint, getInt, getReg;
    [destruct (zget (Uints r) (iA inst)) as [v|] eqn:Hv
    |destruct (zget (Ints r) (iA inst)) as [v|] eqn:Hv]; try done; cbn [mbind OpResult_bind].
  - change (RegisterUint =? RegisterUint) with true. cbv iota.
    assert (Htv : isU 64 v) by eauto with typed.
    destruct (64 <=? iB inst) eqn:E64; bool_hyps.
    + replace (iB inst) with 64 by lia. rewrite wrapU_id, setUint_same by done.
      cbn. by intros [= <-].
    + rewrite truncate_limit by lia. case_if; bool_hyps.
      * use_known Hst. rewrite wrapU_id, setUint_same by (done || unfold isU in *; lia).
        cbn. by intros [= <-].
      * unfold setUint, setReg. rewrite Hv. cbn. intros [= <-].
        apply (holds_setUintResult state r Hst (iA inst) (NewUintRange _ _) true); [done|].
        intros _. cbn. pose proof (wrapU_range (iB inst) v) as Hr. unfold isU in Hr. lia.
  - change (RegisterInt =? RegisterUint) with false. cbv iota.
    assert (Htv : isS 64 v) by eauto with typed.
    destruct (64 <=? iB inst) eqn:E64; bool_hyps.
    + replace (iB inst) with 64 by lia. rewrite wrapS_id, setInt_same by (done || lia).
      cbn. by intros [= <-].
    + cbn [lo hi]. case_if; bool_hyps.
      * use_known Hst. rewrite wrapS_id, setInt_same by (done || lia || apply truncate_bounds; lia).
        cbn. by intros [= <-].
      * unfold setInt, setReg. rewrite Hv. cbn. intros [= <-].
        apply (holds_setIntResult state r Hst (iA inst) (NewIntRange _ _) true); [done|].
        intros _. cbn [lo hi]. apply truncate_bounds; [lia|]. apply wrapS_range. lia.
Qed.
End step.

(** The widths the truncations of a body have. *)
Definition truncation_widths (body : list Instruction) : Prop :=
  ∀ pc inst, zget body pc = Some inst → iOp inst = OpTruncateNarrow → 0 < iB inst <= 64.

Section transfer.
Context (f : CompiledFunction) (Hwf : wf_body (Body f)) (Hpools : typed_pools f).
Context (Hwidths : truncation_widths (Body f)).

Lemma dispatch_truncate inst h :
  flatDispatchSwitch inst = Some h → iOp inst = OpTruncateNarrow → h = HandleTruncateNarrow.
Proof.
  destruct inst as [op a b c]. cbn [iOp]. intros Hd ->.
  rewrite (dispatch_main _ _ _ _ HandleTruncateNarrow) in Hd by (done || reflexivity).
  by injection Hd as <-.
Qed.

(** What the new state says holds after the step. *)
Lemma transfer_holds state x y inst h state' fits :
  typed (registers x) → holds state (registers x) → wf_state state →
  zget (Body f) (ProgramCounter x) = Some inst → flatDispatchSwitch inst = Some h →
  applyRangeTransfer f state (ProgramCounter x) = Some (state', fits) →
  h f (advance x 1) inst = opContinue y → holds state' (registers y).
Proof.
  intros Htyped Hst Hwfst Hg Hd Htr Hrun. unfold applyRangeTransfer in Htr. rewrite Hg in Htr.
  pose proof (wf_body_zget _ _ _ Hwf Hg) as Hi. cbn [mbind option_bind] in Htr.
  revert Htr. case_if.
  { apply isCanonicalNop_nop in E as ->. intros [= <- _]. injection Hd as <-.
    injection Hrun as <-. by destruct x. }
  case_if; bool_hyps.
  { rewrite (dispatch_truncate _ _ Hd) in Hrun by done. intros [= Ht].
    pose proof (truncate_holds f state x y Htyped Hst inst) as Hh. rewrite Ht in Hh.
    apply Hh; [|done]. by eapply Hwidths. }
  case_match eqn:Em; intros [= <- _]; [|by eapply forget_holds].
  destruct inst as [op a b c]. destruct (iOp _ =? OpDrillTier1).
  - eapply tier1_transfer_holds; eauto. by destruct Hi as (_ & _ & _ & ?).
  - destruct (intRangeTransfer f state _) as [s|] eqn:Ei.
    + injection Em as <-. by eapply int_transfer_holds.
    + by eapply uint_transfer_holds.
Qed.

(** A truncation the analysis elides does nothing. *)
Lemma transfer_fits state x inst h state' :
  typed (registers x) → holds state (registers x) → wf_state state →
  zget (Body f) (ProgramCounter x) = Some inst → flatDispatchSwitch inst = Some h →
  applyRangeTransfer f state (ProgramCounter x) = Some (state', true) →
  iOp inst = OpTruncateNarrow ∧ h f (advance x 1) inst = opContinue (advance x 1).
Proof.
  intros Htyped Hst Hwfst Hg Hd Htr. unfold applyRangeTransfer in Htr. rewrite Hg in Htr.
  cbn [mbind option_bind] in Htr. revert Htr. case_if; [done|]. case_if; bool_hyps.
  - intros [= Ht]. split; [done|]. rewrite (dispatch_truncate _ _ Hd) by done.
    apply (truncate_fits f state x Htyped Hst); [by eapply Hwidths|]. by rewrite Ht.
  - by case_match.
Qed.
End transfer.
