(* ===== verification/RangesSolve.v ===== *)
(** * The solver of the range analysis

    The blocks of a body, and the worklist of [Ranges]: it terminates with
    states in which what flows out of a block is in the states of its
    successors.  The elision that uses them is in [RangesElide]. *)

From S2P Require Import Prelude SafeConv Register Opcode Instruction Shapes Spec JumpLayout Jumps.
From S2P Require Import Extension Function Builder Verify VerifySound Machine MachineSafe MachineFlow.
From S2P Require Import FuseNarrow PassFacts Ranges RangesSound.

(** ** Basic blocks *)

Section blocks.
Context (body : list Instruction).

#[local] Notation next pc := (pc + instructionFootprint body pc).

(** Control runs through the instructions of a block in order. *)
Inductive straight (leaders : gset Z) : Z → Z → Prop :=
  | straight_end pc :
      pc < zlen body → endsBlock body leaders pc = true ∨ zlen body <= next pc →
      straight leaders pc (next pc)
  | straight_step pc end_ :
      pc < zlen body → endsBlock body leaders pc = false →
      straight leaders (next pc) end_ → straight leaders pc end_.

Lemma next_gt pc : pc < next pc.
Proof. pose proof (instructionFootprint_pos body pc). lia. Qed.

Lemma straight_lt leaders pc end_ : straight leaders pc end_ → pc < end_.
Proof.
  induction 1 as [pc|pc end_ _ _ _ IH]; [apply next_gt|]. pose proof (next_gt pc). lia.
Qed.

Lemma blockEndFrom_straight leaders fuel pc :
  0 <= pc < zlen body → zlen body - pc <= Z.of_nat fuel →
  straight leaders pc (blockEndFrom fuel body leaders pc).
Proof.
  revert pc. induction fuel as [|fuel IH]; intros pc Hpc Hfuel; [lia|]. cbn [blockEndFrom].
  rewrite (proj2 (Z.leb_gt _ _)) by lia. pose proof (next_gt pc).
  destruct (endsBlock body leaders pc) eqn:E; [apply straight_end; auto; lia|].
  destruct (decide (zlen body <= next pc)) as [Hle|Hgt].
  - replace (blockEndFrom fuel body leaders (next pc)) with (next pc);
      [apply straight_end; auto; lia|].
    destruct fuel; cbn [blockEndFrom]; [done|]. by rewrite (proj2 (Z.leb_le _ _)).
  - apply straight_step; [lia|done|]. apply IH; lia.
Qed.

(** The blocks that cover the body from [pc] on. *)
Inductive tiles (leaders : gset Z) : Z → list (Z * Z) → Prop :=
  | tiles_end pc : zlen body <= pc → tiles leaders pc []
  | tiles_block pc end_ bounds :
      straight leaders pc end_ → tiles leaders end_ bounds →
      tiles leaders pc ((pc, end_) :: bounds).

Lemma blocksFrom_tiles leaders fuel pc :
  0 <= pc → zlen body - pc <= Z.of_nat fuel →
  tiles leaders pc (blocksFrom fuel body leaders pc).
Proof.
  revert pc. induction fuel as [|fuel IH]; intros pc Hpc Hfuel; [constructor; lia|].
  cbn [blocksFrom]. case_if; bool_hyps; [by constructor|].
  pose proof (blockEndFrom_straight leaders (length body) pc) as Hs.
  specialize (Hs ltac:(lia) ltac:(lia)). pose proof (straight_lt _ _ _ Hs).
  constructor; [done|]. apply IH; lia.
Qed.

Lemma blockBounds_tiles : tiles (leadersOf body) 0 (blockBounds body).
Proof. apply blocksFrom_tiles; lia. Qed.

Lemma tiles_straight leaders pc bounds s e :
  tiles leaders pc bounds → (s, e) ∈ bounds → straight leaders s e ∧ pc <= s.
Proof.
  induction 1 as [|pc end_ bounds Hs _ IH]; [by intros ?%not_elem_of_nil|].
  intros [[= -> ->]|Hin]%elem_of_cons; [split; [done|lia]|].
  destruct (IH Hin). pose proof (straight_lt _ _ _ Hs). split; [done|lia].
Qed.

(** *** Instructions in order *)

Lemma start_nonneg pc : instruction_start body pc → 0 <= pc.
Proof. induction 1 as [|pc _ IH _]; [done|]. pose proof (next_gt pc). lia. Qed.

Lemma start_order q pc :
  instruction_start body q → instruction_start body pc → q < pc → next q <= pc.
Proof.
  remember (Z.to_nat (q + pc)) as n eqn:Hn. revert q pc Hn.
  induction (lt_wf n) as [n _ IH]. intros q pc -> Hq Hpc Hlt.
  pose proof (start_nonneg _ Hq). pose proof (start_nonneg _ Hpc).
  destruct Hpc as [|p Hp Hplen]; [lia|].
  pose proof (next_gt p). pose proof (start_nonneg _ Hp).
  destruct (Z.lt_trichotomy q p) as [Hqp|[->|Hqp]]; [|done|].
  - pose proof (IH (Z.to_nat (q + p)) ltac:(lia) q p eq_refl Hq Hp Hqp). lia.
  - pose proof (IH (Z.to_nat (p + q)) ltac:(lia) p q eq_refl Hp Hq Hqp). lia.
Qed.

Lemma straight_start leaders pc end_ :
  straight leaders pc end_ → instruction_start body pc → instruction_start body end_.
Proof. induction 1; intros Hpc; [|apply IHstraight]; by constructor. Qed.

(** No leader lies strictly inside a block. *)
Lemma straight_no_leader leaders pc end_ q :
  straight leaders pc end_ → instruction_start body pc → instruction_start body q →
  pc < q < end_ → q ∉ leaders.
Proof.
  induction 1 as [pc|pc end_ Hlen Hends Hs IH]; intros Hpc Hq Hrange.
  - pose proof (start_order pc q Hpc Hq ltac:(lia)). lia.
  - pose proof (start_order pc q Hpc Hq ltac:(lia)).
    destruct (decide (next pc = q)) as [<-|]; [|apply IH; [by constructor|done|lia]].
    intros Hin. unfold endsBlock in Hends. rewrite bool_decide_eq_true_2 in Hends by done. done.
Qed.

(** A leader in the body starts a block. *)
Lemma tiles_leader leaders pc bounds q :
  tiles leaders pc bounds → instruction_start body pc → instruction_start body q →
  pc <= q < zlen body → q = pc ∨ q ∈ leaders → ∃ e, (q, e) ∈ bounds.
Proof.
  induction 1 as [|pc end_ bounds Hs _ IH]; intros Hpc Hq Hrange Hlead; [lia|].
  destruct (decide (q = pc)) as [->|Hne]; [exists end_; by left|]. destruct Hlead as [|Hlead]; [done|].
  destruct (decide (q < end_)).
  { by pose proof (straight_no_leader _ _ _ q Hs Hpc Hq ltac:(lia)). }
  destruct IH as [e He]; [by eapply straight_start|done|lia|by right|]. exists e. by right.
Qed.

(** *** Walks *)

Lemma walkWords_fuel fuel fuel' pc limit :
  limit - pc <= Z.of_nat fuel → limit - pc <= Z.of_nat fuel' →
  walkWords fuel body pc limit = walkWords fuel' body pc limit.
Proof.
  revert fuel' pc. induction fuel as [|fuel IH]; intros [|fuel'] pc H1 H2; cbn [walkWords].
  - done.
  - case_if; bool_hyps; [done|lia].
  - case_if; bool_hyps; [done|lia].
  - case_if; bool_hyps; [done|]. pose proof (next_gt pc). f_equal. apply IH; lia.
Qed.

Lemma walk_nil pc limit : limit <= pc → walk body pc limit = [].
Proof. intros. unfold walk. by replace (Z.to_nat (limit - pc)) with O by lia. Qed.

Lemma walk_cons pc limit : pc < limit → walk body pc limit = pc :: walk body (next pc) limit.
Proof.
  intros Hlt. unfold walk at 1. destruct (Z.to_nat (limit - pc)) as [|fuel] eqn:Ef; [lia|].
  cbn [walkWords]. rewrite (proj2 (Z.leb_gt _ _)) by lia. f_equal. unfold walk.
  pose proof (next_gt pc). apply walkWords_fuel; lia.
Qed.

Lemma walk_start pc limit q :
  instruction_start body pc → instruction_start body q → pc <= q < limit → limit <= zlen body →
  q ∈ walk body pc limit.
Proof.
  remember (Z.to_nat (q - pc)) as n eqn:Hn. revert pc Hn.
  induction (lt_wf n) as [n _ IH]. intros pc -> Hpc Hq Hrange Hlimit.
  rewrite walk_cons by lia. destruct (decide (q = pc)) as [->|]; [by left|]. right.
  pose proof (start_order pc q Hpc Hq ltac:(lia)). pose proof (next_gt pc).
  apply (IH (Z.to_nat (q - next pc))); try done; try lia. constructor; [done|lia].
Qed.

(** *** Leaders *)

Lemma addLeaders_mono leaders pc : leaders ⊆ addLeaders body leaders pc.
Proof. unfold addLeaders. repeat (case_match || case_if); set_solver. Qed.

Lemma addLeaders_all leaders pcs pc q :
  pc ∈ pcs → q ∈ addLeaders body ∅ pc → q ∈ foldl (addLeaders body) leaders pcs.
Proof.
  revert leaders. induction pcs as [|p pcs IH]; intros leaders; [by intros ?%not_elem_of_nil|].
  assert (Hmono : ∀ pcs leaders, leaders ⊆ foldl (addLeaders body) leaders pcs).
  { intros pcs'. induction pcs' as [|p' pcs' IH']; intros leaders'; [done|]. cbn.
    etrans; [apply addLeaders_mono|apply IH']. }
  intros [->|Hin]%elem_of_cons Hq; cbn [foldl]; [|by apply IH].
  apply Hmono. revert Hq. unfold addLeaders. repeat (case_match || case_if); set_solver.
Qed.

Lemma leadersOf_jump pc t :
  instruction_start body pc → pc < zlen body → JumpTargetAt body pc = Some t →
  t ∈ leadersOf body ∧ next pc ∈ leadersOf body.
Proof.
  intros Hpc Hlen Hj. assert (Hin : pc ∈ walk body 0 (zlen body)).
  { pose proof (start_nonneg _ Hpc). apply walk_start; [constructor|done|lia|done]. }
  split; apply (addLeaders_all _ _ _ _ Hin); unfold addLeaders; rewrite Hj;
    repeat (case_match || case_if); set_solver.
Qed.
End blocks.

(** ** The solver *)

Section solver.
Context (f : CompiledFunction) (Hwf : wf_body (Body f)) (Hpools : typed_pools f).

#[local] Notation body := (Body f).
#[local] Notation bounds := (blockBounds body).
#[local] Notation blockAt := (blockAtOf bounds).
#[local] Notation blocks := (fst (rangeBlocks body)).

Lemma applyRangeTransfer_is_Some st pc :
  0 <= pc < zlen body → ∃ st' fits, applyRangeTransfer f st pc = Some (st', fits).
Proof.
  intros [i Hi]%zget_is_Some. unfold applyRangeTransfer. rewrite Hi. cbn [mbind option_bind].
  by destruct (if isCanonicalNop i then _ else _) as [st' fits]; eauto.
Qed.

Lemma transferWords_cons st pc pcs :
  transferWords f st (pc :: pcs) =
    (result ← applyRangeTransfer f st pc; transferWords f (fst result) pcs).
Proof.
  unfold transferWords. cbn [foldl mbind option_bind].
  destruct (applyRangeTransfer f st pc) as [[st' fits]|]; [done|]. cbn [fmap option_fmap option_map].
  induction pcs; [done|]. by cbn [foldl mbind option_bind].
Qed.

Lemma straight_transfer leaders pc end_ st :
  straight body leaders pc end_ → 0 <= pc → wf_state st →
  ∃ exit, transferWords f st (walk body pc end_) = Some exit ∧ wf_state exit.
Proof.
  intros Hs. revert st. induction Hs as [pc Hlen _|pc end_ Hlen _ Hs IH]; intros st Hpc Hst;
    pose proof (next_gt body pc);
    destruct (applyRangeTransfer_is_Some st pc) as (st' & fits & Ht); try lia;
    pose proof (transfer_wf _ _ _ _ _ Hwf Hpools Hst Ht) as Hst'.
  - rewrite walk_cons, (walk_nil body (pc + _)) by lia. rewrite transferWords_cons, Ht.
    by exists st'.
  - pose proof (straight_lt _ _ _ _ Hs). rewrite walk_cons by lia.
    rewrite transferWords_cons, Ht. cbn [mbind option_bind fst]. apply IH; [lia|done].
Qed.

(** *** The block graph *)

Lemma zget_blocks i b : zget blocks i = Some b ↔
  ∃ s e, zget bounds i = Some (s, e) ∧ b = NewRangeBlock (rangeSuccessors body (s, e) blockAt) s e.
Proof.
  unfold rangeBlocks. cbn [fst]. rewrite zget_map. split.
  - intros ([s e] & Hb & ->). by exists s, e.
  - intros (s & e & Hb & ->). by exists (s, e).
Qed.

Lemma zget_blocks_straight i b : zget blocks i = Some b →
  straight body (leadersOf body) (start b) (blockEnd b) ∧ 0 <= start b.
Proof.
  intros (s & e & Hb & ->)%zget_blocks. cbn [start blockEnd].
  apply (tiles_straight body _ 0 bounds); [apply blockBounds_tiles|].
  apply elem_of_zget. by exists i.
Qed.

Lemma elem_of_zip_starts s i :
  (s, i) ∈ zip (map fst bounds) (seqZ 0 (zlen bounds)) ↔ ∃ e, zget bounds i = Some (s, e).
Proof.
  split.
  - intros [k Hk]%list_elem_of_lookup. apply lookup_zip_Some in Hk as [Hs Hi].
    apply lookup_seqZ in Hi as [-> Hlt]. apply list_lookup_fmap_Some in Hs as ([s' e] & -> & Hb).
    exists e. rewrite zget_lookup by lia. by rewrite Z.add_0_l, Nat2Z.id.
  - intros [e He]. pose proof (zget_Some_range _ _ _ He). rewrite zget_lookup in He by lia.
    apply list_elem_of_lookup. exists (Z.to_nat i). apply lookup_zip_Some. split.
    + apply list_lookup_fmap_Some. by exists (s, e).
    + apply lookup_seqZ. lia.
Qed.

Lemma blockAt_Some s i : blockAt !! s = Some i → ∃ e, zget bounds i = Some (s, e).
Proof. intros H%elem_of_list_to_map_2. by apply elem_of_zip_starts. Qed.

Lemma blockAt_start s e : (s, e) ∈ bounds → ∃ i, blockAt !! s = Some i.
Proof.
  intros [k Hk]%elem_of_zget. destruct (blockAt !! s) as [i|] eqn:E; [by exists i|].
  apply not_elem_of_list_to_map_2 in E. destruct E. apply list_elem_of_fmap.
  exists (s, k). split; [done|]. apply elem_of_zip_starts. by exists e.
Qed.

Lemma successors_range i b j :
  zget blocks i = Some b → j ∈ successors b → 0 <= j < zlen blocks.
Proof.
  intros (s & e & _ & ->)%zget_blocks. cbn [successors]. unfold rangeSuccessors.
  assert (Hat : ∀ t, j ∈ option_list (blockAt !! t) → 0 <= j < zlen blocks).
  { intros t Hj. destruct (blockAt !! t) as [k|] eqn:E; [|by apply not_elem_of_nil in Hj].
    apply list_elem_of_singleton in Hj as ->. apply blockAt_Some in E as [e' He].
    unfold rangeBlocks. cbn [fst]. rewrite length_map. by eapply zget_Some_range. }
  rewrite elem_of_app. intros [Hj|Hj]; revert Hj; repeat (case_match || case_if);
    try (by intros ?%not_elem_of_nil); apply Hat.
Qed.

(** *** The worklist *)

(** [S'] covers what [S] does, and what it changed is pending. *)
Record grows (S S' : rangeSolver) : Prop := {
  gr_entries i st : entries S !! i = Some st →
    ∃ st', entries S' !! i = Some st' ∧ weaker st' st ∧ (st' = st ∨ i ∈ pending S');
  gr_pending i : i ∈ pending S → i ∈ pending S';
  gr_new i : entries S !! i = None → is_Some (entries S' !! i) → i ∈ pending S';
  gr_known i : i ∈ pending S' → i ∈ pending S ∨ is_Some (entries S' !! i);
}.

Lemma grows_refl S : grows S S.
Proof.
  split; [|done|by intros i -> [? [=]]|by left]. intros i st H. exists st. split; [done|]. by split; [|left].
Qed.

Lemma grows_trans S1 S2 S3 : grows S1 S2 → grows S2 S3 → grows S1 S3.
Proof.
  intros [He1 Hp1 Hn1 Hk1] [He2 Hp2 Hn2 Hk2]. split; [|by auto| |].
  - intros i st H. destruct (He1 _ _ H) as (st2 & H2 & Hw2 & Hor2).
    destruct (He2 _ _ H2) as (st3 & H3 & Hw3 & Hor3). exists st3. split; [done|].
    split; [by etrans|]. destruct Hor3 as [->|]; [|by right]. destruct Hor2; auto.
  - intros i H Hs. destruct (entries S2 !! i) as [st2|] eqn:E; [|by apply Hn2].
    apply Hp2, Hn1; [done|]. by exists st2.
  - intros i [Hi|]%Hk2; [|by right]. apply Hk1 in Hi as [|[st Hst]]; [by left|].
    destruct (He2 _ _ Hst) as (st' & ? & _). right. by exists st'.
Qed.

(** The states are well formed, of blocks in range. *)
Record solver_wf (S : rangeSolver) : Prop := {
  sw_entries i st : entries S !! i = Some st → wf_state st ∧ 0 <= i < zlen blocks;
  sw_visits i count : visits S !! i = Some count → 0 <= count;
}.

Lemma equal_spec st st' : reflect (st = st') (equal st st').
Proof.
  unfold equal. destruct st as [i u], st' as [i' u']. cbn.
  repeat case_bool_decide; cbn; constructor; congruence.
Qed.

Lemma flow_grows S j st :
  grows S (flow S j st) ∧ ∃ stj, entries (flow S j st) !! j = Some stj ∧ weaker stj st.
Proof.
  unfold flow. destruct (entries S !! j) as [prev|] eqn:Ej.
  - destruct (equal_spec (join prev st) prev) as [Heq|Hne].
    { split; [apply grows_refl|]. exists prev. split; [done|]. rewrite <- Heq. apply join_weaker_r. }
    set (next := if _ <? _ then _ else _).
    assert (Hnext : weaker next (join prev st)).
    { unfold next. case_if; [apply widen_weaker|done]. }
    split; [|exists next; cbn; rewrite lookup_insert_eq; split; [done|];
      etrans; [exact Hnext|apply join_weaker_r]].
    split; cbn [entries pending].
    + intros i st0 Hi. destruct (decide (j = i)) as [->|Hji].
      * rewrite lookup_insert_eq. exists next. rewrite Ej in Hi. injection Hi as <-.
        split; [done|]. split; [etrans; [exact Hnext|apply join_weaker_l]|]. right. by left.
      * rewrite lookup_insert_ne by done. exists st0. split; [done|]. by split; [|left].
    + intros i Hi. by right.
    + intros i Hi. destruct (decide (j = i)) as [->|Hji]; [intros; by left|].
      rewrite lookup_insert_ne by done. rewrite Hi. by intros [? [=]].
    + intros i [->|]%elem_of_cons; [right|by left]. by rewrite lookup_insert_eq.
  - split; [|exists st; cbn; by rewrite lookup_insert_eq]. split; cbn [entries pending].
    + intros i st0 Hi. assert (j ≠ i) by congruence. rewrite lookup_insert_ne by done. exists st0. split; [done|]. by split; [|left].
    + intros i Hi. by right.
    + intros i Hi. destruct (decide (j = i)) as [->|Hji]; [intros; by left|].
      rewrite lookup_insert_ne by done. rewrite Hi. by intros [? [=]].
    + intros i [->|]%elem_of_cons; [right|by left]. by rewrite lookup_insert_eq.
Qed.

Lemma flow_wf S j st :
  solver_wf S → wf_state st → 0 <= j < zlen blocks → solver_wf (flow S j st).
Proof.
  intros [He Hv] Hst Hj. unfold flow. destruct (entries S !! j) as [prev|] eqn:Ej.
  - destruct (equal _ _); [by split|]. split; cbn [entries visits].
    + intros i st'. destruct (decide (j = i)) as [->|]; [|rewrite lookup_insert_ne by done; apply He].
      rewrite lookup_insert_eq. intros [= <-]. split; [|done]. destruct (He _ _ Ej) as [Hprev _].
      case_if; [apply wf_widen|]; by apply wf_join.
    + intros i count. destruct (decide (j = i)) as [->|]; [|rewrite lookup_insert_ne by done; apply Hv].
      rewrite lookup_insert_eq. intros [= <-].
      destruct (visits S !! i) as [c|] eqn:Ec; cbn; [specialize (Hv _ _ Ec)|]; lia.
  - split; cbn [entries visits]; [|exact Hv]. intros i st'.
    destruct (decide (j = i)) as [->|]; [|rewrite lookup_insert_ne by done; apply He].
    rewrite lookup_insert_eq. by intros [= <-].
Qed.

(** *** A measure that bounds the turns *)

Definition stateSize (st : rangeState) : nat := size (ints st) + size (uints st).

Definition potential (S : rangeSolver) (i : Z) : nat :=
  match entries S !! i with
  | None => 521
  | Some st => Z.to_nat (rangeWideningVisits - default 0 (visits S !! i)) + stateSize st
  end.

Definition turns (S : rangeSolver) : nat :=
  sum_list_with (potential S) (seqZ 0 (zlen blocks)) + length (pending S).

Lemma byte_map_size {A} (m : gmap Z A) :
  (∀ reg x, m !! reg = Some x → byte_ok reg) → (size m <= 256)%nat.
Proof.
  intros Hm. rewrite <- size_dom. etrans.
  - apply (subseteq_size _ (list_to_set (seqZ 0 256))). intros reg [x Hx]%elem_of_dom.
    apply elem_of_list_to_set, elem_of_seqZ. apply Hm in Hx. unfold byte_ok, isU in Hx. lia.
  - rewrite size_list_to_set by apply NoDup_seqZ. by rewrite length_seqZ.
Qed.

Lemma wf_state_size st : wf_state st → (stateSize st <= 512)%nat.
Proof.
  intros [Hi Hu]. unfold stateSize.
  pose proof (byte_map_size (ints st) (λ reg x H, proj1 (Hi reg x H))).
  pose proof (byte_map_size (uints st) (λ reg x H, proj1 (Hu reg x H))). lia.
Qed.

Lemma join_size st st' : (stateSize (join st st') <= stateSize st)%nat.
Proof.
  unfold stateSize. rewrite <- !size_dom. apply Nat.add_le_mono; apply subseteq_size;
    intros reg [rng Hr]%elem_of_dom; apply elem_of_dom.
  - apply lookup_join_ints in Hr as (? & ? & ? & _). eauto.
  - apply lookup_join_uints in Hr as (? & ? & ? & _). eauto.
Qed.

(** Widening a changed join loses a register. *)
Lemma widen_size st st' :
  join st st' ≠ st → (stateSize (widen st (join st st')) < stateSize st)%nat.
Proof.
  intros Hne. set (w := widen _ _).
  assert (Hi : ints w ⊆ ints st).
  { apply map_subseteq_spec. intros reg rng [Hn Ha]%lookup_widen_ints.
    apply lookup_join_ints in Hn as (known & _ & Hk & _). unfold intAt in Ha. by rewrite Hk in Ha |- *; subst. }
  assert (Hu : uints w ⊆ uints st).
  { apply map_subseteq_spec. intros reg rng [_ ?]%lookup_widen_uints. done. }
  pose proof (map_subseteq_size _ _ Hi). pose proof (map_subseteq_size _ _ Hu). unfold stateSize.
  destruct (decide (size (ints w) + size (uints w) = size (ints st) + size (uints st))%nat); [|lia].
  apply (map_subseteq_size_eq (ints w)) in Hi; [|lia].
  apply (map_subseteq_size_eq (uints w)) in Hu; [|lia].
  destruct Hne. assert (ints (join st st') = ints st) as Ei; [|assert (uints (join st st') = uints st) as Eu].
  - apply map_eq. intros reg. destruct (ints st !! reg) as [rng|] eqn:E.
    + rewrite <- Hi in E. by apply lookup_widen_ints in E as [E _].
    + destruct (ints (join st st') !! reg) eqn:Ej; [|done].
      apply lookup_join_ints in Ej as (? & ? & ? & _). congruence.
  - apply map_eq. intros reg. destruct (uints st !! reg) as [rng|] eqn:E.
    + rewrite <- Hu in E. by apply lookup_widen_uints in E as [E _].
    + destruct (uints (join st st') !! reg) eqn:Ej; [|done].
      apply lookup_join_uints in Ej as (? & ? & ? & _). congruence.
  - destruct (join st st'), st. cbn in *. by subst.
Qed.

Lemma sum_list_with_le {A} (g h : A → nat) l :
  (∀ x, g x <= h x)%nat → (sum_list_with g l <= sum_list_with h l)%nat.
Proof. intros Hle. induction l as [|x l IH]; cbn; [done|]. specialize (Hle x). lia. Qed.

Lemma sum_list_with_lt {A} (g h : A → nat) l x :
  (∀ x, g x <= h x)%nat → x ∈ l → (g x < h x)%nat → (sum_list_with g l < sum_list_with h l)%nat.
Proof.
  intros Hle Hin Hlt. induction l as [|y l IH]; [by apply not_elem_of_nil in Hin|].
  pose proof (sum_list_with_le g h l Hle). pose proof (Hle y). cbn.
  apply elem_of_cons in Hin as [->|Hin]; [lia|]. specialize (IH Hin). lia.
Qed.

Lemma flow_potential S j st :
  solver_wf S → wf_state st → flow S j st = S ∨
  (pending (flow S j st) = j :: pending S ∧
   (potential (flow S j st) j < potential S j)%nat ∧
   ∀ i, i ≠ j → potential (flow S j st) i = potential S i).
Proof.
  intros [He Hv] Hst. unfold flow. destruct (entries S !! j) as [prev|] eqn:Ej.
  - destruct (equal_spec (join prev st) prev) as [Heq|Hne]; [by left|right].
    cbn [pending]. split; [done|]. unfold potential. cbn [entries visits]. split.
    + rewrite !lookup_insert_eq, Ej. cbn [default from_option].
      assert (0 <= default 0 (visits S !! j)) by (destruct (visits S !! j) as [c|] eqn:Ec; cbn; [by eapply Hv|done]).
      set (c := default 0 (visits S !! j)) in *. clearbody c. pose proof (join_size prev st). pose proof (widen_size prev st Hne).
      unfold rangeWideningVisits. destruct (8 <? _) eqn:E8; bool_hyps.
      all: cbn [default from_option]; unfold id; lia.
    + intros i Hi. by rewrite !lookup_insert_ne by congruence.
  - right. cbn [pending]. split; [done|]. unfold potential. cbn [entries visits]. split.
    + rewrite lookup_insert_eq, Ej. pose proof (wf_state_size st Hst).
      assert (0 <= default 0 (visits S !! j)); [|unfold rangeWideningVisits; lia].
      destruct (visits S !! j) as [c|] eqn:Ec; cbn; [by eapply Hv|done].
    + intros i Hi. by rewrite !lookup_insert_ne by congruence.
Qed.

Lemma flow_turns S j st :
  solver_wf S → wf_state st → 0 <= j < zlen blocks → (turns (flow S j st) <= turns S)%nat.
Proof.
  intros HS Hst Hj. destruct (flow_potential S j st HS Hst) as [->|(Hp & Hlt & Hsame)]; [done|].
  unfold turns. rewrite Hp. cbn [length].
  assert (sum_list_with (potential (flow S j st)) (seqZ 0 (zlen blocks)) <
    sum_list_with (potential S) (seqZ 0 (zlen blocks)))%nat; [|lia].
  apply (sum_list_with_lt _ _ _ j); [|apply elem_of_seqZ; lia|done].
  intros i. destruct (decide (i = j)) as [->|]; [lia|]. by rewrite Hsame.
Qed.

(** *** One turn *)

Lemma flows_spec S st succs :
  solver_wf S → wf_state st → (∀ j, j ∈ succs → 0 <= j < zlen blocks) →
  let S' := foldl (λ solver successor, flow solver successor st) S succs in
  solver_wf S' ∧ grows S S' ∧ (turns S' <= turns S)%nat ∧
  ∀ j, j ∈ succs → ∃ stj, entries S' !! j = Some stj ∧ weaker stj st.
Proof.
  intros HS Hst. revert S HS. induction succs as [|j succs IH]; intros S HS Hrange; cbn zeta.
  - split; [done|]. split; [apply grows_refl|]. split; [done|]. by intros j ?%not_elem_of_nil.
  - pose proof (Hrange j ltac:(by left)) as Hj. cbn [foldl].
    pose proof (flow_wf S j st HS Hst Hj) as HS1. pose proof (flow_turns S j st HS Hst Hj).
    destruct (flow_grows S j st) as [Hg1 (stj & Hstj & Hw)].
    destruct (IH (flow S j st) HS1) as (HS' & Hg & Ht & Hsucc).
    { intros k Hk. apply Hrange. by right. }
    split; [done|]. split; [by eapply grows_trans|]. split; [lia|].
    intros k [->|Hk]%elem_of_cons; [|by apply Hsucc].
    destruct (gr_entries _ _ Hg _ _ Hstj) as (st' & Hst' & Hw' & _). exists st'. split; [done|]. by etrans.
Qed.

(** What flows into the successors of a block is in their states. *)
Definition flowed (E : gmap Z rangeState) (i : Z) (st : rangeState) : Prop :=
  ∃ b exit, zget blocks i = Some b ∧ transferBlock f st b = Some exit ∧
    ∀ j, j ∈ successors b → ∃ stj, E !! j = Some stj ∧ weaker stj exit.

Record solver_ok (S : rangeSolver) : Prop := {
  so_wf : solver_wf S;
  so_flowed i st : entries S !! i = Some st → i ∉ pending S → flowed (entries S) i st;
  so_pending i : i ∈ pending S → is_Some (entries S !! i);
}.

Lemma solveStep_ok S i rest :
  solver_ok S → pending S = i :: rest →
  ∃ S', solveStep f blocks S i rest = Some S' ∧ solver_ok S' ∧ (turns S' < turns S)%nat ∧
    ∀ j st, entries S !! j = Some st → ∃ st', entries S' !! j = Some st' ∧ weaker st' st.
Proof.
  intros [HS Hflow Hpend] Hp. destruct (Hpend i) as [st Hst]; [rewrite Hp; by left|].
  destruct (sw_entries _ HS _ _ Hst) as [Hwfst Hi].
  destruct (zget_is_Some blocks i Hi) as [b Hb].
  destruct (zget_blocks_straight _ _ Hb) as [Hs Hstart].
  destruct (straight_transfer _ _ _ st Hs Hstart Hwfst) as (exit & Hexit & Hwfexit).
  unfold solveStep. rewrite Hb, Hst. cbn [mbind option_bind].
  change (default newRangeState (Some st)) with st. unfold transferBlock.
  rewrite Hexit. cbn [mbind option_bind]. eexists. split; [done|].
  set (S0 := NewRangeSolver (entries S) (visits S) rest).
  assert (HS0 : solver_wf S0) by (destruct HS; by split).
  destruct (flows_spec S0 exit (successors b) HS0 Hwfexit) as (HS' & Hg & Ht & Hsucc).
  { intros j. by eapply successors_range. }
  set (S' := foldl _ S0 _) in *. split; [|split].
  - split; [done| |].
    + intros j stj Hj Hnp. destruct (entries S0 !! j) as [stj0|] eqn:Ej0.
      2: { destruct Hnp. by apply (gr_new _ _ Hg); [|exists stj]. }
      destruct (gr_entries _ _ Hg _ _ Ej0) as (stj' & Hj' & _ & [->|]); [|done].
      rewrite Hj in Hj'. injection Hj' as <-. cbn in Ej0.
      destruct (decide (j = i)) as [->|Hji].
      * rewrite Hst in Ej0. injection Ej0 as <-. by exists b, exit.
      * destruct (Hflow _ _ Ej0) as (bj & exitj & Hbj & Hexitj & Hsj).
        { rewrite Hp. intros [|Hin]%elem_of_cons; [done|]. by apply Hnp, (gr_pending _ _ Hg). }
        exists bj, exitj. split; [done|]. split; [done|]. intros k Hk.
        destruct (Hsj _ Hk) as (stk & Hstk & Hwk).
        destruct (gr_entries _ _ Hg _ _ Hstk) as (stk' & Hstk' & Hwk' & _). exists stk'.
        split; [done|]. by etrans.
    + intros j [Hj|]%(gr_known _ _ Hg); [|done]. cbn in Hj.
      destruct (Hpend j) as [stj Hstj]; [rewrite Hp; by right|].
      destruct (gr_entries _ _ Hg _ _ Hstj) as (stj' & ? & _). by exists stj'.
  - assert (turns S = Datatypes.S (turns S0)); [|lia].
    unfold turns, potential. rewrite Hp. cbn. lia.
  - intros j stj Hstj. destruct (gr_entries _ _ Hg _ _ Hstj) as (stj' & ? & ? & _). by exists stj'.
Qed.

(** The states the solver ends with: what flows out of a block is in the
    states of its successors. *)
Record solution (E : gmap Z rangeState) : Prop := {
  sol_wf i st : E !! i = Some st → wf_state st ∧ 0 <= i < zlen blocks;
  sol_flowed i st : E !! i = Some st → flowed E i st;
}.

Lemma solveFrom_solution fuel S :
  solver_ok S → (turns S < fuel)%nat →
  ∃ E, solveFrom fuel f blocks S = Some E ∧ solution E ∧
    ∀ j st, entries S !! j = Some st → ∃ st', E !! j = Some st' ∧ weaker st' st.
Proof.
  revert S. induction fuel as [|fuel IH]; intros S HS Hfuel; [lia|]. cbn [solveFrom].
  destruct (pending S) as [|i rest] eqn:Hp.
  - exists (entries S). split; [done|]. destruct HS as [HS Hflow _]. split.
    + split; [apply HS|]. intros i st Hi. apply Hflow; [done|]. rewrite Hp. apply not_elem_of_nil.
    + intros j st Hj. by exists st.
  - destruct (solveStep_ok S i rest HS Hp) as (S' & -> & HS' & Hlt & Hgrow).
    cbn [mbind option_bind]. destruct (IH S' HS') as (E & HE & Hsol & Hweak); [lia|].
    exists E. split; [done|]. split; [done|]. intros j st Hj.
    destruct (Hgrow _ _ Hj) as (st1 & H1 & Hw1). destruct (Hweak _ _ H1) as (st2 & H2 & Hw2).
    exists st2. split; [done|]. by etrans.
Qed.

Lemma sum_list_with_bound {A} (g : A → nat) n l :
  (∀ x, g x <= n)%nat → (sum_list_with g l <= n * length l)%nat.
Proof. intros Hle. induction l as [|x l IH]; cbn; [lia|]. specialize (Hle x). lia. Qed.

(** The solver has an answer for a body that is not empty: a solution in which
    the entry block is reached with nothing known. *)
Lemma solveRanges_solution :
  0 < zlen body →
  ∃ entry E, blockAt !! 0 = Some entry ∧ solveRanges f blocks blockAt = Some E ∧ solution E ∧
    ∃ st, E !! entry = Some st ∧ weaker st newRangeState.
Proof.
  intros Hlen. pose proof (blockBounds_tiles body) as Htiles.
  destruct (tiles_leader body _ 0 _ 0 Htiles (start_first _) (start_first _)) as [e He]; [lia|by left|].
  destruct (blockAt_start _ _ He) as [entry Hentry]. exists entry.
  assert (Hrange : 0 <= entry < zlen blocks).
  { destruct (blockAt_Some _ _ Hentry) as [e' He']. unfold rangeBlocks. cbn [fst].
    rewrite length_map. by eapply zget_Some_range. }
  unfold solveRanges. rewrite Hentry. cbn [default from_option id].
  destruct (solveFrom_solution (solverFuel blocks)
    (NewRangeSolver {[entry := newRangeState]} ∅ [entry])) as (E & HE & Hsol & Hweak).
  - split; [split|..]; cbn [entries visits pending].
    + intros i st [<- <-]%lookup_singleton_Some. split; [apply wf_new|done].
    + intros i count. by rewrite lookup_empty.
    + intros i st [<- <-]%lookup_singleton_Some Hnot. destruct Hnot. by left.
    + intros i ->%list_elem_of_singleton. rewrite lookup_singleton_eq. eauto.
  - unfold turns, solverFuel. cbn [pending length].
    pose proof (sum_list_with_bound
      (potential (NewRangeSolver {[entry := newRangeState]} ∅ [entry])) 521 (seqZ 0 (zlen blocks))) as Hb.
    rewrite length_seqZ, Nat2Z.id in Hb.
    assert (0 < length blocks)%nat by lia.
    assert (∀ i, potential (NewRangeSolver {[entry := newRangeState]} ∅ [entry]) i <= 521)%nat as Hpot;
      [|specialize (Hb Hpot); lia].
    intros i. unfold potential. cbn [entries visits]. destruct (_ !! i) as [st|] eqn:Ei; [|done].
    apply lookup_singleton_Some in Ei as [<- <-]. rewrite lookup_empty. vm_compute. lia.
  - exists E. split; [done|]. split; [done|]. split; [done|]. apply Hweak.
    cbn [entries]. by rewrite lookup_singleton_eq.
Qed.
End solver.
