(* ===== verification/RangesElide.v ===== *)
(** * The elision of truncations that fit

    The pass of [Ranges] against the machine: turning the truncations whose
    inputs fit into no-ops preserves what a function computes. *)

From S2P Require Import Prelude SafeConv Register Opcode Instruction Shapes Spec JumpLayout Jumps.
From S2P Require Import Extension Function Builder Verify VerifySound Machine MachineSafe MachineFlow.
From S2P Require Import FuseNarrow TruncElide PassFacts Ranges RangesSound RangesSolve.

(** ** Bodies that agree from a word on *)

Definition agree_from (pc : Z) (body body' : list Instruction) : Prop :=
  length body = length body' ∧ ∀ j, pc <= j → zget body j = zget body' j.

Section agree.
Context (body body' : list Instruction) (pc : Z) (Hagree : agree_from pc body body') (Hpc : 0 <= pc).

Lemma agree_footprintFrom fuel width :
  0 <= width → footprintFrom fuel body pc width = footprintFrom fuel body' pc width.
Proof.
  destruct Hagree as [_ Hz]. revert width. induction fuel as [|fuel IH]; intros width Hw; cbn; [done|].
  rewrite Hz by lia. destruct (zget body' (pc + width)); [|done]. case_if; [apply IH; lia|done].
Qed.

Lemma agree_footprint : instructionFootprint body pc = instructionFootprint body' pc.
Proof.
  unfold instructionFootprint. destruct Hagree as [Hl Hz]. rewrite Hz, Hl by lia.
  destruct (zget body' pc); [|done]. case_if; [done|]. by apply agree_footprintFrom.
Qed.

Lemma agree_drop n : pc <= Z.of_nat n → drop n body = drop n body'.
Proof.
  destruct Hagree as [Hl Hz]. intros Hn. apply list_eq. intros i. rewrite !lookup_drop.
  specialize (Hz (Z.of_nat (n + i)) ltac:(lia)). rewrite !zget_lookup in Hz by lia.
  by rewrite Nat2Z.id in Hz.
Qed.

Lemma agree_extensionWord state word kind :
  pc <= word →
  forgetExtensionWordWrites body state pc word kind = forgetExtensionWordWrites body' state pc word kind.
Proof.
  intros Hw. unfold forgetExtensionWordWrites. destruct Hagree as [_ Hz]. rewrite !Hz by lia.
  destruct (zget body' pc); [|done]. destruct (zget body' word); [|done]. cbn [mbind option_bind].
  by rewrite agree_drop by lia.
Qed.

Lemma agree_forgetWrites state inst : forgetWrites body state pc inst = forgetWrites body' state pc inst.
Proof.
  unfold forgetWrites.
  assert (forgetExtensionWrites body state pc inst = forgetExtensionWrites body' state pc inst) as ->;
    [|done].
  unfold forgetExtensionWrites. destruct (fst (JumpLayoutOf inst)); try done.
  rewrite agree_footprint.
  assert (Hall : Forall (λ w, pc <= w) (seqZ (pc + 1) (instructionFootprint body' pc - 1))).
  { apply Forall_forall. intros w Hw%elem_of_seqZ. lia. }
  revert state. induction Hall as [|w ws Hw _ IH]; intros state; [done|]. cbn [forgetExtensionWords].
  rewrite agree_extensionWord by done. destruct (forgetExtensionWordWrites _ _ _ _ _) as [s1|]; [|done].
  cbn [mbind option_bind]. rewrite agree_extensionWord by done.
  destruct (forgetExtensionWordWrites _ s1 _ _ _); [|done]. apply IH.
Qed.

Lemma agree_transfer f state :
  applyRangeTransfer (setBody f body) state pc = applyRangeTransfer (setBody f body') state pc.
Proof.
  unfold applyRangeTransfer. change (Body (setBody f body)) with body.
  change (Body (setBody f body')) with body'. pose proof Hagree as [_ Hz]. rewrite Hz by lia.
  destruct (zget body' pc) as [inst|]; [|done]. cbn [mbind option_bind]. do 3 f_equal.
  rewrite agree_forgetWrites.
  assert (tier1RangeTransfer (setBody f body) state pc inst =
    tier1RangeTransfer (setBody f body') state pc inst) as ->; [|done].
  unfold tier1RangeTransfer. change (Body (setBody f body)) with body.
  change (Body (setBody f body')) with body'. rewrite Hz by lia. done.
Qed.
End agree.

Lemma transfer_fits_word f state pc state' :
  applyRangeTransfer f state pc = Some (state', true) →
  ∃ inst, zget (Body f) pc = Some inst ∧ iOp inst = OpTruncateNarrow.
Proof.
  unfold applyRangeTransfer. destruct (zget (Body f) pc) as [inst|]; [|done]. cbn [mbind option_bind].
  case_if; [done|]. case_if; bool_hyps; [eauto|]. by case_match.
Qed.

Lemma layout_truncate inst : iOp inst = OpTruncateNarrow → fst (JumpLayoutOf inst) = JumpLayoutNone.
Proof. destruct inst as [op a b c]. cbn [iOp]. intros ->. reflexivity. Qed.

Lemma footprint_zset body pc inst w :
  zget body pc = Some inst → fst (JumpLayoutOf inst) = JumpLayoutNone →
  fst (JumpLayoutOf w) = JumpLayoutNone →
  instructionFootprint (zset body pc w) pc = instructionFootprint body pc.
Proof.
  intros Hg Hi Hw. pose proof (zget_Some_range _ _ _ Hg). unfold instructionFootprint.
  rewrite zget_zset_eq, Hg, Hi, Hw, length_zset by done. cbn [bool_decide]. case_if; [done|]. clear E.
  assert (∀ fuel width, 0 < width →
    footprintFrom fuel (zset body pc w) pc width = footprintFrom fuel body pc width) as Heq; [|by apply Heq].
  induction fuel as [|fuel IH]; intros width Hwd; cbn; [done|]. rewrite zget_zset_ne by lia.
  destruct (zget body (pc + width)); [|done]. case_if; [apply IH; lia|done].
Qed.

(** ** The words the pass writes *)

Section elide.
Context (f : CompiledFunction).

#[local] Notation body := (Body f).
#[local] Notation next pc := (pc + instructionFootprint body pc).

(** [body'] is [body] with the truncations from [pc] to [end_] that fit,
    starting from a state, turned into no-ops. *)
Inductive elides (body' : list Instruction) (end_ : Z) : Z → rangeState → Prop :=
  | elides_end pc st : end_ <= pc → elides body' end_ pc st
  | elides_word pc st st' fits :
      pc < end_ → applyRangeTransfer f st pc = Some (st', fits) →
      zget body' pc = (if fits then Some nop else zget body pc) →
      elides body' end_ (next pc) st' → elides body' end_ pc st.

Lemma elides_ext body' body'' end_ pc st :
  (∀ j, pc <= j < end_ → zget body'' j = zget body' j) →
  elides body' end_ pc st → elides body'' end_ pc st.
Proof.
  intros Heq He. induction He as [|pc st st' fits Hlt Ht Hz _ IH]; [by constructor|].
  eapply elides_word; [done|done|rewrite <- Hz; apply Heq; lia|]. apply IH.
  intros j Hj. apply Heq. pose proof (next_gt body pc). lia.
Qed.

(** [body''] is [body'] with truncations of [body] from [pc] to [end_] turned
    into no-ops. *)
Definition rewritten (pc end_ : Z) (body' body'' : list Instruction) : Prop :=
  length body'' = length body' ∧
  ∀ j, zget body'' j = zget body' j ∨
    (pc <= j < end_ ∧ zget body'' j = Some nop ∧
     ∃ t, zget body j = Some t ∧ iOp t = OpTruncateNarrow).

Lemma rewritten_refl pc end_ body' : rewritten pc end_ body' body'.
Proof. split; auto. Qed.

Lemma rewritten_trans pc mid end_ b1 b2 b3 :
  pc <= mid → mid <= end_ → rewritten pc mid b1 b2 → rewritten mid end_ b2 b3 → rewritten pc end_ b1 b3.
Proof.
  intros ?? [Hl1 Hz1] [Hl2 Hz2]. split; [congruence|]. intros j.
  destruct (Hz2 j) as [->|(? & ? & ?)]; [|right; split; [lia|done]].
  destruct (Hz1 j) as [->|(? & ? & ?)]; [by left|right; split; [lia|done]].
Qed.

Lemma rewritten_agree pc end_ b b' : rewritten pc end_ b b' → agree_from pc b body → agree_from end_ b body →
  agree_from end_ b' body.
Proof.
  intros [Hl Hz] _ [Hl' Hz']. split; [congruence|]. intros j Hj. rewrite <- Hz' by done.
  destruct (Hz j) as [|[]]; [done|lia].
Qed.

Lemma agree_from_mono pc pc' b b' : pc <= pc' → agree_from pc b b' → agree_from pc' b b'.
Proof. intros ? [Hl Hz]. split; [done|]. intros j Hj. apply Hz. lia. Qed.

(** One turn of the loop over the words of a block. *)
Lemma elide_word_spec pc st b st' fits :
  0 <= pc < zlen body → agree_from pc b body → applyRangeTransfer f st pc = Some (st', fits) →
  let b' := if fits then zset b pc nop else b in
  applyRangeTransfer (setBody f b) st pc = Some (st', fits) ∧
  instructionFootprint b' pc = instructionFootprint body pc ∧
  rewritten pc (next pc) b b' ∧ zget b' pc = (if fits then Some nop else zget body pc) ∧
  agree_from (next pc) b' body.
Proof.
  intros Hpc Hagree Ht b'. pose proof (next_gt body pc) as Hnext.
  assert (Hsame : applyRangeTransfer (setBody f b) st pc = Some (st', fits)).
  { rewrite (agree_transfer b body pc Hagree (proj1 Hpc) f st). by destruct f. }
  split; [done|]. pose proof Hagree as [Hl Hz].
  assert (Hfits : fits = true → ∃ t, zget body pc = Some t ∧ iOp t = OpTruncateNarrow).
  { intros ->. by eapply transfer_fits_word. }
  assert (Hlen : 0 <= pc < zlen b) by (rewrite Hl; lia).
  subst b'. destruct fits; [destruct (Hfits eq_refl) as (t & Hg & Hop)|].
  - split; [|split; [|split]].
    + rewrite (footprint_zset b pc t nop); [by apply agree_footprint|by rewrite Hz|by apply layout_truncate|done].
    + split; [apply length_zset|]. intros j. destruct (decide (pc = j)) as [<-|].
      * right. split; [lia|]. split; [by apply zget_zset_eq|eauto].
      * left. by apply zget_zset_ne.
    + by apply zget_zset_eq.
    + split; [by rewrite length_zset|]. intros j Hj. rewrite zget_zset_ne by lia. apply Hz. lia.
  - split; [by apply agree_footprint|]. split; [apply rewritten_refl|]. split; [by apply Hz|].
    eapply agree_from_mono; [|done]. lia.
Qed.

Lemma elideWords_cons fuel b st pc limit removed st' fits :
  pc < limit → applyRangeTransfer (setBody f b) st pc = Some (st', fits) →
  elideWords (S fuel) (setBody f b) st pc limit removed =
  elideWords fuel (setBody f (if fits then zset b pc nop else b)) st'
    (pc + instructionFootprint (if fits then zset b pc nop else b) pc) limit
    (if fits then true else removed).
Proof.
  intros Hlt Ht. cbn [elideWords]. rewrite (proj2 (Z.leb_gt _ _)) by lia. rewrite Ht.
  by destruct fits.
Qed.

Lemma elideWords_end fuel g st pc limit removed :
  limit <= pc → elideWords fuel g st pc limit removed = Some (g, removed).
Proof. intros. destruct fuel; cbn [elideWords]; [done|]. by rewrite (proj2 (Z.leb_le _ _)). Qed.

Lemma elideWords_straight leaders pc end_ fuel b st removed :
  straight body leaders pc end_ → 0 <= pc → end_ - pc <= Z.of_nat fuel → agree_from pc b body →
  ∃ b' removed',
    elideWords fuel (setBody f b) st pc end_ removed = Some (setBody f b', removed') ∧
    rewritten pc end_ b b' ∧ agree_from end_ b' body ∧ elides b' end_ pc st.
Proof.
  intros Hs. revert fuel b st removed.
  induction Hs as [pc Hlen _|pc end_ Hlen _ Hs IH]; intros fuel b st removed Hpc Hfuel Hagree;
    pose proof (next_gt body pc);
    (destruct fuel as [|fuel]; [try (apply straight_lt in Hs); lia|]);
    destruct (applyRangeTransfer_is_Some f st pc) as (st' & fits & Ht); try lia;
    assert (Hrange : 0 <= pc < zlen body) by lia;
    destruct (elide_word_spec pc st b st' fits Hrange Hagree Ht) as (Hsame & Hfoot & Hr & Hz & Ha).
  - rewrite (elideWords_cons _ _ _ _ _ _ _ _ H Hsame), Hfoot, elideWords_end by lia.
    eexists _, _. split; [done|]. split; [done|]. split; [done|].
    eapply elides_word; [lia|done|done|]. constructor. lia.
  - assert (Hlt : pc < end_) by (pose proof (straight_lt _ _ _ _ Hs); lia).
    pose proof (straight_lt _ _ _ _ Hs).
    rewrite (elideWords_cons _ _ _ _ _ _ _ _ Hlt Hsame), Hfoot.
    destruct (IH fuel _ st' (if fits then true else removed) ltac:(lia) ltac:(lia) Ha)
      as (b' & removed' & -> & Hr' & Ha' & He').
    exists b', removed'. split; [done|]. split; [|split; [done|]].
    + eapply rewritten_trans; [| |exact Hr|exact Hr']; lia.
    + eapply elides_word; [lia|done| |done]. destruct Hr' as [_ Hr'].
      destruct (Hr' pc) as [->|[]]; [done|lia].
Qed.

(** The blocks from [pc] on. *)
Lemma elideBlocks_tiles leaders entries pc bounds (k : Z) b removed (mk : Z * Z → rangeBlock) :
  (∀ s e, start (mk (s, e)) = s ∧ blockEnd (mk (s, e)) = e) →
  tiles body leaders pc bounds → 0 <= pc → agree_from pc b body →
  ∃ b' removed',
    elideBlocks (setBody f b) entries (zip (seqZ k (zlen bounds)) (map mk bounds)) removed =
      Some (setBody f b', removed') ∧
    (∃ end_, rewritten pc end_ b b') ∧
    ∀ i s e entry, zget bounds i = Some (s, e) → entries !! (k + i) = Some entry →
      elides b' e s entry.
Proof.
  intros Hmk Ht. revert k b removed. induction Ht as [pc _|pc end_ bounds Hs Ht IH];
    intros k b removed Hpc Hagree.
  - exists b, removed. split; [done|]. split; [exists pc; apply rewritten_refl|].
    intros i s e entry Hi%zget_Some_range. cbn [length] in Hi. lia.
  - pose proof (straight_lt _ _ _ _ Hs) as Hlt.
    replace (zip (seqZ k (zlen ((pc, end_) :: bounds))) (map mk ((pc, end_) :: bounds)))
      with ((k, mk (pc, end_)) :: zip (seqZ (k + 1) (zlen bounds)) (map mk bounds)).
    2: { rewrite (seqZ_cons k) by (cbn [length]; lia).
      replace (Z.pred (zlen ((pc, end_) :: bounds))) with (zlen bounds) by (cbn [length]; lia).
      by replace (k + 1) with (Z.succ k) by lia. }
    cbn [elideBlocks]. destruct (Hmk pc end_) as [-> ->].
    assert (∃ b1 removed1,
      match entries !! k with
      | None => elideBlocks (setBody f b) entries (zip (seqZ (k + 1) (zlen bounds)) (map mk bounds)) removed
      | Some entry =>
          result ← elideWords (Z.to_nat (end_ - pc)) (setBody f b) entry pc end_ removed;
          elideBlocks (fst result) entries (zip (seqZ (k + 1) (zlen bounds)) (map mk bounds)) (snd result)
      end = elideBlocks (setBody f b1) entries (zip (seqZ (k + 1) (zlen bounds)) (map mk bounds)) removed1 ∧
      rewritten pc end_ b b1 ∧ agree_from end_ b1 body ∧
      ∀ entry, entries !! k = Some entry → elides b1 end_ pc entry) as (b1 & removed1 & -> & Hr1 & Ha1 & He1).
    { destruct (entries !! k) as [entry|].
      - destruct (elideWords_straight leaders pc end_ (Z.to_nat (end_ - pc)) b entry removed Hs Hpc)
          as (b1 & removed1 & -> & ? & ? & ?); [lia|done|].
        exists b1, removed1. split; [done|]. split; [done|]. split; [done|]. by intros ? [= <-].
      - exists b, removed. split; [done|]. split; [apply rewritten_refl|].
        split; [eapply agree_from_mono; [|done]; lia|done]. }
    destruct (IH (k + 1) b1 removed1 ltac:(lia) Ha1) as (b' & removed' & -> & [end' Hr'] & He').
    exists b', removed'. split; [done|]. split.
    + exists (Z.max end_ end'). destruct Hr1 as [Hl1 Hz1], Hr' as [Hl' Hz']. split; [congruence|].
      intros j. destruct (Hz' j) as [->|(? & ? & ?)]; [|right; split; [lia|done]].
      destruct (Hz1 j) as [->|(? & ? & ?)]; [by left|right; split; [lia|done]].
    + intros i s e entry Hi Hentry. pose proof (zget_Some_range _ _ _ Hi) as Hrange.
      destruct (decide (i = 0)) as [->|Hne].
      * injection Hi as <- <-. rewrite Z.add_0_r in Hentry.
        eapply elides_ext; [|by apply He1]. intros j Hj. destruct Hr' as [_ Hz'].
        destruct (Hz' j) as [|[]]; [done|lia].
      * apply (He' (i - 1)); [|by replace (k + 1 + (i - 1)) with (k + i) by lia].
        rewrite zget_lookup in Hi |- * by lia.
        replace (Z.to_nat i) with (S (Z.to_nat (i - 1))) in Hi by lia. done.
Qed.
End elide.

(** ** The simulation *)

Lemma last_default {A} (l : list A) x d d' : List.last (x :: l) d = List.last (x :: l) d'.
Proof. revert x. induction l as [|y l IH]; intros x; [done|]. apply IH. Qed.

(** The word a block ends with is the one the walk from any of its words
    ends with. *)
Lemma last_walk body pc end_ :
  pc < end_ → pc + instructionFootprint body pc < end_ →
  List.last (walk body pc end_) pc =
  List.last (walk body (pc + instructionFootprint body pc) end_) (pc + instructionFootprint body pc).
Proof.
  intros H1 H2. rewrite (walk_cons body pc) by done. rewrite (walk_cons _ _ _ H2).
  exact (last_default _ (pc + instructionFootprint body pc) pc _).
Qed.

Lemma tiles_next body leaders pc bounds s e :
  tiles body leaders pc bounds → (s, e) ∈ bounds → e < zlen body → ∃ e', (e, e') ∈ bounds.
Proof.
  induction 1 as [|pc end_ bounds Hs Ht IH]; [by intros ?%not_elem_of_nil|].
  intros [[= -> ->]|Hin]%elem_of_cons He.
  - inversion Ht; subst; [lia|]. eexists. right. by left.
  - destruct (IH Hin He) as [e' He']. exists e'. by right.
Qed.

Lemma straight_inv body leaders pc end_ :
  straight body leaders pc end_ → end_ = pc + instructionFootprint body pc ∨
  (endsBlock body leaders pc = false ∧ straight body leaders (pc + instructionFootprint body pc) end_).
Proof. destruct 1; auto. Qed.

Section simulation.
Context (f : CompiledFunction) (Hwalk : walkable (Body f)) (Hpools : typed_pools f).
Context (Hwidths : truncation_widths (Body f)).
Context (body' : list Instruction) (E : gmap Z rangeState).

#[local] Notation body := (Body f).
#[local] Notation next pc := (pc + instructionFootprint body pc).
#[local] Notation bounds := (blockBounds body).
#[local] Notation blockAt := (blockAtOf bounds).
#[local] Notation blocks := (fst (rangeBlocks body)).

Context (Hsol : solution f E).
Context (end_ : Z) (Hrewritten : rewritten f 0 end_ body body').
Context (Helides : ∀ i b st, zget blocks i = Some b → E !! i = Some st →
  elides f body' (blockEnd b) (start b) st).

(** A frame inside a block the analysis reached, with what it knows there. *)
Record within (x : CallFrame) (b : rangeBlock) (st exit : rangeState) : Prop := {
  wi_block : ∃ i, zget blocks i = Some b;
  wi_start : instruction_start body (ProgramCounter x);
  wi_straight : straight body (leadersOf body) (ProgramCounter x) (blockEnd b);
  wi_last : List.last (walk body (ProgramCounter x) (blockEnd b)) (ProgramCounter x) =
    lastWord body (start b, blockEnd b);
  wi_elides : elides f body' (blockEnd b) (ProgramCounter x) st;
  wi_exit : transferWords f st (walk body (ProgramCounter x) (blockEnd b)) = Some exit;
  wi_flowed j : j ∈ successors b → ∃ stj, E !! j = Some stj ∧ weaker stj exit;
  wi_holds : holds st (registers x);
  wi_wf : wf_state st;
}.

Definition covered (x : CallFrame) : Prop :=
  typed (registers x) ∧ (zlen body <= ProgramCounter x ∨ ∃ b st exit, within x b st exit).

(** A frame at the start of a reached block. *)
Lemma covered_start x j st :
  typed (registers x) → instruction_start body (ProgramCounter x) →
  blockAt !! ProgramCounter x = Some j → E !! j = Some st → holds st (registers x) → covered x.
Proof.
  intros Htyped Hstart Hat HE Hst. split; [done|right].
  destruct (sol_flowed _ _ Hsol _ _ HE) as (b & exit & Hb & Hexit & Hsucc).
  destruct (sol_wf _ _ Hsol _ _ HE) as [Hwfst _].
  apply blockAt_Some in Hat as [e He]. pose proof Hb as (s & e' & He' & Hbeq)%zget_blocks.
  rewrite He in He'. injection He' as <- <-. destruct (zget_blocks_straight _ _ _ Hb) as [Hs _].
  assert (Hbs : start b = ProgramCounter x) by by rewrite Hbeq.
  exists b, st, exit. split; [by exists j|done| | | | |done|done|done].
  - by rewrite <- Hbs.
  - unfold lastWord. cbn [fst snd]. by rewrite Hbs.
  - rewrite <- Hbs. by eapply Helides.
  - rewrite <- Hbs. exact Hexit.
Qed.

(** The words the pass leaves, as the handlers read them. *)
Lemma operands_kept x i h :
  zget body (ProgramCounter x) = Some i → flatDispatchSwitch i = Some h →
  h (setBody f body') (advance x 1) i = h f (advance x 1) i.
Proof.
  intros Hg Hd. pose proof (forall_arms _ reads_own_words_arms _ _ Hd) as Hr.
  apply Hr; [eapply wf_body_zget; [apply Hwalk|done]|done|]. intros j Hj.
  destruct (wk_laid_out _ Hwalk _ _ _ Hg Hd) as [_ Hspan]. destruct (Hspan j Hj) as (w & Hw & Hor).
  destruct Hrewritten as [_ Hz]. destruct (Hz j) as [|(_ & _ & t & Ht & Hop)]; [done|].
  rewrite Hw in Ht. injection Ht as ->. destruct Hor as [Hext|Hnop].
  - by rewrite Hext in Hop.
  - apply isCanonicalNop_nop in Hnop as ->. discriminate Hop.
Qed.

Lemma step_covered x i h y :
  covered x → zget body (ProgramCounter x) = Some i → flatDispatchSwitch i = Some h →
  h f (advance x 1) i = opContinue y → covered y.
Proof.
  intros [Htyped [Hlen|(b & st & exit & Hin)]] Hg Hd Hrun.
  { apply zget_Some_range in Hg. lia. }
  destruct Hin as [[k Hb] Hstart Hs Hlast Hel Hexit Hflow Hst Hwfst].
  assert (Htyped' : typed (registers y)).
  { pose proof (forall_arms _ keeps_typed_arms _ _ Hd) as Hk.
    eapply Hk; [eapply wf_body_zget; [apply Hwalk|exact Hg]|done| |exact Hrun]. done. }
  inversion Hel as [|? ? st' fits Hlt Ht Hz Hel']; subst; [apply straight_lt in Hs; lia|].
  assert (Hst' : holds st' (registers y)).
  { eapply (transfer_holds f (wk_wf _ Hwalk) Hpools Hwidths st x y); eauto. }
  assert (Hwfst' : wf_state st') by (eapply transfer_wf; [apply Hwalk|done|exact Hwfst|done]).
  rewrite walk_cons, transferWords_cons, Ht in Hexit by done. cbn [mbind option_bind fst] in Hexit.
  pose proof (zget_Some_range _ _ _ Hg) as Hrange.
  pose proof Hb as (s & e & Hse & Hbeq)%zget_blocks.
  (* The next block, when control leaves this one. *)
  assert (Hleave : ∀ t, ProgramCounter y = t → instruction_start body t → blockEnd b = next (ProgramCounter x) →
    (∃ e', (t, e') ∈ bounds) → (∀ j, blockAt !! t = Some j → j ∈ successors b) → covered y).
  { intros t Hpc Hts Hend [e' He'] Hsucc. destruct (blockAt_start f _ _ He') as [j Hj].
    destruct (Hflow j (Hsucc j Hj)) as (stj & HEj & Hweak).
    rewrite walk_nil in Hexit by (rewrite Hend; lia). injection Hexit as <-.
    apply (covered_start y j stj); try done; [by rewrite Hpc|by rewrite Hpc|by apply Hweak]. }
  assert (Hends : blockEnd b = next (ProgramCounter x) → lastWord body (s, e) = ProgramCounter x).
  { intros Hend. rewrite Hbeq in Hlast, Hend. cbn [start blockEnd] in Hlast, Hend.
    rewrite <- Hlast, Hend, walk_cons by (pose proof (next_gt body (ProgramCounter x)); lia).
    by rewrite walk_nil. }
  destruct (step_goes f x i h y (wk_wf _ Hwalk) (wk_laid_out _ Hwalk) Hg Hd Hrun)
    as [Hjump|(Hpc & _ & Hterm)].
  - destruct (decide (zlen body <= ProgramCounter y)) as [|Hlen]; [by split; [|left]|].
    destruct (leadersOf_jump body _ _ Hstart ltac:(lia) Hjump) as [Hlead Hnextlead].
    destruct (wk_targets _ Hwalk _ (JumpTargetAt_elem _ _ _ Hjump)) as [Hpos Hts].
    specialize (Hts ltac:(lia)).
    assert (Hend : blockEnd b = next (ProgramCounter x)).
    { destruct (straight_inv _ _ _ _ Hs) as [|[Hnot _]]; [done|]. unfold endsBlock in Hnot.
      rewrite bool_decide_eq_true_2 in Hnot by done. discriminate Hnot. }
    apply (Hleave (ProgramCounter y)); [done|done|done| |].
    + eapply (tiles_leader body _ 0); [apply blockBounds_tiles|constructor|done|lia|by right].
    + intros j Hj. rewrite Hbeq. cbn [successors]. unfold rangeSuccessors. rewrite (Hends Hend), Hjump, Hj.
      apply elem_of_app. left. by left.
  - rewrite (wk_span _ Hwalk _ _ _ Hstart Hg Hd) in Hpc.
    assert (Hstart' : instruction_start body (next (ProgramCounter x))) by (constructor; [done|lia]).
    destruct (straight_inv _ _ _ _ Hs) as [Hend|[_ Hs']].
    + destruct (decide (zlen body <= ProgramCounter y)) as [|Hlen]; [by split; [|left]|].
      pose proof Hend as He. rewrite Hbeq in He. cbn [blockEnd] in He. rewrite <- He in Hstart', Hpc.
      apply (Hleave e); [done|done|done| |].
      * eapply tiles_next; [apply blockBounds_tiles| |lia]. apply elem_of_zget. by exists k; rewrite Hse.
      * intros j Hj. rewrite Hbeq. cbn [successors]. unfold rangeSuccessors. rewrite (Hends Hend), Hg.
        destruct (falls_through _ _ Hd Hterm) as [-> ->]. cbn [andb negb fst snd].
        rewrite Hj. apply elem_of_app. right. by left.
    + split; [done|right]. exists b, st', exit. split; rewrite ?Hpc; try done; [by exists k|].
      rewrite <- Hlast. symmetry. apply last_walk; [done|]. by apply straight_lt in Hs'.
Qed.

Lemma body'_zget x i st b exit :
  within x b st exit → zget body (ProgramCounter x) = Some i →
  ∃ st' fits, applyRangeTransfer f st (ProgramCounter x) = Some (st', fits) ∧
    zget body' (ProgramCounter x) = (if fits then Some nop else Some i).
Proof.
  intros Hin Hg. pose proof (straight_lt _ _ _ _ (wi_straight _ _ _ _ Hin)).
  pose proof (wi_elides _ _ _ _ Hin) as Hel.
  inversion Hel as [|? ? st' fits Hlt Ht Hz Hel']; [lia|]. exists st', fits. rewrite <- Hg. auto.
Qed.

(** The two bodies step alike. *)
Lemma step_alike x :
  covered x → ProgramCounter x < zlen body → dispatchStep (setBody f body') x = dispatchStep f x.
Proof.
  intros [Htyped [Hlen|(b & st & exit & Hin)]] Hlt; [lia|].
  pose proof (start_nonneg _ _ (wi_start _ _ _ _ Hin)) as Hpos.
  destruct (zget_is_Some body (ProgramCounter x)) as [i Hg]; [lia|].
  destruct (body'_zget x i st b exit Hin Hg) as (st' & fits & Ht & Hz).
  destruct (flatDispatchSwitch i) as [h|] eqn:Hd.
  - rewrite (dispatchStep_at f x i h Hg Hd). destruct fits.
    + rewrite (dispatchStep_at (setBody f body') x nop handleFlatSubOpTier3Nop Hz) by reflexivity.
      destruct (transfer_fits f Hwidths st x i h st') as [_ ->]; try done; apply Hin.
    + rewrite (dispatchStep_at (setBody f body') x i h Hz Hd). f_equal. by apply operands_kept.
  - assert (fits = false) as ->.
    { destruct fits; [|done]. apply transfer_fits_word in Ht as (t & Hgt & Hop).
      rewrite Hg in Hgt. injection Hgt as <-. destruct i as [op a c d]. cbn in Hop. subst op.
      by rewrite (dispatch_main _ _ _ _ HandleTruncateNarrow) in Hd. }
    unfold dispatchStep. change (Body (setBody f body')) with body'.
    destruct Hrewritten as [-> _]. by rewrite Hz, Hg, Hd.
Qed.

Lemma execute_alike fuel x : covered x → execute fuel (setBody f body') x = execute fuel f x.
Proof.
  revert x. induction fuel as [|fuel IH]; intros x Hx; [done|]. cbn [execute].
  change (Body (setBody f body')) with body'. pose proof Hrewritten as [-> _].
  case_if; bool_hyps; [done|]. rewrite (step_alike x Hx) by lia.
  destruct (dispatchStep f x) as [[y| | |]|] eqn:Hstep; try done. apply IH.
  apply dispatchStep_inv in Hstep as [(_ & _ & ?)|(i & h & Hg & Hd & Hrun)]; [done|].
  by eapply step_covered.
Qed.
End simulation.

(** ** The pass *)

Lemma skip_false (n : nat) a b c :
  (Z.of_nat n =? 0) || a || b || c = false → 0 < Z.of_nat n ∧ a || b || c = false.
Proof. intros H. destruct (Z.eqb_spec (Z.of_nat n) 0); [done|]. split; [lia|done]. Qed.

Lemma setBody_same f : setBody f (Body f) = f.
Proof. by destruct f. Qed.

Section pass.
Context (f : CompiledFunction) (Hwf : wf_body (Body f)) (Hpools : typed_pools f).

#[local] Notation body := (Body f).
#[local] Notation blocks := (fst (rangeBlocks body)).

(** What the pass does, when it runs. *)
Lemma elideRangedTruncates_runs :
  0 < zlen body → (maxRangeAnalysisWords <? zlen body) || bodyHasTypeSwitch body || MayCreateSharedCells f = false →
  ∃ entry E body' removed end_,
    elideRangedTruncates f = Some (setBody f body', removed) ∧
    blockAtOf (blockBounds body) !! 0 = Some entry ∧ solution f E ∧
    (∃ st, E !! entry = Some st ∧ weaker st newRangeState) ∧
    rewritten f 0 end_ body body' ∧
    ∀ i b st, zget blocks i = Some b → E !! i = Some st → elides f body' (blockEnd b) (start b) st.
Proof.
  intros Hlen Hrun. destruct (solveRanges_solution f Hwf Hpools Hlen) as (entry & E & Hentry & HE & Hsol & Hst).
  destruct (elideBlocks_tiles f (leadersOf body) E 0 (blockBounds body) 0 body false
    (λ b, NewRangeBlock (rangeSuccessors body b (blockAtOf (blockBounds body))) (fst b) (snd b)))
    as (body' & removed & Helide & [end_ Hr] & Hel); try done; [apply blockBounds_tiles|].
  exists entry, E, body', removed, end_. split; [|split_and!; try done].
  - unfold elideRangedTruncates. rewrite (proj2 (Z.eqb_neq (zlen body) 0)) by lia.
    rewrite orb_false_l, Hrun.
    unfold rangeBlocks in *. cbn [fst] in *. rewrite HE. cbn [mbind option_bind].
    rewrite setBody_same in Helide. by rewrite length_map.
  - intros i b st (s & e & Hse & ->)%zget_blocks HEi. cbn [start blockEnd]. by eapply Hel.
Qed.
End pass.

(** C27: the range analysis terminates and the pass never indexes out of range:
    on every body of well-formed words it returns a body of the same length in
    which each word is the old one, or a no-op where a narrowing truncation
    was. *)
Theorem elide_ranged_truncates_total f :
  wf_body (Body f) → typed_pools f →
  ∃ body' removed, elideRangedTruncates f = Some (setBody f body', removed) ∧
    length body' = length (Body f) ∧
    ∀ pc, zget body' pc = zget (Body f) pc ∨
      (zget body' pc = Some nop ∧ ∃ t, zget (Body f) pc = Some t ∧ iOp t = OpTruncateNarrow).
Proof.
  intros Hwf Hpools.
  destruct ((zlen (Body f) =? 0) || (maxRangeAnalysisWords <? zlen (Body f))
    || bodyHasTypeSwitch (Body f) || MayCreateSharedCells f) eqn:Hskip.
  - exists (Body f), false. rewrite setBody_same. split; [|auto]. unfold elideRangedTruncates.
    by rewrite Hskip.
  - apply skip_false in Hskip as [Hlen Hskip].
    destruct (elideRangedTruncates_runs f Hwf Hpools) as (entry & E & body' & removed & end_ & He & _ & _ & _ & Hr & _);
      [done|done|].
    exists body', removed. destruct Hr as [Hl Hz]. split; [done|]. split; [done|].
    intros pc. destruct (Hz pc) as [|(_ & ? & ?)]; auto.
Qed.


(** A loop that masks a register: the first truncation always fits, the one
    inside the loop fits once the states have met, the last does not. *)
Definition sample_ranges : CompiledFunction :=
  setBody (NewNamedFunction "f")
    [NewTier1Instruction SubOpLoadUintConstSmall 0 200;
     NewInstruction OpTruncateNarrow 0 16 RegisterUint;
     NewInstruction OpBitAndUint 0 0 1;
     NewInstruction OpTruncateNarrow 0 8 RegisterUint;
     NewInstruction OpTruncateNarrow 1 8 RegisterUint;
     NewInstruction OpJumpIfFalse 0 1 0;
     NewTier1Instruction SubOpJump 251 255].

Lemma sample_ranges_pcs pc i :
  zget (Body sample_ranges) pc = Some i →
  pc = 0 ∨ pc = 1 ∨ pc = 2 ∨ pc = 3 ∨ pc = 4 ∨ pc = 5 ∨ pc = 6.
Proof. intros Hg%zget_Some_range. change (zlen (Body sample_ranges)) with 7 in Hg. lia. Qed.

Lemma sample_ranges_pools : typed_pools sample_ranges.
Proof. repeat split; apply Forall_nil_2. Qed.

Lemma sample_ranges_wf : wf_body (Body sample_ranges).
Proof. split; [eapply bool_decide_unpack; vm_compute; exact I|vm_compute; congruence]. Qed.

Lemma sample_ranges_walkable : walkable (Body sample_ranges).
Proof.
  assert (H1 : instruction_start (Body sample_ranges) 1)
    by exact (start_next (Body sample_ranges) 0 (start_first _) eq_refl).
  split; [apply sample_ranges_wf| | |].
  - intros pc instr h Hg Hd. destruct (sample_ranges_pcs _ _ Hg) as [->|[->|[->|[->|[->|[->| ->]]]]]];
      injection Hg as <-; (split; [vm_compute; try done; eauto|]); intros j Hj;
      change (span _) with 1 in Hj; lia.
  - intros pc instr h _ Hg _. destruct (sample_ranges_pcs _ _ Hg) as [->|[->|[->|[->|[->|[->| ->]]]]]];
      injection Hg as <-; reflexivity.
  - intros t. assert (JumpTargetsOf (Body sample_ranges) = {[2]} ∪ {[7]}) as -> by (vm_compute; reflexivity).
    intros [->%elem_of_singleton| ->%elem_of_singleton]%elem_of_union; (split; [done|]); intros Hlt.
    + exact (start_next (Body sample_ranges) 1 H1 eq_refl).
    + by vm_compute in Hlt.
Qed.

Theorem elide_ranged_truncates_total_witness :
  ∃ body' removed, elideRangedTruncates sample_ranges = Some (setBody sample_ranges body', removed) ∧
    length body' = length (Body sample_ranges) ∧
    ∀ pc, zget body' pc = zget (Body sample_ranges) pc ∨
      (zget body' pc = Some nop ∧
       ∃ t, zget (Body sample_ranges) pc = Some t ∧ iOp t = OpTruncateNarrow).
Proof. apply elide_ranged_truncates_total; [apply sample_ranges_wf|apply sample_ranges_pools]. Defined.

