(* ===== verification/Dominators.v ===== *)
(** * Dominators

    The dominator table of [internal/compile/passes/function_dominators.go]
    over the control-flow graph of [function_pointer_alias.go].  The graph has
    a node per word, extension words included.  [None] is an index panic, and
    a nil row or table is an inner [None]. *)

From S2P Require Import Prelude SafeConv Register Opcode Instruction Shapes Spec JumpLayout Jumps.
From S2P Require Import Extension Function Builder Verify VerifySound Machine MachineSafe MachineFlow.
From S2P Require Import FuseNarrow TruncElide PassFacts Ranges RangesSolve RangesElide.

Definition bitsPerWord : Z := 64.
Definition maxDominatorIterations : nat := 64.

(** ** The control-flow graph *)

Definition buildAliasSuccessors (body : list Instruction) : list (list Z) :=
  map (λ pc,
    (match zget body pc with
     | Some inst => if isLinearFallThroughFrom inst && (pc + 1 <? zlen body) then [pc + 1] else []
     | None => []
     end) ++
    (match JumpTargetAt body pc with
     | Some target => if (target <? 0) || (zlen body <=? target) then [] else [target]
     | None => []
     end)) (seqZ 0 (zlen body)).

(** [predecessors[pc] = append(predecessors[pc], from)]. *)
Definition appendAt (lists : list (list Z)) (pc from : Z) : list (list Z) :=
  zset lists pc (default [] (zget lists pc) ++ [from]).

Definition addFallThrough (body : list Instruction) (predecessors : list (list Z)) (pc : Z)
    : list (list Z) :=
  match zget body (pc - 1) with
  | Some inst => if isLinearFallThroughFrom inst then appendAt predecessors pc (pc - 1) else predecessors
  | None => predecessors
  end.

Definition addJump (body : list Instruction) (predecessors : list (list Z)) (pc : Z) : list (list Z) :=
  match JumpTargetAt body pc with
  | Some target =>
      if (target <? 0) || (zlen body <=? target) then predecessors
      else appendAt predecessors target pc
  | None => predecessors
  end.

Definition buildAliasPredecessors (body : list Instruction) : list (list Z) :=
  foldl (addJump body)
    (foldl (addFallThrough body) (replicate (length body) []) (seqZ 1 (zlen body - 1)))
    (seqZ 0 (zlen body)).

(** ** Reachability *)

(** The inner loop: the mask and the work list, its top first. *)
Fixpoint pushSuccessors (n : Z) (successors : list Z) (reachable : list bool) (worklist : list Z)
    : list bool * list Z :=
  match successors with
  | [] => (reachable, worklist)
  | successor :: successors =>
      if (successor <? 0) || (n <=? successor) then pushSuccessors n successors reachable worklist
      else if default false (zget reachable successor) then pushSuccessors n successors reachable worklist
      else pushSuccessors n successors (zset reachable successor true) (successor :: worklist)
  end.

Fixpoint reachFrom (fuel : nat) (n : Z) (successors : list (list Z)) (reachable : list bool)
    (worklist : list Z) : option (list bool) :=
  match fuel with
  | O => None
  | S fuel =>
      match worklist with
      | [] => Some reachable
      | pc :: worklist =>
          outgoing ← zget successors pc;
          let '(reachable, worklist) := pushSuccessors n outgoing reachable worklist in
          reachFrom fuel n successors reachable worklist
      end
  end.

(** Every word is pushed at most once. *)
Definition computeReachable (body : list Instruction) : option (list bool) :=
  if zlen body =? 0 then Some []
  else reachFrom (length body + 1) (zlen body) (buildAliasSuccessors body)
         (zset (replicate (length body) false) 0 true) [0].

(** ** The table *)

Record functionDominators := NewFunctionDominators {
  bits : list (option (list Z));
  wordsPerRow : Z;
  pcCount : Z;
}.

Definition setBits (dom : functionDominators) (bits : list (option (list Z))) : functionDominators :=
  NewFunctionDominators bits (wordsPerRow dom) (pcCount dom).

Definition Dominates (dom : option functionDominators) (definePC usePC : Z) : option bool :=
  match dom with
  | None => Some false
  | Some dom =>
      if (usePC <? 0) || (zlen (bits dom) <=? usePC) then Some false
      else
        row ← zget (bits dom) usePC;
        match row with
        | None => Some false
        | Some row =>
            if (definePC <? 0) || (pcCount dom <=? definePC) then Some false
            else
              word ← zget row (definePC / bitsPerWord);
              Some (negb (Z.land word (Z.shiftl 1 (definePC mod bitsPerWord)) =? 0))
        end
  end.

(** Go's [copy]. *)
Definition copySlice {A} (destination source : list A) : list A :=
  take (length destination) source ++ drop (length source) destination.

Definition initialiseDominatorTable (n : Z) : option functionDominators :=
  let words := (n + bitsPerWord - 1) / bitsPerWord in
  let row := replicate (Z.to_nat words) 0 in
  if (n <=? 0) || (words <=? 0) then None
  else Some (NewFunctionDominators (zset (replicate (Z.to_nat n) None) 0 (Some (zset row 0 1))) words n).

(** The row in which every word dominates. *)
Definition universeRow (dom : functionDominators) : list Z :=
  let universe := replicate (Z.to_nat (wordsPerRow dom)) MaxUint64 in
  let tailBits := pcCount dom mod bitsPerWord in
  if tailBits =? 0 then universe
  else zset universe (zlen universe - 1) (Z.shiftl 1 tailBits - 1).

Definition seedReachableDominators (dom : functionDominators) (reachable : list bool)
    : functionDominators :=
  let universe := universeRow dom in
  setBits dom (foldl (λ bits pc,
      if default false (zget reachable pc)
      then zset bits pc (Some (copySlice (replicate (Z.to_nat (wordsPerRow dom)) 0) universe))
      else bits)
    (bits dom) (seqZ 1 (pcCount dom - 1))).

Definition lookupReachableDomBits (bits : list (option (list Z))) (pred : Z) : option (list Z) :=
  if (pred <? 0) || (zlen bits <=? pred) then None else default None (zget bits pred).

Fixpoint intersectRows (bits : list (option (list Z))) (preds : list Z) (result : list Z)
    (seeded : bool) : option (list Z * bool) :=
  match preds with
  | [] => Some (result, seeded)
  | pred :: preds =>
      match lookupReachableDomBits bits pred with
      | None => intersectRows bits preds result seeded
      | Some predBits =>
          if negb seeded then intersectRows bits preds (copySlice result predBits) true
          else if (length predBits <? length result)%nat then None
          else intersectRows bits preds (zip_with Z.land result predBits) true
      end
  end.

Definition computeDominatorIntersection (bits : list (option (list Z))) (preds : list Z)
    (result : list Z) : option (list Z) :=
  '(result, seeded) ← intersectRows bits preds result false;
  Some (if (seeded : bool) then result else replicate (length result) 0).

Definition uint64SliceEqual (a b : list Z) : bool := bool_decide (a = b).

(** One turn of the sweep: the rows, the scratch row and whether any changed. *)
Definition relaxRow (predecessors : list (list Z)) (reachable : list bool)
    (state : list (option (list Z)) * list Z * bool) (pc : Z)
    : option (list (option (list Z)) * list Z * bool) :=
  let '(bits, scratch, changed) := state in
  isReachable ← zget reachable pc;
  if negb isReachable then Some state
  else
    preds ← zget predecessors pc;
    if zlen preds =? 0 then Some state
    else
      scratch ← computeDominatorIntersection bits preds scratch;
      word ← zget scratch (pc / bitsPerWord);
      let scratch :=
        zset scratch (pc / bitsPerWord) (Z.lor word (Z.shiftl 1 (pc mod bitsPerWord))) in
      row ← zget bits pc;
      let row := default [] row in
      Some (if uint64SliceEqual row scratch then (bits, scratch, changed)
            else (zset bits pc (Some (copySlice row scratch)), scratch, true)).

Definition relaxDominatorsOnce (n : Z) (predecessors : list (list Z)) (reachable : list bool)
    (bits : list (option (list Z))) (scratch : list Z)
    : option (list (option (list Z)) * list Z * bool) :=
  foldl (λ state pc, state ← state; relaxRow predecessors reachable state pc)
    (Some (bits, scratch, false)) (seqZ 1 (n - 1)).

(** The sweeps, [None] inside when the last one still changed a row. *)
Fixpoint relaxLoop (iterations : nat) (dom : functionDominators) (predecessors : list (list Z))
    (reachable : list bool) (scratch : list Z) : option (option functionDominators) :=
  match iterations with
  | O => Some None
  | S iterations =>
      '(bits, scratch, changed) ←
        relaxDominatorsOnce (pcCount dom) predecessors reachable (bits dom) scratch;
      if (changed : bool)
      then relaxLoop iterations (setBits dom bits) predecessors reachable scratch
      else Some (Some (setBits dom bits))
  end.

Definition computeFunctionDominatorsFrom (body : list Instruction) (predecessors : list (list Z))
    (reachable : list bool) : option (option functionDominators) :=
  if zlen body =? 0 then Some None
  else
    dom ← initialiseDominatorTable (zlen body);
    let dom := seedReachableDominators dom reachable in
    relaxLoop maxDominatorIterations dom predecessors reachable
      (replicate (Z.to_nat (wordsPerRow dom)) 0).

Definition ComputeFunctionDominators (body : list Instruction) : option (option functionDominators) :=
  if zlen body =? 0 then Some None
  else
    reachable ← computeReachable body;
    computeFunctionDominatorsFrom body (buildAliasPredecessors body) reachable.

(** ** The graph, as a relation *)

Definition edge (body : list Instruction) (pc t : Z) : Prop :=
  0 <= pc < zlen body ∧ 0 <= t < zlen body ∧
  ((∃ inst, zget body pc = Some inst ∧ isLinearFallThroughFrom inst = true ∧ t = pc + 1) ∨
   JumpTargetAt body pc = Some t).

(** The nodes of a path from the entry, the last one first. *)
Inductive entry_path (body : list Instruction) : list Z → Z → Prop :=
  | entry_start : entry_path body [0] 0
  | entry_edge l pc t : entry_path body l pc → edge body pc t → entry_path body (t :: l) t.

Definition reaches (body : list Instruction) (pc : Z) : Prop := ∃ l, entry_path body l pc.

(** Every path from the entry to [u] goes through [d]. *)
Definition dominates (body : list Instruction) (d u : Z) : Prop :=
  ∀ l, entry_path body l u → d ∈ l.

Lemma reaches_edge body pc t : reaches body pc → edge body pc t → reaches body t.
Proof. intros [l Hl] He. exists (t :: l). by econstructor. Qed.

Lemma entry_path_range body l pc :
  entry_path body l pc → 0 < zlen body → Forall (λ q, 0 <= q < zlen body) l ∧ 0 <= pc < zlen body.
Proof.
  induction 1 as [|l pc t _ IH (_ & Ht & _)]; intros Hlen.
  - split; [|lia]. repeat constructor; lia.
  - destruct (IH Hlen) as [Hl _]. split; [by constructor|done].
Qed.

Lemma zget_successors body pc t :
  0 <= pc < zlen body →
  ∃ ts, zget (buildAliasSuccessors body) pc = Some ts ∧ (t ∈ ts ↔ edge body pc t).
Proof.
  intros Hpc. unfold buildAliasSuccessors. eexists. split.
  { apply zget_map. exists pc. split; [by apply zget_seqZ|reflexivity]. }
  cbn beta. rewrite elem_of_app. destruct (zget_is_Some body pc Hpc) as [inst Hi]. rewrite Hi.
  unfold edge. rewrite Hi. split.
  - intros [Ht|Ht]; [revert Ht|].
    + case_if; [|by intros ?%not_elem_of_nil]. intros ->%list_elem_of_singleton. bool_hyps.
      split; [done|]. split; [lia|]. left. by exists inst.
    + destruct (JumpTargetAt body pc) as [u|]; [|by apply not_elem_of_nil in Ht]. revert Ht.
      case_if; [by intros ?%not_elem_of_nil|]. intros ->%list_elem_of_singleton. bool_hyps.
      split; [done|]. split; [lia|by right].
  - intros (_ & Ht & [(inst' & [= <-] & Hf & ->)|Hj]).
    + left. rewrite Hf, (proj2 (Z.ltb_lt _ _)) by lia. by left.
    + right. rewrite Hj, (proj2 (Z.ltb_ge _ _)), (proj2 (Z.leb_gt _ _)) by lia. by left.
Qed.

(** *** Predecessors *)

Definition preds_at (lists : list (list Z)) (t : Z) : list Z := default [] (zget lists t).

Lemma preds_at_appendAt lists pc from t p :
  0 <= pc < zlen lists →
  p ∈ preds_at (appendAt lists pc from) t ↔ p ∈ preds_at lists t ∨ (t = pc ∧ p = from).
Proof.
  intros Hpc. unfold preds_at, appendAt. destruct (decide (pc = t)) as [->|Hne].
  - rewrite zget_zset_eq by done. cbn [default from_option]. unfold id.
    rewrite elem_of_app, list_elem_of_singleton. naive_solver.
  - rewrite zget_zset_ne by done. naive_solver.
Qed.

Lemma length_appendAt lists pc from : length (appendAt lists pc from) = length lists.
Proof. apply length_zset. Qed.

Lemma addFallThrough_spec body pcs lists :
  length lists = length body → Forall (λ pc, 1 <= pc < zlen body) pcs →
  length (foldl (addFallThrough body) lists pcs) = length body ∧
  ∀ t p, p ∈ preds_at (foldl (addFallThrough body) lists pcs) t ↔
    p ∈ preds_at lists t ∨ (t ∈ pcs ∧ p = t - 1 ∧
      ∃ inst, zget body p = Some inst ∧ isLinearFallThroughFrom inst = true).
Proof.
  revert lists. induction pcs as [|pc pcs IH]; intros lists Hl Hpcs; cbn [foldl].
  - split; [done|]. intros t p. setoid_rewrite elem_of_nil. naive_solver.
  - apply Forall_cons in Hpcs as [Hpc Hpcs].
    assert (Hl' : length (addFallThrough body lists pc) = length body).
    { unfold addFallThrough. repeat case_match; by rewrite ?length_appendAt. }
    destruct (IH _ Hl' Hpcs) as [Hlen Hin]. split; [done|]. intros t p. rewrite Hin.
    assert (Hone : p ∈ preds_at (addFallThrough body lists pc) t ↔
      p ∈ preds_at lists t ∨ (t = pc ∧ p = t - 1 ∧
        ∃ inst, zget body p = Some inst ∧ isLinearFallThroughFrom inst = true)).
    { unfold addFallThrough. destruct (zget body (pc - 1)) as [inst|] eqn:Hi.
      2: { apply zget_None in Hi. lia. }
      destruct (isLinearFallThroughFrom inst) eqn:Hf.
      - rewrite preds_at_appendAt by (rewrite Hl; lia). naive_solver.
      - split; [by left|]. intros [?|(-> & -> & inst' & Hi' & Hf')]; [done|].
        rewrite Hi in Hi'. injection Hi' as ->. congruence. }
    rewrite Hone, elem_of_cons. naive_solver.
Qed.

Lemma addJump_spec body pcs lists :
  length lists = length body →
  length (foldl (addJump body) lists pcs) = length body ∧
  ∀ t p, 0 <= t < zlen body →
    p ∈ preds_at (foldl (addJump body) lists pcs) t ↔
    p ∈ preds_at lists t ∨ (p ∈ pcs ∧ JumpTargetAt body p = Some t).
Proof.
  revert lists. induction pcs as [|pc pcs IH]; intros lists Hl; cbn [foldl].
  - split; [done|]. intros t p _. setoid_rewrite elem_of_nil. naive_solver.
  - assert (Hl' : length (addJump body lists pc) = length body).
    { unfold addJump. repeat (case_match || case_if); by rewrite ?length_appendAt. }
    destruct (IH _ Hl') as [Hlen Hin]. split; [done|]. intros t p Ht. rewrite Hin by done.
    assert (Hone : p ∈ preds_at (addJump body lists pc) t ↔
      p ∈ preds_at lists t ∨ (p = pc ∧ JumpTargetAt body p = Some t)).
    { unfold addJump. destruct (JumpTargetAt body pc) as [u|] eqn:Hj; [|naive_solver].
      case_if; bool_hyps.
      - split; [by left|]. intros [?|[-> Hj']]; [done|]. rewrite Hj in Hj'. injection Hj' as ->.
        destruct E; bool_hyps; lia.
      - rewrite preds_at_appendAt by (rewrite Hl; lia). naive_solver. }
    rewrite Hone, elem_of_cons. naive_solver.
Qed.

Lemma preds_at_predecessors body t p :
  0 <= t < zlen body →
  (∃ ps, zget (buildAliasPredecessors body) t = Some ps) ∧
  (p ∈ preds_at (buildAliasPredecessors body) t ↔ edge body p t).
Proof.
  intros Ht. unfold buildAliasPredecessors.
  destruct (addFallThrough_spec body (seqZ 1 (zlen body - 1)) (replicate (length body) []))
    as [Hl1 Hf]; [apply length_replicate|apply Forall_forall; intros pc Hpc%elem_of_seqZ; lia|].
  destruct (addJump_spec body (seqZ 0 (zlen body)) _ Hl1) as [Hl2 Hj].
  split; [apply zget_is_Some; by rewrite Hl2|]. rewrite Hj, Hf by done.
  assert (Hnil : preds_at (replicate (length body) []) t = []).
  { unfold preds_at. by rewrite zget_replicate by lia. }
  rewrite Hnil, !elem_of_seqZ. unfold edge. split.
  - intros [[?%elem_of_nil|(Ht' & -> & inst & Hi & Hfall)]|[Hp Hjump]]; [done| |].
    + pose proof (zget_Some_range _ _ _ Hi). split; [done|]. split; [done|]. left. exists inst.
      split; [done|]. split; [done|lia].
    + split; [lia|]. split; [done|by right].
  - intros (Hp & _ & [(inst & Hi & Hfall & ->)|Hjump]); [left; right|right].
    + split; [lia|]. split; [lia|]. by exists inst.
    + split; [lia|done].
Qed.

(** *** Reachability *)

(** How many words are not marked. *)
Definition unmarked (marks : list bool) : nat := length (filter (λ b, b = false) marks).

Lemma unmarked_mark marks i :
  zget marks i = Some false → unmarked marks = S (unmarked (zset marks i true)).
Proof.
  intros Hi. pose proof (zget_Some_range _ _ _ Hi) as Hr. rewrite zget_lookup in Hi by lia.
  unfold zset, unmarked. rewrite (proj2 (Z.ltb_ge _ _)) by lia. apply list_elem_of_split_length in Hi as (l1 & l2 & -> & Hlen).
  rewrite Hlen, insert_app_r_alt, Nat.sub_diag by lia. cbn [insert list_insert].
  rewrite !filter_app, !length_app. rewrite filter_cons_True, filter_cons_False by done. cbn. lia.
Qed.

Lemma pushSuccessors_spec n outs marks worklist marks' worklist' :
  zlen marks = n → pushSuccessors n outs marks worklist = (marks', worklist') →
  length marks' = length marks ∧
  (unmarked marks' + length worklist' = unmarked marks + length worklist)%nat ∧
  (∀ t, zget marks' t = Some true ↔ zget marks t = Some true ∨ (t ∈ outs ∧ 0 <= t < n)) ∧
  (∀ t, t ∈ worklist' ↔ t ∈ worklist ∨ (t ∈ outs ∧ zget marks t = Some false)).
Proof.
  intros Hn. revert marks worklist Hn. induction outs as [|o outs IH]; intros marks worklist Hn;
    cbn [pushSuccessors].
  - intros [= <- <-]. split_and!; try done; intros t; setoid_rewrite elem_of_nil; naive_solver.
  - setoid_rewrite elem_of_cons. case_if; [|case_if]; intros Hpush.
    + destruct (IH marks worklist Hn Hpush) as (Hl & Hm & Ht & Hw). split_and!; [done|done| |].
      * intros t. rewrite Ht. split; [naive_solver|]. intros [?|[[->|?] ?]]; [by left| |by right].
        bool_hyps. destruct E; bool_hyps; lia.
      * intros t. rewrite Hw. split; [naive_solver|]. intros [?|[[->|?] Hz]]; [by left| |by right].
        apply zget_Some_range in Hz. bool_hyps. destruct E; bool_hyps; lia.
    + destruct (IH marks worklist Hn Hpush) as (Hl & Hm & Ht & Hw).
      destruct (zget marks o) as [b|] eqn:Ho; [|done]. cbn in E0. subst b.
      split_and!; [done|done| |]; intros t; rewrite ?Ht, ?Hw; naive_solver.
    + bool_hyps. destruct (zget marks o) as [b|] eqn:Ho.
      2: { apply zget_None in Ho. lia. }
      assert (b = false) as -> by by destruct b.
      pose proof (unmarked_mark _ _ Ho) as Hu. pose proof (zget_Some_range _ _ _ Ho).
      destruct (IH (zset marks o true) (o :: worklist)) as (Hl & Hm & Ht & Hw); [by rewrite length_zset|done|].
      rewrite length_zset in Hl. cbn [length] in Hm. split_and!; [done|lia| |].
      * intros t. rewrite Ht. destruct (decide (o = t)) as [->|Hne].
        -- rewrite zget_zset_eq by done. naive_solver.
        -- rewrite zget_zset_ne by done. naive_solver.
      * intros t. rewrite Hw, elem_of_cons. destruct (decide (o = t)) as [->|Hne].
        -- rewrite zget_zset_eq by done. naive_solver.
        -- rewrite zget_zset_ne by done. naive_solver.
Qed.

Section reach.
Context (body : list Instruction) (Hbody : 0 < zlen body).

Record marks_ok (marks : list bool) (worklist : list Z) : Prop := {
  mo_length : length marks = length body;
  mo_reaches t : zget marks t = Some true → reaches body t;
  mo_entry : zget marks 0 = Some true;
  mo_pending t : t ∈ worklist → zget marks t = Some true;
  mo_closed pc t : zget marks pc = Some true → pc ∉ worklist → edge body pc t → zget marks t = Some true;
}.

Lemma reachFrom_marks fuel marks worklist :
  marks_ok marks worklist → (unmarked marks + length worklist < fuel)%nat →
  ∃ marks', reachFrom fuel (zlen body) (buildAliasSuccessors body) marks worklist = Some marks' ∧
    marks_ok marks' [].
Proof.
  revert marks worklist. induction fuel as [|fuel IH]; intros marks worklist Hok Hfuel; [lia|].
  cbn [reachFrom]. destruct worklist as [|pc worklist]; [by exists marks|].
  destruct Hok as [Hl Hr H0 Hp Hc]. pose proof (Hp pc ltac:(by left)) as Hpc.
  pose proof (zget_Some_range _ _ _ Hpc) as Hrange. rewrite Hl in Hrange.
  destruct (zget_successors body pc 0 Hrange) as (outs & Houts & _). rewrite Houts. cbn [mbind option_bind].
  assert (Hedge : ∀ t, t ∈ outs ↔ edge body pc t).
  { intros t. destruct (zget_successors body pc t Hrange) as (outs' & Houts' & Hin).
    rewrite Houts in Houts'. by injection Houts' as <-. }
  destruct (pushSuccessors _ outs marks worklist) as [marks' worklist'] eqn:Hpush.
  destruct (pushSuccessors_spec _ _ _ _ _ _ (f_equal Z.of_nat Hl) Hpush) as (Hl' & Hm & Ht & Hw).
  apply IH; [|cbn [length] in Hfuel; lia]. split.
  - congruence.
  - intros t [?|[Hin _]]%Ht; [by apply Hr|]. eapply reaches_edge; [by apply Hr|by apply Hedge].
  - apply Ht. by left.
  - intros t [Hin|[Hin Hz]]%Hw; apply Ht; [left; apply Hp; by right|right].
    split; [done|]. apply zget_Some_range in Hz. by rewrite Hl in Hz.
  - intros p t Hpt Hnot He. apply Ht. apply Ht in Hpt as [Hpt|[Hin Hpr]].
    + destruct (decide (p = pc)) as [->|Hne].
      * right. split; [by apply Hedge|apply He].
      * left. apply (Hc p t Hpt); [|done]. rewrite not_elem_of_cons. split; [done|].
        intros Hin. apply Hnot, Hw. by left.
    + destruct (zget marks p) as [[]|] eqn:Hmp.
      * destruct (decide (p = pc)) as [->|Hne]; [right; split; [by apply Hedge|apply He]|].
        left. apply (Hc p t Hmp); [|done]. rewrite not_elem_of_cons. split; [done|].
        intros Hin'. apply Hnot, Hw. by left.
      * destruct Hnot. apply Hw. by right.
      * apply zget_None in Hmp. rewrite Hl in Hmp. lia.
Qed.

(** The mask is the set of the nodes some path from the entry ends in. *)
Lemma computeReachable_spec :
  ∃ marks, computeReachable body = Some marks ∧ length marks = length body ∧
    ∀ t, zget marks t = Some true ↔ reaches body t.
Proof.
  unfold computeReachable. rewrite (proj2 (Z.eqb_neq _ _)) by lia.
  pose proof (zget_replicate (length body) false 0 ltac:(lia)) as H0.
  assert (Hin0 : 0 <= 0 < zlen (replicate (length body) false)) by (rewrite length_replicate; lia).
  destruct (reachFrom_marks (length body + 1) (zset (replicate (length body) false) 0 true) [0])
    as (marks & Hmarks & Hok).
  - split.
    + by rewrite length_zset, length_replicate.
    + intros t. destruct (decide (0 = t)) as [<-|Hne]; [exists [0]; constructor|].
      rewrite zget_zset_ne by done. intros Ht. pose proof (zget_Some_range _ _ _ Ht) as Hr.
      rewrite length_replicate in Hr. by rewrite zget_replicate in Ht.
    + by apply zget_zset_eq.
    + intros t ->%list_elem_of_singleton. by apply zget_zset_eq.
    + intros pc t Hpc Hnot. exfalso. rewrite list_elem_of_singleton in Hnot.
      rewrite zget_zset_ne in Hpc by congruence. pose proof (zget_Some_range _ _ _ Hpc) as Hr.
      rewrite length_replicate in Hr. by rewrite zget_replicate in Hpc.
  - pose proof (unmarked_mark _ _ H0).
    assert (unmarked (replicate (length body) false) <= length body)%nat.
    { unfold unmarked. etrans; [apply length_filter|]. by rewrite length_replicate. }
    cbn [length]. lia.
  - exists marks. split; [done|]. split; [apply Hok|]. intros t. split; [apply Hok|].
    intros [l Hl]. induction Hl as [|l pc t _ IH He]; [apply Hok|].
    eapply mo_closed; [done|exact IH|apply not_elem_of_nil|done].
Qed.
End reach.

(** ** Rows of bits *)

Definition rowBit (row : list Z) (d : Z) : bool :=
  match zget row (d / bitsPerWord) with
  | Some word => Z.testbit word (d mod bitsPerWord)
  | None => false
  end.

Lemma land_bit word k : 0 <= k → negb (Z.land word (Z.shiftl 1 k) =? 0) = Z.testbit word k.
Proof.
  intros Hk. rewrite Z.shiftl_1_l. destruct (Z.testbit word k) eqn:E.
  - apply negb_true_iff, Z.eqb_neq. intros H0.
    assert (Z.testbit (Z.land word (2 ^ k)) k = true) as Hb; [|by rewrite H0, Z.bits_0 in Hb].
    by rewrite Z.land_spec, E, Z.pow2_bits_true.
  - apply negb_false_iff, Z.eqb_eq, Z.bits_inj'. intros n Hn.
    rewrite Z.land_spec, Z.bits_0. destruct (decide (n = k)) as [->|Hne]; [by rewrite E|].
    by rewrite Z.pow2_bits_false, andb_false_r.
Qed.

Lemma div_mod_bits d e :
  d = e ↔ d / bitsPerWord = e / bitsPerWord ∧ d mod bitsPerWord = e mod bitsPerWord.
Proof.
  unfold bitsPerWord. split; [by intros ->|]. intros [H1 H2].
  rewrite (Z.div_mod d 64), (Z.div_mod e 64) by lia. by rewrite H1, H2.
Qed.

(** Setting the bit of a word. *)
Lemma rowBit_set row word p d :
  zget row (p / bitsPerWord) = Some word →
  rowBit (zset row (p / bitsPerWord) (Z.lor word (Z.shiftl 1 (p mod bitsPerWord)))) d =
    bool_decide (d = p) || rowBit row d.
Proof.
  intros Hw. pose proof (zget_Some_range _ _ _ Hw). pose proof (div_mod_bits d p) as Hdp.
  unfold rowBit. assert (0 <= d mod bitsPerWord) by (unfold bitsPerWord; apply Z.mod_pos_bound; lia).
  assert (0 <= p mod bitsPerWord) by (unfold bitsPerWord; apply Z.mod_pos_bound; lia).
  destruct (decide (d / bitsPerWord = p / bitsPerWord)) as [Heq|Hne].
  - rewrite Heq, zget_zset_eq, Hw by done. rewrite Z.lor_spec, Z.shiftl_1_l, Z.pow2_bits_eqb by done.
    rewrite orb_comm. f_equal. case_bool_decide as Hd; [apply Z.eqb_eq|apply Z.eqb_neq].
    + by rewrite Hd.
    + intros Hm. apply Hd, Hdp. by split.
  - rewrite zget_zset_ne by done. by rewrite bool_decide_eq_false_2 by naive_solver.
Qed.

Lemma rowBit_intersect a b d :
  length a = length b → rowBit (zip_with Z.land a b) d = rowBit a d && rowBit b d.
Proof.
  intros Hl. unfold rowBit. destruct (decide (0 <= d / bitsPerWord)).
  - rewrite !zget_lookup by done. rewrite lookup_zip_with.
    destruct (a !! _) as [x|] eqn:Ea, (b !! _) as [y|] eqn:Eb; cbn; try done.
    + by rewrite Z.land_spec.
    + by rewrite andb_false_r.
  - assert (∀ l : list Z, zget l (d / bitsPerWord) = None) as Hnone by (intros l; apply zget_None; lia).
    by rewrite !Hnone.
Qed.

Lemma copySlice_same {A} (destination source : list A) :
  length destination = length source → copySlice destination source = source.
Proof.
  intros Hl. unfold copySlice. rewrite drop_ge, app_nil_r by lia. rewrite take_ge by lia. done.
Qed.

Lemma word_in_row n d : 0 <= d < n → 0 <= d / bitsPerWord < (n + bitsPerWord - 1) / bitsPerWord.
Proof.
  unfold bitsPerWord. intros Hd. split; [apply Z.div_pos; lia|].
  apply Z.div_lt_upper_bound; [lia|]. Z.div_mod_to_equations. lia.
Qed.

(** ** The table *)

Section table.
Context (body : list Instruction) (Hbody : 0 < zlen body).
Context (marks : list bool) (Hlen_marks : length marks = length body).
Context (Hmarks : ∀ t, zget marks t = Some true ↔ reaches body t).

#[local] Notation n := (zlen body).
#[local] Notation W := ((n + bitsPerWord - 1) / bitsPerWord).
#[local] Notation preds := (buildAliasPredecessors body).

Lemma words_positive : 0 < W.
Proof. clear -Hbody. pose proof (word_in_row n 0 ltac:(lia)). lia. Qed.

(** A row per reachable word, with at least its dominators. *)
Record table_ok (B : list (option (list Z))) : Prop := {
  tk_length : length B = length body;
  tk_rows pc row : zget B pc = Some (Some row) → zlen row = W ∧ reaches body pc;
  tk_reached pc : reaches body pc → ∃ row, zget B pc = Some (Some row);
  tk_entry row d : zget B 0 = Some (Some row) → 0 <= d < n → rowBit row d = bool_decide (d = 0);
  tk_upper pc row d : zget B pc = Some (Some row) → 0 <= d < n → dominates body d pc →
    rowBit row d = true;
}.

Lemma lookup_row B p row :
  lookupReachableDomBits B p = Some row ↔ zget B p = Some (Some row).
Proof.
  unfold lookupReachableDomBits. split.
  - case_if; [done|]. destruct (zget B p) as [[r|]|]; cbn; congruence.
  - intros H. pose proof (zget_Some_range _ _ _ H). case_if; bool_hyps; [destruct E; bool_hyps; lia|].
    by rewrite H.
Qed.

(** What every row of a list of words has. *)
Definition all_rows (B : list (option (list Z))) (ps : list Z) (d : Z) : Prop :=
  ∀ p row, p ∈ ps → zget B p = Some (Some row) → rowBit row d = true.
Definition some_row (B : list (option (list Z))) (ps : list Z) : Prop :=
  ∃ p row, p ∈ ps ∧ zget B p = Some (Some row).

Lemma all_rows_cons B p ps d :
  all_rows B (p :: ps) d ↔
  (∀ row, zget B p = Some (Some row) → rowBit row d = true) ∧ all_rows B ps d.
Proof.
  unfold all_rows. setoid_rewrite elem_of_cons. split.
  - intros H. split; [intros row Hz; by apply (H p row); [left|]|].
    intros q row Hq. apply H. by right.
  - intros [H1 H2] q row [->|Hq] Hz; eauto.
Qed.

Lemma some_row_cons B p ps row : zget B p = Some (Some row) → some_row B (p :: ps).
Proof. intros Hz. exists p, row. split; [by left|done]. Qed.

Lemma some_row_skip B p ps :
  (∀ row, zget B p ≠ Some (Some row)) → some_row B (p :: ps) ↔ some_row B ps.
Proof.
  intros Hno. split; intros (q & row & Hq & Hz); exists q, row; (split; [|done]); [|by right].
  apply elem_of_cons in Hq as [->|]; [by destruct (Hno row)|done].
Qed.

Lemma intersectRows_spec B ps result seeded :
  table_ok B → zlen result = W →
  ∃ result' seeded', intersectRows B ps result seeded = Some (result', seeded') ∧
    zlen result' = W ∧ (seeded' = true ↔ seeded = true ∨ some_row B ps) ∧
    (seeded' = true → ∀ d, rowBit result' d = true ↔
      (seeded = true → rowBit result d = true) ∧ all_rows B ps d).
Proof.
  intros HB. revert result seeded. induction ps as [|p ps IH]; intros result seeded Hl; cbn [intersectRows].
  - exists result, seeded. split; [done|]. split; [done|]. split.
    + split; [by left|]. by intros [|(? & ? & ?%not_elem_of_nil & _)].
    + intros Hs' d. split; [intros Hd; split; [done|]; intros p row Hp; by apply not_elem_of_nil in Hp|].
      intros [Hd _]. by apply Hd.
  - setoid_rewrite all_rows_cons. destruct (lookupReachableDomBits B p) as [row|] eqn:Hp.
    + apply lookup_row in Hp as Hz. destruct (tk_rows _ HB _ _ Hz) as [Hrow _].
      assert (Hone : ∀ d, (∀ row0, zget B p = Some (Some row0) → rowBit row0 d = true) ↔ rowBit row d = true).
      { intros d. split; [by intros H; apply H|]. intros Hd row0 Hz0. congruence. }
      setoid_rewrite Hone. destruct seeded; cbn [negb].
      * rewrite (proj2 (Nat.ltb_ge _ _)) by lia.
        destruct (IH (zip_with Z.land result row) true) as (r' & s' & -> & Hl' & Hs & Hd).
        { rewrite length_zip_with. lia. }
        exists r', s'. split; [done|]. split; [done|]. split; [split; [by left|intros _; apply Hs; by left]|].
        intros Hs' d. rewrite (Hd Hs'), rowBit_intersect, andb_true_iff by lia. tauto.
      * rewrite copySlice_same by lia. destruct (IH row true Hrow) as (r' & s' & -> & Hl' & Hs & Hd).
        exists r', s'. split; [done|]. split; [done|]. split.
        -- split; [intros _; right; by eapply some_row_cons|intros _; apply Hs; by left].
        -- intros Hs' d. rewrite (Hd Hs'). intuition congruence.
    + assert (Hno : ∀ row, zget B p ≠ Some (Some row)).
      { intros row Hz%lookup_row. congruence. }
      assert (Hnone : ∀ d row, zget B p = Some (Some row) → rowBit row d = true).
      { intros d row Hz. by destruct (Hno row). }
      destruct (IH result seeded Hl) as (r' & s' & -> & Hl' & Hs & Hd).
      exists r', s'. split; [done|]. split; [done|]. split; [by rewrite some_row_skip|].
      intros Hs' d. rewrite (Hd Hs'). pose proof (Hnone d). tauto.
Qed.

(** The rows of a word's predecessors agree with its own. *)
Definition fixed (B : list (option (list Z))) (pc : Z) : Prop :=
  ∀ row d, zget B pc = Some (Some row) → 0 <= d < n → rowBit row d = true →
    d = pc ∨ ∀ p rowp, edge body p pc → zget B p = Some (Some rowp) → rowBit rowp d = true.

Lemma relaxRow_spec B scratch changed pc :
  table_ok B → zlen scratch = W → 1 <= pc < n →
  ∃ B' scratch' changed', relaxRow preds marks (B, scratch, changed) pc = Some (B', scratch', changed') ∧
    table_ok B' ∧ zlen scratch' = W ∧
    (changed' = false → changed = false ∧ B' = B ∧ fixed B pc).
Proof.
  intros HB Hs Hpc. unfold relaxRow. destruct (zget_is_Some marks pc) as [b Hb]; [rewrite Hlen_marks; lia|].
  rewrite Hb. cbn [mbind option_bind]. destruct b; cbn [negb].
  2: { exists B, scratch, changed. split_and!; try done. intros ->. split_and!; try done.
    intros row d Hz. exfalso. apply (tk_rows _ HB) in Hz as [_ Hz]. apply Hmarks in Hz. congruence. }
  apply Hmarks in Hb as Hreach. destruct (preds_at_predecessors body pc 0 ltac:(lia)) as [[ps Hps] _].
  assert (Hedge : ∀ p, p ∈ ps ↔ edge body p pc).
  { intros p. destruct (preds_at_predecessors body pc p ltac:(lia)) as [_ Hp].
    unfold preds_at in Hp. by rewrite Hps in Hp. }
  rewrite Hps. cbn [mbind option_bind].
  destruct (tk_reached _ HB _ Hreach) as [row Hrow]. destruct (tk_rows _ HB _ _ Hrow) as [Hlrow _].
  (* some predecessor is reached *)
  assert (Hpred : some_row B ps).
  { destruct Hreach as [l Hl]. inversion Hl as [|l' p t Hl' He]; subst; [lia|].
    destruct (tk_reached _ HB p) as [rowp Hrowp]; [by exists l'|].
    exists p, rowp. split; [by apply Hedge|done]. }
  rewrite (proj2 (Z.eqb_neq _ _)).
  2: { destruct Hpred as (p & ? & Hin & _). destruct ps; [by apply not_elem_of_nil in Hin|cbn; lia]. }
  unfold computeDominatorIntersection.
  destruct (intersectRows_spec B ps scratch false HB Hs) as (r & seeded & -> & Hlr & Hseed & Hbits).
  cbn [mbind option_bind]. assert (seeded = true) as -> by (apply Hseed; by right).
  specialize (Hbits eq_refl). destruct (zget_is_Some r (pc / bitsPerWord)) as [word Hword].
  { rewrite Hlr. apply word_in_row. lia. }
  rewrite Hword, Hrow. cbn [mbind option_bind default from_option]. unfold id.
  set (r' := zset r _ _). assert (Hlr' : zlen r' = W) by (subst r'; by rewrite length_zset).
  assert (Hr' : ∀ d, rowBit r' d = true ↔ d = pc ∨
    ∀ p rowp, edge body p pc → zget B p = Some (Some rowp) → rowBit rowp d = true).
  { intros d. subst r'. rewrite rowBit_set by done. rewrite orb_true_iff, bool_decide_eq_true, Hbits.
    unfold all_rows. setoid_rewrite Hedge. split.
    - intros [->|[_ Hall]]; [by left|by right].
    - intros [->|Hall]; [by left|by right]. }
  unfold uint64SliceEqual. case_bool_decide as Heq.
  - exists B, r', changed. split_and!; try done. intros ->. split_and!; try done.
    intros row' d Hz Hd Hbit. rewrite Hrow in Hz. injection Hz as <-. apply Hr'. by rewrite <- Heq.
  - exists (zset B pc (Some (copySlice row r'))), r', true. split_and!; try done.
    rewrite copySlice_same by lia. pose proof (zget_Some_range _ _ _ Hrow) as HpcB.
    split.
    + rewrite length_zset. apply HB.
    + intros q rowq. destruct (decide (pc = q)) as [->|Hne];
        [rewrite zget_zset_eq by done; by intros [= <-]|].
      rewrite zget_zset_ne by done. apply HB.
    + intros q Hq. destruct (decide (pc = q)) as [->|Hne]; [rewrite zget_zset_eq by done; eauto|].
      rewrite zget_zset_ne by done. by apply HB.
    + intros rowq d. rewrite zget_zset_ne by lia. apply HB.
    + intros q rowq d. destruct (decide (pc = q)) as [<-|Hne].
      2: { rewrite zget_zset_ne by done. apply HB. }
      rewrite zget_zset_eq by done. intros [= <-] Hd Hdom. apply Hr'.
      destruct (decide (d = pc)) as [|Hdpc]; [by left|right]. intros p rowp He Hp.
      apply (tk_upper _ HB p); [done|done|]. intros l Hl.
      pose proof (Hdom (pc :: l) (entry_edge _ _ _ _ Hl He)) as Hin.
      by apply elem_of_cons in Hin as [|].
Qed.

Lemma sweep_spec pcs B scratch changed :
  table_ok B → zlen scratch = W → Forall (λ pc, 1 <= pc < n) pcs →
  ∃ B' scratch' changed',
    foldl (λ state pc, state ← state; relaxRow preds marks state pc) (Some (B, scratch, changed)) pcs =
      Some (B', scratch', changed') ∧
    table_ok B' ∧ zlen scratch' = W ∧
    (changed' = false → changed = false ∧ B' = B ∧ ∀ pc, pc ∈ pcs → fixed B pc).
Proof.
  revert B scratch changed. induction pcs as [|pc pcs IH]; intros B scratch changed HB Hs Hpcs.
  - exists B, scratch, changed. split; [done|]. split; [done|]. split; [done|]. intros ->.
    split; [done|]. split; [done|]. by intros pc ?%not_elem_of_nil.
  - apply Forall_cons in Hpcs as [Hpc Hpcs]. cbn [foldl mbind option_bind].
    destruct (relaxRow_spec B scratch changed pc HB Hs Hpc) as (B1 & s1 & c1 & -> & HB1 & Hs1 & Hc1).
    destruct (IH B1 s1 c1 HB1 Hs1 Hpcs) as (B' & s' & c' & -> & HB' & Hs' & Hc').
    exists B', s', c'. split; [done|]. split; [done|]. split; [done|]. intros Hf.
    destruct (Hc' Hf) as (H1 & H2 & H3). destruct (Hc1 H1) as (H4 & H5 & H6).
    split; [done|]. split; [congruence|]. intros q [->|Hq]%elem_of_cons; [done|].
    rewrite <- H5. by apply H3.
Qed.

Lemma relaxLoop_spec iterations dom scratch :
  pcCount dom = n → table_ok (bits dom) → zlen scratch = W →
  ∃ r, relaxLoop iterations dom preds marks scratch = Some r ∧
    ∀ dom', r = Some dom' → pcCount dom' = n ∧ table_ok (bits dom') ∧
      ∀ pc, 1 <= pc < n → fixed (bits dom') pc.
Proof.
  revert dom scratch. induction iterations as [|k IH]; intros dom scratch Hn HB Hs; cbn [relaxLoop].
  { exists None. by split. }
  unfold relaxDominatorsOnce. rewrite Hn.
  destruct (sweep_spec (seqZ 1 (n - 1)) (bits dom) scratch false HB Hs)
    as (B' & s' & c' & -> & HB' & Hs' & Hc').
  { apply Forall_forall. intros pc Hpc%elem_of_seqZ. lia. }
  cbn [mbind option_bind]. destruct c'; [by apply IH|].
  destruct (Hc' eq_refl) as (_ & -> & Hfix). eexists. split; [done|]. intros dom' [= <-].
  split; [done|]. split; [done|]. intros pc Hpc. apply Hfix, elem_of_seqZ. lia.
Qed.

(** *** The initial table *)

Lemma universe_spec dom :
  pcCount dom = n → wordsPerRow dom = W →
  zlen (universeRow dom) = W ∧ ∀ d, 0 <= d < n → rowBit (universeRow dom) d = true.
Proof.
  intros Hn Hw. pose proof words_positive. unfold universeRow. rewrite Hn, Hw.
  set (universe := replicate _ MaxUint64).
  assert (Hlu : zlen universe = W) by (subst universe; rewrite length_replicate; lia).
  assert (Hones : ∀ i k, 0 <= i < W → 0 <= k < 64 →
    ∃ word, zget universe i = Some word ∧ Z.testbit word k = true).
  { intros i k Hi Hk. exists MaxUint64. split; [apply zget_replicate; lia|].
    change MaxUint64 with (Z.ones 64). apply Z.ones_spec_low. lia. }
  case_if; bool_hyps.
  - split; [done|]. intros d Hd. unfold rowBit.
    destruct (Hones (d / bitsPerWord) (d mod bitsPerWord)) as (word & -> & Hbit); [|..|done].
    + by apply word_in_row.
    + apply Z.mod_pos_bound. done.
  - split; [by rewrite length_zset|]. intros d Hd. unfold rowBit.
    pose proof (word_in_row n d Hd). rewrite Hlu.
    destruct (decide (d / bitsPerWord = W - 1)) as [Heq|Hne].
    + rewrite Heq, zget_zset_eq by lia. rewrite Z.shiftl_1_l.
      replace (2 ^ (n mod bitsPerWord) - 1) with (Z.ones (n mod bitsPerWord)) by (rewrite Z.ones_equiv; lia).
      apply Z.ones_spec_low. unfold bitsPerWord in *. Z.div_mod_to_equations. lia.
    + rewrite zget_zset_ne by lia.
      destruct (Hones (d / bitsPerWord) (d mod bitsPerWord)) as (word & -> & Hbit); [done| |done].
      apply Z.mod_pos_bound. done.
Qed.

Lemma seed_spec universe W0 pcs B :
  length B = length body → Forall (λ pc, 1 <= pc < n) pcs →
  let B' := foldl (λ bits pc, if default false (zget marks pc)
    then zset bits pc (Some (copySlice (replicate W0 0) universe)) else bits) B pcs in
  length B' = length body ∧ zget B' 0 = zget B 0 ∧
  ∀ pc, zget B' pc = if decide (pc ∈ pcs ∧ zget marks pc = Some true)
    then Some (Some (copySlice (replicate W0 0) universe)) else zget B pc.
Proof.
  revert B. induction pcs as [|q pcs IH]; intros B Hl Hpcs; cbn zeta.
  - split; [done|]. split; [done|]. intros pc. rewrite decide_False; [done|].
    by intros [?%not_elem_of_nil _].
  - apply Forall_cons in Hpcs as [Hq Hpcs]. cbn [foldl]. set (B1 := if default false (zget marks q) then _ else B).
    assert (Hl1 : length B1 = length body) by (subst B1; case_if; by rewrite ?length_zset).
    assert (H1 : ∀ pc, zget B1 pc = if decide (pc = q ∧ zget marks pc = Some true)
      then Some (Some (copySlice (replicate W0 0) universe)) else zget B pc).
    { intros pc. subst B1. destruct (zget marks q) as [[]|] eqn:Em; cbn [default from_option id].
      - destruct (decide (q = pc)) as [->|Hne].
        + rewrite zget_zset_eq by (rewrite Hl; lia). by rewrite decide_True.
        + rewrite zget_zset_ne by done. rewrite decide_False; [done|]. by intros [-> _].
      - rewrite decide_False; [done|]. intros [-> ?]. congruence.
      - rewrite decide_False; [done|]. intros [-> ?]. congruence. }
    destruct (IH B1 Hl1 Hpcs) as (Hl' & H0 & Hz). split; [done|]. split.
    + rewrite H0, H1. rewrite decide_False; [done|]. intros [? _]. lia.
    + intros pc. rewrite Hz, H1. destruct (decide (pc ∈ pcs ∧ _)) as [[Hin Hm]|Hno].
      * rewrite decide_True; [done|]. split; [by right|done].
      * destruct (decide (pc = q ∧ _)) as [[-> Hm]|Hno'].
        -- rewrite decide_True; [done|]. split; [by left|done].
        -- rewrite decide_False; [done|]. intros [[->|Hin]%elem_of_cons Hm]; [by apply Hno'|by apply Hno].
Qed.

Lemma entry_reached : reaches body 0.
Proof. exists [0]. constructor. Qed.

Lemma initial_table :
  ∃ dom, initialiseDominatorTable n = Some dom ∧
    let dom := seedReachableDominators dom marks in
    pcCount dom = n ∧ wordsPerRow dom = W ∧ table_ok (bits dom).
Proof.
  pose proof words_positive as HW. unfold initialiseDominatorTable.
  rewrite (proj2 (Z.leb_gt n 0)) by lia. rewrite (proj2 (Z.leb_gt W 0)) by done. cbn [orb].
  eexists. split; [done|]. cbn zeta. unfold seedReachableDominators.
  set (dom0 := NewFunctionDominators _ _ _). destruct (universe_spec dom0 eq_refl eq_refl) as [Hlu Hu].
  set (universe := universeRow dom0) in *. split; [done|]. split; [done|]. cbn [bits setBits].
  set (row0 := zset (replicate (Z.to_nat W) 0) 0 1).
  destruct (seed_spec universe (Z.to_nat (wordsPerRow dom0)) (seqZ 1 (n - 1)) (bits dom0)) as (Hl & H0 & Hz).
  { cbn [bits dom0]. rewrite length_zset, length_replicate. lia. }
  { apply Forall_forall. intros pc Hpc%elem_of_seqZ. lia. }
  change (pcCount dom0) with n. set (B := foldl _ _ _) in *.
  assert (Hcopy : copySlice (replicate (Z.to_nat (wordsPerRow dom0)) 0) universe = universe).
  { apply copySlice_same. rewrite length_replicate. cbn [wordsPerRow dom0]. lia. }
  rewrite Hcopy in Hz. cbn [bits dom0] in Hz, H0.
  rewrite zget_zset_eq in H0 by (rewrite length_replicate; lia).
  assert (Hrow : ∀ pc row, zget B pc = Some (Some row) →
    (pc = 0 ∧ row = row0) ∨ (1 <= pc < n ∧ reaches body pc ∧ row = universe)).
  { intros pc row Hpc. destruct (decide (pc = 0)) as [->|Hne].
    - rewrite H0 in Hpc. injection Hpc as <-. by left.
    - right. rewrite Hz in Hpc. destruct (decide _) as [[Hin%elem_of_seqZ Hm]|_].
      + injection Hpc as <-. split; [lia|]. split; [by apply Hmarks|done].
      + rewrite zget_zset_ne in Hpc by done. pose proof (zget_Some_range _ _ _ Hpc) as Hr.
        rewrite length_replicate in Hr. by rewrite zget_replicate in Hpc. }
  assert (Hrow0 : ∀ d, 0 <= d → rowBit row0 d = bool_decide (d = 0)).
  { intros d Hd. subst row0. unfold rowBit. destruct (decide (d / bitsPerWord = 0)) as [Heq|Hne].
    - rewrite Heq, zget_zset_eq by (rewrite length_replicate; lia).
      assert (0 <= d mod bitsPerWord) by by apply Z.mod_pos_bound.
      change 1 with (2 ^ 0). rewrite Z.pow2_bits_eqb by done.
      pose proof (div_mod_bits d 0) as Hdm. change (0 mod bitsPerWord) with 0 in Hdm.
      case_bool_decide; [subst; done|]. apply Z.eqb_neq. unfold bitsPerWord in *. Z.div_mod_to_equations. lia.
    - rewrite zget_zset_ne by done. rewrite bool_decide_eq_false_2 by by intros ->.
      destruct (zget (replicate (Z.to_nat W) 0) (d / bitsPerWord)) as [w|] eqn:E; [|done].
      pose proof (zget_Some_range _ _ _ E) as Hr.
      rewrite length_replicate in Hr. rewrite zget_replicate in E by done. injection E as <-.
      apply Z.bits_0. }
  split.
  - done.
  - intros pc row [[-> ->]|(Hpc & Hreach & ->)]%Hrow; [|done].
    split; [|apply entry_reached]. subst row0. rewrite length_zset, length_replicate. lia.
  - intros pc Hreach. destruct (decide (pc = 0)) as [->|Hne]; [by eexists|].
    exists universe. rewrite Hz, decide_True; [done|]. apply Hmarks in Hreach as Hm.
    split; [|done]. apply zget_Some_range in Hm. rewrite Hlen_marks in Hm. apply elem_of_seqZ. lia.
  - intros row d Hr Hd. apply Hrow in Hr as [[_ ->]|(? & _)]; [|lia]. apply Hrow0. lia.
  - intros pc row d [[-> ->]|(Hpc & Hreach & ->)]%Hrow Hd Hdom; [|by apply Hu].
    rewrite Hrow0 by lia. apply bool_decide_eq_true. specialize (Hdom [0] (entry_start _)).
    by apply list_elem_of_singleton in Hdom.
Qed.

(** *** The final table *)

(** A bit of the final table is set exactly for a dominator. *)
Lemma final_table B u row d :
  table_ok B → (∀ pc, 1 <= pc < n → fixed B pc) →
  zget B u = Some (Some row) → 0 <= d < n → rowBit row d = true ↔ dominates body d u.
Proof.
  clear Hmarks Hlen_marks marks Hbody. intros HB Hfix Hrow Hd. split; [|by apply (tk_upper _ HB)].
  intros Hbit l Hl. revert row Hrow Hbit. induction Hl as [|l pc t Hl IH He]; intros row Hrow Hbit.
  - rewrite (tk_entry _ HB row) in Hbit by done. apply bool_decide_eq_true in Hbit as ->. by left.
  - destruct (decide (t = 0)) as [->|Hne].
    + rewrite (tk_entry _ HB row) in Hbit by done. apply bool_decide_eq_true in Hbit as ->. by left.
    + pose proof He as (_ & Ht & _). destruct (Hfix t ltac:(lia) row d Hrow Hd Hbit) as [->|Hall]; [by left|].
      destruct (tk_reached _ HB pc) as [rowp Hrowp]; [by exists l|].
      right. apply (IH rowp Hrowp). by apply (Hall pc).
Qed.
End table.

(** The table, when it converges, is exact. *)
Lemma ComputeFunctionDominators_spec body :
  ∃ r, ComputeFunctionDominators body = Some r ∧
    ∀ dom d u, r = Some dom →
      ∃ b, Dominates (Some dom) d u = Some b ∧ (b = true ↔ reaches body u ∧ dominates body d u).
Proof.
  unfold ComputeFunctionDominators, computeFunctionDominatorsFrom.
  destruct (Z.eqb_spec (zlen body) 0) as [|Hne]; [by exists None|].
  assert (Hbody : 0 < zlen body) by lia.
  destruct (computeReachable_spec body Hbody) as (marks & -> & Hlm & Hmarks). cbn [mbind option_bind].
  destruct (initial_table body Hbody marks Hlm Hmarks) as (dom0 & -> & Hn & HW & HB). cbn [mbind option_bind].
  destruct (relaxLoop_spec body marks Hlm Hmarks maxDominatorIterations
    (seedReachableDominators dom0 marks)
    (replicate (Z.to_nat (wordsPerRow (seedReachableDominators dom0 marks))) 0) Hn HB) as (r & -> & Hr).
  { rewrite length_replicate, HW. apply Z2Nat.id. pose proof (words_positive body Hbody). by apply Z.lt_le_incl. }
  exists r. split; [done|]. intros dom d u ->. destruct (Hr dom eq_refl) as (Hn' & HB' & Hfix).
  unfold Dominates. rewrite Hn', (tk_length _ _ HB').
  assert (Hreach : reaches body u → 0 <= u < zlen body).
  { intros [l Hl]. by apply entry_path_range in Hl as [_ ?]. }
  case_if; bool_hyps.
  { exists false. split; [done|]. split; [done|]. intros [Hu _]. apply Hreach in Hu. destruct E; bool_hyps; lia. }
  destruct (zget_is_Some (bits dom) u) as [row Hrow]; [rewrite (tk_length _ _ HB'); lia|].
  rewrite Hrow. cbn [mbind option_bind]. destruct row as [row|].
  2: { exists false. split; [done|]. split; [done|]. intros [Hu _].
    apply (tk_reached _ _ HB') in Hu as [row Hrow']. congruence. }
  destruct (tk_rows _ _ HB' _ _ Hrow) as [Hlr Hu]. case_if; bool_hyps.
  { exists false. split; [done|]. split; [done|]. intros [[l Hl] Hdom].
    apply entry_path_range in Hl as Hrange; [|done]. destruct Hrange as [Hrange _].
    rewrite Forall_forall in Hrange. specialize (Hrange d (Hdom l Hl)). destruct E; bool_hyps; lia. }
  destruct (zget_is_Some row (d / bitsPerWord)) as [word Hword].
  { rewrite Hlr. apply word_in_row. lia. }
  rewrite Hword. cbn [mbind option_bind]. rewrite land_bit by (by apply Z.mod_pos_bound).
  eexists. split; [done|].
  rewrite <- (final_table body (bits dom) u row d HB' Hfix Hrow) by lia.
  unfold rowBit. rewrite Hword. tauto.
Qed.


(** ** Dominance along the runs of the machine *)

Section machine.
Context (f : CompiledFunction) (Hwalk : walkable (Body f)).

#[local] Notation body := (Body f).
#[local] Notation next pc := (pc + instructionFootprint body pc).

(** The words of an instruction that falls through, as a path. *)
Lemma fall_path l pc k :
  entry_path body l pc → 0 <= pc → pc + Z.of_nat k < zlen body →
  (∀ j, pc <= j < pc + Z.of_nat k → ∃ w, zget body j = Some w ∧ isLinearFallThroughFrom w = true) →
  ∃ l', entry_path body (l' ++ l) (pc + Z.of_nat k) ∧ Forall (λ q, pc < q <= pc + Z.of_nat k) l'.
Proof.
  intros Hl Hpc. induction k as [|k IH]; intros Hlen Hw.
  - exists []. rewrite Z.add_0_r. by split.
  - destruct IH as (l' & Hl' & Hall); [lia|intros; apply Hw; lia|].
    exists (pc + Z.of_nat (S k) :: l'). split.
    + apply (entry_edge _ _ (pc + Z.of_nat k)); [done|]. split; [lia|]. split; [lia|]. left.
      destruct (Hw (pc + Z.of_nat k)) as (w & ? & ?); [lia|]. exists w. split; [done|].
      split; [done|lia].
    + constructor; [lia|]. eapply Forall_impl; [done|]. cbn. lia.
Qed.

Lemma fall_through_word w : iOp w = OpExt ∨ isCanonicalNop w = true → isLinearFallThroughFrom w = true.
Proof.
  intros [H|H]; [|by apply isCanonicalNop_nop in H as ->].
  destruct w as [op a b c]. cbn in H. by subst.
Qed.

Lemma runs_path start x :
  runs f start x → ProgramCounter start = 0 → ProgramCounter x < zlen body →
  instruction_start body (ProgramCounter x) ∧
  ∃ l, entry_path body l (ProgramCounter x) ∧
    ∀ q, q ∈ l → instruction_start body q → ∃ y, runs f start y ∧ ProgramCounter y = q ∧ runs f y x.
Proof.
  intros Hruns H0. induction Hruns as [|x y Hruns IH Hstep]; intros Hlen.
  - rewrite H0. split; [constructor|]. exists [0]. split; [constructor|].
    intros q ->%list_elem_of_singleton _. exists start. split; [constructor|]. split; [done|constructor].
  - apply dispatchStep_inv in Hstep as Hinv. destruct Hinv as [(_ & _ & ?)|(i & h & Hg & Hd & Hrun)]; [done|].
    pose proof (zget_Some_range _ _ _ Hg) as Hrange. destruct IH as (Hstart & l & Hl & Hvisit); [lia|].
    assert (Hvisit' : ∀ q, q ∈ l → instruction_start body q →
      ∃ z, runs f start z ∧ ProgramCounter z = q ∧ runs f z y).
    { intros q Hq Hqs. destruct (Hvisit q Hq Hqs) as (z & ? & ? & ?). exists z. split; [done|].
      split; [done|]. by eapply runs_step. }
    assert (Hhere : ∃ z, runs f start z ∧ ProgramCounter z = ProgramCounter y ∧ runs f z y).
    { exists y. split; [by eapply runs_step|]. split; [done|constructor]. }
    destruct (step_goes f x i h y (wk_wf _ Hwalk) (wk_laid_out _ Hwalk) Hg Hd Hrun)
      as [Hjump|(Hpc & _ & Hterm)].
    + destruct (wk_targets _ Hwalk _ (JumpTargetAt_elem _ _ _ Hjump)) as [Hpos Hts].
      split; [by apply Hts|]. exists (ProgramCounter y :: l). split.
      * apply (entry_edge _ _ (ProgramCounter x)); [done|]. split; [lia|]. split; [lia|by right].
      * intros q [->|Hq]%elem_of_cons Hqs; [done|by apply Hvisit'].
    + rewrite (wk_span _ Hwalk _ _ _ Hstart Hg Hd) in Hpc.
      assert (Hs' : instruction_start body (next (ProgramCounter x))) by (constructor; [done|lia]).
      rewrite <- Hpc in Hs'. split; [done|].
      pose proof (instructionFootprint_pos body (ProgramCounter x)) as Hfoot.
      destruct (fall_path l (ProgramCounter x) (Z.to_nat (instructionFootprint body (ProgramCounter x))) Hl)
        as (l' & Hl' & Hall); [lia|lia| |].
      * intros j Hj. rewrite Z2Nat.id in Hj by lia. destruct (decide (j = ProgramCounter x)) as [->|Hne].
        -- exists i. split; [done|]. by eapply falls_through.
        -- destruct (wk_laid_out _ Hwalk _ _ _ Hg Hd) as [_ Hspan].
           rewrite (wk_span _ Hwalk _ _ _ Hstart Hg Hd) in Hspan.
           destruct (Hspan j ltac:(lia)) as (w & Hw & Hor). exists w. split; [done|].
           by apply fall_through_word.
      * rewrite Z2Nat.id, <- Hpc in Hl', Hall by lia. exists (l' ++ l). split; [done|].
        intros q [Hq|Hq]%elem_of_app Hqs; [|by apply Hvisit'].
        rewrite Forall_forall in Hall. specialize (Hall q Hq).
        pose proof (start_order body (ProgramCounter x) q Hstart Hqs ltac:(lia)).
        assert (q = ProgramCounter y) as -> by lia. done.
Qed.
End machine.

(** dominance holds of the runs of the machine.  When the table says that
    an instruction dominates another, every run from the entry that gets to
    the second went through the first. *)
Theorem dominators_hold_on_runs f r d start x :
  walkable (Body f) → ComputeFunctionDominators (Body f) = Some r →
  Dominates r d (ProgramCounter x) = Some true → instruction_start (Body f) d →
  ProgramCounter start = 0 → runs f start x →
  ∃ y, runs f start y ∧ ProgramCounter y = d ∧ runs f y x.
Proof.
  intros Hwalk Hr Hd Hstart H0 Hruns.
  destruct (ComputeFunctionDominators_spec (Body f)) as (r' & Hr' & Hspec).
  rewrite Hr in Hr'. injection Hr' as <-. destruct r as [dom|]; [|done].
  destruct (Hspec dom d (ProgramCounter x) eq_refl) as (b & Hb & Hiff).
  rewrite Hd in Hb. injection Hb as <-. destruct (proj1 Hiff eq_refl) as [[l0 Hl0] Hdom].
  assert (Hlen : ProgramCounter x < zlen (Body f)).
  { inversion Hl0 as [Heq|? ? ? _ (_ & Hr' & _)]; subst; [|lia].
    destruct (Body f); [discriminate Hr|cbn; lia]. }
  destruct (runs_path f Hwalk start x Hruns H0 Hlen) as (_ & l & Hl & Hvisit).
  by apply (Hvisit d (Hdom l Hl)).
Qed.

Definition sample_dominators : option functionDominators :=
  default None (ComputeFunctionDominators (Body sample_ranges)).

Theorem dominators_hold_on_runs_witness :
  let start := NewCallFrame 0 (NewRegisters [1] [0; 260] [] []) in
  let x := NewCallFrame 5 (NewRegisters [1] [0; 4] [] []) in
  Dominates sample_dominators 2 5 = Some true ∧ Dominates sample_dominators 6 2 = Some false ∧
  ∃ y, runs sample_ranges start y ∧ ProgramCounter y = 2 ∧ runs sample_ranges y x.
Proof.
  cbv zeta. split; [vm_compute; reflexivity|]. split; [vm_compute; reflexivity|].
  apply (dominators_hold_on_runs sample_ranges sample_dominators 2
    (NewCallFrame 0 (NewRegisters [1] [0; 260] [] [])) (NewCallFrame 5 (NewRegisters [1] [0; 4] [] [])));
    [apply sample_ranges_walkable|vm_compute; reflexivity|vm_compute; reflexivity| |done|].
  - exact (start_next (Body sample_ranges) 1
      (start_next (Body sample_ranges) 0 (start_first _) eq_refl) eq_refl).
  - apply (runs_step _ _ (NewCallFrame 4 (NewRegisters [1] [0; 260] [] []))); [|vm_compute; reflexivity].
    apply (runs_step _ _ (NewCallFrame 3 (NewRegisters [1] [0; 260] [] []))); [|vm_compute; reflexivity].
    apply (runs_step _ _ (NewCallFrame 2 (NewRegisters [1] [200; 260] [] []))); [|vm_compute; reflexivity].
    apply (runs_step _ _ (NewCallFrame 1 (NewRegisters [1] [200; 260] [] []))); [|vm_compute; reflexivity].
    apply (runs_step _ _ (NewCallFrame 0 (NewRegisters [1] [0; 260] [] []))); [|vm_compute; reflexivity].
    constructor.
Defined.
