(* ===== verification/Scope.v ===== *)
(** * Register scopes

    The register allocator and the scope stack of
    [internal/compile/scope/scope.go], and the recycling of dead declarations
    of [internal/compile/compiler_register_recycling.go].

    Go's arrays indexed by bank are functions of the bank, and the stack has
    its innermost scope first.  The debug variable table is nil, as it is
    unless debugging is on, and an error is a value without its text.  The
    lists and maps a syntax tree gives are arguments. *)

From S2P Require Import Prelude SafeConv Register Opcode Instruction Function Builder.

Definition maxRegisterIndex : Z := 255.
Definition spillThreshold : Z := 246.
Definition maxSpillSlotsPerBank : Z := Z.shiftl 1 16.

(** ** The register allocator *)

Definition bankArray (A : Type) : Type := RegisterKind → A.

Definition update {A} (a : bankArray A) (kind : RegisterKind) (v : A) : bankArray A :=
  λ k, if k =? kind then v else a k.

Definition zeroBanks : bankArray Z := λ _, 0.

Inductive OverflowError :=
  | RegisterOverflow (functionName : string) (kind : RegisterKind)
  | SpillUnsupportedBank (kind : RegisterKind) (functionName : string).

Inductive ScopePanic :=
  | RestoreAboveNext (kind : RegisterKind) (saved next : Z)
  | SpillAreaExhausted (kind : RegisterKind)
  | SliceBounds (kind : RegisterKind).

Record RegisterAllocator := NewRegisterAllocator {
  OverflowErr : option OverflowError;
  FunctionName : string;
  recycledRegisters : bankArray (list Z);
  nextRegister : bankArray Z;
  peakRegister : bankArray Z;
  nextSpillSlot : bankArray Z;
  peakSpillSlot : bankArray Z;
  capturedFloor : bankArray Z;
}.

Definition setOverflow (r : RegisterAllocator) (error : OverflowError) : RegisterAllocator :=
  NewRegisterAllocator (Some error) (FunctionName r) (recycledRegisters r) (nextRegister r)
    (peakRegister r) (nextSpillSlot r) (peakSpillSlot r) (capturedFloor r).
Definition setRecycled (r : RegisterAllocator) (v : bankArray (list Z)) : RegisterAllocator :=
  NewRegisterAllocator (OverflowErr r) (FunctionName r) v (nextRegister r)
    (peakRegister r) (nextSpillSlot r) (peakSpillSlot r) (capturedFloor r).
Definition setNext (r : RegisterAllocator) (v : bankArray Z) : RegisterAllocator :=
  NewRegisterAllocator (OverflowErr r) (FunctionName r) (recycledRegisters r) v
    (peakRegister r) (nextSpillSlot r) (peakSpillSlot r) (capturedFloor r).
Definition setPeak (r : RegisterAllocator) (v : bankArray Z) : RegisterAllocator :=
  NewRegisterAllocator (OverflowErr r) (FunctionName r) (recycledRegisters r) (nextRegister r)
    v (nextSpillSlot r) (peakSpillSlot r) (capturedFloor r).
Definition setSpill (r : RegisterAllocator) (next peak : bankArray Z) : RegisterAllocator :=
  NewRegisterAllocator (OverflowErr r) (FunctionName r) (recycledRegisters r) (nextRegister r)
    (peakRegister r) next peak (capturedFloor r).
Definition setFloor (r : RegisterAllocator) (v : bankArray Z) : RegisterAllocator :=
  NewRegisterAllocator (OverflowErr r) (FunctionName r) (recycledRegisters r) (nextRegister r)
    (peakRegister r) (nextSpillSlot r) (peakSpillSlot r) v.

(** Raise the peak of a bank to its next register. *)
Definition raisePeak (r : RegisterAllocator) (kind : RegisterKind) : RegisterAllocator :=
  if peakRegister r kind <? nextRegister r kind
  then setPeak r (update (peakRegister r) kind (nextRegister r kind)) else r.

Definition Alloc (r : RegisterAllocator) (kind : RegisterKind) : RegisterAllocator * Z :=
  let register := nextRegister r kind in
  let r := raisePeak (setNext r (update (nextRegister r) kind (wrapU 32 (register + 1)))) kind in
  let r :=
    if maxRegisterIndex <? register then
      match OverflowErr r with
      | None => setOverflow r (RegisterOverflow (FunctionName r) kind)
      | Some _ => r
      end
    else r in
  (r, wrapU 8 register).

Definition AllocTemp (r : RegisterAllocator) (kind : RegisterKind) : RegisterAllocator * Z :=
  Alloc r kind.

(** The register freed is the newest one, whatever the argument. *)
Definition FreeTemp (r : RegisterAllocator) (kind : RegisterKind) (_ : Z) : RegisterAllocator :=
  setNext r (update (nextRegister r) kind (wrapU 32 (nextRegister r kind - 1))).

Definition RecycleRegister (r : RegisterAllocator) (kind : RegisterKind) (register : Z)
    : RegisterAllocator :=
  setRecycled r (update (recycledRegisters r) kind (recycledRegisters r kind ++ [register])).

Definition EnsureMin (r : RegisterAllocator) (kind : RegisterKind) (count : Z) : RegisterAllocator :=
  if peakRegister r kind <? count then setPeak r (update (peakRegister r) kind count) else r.

Definition ReserveLow (r : RegisterAllocator) (kind : RegisterKind) (count : Z) : RegisterAllocator :=
  let r :=
    if nextRegister r kind <? count then setNext r (update (nextRegister r) kind count) else r in
  if peakRegister r kind <? count then setPeak r (update (peakRegister r) kind count) else r.

Definition Snapshot (r : RegisterAllocator) : bankArray Z := nextRegister r.

Definition Restore (r : RegisterAllocator) (saved : bankArray Z) : ScopePanic + RegisterAllocator :=
  match find (λ i, nextRegister r i <? saved i) allRegisterKinds with
  | Some i => inl (RestoreAboveNext i (saved i) (nextRegister r i))
  | None => inr (setNext r (λ i, Z.max (saved i) (capturedFloor r i)))
  end.

Definition ReserveCaptured (r : RegisterAllocator) (kind : RegisterKind) (register : Z)
    : RegisterAllocator :=
  setFloor r (update (capturedFloor r) kind (Z.max (capturedFloor r kind) (register + 1))).

Definition allocOrRecycle (r : RegisterAllocator) (kind : RegisterKind) (baseFreeIndex : Z)
    : RegisterAllocator * Z :=
  let pool := recycledRegisters r kind in
  if baseFreeIndex <? zlen pool then
    let register := default 0 (last pool) in
    let r := setRecycled r (update (recycledRegisters r) kind (take (length pool - 1) pool)) in
    let r :=
      if nextRegister r kind <=? register
      then raisePeak (setNext r (update (nextRegister r) kind (wrapU 32 (register + 1)))) kind
      else r in
    (r, wrapU 8 register)
  else Alloc r kind.

Definition allocSpill (r : RegisterAllocator) (kind : RegisterKind)
    : ScopePanic + (RegisterAllocator * Z) :=
  if IsTypedSliceKind kind then
    inr (match OverflowErr r with
         | None => setOverflow r (SpillUnsupportedBank kind (FunctionName r))
         | Some _ => r
         end, 0)
  else if maxSpillSlotsPerBank <=? nextSpillSlot r kind then inl (SpillAreaExhausted kind)
  else
    let slot := nextSpillSlot r kind in
    let next := update (nextSpillSlot r) kind (wrapU 32 (slot + 1)) in
    let peak :=
      if peakSpillSlot r kind <? next kind then update (peakSpillSlot r) kind (next kind)
      else peakSpillSlot r in
    inr (setSpill r next peak, wrapU 16 slot).

Definition spillSnapshot (r : RegisterAllocator) : bankArray Z := nextSpillSlot r.

Definition spillRestore (r : RegisterAllocator) (saved : bankArray Z) : RegisterAllocator :=
  setSpill r saved (peakSpillSlot r).

Definition needsSpill (r : RegisterAllocator) (kind : RegisterKind) : bool :=
  spillThreshold <=? nextRegister r kind.

(** ** The scope stack *)

Record lexicalScope := NewLexicalScope {
  Vars : gmap string VarLocation;
  savedRegisters : bankArray Z;
  savedSpillSlots : bankArray Z;
  savedRecycledLengths : bankArray Z;
}.

Record ScopeStack := MkScopeStack { allocator : RegisterAllocator; Scopes : list lexicalScope }.

Definition NewScopeStack (functionName : string) : ScopeStack :=
  MkScopeStack
    (NewRegisterAllocator None functionName (λ _, []) zeroBanks zeroBanks zeroBanks zeroBanks zeroBanks)
    [].

Definition PushScope (s : ScopeStack) : ScopeStack :=
  MkScopeStack (allocator s)
    (NewLexicalScope ∅ (Snapshot (allocator s)) (spillSnapshot (allocator s))
       (λ i, zlen (recycledRegisters (allocator s) i)) :: Scopes s).

(** [lists[i][:lengths[i]]].  Go extends a slice up to its capacity and panics
    beyond; both are a panic here, and neither happens to a stack the
    operations made. *)
Definition truncateRecycled (r : RegisterAllocator) (lengths : bankArray Z)
    : ScopePanic + RegisterAllocator :=
  match find (λ i, zlen (recycledRegisters r i) <? lengths i) allRegisterKinds with
  | Some i => inl (SliceBounds i)
  | None => inr (setRecycled r (λ i, take (Z.to_nat (lengths i)) (recycledRegisters r i)))
  end.

Definition PopScope (s : ScopeStack) : ScopePanic + ScopeStack :=
  match Scopes s with
  | [] => inr s
  | top :: outer =>
      match Restore (allocator s) (savedRegisters top) with
      | inl panic => inl panic
      | inr r =>
          match truncateRecycled (spillRestore r (savedSpillSlots top)) (savedRecycledLengths top) with
          | inl panic => inl panic
          | inr r => inr (MkScopeStack r outer)
          end
      end
  end.

Definition registerLocation (kind : RegisterKind) (register : Z) : VarLocation :=
  NewVarLocation 0 0 register kind false false false false.
Definition spillLocation (kind : RegisterKind) (slot : Z) : VarLocation :=
  NewVarLocation 0 slot 0 kind false false false true.

(** [Scopes[len-1].Vars[name] = location]. *)
Definition bindInnermost (scopes : list lexicalScope) (name : string) (location : VarLocation)
    : list lexicalScope :=
  match scopes with
  | [] => []
  | top :: outer =>
      NewLexicalScope (<[name := location]> (Vars top)) (savedRegisters top) (savedSpillSlots top)
        (savedRecycledLengths top) :: outer
  end.

Definition baseFreeIndexOf (scopes : list lexicalScope) (kind : RegisterKind) : Z :=
  match scopes with
  | [] => 0
  | top :: _ => savedRecycledLengths top kind
  end.

Definition DeclareVar (s : ScopeStack) (name : string) (kind : RegisterKind)
    : ScopePanic + (ScopeStack * VarLocation) :=
  let r := allocator s in
  let baseFreeIndex := baseFreeIndexOf (Scopes s) kind in
  let hasRecycled := baseFreeIndex <? zlen (recycledRegisters r kind) in
  let allocated :=
    if hasRecycled || negb (needsSpill r kind) then
      let '(r, register) := allocOrRecycle r kind baseFreeIndex in
      inr (r, registerLocation kind register)
    else
      match allocSpill r kind with
      | inl panic => inl panic
      | inr (r, slot) => inr (r, spillLocation kind slot)
      end in
  match allocated with
  | inl panic => inl panic
  | inr (r, location) =>
      inr (MkScopeStack r (bindInnermost (Scopes s) name location), location)
  end.

Fixpoint lookupIn (scopes : list lexicalScope) (name : string) : option VarLocation :=
  match scopes with
  | [] => None
  | scope :: scopes =>
      match Vars scope !! name with
      | Some location => Some location
      | None => lookupIn scopes name
      end
  end.

Definition LookupVar (s : ScopeStack) (name : string) : option VarLocation :=
  lookupIn (Scopes s) name.

(** [Vars[name] = location] in the innermost scope that has [name]. *)
Fixpoint replaceIn (scopes : list lexicalScope) (name : string) (location : VarLocation)
    : list lexicalScope :=
  match scopes with
  | [] => []
  | scope :: scopes =>
      match Vars scope !! name with
      | Some _ =>
          NewLexicalScope (<[name := location]> (Vars scope)) (savedRegisters scope)
            (savedSpillSlots scope) (savedRecycledLengths scope) :: scopes
      | None => scope :: replaceIn scopes name location
      end
  end.

Definition setCaptured (l : VarLocation) : VarLocation :=
  NewVarLocation (UpvalueIndex l) (SpillSlot l) (vlRegister l) (vlKind l) (IsUpvalue l)
    (IsIndirect l) true (IsSpilled l).

Definition MarkCaptured (s : ScopeStack) (name : string) : ScopeStack :=
  match LookupVar s name with
  | None => s
  | Some loc =>
      MkScopeStack
        (if IsSpilled loc then allocator s
         else ReserveCaptured (allocator s) (vlKind loc) (vlRegister loc))
        (replaceIn (Scopes s) name (setCaptured loc))
  end.

Definition UpdateVar (s : ScopeStack) (name : string) (location : VarLocation) : ScopeStack * bool :=
  match LookupVar s name with
  | None => (s, false)
  | Some _ => (MkScopeStack (allocator s) (replaceIn (Scopes s) name location), true)
  end.

(** One turn of the loop over the variables: keep a variable's register. *)
Definition keepVar (r : RegisterAllocator) (location : VarLocation) : RegisterAllocator :=
  if IsSpilled location then r
  else
    let needed := vlRegister location + 1 in
    let kind := vlKind location in
    if nextRegister r kind <? needed
    then raisePeak (setNext r (update (nextRegister r) kind needed)) kind else r.

(** The variables of every scope, the outermost scope first.  Go leaves the
    order within a scope open. *)
Definition scopeLocations (scopes : list lexicalScope) : list VarLocation :=
  concat (map (λ scope, map snd (map_to_list (Vars scope))) (reverse scopes)).

Definition RestoreWatermark (s : ScopeStack) (saved : bankArray Z) : ScopePanic + ScopeStack :=
  match Restore (allocator s) saved with
  | inl panic => inl panic
  | inr r => inr (MkScopeStack (foldl keepVar r (scopeLocations (Scopes s))) (Scopes s))
  end.

Definition PeakRegisters (s : ScopeStack) : bankArray Z := λ i,
  let r := allocator s in
  if 0 <? peakSpillSlot r i
  then Z.max (peakRegister r i) (wrapU 32 (SpillAreaOffset + peakSpillSlot r i))
  else peakRegister r i.

Definition OverflowErrorOf (s : ScopeStack) : option OverflowError := OverflowErr (allocator s).

(** ** Recycling dead declarations *)

Record activeDeclaration := NewActiveDeclaration { activeName : string; activeLocation : VarLocation }.

Definition trackDeclaredName (s : ScopeStack) (name : string) (active : list activeDeclaration)
    : list activeDeclaration :=
  match LookupVar s name with
  | None => active
  | Some declarationLocation =>
      if existsb (λ existing, bool_decide (activeName existing = name)) active then active
      else active ++ [NewActiveDeclaration name declarationLocation]
  end.

(** [declares] and [names] are what the statement declares. *)
Definition recycleOrTrackDeclarations (s : ScopeStack) (declares : bool) (names : list string)
    (watermark : bankArray Z) (active : list activeDeclaration)
    : ScopePanic + (ScopeStack * list activeDeclaration) :=
  if negb declares then
    match RestoreWatermark s watermark with
    | inl panic => inl panic
    | inr s => inr (s, active)
    end
  else inr (s, foldl (λ active name, trackDeclaredName s name active) active names).

Definition shouldRetainDeclaration (s : ScopeStack) (declaration : activeDeclaration)
    (lastUseIndices : gmap string Z) (currentIndex : Z) : ScopeStack * bool :=
  match lastUseIndices !! activeName declaration with
  | None => (s, true)
  | Some lastUse =>
      if currentIndex <? lastUse then (s, true)
      else
        match LookupVar s (activeName declaration) with
        | None => (s, true)
        | Some currentLocation =>
            if IsUpvalue currentLocation || IsCaptured currentLocation || IsIndirect currentLocation
            then (s, true)
            else (MkScopeStack
                    (RecycleRegister (allocator s) (vlKind currentLocation) (vlRegister currentLocation))
                    (Scopes s), false)
        end
  end.

(** [None] is the nil map. *)
Definition recycleDeadDeclarations (s : ScopeStack) (active : list activeDeclaration)
    (lastUseIndices : option (gmap string Z)) (currentIndex : Z)
    : ScopeStack * list activeDeclaration :=
  match lastUseIndices with
  | None => (s, active)
  | Some lastUseIndices =>
      foldl (λ '(s, remaining) declaration,
          let '(s, retain) := shouldRetainDeclaration s declaration lastUseIndices currentIndex in
          (s, if (retain : bool) then remaining ++ [declaration] else remaining))
        (s, []) active
  end.

(** ** Promotion to the heap

    [compiler_unary.go] and [compiler_statements_helpers.go].  The index of
    the type in the function's table is an argument, [None] when the table is
    full; [OriginalKind] and the record of allocation sites are left out. *)

Definition emitReloadIfSpilled (f : CompiledFunction) (s : ScopeStack) (location : VarLocation)
    : CompiledFunction * ScopeStack * VarLocation :=
  if negb (IsSpilled location) then (f, s, location)
  else
    let '(r, scratch) := AllocTemp (allocator s) (vlKind location) in
    let '(f, _) := Emit f OpDrillTier1 SubOpReload scratch (vlKind location) in
    let '(f, _) := EmitExtension f (SpillSlot location) 0 in
    (f, MkScopeStack r (Scopes s), registerLocation (vlKind location) scratch).

Definition indirectLocation (pointerRegister : Z) : VarLocation :=
  NewVarLocation 0 0 pointerRegister RegisterGeneral false true false false.

Definition promoteToIndirect (f : CompiledFunction) (s : ScopeStack) (name : string)
    (typeIndex : option Z) : CompiledFunction * ScopeStack * option VarLocation :=
  match LookupVar s name with
  | None => (f, s, None)
  | Some location =>
      if IsIndirect location then (f, s, Some location)
      else
        let '(f, s, sourceLocation) :=
          if IsSpilled location then emitReloadIfSpilled f s location else (f, s, location) in
        match typeIndex with
        | None => (f, s, None)
        | Some typeIndex =>
            let '(r, pointerRegister) := Alloc (allocator s) RegisterGeneral in
            let '(f, _) :=
              Emit f OpAllocIndirect pointerRegister (vlRegister sourceLocation)
                (vlKind sourceLocation) in
            let '(f, _) := EmitExtension f typeIndex 0 in
            let r :=
              if IsSpilled location
              then FreeTemp r (vlKind sourceLocation) (vlRegister sourceLocation) else r in
            let promoted := indirectLocation pointerRegister in
            let '(s, _) := UpdateVar (MkScopeStack r (Scopes s)) name promoted in
            (f, s, Some promoted)
        end
  end.

(** ** The steps of a compilation

    What the compiler does with the allocator, as a step relation with the
    registers and spill slots in use as ghost state.  The guards are the
    compiler's discipline: a temporary is freed newest first and inside its
    scope, a recycled variable is in a register of its own and not captured, a
    location moves only within the innermost scope, and a watermark is not
    older than the scope. *)

Definition bank (k : RegisterKind) : Prop := 0 <= k < NumRegisterKinds.

Record config := NewConfig {
  stack : ScopeStack;
  used : list (RegisterKind * Z);
  slots : list (RegisterKind * Z);
}.

#[local] Notation next s := (nextRegister (allocator s)).
#[local] Notation pool s := (recycledRegisters (allocator s)).

(** What an array says is still allocated. *)
Definition below (a : bankArray Z) (l : list (RegisterKind * Z)) : list (RegisterKind * Z) :=
  filter (λ p, p.2 < a p.1) l.

(** A scope has the variable at that location. *)
Definition bound (scopes : list lexicalScope) (loc : VarLocation) : Prop :=
  ∃ scope name, scope ∈ scopes ∧ Vars scope !! name = Some loc.

Inductive scope_step : config → config → Prop :=
  | step_push s u sp : scope_step (NewConfig s u sp) (NewConfig (PushScope s) u sp)
  | step_pop s s' u sp :
      PopScope s = inr s' → Scopes s ≠ [] →
      scope_step (NewConfig s u sp)
        (NewConfig s' (below (next s') u) (below (nextSpillSlot (allocator s')) sp))
  | step_declare s s' u sp name k loc :
      bank k → DeclareVar s name k = inr (s', loc) →
      (∀ top, head (Scopes s) = Some top → Vars top !! name = None) →
      scope_step (NewConfig s u sp)
        (if IsSpilled loc then NewConfig s' u ((k, SpillSlot loc) :: sp)
         else NewConfig s' ((k, vlRegister loc) :: u) sp)
  | step_temp s u sp k r register :
      bank k → AllocTemp (allocator s) k = (r, register) →
      scope_step (NewConfig s u sp) (NewConfig (MkScopeStack r (Scopes s)) ((k, register) :: u) sp)
  | step_free s u u' sp k :
      bank k → u ≡ₚ (k, next s k - 1) :: u' → capturedFloor (allocator s) k < next s k →
      (∀ top, head (Scopes s) = Some top → savedRegisters top k < next s k) →
      (∀ loc, bound (Scopes s) loc → vlKind loc = k → IsSpilled loc = false →
        vlRegister loc ≠ next s k - 1) →
      scope_step (NewConfig s u sp)
        (NewConfig (MkScopeStack (FreeTemp (allocator s) k (next s k - 1)) (Scopes s)) u' sp)
  | step_recycle s u u' sp name loc :
      LookupVar s name = Some loc → IsSpilled loc = false → IsCaptured loc = false →
      u ≡ₚ (vlKind loc, vlRegister loc) :: u' →
      scope_step (NewConfig s u sp)
        (NewConfig (MkScopeStack (RecycleRegister (allocator s) (vlKind loc) (vlRegister loc))
           (Scopes s)) u' sp)
  | step_capture s u sp name :
      scope_step (NewConfig s u sp) (NewConfig (MarkCaptured s name) u sp)
  | step_update s u sp name old loc top :
      head (Scopes s) = Some top → Vars top !! name = Some old →
      IsSpilled old = true ∨ (vlKind old, vlRegister old) ∈ u →
      IsSpilled loc = false → bank (vlKind loc) → (vlKind loc, vlRegister loc) ∈ u →
      scope_step (NewConfig s u sp) (NewConfig (fst (UpdateVar s name loc)) u sp)
  | step_reserve s u sp k count :
      bank k → 0 <= count <= 256 →
      scope_step (NewConfig s u sp)
        (NewConfig (MkScopeStack (ReserveLow (allocator s) k count) (Scopes s)) u sp)
  | step_ensure s u sp k count :
      bank k →
      scope_step (NewConfig s u sp)
        (NewConfig (MkScopeStack (EnsureMin (allocator s) k count) (Scopes s)) u sp)
  | step_watermark s s' u sp saved :
      RestoreWatermark s saved = inr s' →
      (∀ k, bank k → 0 <= saved k) →
      (∀ top k, head (Scopes s) = Some top → bank k → savedRegisters top k <= saved k) →
      scope_step (NewConfig s u sp) (NewConfig s' (below (next s') u) sp).

(** The configurations of a function's compilation. *)
Inductive compiles (functionName : string) : config → Prop :=
  | compiles_start : compiles functionName (NewConfig (NewScopeStack functionName) [] [])
  | compiles_step c c' : compiles functionName c → scope_step c c' → compiles functionName c'.
