(* ===== verification/ScopeSound.v ===== *)
(** * Registers are never shared

    The invariant of the configurations of [Scope], preserved by every step,
    and what it says of the allocator. *)

From stdpp Require Import sorting.
From S2P Require Import Prelude SafeConv Register Opcode Instruction Function Builder Scope.

#[local] Notation next s := (nextRegister (allocator s)).
#[local] Notation pool s := (recycledRegisters (allocator s)).
#[local] Notation floor s := (capturedFloor (allocator s)).
#[local] Notation peak s := (peakRegister (allocator s)).
#[local] Notation spill s := (nextSpillSlot (allocator s)).

Lemma update_eq {A} (a : bankArray A) k v : update a k v k = v.
Proof. unfold update. by rewrite Z.eqb_refl. Qed.
Lemma update_ne {A} (a : bankArray A) k j v : j ≠ k → update a k v j = a j.
Proof. intros. unfold update. by rewrite (proj2 (Z.eqb_neq j k)). Qed.

(** ** Bound locations *)

Lemma bound_nil loc : ¬ bound [] loc.
Proof. intros (? & ? & ?%not_elem_of_nil & _). done. Qed.

Lemma bound_cons scope scopes loc :
  bound (scope :: scopes) loc ↔ (∃ name, Vars scope !! name = Some loc) ∨ bound scopes loc.
Proof.
  unfold bound. split.
  - intros (s & name & [->|Hin]%elem_of_cons & Hl); eauto 6.
  - intros [[name Hl]|(s & name & Hin & Hl)]; [exists scope, name|exists s, name];
      split; try done; by (left || right).
Qed.

Lemma lookup_bound scopes name loc : lookupIn scopes name = Some loc → bound scopes loc.
Proof.
  induction scopes as [|scope scopes IH]; cbn; [done|]. rewrite bound_cons.
  destruct (Vars scope !! name) eqn:E; [intros [= ->]; left; eauto|auto].
Qed.

Lemma bound_locations scopes loc : bound scopes loc ↔ loc ∈ scopeLocations scopes.
Proof.
  unfold scopeLocations, bound. rewrite list_elem_of_In, in_concat.
  setoid_rewrite <- list_elem_of_In. split.
  - intros (scope & name & Hin & Hl). exists (map snd (map_to_list (Vars scope))). split.
    + apply list_elem_of_fmap. exists scope. split; [done|]. by apply elem_of_reverse.
    + apply list_elem_of_fmap. exists (name, loc). split; [done|]. by apply elem_of_map_to_list.
  - intros (l & (scope & -> & Hin)%list_elem_of_fmap & Hl).
    rewrite elem_of_reverse in Hin.
    apply list_elem_of_fmap in Hl as ([name loc'] & -> & Hl%elem_of_map_to_list).
    exists scope, name. by split.
Qed.

(** ** The invariant *)

(** One bank at one level of the stack: the variables below it are below the
    next register and spill slot, and the recycled registers are theirs. *)
Record level_ok (k : RegisterKind) (nxt : Z) (pl : list Z) (sp : Z) (scopes : list lexicalScope)
    : Prop := {
  lv_vars loc : bound scopes loc → vlKind loc = k → IsSpilled loc = false → 0 <= vlRegister loc < nxt;
  lv_slots loc : bound scopes loc → vlKind loc = k → IsSpilled loc = true → 0 <= SpillSlot loc < sp;
  lv_pool reg : reg ∈ pl →
    ∃ loc, bound scopes loc ∧ vlKind loc = k ∧ IsSpilled loc = false ∧ vlRegister loc = reg;
}.

(** Every level, from the counters now to those each scope saved. *)
Inductive nested (k : RegisterKind) : Z → list Z → Z → list lexicalScope → Prop :=
  | nested_nil nxt pl sp : level_ok k nxt pl sp [] → nested k nxt pl sp []
  | nested_cons nxt pl sp scope outer :
      level_ok k nxt pl sp (scope :: outer) →
      0 <= savedRegisters scope k <= nxt → 0 <= savedRecycledLengths scope k <= zlen pl →
      0 <= savedSpillSlots scope k <= sp →
      nested k (savedRegisters scope k) (take (Z.to_nat (savedRecycledLengths scope k)) pl)
        (savedSpillSlots scope k) outer →
      nested k nxt pl sp (scope :: outer).

Record bank_ok (r : RegisterAllocator) (u sp : list (RegisterKind * Z)) (k : RegisterKind) : Prop := {
  bk_floor : 0 <= capturedFloor r k <= nextRegister r k;
  bk_next : nextRegister r k <= 256;
  bk_peak : nextRegister r k <= peakRegister r k;
  bk_pool : NoDup (recycledRegisters r k);
  bk_free reg : reg ∈ recycledRegisters r k → (k, reg) ∉ u;
  bk_used reg : (k, reg) ∈ u → 0 <= reg < nextRegister r k;
  bk_spill : 0 <= nextSpillSlot r k <= peakSpillSlot r k;
  bk_limit : peakSpillSlot r k <= maxSpillSlotsPerBank;
  bk_slots slot : (k, slot) ∈ sp → 0 <= slot < nextSpillSlot r k;
}.

Record good (c : config) : Prop := {
  gd_used : NoDup (used c);
  gd_slots : NoDup (slots c);
  gd_banks loc : bound (Scopes (stack c)) loc → bank (vlKind loc);
  gd_bank k : bank k → bank_ok (allocator (stack c)) (used c) (slots c) k;
  gd_nested k : bank k → nested k (next (stack c) k) (pool (stack c) k) (spill (stack c) k)
    (Scopes (stack c));
}.

Lemma nested_level k nxt pl sp scopes : nested k nxt pl sp scopes → level_ok k nxt pl sp scopes.
Proof. by destruct 1. Qed.

(** The recycled registers are below the next one. *)
Lemma nested_pool_range k nxt pl sp scopes reg :
  nested k nxt pl sp scopes → reg ∈ pl → 0 <= reg < nxt.
Proof.
  intros [Hv _ Hp]%nested_level Hin. destruct (Hp reg Hin) as (loc & Hb & Hk & Hs & <-). by apply Hv.
Qed.

(** *** Changing the innermost level *)

Lemma nested_counters k nxt nxt' pl sp sp' scopes :
  nested k nxt pl sp scopes →
  (∀ loc, bound scopes loc → vlKind loc = k → IsSpilled loc = false → vlRegister loc < nxt') →
  (∀ loc, bound scopes loc → vlKind loc = k → IsSpilled loc = true → SpillSlot loc < sp') →
  (∀ top, head scopes = Some top → savedRegisters top k <= nxt' ∧ savedSpillSlots top k <= sp') →
  nested k nxt' pl sp' scopes.
Proof.
  intros Hn Hv Hs Htop. assert (Hl : level_ok k nxt' pl sp' scopes).
  { apply nested_level in Hn as [Hv' Hs' Hp]. split; [| |done].
    - intros loc Hb Hk Hsp. split; [by apply (Hv' loc)|by apply Hv].
    - intros loc Hb Hk Hsp. split; [by apply (Hs' loc)|by apply Hs]. }
  inversion Hn as [|? ? ? scope outer _ Hr Hlen Hsl Hn']; subst; [by constructor|].
  destruct (Htop scope eq_refl). constructor; [done|lia|lia|lia|done].
Qed.

Lemma nested_raise k nxt nxt' pl sp sp' scopes :
  nested k nxt pl sp scopes → nxt <= nxt' → sp <= sp' → nested k nxt' pl sp' scopes.
Proof.
  intros Hn ??. apply (nested_counters k nxt nxt' pl sp sp'); [done| | |].
  - intros loc Hb Hk Hs. apply nested_level in Hn. destruct (lv_vars _ _ _ _ _ Hn loc Hb Hk Hs). lia.
  - intros loc Hb Hk Hs. apply nested_level in Hn. destruct (lv_slots _ _ _ _ _ Hn loc Hb Hk Hs). lia.
  - intros top Htop. inversion Hn; subst; [done|]. injection Htop as ->. lia.
Qed.

Lemma nested_pool k nxt pl pl' sp scopes :
  nested k nxt pl sp scopes →
  (∀ reg, reg ∈ pl' → ∃ loc, bound scopes loc ∧ vlKind loc = k ∧ IsSpilled loc = false ∧ vlRegister loc = reg) →
  (∀ top, head scopes = Some top → savedRecycledLengths top k <= zlen pl' ∧
    take (Z.to_nat (savedRecycledLengths top k)) pl' = take (Z.to_nat (savedRecycledLengths top k)) pl) →
  nested k nxt pl' sp scopes.
Proof.
  intros Hn Hp Htop. assert (Hl : level_ok k nxt pl' sp scopes).
  { apply nested_level in Hn as [Hv Hs _]. by split. }
  inversion Hn as [|? ? ? scope outer _ Hr Hlen Hsl Hn']; subst; [by constructor|].
  destruct (Htop scope eq_refl) as [? Htake]. constructor; [done|lia|lia|lia|by rewrite Htake].
Qed.

Lemma nested_push k nxt pl sp scopes scope :
  nested k nxt pl sp scopes → 0 <= nxt → 0 <= sp → Vars scope = ∅ →
  savedRegisters scope k = nxt → savedRecycledLengths scope k = zlen pl →
  savedSpillSlots scope k = sp → nested k nxt pl sp (scope :: scopes).
Proof.
  intros Hn H0 H1 Hv Hr Hl Hs. pose proof (nested_level _ _ _ _ _ Hn) as [Hvars Hslots Hpool].
  assert (Hb : ∀ loc, bound (scope :: scopes) loc ↔ bound scopes loc).
  { intros loc. rewrite bound_cons, Hv. split; [|by right]. intros [[name Hname]|]; [|done].
    by rewrite lookup_empty in Hname. }
  constructor.
  - split.
    + intros loc ?%Hb. by apply Hvars.
    + intros loc ?%Hb. by apply Hslots.
    + intros reg Hreg. destruct (Hpool reg Hreg) as (loc & ? & ?). exists loc. by rewrite Hb.
  - lia.
  - lia.
  - lia.
  - rewrite Hr, Hl, Hs, Nat2Z.id. by rewrite take_ge by lia.
Qed.

Lemma nested_top k nxt pl sp scopes top :
  nested k nxt pl sp scopes → head scopes = Some top →
  0 <= savedRegisters top k <= nxt ∧ 0 <= savedRecycledLengths top k <= zlen pl ∧
  0 <= savedSpillSlots top k <= sp.
Proof. destruct 1; [done|]. by intros [= <-]. Qed.

(** *** Changing one bank *)

Definition same_bank (r r' : RegisterAllocator) (j : RegisterKind) : Prop :=
  nextRegister r' j = nextRegister r j ∧ recycledRegisters r' j = recycledRegisters r j ∧
  peakRegister r' j = peakRegister r j ∧ nextSpillSlot r' j = nextSpillSlot r j ∧
  peakSpillSlot r' j = peakSpillSlot r j ∧ capturedFloor r' j = capturedFloor r j.

Lemma good_set k r r' scopes u u' sp sp' :
  good (NewConfig (MkScopeStack r scopes) u sp) →
  (∀ j, j ≠ k → same_bank r r' j) → bank_ok r' u' sp' k →
  nested k (nextRegister r' k) (recycledRegisters r' k) (nextSpillSlot r' k) scopes →
  NoDup u' → NoDup sp' →
  (∀ j reg, j ≠ k → (j, reg) ∈ u' ↔ (j, reg) ∈ u) →
  (∀ j slot, j ≠ k → (j, slot) ∈ sp' ↔ (j, slot) ∈ sp) →
  good (NewConfig (MkScopeStack r' scopes) u' sp').
Proof.
  intros [Hu Hsp Hb Hbank Hn] Hsame Hk Hnk Hu' Hsp' Heq Heqs. cbn [stack allocator Scopes used slots] in *.
  split; [done|done|done| |]; intros j Hj; cbn [stack allocator Scopes used slots];
    (destruct (decide (j = k)) as [->|Hne]; [done|]);
    destruct (Hsame j Hne) as (H1 & H2 & H3 & H4 & H5 & H6).
  - destruct (Hbank j Hj) as [B1 B2 B3 B4 B5 B6 B7 B8 B9].
    split; rewrite ?H1, ?H2, ?H3, ?H4, ?H5, ?H6; try done.
    + intros reg Hr. rewrite Heq by done. by apply B5.
    + intros reg. rewrite Heq by done. apply B6.
    + intros slot. rewrite Heqs by done. apply B9.
  - rewrite H1, H2, H4. by apply Hn.
Qed.

(** A fresh register. *)
Lemma good_alloc r r' scopes u sp k register :
  good (NewConfig (MkScopeStack r scopes) u sp) → bank k → Alloc r k = (r', register) →
  OverflowErr r' = None →
  good (NewConfig (MkScopeStack r' scopes) ((k, register) :: u) sp) ∧ register = nextRegister r k.
Proof.
  intros Hg Hk Halloc Hov. destruct (gd_bank _ Hg k Hk) as [B1 B2 B3 B4 B5 B6 B7 B8 B9].
  cbn [stack allocator used slots] in *. unfold Alloc in Halloc. injection Halloc as Hr Hreg.
  assert (Hmax : nextRegister r k <= maxRegisterIndex).
  { revert Hr. case_if; bool_hyps; [|done]. destruct (OverflowErr (raisePeak _ _)) eqn:Eo; intros <-; [|done].
    by rewrite Hov in Eo. }
  unfold maxRegisterIndex in *. rewrite (proj2 (Z.ltb_ge _ _)) in Hr by done.
  rewrite wrapU_id in Hreg by (unfold isU; lia). subst register.
  assert (Hw : wrapU 32 (nextRegister r k + 1) = nextRegister r k + 1) by (apply wrapU_id; unfold isU; lia).
  rewrite Hw in Hr. split; [|done].
  assert (Hfields : nextRegister r' = update (nextRegister r) k (nextRegister r k + 1) ∧
    recycledRegisters r' = recycledRegisters r ∧ nextSpillSlot r' = nextSpillSlot r ∧
    peakSpillSlot r' = peakSpillSlot r ∧ capturedFloor r' = capturedFloor r ∧
    nextRegister r k + 1 <= peakRegister r' k ∧ ∀ j, j ≠ k → peakRegister r' j = peakRegister r j).
  { subst r'. unfold raisePeak. cbn [peakRegister nextRegister setNext setPeak]. rewrite update_eq.
    case_if; bool_hyps; cbn; split_and!; try done; try lia.
    - by rewrite update_eq.
    - intros j Hj. by rewrite update_ne. }
  destruct Hfields as (F1 & F2 & F3 & F4 & F5 & F6 & F7).
  assert (Hfresh : (k, nextRegister r k) ∉ u) by (intros Hin; apply B6 in Hin; lia).
  apply (good_set k r r' scopes u _ sp _ Hg).
  - intros j Hj. unfold same_bank. rewrite F1, F2, F3, F4, F5, update_ne by done. auto 10.
  - split; rewrite ?F1, ?F2, ?F3, ?F4, ?F5, ?update_eq; try done; try lia.
    + intros reg Hin [[= ->]|?]%elem_of_cons; [|by apply (B5 reg)].
      pose proof (nested_pool_range _ _ _ _ _ _ (gd_nested _ Hg k Hk) Hin) as Hr0. cbn in Hr0. lia.
    + intros reg [[= ->]|Hin]%elem_of_cons; [lia|]. apply B6 in Hin. lia.
  - rewrite F1, F2, F3, update_eq. eapply nested_raise; [exact (gd_nested _ Hg k Hk)|cbn; lia|done].
  - constructor; [done|apply Hg].
  - apply Hg.
  - intros j reg Hj. rewrite elem_of_cons. split; [intros [[= -> _]|]; done|by right].
  - done.
Qed.

(** A recycled register. *)
Lemma good_take r r' scopes u sp k register :
  good (NewConfig (MkScopeStack r scopes) u sp) → bank k →
  0 <= baseFreeIndexOf scopes k < zlen (recycledRegisters r k) →
  allocOrRecycle r k (baseFreeIndexOf scopes k) = (r', register) →
  good (NewConfig (MkScopeStack r' scopes) ((k, register) :: u) sp) ∧ OverflowErr r' = OverflowErr r.
Proof.
  intros Hg Hk [Hbase Hlt] Halloc. unfold allocOrRecycle in Halloc.
  rewrite (proj2 (Z.ltb_lt _ _)) in Halloc by done.
  destruct (gd_bank _ Hg k Hk) as [B1 B2 B3 B4 B5 B6 B7 B8 B9].
  pose proof (gd_nested _ Hg k Hk) as Hn. cbn [stack allocator used slots Scopes] in *.
  destruct (recycledRegisters r k) as [|reg0 l0 _] eqn:Epool using rev_ind; [cbn in Hlt; lia|].
  rewrite last_snoc in Halloc. cbn [default from_option id] in Halloc.
  rewrite length_app in Halloc. cbn [length] in Halloc. rewrite Nat.add_sub, take_app_length in Halloc.
  assert (Hin : reg0 ∈ l0 ++ [reg0]) by (apply elem_of_app; right; by left).
  pose proof (nested_pool_range _ _ _ _ _ _ Hn Hin) as Hrange.
  rewrite (proj2 (Z.leb_gt _ _)) in Halloc by (cbn; lia). injection Halloc as <- Hreg.
  rewrite wrapU_id in Hreg by (unfold isU; lia). subst register. split; [|done].
  apply NoDup_app in B4 as (Hl0 & Hdisj & _).
  apply (good_set k r _ scopes u _ sp _ Hg); cbn.
  - intros j Hj. unfold same_bank. cbn. rewrite update_ne by done. auto 10.
  - split; cbn; rewrite ?update_eq; try done.
    + intros reg Hr [[= ->]|?]%elem_of_cons; [|by apply (B5 reg); [apply elem_of_app; left|]].
      apply (Hdisj reg0); [done|by left].
    + intros reg [[= ->]|?]%elem_of_cons; [done|by apply B6].
  - rewrite update_eq. eapply nested_pool; [exact Hn| |].
    + intros reg Hr. apply nested_level in Hn. apply Hn, elem_of_app. by left.
    + intros top Htop. rewrite length_app in Hlt. cbn in Hlt.
      destruct scopes as [|scope outer]; [done|]. injection Htop as <-. cbn in Hbase, Hlt.
      split; [lia|]. by rewrite take_app_le by lia.
  - constructor; [by apply B5|apply Hg].
  - apply Hg.
  - intros j reg Hj. rewrite elem_of_cons. split; [intros [[= -> _]|]; done|by right].
  - done.
Qed.

(** A spill slot. *)
Lemma good_spill r r' scopes u sp k slot :
  good (NewConfig (MkScopeStack r scopes) u sp) → bank k → allocSpill r k = inr (r', slot) →
  OverflowErr r' = None →
  good (NewConfig (MkScopeStack r' scopes) u ((k, slot) :: sp)).
Proof.
  intros Hg Hk Halloc Hov. unfold allocSpill in Halloc. revert Halloc. case_if.
  { intros [= <- _]. destruct (OverflowErr r) eqn:Eo; [by rewrite Eo in Hov|done]. }
  case_if; [done|]. bool_hyps. intros [= <- <-].
  destruct (gd_bank _ Hg k Hk) as [B1 B2 B3 B4 B5 B6 B7 B8 B9]. cbn [stack allocator used slots] in *.
  change maxSpillSlotsPerBank with 65536 in *.
  rewrite (wrapU_id 16) by (unfold isU; lia). rewrite (wrapU_id 32) by (unfold isU; lia).
  assert (Hfresh : (k, nextSpillSlot r k) ∉ sp) by (intros Hin; apply B9 in Hin; lia).
  rewrite update_eq. set (peaks := if _ <? _ then _ else _).
  assert (Hpeak : nextSpillSlot r k + 1 <= peaks k <= 65536 ∧ ∀ j, j ≠ k → peaks j = peakSpillSlot r j).
  { subst peaks. case_if; bool_hyps.
    - rewrite update_eq. split; [lia|]. intros j Hj. by rewrite update_ne.
    - split; [lia|done]. }
  destruct Hpeak as [Hpk Hpj].
  apply (good_set k r _ scopes u _ sp _ Hg); cbn.
  - intros j Hj. unfold same_bank. cbn. rewrite update_ne, Hpj by done. auto 10.
  - split; cbn; rewrite ?update_eq; try done; try lia; [change maxSpillSlotsPerBank with 65536; lia|].
    intros slot [[= ->]|Hin]%elem_of_cons; [lia|]. apply B9 in Hin. lia.
  - rewrite update_eq. eapply nested_raise; [exact (gd_nested _ Hg k Hk)|done|cbn; lia].
  - apply Hg.
  - constructor; [done|apply Hg].
  - done.
  - intros j slot Hj. rewrite elem_of_cons. split; [intros [[= -> _]|]; done|by right].
Qed.

(** *** Binding a variable *)

Lemma bound_bind top outer name loc l :
  Vars top !! name = None →
  bound (bindInnermost (top :: outer) name loc) l ↔ l = loc ∨ bound (top :: outer) l.
Proof.
  intros Hnone. cbn [bindInnermost]. rewrite !bound_cons. cbn [Vars]. split.
  - intros [[n Hn]|]; [|auto]. destruct (decide (name = n)) as [->|Hne].
    + rewrite lookup_insert_eq in Hn. injection Hn as <-. auto.
    + rewrite lookup_insert_ne in Hn by done. right. left. eauto.
  - intros [->|[[n Hn]|]]; [left; exists name; by rewrite lookup_insert_eq| |auto].
    left. exists n. rewrite lookup_insert_ne; [done|]. congruence.
Qed.

Lemma nested_bind k nxt pl sp scopes name loc :
  nested k nxt pl sp scopes →
  (∀ top, head scopes = Some top → ∀ old, Vars top !! name = Some old → vlKind old = k →
    IsSpilled old = false → vlRegister old ∉ pl) →
  (vlKind loc = k → IsSpilled loc = false → 0 <= vlRegister loc < nxt) →
  (vlKind loc = k → IsSpilled loc = true → 0 <= SpillSlot loc < sp) →
  nested k nxt pl sp (bindInnermost scopes name loc).
Proof.
  intros Hn Hold Hreg Hslot. inversion Hn as [|? ? ? top outer [Hv Hs Hp] Hr Hlen Hsl Hn']; subst; [done|].
  assert (Hsub : ∀ l, bound (bindInnermost (top :: outer) name loc) l → l = loc ∨ bound (top :: outer) l).
  { intros l. cbn [bindInnermost]. rewrite !bound_cons. cbn [Vars].
    intros [[n Hl]|]; [|auto]. destruct (decide (name = n)) as [->|Hne].
    - rewrite lookup_insert_eq in Hl. injection Hl as <-. auto.
    - rewrite lookup_insert_ne in Hl by done. right. left. eauto. }
  constructor; cbn; try done. split.
  - intros l [->|Hb]%Hsub Hk Hsp; auto.
  - intros l [->|Hb]%Hsub Hk Hsp; auto.
  - intros reg Hin. destruct (Hp reg Hin) as (l & Hb & Hk & Hsp & Hreg'). exists l. split; [|done].
    cbn [bindInnermost]. rewrite bound_cons in Hb |- *. cbn [Vars].
    destruct Hb as [[n Hl]|Hb]; [left|by right].
    destruct (decide (name = n)) as [->|Hne]; [|exists n; by rewrite lookup_insert_ne].
    exfalso. apply (Hold top eq_refl l Hl Hk Hsp). by rewrite Hreg'.
Qed.

(** The innermost scope has no register of a live variable to lose. *)
Definition keeps_pool (s : ScopeStack) (u : list (RegisterKind * Z)) (name : string) : Prop :=
  ∀ top, head (Scopes s) = Some top → ∀ old, Vars top !! name = Some old →
    IsSpilled old = true ∨ (vlKind old, vlRegister old) ∈ u.

Lemma good_bind s u sp name loc :
  good (NewConfig s u sp) → bank (vlKind loc) → keeps_pool s u name →
  (IsSpilled loc = false → (vlKind loc, vlRegister loc) ∈ u) →
  (IsSpilled loc = true → (vlKind loc, SpillSlot loc) ∈ sp) →
  good (NewConfig (MkScopeStack (allocator s) (bindInnermost (Scopes s) name loc)) u sp).
Proof.
  intros Hg Hk Hkeep Hreg Hslot. pose proof Hg as [Hu Hsp Hb Hbank Hn].
  cbn [stack allocator used slots Scopes] in *. split; cbn [stack allocator used slots Scopes]; try done.
  - intros l. destruct (Scopes s) as [|top outer]; [apply Hb|]. intros Hl.
    cbn [bindInnermost] in Hl. rewrite bound_cons in Hl. cbn [Vars] in Hl.
    destruct Hl as [[n Hl]|Hl]; [|apply Hb; rewrite bound_cons; by right].
    destruct (decide (name = n)) as [->|Hne].
    + rewrite lookup_insert_eq in Hl. by injection Hl as <-.
    + rewrite lookup_insert_ne in Hl by done. apply Hb. rewrite bound_cons. eauto.
  - intros j Hj. apply nested_bind; [by apply Hn| | |].
    + intros top Htop old Hold Hkind Hsp' Hin.
      destruct (Hkeep top Htop old Hold) as [?|Hin']; [congruence|]. subst j.
      by apply (bk_free _ _ _ _ (Hbank _ Hj) (vlRegister old)).
    + intros <- Hs. by apply (bk_used _ _ _ _ (Hbank _ Hj)), Hreg.
    + intros <- Hs. by apply (bk_slots _ _ _ _ (Hbank _ Hj)), Hslot.
Qed.

(** *** The steps *)

Lemma good_push s u sp : good (NewConfig s u sp) → good (NewConfig (PushScope s) u sp).
Proof.
  intros [Hu Hsp Hb Hbank Hn]. split; cbn [stack allocator used slots Scopes PushScope] in *; try done.
  - intros loc. rewrite bound_cons. cbn [Vars]. intros [[name Hl]|]; [|by apply Hb].
    by rewrite lookup_empty in Hl.
  - intros k Hk. destruct (Hbank k Hk). apply nested_push; cbn; try done; [by apply Hn|lia|lia].
Qed.

Lemma find_None_banks (P : RegisterKind → bool) k :
  find P allRegisterKinds = None → bank k → P k = false.
Proof.
  intros Hf Hk. apply (find_none _ _ Hf). by apply list_elem_of_In, elem_allRegisterKinds.
Qed.

Lemma below_spec a l p : p ∈ below a l ↔ p ∈ l ∧ p.2 < a p.1.
Proof. unfold below. rewrite list_elem_of_filter. tauto. Qed.

Lemma NoDup_below a l : NoDup l → NoDup (below a l).
Proof. apply NoDup_filter. Qed.

Lemma good_pop s s' u sp :
  good (NewConfig s u sp) → PopScope s = inr s' → Scopes s ≠ [] →
  good (NewConfig s' (below (next s') u) (below (spill s') sp)).
Proof.
  intros [Hu Hsp Hb Hbank Hn] Hpop Hne. cbn [stack allocator used slots] in *.
  unfold PopScope in Hpop. destruct (Scopes s) as [|top outer] eqn:Es; [done|]. clear Hne.
  unfold Restore in Hpop. destruct (find _ _) as [?|] eqn:Hf1 in Hpop; [done|].
  unfold truncateRecycled in Hpop. destruct (find _ _) as [?|] eqn:Hf2 in Hpop; [done|].
  injection Hpop as <-. split; cbn [stack allocator used slots Scopes].
  - by apply NoDup_below.
  - by apply NoDup_below.
  - intros loc Hl. apply Hb. rewrite bound_cons. by right.
  - intros k Hk. destruct (Hbank k Hk) as [B1 B2 B3 B4 B5 B6 B7 B8 B9]. cbn.
    specialize (Hn k Hk). inversion Hn as [|? ? ? ? ? Hl Hr Hlen Hsl Hn']; subst.
    split; cbn; try done; try lia.
    + rewrite <- (take_drop (Z.to_nat (savedRecycledLengths top k)) (pool s k)) in B4.
      by apply NoDup_app in B4 as [? _].
    + intros reg Hin [Hin' _]%below_spec. apply (B5 reg); [|done].
      rewrite <- (take_drop (Z.to_nat (savedRecycledLengths top k))). apply elem_of_app. by left.
    + intros reg [Hin Hlt]%below_spec. cbn in Hlt. apply B6 in Hin. lia.
    + intros slot [Hin Hlt]%below_spec. cbn in Hlt. apply B9 in Hin. lia.
  - intros k Hk. specialize (Hn k Hk). cbn.
    inversion Hn as [|? ? ? ? ? Hl Hr Hlen Hsl Hn']; subst.
    eapply nested_raise; [exact Hn'|lia|done].
Qed.

Lemma scopes_bind_nil scopes name loc : scopes = [] → bindInnermost scopes name loc = [].
Proof. by intros ->. Qed.

Lemma good_declare s s' u sp name k loc :
  good (NewConfig s u sp) → bank k → DeclareVar s name k = inr (s', loc) →
  (∀ top, head (Scopes s) = Some top → Vars top !! name = None) → OverflowErrorOf s' = None →
  good (if IsSpilled loc then NewConfig s' u ((k, SpillSlot loc) :: sp)
        else NewConfig s' ((k, vlRegister loc) :: u) sp).
Proof.
  intros Hg Hk Hdecl Hfresh Hov. unfold DeclareVar in Hdecl. cbv zeta in Hdecl.
  assert (Hkeep : ∀ r u, keeps_pool (MkScopeStack r (Scopes s)) u name).
  { intros r u' top Htop old Hold. by rewrite (Hfresh top Htop) in Hold. }
  assert (Hg' : good (NewConfig (MkScopeStack (allocator s) (Scopes s)) u sp)) by by destruct s.
  assert (Hbase : 0 <= baseFreeIndexOf (Scopes s) k).
  { pose proof (gd_nested _ Hg k Hk) as Hn. cbn in Hn. destruct Hn; cbn; [done|lia]. }
  destruct ((_ <? zlen (pool s k)) || negb (needsSpill (allocator s) k)).
  - destruct (allocOrRecycle (allocator s) k _) as [r' register] eqn:Ea. injection Hdecl as <- <-.
    cbn [IsSpilled registerLocation vlRegister]. unfold OverflowErrorOf in Hov. cbn in Hov.
    assert (good (NewConfig (MkScopeStack r' (Scopes s)) ((k, register) :: u) sp)) as Hgood.
    { destruct (Z.ltb_spec (baseFreeIndexOf (Scopes s) k) (zlen (pool s k))) as [Hlt|Hge].
      - by eapply good_take.
      - unfold allocOrRecycle in Ea. rewrite (proj2 (Z.ltb_ge _ _)) in Ea by done.
        by eapply good_alloc. }
    apply (good_bind _ _ _ name (registerLocation k register) Hgood Hk (Hkeep r' _)); [|done].
    intros _. by left.
  - destruct (allocSpill (allocator s) k) as [|[r' slot]] eqn:Ea; [done|]. injection Hdecl as <- <-.
    cbn [IsSpilled spillLocation SpillSlot]. unfold OverflowErrorOf in Hov. cbn in Hov.
    pose proof (good_spill _ _ _ _ _ _ _ Hg' Hk Ea Hov) as Hgood.
    apply (good_bind _ _ _ name (spillLocation k slot) Hgood Hk (Hkeep r' _)); [done|].
    intros _. by left.
Qed.

Lemma good_free s u u' sp k :
  good (NewConfig s u sp) → bank k → u ≡ₚ (k, next s k - 1) :: u' → floor s k < next s k →
  (∀ top, head (Scopes s) = Some top → savedRegisters top k < next s k) →
  (∀ loc, bound (Scopes s) loc → vlKind loc = k → IsSpilled loc = false →
    vlRegister loc ≠ next s k - 1) →
  good (NewConfig (MkScopeStack (FreeTemp (allocator s) k (next s k - 1)) (Scopes s)) u' sp).
Proof.
  intros Hg Hk Hu Hfl Htop Hvars. pose proof (gd_bank _ Hg k Hk) as [B1 B2 B3 B4 B5 B6 B7 B8 B9].
  pose proof (gd_nested _ Hg k Hk) as Hn. pose proof (gd_used _ Hg) as Hnd. cbn [stack allocator used slots Scopes] in *.
  assert (Hin0 : (k, next s k - 1) ∈ u) by (rewrite Hu; by left). apply B6 in Hin0 as H0.
  assert (Hw : wrapU 32 (next s k - 1) = next s k - 1) by (apply wrapU_id; unfold isU; lia).
  rewrite Hu in Hnd. apply NoDup_cons in Hnd as [Hnot Hnd].
  assert (Hg' : good (NewConfig (MkScopeStack (allocator s) (Scopes s)) u sp)) by by destruct s.
  apply (good_set k (allocator s) _ (Scopes s) u _ sp _ Hg'); unfold FreeTemp; rewrite ?Hw; cbn.
  - intros j Hj. unfold same_bank. cbn. rewrite update_ne by done. auto 10.
  - split; cbn; rewrite ?update_eq; try done; try lia.
    + intros reg Hr Hin. apply (B5 reg Hr). rewrite Hu. by right.
    + intros reg Hin. assert ((k, reg) ∈ u) as Hin' by (rewrite Hu; by right). apply B6 in Hin'.
      destruct (decide (reg = next s k - 1)) as [->|]; [done|lia].
  - rewrite update_eq. apply (nested_counters k (next s k) _ _ (spill s k)); [done| | |].
    + intros loc Hl Hkind Hs. pose proof (Hvars loc Hl Hkind Hs).
      apply nested_level in Hn. destruct (lv_vars _ _ _ _ _ Hn loc Hl Hkind Hs). lia.
    + intros loc Hl Hkind Hs. apply nested_level in Hn. by apply (lv_slots _ _ _ _ _ Hn loc Hl Hkind Hs).
    + intros top Htop'. specialize (Htop top Htop'). split; [lia|].
      by destruct (nested_top _ _ _ _ _ _ Hn Htop') as (_ & _ & _ & ?).
  - done.
  - apply Hg.
  - intros j reg Hj. rewrite Hu, elem_of_cons. split; [by right|]. intros [[= -> _]|]; done.
  - done.
Qed.

Lemma good_recycle s u u' sp name loc :
  good (NewConfig s u sp) → LookupVar s name = Some loc → IsSpilled loc = false →
  u ≡ₚ (vlKind loc, vlRegister loc) :: u' →
  good (NewConfig (MkScopeStack (RecycleRegister (allocator s) (vlKind loc) (vlRegister loc))
    (Scopes s)) u' sp).
Proof.
  intros Hg Hl Hs Hu. apply lookup_bound in Hl. pose proof (gd_banks _ Hg _ Hl) as Hk.
  pose proof (gd_bank _ Hg _ Hk) as [B1 B2 B3 B4 B5 B6 B7 B8 B9].
  pose proof (gd_nested _ Hg _ Hk) as Hn. pose proof (gd_used _ Hg) as Hnd.
  cbn [stack allocator used slots Scopes] in *.
  assert (Hin0 : (vlKind loc, vlRegister loc) ∈ u) by (rewrite Hu; by left).
  rewrite Hu in Hnd. apply NoDup_cons in Hnd as [Hnot Hnd].
  assert (Hg' : good (NewConfig (MkScopeStack (allocator s) (Scopes s)) u sp)) by by destruct s.
  apply (good_set (vlKind loc) (allocator s) _ (Scopes s) u _ sp _ Hg'); unfold RecycleRegister; cbn.
  - intros j Hj. unfold same_bank. cbn. rewrite update_ne by done. auto 10.
  - split; cbn; rewrite ?update_eq; try done.
    + apply NoDup_app. split; [done|]. split; [|apply NoDup_singleton].
      intros reg Hin ->%list_elem_of_singleton. by apply (B5 (vlRegister loc)).
    + intros reg [Hin| ->%list_elem_of_singleton]%elem_of_app; [|done].
      intros Hin'. apply (B5 reg Hin). rewrite Hu. by right.
    + intros reg Hin. apply B6. rewrite Hu. by right.
  - rewrite update_eq. apply (nested_pool _ _ (pool s (vlKind loc))); [done| |].
    + intros reg [Hin| ->%list_elem_of_singleton]%elem_of_app; [|by exists loc].
      apply nested_level in Hn. by apply (lv_pool _ _ _ _ _ Hn).
    + intros top Htop. destruct (nested_top _ _ _ _ _ _ Hn Htop) as (_ & Hlen & _).
      rewrite length_app. split; [lia|]. by rewrite take_app_le by lia.
  - done.
  - apply Hg.
  - intros j reg Hj. rewrite Hu, elem_of_cons. split; [by right|]. intros [[= -> _]|]; done.
  - done.
Qed.

(** *** Replacing a location *)

(** Same place, other flags. *)
Definition same_place (l l' : VarLocation) : Prop :=
  vlKind l = vlKind l' ∧ vlRegister l = vlRegister l' ∧ IsSpilled l = IsSpilled l' ∧
  SpillSlot l = SpillSlot l'.

Lemma same_place_captured l : same_place l (setCaptured l).
Proof. by split. Qed.

Lemma bound_replace scopes name old loc l :
  lookupIn scopes name = Some old → same_place old loc →
  (bound (replaceIn scopes name loc) l → ∃ l', bound scopes l' ∧ same_place l' l) ∧
  (bound scopes l → ∃ l', bound (replaceIn scopes name loc) l' ∧ same_place l l').
Proof.
  intros Hl Hsame. assert (Hrefl : ∀ l, same_place l l) by by split.
  induction scopes as [|scope scopes IH]; [done|]. cbn [lookupIn replaceIn] in *.
  destruct (Vars scope !! name) as [cur|] eqn:E; setoid_rewrite bound_cons; cbn [Vars].
  - injection Hl as ->. split.
    + intros [[n Hn]|Hb]; [|exists l; split; [by right|done]]. destruct (decide (name = n)) as [->|Hne].
      * rewrite lookup_insert_eq in Hn. injection Hn as <-. exists old. split; [|done]. left. eauto.
      * rewrite lookup_insert_ne in Hn by done. exists l. split; [|done]. left. eauto.
    + intros [[n Hn]|Hb]; [|exists l; split; [by right|done]]. destruct (decide (name = n)) as [->|Hne].
      * rewrite E in Hn. injection Hn as ->. exists loc. split; [|done].
        left. exists n. by rewrite lookup_insert_eq.
      * exists l. split; [|done]. left. exists n. by rewrite lookup_insert_ne.
  - destruct (IH Hl) as [IH1 IH2]. split.
    + intros [[n Hn]|Hb]; [exists l; split; [left; eauto|done]|].
      destruct (IH1 Hb) as (l' & ? & ?). exists l'. split; [by right|done].
    + intros [[n Hn]|Hb]; [exists l; split; [left; eauto|done]|].
      destruct (IH2 Hb) as (l' & ? & ?). exists l'. split; [by right|done].
Qed.

Lemma level_replace k nxt pl sp scopes name old loc :
  level_ok k nxt pl sp scopes → lookupIn scopes name = Some old → same_place old loc →
  level_ok k nxt pl sp (replaceIn scopes name loc).
Proof.
  intros [Hv Hs Hp] Hl Hsame. split.
  - intros l Hb Hk Hsp. destruct (bound_replace scopes name old loc l Hl Hsame) as [H _].
    destruct (H Hb) as (l' & Hb' & E1 & E2 & E3 & E4). rewrite <- E2. apply Hv; congruence.
  - intros l Hb Hk Hsp. destruct (bound_replace scopes name old loc l Hl Hsame) as [H _].
    destruct (H Hb) as (l' & Hb' & E1 & E2 & E3 & E4). rewrite <- E4. apply Hs; congruence.
  - intros reg Hin. destruct (Hp reg Hin) as (l & Hb & Hk & Hsp & Hreg).
    destruct (bound_replace scopes name old loc l Hl Hsame) as [_ H].
    destruct (H Hb) as (l' & Hb' & E1 & E2 & E3 & E4). exists l'. split; [done|].
    split_and!; congruence.
Qed.

Lemma nested_replace k nxt pl sp scopes name old loc :
  nested k nxt pl sp scopes → lookupIn scopes name = Some old → same_place old loc →
  nested k nxt pl sp (replaceIn scopes name loc).
Proof.
  intros Hn Hl Hsame. induction Hn as [|nxt pl sp scope outer Hlevel Hr Hlen Hsl Hn IH]; [done|].
  pose proof (level_replace _ _ _ _ _ _ _ _ Hlevel Hl Hsame) as Hlevel'.
  cbn [replaceIn lookupIn] in *. destruct (Vars scope !! name) eqn:E.
  - by constructor.
  - constructor; try done. by apply IH.
Qed.

Lemma good_capture s u sp name : good (NewConfig s u sp) → good (NewConfig (MarkCaptured s name) u sp).
Proof.
  intros Hg. unfold MarkCaptured. destruct (LookupVar s name) as [loc|] eqn:Hl; [|done].
  pose proof (lookup_bound _ _ _ Hl) as Hb. pose proof (gd_banks _ Hg _ Hb) as Hk.
  assert (Hg1 : good (NewConfig (MkScopeStack (if IsSpilled loc then allocator s
    else ReserveCaptured (allocator s) (vlKind loc) (vlRegister loc)) (Scopes s)) u sp)).
  { assert (Hg' : good (NewConfig (MkScopeStack (allocator s) (Scopes s)) u sp)) by by destruct s.
    destruct (IsSpilled loc) eqn:Es; [done|].
    pose proof (gd_bank _ Hg _ Hk) as [B1 B2 B3 B4 B5 B6 B7 B8 B9].
    pose proof (gd_nested _ Hg _ Hk) as Hn. cbn [stack allocator used slots Scopes] in *.
    destruct (lv_vars _ _ _ _ _ (nested_level _ _ _ _ _ Hn) loc Hb eq_refl Es) as [? ?].
    apply (good_set (vlKind loc) (allocator s) _ (Scopes s) u _ sp _ Hg'); unfold ReserveCaptured; cbn;
      try done; [| |apply Hg|apply Hg].
    - intros j Hj. unfold same_bank. cbn. rewrite update_ne by done. auto 10.
    - split; cbn; rewrite ?update_eq; try done. lia. }
  destruct Hg1 as [Hu Hsp Hbanks Hbank Hn]. cbn [stack allocator used slots Scopes] in *.
  split; cbn [stack allocator used slots Scopes]; try done.
  - intros l Hb'. destruct (bound_replace _ _ _ _ l Hl (same_place_captured loc)) as [H _].
    destruct (H Hb') as (l' & Hl' & Hkind & _). rewrite <- Hkind. by apply Hbanks.
  - intros k Hk'. eapply nested_replace; [by apply Hn|exact Hl|apply same_place_captured].
Qed.

Lemma good_update s u sp name old loc top :
  good (NewConfig s u sp) → head (Scopes s) = Some top → Vars top !! name = Some old →
  IsSpilled old = true ∨ (vlKind old, vlRegister old) ∈ u →
  IsSpilled loc = false → (vlKind loc, vlRegister loc) ∈ u → bank (vlKind loc) →
  good (NewConfig (fst (UpdateVar s name loc)) u sp).
Proof.
  intros Hg Htop Hold Hor Hs Hin Hk. unfold UpdateVar, LookupVar.
  assert (Hbind : good (NewConfig (MkScopeStack (allocator s) (bindInnermost (Scopes s) name loc)) u sp)).
  { apply good_bind; try done; [|congruence]. intros top' Htop' old' Hold'.
    rewrite Htop in Htop'. injection Htop' as <-. rewrite Hold in Hold'. by injection Hold' as <-. }
  destruct (Scopes s) as [|scope outer] eqn:Es; [done|]. injection Htop as ->.
  cbn [lookupIn replaceIn bindInnermost] in *. by rewrite Hold.
Qed.

Lemma good_reserve s u sp k count :
  good (NewConfig s u sp) → bank k → 0 <= count <= 256 →
  good (NewConfig (MkScopeStack (ReserveLow (allocator s) k count) (Scopes s)) u sp).
Proof.
  intros Hg Hk Hc. pose proof (gd_bank _ Hg k Hk) as [B1 B2 B3 B4 B5 B6 B7 B8 B9].
  pose proof (gd_nested _ Hg k Hk) as Hn. cbn [stack allocator used slots Scopes] in *.
  assert (Hg' : good (NewConfig (MkScopeStack (allocator s) (Scopes s)) u sp)) by by destruct s.
  apply (good_set k (allocator s) _ (Scopes s) u _ sp _ Hg'); try done; try apply Hg.
  - intros j Hj. unfold ReserveLow, same_bank. repeat case_if; cbn; rewrite ?update_ne by done; auto 10.
  - assert (Hused : ∀ reg, (k, reg) ∈ u → 0 <= reg < Z.max (next s k) count).
    { intros reg Hin%B6. lia. }
    unfold ReserveLow. repeat case_if; bool_hyps; split; cbn in *; rewrite ?update_eq; try done; try lia.
    all: intros reg Hin; apply Hused in Hin; lia.
  - unfold ReserveLow. repeat case_if; bool_hyps; cbn in *; rewrite ?update_eq; try done;
      (eapply nested_raise; [exact Hn|lia|done]).
Qed.

Lemma good_ensure s u sp k count :
  good (NewConfig s u sp) → bank k →
  good (NewConfig (MkScopeStack (EnsureMin (allocator s) k count) (Scopes s)) u sp).
Proof.
  intros Hg Hk. pose proof (gd_bank _ Hg k Hk) as [B1 B2 B3 B4 B5 B6 B7 B8 B9].
  pose proof (gd_nested _ Hg k Hk) as Hn. cbn [stack allocator used slots Scopes] in *.
  assert (Hg' : good (NewConfig (MkScopeStack (allocator s) (Scopes s)) u sp)) by by destruct s.
  apply (good_set k (allocator s) _ (Scopes s) u _ sp _ Hg'); try done; try apply Hg.
  - intros j Hj. unfold EnsureMin, same_bank. repeat case_if; cbn; rewrite ?update_ne by done; auto 10.
  - unfold EnsureMin. case_if; bool_hyps; [|done]. split; cbn; rewrite ?update_eq; try done; lia.
  - unfold EnsureMin. case_if; done.
Qed.

(** *** Watermarks *)

Lemma keepVar_spec r loc k :
  let r' := keepVar r loc in
  OverflowErr r' = OverflowErr r ∧ recycledRegisters r' = recycledRegisters r ∧
  nextSpillSlot r' = nextSpillSlot r ∧ peakSpillSlot r' = peakSpillSlot r ∧
  capturedFloor r' = capturedFloor r ∧
  nextRegister r' k =
    (if negb (IsSpilled loc) && (vlKind loc =? k) then Z.max (nextRegister r k) (vlRegister loc + 1)
     else nextRegister r k) ∧
  (nextRegister r k <= peakRegister r k → nextRegister r' k <= peakRegister r' k).
Proof.
  cbn zeta. unfold keepVar. destruct (IsSpilled loc); cbn [negb andb]; [done|].
  destruct (Z.eqb_spec (vlKind loc) k) as [<-|Hne].
  - case_if; bool_hyps; [|split_and!; try done; lia]. unfold raisePeak. cbn. rewrite update_eq.
    case_if; bool_hyps; cbn; rewrite ?update_eq; split_and!; try done; lia.
  - case_if; bool_hyps; [|done]. unfold raisePeak. cbn.
    case_if; bool_hyps; cbn; rewrite ?update_ne by congruence; done.
Qed.

Lemma keepVars_spec locs r k M :
  (∀ loc, loc ∈ locs → vlKind loc = k → IsSpilled loc = false → vlRegister loc + 1 <= M) →
  nextRegister r k <= M → nextRegister r k <= peakRegister r k →
  let r' := foldl keepVar r locs in
  (OverflowErr r' = OverflowErr r ∧ recycledRegisters r' = recycledRegisters r ∧
   nextSpillSlot r' = nextSpillSlot r ∧ peakSpillSlot r' = peakSpillSlot r ∧
   capturedFloor r' = capturedFloor r) ∧
  nextRegister r k <= nextRegister r' k <= M ∧ nextRegister r' k <= peakRegister r' k ∧
  ∀ loc, loc ∈ locs → vlKind loc = k → IsSpilled loc = false → vlRegister loc < nextRegister r' k.
Proof.
  revert r. induction locs as [|loc locs IH]; intros r Hlocs HM Hpk; cbn [foldl].
  - split; [done|]. split; [lia|]. split; [done|]. intros loc Hin. by apply not_elem_of_nil in Hin.
  - destruct (keepVar_spec r loc k) as (E1 & E2 & E3 & E4 & E5 & E6 & E7). specialize (E7 Hpk).
    assert (HM' : nextRegister r k <= nextRegister (keepVar r loc) k <= M).
    { rewrite E6. case_if; bool_hyps; [|lia]. pose proof (Hlocs loc ltac:(by left) ltac:(done) ltac:(done)). lia. }
    destruct (IH (keepVar r loc)) as ((F1 & F2 & F3 & F4 & F5) & F6 & F7 & F8); [|lia|done|].
    { intros l Hl. apply Hlocs. by right. }
    split; [split_and!; congruence|]. split; [lia|]. split; [done|].
    intros l [->|Hl]%elem_of_cons Hk Hs; [|by apply F8].
    rewrite Hs, (proj2 (Z.eqb_eq _ _) Hk) in E6. cbn in E6. lia.
Qed.

Lemma good_watermark s s' u sp saved :
  good (NewConfig s u sp) → RestoreWatermark s saved = inr s' →
  (∀ k, bank k → 0 <= saved k) →
  (∀ top k, head (Scopes s) = Some top → bank k → savedRegisters top k <= saved k) →
  good (NewConfig s' (below (next s') u) sp) ∧
  ∀ loc, bound (Scopes s) loc → IsSpilled loc = false → vlRegister loc < next s' (vlKind loc).
Proof.
  intros Hg Hw H0 Htop. unfold RestoreWatermark, Restore in Hw.
  destruct (find _ _) as [?|] eqn:Hf in Hw; [done|]. injection Hw as <-.
  pose proof Hg as [Hu Hsp Hb Hbank Hn]. cbn [stack allocator used slots Scopes] in *.
  set (r := setNext (allocator s) (λ i, Z.max (saved i) (floor s i))).
  assert (Hspec : ∀ k, bank k → let r' := foldl keepVar r (scopeLocations (Scopes s)) in
    (OverflowErr r' = OverflowErr r ∧ recycledRegisters r' = recycledRegisters r ∧
     nextSpillSlot r' = nextSpillSlot r ∧ peakSpillSlot r' = peakSpillSlot r ∧
     capturedFloor r' = capturedFloor r) ∧
    nextRegister r k <= nextRegister r' k <= next s k ∧ nextRegister r' k <= peakRegister r' k ∧
    ∀ loc, loc ∈ scopeLocations (Scopes s) → vlKind loc = k → IsSpilled loc = false →
      vlRegister loc < nextRegister r' k).
  { intros k Hk. pose proof (find_None_banks _ k Hf Hk) as Hle. cbn in Hle. bool_hyps.
    destruct (Hbank k Hk). apply keepVars_spec; cbn; [|lia|lia].
    intros loc Hl Hkind Hs. apply bound_locations in Hl.
    destruct (lv_vars _ _ _ _ _ (nested_level _ _ _ _ _ (Hn k Hk)) loc Hl Hkind Hs). lia. }
  set (r' := foldl keepVar r _) in *. cbn zeta in Hspec. split; [|].
  - split; cbn [stack allocator used slots Scopes]; try done.
    + by apply NoDup_below.
    + intros k Hk. destruct (Hspec k Hk) as ((F1 & F2 & F3 & F4 & F5) & F6 & F7 & F8).
      destruct (Hbank k Hk) as [B1 B2 B3 B4 B5 B6 B7 B8 B9]. cbn in F6.
      split; rewrite ?F2, ?F3, ?F4, ?F5; cbn; try done; try lia.
      * intros reg Hin [Hin' _]%below_spec. by apply (B5 reg).
      * intros reg [Hin Hlt]%below_spec. cbn in Hlt. apply B6 in Hin. lia.
    + intros k Hk. destruct (Hspec k Hk) as ((F1 & F2 & F3 & F4 & F5) & F6 & F7 & F8). cbn in F6.
      rewrite F2, F3. cbn. apply (nested_counters k (next s k) _ _ (spill s k)); [by apply Hn| | |].
      * intros loc Hl Hkind Hs. apply bound_locations in Hl. by apply F8.
      * intros loc Hl Hkind Hs.
        by apply (lv_slots _ _ _ _ _ (nested_level _ _ _ _ _ (Hn k Hk)) loc Hl Hkind Hs).
      * intros top Ht. pose proof (Htop top k Ht Hk).
        destruct (nested_top _ _ _ _ _ _ (Hn k Hk) Ht) as (_ & _ & ?). lia.
  - intros loc Hl Hs. destruct (Hspec _ (Hb loc Hl)) as (_ & _ & _ & F8).
    apply F8; [by apply bound_locations|done|done].
Qed.

(** *** Overflow is final *)

Lemma Alloc_overflow r k : OverflowErr (fst (Alloc r k)) = None → OverflowErr r = None.
Proof.
  unfold Alloc, raisePeak. cbn. repeat (case_if; cbn); try done; by destruct (OverflowErr r).
Qed.

Lemma allocOrRecycle_overflow r k base : OverflowErr (fst (allocOrRecycle r k base)) = None → OverflowErr r = None.
Proof.
  unfold allocOrRecycle. destruct (base <? zlen (recycledRegisters r k)); [|apply Alloc_overflow].
  unfold raisePeak. repeat (case_if; cbn); done.
Qed.

Lemma keepVars_overflow locs r : OverflowErr (foldl keepVar r locs) = OverflowErr r.
Proof.
  revert r. induction locs as [|loc locs IH]; intros r; [done|]. cbn [foldl]. rewrite IH.
  by destruct (keepVar_spec r loc 0) as (-> & _).
Qed.

Lemma scope_step_overflow c c' :
  scope_step c c' → OverflowErrorOf (stack c') = None → OverflowErrorOf (stack c) = None.
Proof.
  unfold OverflowErrorOf. destruct 1 as [s|s s' u sp Hpop _|s s' u sp name k loc _ Hd _|s u sp k r register _ Ha
    |s|s|s u sp name|s u sp name old loc top|s u sp k count|s u sp k count|s s' u sp saved Hw]; cbn; try done.
  - unfold PopScope in Hpop. destruct (Scopes s) as [|top outer]; [by injection Hpop as ->|].
    unfold Restore, truncateRecycled in Hpop. destruct (find _ _) in Hpop; [done|].
    destruct (find _ _) in Hpop; [done|]. by injection Hpop as <-.
  - unfold DeclareVar in Hd. cbv zeta in Hd.
    destruct ((_ <? zlen (pool s k)) || negb (needsSpill (allocator s) k)).
    + pose proof (allocOrRecycle_overflow (allocator s) k (baseFreeIndexOf (Scopes s) k)) as Ho.
      destruct (allocOrRecycle (allocator s) k _) as [r' register]. injection Hd as <- <-. exact Ho.
    + unfold allocSpill in Hd. destruct (IsTypedSliceKind k).
      * injection Hd as <- <-. cbn. destruct (OverflowErr (allocator s)) eqn:Eo; [by rewrite Eo|done].
      * destruct (_ <=? _) in Hd; [done|]. by injection Hd as <- <-.
  - pose proof (Alloc_overflow (allocator s) k) as Ho. unfold AllocTemp in Ha. by rewrite Ha in Ho.
  - unfold MarkCaptured. destruct (LookupVar s name); [|done]. cbn. by case_if.
  - unfold UpdateVar. by destruct (LookupVar s name).
  - unfold ReserveLow. by repeat case_if.
  - unfold EnsureMin. by case_if.
  - unfold RestoreWatermark, Restore in Hw. destruct (find _ _) in Hw; [done|].
    injection Hw as <-. cbn. by rewrite keepVars_overflow.
Qed.

Lemma good_step c c' :
  good c → scope_step c c' → OverflowErrorOf (stack c') = None → good c'.
Proof.
  intros Hg Hstep Hov. destruct Hstep.
  - by apply good_push.
  - by eapply good_pop.
  - eapply good_declare; try done. by destruct (IsSpilled loc).
  - eapply good_alloc; [|done|done|done]. by destruct s.
  - by eapply good_free.
  - by eapply good_recycle.
  - by apply good_capture.
  - by eapply good_update.
  - by apply good_reserve.
  - by apply good_ensure.
  - by eapply good_watermark.
Qed.

Lemma good_new name : good (NewConfig (NewScopeStack name) [] []).
Proof.
  split; cbn [stack allocator used slots Scopes NewScopeStack]; try apply NoDup_nil_2.
  - by intros loc ?%bound_nil.
  - intros k _. split; cbn; unfold zeroBanks; try done; try apply NoDup_nil_2;
      intros reg Hin; by apply not_elem_of_nil in Hin.
  - intros k _. constructor. split; [by intros loc ?%bound_nil..|].
    intros reg Hin. by apply not_elem_of_nil in Hin.
Qed.

Lemma compiles_good name c : compiles name c → OverflowErrorOf (stack c) = None → good c.
Proof.
  induction 1 as [|c c' Hc IH Hstep]; intros Hov; [apply good_new|].
  eapply good_step; [|done|done]. by eapply IH, scope_step_overflow.
Qed.

(** ** What the invariant gives *)

Lemma find_all_banks (P : RegisterKind → bool) :
  (∀ k, bank k → P k = false) → find P allRegisterKinds = None.
Proof.
  intros Hp. destruct (find P allRegisterKinds) as [k|] eqn:E; [|done].
  apply find_some in E as [Hin Ht]. rewrite Hp in Ht; [done|].
  by apply elem_allRegisterKinds, list_elem_of_In.
Qed.



Lemma scope_step_floor c c' k : scope_step c c' → floor (stack c) k <= floor (stack c') k.
Proof.
  destruct 1 as [s|s s' u sp Hpop _|s s' u sp name j loc _ Hd _|s u sp j r register _ Ha
    |s|s|s u sp name|s u sp name old loc top|s u sp j count|s u sp j count|s s' u sp saved Hw]; cbn; try done.
  - unfold PopScope in Hpop. destruct (Scopes s) as [|top outer]; [by injection Hpop as ->|].
    unfold Restore, truncateRecycled in Hpop. destruct (find _ _) in Hpop; [done|].
    destruct (find _ _) in Hpop; [done|]. by injection Hpop as <-.
  - assert (capturedFloor (allocator s') = floor s) as Hf; [|by destruct (IsSpilled loc); cbn; rewrite Hf].
    unfold DeclareVar, allocOrRecycle, allocSpill, Alloc, raisePeak in Hd. revert Hd.
    repeat (case_if || case_match); intros; simplify_eq; done.
  - unfold AllocTemp, Alloc, raisePeak in Ha. injection Ha as <- _.
    repeat (case_if || case_match); done.
  - unfold MarkCaptured. destruct (LookupVar s name) as [loc|]; [|done]. cbn. case_if; [done|].
    unfold ReserveCaptured. cbn. unfold update. case_if; bool_hyps; [subst; lia|done].
  - unfold UpdateVar. by destruct (LookupVar s name).
  - unfold ReserveLow. by repeat case_if.
  - unfold EnsureMin. by case_if.
  - unfold RestoreWatermark, Restore in Hw. destruct (find _ _) in Hw; [done|].
    injection Hw as <-. cbn. set (r := setNext _ _).
    assert (∀ locs r, capturedFloor (foldl keepVar r locs) = capturedFloor r) as ->; [|done].
    intros locs. induction locs as [|loc locs IH]; intros r'; [done|]. cbn [foldl]. rewrite IH.
    by destruct (keepVar_spec r' loc 0) as (_ & _ & _ & _ & -> & _).
Qed.


(** names resolve to the innermost declaration, and leaving a scope undoes
    what it declared. *)
Theorem declarations_shadow s name k s' loc :
  Scopes s ≠ [] → DeclareVar s name k = inr (s', loc) →
  LookupVar s' name = Some loc ∧ (∀ other, other ≠ name → LookupVar s' other = LookupVar s other) ∧
  ∀ s'', PopScope s' = inr s'' → ∀ other, LookupVar s'' other = lookupIn (tail (Scopes s)) other.
Proof.
  intros Hne Hd. assert (Hs' : Scopes s' = bindInnermost (Scopes s) name loc).
  { unfold DeclareVar in Hd. cbv zeta in Hd. repeat (case_match; try done).
    all: injection Hd as <- <-; done. }
  unfold LookupVar. rewrite Hs'. destruct (Scopes s) as [|top outer]; [done|].
  cbn [bindInnermost lookupIn Vars]. split_and!.
  - by rewrite lookup_insert_eq.
  - intros other Ho. by rewrite lookup_insert_ne by congruence.
  - intros s'' Hpop other. unfold PopScope in Hpop. rewrite Hs' in Hpop. cbn [bindInnermost] in Hpop.
    destruct (Restore _ _) in Hpop; [done|]. destruct (truncateRecycled _ _) in Hpop; [done|].
    by injection Hpop as <-.
Qed.

(** ** Recycling a spilled variable *)

(** Declare integer variables named by distinct strings. *)
Fixpoint declareMany (s : ScopeStack) (n : nat) (name : string) : ScopePanic + ScopeStack :=
  match n with
  | O => inr s
  | S n =>
      match DeclareVar s name RegisterInt with
      | inl panic => inl panic
      | inr (s, _) => declareMany s n (String.append "v" name)
      end
  end.

(** A function with 247 integer variables, the last of which dies before one
    more is declared. *)
Definition crowdedFunction : ScopePanic + (ScopeStack * VarLocation * VarLocation) :=
  match declareMany (PushScope (NewScopeStack "f")) 246 "v" with
  | inl panic => inl panic
  | inr s =>
      match DeclareVar s "dying" RegisterInt with
      | inl panic => inl panic
      | inr (s, dying) =>
          let active := trackDeclaredName s "dying" [] in
          let '(s, _) := recycleDeadDeclarations s active (Some {["dying" := 246]}) 246 in
          match DeclareVar s "fresh" RegisterInt with
          | inl panic => inl panic
          | inr (s, fresh) => inr (s, dying, fresh)
          end
      end
  end.

(** C36: a spilled variable that dies gives away the register of a live one.
    Its location has no register, so register 0 of the bank goes to the
    recycled pool, and the next variable of the bank is put in register 0
    although the first variable lives there. *)
Theorem spilled_variable_recycles_register_zero :
  ∃ s dying fresh,
    crowdedFunction = inr (s, dying, fresh) ∧ IsSpilled dying = true ∧ OverflowErrorOf s = None ∧
    LookupVar s "v" = Some fresh ∧ LookupVar s "fresh" = Some fresh ∧
    fresh = registerLocation RegisterInt 0.
Proof.
  assert (match crowdedFunction with
    | inl _ => False
    | inr (s, dying, fresh) => IsSpilled dying = true ∧ OverflowErrorOf s = None ∧
        LookupVar s "v" = Some fresh ∧ LookupVar s "fresh" = Some fresh ∧
        fresh = registerLocation RegisterInt 0
    end) as Hall by (vm_compute; split_and!; reflexivity).
  destruct crowdedFunction as [panic|[[s dying] fresh]]; [done|]. by exists s, dying, fresh.
Qed.

(** ** Promoting a spilled variable *)

(** promoting a spilled general variable gives its new register away.  The
    reloaded copy is freed after the pointer register is allocated, although
    temporaries are freed newest first; in the general bank the register
    released is the pointer's, and the next allocation returns it while the
    variable lives there. *)
Theorem promoted_spill_is_reallocated f s name loc typeIndex :
  LookupVar s name = Some loc → IsSpilled loc = true → IsIndirect loc = false →
  vlKind loc = RegisterGeneral → 0 <= next s RegisterGeneral < 255 →
  ∃ f' s' promoted r,
    promoteToIndirect f s name (Some typeIndex) = (f', s', Some promoted) ∧
    LookupVar s' name = Some promoted ∧
    Alloc (allocator s') RegisterGeneral = (r, vlRegister promoted) ∧ OverflowErr r = OverflowErr (allocator s').
Proof.
  intros Hl Hs Hi Hk Hn. unfold promoteToIndirect. rewrite Hl, Hi, Hs.
  unfold emitReloadIfSpilled. rewrite Hs, Hk. cbn [negb]. set (g := RegisterGeneral) in *.
  assert (Halloc : ∀ r, 0 <= nextRegister r g < 256 → ∃ r', Alloc r g = (r', nextRegister r g) ∧
    nextRegister r' g = nextRegister r g + 1 ∧ OverflowErr r' = OverflowErr r).
  { intros r Hr. unfold Alloc. rewrite (wrapU_id 8) by (unfold isU; lia).
    rewrite (proj2 (Z.ltb_ge _ _)) by (unfold maxRegisterIndex; lia).
    eexists. split; [done|]. unfold raisePeak.
    assert (Hw : wrapU 32 (nextRegister r g + 1) = nextRegister r g + 1) by (apply wrapU_id; unfold isU; lia).
    case_if; cbn [nextRegister setNext setPeak OverflowErr]; by rewrite update_eq. }
  destruct (Halloc (allocator s)) as (r1 & H1 & Hn1 & Ho1); [lia|]. unfold AllocTemp. rewrite H1.
  destruct (Emit f _ _ _ _) as [f1 ?]. destruct (EmitExtension f1 _ _) as [f2 ?].
  cbn [allocator Scopes]. destruct (Halloc r1) as (r2 & H2 & Hn2 & Ho2); [lia|]. rewrite H2.
  destruct (Emit f2 _ _ _ _) as [f3 ?]. destruct (EmitExtension f3 _ _) as [f4 ?].
  unfold UpdateVar, LookupVar in *. cbn [allocator Scopes]. rewrite Hl.
  set (r3 := FreeTemp r2 _ _). assert (Hn3 : nextRegister r3 g = nextRegister r1 g).
  { subst r3. unfold FreeTemp. cbn [vlKind registerLocation nextRegister setNext]. rewrite update_eq, Hn2.
    rewrite Z.add_simpl_r. apply wrapU_id. unfold isU. lia. }
  destruct (Halloc r3) as (r4 & H4 & Hn4 & Ho4); [lia|].
  exists f4, (MkScopeStack r3 (replaceIn (Scopes s) name (indirectLocation (nextRegister r1 g)))).
  exists (indirectLocation (nextRegister r1 g)), r4. split; [done|]. split.
  - clear -Hl. cbn [Scopes]. induction (Scopes s) as [|scope scopes IH]; [done|]. cbn [lookupIn replaceIn] in *.
    destruct (Vars scope !! name) eqn:E; cbn [lookupIn Vars]; [by rewrite lookup_insert_eq|].
    rewrite E. by apply IH.
  - cbn [allocator vlRegister indirectLocation]. by rewrite H4, Hn3.
Qed.

(** ** A compilation

    Push a scope, declare [x] and [y], let [x] die, capture [y], declare [z],
    which takes the register of [x], and leave the scope. *)

Definition declared (s : ScopeStack) (name : string) (k : RegisterKind) : ScopeStack :=
  match DeclareVar s name k with inr (s, _) => s | inl _ => s end.

Definition sample_start : ScopeStack := PushScope (NewScopeStack "f").
Definition sample_y : ScopeStack := declared (declared sample_start "x" RegisterInt) "y" RegisterInt.
Definition sample_recycled : ScopeStack :=
  MkScopeStack (RecycleRegister (allocator sample_y) RegisterInt 0) (Scopes sample_y).
Definition sample_z : ScopeStack := declared sample_recycled "z" RegisterInt.
Definition sample_config : config := NewConfig sample_z [(RegisterInt, 0); (RegisterInt, 1)] [].

Lemma fresh_name s name :
  lookupIn (Scopes s) name = None → ∀ top, head (Scopes s) = Some top → Vars top !! name = None.
Proof.
  intros Hl top Htop. destruct (Scopes s) as [|scope outer]; [done|]. injection Htop as ->.
  cbn in Hl. by destruct (Vars top !! name).
Qed.

Lemma sample_y_compiles :
  compiles "f" (NewConfig sample_y [(RegisterInt, 1); (RegisterInt, 0)] []).
Proof.
  assert (Hk : bank RegisterInt) by (split; vm_compute; congruence).
  eapply compiles_step;
    [|refine (step_declare (declared sample_start "x" RegisterInt) sample_y [(RegisterInt, 0)] [] "y"
        RegisterInt (registerLocation RegisterInt 1) Hk eq_refl (fresh_name _ _ _)); vm_compute; reflexivity].
  eapply compiles_step;
    [|refine (step_declare sample_start _ [] [] "x" RegisterInt (registerLocation RegisterInt 0) Hk
        eq_refl (fresh_name _ _ _)); vm_compute; reflexivity].
  eapply compiles_step; [apply compiles_start|]. apply step_push.
Qed.

Lemma sample_config_compiles : compiles "f" sample_config.
Proof.
  assert (Hk : bank RegisterInt) by (split; vm_compute; congruence).
  eapply compiles_step;
    [|refine (step_declare sample_recycled sample_z [(RegisterInt, 1)] [] "z"
        RegisterInt (registerLocation RegisterInt 0) Hk eq_refl (fresh_name _ _ _)); vm_compute; reflexivity].
  eapply compiles_step; [apply sample_y_compiles|].
  apply (step_recycle sample_y _ [(RegisterInt, 1)] [] "x" (registerLocation RegisterInt 0));
    [vm_compute; reflexivity|done|done|apply perm_swap].
Qed.




Theorem declarations_shadow_witness :
  let s := declared sample_start "x" RegisterInt in
  let s1 := PushScope s in
  let s2 := declared s1 "x" RegisterString in
  LookupVar s2 "x" = Some (registerLocation RegisterString 0) ∧
  (∀ other, other ≠ "x" → LookupVar s2 other = LookupVar s1 other) ∧
  ∀ s'', PopScope s2 = inr s'' → ∀ other, LookupVar s'' other = LookupVar s other.
Proof.
  cbv zeta.
  exact (declarations_shadow (PushScope (declared sample_start "x" RegisterInt)) "x" RegisterString
    (declared (PushScope (declared sample_start "x" RegisterInt)) "x" RegisterString)
    (registerLocation RegisterString 0) ltac:(done) eq_refl).
Defined.

(** A general variable in a spill slot, after 246 registers. *)
Definition sample_spilled : ScopeStack :=
  declared (MkScopeStack (ReserveLow (allocator sample_start) RegisterGeneral 246) (Scopes sample_start))
    "p" RegisterGeneral.

Theorem promoted_spill_is_reallocated_witness :
  LookupVar sample_spilled "p" = Some (spillLocation RegisterGeneral 0) ∧
  ∃ f' s' promoted r,
    promoteToIndirect (NewNamedFunction "f") sample_spilled "p" (Some 0) = (f', s', Some promoted) ∧
    LookupVar s' "p" = Some promoted ∧
    Alloc (allocator s') RegisterGeneral = (r, vlRegister promoted) ∧
    OverflowErr r = OverflowErr (allocator s').
Proof.
  split; [vm_compute; reflexivity|].
  apply (promoted_spill_is_reallocated (NewNamedFunction "f") sample_spilled "p"
    (spillLocation RegisterGeneral 0) 0); [vm_compute; reflexivity|done|done|done|].
  split; vm_compute; congruence.
Defined.
