(* ===== verification/Wire.v ===== *)
(** * The sandbox wire protocol

    [internal/sandboxwire]: the limits, the messages and the session state
    machine, with the theorem that the machine implements the protocol as a
    property of the messages exchanged.

    The mutexes make each operation one step.  An error is its sentinel,
    without its text. *)

From S2P Require Import Prelude SafeConv.

(** [ErrTransport] is an error of the transport, or its lack of progress. *)
Inductive WireError := ErrProtocol | ErrClosed | ErrInvalidLimits | ErrTransport.

(** ** Limits *)

Definition defaultFrameBytes : Z := Z.shiftl 1 20.
Definition maximumFrameBytes : Z := Z.shiftl 8 20.
Definition defaultJSONDepth : Z := 32.
Definition maximumJSONDepth : Z := 64.
Definition defaultJSONValues : Z := 65536.
Definition maximumJSONValues : Z := 65536.

Record Limits := NewLimits { MaxFrameBytes : Z; MaxJSONDepth : Z; MaxJSONValues : Z }.

(** One turn of the loop over the settings. *)
Definition normaliseSetting (value fallback ceiling : Z) : WireError + Z :=
  if (value <? 0) || (ceiling <? value) then inl ErrInvalidLimits
  else inr (if value =? 0 then fallback else value).

Definition normalise (limits : Limits) : WireError + Limits :=
  match normaliseSetting (MaxFrameBytes limits) defaultFrameBytes maximumFrameBytes with
  | inl error => inl error
  | inr frame =>
      match normaliseSetting (MaxJSONDepth limits) defaultJSONDepth maximumJSONDepth with
      | inl error => inl error
      | inr depth =>
          match normaliseSetting (MaxJSONValues limits) defaultJSONValues maximumJSONValues with
          | inl error => inl error
          | inr values => inr (NewLimits frame depth values)
          end
      end
  end.

(** ** Messages *)

(** A kind is a string: one of the eight constants, or any other. *)
Inductive Kind :=
  | Hello | Configure | Ready | Run | Result | Call | Reply | Close | OtherKind (name : string).

#[export] Instance Kind_eq_dec : EqDecision Kind.
Proof. solve_decision. Defined.

Definition version : Z := 1.

Record Message := NewMessage { mKind : Kind; Payload : list Z; ID : Z }.

(** The white space [bytes.TrimSpace] drops: six ASCII characters and the
    encodings of the other characters of [unicode.IsSpace]. *)
Fixpoint trimLeftSpace (payload : list Z) : list Z :=
  match payload with
  | c :: rest =>
      if (c =? 32) || ((9 <=? c) && (c <=? 13)) then trimLeftSpace rest
      else match rest with
      | d :: rest =>
          if (c =? 0xC2) && ((d =? 0x85) || (d =? 0xA0)) then trimLeftSpace rest
          else match rest with
          | e :: rest =>
              if ((c =? 0xE1) && (d =? 0x9A) && (e =? 0x80))
                 || ((c =? 0xE2) && (d =? 0x80) &&
                     (((0x80 <=? e) && (e <=? 0x8A)) || (e =? 0xA8) || (e =? 0xA9) || (e =? 0xAF)))
                 || ((c =? 0xE2) && (d =? 0x81) && (e =? 0x9F))
                 || ((c =? 0xE3) && (d =? 0x80) && (e =? 0x80))
              then trimLeftSpace rest else payload
          | [] => payload
          end
      | [] => payload
      end
  | [] => []
  end.

(** The first byte of the trimmed payload is an opening brace; trimming the
    other end does not change the answer. *)
Definition startsObject (payload : list Z) : bool :=
  match trimLeftSpace payload with
  | c :: _ => c =? 0x7B
  | [] => false
  end.

Definition validateMessage (message : Message) : option WireError :=
  if negb (startsObject (Payload message)) then Some ErrProtocol
  else match mKind message with
  | Hello | Configure | Ready | Close => if negb (ID message =? 0) then Some ErrProtocol else None
  | Run | Result | Call | Reply => if ID message =? 0 then Some ErrProtocol else None
  | OtherKind _ => Some ErrProtocol
  end.

(** ** The session machine *)

Inductive Direction := HostToWorker | WorkerToHost | OtherDirection (name : string).

#[export] Instance Direction_eq_dec : EqDecision Direction.
Proof. solve_decision. Defined.

Inductive State := awaitHello | awaitConfigure | awaitReady | idle | running | Closed | Failed.

#[export] Instance State_eq_dec : EqDecision State.
Proof. solve_decision. Defined.

Definition defaultCallsPerRun : Z := 100.
Definition maximumCallsPerRun : Z := 65536.
Definition defaultOutstandingCalls : Z := 4.
Definition maximumOutstandingCalls : Z := 1024.

Record SessionLimits := NewSessionLimits { MaxCallsPerRun : Z; MaxOutstandingCalls : Z }.

Record Machine := MkMachine {
  pending : gset Z;
  state : State;
  limits : SessionLimits;
  lastRunID : Z;
  lastCallID : Z;
  calls : Z;
}.

Definition setState (machine : Machine) (s : State) : Machine :=
  MkMachine (pending machine) s (limits machine) (lastRunID machine) (lastCallID machine)
    (calls machine).
Definition setPending (machine : Machine) (p : gset Z) : Machine :=
  MkMachine p (state machine) (limits machine) (lastRunID machine) (lastCallID machine)
    (calls machine).

Definition NewMachine (limits : SessionLimits) : WireError + Machine :=
  if (MaxCallsPerRun limits <? 0) || (maximumCallsPerRun <? MaxCallsPerRun limits)
  then inl ErrInvalidLimits
  else if (MaxOutstandingCalls limits <? 0) || (maximumOutstandingCalls <? MaxOutstandingCalls limits)
  then inl ErrInvalidLimits
  else
    let callsPerRun := if MaxCallsPerRun limits =? 0 then defaultCallsPerRun else MaxCallsPerRun limits in
    let outstanding :=
      if MaxOutstandingCalls limits =? 0 then defaultOutstandingCalls else MaxOutstandingCalls limits in
    if callsPerRun <? outstanding then inl ErrInvalidLimits
    else inr (MkMachine ∅ awaitHello (NewSessionLimits callsPerRun outstanding) 0 0 0).

Definition handshake (machine : Machine) (direction : Direction) (kind : Kind)
    (expectedDirection : Direction) (expectedKind : Kind) (next : State)
    : Machine * option WireError :=
  if bool_decide (direction ≠ expectedDirection) || bool_decide (kind ≠ expectedKind)
  then (machine, Some ErrProtocol) else (setState machine next, None).

(** [Machine.running]. *)
Definition runningStep (machine : Machine) (direction : Direction) (message : Message)
    : Machine * option WireError :=
  match mKind message with
  | Call =>
      if bool_decide (direction ≠ WorkerToHost) || (ID message <=? lastCallID machine)
      then (machine, Some ErrProtocol)
      else if (MaxCallsPerRun (limits machine) <=? calls machine)
              || (MaxOutstandingCalls (limits machine) <=? Z.of_nat (size (pending machine)))
      then (machine, Some ErrProtocol)
      else (MkMachine ({[ID message]} ∪ pending machine) (state machine) (limits machine)
              (lastRunID machine) (ID message) (calls machine + 1), None)
  | Reply =>
      if bool_decide (direction ≠ HostToWorker) then (machine, Some ErrProtocol)
      else if bool_decide (ID message ∉ pending machine) then (machine, Some ErrProtocol)
      else (setPending machine (pending machine ∖ {[ID message]}), None)
  | Result =>
      if bool_decide (direction ≠ WorkerToHost) || negb (ID message =? lastRunID machine)
         || negb (Z.of_nat (size (pending machine)) =? 0)
      then (machine, Some ErrProtocol)
      else (setState machine idle, None)
  | Hello | Configure | Ready | Run | Close => (machine, Some ErrProtocol)
  | OtherKind _ => (machine, Some ErrProtocol)
  end.

(** [Machine.advance]. *)
Definition advanceMachine (machine : Machine) (direction : Direction) (message : Message)
    : Machine * option WireError :=
  if bool_decide (direction ≠ HostToWorker) && bool_decide (direction ≠ WorkerToHost)
  then (machine, Some ErrProtocol)
  else if bool_decide (mKind message = Close) && bool_decide (direction = HostToWorker)
  then (setPending (setState machine Closed) ∅, None)
  else match state machine with
  | awaitHello => handshake machine direction (mKind message) WorkerToHost Hello awaitConfigure
  | awaitConfigure => handshake machine direction (mKind message) HostToWorker Configure awaitReady
  | awaitReady => handshake machine direction (mKind message) WorkerToHost Ready idle
  | idle =>
      if bool_decide (direction = HostToWorker) && bool_decide (mKind message = Run)
         && (lastRunID machine <? ID message)
      then (MkMachine (pending machine) running (limits machine) (ID message)
              (lastCallID machine) 0, None)
      else (machine, Some ErrProtocol)
  | running => runningStep machine direction message
  | Closed | Failed => (machine, Some ErrClosed)
  end.

Definition fail (machine : Machine) : Machine := setPending (setState machine Failed) ∅.

Definition Observe (machine : Machine) (direction : Direction) (message : Message)
    : Machine * option WireError :=
  if bool_decide (state machine = Closed) || bool_decide (state machine = Failed)
  then (machine, Some ErrClosed)
  else match validateMessage message with
  | Some error => (fail machine, Some error)
  | None =>
      match advanceMachine machine direction message with
      | (machine, Some error) => (fail machine, Some error)
      | (machine, None) => (machine, None)
      end
  end.

(** ** The protocol, as a property of the messages so far

    The most recent message comes first. *)

Definition event : Type := Direction * Message.

(** The identifier of the latest message of a kind, or zero. *)
Fixpoint latestID (kind : Kind) (history : list event) : Z :=
  match history with
  | [] => 0
  | (_, message) :: history =>
      if bool_decide (mKind message = kind) then ID message else latestID kind history
  end.

(** The calls of the submission in progress. *)
Fixpoint callsMade (history : list event) : Z :=
  match history with
  | [] => 0
  | (_, message) :: history =>
      if bool_decide (mKind message = Run) then 0
      else if bool_decide (mKind message = Call) then callsMade history + 1
      else callsMade history
  end.

(** The calls without a reply. *)
Fixpoint unanswered (history : list event) : gset Z :=
  match history with
  | [] => ∅
  | (_, message) :: history =>
      if bool_decide (mKind message = Call) then {[ID message]} ∪ unanswered history
      else if bool_decide (mKind message = Reply) then unanswered history ∖ {[ID message]}
      else if bool_decide (mKind message = Close) then ∅
      else unanswered history
  end.

(** The kinds after which no submission is in progress, and one is. *)
Definition betweenRuns (kind : Kind) : bool :=
  match kind with Ready | Result => true | _ => false end.
Definition inRun (kind : Kind) : bool :=
  match kind with Run | Call | Reply => true | _ => false end.

(** What may follow: a close by the host at any time, or the next message of
    the handshake, a new submission, a call, a reply or a result. *)
Definition follows (l : SessionLimits) (history : list event) (next : event) : Prop :=
  let '(direction, message) := next in
  let from_host := direction = HostToWorker in
  let from_worker := direction = WorkerToHost in
  match head history with
  | None =>
      (from_worker ∧ mKind message = Hello) ∨ (from_host ∧ mKind message = Close)
  | Some (_, previous) =>
      mKind previous ≠ Close ∧
      ((from_host ∧ mKind message = Close) ∨
       (mKind previous = Hello ∧ from_host ∧ mKind message = Configure) ∨
       (mKind previous = Configure ∧ from_worker ∧ mKind message = Ready) ∨
       (betweenRuns (mKind previous) = true ∧ from_host ∧ mKind message = Run ∧
          latestID Run history < ID message) ∨
       (inRun (mKind previous) = true ∧ from_worker ∧ mKind message = Call ∧
          latestID Call history < ID message ∧ callsMade history < MaxCallsPerRun l ∧
          Z.of_nat (size (unanswered history)) < MaxOutstandingCalls l) ∨
       (inRun (mKind previous) = true ∧ from_host ∧ mKind message = Reply ∧
          ID message ∈ unanswered history) ∨
       (inRun (mKind previous) = true ∧ from_worker ∧ mKind message = Result ∧
          ID message = latestID Run history ∧ unanswered history = ∅))
  end.

Fixpoint permitted (l : SessionLimits) (history trace : list event) : Prop :=
  match trace with
  | [] => True
  | next :: trace =>
      validateMessage (snd next) = None ∧ follows l history next ∧
      permitted l (next :: history) trace
  end.

(** The messages of a session, in order: the machine after them, if it accepts
    them all. *)
Fixpoint observeAll (machine : Machine) (trace : list event) : option Machine :=
  match trace with
  | [] => Some machine
  | (direction, message) :: trace =>
      match Observe machine direction message with
      | (machine, None) => observeAll machine trace
      | (_, Some _) => None
      end
  end.

(** ** The limits are bounded *)

Lemma normaliseSetting_bounded v fallback ceiling r :
  0 < fallback ≤ ceiling → normaliseSetting v fallback ceiling = inr r →
  0 < r ≤ ceiling ∧ (v = 0 → r = fallback) ∧ (v ≠ 0 → r = v).
Proof. intros Hf. unfold normaliseSetting. repeat case_if; try done; bool_hyps; intros [= <-]; lia. Qed.

(** Normal limits are positive and below the ceilings. *)
Lemma normalise_bounded l0 l :
  normalise l0 = inr l →
  0 < MaxJSONDepth l ≤ maximumJSONDepth ∧ 0 < MaxFrameBytes l ≤ maximumFrameBytes ∧
  0 < MaxJSONValues l ≤ maximumJSONValues.
Proof.
  unfold normalise. destruct (normaliseSetting (MaxFrameBytes l0) _ _) as [|f] eqn:Hf; [done|].
  destruct (normaliseSetting (MaxJSONDepth l0) _ _) as [|d] eqn:Hd; [done|].
  destruct (normaliseSetting (MaxJSONValues l0) _ _) as [|n] eqn:Hn; [done|]. intros [= <-]. cbn.
  apply normaliseSetting_bounded in Hf, Hd, Hn; [tauto|done..].
Qed.

(** ** The machine implements the protocol *)

(** The state the latest message leads to. *)
Definition phase (latest : option Kind) : State :=
  match latest with
  | None => awaitHello
  | Some Hello => awaitConfigure
  | Some Configure => awaitReady
  | Some Ready | Some Result => idle
  | Some Run | Some Call | Some Reply => running
  | Some Close => Closed
  | Some (OtherKind _) => Failed
  end.

Definition latestKind (history : list event) : option Kind :=
  (λ e : event, mKind (snd e)) <$> head history.

(** The machine's fields, as functions of the messages it accepted. *)
Record represents (l : SessionLimits) (m : Machine) (history : list event) : Prop := {
  rp_phase : state m = phase (latestKind history);
  rp_open : state m ≠ Failed;
  rp_run : lastRunID m = latestID Run history;
  rp_call : lastCallID m = latestID Call history;
  rp_calls : calls m = callsMade history;
  rp_pending : pending m = unanswered history;
  rp_idle : state m ≠ running → pending m = ∅;
  rp_limits : limits m = l;
}.

Lemma size_zero_iff (X : gset Z) : Z.of_nat (size X) = 0 ↔ X = ∅.
Proof.
  split; [|by intros ->]. intros H. apply leibniz_equiv, size_empty_iff. lia.
Qed.

(** What the machine does with a message while a submission runs. *)
Lemma runningStep_spec m d msg m' :
  runningStep m d msg = (m', None) ↔
  (mKind msg = Call ∧ d = WorkerToHost ∧ lastCallID m < ID msg ∧ calls m < MaxCallsPerRun (limits m) ∧
     Z.of_nat (size (pending m)) < MaxOutstandingCalls (limits m) ∧
     m' = MkMachine ({[ID msg]} ∪ pending m) (state m) (limits m) (lastRunID m) (ID msg) (calls m + 1)) ∨
  (mKind msg = Reply ∧ d = HostToWorker ∧ ID msg ∈ pending m ∧
     m' = setPending m (pending m ∖ {[ID msg]})) ∨
  (mKind msg = Result ∧ d = WorkerToHost ∧ ID msg = lastRunID m ∧ pending m = ∅ ∧ m' = setState m idle).
Proof.
  unfold runningStep. rewrite <- (size_zero_iff (pending m)).
  assert (Hd : ∀ d0 : Direction, bool_decide (d0 ≠ d0) = false).
  { intros d0. apply bool_decide_eq_false_2. intros H. by apply H. }
  destruct (mKind msg); try (split; [done|intros [[? _]|[[? _]|[? _]]]; done]).
  - split.
    + destruct (decide (d = WorkerToHost)) as [->|Hne]; [rewrite Hd|by rewrite bool_decide_eq_true_2].
      destruct (Z.eqb_spec (ID msg) (lastRunID m)), (Z.eqb_spec (Z.of_nat (size (pending m))) 0);
        try done. intros [= <-]. right; right. by split_and!.
    + intros [[? _]|[[? _]|(_ & -> & H1 & H2 & ->)]]; try done.
      by rewrite Hd, (proj2 (Z.eqb_eq _ _) H1), (proj2 (Z.eqb_eq _ _) H2).
  - split.
    + destruct (decide (d = WorkerToHost)) as [->|Hne]; [rewrite Hd|by rewrite bool_decide_eq_true_2].
      case_if; [done|]. case_if; [done|]. bool_hyps. intros [= <-]. left. by split_and!; try lia.
    + intros [(_ & -> & H1 & H2 & H3 & ->)|[[? _]|[? _]]]; try done.
      by rewrite Hd, (proj2 (Z.leb_gt _ _) H1), (proj2 (Z.leb_gt _ _) H2), (proj2 (Z.leb_gt _ _) H3).
  - split.
    + destruct (decide (d = HostToWorker)) as [->|Hne]; [rewrite Hd|by rewrite bool_decide_eq_true_2].
      destruct (decide (ID msg ∈ pending m)) as [Hin|Hout]; [|by rewrite (bool_decide_eq_true_2 (_ ∉ _))].
      rewrite (bool_decide_eq_false_2 (_ ∉ _)) by auto. intros [= <-]. right; left. by split_and!.
    + intros [[? _]|[(_ & -> & H1 & ->)|[? _]]]; try done.
      by rewrite Hd, (bool_decide_eq_false_2 (_ ∉ _)) by auto.
Qed.

Lemma advance_running m d msg m' :
  state m = running → ¬ (mKind msg = Close ∧ d = HostToWorker) →
  advanceMachine m d msg = (m', None) ↔ runningStep m d msg = (m', None).
Proof.
  intros Hst Hnot. unfold advanceMachine. rewrite Hst. destruct d.
  - rewrite (bool_decide_eq_false_2 (HostToWorker ≠ HostToWorker)) by (intros H; by apply H).
    cbn [andb]. rewrite (bool_decide_eq_false_2 (mKind msg = Close)) by naive_solver. done.
  - rewrite (bool_decide_eq_false_2 (WorkerToHost ≠ WorkerToHost)) by (intros H; by apply H).
    rewrite andb_false_r, (bool_decide_eq_false_2 (WorkerToHost = HostToWorker)), andb_false_r by done. done.
  - rewrite !bool_decide_eq_true_2 by done. cbn [andb]. split; [done|].
    intros H%runningStep_spec. naive_solver.
Qed.

(** [advance] accepts what the protocol lets follow, and the history with the
    message represents the machine it makes. *)
Definition implements (l : SessionLimits) (m : Machine) (history : list event) (next : event) : Prop :=
  (follows l history next → ∃ m', advanceMachine m (fst next) (snd next) = (m', None)) ∧
  (∀ m', advanceMachine m (fst next) (snd next) = (m', None) →
    follows l history next ∧ represents l m' (next :: history)).

Lemma implements_close l m history msg :
  represents l m history → state m ≠ Closed → mKind msg = Close →
  implements l m history (HostToWorker, msg).
Proof.
  intros [Hph Ho Hrun Hcall Hcalls Hpend Hidle Hlim] Hnc Hk. destruct msg as [k payload id]. cbn in Hk.
  subst k. unfold implements. cbn. split; [eauto|]. intros m' [= <-]. split.
  - unfold follows. destruct history as [|[d0 [k0 ? ?]] history]; cbn; [by right|].
    split; [|by left]. intros ->. by apply Hnc.
  - split; try done.
Qed.

Lemma implements_first l m next : represents l m [] → implements l m [] next.
Proof.
  intros [Hph Ho Hrun Hcall Hcalls Hpend Hidle Hlim]. destruct m as [p st lm run call n]. cbn in *.
  subst lm run call n p st. destruct next as [d [k payload id]].
  unfold implements, follows. cbn [head fst snd mKind]. destruct d, k; cbn; split; try naive_solver.
  all: intros m' [= <-]; split; [naive_solver|]; split; cbn; try done; naive_solver.
Qed.

Lemma implements_running l m history next e0 :
  represents l m history → head history = Some e0 → inRun (mKind (snd e0)) = true →
  ¬ (mKind (snd next) = Close ∧ fst next = HostToWorker) → implements l m history next.
Proof.
  intros [Hph Ho Hrun Hcall Hcalls Hpend Hidle Hlim] Hhead Hin Hnot.
  destruct next as [d msg], e0 as [d0 msg0]. unfold implements, follows, latestKind in *. rewrite Hhead in *.
  cbn [fst snd fmap option_fmap option_map] in *.
  assert (Hst : state m = running) by (rewrite Hph; by destruct (mKind msg0)).
  assert (Hb : betweenRuns (mKind msg0) = false) by by destruct (mKind msg0).
  rewrite Hb, Hin, <- Hrun, <- Hcall, <- Hcalls, <- Hpend, <- Hlim. split.
  - intros [_ Hf]. enough (∃ m', runningStep m d msg = (m', None)) as [m' H]
      by (exists m'; by apply advance_running).
    setoid_rewrite runningStep_spec.
    repeat destruct Hf as [Hf|Hf]; destruct_and?; try done; try (by destruct Hnot).
    1, 2: by destruct (mKind msg0).
    all: eexists; first [by left; split_and!|by right; left; split_and!|by right; right; split_and!].
  - intros m' Hm'%advance_running; [|done..]. apply runningStep_spec in Hm'. split.
    + split; [by destruct (mKind msg0)|]. do 4 right. naive_solver.
    + destruct msg as [k payload id]. cbn [mKind ID] in Hm'.
      destruct Hm' as [(-> & -> & ? & ? & ? & ->)|[(-> & -> & ? & ->)|(-> & -> & ? & ? & ->)]];
        split; cbn; rewrite <- ?Hrun, <- ?Hcall, <- ?Hcalls, <- ?Hpend; try done; by rewrite Hst.
Qed.

Lemma implements_between l m history next e0 :
  represents l m history → head history = Some e0 → inRun (mKind (snd e0)) = false → state m ≠ Closed →
  ¬ (mKind (snd next) = Close ∧ fst next = HostToWorker) → implements l m history next.
Proof.
  intros [Hph Ho Hrun Hcall Hcalls Hpend Hidle Hlim] Hhead Hin Hnc Hnot.
  destruct next as [d [k payload id]], e0 as [d0 [k0 payload0 id0]].
  unfold implements, follows, latestKind in *. rewrite Hhead in *.
  destruct m as [p st lm run call n]. cbn in *. subst lm run call n p.
  assert (Hk : k0 = Hello ∨ k0 = Configure ∨ betweenRuns k0 = true) by (destruct k0; naive_solver).
  assert (Hst : st ≠ running) by (rewrite Hph; by destruct k0).
  assert (Hp := Hidle Hst). rewrite Hp in *.
  destruct Hk as [->|[->|Hb]]; [subst st..|assert (st = idle) as -> by by destruct k0]; split.
  - intros [_ Hf]. assert (d = HostToWorker ∧ k = Configure) as [-> ->]; [|by eexists].
    repeat destruct Hf as [Hf|Hf]; destruct_and?; simplify_eq; first [done|congruence|by destruct Hnot].
  - intros m' Hm'. destruct d, k; cbn in Hm'; try discriminate Hm'; [|by destruct Hnot].
    injection Hm' as <-. split; [naive_solver|]. split; try done; cbn; by rewrite ?Hp.
  - intros [_ Hf]. assert (d = WorkerToHost ∧ k = Ready) as [-> ->]; [|by eexists].
    repeat destruct Hf as [Hf|Hf]; destruct_and?; simplify_eq; first [done|congruence|by destruct Hnot].
  - intros m' Hm'. destruct d, k; cbn in Hm'; try discriminate Hm'; [by destruct Hnot|].
    injection Hm' as <-. split; [naive_solver|]. split; try done; cbn; by rewrite ?Hp.
  - intros [_ Hf]. assert (d = HostToWorker ∧ k = Run ∧ latestID Run history < id) as (-> & -> & Hlt).
    { repeat destruct Hf as [Hf|Hf]; destruct_and?; simplify_eq; first [done|congruence|by destruct Hnot]. }
    eexists. unfold advanceMachine. cbn. by rewrite (proj2 (Z.ltb_lt _ _) Hlt).
  - intros m' Hm'. destruct d, k; cbn in Hm'; try discriminate Hm'; [|by destruct Hnot].
    unfold advanceMachine in Hm'. cbn in Hm'. destruct (Z.ltb_spec (latestID Run history) id); [|done].
    injection Hm' as <-. split.
    + split; [by destruct k0|]. right; right; right; left. done.
    + split; try done; cbn; by rewrite ?Hp.
Qed.

Lemma advance_implements l m history next :
  represents l m history → state m ≠ Closed → implements l m history next.
Proof.
  intros Hr Hnc. destruct (decide (mKind (snd next) = Close ∧ fst next = HostToWorker)) as [[Hk Hd]|Hnot].
  { destruct next as [d msg]. cbn in *. subst d. by apply implements_close. }
  destruct (head history) as [e0|] eqn:Hhead.
  - destruct (inRun (mKind (snd e0))) eqn:Hin; [by eapply implements_running|by eapply implements_between].
  - destruct history; [|done]. by apply implements_first.
Qed.

(** [Observe] accepts exactly the valid messages the protocol lets follow. *)
Lemma observe_implements l m history d msg :
  represents l m history →
  ((∃ m', Observe m d msg = (m', None)) ↔ validateMessage msg = None ∧ follows l history (d, msg)) ∧
  (∀ m', Observe m d msg = (m', None) → represents l m' ((d, msg) :: history)).
Proof.
  intros Hr. unfold Observe. destruct (decide (state m = Closed)) as [Hc|Hc].
  - rewrite (bool_decide_eq_true_2 (state m = Closed)) by done. cbn [orb]. split; [|done].
    split; [naive_solver|]. intros [_ Hf]. exfalso.
    pose proof (rp_phase _ _ _ Hr) as Hph. rewrite Hc in Hph. unfold follows, latestKind in *.
    destruct (head history) as [[d0 msg0]|]; [|done]. cbn in Hph. destruct Hf as [Hf _].
    by destruct (mKind msg0).
  - rewrite !bool_decide_eq_false_2 by (try done; apply Hr). cbn [orb].
    destruct (validateMessage msg) as [e|] eqn:Hv; [split; [naive_solver|done]|].
    destruct (advance_implements l m history (d, msg) Hr Hc) as [Hto Hfrom]. cbn [fst snd] in *.
    split; [split|].
    + intros [m' H]. split; [done|]. destruct (advanceMachine m d msg) as [m1 [e|]] eqn:E; [done|].
      by eapply Hfrom.
    + intros [_ Hf]. destruct (Hto Hf) as [m' ->]. by eexists.
    + intros m' H. destruct (advanceMachine m d msg) as [m1 [e|]] eqn:E; [done|].
      injection H as <-. by eapply Hfrom.
Qed.

Lemma represents_start l m : NewMachine l = inr m → represents (limits m) m [].
Proof.
  unfold NewMachine. repeat case_if; try done. all: intros [= <-]; by split.
Qed.

Lemma observeAll_permitted l m history trace :
  represents l m history → (∃ m', observeAll m trace = Some m') ↔ permitted l history trace.
Proof.
  revert m history. induction trace as [|[d msg] trace IH]; intros m history Hr; cbn [observeAll permitted].
  { split; [done|]. by eexists. }
  destruct (observe_implements l m history d msg Hr) as [Hiff Hrep]. cbn [snd].
  destruct (Observe m d msg) as [m1 [e|]].
  - split; [naive_solver|]. intros (Hv & Hf & _). by destruct (proj2 Hiff (conj Hv Hf)) as [? [=]].
  - rewrite (IH m1 ((d, msg) :: history)) by by apply Hrep. destruct (proj1 Hiff (ex_intro _ m1 eq_refl)). tauto.
Qed.

(** C15: The state machine implements the protocol: from a new machine, a
    sequence of messages is accepted to its end exactly when each message is
    well formed and is one that may follow those before it: the handshake in
    its order and directions, then submissions with increasing identifiers,
    within each at most the configured calls in all and unanswered at once,
    replies to unanswered calls only, and a result that names the submission
    once every call is answered; a close by the host at any point, and nothing
    after it. *)
Theorem session_follows_protocol l m trace :
  NewMachine l = inr m →
  (∃ m', observeAll m trace = Some m') ↔ permitted (limits m) [] trace.
Proof. intros H. by apply observeAll_permitted, (represents_start l). Qed.

Definition object : list Z := [0x20; 0x7B; 0x7D].

(** A handshake, a submission with two calls answered out of order, its
    result, and the close. *)
Definition sample_session : list event :=
  [(WorkerToHost, NewMessage Hello object 0); (HostToWorker, NewMessage Configure object 0);
   (WorkerToHost, NewMessage Ready object 0); (HostToWorker, NewMessage Run object 7);
   (WorkerToHost, NewMessage Call object 1); (WorkerToHost, NewMessage Call object 2);
   (HostToWorker, NewMessage Reply object 2); (HostToWorker, NewMessage Reply object 1);
   (WorkerToHost, NewMessage Result object 7); (HostToWorker, NewMessage Close object 0)].

Definition sample_machine : Machine := MkMachine ∅ awaitHello (NewSessionLimits 100 4) 0 0 0.

Lemma session_follows_protocol_witness :
  permitted (limits sample_machine) [] sample_session ∧
  ¬ permitted (limits sample_machine) [] (take 8 sample_session ++ take 8 sample_session).
Proof.
  split.
  - apply (session_follows_protocol (NewSessionLimits 0 0) sample_machine); [done|].
    eexists. vm_compute. reflexivity.
  - intros H. apply (session_follows_protocol (NewSessionLimits 0 0) sample_machine) in H; [|done].
    vm_compute in H. by destruct H.
Defined.

(** ** What holds of every machine, accepted messages or not *)

(** Every message is delivered, whatever the answers. *)
Definition deliver (m : Machine) (trace : list event) : Machine :=
  fold_left (λ m e, fst (Observe m (fst e) (snd e))) trace m.

Record ledger_ok (m : Machine) : Prop := {
  lo_limits : 0 < MaxOutstandingCalls (limits m) ≤ MaxCallsPerRun (limits m);
  lo_ceiling : MaxCallsPerRun (limits m) ≤ maximumCallsPerRun ∧
    MaxOutstandingCalls (limits m) ≤ maximumOutstandingCalls;
  lo_calls : 0 ≤ calls m ≤ MaxCallsPerRun (limits m);
  lo_pending : Z.of_nat (size (pending m)) ≤ Z.min (calls m) (MaxOutstandingCalls (limits m));
  lo_known : ∀ id, id ∈ pending m → id ≤ lastCallID m;
  lo_idle : state m ≠ running → pending m = ∅;
}.

Lemma ledger_ok_start l m : NewMachine l = inr m → ledger_ok m.
Proof.
  unfold NewMachine, defaultCallsPerRun, defaultOutstandingCalls, maximumCallsPerRun, maximumOutstandingCalls.
  repeat case_if; try done; bool_hyps; intros [= <-]; split; cbn;
    unfold maximumCallsPerRun, maximumOutstandingCalls; rewrite ?size_empty; try lia; try done; set_solver.
Qed.

(** What each step does to the fields of the ledger. *)
Lemma ledger_ok_running m d msg m' :
  ledger_ok m → state m = running → runningStep m d msg = (m', None) → ledger_ok m'.
Proof.
  intros [Hl Hc Hn Hp Hk Hi] Hst H. apply runningStep_spec in H.
  destruct H as [(_ & _ & Hid & H1 & H2 & ->)|[(_ & _ & Hin & ->)|(_ & _ & _ & Hpe & ->)]].
  - split; cbn; try done; [lia| |intros x [->%elem_of_singleton|Hx%Hk]%elem_of_union; lia].
    rewrite size_union, size_singleton; [lia|]. intros x ->%elem_of_singleton Hx%Hk. lia.
  - split; cbn; try done; [|intros x [Hx%Hk _]%elem_of_difference; lia].
    rewrite size_difference by set_solver. rewrite size_singleton. lia.
  - split; cbn; done.
Qed.

(** A refused message changes nothing before [fail]. *)
Lemma running_error m d msg m' e : runningStep m d msg = (m', Some e) → m' = m.
Proof. unfold runningStep. destruct (mKind msg); repeat case_if; by intros [= <- _]. Qed.

Lemma advance_error m d msg m' e : advanceMachine m d msg = (m', Some e) → m' = m.
Proof.
  unfold advanceMachine, handshake.
  destruct (state m); repeat case_if; first [by intros [= <- _]|apply running_error].
Qed.

Lemma ledger_ok_cleared m s : ledger_ok m → ledger_ok (setPending (setState m s) ∅).
Proof. intros [Hl Hc Hn Hp Hk Hi]. split; cbn; rewrite ?size_empty; try done; try lia; set_solver. Qed.

Lemma ledger_ok_moved m s : ledger_ok m → state m ≠ running → ledger_ok (setState m s).
Proof. intros [Hl Hc Hn Hp Hk Hi] Hs. split; cbn; auto. Qed.

Lemma ledger_ok_advance m d msg m' :
  ledger_ok m → advanceMachine m d msg = (m', None) → ledger_ok m'.
Proof.
  intros Hok. pose proof Hok as [Hl Hc Hn Hp Hk Hi]. unfold advanceMachine, handshake.
  destruct (state m) eqn:Hst; repeat case_if; try done.
  all: try by eapply ledger_ok_running.
  all: intros [= <-]; try (apply ledger_ok_cleared, Hok); try (apply ledger_ok_moved; [done|by rewrite Hst]).
  assert (Hpe : pending m = ∅) by by apply Hi. rewrite Hpe in *.
  split; cbn; rewrite ?size_empty; try done; try lia; set_solver.
Qed.

Lemma ledger_ok_observe m d msg : ledger_ok m → ledger_ok (fst (Observe m d msg)).
Proof.
  intros Hok. unfold Observe. case_if; [done|]. destruct (validateMessage msg); [by apply ledger_ok_cleared|].
  destruct (advanceMachine m d msg) as [m' [e|]] eqn:Ea; cbn [fst].
  - apply advance_error in Ea as ->. by apply ledger_ok_cleared.
  - by eapply ledger_ok_advance.
Qed.

Lemma ledger_ok_deliver m trace : ledger_ok m → ledger_ok (deliver m trace).
Proof.
  unfold deliver. revert m. induction trace as [|e trace IH]; intros m Hm; cbn [fold_left]; [done|].
  apply IH, ledger_ok_observe, Hm.
Qed.

(** Whatever messages arrive, well formed or not and accepted or not, the
    ledger of a machine with admissible limits stays within them: the calls
    counted for the submission and the calls awaiting a reply never exceed
    the configured limits, which stay positive and below the ceilings, every
    awaiting identifier is one already used, and outside a submission no call
    awaits a reply. *)
Theorem ledger_stays_bounded l m trace :
  NewMachine l = inr m → ledger_ok (deliver m trace).
Proof.
  intros Hm. by apply ledger_ok_deliver, (ledger_ok_start l).
Qed.

Lemma ledger_stays_bounded_witness :
  ledger_ok (deliver sample_machine (take 6 sample_session)) ∧
  pending (deliver sample_machine (take 6 sample_session)) = {[1; 2]}.
Proof.
  split; [by apply (ledger_stays_bounded (NewSessionLimits 0 0))|]. vm_compute. reflexivity.
Defined.

(** A rejected message ends the session: whatever was wrong with it and
    whatever is delivered afterwards, the machine stays as it was left and
    refuses every further message as closed; it has failed or had been closed
    before, and no call awaits a reply. *)
Theorem rejection_is_final l m before trace d msg d' msg' m' e :
  NewMachine l = inr m → Observe (deliver m before) d msg = (m', Some e) →
  (state m' = Failed ∨ state m' = Closed) ∧ pending m' = ∅ ∧
  Observe (deliver m' trace) d' msg' = (m', Some ErrClosed).
Proof.
  intros Hnew Hobs.
  assert (Hok := ledger_ok_deliver _ before (ledger_ok_start _ _ Hnew)).
  assert (Hend : state m' = Failed ∨ state m' = Closed).
  { revert Hobs. unfold Observe. case_if.
    - intros [= <- _]. bool_hyps. rewrite !bool_decide_eq_true in *. tauto.
    - destruct (validateMessage msg); [intros [= <- _]; by left|].
      destruct (advanceMachine _ d msg) as [m1 [e1|]]; [intros [= <- _]; by left|done]. }
  assert (Hpe : pending m' = ∅).
  { pose proof (ledger_ok_observe _ d msg Hok) as Hok'. rewrite Hobs in Hok'. cbn in Hok'.
    apply (lo_idle _ Hok'). destruct Hend as [-> | ->]; done. }
  assert (Hstop : ∀ d0 msg0, Observe m' d0 msg0 = (m', Some ErrClosed)).
  { intros d0 msg0. unfold Observe. by destruct Hend as [-> | ->]. }
  split_and!; [done..|]. enough (deliver m' trace = m') as -> by done.
  unfold deliver. induction trace as [|x trace IH]; [done|]. cbn [fold_left]. rewrite Hstop. done.
Qed.

(** A submission before the handshake's end, and then the rest of it. *)
Lemma rejection_is_final_witness :
  let m' := MkMachine ∅ Failed (NewSessionLimits 100 4) 0 0 0 in
  (state m' = Failed ∨ state m' = Closed) ∧ pending m' = ∅ ∧
  Observe (deliver m' (drop 2 sample_session)) HostToWorker (NewMessage Run object 7) = (m', Some ErrClosed).
Proof.
  apply (rejection_is_final (NewSessionLimits 0 0) sample_machine (take 2 sample_session) _
    HostToWorker (NewMessage Run object 7) _ _ _ ErrProtocol); vm_compute; reflexivity.
Defined.
