(* ===== verification/WireCodec.v ===== *)
(** * The sandbox wire codec

    [internal/sandboxwire/json.go], [envelope.go] and [codec.go]: the
    traversal that bounds a JSON payload, the check of a payload against its
    schema, and the framing.

    The tokens of a text, its members and elements, the encoding and decoding
    of an envelope and the validity of UTF-8 are [encoding/json]'s and
    [unicode/utf8]'s, and are arguments.  A reader is the bytes it will
    deliver, a writer is an argument. *)

From S2P Require Import Prelude SafeConv Wire.

(** ** Tokens *)

(** [json.Token]: a delimiter, a string, or another scalar. *)
Inductive Token := Delim (c : Z) | StringToken (s : string) | ScalarToken.

#[export] Instance Token_eq_dec : EqDecision Token.
Proof. solve_decision. Defined.

(** What [Token] returns besides a token: the end of the input, or an error. *)
Inductive TokenError := EOF | SyntaxError.

(** The decoder over a text, as [json.NewDecoder] makes it. *)
Class Decoder (D : Type) := {
  NewDecoder : list Z → D;
  nextToken : D → (TokenError + Token) * D;
  More : D → bool;
}.

Definition openObject : Z := 0x7B.
Definition closeObject : Z := 0x7D.
Definition openArray : Z := 0x5B.
Definition closeArray : Z := 0x5D.

(** ** The traversal *)

Record jsonScan (D : Type) := MkScan { decoder : D; remaining : Z; maxDepth : Z }.
Arguments MkScan {D}.
Arguments decoder {D}.
Arguments remaining {D}.
Arguments maxDepth {D}.

Section Scan.
Context {D : Type} `{!Decoder D}.

(** [jsonScan.token]. *)
Definition scanToken (scan : jsonScan D) : (WireError + Token) * jsonScan D :=
  if remaining scan <=? 0 then (inl ErrProtocol, scan)
  else
    match nextToken (decoder scan) with
    | (inl _, decoder) => (inl ErrProtocol, MkScan decoder (remaining scan - 1) (maxDepth scan))
    | (inr token, decoder) => (inr token, MkScan decoder (remaining scan - 1) (maxDepth scan))
    end.

(** [jsonScan.end]. *)
Definition scanEnd (scan : jsonScan D) (expected : Z) : option WireError * jsonScan D :=
  match scanToken scan with
  | (inl error, scan) => (Some error, scan)
  | (inr token, scan) =>
      if bool_decide (token = Delim expected) then (None, scan) else (Some ErrProtocol, scan)
  end.

(** [jsonScan.value], [object] and [array].  Every call reads a token of the
    budget or fails, which bounds the recursion. *)
Fixpoint scanValue (fuel : nat) (scan : jsonScan D) (depth : Z) : option (option WireError * jsonScan D) :=
  match fuel with
  | O => None
  | S fuel =>
      match scanToken scan with
      | (inl error, scan) => Some (Some error, scan)
      | (inr (Delim delimiter), scan) =>
          if maxDepth scan <? depth then Some (Some ErrProtocol, scan)
          else if delimiter =? openObject then scanObject fuel scan ∅ depth
          else if delimiter =? openArray then scanArray fuel scan depth
          else Some (Some ErrProtocol, scan)
      | (inr _, scan) => Some (None, scan)
      end
  end
with scanObject (fuel : nat) (scan : jsonScan D) (keys : gset string) (depth : Z)
    : option (option WireError * jsonScan D) :=
  match fuel with
  | O => None
  | S fuel =>
      if More (decoder scan) then
        match scanToken scan with
        | (inl error, scan) => Some (Some error, scan)
        | (inr (StringToken key), scan) =>
            if bool_decide (key ∈ keys) then Some (Some ErrProtocol, scan)
            else
              match scanValue fuel scan (depth + 1) with
              | Some (None, scan) => scanObject fuel scan ({[key]} ∪ keys) depth
              | other => other
              end
        | (inr _, scan) => Some (Some ErrProtocol, scan)
        end
      else Some (scanEnd scan closeObject)
  end
with scanArray (fuel : nat) (scan : jsonScan D) (depth : Z) : option (option WireError * jsonScan D) :=
  match fuel with
  | O => None
  | S fuel =>
      if More (decoder scan) then
        match scanValue fuel scan (depth + 1) with
        | Some (None, scan) => scanArray fuel scan depth
        | other => other
        end
      else Some (scanEnd scan closeArray)
  end.

(** The budget is enough: a token is read at least every second call. *)
Definition scanFuel (remaining : Z) : nat := 2 * Z.to_nat remaining + 2.

(** [validateJSON]; [utf8_Valid] is [utf8.Valid]. *)
Definition validateJSON (utf8_Valid : list Z → bool) (data : list Z) (limits : Limits)
    : option (option WireError) :=
  if (zlen data =? 0) || (MaxFrameBytes limits <? zlen data) || negb (utf8_Valid data)
  then Some (Some ErrProtocol)
  else
    match scanToken (MkScan (NewDecoder data) (MaxJSONValues limits) (MaxJSONDepth limits)) with
    | (inl error, _) => Some (Some error)
    | (inr opening, scan) =>
        if bool_decide (opening ≠ Delim openObject) then Some (Some ErrProtocol)
        else
          match scanObject (scanFuel (MaxJSONValues limits)) scan ∅ 1 with
          | None => None
          | Some (Some error, _) => Some (Some error)
          | Some (None, scan) =>
              match nextToken (decoder scan) with
              | (inl EOF, _) => Some None
              | (_, _) => Some (Some ErrProtocol)
              end
          end
    end.
End Scan.

(** ** The schema of a payload *)

(** The types [checkFieldNames] distinguishes; the fields of a struct come with
    what [reflect] tells of each. *)
Record FieldHeader := MkField { exported : bool; anonymous : bool; fieldName : string; jsonTag : string }.

Inductive GoType :=
  | Pointer (element : GoType)
  | RawMessage
  | Uint8
  | Struct (fields : list (FieldHeader * GoType))
  | Array (element : GoType)
  | Slice (element : GoType)
  | MapOf (element : GoType)
  | Basic.

(** The part of a tag before its first comma, as [strings.Cut] returns it. *)
Fixpoint beforeComma (tag : string) : string :=
  match tag with
  | EmptyString => EmptyString
  | String c tag => if bool_decide (c = Ascii.ascii_of_nat 44) then EmptyString else String c (beforeComma tag)
  end.

Fixpoint lookupField {A} (fields : list (string * A)) (name : string) : option A :=
  match fields with
  | [] => None
  | (known, field) :: fields => if bool_decide (known = name) then Some field else lookupField fields name
  end.

(** [schemaFields], for any data kept with a field. *)
Fixpoint schemaFieldsFrom {A} (fields : list (FieldHeader * A)) (known : list (string * A))
    : WireError + list (string * A) :=
  match fields with
  | [] => inr known
  | (field, target) :: fields =>
      if negb (exported field) then schemaFieldsFrom fields known
      else
        let name := beforeComma (jsonTag field) in
        if bool_decide (name = "-"%string) then schemaFieldsFrom fields known
        else if anonymous field then inl ErrProtocol
        else
          let name := if bool_decide (name = EmptyString) then fieldName field else name in
          match lookupField known name with
          | Some _ => inl ErrProtocol
          | None => schemaFieldsFrom fields ((name, target) :: known)
          end
  end.

Definition schemaFields {A} (fields : list (FieldHeader * A)) : WireError + list (string * A) :=
  schemaFieldsFrom fields [].

(** The loop over the members of an object, each checked by its field. *)
Fixpoint checkMembers (fields : list (string * (list Z → option WireError)))
    (members : list (string * list Z)) : option WireError :=
  match members with
  | [] => None
  | (name, value) :: members =>
      match lookupField fields name with
      | None => Some ErrProtocol
      | Some check =>
          match check value with Some error => Some error | None => checkMembers fields members end
      end
  end.

(** The loops over the elements of an array and the values of a map. *)
Fixpoint checkElements (check : list Z → option WireError) (values : list (list Z)) : option WireError :=
  match values with
  | [] => None
  | value :: values =>
      match check value with Some error => Some error | None => checkElements check values end
  end.

Definition nullText : list Z := [0x6E; 0x75; 0x6C; 0x6C].

Section Schema.
(** [json.Unmarshal] into a map or a slice of raw messages. *)
Variable unmarshalMembers : list Z → option (list (string * list Z)).
Variable unmarshalElements : list Z → option (list (list Z)).

Definition checkObjectFields (data : list Z)
    (fields : list (FieldHeader * (list Z → option WireError))) : option WireError :=
  match schemaFields fields with
  | inl error => Some error
  | inr fields =>
      match unmarshalMembers data with
      | None => Some ErrProtocol
      | Some members => checkMembers fields members
      end
  end.

Definition checkArrayFields (data : list Z) (check : list Z → option WireError) : option WireError :=
  match unmarshalElements data with
  | None => Some ErrProtocol
  | Some values => checkElements check values
  end.

Definition checkMapFields (data : list Z) (check : list Z → option WireError) : option WireError :=
  match unmarshalMembers data with
  | None => Some ErrProtocol
  | Some members => checkElements check (map snd members)
  end.

Fixpoint checkFieldNames (target : GoType) (data : list Z) : option WireError :=
  match target with
  | Pointer element => checkFieldNames element data
  | RawMessage => None
  | Slice Uint8 => None
  | Struct fields =>
      if bool_decide (data = nullText) then None
      else checkObjectFields data (map (λ f, (fst f, checkFieldNames (snd f))) fields)
  | Array element | Slice element =>
      if bool_decide (data = nullText) then None else checkArrayFields data (checkFieldNames element)
  | MapOf element =>
      if bool_decide (data = nullText) then None else checkMapFields data (checkFieldNames element)
  | Uint8 | Basic => None
  end.
End Schema.

(** ** Envelopes *)

Record envelope := MkEnvelope { eID : option Z; eKind : Kind; ePayload : list Z; eVersion : Z }.

Definition envelopeType : GoType :=
  Struct [(MkField true false "ID" "id", Pointer Basic); (MkField true false "Kind" "kind", Basic);
          (MkField true false "Payload" "payload", RawMessage);
          (MkField true false "Version" "version", Basic)].

(** What the codec uses of [encoding/json] and [unicode/utf8]. *)
Record JSON := MkJSON {
  utf8_Valid : list Z → bool;
  UnmarshalMembers : list Z → option (list (string * list Z));
  UnmarshalElements : list Z → option (list (list Z));
  Marshal : envelope → option (list Z);
  Decode : list Z → option envelope;
}.

(** The four bytes of [binary.BigEndian.PutUint32], and [Uint32]. *)
Definition PutUint32 (v : Z) : list Z :=
  [wrapU 8 (Z.shiftr v 24); wrapU 8 (Z.shiftr v 16); wrapU 8 (Z.shiftr v 8); wrapU 8 v].

Definition Uint32 (header : list Z) : Z :=
  match header with
  | [a; b; c; d] => Z.lor (Z.lor (Z.lor d (Z.shiftl c 8)) (Z.shiftl b 16)) (Z.shiftl a 24)
  | _ => 0
  end.

Definition frameHeaderBytes : Z := 4.

(** [io.ReadFull] on the bytes a reader will deliver. *)
Definition ReadFull (reader : list Z) (n : Z) : option (list Z * list Z) :=
  if zlen reader <? n then None else Some (take (Z.to_nat n) reader, drop (Z.to_nat n) reader).

(** A writer: the bytes it took, as it counts them, and whether it failed. *)
Class Writer (W : Type) := WriterWrite : W → list Z → W * (Z * bool).

(** [writeAll]; [None] is fuel that has run out. *)
Fixpoint writeAll {W} `{!Writer W} (fuel : nat) (writer : W) (data : list Z) : option (W * option WireError) :=
  match data with
  | [] => Some (writer, None)
  | _ :: _ =>
      match fuel with
      | O => None
      | S fuel =>
          let '(writer, (written, failed)) := WriterWrite writer data in
          if (written <? 0) || (zlen data <? written) then Some (writer, Some ErrProtocol)
          else if (failed : bool) then Some (writer, Some ErrTransport)
          else if written =? 0 then Some (writer, Some ErrTransport)
          else writeAll fuel writer (drop (Z.to_nat written) data)
      end
  end.

Record Codec (W : Type) := MkCodec { reader : list Z; writer : W; climits : Limits; failed : bool }.
Arguments MkCodec {W}.
Arguments reader {W}.
Arguments writer {W}.
Arguments climits {W}.
Arguments failed {W}.

(** [New], the transports present. *)
Definition New {W} (reader : list Z) (writer : W) (limits : Limits) : WireError + Codec W :=
  match normalise limits with
  | inl error => inl error
  | inr limits => inr (MkCodec reader writer limits false)
  end.

Section Codec.
Context {D : Type} `{!Decoder D} {W : Type} `{!Writer W} (J : JSON).

Definition maximumLimits : Limits := NewLimits maximumFrameBytes maximumJSONDepth maximumJSONValues.

(** [decodeStrict] into an [envelope]. *)
Definition decodeStrict (data : list Z) : option (WireError + envelope) :=
  match validateJSON (D:=D) (utf8_Valid J) data maximumLimits with
  | None => None
  | Some (Some error) => Some (inl error)
  | Some None =>
      match checkFieldNames (UnmarshalMembers J) (UnmarshalElements J) envelopeType data with
      | Some error => Some (inl error)
      | None => match Decode J data with None => Some (inl ErrProtocol) | Some wire => Some (inr wire) end
      end
  end.

Definition decodeMessage (data : list Z) (limits : Limits) : option (WireError + Message) :=
  match validateJSON (D:=D) (utf8_Valid J) data limits with
  | None => None
  | Some (Some error) => Some (inl error)
  | Some None =>
      match decodeStrict data with
      | None => None
      | Some (inl error) => Some (inl error)
      | Some (inr wire) =>
          match eID wire with
          | None => Some (inl ErrProtocol)
          | Some id =>
              if negb (eVersion wire =? version) then Some (inl ErrProtocol)
              else
                let message := NewMessage (eKind wire) (ePayload wire) id in
                match validateMessage message with
                | Some error => Some (inl error)
                | None => Some (inr message)
                end
          end
      end
  end.

Definition encodeMessage (message : Message) (limits : Limits) : option (WireError + list Z) :=
  if MaxFrameBytes limits <? zlen (Payload message) then Some (inl ErrProtocol)
  else match validateMessage message with
  | Some error => Some (inl error)
  | None =>
      match Marshal J (MkEnvelope (Some (ID message)) (mKind message) (Payload message) version) with
      | None => Some (inl ErrProtocol)
      | Some data =>
          match validateJSON (D:=D) (utf8_Valid J) data limits with
          | None => None
          | Some (Some error) => Some (inl error)
          | Some None => Some (inr data)
          end
      end
  end.

(** [Codec.read], with the bytes the reader is left with. *)
Definition readFrame (reader : list Z) (limits : Limits) : option ((WireError + Message) * list Z) :=
  match ReadFull reader frameHeaderBytes with
  | None => Some (inl ErrProtocol, [])
  | Some (header, reader) =>
      let size := Uint32 header in
      if (size =? 0) || (MaxFrameBytes limits <? size) then Some (inl ErrProtocol, reader)
      else
        match ReadFull reader size with
        | None => Some (inl ErrProtocol, [])
        | Some (data, reader) =>
            match decodeMessage data limits with
            | None => None
            | Some result => Some (result, reader)
            end
        end
  end.

Definition Read (codec : Codec W) : option ((WireError + Message) * Codec W) :=
  if failed codec then Some (inl ErrClosed, codec)
  else
    match readFrame (reader codec) (climits codec) with
    | None => None
    | Some (inl error, reader) => Some (inl error, MkCodec reader (writer codec) (climits codec) true)
    | Some (inr message, reader) => Some (inr message, MkCodec reader (writer codec) (climits codec) false)
    end.

(** [Codec.Write]: the errors of its parts come wrapped in [ErrProtocol]. *)
Definition Write (codec : Codec W) (message : Message) : option (option WireError * Codec W) :=
  let poisoned w := Some (Some ErrProtocol, MkCodec (reader codec) w (climits codec) true) in
  if failed codec then Some (Some ErrClosed, codec)
  else
    match encodeMessage message (climits codec) with
    | None => None
    | Some (inl _) => poisoned (writer codec)
    | Some (inr data) =>
        let header := PutUint32 (IntToUint32 (zlen data)) in
        match writeAll (length header) (writer codec) header with
        | None => None
        | Some (writer, Some _) => poisoned writer
        | Some (writer, None) =>
            match writeAll (length data) writer data with
            | None => None
            | Some (writer, Some _) => poisoned writer
            | Some (writer, None) => Some (None, MkCodec (reader codec) writer (climits codec) false)
            end
        end
    end.
End Codec.

(** ** The values a text stands for *)

(** What the traversal sees of a JSON value. *)
Inductive json :=
  | JScalar
  | JString (s : string)
  | JObject (members : list (string * json))
  | JArray (elements : list json).

Fixpoint tokensOf (v : json) : list Token :=
  match v with
  | JScalar => [ScalarToken]
  | JString s => [StringToken s]
  | JObject members =>
      Delim openObject :: concat (map (λ kv, StringToken (fst kv) :: tokensOf (snd kv)) members) ++
        [Delim closeObject]
  | JArray elements => Delim openArray :: concat (map tokensOf elements) ++ [Delim closeArray]
  end.

(** No object repeats a key and no container is nested deeper than the limit. *)
Fixpoint admissible (limit depth : Z) (v : json) : bool :=
  match v with
  | JScalar | JString _ => true
  | JObject members =>
      (depth <=? limit) && bool_decide (NoDup (map fst members)) &&
      forallb (λ kv, admissible limit (depth + 1) (snd kv)) members
  | JArray elements => (depth <=? limit) && forallb (admissible limit (depth + 1)) elements
  end.

Definition isObject (v : json) : bool := match v with JObject _ => true | _ => false end.

Definition closes (t : Token) : bool :=
  bool_decide (t = Delim closeObject) || bool_decide (t = Delim closeArray).

(** A decoder that presents tokens: [Token] returns them in order and then the
    end of the input, and [More] tells whether the next one closes the
    container. *)
Class TokenStream (D : Type) `{!Decoder D} := {
  presents : D → list Token → Prop;
  presents_next d t ts :
    presents d (t :: ts) → ∃ d', nextToken d = (inr t, d') ∧ presents d' ts;
  presents_end d : presents d [] → ∃ d', nextToken d = (inl EOF, d');
  presents_more d t ts : presents d (t :: ts) → More d = negb (closes t);
}.

(** ** The traversal terminates, whatever the decoder returns *)

Section ScanTotal.
Context {D : Type} `{!Decoder D}.

Lemma scanToken_remaining (scan : jsonScan D) t scan' :
  scanToken scan = (inr t, scan') → 0 < remaining scan ∧ remaining scan' = remaining scan - 1.
Proof.
  unfold scanToken. case_if; [done|]. bool_hyps.
  destruct (nextToken (decoder scan)) as [[]]; [done|]. intros [= _ <-]. cbn. lia.
Qed.

(** A traversal that returns has used no more than its budget, and at least
    one token where it succeeds on a value. *)
Lemma scan_total fuel :
  (∀ (scan : jsonScan D) depth, (2 * Z.to_nat (remaining scan) + 1 ≤ fuel)%nat →
    ∃ o scan', scanValue fuel scan depth = Some (o, scan') ∧
      (o = None → 0 < remaining scan ∧ remaining scan' < remaining scan)) ∧
  (∀ (scan : jsonScan D) keys depth, (2 * Z.to_nat (remaining scan) + 2 ≤ fuel)%nat →
    ∃ o scan', scanObject fuel scan keys depth = Some (o, scan') ∧
      (o = None → remaining scan' < remaining scan)) ∧
  (∀ (scan : jsonScan D) depth, (2 * Z.to_nat (remaining scan) + 2 ≤ fuel)%nat →
    ∃ o scan', scanArray fuel scan depth = Some (o, scan') ∧
      (o = None → remaining scan' < remaining scan)).
Proof.
  assert (Hend : ∀ (scan : jsonScan D) c, ∃ o scan', Some (scanEnd scan c) = Some (o, scan') ∧
    (o = None → remaining scan' < remaining scan)).
  { intros scan c. unfold scanEnd. destruct (scanToken scan) as [[e|t] scan1] eqn:Et.
    - do 2 eexists. split; [reflexivity|done].
    - apply scanToken_remaining in Et as [??]. case_if; do 2 eexists; (split; [reflexivity|]); [lia|done]. }
  induction fuel as [|fuel (IHv & IHo & IHa)]; [by split_and!; intros; lia|].
  split_and!; intros scan; [intros depth Hf|intros keys depth Hf|intros depth Hf].
  - cbn [scanValue]. fold scanValue scanObject scanArray. destruct (scanToken scan) as [[e|t] scan1] eqn:Et.
    { do 2 eexists. split; [reflexivity|done]. }
    apply scanToken_remaining in Et as [??].
    destruct t as [c|s|]; [|do 2 eexists; (split; [reflexivity|lia])..].
    repeat case_if; try (do 2 eexists; (split; [reflexivity|done])).
    + destruct (IHo scan1 ∅ depth) as (o & scan' & -> & H1); [lia|]. do 2 eexists. split; [reflexivity|].
      intros Ho%H1. lia.
    + destruct (IHa scan1 depth) as (o & scan' & -> & H1); [lia|]. do 2 eexists. split; [reflexivity|].
      intros Ho%H1. lia.
  - cbn [scanObject]. fold scanValue scanObject scanArray. case_if; [|apply Hend].
    destruct (scanToken scan) as [[e|t] scan1] eqn:Et.
    { do 2 eexists. split; [reflexivity|done]. }
    apply scanToken_remaining in Et as [??].
    destruct t as [c|s|]; try (do 2 eexists; (split; [reflexivity|done])).
    case_if; [do 2 eexists; (split; [reflexivity|done])|].
    destruct (IHv scan1 (depth + 1)) as (o & scan2 & -> & H1); [lia|].
    destruct o as [e|]; [do 2 eexists; (split; [reflexivity|done])|]. destruct (H1 eq_refl) as [Hr1 Hr2].
    destruct (IHo scan2 ({[s]} ∪ keys) depth) as (o & scan3 & -> & Hlast); [lia|].
    do 2 eexists. split; [reflexivity|]. intros Ho%Hlast. lia.
  - cbn [scanArray]. fold scanValue scanObject scanArray. case_if; [|apply Hend].
    destruct (IHv scan (depth + 1)) as (o & scan2 & -> & H1); [lia|].
    destruct o as [e|]; [do 2 eexists; (split; [reflexivity|done])|]. destruct (H1 eq_refl) as [Hr1 Hr2].
    destruct (IHa scan2 depth) as (o & scan3 & -> & Hlast); [lia|].
    do 2 eexists. split; [reflexivity|]. intros Ho%Hlast. lia.
Qed.

Lemma validateJSON_total valid data l : ∃ answer, validateJSON (D:=D) valid data l = Some answer.
Proof.
  unfold validateJSON. case_if; [by eexists|]. destruct (scanToken _) as [[e|t] scan] eqn:Et; [by eexists|].
  apply scanToken_remaining in Et as [Hpos Hr]. cbn in Hpos, Hr. case_bool_decide; [by eexists|].
  destruct (proj1 (proj2 (scan_total (scanFuel (MaxJSONValues l)))) scan ∅ 1) as (o & scan2 & -> & _).
  { unfold scanFuel. lia. }
  destruct o; [by eexists|]. destruct (nextToken _) as [[[]|] ?]; by eexists.
Qed.
End ScanTotal.

(** ** The traversal accepts exactly the admissible objects *)

Section ScanExact.
Context {D : Type} `{!Decoder D, !TokenStream D}.

(** An outcome for a text of [n] tokens, of which the [rest] follow. *)
Definition outcome (ok : Prop) (n : nat) (rest : list Token) (scan : jsonScan D)
    (result : option WireError * jsonScan D) : Prop :=
  (fst result = None ↔ ok ∧ Z.of_nat n ≤ remaining scan) ∧
  (fst result = None →
    presents (decoder (snd result)) rest ∧ remaining (snd result) = remaining scan - Z.of_nat n ∧
    maxDepth (snd result) = maxDepth scan).

Lemma outcome_refused (ok : Prop) n rest scan e scan' :
  ¬ (ok ∧ Z.of_nat n ≤ remaining scan) → outcome ok n rest scan (Some e, scan').
Proof. intros H. split; [|done]. split; [done|]. intros Hok. by destruct H. Qed.

Lemma outcome_iff (ok ok' : Prop) n rest scan result :
  (ok ↔ ok') → outcome ok n rest scan result → outcome ok' n rest scan result.
Proof. intros Hiff [H1 H2]. split; [by rewrite H1, Hiff|done]. Qed.

(** The outcome of what follows a token already read. *)
Lemma outcome_after (ok ok' : Prop) n n' rest scan scan1 result :
  outcome ok n rest scan1 result → remaining scan = remaining scan1 + Z.of_nat n' → (ok' ↔ ok) →
  maxDepth scan1 = maxDepth scan → outcome ok' (n' + n) rest scan result.
Proof.
  intros [H1 H2] Hr Hok Hm. split.
  - rewrite H1, Hok, Hr, Nat2Z.inj_add. split; intros [? ?]; (split; [done|lia]).
  - intros H. destruct (H2 H) as (Hp & Hr' & Hm'). split_and!; [done|lia|by rewrite Hm'].
Qed.

Lemma scanToken_presents (scan : jsonScan D) t ts :
  presents (decoder scan) (t :: ts) →
  (remaining scan ≤ 0 ∧ scanToken scan = (inl ErrProtocol, scan)) ∨
  (0 < remaining scan ∧ ∃ d', presents d' ts ∧
     scanToken scan = (inr t, MkScan d' (remaining scan - 1) (maxDepth scan))).
Proof.
  intros Hp. destruct (presents_next _ _ _ Hp) as (d' & Hn & Hd'). unfold scanToken.
  case_if; bool_hyps; [by left|]. right. split; [lia|]. exists d'. by rewrite Hn.
Qed.

Lemma scanEnd_outcome (scan : jsonScan D) c ts :
  presents (decoder scan) (Delim c :: ts) → outcome True 1 ts scan (scanEnd scan c).
Proof.
  intros Hp. unfold scanEnd.
  destruct (scanToken_presents scan _ _ Hp) as [[Hr ->]|(Hr & d' & Hd' & ->)].
  - apply outcome_refused. lia.
  - rewrite bool_decide_eq_true_2 by done. split; cbn; [|done]. split; [intros _; split; [done|lia]|done].
Qed.

Definition memberTokens (members : list (string * json)) : list Token :=
  concat (map (λ kv, StringToken (fst kv) :: tokensOf (snd kv)) members).
Definition elementTokens (elements : list json) : list Token := concat (map tokensOf elements).

Lemma tokensOf_first v : ∃ t ts, tokensOf v = t :: ts ∧ closes t = false.
Proof. destruct v; cbn; do 2 eexists; done. Qed.

Definition value_ok (fuel : nat) : Prop := ∀ (scan : jsonScan D) depth v ts result,
  presents (decoder scan) (tokensOf v ++ ts) → scanValue fuel scan depth = Some result →
  outcome (admissible (maxDepth scan) depth v = true) (length (tokensOf v)) ts scan result.

Definition object_ok (fuel : nat) : Prop := ∀ (scan : jsonScan D) keys depth members ts result,
  presents (decoder scan) (memberTokens members ++ Delim closeObject :: ts) →
  scanObject fuel scan keys depth = Some result →
  outcome (NoDup (map fst members) ∧ (∀ k, k ∈ map fst members → k ∉ keys) ∧
      forallb (λ kv, admissible (maxDepth scan) (depth + 1) (snd kv)) members = true)
    (length (memberTokens members) + 1) ts scan result.

Definition array_ok (fuel : nat) : Prop := ∀ (scan : jsonScan D) depth elements ts result,
  presents (decoder scan) (elementTokens elements ++ Delim closeArray :: ts) →
  scanArray fuel scan depth = Some result →
  outcome (forallb (admissible (maxDepth scan) (depth + 1)) elements = true)
    (length (elementTokens elements) + 1) ts scan result.

Lemma value_ok_step fuel : object_ok fuel → array_ok fuel → value_ok (S fuel).
Proof.
  intros IHo IHa scan depth v ts result Hp. cbn [scanValue]. fold scanValue scanObject scanArray.
  destruct (tokensOf_first v) as (t0 & ts0 & Ev & _). rewrite Ev in Hp. cbn [app] in Hp.
  destruct (scanToken_presents scan _ _ Hp) as [[Hr ->]|(Hr & d' & Hd' & ->)].
  { intros [= <-]. apply outcome_refused. rewrite Ev. cbn [length]. lia. }
  set (scan1 := MkScan d' (remaining scan - 1) (maxDepth scan)).
  destruct v as [|s|members|elements]; injection Ev as <- <-; cbn [maxDepth scan1]; intros Hres.
  - injection Hres as <-. split; cbn; [|intros _; split_and!; [done|lia|done]]. split; [intros _; split; [done|lia]|done].
  - injection Hres as <-. split; cbn; [|intros _; split_and!; [done|lia|done]]. split; [intros _; split; [done|lia]|done].
  - cbn [admissible tokensOf length]. destruct (Z.ltb_spec (maxDepth scan) depth).
    { injection Hres as <-. apply outcome_refused. intros [Hok _]. bool_hyps. lia. }
    rewrite <- app_assoc in Hd'. cbn in Hres.
    specialize (IHo scan1 ∅ depth members ts _ Hd' Hres). rewrite length_app. cbn [length].
    eapply (outcome_after _ _ _ 1); [exact IHo|cbn; lia| |done]. cbn [maxDepth scan1].
    rewrite !andb_true_iff, Z.leb_le, bool_decide_eq_true. set_solver.
  - cbn [admissible tokensOf length]. destruct (Z.ltb_spec (maxDepth scan) depth).
    { injection Hres as <-. apply outcome_refused. intros [Hok _]. bool_hyps. lia. }
    rewrite <- app_assoc in Hd'. cbn in Hres.
    specialize (IHa scan1 depth elements ts _ Hd' Hres). rewrite length_app. cbn [length].
    eapply (outcome_after _ _ _ 1); [exact IHa|cbn; lia| |done]. cbn [maxDepth scan1].
    rewrite andb_true_iff, Z.leb_le. tauto.
Qed.

(** One part after another, and a part that fails. *)
Lemma outcome_seq (ok ok1 ok2 : Prop) n1 n2 mid rest scan scan1 result :
  outcome ok1 n1 mid scan (None, scan1) → outcome ok2 n2 rest scan1 result →
  (ok ↔ ok1 ∧ ok2) → outcome ok (n1 + n2) rest scan result.
Proof.
  intros [H1 H1'] [H2 H2'] Hok. cbn in H1, H1'. destruct (H1' eq_refl) as (_ & Hr & Hm).
  destruct (proj1 H1 eq_refl) as [Hok1 Hn1]. split.
  - rewrite H2, Hok, Hr, Nat2Z.inj_add. split; [intros [??]; split; [done|lia]|intros [[??]?]; split; [done|lia]].
  - intros H. destruct (H2' H) as (Hp & Hr' & Hm'). split_and!; [done|lia|by rewrite Hm'].
Qed.

Lemma outcome_failed (ok ok1 : Prop) n1 n2 mid rest scan e scan1 :
  outcome ok1 n1 mid scan (Some e, scan1) → (ok → ok1) → outcome ok (n1 + n2) rest scan (Some e, scan1).
Proof.
  intros [H1 _] Hok. apply outcome_refused. intros [Hok' Hn]. cbn in H1.
  enough (Some e = None) by done. apply H1. split; [by apply Hok|lia].
Qed.

Lemma object_ok_step fuel : value_ok fuel → object_ok fuel → object_ok (S fuel).
Proof.
  intros IHv IHo scan keys depth members ts result Hp. cbn [scanObject].
  fold scanValue scanObject scanArray. destruct members as [|[k v] members].
  { cbn in Hp. rewrite (presents_more _ _ _ Hp). intros [= <-].
    eapply outcome_iff; [|by apply scanEnd_outcome]. cbn.
    split; [intros _; split_and!; [constructor|set_solver|done]|done]. }
  unfold memberTokens in *. cbn [map concat fst snd app length Nat.add] in *. fold (memberTokens members) in *.
  rewrite <- app_assoc in Hp. rewrite (presents_more _ _ _ Hp). cbn [closes negb orb].
  destruct (scanToken_presents scan _ _ Hp) as [[Hr ->]|(Hr & d' & Hd' & ->)].
  { intros [= <-]. apply outcome_refused. lia. }
  set (scan1 := MkScan d' (remaining scan - 1) (maxDepth scan)).
  case_bool_decide as Hk.
  { intros [= <-]. apply outcome_refused. intros [(_ & Hfresh & _) _].
    apply (Hfresh k); [set_solver|done]. }
  destruct (scanValue fuel scan1 (depth + 1)) as [result1|] eqn:Ev; [|done].
  specialize (IHv scan1 _ _ _ _ Hd' Ev). intros Hres.
  replace (S (_ + 1))%nat with (1 + (length (tokensOf v) + (length (memberTokens members) + 1)))%nat
    by (rewrite length_app; lia).
  eapply (outcome_after _ _ _ 1 _ scan scan1); [|cbn; lia|reflexivity|done].
  destruct result1 as [[e|] scan2].
  { injection Hres as <-. eapply outcome_failed; [exact IHv|]. cbn. intros (_ & _ & H). by bool_hyps. }
  destruct (proj2 IHv eq_refl) as (Hp2 & _ & Hm2). cbn [snd] in *.
  specialize (IHo scan2 _ _ _ _ _ Hp2 Hres). rewrite Hm2 in IHo.
  eapply outcome_seq; [exact IHv|exact IHo|]. cbn. rewrite NoDup_cons, andb_true_iff. set_solver.
Qed.

Lemma array_ok_step fuel : value_ok fuel → array_ok fuel → array_ok (S fuel).
Proof.
  intros IHv IHa scan depth elements ts result Hp. cbn [scanArray].
  fold scanValue scanObject scanArray. destruct elements as [|v elements].
  { cbn in Hp. rewrite (presents_more _ _ _ Hp). intros [= <-].
    eapply outcome_iff; [|by apply scanEnd_outcome]. done. }
  unfold elementTokens in *. cbn [map concat] in *. fold (elementTokens elements) in *.
  rewrite <- app_assoc in Hp. rewrite length_app, <- Nat.add_assoc.
  destruct (tokensOf_first v) as (t0 & ts0 & Ev0 & Hc).
  assert (Hmore : More (decoder scan) = true).
  { rewrite Ev0 in Hp. cbn [app] in Hp. by rewrite (presents_more _ _ _ Hp), Hc. }
  rewrite Hmore. destruct (scanValue fuel scan (depth + 1)) as [result1|] eqn:Ev; [|done].
  specialize (IHv scan _ _ _ _ Hp Ev). intros Hres. destruct result1 as [[e|] scan2].
  { injection Hres as <-. eapply outcome_failed; [exact IHv|]. cbn. intros H. by bool_hyps. }
  destruct (proj2 IHv eq_refl) as (Hp2 & _ & Hm2). cbn [snd] in *.
  specialize (IHa scan2 _ _ _ _ Hp2 Hres). rewrite Hm2 in IHa.
  eapply outcome_seq; [exact IHv|exact IHa|]. cbn. by rewrite andb_true_iff.
Qed.

Lemma scan_exact fuel : value_ok fuel ∧ object_ok fuel ∧ array_ok fuel.
Proof.
  induction fuel as [|fuel (IHv & IHo & IHa)]; [by split_and!; repeat intro|].
  split_and!; auto using value_ok_step, object_ok_step, array_ok_step.
Qed.

Lemma validateJSON_iff utf8_Valid data (l0 l : Limits) (v : json) :
  normalise l0 = inr l →
  presents (NewDecoder (D:=D) data) (tokensOf v) →
  ∃ answer, validateJSON (D:=D) utf8_Valid data l = Some answer ∧
    (answer = None ↔
      (0 < zlen data ≤ MaxFrameBytes l ∧ utf8_Valid data = true) ∧
      isObject v = true ∧ admissible (MaxJSONDepth l) 1 v = true ∧
      zlen (tokensOf v) ≤ MaxJSONValues l).
Proof.
  intros (Hdepth & _)%normalise_bounded Hp. unfold validateJSON. set (gate := (zlen data =? 0) || _ || _).
  assert (Hgate : gate = false ↔ 0 < zlen data ≤ MaxFrameBytes l ∧ utf8_Valid data = true).
  { subst gate. rewrite !orb_false_iff, Z.eqb_neq, Z.ltb_ge, negb_false_iff.
    split; intros; destruct_and?; split_and!; try done; lia. }
  assert (Hrefused : ∀ P : Prop, ¬ P → ∃ answer, Some (Some ErrProtocol) = Some answer ∧ (answer = None ↔ P)).
  { intros P HP. eexists. split; [reflexivity|]. by split. }
  destruct gate; [apply Hrefused; intros [Hg _]; by apply Hgate in Hg|].
  set (scan := MkScan (NewDecoder data) (MaxJSONValues l) (MaxJSONDepth l)).
  destruct (tokensOf_first v) as (t0 & ts0 & Ev & _). rewrite Ev in Hp |- *.
  destruct (scanToken_presents scan t0 ts0 Hp) as [[Hr ->]|(Hr & d' & Hd' & ->)].
  { apply Hrefused. intros (_ & _ & _ & Hn). cbn in Hr, Hn. lia. }
  destruct v as [|s|members|elements]; injection Ev as <- <-; try (apply Hrefused; by intros (_ & ? & _)).
  rewrite bool_decide_eq_false_2 by (intros Hne; by apply Hne).
  set (scan1 := MkScan d' (remaining scan - 1) (maxDepth scan)). cbn [remaining maxDepth scan] in *.
  destruct (proj1 (proj2 (scan_total (scanFuel (MaxJSONValues l)))) scan1 ∅ 1) as (o & scan2 & Hobj & _).
  { unfold scanFuel. cbn. lia. }
  rewrite Hobj. destruct (proj1 (proj2 (scan_exact _)) scan1 ∅ 1 members [] _ Hd' Hobj) as [Hiff Hafter].
  cbn [fst snd] in *.
  assert (Hall : o = None ↔ isObject (JObject members) = true ∧
      admissible (MaxJSONDepth l) 1 (JObject members) = true ∧
      zlen (Delim openObject :: memberTokens members ++ [Delim closeObject]) ≤ MaxJSONValues l).
  { rewrite Hiff. cbn [isObject admissible length maxDepth scan1 remaining].
    rewrite !andb_true_iff, Z.leb_le, bool_decide_eq_true, length_app. cbn [length].
    split; intros; destruct_and?; split_and!; try done; lia. }
  destruct o as [e|].
  - eexists. split; [reflexivity|]. split; [done|]. intros (_ & H). by apply Hall in H.
  - destruct (Hafter eq_refl) as (Hend & _). destruct (presents_end _ Hend) as [d2 ->].
    eexists. split; [reflexivity|]. split; [|done]. intros _. split; [by apply Hgate|by apply Hall].
Qed.

(** C21: [validateJSON] always returns, and decides exactly what it promises:
    on a text of at most the permitted size that is valid UTF-8 and whose
    tokens are those of a JSON value, it accepts exactly when the value is an
    object, no object in it repeats a key, no container is nested deeper than
    the limit and the tokens are no more than the limit. *)
Theorem validateJSON_exact utf8_Valid data (l0 l : Limits) (v : json) :
  normalise l0 = inr l →
  presents (NewDecoder (D:=D) data) (tokensOf v) →
  ∃ answer, validateJSON (D:=D) utf8_Valid data l = Some answer ∧
    (answer = None ↔
      (0 < zlen data ≤ MaxFrameBytes l ∧ utf8_Valid data = true) ∧
      isObject v = true ∧ admissible (MaxJSONDepth l) 1 v = true ∧
      zlen (tokensOf v) ≤ MaxJSONValues l).
Proof. intros Hl Hp. by apply (validateJSON_iff utf8_Valid data l0). Qed.
End ScanExact.

(** A decoder over tokens already read. *)
Definition listDecoder (text : list Z → list Token) : Decoder (list Token) := {|
  NewDecoder := text;
  nextToken ts := match ts with [] => (inl EOF, []) | t :: ts => (inr t, ts) end;
  More ts := match ts with [] => false | t :: _ => negb (closes t) end;
|}.

Definition listStream text : @TokenStream (list Token) (listDecoder text).
Proof. refine (@Build_TokenStream _ (listDecoder text) (λ d ts, d = ts) _ _ _); intros; subst; cbn; eauto. Defined.

Definition sample_json : json :=
  JObject [("id"%string, JScalar); ("payload"%string, JObject [("x"%string, JArray [JScalar; JString "y"])])].

Lemma validateJSON_exact_witness :
  let decoder := listDecoder (λ _, tokensOf sample_json) in
  (∃ answer, validateJSON (λ _, true) [0x7B; 0x7D] (NewLimits 1048576 3 12) = Some answer ∧
    (answer = None ↔ (0 < zlen [0x7B; 0x7D] ≤ 1048576 ∧ true = true) ∧
      isObject sample_json = true ∧ admissible 3 1 sample_json = true ∧ zlen (tokensOf sample_json) ≤ 12)) ∧
  validateJSON (λ _, true) [0x7B; 0x7D] (NewLimits 1048576 3 12) = Some None ∧
  validateJSON (λ _, true) [0x7B; 0x7D] (NewLimits 1048576 2 12) = Some (Some ErrProtocol) ∧
  validateJSON (λ _, true) [0x7B; 0x7D] (NewLimits 1048576 3 11) = Some (Some ErrProtocol).
Proof.
  intros decoder. split.
  - apply (@validateJSON_exact _ decoder (listStream _) (λ _, true) [0x7B; 0x7D] (NewLimits 0 3 12)); reflexivity.
  - split_and!; vm_compute; reflexivity.
Defined.

(** ** Frames *)

Lemma Uint32_PutUint32 v : isU 32 v → Uint32 (PutUint32 v) = v.
Proof.
  unfold isU, PutUint32, Uint32, wrapU. intros Hv. rewrite !Z.shiftr_div_pow2 by lia.
  rewrite (lor_shiftl_add _ _ 8), (lor_shiftl_add _ _ 16), (lor_shiftl_add _ _ 24); try lia; unfold isU;
    Z.div_mod_to_equations; lia.
Qed.

(** Enough fuel: each turn of the loop takes at least a byte. *)
Lemma writeAll_total {W} `{!Writer W} fuel (w : W) data :
  (length data ≤ fuel)%nat → ∃ result, writeAll fuel w data = Some result.
Proof.
  revert w data. induction fuel as [|fuel IH]; intros w [|b data] Hf; cbn [length] in Hf; try lia;
    cbn [writeAll]; try (by eexists).
  destruct (WriterWrite w (b :: data)) as [w' [n f]]. repeat case_if; try (by eexists).
  bool_hyps. apply IH. rewrite length_drop. cbn [length] in *. lia.
Qed.

(** A writer that takes what it says it took, as [io.Writer] documents. *)
Class Delivers (W : Type) `{!Writer W} := {
  sent : W → list Z;
  sent_write w data w' n f :
    WriterWrite w data = (w', (n, f)) → 0 ≤ n ≤ zlen data → sent w' = sent w ++ take (Z.to_nat n) data;
}.

Lemma writeAll_sent {W} `{!Writer W, !Delivers W} fuel (w w' : W) data :
  writeAll fuel w data = Some (w', None) → sent w' = sent w ++ data.
Proof.
  revert w data. induction fuel as [|fuel IH]; intros w [|b data]; cbn [writeAll]; try done;
    try (intros [= <-]; by rewrite app_nil_r).
  destruct (WriterWrite w (b :: data)) as [w1 [n f]] eqn:Hw. repeat case_if; try done.
  bool_hyps. intros Hrest%IH. rewrite Hrest, (sent_write _ _ _ _ _ Hw) by lia.
  by rewrite <- app_assoc, take_drop.
Qed.

Lemma ReadFull_app (part rest : list Z) : ReadFull (part ++ rest) (zlen part) = Some (part, rest).
Proof.
  unfold ReadFull. rewrite length_app. case_if; bool_hyps; [lia|].
  rewrite Nat2Z.id, take_app_length, drop_app_length. done.
Qed.

(** ** The codec *)

Section CodecTotal.
Context {D : Type} `{!Decoder D} {W : Type} `{!Writer W} (J : JSON).

Lemma decodeMessage_total data l : ∃ r, decodeMessage (D:=D) J data l = Some r.
Proof.
  unfold decodeMessage, decodeStrict. destruct (validateJSON_total (utf8_Valid J) data l) as [[e|] ->]; [by eexists|].
  destruct (validateJSON_total (utf8_Valid J) data maximumLimits) as [[e|] ->]; [by eexists|].
  destruct (checkFieldNames _ _ _ _); [by eexists|]. destruct (Decode J data) as [wire|]; [|by eexists].
  destruct (eID wire); [|by eexists]. case_if; [by eexists|]. destruct (validateMessage _); by eexists.
Qed.

Lemma encodeMessage_total message l : ∃ r, encodeMessage (D:=D) J message l = Some r.
Proof.
  unfold encodeMessage. case_if; [by eexists|]. destruct (validateMessage message); [by eexists|].
  destruct (Marshal J _) as [data|]; [|by eexists].
  destruct (validateJSON_total (utf8_Valid J) data l) as [[e|] ->]; by eexists.
Qed.

(** Every read and every write returns, whatever the transport and the
    decoder do, and an error of either poisons the codec: it is failed from
    then on, and a failed codec refuses to read or to write, without touching
    its transport. *)
Theorem codec_operations_return (codec : Codec W) message :
  (∃ result codec', Read (D:=D) J codec = Some (result, codec') ∧
     (∀ error, result = inl error → failed codec' = true)) ∧
  (∃ result codec', Write (D:=D) J codec message = Some (result, codec') ∧
     (result ≠ None → failed codec' = true)) ∧
  (failed codec = true →
     Read (D:=D) J codec = Some (inl ErrClosed, codec) ∧ Write (D:=D) J codec message = Some (Some ErrClosed, codec)).
Proof.
  split_and!; [unfold Read|unfold Write|intros Hf; unfold Read, Write; by rewrite Hf].
  - destruct (failed codec) eqn:Hf; [by do 2 eexists; split; [reflexivity|]|]. unfold readFrame.
    destruct (ReadFull (reader codec) frameHeaderBytes) as [[header r]|]; [|by do 2 eexists; split].
    case_if; [by do 2 eexists; split|].
    destruct (ReadFull r (Uint32 header)) as [[data r']|]; [|by do 2 eexists; split].
    destruct (decodeMessage_total data (climits codec)) as [[e|m] ->]; by do 2 eexists; split.
  - destruct (failed codec) eqn:Hf; [by do 2 eexists; split; [reflexivity|]|].
    destruct (encodeMessage_total message (climits codec)) as [[e|data] ->]; [by do 2 eexists; split|].
    set (header := PutUint32 _). destruct (writeAll_total (length header) (writer codec) header) as [[w [e|]] ->];
      [done|by do 2 eexists; split|].
    destruct (writeAll_total (length data) w data) as [[w' [e|]] ->]; [done|by do 2 eexists; split..].
Qed.
End CodecTotal.

(** ** What is written is read back *)

Section RoundTrip.
Context {D : Type} `{!Decoder D, !TokenStream D} {W : Type} `{!Writer W, !Delivers W} (J : JSON).
(** The text [Marshal] gives a raw payload: its spaces dropped and the
    characters of HTML escaped. *)
Variable compact : list Z → list Z.

Definition envelopeOf (message : Message) : envelope :=
  MkEnvelope (Some (ID message)) (mKind message) (Payload message) version.

(** What [encoding/json] promises of an envelope it encodes: the text is a JSON
    value whose members are the four of the struct, and decodes to the
    envelope again, its payload compacted, and still an object if it was. *)
Record faithful : Prop := {
  ff_tokens message data :
    Marshal J (envelopeOf message) = Some data → ∃ v, presents (NewDecoder (D:=D) data) (tokensOf v);
  ff_members message data :
    Marshal J (envelopeOf message) = Some data →
    ∃ members, UnmarshalMembers J data = Some members ∧
      map fst members = ["id"; "kind"; "payload"; "version"]%string;
  ff_decode message data :
    Marshal J (envelopeOf message) = Some data → validateMessage message = None → isU 64 (ID message) →
    Decode J data = Some (MkEnvelope (Some (ID message)) (mKind message) (compact (Payload message)) version) ∧
    startsObject (compact (Payload message)) = startsObject (Payload message);
}.

(** Limits only grow what is accepted. *)
Lemma admissible_mono limit limit' depth v :
  limit ≤ limit' → admissible limit depth v = true → admissible limit' depth v = true.
Proof.
  intros Hl. revert depth v. fix IH 2. intros depth [|s|members|elements]; cbn; try done.
  - rewrite !andb_true_iff, !Z.leb_le. intros [[Hd Hk] Hm]. split_and!; [lia|done|].
    clear Hk. induction members as [|[k v] members IHm]; cbn in *; [done|]. apply andb_true_iff in Hm as [Hv Hm].
    apply andb_true_iff. split; [by apply IH|by apply IHm].
  - rewrite !andb_true_iff, !Z.leb_le. intros [Hd Hm]. split; [lia|].
    induction elements as [|v elements IHe]; cbn in *; [done|]. apply andb_true_iff in Hm as [Hv Hm].
    apply andb_true_iff. split; [by apply IH|by apply IHe].
Qed.

Lemma validateJSON_maximum l0 l data v :
  normalise l0 = inr l → presents (NewDecoder (D:=D) data) (tokensOf v) →
  validateJSON (D:=D) (utf8_Valid J) data l = Some None →
  validateJSON (D:=D) (utf8_Valid J) data maximumLimits = Some None.
Proof.
  intros Hl Hp Hv. destruct (normalise_bounded _ _ Hl) as (Hd & Hf & Hn).
  destruct (validateJSON_iff (utf8_Valid J) data l0 l v Hl Hp) as (a & Ha & Hiff).
  rewrite Hv in Ha. injection Ha as <-. destruct (proj1 Hiff eq_refl) as ((Hsize & Hutf) & Ho & Hadm & Htok).
  destruct (validateJSON_iff (utf8_Valid J) data maximumLimits maximumLimits v) as (a' & -> & Hiff'); [done..|].
  f_equal. apply Hiff'. cbn [MaxFrameBytes MaxJSONDepth MaxJSONValues maximumLimits].
  split_and!; try done; try lia. eapply admissible_mono; [|exact Hadm]. lia.
Qed.

Lemma envelope_schema data members :
  UnmarshalMembers J data = Some members → map fst members = ["id"; "kind"; "payload"; "version"]%string →
  checkFieldNames (UnmarshalMembers J) (UnmarshalElements J) envelopeType data = None.
Proof.
  intros Hm Hk. unfold envelopeType. cbn [checkFieldNames]. case_bool_decide; [done|].
  unfold checkObjectFields. cbn [map fst snd]. rewrite Hm.
  destruct members as [|[k1 v1] [|[k2 v2] [|[k3 v3] [|[k4 v4] [|]]]]]; try done.
  injection Hk as -> -> -> ->. reflexivity.
Qed.

Lemma decode_encoded message data l0 l :
  faithful → normalise l0 = inr l → isU 64 (ID message) →
  encodeMessage (D:=D) J message l = Some (inr data) →
  decodeMessage (D:=D) J data l = Some (inr (NewMessage (mKind message) (compact (Payload message)) (ID message))) ∧
  0 < zlen data ≤ MaxFrameBytes l.
Proof.
  intros Hff Hl Hid. unfold encodeMessage. case_if; [done|].
  destruct (validateMessage message) eqn:Hvm; [done|]. change (MkEnvelope _ _ _ _) with (envelopeOf message).
  destruct (Marshal J (envelopeOf message)) as [data'|] eqn:Hmar; [|done].
  destruct (validateJSON (utf8_Valid J) data' l) as [[e|]|] eqn:Hvj; intros [= <-].
  destruct (ff_tokens Hff _ _ Hmar) as [v Hp]. destruct (ff_members Hff _ _ Hmar) as (members & Hum & Hkeys).
  destruct (ff_decode Hff _ _ Hmar Hvm Hid) as [Hdec Hobj].
  unfold decodeMessage, decodeStrict. rewrite Hvj, (validateJSON_maximum l0 l data' v Hl Hp Hvj).
  rewrite (envelope_schema data' members Hum Hkeys), Hdec. cbn [eID eVersion eKind ePayload negb Z.eqb version].
  split.
  - enough (validateMessage (NewMessage (mKind message) (compact (Payload message)) (ID message)) = None) as -> by done.
    revert Hvm. unfold validateMessage. cbn. by rewrite Hobj.
  - destruct (validateJSON_iff (utf8_Valid J) data' l0 l v Hl Hp) as (a & Ha & Hiff).
    rewrite Hvj in Ha. injection Ha as <-. by destruct (proj1 Hiff eq_refl) as ((? & _) & _).
Qed.

(** C22: What a codec writes, a codec reads: when a write succeeds, the writer
    has taken, after what it had before and however it split the writes, one
    frame whose bytes another codec with the same limits reads back as the
    message, its payload compacted, leaving it at the byte after the frame. *)
Theorem frames_roundtrip l0 (codec codec' : Codec W) message :
  faithful → normalise l0 = inr (climits codec) → isU 64 (ID message) →
  Write (D:=D) J codec message = Some (None, codec') →
  ∃ frame, sent (writer codec') = sent (writer codec) ++ frame ∧
    ∀ rest (w : W), Read (D:=D) J (MkCodec (frame ++ rest) w (climits codec) false) =
      Some (inr (NewMessage (mKind message) (compact (Payload message)) (ID message)),
            MkCodec rest w (climits codec) false).
Proof.
  intros Hff Hl Hid. unfold Write. destruct (failed codec); [done|].
  destruct (encodeMessage J message (climits codec)) as [[e|data]|] eqn:Henc; try done.
  destruct (decode_encoded message data l0 (climits codec) Hff Hl Hid Henc) as [Hdec Hsize].
  destruct (normalise_bounded _ _ Hl) as (_ & Hf & _). change maximumFrameBytes with 8388608 in Hf.
  assert (Hu : IntToUint32 (zlen data) = zlen data).
  { unfold IntToUint32, MaxUint32. repeat case_if; bool_hyps; try lia. apply wrapU_id. unfold isU. lia. }
  rewrite Hu. set (header := PutUint32 (zlen data)).
  destruct (writeAll (length header) (writer codec) header) as [[w1 [e|]]|] eqn:Hw1; try done.
  destruct (writeAll (length data) w1 data) as [[w2 [e|]]|] eqn:Hw2; try done. intros [= <-].
  exists (header ++ data). split.
  - cbn [writer]. rewrite (writeAll_sent _ _ _ _ Hw2), (writeAll_sent _ _ _ _ Hw1). by rewrite app_assoc.
  - intros rest w. unfold Read, readFrame. cbn [failed reader climits].
    rewrite <- app_assoc. change frameHeaderBytes with (zlen header). rewrite ReadFull_app.
    subst header. rewrite Uint32_PutUint32 by (unfold isU; lia).
    case_if; [bool_hyps; lia|]. rewrite ReadFull_app, Hdec. done.
Qed.
End RoundTrip.

(** A concrete text for envelopes, and a writer that takes three bytes at a
    time. *)
Definition sampleKinds : list Kind := [Hello; Configure; Ready; Run; Result; Call; Reply; Close].

Fixpoint kindIndex (kinds : list Kind) (k : Kind) (i : Z) : option Z :=
  match kinds with
  | [] => None
  | k' :: kinds => if bool_decide (k' = k) then Some i else kindIndex kinds k (i + 1)
  end.

Definition sample_codec : JSON := {|
  utf8_Valid _ := true;
  UnmarshalMembers _ := Some [("id"%string, []); ("kind"%string, []); ("payload"%string, []); ("version"%string, [])];
  UnmarshalElements _ := None;
  Marshal e :=
    match eID e, kindIndex sampleKinds (eKind e) 0 with
    | Some id, Some k => Some (k :: id :: ePayload e)
    | _, _ => None
    end;
  Decode data :=
    match data with
    | k :: id :: payload =>
        (λ kind, MkEnvelope (Some id) kind payload version) <$> zget sampleKinds k
    | _ => None
    end;
|}.

Definition sample_decoder : Decoder (list Token) :=
  listDecoder (λ _, tokensOf (JObject [("id"%string, JScalar); ("kind"%string, JString "run");
    ("payload"%string, JObject []); ("version"%string, JScalar)])).

Definition chunked : Writer (list Z) := λ w data, (w ++ take 3 data, (Z.min 3 (zlen data), false)).

Lemma chunked_delivers : @Delivers (list Z) chunked.
Proof.
  refine (@Build_Delivers _ chunked (λ w, w) _).
  intros w data w' n f [= <- <- <-] _. f_equal. destruct (Z.min_spec 3 (zlen data)) as [[? ->]|[Hle ->]]; [done|].
  rewrite Nat2Z.id, !take_ge by lia. done.
Defined.

Lemma sample_faithful :
  @faithful _ sample_decoder (listStream _) sample_codec (λ p, p).
Proof.
  split.
  - intros. eexists. reflexivity.
  - intros. eexists. split; reflexivity.
  - intros [k payload id] data Hm _ _. cbn in Hm. split; [|done].
    destruct k; vm_compute in Hm; try done; injection Hm as <-; reflexivity.
Qed.

Lemma frames_roundtrip_witness :
  ∃ frame, [9] ++ frame = [9; 0; 0; 0; 4; 3; 7; 0x7B; 0x7D] ∧
    ∀ rest (w : list Z), @Read _ sample_decoder _ sample_codec (MkCodec (frame ++ rest) w (NewLimits 1048576 32 65536) false) =
      Some (inr (NewMessage Run [0x7B; 0x7D] 7), MkCodec rest w (NewLimits 1048576 32 65536) false).
Proof.
  destruct (@frames_roundtrip _ sample_decoder (listStream _) _ chunked chunked_delivers sample_codec (λ p, p)
    (NewLimits 0 0 0) (MkCodec [] [9] (NewLimits 1048576 32 65536) false)
    (MkCodec [] [9; 0; 0; 0; 4; 3; 7; 0x7B; 0x7D] (NewLimits 1048576 32 65536) false)
    (NewMessage Run [0x7B; 0x7D] 7)) as (frame & H1 & H2).
  - apply sample_faithful.
  - reflexivity.
  - unfold isU; cbn; lia.
  - vm_compute. reflexivity.
  - exists frame. split; [symmetry; exact H1|exact H2].
Defined.

Lemma codec_operations_return_witness :
  let codec := MkCodec [0; 0; 0; 0] [] (NewLimits 1048576 32 65536) false in
  (∃ result codec', @Read _ sample_decoder (list Z) sample_codec codec = Some (result, codec') ∧
     (∀ error, result = inl error → failed codec' = true)) ∧
  @Read _ sample_decoder (list Z) sample_codec codec =
    Some (inl ErrProtocol, MkCodec [] [] (NewLimits 1048576 32 65536) true).
Proof.
  split; [|reflexivity].
  exact (proj1 (@codec_operations_return _ sample_decoder _ chunked sample_codec
    (MkCodec [0; 0; 0; 0] [] (NewLimits 1048576 32 65536) false) (NewMessage Hello [] 0))).
Defined.
