(* ===== verification/Relocate.v ===== *)
(** * Instructions at another place

    An instruction copied to another program counter, its jump re-encoded, does
    there what it did: the same registers or the same stop, and control goes
    on after it or to its new target as before. *)

From S2P Require Import Prelude SafeConv Register Opcode Instruction Shapes Spec JumpLayout Jumps.
From S2P Require Import Extension Function Builder Verify VerifySound Machine MachineSafe MachineFlow.
From S2P Require Import FuseNarrow.

(** The words of an instruction and of its copy: equal but for the offset of
    a jump. *)
Definition relocated (body body' : list Instruction) (pc pc' : Z) (instr instr' : Instruction) : Prop :=
  match fst (JumpLayoutOf instr) with
  | JumpLayoutWord => iOp instr' = iOp instr ∧ iA instr' = iA instr
  | JumpLayoutExtension =>
      instr' = instr ∧ ∃ e e', zget body (pc + 1) = Some e ∧ zget body' (pc' + 1) = Some e' ∧
        iOp e = OpExt ∧ iOp e' = OpExt ∧ iC e' = iC e
  | JumpLayoutSecondExtension =>
      instr' = instr ∧ zget body' (pc' + 1) = zget body (pc + 1) ∧
      ∃ e e', zget body (pc + 2) = Some e ∧ zget body' (pc' + 2) = Some e' ∧
        iOp e = OpExt ∧ iOp e' = OpExt ∧ iC e' = iC e
  | JumpLayoutExtension24 | JumpLayoutExtensionBC => instr' = instr
  | JumpLayoutNone | JumpLayoutMultiWay =>
      instr' = instr ∧ ∀ j, 0 < j < span instr → zget body' (pc' + j) = zget body (pc + j)
  end.

(** The outcomes of an instruction at [pc] and of its copy at [pc']. *)
Definition alike (body body' : list Instruction) (pc pc' : Z) (instr : Instruction)
    (rc rc' : OpResult CallFrame) : Prop :=
  match rc, rc' with
  | opContinue y, opContinue y' =>
      registers y' = registers y ∧
      ((JumpTargetAt body pc = Some (ProgramCounter y) ∧
        JumpTargetAt body' pc' = Some (ProgramCounter y')) ∨
       (ProgramCounter y = pc + span instr ∧ ProgramCounter y' = pc' + span instr ∧
        hasFlag (shFlags (ShapeForInstruction instr)) ShapeFlagTerminator = false))
  | boundsError table index, boundsError table' index' => table = table' ∧ index = index'
  | integerDivideByZero, integerDivideByZero => True
  | indexPanic, indexPanic => True
  | _, _ => False
  end.

Definition relocates (slot : Z) (h : Handler) : Prop :=
  ∀ f body' pc pc' r instr instr',
    wf_instruction instr → wf_instruction instr' →
    flatDispatchIndex instr = slot → flatDispatchIndex instr' = slot →
    zget (Body f) pc = Some instr → zget body' pc' = Some instr' →
    well_extended (Body f) pc instr → relocated (Body f) body' pc pc' instr instr' →
    alike (Body f) body' pc pc' instr (h f (NewCallFrame (pc + 1) r) instr)
      (h (setBody f body') (NewCallFrame (pc' + 1) r) instr').

Ltac solve_relocates :=
  intros f body' pc pc' r [op a b c] [op' a' b' c'] Hwf Hwf' Hslot Hslot' Hg Hg' Hext Hrel;
  let Hshape := fresh "Hshape" in let Hlayout := fresh "Hlayout" in
  compute_tables Hwf Hslot Hshape Hlayout;
  let Hshape' := fresh "Hshape" in let Hlayout' := fresh "Hlayout" in
  compute_tables Hwf' Hslot' Hshape' Hlayout';
  unfold relocated, alike, well_extended, span, JumpFootprint, JumpTargetAt in *;
  rewrite Hg, Hg'; rewrite ?Hlayout, ?Hlayout', ?Hshape in *;
  clear Hshape Hlayout Hshape' Hlayout' Hslot Hslot' Hwf Hwf'; cbn in Hext, Hrel |- *; compute_flags;
  cbv iota in *;
  unfold singleJumpWordCount, extensionJumpWordCount, secondExtensionJumpWordCount,
    EqUintConstJumpFalseNopCount, RangeCheckUintFusionNopCount in *;
  repeat match goal with
  | H : _ ∧ _ |- _ => destruct H
  | H : ∃ _, _ |- _ => destruct H
  | H : NewInstruction _ _ _ _ = NewInstruction _ _ _ _ |- _ => injection H as -> -> -> ->
  end; cbn [iOp iA iB iC] in *; subst;
  unfold_operation; unfold readExtensionWord;
  cbn [registers ProgramCounter advance Body IntConstants UintConstants StringConstants BoolConstants setBody];
  replace (pc + 1 + 1) with (pc + 2) in * by lia; replace (pc' + 1 + 1) with (pc' + 2) in * by lia;
  repeat match goal with
  | H : ∀ j, 0 < j < 2 → zget body' _ = _ |- _ => specialize (H 1 ltac:(lia))
  | H : zget body' _ = zget ?b ?i, H' : zget ?b ?i = Some _ |- _ => rewrite H' in H
  | H : ∀ j, 0 < j < 1 → zget body' _ = _ |- _ => clear H
  | H : is_Some (extensionWordAt _ _) |- _ =>
      destruct H as [? [? ?]%extensionWordAt_Some]
  | H1 : zget ?b ?i = Some ?e, H2 : iOp ?e = OpExt |- context [extensionWordAt ?b ?i] =>
      rewrite (proj2 (extensionWordAt_Some b i e) (conj H1 H2))
  end; simplify_eq;
  repeat match goal with
  | |- context [?p + 1 + 1] => replace (p + 1 + 1) with (p + 2) by lia
  | H : zget ?b ?i = Some _ |- context [zget ?b ?i] => rewrite H
  | |- context [getInt ?r ?i] => destruct (getInt r i)
  | |- context [getUint ?r ?i] => destruct (getUint r i)
  | |- context [getString ?r ?i] => destruct (getString r i)
  | |- context [getBool ?r ?i] => destruct (getBool r i)
  | |- context [setInt ?r ?i ?v] => destruct (setInt r i v)
  | |- context [setUint ?r ?i ?v] => destruct (setUint r i v)
  | |- context [setString ?r ?i ?v] => destruct (setString r i v)
  | |- context [setBool ?r ?i ?v] => destruct (setBool r i v)
  | |- context [match zget ?l ?i with _ => _ end] => destruct (zget l i)
  | _ => progress cbn [mbind OpResult_bind mret OpResult_ret withRegisters registers
           ProgramCounter advance]
  | |- context [if ?b then _ else _] => destruct b
  end; try done;
  cbn [mbind option_bind] in *; unfold EqUintConstJumpFalseNopCount, RangeCheckUintFusionNopCount in *;
  first
    [ split; [reflexivity|]; right; split_and!; [lia|lia|reflexivity]
    | split; [reflexivity|]; left; split; f_equal; lia ].

Lemma relocates_arms : Forall (λ arm, relocates (fst arm) (snd arm)) flatDispatchArms.
Proof. per_arm solve_relocates. Qed.
