(* ===== verification/OpenMachine.v ===== *)
(** * The machine with every operation

    Functions mix the operations [Machine] defines with many it does not:
    calls, heap accesses, channels.  Here a step of such an operation is
    whatever an interpretation of the others makes of its words, the registers
    and the rest of the world, and control goes where its jump layout or the
    rows of a type switch ([vm_handler_type_switch_jump.go]) say.  A property of
    all runs of this machine holds whatever the others do. *)

From S2P Require Import Prelude SafeConv Register Opcode Instruction Shapes Spec JumpLayout Jumps.
From S2P Require Import Extension Function Verify VerifySound Machine MachineSafe MachineFlow.
From S2P Require Import FuseNarrow PassFacts Liveness.

(** The extension words that follow the word at [pc]. *)
Fixpoint extensionRun (words : list Instruction) : list Instruction :=
  match words with
  | word :: words => if iOp word =? OpExt then word :: extensionRun words else []
  | [] => []
  end.

Definition extensionsAt (body : list Instruction) (pc : Z) : list Instruction :=
  extensionRun (drop (Z.to_nat (pc + 1)) body).

(** Where [handleSubOpTypeSwitchJump] goes when row [k] of the table at [pc]
    matches; past the last row, the default. *)
Fixpoint switchTarget (body : list Instruction) (pc : Z) (k : nat) : option Z :=
  match zget body pc with
  | None => None
  | Some row =>
      if iOp row =? OpTypeSwitchCase then
        match k with
        | O => Some (pc + 1 + SignedOffset row)
        | S k => switchTarget body (pc + 1) k
        end
      else if InstrIsTier1SubOp row SubOpJump then Some (pc + 1 + SignedOffset row)
      else None
  end.

Inductive edge := fallThrough | takeJump | switchRow (k : nat).

Definition edgeTarget (body : list Instruction) (pc : Z) (instr : Instruction) (e : edge) : option Z :=
  match e with
  | fallThrough => Some (pc + instructionFootprint body pc)
  | takeJump => JumpTargetAt body pc
  | switchRow k =>
      if InstrIsTier1SubOp instr SubOpTypeSwitchJump then switchTarget body (pc + 1) k else None
  end.

(** What a frame that panics leaves to a deferred call that recovers: its
    result slots. *)
Definition resultValues (f : CompiledFunction) (r : Registers) : list (option RegValue) :=
  if existsb (λ inst, iOp inst =? OpDefer) (Body f) then
    mjoin (map (λ kind, map (readReg r kind) (seqZ 0 (returnSlotCount f kind)))
      [RegisterInt; RegisterUint; RegisterString; RegisterBool])
  else [].

Section open_machine.
Context {W O : Type}.

(** What an operation does that [Machine] leaves out: it goes on in another
    world, with other registers, along an edge, or it ends the frame. *)
Inductive effect :=
  | goesOn (w : W) (r : Registers) (e : edge)
  | endsWith (o : O).

Context (others : W → Instruction → list Instruction → Registers → effect).

(** How a frame ends: at the end of its body, by an operation of the others,
    with an interpreted panic, or with a fault of the interpreter itself. *)
Inductive ending :=
  | ranOff (w : W)
  | ended (o : O)
  | panicked (w : W) (results : list (option RegValue))
  | faulted.

Inductive next :=
  | goto (w : W) (frame : CallFrame)
  | done_ (e : ending).

Definition openStep (f : CompiledFunction) (w : W) (frame : CallFrame) : next :=
  let pc := ProgramCounter frame in
  if zlen (Body f) <=? pc then done_ (ranOff w)
  else match zget (Body f) pc with
  | None => done_ faulted
  | Some instr =>
      match flatDispatchSwitch instr with
      | Some h =>
          match h f (advance frame 1) instr with
          | opContinue frame' => goto w frame'
          | integerDivideByZero => done_ (panicked w (resultValues f (registers frame)))
          | boundsError _ _ | indexPanic => done_ faulted
          end
      | None =>
          match others w instr (extensionsAt (Body f) pc) (registers frame) with
          | endsWith o => done_ (ended o)
          | goesOn w' r e =>
              match edgeTarget (Body f) pc instr e with
              | Some pc' => goto w' (NewCallFrame pc' r)
              | None => done_ faulted
              end
          end
      end
  end.

Inductive ends (f : CompiledFunction) (w : W) (frame : CallFrame) : ending → Prop :=
  | ends_now e : openStep f w frame = done_ e → ends f w frame e
  | ends_later w' frame' e : openStep f w frame = goto w' frame' → ends f w' frame' e → ends f w frame e.

(** The same by running [fuel] steps. *)
Fixpoint runFor (fuel : nat) (f : CompiledFunction) (w : W) (frame : CallFrame) : option ending :=
  match fuel with
  | 0%nat => None
  | S fuel =>
      match openStep f w frame with
      | goto w frame => runFor fuel f w frame
      | done_ e => Some e
      end
  end.

Lemma runFor_ends fuel f w frame e : runFor fuel f w frame = Some e → ends f w frame e.
Proof.
  revert w frame. induction fuel as [|fuel IH]; intros w frame; [done|]. cbn [runFor].
  destruct (openStep f w frame) as [w' frame'|e'] eqn:Hs.
  - intros H. by eapply ends_later; [exact Hs|apply IH].
  - intros [= <-]. by apply ends_now.
Qed.

Lemma ends_runFor f w frame e : ends f w frame e → ∃ fuel, runFor fuel f w frame = Some e.
Proof.
  induction 1 as [w frame e Hs|w frame w' frame' e Hs _ [fuel IH]].
  - exists 1%nat. cbn. by rewrite Hs.
  - exists (S fuel). cbn. by rewrite Hs.
Qed.

Lemma runFor_more n m f w frame e : runFor n f w frame = Some e → runFor (n + m) f w frame = Some e.
Proof.
  revert w frame. induction n as [|n IH]; intros w frame; [done|]. cbn [runFor plus].
  destruct (openStep f w frame); [apply IH|done].
Qed.

Lemma ends_unique f w frame e e' : ends f w frame e → ends f w frame e' → e = e'.
Proof.
  intros [n H]%ends_runFor [m H']%ends_runFor.
  apply (runFor_more _ m) in H. apply (runFor_more _ n) in H'. rewrite Nat.add_comm in H'. congruence.
Qed.

(** Steps of modelled operations, however many. *)
Inductive reaches (f : CompiledFunction) : CallFrame → CallFrame → Prop :=
  | reaches_here x : reaches f x x
  | reaches_step x y z : dispatchStep f x = Some (opContinue y) → reaches f y z → reaches f x z.

Lemma openStep_dispatch f w x y : dispatchStep f x = Some (opContinue y) → openStep f w x = goto w y.
Proof.
  unfold dispatchStep, openStep. case_if; [done|]. destruct (zget _ _) as [instr|]; [|done].
  destruct (flatDispatchSwitch instr) as [h|]; [|done]. cbn. intros [= Hr]. by rewrite Hr.
Qed.

Lemma ends_reaches f w x y e : reaches f x y → ends f w y e → ends f w x e.
Proof.
  induction 1 as [|x z y Hs _ IH]; [done|]. intros He. eapply ends_later; [by apply openStep_dispatch|].
  by apply IH.
Qed.

Lemma runFor_modelled fuel f w x e instr h :
  runFor fuel f w x = Some e → e ≠ faulted → zget (Body f) (ProgramCounter x) = Some instr →
  flatDispatchSwitch instr = Some h →
  (h f (advance x 1) instr = integerDivideByZero) ∨
  ∃ y m, fuel = S m ∧ h f (advance x 1) instr = opContinue y ∧ runFor m f w y = Some e.
Proof.
  intros Hrun Hne Hg Hd. destruct fuel as [|fuel]; [done|]. cbn [runFor] in Hrun.
  unfold openStep in Hrun. pose proof (zget_Some_range _ _ _ Hg).
  rewrite (proj2 (Z.leb_gt _ _)), Hg, Hd in Hrun by lia.
  destruct (h f (advance x 1) instr) as [y| | |]; [right; by exists y, fuel|congruence|by left|congruence].
Qed.

(** A run that does not fault carries a relation with the states of another
    body to its end, when from related states it ends as a run of the other
    does, or gets to related states. *)
Section simulation.
Context (f g : CompiledFunction) (R : W → CallFrame → CallFrame → Prop).
Context (Hsim : ∀ fuel w x y e, R w x y → runFor fuel f w x = Some e → e ≠ faulted →
  ends g w y e ∨
  ∃ m w' x' y', (m < fuel)%nat ∧ runFor m f w' x' = Some e ∧
    (∀ e, ends g w' y' e → ends g w y e) ∧ R w' x' y').

Lemma simulated w x y e : R w x y → ends f w x e → e ≠ faulted → ends g w y e.
Proof.
  intros HR [fuel Hrun]%ends_runFor Hne.
  revert w x y HR Hrun. induction (lt_wf fuel) as [fuel _ IH]. intros w x y HR Hrun.
  destruct (Hsim fuel w x y e HR Hrun Hne) as [?|(m & w' & x' & y' & Hm & Hf & Hg & HR')]; [done|].
  apply Hg. by apply (IH m Hm w' x').
Qed.
End simulation.
End open_machine.
