(* ===== verification/LivenessSound.v ===== *)
(** * Dead registers do not matter

    Two runs of a function whose register files differ in dead registers alone
    do the same: the search of [Liveness] against the machine. *)

From S2P Require Import Prelude SafeConv Register Opcode Instruction Shapes Spec JumpLayout Jumps.
From S2P Require Import Extension Function Verify VerifySound Machine MachineSafe MachineFlow.
From S2P Require Import FuseNarrow PassFacts Relocate Liveness OpenMachine.

Lemma zget_elem {A} (l : list A) i x : zget l i = Some x → x ∈ l.
Proof.
  intros Hg. pose proof (zget_Some_range _ _ _ Hg). rewrite zget_lookup in Hg by lia.
  by apply list_elem_of_lookup_2 in Hg.
Qed.

(** ** The verdict on an instruction *)

Fixpoint extensionsVerdict (n : nat) (body : list Instruction) (owner pc : Z) (kind : RegisterKind) (reg : Z)
    : walkVerdict :=
  match n with
  | O => walkContinue
  | S n =>
      match verdictFor (extensionWordUse body owner pc kind reg) with
      | walkContinue => extensionsVerdict n body owner (pc + 1) kind reg
      | verdict => verdict
      end
  end.

Lemma extensionsVerdict_not_branch n body owner pc kind reg :
  extensionsVerdict n body owner pc kind reg ≠ walkBranch.
Proof.
  revert pc. induction n as [|n IH]; intros pc; cbn [extensionsVerdict]; [done|].
  destruct (verdictFor _) eqn:Hv; [apply IH|done..|]. by destruct (extensionWordUse _ _ _ _ _) as [[] []].
Qed.

(** What the search makes of an instruction and its extension words. *)
Definition opVerdict (f : CompiledFunction) (pc : Z) (instr : Instruction) (kind : RegisterKind) (reg : Z)
    : walkVerdict :=
  if IsReturnInstruction instr then (if reg <? returnSlotCount f kind then walkLive else walkDead)
  else match verdictFor (classify f instr kind reg) with
  | walkContinue =>
      if bool_decide (fst (JumpLayoutOf instr) ≠ JumpLayoutNone) then walkBranch
      else extensionsVerdict (Z.to_nat (instructionFootprint (Body f) pc - 1)) (Body f) pc (pc + 1) kind reg
  | verdict => verdict
  end.

Lemma footprintFrom_end fuel body pc width i :
  0 <= pc → 1 <= width → zlen body <= Z.of_nat fuel + width - 1 →
  zget body (pc + footprintFrom fuel body pc width) = Some i → iOp i ≠ OpExt.
Proof.
  revert width. induction fuel as [|fuel IH]; intros width Hpc Hw Hf; cbn [footprintFrom].
  { intros Hg%zget_Some_range. lia. }
  destruct (zget body (pc + width)) as [word|] eqn:Hg; [|congruence].
  destruct (iOp word =? OpExt) eqn:He; [apply IH; lia|]. bool_hyps. congruence.
Qed.

(** The word after an instruction that is no jump is no extension word. *)
Lemma footprint_end body pc instr i :
  zget body pc = Some instr → fst (JumpLayoutOf instr) = JumpLayoutNone →
  zget body (pc + instructionFootprint body pc) = Some i → iOp i ≠ OpExt.
Proof.
  intros Hg Hl. unfold instructionFootprint. rewrite Hg, bool_decide_eq_false_2 by (intros ?; done).
  apply zget_Some_range in Hg. apply footprintFrom_end; lia.
Qed.

Section dead_steps.
Context (f : CompiledFunction) (kind : RegisterKind) (reg : Z).

#[local] Notation body := (Body f).
#[local] Notation Dead := (Dead f kind reg).

Lemma extensionsVerdict_dead E n pc owner :
  (∀ j, pc <= j < pc + Z.of_nat n → ∃ word, zget body j = Some word ∧ iOp word = OpExt) →
  deadOn f kind reg E pc owner →
  extensionsVerdict n body owner pc kind reg ≠ walkLive ∧
  (extensionsVerdict n body owner pc kind reg = walkContinue →
   deadOn f kind reg E (pc + Z.of_nat n) owner).
Proof.
  revert pc. induction n as [|n IH]; intros pc Hext Hd; cbn [extensionsVerdict].
  { split; [done|]. intros _. by replace (pc + Z.of_nat 0) with pc by lia. }
  destruct (Hext pc ltac:(lia)) as (word & Hg & Hop).
  assert (Hw : walkStep f kind reg word pc owner = (verdictFor (extensionWordUse body owner pc kind reg), owner))
    by (unfold walkStep; by rewrite Hop).
  assert (Hnb : verdictFor (extensionWordUse body owner pc kind reg) ≠ walkBranch)
    by (destruct (extensionWordUse _ _ _ _ _) as [[] []]; done).
  destruct Hd as [pc owner H|pc owner i o H H'|pc owner i o H H' Hn|pc owner i o t H H']; simplify_eq;
    rewrite Hw in H'; injection H' as Hv <-; rewrite Hv; [done| |congruence].
  replace (pc + Z.of_nat (S n)) with (pc + 1 + Z.of_nat n) by lia. apply IH; [|done].
  intros j Hj. apply Hext. lia.
Qed.

(** A dead register is not read, and stays dead where control goes on. *)
Lemma Dead_step pc instr :
  Dead pc → zget body pc = Some instr → iOp instr ≠ OpExt →
  opVerdict f pc instr kind reg ≠ walkLive ∧
  (opVerdict f pc instr kind reg = walkContinue → Dead (pc + instructionFootprint body pc)) ∧
  (opVerdict f pc instr kind reg = walkBranch →
   fst (JumpLayoutOf instr) ≠ JumpLayoutMultiWay ∧
   (∀ target, JumpTargetAt body pc = Some target → Dead target) ∧
   (InstrIsTier1SubOp instr SubOpJump = false → Dead (pc + instructionFootprint body pc))).
Proof.
  intros (Hr & E & Hclosed & Hd) Hg Hop.
  assert (Hin : ∀ s, s ∈ E → Dead s) by (intros s Hs; by eapply Dead_entered).
  unfold opVerdict. destruct Hd as [pc owner H|pc owner i o H H'|pc owner i o H H' Hn|pc owner i o t H H' Hm Ht Hin1 Hin2];
    rewrite Hg in H; [discriminate H|injection H as <-..]; unfold walkStep in H'; rewrite (proj2 (Z.eqb_neq _ _)) in H' by done.
  - destruct (IsReturnInstruction instr); [case_if; done|].
    destruct (classify f instr kind reg) as [[] []]; cbn in *; try done; by case_bool_decide.
  - destruct (IsReturnInstruction instr); [by case_if|].
    destruct (classify f instr kind reg) as [[] []]; cbn in *; try done.
    case_bool_decide as Hl; [done|]. injection H' as <-.
    pose proof (instructionFootprint_pos body pc) as Hpos.
    destruct (extensionsVerdict_dead E (Z.to_nat (instructionFootprint body pc - 1)) (pc + 1) pc) as [H1 H2].
    { intros j Hj. unfold instructionFootprint in Hj. rewrite Hg in Hj.
      rewrite bool_decide_eq_false_2 in Hj by (intros ?; done).
      apply (footprintFrom_words (length body) body pc 1). lia. }
    { exact Hn. }
    split; [exact H1|]. split.
    2: { by intros ?%extensionsVerdict_not_branch. }
    intros Hc. specialize (H2 Hc). split; [exact Hr|]. exists E. split; [done|].
    replace (pc + 1 + Z.of_nat (Z.to_nat (instructionFootprint body pc - 1)))
      with (pc + instructionFootprint body pc) in H2 by lia.
    destruct (zget body (pc + instructionFootprint body pc)) as [i|] eqn:Hi; [|by apply dead_end].
    eapply deadOn_owner; [exact Hi| |exact H2]. intros Hext.
    by apply (footprint_end body pc instr i).
  - destruct (IsReturnInstruction instr); [by case_if|].
    destruct (classify f instr kind reg) as [[] []]; cbn in *; try done.
    case_bool_decide as Hl; [|done]. split; [done|]. split; [done|]. intros _. split; [done|].
    split; [intros target' Ht'; simplify_eq; by apply Hin|]. intros Hj.
    destruct Hin2 as [?|Hf]; [congruence|]. unfold instructionFootprint. rewrite Hg.
    rewrite bool_decide_eq_true_2 by done. by apply Hin.
Qed.
End dead_steps.

(** ** The modelled operations *)

(** No operand of the slot that is read or written has its bank elsewhere, and
    the slot is no call and no return. *)
Definition plain_slot (slot : Z) : bool :=
  let shape := ShapeForInstruction (slotInstruction slot) in
  hasFlag (shFlags shape) ShapeFlagDescribed &&
  forallb (λ '(position, role, _),
    negb ((mask_at (shReads shape) position || mask_at (shWrites shape) position) &&
          bool_decide (role = RoleRegDynamic))) (operands zeroInstruction shape).

Definition call_slots : list Z :=
  map (Z.add flatHandlerTier1Base) [SubOpCall; SubOpCallScalar; SubOpCallMethod; SubOpCallMethodInlineable;
    SubOpCallNative; SubOpCallIIFE; SubOpTailCall].

Definition return_slots : list Z :=
  [flatHandlerTier2Base + SubOpTier2Return; flatHandlerTier3Base + SubOpTier3ReturnVoid].

Definition extended_slots : list Z :=
  map (Z.add flatHandlerTier1Base) [SubOpAddUintConst; SubOpSubUintConst; SubOpBitAndUintConst].

Definition extended_known (slot : Z) : bool :=
  let instr := slotInstruction slot in
  negb (bool_decide (fst (JumpLayoutOf instr) = JumpLayoutNone) &&
        hasFlag (shFlags (ShapeForInstruction instr)) ShapeFlagFollowsExtension) ||
  one_of slot extended_slots.

Lemma modelled_slots :
  Forall (λ arm : Z * Handler, (fst arm = OpTruncateNarrow ∨ plain_slot (fst arm) = true) ∧
    one_of (fst arm) (call_slots ++ return_slots) = false ∧ extended_known (fst arm) = true) flatDispatchArms.
Proof.
  unfold flatDispatchArms.
  repeat apply Forall_cons_2;
    [split_and!; [first [right; vm_compute; reflexivity|by left]|vm_compute; reflexivity..]..|apply Forall_nil_2].
Qed.

Section modelled.
Context (instr : Instruction) (h : Handler).
Context (Hwf : wf_instruction instr) (Hd : flatDispatchSwitch instr = Some h).

Lemma modelled_slot :
  (flatDispatchIndex instr = OpTruncateNarrow ∨ plain_slot (flatDispatchIndex instr) = true) ∧
  one_of (flatDispatchIndex instr) (call_slots ++ return_slots) = false ∧
  extended_known (flatDispatchIndex instr) = true.
Proof.
  exact (forall_arms (λ slot _, (slot = OpTruncateNarrow ∨ plain_slot slot = true) ∧
    one_of slot (call_slots ++ return_slots) = false ∧ extended_known slot = true) modelled_slots _ _ Hd).
Qed.

Lemma modelled_not_return : IsReturnInstruction instr = false.
Proof.
  destruct (IsReturnInstruction instr) eqn:Hr; [|done]. destruct modelled_slot as (_ & Hno & _).
  cut (flatDispatchIndex instr ∈ return_slots).
  { unfold return_slots. rewrite !elem_of_cons, elem_of_nil. intros [H|[H|[]]]; rewrite H in Hno; discriminate Hno. }
  unfold IsReturnInstruction in Hr. unfold flatDispatchIndex.
  change OpDrillTier1 with 0 in Hr. change SubOpDrillTier2 with 0 in Hr. change SubOpTier2DrillTier3 with 0 in Hr.
  destruct (iOp instr =? 0), (iA instr =? 0); try discriminate Hr. cbn [negb].
  destruct (iB instr =? SubOpTier2Return) eqn:Hb; bool_hyps.
  { rewrite Hb. apply list_elem_of_here. }
  destruct (iB instr =? 0); [|discriminate Hr]. cbn [negb andb] in *. bool_hyps. rewrite Hr.
  apply list_elem_of_further, list_elem_of_here.
Qed.

Lemma modelled_not_call f kind reg :
  classify f instr kind reg = instructionRegisterUse instr kind (RoleForKind kind) reg.
Proof.
  unfold classify. destruct (iOp instr =? OpDrillTier1) eqn:Ho; [|done]. bool_hyps.
  destruct modelled_slot as (_ & Hno & _).
  assert (Hc : iA instr ∉ [SubOpCall; SubOpCallScalar; SubOpCallMethod; SubOpCallMethodInlineable;
    SubOpCallNative; SubOpCallIIFE; SubOpTailCall]).
  { intros Hin. assert (Hslot : flatDispatchIndex instr = flatHandlerTier1Base + iA instr).
    { unfold flatDispatchIndex. rewrite Ho. change (OpDrillTier1 =? 0) with true. cbn [negb].
      assert (iA instr ≠ 0) by (intros H0; rewrite H0, <- one_of_spec in Hin; discriminate Hin).
      by rewrite (proj2 (Z.eqb_neq _ _)). }
    apply not_true_iff_false in Hno. apply Hno, one_of_spec, elem_of_app. left. rewrite Hslot.
    by apply list_elem_of_fmap_2. }
  rewrite !elem_of_cons in Hc. unfold classifyCall.
  assert (one_of (iA instr) [SubOpCall; SubOpCallScalar; SubOpCallMethod; SubOpCallMethodInlineable;
    SubOpCallNative; SubOpCallIIFE] = false) as ->.
  { apply not_true_is_false. rewrite one_of_spec, !elem_of_cons. tauto. }
  destruct (iA instr =? SubOpTailCall) eqn:Ht; [|done]. bool_hyps. tauto.
Qed.
End modelled.

Section modelled_use.
Context (instr : Instruction) (Hwf : wf_instruction instr).
Context (Hplain : plain_slot (flatDispatchIndex instr) = true).

Lemma plain_operands position role reg :
  (position, role, reg) ∈ operands instr (ShapeForInstruction instr) →
  mask_at (shReads (ShapeForInstruction instr)) position = true ∨
  mask_at (shWrites (ShapeForInstruction instr)) position = true → role ≠ RoleRegDynamic.
Proof.
  destruct (slot_tables instr _ Hwf eq_refl) as [Hshape _]. intros Hop Hm ->.
  unfold plain_slot in Hplain. rewrite <- Hshape in Hplain. bool_hyps.
  match goal with H : forallb _ _ = true |- _ => rewrite forallb_forall in H; rename H into Hf end.
  specialize (Hf (position, RoleRegDynamic, 0)). cbv beta iota in Hf.
  rewrite bool_decide_eq_true_2, (proj2 (orb_true_iff _ _) Hm) in Hf by done.
  discriminate Hf. apply list_elem_of_In in Hop. cbn in Hop |- *. intuition congruence.
Qed.

Lemma plain_described : hasFlag (shFlags (ShapeForInstruction instr)) ShapeFlagDescribed = true.
Proof.
  destruct (slot_tables instr _ Hwf eq_refl) as [Hshape _].
  unfold plain_slot in Hplain. rewrite <- Hshape in Hplain. by bool_hyps.
Qed.

End modelled_use.

(** Named registers are those the search sees used. *)
Lemma namedBy_use instr mask bank reg :
  (∀ p role r, (p, role, r) ∈ operands instr (ShapeForInstruction instr) → mask_at mask p = true →
    role ≠ RoleRegDynamic) →
  (bank, reg) ∈ namedBy (ShapeForInstruction instr) mask instr →
  existsb (λ o : Z * OperandRole * Z,
    ((let '(_, role, r) := o in (r =? reg) && operandMayNameBank instr (ShapeForInstruction instr) role (RoleForKind bank) bank)
      && mask_at mask (fst (fst o)))) (operands instr (ShapeForInstruction instr)) = true.
Proof.
  intros Hnd Hin. apply list_elem_of_join in Hin as (l & Hin & Hl).
  apply list_elem_of_In, in_map_iff in Hl as ([[p role] r] & <- & Hop%list_elem_of_In).
  destruct (mask_at mask p) eqn:Em; [|by apply not_elem_of_nil in Hin].
  apply list_elem_of_In, in_map_iff in Hin as (bank' & [= -> ->] & Hbank%list_elem_of_In).
  specialize (Hnd p role reg Hop Em). apply existsb_exists. exists (p, role, reg).
  split; [by apply list_elem_of_In|]. cbn [fst]. rewrite Em, Z.eqb_refl. unfold operandMayNameBank.
  rewrite bool_decide_eq_true_2; [done|].
  symmetry. apply Shapes.RoleForKind_KindForRole. destruct role; try done; cbn in Hbank |- *; set_solver.
Qed.

Lemma use_namedBy instr mask bank reg :
  bank ∈ allRegisterKinds →
  (∀ p role r, (p, role, r) ∈ operands instr (ShapeForInstruction instr) → mask_at mask p = true →
    role ≠ RoleRegDynamic) →
  existsb (λ o : Z * OperandRole * Z,
    ((let '(_, role, r) := o in (r =? reg) && operandMayNameBank instr (ShapeForInstruction instr) role (RoleForKind bank) bank)
      && mask_at mask (fst (fst o)))) (operands instr (ShapeForInstruction instr)) = true →
  (bank, reg) ∈ namedBy (ShapeForInstruction instr) mask instr.
Proof.
  intros Hbank Hnd [([p role] & r) [Hop%list_elem_of_In Hu]]%existsb_exists. cbn [fst] in Hu. bool_hyps. subst.
  match goal with H : operandMayNameBank _ _ _ _ _ = true |- _ => rename H into Hn end.
  assert (Hr : role = RoleForKind bank).
  { specialize (Hnd p role reg Hop ltac:(done)). unfold operandMayNameBank in Hn.
    case_bool_decide; [done|]. rewrite bool_decide_eq_false_2 in Hn by done. done. }
  apply list_elem_of_join. exists (map (λ b, (b, reg)) (roleBanks role)). split.
  2: { apply list_elem_of_In, in_map_iff. exists (p, role, reg). split; [|by apply list_elem_of_In].
       cbv beta iota. by match goal with H : mask_at mask p = true |- _ => rewrite H end. }
  apply list_elem_of_In, in_map_iff. exists bank. split; [done|]. apply list_elem_of_In. rewrite Hr. revert Hbank. clear.
  intros Hb. rewrite elem_allRegisterKinds in Hb. change NumRegisterKinds with 13 in Hb.
  assert (bank = 0 ∨ bank = 1 ∨ bank = 2 ∨ bank = 3 ∨ bank = 4 ∨ bank = 5 ∨ bank = 6 ∨ bank = 7 ∨ bank = 8
    ∨ bank = 9 ∨ bank = 10 ∨ bank = 11 ∨ bank = 12) as Hc by lia.
  destruct_or! Hc; subst; apply list_elem_of_here.
Qed.

(** ** Runs that differ in dead registers *)

Definition differ (r1 r2 : Registers) (kind : RegisterKind) (reg : Z) : Prop :=
  readReg r1 kind reg ≠ readReg r2 kind reg.

Lemma differ_bank r1 r2 kind reg : differ r1 r2 kind reg → kind ∈ allRegisterKinds.
Proof.
  unfold differ, readReg. intros H. apply elem_allRegisterKinds. change NumRegisterKinds with 13.
  repeat (destruct (_ =? _) eqn:?; bool_hyps; [subst; vm_compute; split; congruence|]). done.
Qed.

Lemma differ_dec r1 r2 kind reg : differ r1 r2 kind reg ∨ readReg r1 kind reg = readReg r2 kind reg.
Proof.
  unfold differ. assert (EqDecision RegValue) as He by solve_decision.
  destruct (decide (readReg r1 kind reg = readReg r2 kind reg)); tauto.
Qed.

(** What is left of a difference after an operation that writes [writes]. *)
Definition left_over (r1 r2 r1' r2' : Registers) (writes : RegisterKind → Z → bool) : Prop :=
  same_sizes r1' r2' ∧
  ∀ kind reg, differ r1' r2' kind reg → differ r1 r2 kind reg ∧ writes kind reg = false.

Definition settles (f : CompiledFunction) (instr : Instruction) (r1 r2 : Registers) (x y : CallFrame) : Prop :=
  ProgramCounter x = ProgramCounter y ∧
  left_over r1 r2 (registers x) (registers y) (λ kind reg, snd (classify f instr kind reg)).

Lemma RoleForKind_neq_Dynamic kind : RoleRegDynamic ≠ RoleForKind kind.
Proof. unfold RoleForKind. repeat (destruct (_ =? _); [done|]). done. Qed.

(** A truncation of the integer or the unsigned bank, the two it can narrow. *)
Definition narrows_known (instr : Instruction) : Prop :=
  iOp instr = OpTruncateNarrow → iC instr = RegisterInt ∨ iC instr = RegisterUint.

Lemma truncate_alike f pc r1 r2 instr :
  iOp instr = OpTruncateNarrow → narrows_known instr → same_sizes r1 r2 →
  (∀ kind reg, differ r1 r2 kind reg → fst (classify f instr kind reg) = false) →
  same_result (settles f instr r1 r2)
    (HandleTruncateNarrow f (NewCallFrame pc r1) instr) (HandleTruncateNarrow f (NewCallFrame pc r2) instr).
Proof.
  intros Hop Hn Hs Hdiff. destruct instr as [op a b c]. cbn [iOp iC] in *. subst op.
  assert (Hcl : ∀ kind reg, classify f (NewInstruction OpTruncateNarrow a b c) kind reg =
    ((a =? reg) && ((bool_decide (RoleRegDynamic = RoleForKind kind)) || (c =? kind)),
     (a =? reg) && ((bool_decide (RoleRegDynamic = RoleForKind kind)) || (c =? kind)))).
  { intros kind reg. unfold classify. cbn [iOp]. change (OpTruncateNarrow =? OpDrillTier1) with false. cbv iota.
    unfold instructionRegisterUse.
    change (ShapeForInstruction (NewInstruction OpTruncateNarrow a b c))
      with (ShapeForInstruction (NewInstruction OpTruncateNarrow 0 0 0)).
    let s := eval vm_compute in (ShapeForInstruction (NewInstruction OpTruncateNarrow 0 0 0)) in
      change (ShapeForInstruction (NewInstruction OpTruncateNarrow 0 0 0)) with s.
    change (negb (hasFlag _ _)) with false. cbv iota. cbn. unfold operandMayNameBank. cbn.
    rewrite !andb_false_r, !orb_false_r, !andb_true_r. by destruct (bool_decide _). }
  assert (Hr : readReg r1 c a = readReg r2 c a).
  { destruct (differ_dec r1 r2 c a) as [Hd|]; [|done]. apply Hdiff in Hd. rewrite Hcl in Hd. cbn in Hd.
    rewrite !Z.eqb_refl, orb_true_r in Hd. done. }
  destruct Hs as (Hs1 & Hs2 & Hs3 & Hs4). unfold HandleTruncateNarrow. cbn [iA iB iC registers].
  pose proof (Hn eq_refl) as Hc. cbn [iC] in Hc. destruct Hc as [-> | ->].
  - change (RegisterInt =? RegisterUint) with false. cbv iota zeta.
    unfold readReg in Hr. change (RegisterInt =? RegisterInt) with true in Hr. cbv iota in Hr.
    apply fmap_Some_inj in Hr; [|by intros ? ? [= ->]].
    unfold getInt, setInt, getReg, setReg, withRegisters. rewrite Hr.
    destruct (zget (Ints r2) a) as [v|] eqn:Hv; [|done]. cbn. split; [done|].
    split; [unfold same_sizes; cbn; by rewrite !length_zset, Hs1|]. intros kind reg Hd. cbn [registers] in Hd.
    destruct (decide ((kind, reg) = (RegisterInt, a))) as [[= -> ->]|Hne].
    { exfalso. apply Hd. unfold readReg. cbn. apply zget_Some_range in Hv as Hrange.
      rewrite !zget_zset_eq by lia. done. }
    unfold differ in *. rewrite !readReg_setInts in Hd by done. split; [done|]. rewrite Hcl. cbn [snd].
    rewrite bool_decide_eq_false_2 by apply RoleForKind_neq_Dynamic. cbn [orb].
    apply not_true_is_false. rewrite andb_true_iff, !Z.eqb_eq. by intros [-> <-].
  - change (RegisterUint =? RegisterUint) with true. cbv iota zeta.
    unfold readReg in Hr. change (RegisterUint =? RegisterInt) with false in Hr.
    change (RegisterUint =? RegisterUint) with true in Hr. cbv iota in Hr.
    apply fmap_Some_inj in Hr; [|by intros ? ? [= ->]].
    unfold getUint, setUint, getReg, setReg, withRegisters. rewrite Hr.
    destruct (zget (Uints r2) a) as [v|] eqn:Hv; [|done]. cbn. split; [done|].
    split; [unfold same_sizes; cbn; by rewrite !length_zset, Hs2|]. intros kind reg Hd. cbn [registers] in Hd.
    destruct (decide ((kind, reg) = (RegisterUint, a))) as [[= -> ->]|Hne].
    { exfalso. apply Hd. unfold readReg. cbn. apply zget_Some_range in Hv as Hrange.
      rewrite !zget_zset_eq by lia. done. }
    unfold differ in *. rewrite !readReg_setUints in Hd by done. split; [done|]. rewrite Hcl. cbn [snd].
    rewrite bool_decide_eq_false_2 by apply RoleForKind_neq_Dynamic. cbn [orb].
    apply not_true_is_false. rewrite andb_true_iff, !Z.eqb_eq. by intros [-> <-].
Qed.

(** Where two runs of a modelled operation differ in registers it does not
    read, they end alike and differ at most there. *)
Lemma modelled_alike f pc r1 r2 instr h :
  wf_instruction instr → flatDispatchSwitch instr = Some h → narrows_known instr → same_sizes r1 r2 →
  (∀ kind reg, differ r1 r2 kind reg → fst (classify f instr kind reg) = false) →
  same_result (settles f instr r1 r2) (h f (NewCallFrame pc r1) instr) (h f (NewCallFrame pc r2) instr).
Proof.
  intros Hwf Hd Hn Hs Hdiff. destruct (modelled_slot instr h Hd) as ([Ht|Hplain] & _ & _).
  { assert (Hop : iOp instr = OpTruncateNarrow).
    { revert Ht. destruct Hwf as (? & ? & ? & ?). unfold flatDispatchIndex.
      unfold flatHandlerTier1Base, flatHandlerTier2Base, flatHandlerTier3Base, OpTruncateNarrow, isU in *.
      repeat (case_if; bool_hyps); lia. }
    assert (h = HandleTruncateNarrow) as ->; [|by apply truncate_alike].
    unfold flatDispatchSwitch in Hd. rewrite Ht in Hd. by injection Hd as <-. }
  assert (Hreads : ∀ p role r, (p, role, r) ∈ operands instr (ShapeForInstruction instr) →
    mask_at (shReads (ShapeForInstruction instr)) p = true → role ≠ RoleRegDynamic).
  { intros p role r Hop Hm. apply (plain_operands instr Hwf Hplain p role r Hop). by left. }
  assert (Hwrites : ∀ p role r, (p, role, r) ∈ operands instr (ShapeForInstruction instr) →
    mask_at (shWrites (ShapeForInstruction instr)) p = true → role ≠ RoleRegDynamic).
  { intros p role r Hop Hm. apply (plain_operands instr Hwf Hplain p role r Hop). by right. }
  pose proof (plain_described instr Hwf Hplain) as Hdesc.
  assert (Hagree : agree (namedReads instr) r1 r2).
  { split; [done|]. intros kind reg Hin. destruct (differ_dec r1 r2 kind reg) as [Hdf|]; [|done].
    apply Hdiff in Hdf. rewrite (modelled_not_call instr h Hd) in Hdf.
    unfold instructionRegisterUse in Hdf. rewrite Hdesc in Hdf. cbn [negb fst] in Hdf.
    pose proof (namedBy_use instr _ kind reg Hreads Hin) as Hu.
    cbv beta in Hu. congruence. }
  pose proof (forall_arms _ reads_named_arms _ _ Hd f pc r1 r2 instr Hwf eq_refl Hagree) as Hres.
  pose proof (forall_arms _ writes_named_arms _ _ Hd) as Hw.
  pose proof (Hw f (NewCallFrame pc r1) instr) as Hw1. pose proof (Hw f (NewCallFrame pc r2) instr) as Hw2.
  destruct (h f (NewCallFrame pc r1) instr) as [x| | |], (h f (NewCallFrame pc r2) instr) as [y| | |]; try done.
  destruct Hres as (Hpc & Hsz & Hsame). split; [exact Hpc|]. split; [exact Hsz|]. intros kind reg Hdf.
  assert (Hnot : (kind, reg) ∉ namedWrites instr).
  { intros Hin. apply Hdf, Hsame, elem_of_app. by left. }
  unfold differ in *. rewrite (Hw1 x Hwf eq_refl eq_refl kind reg Hnot) in Hdf.
  rewrite (Hw2 y Hwf eq_refl eq_refl kind reg Hnot) in Hdf. split; [exact Hdf|].
  rewrite (modelled_not_call instr h Hd). unfold instructionRegisterUse. rewrite Hdesc. cbn [negb snd].
  apply not_true_is_false. intros Hu. apply Hnot.
  exact (use_namedBy instr _ kind reg (differ_bank r1 r2 kind reg Hdf) Hwrites Hu).
Qed.

(** ** One step of two such runs *)

(** The search knows the bank of every operand an operation writes. *)
Definition resolved (instr : Instruction) : bool :=
  let shape := ShapeForInstruction instr in
  forallb (λ '(position, role, _), negb (mask_at (shWrites shape) position && bool_decide (role = RoleRegDynamic)))
    (operands instr shape) || bool_decide (is_Some (kindMarkerOperandOf instr shape)).

(** A body whose instructions the walks of the passes follow, laid out so that
    no jump or fall through lands on an extension word. *)
Record tidy (body : list Instruction) : Prop := {
  td_walkable : walkable body;
  td_starts pc instr : instruction_start body pc → zget body pc = Some instr → iOp instr ≠ OpExt;
  td_narrows : Forall narrows_known body;
  td_resolved : Forall resolved body;
}.

(** The operations [Machine] leaves out do what the search reads off their
    words: registers it passes over do not matter to them, and where it sees a
    register written, every difference there is gone. *)
Class Respects {W O} (f : CompiledFunction)
    (others : W → Instruction → list Instruction → Registers → effect (W:=W) (O:=O)) :=
  respects w body pc instr r1 r2 :
    zget body pc = Some instr → flatDispatchSwitch instr = None → resolved instr → same_sizes r1 r2 →
    (∀ kind reg, differ r1 r2 kind reg → opVerdict (setBody f body) pc instr kind reg ≠ walkLive) →
    match others w instr (extensionsAt body pc) r1, others w instr (extensionsAt body pc) r2 with
    | endsWith o, endsWith o' => o = o'
    | goesOn w1 r1' e, goesOn w2 r2' e' =>
        w1 = w2 ∧ e = e' ∧
        left_over r1 r2 r1' r2'
          (λ kind reg, bool_decide (opVerdict (setBody f body) pc instr kind reg = walkDead))
    | _, _ => False
    end.

Lemma setBody_id f : setBody f (Body f) = f.
Proof. by destruct f. Qed.

Lemma extended_quiet instr h words kind :
  flatDispatchSwitch instr = Some h → wf_instruction instr → fst (JumpLayoutOf instr) = JumpLayoutNone →
  hasFlag (shFlags (ShapeForInstruction instr)) ShapeFlagFollowsExtension = true →
  snd (ExtensionRegisterUse instr words kind) = false.
Proof.
  intros Hd Hwf Hl Hx. destruct (modelled_slot instr h Hd) as (_ & _ & Hk).
  destruct (slot_tables instr _ Hwf eq_refl) as [Hs Hj]. unfold extended_known in Hk. rewrite <- Hs, <- Hj in Hk.
  rewrite bool_decide_eq_true_2, Hx in Hk by done. cbn [andb negb orb] in Hk. apply one_of_spec in Hk.
  assert (iOp instr = OpDrillTier1 ∧ iA instr ∈ [SubOpAddUintConst; SubOpSubUintConst; SubOpBitAndUintConst]) as [Ho Ha].
  { destruct Hwf as (H1 & H2 & H3 & H4). unfold extended_slots in Hk. cbn [map] in Hk.
    rewrite !elem_of_cons, elem_of_nil in *. revert Hk. unfold flatDispatchIndex.
    change OpDrillTier1 with 0. change SubOpAddUintConst with 96. change SubOpSubUintConst with 97.
    change SubOpBitAndUintConst with 98. change flatHandlerTier1Base with 256. change flatHandlerTier2Base with 512.
    change flatHandlerTier3Base with 768. unfold isU in *.
    repeat (case_if; bool_hyps); lia. }
  unfold ExtensionRegisterUse, ExtensionIntUse, ExtensionNamesOnlyIntRegisters, tier1ExtensionIntUse, tier1ExtensionNamesOnlyIntRegisters.
  rewrite Ho. rewrite !elem_of_cons, elem_of_nil in Ha.
  destruct (zlen words =? 0); [done|]. destruct (kind =? RegisterInt).
  - destruct words as [|first words]; [done|]. destruct (last (first :: words)); [|done]. destruct Ha as [-> | [-> | [-> | []]]]; reflexivity.
  - destruct Ha as [-> | [-> | [-> | []]]]; change (OpDrillTier1 =? OpDrillTier1) with true; cbv iota;
      (destruct (zlen words =? 1); reflexivity).
Qed.

(** After a modelled operation control is at its jump target or after its
    words. *)
Lemma modelled_target f pc r instr h y :
  walkable (Body f) → instruction_start (Body f) pc → zget (Body f) pc = Some instr →
  flatDispatchSwitch instr = Some h → h f (NewCallFrame (pc + 1) r) instr = opContinue y →
  JumpTargetAt (Body f) pc = Some (ProgramCounter y) ∨
  (ProgramCounter y = pc + instructionFootprint (Body f) pc ∧ InstrIsTier1SubOp instr SubOpJump = false).
Proof.
  intros Hw Hst Hg Hd Hrun. destruct (wk_laid_out _ Hw pc instr h Hg Hd) as [Hext Hwords].
  pose proof (wf_body_zget _ _ _ (wk_wf _ Hw) Hg) as Hwf.
  pose proof (forall_arms _ relocates_arms _ _ Hd f (Body f) pc pc r instr instr Hwf Hwf eq_refl eq_refl Hg Hg Hext) as Ha.
  rewrite setBody_id in Ha. unfold alike in Ha. rewrite Hrun in Ha.
  destruct Ha as (_ & [[Ht _]|(Hpc & _ & Hterm)]).
  - unfold relocated, well_extended in *. destruct (fst (JumpLayoutOf instr)); try done.
    all: try (split; [done|]).
    all: try match goal with H : is_Some _ ∧ is_Some _ |- _ => destruct H as [? ?] end.
    all: repeat match goal with H : is_Some (extensionWordAt _ _) |- _ =>
           destruct H as [? [? ?]%extensionWordAt_Some] end; eauto 10.
  - by left.
  - right. rewrite Hpc, (wk_span _ Hw pc instr h Hst Hg Hd). split; [done|].
    destruct (InstrIsTier1SubOp instr SubOpJump) eqn:Hj; [|done].
    destruct instr as [op a b c]. unfold InstrIsTier1SubOp in Hj. cbn in Hj. bool_hyps. subst.
    discriminate Hterm.
Qed.

Definition close (f : CompiledFunction) (x y : CallFrame) : Prop :=
  ProgramCounter x = ProgramCounter y ∧
  (ProgramCounter x < zlen (Body f) → instruction_start (Body f) (ProgramCounter x)) ∧
  same_sizes (registers x) (registers y) ∧
  ∀ kind reg, differ (registers x) (registers y) kind reg → Dead f kind reg (ProgramCounter x).

Lemma resultValues_close f x y : close f x y → resultValues f (registers x) = resultValues f (registers y).
Proof.
  intros (_ & _ & _ & Hdiff). unfold resultValues. destruct (existsb _ (Body f)) eqn:Hdef; [|done].
  f_equal. apply map_ext_in. intros kind _. apply map_ext_in. intros reg Hin%list_elem_of_In.
  apply elem_of_seqZ in Hin. destruct (differ_dec (registers x) (registers y) kind reg) as [Hd|]; [|done].
  apply Hdiff in Hd as [Hr _]. unfold resultSlotReadByRecover in Hr.
  rewrite (proj2 (Z.leb_gt _ _)), Hdef in Hr by lia. done.
Qed.

Lemma row_target body pc row :
  zget body pc = Some row → iOp row = OpTypeSwitchCase ∨ InstrIsTier1SubOp row SubOpJump = true →
  pc + 1 + SignedOffset row ∈ JumpTargetsOf body.
Proof.
  intros Hg Hrow. apply (JumpTargetAt_elem body pc). unfold JumpTargetAt. rewrite Hg.
  destruct row as [op a b c]. unfold InstrIsTier1SubOp in Hrow. cbn [iOp iA] in Hrow.
  destruct Hrow as [->|Hj]; [|bool_hyps; subst].
  - by change (JumpLayoutOf (NewInstruction OpTypeSwitchCase a b c)) with (JumpLayoutWord, 0).
  - by change (JumpLayoutOf (NewInstruction OpDrillTier1 SubOpJump b c)) with (JumpLayoutWord, 0).
Qed.

Lemma switchTarget_targets body pc k t : switchTarget body pc k = Some t → t ∈ JumpTargetsOf body.
Proof.
  revert pc. induction k as [|k IH]; intros pc; cbn [switchTarget]; (destruct (zget body pc) as [row|] eqn:Hg; [|done]);
    destruct (iOp row =? OpTypeSwitchCase) eqn:Hc; bool_hyps; try apply IH;
    try (destruct (InstrIsTier1SubOp row SubOpJump) eqn:Hj; [|done]); intros [= <-]; apply row_target; auto.
Qed.

Lemma switch_layout instr :
  InstrIsTier1SubOp instr SubOpTypeSwitchJump = true → fst (JumpLayoutOf instr) = JumpLayoutMultiWay.
Proof. destruct instr as [op a b c]. unfold InstrIsTier1SubOp. cbn. intros H. bool_hyps. by subst. Qed.

Lemma jump_modelled instr :
  InstrIsTier1SubOp instr SubOpJump = true → flatDispatchSwitch instr ≠ None.
Proof. destruct instr as [op a b c]. unfold InstrIsTier1SubOp. cbn. intros H. bool_hyps. by subst. Qed.

Section close_steps.
Context {W O : Type} (f : CompiledFunction).
Context (others : W → Instruction → list Instruction → Registers → effect (W:=W) (O:=O)).
Context (Htidy : tidy (Body f)) (Hothers : Respects f others).

#[local] Notation body := (Body f).

Lemma start_at_target t : t ∈ JumpTargetsOf body → t < zlen body → instruction_start body t.
Proof. intros Ht Hlt. by apply (wk_targets _ (td_walkable _ Htidy) t Ht). Qed.


(** Control that reaches [pc'] from the instruction at [pc]. *)
Lemma start_after pc pc' instr e :
  instruction_start body pc → zget body pc = Some instr → edgeTarget body pc instr e = Some pc' →
  pc' < zlen body → instruction_start body pc'.
Proof.
  intros Hst Hg He Hlt. destruct e as [| |k]; cbn in He.
  - injection He as <-. apply start_next; [done|]. apply zget_Some_range in Hg. lia.
  - by apply start_at_target; [eapply JumpTargetAt_elem|].
  - destruct (InstrIsTier1SubOp instr SubOpTypeSwitchJump); [|done].
    by apply start_at_target; [eapply switchTarget_targets|].
Qed.

Lemma opVerdict_layout pc instr kind reg :
  match opVerdict f pc instr kind reg with
  | walkContinue => fst (JumpLayoutOf instr) = JumpLayoutNone
  | walkBranch => fst (JumpLayoutOf instr) ≠ JumpLayoutNone
  | _ => True
  end.
Proof.
  unfold opVerdict. destruct (IsReturnInstruction instr); [by case_if|].
  destruct (classify f instr kind reg) as [[] []]; cbn; try done. case_bool_decide as Hl; [done|].
  destruct (extensionsVerdict _ _ _ _ _ _) eqn:Hv; try done.
  by apply extensionsVerdict_not_branch in Hv.
Qed.

Lemma opVerdict_read pc instr kind reg :
  IsReturnInstruction instr = false → opVerdict f pc instr kind reg ≠ walkLive →
  fst (classify f instr kind reg) = false.
Proof.
  unfold opVerdict. intros -> Hv. by destruct (classify f instr kind reg) as [[] []].
Qed.

(** Where a modelled operation does not write a register, the search passes on. *)
Lemma opVerdict_passes pc instr h kind reg :
  instruction_start body pc → zget body pc = Some instr → flatDispatchSwitch instr = Some h →
  opVerdict f pc instr kind reg ≠ walkLive → snd (classify f instr kind reg) = false →
  opVerdict f pc instr kind reg =
    if bool_decide (fst (JumpLayoutOf instr) ≠ JumpLayoutNone) then walkBranch else walkContinue.
Proof.
  intros Hst Hg Hd. pose proof (td_walkable _ Htidy) as Hw.
  pose proof (wf_body_zget _ _ _ (wk_wf _ Hw) Hg) as Hwf. unfold opVerdict.
  rewrite (modelled_not_return _ _ Hd). intros Hv Hs.
  destruct (classify f instr kind reg) as [[] []]; cbn in *; try done.
  case_bool_decide as Hnone; [done|].
  pose proof (wk_span _ Hw pc instr h Hst Hg Hd) as Hspan. unfold span in Hspan. rewrite Hnone in Hspan.
  destruct (hasFlag _ ShapeFlagFollowsExtension) eqn:Hflag; rewrite <- Hspan in *; [|done].
  change (Z.to_nat (2 - 1)) with 1%nat in *. cbn [extensionsVerdict] in *.
  destruct (verdictFor _) eqn:Hv'; [done| |done|]; exfalso; revert Hv'; unfold extensionWordUse; rewrite Hg;
    (destruct (zget body (pc + 1)) as [word|]; [|done]);
    pose proof (extended_quiet instr h (take (Z.to_nat (pc + 1 - pc)) (drop (Z.to_nat (pc + 1)) body)) kind Hd Hwf Hnone Hflag) as Hq;
    destruct (ExtensionRegisterUse _ _ _) as [[m1 m2] []]; try done; cbn; destruct (_ || _); done.
Qed.

Lemma modelled_close_step pc r1 r2 instr h :
  close f (NewCallFrame pc r1) (NewCallFrame pc r2) → instruction_start body pc →
  zget body pc = Some instr → flatDispatchSwitch instr = Some h →
  match h f (NewCallFrame (pc + 1) r1) instr, h f (NewCallFrame (pc + 1) r2) instr with
  | opContinue x, opContinue y => close f x y
  | integerDivideByZero, integerDivideByZero => True
  | (boundsError _ _ | indexPanic), (boundsError _ _ | indexPanic) => True
  | _, _ => False
  end.
Proof.
  intros (_ & _ & Hsz & Hdead) Hst Hg Hd. cbn [ProgramCounter registers] in *.
  pose proof (td_walkable _ Htidy) as Hw. pose proof (wf_body_zget _ _ _ (wk_wf _ Hw) Hg) as Hwf.
  pose proof (td_starts _ Htidy pc instr Hst Hg) as Hop.
  pose proof (proj1 (Forall_forall _ _) (td_narrows _ Htidy) instr (zget_elem _ _ _ Hg)) as Hn.
  assert (Hlive : ∀ kind reg, differ r1 r2 kind reg → opVerdict f pc instr kind reg ≠ walkLive).
  { intros kind reg Hdf. by apply (Dead_step f kind reg pc instr); [apply Hdead| |]. }
  pose proof (modelled_alike f (pc + 1) r1 r2 instr h Hwf Hd Hn Hsz) as Hsame.
  assert (Hreads : ∀ kind reg, differ r1 r2 kind reg → fst (classify f instr kind reg) = false).
  { intros kind reg Hdf. eapply opVerdict_read; [exact (modelled_not_return _ _ Hd)|by apply Hlive]. }
  specialize (Hsame Hreads). destruct (h f (NewCallFrame (pc + 1) r1) instr) as [x| | |] eqn:Hx,
    (h f (NewCallFrame (pc + 1) r2) instr) as [y| | |]; try done.
  destruct Hsame as (Hpc & Hsz' & Hleft).
  pose proof (modelled_target f pc r1 instr h x Hw Hst Hg Hd Hx) as Htarget.
  split; [exact Hpc|]. split; [|split; [exact Hsz'|]].
  { destruct Htarget as [Ht|[-> _]]; [|intros _; apply start_next; [done|]; apply zget_Some_range in Hg; lia].
    apply start_at_target. by eapply JumpTargetAt_elem. }
  intros kind reg Hdf. destruct (Hleft kind reg Hdf) as [Hdf0 Hwr].
  destruct (Dead_step f kind reg pc instr (Hdead _ _ Hdf0) Hg Hop) as (Hv & Hc & Hb).
  rewrite (opVerdict_passes pc instr h kind reg Hst Hg Hd Hv Hwr) in Hc, Hb.
  case_bool_decide as Hl.
  - destruct (Hb eq_refl) as (_ & Ht & Hf). destruct Htarget as [Ht'|[-> Hj]]; [by apply Ht|by apply Hf].
  - destruct Htarget as [Ht'|[-> _]]; [|by apply Hc]. unfold JumpTargetAt in Ht'. rewrite Hg in Ht'.
    destruct (JumpLayoutOf instr) as [[] ?]; cbn in Hl; done.
Qed.

Lemma other_close_step w pc r1 r2 instr :
  close f (NewCallFrame pc r1) (NewCallFrame pc r2) → instruction_start body pc →
  zget body pc = Some instr → flatDispatchSwitch instr = None →
  match others w instr (extensionsAt body pc) r1, others w instr (extensionsAt body pc) r2 with
  | endsWith o, endsWith o' => o = o'
  | goesOn w1 r1' e, goesOn w2 r2' e' =>
      w1 = w2 ∧ e = e' ∧
      ∀ pc', edgeTarget body pc instr e = Some pc' → close f (NewCallFrame pc' r1') (NewCallFrame pc' r2')
  | _, _ => False
  end.
Proof.
  intros (_ & _ & Hsz & Hdead) Hst Hg Hd. cbn [ProgramCounter registers] in *.
  pose proof (td_starts _ Htidy pc instr Hst Hg) as Hop.
  pose proof (proj1 (Forall_forall _ _) (td_resolved _ Htidy) instr (zget_elem _ _ _ Hg)) as Hres.
  assert (Hstep : ∀ kind reg, differ r1 r2 kind reg → _) by
    (intros kind reg Hdf; exact (Dead_step f kind reg pc instr (Hdead _ _ Hdf) Hg Hop)).
  pose proof (Hothers w body pc instr r1 r2 Hg Hd Hres Hsz) as Hsame. rewrite setBody_id in Hsame.
  specialize (Hsame (λ kind reg Hdf, proj1 (Hstep kind reg Hdf))).
  destruct (others w instr _ r1) as [w1 r1' e|o], (others w instr _ r2) as [w2 r2' e'|o']; try done.
  destruct Hsame as (-> & -> & Hsz' & Hleft). split; [done|]. split; [done|]. intros pc' Ht.
  split; [done|]. split; [by eapply start_after|]. split; [exact Hsz'|]. cbn [ProgramCounter registers].
  intros kind reg Hdf. destruct (Hleft kind reg Hdf) as [Hdf0 Hnd%bool_decide_eq_false].
  destruct (Hstep kind reg Hdf0) as (Hv & Hc & Hb).
  pose proof (opVerdict_layout pc instr kind reg) as Hlayout.
  destruct (opVerdict f pc instr kind reg); try done; destruct e' as [| |k]; cbn [edgeTarget] in Ht.
  - injection Ht as <-. by apply Hc.
  - unfold JumpTargetAt in Ht. rewrite Hg in Ht. by destruct (JumpLayoutOf instr) as [[] ?].
  - by rewrite switch_layout in Hlayout by (by destruct (InstrIsTier1SubOp instr SubOpTypeSwitchJump)).
  - injection Ht as <-. apply Hb; [done|]. apply not_true_is_false. intros Hj.
    by apply (jump_modelled instr Hj).
  - by apply Hb.
  - by rewrite switch_layout in Hb by (by destruct (InstrIsTier1SubOp instr SubOpTypeSwitchJump)); destruct Hb.
Qed.

Lemma close_step w x y :
  close f x y →
  match openStep others f w x, openStep others f w y with
  | goto w1 x', goto w2 y' => w1 = w2 ∧ close f x' y'
  | done_ e, done_ e' => e = e'
  | _, _ => False
  end.
Proof.
  intros Hclose. pose proof Hclose as Hclose'. pose proof (resultValues_close f x y Hclose) as Hresults.
  destruct x as [pc r1], y as [pc' r2], Hclose as (Hpc & Hst & Hsz & Hdead). cbn in Hpc, Hst, Hsz, Hdead, Hresults.
  subst pc'. unfold openStep. cbn [ProgramCounter registers].
  destruct (Z.leb_spec (zlen body) pc) as [|Hlt]; [done|]. specialize (Hst Hlt).
  destruct (zget body pc) as [instr|] eqn:Hg; [|done].
  pose proof (td_starts _ Htidy pc instr Hst Hg) as Hop.
  destruct (flatDispatchSwitch instr) as [h|] eqn:Hd.
  - pose proof (modelled_close_step pc r1 r2 instr h Hclose' Hst Hg Hd) as Hstep. unfold advance.
    cbn [ProgramCounter registers].
    destruct (h f (NewCallFrame (pc + 1) r1) instr), (h f (NewCallFrame (pc + 1) r2) instr); try done.
    by rewrite Hresults.
  - pose proof (other_close_step w pc r1 r2 instr Hclose' Hst Hg Hd) as Hstep. unfold advance.
    destruct (others w instr _ r1) as [w1 r1' e|o], (others w instr _ r2) as [w2 r2' e'|o']; try done.
    + destruct Hstep as (-> & -> & Hstep). destruct (edgeTarget body pc instr e') as [pc'|]; [|done].
      split; [done|]. by apply Hstep.
    + by subst.
Qed.

(** Such runs end alike, if at all. *)
Lemma close_runs_ok w x y e : close f x y → ends others f w x e → ends others f w y e.
Proof.
  intros Hclose Hends. revert y Hclose. induction Hends as [w x e Hs|w x w' x' e Hs _ IH]; intros y Hclose;
    pose proof (close_step w x y Hclose) as Hstep; rewrite Hs in Hstep;
    destruct (openStep others f w y) as [w2 y'|e'] eqn:Hy; try done.
  - subst e'. by apply ends_now.
  - destruct Hstep as [<- Hclose']. eapply ends_later; [exact Hy|by apply IH].
Qed.
End close_steps.

Lemma close_sym f x y : close f x y → close f y x.
Proof.
  intros (Hpc & Hst & (H1 & H2 & H3 & H4) & Hd). unfold close. rewrite <- Hpc. split_and!; try done.
  intros kind reg Hdf. apply Hd. unfold differ in *. congruence.
Qed.
