(* ===== verification/LivenessRun.v ===== *)
(** * What the search for dead registers is worth

    A decision procedure for the bodies [LivenessSound] reasons about, an
    interpretation of the operations [Machine] leaves out, and the theorem that
    registers the search calls dead do not matter to any run. *)

From S2P Require Import Prelude SafeConv Register Opcode Instruction Shapes Spec JumpLayout Jumps.
From S2P Require Import Extension Function Verify VerifySound Machine MachineSafe MachineFlow.
From S2P Require Import FuseNarrow PassFacts Relocate Liveness OpenMachine LivenessSound.

(** ** Deciding that a body is tidy *)

Fixpoint startsFrom (fuel : nat) (body : list Instruction) (pc : Z) : list Z :=
  match fuel with
  | O => []
  | S fuel => if pc <? zlen body then pc :: startsFrom fuel body (pc + instructionFootprint body pc) else []
  end.

Definition startsOf (body : list Instruction) : list Z := startsFrom (S (length body)) body 0.

Definition wellExtended (body : list Instruction) (pc : Z) (instr : Instruction) : bool :=
  match fst (JumpLayoutOf instr) with
  | JumpLayoutNone =>
      negb (hasFlag (shFlags (ShapeForInstruction instr)) ShapeFlagFollowsExtension) ||
      (bool_decide (is_Some (extensionWordAt body (pc + 1))) && bool_decide (extensionWordAt body (pc + 2) = None))
  | JumpLayoutSecondExtension =>
      bool_decide (is_Some (extensionWordAt body (pc + 1))) && bool_decide (is_Some (extensionWordAt body (pc + 2)))
  | JumpLayoutExtension | JumpLayoutExtension24 | JumpLayoutExtensionBC =>
      bool_decide (is_Some (extensionWordAt body (pc + 1)))
  | JumpLayoutWord | JumpLayoutMultiWay => true
  end.

Definition laidOutAt (body : list Instruction) (pc : Z) (instr : Instruction) : bool :=
  wellExtended body pc instr &&
  forallb (λ j, match zget body j with
    | Some word => (iOp word =? OpExt) || isCanonicalNop word
    | None => false
    end) (seqZ (pc + 1) (span instr - 1)).

Definition tidyAt (body : list Instruction) (pc : Z) : bool :=
  match zget body pc with
  | None => true
  | Some instr =>
      negb (bool_decide (is_Some (flatDispatchSwitch instr))) || laidOutAt body pc instr
  end.

Definition tidyStart (body : list Instruction) (pc : Z) : bool :=
  match zget body pc with
  | None => true
  | Some instr =>
      negb (iOp instr =? OpExt) &&
      (negb (bool_decide (is_Some (flatDispatchSwitch instr))) || (span instr =? instructionFootprint body pc))
  end.

Definition tidyInstruction (instr : Instruction) : bool :=
  bool_decide (wf_instruction instr) && resolved instr &&
  (negb (iOp instr =? OpTruncateNarrow) || (iC instr =? RegisterInt) || (iC instr =? RegisterUint)).

Definition tidyTarget (body : list Instruction) (t : Z) : bool :=
  (0 <=? t) && ((zlen body <=? t) || bool_decide (t ∈ startsOf body)).

Definition checkTidy (body : list Instruction) : bool :=
  forallb tidyInstruction body && forallb (tidyAt body) (seqZ 0 (zlen body)) &&
  forallb (tidyStart body) (startsOf body) &&
  forallb (tidyTarget body) (omap (JumpTargetAt body) (seqZ 0 (zlen body))) && (zlen body <=? 2 ^ 61).

Lemma startsFrom_sound fuel body pc q : instruction_start body pc → q ∈ startsFrom fuel body pc → instruction_start body q.
Proof.
  revert pc. induction fuel as [|fuel IH]; intros pc Hst; cbn [startsFrom]; [set_solver|].
  destruct (Z.ltb_spec pc (zlen body)); [|set_solver]. intros [->|Hin]%elem_of_cons; [done|].
  by eapply IH, Hin; apply start_next.
Qed.

Lemma startsFrom_skip fuel body q pc :
  pc ∈ startsFrom fuel body q → zlen body - q < Z.of_nat fuel → pc + instructionFootprint body pc < zlen body →
  pc + instructionFootprint body pc ∈ startsFrom fuel body q.
Proof.
  revert q. induction fuel as [|fuel IH]; intros q; cbn [startsFrom]; [set_solver|].
  destruct (Z.ltb_spec q (zlen body)); [|set_solver]. intros Hin Hf Hlt. apply list_elem_of_further.
  pose proof (instructionFootprint_pos body q).
  apply elem_of_cons in Hin as [->|Hin]; [|apply IH; [done|lia|done]].
  destruct fuel as [|fuel]; [lia|]. cbn [startsFrom]. rewrite (proj2 (Z.ltb_lt _ _)) by done.
  apply list_elem_of_here.
Qed.

Lemma startsOf_complete body pc : instruction_start body pc → pc < zlen body → pc ∈ startsOf body.
Proof.
  induction 1 as [|pc Hst IH Hlt]; intros Hpc.
  - unfold startsOf. cbn [startsFrom]. rewrite (proj2 (Z.ltb_lt _ _)) by done. apply list_elem_of_here.
  - apply startsFrom_skip; [by apply IH|lia|done].
Qed.

Lemma wellExtended_ok body pc instr : wellExtended body pc instr = true → well_extended body pc instr.
Proof.
  unfold wellExtended, well_extended.
  destruct (fst (JumpLayoutOf instr)); rewrite ?orb_true_iff, ?andb_true_iff, ?bool_decide_eq_true, ?negb_true_iff;
    try done. by intros [-> | H].
Qed.

Lemma checkTidy_ok body : checkTidy body = true → tidy body.
Proof.
  unfold checkTidy. rewrite !andb_true_iff, !forallb_forall, Z.leb_le.
  intros [[[[Hinstr Hat] Hstarts] Htargets] Hlen].
  assert (Hi : ∀ i, i ∈ body → wf_instruction i ∧ resolved i = true ∧ narrows_known i).
  { intros i Hin%list_elem_of_In%Hinstr. unfold tidyInstruction in Hin.
    rewrite !andb_true_iff, !orb_true_iff, negb_true_iff, bool_decide_eq_true, !Z.eqb_eq, Z.eqb_neq in Hin.
    destruct Hin as [[Hwf Hr] Hn]. split_and!; [done|done|]. unfold narrows_known. tauto. }
  assert (Hall : ∀ (P : Instruction → Prop), (∀ i, wf_instruction i ∧ resolved i = true ∧ narrows_known i → P i) → Forall P body).
  { intros P HP. apply Forall_forall. intros i Hin. by apply HP, Hi. }
  assert (Hst : ∀ pc instr, instruction_start body pc → zget body pc = Some instr → tidyStart body pc = true).
  { intros pc instr Hst Hg%zget_Some_range. apply Hstarts, list_elem_of_In, startsOf_complete; [done|lia]. }
  split; [split| | |].
  - split; [apply Hall; tauto|done].
  - intros pc instr h Hg Hd. assert (Ht : tidyAt body pc = true).
    { apply Hat, list_elem_of_In, elem_of_seqZ. apply zget_Some_range in Hg. lia. }
    unfold tidyAt in Ht. rewrite Hg, Hd, bool_decide_eq_true_2 in Ht by eauto. cbn in Ht.
    apply andb_true_iff in Ht as [Hx Hw]. split; [by apply wellExtended_ok|]. intros j Hj.
    assert (Hin : j ∈ seqZ (pc + 1) (span instr - 1)) by (apply elem_of_seqZ; lia).
    rewrite forallb_forall in Hw. specialize (Hw j (proj1 (list_elem_of_In _ _) Hin)).
    destruct (zget body j) as [word|]; [|done]. exists word. split; [done|]. rewrite orb_true_iff, Z.eqb_eq in Hw. tauto.
  - intros pc instr h Hs Hg Hd. specialize (Hst pc instr Hs Hg). unfold tidyStart in Hst.
    rewrite Hg, Hd, bool_decide_eq_true_2 in Hst by eauto. cbn in Hst. bool_hyps. done.
  - intros t Hin. unfold JumpTargetsOf in Hin. apply elem_of_list_to_set in Hin.
    specialize (Htargets t (proj1 (list_elem_of_In _ _) Hin)). unfold tidyTarget in Htargets.
    rewrite andb_true_iff, orb_true_iff, bool_decide_eq_true, !Z.leb_le in Htargets.
    split; [tauto|]. intros Hlt. destruct Htargets as [_ [?|Hs]]; [lia|].
    eapply startsFrom_sound, Hs. apply start_first.
  - intros pc instr Hs Hg. specialize (Hst pc instr Hs Hg). unfold tidyStart in Hst. rewrite Hg in Hst. by bool_hyps.
  - apply Hall. tauto.
  - apply Hall. intros i (_ & Hr & _). by rewrite Hr.
Qed.

(** ** An interpretation of the others, and a function *)

Definition resultSlots (f : CompiledFunction) (r : Registers) : list (option RegValue) :=
  mjoin (map (λ kind, map (readReg r kind) (seqZ 0 (returnSlotCount f kind)))
    [RegisterInt; RegisterUint; RegisterString; RegisterBool]).

(** A return hands over the result slots; a scalar read through a slice field
    sets the register of the bank its second extension word names, here an
    unsigned one. *)
Definition sampleOthers (f : CompiledFunction) (w : unit) (instr : Instruction) (words : list Instruction)
    (r : Registers) : effect (W:=unit) (O:=list (option RegValue)) :=
  if IsReturnInstruction instr then endsWith (resultSlots f r)
  else match words with
  | [_; word] =>
      if (iOp instr =? OpGetStructFieldSliceIndexScalar) && (iC word =? RegisterUint)
      then goesOn w (NewRegisters (Ints r) (zset (Uints r) (iA instr) 7) (Strings r) (Bools r)) fallThrough
      else endsWith []
  | _ => endsWith []
  end.

Lemma sampleOthers_respects f : Respects f (sampleOthers f).
Proof.
  intros w body pc instr r1 r2 Hg Hd Hres Hs Hdf. unfold sampleOthers.
  destruct (IsReturnInstruction instr) eqn:Hret.
  - unfold resultSlots. f_equal. apply map_ext_in. intros kind _. apply map_ext_in.
    intros reg Hin%list_elem_of_In%elem_of_seqZ. destruct (differ_dec r1 r2 kind reg) as [Hd'|]; [|done].
    exfalso. apply (Hdf kind reg Hd'). unfold opVerdict. rewrite Hret.
    change (returnSlotCount (setBody f body) kind) with (returnSlotCount f kind).
    by rewrite (proj2 (Z.ltb_lt _ _)) by lia.
  - destruct (extensionsAt body pc) as [|e1 [|e2 [|]]]; try done.
    destruct (iOp instr =? OpGetStructFieldSliceIndexScalar) eqn:Ho; [|done]. exfalso. bool_hyps.
    revert Hres. destruct instr as [op a b c]. cbn in Ho. subst op. done.
Qed.

Definition with_results (f : CompiledFunction) (kinds : list RegisterKind) : CompiledFunction :=
  NewCompiledFunction (Name f) (Body f) (Functions f) (StringConstants f) (BoolConstants f) (UintConstants f)
    (IntConstants f) (StringConstIndex f) (UintConstIndex f) (IntConstIndex f) (CallSites f) (ParameterKinds f)
    (ParameterRegisters f) kinds (NumRegisters f) (methodTable f) (maxConstantPoolSize f)
    (maxSpecialisations f) (maxMethods f) (EmittedInlineBlocker f) (JumpRangeExceeded f).

(** Register 2 is overwritten on one path and not used on the other. *)
Definition sample_dead : CompiledFunction :=
  with_results (setBody (NewNamedFunction "f")
    [NewInstruction OpJumpIfFalse 1 2 0;
     NewTier1Instruction SubOpLoadIntConstSmall 2 5;
     NewInstruction OpAddInt 0 1 2;
     NewInstruction OpDrillTier1 SubOpDrillTier2 SubOpTier2Return 1]) [RegisterInt].

(** An element of a slice of structures, its index in register 1, is read into
    register 0 of the unsigned bank; register 0 of the integer bank is the
    result. *)
Definition sample_unknown_bank : CompiledFunction :=
  with_results (setBody (NewNamedFunction "f")
    [NewInstruction OpGetStructFieldSliceIndexScalar 0 0 0;
     NewInstruction OpExt 8 0 1;
     NewInstruction OpExt 0 0 RegisterUint;
     NewInstruction OpDrillTier1 SubOpDrillTier2 SubOpTier2Return 1]) [RegisterInt].



