(* ===== verification/Peephole.v ===== *)
(** * Peephole fusions

    [internal/compile/passes/function_peephole_fusion.go] and
    [function_peephole_compare_jump.go]: windows of two, three or eight words
    that become one instruction, extension words and padding.  Every fusion
    takes the function with its body and a position, and gives the function
    with the window rewritten, or nothing when the pattern does not match; [n]
    is the length of the body throughout.  A register that is no longer written
    must be dead ([Liveness]). *)

From S2P Require Import Prelude SafeConv Register Opcode Instruction Shapes Spec JumpLayout Jumps.
From S2P Require Import Extension Function Builder Verify VerifySound Machine MachineSafe MachineFlow.
From S2P Require Import FuseNarrow PassFacts Liveness.

(** ** The windows *)

Definition RangeCheckWindowSize : Z := 8.
Definition RangeCheckFirstJumpOffset : Z := 3.
Definition RangeCheckSecondLoadOffset : Z := 4.
Definition RangeCheckSecondMoveOffset : Z := 6.
Definition RangeCheckSecondJumpOffset : Z := 7.
Definition RangeCheckFirstNopOffset : Z := 3.
Definition RangeCheckFirstJumpDelta : Z := 3.
Definition MaxSmallConstant : Z := 255.

Definition words2 (body : list Instruction) (i : Z) : option (Instruction * Instruction) :=
  first ← zget body i; second ← zget body (i + 1); Some (first, second).

Definition words3 (body : list Instruction) (i : Z) : option (Instruction * Instruction * Instruction) :=
  '(first, second) ← words2 body i; third ← zget body (i + 2); Some (first, second, third).

(** The words from [i] on replaced. *)
Fixpoint setWords (body : list Instruction) (i : Z) (words : list Instruction) : list Instruction :=
  match words with
  | [] => body
  | word :: words => setWords (zset body i word) (i + 1) words
  end.

Definition rewrite (f : CompiledFunction) (i : Z) (words : list Instruction) : CompiledFunction :=
  setBody f (setWords (Body f) i words).

(** The extension word of a jump offset. *)
Definition offsetWord (offset : Z) : Instruction :=
  let '(lo, hi) := SplitOffset offset in NewInstruction OpExt lo hi 0.

(** ** Variables of the debugger *)

(** The part of [DebugVarEntry] the passes read. *)
Record DebugVarEntry := NewDebugVarEntry {
  Location : VarLocation;
  StartPC : Z;
  EndPC : Z;
}.

Definition namesDebugVariable (f : CompiledFunction) (table : option (list DebugVarEntry))
    (kind : RegisterKind) (reg from to : Z) : bool :=
  match table with
  | None => false
  | Some entries =>
      existsb (λ entry,
        let location := Location entry in
        if IsUpvalue location || IsSpilled location || negb (vlKind location =? kind)
           || negb (vlRegister location =? reg) then false
        else
          let end_ := if EndPC entry =? 0 then zlen (Body f) else EndPC entry in
          (StartPC entry <=? to) && (from <? end_)) entries
  end.

(** ** Loads of constants *)

Definition matchSmallUintConstLoad (f : CompiledFunction) (instr : Instruction) : option (Z * Z) :=
  if InstrIsTier1SubOp instr SubOpLoadUintConstSmall then Some (iC instr, iB instr)
  else if negb (iOp instr =? OpLoadUintConst) || negb (iC instr =? 0) then None
  else match zget (UintConstants f) (iB instr) with
  | None => None
  | Some value => if MaxUint8 <? value then None else Some (wrapU 8 value, iA instr)
  end.

Definition intConstLoadDestination (inst : Instruction) : option Z :=
  if (iOp inst =? OpLoadIntConst) && (iC inst =? 0) then Some (iA inst)
  else if InstrIsTier1SubOp inst SubOpLoadIntConstSmall then Some (iB inst)
  else None.

(** [slices.Index]. *)
Definition slicesIndex (pool : list Z) (value : Z) : option Z :=
  Z.of_nat ∘ fst <$> list_find (λ v, v = value) pool.

(** The index of the constant with the function whose pool holds it. *)
Definition intConstPoolIndex (f : CompiledFunction) (inst : Instruction) : option (CompiledFunction * Z) :=
  if iOp inst =? OpLoadIntConst then Some (f, iB inst)
  else
    let value := iC inst in
    let append :=
      if MaxUint8 <? zlen (IntConstants f) then None
      else
        let pool := IntConstants f ++ [value] in
        index ← MustIntToUint8 (zlen pool - 1);
        Some (setIntPool f pool (IntConstIndex f), index) in
    match slicesIndex (IntConstants f) value with
    | Some index => if index <=? MaxUint8 then Some (f, wrapU 8 index) else append
    | None => append
    end.

Definition uintConstPoolIndex (f : CompiledFunction) (inst : Instruction) : option (CompiledFunction * Z) :=
  if iOp inst =? OpLoadUintConst then Some (f, JoinWide (iB inst) (iC inst))
  else
    let value := iC inst in
    let append :=
      if MaxUint16 <? zlen (UintConstants f) then None
      else
        let pool := UintConstants f ++ [value] in
        index ← MustIntToUint16 (zlen pool - 1);
        Some (setUintPool f pool (UintConstIndex f), index) in
    match slicesIndex (UintConstants f) value with
    | Some index => if index <=? MaxUint16 then Some (f, wrapU 16 index) else append
    | None => append
    end.

(** A failed narrowing of [index] would be a panic, and is none: the pool has
    room. *)

Definition OptimiseLoadIntConst (f : CompiledFunction) (i : Z) : CompiledFunction :=
  match zget (Body f) i with
  | None => f
  | Some inst =>
      if negb (iOp inst =? OpLoadIntConst) || negb (iC inst =? 0) then f
      else match zget (IntConstants f) (iB inst) with
      | None => f
      | Some value =>
          if (0 <=? value) && (value <=? MaxSmallConstant)
          then rewrite f i [NewInstruction OpDrillTier1 SubOpLoadIntConstSmall (iA inst) value]
          else f
      end
  end.

Definition OptimiseLoadUintConst (f : CompiledFunction) (i : Z) : CompiledFunction :=
  match zget (Body f) i with
  | None => f
  | Some inst =>
      if negb (iOp inst =? OpLoadUintConst) || negb (iC inst =? 0) then f
      else match zget (UintConstants f) (iB inst) with
      | None => f
      | Some value =>
          if value <=? MaxSmallConstant
          then rewrite f i [NewInstruction OpDrillTier1 SubOpLoadUintConstSmall (iA inst) value]
          else f
      end
  end.

(** ** Compare and branch *)

Definition fuseCompareRegJump (J : gset Z) (cmpOp : Opcode) (fusedSubOp : SubOpcode)
    (f : CompiledFunction) (i : Z) : option CompiledFunction :=
  '(compare, jump) ← words2 (Body f) i;
  if negb (iOp compare =? cmpOp) || negb (iOp jump =? OpJumpIfFalse) || negb (iA compare =? iA jump)
     || bool_decide (i + 1 ∈ J) then None
  else if negb (registerDeadAfterBranch f RegisterInt (iA compare) (i + 1)) then None
  else Some (rewrite f i [NewTier1Instruction fusedSubOp (iB compare) (iC compare);
                          offsetWord (SignedOffset jump)]).

(** The first of the alternatives that matches. *)
Fixpoint firstOf {A B} (alternatives : list (A → option B)) (a : A) : option B :=
  match alternatives with
  | [] => None
  | alternative :: alternatives =>
      match alternative a with
      | Some b => Some b
      | None => firstOf alternatives a
      end
  end.

Definition FuseCompareRegJump (J : gset Z) (f : CompiledFunction) (i : Z) : option CompiledFunction :=
  firstOf [
    fuseCompareRegJump J OpLtInt SubOpLtIntJumpFalse f;
    fuseCompareRegJump J OpLeInt SubOpLeIntJumpFalse f;
    fuseCompareRegJump J OpGtInt SubOpGtIntJumpFalse f;
    fuseCompareRegJump J OpGeInt SubOpGeIntJumpFalse f;
    fuseCompareRegJump J OpEqInt SubOpEqIntJumpFalse f;
    fuseCompareRegJump J OpNeInt SubOpNeIntJumpFalse f] i.

Record compareConstFusion := { compare : Opcode; jump : Opcode; fused : SubOpcode }.

Definition fuseCompareConstJump (J : gset Z) (fusion : compareConstFusion)
    (f : CompiledFunction) (i : Z) : option CompiledFunction :=
  '(load, cmp, branch) ← words3 (Body f) i;
  if negb (iOp load =? OpLoadIntConst) || negb (iOp cmp =? compare fusion) || negb (iOp branch =? jump fusion)
     || negb (iA load =? iC cmp) || negb (iA cmp =? iA branch) || negb (iC load =? 0) || (iB cmp =? iA load)
     || bool_decide (i + 1 ∈ J) || bool_decide (i + 2 ∈ J) then None
  else if negb (registerDeadAfterBranch f RegisterInt (iA cmp) (i + 2))
       || negb (registerDeadAfterBranch f RegisterInt (iA load) (i + 2)) then None
  else
    let adj := wrapS 16 (SignedOffset branch + 1) in
    Some (rewrite f i [NewTier1Instruction (fused fusion) (iB cmp) (iB load); offsetWord adj; nop]).

Definition fuseIncIntJumpLt (J : gset Z) (f : CompiledFunction) (i : Z) : option CompiledFunction :=
  '(inc, cmp, branch) ← words3 (Body f) i;
  if negb (InstrIsTier2SubOp inc SubOpTier2IncInt) || negb (iOp cmp =? OpLtInt) || negb (iOp branch =? OpJumpIfTrue)
     || negb (iB cmp =? iC inc) || negb (iA branch =? iA cmp) || (iA cmp =? iC inc)
     || bool_decide (i + 1 ∈ J) || bool_decide (i + 2 ∈ J) then None
  else if negb (registerDeadAfterBranch f RegisterInt (iA cmp) (i + 2)) then None
  else
    let adj := wrapS 16 (SignedOffset branch + 1) in
    Some (rewrite f i [NewInstruction OpDrillTier1 SubOpIncIntJumpLt (iC inc) (iC cmp); offsetWord adj; nop]).

Definition fuseLenStringLtJump (J : gset Z) (f : CompiledFunction) (i : Z) : option CompiledFunction :=
  '(len, cmp, branch) ← words3 (Body f) i;
  if negb (InstrIsTier1SubOp len SubOpLenString) || negb (iOp cmp =? OpLtInt) || negb (iOp branch =? OpJumpIfFalse)
     || negb (iB len =? iC cmp) || negb (iA cmp =? iA branch) || (iB cmp =? iB len)
     || bool_decide (i + 1 ∈ J) || bool_decide (i + 2 ∈ J) then None
  else if negb (registerDeadAfterBranch f RegisterInt (iB len) (i + 2))
       || negb (registerDeadAfterBranch f RegisterInt (iA cmp) (i + 2)) then None
  else
    let adj := wrapS 16 (SignedOffset branch + 1) in
    Some (rewrite f i [NewInstruction OpDrillTier1 SubOpLenStringLtJumpFalse (iB cmp) (iC len); offsetWord adj; nop]).

Definition fuseNilTestJump (J : gset Z) (f : CompiledFunction) (i : Z) : option CompiledFunction :=
  '(load, cmp, branch) ← words3 (Body f) i;
  if negb (InstrIsTier2SubOp load SubOpTier2LoadNil)
     || (negb (iOp cmp =? OpEqGeneral) && negb (iOp cmp =? OpNeGeneral))
     || (negb (iOp branch =? OpJumpIfTrue) && negb (iOp branch =? OpJumpIfFalse))
     || negb (iA cmp =? iA branch)
     || bool_decide (i + 1 ∈ J) || bool_decide (i + 2 ∈ J) then None
  else
    let nilRegister := iC load in
    testRegister ← (if iB cmp =? nilRegister then Some (iC cmp)
                    else if iC cmp =? nilRegister then Some (iB cmp) else None);
    if (testRegister =? nilRegister)
       || negb (registerDeadAfterBranch f RegisterGeneral nilRegister (i + 2))
       || negb (registerDeadAfterBranch f RegisterInt (iA cmp) (i + 2)) then None
    else
      let wantNilJump := ((iOp cmp =? OpEqGeneral) && (iOp branch =? OpJumpIfTrue))
        || ((iOp cmp =? OpNeGeneral) && (iOp branch =? OpJumpIfFalse)) in
      let adj := wrapS 16 (SignedOffset branch + 2) in
      let '(lo, hi) := SplitOffset adj in
      let fusedOp := if wantNilJump then OpTestNilJumpTrue else OpTestNilJumpFalse in
      Some (rewrite f i [NewInstruction fusedOp testRegister lo hi; nop; nop]).

Definition fuseStringConstJump (J : gset Z) (f : CompiledFunction) (i : Z) : option CompiledFunction :=
  '(load, cmp, branch) ← words3 (Body f) i;
  if negb (iOp load =? OpLoadStringConst) || negb (iOp cmp =? OpEqString) || negb (iOp branch =? OpJumpIfFalse)
     || negb (iC load =? 0) || negb (iA load =? iC cmp) || negb (iA cmp =? iA branch) || (iB cmp =? iA load)
     || bool_decide (i + 1 ∈ J) || bool_decide (i + 2 ∈ J) then None
  else if negb (registerDeadAfterBranch f RegisterString (iA load) (i + 2))
       || negb (registerDeadAfterBranch f RegisterInt (iA cmp) (i + 2)) then None
  else
    let adj := wrapS 16 (SignedOffset branch + 1) in
    Some (rewrite f i [NewTier1Instruction SubOpEqStringConstJumpFalse (iB cmp) (iB load); offsetWord adj; nop]).

Definition fuseEqUintConstJumpFalse (J : gset Z) (f : CompiledFunction) (i : Z) : option CompiledFunction :=
  '(load, cmp, branch) ← words3 (Body f) i;
  '(immVal, constReg) ← matchSmallUintConstLoad f load;
  if negb (iOp cmp =? OpEqUint) || negb (iOp branch =? OpJumpIfFalse) then None
  else if bool_decide (i + 1 ∈ J) || bool_decide (i + 2 ∈ J) then None
  else
    valueReg ← (if iC cmp =? constReg then Some (iB cmp)
                else if iB cmp =? constReg then Some (iC cmp) else None);
    let condReg := iA cmp in
    if negb (iA branch =? condReg) || (valueReg =? constReg) then None
    else if negb (registerDeadAfterBranch f RegisterUint constReg (i + 2))
         || negb (registerDeadAfterBranch f RegisterInt condReg (i + 2)) then None
    else Some (rewrite f i [NewInstruction OpDrillTier1 SubOpEqUintConstJumpFalse valueReg immVal;
                            offsetWord (SignedOffset branch); nop]).

Definition fuseMapIndexOkJumpFalse (J : gset Z) (sourceOpcode targetOpcode : Opcode)
    (f : CompiledFunction) (i : Z) : option CompiledFunction :=
  '(source, word, branch) ← words3 (Body f) i;
  if negb (iOp source =? sourceOpcode) then None
  else if negb (iOp branch =? OpJumpIfFalse) then None
  else if bool_decide (i + 1 ∈ J) || bool_decide (i + 2 ∈ J) then None
  else
    let okReg := iA word in
    if negb (iA branch =? okReg) then None
    else
      let packedOffset := wrapS 32 (SignedOffset branch + 1) in
      if (MaxInt16 <? packedOffset) || (packedOffset <? MinInt16) then None
      else
        let '(offLo, offHi) := SplitOffset (wrapS 16 packedOffset) in
        Some (rewrite f i [NewInstruction targetOpcode (iA source) (iB source) (iC source);
                           NewInstruction OpExt okReg offLo offHi; nop]).

(** ** The range check *)

Record rangeCheckShape := { loImm : Z; vRegLo : Z; hiImm : Z; vRegHi : Z }.

(** The eight words of the window. *)
Record rangeCheckWindow := {
  loadLo : Instruction; compareLo : Instruction; moveLo : Instruction; jumpLo : Instruction;
  loadHi : Instruction; compareHi : Instruction; moveHi : Instruction; jumpHi : Instruction;
}.

Definition rangeCheckWords (body : list Instruction) (i : Z) : option rangeCheckWindow :=
  w0 ← zget body i;
  w1 ← zget body (i + 1);
  w2 ← zget body (i + 2);
  w3 ← zget body (i + RangeCheckFirstJumpOffset);
  w4 ← zget body (i + RangeCheckSecondLoadOffset);
  w5 ← zget body (i + RangeCheckSecondLoadOffset + 1);
  w6 ← zget body (i + RangeCheckSecondMoveOffset);
  w7 ← zget body (i + RangeCheckSecondJumpOffset);
  Some {| loadLo := w0; compareLo := w1; moveLo := w2; jumpLo := w3;
          loadHi := w4; compareHi := w5; moveHi := w6; jumpHi := w7 |}.

Definition matchRangeCheckShape (f : CompiledFunction) (w : rangeCheckWindow) : option rangeCheckShape :=
  '(lo, regLo) ← matchSmallUintConstLoad f (loadLo w);
  if negb (iOp (compareLo w) =? OpGeUint) || negb (InstrIsTier1SubOp (moveLo w) SubOpMoveInt)
     || negb (iOp (jumpLo w) =? OpJumpIfFalse) then None
  else
    '(hi, regHi) ← matchSmallUintConstLoad f (loadHi w);
    if negb (iOp (compareHi w) =? OpLeUint) || negb (InstrIsTier1SubOp (moveHi w) SubOpMoveInt)
       || negb (iOp (jumpHi w) =? OpJumpIfFalse) then None
    else Some {| loImm := lo; vRegLo := regLo; hiImm := hi; vRegHi := regHi |}.

Definition countIncomingJumps (body : list Instruction) (targetPC sourcePC : Z) : Z :=
  zlen (filter (λ j, j ≠ sourcePC ∧ JumpTargetAt body j = Some targetPC) (seqZ 0 (zlen body))).

Definition rangeCheckJumpTargetsClear (body : list Instruction) (i : Z) (J : gset Z) : bool :=
  if existsb (λ k, bool_decide (k ∈ J)) (seqZ (i + 1) RangeCheckSecondMoveOffset) then false
  else negb (bool_decide (i + RangeCheckSecondJumpOffset ∈ J) &&
    (0 <? countIncomingJumps body (i + RangeCheckSecondJumpOffset) (i + RangeCheckFirstJumpOffset))).

(** The value and condition registers. *)
Definition matchRangeCheckRegisters (w : rangeCheckWindow) (vRegLo vRegHi : Z) : option (Z * Z) :=
  if negb (iC (compareLo w) =? vRegLo) then None
  else
    let cmpLo := iA (compareLo w) in
    let valueReg := iB (compareLo w) in
    if negb (iC (moveLo w) =? cmpLo) then None
    else
      let condReg := iB (moveLo w) in
      if negb (iA (jumpLo w) =? condReg) then None
      else if negb (iB (compareHi w) =? valueReg) || negb (iC (compareHi w) =? vRegHi) then None
      else
        let cmpHi := iA (compareHi w) in
        if negb (iC (moveHi w) =? cmpHi) || negb (iB (moveHi w) =? condReg) then None
        else if negb (iA (jumpHi w) =? condReg) then None
        else Some (valueReg, condReg).

Definition rangeCheckDroppedWritesDead (f : CompiledFunction) (i : Z) (w : rangeCheckWindow)
    (shape : rangeCheckShape) (valueReg condReg : Z) : bool :=
  if (valueReg =? vRegLo shape) || (valueReg =? vRegHi shape) then false
  else
    let branchPC := i + RangeCheckSecondJumpOffset in
    forallb (λ '(kind, reg), registerDeadAfterBranch f kind reg branchPC)
      [(RegisterUint, vRegLo shape); (RegisterUint, vRegHi shape);
       (RegisterInt, iA (compareLo w)); (RegisterInt, iA (compareHi w)); (RegisterInt, condReg)].

Definition validateRangeCheckOffsets (w : rangeCheckWindow) : option Z :=
  if negb (SignedOffset (jumpLo w) =? RangeCheckFirstJumpDelta) then None
  else
    let off2 := SignedOffset (jumpHi w) in
    if off2 <? 0 then None else Some off2.

Definition fuseRangeCheckUintJumpFalse (J : gset Z) (f : CompiledFunction) (i : Z) : option CompiledFunction :=
  w ← rangeCheckWords (Body f) i;
  shape ← matchRangeCheckShape f w;
  if negb (rangeCheckJumpTargetsClear (Body f) i J) then None
  else
    '(valueReg, condReg) ← matchRangeCheckRegisters w (vRegLo shape) (vRegHi shape);
    off2 ← validateRangeCheckOffsets w;
    if negb (rangeCheckDroppedWritesDead f i w shape valueReg condReg) then None
    else Some (rewrite f i ([NewTier2Instruction SubOpTier2RangeCheckUintJumpFalse valueReg;
        NewInstruction OpExt (loImm shape) (hiImm shape) 0; offsetWord off2]
        ++ replicate (Z.to_nat (RangeCheckWindowSize - RangeCheckFirstNopOffset)) nop)).

Definition fuseLongPatterns (J : gset Z) (f : CompiledFunction) (i : Z) : option CompiledFunction :=
  fuseRangeCheckUintJumpFalse J f i.

Definition FuseThreeInstrPatterns (J : gset Z) (f : CompiledFunction) (i : Z) : option CompiledFunction :=
  firstOf [
    fuseCompareConstJump J {| compare := OpLeInt; jump := OpJumpIfFalse; fused := SubOpLeIntConstJumpFalse |} f;
    fuseCompareConstJump J {| compare := OpLtInt; jump := OpJumpIfFalse; fused := SubOpLtIntConstJumpFalse |} f;
    fuseCompareConstJump J {| compare := OpEqInt; jump := OpJumpIfFalse; fused := SubOpEqIntConstJumpFalse |} f;
    fuseCompareConstJump J {| compare := OpEqInt; jump := OpJumpIfTrue; fused := SubOpEqIntConstJumpTrue |} f;
    fuseCompareConstJump J {| compare := OpGeInt; jump := OpJumpIfFalse; fused := SubOpGeIntConstJumpFalse |} f;
    fuseCompareConstJump J {| compare := OpGtInt; jump := OpJumpIfFalse; fused := SubOpGtIntConstJumpFalse |} f;
    fuseStringConstJump J f;
    fuseNilTestJump J f;
    fuseIncIntJumpLt J f;
    fuseLenStringLtJump J f;
    fuseEqUintConstJumpFalse J f;
    fuseMapIndexOkJumpFalse J OpMapIndexOkIntInt OpMapIndexOkJumpIfFalseIntInt f;
    fuseMapIndexOkJumpFalse J OpMapIndexOkStringInt OpMapIndexOkJumpIfFalseStringInt f;
    fuseMapIndexOkJumpFalse J OpMapIndexOkStringString OpMapIndexOkJumpIfFalseStringString f;
    fuseMapIndexOkJumpFalse J OpMapIndexOkIntString OpMapIndexOkJumpIfFalseIntString f;
    fuseMapIndexOkJumpFalse J OpMapIndexOkIntGeneral OpMapIndexOkJumpIfFalseIntGeneral f;
    fuseMapIndexOkJumpFalse J OpMapIndexOkStringGeneral OpMapIndexOkJumpIfFalseStringGeneral f] i.

(** ** Arithmetic with a constant *)

Definition loadedRegisterConsumedOnlyByFusedOp (debugVars : option (list DebugVarEntry))
    (f : CompiledFunction) (i : Z) (next : Instruction) (loaded : Z) (kind : RegisterKind) : bool :=
  if iB next =? loaded then false
  else if iA next =? loaded then true
  else (returnSlotCount f kind <=? loaded) && negb (namesDebugVariable f debugVars kind loaded i (i + 1))
    && registerDeadFrom f kind loaded (i + 2).

Definition intFusedOp (op : Opcode) : option Opcode :=
  if op =? OpSubInt then Some OpSubIntConst
  else if op =? OpAddInt then Some OpAddIntConst
  else if op =? OpMulInt then Some OpMulIntConst
  else None.

Definition fuseIntArithConst (debugVars : option (list DebugVarEntry)) (J : gset Z)
    (f : CompiledFunction) (i : Z) : option CompiledFunction :=
  '(load, next) ← words2 (Body f) i;
  if bool_decide (i + 1 ∈ J) then None
  else
    loaded ← intConstLoadDestination load;
    if negb (loaded =? iC next) then None
    else
      fusedOp ← intFusedOp (iOp next);
      if negb (loadedRegisterConsumedOnlyByFusedOp debugVars f i next loaded RegisterInt) then None
      else
        '(f, index) ← intConstPoolIndex f load;
        Some (rewrite f i [NewInstruction fusedOp (iA next) (iB next) index; nop]).

Definition uintFusedSubOp (op : Opcode) : option SubOpcode :=
  if op =? OpAddUint then Some SubOpAddUintConst
  else if op =? OpSubUint then Some SubOpSubUintConst
  else if op =? OpBitAndUint then Some SubOpBitAndUintConst
  else None.

Definition fuseUintArithConst (debugVars : option (list DebugVarEntry)) (J : gset Z)
    (f : CompiledFunction) (i : Z) : option CompiledFunction :=
  '(load, next) ← words2 (Body f) i;
  if bool_decide (i + 1 ∈ J) then None
  else
    loaded ← (if iOp load =? OpLoadUintConst then Some (iA load)
              else snd <$> matchSmallUintConstLoad f load);
    if negb (loaded =? iC next) then None
    else
      fusedSubOp ← uintFusedSubOp (iOp next);
      if negb (loadedRegisterConsumedOnlyByFusedOp debugVars f i next loaded RegisterUint) then None
      else
        '(f, index) ← uintConstPoolIndex f load;
        let '(lo, hi) := SplitWide index in
        Some (rewrite f i [NewInstruction OpDrillTier1 fusedSubOp (iA next) (iB next);
                           NewInstruction OpExt lo hi 0]).

Definition FuseArithConst (debugVars : option (list DebugVarEntry)) (J : gset Z)
    (f : CompiledFunction) (i : Z) : option CompiledFunction :=
  firstOf [fuseIntArithConst debugVars J f; fuseUintArithConst debugVars J f] i.

Definition FuseAddIntJump (J : gset Z) (f : CompiledFunction) (i : Z) : option CompiledFunction :=
  '(add, branch) ← words2 (Body f) i;
  if negb (iOp add =? OpAddIntConst) || negb (InstrIsTier1SubOp branch SubOpJump) || bool_decide (i + 1 ∈ J)
  then None
  else
    let adj := wrapS 16 (SignedOffset branch + 1) in
    Some (rewrite f i [NewInstruction OpAddIntJump (iA add) (iB add) (iC add); offsetWord adj]).

(** ** Strings and slices *)

Definition FuseConcatRune (J : gset Z) (f : CompiledFunction) (i : Z) : option CompiledFunction :=
  '(rune, concat) ← words2 (Body f) i;
  if negb (InstrIsTier1SubOp rune SubOpRuneToString) || negb (iOp concat =? OpConcatString)
     || negb (iB rune =? iC concat) || (iB rune =? iB concat) || bool_decide (i + 1 ∈ J) then None
  else if negb (writeDroppedSafely f (i + 2) RegisterString (iB rune) (iA concat)) then None
  else Some (rewrite f i [NewInstruction OpConcatRuneString (iA concat) (iB concat) (iC rune); nop]).

Definition FuseStringIndexToInt (J : gset Z) (f : CompiledFunction) (i : Z) : option CompiledFunction :=
  '(index, convert) ← words2 (Body f) i;
  if negb (iOp index =? OpStringIndex) || negb (InstrIsTier1SubOp convert SubOpUintToInt)
     || negb (iA index =? iC convert) || bool_decide (i + 1 ∈ J) then None
  else if negb (registerDeadFrom f RegisterUint (iA index) (i + 2)) then None
  else Some (rewrite f i [NewInstruction OpStringIndexToInt (iB convert) (iB index) (iC index); nop]).

Definition isTier1AppendSubOp (sub : SubOpcode) : bool :=
  one_of sub [SubOpAppendInt; SubOpAppendString; SubOpAppendFloat; SubOpAppendBool; SubOpAppendUint].

Definition tryFuseTier0AppendMove (f : CompiledFunction) (i : Z) (appendInstr moveInstr : Instruction)
    : option CompiledFunction :=
  if negb (iOp moveInstr =? OpMoveGeneral) then None
  else if negb (iA moveInstr =? iB appendInstr) || negb (iB moveInstr =? iA appendInstr) then None
  else if negb (writeDroppedSafely f (i + 2) RegisterGeneral (iA appendInstr) (iB appendInstr)) then None
  else Some (rewrite f i
    [NewInstruction (iOp appendInstr) (iB appendInstr) (iB appendInstr) (iC appendInstr); nop]).

Definition tryFuseTier1AppendMove (J : gset Z) (f : CompiledFunction) (i : Z) (appendInstr word : Instruction)
    : option CompiledFunction :=
  if negb (iOp appendInstr =? OpDrillTier1) then None
  else if negb (isTier1AppendSubOp (iA appendInstr)) then None
  else
    moveInstr ← zget (Body f) (i + 2);
    if bool_decide (i + 2 ∈ J) then None
    else if negb (iOp word =? OpExt) then None
    else if negb (iOp moveInstr =? OpMoveGeneral) then None
    else if negb (iA moveInstr =? iC appendInstr) || negb (iB moveInstr =? iB appendInstr) then None
    else if negb (writeDroppedSafely f (i + 3) RegisterGeneral (iB appendInstr) (iC appendInstr)) then None
    else Some (rewrite f i
      [NewInstruction OpDrillTier1 (iA appendInstr) (iC appendInstr) (iC appendInstr); word; nop]).

Definition FuseAppendMove (J : gset Z) (f : CompiledFunction) (i : Z) : option CompiledFunction :=
  '(appendInstr, second) ← words2 (Body f) i;
  if bool_decide (i + 1 ∈ J) then None
  else if iOp appendInstr =? OpAppend then tryFuseTier0AppendMove f i appendInstr second
  else tryFuseTier1AppendMove J f i appendInstr second.
