(* ===== verification/CopyFusion.v ===== *)
(** * Fused copies of struct fields

    [internal/compile/passes/function_copy_fusion.go]: a read of a struct field
    into a register that is then stored into a field of the same layout becomes
    one copy, when a bounded scan finds the register dead. *)

From S2P Require Import Prelude SafeConv Register Opcode Instruction Shapes Spec JumpLayout Jumps.
From S2P Require Import Extension Function Builder Verify VerifySound Machine MachineSafe MachineFlow.
From S2P Require Import FuseNarrow PassFacts Liveness Peephole.

Definition copyFusionLookaheadLimit : Z := 24.

(** The part of a field layout the fusion reads. *)
Record StructFieldLayout := NewStructFieldLayout {
  layoutKind : Z;
  FieldTypeIndex : Z;
}.

Definition operandMayNameGeneral (instr : Instruction) (shape : OperandShape) (role : OperandRole) : bool :=
  if bool_decide (role = RoleRegGeneral) then true
  else if bool_decide (role = RoleRegDynamic) then
    match kindMarkerOperandOf instr shape with
    | None => true
    | Some kind => kind =? RegisterGeneral
    end
  else false.

(** [(reads, writes)]. *)
Definition classifyGeneralRegisterUseByShape (instr : Instruction) (reg : Z) : bool * bool :=
  let shape := ShapeForInstruction instr in
  if negb (hasFlag (shFlags shape) ShapeFlagDescribed)
  then ((iA instr =? reg) || (iB instr =? reg) || (iC instr =? reg), false)
  else if hasFlag (shFlags shape) ShapeFlagOpaqueWrites then (true, false)
  else
    let named '(position, role, register) := (register =? reg) && operandMayNameGeneral instr shape role in
    (existsb (λ o, named o && mask_at (shReads shape) (fst (fst o))) (operands instr shape),
     existsb (λ o, named o && mask_at (shWrites shape) (fst (fst o))) (operands instr shape)).

Definition classifyGeneralRegisterUse (instr : Instruction) (reg : Z) : bool * bool :=
  let op := iOp instr in
  if op =? OpDrillTier1 then
    if one_of (iA instr) [SubOpCall; SubOpTailCall; SubOpCallMethod; SubOpCallMethodInlineable;
      SubOpCallNative; SubOpCallIIFE; SubOpCallScalar]
    then (true, false)
    else classifyGeneralRegisterUseByShape instr reg
  else if one_of op [OpJumpIfFalse; OpJumpIfTrue; OpExt] then (false, false)
  else if one_of op [OpGo; OpDefer] then (true, false)
  else if op =? OpLoadGeneralConst then (false, iA instr =? reg)
  else if one_of op [OpGetStructFieldGeneral; OpGetStructFieldRawPointerT0; OpMoveGeneral]
  then (iB instr =? reg, iA instr =? reg)
  else if one_of op [OpSetStructFieldGeneral; OpCopyStructFieldGeneralT0]
  then ((iA instr =? reg) || (iB instr =? reg), false)
  else if one_of op [OpGetStructFieldIntT0; OpGetStructFieldUint; OpGetStructFieldFloat; OpGetStructFieldBool]
  then (iB instr =? reg, false)
  else if one_of op [OpSetStructFieldIntT0; OpSetStructFieldUint; OpSetStructFieldFloat; OpSetStructFieldBool;
    OpTestNilJumpFalse; OpTestNilJumpTrue]
  then (iA instr =? reg, false)
  else if one_of op [OpEqGeneral; OpNeGeneral; OpLtGeneral; OpLeGeneral; OpGtGeneral; OpGeGeneral]
  then ((iB instr =? reg) || (iC instr =? reg), false)
  else classifyGeneralRegisterUseByShape instr reg.

(** The budget falls at every turn and halves at every branch, so one more than
    the budget is enough fuel. *)
Fixpoint generalRegisterIsDeadFrom (fuel : nat) (f : CompiledFunction) (pc reg budget : Z) : bool :=
  match fuel with
  | O => false
  | S fuel =>
      if budget <=? 0 then false
      else match zget (Body f) pc with
      | None => false
      | Some instr =>
          let '(readsReg, writesReg) := classifyGeneralRegisterUse instr reg in
          if readsReg then false
          else if writesReg then true
          else if IsReturnInstruction instr then returnSlotCount f RegisterGeneral <=? reg
          else if bool_decide (fst (JumpLayoutOf instr) = JumpLayoutNone)
          then generalRegisterIsDeadFrom fuel f (pc + 1) reg (budget - 1)
          else match JumpTargetAt (Body f) pc with
          | None => false
          | Some targetPC =>
              if (targetPC <? 0) || (zlen (Body f) <=? targetPC) then false
              else if InstrIsTier1SubOp instr SubOpJump
              then generalRegisterIsDeadFrom fuel f targetPC reg (budget - 1)
              else
                let halfBudget := budget / 2 in
                if halfBudget <? 1 then false
                else generalRegisterIsDeadFrom fuel f (pc + JumpFootprint instr) reg halfBudget
                  && generalRegisterIsDeadFrom fuel f targetPC reg halfBudget
          end
      end
  end.

Definition generalRegisterIsDeadAfter (f : CompiledFunction) (startPC reg : Z) : bool :=
  generalRegisterIsDeadFrom (Z.to_nat (copyFusionLookaheadLimit + 1)) f startPC reg copyFusionLookaheadLimit.

Section copy_fusion.
Context (StructLayoutTable : list StructFieldLayout) (J : gset Z).

Definition copyFusionLayoutsCompatible (sourceLayoutIndex destinationLayoutIndex : Z) : bool :=
  match zget StructLayoutTable sourceLayoutIndex, zget StructLayoutTable destinationLayoutIndex with
  | Some sourceLayout, Some destinationLayout =>
      (layoutKind sourceLayout =? layoutKind destinationLayout)
      && (FieldTypeIndex sourceLayout =? FieldTypeIndex destinationLayout)
  | _, _ => false
  end.

Definition tryFuseCopyAdjacent (f : CompiledFunction) (i : Z) : option CompiledFunction :=
  '(get, set) ← words2 (Body f) i;
  if negb (iOp set =? OpSetStructFieldGeneral) then None
  else if bool_decide (i + 1 ∈ J) then None
  else
    let tempReg := iA get in
    if negb (iB set =? tempReg) then None
    else if negb (copyFusionLayoutsCompatible (iC get) (iC set)) then None
    else if negb (generalRegisterIsDeadAfter f (i + 2) tempReg) then None
    else Some (rewrite f i [NewInstruction OpCopyStructFieldGeneralT0 (iB get) (iA set) (iC get);
                            NewInstruction OpExt (iC set) 0 0]).

Definition tryFuseCopyWithGap (f : CompiledFunction) (i : Z) : option CompiledFunction :=
  '(get, intermediate, set) ← words3 (Body f) i;
  if negb (iOp set =? OpSetStructFieldGeneral) then None
  else if bool_decide (i + 1 ∈ J) || bool_decide (i + 2 ∈ J) then None
  else
    let tempReg := iA get in
    let sourceReceiver := iB get in
    if negb (iB set =? tempReg) then None
    else if negb (copyFusionLayoutsCompatible (iC get) (iC set)) then None
    else if (iOp intermediate =? OpNop) || (iOp intermediate =? OpExt) then None
    else
      let '(intermediateReads, intermediateWrites) := classifyGeneralRegisterUse intermediate tempReg in
      if intermediateReads || intermediateWrites then None
      else if snd (classifyGeneralRegisterUse intermediate sourceReceiver) then None
      else if negb (generalRegisterIsDeadAfter f (i + 3) tempReg) then None
      else Some (rewrite f i [intermediate;
        NewInstruction OpCopyStructFieldGeneralT0 sourceReceiver (iA set) (iC get);
        NewInstruction OpExt (iC set) 0 0]).

Definition FuseCopyStructFieldGeneralT0 (f : CompiledFunction) (i : Z) : option CompiledFunction :=
  '(get, _) ← words2 (Body f) i;
  if negb (iOp get =? OpGetStructFieldGeneral) && negb (iOp get =? OpGetStructFieldRawPointerT0) then None
  else firstOf [tryFuseCopyAdjacent f; tryFuseCopyWithGap f] i.
End copy_fusion.
