(* ===== verification/MoveElim.v ===== *)
(** * Elimination of moves

    [internal/compile/passes/function_move_elimination.go] and
    [function_move_elimination_jumps.go]: a move between registers of a bank
    goes when its destination has one reader before it is written again, which
    then reads the source, or none. *)

From S2P Require Import Prelude SafeConv Register Opcode Instruction Shapes Spec JumpLayout Jumps.
From S2P Require Import Extension Function Builder Verify VerifySound Machine MachineSafe MachineFlow.
From S2P Require Import FuseNarrow PassFacts Liveness Peephole Dominators.

Definition moveElimScanWindow : Z := 64.
Definition tier1ScanOperandPositionC : Z := 2.

Record MoveCandidate := { Kind : RegisterKind; Destination : Z; Source : Z }.

Inductive moveScanDecision := moveScanContinue | moveScanBail | moveScanEliminate.

#[export] Instance moveScanDecision_eq_dec : EqDecision moveScanDecision.
Proof. solve_decision. Defined.

Definition moveOpcodeKind (instr : Instruction) : option RegisterKind :=
  if negb (iOp instr =? OpDrillTier1) then None
  else
    let sub := iA instr in
    if sub =? SubOpMoveInt then Some RegisterInt
    else if sub =? SubOpMoveFloat then Some RegisterFloat
    else if sub =? SubOpMoveString then Some RegisterString
    else if sub =? SubOpMoveBool then Some RegisterBool
    else if sub =? SubOpMoveUint then Some RegisterUint
    else if sub =? SubOpMoveComplex then Some RegisterComplex
    else None.

(** The destination and source. *)
Definition moveOperands (instr : Instruction) : Z * Z := (iB instr, iC instr).

Definition isControlFlowJump (instr : Instruction) : bool :=
  one_of (iOp instr) [OpJumpIfTrue; OpJumpIfFalse]
  || ((iOp instr =? OpDrillTier1) && (iA instr =? SubOpJump)).

Definition rewriteOperand (body : list Instruction) (j position newReg : Z) : list Instruction :=
  match zget body j with
  | None => body
  | Some cur =>
      if position =? 0 then zset body j (NewInstruction (iOp cur) newReg (iB cur) (iC cur))
      else if position =? 1 then zset body j (NewInstruction (iOp cur) (iA cur) newReg (iC cur))
      else if position =? 2 then zset body j (NewInstruction (iOp cur) (iA cur) (iB cur) newReg)
      else body
  end.

Definition classifyMoveEliminationCandidate (f : CompiledFunction) (J : gset Z) (i : Z) : option MoveCandidate :=
  '(instr, _) ← words2 (Body f) i;
  kind ← moveOpcodeKind instr;
  if bool_decide (i ∈ J) then None
  else if MayCreateSharedCells f then None
  else
    let '(destination, source) := moveOperands instr in
    Some {| Kind := kind; Destination := destination; Source := source |}.

(** The reads of the destination, whether the source and the destination are
    written, and the position of the last read. *)
Record operandUse := { readCount : Z; writesSource : bool; writesDestination : bool; readPos : Z }.

Definition classifyOperand (shape : OperandShape) (kind : RegisterKind) (destination source : Z)
    (use : operandUse) (operand : Z * OperandRole * Z) : operandUse :=
  let '(p, role, register) := operand in
  match KindForRole role with
  | None => use
  | Some opKind =>
      if negb (opKind =? kind) then use
      else
        let reads := mask_at (shReads shape) p && (register =? destination) in
        let writes := mask_at (shWrites shape) p in
        {| readCount := if reads then readCount use + 1 else readCount use;
           writesSource := (writes && (register =? source)) || writesSource use;
           writesDestination := (writes && negb (register =? source) && (register =? destination)) || writesDestination use;
           readPos := if reads then p else readPos use |}
  end.

Definition classifyOperands (instr : Instruction) (shape : OperandShape) (kind : RegisterKind)
    (destination source : Z) : operandUse :=
  foldl (classifyOperand shape kind destination source)
    {| readCount := 0; writesSource := false; writesDestination := false; readPos := -1 |}
    (operands instr shape).

(** ** The scan *)

(** The read seen so far, with its position, and the jump targets on whose
    path the destination is dead. *)
Record moveScan := NewScan { readJ : option (Z * Z); deadTargets : gset Z }.

Section scan.
Context (body : list Instruction) (movePC : Z) (J : gset Z) (candidate : MoveCandidate).
Context (dom : option functionDominators).

Definition classifyTier1ScanStep (scan : moveScan) (j : Z) (instr : Instruction) : moveScanDecision * moveScan :=
  match moveOpcodeKind instr with
  | None => (moveScanBail, scan)
  | Some subKind =>
      if negb (subKind =? Kind candidate) then (moveScanContinue, scan)
      else
        let '(destination, source) := moveOperands instr in
        let reads := source =? Destination candidate in
        if reads && bool_decide (is_Some (readJ scan)) then (moveScanBail, scan)
        else
          let scan := if reads then NewScan (Some (j, tier1ScanOperandPositionC)) (deadTargets scan) else scan in
          if destination =? Destination candidate then (moveScanEliminate, scan)
          else if (destination =? Source candidate) && bool_decide (readJ scan = None) then (moveScanBail, scan)
          else (moveScanContinue, scan)
  end.

Definition classifyDescribedScanStep (scan : moveScan) (j : Z) (instr : Instruction) (shape : OperandShape)
    : moveScanDecision * moveScan :=
  if bool_decide (shA shape = RoleRegDynamic) || bool_decide (shB shape = RoleRegDynamic)
     || bool_decide (shC shape = RoleRegDynamic) then (moveScanBail, scan)
  else
    let use := classifyOperands instr shape (Kind candidate) (Destination candidate) (Source candidate) in
    if 1 <? readCount use then (moveScanBail, scan)
    else if (readCount use =? 1) && (bool_decide (is_Some (readJ scan)) || writesSource use)
    then (moveScanBail, scan)
    else
      let scan := if readCount use =? 1 then NewScan (Some (j, readPos use)) (deadTargets scan) else scan in
      if writesSource use && bool_decide (readJ scan = None) then (moveScanBail, scan)
      else if writesDestination use then (moveScanEliminate, scan)
      else if hasFlag (shFlags shape) ShapeFlagTerminator then (moveScanEliminate, scan)
      else (moveScanContinue, scan).

(** ** The path from a jump target *)

Definition classifyDeadPathTier1Step (instr : Instruction) : moveScanDecision :=
  match moveOpcodeKind instr with
  | None => moveScanBail
  | Some kind =>
      if negb (kind =? Kind candidate) then moveScanContinue
      else
        let '(destination, source) := moveOperands instr in
        if source =? Destination candidate then moveScanBail
        else if destination =? Destination candidate then moveScanEliminate
        else moveScanContinue
  end.

Definition classifyDeadPathStep (instr : Instruction) : moveScanDecision :=
  if iOp instr =? OpDrillTier1 then classifyDeadPathTier1Step instr
  else
    let shape := OperandShapeFor (iOp instr) in
    if negb (hasFlag (shFlags shape) ShapeFlagDescribed)
       || hasFlag (shFlags shape) ShapeFlagFollowsExtension || hasFlag (shFlags shape) ShapeFlagControlFlow
    then moveScanBail
    else
      let use := classifyOperands instr shape (Kind candidate) (Destination candidate) (Source candidate) in
      if 0 <? readCount use then moveScanBail
      else if writesDestination use || hasFlag (shFlags shape) ShapeFlagTerminator then moveScanEliminate
      else moveScanContinue.

(** The loop of [destinationDeadAt] over the [fuel] words left of its window. *)
Fixpoint destinationDeadFrom (fuel : nat) (start k : Z) : bool :=
  match fuel with
  | O => false
  | S fuel =>
      match zget body k with
      | None => false
      | Some instr =>
          if negb (k =? start) && bool_decide (k ∈ J) then false
          else match classifyDeadPathStep instr with
          | moveScanContinue => destinationDeadFrom fuel start (k + 1)
          | decision => bool_decide (decision = moveScanEliminate)
          end
      end
  end.

Definition destinationDeadAt (start : Z) : bool :=
  destinationDeadFrom (Z.to_nat moveElimScanWindow) start start.

(** The table never indexes out of range ([Dominators]). *)
Definition dominates (target : Z) : bool := bool_decide (Dominates dom movePC target = Some true).

Definition classifyJumpScanStep (scan : moveScan) (j : Z) (instr : Instruction)
    : moveScanDecision * Z * moveScan :=
  match dom with
  | None => (moveScanBail, 1, scan)
  | Some _ =>
      match JumpTargetAt body j with
      | None => (moveScanBail, 1, scan)
      | Some target =>
          if (target <=? j) || negb (dominates target) then (moveScanBail, 1, scan)
          else if negb (destinationDeadAt target) then (moveScanBail, 1, scan)
          else
            let scan := NewScan (readJ scan) ({[target]} ∪ deadTargets scan) in
            let width := JumpWordCount instr in
            if InstrIsTier1SubOp instr SubOpJump then (moveScanEliminate, width, scan)
            else
              let shape := ShapeForInstruction instr in
              if negb (hasFlag (shFlags shape) ShapeFlagDescribed) || hasFlag (shFlags shape) ShapeFlagOpaqueWrites
              then (moveScanBail, width, scan)
              else
                let '(decision, scan) := classifyDescribedScanStep scan j instr shape in
                (match decision with moveScanEliminate => moveScanContinue | _ => decision end, width, scan)
      end
  end.

Definition classifyMoveScanStep (scan : moveScan) (j : Z) (instr : Instruction) : moveScanDecision * Z * moveScan :=
  if bool_decide (j ∈ J) then
    (if bool_decide (j ∈ deadTargets scan) then moveScanEliminate else moveScanBail, 1, scan)
  else if isControlFlowJump instr || hasFlag (shFlags (OperandShapeFor (iOp instr))) ShapeFlagControlFlow
  then classifyJumpScanStep scan j instr
  else if iOp instr =? OpDrillTier1 then
    let '(decision, scan) := classifyTier1ScanStep scan j instr in (decision, 1, scan)
  else
    let shape := OperandShapeFor (iOp instr) in
    if negb (hasFlag (shFlags shape) ShapeFlagDescribed) then (moveScanBail, 1, scan)
    else if hasFlag (shFlags shape) ShapeFlagFollowsExtension then (moveScanBail, 1, scan)
    else let '(decision, scan) := classifyDescribedScanStep scan j instr shape in (decision, 1, scan).

(** The loop, up to [limit]; [j] grows, so the window is enough fuel. *)
Fixpoint scanFrom (fuel : nat) (scan : moveScan) (j limit : Z) : option moveScan :=
  match fuel with
  | O => None
  | S fuel =>
      if limit <=? j then None
      else match zget body j with
      | None => None
      | Some instr =>
          match classifyMoveScanStep scan j instr with
          | (moveScanBail, _, _) => None
          | (moveScanEliminate, _, scan) => Some scan
          | (moveScanContinue, advance, scan) => scanFrom fuel scan (j + advance) limit
          end
      end
  end.

Definition scanAndEliminateMoveAcrossJumps : option (list Instruction) :=
  let limit := Z.min (movePC + 1 + moveElimScanWindow) (zlen body) in
  scan ← scanFrom (Z.to_nat moveElimScanWindow) (NewScan None ∅) (movePC + 1) limit;
  let body :=
    match readJ scan with
    | Some (j, position) => rewriteOperand body j position (Source candidate)
    | None => body
    end in
  Some (zset body movePC nop).
End scan.

Definition ScanAndEliminateMove (body : list Instruction) (i : Z) (J : gset Z) (candidate : MoveCandidate)
    : option (list Instruction) :=
  scanAndEliminateMoveAcrossJumps body i J candidate None.

Definition fuseMoveElimination (J : gset Z) (f : CompiledFunction) (i : Z) : option CompiledFunction :=
  candidate ← classifyMoveEliminationCandidate f J i;
  if Destination candidate =? Source candidate then Some (setBody f (zset (Body f) i nop))
  else if (Destination candidate <? returnSlotCount f (Kind candidate))
       || (Source candidate <? returnSlotCount f (Kind candidate)) then None
  else setBody f <$> ScanAndEliminateMove (Body f) i J candidate.

(** One turn of [eliminateMovesAcrossDominatedJumps]. *)
Definition eliminateMoveAt (dom : functionDominators) (J : gset Z) (f : CompiledFunction) (i : Z)
    : CompiledFunction :=
  match classifyMoveEliminationCandidate f J i with
  | None => f
  | Some candidate =>
      if Destination candidate =? Source candidate then f
      else if (Destination candidate <? returnSlotCount f (Kind candidate))
           || (Source candidate <? returnSlotCount f (Kind candidate)) then f
      else match scanAndEliminateMoveAcrossJumps (Body f) i J candidate (Some dom) with
      | Some body => setBody f body
      | None => f
      end
  end.

Definition eliminateMovesAcrossDominatedJumps (f : CompiledFunction) (dom : option functionDominators) (J : gset Z)
    : CompiledFunction :=
  match dom with
  | None => f
  | Some dom => foldl (eliminateMoveAt dom J) f (seqZ 0 (zlen (Body f)))
  end.

Definition BuildAllJumpTargets (body : list Instruction) : gset Z := JumpTargetsOf body.

Definition EliminateMovesAcrossDominatedJumps (f : CompiledFunction) (dom : option functionDominators)
    : CompiledFunction :=
  eliminateMovesAcrossDominatedJumps f dom (BuildAllJumpTargets (Body f)).
