(* ===== verification/FuseDriver.v ===== *)
(** * The walk of the peephole pass

    [runPeepholeFusions] of [internal/compile/passes/optimise_driver.go]: at
    every word the first fusion that matches rewrites its window, and a load
    no fusion took is shortened.  The jump targets are those of the body before
    the walk. *)

From S2P Require Import Prelude SafeConv Register Opcode Instruction Shapes Spec JumpLayout Jumps.
From S2P Require Import Extension Function Builder Verify VerifySound Machine MachineSafe MachineFlow.
From S2P Require Import FuseNarrow PassFacts Liveness Peephole CopyFusion MoveElim.

Definition OptimisationLoopCheckMask : Z := 1023.

Section driver.
Context (debugVars : option (list DebugVarEntry)) (StructLayoutTable : list StructFieldLayout).
(** Whether the context is cancelled when the walk is at a word. *)
Context (cancelled : Z → bool).

Definition peepholeFusions (J : gset Z) (f : CompiledFunction) : list (Z → option CompiledFunction) :=
  [FuseCopyStructFieldGeneralT0 StructLayoutTable J f;
   fuseLongPatterns J f;
   FuseThreeInstrPatterns J f;
   FuseCompareRegJump J f;
   FuseArithConst debugVars J f;
   FuseAddIntJump J f;
   FuseConcatRune J f;
   FuseAppendMove J f;
   fuseMoveElimination J f;
   FuseStringIndexToInt J f].

(** One turn of the loop. *)
Definition peepholeAt (J : gset Z) (f : CompiledFunction) (i : Z) : CompiledFunction :=
  match firstOf (peepholeFusions J f) i with
  | Some f => f
  | None => OptimiseLoadUintConst (OptimiseLoadIntConst f i) i
  end.

(** The function as the walk leaves it, and whether it got to the end. *)
Fixpoint peepholeWalk (J : gset Z) (f : CompiledFunction) (positions : list Z) : CompiledFunction * bool :=
  match positions with
  | [] => (f, true)
  | i :: positions =>
      if (Z.land i OptimisationLoopCheckMask =? 0) && cancelled i then (f, false)
      else peepholeWalk J (peepholeAt J f i) positions
  end.

Definition runPeepholeFusions (f : CompiledFunction) : CompiledFunction * bool :=
  peepholeWalk (JumpTargetsOf (Body f)) f (seqZ 0 (zlen (Body f))).
End driver.
