(* ===== verification/Gvn.v ===== *)
(** * Value numbering

    [internal/compile/passes/function_gvn_pass.go]: a computation whose operands
    carry the value numbers of an earlier one becomes a move from the register
    of the earlier one, when that dominates it and its register has not been
    written since, in the order of the words. *)

From S2P Require Import Prelude SafeConv Register Opcode Instruction Shapes Spec JumpLayout Jumps.
From S2P Require Import Extension Function Builder Verify VerifySound Machine MachineSafe MachineFlow.
From S2P Require Import FuseNarrow PassFacts Liveness Peephole Dominators MoveElim FuseDriver.

Definition gvnRegisterBankCount : Z := 7.
Definition gvnRegisterBankSize : Z := 256.
Definition gvnRegisterTrackedBanks : Z := gvnRegisterBankCount.
Definition gvnNoDefiningPC : Z := -1.
Definition gvnBankIndexInvalid : Z := -1.

Definition gvnBankIndexInt : Z := 0.
Definition gvnBankIndexFloat : Z := 1.
Definition gvnBankIndexString : Z := 2.
Definition gvnBankIndexGeneral : Z := 3.
Definition gvnBankIndexBool : Z := 4.
Definition gvnBankIndexUint : Z := 5.
Definition gvnBankIndexComplex : Z := 6.

(** The opcode and the value numbers of its operands, or the value number and
    the constant. *)
Notation gvnValueKey := (Z * Z * Z)%type (only parsing).

Record gvnState := NewGvnState {
  valueTable : gmap gvnValueKey Z;
  perPCValueNum : list Z;
  regLastDef : list (list Z);
}.

Definition noDefinitions : list (list Z) :=
  replicate (Z.to_nat gvnRegisterTrackedBanks) (replicate (Z.to_nat gvnRegisterBankSize) gvnNoDefiningPC).

Definition newGvnState (bodyLen : Z) : gvnState :=
  NewGvnState ∅ (replicate (Z.to_nat bodyLen) gvnNoDefiningPC) noDefinitions.

(** [state.regLastDef[bank][reg]], read and written; both indices are in range
    wherever the pass uses them. *)
Definition lastDef (state : gvnState) (bank reg : Z) : Z :=
  default gvnNoDefiningPC (row ← zget (regLastDef state) bank; zget row reg).

Definition setLastDef (state : gvnState) (bank reg pc : Z) : gvnState :=
  NewGvnState (valueTable state) (perPCValueNum state)
    (zset (regLastDef state) bank (zset (default [] (zget (regLastDef state) bank)) reg pc)).

(** [state.perPCValueNum[pc] = num] behind its range check. *)
Definition setValueNum (state : gvnState) (pc num : Z) : gvnState :=
  if (0 <=? pc) && (pc <? zlen (perPCValueNum state))
  then NewGvnState (valueTable state) (zset (perPCValueNum state) pc num) (regLastDef state)
  else state.

Definition setTable (state : gvnState) (key : gvnValueKey) (pc : Z) : gvnState :=
  NewGvnState (<[key := pc]> (valueTable state)) (perPCValueNum state) (regLastDef state).

Definition gvnBankToRole (bank : Z) : option OperandRole :=
  if bank =? gvnBankIndexInt then Some RoleRegInt
  else if bank =? gvnBankIndexFloat then Some RoleRegFloat
  else if bank =? gvnBankIndexString then Some RoleRegString
  else if bank =? gvnBankIndexGeneral then Some RoleRegGeneral
  else if bank =? gvnBankIndexBool then Some RoleRegBool
  else if bank =? gvnBankIndexUint then Some RoleRegUint
  else if bank =? gvnBankIndexComplex then Some RoleRegComplex
  else None.

Definition gvnBankForArithmetic (op : Opcode) : Z :=
  if one_of op [OpAddInt; OpSubInt; OpMulInt; OpDivInt] then gvnBankIndexInt
  else if one_of op [OpAddUint; OpSubUint; OpMulUint; OpDivUint] then gvnBankIndexUint
  else if one_of op [OpAddFloat; OpSubFloat; OpMulFloat; OpDivFloat] then gvnBankIndexFloat
  else gvnBankIndexInvalid.

(** The bank and the register an instruction computes into. *)
Definition gvnInstructionDest (inst : Instruction) : option (Z * Z) :=
  if one_of (iOp inst)
       [OpAddInt; OpSubInt; OpMulInt; OpDivInt; OpRemInt; OpAddIntConst; OpSubIntConst; OpMulIntConst; OpLoadIntConst]
  then Some (gvnBankIndexInt, iA inst)
  else if one_of (iOp inst) [OpAddUint; OpSubUint; OpMulUint; OpDivUint; OpRemUint; OpLoadUintConst]
  then Some (gvnBankIndexUint, iA inst)
  else if one_of (iOp inst) [OpAddFloat; OpSubFloat; OpMulFloat; OpDivFloat; OpLoadFloatConst]
  then Some (gvnBankIndexFloat, iA inst)
  else None.

Definition gvnLookupValueNumber (state : gvnState) (reg bank : Z) : option Z :=
  if (bank <? 0) || (gvnRegisterTrackedBanks <=? bank) then None
  else
    let def := lastDef state bank reg in
    if def =? gvnNoDefiningPC then None
    else match zget (perPCValueNum state) def with
    | None => Some def
    | Some num => Some (if negb (num =? gvnNoDefiningPC) then num else def)
    end.

Definition computeGvnValueKey (inst : Instruction) (state : gvnState) : option gvnValueKey :=
  let op := iOp inst in
  let bank := gvnBankForArithmetic op in
  if one_of op [OpAddInt; OpMulInt; OpAddUint; OpMulUint; OpAddFloat; OpMulFloat] then
    left ← gvnLookupValueNumber state (iB inst) bank;
    right ← gvnLookupValueNumber state (iC inst) bank;
    Some (if right <? left then (op, right, left) else (op, left, right))
  else if one_of op [OpSubInt; OpSubUint; OpSubFloat; OpDivInt; OpDivUint; OpDivFloat] then
    left ← gvnLookupValueNumber state (iB inst) bank;
    right ← gvnLookupValueNumber state (iC inst) bank;
    Some (op, left, right)
  else if one_of op [OpAddIntConst; OpSubIntConst; OpMulIntConst] then
    source ← gvnLookupValueNumber state (iB inst) gvnBankIndexInt;
    Some (op, source, iC inst)
  else None.

Definition gvnEmitMoveForBank (bank destination source : Z) : option Instruction :=
  if bank =? gvnBankIndexInt then Some (NewInstruction OpDrillTier1 SubOpMoveInt destination source)
  else if bank =? gvnBankIndexUint then Some (NewInstruction OpDrillTier1 SubOpMoveUint destination source)
  else if bank =? gvnBankIndexFloat then Some (NewInstruction OpDrillTier1 SubOpMoveFloat destination source)
  else None.

(** The definition of register [reg] of a bank after a write that is not
    tracked. *)
Definition killedDef (inst : Instruction) (role : OperandRole) (reg def : Z) : Z :=
  if def =? gvnNoDefiningPC then def
  else if instructionWritesRegisterInBank inst role reg then gvnNoDefiningPC
  else def.

Definition killedRow (inst : Instruction) (bank : Z) (row : list Z) : list Z :=
  match gvnBankToRole bank with
  | None => row
  | Some role => imap (λ reg def, killedDef inst role (Z.of_nat reg) def) row
  end.

Definition updateRegLastDef (state : gvnState) (inst : Instruction) (pc : Z) : gvnState :=
  match gvnInstructionDest inst with
  | Some (bank, reg) => setValueNum (setLastDef state bank reg pc) pc pc
  | None =>
      NewGvnState (valueTable state) (perPCValueNum state)
        (imap (λ bank row, killedRow inst (Z.of_nat bank) row) (regLastDef state))
  end.

Definition clearOnCall (state : gvnState) : gvnState := NewGvnState ∅ (perPCValueNum state) noDefinitions.

Definition recordRewrite (state : gvnState) (inst : Instruction) (pc candidatePC : Z) : gvnState :=
  match gvnInstructionDest inst with
  | None => state
  | Some (bank, reg) => setValueNum (setLastDef state bank reg pc) pc candidatePC
  end.

Section gvn.
Context (dom : option functionDominators).

(** The move, where the rewrite is made. *)
Definition gvnRewriteIfSafe (body : list Instruction) (pc candidatePC : Z) (state : gvnState)
    : option (list Instruction) :=
  if negb (MoveElim.dominates candidatePC dom pc) then None
  else
    candidateInst ← zget body candidatePC;
    '(bankIndex, candidateDest) ← gvnInstructionDest candidateInst;
    if negb (lastDef state bankIndex candidateDest =? candidatePC) then None
    else
      currentInst ← zget body pc;
      '(_, currentDest) ← gvnInstructionDest currentInst;
      moveInst ← gvnEmitMoveForBank bankIndex currentDest candidateDest;
      Some (zset body pc moveInst).

Definition applyGvnAtPC (numbering : list Instruction * gvnState) (pc : Z) : list Instruction * gvnState :=
  let '(body, state) := numbering in
  match zget body pc with
  | None => numbering
  | Some inst =>
      if IsCallInstruction inst then (body, clearOnCall state)
      else match computeGvnValueKey inst state with
      | None => (body, updateRegLastDef state inst pc)
      | Some key =>
          let rewritten :=
            candidatePC ← valueTable state !! key;
            body' ← gvnRewriteIfSafe body pc candidatePC state;
            Some (body', recordRewrite state inst pc candidatePC) in
          match rewritten with
          | Some numbering => numbering
          | None => (body, updateRegLastDef (setTable state key pc) inst pc)
          end
      end
  end.

(** The loop over the words; [cancelled pc] is what [ctx.Err] says before the
    word at [pc].  The flag tells whether the loop came to its end. *)
Fixpoint gvnWalk (cancelled : Z → bool) (numbering : list Instruction * gvnState) (positions : list Z)
    : list Instruction * bool :=
  match positions with
  | [] => (fst numbering, true)
  | pc :: positions =>
      if (Z.land pc OptimisationLoopCheckMask =? 0) && cancelled pc then (fst numbering, false)
      else gvnWalk cancelled (applyGvnAtPC numbering pc) positions
  end.
End gvn.

Definition maxBodyForGvn : Z := 2000.

(** Without a shared analysis; the flag is [false] for the error of a cancelled
    context, [cancelledBefore] on entry.  [None] is an index out of range in
    the dominators, which [Dominators] rules out. *)
Definition runFunctionGvn (cancelledBefore : bool) (cancelled : Z → bool) (f : CompiledFunction)
    : option (CompiledFunction * bool) :=
  let body := Body f in
  if zlen body <? 2 then Some (f, true)
  else if maxBodyForGvn <? zlen body then Some (f, true)
  else if cancelledBefore then Some (f, false)
  else
    dom ← ComputeFunctionDominators body;
    match dom with
    | None => Some (f, true)
    | Some _ =>
        let '(body', complete) :=
          gvnWalk dom cancelled (body, newGvnState (zlen body)) (seqZ 0 (zlen body)) in
        if negb complete then Some (setBody f body', false)
        else Some (eliminateMovesAcrossDominatedJumps (setBody f body') dom (BuildAllJumpTargets body'), true)
    end.

Definition RunFunctionGvn (cancelledBefore : bool) (cancelled : Z → bool) (f : CompiledFunction)
    : option (CompiledFunction * bool) :=
  runFunctionGvn cancelledBefore cancelled f.
