(* ===== verification/Compact.v ===== *)
(** * Compaction of a body

    [internal/compile/passes/function_body_rewrite.go] and
    [function_compact.go]: a body is rebuilt without the words that do
    nothing, out-of-line blocks move back to the jump that enters them, and
    jumps are threaded through jumps.

    An index that leaves a slice is [None].  A source position is its file and
    line, the column moves with them; the tables keyed by program counters are
    rebuilt through [survivor], and [remapPCKeyed] is the function that
    rebuilds each. *)

From S2P Require Import Prelude SafeConv Register Opcode Instruction Shapes Spec JumpLayout Jumps.
From S2P Require Import Extension Function Builder Verify VerifySound Machine MachineSafe MachineFlow.
From S2P Require Import FuseNarrow PassFacts Ranges.

(** ** Rewriting a body *)

Record bodyRewrite := NewBodyRewrite {
  rbody : list Instruction;
  origin : list Z;
  positionOf : list Z;
  newPC : list Z;
}.

Definition newBodyRewrite (oldLength : Z) : bodyRewrite :=
  NewBodyRewrite [] [] [] (replicate (Z.to_nat (oldLength + 1)) 0).

Definition keepAs (rewrite : bodyRewrite) (inst : Instruction) (pc : Z) : bodyRewrite :=
  NewBodyRewrite (rbody rewrite ++ [inst]) (origin rewrite ++ [pc]) (positionOf rewrite ++ [pc])
    (zset (newPC rewrite) pc (zlen (rbody rewrite))).

Definition keep (rewrite : bodyRewrite) (old : list Instruction) (pc : Z) : option bodyRewrite :=
  inst ← zget old pc; Some (keepAs rewrite inst pc).

Definition insertWord (rewrite : bodyRewrite) (inst : Instruction) (positionPC : Z) : bodyRewrite :=
  NewBodyRewrite (rbody rewrite ++ [inst]) (origin rewrite ++ [-1]) (positionOf rewrite ++ [positionPC])
    (newPC rewrite).

(** [bodyRewrite.drop]. *)
Definition dropWord (rewrite : bodyRewrite) (pc : Z) : bodyRewrite :=
  NewBodyRewrite (rbody rewrite) (origin rewrite) (positionOf rewrite)
    (zset (newPC rewrite) pc (zlen (rbody rewrite))).

Definition finish (rewrite : bodyRewrite) : bodyRewrite :=
  NewBodyRewrite (rbody rewrite) (origin rewrite) (positionOf rewrite)
    (zset (newPC rewrite) (zlen (newPC rewrite) - 1) (zlen (rbody rewrite))).

Definition scopePC (rewrite : bodyRewrite) (pc : Z) : Z :=
  default 0 (zget (newPC rewrite) (Z.min (Z.max pc 0) (zlen (newPC rewrite) - 1))).

Definition survivor (rewrite : bodyRewrite) (pc : Z) : Z * bool :=
  let next := scopePC rewrite pc in
  (next, (0 <=? pc) && bool_decide (zget (origin rewrite) next = Some pc)).

(** [remapPCKeyed], with [survivor] for the mapper. *)
Definition remapPCKeyed {V} (rewrite : bodyRewrite) (entries : gmap Z V) : gmap Z V :=
  list_to_map (omap (λ e : Z * V,
    let next := survivor rewrite (fst e) in if snd next then Some (fst next, snd e) else None)
    (map_to_list entries)).

(** The jumps of the new body, one for each word copied from the old. *)
Fixpoint reencode (old : list Instruction) (newPC : list Z) (origin : list Z) (pc : Z)
    (body : list Instruction) : option (option (list Instruction)) :=
  match origin with
  | [] => Some (Some body)
  | oldPC :: origin =>
      if oldPC <? 0 then reencode old newPC origin (pc + 1) body
      else match JumpTargetAt old oldPC with
      | None => reencode old newPC origin (pc + 1) body
      | Some target =>
          target ← zget newPC target;
          match SetJumpTarget body pc target with
          | None => Some None
          | Some body => reencode old newPC origin (pc + 1) body
          end
      end
  end.

Record sourceLine := NewSourceLine { line : Z; file : Z }.

#[export] Instance sourceLine_eq_dec : EqDecision sourceLine.
Proof. solve_decision. Defined.
#[export] Instance sourceLine_countable : Countable sourceLine.
Proof.
  refine (inj_countable' (λ s, (line s, file s)) (λ p, NewSourceLine (fst p) (snd p)) _).
  by intros [].
Defined.

(** The source map of a function, parallel to its body. *)
Definition SourceMap : Type := option (list sourceLine).

(** [apply]: [None] is an index out of range, [Some None] a refused rewrite. *)
Definition apply (rewrite : bodyRewrite) (old : list Instruction) (sourceMap : SourceMap)
    : option (option (list Instruction * SourceMap)) :=
  if (match sourceMap with Some positions => negb (zlen positions =? zlen old) | None => false end)
  then Some None
  else
    let rewrite := finish rewrite in
    match reencode old (newPC rewrite) (origin rewrite) 0 (rbody rewrite) with
    | None => None
    | Some None => Some None
    | Some (Some body) =>
        match sourceMap with
        | None => Some (Some (body, None))
        | Some positions =>
            positions ← mapM (zget positions) (positionOf rewrite);
            Some (Some (body, Some positions))
        end
    end.

(** ** Words that do nothing *)

Fixpoint nextLiveFrom (fuel : nat) (dead : list bool) (pc : Z) : option Z :=
  match fuel with
  | O => Some pc
  | S fuel =>
      if zlen dead <=? pc then Some pc
      else isDead ← zget dead pc;
           if isDead : bool then nextLiveFrom fuel dead (pc + 1) else Some pc
  end.

Definition nextLiveWord (dead : list bool) (pc : Z) : option Z := nextLiveFrom (S (length dead)) dead pc.

(** The first loop of [markDeadWords]: the NOPs and the jumps. *)
Definition markWord (body : list Instruction) (state : list bool * list Z) (pc : Z) : list bool * list Z :=
  let '(dead, jumps) := state in
  match zget body pc with
  | None => state
  | Some inst =>
      if (instructionFootprint body pc =? 1) && isCanonicalNop inst then (zset dead pc true, jumps)
      else if (instructionFootprint body pc =? 1) && InstrIsTier1SubOp inst SubOpJump
      then (dead, jumps ++ [pc])
      else state
  end.

(** One jump of the second loop. *)
Definition markJump (body : list Instruction) (state : list bool * bool) (pc : Z)
    : option (list bool * bool) :=
  let '(dead, changed) := state in
  isDead ← zget dead pc;
  if isDead : bool then Some state
  else match JumpTargetAt body pc with
  | None => Some state
  | Some target =>
      landing ← nextLiveWord dead target;
      next ← nextLiveWord dead (pc + 1);
      if landing =? next then Some (zset dead pc true, true) else Some state
  end.

Definition foldOption {S A} (step : S → A → option S) (s : S) (l : list A) : option S :=
  foldl (λ s a, s ← s; step s a) (Some s) l.

(** The turns of the second loop: each but the last marks a jump. *)
Fixpoint markJumps (fuel : nat) (body : list Instruction) (jumps : list Z) (dead : list bool)
    : option (list bool) :=
  match fuel with
  | O => Some dead
  | S fuel =>
      '(dead, changed) ← foldOption (markJump body) (dead, false) jumps;
      if changed : bool then markJumps fuel body jumps dead else Some dead
  end.

Definition markDeadWords (body : list Instruction) : option (list bool) :=
  let '(dead, jumps) :=
    foldl (markWord body) (replicate (length body) false, []) (walk body 0 (zlen body)) in
  markJumps (S (length jumps)) body jumps dead.

(** ** Source lines *)

Definition lineCount (live : gmap sourceLine Z) (key : sourceLine) : Z := default 0 (live !! key).

Definition liveSourceLines (sourceMap : SourceMap) (dead : list bool) : option (gmap sourceLine Z) :=
  match sourceMap with
  | None => None
  | Some positions =>
      if negb (zlen positions =? zlen dead) then None
      else Some (foldl (λ live '(position, isDead),
        if isDead : bool then live else <[position := lineCount live position + 1]> live)
        ∅ (zip positions dead))
  end.

(** One turn of the loop that revives words. *)
Definition reviveWord (state : list bool * gmap sourceLine Z) (position : Z * sourceLine)
    : list bool * gmap sourceLine Z :=
  let '(dead, live) := state in
  let '(pc, key) := position in
  if bool_decide (zget dead pc = Some true) && negb (line key =? 0) && (lineCount live key =? 0)
  then (zset dead pc false, <[key := 1]> live) else state.

Definition keepSoleSourceLines (sourceMap : SourceMap) (dead : list bool)
    : list bool * option (gmap sourceLine Z) :=
  match sourceMap, liveSourceLines sourceMap dead with
  | Some positions, Some live =>
      let '(dead, live) := foldl reviveWord (dead, live) (zip (seqZ 0 (zlen positions)) positions) in
      (dead, Some live)
  | _, _ => (dead, None)
  end.

Fixpoint dropKeepsFrom (positions : list sourceLine) (live removed : gmap sourceLine Z) (pcs : list Z)
    : option bool :=
  match pcs with
  | [] => Some true
  | pc :: pcs =>
      key ← zget positions pc;
      if line key =? 0 then dropKeepsFrom positions live removed pcs
      else
        let removed := <[key := lineCount removed key + 1]> removed in
        if lineCount live key <=? lineCount removed key then Some false
        else dropKeepsFrom positions live removed pcs
  end.

Definition dropKeepsSourceLines (sourceMap : SourceMap) (live : option (gmap sourceLine Z)) (pcs : list Z)
    : option bool :=
  match live, sourceMap with
  | Some live, Some positions => dropKeepsFrom positions live ∅ pcs
  | _, _ => Some true
  end.

(** ** Out-of-line blocks *)

Record straightBlock := NewStraightBlock { start : Z; end_ : Z }.

Definition jumpSourcesByTarget (body : list Instruction) (target : Z) : list Z :=
  filter (λ pc, JumpTargetAt body pc = Some target) (seqZ 0 (zlen body)).

(** The last live instruction before [pc], or -1. *)
Definition previousLive (body : list Instruction) (dead : list bool) (pc : Z) : Z :=
  foldl (λ previous start, if bool_decide (zget dead start = Some false) then start else previous)
    (-1) (walk body 0 pc).

Definition fallsInto (body : list Instruction) (dead : list bool) (pc : Z) : bool :=
  let previous := previousLive body dead pc in
  if previous <? 0 then true
  else match zget body previous with
  | Some inst => negb (IsReturnInstruction inst) && negb (InstrIsTier1SubOp inst SubOpJump)
  | None => true
  end.

Definition blockWords (block : straightBlock) : list Z :=
  seqZ (start block) (end_ block + 1 - start block).

Definition enteredOnlyBy (sources : Z → list Z) (block : straightBlock) (jumpPC : Z) : bool :=
  forallb (λ pc, forallb (λ source,
      ((start block <=? source) && (source <=? end_ block)) || ((source =? jumpPC) && (pc =? start block)))
    (sources pc)) (blockWords block).

Definition claimedRange (claimed : gset Z) (block : straightBlock) : bool :=
  existsb (λ pc, bool_decide (pc ∈ claimed)) (blockWords block).

(** The loop that looks for the jump back, among the instructions from the
    start of the block. *)
Fixpoint jumpBackFrom (body : list Instruction) (dead : list bool) (back : Z) (pcs : list Z)
    : option (option Z) :=
  match pcs with
  | [] => Some None
  | pc :: pcs =>
      match zget body pc, JumpTargetAt body pc with
      | Some inst, Some target =>
          if negb (InstrIsTier1SubOp inst SubOpJump) then jumpBackFrom body dead back pcs
          else
            landing ← nextLiveWord dead target;
            if negb (landing =? back) then jumpBackFrom body dead back pcs else Some (Some pc)
      | _, _ => jumpBackFrom body dead back pcs
      end
  end.

Definition straightBlockFor (body : list Instruction) (dead : list bool) (sources : Z → list Z) (jumpPC : Z)
    : option (option straightBlock) :=
  match JumpTargetAt body jumpPC with
  | None => Some None
  | Some start =>
      if (start <=? jumpPC + 1) || (zlen body <=? start) || fallsInto body dead start then Some None
      else
        back ← nextLiveWord dead (jumpPC + 1);
        closing ← jumpBackFrom body dead back (walk body start (zlen body));
        match closing with
        | None => Some None
        | Some pc =>
            let block := NewStraightBlock start pc in
            Some (if enteredOnlyBy sources block jumpPC then Some block else None)
        end
  end.

(** One turn of the loop of [findStraightenableBlocks]. *)
Definition findBlock (body : list Instruction) (dead : list bool)
    (state : gset Z * gmap Z straightBlock) (pc : Z) : option (gset Z * gmap Z straightBlock) :=
  let '(claimed, blocks) := state in
  inst ← zget body pc;
  isDead ← zget dead pc;
  if (isDead : bool) || bool_decide (pc ∈ claimed) || negb (InstrIsTier1SubOp inst SubOpJump) then Some state
  else
    found ← straightBlockFor body dead (jumpSourcesByTarget body) pc;
    match found with
    | None => Some state
    | Some block =>
        if claimedRange claimed block then Some state
        else Some ({[pc]} ∪ list_to_set (blockWords block) ∪ claimed, <[pc := block]> blocks)
    end.

Definition findStraightenableBlocks (body : list Instruction) (dead : list bool)
    : option (gmap Z straightBlock) :=
  '(_, blocks) ← foldOption (findBlock body dead) (∅, ∅) (walk body 0 (zlen body));
  Some blocks.

(** ** One rebuild *)

(** A word inside a block, or of the main stream. *)
Definition placeWord (body : list Instruction) (dead : list bool) (rewrite : bodyRewrite) (pc : Z)
    : option bodyRewrite :=
  isDead ← zget dead pc;
  if isDead : bool then Some (dropWord rewrite pc) else keep rewrite body pc.

Definition placeStraightenedBlock (body : list Instruction) (dead : list bool) (rewrite : bodyRewrite)
    (jumpPC : Z) (block : straightBlock) : option bodyRewrite :=
  rewrite ← foldOption (placeWord body dead) (dropWord rewrite jumpPC)
              (seqZ (start block) (end_ block - start block));
  Some (dropWord rewrite (end_ block)).

(** The blocks whose jumps may go: the map is ranged over in any order, and no
    answer depends on the others. *)
Definition keepBlocks (sourceMap : SourceMap) (live : option (gmap sourceLine Z))
    (blocks : gmap Z straightBlock) : option (gmap Z straightBlock) :=
  foldOption (λ kept '(jumpPC, block),
    ok ← dropKeepsSourceLines sourceMap live [jumpPC; end_ block];
    Some (if ok : bool then kept else delete jumpPC kept)) blocks (map_to_list blocks).

Definition movedWords (blocks : gmap Z straightBlock) : gset Z :=
  list_to_set (concat (map (λ b, blockWords (snd b)) (map_to_list blocks))).

(** One turn of the loop over the body. *)
Definition placeAt (body : list Instruction) (dead : list bool) (blocks : gmap Z straightBlock)
    (moved : gset Z) (rewrite : bodyRewrite) (pc : Z) : option bodyRewrite :=
  if bool_decide (pc ∈ moved) then Some rewrite
  else match blocks !! pc with
  | Some block =>
      if 0 <? end_ block then placeStraightenedBlock body dead rewrite pc block
      else placeWord body dead rewrite pc
  | None => placeWord body dead rewrite pc
  end.

(** The marked words, those of them that go, and the blocks that move. *)
Definition compactPlan (body : list Instruction) (sourceMap : SourceMap)
    : option (list bool * list bool * gmap Z straightBlock) :=
  marks ← markDeadWords body;
  let '(dead, live) := keepSoleSourceLines sourceMap marks in
  found ← findStraightenableBlocks body dead;
  blocks ← keepBlocks sourceMap live found;
  Some (marks, dead, blocks).

(** The rebuild, and whether it removes any word. *)
Definition compactRewrite (body : list Instruction) (sourceMap : SourceMap)
    : option (bodyRewrite * bool) :=
  '(_, dead, blocks) ← compactPlan body sourceMap;
  rewrite ← foldOption (placeAt body dead blocks (movedWords blocks)) (newBodyRewrite (zlen body))
              (seqZ 0 (zlen body));
  Some (rewrite, bool_decide (blocks ≠ ∅) ||
    existsb (λ pc, bool_decide (pc ∉ movedWords blocks) && bool_decide (blocks !! pc = None) &&
               bool_decide (zget dead pc = Some true)) (seqZ 0 (zlen body))).

Definition compactOnce (f : CompiledFunction) (sourceMap : SourceMap)
    : option (CompiledFunction * SourceMap * bool) :=
  '(rewrite, removed) ← compactRewrite (Body f) sourceMap;
  if negb removed then Some (f, sourceMap, false)
  else
    applied ← apply rewrite (Body f) sourceMap;
    match applied with
    | None => Some (f, sourceMap, false)
    | Some (body, sourceMap) => Some (setBody f body, sourceMap, true)
    end.

(** ** Threading jumps *)

Definition maxCompactRounds : nat := 4.
Definition maxJumpThreadSteps : nat := 8.

Fixpoint threadFrom (steps : nat) (body : list Instruction) (pc final : Z) : Z :=
  match steps with
  | O => final
  | S steps =>
      match zget body final, JumpTargetAt body final with
      | Some inst, Some next =>
          if negb (InstrIsTier1SubOp inst SubOpJump) || (next =? pc) then final
          else threadFrom steps body pc next
      | _, _ => final
      end
  end.

(** One turn of the loop of [threadJumps]. *)
Definition threadAt (body : list Instruction) (pc : Z) : list Instruction * bool :=
  match JumpTargetAt body pc with
  | None => (body, false)
  | Some target =>
      let final := threadFrom maxJumpThreadSteps body pc target in
      if final =? target then (body, false)
      else match SetJumpTarget body pc final with
      | Some body => (body, true)
      | None => (body, false)
      end
  end.

Fixpoint threadJumpsFrom (fuel : nat) (body : list Instruction) (pc : Z) (changed : bool)
    : list Instruction * bool :=
  match fuel with
  | O => (body, changed)
  | S fuel =>
      if zlen body <=? pc then (body, changed)
      else
        let '(body, rewritten) := threadAt body pc in
        threadJumpsFrom fuel body (pc + instructionFootprint body pc) (changed || rewritten)
  end.

Definition threadJumps (body : list Instruction) : list Instruction * bool :=
  threadJumpsFrom (length body) body 0 false.

(** ** The pass *)

Fixpoint compactRounds (rounds : nat) (f : CompiledFunction) (sourceMap : SourceMap) (changed : bool)
    : option (CompiledFunction * SourceMap * bool) :=
  match rounds with
  | O => Some (f, sourceMap, changed)
  | S rounds =>
      '(f, sourceMap, compacted) ← compactOnce f sourceMap;
      let '(body, threaded) := threadJumps (Body f) in
      let f := setBody f body in
      if negb compacted && negb threaded then Some (f, sourceMap, changed)
      else compactRounds rounds f sourceMap true
  end.

Definition compactBody (f : CompiledFunction) (sourceMap : SourceMap)
    : option (CompiledFunction * SourceMap * bool) :=
  if (zlen (Body f) =? 0) || bodyHasTypeSwitch (Body f) then Some (f, sourceMap, false)
  else compactRounds maxCompactRounds f sourceMap false.
