(* ===== verification/CompactMarks.v ===== *)
(** * What the compaction removes and moves

    The words [markDeadWords] marks do nothing, a word kept for its source line
    is the only one that carries it, and the blocks that move are entered only
    by their jump and lie apart from one another. *)

From S2P Require Import Prelude SafeConv Register Opcode Instruction Shapes Spec JumpLayout Jumps.
From S2P Require Import Extension Function Builder Verify VerifySound Machine MachineSafe MachineFlow.
From S2P Require Import FuseNarrow PassFacts Ranges RangesSolve Dominators Relocate Compact.

Lemma foldOption_None {S A} (step : S → A → option S) l :
  foldl (λ s a, s ← s; step s a) None l = None.
Proof. induction l as [|a l IH]; [done|]. cbn. apply IH. Qed.

Lemma foldOption_cons {S A} (step : S → A → option S) s a l :
  foldOption step s (a :: l) = (s ← step s a; foldOption step s l).
Proof. unfold foldOption. cbn. destruct (step s a); [done|]. apply foldOption_None. Qed.

Lemma foldOption_app {S A} (step : S → A → option S) s l l' :
  foldOption step s (l ++ l') = (s ← foldOption step s l; foldOption step s l').
Proof.
  revert s. induction l as [|a l IH]; intros s; [done|]. rewrite <- app_comm_cons, !foldOption_cons.
  destruct (step s a) as [s1|]; [|done]. cbn. apply IH.
Qed.

(** An invariant of a fold over a list, the elements known to be of the list. *)
Lemma foldOption_ind {S A} (P : S → Prop) (step : S → A → option S) s l s' :
  (∀ s a s', a ∈ l → P s → step s a = Some s' → P s') → P s → foldOption step s l = Some s' → P s'.
Proof.
  revert s. induction l as [|a l IH]; intros s Hstep HP; [by intros [= <-]|].
  rewrite foldOption_cons. destruct (step s a) as [s1|] eqn:Hs; [|done]. cbn. apply IH.
  - intros s2 a2 s3 Ha. apply Hstep. set_solver.
  - eapply Hstep; [|exact HP|exact Hs]. set_solver.
Qed.

(** ** The next live word *)

Lemma nextLiveFrom_spec fuel dead pc n :
  (Z.to_nat (zlen dead - pc) < fuel)%nat → nextLiveFrom fuel dead pc = Some n →
  pc <= n ∧ (∀ q, pc <= q < n → zget dead q = Some true) ∧ (zlen dead <= n ∨ zget dead n = Some false) ∧
  (n <= zlen dead ∨ n = pc).
Proof.
  revert pc. induction fuel as [|fuel IH]; intros pc Hf; [lia|]. cbn [nextLiveFrom].
  case_if; bool_hyps; [intros [= <-]; split_and!; [lia|intros q Hq; lia|left; lia|right; done]|].
  destruct (zget dead pc) as [[]|] eqn:Hd; [|intros [= <-]|done]; cbn.
  - intros (Hle & Hall & Hlive & Hlen)%IH; [|lia]. split_and!; [lia| |done|lia].
    intros q Hq. destruct (decide (q = pc)) as [->|]; [done|]. apply Hall. lia.
  - split_and!; [lia|intros q Hq; lia|right; done|right; done].
Qed.

Lemma nextLiveWord_spec dead pc n :
  nextLiveWord dead pc = Some n →
  0 <= pc ∧ pc <= n ∧ (∀ q, pc <= q < n → zget dead q = Some true) ∧
  (zlen dead <= n ∨ zget dead n = Some false) ∧ (n <= zlen dead ∨ n = pc).
Proof.
  intros Hn. destruct (decide (0 <= pc)) as [Hpc|Hpc].
  - split; [done|]. eapply nextLiveFrom_spec; [|exact Hn]. lia.
  - unfold nextLiveWord in Hn. cbn [nextLiveFrom] in Hn. destruct (Z.leb_spec (zlen dead) pc); [lia|].
    rewrite (proj2 (zget_None dead pc)) in Hn by lia. done.
Qed.

Lemma nextLiveWord_unique dead pc n m :
  nextLiveWord dead pc = Some n → pc <= m → (∀ q, pc <= q < m → zget dead q = Some true) →
  (zlen dead <= m ∨ zget dead m = Some false) → (m <= zlen dead ∨ m = pc) → m = n.
Proof.
  intros (_ & Hle & Hall & Hlive & Hlen)%nextLiveWord_spec Hm Hallm Hlivem Hlenm.
  destruct (Z.lt_trichotomy m n) as [Hlt|[->|Hgt]]; [|done|].
  - assert (Hd : zget dead m = Some true) by (apply Hall; lia).
    destruct Hlivem as [Hl|Hl]; [|congruence]. apply zget_Some_range in Hd. lia.
  - assert (Hd : zget dead n = Some true) by (apply Hallm; lia).
    destruct Hlive as [Hl|Hl]; [|congruence]. apply zget_Some_range in Hd. lia.
Qed.

(** ** What the marked words are *)

Definition isJump (body : list Instruction) (pc target : Z) : Prop :=
  (∃ inst, zget body pc = Some inst ∧ InstrIsTier1SubOp inst SubOpJump = true) ∧
  JumpTargetAt body pc = Some target.

(** A word that does nothing: a NOP, or a jump over words that do nothing. *)
Definition skips (body : list Instruction) (dead : Z → Prop) (pc : Z) : Prop :=
  (∃ inst, zget body pc = Some inst ∧ isCanonicalNop inst = true) ∨
  (∃ target, isJump body pc target ∧ pc < target ∧ ∀ q, pc < q < target → dead q).

Definition marked (dead : list bool) (pc : Z) : Prop := zget dead pc = Some true.

Record marks_skip (body : list Instruction) (dead : list bool) : Prop := {
  ms_length : length dead = length body;
  ms_skips pc : marked dead pc → skips body (marked dead) pc;
  ms_single pc : marked dead pc → instruction_start body pc ∧ instructionFootprint body pc = 1;
}.

Lemma marked_zset dead pc q : marked dead q → marked (zset dead pc true) q.
Proof.
  unfold marked. intros Hq. destruct (decide (pc = q)) as [->|Hne].
  - apply zget_zset_eq. by apply zget_Some_range in Hq.
  - by rewrite zget_zset_ne.
Qed.

Lemma marked_zset_inv dead pc q : marked (zset dead pc true) q → q = pc ∨ marked dead q.
Proof.
  unfold marked. destruct (decide (pc = q)) as [->|Hne]; [by left|]. rewrite zget_zset_ne by done. by right.
Qed.

Lemma skips_mono body (P Q : Z → Prop) pc : (∀ q, P q → Q q) → skips body P pc → skips body Q pc.
Proof. intros HPQ [Hn|(t & Hj & Hlt & Hall)]; [by left|right]. exists t. split_and!; auto. Qed.

Lemma marks_skip_mark body dead pc :
  marks_skip body dead → instruction_start body pc → instructionFootprint body pc = 1 →
  skips body (marked dead) pc → marks_skip body (zset dead pc true).
Proof.
  intros [Hlen Hsk Hsg] Hstart Hfoot Hpc. split.
  - by rewrite length_zset.
  - intros q Hq. apply (skips_mono _ (marked dead)); [intros ?; apply marked_zset|].
    destruct (marked_zset_inv _ _ _ Hq) as [->|]; auto.
  - intros q [->|Hq]%marked_zset_inv; auto.
Qed.

Lemma elem_of_walk_start body from limit q :
  instruction_start body from → q ∈ walk body from limit → limit <= zlen body →
  instruction_start body q ∧ from <= q < limit.
Proof.
  remember (Z.to_nat (limit - from)) as n eqn:Hn. revert from Hn.
  induction (lt_wf n) as [n _ IH]. intros from -> Hfrom Hq Hl.
  destruct (Z.le_gt_cases limit from); [rewrite walk_nil in Hq by done; by apply elem_of_nil in Hq|].
  rewrite walk_cons in Hq by done. apply elem_of_cons in Hq as [->|Hq]; [split; [done|lia]|].
  pose proof (next_gt body from).
  destruct (IH (Z.to_nat (limit - (from + instructionFootprint body from))) ltac:(lia)
    (from + instructionFootprint body from) eq_refl) as [Hs Hr]; [by constructor; [|lia]|done|done|].
  split; [done|lia].
Qed.

Definition jumpWords (body : list Instruction) (jumps : list Z) : Prop :=
  ∀ pc, pc ∈ jumps → instruction_start body pc ∧ instructionFootprint body pc = 1 ∧
    ∃ inst, zget body pc = Some inst ∧ InstrIsTier1SubOp inst SubOpJump = true.

(** The jumps the first loop collects, and its marks. *)
Record collected (body : list Instruction) (state : list bool * list Z) : Prop := {
  co_marks : marks_skip body (fst state);
  co_jumps : jumpWords body (snd state);
}.

Lemma markWord_collected body state pc :
  instruction_start body pc → collected body state → collected body (markWord body state pc).
Proof.
  intros Hstart [Hm Hj]. destruct state as [dead jumps]. unfold markWord. cbn [fst snd] in *.
  destruct (zget body pc) as [inst|] eqn:Hg; [|by split].
  destruct (Z.eqb_spec (instructionFootprint body pc) 1) as [Hf|]; [|by split]. cbn [andb].
  destruct (isCanonicalNop inst) eqn:Hn.
  { split; cbn [fst snd]; [|done]. apply marks_skip_mark; try done. left. eauto. }
  destruct (InstrIsTier1SubOp inst SubOpJump) eqn:Hjump; [|by split].
  split; cbn [fst snd]; [done|]. intros q [Hq|Hq]%elem_of_app; [by apply Hj|].
  apply list_elem_of_singleton in Hq as ->. eauto.
Qed.

Lemma markJump_skips body jumps state pc state' :
  jumpWords body jumps →
  pc ∈ jumps → marks_skip body (fst state) → markJump body state pc = Some state' →
  marks_skip body (fst state').
Proof.
  intros Hjumps Hpc Hm. destruct state as [dead changed]. unfold markJump. cbn [fst] in *.
  destruct (zget dead pc) as [[]|] eqn:Hd; cbn [mbind option_bind]; [by intros [= <-]| |done].
  destruct (JumpTargetAt body pc) as [t|] eqn:Ht; [|by intros [= <-]].
  destruct (nextLiveWord dead t) as [landing|] eqn:Hl; [|done]. cbn [mbind option_bind].
  destruct (nextLiveWord dead (pc + 1)) as [next|] eqn:Hn; [|done]. cbn [mbind option_bind].
  destruct (Z.eqb_spec landing next) as [->|]; [|by intros [= <-]]. intros [= <-]. cbn [fst].
  destruct (Hjumps _ Hpc) as (Hstart & Hfoot & Hinst). apply marks_skip_mark; try done. right. exists t.
  apply nextLiveWord_spec in Hl as (Ht0 & Hle & Hall & _), Hn as (_ & Hle' & Hall' & _).
  assert (Hlt : pc < t).
  { destruct (Z.lt_ge_cases pc t); [done|]. rewrite (Hall pc) in Hd by lia. done. }
  split_and!; [by split|done|]. intros q Hq. apply Hall'. lia.
Qed.

Lemma markJumps_skips fuel body jumps dead dead' :
  jumpWords body jumps →
  marks_skip body dead → markJumps fuel body jumps dead = Some dead' → marks_skip body dead'.
Proof.
  intros Hjumps. revert dead. induction fuel as [|fuel IH]; intros dead Hm; cbn [markJumps]; [by intros [= <-]|].
  destruct (foldOption (markJump body) (dead, false) jumps) as [[dead1 changed]|] eqn:Hf; [|done].
  cbn [mbind option_bind].
  assert (Hm1 : marks_skip body (fst (dead1, changed))).
  { eapply (foldOption_ind (λ s, marks_skip body (fst s)) (markJump body) (dead, false)); [|exact Hm|exact Hf].
    intros s pc s' Hpc Hs. by apply (markJump_skips body jumps). }
  destruct changed; [by apply IH|by intros [= <-]].
Qed.

Lemma markDeadWords_skips body dead : markDeadWords body = Some dead → marks_skip body dead.
Proof.
  unfold markDeadWords. destruct (foldl (markWord body) _ _) as [dead0 jumps] eqn:Hf.
  assert (Hc : collected body (dead0, jumps)).
  { rewrite <- Hf. assert (Hw : ∀ pc, pc ∈ walk body 0 (zlen body) → instruction_start body pc).
    { intros pc Hpc. eapply elem_of_walk_start; [constructor|exact Hpc|done]. }
    revert Hw. clear Hf. generalize (walk body 0 (zlen body)) as pcs.
    assert (H0 : collected body (replicate (length body) false, [])).
    { assert (Hnone : ∀ pc, ¬ marked (replicate (length body) false) pc).
      { intros pc Hm. unfold marked in Hm. pose proof (zget_Some_range _ _ _ Hm).
        rewrite length_replicate in H. rewrite zget_lookup, lookup_replicate_2 in Hm by lia. done. }
      split; cbn [fst snd]; [|by intros pc ?%elem_of_nil].
      split; [by rewrite length_replicate|by intros pc ?%Hnone|by intros pc ?%Hnone]. }
    revert H0. generalize (replicate (length body) false, @nil Z) as s.
    intros s Hs pcs. revert s Hs. induction pcs as [|pc pcs IH]; intros s Hs Hw; [done|]. cbn.
    apply IH; [|intros; apply Hw; set_solver]. apply markWord_collected; [apply Hw; set_solver|done]. }
  destruct Hc as [Hm Hj]. apply markJumps_skips; [apply Hj|apply Hm].
Qed.

(** ** Words kept for their source lines *)

(** A word taken off the marks is the only live one of its line. *)
Record revived_ok (positions : list sourceLine) (marked0 : list bool)
    (state : list bool * gmap sourceLine Z) : Prop := {
  rv_length : length (fst state) = length marked0;
  rv_marked pc : marked (fst state) pc → marked marked0 pc;
  rv_sole pc key : zget positions pc = Some key → marked marked0 pc → ¬ marked (fst state) pc →
    line key ≠ 0 ∧ lineCount (snd state) key = 1;
}.

Lemma reviveWord_ok positions marked0 state pc key :
  zget positions pc = Some key → revived_ok positions marked0 state →
  revived_ok positions marked0 (reviveWord state (pc, key)).
Proof.
  intros Hkey [Hlen Hmarked Hsole]. destruct state as [dead live]. unfold reviveWord. cbn [fst snd] in *.
  case_bool_decide as Hd; cbn [andb]; [|by split].
  destruct (Z.eqb_spec (line key) 0) as [|Hline]; cbn [andb negb]; [by split|].
  destruct (Z.eqb_spec (lineCount live key) 0) as [Hcount|]; [|by split]. split; cbn [fst snd].
  - by rewrite length_zset.
  - intros q Hq. apply Hmarked. unfold marked in *. destruct (decide (pc = q)) as [->|]; [done|].
    by rewrite zget_zset_ne in Hq.
  - intros q key' Hkey' Hm Hnot. unfold lineCount.
    destruct (decide (pc = q)) as [->|Hne].
    { rewrite Hkey in Hkey'. injection Hkey' as <-. by rewrite lookup_insert_eq. }
    assert (Hnot' : ¬ marked dead q) by (unfold marked in *; by rewrite zget_zset_ne in Hnot).
    destruct (Hsole _ _ Hkey' Hm Hnot') as [H1 H2]. split; [done|].
    destruct (decide (key = key')) as [->|]; [by rewrite lookup_insert_eq|].
    rewrite lookup_insert_ne by done. exact H2.
Qed.

Lemma keepSoleSourceLines_ok sourceMap marked0 dead live :
  keepSoleSourceLines sourceMap marked0 = (dead, live) →
  length dead = length marked0 ∧ (∀ pc, marked dead pc → marked marked0 pc) ∧
  (∀ pc, 0 <= pc < zlen dead → marked marked0 pc → ¬ marked dead pc →
    ∃ positions counts key, sourceMap = Some positions ∧ live = Some counts ∧
      zget positions pc = Some key ∧ line key ≠ 0 ∧ lineCount counts key = 1).
Proof.
  unfold keepSoleSourceLines. destruct sourceMap as [positions|]; [|intros [= <- <-]; split_and!; try done].
  unfold liveSourceLines. destruct (Z.eqb_spec (zlen positions) (zlen marked0)) as [Hlen|]; cbn [negb];
    [|intros [= <- <-]; split_and!; try done].
  match goal with |- context [foldl reviveWord (_, ?l) _] => set (live0 := l) end.
  destruct (foldl reviveWord _ _) as [dead1 live1] eqn:Hf. intros [= <- <-].
  assert (Hok : revived_ok positions marked0 (dead1, live1)).
  { rewrite <- Hf.
    assert (Hz : Forall (λ p, zget positions (fst p) = Some (snd p)) (zip (seqZ 0 (zlen positions)) positions)).
    { apply Forall_forall. intros [pc key] Hin. cbn. apply list_elem_of_lookup in Hin as [k Hk].
      apply lookup_zip_Some in Hk as [Hpc Hkey]. apply lookup_seqZ in Hpc as [-> Hlt].
      rewrite zget_lookup by lia. by rewrite Z.add_0_l, Nat2Z.id. }
    revert Hz. generalize (zip (seqZ 0 (zlen positions)) positions) as ps. clear Hf.
    assert (H0 : revived_ok positions marked0 (marked0, live0)) by (split; cbn [fst snd]; [done|done|naive_solver]).
    revert H0. generalize (marked0, live0) as s. intros s Hs ps Hz. revert s Hs.
    induction Hz as [|[pc key] ps Hp _ IH]; intros s Hs; [done|]. cbn. apply IH. by apply reviveWord_ok. }
  destruct Hok as [Hl Hm Hs]. cbn [fst snd] in *. split_and!; [done|done|].
  intros pc Hpc Hmk Hnot. destruct (zget_is_Some positions pc) as [key Hkey]; [lia|].
  destruct (Hs _ _ Hkey Hmk Hnot). exists positions, live1, key. done.
Qed.

(** ** The blocks that move *)

Record good_block (body : list Instruction) (dead : list bool) (jumpPC : Z) (b : straightBlock) : Prop := {
  gb_jump : isJump body jumpPC (start b);
  gb_live : zget dead jumpPC = Some false;
  gb_start : instruction_start body jumpPC;
  gb_after : jumpPC + 1 < start b;
  gb_range : start b <= end_ b < zlen body;
  gb_falls : fallsInto body dead (start b) = false;
  gb_back : ∃ back target, nextLiveWord dead (jumpPC + 1) = Some back ∧ isJump body (end_ b) target ∧
    nextLiveWord dead target = Some back;
  gb_end : end_ b ∈ walk body (start b) (zlen body);
  gb_entered pc source : start b <= pc <= end_ b → JumpTargetAt body source = Some pc →
    start b <= source <= end_ b ∨ (source = jumpPC ∧ pc = start b);
}.

Lemma elem_of_blockWords b pc : pc ∈ blockWords b ↔ start b <= pc <= end_ b.
Proof. unfold blockWords. rewrite elem_of_seqZ. lia. Qed.

Lemma elem_of_sources body target pc : pc ∈ jumpSourcesByTarget body target ↔ JumpTargetAt body pc = Some target.
Proof.
  unfold jumpSourcesByTarget. rewrite list_elem_of_filter, elem_of_seqZ. split; [by intros []|]. intros Hj.
  split; [done|]. unfold JumpTargetAt in Hj. destruct (zget body pc) eqn:Hg; [|done].
  apply zget_Some_range in Hg. lia.
Qed.

Lemma jumpBackFrom_spec body dead back pcs pc :
  jumpBackFrom body dead back pcs = Some (Some pc) →
  pc ∈ pcs ∧ ∃ target, isJump body pc target ∧ nextLiveWord dead target = Some back.
Proof.
  induction pcs as [|q pcs IH]; cbn [jumpBackFrom]; [done|].
  assert (Hnext : jumpBackFrom body dead back pcs = Some (Some pc) → pc ∈ q :: pcs ∧
    ∃ target, isJump body pc target ∧ nextLiveWord dead target = Some back).
  { intros [Hin Ht]%IH. split; [by right|done]. }
  destruct (zget body q) as [inst|] eqn:Hg; [|done]. destruct (JumpTargetAt body q) as [t|] eqn:Ht; [|done].
  destruct (InstrIsTier1SubOp inst SubOpJump) eqn:Hj; cbn [negb]; [|done].
  destruct (nextLiveWord dead t) as [landing|] eqn:Hl; [|done]. cbn [mbind option_bind].
  destruct (Z.eqb_spec landing back) as [->|]; cbn [negb]; [|done]. intros [= <-]. split; [by left|].
  exists t. split; [|done]. split; [eauto|done].
Qed.

Lemma straightBlockFor_good body dead jumpPC inst b :
  zget body jumpPC = Some inst → InstrIsTier1SubOp inst SubOpJump = true → zget dead jumpPC = Some false →
  instruction_start body jumpPC →
  straightBlockFor body dead (jumpSourcesByTarget body) jumpPC = Some (Some b) →
  (∀ t, t ∈ JumpTargetsOf body → t < zlen body → instruction_start body t) →
  good_block body dead jumpPC b.
Proof.
  intros Hg Hj Hd Hst. unfold straightBlockFor. destruct (JumpTargetAt body jumpPC) as [s|] eqn:Ht; [|done].
  case_if; [done|]. bool_hyps. intros Hfind Hstarts.
  destruct (nextLiveWord dead (jumpPC + 1)) as [back|] eqn:Hback; [|done]. cbn [mbind option_bind] in Hfind.
  destruct (jumpBackFrom _ _ _ _) as [[e|]|] eqn:He; try done. cbn [mbind option_bind] in Hfind.
  destruct (enteredOnlyBy _ _ _) eqn:Hent; [|done]. injection Hfind as <-.
  apply jumpBackFrom_spec in He as [Hin (t & Hjt & Hlt)].
  assert (Hs : instruction_start body s) by (apply Hstarts; [by eapply JumpTargetAt_elem|lia]).
  destruct (elem_of_walk_start _ _ _ _ Hs Hin ltac:(done)) as [_ Hr].
  split; cbn [start end_]; try done; try lia; [split; [by exists inst|done]|by exists back, t|].
  intros pc source Hpc Hsrc. unfold enteredOnlyBy in Hent. rewrite forallb_forall in Hent.
  specialize (Hent pc ltac:(apply list_elem_of_In, elem_of_blockWords; cbn; lia)).
  rewrite forallb_forall in Hent.
  specialize (Hent source ltac:(by apply list_elem_of_In, elem_of_sources)). cbn [start end_] in Hent. bool_hyps.
  destruct Hent as [Hent|Hent]; bool_hyps; [left; lia|right; done].
Qed.

(** The blocks found: good, and apart from one another and from the jumps. *)
Record apart (body : list Instruction) (dead : list bool) (claimed : gset Z)
    (blocks : gmap Z straightBlock) : Prop := {
  ap_good j b : blocks !! j = Some b → good_block body dead j b;
  ap_claimed j b pc : blocks !! j = Some b → (pc = j ∨ start b <= pc <= end_ b) → pc ∈ claimed;
  ap_apart j b j' b' pc : blocks !! j = Some b → blocks !! j' = Some b' → j ≠ j' →
    start b <= pc <= end_ b → pc ≠ j' ∧ ¬ (start b' <= pc <= end_ b');
}.

Lemma apart_subset body dead claimed blocks blocks' :
  blocks' ⊆ blocks → apart body dead claimed blocks → apart body dead claimed blocks'.
Proof.
  intros Hsub [Hg Hc Ha]. split.
  - intros j b Hj. apply Hg. by eapply lookup_weaken.
  - intros j b pc Hj. apply (Hc j). by eapply lookup_weaken.
  - intros j b j' b' pc Hj Hj'. apply Ha; by eapply lookup_weaken.
Qed.

Lemma findBlock_apart body dead state pc state' :
  (∀ t, t ∈ JumpTargetsOf body → t < zlen body → instruction_start body t) → instruction_start body pc →
  apart body dead (fst state) (snd state) → findBlock body dead state pc = Some state' →
  apart body dead (fst state') (snd state').
Proof.
  intros Hstarts Hst [Hg Hc Ha]. destruct state as [claimed blocks]. unfold findBlock. cbn [fst snd] in *.
  destruct (zget body pc) as [inst|] eqn:Hi; [|done]. cbn [mbind option_bind].
  destruct (zget dead pc) as [isDead|] eqn:Hd; [|done]. cbn [mbind option_bind].
  destruct isDead; cbn [orb]; [by intros [= <-]|].
  case_bool_decide as Hcl; cbn [orb]; [by intros [= <-]|].
  destruct (InstrIsTier1SubOp inst SubOpJump) eqn:Hj; cbn [negb]; [|by intros [= <-]].
  destruct (straightBlockFor _ _ _ pc) as [[b|]|] eqn:Hb; cbn [mbind option_bind]; [|by intros [= <-]|done].
  destruct (claimedRange claimed b) eqn:Hr; [by intros [= <-]|]. intros [= <-]. cbn [fst snd].
  assert (Hgood : good_block body dead pc b) by by eapply straightBlockFor_good.
  assert (Hfree : ∀ q, start b <= q <= end_ b → q ∉ claimed).
  { intros q Hq Hin. unfold claimedRange in Hr.
    assert (existsb (λ pc, bool_decide (pc ∈ claimed)) (blockWords b) = true) as Ht; [|congruence].
    apply existsb_exists. exists q. split; [by apply list_elem_of_In, elem_of_blockWords|].
    by apply bool_decide_eq_true_2. }
  assert (Hold : ∀ j b' q, blocks !! j = Some b' → (q = j ∨ start b' <= q <= end_ b') →
    q ≠ pc ∧ ¬ (start b <= q <= end_ b)).
  { intros j b' q Hlook Hq. pose proof (Hc _ _ _ Hlook Hq) as Hin. split; [by intros ->|].
    intros Hqb. by destruct (Hfree _ Hqb). }
  pose proof (gb_after _ _ _ _ Hgood).
  split.
  - intros j b' [[<- <-]|[Hne Hlook]]%lookup_insert_Some; [done|by apply Hg].
  - intros j b' q [[<- <-]|[Hne Hlook]]%lookup_insert_Some Hq.
    + rewrite !elem_of_union, elem_of_singleton, elem_of_list_to_set, elem_of_blockWords. tauto.
    + pose proof (Hc _ _ _ Hlook Hq). set_solver.
  - intros j b1 j' b2 q [[<- <-]|[Hne Hlook]]%lookup_insert_Some [[<- <-]|[Hne' Hlook']]%lookup_insert_Some Hjj Hq;
      try done.
    + split; [intros ->; by eapply (Hold j' b2 j'); [done|by left|]|].
      intros Hq2. by eapply (Hold j' b2 q); [done|by right|].
    + exact (Hold j b1 q Hlook (or_intror Hq)).
    + by apply (Ha j b1 j' b2).
Qed.

Lemma findStraightenableBlocks_apart body dead blocks :
  (∀ t, t ∈ JumpTargetsOf body → t < zlen body → instruction_start body t) →
  findStraightenableBlocks body dead = Some blocks → ∃ claimed, apart body dead claimed blocks.
Proof.
  intros Hstarts. unfold findStraightenableBlocks.
  destruct (foldOption (findBlock body dead) (∅, ∅) _) as [[claimed found]|] eqn:Hf; [|done].
  intros [= <-]. exists claimed.
  change (apart body dead (fst (claimed, found)) (snd (claimed, found))).
  eapply (foldOption_ind (λ s, apart body dead (fst s) (snd s)) (findBlock body dead)); [| |exact Hf].
  - intros s pc s' Hpc Hs. apply findBlock_apart; try done.
    eapply elem_of_walk_start; [constructor|exact Hpc|done].
  - split; intros ? ?; cbn; intros; simplify_map_eq.
Qed.

(** ** Every removable jump is marked *)

Definition settled (body : list Instruction) (dead : list bool) (pc : Z) : Prop :=
  markJump body (dead, false) pc = Some (dead, false).

Definition unmarkedJumps (dead : list bool) (jumps : list Z) : nat :=
  length (filter (λ pc, zget dead pc ≠ Some true) jumps).

Lemma markJump_cases body dead changed pc dead' changed' :
  markJump body (dead, changed) pc = Some (dead', changed') →
  (dead' = dead ∧ changed' = changed ∧ settled body dead pc) ∨
  (changed' = true ∧ dead' = zset dead pc true ∧ zget dead pc = Some false).
Proof.
  unfold settled, markJump. destruct (zget dead pc) as [[]|] eqn:Hd; cbn [mbind option_bind]; [|..|done].
  { intros [= <- <-]. by left. }
  destruct (JumpTargetAt body pc) as [t|]; [|intros [= <- <-]; by left].
  destruct (nextLiveWord dead t); [|done]. cbn [mbind option_bind].
  destruct (nextLiveWord dead (pc + 1)); [|done]. cbn [mbind option_bind].
  case_if; intros [= <- <-]; [by right|by left].
Qed.

Lemma unmarked_le dead jumps pc : (unmarkedJumps (zset dead pc true) jumps <= unmarkedJumps dead jumps)%nat.
Proof.
  unfold unmarkedJumps. induction jumps as [|q jumps IH]; [done|]. rewrite !filter_cons.
  case_decide as H1; case_decide as H2; cbn [length]; try lia. exfalso. apply H1.
  apply marked_zset. unfold marked.
  destruct (zget dead q) as [[]|]; [done|by destruct H2..].
Qed.

Lemma unmarked_lt dead jumps pc :
  pc ∈ jumps → zget dead pc = Some false → (unmarkedJumps (zset dead pc true) jumps < unmarkedJumps dead jumps)%nat.
Proof.
  intros Hin Hd. pose proof (zget_Some_range _ _ _ Hd).
  induction jumps as [|q jumps IH]; [by apply elem_of_nil in Hin|].
  pose proof (unmarked_le dead jumps pc). unfold unmarkedJumps in *. rewrite !filter_cons.
  destruct (decide (q = pc)) as [->|Hne].
  - rewrite decide_False by (rewrite zget_zset_eq by done; auto). rewrite decide_True by congruence. cbn. lia.
  - rewrite zget_zset_ne by done. apply elem_of_cons in Hin as [->|Hin]; [done|]. specialize (IH Hin).
    case_decide; cbn [length]; lia.
Qed.

Lemma markJumps_pass body jumps dead changed dead' changed' l :
  (∀ pc, pc ∈ l → pc ∈ jumps) →
  foldOption (markJump body) (dead, changed) l = Some (dead', changed') →
  (unmarkedJumps dead' jumps <= unmarkedJumps dead jumps)%nat ∧
  (changed' = true ∧ (changed = true ∨ (unmarkedJumps dead' jumps < unmarkedJumps dead jumps)%nat) ∨
   changed' = false ∧ changed = false ∧ dead' = dead ∧ ∀ pc, pc ∈ l → settled body dead pc).
Proof.
  revert dead changed. induction l as [|pc l IH]; intros dead changed Hl.
  { intros [= <- <-]. split; [done|]. destruct changed; [by left; auto|right]. split_and!; try done.
    by intros pc ?%elem_of_nil. }
  rewrite foldOption_cons. destruct (markJump body (dead, changed) pc) as [[dead1 changed1]|] eqn:Hm; [|done].
  cbn [mbind option_bind]. intros Hf. destruct (IH dead1 changed1 ltac:(set_solver) Hf) as [Hle Hor].
  apply markJump_cases in Hm as [(-> & -> & Hs)|(-> & -> & Hd)].
  - split; [done|]. destruct Hor as [?|(-> & -> & -> & Hall)]; [by left|right]. split_and!; try done.
    intros q [->|Hq]%elem_of_cons; auto.
  - pose proof (unmarked_lt dead jumps pc ltac:(set_solver) Hd). split; [lia|].
    destruct Hor as [[-> _]|(_ & [=] & _)]. left. split; [done|right; lia].
Qed.

Lemma markJumps_settled fuel body jumps dead dead' :
  (unmarkedJumps dead jumps < fuel)%nat → markJumps fuel body jumps dead = Some dead' →
  ∀ pc, pc ∈ jumps → settled body dead' pc.
Proof.
  revert dead. induction fuel as [|fuel IH]; intros dead Hf; [lia|]. cbn [markJumps].
  destruct (foldOption _ _ _) as [[dead1 changed]|] eqn:Hp; [|done]. cbn [mbind option_bind].
  apply markJumps_pass with (jumps := jumps) in Hp as [_ [[-> [|]]|(-> & _ & -> & Hall)]]; try done.
  - apply IH. lia.
  - by intros [= <-].
Qed.

Lemma jump_footprint body pc inst :
  zget body pc = Some inst → InstrIsTier1SubOp inst SubOpJump = true → instructionFootprint body pc = 1.
Proof.
  intros Hg Hj. unfold instructionFootprint. rewrite Hg. unfold InstrIsTier1SubOp in Hj. bool_hyps.
  destruct inst as [op a b c]. cbn [iOp iA] in *. subst. reflexivity.
Qed.

(** The marks and the jumps collected, of which there is every jump. *)
Lemma markDeadWords_settled body dead pc target :
  markDeadWords body = Some dead → instruction_start body pc → isJump body pc target →
  settled body dead pc.
Proof.
  unfold markDeadWords. destruct (foldl (markWord body) _ _) as [dead0 jumps] eqn:Hf. intros Hm Hst [(inst & Hg & Hj) _].
  revert Hm. intros Hm. apply (markJumps_settled _ _ jumps _ _) with (2 := Hm).
  { unfold unmarkedJumps. pose proof (length_filter (λ pc, zget dead0 pc ≠ Some true) jumps). lia. }
  assert (Hin : pc ∈ walk body 0 (zlen body)).
  { apply walk_start; [constructor|done| |done]. pose proof (zget_Some_range _ _ _ Hg). lia. }
  assert (Hnn : isCanonicalNop inst = false).
  { destruct (isCanonicalNop inst) eqn:E; [|done]. apply isCanonicalNop_nop in E as ->. done. }
  assert (Hcol : ∀ l s, pc ∈ l ∨ pc ∈ snd s → pc ∈ snd (foldl (markWord body) s l)).
  { intros l. induction l as [|q l IH]; intros s [Hl|Hs]; cbn; [by apply elem_of_nil in Hl|done|..]; apply IH.
    - apply elem_of_cons in Hl as [->|Hl]; [right|by left]. destruct s as [d js]. unfold markWord.
      rewrite Hg, (jump_footprint body q inst), Hnn, Hj by done. cbn. set_solver.
    - right. destruct s as [d js]. unfold markWord. destruct (zget body q); [|done].
      case_if; [done|]. case_if; [cbn; set_solver|done]. }
  specialize (Hcol (walk body 0 (zlen body)) (replicate (length body) false, []) (or_introl Hin)).
  by rewrite Hf in Hcol.
Qed.

(** ** The blocks that are kept *)

Lemma keepBlocks_spec sourceMap live found blocks :
  keepBlocks sourceMap live found = Some blocks →
  blocks ⊆ found ∧ ∀ j b, blocks !! j = Some b → dropKeepsSourceLines sourceMap live [j; end_ b] = Some true.
Proof.
  unfold keepBlocks. intros Hf.
  assert (Hall : ∀ l kept, (∀ j b, kept !! j = Some b → found !! j = Some b) →
    foldOption (λ kept '(jumpPC, block),
      ok ← dropKeepsSourceLines sourceMap live [jumpPC; end_ block];
      Some (if ok : bool then kept else delete jumpPC kept)) kept l = Some blocks →
    (∀ j b, blocks !! j = Some b → kept !! j = Some b) ∧
    (∀ j b, (j, b) ∈ l → blocks !! j = Some b → dropKeepsSourceLines sourceMap live [j; end_ b] = Some true)).
  { clear Hf. intros l. induction l as [|[j b] l IH]; intros kept Hkept.
    { intros [= <-]. split; [done|]. by intros ? ? ?%elem_of_nil. }
    rewrite foldOption_cons. destruct (dropKeepsSourceLines sourceMap live [j; end_ b]) as [ok|] eqn:Hok; [|done].
    cbn [mbind option_bind]. intros Hfold. destruct ok.
    - destruct (IH kept Hkept Hfold) as [H1 H2]. split; [done|].
      intros j' b' [[= -> ->]|Hin]%elem_of_cons Hb; [done|by apply H2].
    - destruct (IH (delete j kept)) as [H1 H2]; [|done|].
      + intros j' b' [_ Hlook]%lookup_delete_Some. by apply Hkept.
      + split; [intros j' b' Hb; by apply H1, lookup_delete_Some in Hb as [_ ?]|].
        intros j' b' [[= -> ->]|Hin]%elem_of_cons Hb; [|by apply H2].
        by apply H1, lookup_delete_Some in Hb as [? _]. }
  destruct (Hall _ found ltac:(done) Hf) as [H1 H2]. split.
  - apply map_subseteq_spec. exact H1.
  - intros j b Hb. apply H2; [|done]. apply elem_of_map_to_list. by apply H1.
Qed.

Section blocks.
Context (body : list Instruction) (sourceMap : SourceMap) (marks dead : list bool)
  (live : option (gmap sourceLine Z)) (claimed : gset Z) (blocks : gmap Z straightBlock).
Context (Hmarks : markDeadWords body = Some marks)
  (Hrevive : keepSoleSourceLines sourceMap marks = (dead, live))
  (Hapart : apart body dead claimed blocks)
  (Hdrop : ∀ j b, blocks !! j = Some b → dropKeepsSourceLines sourceMap live [j; end_ b] = Some true).

(** A word kept for its line is not a jump that goes. *)
Lemma block_jump_unmarked j b : blocks !! j = Some b → ¬ marked marks j.
Proof.
  intros Hb Hm. pose proof (ap_good _ _ _ _ Hapart _ _ Hb) as Hg.
  destruct (keepSoleSourceLines_ok _ _ _ _ Hrevive) as (Hlen & _ & Hsole).
  assert (Hnot : ¬ marked dead j) by (unfold marked; rewrite (gb_live _ _ _ _ Hg); congruence).
  pose proof (zget_Some_range _ _ _ (gb_live _ _ _ _ Hg)).
  destruct (Hsole j) as (positions & counts & key & -> & -> & Hkey & Hline & Hcount); [lia|done|done|].
  specialize (Hdrop _ _ Hb). cbn in Hdrop. rewrite Hkey in Hdrop. cbn [mbind option_bind] in Hdrop.
  rewrite (proj2 (Z.eqb_neq _ _) Hline), Hcount in Hdrop. unfold lineCount in Hdrop.
  rewrite lookup_insert_eq in Hdrop. done.
Qed.

(** A jump over marked words alone is marked. *)
Lemma block_gap j b : blocks !! j = Some b → ¬ ∀ q, j + 1 <= q < start b → marked marks q.
Proof.
  intros Hb Hbetween. pose proof (ap_good _ _ _ _ Hapart _ _ Hb) as Hg.
  destruct (block_jump_unmarked j b Hb). pose proof (markDeadWords_skips _ _ Hmarks) as Hskip.
  pose proof (gb_range _ _ _ _ Hg). pose proof (gb_after _ _ _ _ Hg).
  pose proof (markDeadWords_settled body marks j (start b) Hmarks (gb_start _ _ _ _ Hg) (gb_jump _ _ _ _ Hg)) as Hset.
  unfold settled, markJump in Hset. destruct (gb_jump _ _ _ _ Hg) as [_ Hjt].
  destruct (zget marks j) as [[]|] eqn:Hmj; [done| |done]. cbn [mbind option_bind] in Hset. rewrite Hjt in Hset.
  destruct (nextLiveWord marks (start b)) as [landing|] eqn:Hl; [|done]. cbn [mbind option_bind] in Hset.
  destruct (nextLiveWord marks (j + 1)) as [next|] eqn:Hn; [|done]. cbn [mbind option_bind] in Hset.
  assert (landing = next) as ->; [|by rewrite Z.eqb_refl in Hset].
  apply nextLiveWord_spec in Hl as (_ & Hl1 & Hl2 & Hl3 & Hl4).
  apply (nextLiveWord_unique _ _ _ _ Hn); [lia| |done|].
  - intros q Hq. destruct (Z.lt_ge_cases q (start b)); [apply Hbetween; lia|apply Hl2; lia].
  - left. pose proof (ms_length _ _ Hskip). lia.
Qed.

Lemma block_end_unmarked j b : blocks !! j = Some b → ¬ marked marks (end_ b).
Proof.
  intros Hb Hm. pose proof (ap_good _ _ _ _ Hapart _ _ Hb) as Hg.
  pose proof (markDeadWords_skips _ _ Hmarks) as Hskip.
  destruct (keepSoleSourceLines_ok _ _ _ _ Hrevive) as (_ & Hsub & _).
  destruct (gb_back _ _ _ _ Hg) as (back & t & Hback & Ht & Hland). pose proof (gb_range _ _ _ _ Hg).
  apply nextLiveWord_spec in Hback as (_ & _ & Hall & _), Hland as (_ & Hle & _).
  destruct (ms_skips _ _ Hskip _ Hm) as [(inst & Hi & Hn)|(t' & Ht' & Hlt & _)].
  { destruct Ht as [(inst' & Hi' & Hj) _]. rewrite Hi in Hi'. injection Hi' as <-.
    by apply isCanonicalNop_nop in Hn as ->. }
  assert (t' = t) as -> by (destruct Ht as [_ Ht], Ht' as [_ Ht']; congruence).
  apply (block_gap j b Hb). intros q Hq. apply Hsub, Hall. lia.
Qed.
End blocks.
