(* ===== verification/CompactPlace.v ===== *)
(** * Where the compaction places the words

    The rebuild of [compactOnce] places the old words in an order; the map of
    program counters counts the words kept before each, and the jumps are
    re-encoded through it. *)

From S2P Require Import Prelude SafeConv Register Opcode Instruction Shapes Spec JumpLayout Jumps.
From S2P Require Import Extension Function Builder Verify VerifySound Machine MachineSafe MachineFlow.
From S2P Require Import FuseNarrow PassFacts Ranges RangesSolve Dominators Relocate Compact CompactMarks.

Lemma NoDup_concat_map {A B} (g : A → list B) (l : list A) :
  (∀ q, q ∈ l → NoDup (g q)) →
  (∀ q q' p, q ∈ l → q' ∈ l → p ∈ g q → p ∈ g q' → q = q') → NoDup l → NoDup (concat (map g l)).
Proof.
  intros Hnd Hdis Hl. induction Hl as [|q l Hq Hl IH]; [constructor|]. cbn. apply NoDup_app. split_and!.
  - apply Hnd. by left.
  - intros p Hp Hp'. apply list_elem_of_In, in_concat in Hp' as (ps & Hps & Hp').
    apply in_map_iff in Hps as (q' & <- & Hq'). apply list_elem_of_In in Hq', Hp'.
    assert (q = q') as <- by (eapply Hdis; [by left|by right|done|done]). done.
  - apply IH; intros; [apply Hnd; by right|eapply Hdis; [by right|by right|done|done]].
Qed.

(** ** Placing words one after another *)

Definition place (body : list Instruction) (r : bodyRewrite) (p : Z * bool) : option bodyRewrite :=
  if snd p then keep r body (fst p) else Some (dropWord r (fst p)).

Definition kept (order : list (Z * bool)) : list Z := map fst (filter (λ p, snd p = true) order).

Lemma kept_app l l' : kept (l ++ l') = kept l ++ kept l'.
Proof. unfold kept. by rewrite filter_app, map_app. Qed.

Record placed (body : list Instruction) (order : list (Z * bool)) (r : bodyRewrite) : Prop := {
  pl_origin : origin r = kept order;
  pl_words n p : zget (origin r) n = Some p → ∃ w, zget body p = Some w ∧ zget (rbody r) n = Some w;
  pl_length : length (rbody r) = length (origin r);
  pl_positions : positionOf r = origin r;
  pl_map : length (newPC r) = S (length body);
  pl_newPC pre p k post : order = pre ++ (p, k) :: post → p ∉ map fst post → 0 <= p <= zlen body →
    zget (newPC r) p = Some (zlen (kept pre));
}.

Lemma zget_app_snoc {A} (l : list A) x n y :
  zget (l ++ [x]) n = Some y ↔ zget l n = Some y ∨ (n = zlen l ∧ y = x).
Proof.
  destruct (decide (n < zlen l)).
  - rewrite zget_app_l by done. split; [by left|intros [?|[-> _]]; [done|lia]].
  - split.
    + intros Hg. pose proof (zget_Some_range _ _ _ Hg) as Hr. rewrite length_app in Hr. cbn in Hr.
      right. assert (n = zlen l) as -> by lia. split; [done|].
      rewrite zget_lookup, Nat2Z.id, lookup_app_r, Nat.sub_diag in Hg by lia. by injection Hg.
    + intros [Hg|[-> ->]]; [apply zget_Some_range in Hg; lia|]. rewrite zget_lookup, Nat2Z.id by lia.
      by rewrite lookup_app_r, Nat.sub_diag by lia.
Qed.

Lemma placed_snoc body order r p r' :
  placed body order r → place body r p = Some r' → placed body (order ++ [p]) r'.
Proof.
  intros [Ho Hw Hl Hp Hm Hn] Hplace. destruct p as [p k]. unfold place in Hplace. cbn [fst snd] in Hplace.
  assert (Hmap : ∀ q, zget (newPC r') q = if bool_decide (p = q ∧ 0 <= q <= zlen body) then Some (zlen (origin r)) else zget (newPC r) q).
  { intros q. assert (Hnew : newPC r' = zset (newPC r) p (zlen (origin r))).
    { rewrite <- Hl. destruct k; [|by injection Hplace as <-]. unfold keep in Hplace.
      destruct (zget body p); [|done]. by injection Hplace as <-. }
    rewrite Hnew, zget_zset. destruct (Z.eqb_spec p q) as [->|]; [|by rewrite bool_decide_eq_false_2 by tauto].
    rewrite Hm. case_bool_decide as H1; case_bool_decide as H2; try done; try lia.
    symmetry. apply zget_None. rewrite Hm. lia. }
  assert (Hlen : length (newPC r') = S (length body)).
  { destruct k; [|by injection Hplace as <-; cbn; rewrite length_zset]. unfold keep in Hplace.
    destruct (zget body p); [|done]. injection Hplace as <-. cbn. by rewrite length_zset. }
  assert (HnewPC : ∀ pre q kq post, order ++ [(p, k)] = pre ++ (q, kq) :: post → q ∉ map fst post →
    0 <= q <= zlen body → zget (newPC r') q = Some (zlen (kept pre))).
  { intros pre q kq post Heq Hq Hr. rewrite Hmap. destruct post as [|x post' _] using rev_ind.
    - apply app_inj_tail in Heq as [-> [= -> ->]]. rewrite bool_decide_eq_true_2 by done. by rewrite Ho.
    - rewrite app_comm_cons, app_assoc in Heq. apply app_inj_tail in Heq as [-> <-].
      rewrite map_app, not_elem_of_app in Hq. cbn in Hq. destruct Hq as [Hq1 Hq2].
      rewrite bool_decide_eq_false_2 by set_solver. by eapply Hn. }
  destruct k; [|injection Hplace as <-; split; cbn; try done; by rewrite kept_app, app_nil_r].
  unfold keep in Hplace. destruct (zget body p) as [inst|] eqn:Hg; [|done]. injection Hplace as <-.
  split; cbn; try done.
  - by rewrite kept_app, Ho.
  - intros n q [Hq|[-> ->]]%zget_app_snoc.
    + destruct (Hw _ _ Hq) as (w & H1 & H2). exists w. split; [done|]. apply zget_app_snoc. by left.
    + exists inst. split; [done|]. apply zget_app_snoc. right. by rewrite Hl.
  - rewrite !length_app. cbn. lia.
  - by rewrite Hp.
Qed.

Lemma placed_new body : placed body [] (newBodyRewrite (zlen body)).
Proof.
  split; try done.
  - intros n p Hg. apply zget_Some_range in Hg. cbn in Hg. lia.
  - cbn [newPC newBodyRewrite]. rewrite length_replicate. lia.
  - intros pre p k post Heq. by apply app_cons_not_nil in Heq.
Qed.

Lemma placed_order body order r :
  foldOption (place body) (newBodyRewrite (zlen body)) order = Some r → placed body order r.
Proof.
  revert r. induction order as [|p order IH] using rev_ind; intros r.
  { intros [= <-]. apply placed_new. }
  rewrite foldOption_app. destruct (foldOption _ _ order) as [r1|]; [|done]. cbn [mbind option_bind].
  rewrite foldOption_cons. destruct (place body r1 p) as [r2|] eqn:Hp; [|done]. intros [= <-].
  eapply placed_snoc; [by apply IH|done].
Qed.

(** ** The order of the rebuild *)

Section order.
Context (body : list Instruction) (dead : list bool) (claimed : gset Z) (blocks : gmap Z straightBlock).
Context (Hapart : apart body dead claimed blocks) (Hlen : length dead = length body).

Definition livePC (pc : Z) : bool := bool_decide (zget dead pc = Some false).

Definition blockOrder (j : Z) (b : straightBlock) : list (Z * bool) :=
  (j, false) :: map (λ q, (q, livePC q)) (seqZ (start b) (end_ b - start b)) ++ [(end_ b, false)].

Definition orderAt (pc : Z) : list (Z * bool) :=
  if bool_decide (pc ∈ movedWords blocks) then []
  else match blocks !! pc with Some b => blockOrder pc b | None => [(pc, livePC pc)] end.

Definition orderOf (from to : Z) : list (Z * bool) := concat (map orderAt (seqZ from (to - from))).

#[local] Notation order := (orderOf 0 (zlen body)).

Lemma elem_of_moved pc : pc ∈ movedWords blocks ↔ ∃ j b, blocks !! j = Some b ∧ start b <= pc <= end_ b.
Proof.
  unfold movedWords. rewrite elem_of_list_to_set, list_elem_of_In, in_concat. split.
  - intros (ws & Hws & Hpc). apply in_map_iff in Hws as ([j b] & <- & Hin).
    apply list_elem_of_In, elem_of_map_to_list in Hin. apply list_elem_of_In, elem_of_blockWords in Hpc. eauto.
  - intros (j & b & Hb & Hpc). exists (blockWords b). split.
    + apply in_map_iff. exists (j, b). split; [done|]. by apply list_elem_of_In, elem_of_map_to_list.
    + by apply list_elem_of_In, elem_of_blockWords.
Qed.

Lemma jump_not_moved j b : blocks !! j = Some b → j ∉ movedWords blocks.
Proof.
  intros Hb (j' & b' & Hb' & Hr)%elem_of_moved. destruct (decide (j' = j)) as [->|Hne].
  - rewrite Hb in Hb'. injection Hb' as <-. pose proof (gb_after _ _ _ _ (ap_good _ _ _ _ Hapart _ _ Hb)). lia.
  - by destruct (ap_apart _ _ _ _ Hapart j' b' j b j Hb' Hb Hne Hr).
Qed.

Lemma orderOf_split a m b : a <= m <= b → orderOf a b = orderOf a m ++ orderOf m b.
Proof.
  intros H. unfold orderOf. rewrite <- concat_app, <- map_app. do 2 f_equal.
  replace (b - a) with ((m - a) + (b - m)) by lia. rewrite seqZ_app by lia. do 2 f_equal. lia.
Qed.

Lemma orderOf_one pc : orderOf pc (pc + 1) = orderAt pc.
Proof.
  unfold orderOf. replace (pc + 1 - pc) with 1 by lia. rewrite seqZ_cons by lia. cbn. by rewrite app_nil_r.
Qed.

Lemma orderOf_nil pc : orderOf pc pc = [].
Proof. unfold orderOf. by rewrite Z.sub_diag. Qed.

Lemma elem_of_orderAt q p k : (p, k) ∈ orderAt q →
  q ∉ movedWords blocks ∧ (p = q ∨ ∃ b, blocks !! q = Some b ∧ start b <= p <= end_ b).
Proof.
  unfold orderAt. case_bool_decide as Hm; [by intros ?%elem_of_nil|]. intros Hin. split; [done|].
  destruct (blocks !! q) as [b|] eqn:Hb; [|apply list_elem_of_singleton in Hin; left; congruence].
  pose proof (gb_range _ _ _ _ (ap_good _ _ _ _ Hapart _ _ Hb)).
  unfold blockOrder in Hin. apply elem_of_cons in Hin as [[= -> ->]|Hin]; [by left|right].
  exists b. split; [done|]. apply elem_of_app in Hin as [Hin|Hin].
  - apply list_elem_of_fmap in Hin as (x & [= -> ->] & Hx%elem_of_seqZ). lia.
  - apply list_elem_of_singleton in Hin as [= -> ->]. lia.
Qed.

Lemma NoDup_order : NoDup (map fst order).
Proof.
  unfold orderOf. rewrite concat_map, map_map. apply NoDup_concat_map; [| |apply NoDup_seqZ].
  - intros q Hq. unfold orderAt. case_bool_decide; [constructor|].
    destruct (blocks !! q) as [b|] eqn:Hb; [|apply NoDup_singleton].
    pose proof (gb_range _ _ _ _ (ap_good _ _ _ _ Hapart _ _ Hb)).
    pose proof (gb_after _ _ _ _ (ap_good _ _ _ _ Hapart _ _ Hb)).
    unfold blockOrder. cbn [map fst]. rewrite map_app, map_map. cbn [map fst]. rewrite map_id.
    apply NoDup_cons. split.
    + rewrite elem_of_app, elem_of_seqZ, list_elem_of_singleton. lia.
    + apply NoDup_app. split_and!; [apply NoDup_seqZ| |apply NoDup_singleton].
      intros x Hx%elem_of_seqZ ->%list_elem_of_singleton. lia.
  - intros q q' p _ _ Hp Hp'. apply list_elem_of_fmap in Hp as ([x k] & -> & Hx), Hp' as ([x' k'] & Heq & Hx').
    cbn [fst] in *. subst x'. apply elem_of_orderAt in Hx as [Hm Hx], Hx' as [Hm' Hx'].
    destruct Hx as [->|(b & Hb & Hr)], Hx' as [->|(b' & Hb' & Hr')]; [done| | |].
    + destruct Hm. apply elem_of_moved. eauto.
    + destruct Hm'. apply elem_of_moved. eauto.
    + destruct (decide (q = q')) as [|Hne]; [done|].
      by destruct (ap_apart _ _ _ _ Hapart q b q' b' x Hb Hb' Hne Hr).
Qed.

(** [q] comes right after [p] in the order, or at the end. *)
Definition comes_after (p : Z) (k : bool) (q : Z) : Prop :=
  ∃ pre post, order = pre ++ (p, k) :: post ∧
    (post = [] ∧ q = zlen body ∨ ∃ kq post', post = (q, kq) :: post').

(** The first word of the rest of the order, once [q] is not moved. *)
Lemma orderOf_head q : 0 <= q <= zlen body → q ∉ movedWords blocks →
  (orderOf q (zlen body) = [] ∧ q = zlen body) ∨ ∃ kq post, orderOf q (zlen body) = (q, kq) :: post.
Proof.
  intros Hq Hm. destruct (decide (q = zlen body)) as [->|]; [left; by rewrite orderOf_nil|right].
  rewrite (orderOf_split q (q + 1)), orderOf_one by lia. unfold orderAt. rewrite bool_decide_eq_false_2 by done.
  destruct (blocks !! q); cbn; eauto.
Qed.

Lemma after_plain p : 0 <= p < zlen body → p ∉ movedWords blocks → blocks !! p = None →
  p + 1 ∉ movedWords blocks → comes_after p (livePC p) (p + 1).
Proof.
  intros Hp Hm Hb Hm'. exists (orderOf 0 p), (orderOf (p + 1) (zlen body)). split.
  - rewrite (orderOf_split 0 p), (orderOf_split p (p + 1) (zlen body)), orderOf_one by lia.
    unfold orderAt. by rewrite bool_decide_eq_false_2, Hb.
  - destruct (orderOf_head (p + 1)) as [[-> ->]|(kq & post & ->)]; [lia|done|by left|right; eauto].
Qed.

Lemma order_at_jump j b : blocks !! j = Some b → 0 <= j < zlen body →
  order = orderOf 0 j ++ blockOrder j b ++ orderOf (j + 1) (zlen body).
Proof.
  intros Hb Hj. rewrite (orderOf_split 0 j), (orderOf_split j (j + 1) (zlen body)), orderOf_one by lia.
  unfold orderAt. by rewrite bool_decide_eq_false_2, Hb by by eapply jump_not_moved.
Qed.

Lemma block_jump_range j b : blocks !! j = Some b → 0 <= j < zlen body.
Proof.
  intros Hb. pose proof (ap_good _ _ _ _ Hapart _ _ Hb) as Hg.
  destruct (gb_jump _ _ _ _ Hg) as [(inst & Hi & _) _]. by eapply zget_Some_range.
Qed.

Lemma blockOrder_split j b p : start b <= p < end_ b →
  blockOrder j b = ((j, false) :: map (λ q, (q, livePC q)) (seqZ (start b) (p - start b))) ++
    (p, livePC p) :: map (λ q, (q, livePC q)) (seqZ (p + 1) (end_ b - (p + 1))) ++ [(end_ b, false)].
Proof.
  intros Hp. unfold blockOrder. cbn [app]. f_equal.
  replace (end_ b - start b) with ((p - start b) + (end_ b - p)) by lia.
  rewrite seqZ_app, map_app, <- app_assoc by lia. f_equal.
  replace (start b + (p - start b)) with p by lia. rewrite seqZ_cons by lia. cbn [map app]. do 3 f_equal.
  all: f_equal; lia.
Qed.

Lemma after_jump j b : blocks !! j = Some b → comes_after j false (start b).
Proof.
  intros Hb. pose proof (block_jump_range _ _ Hb). pose proof (gb_range _ _ _ _ (ap_good _ _ _ _ Hapart _ _ Hb)).
  eexists (orderOf 0 j), _. split; [rewrite (order_at_jump j b) by done; reflexivity|]. right.
  destruct (decide (start b = end_ b)) as [He|].
  - rewrite He, Z.sub_diag. cbn. eauto.
  - rewrite seqZ_cons by lia. cbn. eauto.
Qed.

Lemma after_inside j b p : blocks !! j = Some b → start b <= p < end_ b → comes_after p (livePC p) (p + 1).
Proof.
  intros Hb Hp. pose proof (block_jump_range _ _ Hb).
  eexists (orderOf 0 j ++ _), _. split.
  - rewrite (order_at_jump j b) by done. rewrite (blockOrder_split j b p) by done.
    rewrite <- app_assoc, (app_assoc (orderOf 0 j)). cbn [app]. reflexivity.
  - right. destruct (decide (p + 1 = end_ b)) as [He|].
    + rewrite He, Z.sub_diag. cbn. eauto.
    + rewrite seqZ_cons by lia. cbn. eauto.
Qed.

Lemma after_end j b : blocks !! j = Some b → j + 1 ∉ movedWords blocks → comes_after (end_ b) false (j + 1).
Proof.
  intros Hb Hm. pose proof (block_jump_range _ _ Hb).
  exists (orderOf 0 j ++ (j, false) :: map (λ q, (q, livePC q)) (seqZ (start b) (end_ b - start b))),
    (orderOf (j + 1) (zlen body)). split.
  - rewrite (order_at_jump j b) by done. unfold blockOrder. by rewrite <- !app_assoc, <- app_comm_cons, <- app_assoc.
  - destruct (orderOf_head (j + 1)) as [[-> ->]|(kq & post & ->)]; [lia|done|by left|right; eauto].
Qed.

(** ** What the order holds *)

Lemma order_range p k : (p, k) ∈ order → 0 <= p < zlen body.
Proof.
  unfold orderOf. intros Hin. apply list_elem_of_In, in_concat in Hin as (l & Hl & Hin).
  apply in_map_iff in Hl as (q & <- & Hq). apply list_elem_of_In in Hq, Hin. apply elem_of_seqZ in Hq.
  apply elem_of_orderAt in Hin as [_ [->|(b & Hb & Hr)]]; [lia|].
  pose proof (gb_range _ _ _ _ (ap_good _ _ _ _ Hapart _ _ Hb)).
  pose proof (gb_after _ _ _ _ (ap_good _ _ _ _ Hapart _ _ Hb)). lia.
Qed.

Lemma comes_after_in p k q : comes_after p k q → (p, k) ∈ order.
Proof. intros (pre & post & -> & _). apply elem_of_app. right. by left. Qed.

Lemma order_once p k k' : (p, k) ∈ order → (p, k') ∈ order → k = k'.
Proof.
  intros Hin Hin'. pose proof NoDup_order as Hnd. revert Hin Hin' Hnd. generalize order as l.
  induction l as [|[q kq] l IH]; [by intros ?%elem_of_nil|]. cbn [map fst].
  intros Hin Hin' [Hq Hnd]%NoDup_cons.
  assert (Hout : ∀ k0, (q, k0) ∉ l) by (intros k0 H0; apply Hq; apply list_elem_of_fmap; by exists (q, k0)).
  apply elem_of_cons in Hin as [[= -> ->]|Hin], Hin' as [H|Hin']; [congruence|by edestruct Hout| |by apply IH].
  injection H as -> ->. by edestruct Hout.
Qed.

Lemma end_in_order j b : blocks !! j = Some b → (end_ b, false) ∈ order.
Proof.
  intros Hb. rewrite (order_at_jump j b) by (done || by apply (block_jump_range j b)). unfold blockOrder. set_solver.
Qed.

Lemma order_has p :
  0 <= p < zlen body → (∀ j b, blocks !! j = Some b → p ≠ j ∧ p ≠ end_ b) → (p, livePC p) ∈ order.
Proof.
  intros Hp Hno. destruct (decide (p ∈ movedWords blocks)) as [(j & b & Hb & Hr)%elem_of_moved|Hm].
  - destruct (Hno _ _ Hb). eapply comes_after_in, (after_inside j b); [done|lia].
  - rewrite (orderOf_split 0 p), (orderOf_split p (p + 1) (zlen body)), orderOf_one by lia.
    unfold orderAt. rewrite bool_decide_eq_false_2 by done. destruct (blocks !! p) as [b|] eqn:Hb; [|set_solver].
    by destruct (Hno _ _ Hb).
Qed.

(** The words kept: the live ones but for the jumps in and out of the blocks. *)
Lemma order_kept p :
  (p, true) ∈ order → 0 <= p < zlen body ∧ zget dead p = Some false ∧
    ∀ j b, blocks !! j = Some b → p ≠ j ∧ p ≠ end_ b.
Proof.
  intros Hin. pose proof (order_range _ _ Hin) as Hr.
  assert (Hno : ∀ j b, blocks !! j = Some b → p ≠ j ∧ p ≠ end_ b).
  { intros j b Hb. split; intros ->.
    - discriminate (order_once _ _ _ Hin (comes_after_in _ _ _ (after_jump j b Hb))).
    - discriminate (order_once _ _ _ Hin (end_in_order j b Hb)). }
  split_and!; [lia..| |done]. pose proof (order_once _ _ _ Hin (order_has p Hr Hno)) as Hl.
  symmetry in Hl. by apply bool_decide_eq_true in Hl.
Qed.

(** ** The rebuild places the words in this order *)

Lemma placeWord_place r p r' : placeWord body dead r p = Some r' → place body r (p, livePC p) = Some r'.
Proof.
  unfold placeWord, place, livePC. cbn [fst snd]. destruct (zget dead p) as [[]|]; [done|done|done].
Qed.

Lemma fold_place r ps r' :
  foldOption (placeWord body dead) r ps = Some r' →
  foldOption (place body) r (map (λ q, (q, livePC q)) ps) = Some r'.
Proof.
  revert r. induction ps as [|p ps IH]; intros r; [done|]. cbn [map]. rewrite !foldOption_cons.
  destruct (placeWord body dead r p) as [r1|] eqn:Hp; [|done]. rewrite (placeWord_place _ _ _ Hp). apply IH.
Qed.

Lemma placeAt_order r pc r' :
  placeAt body dead blocks (movedWords blocks) r pc = Some r' → foldOption (place body) r (orderAt pc) = Some r'.
Proof.
  unfold placeAt, orderAt. case_bool_decide; [done|]. destruct (blocks !! pc) as [b|] eqn:Hb.
  2: { intros Hp. rewrite foldOption_cons, (placeWord_place _ _ _ Hp). done. }
  pose proof (gb_range _ _ _ _ (ap_good _ _ _ _ Hapart _ _ Hb)).
  pose proof (gb_after _ _ _ _ (ap_good _ _ _ _ Hapart _ _ Hb)). pose proof (block_jump_range _ _ Hb).
  rewrite (proj2 (Z.ltb_lt _ _)) by lia. unfold placeStraightenedBlock, blockOrder.
  destruct (foldOption _ _ _) as [r1|] eqn:Hf; [|done]. cbn [mbind option_bind]. intros [= <-].
  rewrite foldOption_cons. cbn [place fst snd mbind option_bind]. rewrite foldOption_app, (fold_place _ _ _ Hf). done.
Qed.

Lemma rebuild_placed r :
  foldOption (placeAt body dead blocks (movedWords blocks)) (newBodyRewrite (zlen body)) (seqZ 0 (zlen body)) = Some r →
  placed body order r.
Proof.
  intros Hf. apply placed_order. unfold orderOf. rewrite Z.sub_0_r.
  revert Hf. generalize (newBodyRewrite (zlen body)) as r0. generalize (seqZ 0 (zlen body)) as pcs.
  intros pcs. induction pcs as [|pc pcs IH]; intros r0; [done|]. rewrite foldOption_cons. cbn [map concat].
  rewrite foldOption_app. destruct (placeAt _ _ _ _ r0 pc) as [r1|] eqn:Hp; [|done]. cbn [mbind option_bind].
  rewrite (placeAt_order _ _ _ Hp). apply IH.
Qed.

(** ** Where each word goes *)

Context (r : bodyRewrite) (Hplaced : placed body order r).

#[local] Notation new pc := (zget (newPC (finish r)) pc).

Lemma new_inside p : p < zlen body → new p = zget (newPC r) p.
Proof.
  intros Hp. unfold finish. cbn [newPC]. rewrite zget_zset_ne; [done|]. rewrite (pl_map _ _ _ Hplaced). lia.
Qed.

Lemma new_end : new (zlen body) = Some (zlen (kept order)).
Proof.
  unfold finish. cbn [newPC]. rewrite (pl_map _ _ _ Hplaced).
  replace (Z.of_nat (S (length body)) - 1) with (zlen body) by lia.
  rewrite zget_zset_eq by (rewrite (pl_map _ _ _ Hplaced); lia).
  by rewrite (pl_length _ _ _ Hplaced), (pl_origin _ _ _ Hplaced).
Qed.

Lemma new_at pre p k post : order = pre ++ (p, k) :: post → new p = Some (zlen (kept pre)).
Proof.
  intros Heq. assert (Hr : 0 <= p < zlen body) by (apply (order_range p k); rewrite Heq; set_solver).
  rewrite new_inside by lia. apply (pl_newPC _ _ _ Hplaced _ _ _ _ Heq); [|lia].
  pose proof NoDup_order as Hnd. rewrite Heq, map_app in Hnd. cbn in Hnd.
  apply NoDup_app in Hnd as (_ & _ & Hnd). by apply NoDup_cons in Hnd as [? _].
Qed.

Lemma new_after p k q : comes_after p k q → ∃ n, new p = Some n ∧ new q = Some (n + if k then 1 else 0).
Proof.
  intros (pre & post & Heq & Hq). exists (zlen (kept pre)). split; [by eapply new_at|].
  assert (Hk : zlen (kept (pre ++ [(p, k)])) = zlen (kept pre) + if k then 1 else 0).
  { rewrite kept_app, length_app. destruct k;
      [change (kept [(p, true)]) with [p]|change (kept [(p, false)]) with (@nil Z)]; cbn [length]; lia. }
  rewrite <- Hk. destruct Hq as [[-> ->]|(kq & post' & ->)]; [by rewrite new_end, Heq|].
  eapply (new_at _ _ kq post'). by rewrite Heq, <- app_assoc.
Qed.

(** A word kept is at its new place. *)
Lemma new_kept p : (p, true) ∈ order → ∃ n, new p = Some n ∧
  zget (origin r) n = Some p ∧ ∃ w, zget body p = Some w ∧ zget (rbody r) n = Some w.
Proof.
  intros (pre & post & Heq)%list_elem_of_split. exists (zlen (kept pre)). split; [by eapply new_at|].
  assert (Ho : zget (origin r) (zlen (kept pre)) = Some p).
  { rewrite (pl_origin _ _ _ Hplaced), Heq, kept_app. change (kept ((p, true) :: post)) with (p :: kept post).
    rewrite zget_lookup, Nat2Z.id, lookup_app_r, Nat.sub_diag by lia. done. }
  split; [done|]. by apply (pl_words _ _ _ Hplaced).
Qed.
End order.
