(* ===== verification/CompactRecode.v ===== *)
(** * The jumps of the compacted body

    [apply] re-encodes every jump of the new body in turn; each write stays in
    the words of its own jump, so that in the end every instruction is the one
    it was copied from, and every jump lands where its old target went. *)

From S2P Require Import Prelude SafeConv Register Opcode Instruction Shapes Spec JumpLayout Jumps.
From S2P Require Import Extension Function Builder Verify VerifySound Machine MachineSafe MachineFlow.
From S2P Require Import FuseNarrow PassFacts Ranges RangesSolve Dominators Relocate Compact.

(** ** The jumps of the new body *)

(** A body the compaction can read: walkable, with nothing but extension words
    and padding inside its instructions, its jumps landing in it or at its end. *)
Record compactable (body : list Instruction) : Prop := {
  cp_walkable : walkable body;
  cp_inner pc i : instruction_start body pc → 0 < i < instructionFootprint body pc →
    ∃ w, zget body (pc + i) = Some w ∧ (iOp w = OpExt ∨ isCanonicalNop w = true);
  cp_targets t : t ∈ JumpTargetsOf body → t <= zlen body;
}.

(** The discriminating bytes of a one-word jump are its first two. *)
Lemma word_layout_index instr n b c :
  wf_instruction instr → JumpLayoutOf instr = (JumpLayoutWord, n) →
  flatDispatchIndex (setBC instr (b, c)) = flatDispatchIndex instr.
Proof.
  intros Hwf HL. destruct instr as [op a b' c']. unfold setBC, flatDispatchIndex. cbn [iOp iA iB iC fst snd].
  destruct (op =? 0) eqn:Eo; cbn [negb]; [|done]. destruct (a =? 0) eqn:Ea; cbn [negb]; [|done]. exfalso.
  bool_hyps. subst. pose proof (proj1 (forallb_forall _ _) word_layout_slots (FlatIndexFor (NewInstruction 0 0 b' c'))) as Hs.
  destruct (normalise_tests (NewInstruction 0 0 b' c')) as (_ & _ & HN). rewrite (normalise_slot _ Hwf) in HN.
  destruct (normalise_tests (slotInstruction (FlatIndexFor (NewInstruction 0 0 b' c')))) as (_ & _ & HN').
  rewrite HN' in HN. cbv beta in Hs. rewrite HN, HL in Hs. cbn [fst] in Hs.
  assert (FlatIndexFor (NewInstruction 0 0 b' c') < TierSub2 * SlotsPerTier) as Hlt.
  { apply Z.ltb_lt, Hs, list_elem_of_In, elem_of_seqZ. pose proof (flat_index_range _ Hwf). lia. }
  clear -Hlt Hwf. destruct Hwf as (_ & _ & Hb & Hc). unfold FlatIndexFor in Hlt. cbn [iOp iA iB iC] in *.
  change (0 =? OpDrillTier1) with true in Hlt. change (0 =? SubOpDrillTier2) with true in Hlt. cbn [negb] in Hlt.
  destruct (b' =? SubOpTier2DrillTier3); cbn [negb] in *; unfold TierSub2, TierSub3, SlotsPerTier in *; word.
Qed.

Lemma jump_span body p instr t :
  zget body p = Some instr → JumpTargetAt body p = Some t →
  fst (JumpLayoutOf instr) ≠ JumpLayoutNone ∧
  instructionFootprint body p = WordCount (fst (JumpLayoutOf instr)) + snd (JumpLayoutOf instr).
Proof.
  intros Hg Ht. unfold JumpTargetAt in Ht. rewrite Hg in Ht.
  assert (Hne : fst (JumpLayoutOf instr) ≠ JumpLayoutNone) by (destruct (JumpLayoutOf instr) as [[] n]; done).
  split; [done|]. unfold instructionFootprint. rewrite Hg, bool_decide_eq_true_2 by done.
  unfold JumpFootprint. by destruct (JumpLayoutOf instr).
Qed.

(** What a successful re-encoding of one jump writes: one word the jump spans. *)
Lemma SetJumpTarget_relocated old b p n instr t target b' :
  wf_body old → wf_body b → isS 64 target →
  (∀ i, 0 <= i < instructionFootprint old p → zget b (n + i) = zget old (p + i)) →
  zget old p = Some instr → JumpTargetAt old p = Some t → SetJumpTarget b n target = Some b' →
  ∃ instr', zget b' n = Some instr' ∧ wf_instruction instr' ∧
    flatDispatchIndex instr' = flatDispatchIndex instr ∧ relocated old b' p n instr instr' ∧
    length b' = length b ∧ (∀ m, ¬ (n <= m < n + instructionFootprint old p) → zget b' m = zget b m).
Proof.
  intros Hwo Hwb Hs Hcopy Hg Ht Hset. pose proof (wf_body_zget _ _ _ Hwo Hg) as Hwi.
  destruct (jump_span _ _ _ _ Hg Ht) as [Hne Hfoot]. rewrite Hfoot in *.
  assert (Hwb' : wf_body b') by (by eapply (jump_rewritten_words b n target b' Hwb), SetJumpTarget_inv).
  pose proof (instructionFootprint_pos old p).
  assert (Hb0 : zget b n = Some instr).
  { specialize (Hcopy 0). rewrite !Z.add_0_r in Hcopy. rewrite <- Hg. apply Hcopy. lia. }
  unfold SetJumpTarget in Hset. rewrite Hb0 in Hset. unfold relocated.
  destruct (JumpLayoutOf instr) as [layout nops] eqn:El. destruct (layout_nops _ _ _ El) as [Hn0 _].
  cbn [fst snd] in *.
  (* the word written, past the first *)
  assert (Hext : ∀ k e w, 0 < k < WordCount layout → extensionWordAt b (n + k) = Some e → iOp w = OpExt →
    b' = zset b (n + k) w →
    zget b' n = Some instr ∧ length b' = length b ∧
    (∀ m, ¬ (n <= m < n + (WordCount layout + nops)) → zget b' m = zget b m) ∧
    zget old (p + k) = Some e ∧ iOp e = OpExt ∧ zget b' (n + k) = Some w).
  { intros k e w Hk [He Ho]%extensionWordAt_Some Hw ->. pose proof (zget_Some_range _ _ _ He).
    rewrite zget_zset_ne, length_zset, zget_zset_eq by lia. split_and!; try done.
    - intros m Hm. apply zget_zset_ne. lia.
    - rewrite <- Hcopy by lia. done. }
  destruct layout; try done; cbn [WordCount] in *;
    unfold singleJumpWordCount, extensionJumpWordCount, secondExtensionJumpWordCount in *.
  - destruct (setWordOffset _) as [[lo hi]|] eqn:Es; [|done]. injection Hset as <-.
    assert (Hn : zget (zset b n (setBC instr (lo, hi))) n = Some (setBC instr (lo, hi)))
      by (apply zget_zset_eq; by apply zget_Some_range in Hb0).
    exists (setBC instr (lo, hi)). split_and!; try done;
      [by eapply wf_body_zget|by eapply word_layout_index|by rewrite length_zset|].
    intros m Hm. apply zget_zset_ne. lia.
  - destruct (extensionWordAt b (n + 1)) as [ext|] eqn:E1; [|done]. cbn [mbind option_bind] in Hset.
    destruct (setWordOffset _) as [bytes|]; [|done]. injection Hset as Hb.
    destruct (Hext 1 ext (setAB ext bytes)) as (H1 & H2 & H3 & H4 & H5 & H6); try done; try lia.
    { by apply extensionWordAt_Some in E1 as []. }
    exists instr. split_and!; try done. by exists ext, (setAB ext bytes).
  - destruct (extensionWordAt b (n + 1)) as [ext1|] eqn:E1; [|done]. cbn [mbind option_bind] in Hset.
    destruct (extensionWordAt b (n + 2)) as [ext|] eqn:E2; [|done]. cbn [mbind option_bind] in Hset.
    destruct (setWordOffset _) as [bytes|]; [|done]. injection Hset as Hb.
    destruct (Hext 2 ext (setAB ext bytes)) as (H1 & H2 & H3 & H4 & H5 & H6); try done; try lia.
    { by apply extensionWordAt_Some in E2 as []. }
    exists instr. split_and!; try done; [|by exists ext, (setAB ext bytes)].
    rewrite <- Hb, zget_zset_ne by lia. rewrite Hcopy by lia. done.
  - destruct (extensionWordAt b (n + 1)) as [ext|] eqn:E1; [|done]. cbn [mbind option_bind] in Hset.
    destruct (setExtension24Offset _) as [w|] eqn:Es; [|done]. injection Hset as Hb.
    apply setExtension24Offset_Some in Es as (_ & _ & Hw & _).
    destruct (Hext 1 ext w) as (H1 & H2 & H3 & _); try done; try lia. by exists instr.
  - destruct (extensionWordAt b (n + 1)) as [ext|] eqn:E1; [|done]. cbn [mbind option_bind] in Hset.
    destruct (setWordOffset _) as [bytes|]; [|done]. injection Hset as Hb.
    destruct (Hext 1 ext (setBC ext bytes)) as (H1 & H2 & H3 & _); try done; try lia.
    { by apply extensionWordAt_Some in E1 as []. } by exists instr.
Qed.

Lemma inner_no_jump body p i :
  compactable body → instruction_start body p → 0 < i < instructionFootprint body p →
  JumpTargetAt body (p + i) = None.
Proof.
  intros Hc Hst Hi. destruct (cp_inner _ Hc p i Hst Hi) as (w & Hw & Hor). unfold JumpTargetAt. rewrite Hw.
  destruct Hor as [Ho|Hn]; [by rewrite layout_of_extension|]. by apply isCanonicalNop_nop in Hn as ->.
Qed.

(** Every word is in the span of an instruction. *)
Lemma start_covers body q :
  0 <= q < zlen body → ∃ p, instruction_start body p ∧ p <= q < p + instructionFootprint body p.
Proof.
  intros Hq. assert (Hind : ∀ n : nat, ∀ p, instruction_start body p → p <= q → q - p <= Z.of_nat n →
    ∃ p', instruction_start body p' ∧ p' <= q < p' + instructionFootprint body p').
  { induction n as [|n IH]; intros p Hst Hp Hn; pose proof (next_gt body p).
    - exists p. split; [done|lia].
    - destruct (decide (q < p + instructionFootprint body p)); [exists p; split; [done|lia]|].
      apply (IH (p + instructionFootprint body p)); [constructor; [done|lia]|lia|lia]. }
  apply (Hind (Z.to_nat q) 0); [constructor|lia|lia].
Qed.

Lemma jump_is_start body q t : compactable body → JumpTargetAt body q = Some t → instruction_start body q.
Proof.
  intros Hc Ht. assert (Hq : 0 <= q < zlen body).
  { unfold JumpTargetAt in Ht. destruct (zget body q) eqn:Hg; [|done]. by apply zget_Some_range in Hg. }
  destruct (start_covers body q Hq) as (p & Hst & Hp). destruct (decide (q = p)) as [->|]; [done|].
  pose proof (inner_no_jump body p (q - p) Hc Hst ltac:(lia)) as Hno.
  by replace (p + (q - p)) with q in Hno by lia; rewrite Ht in Hno.
Qed.

Section reencode.
Context (old : list Instruction) (Hc : compactable old) (map_ order : list Z).
Context (Hmap : ∀ t v, zget map_ t = Some v → isS 64 v).
Context (Hdistinct : NoDup order) (Hpos : Forall (λ p, 0 <= p) order).
Context (Hspans : ∀ n p i, zget order n = Some p → instruction_start old p →
  0 <= i < instructionFootprint old p → zget order (n + i) = Some (p + i)).

Definition copied (b : list Instruction) (n p : Z) : Prop :=
  ∀ i, 0 <= i < instructionFootprint old p → zget b (n + i) = zget old (p + i).

Definition recoded (b : list Instruction) (n p : Z) : Prop :=
  ∃ instr instr' t t', zget old p = Some instr ∧ zget b n = Some instr' ∧ wf_instruction instr' ∧
    flatDispatchIndex instr' = flatDispatchIndex instr ∧ relocated old b p n instr instr' ∧
    JumpTargetAt old p = Some t ∧ zget map_ t = Some t' ∧ JumpTargetAt b n = Some t'.

(** The jumps at new places before [cur] are re-encoded, the others copied. *)
Record reencoded (cur : Z) (b : list Instruction) : Prop := {
  re_wf : wf_body b;
  re_copied n p : zget order n = Some p → instruction_start old p →
    JumpTargetAt old p = None ∨ cur <= n → copied b n p;
  re_recoded n p : zget order n = Some p → instruction_start old p →
    is_Some (JumpTargetAt old p) → n < cur → recoded b n p;
}.

Lemma order_inj n m p : zget order n = Some p → zget order m = Some p → n = m.
Proof.
  intros Hn Hm. pose proof (zget_Some_range _ _ _ Hn). pose proof (zget_Some_range _ _ _ Hm).
  rewrite zget_lookup in Hn, Hm by lia. pose proof (NoDup_lookup _ _ _ _ Hdistinct Hn Hm). lia.
Qed.

(** The spans of two placed instructions do not meet. *)
Lemma spans_apart n p m q i j :
  zget order n = Some p → zget order m = Some q → instruction_start old p → instruction_start old q →
  n ≠ m → 0 <= i < instructionFootprint old p → 0 <= j < instructionFootprint old q → n + i ≠ m + j.
Proof.
  intros Hn Hm Hp Hq Hne Hi Hj Heq. pose proof (Hspans _ _ _ Hn Hp Hi) as H1.
  pose proof (Hspans _ _ _ Hm Hq Hj) as H2. rewrite Heq, H2 in H1. injection H1 as H1.
  destruct (Z.lt_trichotomy p q) as [Hlt|[->|Hlt]].
  - pose proof (start_order old p q Hp Hq Hlt). lia.
  - apply Hne. by eapply order_inj.
  - pose proof (start_order old q p Hq Hp Hlt). lia.
Qed.

Lemma relocated_other b b' n p instr instr' t :
  zget old p = Some instr → JumpTargetAt old p = Some t →
  (∀ i, 0 <= i < instructionFootprint old p → zget b' (n + i) = zget b (n + i)) →
  relocated old b p n instr instr' → relocated old b' p n instr instr'.
Proof.
  intros Hg Ht Heq. destruct (jump_span _ _ _ _ Hg Ht) as [Hne Hfoot]. rewrite Hfoot in Heq.
  unfold relocated. destruct (JumpLayoutOf instr) as [layout nops] eqn:El.
  destruct (layout_nops _ _ _ El) as [Hn0 _]. cbn [fst snd] in *.
  unfold JumpTargetAt in Ht. rewrite Hg, El in Ht.
  destruct layout; try done; cbn [WordCount] in Heq;
    unfold singleJumpWordCount, extensionJumpWordCount, secondExtensionJumpWordCount in Heq.
  - by rewrite Heq by lia.
  - by rewrite !Heq by lia.
Qed.

Lemma reencode_step cur b q t target b' :
  reencoded cur b → zget order cur = Some q → JumpTargetAt old q = Some t → zget map_ t = Some target →
  SetJumpTarget b cur target = Some b' → reencoded (cur + 1) b'.
Proof.
  intros [Hwf Hcp Hrec] Hq Ht Htarget Hset. pose proof (wk_wf _ (cp_walkable _ Hc)) as Hwo.
  pose proof (jump_is_start _ _ _ Hc Ht) as Hst.
  destruct (zget old q) as [instr|] eqn:Hg; [|unfold JumpTargetAt in Ht; by rewrite Hg in Ht].
  assert (Hcopy : copied b cur q) by (apply Hcp; [done|done|by right]).
  destruct (SetJumpTarget_relocated old b q cur instr t target b' Hwo Hwf (Hmap _ _ Htarget) Hcopy Hg Ht Hset)
    as (instr' & Hi' & Hwi' & Hidx & Hrel & Hlen & Hother).
  pose proof (SetJumpTarget_inv _ _ _ _ Hwf (Hmap _ _ Htarget) Hset) as Hjr.
  destruct (jump_rewritten_words _ _ _ _ Hwf Hjr) as [Hwf' _].
  assert (Hkeep : ∀ n p, zget order n = Some p → instruction_start old p → n ≠ cur →
    ∀ i, 0 <= i < instructionFootprint old p → zget b' (n + i) = zget b (n + i)).
  { intros n p Hn Hp Hne i Hi. apply Hother. intros Hin.
    apply (spans_apart n p cur q i (n + i - cur)); try done; lia. }
  split; [done| |].
  - intros n p Hn Hp Hor i Hi. destruct (decide (n = cur)) as [->|Hne].
    { rewrite Hq in Hn. injection Hn as <-. destruct Hor as [Hno|]; [congruence|lia]. }
    rewrite (Hkeep n p) by done. apply (Hcp n p); [done|done| |done]. destruct Hor; [by left|right; lia].
  - intros n p Hn Hp Hj Hlt. destruct (decide (n = cur)) as [->|Hne].
    + rewrite Hq in Hn. injection Hn as <-. exists instr, instr', t, target. split_and!; try done.
      by apply (jump_rewritten_target b cur target).
    + destruct (Hrec n p Hn Hp Hj ltac:(lia)) as (i0 & i1 & t0 & t1 & H1 & H2 & H3 & H4 & H5 & H6 & H7 & H8).
      exists i0, i1, t0, t1. pose proof (instructionFootprint_pos old p). split_and!; try done.
      * rewrite <- H2. rewrite <- (Z.add_0_r n) at 1 2. apply (Hkeep n p); [done|done|done|lia].
      * eapply (relocated_other b); [exact H1|exact H6| |exact H5]. by apply Hkeep.
      * by rewrite (jump_rewritten_frame b cur target b' n Hwf Hjr Hne).
Qed.

Lemma reencode_spec os cur b b' :
  reencode old map_ os cur b = Some (Some b') → 0 <= cur → drop (Z.to_nat cur) order = os →
  reencoded cur b → reencoded (zlen order) b'.
Proof.
  revert cur b. induction os as [|q os IH]; intros cur b; cbn [reencode].
  - intros [= ->] Hcur Hdrop [Hwf Hcp Hrec]. apply (f_equal length) in Hdrop. rewrite length_drop in Hdrop. cbn in Hdrop.
    split; [done| |]; intros n p Hn Hp.
    + intros Hor. apply Hcp; [done|done|]. destruct Hor as [|Hor]; [by left|].
      apply zget_Some_range in Hn. lia.
    + intros Hj Hlt. apply Hrec; try done. lia.
  - intros Hrun Hcur Hdrop Hre.
    assert (Hq : zget order cur = Some q).
    { rewrite zget_lookup by lia. rewrite <- (Nat.add_0_r (Z.to_nat cur)), <- lookup_drop, Hdrop. done. }
    assert (Hdrop' : drop (Z.to_nat (cur + 1)) order = os).
    { replace (Z.to_nat (cur + 1)) with (Z.to_nat cur + 1)%nat by lia. by rewrite <- drop_drop, Hdrop. }
    assert (0 <= q).
    { rewrite Forall_forall in Hpos. apply Hpos, elem_of_zget. by exists cur. }
    rewrite (proj2 (Z.ltb_ge q 0)) in Hrun by done.
    destruct (JumpTargetAt old q) as [t|] eqn:Ht.
    + destruct (zget map_ t) as [target|] eqn:Htarget; [|done]. cbn [mbind option_bind] in Hrun.
      destruct (SetJumpTarget b cur target) as [b1|] eqn:Hset; [|done].
      apply (IH (cur + 1) b1); [done|lia|done|]. by eapply reencode_step.
    + apply (IH (cur + 1) b); [done|lia|done|]. destruct Hre as [Hwf Hcp Hrec]. split; [done| |].
      * intros n p Hn Hp Hor. apply Hcp; [done|done|]. destruct Hor; [by left|right; lia].
      * intros n p Hn Hp Hj Hlt. destruct (decide (n = cur)) as [->|]; [|apply Hrec; [done..|lia]].
        rewrite Hq in Hn. injection Hn as <-. rewrite Ht in Hj. by destruct Hj.
Qed.
End reencode.
