(* ===== verification/CompactWords.v ===== *)
(** * The words of the rebuilt body

    What a round knows of the body it reads, where the words that are kept
    stand after the rebuild, and why no block moves away from words that run
    into it. *)

From S2P Require Import Prelude SafeConv Register Opcode Instruction Shapes Spec JumpLayout Jumps.
From S2P Require Import Extension Function Builder Verify VerifySound Machine MachineSafe MachineFlow.
From S2P Require Import FuseNarrow PassFacts Ranges RangesSolve Dominators Relocate.
From S2P Require Import Compact CompactMarks CompactPlace CompactRecode.

(** ** Words before a block *)

(** Every word from [p] to [q] is marked. *)
Definition gap (marks : list bool) (p q : Z) : Prop := ∀ w, p <= w < q → marked marks w.

(** Control that enters at [p] does not run through marked words into a block
    that moves. *)
Definition clean (marks : list bool) (blocks : gmap Z straightBlock) (p : Z) : Prop :=
  ∀ j b, blocks !! j = Some b → p < start b → ¬ gap marks p (start b).

Section previous.
Context (body : list Instruction) (dead : list bool).

Lemma walk_dead from limit previous :
  instruction_start body from → limit <= zlen body →
  (∀ q, from <= q < limit → instruction_start body q → marked dead q) →
  foldl (λ previous start, if bool_decide (zget dead start = Some false) then start else previous)
    previous (walk body from limit) = previous.
Proof.
  remember (Z.to_nat (limit - from)) as n eqn:Hn. revert from Hn.
  induction (lt_wf n) as [n _ IH]. intros from -> Hst Hl Hdead.
  destruct (Z.le_gt_cases limit from); [by rewrite walk_nil|]. rewrite walk_cons by done. cbn [foldl].
  pose proof (next_gt body from). rewrite bool_decide_eq_false_2; [|rewrite Hdead by (done || lia); done].
  apply (IH (Z.to_nat (limit - (from + instructionFootprint body from))) ltac:(lia) _ eq_refl); [|done|].
  - constructor; [done|lia].
  - intros q Hq. apply Hdead. lia.
Qed.

(** The last live instruction before [pc]. *)
Lemma previousLive_at r pc :
  instruction_start body r → r < pc → pc <= zlen body → zget dead r = Some false →
  (∀ q, r < q < pc → instruction_start body q → marked dead q) → previousLive body dead pc = r.
Proof.
  intros Hst Hlt Hl Hlive Hdead. unfold previousLive.
  assert (Hind : ∀ n from previous, n = Z.to_nat (r - from) → instruction_start body from → from <= r →
    foldl (λ previous start, if bool_decide (zget dead start = Some false) then start else previous)
      previous (walk body from pc) = r).
  { intros n. induction (lt_wf n) as [n _ IH]. intros from previous -> Hfrom Hle.
    pose proof (next_gt body from). rewrite walk_cons by lia. cbn [foldl].
    destruct (decide (from = r)) as [->|Hne].
    - rewrite bool_decide_eq_true_2 by done. apply walk_dead; [by constructor; [|lia]|done|].
      intros q Hq. apply Hdead. lia.
    - pose proof (start_order body from r Hfrom Hst ltac:(lia)).
      apply (IH (Z.to_nat (r - (from + instructionFootprint body from))) ltac:(lia)); [done| |lia].
      constructor; [done|lia]. }
  apply (Hind (Z.to_nat (r - 0)) 0); [done|constructor|]. by apply (start_nonneg body).
Qed.

Lemma fallsInto_live r pc inst :
  instruction_start body r → r < pc → pc <= zlen body → zget dead r = Some false →
  (∀ q, r < q < pc → instruction_start body q → marked dead q) →
  zget body r = Some inst → fallsInto body dead pc = false →
  IsReturnInstruction inst = true ∨ InstrIsTier1SubOp inst SubOpJump = true.
Proof.
  intros Hst Hlt Hl Hlive Hdead Hg. unfold fallsInto. rewrite (previousLive_at r pc) by done.
  pose proof (zget_Some_range _ _ _ Hg). rewrite (proj2 (Z.ltb_ge r 0)) by lia. rewrite Hg.
  intros Hf. apply andb_false_iff in Hf as [Hf|Hf]; apply negb_false_iff in Hf; auto.
Qed.
End previous.

(** ** What is known of a plan *)

(** What one round of the compaction knows of a body it reads: the marks, the
    words that go, the blocks that move; and no jump leads to marked words just
    before such a block. *)
Record plan_ok (body : list Instruction) (marks dead : list bool) (blocks : gmap Z straightBlock) : Prop := {
  po_compactable : compactable body;
  po_marks : markDeadWords body = Some marks;
  po_length : length dead = length body;
  po_subset pc : marked dead pc → marked marks pc;
  po_apart : ∃ claimed, apart body dead claimed blocks;
  po_jump j b : blocks !! j = Some b → ¬ marked marks j;
  po_gap j b : blocks !! j = Some b → ¬ gap marks (j + 1) (start b);
  po_end j b : blocks !! j = Some b → ¬ marked marks (end_ b);
  po_clean t : t ∈ JumpTargetsOf body → clean marks blocks t;
}.

Section plan.
Context (body : list Instruction) (marks dead : list bool) (blocks : gmap Z straightBlock).
Context (Hok : plan_ok body marks dead blocks).

Lemma good j b : blocks !! j = Some b → good_block body dead j b.
Proof. intros Hb. destruct (po_apart _ _ _ _ Hok) as [claimed Ha]. by apply (ap_good _ _ _ _ Ha). Qed.

Lemma disjoint j b j' b' pc :
  blocks !! j = Some b → blocks !! j' = Some b' → start b <= pc <= end_ b →
  pc ≠ j' ∧ (start b' <= pc <= end_ b' → j = j').
Proof.
  intros Hb Hb' Hpc. pose proof (gb_after _ _ _ _ (good _ _ Hb)).
  destruct (po_apart _ _ _ _ Hok) as [claimed Ha]. destruct (decide (j = j')) as [<-|Hne]; [split; [lia|done]|].
  destruct (ap_apart _ _ _ _ Ha j b j' b' pc Hb Hb' Hne Hpc). tauto.
Qed.

Lemma marks_ok : marks_skip body marks.
Proof. apply markDeadWords_skips, (po_marks _ _ _ _ Hok). Qed.

Lemma marked_range p : marked marks p → 0 <= p < zlen body.
Proof. intros Hm%zget_Some_range. by rewrite (ms_length _ _ marks_ok) in Hm. Qed.

Lemma live_or_dead p : 0 <= p < zlen body → zget dead p = Some false ∨ marked dead p.
Proof.
  intros Hp. destruct (zget_is_Some dead p) as [[] Hd]; [rewrite (po_length _ _ _ _ Hok); lia|right|left]; done.
Qed.

Lemma unmarked_live p : 0 <= p < zlen body → ¬ marked marks p → zget dead p = Some false.
Proof.
  intros Hp Hm. destruct (live_or_dead p Hp) as [|Hd]; [done|]. by destruct Hm; apply (po_subset _ _ _ _ Hok).
Qed.

Lemma target_of pc t : isJump body pc t → t ∈ JumpTargetsOf body.
Proof. intros [_ Ht]. by eapply JumpTargetAt_elem. Qed.

Lemma end_range j b : blocks !! j = Some b → 0 <= j ∧ j + 1 < start b ∧ start b <= end_ b < zlen body.
Proof.
  intros Hb. pose proof (good _ _ Hb) as Hg. pose proof (gb_after _ _ _ _ Hg). pose proof (gb_range _ _ _ _ Hg).
  pose proof (start_nonneg _ _ (gb_start _ _ _ _ Hg)). split_and!; lia.
Qed.

(** The words before a block that are marked all go: the last of them kept
    would be a jump out of the gap. *)
Lemma gap_dead j b q0 : blocks !! j = Some b → gap marks q0 (start b) → gap dead q0 (start b).
Proof.
  intros Hb Hgap. pose proof (good _ _ Hb) as Hg. destruct (end_range _ _ Hb) as (Hj & Hjs & Hse).
  assert (Hind : ∀ k : nat, ∀ w, start b - Z.of_nat k <= w < start b → q0 <= w → marked dead w).
  { induction k as [|k IH]; intros w Hw Hq; [lia|].
    destruct (decide (start b - Z.of_nat k <= w)); [apply IH; lia|].
    pose proof (Hgap w ltac:(lia)) as Hm. pose proof (marked_range _ Hm).
    destruct (live_or_dead w) as [Hlive|]; [done| |done]. exfalso.
    destruct (ms_single _ _ marks_ok _ Hm) as [Hst _].
    assert (Hin : ∀ inst, zget body w = Some inst →
      IsReturnInstruction inst = true ∨ InstrIsTier1SubOp inst SubOpJump = true).
    { intros inst Hi. apply (fallsInto_live body dead w (start b)); try done; try lia; [|apply Hg].
      intros q Hqw _. apply IH; lia. }
    destruct (ms_skips _ _ marks_ok _ Hm) as [(inst & Hi & Hn)|(t & Ht & Hlt & Hall)].
    { apply isCanonicalNop_nop in Hn as ->. destruct (Hin _ Hi) as [H'|H']; discriminate H'. }
    destruct (Z.lt_ge_cases t (start b)).
    { apply (po_clean _ _ _ _ Hok t (target_of _ _ Ht) j b Hb); [done|]. intros q Hqt. apply Hgap. lia. }
    destruct (Z.le_gt_cases t (end_ b)).
    - destruct (gb_entered _ _ _ _ Hg t w) as [|[-> _]]; [lia|apply Ht|lia|].
      by apply (po_jump _ _ _ _ Hok _ _ Hb).
    - apply (po_end _ _ _ _ Hok _ _ Hb), Hall. lia. }
  intros w Hw. apply (Hind (Z.to_nat (start b - q0)) w); lia.
Qed.

(** The words after a jump that goes do not lead into a block. *)
Lemma no_block_after j b j' b' :
  blocks !! j = Some b → blocks !! j' = Some b' → j + 1 <= start b' → ¬ gap marks (j + 1) (start b').
Proof.
  intros Hb Hb' Hle Hgap. destruct (decide (j = j')) as [<-|Hne].
  { rewrite Hb in Hb'. injection Hb' as <-. by apply (po_gap _ _ _ _ Hok j b). }
  pose proof (gap_dead _ _ _ Hb' Hgap) as Hdead. destruct (end_range _ _ Hb'), (end_range _ _ Hb).
  destruct (gb_back _ _ _ _ (good _ _ Hb)) as (back & t & Hback & Ht & Hland).
  apply nextLiveWord_spec in Hback as (_ & Hb1 & Hb2 & Hb3 & _), Hland as (_ & Ht1 & Ht2 & _ & _).
  pose proof (po_length _ _ _ _ Hok).
  assert (start b' <= back).
  { destruct (Z.le_gt_cases (start b') back); [done|]. pose proof (Hdead back ltac:(lia)) as Hd.
    unfold marked in Hd. destruct Hb3; [lia|congruence]. }
  assert (back <= end_ b').
  { destruct (Z.le_gt_cases back (end_ b')); [done|].
    destruct (po_end _ _ _ _ Hok _ _ Hb'). apply (po_subset _ _ _ _ Hok), Hb2. lia. }
  destruct (Z.lt_ge_cases t (start b')).
  { apply (po_clean _ _ _ _ Hok t (target_of _ _ Ht) j' b' Hb'); [done|]. intros q Hq.
    apply (po_subset _ _ _ _ Hok), Ht2. lia. }
  destruct (disjoint j b j' b' (end_ b) Hb Hb' ltac:(lia)) as [Hnj Hsame].
  destruct (gb_entered _ _ _ _ (good _ _ Hb') t (end_ b)) as [Hr|[He _]]; [lia|apply Ht|by auto|by auto].
Qed.

(** ** The words in order *)

#[local] Notation order := (orderOf dead blocks 0 (zlen body)).
#[local] Notation after p k q := (comes_after body dead blocks p k q).

Definition ordinary (p : Z) : Prop := ∀ j b, blocks !! j = Some b → p ≠ j ∧ p ≠ end_ b.

Lemma unmarked_words p : marked marks p → ordinary p.
Proof.
  intros Hm j b Hb. split; intros ->; [by apply (po_jump _ _ _ _ Hok j b)|by apply (po_end _ _ _ _ Hok j b)].
Qed.

Lemma block_starts j b :
  blocks !! j = Some b → instruction_start body j ∧ instruction_start body (start b) ∧ instruction_start body (end_ b).
Proof.
  intros Hb. pose proof (good _ _ Hb) as Hg. destruct (end_range _ _ Hb) as (_ & _ & Hr).
  assert (Hs : instruction_start body (start b)).
  { apply (wk_targets _ (cp_walkable _ (po_compactable _ _ _ _ Hok))); [|lia]. eapply target_of, Hg. }
  split_and!; [apply Hg|done|]. by eapply elem_of_walk_start; [|apply Hg|].
Qed.

(** No instruction starts inside another. *)
Lemma inner_word p i :
  instruction_start body p → 0 < i < instructionFootprint body p → ¬ instruction_start body (p + i).
Proof. intros Hp Hi Hin. pose proof (start_order body p (p + i) Hp Hin ltac:(lia)). lia. Qed.

(** The word after an ordinary one comes next, unless it starts a block. *)
Lemma after_ordinary p :
  0 <= p < zlen body → ordinary p → (∀ j b, blocks !! j = Some b → p + 1 ≠ start b) →
  after p (livePC dead p) (p + 1).
Proof.
  intros Hp Hord Hnext. destruct (po_apart _ _ _ _ Hok) as [claimed Ha].
  pose proof (po_length _ _ _ _ Hok) as Hlen.
  destruct (decide (p ∈ movedWords blocks)) as [(j & b & Hb & Hr)%elem_of_moved|Hm].
  - destruct (Hord _ _ Hb). eapply (after_inside body dead claimed blocks Ha Hlen j b); [done|lia].
  - apply after_plain; [done|done|done| |].
    + destruct (blocks !! p) as [b|] eqn:Hb; [|done]. by destruct (Hord _ _ Hb).
    + intros (j & b & Hb & Hr)%elem_of_moved. apply Hm, elem_of_moved. exists j, b. split; [done|].
      pose proof (Hnext _ _ Hb). lia.
Qed.

(** A marked word that control may enter at is followed by the next one, which
    control may enter at too. *)
Lemma clean_next p : clean marks blocks p → marked marks p →
  after p (livePC dead p) (p + 1) ∧ clean marks blocks (p + 1).
Proof.
  intros Hcl Hm. pose proof (marked_range _ Hm). split.
  - apply after_ordinary; [done|by apply unmarked_words|]. intros j b Hb Heq.
    apply (Hcl j b Hb); [lia|]. intros w Hw. by replace w with p by lia.
  - intros j b Hb Hlt Hgap. apply (Hcl j b Hb); [lia|]. intros w Hw.
    destruct (decide (w = p)) as [->|]; [done|]. apply Hgap. lia.
Qed.

Lemma clean_gap p q : clean marks blocks p → p <= q → gap marks p q → clean marks blocks q.
Proof.
  intros Hcl Hle Hgap j b Hb Hlt Hg. apply (Hcl j b Hb); [lia|]. intros w Hw.
  destruct (Z.lt_ge_cases w q); [apply Hgap|apply Hg]; lia.
Qed.

Lemma word_cases p : 0 <= p < zlen body →
  ordinary p ∨ (∃ b, blocks !! p = Some b) ∨ ∃ j b, blocks !! j = Some b ∧ p = end_ b.
Proof.
  intros Hp. destruct (blocks !! p) as [b|] eqn:Hb; [right; left; by exists b|].
  destruct (decide (p ∈ movedWords blocks)) as [(j & b & Hj & Hr)%elem_of_moved|Hm].
  - destruct (decide (p = end_ b)) as [->|Hne]; [right; right; by exists j, b|left].
    intros j' b' Hj'. split; [congruence|]. intros ->. destruct (end_range _ _ Hj') as (_ & _ & ?).
    destruct (disjoint j b j' b' (end_ b') Hj Hj' Hr) as [_ Hsame]. specialize (Hsame ltac:(lia)). subst j'.
    congruence.
  - left. intros j b Hj. split; [congruence|]. intros ->. apply Hm, elem_of_moved.
    destruct (end_range _ _ Hj) as (_ & _ & ?). exists j, b. split; [done|lia].
Qed.

Lemma order_covers p : 0 <= p < zlen body → ∃ k, (p, k) ∈ order.
Proof.
  intros Hp. destruct (po_apart _ _ _ _ Hok) as [claimed Ha]. pose proof (po_length _ _ _ _ Hok) as Hlen.
  destruct (word_cases p Hp) as [Hord|[[b Hb]|(j & b & Hb & ->)]].
  - exists (livePC dead p). by eapply (order_has body dead claimed blocks Ha Hlen).
  - exists false. eapply (comes_after_in body dead), (after_jump body dead claimed blocks Ha Hlen). exact Hb.
  - exists false. by eapply (end_in_order body dead claimed blocks Ha Hlen j).
Qed.

Lemma live_in_order p : 0 <= p < zlen body → ordinary p → zget dead p = Some false → (p, true) ∈ order.
Proof.
  intros Hp Hord Hlive. destruct (po_apart _ _ _ _ Hok) as [claimed Ha].
  pose proof (order_has body dead claimed blocks Ha (po_length _ _ _ _ Hok) p Hp Hord) as Hin.
  unfold livePC in Hin. by rewrite bool_decide_eq_true_2 in Hin.
Qed.

Lemma in_order_live p : (p, true) ∈ order → 0 <= p < zlen body ∧ zget dead p = Some false ∧ ordinary p.
Proof.
  destruct (po_apart _ _ _ _ Hok) as [claimed Ha].
  apply (order_kept body dead claimed blocks Ha (po_length _ _ _ _ Hok)).
Qed.

Lemma elem_of_kept p l : p ∈ kept l ↔ (p, true) ∈ l.
Proof.
  unfold kept. rewrite list_elem_of_In, in_map_iff. split.
  - intros ([q k] & <- & Hin%list_elem_of_In). apply list_elem_of_filter in Hin as [Hk Hin]. cbn in *. by subst.
  - intros Hin. exists (p, true). split; [done|]. by apply list_elem_of_In, list_elem_of_filter.
Qed.

Lemma NoDup_kept : NoDup (kept order).
Proof.
  destruct (po_apart _ _ _ _ Hok) as [claimed Ha]. apply (sublist_NoDup _ (map fst order)).
  - apply (NoDup_order body dead claimed blocks Ha (po_length _ _ _ _ Hok)).
  - unfold kept. apply fmap_sublist, sublist_filter.
Qed.

Lemma kept_bound : zlen (kept order) <= zlen body.
Proof.
  assert (Hs : kept order ⊆+ seqZ 0 (zlen body)).
  { apply NoDup_submseteq; [apply NoDup_kept|]. intros p (Hr & _)%elem_of_kept%in_order_live.
    apply elem_of_seqZ. lia. }
  apply submseteq_length in Hs. rewrite length_seqZ in Hs. lia.
Qed.
End plan.

Lemma SetJumpTarget_length body pc target body' :
  SetJumpTarget body pc target = Some body' → length body' = length body.
Proof.
  unfold SetJumpTarget, setExtension24Offset. intros H.
  repeat match type of H with
  | context [match ?m with _ => _ end] => destruct m
  | context [mbind _ ?m] => destruct m; cbn [mbind option_bind] in H
  end; try done; injection H as <-; by rewrite length_zset.
Qed.

Lemma reencode_length old map_ os cur b b' :
  reencode old map_ os cur b = Some (Some b') → length b' = length b.
Proof.
  revert cur b. induction os as [|q os IH]; intros cur b; cbn [reencode]; [by intros [= ->]|].
  case_if; [apply IH|]. destruct (JumpTargetAt old q) as [t|]; [|apply IH].
  destruct (zget map_ t) as [t'|]; [|done]. cbn [mbind option_bind].
  destruct (SetJumpTarget b cur t') as [b1|] eqn:Hs; [|done]. intros ->%IH. by eapply SetJumpTarget_length.
Qed.

(** ** The rebuilt body *)

Section rebuilt.
Context (body : list Instruction) (marks dead : list bool) (blocks : gmap Z straightBlock).
Context (Hok : plan_ok body marks dead blocks).

#[local] Notation order := (orderOf dead blocks 0 (zlen body)).
#[local] Notation after p k q := (comes_after body dead blocks p k q).
#[local] Notation ordinary p := (ordinary blocks p).

Context (r : bodyRewrite) (Hplaced : placed body order r).
Context (body' : list Instruction)
  (Hre : reencode body (newPC (finish r)) (origin r) 0 (rbody r) = Some (Some body')).

#[local] Notation new p := (zget (newPC (finish r)) p).

Lemma new_step p k q : after p k q → ∃ n, new p = Some n ∧ new q = Some (n + if k then 1 else 0).
Proof.
  destruct (po_apart _ _ _ _ Hok) as [claimed Ha].
  apply (new_after body dead claimed blocks Ha (po_length _ _ _ _ Hok) r Hplaced).
Qed.

Lemma new_place p : (p, true) ∈ order → ∃ n, new p = Some n ∧
  zget (origin r) n = Some p ∧ ∃ w, zget body p = Some w ∧ zget (rbody r) n = Some w.
Proof.
  destruct (po_apart _ _ _ _ Hok) as [claimed Ha].
  apply (new_kept body dead claimed blocks Ha (po_length _ _ _ _ Hok) r Hplaced).
Qed.

Lemma new_defined p : 0 <= p <= zlen body → ∃ n, new p = Some n ∧ 0 <= n <= zlen (kept order).
Proof.
  intros Hp. destruct (po_apart _ _ _ _ Hok) as [claimed Ha]. pose proof (po_length _ _ _ _ Hok) as Hlen.
  destruct (decide (p = zlen body)) as [->|].
  { exists (zlen (kept order)). split; [by apply (new_end body dead blocks Hlen)|lia]. }
  destruct (order_covers body marks dead blocks Hok p ltac:(lia)) as [k (pre & post & Heq)%list_elem_of_split].
  exists (zlen (kept pre)). split; [by apply (new_at body dead claimed blocks Ha Hlen r Hplaced pre p k post)|].
  rewrite Heq, kept_app, length_app. lia.
Qed.

Lemma new_word t v : new t = Some v → isS 64 v.
Proof.
  intros Hv. pose proof (zget_Some_range _ _ _ Hv) as Hr. unfold finish in Hr. cbn [newPC] in Hr.
  rewrite length_zset, (pl_map _ _ _ Hplaced) in Hr.
  destruct (new_defined t ltac:(lia)) as (n & Hn & Hb). rewrite Hv in Hn. injection Hn as <-.
  pose proof (kept_bound body marks dead blocks Hok).
  destruct (wk_wf _ (cp_walkable _ (po_compactable _ _ _ _ Hok))). unfold isS. lia.
Qed.

(** The words of an instruction that is kept go together. *)
Lemma new_span p : instruction_start body p → (p, true) ∈ order → ∃ n, new p = Some n ∧
  ∀ i, 0 <= i < instructionFootprint body p → (p + i, true) ∈ order ∧ new (p + i) = Some (n + i).
Proof.
  intros Hst Hin. destruct (new_place p Hin) as (n & Hn & _). exists n. split; [done|].
  assert (Hind : ∀ i : nat, Z.of_nat i < instructionFootprint body p →
    (p + Z.of_nat i, true) ∈ order ∧ new (p + Z.of_nat i) = Some (n + Z.of_nat i)).
  { induction i as [|i IH]; intros Hi; [by rewrite !Z.add_0_r|].
    destruct (IH ltac:(lia)) as [Hin' Hn']. destruct (in_order_live _ _ _ _ Hok _ Hin') as (Hr & Hl & Hord).
    assert (Hno : ¬ instruction_start body (p + Z.of_nat (S i))) by (apply inner_word; [done|lia]).
    replace (p + Z.of_nat (S i)) with (p + Z.of_nat i + 1) in * by lia.
    assert (Ha : after (p + Z.of_nat i) true (p + Z.of_nat i + 1)).
    { rewrite <- (bool_decide_eq_true_2 _ Hl). apply (after_ordinary body marks); [done|lia|done|].
      intros j b Hb Heq. apply Hno. rewrite Heq. by eapply block_starts. }
    destruct (new_step _ _ _ Ha) as (n' & Hn1 & Hn2). split; [|rewrite Hn2; f_equal; rewrite Hn' in Hn1;
      injection Hn1; lia].
    destruct (cp_inner _ (po_compactable _ _ _ _ Hok) p (Z.of_nat (S i)) Hst ltac:(lia)) as (w & Hw & _).
    replace (p + Z.of_nat (S i)) with (p + Z.of_nat i + 1) in * by lia. apply zget_Some_range in Hw.
    apply (live_in_order body marks dead blocks); [done|lia| |].
    - intros j b Hb. destruct (block_starts _ _ _ _ Hok _ _ Hb) as (? & _ & ?). split; congruence.
    - apply (unmarked_live body marks dead blocks); [done|lia|]. intros Hm. apply Hno.
      by apply (ms_single _ _ (marks_ok _ _ _ _ Hok)). }
  intros i Hi. specialize (Hind (Z.to_nat i)). rewrite Z2Nat.id in Hind by lia. apply Hind. lia.
Qed.

Lemma origin_at n p : zget (origin r) n = Some p → (p, true) ∈ order ∧ new p = Some n.
Proof.
  intros Hn. assert (Hin : (p, true) ∈ order).
  { apply elem_of_kept. rewrite <- (pl_origin _ _ _ Hplaced). apply elem_of_zget. by exists n. }
  split; [done|]. destruct (new_place p Hin) as (n' & Hn' & Ho & _). rewrite Hn'. f_equal.
  eapply (order_inj (origin r)); [|exact Ho|exact Hn].
  rewrite (pl_origin _ _ _ Hplaced). by apply (NoDup_kept body marks).
Qed.

Lemma origin_spans n p i : zget (origin r) n = Some p → instruction_start body p →
  0 <= i < instructionFootprint body p → zget (origin r) (n + i) = Some (p + i).
Proof.
  intros [Hin Hn]%origin_at Hst Hi. destruct (new_span p Hst Hin) as (n' & Hn' & Hspan).
  rewrite Hn in Hn'. injection Hn' as <-. destruct (Hspan i Hi) as [Hin' Hnew].
  destruct (new_place _ Hin') as (m & Hm & Ho & _). rewrite Hnew in Hm. by injection Hm as <-.
Qed.

Lemma rebuilt_recoded : reencoded body (newPC (finish r)) (origin r) (zlen (origin r)) body'.
Proof.
  pose proof (wk_wf _ (cp_walkable _ (po_compactable _ _ _ _ Hok))) as Hwf.
  apply (reencode_spec body (po_compactable _ _ _ _ Hok) _ _ new_word) with (os := origin r) (cur := 0) (b := rbody r);
    [| |apply origin_spans|done|done|done|].
  - rewrite (pl_origin _ _ _ Hplaced). by apply (NoDup_kept body marks).
  - rewrite (pl_origin _ _ _ Hplaced). apply Forall_forall. intros p (Hr & _)%elem_of_kept%(in_order_live _ _ _ _ Hok). lia.
  - split.
    + split.
      * apply Forall_forall. intros w [n Hw]%elem_of_zget. pose proof (zget_Some_range _ _ _ Hw) as Hr.
        rewrite (pl_length _ _ _ Hplaced) in Hr. destruct (zget_is_Some _ _ Hr) as [p Hp].
        destruct (pl_words _ _ _ Hplaced _ _ Hp) as (w' & Hw' & Hn). rewrite Hw in Hn. injection Hn as <-.
        by eapply wf_body_zget.
      * pose proof (kept_bound body marks dead blocks Hok). destruct Hwf.
        rewrite (pl_length _ _ _ Hplaced), (pl_origin _ _ _ Hplaced). lia.
    + intros n p Hn Hst _ i Hi. pose proof (origin_spans n p i Hn Hst Hi) as Ho.
      destruct (pl_words _ _ _ Hplaced _ _ Ho) as (w & Hw & Hw'). congruence.
    + intros n p Hn _ _ Hlt. apply zget_Some_range in Hn. lia.
Qed.

Lemma rebuilt_length : zlen body' = zlen (kept order).
Proof. by rewrite (reencode_length _ _ _ _ _ _ Hre), (pl_length _ _ _ Hplaced), (pl_origin _ _ _ Hplaced). Qed.
End rebuilt.
