(* ===== verification/CompactRun.v ===== *)
(** * Runs that meet again and again

    Two bodies that do the same work at other places: each run passes silently
    over words that do nothing, and meets the other at the same instruction.
    Where one finishes, so does the other, and alike. *)

From S2P Require Import Prelude SafeConv Register Opcode Instruction Shapes Spec JumpLayout Jumps.
From S2P Require Import Extension Function Builder Verify VerifySound Machine MachineSafe MachineFlow.
From S2P Require Import FuseNarrow PassFacts Ranges RangesSolve Dominators Relocate.
From S2P Require Import Compact CompactMarks.

(** ** Running through words that do nothing *)

Inductive silent (body : list Instruction) : Z → Z → Prop :=
  | silent_here p : silent body p p
  | silent_nop p q : zget body p = Some nop → silent body (p + 1) q → silent body p q
  | silent_jump p t q : isJump body p t → silent body t q → silent body p q.

Lemma silent_trans body p q s : silent body p q → silent body q s → silent body p s.
Proof. induction 1; [done| |]; intros; [eapply silent_nop|eapply silent_jump]; eauto. Qed.

Definition finishes (f : CompiledFunction) (x : CallFrame) (out : outcome) : Prop :=
  out ≠ stillRunning ∧ ∃ fuel, execute fuel f x = out.

Lemma execute_more fuel n f x : execute fuel f x ≠ stillRunning → execute (fuel + n) f x = execute fuel f x.
Proof.
  revert x. induction fuel as [|fuel IH]; intros x; [done|]. cbn [execute plus].
  destruct (zlen (Body f) <=? ProgramCounter x); [done|].
  destruct (dispatchStep f x) as [[y| | |]|]; try done. apply IH.
Qed.

Lemma finishes_unique f x out out' : finishes f x out → finishes f x out' → out = out'.
Proof.
  intros [Hne [n <-]] [Hne' [n' <-]]. rewrite <- (execute_more n n'), <- (execute_more n' n) by done.
  by rewrite Nat.add_comm.
Qed.

(** One step of the machine. *)
Lemma finishes_step f x y out :
  ProgramCounter x < zlen (Body f) → dispatchStep f x = Some (opContinue y) →
  finishes f x out ↔ finishes f y out.
Proof.
  intros Hpc Hs. split; intros [Hne [n Hn]]; (split; [done|]).
  - destruct n as [|n]; [by subst out|]. exists n. cbn [execute] in Hn.
    rewrite (proj2 (Z.leb_gt _ _)), Hs in Hn by lia. done.
  - exists (S n). cbn [execute]. by rewrite (proj2 (Z.leb_gt _ _)), Hs by lia.
Qed.

Lemma step_nop f p r :
  zget (Body f) p = Some nop → dispatchStep f (NewCallFrame p r) = Some (opContinue (NewCallFrame (p + 1) r)).
Proof. intros Hg. by rewrite (dispatchStep_at f (NewCallFrame p r) nop handleFlatSubOpTier3Nop). Qed.

Lemma step_jump f p t r :
  isJump (Body f) p t → dispatchStep f (NewCallFrame p r) = Some (opContinue (NewCallFrame t r)).
Proof.
  intros [(inst & Hg & Hj) Ht]. unfold InstrIsTier1SubOp in Hj. bool_hyps.
  destruct inst as [op a b c]. cbn [iOp iA] in *. subst.
  rewrite (dispatchStep_at f _ (NewInstruction OpDrillTier1 SubOpJump b c) handleJump); [|exact Hg|reflexivity].
  unfold JumpTargetAt in Ht. rewrite Hg in Ht.
  change (JumpLayoutOf (NewInstruction OpDrillTier1 SubOpJump b c)) with (JumpLayoutWord, 0) in Ht.
  injection Ht as Ht. unfold SignedOffset in Ht. cbn [iB iC] in Ht.
  unfold handleJump, advance, mret, OpResult_ret. cbn [registers ProgramCounter]. do 3 f_equal. exact Ht.
Qed.

Lemma finishes_silent f p q r out :
  silent (Body f) p q → finishes f (NewCallFrame p r) out ↔ finishes f (NewCallFrame q r) out.
Proof.
  induction 1 as [p|p q Hg _ IH|p t q Hj _ IH]; [done|..]; rewrite <- IH; apply finishes_step.
  - cbn. apply zget_Some_range in Hg. lia.
  - by apply step_nop.
  - destruct Hj as [(inst & Hg & _) _]. cbn. apply zget_Some_range in Hg. lia.
  - by apply step_jump.
Qed.

(** ** Two runs of the same words at other places *)

(** The ends of two runs: the same registers at the end of the body or at the
    same unmodelled operation, or the same failure. *)
Definition ends_alike (f f' : CompiledFunction) (out out' : outcome) : Prop :=
  match out, out' with
  | reachedEnd y, reachedEnd y' => registers y' = registers y
  | stopped rc, stopped rc' => rc' = rc
  | unmodelled y, unmodelled y' =>
      registers y' = registers y ∧
      flatDispatchIndex <$> zget (Body f') (ProgramCounter y') = flatDispatchIndex <$> zget (Body f) (ProgramCounter y)
  | _, _ => False
  end.

(** Where one run finishes, so does another that keeps meeting it. *)
Lemma execute_silent f p q r fuel :
  silent (Body f) p q → execute fuel f (NewCallFrame p r) ≠ stillRunning →
  ∃ fuel', (fuel' <= fuel)%nat ∧ execute fuel' f (NewCallFrame q r) = execute fuel f (NewCallFrame p r).
Proof.
  intros Hs. revert fuel. induction Hs as [p|p q Hg _ IH|p t q Hj _ IH]; intros fuel Hne; [by exists fuel|..].
  all: destruct fuel as [|fuel]; [done|].
  all: assert (Hlt : p < zlen (Body f)) by
    ((apply zget_Some_range in Hg; lia) || (destruct Hj as [(inst & Hg & _) _]; apply zget_Some_range in Hg; lia)).
  all: cbn [execute ProgramCounter] in *; rewrite (proj2 (Z.leb_gt _ _)) in * by lia.
  1: rewrite (step_nop f p r) in * by done. 2: rewrite (step_jump f p t r) in * by done.
  all: destruct (IH fuel Hne) as (fuel' & Hle & Heq); exists fuel'; (split; [lia|done]).
Qed.

Section simulation.
Context (g g' : CompiledFunction) (R : Z → Z → Prop) (E : outcome → outcome → Prop).
Context (Hprogress : ∀ p p' r, R p p' → ∃ w w', silent (Body g) p w ∧ silent (Body g') p' w' ∧
  ((∃ out out', finishes g (NewCallFrame w r) out ∧ finishes g' (NewCallFrame w' r) out' ∧ E out out') ∨
   (w < zlen (Body g) ∧ w' < zlen (Body g') ∧ ∃ y y',
    dispatchStep g (NewCallFrame w r) = Some (opContinue y) ∧
    dispatchStep g' (NewCallFrame w' r) = Some (opContinue y') ∧
    registers y' = registers y ∧ R (ProgramCounter y) (ProgramCounter y')))).

Lemma simulates fuel p p' r :
  R p p' → execute fuel g (NewCallFrame p r) ≠ stillRunning →
  ∃ out', finishes g' (NewCallFrame p' r) out' ∧ E (execute fuel g (NewCallFrame p r)) out'.
Proof.
  revert p p' r. induction (lt_wf fuel) as [fuel _ IH]. intros p p' r HR Hne.
  destruct (Hprogress p p' r HR) as (w & w' & Hw & Hw' & Hcase).
  destruct (execute_silent g p w r fuel Hw Hne) as (n & Hn & Heq). rewrite <- Heq in *.
  destruct Hcase as [(out & out' & Hout & Hout' & HE)|(Hlt & Hlt' & [pc s] & [pc' s'] & Hs & Hs' & Hregs & HR')].
  - assert (execute n g (NewCallFrame w r) = out) as ->.
    { eapply finishes_unique; [split; [done|by exists n]|exact Hout]. }
    exists out'. split; [|done]. by apply (finishes_silent _ _ _ _ _ Hw').
  - cbn [registers ProgramCounter] in *. subst s'. destruct n as [|n]; [done|].
    cbn [execute ProgramCounter] in *. rewrite (proj2 (Z.leb_gt _ _)), Hs in * by lia.
    destruct (IH n ltac:(lia) pc pc' s HR' Hne) as (out' & Hout' & HE). exists out'. split; [|done].
    apply (finishes_silent _ _ _ _ _ Hw'). by apply (finishes_step g' _ (NewCallFrame pc' s)).
Qed.
End simulation.

Section two_runs.
Context (f : CompiledFunction) (body' : list Instruction) (rel : Z → Z → Prop).

#[local] Notation body := (Body f).
#[local] Notation f' := (setBody f body').

(** The two runs meet where both are at the end, or at the same instruction,
    whose successors are related again. *)
Definition meeting (w w' : Z) : Prop :=
  (zlen body <= w ∧ zlen body' <= w') ∨
  (∃ i i', zget body w = Some i ∧ zget body' w' = Some i' ∧ flatDispatchIndex i' = flatDispatchIndex i ∧
    ∀ h, flatDispatchSwitch i = Some h → ∀ r,
      match h f (NewCallFrame (w + 1) r) i, h f' (NewCallFrame (w' + 1) r) i' with
      | opContinue y, opContinue y' => registers y' = registers y ∧ rel (ProgramCounter y) (ProgramCounter y')
      | opContinue _, _ | _, opContinue _ => False
      | rc, rc' => rc' = rc
      end).

Context (Hmeet : ∀ p p', rel p p' → ∃ w w', silent body p w ∧ silent body' p' w' ∧ meeting w w').

Lemma meeting_end w w' r :
  meeting w w' →
  (∃ out out', finishes f (NewCallFrame w r) out ∧ finishes f' (NewCallFrame w' r) out' ∧ ends_alike f f' out out') ∨
  (w < zlen body ∧ w' < zlen body' ∧ ∃ y y',
    dispatchStep f (NewCallFrame w r) = Some (opContinue y) ∧
    dispatchStep f' (NewCallFrame w' r) = Some (opContinue y') ∧
    registers y' = registers y ∧ rel (ProgramCounter y) (ProgramCounter y')).
Proof.
  intros [[H1 H2]|(i & i' & Hi & Hi' & Hidx & Hstep)].
  - left. exists (reachedEnd (NewCallFrame w r)), (reachedEnd (NewCallFrame w' r)).
    split_and!; [split; [done|]; exists 1%nat; cbn|split; [done|]; exists 1%nat; cbn|done];
      by rewrite (proj2 (Z.leb_le _ _)).
  - pose proof (zget_Some_range _ _ _ Hi). pose proof (zget_Some_range _ _ _ Hi').
    assert (Hd' : flatDispatchSwitch i' = flatDispatchSwitch i) by (unfold flatDispatchSwitch; by rewrite Hidx).
    assert (Hone : ∀ g x out, ProgramCounter x < zlen (Body g) → out ≠ stillRunning →
      match dispatchStep g x with
      | None => unmodelled x | Some (opContinue y) => stillRunning | Some rc => stopped rc end = out →
      finishes g x out).
    { intros g x out Hx Hne <-. split; [done|]. exists 1%nat. cbn [execute].
      rewrite (proj2 (Z.leb_gt _ _)) by lia. by destruct (dispatchStep g x) as [[]|]. }
    destruct (flatDispatchSwitch i) as [h|] eqn:Hd.
    2: { left. exists (unmodelled (NewCallFrame w r)), (unmodelled (NewCallFrame w' r)).
      split_and!; [..|split; [done|cbn [ProgramCounter Body setBody]; rewrite Hi, Hi'; cbn; by rewrite Hidx]]; (apply Hone; [cbn; lia|done|]); unfold dispatchStep;
        cbn [ProgramCounter Body setBody]; rewrite (proj2 (Z.leb_gt _ _)) by lia.
      - by rewrite Hi, Hd.
      - by rewrite Hi', Hd'. }
    specialize (Hstep h eq_refl r).
    pose proof (dispatchStep_at f (NewCallFrame w r) i h Hi Hd) as Hs.
    pose proof (dispatchStep_at f' (NewCallFrame w' r) i' h Hi' Hd') as Hs'.
    cbn [advance ProgramCounter registers] in Hs, Hs'.
    destruct (h f _ i) as [y| | |], (h f' _ i') as [y'| | |]; try done; subst.
    { right. split_and!; [lia|lia|]. by exists y, y'. }
    all: left; match goal with H : dispatchStep f _ = Some ?rc, H' : dispatchStep f' _ = Some ?rc' |- _ =>
      exists (stopped rc), (stopped rc') end.
    all: split_and!; [apply Hone; [cbn; lia|done|by rewrite Hs]|apply Hone; [cbn; lia|done|by rewrite Hs']|done].
Qed.

Lemma runs_alike p p' r :
  rel p p' →
  (∀ out, finishes f (NewCallFrame p r) out →
     ∃ out', finishes f' (NewCallFrame p' r) out' ∧ ends_alike f f' out out') ∧
  (∀ out', finishes f' (NewCallFrame p' r) out' →
     ∃ out, finishes f (NewCallFrame p r) out ∧ ends_alike f f' out out').
Proof.
  intros Hrel. split.
  - intros out [Hne [fuel <-]]. eapply (simulates f f' rel); [|exact Hrel|exact Hne].
    intros q q' s Hq. destruct (Hmeet q q' Hq) as (w & w' & Hw & Hw' & Hm). exists w, w'.
    split_and!; [done|done|]. by apply meeting_end.
  - intros out' [Hne [fuel <-]]. eapply (simulates f' f (λ q' q, rel q q') (λ o' o, ends_alike f f' o o'));
      [|exact Hrel|exact Hne].
    intros q' q s Hq. destruct (Hmeet q q' Hq) as (w & w' & Hw & Hw' & Hm). exists w', w.
    split_and!; [done|done|]. destruct (meeting_end w w' s Hm) as [(o & o' & ?)|(? & ? & y & y' & ? & ? & ? & ?)].
    + left. exists o', o. tauto.
    + right. split_and!; [done|done|]. by exists y', y.
Qed.
End two_runs.
