(* ===== verification/CompactSound.v ===== *)
(** * The compaction preserves what a body computes

    One rebuild of [compactOnce] against the machine: the runs of the old body
    and of the new meet at every word that is kept. *)

From S2P Require Import Prelude SafeConv Register Opcode Instruction Shapes Spec JumpLayout Jumps.
From S2P Require Import Extension Function Builder Verify VerifySound Machine MachineSafe MachineFlow.
From S2P Require Import FuseNarrow PassFacts Ranges RangesSolve Dominators Relocate.
From S2P Require Import Compact CompactMarks CompactPlace CompactRecode CompactWords CompactRun.

Section runs.
Context (f : CompiledFunction) (marks dead : list bool) (blocks : gmap Z straightBlock).

#[local] Notation body := (Body f).
#[local] Notation order := (orderOf dead blocks 0 (zlen body)).
#[local] Notation after p k q := (comes_after body dead blocks p k q).
#[local] Notation clean p := (clean marks blocks p).

Context (Hok : plan_ok body marks dead blocks).
Context (r : bodyRewrite) (Hplaced : placed body order r).
Context (body' : list Instruction)
  (Hre : reencode body (newPC (finish r)) (origin r) 0 (rbody r) = Some (Some body')).

#[local] Notation new p := (zget (newPC (finish r)) p).
#[local] Notation f' := (setBody f body').

Lemma jump_here p t : isJump body p t → zget dead p = Some false → instruction_start body p → (p, true) ∈ order →
  ∃ n t', new p = Some n ∧ new t = Some t' ∧ isJump body' n t'.
Proof.
  intros [(inst & Hg & Hj) Ht] Hlive Hst Hin.
  destruct (new_place body marks dead blocks Hok r Hplaced p Hin) as (n & Hn & Ho & _).
  destruct (rebuilt_recoded body marks dead blocks Hok r Hplaced body' Hre) as [_ _ Hrec].
  destruct (Hrec n p Ho Hst ltac:(by exists t) (proj2 (zget_Some_range _ _ _ Ho)))
    as (i & i' & t0 & t' & H1 & H2 & _ & _ & Hrel & H3 & H4 & H5).
  rewrite Hg in H1. injection H1 as <-. rewrite Ht in H3. injection H3 as <-.
  exists n, t'. split_and!; [done|done|]. split; [|done]. exists i'. split; [done|].
  unfold InstrIsTier1SubOp in *. unfold relocated in Hrel. destruct inst as [op a b c]. cbn [iOp iA] in *. bool_hyps.
  subst. change (fst (JumpLayoutOf (NewInstruction OpDrillTier1 SubOpJump b c))) with JumpLayoutWord in Hrel.
  cbn [iOp iA] in Hrel. destruct Hrel as [-> ->]. by rewrite !Z.eqb_refl.
Qed.

Lemma nop_here p : zget body p = Some nop → instruction_start body p → instructionFootprint body p = 1 →
  (p, true) ∈ order → ∃ n, new p = Some n ∧ zget body' n = Some nop.
Proof.
  intros Hg Hst Hfoot Hin.
  destruct (new_place body marks dead blocks Hok r Hplaced p Hin) as (n & Hn & Ho & _). exists n. split; [done|].
  destruct (rebuilt_recoded body marks dead blocks Hok r Hplaced body' Hre) as [_ Hcp _].
  assert (Hnone : JumpTargetAt body p = None) by (unfold JumpTargetAt; by rewrite Hg).
  specialize (Hcp n p Ho Hst (or_introl Hnone) 0). rewrite !Z.add_0_r, Hg in Hcp. apply Hcp. lia.
Qed.

(** Both runs pass silently over marked words. *)
Lemma quiet L p :
  clean p → gap marks p L → 0 <= p <= L → L <= zlen body → ¬ marked marks L →
  silent body p L ∧ ∃ n n', new p = Some n ∧ new L = Some n' ∧ silent body' n n'.
Proof.
  remember (Z.to_nat (L - p)) as k eqn:Hk. revert p Hk. induction (lt_wf k) as [k _ IH].
  intros p -> Hcl Hgap Hp HL Hstop. destruct (decide (p = L)) as [->|Hne].
  { split; [constructor|]. destruct (new_defined body marks dead blocks Hok r Hplaced L ltac:(lia)) as (n & Hn & _).
    exists n, n. split_and!; [done|done|constructor]. }
  assert (Hm : marked marks p) by (apply Hgap; lia).
  pose proof (marks_ok _ _ _ _ Hok) as Hmk. destruct (ms_single _ _ Hmk _ Hm) as [Hst Hfoot].
  destruct (clean_next _ _ _ _ Hok p Hcl Hm) as [Hafter Hcl1].
  assert (Hgap' : ∀ q, p < q → gap marks q L) by (intros q Hq w Hw; apply Hgap; lia).
  destruct (IH (Z.to_nat (L - (p + 1))) ltac:(lia) (p + 1) eq_refl Hcl1 (Hgap' (p + 1) ltac:(lia)) ltac:(lia) HL Hstop)
    as (Hold1 & m & m' & Hm1 & Hm2 & Hnew1).
  destruct (new_step body marks dead blocks Hok r Hplaced _ _ _ Hafter) as (n & Hn & Hn1).
  rewrite Hm1 in Hn1. injection Hn1 as ->.
  destruct (ms_skips _ _ Hmk _ Hm) as [(inst & Hg & Hnop%isCanonicalNop_nop)|(t & Ht & Hlt & Hall)].
  - subst inst. split; [by eapply silent_nop|]. exists n, m'. split_and!; [done|done|].
    unfold livePC in *. case_bool_decide as Hlive; [|by rewrite Z.add_0_r in Hnew1].
    destruct (nop_here p Hg Hst Hfoot) as (n0 & Hn0 & Hnop); [by eapply comes_after_in|].
    rewrite Hn in Hn0. injection Hn0 as <-. by eapply silent_nop.
  - assert (Htl : t <= L) by (destruct (Z.le_gt_cases t L); [done|]; destruct Hstop; apply Hall; lia).
    destruct (IH (Z.to_nat (L - t)) ltac:(lia) t eq_refl) as (Hold & nt & nt' & Hnt & Hnt' & Hnew);
      [by eapply po_clean; [|eapply target_of]|by apply Hgap'|lia|done|done|].
    split; [by eapply silent_jump|]. exists n, m'. split_and!; [done|done|].
    unfold livePC in *. case_bool_decide as Hlive; [|by rewrite Z.add_0_r in Hnew1].
    destruct (jump_here p t Ht Hlive Hst) as (n0 & t' & Hn0 & Ht' & Hj); [by eapply comes_after_in|].
    rewrite Hn in Hn0. injection Hn0 as <-. rewrite Hnt in Ht'. injection Ht' as <-.
    rewrite Hm2 in Hnt'. injection Hnt' as <-. by eapply silent_jump.
Qed.

(** ** Where the runs meet *)

Definition at_word (p : Z) : Prop := p = zlen body ∨ (instruction_start body p ∧ p < zlen body).

(** The runs are related at a word control may enter at, and where it went. *)
Definition places (p p' : Z) : Prop := at_word p ∧ clean p ∧ new p = Some p'.

Lemma target_at t : t ∈ JumpTargetsOf body → at_word t ∧ clean t ∧ 0 <= t.
Proof.
  intros Ht. pose proof (po_compactable _ _ _ _ Hok) as Hc. pose proof (cp_targets _ Hc _ Ht).
  destruct (wk_targets _ (cp_walkable _ Hc) _ Ht) as [H0 Hst]. split_and!; [|by apply (po_clean _ _ _ _ Hok)|done].
  destruct (decide (t = zlen body)); [by left|right]. split; [apply Hst|]; lia.
Qed.

(** Past an instruction that falls through stands no block that moves. *)
Lemma next_no_block p instr h j b :
  instruction_start body p → zget body p = Some instr → zget dead p = Some false →
  flatDispatchSwitch instr = Some h →
  hasFlag (shFlags (ShapeForInstruction instr)) ShapeFlagTerminator = false →
  blocks !! j = Some b → gap marks (p + instructionFootprint body p) (start b) →
  p + instructionFootprint body p <= start b → False.
Proof.
  intros Hst Hg Hlive Hd Hterm Hb Hgap Hle. pose proof (next_gt body p).
  destruct (end_range _ _ _ _ Hok _ _ Hb) as (_ & _ & Hr). pose proof (gap_dead _ _ _ _ Hok _ _ _ Hb Hgap) as Hdead.
  destruct (falls_through _ _ Hd Hterm) as [Hlin Hret].
  destruct (fallsInto_live body dead p (start b) instr) as [H1|H1]; try done; try lia.
  - intros q Hq Hqs. pose proof (start_order body p q Hst Hqs ltac:(lia)). apply Hdead. lia.
  - eapply gb_falls, good; [exact Hok|exact Hb].
  - congruence.
  - unfold InstrIsTier1SubOp in H1. bool_hyps. destruct instr as [op a b0 c]. cbn [iOp iA] in *. subst. discriminate Hterm.
Qed.

(** The word at the new place of an instruction, and what its handler reads. *)
Lemma kept_relocated p n instr :
  zget (origin r) n = Some p → instruction_start body p → zget body p = Some instr →
  ∃ instr', zget body' n = Some instr' ∧ wf_instruction instr' ∧
    flatDispatchIndex instr' = flatDispatchIndex instr ∧
    (∀ t, JumpTargetAt body p = Some t → ∃ t', new t = Some t' ∧ JumpTargetAt body' n = Some t') ∧
    ∀ h, flatDispatchSwitch instr = Some h → relocated body body' p n instr instr'.
Proof.
  intros Ho Hst Hg. pose proof (cp_walkable _ (po_compactable _ _ _ _ Hok)) as Hw.
  destruct (rebuilt_recoded body marks dead blocks Hok r Hplaced body' Hre) as [_ Hcp Hrec].
  destruct (JumpTargetAt body p) as [t|] eqn:Ht.
  - destruct (Hrec n p Ho Hst ltac:(by exists t) (proj2 (zget_Some_range _ _ _ Ho)))
      as (i & i' & t0 & t' & H1 & H2 & H3 & H4 & H5 & H6 & H7 & H8).
    rewrite Hg in H1. injection H1 as <-. exists i'. split_and!; try done.
    intros t1 [= <-]. rewrite Ht in H6. injection H6 as <-. by exists t'.
  - pose proof (Hcp n p Ho Hst (or_introl Ht)) as Hcopy. pose proof (next_gt body p).
    exists instr. pose proof (Hcopy 0 ltac:(lia)) as H0. rewrite !Z.add_0_r, Hg in H0.
    split_and!; [done|by eapply wf_body_zget; [apply Hw|]|done|done|]. intros h Hd.
    destruct (wk_laid_out _ Hw _ _ _ Hg Hd) as [Hext _].
    pose proof (wk_span _ Hw _ _ _ Hst Hg Hd) as Hspan.
    unfold relocated, well_extended, JumpTargetAt in *. rewrite Hg in Ht.
    destruct (JumpLayoutOf instr) as [layout nops]. cbn [fst] in *.
    destruct layout; try done.
    + split; [done|]. intros j Hj. apply Hcopy. lia.
    + destruct Hext as [e He]. by rewrite He in Ht.
    + destruct Hext as [[e1 H1] [e2 H2]]. by rewrite H1, H2 in Ht.
    + split; [done|]. intros j Hj. apply Hcopy. lia.
Qed.

(** Past the end of an instruction that falls through. *)
Lemma next_places p n instr h :
  instruction_start body p → (p, true) ∈ order → new p = Some n → zget body p = Some instr →
  flatDispatchSwitch instr = Some h →
  hasFlag (shFlags (ShapeForInstruction instr)) ShapeFlagTerminator = false →
  places (p + instructionFootprint body p) (n + instructionFootprint body p).
Proof.
  intros Hst Hin Hn Hg Hd Hterm. destruct (in_order_live _ _ _ _ Hok _ Hin) as (Hr & Hlive & _).
  pose proof (next_gt body p) as Hnext. set (w := instructionFootprint body p) in *.
  destruct (new_span body marks dead blocks Hok r Hplaced p Hst Hin) as (n' & Hn' & Hspan).
  rewrite Hn in Hn'. injection Hn' as <-. fold w in Hspan.
  destruct (Hspan (w - 1) ltac:(lia)) as [Hlast Hnl].
  destruct (in_order_live _ _ _ _ Hok _ Hlast) as (Hrl & Hll & Hordl).
  assert (Hblock : ∀ j b, blocks !! j = Some b → gap marks (p + w) (start b) → p + w <= start b → False)
    by (intros j b; by apply (next_no_block p instr h)).
  split_and!.
  - destruct (decide (p + w = zlen body)); [by left|right]. split; [by constructor; [|lia]|lia].
  - intros j b Hb Hlt Hgap. by apply (Hblock j b Hb); [|lia].
  - assert (Ha : after (p + (w - 1)) true (p + (w - 1) + 1)).
    { rewrite <- (bool_decide_eq_true_2 _ Hll). apply (after_ordinary body marks); [done|done|done|].
      intros j b Hb Heq. apply (Hblock j b Hb); [|lia]. intros q Hq. lia. }
    destruct (new_step body marks dead blocks Hok r Hplaced _ _ _ Ha) as (m & Hm & Hm1).
    rewrite Hnl in Hm. injection Hm as <-. replace (p + (w - 1) + 1) with (p + w) in Hm1 by lia.
    rewrite Hm1. f_equal. lia.
Qed.

Lemma kept_meets p :
  instruction_start body p → 0 <= p < zlen body → ¬ marked marks p → ordinary blocks p →
  ∃ n, new p = Some n ∧ meeting f body' places p n.
Proof.
  intros Hst Hp Hm Hord. pose proof (unmarked_live _ _ _ _ Hok p Hp Hm) as Hlive.
  pose proof (live_in_order _ _ _ _ Hok p Hp Hord Hlive) as Hin.
  destruct (new_place body marks dead blocks Hok r Hplaced p Hin) as (n & Hn & Ho & instr & Hg & _).
  exists n. split; [done|]. destruct (kept_relocated p n instr Ho Hst Hg) as (instr' & Hg' & Hwf' & Hidx & Hjump & Hrel).
  right. exists instr, instr'. split_and!; [done|done|done|]. intros h Hd reg.
  pose proof (cp_walkable _ (po_compactable _ _ _ _ Hok)) as Hw.
  destruct (wk_laid_out _ Hw _ _ _ Hg Hd) as [Hext _].
  pose proof (forall_arms _ relocates_arms instr h Hd f body' p n reg instr instr'
    (wf_body_zget _ _ _ (wk_wf _ Hw) Hg) Hwf' eq_refl Hidx Hg Hg' Hext (Hrel h Hd)) as Halike.
  unfold alike in Halike. destruct (h f _ instr) as [y| | |], (h (setBody f body') _ instr') as [y'| | |]; try done.
  2: { destruct Halike as [-> ->]. done. }
  destruct Halike as [Hregs [[Ht Ht']|(Hy & Hy' & Hterm)]]; (split; [done|]).
  - destruct (Hjump _ Ht) as (t' & Hnew & Ht1). rewrite Ht' in Ht1. injection Ht1 as <-.
    destruct (target_at _ (JumpTargetAt_elem _ _ _ Ht)) as (H1 & H2 & _). done.
  - rewrite Hy, Hy', (wk_span _ Hw _ _ _ Hst Hg Hd). by eapply next_places.
Qed.

(** ** The runs meet *)

Definition meets (p : Z) : Prop := ∃ n w w', new p = Some n ∧ silent body p w ∧ silent body' n w' ∧ meeting f body' places w w'.

Lemma meets_end : meets (zlen body).
Proof.
  destruct (new_defined body marks dead blocks Hok r Hplaced (zlen body) ltac:(lia)) as (n & Hn & _).
  exists n, (zlen body), n. split_and!; [done|constructor|constructor|]. left. split; [done|].
  rewrite (rebuilt_length body dead blocks r Hplaced body' Hre).
  destruct (po_apart _ _ _ _ Hok) as [claimed Ha].
  rewrite (new_end body dead blocks (po_length _ _ _ _ Hok) r Hplaced) in Hn. injection Hn as <-. lia.
Qed.

(** The first word from [p] on that is not marked. *)
Lemma next_unmarked p : 0 <= p <= zlen body → at_word p →
  ∃ L, p <= L <= zlen body ∧ gap marks p L ∧ ¬ marked marks L ∧ at_word L.
Proof.
  remember (Z.to_nat (zlen body - p)) as k eqn:Hk. revert p Hk. induction (lt_wf k) as [k _ IH].
  intros p -> Hp Hat. destruct (decide (zget marks p = Some true)) as [Hm|Hm].
  - pose proof (marked_range _ _ _ _ Hok _ Hm).
    destruct (ms_single _ _ (marks_ok _ _ _ _ Hok) _ Hm) as [Hst Hfoot].
    destruct (IH (Z.to_nat (zlen body - (p + 1))) ltac:(lia) (p + 1) eq_refl ltac:(lia)) as (L & HL & Hgap & Hstop & HatL).
    { destruct (decide (p + 1 = zlen body)); [by left|right]. rewrite <- Hfoot at 1. split; [by constructor; [|lia]|lia]. }
    exists L. split_and!; [lia|lia| |done|done]. intros q Hq. destruct (decide (q = p)) as [->|]; [done|]. apply Hgap. lia.
  - exists p. split_and!; [lia|lia| |done|done]. intros q Hq. lia.
Qed.

Lemma meets_quiet p L :
  clean p → gap marks p L → 0 <= p <= L → L <= zlen body → ¬ marked marks L → meets L → meets p.
Proof.
  intros Hcl Hgap Hp HL Hstop (m & w & w' & Hm & Hw & Hw' & Hmeet).
  destruct (quiet L p Hcl Hgap Hp HL Hstop) as (Hs & n & n' & Hn & Hn' & Hs').
  rewrite Hm in Hn'. injection Hn' as <-. exists n, w, w'. split_and!; [done| | |done]; by eapply silent_trans.
Qed.

(** A word that does not do nothing, and does not end a block that moves. *)
Definition stop (L : Z) : Prop :=
  0 <= L <= zlen body ∧ at_word L ∧ ¬ marked marks L ∧ ∀ j b, blocks !! j = Some b → L ≠ end_ b.

(** Past the end of a block, the words after its jump. *)
Lemma meets_block_end j b :
  blocks !! j = Some b → (∀ L, j < L → stop L → meets L) → meets (end_ b).
Proof.
  intros Hb Hnext. destruct (end_range _ _ _ _ Hok _ _ Hb) as (Hj & Hjs & Hr).
  destruct (po_apart _ _ _ _ Hok) as [claimed Ha].
  destruct (block_starts _ _ _ _ Hok _ _ Hb) as (Hstj & _ & Hste). pose proof (good _ _ _ _ Hok _ _ Hb) as Hg.
  destruct (gb_back _ _ _ _ Hg) as (back & t & Hback & Ht & Hland).
  destruct (gb_jump _ _ _ _ Hg) as [(inst & Hi & Hj1) _].
  assert (Hat1 : at_word (j + 1)).
  { right. rewrite <- (jump_footprint body j inst Hi Hj1) at 1. split; [by constructor; [|lia]|lia]. }
  assert (Hclean1 : clean (j + 1)).
  { intros j' b' Hb' Hlt Hgap. by apply (no_block_after _ _ _ _ Hok j b j' b' Hb Hb'); [lia|]. }
  destruct (next_unmarked (j + 1) ltac:(lia) Hat1) as (L & HL & Hgap & Hstop & HatL).
  destruct (target_at t (target_of _ _ _ Ht)) as (Hatt & Hcleant & Ht0).
  apply nextLiveWord_spec in Hback as (_ & Hb1 & Hb2 & Hb3 & Hb4), Hland as (_ & Ht1 & Ht2 & _ & Ht4).
  pose proof (po_length _ _ _ _ Hok) as Hlen.
  assert (HbackL : back <= L).
  { destruct (Z.le_gt_cases back L); [done|]. destruct Hstop. apply (po_subset _ _ _ _ Hok), Hb2. lia. }
  assert (Hgapt : gap marks t L).
  { intros q Hq. destruct (Z.lt_ge_cases q back); [apply (po_subset _ _ _ _ Hok), Ht2; lia|apply Hgap; lia]. }
  assert (HL1 : stop L).
  { split_and!; [lia|lia|done|done|]. intros j' b' Hb' ->. destruct (end_range _ _ _ _ Hok _ _ Hb') as (_ & _ & Hr').
    destruct (Z.lt_ge_cases j (start b')).
    - apply (no_block_after _ _ _ _ Hok j b j' b' Hb Hb'); [lia|]. intros q Hq. apply Hgap. lia.
    - destruct (disjoint _ _ _ _ Hok j' b' j b j Hb' Hb ltac:(lia)) as [Hne _]. done. }
  destruct (Hnext L ltac:(lia) HL1) as (m & w & w' & Hm & Hw & Hw' & Hmeet).
  destruct (quiet L t Hcleant Hgapt ltac:(lia) ltac:(lia) Hstop) as (Hs & _).
  destruct (quiet L (j + 1) Hclean1 Hgap ltac:(lia) ltac:(lia) Hstop) as (_ & n & n' & Hn & Hn' & Hs').
  rewrite Hm in Hn'. injection Hn' as <-.
  assert (Hnm : j + 1 ∉ movedWords blocks).
  { intros (j' & b' & Hb' & Hr')%elem_of_moved. destruct (decide (start b' <= j)).
    - destruct (disjoint _ _ _ _ Hok j' b' j b j Hb' Hb ltac:(lia)) as [Hne _]. done.
    - apply (no_block_after _ _ _ _ Hok j b j' b' Hb Hb'); [lia|]. intros q Hq. lia. }
  pose proof (after_end body dead claimed blocks Ha Hlen j b Hb Hnm) as Hafter.
  destruct (new_step body marks dead blocks Hok r Hplaced _ _ _ Hafter) as (n0 & Hn0 & Hn1).
  rewrite Hn in Hn1. injection Hn1 as ->. rewrite Z.add_0_r in *.
  exists n0, w, w'. split_and!; [done| | |done].
  - eapply silent_jump; [exact Ht|]. by eapply silent_trans.
  - by eapply silent_trans.
Qed.
(** Every run from a word that does something meets the other: it is kept, or
    jumps to a block that moves. *)
Lemma meets_stop L : stop L → meets L.
Proof.
  remember (Z.to_nat (zlen body - L)) as k eqn:Hk. revert L Hk. induction (lt_wf k) as [k _ IH].
  intros L -> (HL & Hat & Hm & Hend). destruct Hat as [->|[Hst Hlt]]; [apply meets_end|].
  destruct (blocks !! L) as [b|] eqn:Hb.
  2: { destruct (kept_meets L Hst ltac:(lia) Hm) as (n & Hn & Hmeet).
    - intros j b Hj. split; [congruence|by eapply Hend].
    - exists n, L, n. split_and!; [done|constructor|constructor|done]. }
  destruct (po_apart _ _ _ _ Hok) as [claimed Ha]. pose proof (po_length _ _ _ _ Hok) as Hlen.
  destruct (end_range _ _ _ _ Hok _ _ Hb) as (Hj & Hjs & Hr). pose proof (good _ _ _ _ Hok _ _ Hb) as Hg.
  destruct (block_starts _ _ _ _ Hok _ _ Hb) as (_ & Hsts & _).
  assert (Hstart : meets (start b)).
  { destruct (target_at _ (target_of _ _ _ (gb_jump _ _ _ _ Hg))) as (Hats & Hcl & _).
    destruct (next_unmarked (start b) ltac:(lia) Hats) as (E & HE & Hgap & Hstop & HatE).
    assert (E <= end_ b).
    { destruct (Z.le_gt_cases E (end_ b)); [done|]. destruct (po_end _ _ _ _ Hok _ _ Hb). apply Hgap. lia. }
    apply (meets_quiet (start b) E); [done|done|lia|lia|done|].
    destruct (decide (E = end_ b)) as [->|Hne].
    - apply (meets_block_end L b Hb). intros L' HL' HsL'. apply (IH (Z.to_nat (zlen body - L'))); [|done|done].
      destruct HsL'. lia.
    - apply (IH (Z.to_nat (zlen body - E))); [lia|done|]. split_and!; [lia|lia|done|done|].
      intros j' b' Hb' ->. destruct (end_range _ _ _ _ Hok _ _ Hb') as (_ & _ & ?).
      destruct (disjoint _ _ _ _ Hok L b j' b' (end_ b') Hb Hb' ltac:(lia)) as [_ Hsame].
      specialize (Hsame ltac:(lia)). subst j'. congruence. }
  destruct Hstart as (m & w & w' & Hnew & Hw & Hw' & Hmeet).
  destruct (new_step body marks dead blocks Hok r Hplaced _ _ _ (after_jump body dead claimed blocks Ha Hlen L b Hb))
    as (n & Hn & Hn'). rewrite Hnew in Hn'. injection Hn' as ->. rewrite Z.add_0_r in Hw'.
  exists n, w, w'. split_and!; [done| |done|done]. eapply silent_jump; [apply Hg|done].
Qed.

Lemma places_meet p p' :
  places p p' → ∃ w w', silent body p w ∧ silent body' p' w' ∧ meeting f body' places w w'.
Proof.
  intros (Hat & Hcl & Hp').
  assert (H0 : 0 <= p <= zlen body) by (destruct Hat as [->|[?%start_nonneg ?]]; lia).
  destruct (next_unmarked p H0 Hat) as (L & HL & Hgap & Hstop & HatL).
  assert (HmL : meets L).
  { destruct (existsb (λ jb, end_ (snd jb) =? L) (map_to_list blocks)) eqn:He.
    - apply existsb_exists in He as ([j b] & Hin & He). apply list_elem_of_In, elem_of_map_to_list in Hin.
      cbn in He. bool_hyps. subst L. apply (meets_block_end j b Hin). intros L' _. apply meets_stop.
    - apply meets_stop. split_and!; [lia|lia|done|done|]. intros j b Hb ->.
      enough (existsb (λ jb, end_ (snd jb) =? end_ b) (map_to_list blocks) = true) by congruence.
      apply existsb_exists. exists (j, b). split; [by apply list_elem_of_In, elem_of_map_to_list|].
      apply Z.eqb_refl. }
  destruct (meets_quiet p L Hcl Hgap ltac:(lia) ltac:(lia) Hstop HmL) as (n & w & w' & Hn & Hw & Hw' & Hmeet).
  rewrite Hp' in Hn. injection Hn as <-. by exists w, w'.
Qed.

(** Control enters the rebuilt body where it entered the old. *)
Lemma entry_clean : clean 0.
Proof.
  intros j b Hb Hlt Hgap. destruct (end_range _ _ _ _ Hok _ _ Hb) as (? & ? & _).
  apply (po_jump _ _ _ _ Hok _ _ Hb), Hgap. lia.
Qed.

Lemma entry_places : places 0 0.
Proof.
  split_and!.
  - destruct (decide (zlen body = 0)); [by left|right]. split; [constructor|lia].
  - apply entry_clean.
  - destruct (po_apart _ _ _ _ Hok) as [claimed Ha]. pose proof (po_length _ _ _ _ Hok) as Hlen.
    destruct (decide (zlen body = 0)) as [Hz|Hz].
    { rewrite <- Hz, (new_end body dead blocks Hlen r Hplaced). pose proof (kept_bound _ _ _ _ Hok). f_equal. lia. }
    assert (Hm : 0 ∉ movedWords blocks).
    { intros (j & b & Hb & Hr)%elem_of_moved. destruct (end_range _ _ _ _ Hok _ _ Hb). lia. }
    destruct (orderOf_head body dead blocks Hlen 0 ltac:(lia) Hm) as [[_ ?]|(k & post & Heq)]; [lia|].
    by rewrite (new_at body dead claimed blocks Ha Hlen r Hplaced [] 0 k post).
Qed.
End runs.

(** ** One round *)

(** Whether marked words run from [t] into a block that moves. *)
Definition runsIntoBlock (marks : list bool) (blocks : gmap Z straightBlock) (t : Z) : bool :=
  existsb (λ jb, (t <? start (snd jb)) &&
    forallb (λ w, bool_decide (zget marks w = Some true)) (seqZ t (start (snd jb) - t))) (map_to_list blocks).

(** No jump lands on marked words just before a block that moves. *)
Definition clean_entries (body : list Instruction) (marks : list bool) (blocks : gmap Z straightBlock) : bool :=
  forallb (λ pc, match JumpTargetAt body pc with
                 | Some t => negb (runsIntoBlock marks blocks t)
                 | None => true
                 end) (seqZ 0 (zlen body)).

Lemma clean_entries_clean body marks blocks t :
  clean_entries body marks blocks = true → t ∈ JumpTargetsOf body → clean marks blocks t.
Proof.
  intros Hall Ht. apply elem_of_list_to_set, list_elem_of_omap in Ht as (pc & Hpc & Hj).
  unfold clean_entries in Hall. rewrite forallb_forall in Hall.
  specialize (Hall pc ltac:(by apply list_elem_of_In)). rewrite Hj in Hall. apply negb_true_iff in Hall.
  intros j b Hb Hlt Hgap. enough (runsIntoBlock marks blocks t = true) by congruence.
  apply existsb_exists. exists (j, b). split; [by apply list_elem_of_In, elem_of_map_to_list|].
  cbn [snd]. apply andb_true_iff. split; [by apply Z.ltb_lt|]. apply forallb_forall.
  intros w Hw%list_elem_of_In%elem_of_seqZ. apply bool_decide_eq_true_2, Hgap. lia.
Qed.

Lemma compactPlan_ok body sourceMap marks dead blocks :
  compactable body → compactPlan body sourceMap = Some (marks, dead, blocks) →
  clean_entries body marks blocks = true → plan_ok body marks dead blocks.
Proof.
  intros Hc Hplan Hclean. unfold compactPlan in Hplan.
  destruct (markDeadWords body) as [marks0|] eqn:Hmarks; [|done]. cbn [mbind option_bind] in Hplan.
  destruct (keepSoleSourceLines sourceMap marks0) as [dead0 live] eqn:Hrevive.
  destruct (findStraightenableBlocks body dead0) as [found|] eqn:Hfound; [|done]. cbn [mbind option_bind] in Hplan.
  destruct (keepBlocks sourceMap live found) as [blocks0|] eqn:Hkeep; [|done]. injection Hplan as -> -> ->.
  destruct (keepBlocks_spec _ _ _ _ Hkeep) as [Hsub Hdrop].
  destruct (findStraightenableBlocks_apart body dead found) as [claimed Ha]; [|done|].
  { intros t Ht. apply (wk_targets _ (cp_walkable _ Hc) _ Ht). }
  pose proof (apart_subset _ _ _ _ _ Hsub Ha) as Ha'.
  destruct (keepSoleSourceLines_ok _ _ _ _ Hrevive) as (Hlen & Hm & _).
  split; [done|done| |done|by exists claimed| | | |].
  - rewrite Hlen. apply (ms_length body). by apply markDeadWords_skips.
  - by apply (block_jump_unmarked body sourceMap marks dead live claimed blocks Hrevive Ha' Hdrop).
  - intros j b. apply (block_gap body sourceMap marks dead live claimed blocks Hmarks Hrevive Ha' Hdrop).
  - by apply (block_end_unmarked body sourceMap marks dead live claimed blocks Hmarks Hrevive Ha' Hdrop).
  - intros t. by apply clean_entries_clean.
Qed.

Lemma ends_alike_refl f out : out ≠ stillRunning → ends_alike f f out out.
Proof. by destruct out. Qed.

(** The runs of [f] and [f'] from the entry with the same registers: where one
    finishes so does the other, with the same registers or the same error. *)
Definition same_runs (f f' : CompiledFunction) : Prop :=
  ∀ r, (∀ out, finishes f (NewCallFrame 0 r) out →
          ∃ out', finishes f' (NewCallFrame 0 r) out' ∧ ends_alike f f' out out') ∧
       (∀ out', finishes f' (NewCallFrame 0 r) out' →
          ∃ out, finishes f (NewCallFrame 0 r) out ∧ ends_alike f f' out out').

Lemma same_runs_refl f : same_runs f f.
Proof.
  intros r. split; intros out Hout; exists out; (split; [done|]); apply ends_alike_refl, Hout.
Qed.

Lemma apply_reencode rewrite old sourceMap body' sourceMap' :
  apply rewrite old sourceMap = Some (Some (body', sourceMap')) →
  reencode old (newPC (finish rewrite)) (origin rewrite) 0 (rbody rewrite) = Some (Some body').
Proof.
  unfold apply. case_if; [done|]. cbn [origin rbody finish].
  destruct (reencode _ _ _ _ _) as [[b|]|]; [|done..]. destruct sourceMap as [positions|].
  - destruct (mapM _ _); [|done]. by intros [= -> _].
  - by intros [= -> _].
Qed.

(** C9: One round of the compaction ([compactOnce]) of a body it can read,
    whatever words it drops, whatever blocks it moves and however the jumps are
    re-encoded, leaves a body that computes the same: from any registers, where
    a run of one body finishes so does the run of the other, with the same
    registers or the same error -- as long as no jump lands on marked words
    just before a block that moves. *)
Theorem compact_once_preserves_execution f sourceMap marks dead blocks f' sourceMap' changed :
  compactable (Body f) → compactPlan (Body f) sourceMap = Some (marks, dead, blocks) →
  clean_entries (Body f) marks blocks = true →
  compactOnce f sourceMap = Some (f', sourceMap', changed) → same_runs f f'.
Proof.
  intros Hc Hplan Hclean Honce. pose proof (compactPlan_ok _ _ _ _ _ Hc Hplan Hclean) as Hok.
  unfold compactOnce, compactRewrite in Honce. rewrite Hplan in Honce. cbn [mbind option_bind] in Honce.
  destruct (foldOption _ _ _) as [r|] eqn:Hr; [|done]. cbn [mbind option_bind] in Honce.
  destruct (negb _); [injection Honce as <- _ _; apply same_runs_refl|].
  destruct (apply r (Body f) sourceMap) as [[[body' map']|]|] eqn:Happly; [| |done];
    cbn [mbind option_bind] in Honce; injection Honce as <- _ _; [|apply same_runs_refl].
  apply apply_reencode in Happly. destruct (po_apart _ _ _ _ Hok) as [claimed Ha].
  pose proof (rebuild_placed (Body f) dead claimed blocks Ha (po_length _ _ _ _ Hok) r Hr) as Hplaced.
  intros regs. apply (runs_alike f body' (places f marks blocks r)).
  - intros p p'. by apply (places_meet f marks dead blocks Hok r Hplaced body').
  - by apply (entry_places f marks dead blocks Hok r Hplaced).
Qed.

(** ** Concrete bodies *)

(** A body of one-word instructions, its jumps landing in it or at its end. *)
Definition plain_words (body : list Instruction) : bool :=
  forallb (λ pc, match zget body pc with
    | Some instr => bool_decide (wf_instruction instr) && (instructionFootprint body pc =? 1) &&
        (span instr =? 1) && match fst (JumpLayoutOf instr) with
        | JumpLayoutNone => negb (hasFlag (shFlags (ShapeForInstruction instr)) ShapeFlagFollowsExtension)
        | JumpLayoutWord => true | _ => false end &&
        match JumpTargetAt body pc with Some t => (0 <=? t) && (t <=? zlen body) | None => true end
    | None => false end) (seqZ 0 (zlen body)) && (zlen body <=? 2 ^ 61).

Lemma plain_compactable body : plain_words body = true → compactable body.
Proof.
  unfold plain_words. intros [Hall Hlen]%andb_true_iff. rewrite forallb_forall in Hall. bool_hyps.
  assert (Hpc : ∀ pc instr, zget body pc = Some instr → wf_instruction instr ∧ instructionFootprint body pc = 1 ∧
    span instr = 1 ∧ well_extended body pc instr ∧
    ∀ t, JumpTargetAt body pc = Some t → 0 <= t <= zlen body).
  { intros pc instr Hg. pose proof (zget_Some_range _ _ _ Hg).
    specialize (Hall pc ltac:(apply list_elem_of_In, elem_of_seqZ; lia)). rewrite Hg in Hall.
    apply andb_true_iff in Hall as [Hall Ht]. apply andb_true_iff in Hall as [Hall Hlay]. revert Hlay Ht. bool_hyps. intros Hlay Ht.
    split_and!; try done.
    - eapply bool_decide_eq_true. eassumption.
    - revert Hlay. unfold well_extended. destruct (fst (JumpLayoutOf instr)); try done. intros Hlay Hflag. by rewrite Hflag in Hlay.
    - intros t Hjt. rewrite Hjt in Ht. bool_hyps. lia. }
  assert (Hstart : ∀ n : nat, Z.of_nat n <= zlen body → instruction_start body (Z.of_nat n)).
  { induction n as [|n IH]; intros Hn; [constructor|]. destruct (zget_is_Some body (Z.of_nat n)) as [instr Hg]; [lia|].
    destruct (Hpc _ _ Hg) as (_ & Hf & _). replace (Z.of_nat (S n)) with (Z.of_nat n + 1) by lia.
    rewrite <- Hf. constructor; [apply IH|]; lia. }
  assert (Htargets : ∀ t, t ∈ JumpTargetsOf body → 0 <= t <= zlen body).
  { intros t Ht. apply elem_of_list_to_set, list_elem_of_omap in Ht as (pc & _ & Hj).
    destruct (zget body pc) as [instr|] eqn:Hg; [by apply (Hpc _ _ Hg)|unfold JumpTargetAt in Hj; by rewrite Hg in Hj]. }
  split; [split| |].
  - split; [|done]. apply Forall_forall. intros w [i Hw]%elem_of_zget. by apply (Hpc _ _ Hw).
  - intros pc instr h Hg _. destruct (Hpc _ _ Hg) as (_ & _ & Hs & He & _). split; [done|]. rewrite Hs. intros; lia.
  - intros pc instr h _ Hg _. destruct (Hpc _ _ Hg) as (_ & Hf & Hs & _). by rewrite Hs.
  - intros t Ht. destruct (Htargets t Ht). split; [done|]. intros Hlt. rewrite <- (Z2Nat.id t) by done. apply Hstart. lia.
  - intros pc i Hst Hi. destruct (zget body pc) as [instr|] eqn:Hg.
    + destruct (Hpc _ _ Hg) as (_ & Hf & _). lia.
    + unfold instructionFootprint in Hi. rewrite Hg in Hi. lia.
  - intros t Ht. by apply Htargets.
Qed.

Definition jump (offset : Z) : Instruction :=
  NewInstruction OpDrillTier1 SubOpJump (fst (SplitOffset offset)) (snd (SplitOffset offset)).

Definition jumpIfFalse (reg offset : Z) : Instruction :=
  NewInstruction OpJumpIfFalse reg (fst (SplitOffset offset)) (snd (SplitOffset offset)).

Definition increment (reg : Z) : Instruction := NewTier2Instruction SubOpTier2IncInt reg.

(** A NOP, and a block at 4 entered from 0 and going back to 2. *)
Definition sample_detour : CompiledFunction :=
  setBody (NewNamedFunction "f") [jump 3; nop; increment 1; jump 2; increment 0; jump (-4)].

Theorem compact_once_preserves_execution_witness :
  compactOnce sample_detour None =
    Some (setBody sample_detour [increment 0; increment 1; jump 0], None, true) ∧
  same_runs sample_detour (setBody sample_detour [increment 0; increment 1; jump 0]).
Proof.
  assert (Hrun : compactOnce sample_detour None =
    Some (setBody sample_detour [increment 0; increment 1; jump 0], None, true)) by (vm_compute; reflexivity).
  split; [exact Hrun|].
  eapply (compact_once_preserves_execution sample_detour None
    [false; true; false; false; false; false] [false; true; false; false; false; false]
    {[0 := NewStraightBlock 4 5]});
    [apply plain_compactable; vm_compute; reflexivity|vm_compute; reflexivity|vm_compute; reflexivity|exact Hrun].
Defined.

(** A branch to a NOP just before a block that moves. *)
Definition sample_skipped : CompiledFunction :=
  setBody (NewNamedFunction "f")
    [jumpIfFalse 0 3; jump 3; increment 0; jump 3; nop; increment 1; jump (-5)].

(** [straightBlockFor] asks that no jump but its own leads into a block,
    and looks past the dead words before it for what falls into it, but not for
    jumps to those words: here the branch lands on a NOP that runs into the
    block, the block moves away, and the branch falls off the end of the body.
    The compaction accepts the body and changes what it computes. *)
Theorem straightening_skips_a_block :
  plain_words (Body sample_skipped) = true ∧
  (∃ f', compactBody sample_skipped None = Some (f', None, true) ∧
    let start := NewCallFrame 0 (NewRegisters [0; 0] [] [] []) in
    (registers <$> match execute 20 sample_skipped start with reachedEnd y => Some y | _ => None end) =
      Some (NewRegisters [1; 1] [] [] []) ∧
    (registers <$> match execute 20 f' start with reachedEnd y => Some y | _ => None end) =
      Some (NewRegisters [0; 0] [] [] [])).
Proof.
  split; [vm_compute; reflexivity|].
  eexists. split; [vm_compute; reflexivity|]. cbv zeta. split; vm_compute; reflexivity.
Qed.
