(* ===== verification/Splice.v ===== *)
(** * A window of a body rewritten

    What the fusions do to a body: a run of one-word instructions becomes
    modelled instructions with their extension words and padding, over as many
    words.  The layout of the rest of the body stays. *)

From S2P Require Import Prelude SafeConv Register Opcode Instruction Shapes Spec JumpLayout Jumps.
From S2P Require Import Extension Function Builder Verify VerifySound Machine MachineSafe MachineFlow.
From S2P Require Import FuseNarrow PassFacts Ranges RangesSolve Dominators Relocate Liveness OpenMachine LivenessSound LivenessRun.
From S2P Require Import Peephole Compact CompactMarks CompactRecode.

(** ** The words of the new body *)

Lemma setWords_length body i ws : length (setWords body i ws) = length body.
Proof. revert body i. induction ws as [|w ws IH]; intros body i; cbn; [done|]. by rewrite IH, length_zset. Qed.

Lemma setWords_zget body i ws p :
  0 <= i → i + zlen ws <= zlen body →
  zget (setWords body i ws) p = if bool_decide (i <= p < i + zlen ws) then zget ws (p - i) else zget body p.
Proof.
  revert body i. induction ws as [|w ws IH]; intros body i Hi Hlen; cbn [setWords].
  { rewrite bool_decide_eq_false_2 by (cbn; lia). done. }
  cbn [length] in *. rewrite IH by (rewrite ?length_zset; lia).
  destruct (decide (p = i)) as [->|Hne].
  - rewrite bool_decide_eq_false_2, bool_decide_eq_true_2 by lia.
    rewrite zget_zset_eq by lia. by replace (i - i) with 0 by lia.
  - rewrite zget_zset_ne by done. case_bool_decide as H1.
    + rewrite bool_decide_eq_true_2 by lia. rewrite !zget_lookup by lia.
      by replace (Z.to_nat (p - i)) with (S (Z.to_nat (p - (i + 1)))) by lia.
    + by rewrite bool_decide_eq_false_2 by lia.
Qed.

(** ** Instructions with their words *)

Definition padding (w : Instruction) : Prop := iOp w = OpExt ∨ isCanonicalNop w = true.

(** A modelled instruction, all of its words there. *)
Definition solid (b : list Instruction) (p : Z) : Prop :=
  ∃ instr h, zget b p = Some instr ∧ flatDispatchSwitch instr = Some h ∧ iOp instr ≠ OpExt ∧ well_extended b p instr ∧
    (∀ j, p < j < p + span instr → ∃ w, zget b j = Some w ∧ padding w) ∧
    span instr = instructionFootprint b p.

Inductive packedAt (b : list Instruction) : Z → Z → Prop :=
  | packedAt_nil p : packedAt b p p
  | packedAt_cons p q : solid b p → packedAt b (p + instructionFootprint b p) q → packedAt b p q.

Lemma packedAt_le b p q : packedAt b p q → p <= q.
Proof. induction 1 as [|p q _ _ IH]; [done|]. pose proof (instructionFootprint_pos b p). lia. Qed.

Lemma solid_lt b p : solid b p → 0 <= p < zlen b.
Proof. intros (instr & h & Hg & _). by apply zget_Some_range in Hg. Qed.

Lemma packedAt_start b p q : instruction_start b p → packedAt b p q → instruction_start b q.
Proof.
  intros Hst. induction 1 as [|p q Hs _ IH]; [done|]. apply IH, start_next; [done|]. apply solid_lt in Hs; lia.
Qed.

(** The instructions between are those packed. *)
Lemma packedAt_solid b p q s :
  packedAt b p q → instruction_start b p → instruction_start b s → p <= s < q → solid b s.
Proof.
  induction 1 as [|p q Hs _ IH]; intros Hp Hst Hr; [lia|].
  destruct (decide (s = p)) as [->|]; [done|].
  pose proof (start_order b p s Hp Hst ltac:(lia)). apply IH; [|done|lia].
  apply start_next; [done|]. apply solid_lt in Hs; lia.
Qed.

(** The words of a window, instruction by instruction. *)
Inductive packed : list Instruction → Prop :=
  | packed_nil : packed []
  | packed_cons instr h pads rest :
      flatDispatchSwitch instr = Some h → iOp instr ≠ OpExt → zlen pads = span instr - 1 → Forall padding pads →
      well_extended (instr :: pads) 0 instr → packed rest → packed (instr :: pads ++ rest).

Lemma packed_head ws w : packed ws → zget ws 0 = Some w → iOp w ≠ OpExt.
Proof. by intros [|instr h pads rest _ Ho _ _ _ _]; [|intros [= <-]]. Qed.

(** The body has the words of [ws] from [p] on. *)
Definition words_at (b : list Instruction) (p : Z) (ws : list Instruction) : Prop :=
  ∀ j, 0 <= j < zlen ws → zget b (p + j) = zget ws j.

Lemma words_at_app b p ws ws' :
  words_at b p (ws ++ ws') → words_at b p ws ∧ words_at b (p + zlen ws) ws'.
Proof.
  unfold words_at. rewrite length_app. intros H. split; intros j Hj.
  - rewrite H by lia. rewrite !zget_lookup by lia. by rewrite lookup_app_l by lia.
  - replace (p + zlen ws + j) with (p + (zlen ws + j)) by lia. rewrite H by lia.
    rewrite !zget_lookup, lookup_app_r by lia. f_equal. lia.
Qed.

Lemma extensionWordAt_at b p ws j :
  words_at b p ws → 0 <= j < zlen ws → extensionWordAt b (p + j) = extensionWordAt ws j.
Proof. intros H Hj. unfold extensionWordAt. by rewrite H. Qed.

Lemma extensionWordAt_none b p : (∀ w, zget b p = Some w → iOp w ≠ OpExt) → extensionWordAt b p = None.
Proof.
  intros H. unfold extensionWordAt. destruct (zget b p) as [w|]; [|done].
  rewrite (proj2 (Z.eqb_neq _ _)); [done|]. by apply H.
Qed.

Lemma well_extended_at b p instr pads :
  words_at b p (instr :: pads) → zlen pads = span instr - 1 →
  (∀ w, zget b (p + span instr) = Some w → iOp w ≠ OpExt) →
  well_extended (instr :: pads) 0 instr → well_extended b p instr.
Proof.
  intros Hat Hlen Hend Hx. unfold well_extended, span in *.
  assert (He : ∀ j, 0 <= j < zlen (instr :: pads) → extensionWordAt b (p + j) = extensionWordAt (instr :: pads) (0 + j))
    by (intros j Hj; by apply extensionWordAt_at).
  assert (Hbound : ∀ j, is_Some (extensionWordAt (instr :: pads) j) → 0 <= j < zlen (instr :: pads)).
  { intros j [w [Hg _]%extensionWordAt_Some]. by apply zget_Some_range in Hg. }
  destruct (fst (JumpLayoutOf instr)); try done.
  - intros Hf. specialize (Hx Hf). rewrite Hf in *. destruct Hx as [H1 _]. cbn [length] in *.
    split; [by rewrite He by lia|]. apply extensionWordAt_none. done.
  - by rewrite He by (by apply Hbound).
  - destruct Hx. split; rewrite He; try done; by apply Hbound.
  - by rewrite He by (by apply Hbound).
  - by rewrite He by (by apply Hbound).
Qed.

Lemma span_jump instr : fst (JumpLayoutOf instr) ≠ JumpLayoutNone → span instr = JumpFootprint instr.
Proof. unfold span. by destruct (fst (JumpLayoutOf instr)). Qed.

Lemma footprintFrom_exact fuel b p w n :
  0 <= p → zlen b <= Z.of_nat fuel + w - 1 → 1 <= w <= n →
  (∀ j, w <= j < n → ∃ word, zget b (p + j) = Some word ∧ iOp word = OpExt) →
  (∀ word, zget b (p + n) = Some word → iOp word ≠ OpExt) →
  footprintFrom fuel b p w = n.
Proof.
  intros Hp. revert w. induction fuel as [|fuel IH]; intros w Hfuel Hw Hext Hend.
  - cbn. destruct (decide (w = n)) as [->|]; [done|]. destruct (Hext w ltac:(lia)) as (word & Hg%zget_Some_range & _). lia.
  - cbn [footprintFrom]. destruct (decide (w = n)) as [->|].
    + destruct (zget b (p + n)) as [word|] eqn:Hg; [|done]. by rewrite (proj2 (Z.eqb_neq _ _)) by (by apply Hend).
    + destruct (Hext w ltac:(lia)) as (word & -> & ->). rewrite Z.eqb_refl. apply IH; [lia|lia| |done].
      intros j Hj. apply Hext. lia.
Qed.

Lemma packed_at b p ws :
  packed ws → words_at b p ws → 0 <= p → (∀ w, zget b (p + zlen ws) = Some w → iOp w ≠ OpExt) →
  packedAt b p (p + zlen ws).
Proof.
  intros Hp. revert p. induction Hp as [|instr h pads rest Hd Ho Hlen Hpads Hx Hrest IH]; intros p Hat Hp0 Hend.
  { replace (p + zlen []) with p by (cbn; lia). constructor. }
  change (instr :: pads ++ rest) with ((instr :: pads) ++ rest) in *.
  apply words_at_app in Hat as [Hat1 Hat2]. rewrite length_app in *. cbn [length] in *.
  replace (p + Z.of_nat (S (length pads))) with (p + span instr) in Hat2 by lia.
  assert (Htotal : Z.of_nat (S (length pads) + length rest) = span instr + zlen rest) by lia.
  rewrite Htotal in Hend |- *.
  assert (Hnext : ∀ w, zget b (p + span instr) = Some w → iOp w ≠ OpExt).
  { intros w Hg. destruct (decide (rest = [])) as [->|Hne].
    - apply Hend. by rewrite Z.add_0_r.
    - apply (packed_head rest); [done|]. rewrite <- Hat2; [by rewrite Z.add_0_r|]. destruct rest; [done|cbn; lia]. }
  assert (Hg : zget b p = Some instr) by (rewrite <- (Z.add_0_r p), Hat1 by (cbn; lia); done).
  assert (Hwords : ∀ j, p < j < p + span instr → ∃ w, zget b j = Some w ∧ padding w).
  { intros j Hj. destruct (zget_is_Some pads (j - p - 1) ltac:(lia)) as [w Hw].
    exists w. split; [|exact (proj1 (Forall_forall _ _) Hpads w (zget_elem _ _ _ Hw))].
    replace j with (p + (j - p)) by lia. rewrite Hat1 by (cbn; lia). rewrite zget_lookup in Hw |- * by lia.
    by replace (Z.to_nat (j - p)) with (S (Z.to_nat (j - p - 1))) by lia. }
  assert (Hx' : well_extended b p instr) by (by eapply well_extended_at).
  assert (Hfp : span instr = instructionFootprint b p).
  { unfold instructionFootprint. rewrite Hg. case_bool_decide as Hl; [by apply span_jump|].
    symmetry. pose proof (zget_Some_range _ _ _ Hg).
    assert (Hone : span instr = 1 ∨ span instr = 2 ∧ is_Some (extensionWordAt b (p + 1))).
    { revert Hx'. unfold span, well_extended. rewrite Hl. destruct (hasFlag _ _); [|by left].
      intros Hx'. right. split; [done|]. by apply Hx'. }
    apply footprintFrom_exact; [lia|lia|lia| |done]. intros j Hj. destruct Hone as [|[Hs2 [w [Hw Hwo]%extensionWordAt_Some]]]; [lia|].
    exists w. by replace j with 1 by lia. }
  apply packedAt_cons; [by exists instr, h|]. rewrite <- Hfp.
  rewrite Z.add_assoc. apply IH; [done|lia|]. intros w Hw. apply Hend. by rewrite Z.add_assoc.
Qed.

(** ** Bodies the fusions work on *)

(** Tidy bodies that compaction could read, short enough that no jump offset
    leaves its sixteen bits when a jump moves up by a word or two. *)
Record fusible (body : list Instruction) : Prop := {
  fu_tidy : tidy body;
  fu_compactable : compactable body;
  fu_short : zlen body <= 2 ^ 15;
}.

Definition plain_word (w : Instruction) : Prop := wf_instruction w ∧ resolved w = true ∧ narrows_known w.

Lemma footprintFrom_same fuel b b' p w :
  (∀ j, p + w <= j <= p + footprintFrom fuel b p w → extensionWordAt b j = None ↔ extensionWordAt b' j = None) →
  fuel = length b → fuel = length b' →
  footprintFrom fuel b p w = footprintFrom fuel b' p w.
Proof.
  intros H _ _. revert w H. induction fuel as [|fuel IH]; intros w H; cbn [footprintFrom] in *; [done|].
  assert (Hx : ∀ c, extensionWordAt c (p + w) = None ↔ ∀ word, zget c (p + w) = Some word → (iOp word =? OpExt) = false).
  { intros c. unfold extensionWordAt. destruct (zget c (p + w)) as [word|]; [|done].
    destruct (iOp word =? OpExt) eqn:E; split; intros Hc; try done; [|by intros ? [= <-]].
    specialize (Hc word eq_refl). congruence. }
  assert (Hw : p + w <= p + w <= p + match zget b (p + w) with
    | Some word => if iOp word =? OpExt then footprintFrom fuel b p (w + 1) else w | None => w end).
  { destruct (zget b (p + w)) as [word|]; [|lia]. destruct (iOp word =? OpExt); [|lia].
    pose proof (footprintFrom_ge fuel b p (w + 1)). lia. }
  pose proof (H (p + w) Hw) as Hiff. rewrite !Hx in Hiff.
  destruct (zget b (p + w)) as [word|] eqn:Hg; [destruct (iOp word =? OpExt) eqn:Ho|].
  - destruct (zget b' (p + w)) as [word'|] eqn:Hg'; [destruct (iOp word' =? OpExt) eqn:Ho'|].
    + apply IH. intros j Hj. apply H. lia.
    + assert ((iOp word =? OpExt) = false); [|congruence]. apply (proj2 Hiff); [by intros ? [= <-]|done].
    + assert ((iOp word =? OpExt) = false); [|congruence]. by apply (proj2 Hiff).
  - destruct (zget b' (p + w)) as [word'|] eqn:Hg'; [|done].
    rewrite (proj1 Hiff) with (word := word'); [done| |done]. by intros ? [= <-].
  - destruct (zget b' (p + w)) as [word'|] eqn:Hg'; [|done].
    rewrite (proj1 Hiff) with (word := word'); done.
Qed.

Lemma padding_no_jump b p w : zget b p = Some w → padding w → JumpTargetAt b p = None.
Proof.
  intros Hg Hw. unfold JumpTargetAt. rewrite Hg. destruct Hw as [Ho|Hn]; [by rewrite layout_of_extension|].
  by apply isCanonicalNop_nop in Hn as ->.
Qed.

(** Every word of such a body starts an instruction or pads one. *)
Lemma old_words body p :
  fusible body → 0 <= p < zlen body → instruction_start body p ∨ ∃ w, zget body p = Some w ∧ padding w.
Proof.
  intros Hf Hp. destruct (start_covers body p Hp) as (s & Hs & Hr).
  destruct (decide (s = p)) as [->|]; [by left|right].
  destruct (cp_inner _ (fu_compactable _ Hf) s (p - s) Hs ltac:(lia)) as (w & Hg & Hw).
  exists w. by replace (s + (p - s)) with p in Hg by lia.
Qed.

Section splice.
Context (body : list Instruction) (i : Z) (ws : list Instruction).
Context (Hfusible : fusible body) (Hi : 0 <= i) (Hlen : i + zlen ws <= zlen body) (Hsome : 0 < zlen ws).
Context (Hst : instruction_start body i).
Context (Hend : i + zlen ws < zlen body → instruction_start body (i + zlen ws)).
Context (Hpacked : packed ws) (Hplain : Forall plain_word ws).

#[local] Notation k := (zlen ws).
#[local] Notation body' := (setWords body i ws).
#[local] Notation inner p := (i < p < i + k).
#[local] Notation within p := (i <= p < i + k).

Lemma new_length : zlen body' = zlen body.
Proof. by rewrite setWords_length. Qed.

Lemma new_outside p : ¬ within p → zget body' p = zget body p.
Proof. intros Hp. rewrite setWords_zget by done. by rewrite bool_decide_eq_false_2. Qed.

Lemma new_within : words_at body' i ws.
Proof.
  intros j Hj. rewrite setWords_zget by done. rewrite bool_decide_eq_true_2 by lia. f_equal. lia.
Qed.

Lemma old_start_plain p w : instruction_start body p → zget body p = Some w → iOp w ≠ OpExt.
Proof. apply (td_starts _ (fu_tidy _ Hfusible)). Qed.

Lemma after_not_ext w : zget body (i + k) = Some w → iOp w ≠ OpExt.
Proof.
  intros Hg. pose proof (zget_Some_range _ _ _ Hg). apply (old_start_plain (i + k)); [|done]. apply Hend. lia.
Qed.

Lemma spliced_after w : zget body' (i + k) = Some w → iOp w ≠ OpExt.
Proof. rewrite new_outside by lia. apply after_not_ext. Qed.

Lemma new_packed : packedAt body' i (i + k).
Proof. apply packed_at; [done|apply new_within|done|apply spliced_after]. Qed.

Lemma new_head w : zget body' i = Some w → iOp w ≠ OpExt.
Proof.
  pose proof (new_within 0 ltac:(lia)) as H0. rewrite Z.add_0_r in H0. rewrite H0. by apply packed_head.
Qed.

(** Extension words start and end a window alike. *)
Lemma extension_outside j : ¬ inner j → extensionWordAt body' j = extensionWordAt body j.
Proof.
  intros Hj. destruct (decide (j = i)) as [->|Hne].
  - rewrite !extensionWordAt_none; [done| |apply new_head]. intros w. by apply old_start_plain.
  - unfold extensionWordAt. by rewrite new_outside by lia.
Qed.

Lemma span_outside p : instruction_start body p → ¬ within p →
  p + instructionFootprint body p <= i ∨ i + k <= p.
Proof. intros Hp Ho. destruct (decide (i + k <= p)); [by right|left]. apply start_order; [done|done|lia]. Qed.

Lemma footprint_outside p : instruction_start body p → ¬ within p →
  instructionFootprint body' p = instructionFootprint body p.
Proof.
  intros Hp Ho. pose proof (span_outside p Hp Ho) as Hspan. unfold instructionFootprint in *.
  rewrite new_outside by done. destruct (zget body p) as [instr|]; [|done].
  case_bool_decide as Hl; [done|]. rewrite setWords_length. symmetry. apply footprintFrom_same; [|done|by rewrite setWords_length].
  intros j Hj. rewrite extension_outside; [done|]. lia.
Qed.

Lemma starts_forth p : instruction_start body p → p < zlen body → ¬ inner p → instruction_start body' p.
Proof.
  assert (Hbefore : ∀ p, instruction_start body p → p <= i → instruction_start body' p).
  { induction 1 as [|pc Hpc IH Hlt]; intros Hle; [constructor|].
    pose proof (instructionFootprint_pos body pc).
    rewrite <- (footprint_outside pc) by (done || lia). apply start_next; [apply IH; lia|]. by rewrite new_length. }
  assert (Hafter : instruction_start body' (i + k)).
  { eapply packedAt_start, new_packed. by apply Hbefore. }
  induction 1 as [|pc Hpc IH Hlt]; intros Hp Hn; [constructor|].
  pose proof (instructionFootprint_pos body pc).
  destruct (decide (within pc)) as [Hin|Hout].
  - assert (i + k < zlen body) as Hk by lia.
    pose proof (start_order body pc (i + k) Hpc (Hend Hk) ltac:(lia)).
    replace (pc + instructionFootprint body pc) with (i + k) by lia. done.
  - rewrite <- (footprint_outside pc) by done. apply start_next; [apply IH; lia|]. by rewrite new_length.
Qed.

Lemma starts_back p : instruction_start body' p → p < zlen body → ¬ inner p → instruction_start body p.
Proof.
  induction 1 as [|pc Hpc IH Hlt]; intros Hp Hn; [constructor|].
  rewrite new_length in Hlt. pose proof (instructionFootprint_pos body' pc).
  destruct (decide (within pc)) as [Hin|Hout].
  - assert (i + k < zlen body) as Hk by lia.
    pose proof (start_order body' pc (i + k) Hpc (starts_forth _ (Hend Hk) Hk ltac:(lia)) ltac:(lia)).
    replace (pc + instructionFootprint body' pc) with (i + k) by lia. by apply Hend.
  - assert (Hpc' : instruction_start body pc) by (apply IH; lia).
    rewrite footprint_outside by done. by apply start_next.
Qed.

Lemma new_start : instruction_start body' i.
Proof. apply starts_forth; [done|lia|lia]. Qed.

Lemma solid_within p : instruction_start body' p → within p → solid body' p.
Proof. intros Hp Hin. by apply (packedAt_solid body' i (i + k) p new_packed new_start Hp). Qed.

Lemma padding_within p : inner p → ¬ instruction_start body' p → ∃ w, zget body' p = Some w ∧ padding w.
Proof.
  intros Hp Hn. destruct (start_covers body' p) as (s & Hs & Hr); [rewrite new_length; lia|].
  destruct (decide (s = p)) as [->|]; [done|].
  assert (i <= s).
  { destruct (decide (i <= s)); [done|]. pose proof (start_order body' s i Hs new_start ltac:(lia)). lia. }
  destruct (solid_within s Hs ltac:(lia)) as (instr & h & _ & _ & _ & _ & Hw & Hspan). apply Hw. lia.
Qed.

(** *** The jumps *)

Lemma jump_outside p : ¬ within p → JumpTargetAt body' p = JumpTargetAt body p.
Proof.
  intros Ho. destruct (zget body p) as [instr|] eqn:Hg.
  2: { unfold JumpTargetAt. by rewrite new_outside, Hg. }
  pose proof (zget_Some_range _ _ _ Hg).
  destruct (old_words body p Hfusible ltac:(done)) as [Hs|(w & Hw & Hpad)].
  2: { by rewrite (padding_no_jump body p w), (padding_no_jump body' p w) by (done || by rewrite new_outside). }
  pose proof (span_outside p Hs Ho) as Hspan. unfold instructionFootprint in Hspan. rewrite Hg in Hspan.
  unfold JumpTargetAt. rewrite new_outside, Hg by done. unfold JumpFootprint in Hspan.
  destruct (JumpLayoutOf instr) as [layout n] eqn:HL. cbn [fst] in *.
  pose proof (layout_nops instr layout n HL) as [Hn _].
  destruct layout; try done; rewrite bool_decide_eq_true_2 in Hspan by done; cbn [WordCount] in *;
    unfold extensionJumpWordCount, secondExtensionJumpWordCount in *; rewrite ?extension_outside by lia; done.
Qed.

Context (Hout : ∀ p t, instruction_start body p → ¬ within p → JumpTargetAt body p = Some t → ¬ inner t).
Context (Hin : ∀ p t, within p → JumpTargetAt body' p = Some t → t ∈ JumpTargetsOf body ∧ ¬ inner t).

Lemma new_target p t : JumpTargetAt body' p = Some t → t ∈ JumpTargetsOf body ∧ ¬ inner t.
Proof.
  intros Ht. destruct (decide (within p)) as [Hp|Hp]; [by apply (Hin p)|].
  rewrite jump_outside in Ht by done. split; [by eapply JumpTargetAt_elem|].
  assert (Hr : 0 <= p < zlen body).
  { unfold JumpTargetAt in Ht. destruct (zget body p) eqn:Hg; [|done]. by apply zget_Some_range in Hg. }
  destruct (old_words body p Hfusible Hr) as [Hs|(w & Hg & Hw)]; [by apply (Hout p)|].
  by rewrite (padding_no_jump body p w) in Ht.
Qed.

Lemma new_targets t : t ∈ JumpTargetsOf body' → t ∈ JumpTargetsOf body ∧ ¬ inner t.
Proof.
  unfold JumpTargetsOf at 1. rewrite elem_of_list_to_set, list_elem_of_omap. intros (p & _ & Ht). by eapply new_target.
Qed.

Lemma padding_laid b p w h : zget b p = Some w → padding w → flatDispatchSwitch w = Some h →
  well_extended b p w ∧ ∀ j, p < j < p + span w → ∃ word, zget b j = Some word ∧ padding word.
Proof.
  intros Hg Hw _. assert (Hl : fst (JumpLayoutOf w) = JumpLayoutNone ∧
    hasFlag (shFlags (ShapeForInstruction w)) ShapeFlagFollowsExtension = false).
  { destruct Hw as [Ho|Hn]; [|apply isCanonicalNop_nop in Hn as ->; split; reflexivity].
    rewrite layout_of_extension by done. split; [done|]. destruct w as [op a b' c]. cbn in Ho. by subst. }
  destruct Hl as [Hl Hf]. unfold well_extended, span. rewrite Hl, Hf. split; [done|lia].
Qed.

Lemma new_laid_out : laid_out body'.
Proof.
  intros p instr h Hg Hd. pose proof (zget_Some_range _ _ _ Hg) as Hr. rewrite new_length in Hr.
  destruct (decide (within p)) as [Hp|Hp].
  - destruct (decide (p = i)) as [->|Hne].
    + destruct (solid_within i new_start ltac:(lia)) as (w & h' & Hw & _ & _ & Hx & Hpads & _). simplify_eq. by split.
    + destruct (zget_is_Some body' p ltac:(rewrite new_length; lia)) as [w Hw]. simplify_eq.
      destruct (decide (Exists (λ s, s = p) (startsOf body'))) as [Hs|Hs].
      * apply Exists_exists in Hs as (s & Hs & ->).
        assert (instruction_start body' p) as Hs' by (eapply startsFrom_sound, Hs; constructor).
        destruct (solid_within p Hs' Hp) as (w & h' & Hw' & _ & _ & Hx & Hpads & _). simplify_eq. by split.
      * destruct (padding_within p) as (w & Hw' & Hpad); [lia| |simplify_eq; by eapply padding_laid].
        intros Hs'. apply Hs, Exists_exists. exists p. split; [|done]. apply startsOf_complete; [done|rewrite new_length; lia].
  - rewrite new_outside in Hg by done.
    destruct (old_words body p Hfusible ltac:(lia)) as [Hs|(w & Hw & Hpad)].
    2: { simplify_eq. eapply padding_laid; [by rewrite new_outside|done|done]. }
    pose proof (fu_tidy _ Hfusible) as Ht. pose proof (td_walkable _ Ht) as Hwalk.
    destruct (wk_laid_out _ Hwalk p instr h Hg Hd) as [Hx Hpads].
    pose proof (span_outside p Hs Hp) as Hspan. rewrite <- (wk_span _ Hwalk p instr h Hs Hg Hd) in Hspan.
    split.
    + revert Hx Hspan. unfold well_extended, span, JumpFootprint.
      destruct (JumpLayoutOf instr) as [layout n] eqn:HL. pose proof (layout_nops instr layout n HL) as [Hn _].
      cbn [fst]. destruct layout; cbn [WordCount]; unfold extensionJumpWordCount, secondExtensionJumpWordCount;
        try done; try (intros; rewrite ?extension_outside by lia; done).
      destruct (hasFlag _ _); [|done]. intros Hx Hsp. rewrite !extension_outside by lia. done.
    + intros j Hj. rewrite new_outside by lia. by apply Hpads.
Qed.

Lemma spliced_span p instr h :
  instruction_start body' p → zget body' p = Some instr → flatDispatchSwitch instr = Some h →
  span instr = instructionFootprint body' p.
Proof.
  intros Hs Hg Hd. destruct (decide (within p)) as [Hp|Hp].
  - destruct (solid_within p Hs Hp) as (w & h' & Hw & _ & _ & _ & _ & Hsp). by simplify_eq.
  - pose proof (zget_Some_range _ _ _ Hg) as Hr. rewrite new_length in Hr. rewrite new_outside in Hg by done.
    assert (Hs' : instruction_start body p) by (apply starts_back; [done|lia|lia]).
    rewrite footprint_outside by done. by apply (wk_span _ (td_walkable _ (fu_tidy _ Hfusible)) p instr h).
Qed.

Lemma Forall_new (P : Instruction → Prop) : Forall P body → (∀ w, plain_word w → P w) → Forall P body'.
Proof.
  intros Hb Hp. apply Forall_forall. intros w Hw. apply list_elem_of_lookup in Hw as [n Hn].
  assert (Hg : zget body' (Z.of_nat n) = Some w) by (rewrite zget_lookup, Nat2Z.id by lia; done).
  destruct (decide (within (Z.of_nat n))) as [Hw|Hw].
  - replace (Z.of_nat n) with (i + (Z.of_nat n - i)) in Hg by lia. rewrite new_within in Hg by lia.
    apply Hp. exact (proj1 (Forall_forall _ _) Hplain w (zget_elem _ _ _ Hg)).
  - rewrite new_outside in Hg by done. exact (proj1 (Forall_forall _ _) Hb w (zget_elem _ _ _ Hg)).
Qed.

Lemma new_walkable : walkable body'.
Proof.
  pose proof (td_walkable _ (fu_tidy _ Hfusible)) as Hw. split.
  - destruct (wk_wf _ Hw). split; [apply Forall_new; [done|by intros ? (? & _ & _)]|by rewrite new_length].
  - apply new_laid_out.
  - apply spliced_span.
  - intros t [Ht Hn]%new_targets. destruct (wk_targets _ Hw t Ht) as [H0 Hs]. split; [done|].
    rewrite new_length. intros Hlt. apply starts_forth; [by apply Hs|done|done].
Qed.

Lemma splice_fusible : fusible body'.
Proof.
  pose proof (fu_tidy _ Hfusible) as Htidy. split; [split| |].
  - apply new_walkable.
  - intros p instr Hs Hg. destruct (decide (within p)) as [Hp|Hp].
    + destruct (solid_within p Hs Hp) as (w & h & Hw & _ & Ho & _). by simplify_eq.
    + pose proof (zget_Some_range _ _ _ Hg) as Hr. rewrite new_length in Hr. rewrite new_outside in Hg by done.
      apply (old_start_plain p); [|done]. apply starts_back; [done|lia|lia].
  - apply Forall_new; [apply Htidy|by intros ? (_ & _ & ?)].
  - apply Forall_new; [apply Htidy|by intros ? (_ & -> & _)].
  - split.
    + apply new_walkable.
    + intros p j Hs Hj. destruct (decide (within p)) as [Hp|Hp].
      * destruct (solid_within p Hs Hp) as (w & h & _ & _ & _ & _ & Hpads & Hsp).
        apply Hpads. lia.
      * destruct (decide (p < zlen body)) as [Hlt|Hge].
        2: { exfalso. unfold instructionFootprint in Hj. rewrite (proj2 (zget_None _ _)) in Hj by (rewrite new_length; lia). lia. }
        assert (Hs' : instruction_start body p) by (apply starts_back; [done|lia|lia]).
        rewrite footprint_outside in Hj by done. pose proof (span_outside p Hs' Hp).
        rewrite new_outside by lia. by apply (cp_inner _ (fu_compactable _ Hfusible)).
    + intros t [Ht _]%new_targets. rewrite new_length. by apply (cp_targets _ (fu_compactable _ Hfusible)).
  - rewrite new_length. apply Hfusible.
Qed.
End splice.
