(* ===== verification/SpliceRun.v ===== *)
(** * Runs of a body with a window rewritten

    When a window of a function is rewritten, a run that stays out of it is the
    same step by step; if what enters it comes out in a state that differs in
    dead registers alone, every run of the old function that ends without a
    fault of the interpreter ends alike in the new one. *)

From S2P Require Import Prelude SafeConv Register Opcode Instruction Shapes Spec JumpLayout Jumps.
From S2P Require Import Extension Function Builder Verify VerifySound Machine MachineSafe MachineFlow.
From S2P Require Import FuseNarrow PassFacts Ranges RangesSolve Dominators Relocate Liveness OpenMachine LivenessSound LivenessRun.
From S2P Require Import Peephole Compact CompactMarks CompactRecode Splice.

(** ** Runs of the two bodies *)

(** Another function with the same tables, whose integer pools may have grown
    at the end. *)
Definition pools_grow (f g : CompiledFunction) : Prop :=
  StringConstants g = StringConstants f ∧ BoolConstants g = BoolConstants f ∧
  IntConstants f `prefix_of` IntConstants g ∧ UintConstants f `prefix_of` UintConstants g ∧
  CallSites g = CallSites f ∧ ResultKinds g = ResultKinds f.

Definition grows (slot : Z) (h : Handler) : Prop :=
  ∀ f g frame instr, Body g = Body f → pools_grow f g →
    h g frame instr = h f frame instr ∨ ∃ table index, h f frame instr = boundsError table index.

Lemma zget_grown {A} (l l' : list A) n x : l `prefix_of` l' → zget l n = Some x → zget l' n = Some x.
Proof.
  intros [s ->] Hg. pose proof (zget_Some_range _ _ _ Hg). rewrite zget_lookup in Hg |- * by lia.
  by apply lookup_app_l_Some.
Qed.

Ltac solve_grows :=
  intros f g frame [op a b c] Hbody (Hs & Hb & Hi & Hu & _ & _);
  unfold_operation; unfold readExtensionWord; rewrite ?Hbody, ?Hs, ?Hb;
  lazymatch goal with
  | |- context [zget (IntConstants g) ?n] =>
      let E := fresh in destruct (zget (IntConstants f) n) eqn:E;
      [rewrite (zget_grown _ _ _ _ Hi E); left; reflexivity|right; eauto]
  | |- context [UintConstants g] =>
      try (destruct (zget (Body f) (ProgramCounter frame)); [|left; reflexivity]);
      cbn [mbind OpResult_bind mret OpResult_ret];
      lazymatch goal with
      | |- context [zget (UintConstants g) ?n] =>
          let E := fresh in destruct (zget (UintConstants f) n) eqn:E;
          [rewrite (zget_grown _ _ _ _ Hu E); left; reflexivity|right; eauto]
      end
  | |- _ => left; reflexivity
  end.

Lemma grows_arms : Forall (λ arm, grows (fst arm) (snd arm)) flatDispatchArms.
Proof. per_arm solve_grows. Qed.

Lemma row_jump body p row :
  zget body p = Some row → iOp row = OpTypeSwitchCase ∨ InstrIsTier1SubOp row SubOpJump = true →
  JumpTargetAt body p = Some (p + 1 + SignedOffset row).
Proof.
  intros Hg Hrow. unfold JumpTargetAt. rewrite Hg.
  assert (JumpLayoutOf row = (JumpLayoutWord, 0)) as ->; [|done].
  destruct row as [op a b c]. unfold InstrIsTier1SubOp in Hrow. cbn [iOp iA] in Hrow.
  destruct Hrow as [->|Hj]; [reflexivity|]. bool_hyps. subst. reflexivity.
Qed.

Lemma extensionRun_rest (b b' : list Instruction) n :
  (∀ j, (n <= j)%nat → b !! j = b' !! j) → extensionRun (drop n b) = extensionRun (drop n b').
Proof. intros H. f_equal. apply list_eq. intros j. rewrite !lookup_drop. apply H. lia. Qed.

Lemma extensionRun_same (b b' : list Instruction) m n :
  (n <= m)%nat → (∀ j, (n <= j < m)%nat → b !! j = b' !! j) →
  (∀ w, b !! m = Some w → iOp w ≠ OpExt) → (∀ w, b' !! m = Some w → iOp w ≠ OpExt) →
  extensionRun (drop n b) = extensionRun (drop n b').
Proof.
  assert (Hdrop : ∀ (c : list Instruction) n, extensionRun (drop n c) =
    match c !! n with
    | Some w => if iOp w =? OpExt then w :: extensionRun (drop (S n) c) else []
    | None => []
    end).
  { intros c q. destruct (c !! q) as [w|] eqn:Hg; [by rewrite (drop_S _ _ _ Hg)|].
    rewrite drop_ge; [done|]. by apply lookup_ge_None. }
  intros Hnm. remember (m - n)%nat as d eqn:Hd. revert n Hnm Hd. induction d as [|d IH]; intros n Hnm Hd Hsame Hb Hb'.
  - assert (n = m) as -> by lia. rewrite (Hdrop b), (Hdrop b').
    destruct (b !! m) as [w|] eqn:E; [rewrite (proj2 (Z.eqb_neq _ _)) by (by apply Hb)|];
      (destruct (b' !! m) as [w'|] eqn:E'; [rewrite (proj2 (Z.eqb_neq _ _)) by (by apply Hb')|]); done.
  - rewrite (Hdrop b), (Hdrop b'), (Hsame n) by lia. destruct (b' !! n) as [w|]; [|done].
    case_if; [|done]. f_equal. apply IH; [lia|lia|intros; apply Hsame; lia|done|done].
Qed.

Section runs.
Context {W O : Type} (others : W → Instruction → list Instruction → Registers → effect (W:=W) (O:=O)).
Context (f g : CompiledFunction) (i : Z) (ws : list Instruction).

#[local] Notation body := (Body f).
#[local] Notation k := (zlen ws).
#[local] Notation inner p := (i < p < i + k).
#[local] Notation within p := (i <= p < i + k).

(** The window of a fusion: what it was, and that the new function is the old
    one with the window rewritten. *)
Record window : Prop := {
  wd_fusible : fusible body;
  wd_low : 0 <= i;
  wd_high : i + k <= zlen body;
  wd_some : 0 < k;
  wd_start : instruction_start body i;
  wd_end : i + k < zlen body → instruction_start body (i + k);
  wd_packed : packed ws;
  wd_plain : Forall plain_word ws;
  wd_head w : zget body i = Some w → iOp w ≠ OpTypeSwitchCase ∧ InstrIsTier1SubOp w SubOpJump = false;
  wd_old w p : within p → zget body p = Some w → iOp w ≠ OpDefer;
  wd_out p t : instruction_start body p → ¬ within p → JumpTargetAt body p = Some t → ¬ inner t;
  wd_in p t : within p → JumpTargetAt (setWords body i ws) p = Some t → t ∈ JumpTargetsOf body ∧ ¬ inner t;
  wd_body : Body g = setWords body i ws;
  wd_pools : pools_grow f g;
}.

Context (Hw : window).

Lemma window_fusible : fusible (Body g).
Proof. destruct Hw as [? ? ? ? ? ? ? ? ? ? ? ? -> ?]. by apply splice_fusible. Qed.

Lemma window_targets t : t ∈ JumpTargetsOf (Body g) → t ∈ JumpTargetsOf body.
Proof.
  rewrite (wd_body Hw). intros Ht. assert (t ∈ JumpTargetsOf body ∧ ¬ inner t) as [? _]; [|done].
  exact (new_targets _ i ws (wd_fusible Hw) (wd_low Hw) (wd_high Hw) (wd_some Hw) (wd_start Hw)
    (wd_packed Hw) (wd_out Hw) (wd_in Hw) t Ht).
Qed.

Lemma body_outside p : ¬ within p → zget (Body g) p = zget body p.
Proof. destruct Hw as [? ? ? ? ? ? ? ? ? ? ? ? -> ?]. by apply new_outside. Qed.

Lemma out_target p t : ¬ within p → JumpTargetAt body p = Some t → ¬ inner t.
Proof.
  destruct Hw as [Hf ? ? ? ? ? ? ? ? ? Ho ? ? ?]. intros Hp Ht.
  assert (Hr : 0 <= p < zlen body).
  { unfold JumpTargetAt in Ht. destruct (zget body p) eqn:Hg; [|done]. by apply zget_Some_range in Hg. }
  destruct (old_words body p Hf Hr) as [Hs|(w & Hg & Hpad)]; [by apply (Ho p)|].
  by rewrite (padding_no_jump body p w) in Ht.
Qed.

Lemma jump_same p : ¬ within p → JumpTargetAt (Body g) p = JumpTargetAt body p.
Proof. destruct Hw as [? ? ? ? ? ? ? ? ? ? ? ? -> ?]. by apply jump_outside. Qed.

Lemma footprint_same p : instruction_start body p → ¬ within p →
  instructionFootprint (Body g) p = instructionFootprint body p.
Proof. destruct Hw as [? ? ? ? ? ? ? ? ? ? ? ? -> ?]. by apply footprint_outside. Qed.

Lemma outside_span p : instruction_start body p → ¬ within p →
  p + instructionFootprint body p <= i ∨ i + k <= p.
Proof. exact (span_outside body i ws (wd_start Hw) p). Qed.

Lemma switch_same p n t :
  ¬ inner p → switchTarget body p n = Some t → switchTarget (Body g) p n = Some t ∧ ¬ inner t.
Proof.
  revert p. induction n as [|n IH]; intros p Hp; cbn [switchTarget];
    (destruct (zget body p) as [row|] eqn:Hg; [|done]);
    (destruct (decide (p = i)) as [->|Hne];
      [destruct (wd_head Hw _ Hg) as [Hh1 Hh2]; by rewrite (proj2 (Z.eqb_neq _ _) Hh1), Hh2|]);
    assert (Hout : ¬ within p) by lia; rewrite (body_outside p Hout), Hg;
    assert (Hrow : iOp row = OpTypeSwitchCase ∨ InstrIsTier1SubOp row SubOpJump = true →
      JumpTargetAt body p = Some (p + 1 + SignedOffset row)) by (by apply row_jump).
  all: destruct (iOp row =? OpTypeSwitchCase) eqn:Hc; bool_hyps.
  - intros [= <-]. split; [done|]. by apply (out_target p); [|apply Hrow; left].
  - destruct (InstrIsTier1SubOp row SubOpJump); [|done]. intros [= <-]. split; [done|].
    by apply (out_target p); [|apply Hrow; right].
  - apply IH. lia.
  - destruct (InstrIsTier1SubOp row SubOpJump); [|done]. intros [= <-]. split; [done|].
    by apply (out_target p); [|apply Hrow; right].
Qed.

Lemma edge_same p instr e t :
  instruction_start body p → ¬ within p → edgeTarget body p instr e = Some t →
  edgeTarget (Body g) p instr e = Some t ∧ ¬ inner t.
Proof.
  intros Hs Hp. destruct e as [| |n]; cbn [edgeTarget].
  - intros [= <-]. rewrite footprint_same by done. split; [done|].
    pose proof (outside_span p Hs Hp). pose proof (instructionFootprint_pos body p). lia.
  - intros Ht. rewrite jump_same by done. split; [done|]. by eapply out_target.
  - destruct (InstrIsTier1SubOp instr SubOpTypeSwitchJump); [|done]. apply switch_same. lia.
Qed.

Lemma extensions_same p : instruction_start body p → ¬ within p → p < zlen body →
  extensionsAt (Body g) p = extensionsAt body p.
Proof.
  intros Hs Hp Hlt. pose proof (start_nonneg _ _ Hs) as H0. unfold extensionsAt.
  pose proof (outside_span p Hs Hp) as Hspan. pose proof (instructionFootprint_pos body p) as Hpos.
  destruct Hspan as [Hspan|Hspan].
  - apply (extensionRun_same _ _ (Z.to_nat i)).
    + lia.
    + intros j Hj. pose proof (body_outside (Z.of_nat j) ltac:(lia)) as Hb.
      by rewrite !zget_lookup, Nat2Z.id in Hb by lia.
    + intros w. rewrite <- zget_lookup by (by apply wd_low). rewrite (wd_body Hw).
      exact (new_head body i ws (wd_low Hw) (wd_high Hw) (wd_some Hw) (wd_packed Hw) w).
    + intros w. rewrite <- zget_lookup by (by apply wd_low).
      exact (td_starts _ (fu_tidy _ (wd_fusible Hw)) i w (wd_start Hw)).
  - apply extensionRun_rest. intros j Hj. pose proof (body_outside (Z.of_nat j) ltac:(lia)) as Hb.
    by rewrite !zget_lookup, Nat2Z.id in Hb by lia.
Qed.

Lemma packed_no_defer w : w ∈ ws → iOp w ≠ OpDefer.
Proof.
  pose proof (wd_packed Hw) as Hp. revert w. clear Hw. induction Hp as [|instr h pads rest Hd _ _ Hpads _ _ IH]; intros w; [set_solver|].
  rewrite elem_of_cons, elem_of_app. intros [->|[Hin|Hin]]; [| |by apply IH].
  - destruct instr as [op a b c]. intros Ho. cbn in Ho. by subst.
  - destruct (proj1 (Forall_forall _ _) Hpads w Hin) as [->|Hn]; [done|]. by apply isCanonicalNop_nop in Hn as ->.
Qed.

Lemma zget_existsb (b : list Instruction) p :
  existsb p b = true ↔ ∃ n w, zget b n = Some w ∧ p w = true.
Proof.
  rewrite existsb_exists. split.
  - intros (w & [n Hn]%list_elem_of_In%list_elem_of_lookup & Hp). exists (Z.of_nat n), w.
    by rewrite zget_lookup, Nat2Z.id by lia.
  - intros (n & w & Hg & Hp). exists w. split; [|done]. by eapply list_elem_of_In, zget_elem.
Qed.

Lemma results_same r : resultValues g r = resultValues f r.
Proof.
  assert (Hdefer : existsb (λ inst, iOp inst =? OpDefer) (Body g) = existsb (λ inst, iOp inst =? OpDefer) body).
  { apply eq_true_iff_eq. rewrite !zget_existsb. split; intros (n & w & Hg & Hp); exists n, w; (split; [|done]);
      destruct (decide (within n)) as [Hin|Hout]; try (by rewrite body_outside in * by done); exfalso; bool_hyps.
    - rewrite (wd_body Hw) in Hg. replace n with (i + (n - i)) in Hg by lia.
      rewrite (new_within body i ws (wd_low Hw) (wd_high Hw)) in Hg by lia.
      by apply (packed_no_defer w (zget_elem _ _ _ Hg)).
    - by apply (wd_old Hw w n Hin Hg). }
  unfold resultValues, returnSlotCount. rewrite Hdefer. by destruct (wd_pools Hw) as (_ & _ & _ & _ & _ & ->).
Qed.

Lemma modelled_same pc r instr h :
  instruction_start body pc → ¬ within pc → zget body pc = Some instr → flatDispatchSwitch instr = Some h →
  h g (NewCallFrame (pc + 1) r) instr = h f (NewCallFrame (pc + 1) r) instr ∨
  ∃ table index, h f (NewCallFrame (pc + 1) r) instr = boundsError table index.
Proof.
  intros Hs Hout Hg Hd. pose proof (td_walkable _ (fu_tidy _ (wd_fusible Hw))) as Hwalk.
  destruct (wk_laid_out _ Hwalk pc instr h Hg Hd) as [Hext _].
  pose proof (wf_body_zget _ _ _ (wk_wf _ Hwalk) Hg) as Hwf.
  pose proof (wk_span _ Hwalk pc instr h Hs Hg Hd) as Hspan. pose proof (outside_span pc Hs Hout) as Hside.
  assert (Hg' : zget (Body g) pc = Some instr) by (by rewrite body_outside).
  assert (Hsame : ∀ j, 0 <= j < span instr → zget (Body g) (pc + j) = zget body (pc + j)).
  { intros j Hj. apply body_outside. lia. }
  pose proof (forall_arms _ relocates_arms _ _ Hd f (Body g) pc pc r instr instr Hwf Hwf eq_refl eq_refl Hg Hg' Hext) as Ha.
  assert (Hrel : relocated body (Body g) pc pc instr instr).
  { revert Hext Hsame. unfold relocated, well_extended, span, JumpFootprint.
    destruct (JumpLayoutOf instr) as [layout n] eqn:HL. pose proof (layout_nops instr layout n HL) as [Hn _].
    cbn [fst]. destruct layout; cbn [WordCount]; unfold extensionJumpWordCount, secondExtensionJumpWordCount;
      intros Hext Hsame; try done; (split; [done|]).
    - intros j Hj. apply Hsame. lia.
    - destruct Hext as [w Hx]. pose proof Hx as [Hx' Ho]%extensionWordAt_Some. exists w, w.
      rewrite Hsame by lia. done.
    - destruct Hext as [_ [w [Hx Ho]%extensionWordAt_Some]]. split; [apply Hsame; lia|]. exists w, w.
      rewrite Hsame by lia. done.
    - intros j Hj. apply Hsame. lia. }
  specialize (Ha Hrel).
  destruct (forall_arms _ grows_arms _ _ Hd (setBody f (Body g)) g (NewCallFrame (pc + 1) r) instr eq_refl (wd_pools Hw))
    as [->|(table & index & Hb)].
  - left. unfold alike in Ha. destruct (h f (NewCallFrame (pc + 1) r) instr) as [y|t n| |],
      (h (setBody f (Body g)) (NewCallFrame (pc + 1) r) instr) as [y'|t' n'| |]; try done.
    + destruct Ha as [Hr Hpc]. rewrite jump_same in Hpc by done. destruct y as [p1 r1], y' as [p2 r2].
      cbn in Hr, Hpc. subst. f_equal. f_equal. destruct Hpc as [[H1 H2]|(-> & -> & _)]; [congruence|done].
    + by destruct Ha as [-> ->].
  - right. unfold alike in Ha. rewrite Hb in Ha.
    destruct (h f (NewCallFrame (pc + 1) r) instr); try done. eauto.
Qed.

(** A step outside the window is the same, and does not lead into it. *)
Lemma outside_step w pc r :
  instruction_start body pc → pc < zlen body → ¬ within pc →
  match openStep others f w (NewCallFrame pc r) with
  | done_ faulted => True
  | done_ e => openStep others g w (NewCallFrame pc r) = done_ e
  | goto w' x => openStep others g w (NewCallFrame pc r) = goto w' x ∧ ¬ inner (ProgramCounter x) ∧
      (ProgramCounter x < zlen body → instruction_start body (ProgramCounter x))
  end.
Proof.
  intros Hs Hlt Hout. pose proof (td_walkable _ (fu_tidy _ (wd_fusible Hw))) as Hwalk.
  assert (Hlen : zlen (Body g) = zlen body) by (rewrite (wd_body Hw); by rewrite setWords_length).
  unfold openStep. cbn [ProgramCounter registers]. rewrite Hlen, (proj2 (Z.leb_gt _ _)), body_outside by done.
  destruct (zget body pc) as [instr|] eqn:Hg; [|done].
  destruct (flatDispatchSwitch instr) as [h|] eqn:Hd.
  - unfold advance. cbn [ProgramCounter registers].
    destruct (modelled_same pc r instr h Hs Hout Hg Hd) as [->|(t & n & ->)]; [|done].
    destruct (h f (NewCallFrame (pc + 1) r) instr) as [y|t n| |] eqn:Hy; try done; [|by rewrite results_same].
    split; [done|]. destruct (modelled_target f pc r instr h y Hwalk Hs Hg Hd Hy) as [Ht|[-> _]].
    + split; [by apply (out_target pc)|]. apply (start_at_target f (fu_tidy _ (wd_fusible Hw))).
      by eapply JumpTargetAt_elem.
    + pose proof (outside_span pc Hs Hout). pose proof (instructionFootprint_pos body pc).
      split; [lia|]. intros _. by apply start_next.
  - rewrite extensions_same by done. destruct (others w instr (extensionsAt body pc) r) as [w' r' e|o]; [|done].
    destruct (edgeTarget body pc instr e) as [t|] eqn:He; [|done].
    destruct (edge_same pc instr e t Hs Hout He) as [-> Hn]. split; [done|]. split; [done|].
    cbn [ProgramCounter]. by eapply start_after; [apply (wd_fusible Hw)|..].
Qed.

(** What is left to show of a fusion: a run that enters its window does not end
    there, but comes out in a state that differs from one the rewritten window
    leads to in dead registers. *)
Definition passes_through : Prop := ∀ fuel w r e,
  runFor others fuel f w (NewCallFrame i r) = Some e → e ≠ faulted →
  ∃ m x y, (m < fuel)%nat ∧ runFor others m f w x = Some e ∧ reaches g (NewCallFrame i r) y ∧
    close f x y ∧ ¬ inner (ProgramCounter x).

Context (Hothers : Respects f others) (Hpass : passes_through).

Lemma close_runFor n w x y e :
  close f x y → runFor others n f w x = Some e → runFor others n f w y = Some e.
Proof.
  revert w x y. induction n as [|n IH]; intros w x y Hc; [done|]. cbn [runFor].
  pose proof (close_step f others (fu_tidy _ (wd_fusible Hw)) Hothers w x y Hc) as Hstep.
  destruct (openStep others f w x) as [w1 x'|e1], (openStep others f w y) as [w2 y'|e2]; try done.
  - destruct Hstep as [<- Hc']. by apply IH.
  - by subst.
Qed.

(** Runs of the old function that do not fault end as runs of the new one. *)
Lemma window_preserves w x e :
  (ProgramCounter x < zlen body → instruction_start body (ProgramCounter x)) → ¬ inner (ProgramCounter x) →
  ends others f w x e → e ≠ faulted → ends others g w x e.
Proof.
  intros Hx Hn Hends Hne.
  apply (simulated others f g (λ _ x y, x = y ∧ ¬ inner (ProgramCounter x) ∧
    (ProgramCounter x < zlen body → instruction_start body (ProgramCounter x)))) with (x := x); [|by split_and!|done|done].
  clear w x e Hx Hn Hends Hne. intros fuel w x y e (-> & Hn & Hst) Hrun Hne.
  destruct y as [pc r]. cbn [ProgramCounter] in *.
  destruct (decide (pc < zlen body)) as [Hlt|Hge].
  2: { left. apply ends_now. destruct fuel as [|fuel]; [done|]. cbn [runFor] in Hrun. unfold openStep in *.
    cbn [ProgramCounter] in *. rewrite (wd_body Hw), setWords_length. rewrite (proj2 (Z.leb_le _ _)) in Hrun |- * by lia.
    congruence. }
  specialize (Hst Hlt). destruct (decide (pc = i)) as [->|Hpi].
  - right. destruct (Hpass fuel w r e Hrun Hne) as (m & x & y & Hm & Hx & Hreach & Hclose & Hnin).
    exists m, w, y, y. split; [done|]. split; [by apply (close_runFor _ _ x)|].
    destruct Hclose as (Hpc & Hcs & _). rewrite Hpc in *. split_and!; try done.
    intros e' He'. by eapply ends_reaches.
  - destruct fuel as [|fuel]; [done|]. cbn [runFor] in Hrun.
    pose proof (outside_step w pc r Hst Hlt ltac:(lia)) as Hstep.
    destruct (openStep others f w (NewCallFrame pc r)) as [w' x'|e'] eqn:Hs.
    + right. destruct Hstep as (Hg & Hn' & Hst'). exists fuel, w', x', x'. split_and!; try done; [lia|].
      intros e' He'. by eapply ends_later.
    + left. injection Hrun as ->. apply ends_now. by destruct e.
Qed.
End runs.


Arguments wd_fusible {f g i ws} _.
Arguments wd_low {f g i ws} _.
Arguments wd_high {f g i ws} _.
Arguments wd_start {f g i ws} _.
Arguments wd_body {f g i ws} _.
Arguments wd_pools {f g i ws} _.
