(* ===== verification/FusionWindow.v ===== *)
(** * What a fusion has to show

    The windows of [Peephole] over scalar registers: the registers a window
    drops, the handlers on registers that are there, and the two shapes of a
    fusion, one that ends in a branch and one of straight code, each reduced to
    what one run of the old window and one step of the new do. *)

From S2P Require Import Prelude SafeConv Register Opcode Instruction Shapes Spec JumpLayout Jumps.
From S2P Require Import Extension Function Builder Verify VerifySound Machine MachineSafe MachineFlow.
From S2P Require Import FuseNarrow PassFacts Ranges RangesSolve Dominators Relocate Liveness OpenMachine LivenessSound LivenessRun.
From S2P Require Import Peephole Compact CompactMarks CompactRecode Splice SpliceRun.

(** ** Registers after a write *)

Definition setI (r : Registers) (a v : Z) : Registers :=
  NewRegisters (zset (Ints r) a v) (Uints r) (Strings r) (Bools r).
Definition setU (r : Registers) (a v : Z) : Registers :=
  NewRegisters (Ints r) (zset (Uints r) a v) (Strings r) (Bools r).
Definition setS (r : Registers) (a : Z) (v : string) : Registers :=
  NewRegisters (Ints r) (Uints r) (zset (Strings r) a v) (Bools r).

(** The registers a list names. *)
Definition differ_in (r1 r2 : Registers) (names : list (RegisterKind * Z)) : Prop :=
  same_sizes r1 r2 ∧ ∀ kind reg, differ r1 r2 kind reg → (kind, reg) ∈ names.

Lemma differ_in_refl r : differ_in r r [].
Proof. split; [done|]. intros kind reg H. by destruct H. Qed.

Lemma differ_in_weaken r1 r2 names names' :
  differ_in r1 r2 names → (∀ name, name ∈ names → name ∈ names') → differ_in r1 r2 names'.
Proof. intros [Hs Hd] Hsub. split; [done|]. intros kind reg H. by apply Hsub, Hd. Qed.

Lemma differ_setI r1 r2 a v names : differ_in r1 r2 names → differ_in (setI r1 a v) r2 ((RegisterInt, a) :: names).
Proof.
  intros [(H1 & H2 & H3 & H4) Hd]. split.
  { unfold same_sizes, setI. cbn. by rewrite length_zset. }
  intros kind reg Hdf. destruct (decide ((kind, reg) = (RegisterInt, a))) as [->|Hne]; [apply list_elem_of_here|].
  apply list_elem_of_further, Hd. unfold differ, setI in *. by rewrite readReg_setInts in Hdf.
Qed.

Lemma differ_setU r1 r2 a v names : differ_in r1 r2 names → differ_in (setU r1 a v) r2 ((RegisterUint, a) :: names).
Proof.
  intros [(H1 & H2 & H3 & H4) Hd]. split.
  { unfold same_sizes, setU. cbn. by rewrite length_zset. }
  intros kind reg Hdf. destruct (decide ((kind, reg) = (RegisterUint, a))) as [->|Hne]; [apply list_elem_of_here|].
  apply list_elem_of_further, Hd. unfold differ, setU in *. by rewrite readReg_setUints in Hdf.
Qed.

Lemma differ_setS r1 r2 a v names : differ_in r1 r2 names → differ_in (setS r1 a v) r2 ((RegisterString, a) :: names).
Proof.
  intros [(H1 & H2 & H3 & H4) Hd]. split.
  { unfold same_sizes, setS. cbn. by rewrite length_zset. }
  intros kind reg Hdf. destruct (decide ((kind, reg) = (RegisterString, a))) as [->|Hne]; [apply list_elem_of_here|].
  apply list_elem_of_further, Hd. unfold differ, setS in *. by rewrite readReg_setStrings in Hdf.
Qed.

Lemma zget_zset_length {A} (l l' : list A) a v : length l = length l' → zget (zset l a v) a = zget (zset l' a v) a.
Proof.
  intros Hl. destruct (decide (0 <= a < zlen l)).
  - by rewrite !zget_zset_eq by lia.
  - rewrite !(proj2 (zget_None _ _)); [done|rewrite length_zset; lia..].
Qed.

(** The same write on both sides. *)
Lemma differ_bothI r1 r2 a v names :
  differ_in r1 r2 names → differ_in (setI r1 a v) (setI r2 a v) (filter (λ n, n ≠ (RegisterInt, a)) names).
Proof.
  intros [(H1 & H2 & H3 & H4) Hd]. split.
  { unfold same_sizes, setI. cbn. by rewrite !length_zset, H1. }
  intros kind reg Hdf. destruct (decide ((kind, reg) = (RegisterInt, a))) as [[= -> ->]|Hne].
  - exfalso. apply Hdf. unfold readReg, setI. cbn. by rewrite (zget_zset_length _ _ _ _ H1).
  - apply list_elem_of_filter. split; [done|]. apply Hd. unfold differ, setI in *.
    by rewrite !readReg_setInts in Hdf.
Qed.

Lemma differ_bothU r1 r2 a v names :
  differ_in r1 r2 names → differ_in (setU r1 a v) (setU r2 a v) (filter (λ n, n ≠ (RegisterUint, a)) names).
Proof.
  intros [(H1 & H2 & H3 & H4) Hd]. split.
  { unfold same_sizes, setU. cbn. by rewrite !length_zset, H2. }
  intros kind reg Hdf. destruct (decide ((kind, reg) = (RegisterUint, a))) as [[= -> ->]|Hne].
  - exfalso. apply Hdf. unfold readReg, setU. cbn. by rewrite (zget_zset_length _ _ _ _ H2).
  - apply list_elem_of_filter. split; [done|]. apply Hd. unfold differ, setU in *.
    by rewrite !readReg_setUints in Hdf.
Qed.

(** ** Handlers on registers that are there *)

Section eval.
Context (f : CompiledFunction) (p : Z) (r : Registers) (instr : Instruction).

Lemma eval_binaryInt op :
  binaryInt op f (NewCallFrame p r) instr =
    match zget (Ints r) (iB instr), zget (Ints r) (iC instr), zget (Ints r) (iA instr) with
    | Some x, Some y, Some _ => opContinue (NewCallFrame p (setI r (iA instr) (op x y)))
    | _, _, _ => indexPanic
    end.
Proof.
  unfold binaryInt, withRegisters, getInt, setInt, getReg, setReg. cbn [registers ProgramCounter].
  destruct (zget (Ints r) (iB instr)); [|done]. cbn. destruct (zget (Ints r) (iC instr)); [|done]. cbn.
  by destruct (zget (Ints r) (iA instr)).
Qed.

Lemma eval_binaryUint op :
  binaryUint op f (NewCallFrame p r) instr =
    match zget (Uints r) (iB instr), zget (Uints r) (iC instr), zget (Uints r) (iA instr) with
    | Some x, Some y, Some _ => opContinue (NewCallFrame p (setU r (iA instr) (op x y)))
    | _, _, _ => indexPanic
    end.
Proof.
  unfold binaryUint, withRegisters, getUint, setUint, getReg, setReg. cbn [registers ProgramCounter].
  destruct (zget (Uints r) (iB instr)); [|done]. cbn. destruct (zget (Uints r) (iC instr)); [|done]. cbn.
  by destruct (zget (Uints r) (iA instr)).
Qed.

Lemma eval_compareUint op :
  compareUint op f (NewCallFrame p r) instr =
    match zget (Uints r) (iB instr), zget (Uints r) (iC instr), zget (Ints r) (iA instr) with
    | Some x, Some y, Some _ => opContinue (NewCallFrame p (setI r (iA instr) (boolToInt64 (op x y))))
    | _, _, _ => indexPanic
    end.
Proof.
  unfold compareUint, withRegisters, getUint, setInt, getReg, setReg. cbn [registers ProgramCounter].
  destruct (zget (Uints r) (iB instr)); [|done]. cbn. destruct (zget (Uints r) (iC instr)); [|done]. cbn.
  by destruct (zget (Ints r) (iA instr)).
Qed.

Lemma eval_compareString op :
  compareString op f (NewCallFrame p r) instr =
    match zget (Strings r) (iB instr), zget (Strings r) (iC instr), zget (Ints r) (iA instr) with
    | Some x, Some y, Some _ => opContinue (NewCallFrame p (setI r (iA instr) (boolToInt64 (op x y))))
    | _, _, _ => indexPanic
    end.
Proof.
  unfold compareString, withRegisters, getString, setInt, getReg, setReg. cbn [registers ProgramCounter].
  destruct (zget (Strings r) (iB instr)); [|done]. cbn. destruct (zget (Strings r) (iC instr)); [|done]. cbn.
  by destruct (zget (Ints r) (iA instr)).
Qed.

Definition storesI (a : Z) (v : Z) : OpResult CallFrame :=
  match zget (Ints r) a with Some _ => opContinue (NewCallFrame p (setI r a v)) | None => indexPanic end.

Definition storesU (a : Z) (v : Z) : OpResult CallFrame :=
  match zget (Uints r) a with Some _ => opContinue (NewCallFrame p (setU r a v)) | None => indexPanic end.

Lemma eval_setInt a v : withRegisters (NewCallFrame p r) (setInt r a v) = storesI a v.
Proof.
  unfold withRegisters, setInt, setReg, storesI. by destruct (zget (Ints r) a).
Qed.

Lemma eval_incInt :
  reshapeTier2 handleIncInt f (NewCallFrame p r) instr =
    match zget (Ints r) (iC instr) with
    | Some x => opContinue (NewCallFrame p (setI r (iC instr) (wrapS 64 (x + 1))))
    | None => indexPanic
    end.
Proof.
  unfold reshapeTier2, handleIncInt, updateInt, withRegisters, getInt, setInt, getReg, setReg.
  cbn [registers ProgramCounter iA]. by destruct (zget (Ints r) (iC instr)) eqn:E; cbn; rewrite ?E.
Qed.

Lemma eval_moveInt :
  reshapeTier1 handleMoveInt f (NewCallFrame p r) instr =
    match zget (Ints r) (iC instr), zget (Ints r) (iB instr) with
    | Some x, Some _ => opContinue (NewCallFrame p (setI r (iB instr) x))
    | _, _ => indexPanic
    end.
Proof.
  unfold reshapeTier1, handleMoveInt, unaryInt, withRegisters, getInt, setInt, getReg, setReg.
  cbn [registers ProgramCounter iA iB]. destruct (zget (Ints r) (iC instr)); [|done]. cbn.
  by destruct (zget (Ints r) (iB instr)).
Qed.

Lemma eval_lenString :
  reshapeTier1 handleLenString f (NewCallFrame p r) instr =
    match zget (Strings r) (iC instr), zget (Ints r) (iB instr) with
    | Some s, Some _ => opContinue (NewCallFrame p (setI r (iB instr) (wrapS 64 (Z.of_nat (String.length s)))))
    | _, _ => indexPanic
    end.
Proof.
  unfold reshapeTier1, handleLenString, withRegisters, getString, setInt, getReg, setReg.
  cbn [registers ProgramCounter iA iB]. destruct (zget (Strings r) (iC instr)); [|done]. cbn.
  by destruct (zget (Ints r) (iB instr)).
Qed.

Lemma eval_setUint a v :
  withRegisters (NewCallFrame p r) (setUint r a v) = storesU a v.
Proof. unfold storesU, withRegisters, setUint, setReg. by destruct (zget (Uints r) a). Qed.

Lemma eval_setString a v :
  withRegisters (NewCallFrame p r) (setString r a v) =
    match zget (Strings r) a with Some _ => opContinue (NewCallFrame p (setS r a v)) | None => indexPanic end.
Proof. unfold withRegisters, setString, setReg. by destruct (zget (Strings r) a). Qed.

Lemma eval_loadInt :
  handleLoadIntConst f (NewCallFrame p r) instr =
    match zget (IntConstants f) (WideIndex instr) with
    | Some v => storesI (iA instr) v
    | None => boundsError boundsTableIntConstant (WideIndex instr)
    end.
Proof. unfold handleLoadIntConst. destruct (zget _ _); [apply eval_setInt|done]. Qed.

Lemma eval_loadUint :
  handleLoadUintConst f (NewCallFrame p r) instr =
    match zget (UintConstants f) (WideIndex instr) with
    | Some v => storesU (iA instr) v
    | None => boundsError boundsTableUintConstant (WideIndex instr)
    end.
Proof. unfold handleLoadUintConst. destruct (zget _ _); [apply eval_setUint|done]. Qed.

Lemma eval_loadString :
  handleLoadStringConst f (NewCallFrame p r) instr =
    match zget (StringConstants f) (WideIndex instr) with
    | Some v =>
        match zget (Strings r) (iA instr) with
        | Some _ => opContinue (NewCallFrame p (setS r (iA instr) v))
        | None => indexPanic
        end
    | None => boundsError boundsTableStringConstant (WideIndex instr)
    end.
Proof. unfold handleLoadStringConst. destruct (zget _ _); [apply eval_setString|done]. Qed.

Lemma eval_jumpIf (h : Handler) (whenTrue : bool) :
  flatDispatchSwitch instr = Some h → iOp instr = (if whenTrue then OpJumpIfTrue else OpJumpIfFalse) →
  h f (NewCallFrame p r) instr =
    match zget (Ints r) (iA instr) with
    | Some x => opContinue (NewCallFrame
        (if eqb (negb (x =? 0)) whenTrue then p + SignedOffset instr else p) r)
    | None => indexPanic
    end.
Proof.
  intros Hd Ho. destruct instr as [op a b c]. cbn [iOp iA] in *. subst op.
  destruct whenTrue; injection Hd as <-; unfold handleJumpIfTrue, handleJumpIfFalse, getInt, getReg; cbn;
    destruct (zget (Ints r) a) as [x|]; try done; cbn; by destruct (x =? 0).
Qed.

Lemma eval_conditionalJump w (b : bool) :
  zget (Body f) p = Some w →
  conditionalJump f (NewCallFrame p r) b =
    opContinue (NewCallFrame (if b then p + 1 + JoinOffset (iA w) (iB w) else p + 1) r).
Proof. intros Hg. unfold conditionalJump, readExtensionWord. cbn. rewrite Hg. by destruct b. Qed.

Lemma eval_jumpIntConst q k x w :
  zget (IntConstants f) (iC instr) = Some k → zget (Ints r) (iB instr) = Some x → zget (Body f) p = Some w →
  jumpIntConst q f (NewCallFrame p r) instr =
    opContinue (NewCallFrame (if q x k then p + 1 + JoinOffset (iA w) (iB w) else p + 1) r).
Proof.
  intros Hk Hx Hg. unfold jumpIntConst, getInt, getReg. rewrite Hk. cbn [registers]. rewrite Hx.
  cbn [mbind OpResult_bind]. by apply eval_conditionalJump.
Qed.
End eval.

Lemma get_setI_eq r a v : is_Some (zget (Ints r) a) → zget (Ints (setI r a v)) a = Some v.
Proof. intros [x Hx]. apply zget_Some_range in Hx. unfold setI. cbn. by apply zget_zset_eq. Qed.

Lemma get_setI_ne r a b v : a ≠ b → zget (Ints (setI r a v)) b = zget (Ints r) b.
Proof. intros Hne. unfold setI. cbn. by apply zget_zset_ne. Qed.

Lemma get_setS_eq r a v : is_Some (zget (Strings r) a) → zget (Strings (setS r a v)) a = Some v.
Proof. intros [x Hx]. apply zget_Some_range in Hx. unfold setS. cbn. by apply zget_zset_eq. Qed.

Lemma get_setS_ne r a b v : a ≠ b → zget (Strings (setS r a v)) b = zget (Strings r) b.
Proof. intros Hne. unfold setS. cbn. by apply zget_zset_ne. Qed.

Lemma get_setU_eq r a v : is_Some (zget (Uints r) a) → zget (Uints (setU r a v)) a = Some v.
Proof. intros [x Hx]. apply zget_Some_range in Hx. unfold setU. cbn. by apply zget_zset_eq. Qed.

Lemma get_setU_ne r a b v : a ≠ b → zget (Uints (setU r a v)) b = zget (Uints r) b.
Proof. intros Hne. unfold setU. cbn. by apply zget_zset_ne. Qed.

Lemma eval_incIntJumpLt g p r instr x y w :
  zget (Ints r) (iB instr) = Some x → zget (Ints (setI r (iB instr) (wrapS 64 (x + 1)))) (iC instr) = Some y →
  zget (Body g) p = Some w →
  reshapeTier1 handleIncIntJumpLt g (NewCallFrame p r) instr =
    opContinue (NewCallFrame (if wrapS 64 (x + 1) <? y then p + 1 + JoinOffset (iA w) (iB w) else p + 1)
      (setI r (iB instr) (wrapS 64 (x + 1)))).
Proof.
  intros Hx Hy Hg. pose proof (get_setI_eq r (iB instr) (wrapS 64 (x + 1)) (ex_intro _ x Hx)) as Hz.
  unfold setI in *. cbn [Ints] in *.
  unfold reshapeTier1, handleIncIntJumpLt, withRegisters, setInt, getInt, setReg, getReg, readExtensionWord, advance.
  cbn [registers ProgramCounter iA iB]. rewrite Hx.
  cbn [mbind OpResult_bind mret OpResult_ret registers ProgramCounter Ints]. rewrite Hg.
  cbn [mbind OpResult_bind mret OpResult_ret registers ProgramCounter Ints]. rewrite Hz.
  cbn [mbind OpResult_bind mret OpResult_ret registers ProgramCounter Ints]. rewrite Hy.
  cbn [mbind OpResult_bind mret OpResult_ret registers ProgramCounter Ints]. by case_match.
Qed.

Lemma eval_lenStringLtJump g p r instr x s w :
  zget (Ints r) (iB instr) = Some x → zget (Strings r) (iC instr) = Some s → zget (Body g) p = Some w →
  reshapeTier1 handleLenStringLtJumpFalse g (NewCallFrame p r) instr =
    opContinue (NewCallFrame (if wrapS 64 (Z.of_nat (String.length s)) <=? x
      then p + 1 + JoinOffset (iA w) (iB w) else p + 1) r).
Proof.
  intros Hx Hs Hg. unfold reshapeTier1, handleLenStringLtJumpFalse, getInt, getString, getReg, readExtensionWord, advance.
  cbn [registers ProgramCounter iA iB]. rewrite Hg. cbn [mbind OpResult_bind]. rewrite Hx.
  cbn [mbind OpResult_bind]. rewrite Hs. cbn [mbind OpResult_bind mret OpResult_ret]. by case_match.
Qed.

Lemma eval_eqStringConstJump g p r instr k s w :
  zget (StringConstants g) (iC instr) = Some k → zget (Strings r) (iB instr) = Some s → zget (Body g) p = Some w →
  handleEqStringConstJumpFalse g (NewCallFrame p r) instr =
    opContinue (NewCallFrame (if negb (String.eqb s k) then p + 1 + JoinOffset (iA w) (iB w) else p + 1) r).
Proof.
  intros Hk Hs Hg. unfold handleEqStringConstJumpFalse, getString, getReg. rewrite Hk. cbn [registers]. rewrite Hs.
  cbn [mbind OpResult_bind]. rewrite (eval_conditionalJump _ _ _ _ _ Hg).
  by destruct (String.eqb_spec s k); rewrite ?bool_decide_eq_true_2, ?bool_decide_eq_false_2 by done.
Qed.

Lemma eval_eqUintConstJump g p r instr v w :
  zget (Uints r) (iB instr) = Some v → zget (Body g) p = Some w →
  handleSubOpEqUintConstJumpFalse g (NewCallFrame p r) instr =
    opContinue (NewCallFrame (if negb (v =? iC instr) then p + 2 + JoinOffset (iA w) (iB w) else p + 2) r).
Proof.
  intros Hv Hg. unfold handleSubOpEqUintConstJumpFalse, getUint, getReg, readExtensionWord, advance, EqUintConstJumpFalseNopCount.
  cbn [registers ProgramCounter]. rewrite Hg. cbn [mbind OpResult_bind registers ProgramCounter]. rewrite Hv.
  cbn [mbind OpResult_bind mret OpResult_ret]. replace (p + 1 + 1) with (p + 2) by lia. by case_match.
Qed.

Lemma WideIndex_low instr : iC instr = 0 → byte_ok (iB instr) → WideIndex instr = iB instr.
Proof. intros Hc Hb. unfold WideIndex. rewrite Hc, JoinWide_spec by (done || by split). lia. Qed.

Lemma boolToInt64_test b : (boolToInt64 b =? 0) = negb b.
Proof. by destruct b. Qed.

(** ** Windows of one-word instructions *)

Definition one_word (w : Instruction) : Prop :=
  is_Some (flatDispatchSwitch w) ∧ span w = 1 ∧ iOp w ≠ OpExt.

Section fusion.
Context (f : CompiledFunction) (J : gset Z).
Context (Hfusible : fusible (Body f)) (HJ : JumpTargetsOf (Body f) ⊆ J).

#[local] Notation body := (Body f).

Lemma one_word_start p w :
  instruction_start body p → zget body p = Some w → one_word w → instruction_start body (p + 1).
Proof.
  intros Hs Hg ([h Hd] & Hsp & _).
  pose proof (wk_span _ (td_walkable _ (fu_tidy _ Hfusible)) p w h Hs Hg Hd) as Hfp.
  pose proof (zget_Some_range _ _ _ Hg). rewrite <- Hsp, Hfp. apply start_next; [done|lia].
Qed.

Lemma unpadded_start p w :
  zget body p = Some w → iOp w ≠ OpExt → isCanonicalNop w = false → instruction_start body p.
Proof.
  intros Hg Ho Hn. pose proof (zget_Some_range _ _ _ Hg).
  destruct (old_words body p Hfusible ltac:(lia)) as [|(w' & Hg' & [|])]; [done|congruence..].
Qed.

Lemma window_starts i n :
  instruction_start body i → (∀ j, 0 <= j < n → ∃ w, zget body (i + j) = Some w ∧ one_word w) →
  ∀ j, 0 <= j <= n → instruction_start body (i + j).
Proof.
  intros Hs Hall j Hj. assert (Hind : ∀ m : nat, Z.of_nat m <= n → instruction_start body (i + Z.of_nat m)).
  { induction m as [|m IH]; intros Hm; [by rewrite Z.add_0_r|].
    destruct (Hall (Z.of_nat m) ltac:(lia)) as (w & Hg & Hw).
    replace (i + Z.of_nat (S m)) with (i + Z.of_nat m + 1) by lia. eapply one_word_start; [apply IH; lia|done..]. }
  replace j with (Z.of_nat (Z.to_nat j)) by lia. apply Hind. lia.
Qed.

(** A window: its old words, its new words, and where jumps go. *)
Lemma window_intro g i instr' h' pads :
  let ws := instr' :: pads in
  (∀ j, 0 <= j < zlen ws → ∃ w, zget body (i + j) = Some w ∧ one_word w) →
  (∀ w, zget body i = Some w → isCanonicalNop w = false ∧ InstrIsTier1SubOp w SubOpJump = false) →
  (∀ p t, instruction_start body p → ¬ (i <= p < i + zlen ws) → JumpTargetAt body p = Some t →
    ¬ (i < t < i + zlen ws)) →
  (∀ t, JumpTargetAt (setWords body i ws) i = Some t → t ∈ JumpTargetsOf body ∧ ¬ (i < t < i + zlen ws)) →
  packed ws → Forall plain_word ws → Forall padding pads →
  flatDispatchSwitch instr' = Some h' →
  Body g = setWords body i ws → pools_grow f g → window f g i ws.
Proof.
  intros ws Hold Hhead Hout Hin Hpacked Hplain Hpads Hd Hbody Hpools.
  assert (Hlen : 0 < zlen ws) by (unfold ws; cbn; lia).
  destruct (Hold 0 ltac:(lia)) as (w0 & Hg0 & Hw0). rewrite Z.add_0_r in Hg0.
  destruct (Hhead w0 Hg0) as [Hn0 Hj0]. pose proof (zget_Some_range _ _ _ Hg0).
  assert (Hs : instruction_start body i) by (eapply unpadded_start; [done|apply Hw0|done]).
  destruct (Hold (zlen ws - 1) ltac:(lia)) as (w1 & Hg1 & _). pose proof (zget_Some_range _ _ _ Hg1).
  split; try done; try lia.
  - intros _. apply (window_starts i (zlen ws)); [done|done|lia].
  - intros w Hg. assert (w = w0) as -> by congruence. split; [|done]. destruct Hw0 as ([h Hd0] & _). intros Ho.
    destruct w0 as [op a b c]. cbn in Ho. by subst.
  - intros w p Hp Hg Ho. destruct (Hold (p - i) ltac:(lia)) as (w' & Hg' & [h Hd'] & _).
    replace (i + (p - i)) with p in Hg' by lia. assert (w' = w) as -> by congruence. destruct w as [op a b c]. cbn in Ho. by subst.
  - intros p t Hp. destruct (decide (p = i)) as [->|Hne]; [apply Hin|].
    pose proof (new_within body i ws ltac:(lia) ltac:(lia) (p - i) ltac:(lia)) as Hgp.
    replace (i + (p - i)) with p in Hgp by lia.
    destruct (zget_is_Some pads (p - i - 1)) as [w Hw]; [unfold ws in Hp; cbn in Hp; lia|].
    assert (Hgw : zget (setWords body i ws) p = Some w).
    { rewrite Hgp. rewrite zget_lookup in Hw |- * by lia. unfold ws.
      by replace (Z.to_nat (p - i)) with (S (Z.to_nat (p - i - 1))) by lia. }
    by rewrite (padding_no_jump _ p w Hgw (proj1 (Forall_forall _ _) Hpads w (zget_elem _ _ _ Hw))).
Qed.

(** The guard of most fusions: nothing jumps into the window. *)
Lemma no_jump_in i n :
  (∀ j, 0 < j < n → i + j ∉ J) → ∀ t, t ∈ JumpTargetsOf body → ¬ (i < t < i + n).
Proof. intros H t Ht Hin. apply (H (t - i) ltac:(lia)). replace (i + (t - i)) with t by lia. by apply HJ. Qed.

(** ** Fusions that end in a branch *)

Definition condition_jump (whenTrue : bool) : Opcode := if whenTrue then OpJumpIfTrue else OpJumpIfFalse.

Lemma condition_layout whenTrue w : iOp w = condition_jump whenTrue → JumpLayoutOf w = (JumpLayoutWord, 0).
Proof. destruct w as [op a b c]. cbn. intros ->. by destruct whenTrue. Qed.

Lemma condition_one_word whenTrue w : iOp w = condition_jump whenTrue → one_word w.
Proof.
  intros Ho. split; [|split].
  - destruct w as [op a b c]. cbn in Ho. subst. destruct whenTrue; eauto.
  - unfold span, JumpFootprint. by rewrite (condition_layout whenTrue).
  - rewrite Ho. by destruct whenTrue.
Qed.

Lemma condition_target whenTrue b w :
  zget body b = Some w → iOp w = condition_jump whenTrue → JumpTargetAt body b = Some (b + 1 + SignedOffset w).
Proof. intros Hg Ho. unfold JumpTargetAt. by rewrite Hg, (condition_layout whenTrue). Qed.

Definition all_dead_after (b : Z) (names : list (RegisterKind * Z)) : Prop :=
  Forall (λ n, registerDeadAfterBranch f (fst n) (snd n) b = true) names.

Lemma branch_close whenTrue b w names r1 r2 (taken : bool) :
  instruction_start body b → zget body b = Some w → iOp w = condition_jump whenTrue →
  all_dead_after b names → differ_in r1 r2 names →
  let pc := if taken then b + 1 + SignedOffset w else b + 1 in
  close f (NewCallFrame pc r1) (NewCallFrame pc r2).
Proof.
  intros Hs Hg Ho Hdead [Hsz Hd] pc. pose proof (condition_target _ _ _ Hg Ho) as Ht.
  split; [done|]. split; [|split; [done|]]; cbn [ProgramCounter registers].
  - destruct taken; unfold pc.
    + apply (start_at_target f (fu_tidy _ Hfusible)). by eapply JumpTargetAt_elem.
    + intros _. eapply one_word_start; [done|done|by eapply condition_one_word].
  - intros kind reg Hdf. pose proof (proj1 (Forall_forall _ _) Hdead _ (Hd kind reg Hdf)) as Hr. cbn [fst snd] in Hr.
    destruct (registerDeadAfterBranch_ok f kind reg b w Hg Hr) as [Hf (t & Ht' & Hdt)].
    unfold JumpFootprint in Hf. rewrite (condition_layout whenTrue) in Hf by done. unfold pc.
    destruct taken; [by simplify_eq|done].
Qed.

Lemma nops_reach g r p q :
  p <= q <= zlen (Body g) → (∀ j, p <= j < q → zget (Body g) j = Some nop) →
  reaches g (NewCallFrame p r) (NewCallFrame q r).
Proof.
  intros Hpq Hn. remember (Z.to_nat (q - p)) as d eqn:Hd. revert p Hpq Hn Hd.
  induction d as [|d IH]; intros p Hpq Hn Hd; [replace q with p by lia; constructor|].
  apply (reaches_step _ _ (NewCallFrame (p + 1) r)); [|apply IH; [lia| |lia]; intros; apply Hn; lia].
  unfold dispatchStep. cbn [ProgramCounter]. rewrite (proj2 (Z.leb_gt _ _)), Hn by lia. reflexivity.
Qed.

Lemma dispatch_here g p r instr h :
  zget (Body g) p = Some instr → flatDispatchSwitch instr = Some h →
  dispatchStep g (NewCallFrame p r) = Some (h g (NewCallFrame (p + 1) r) instr).
Proof.
  intros Hg Hd. pose proof (zget_Some_range _ _ _ Hg). unfold dispatchStep, advance. cbn [ProgramCounter registers].
  rewrite (proj2 (Z.leb_gt _ _)), Hg, Hd by lia. done.
Qed.

Section branch.
Context {W O : Type} (others : W → Instruction → list Instruction → Registers → effect (W:=W) (O:=O)).
Context (g : CompiledFunction) (i : Z) (ws : list Instruction) (Hw : window f g i ws).
Context (whenTrue : bool) (w : Instruction) (names : list (RegisterKind * Z)) (n : Z).

#[local] Notation k := (zlen ws).
#[local] Notation b := (i + k - 1).

Lemma branch_passes :
  instruction_start body b → zget body b = Some w → iOp w = condition_jump whenTrue →
  all_dead_after b names → ¬ (i < i + k + SignedOffset w < i + k) → 0 < n <= k →
  (∀ j, n <= j < k → zget ws j = Some nop) →
  (∀ fuel v r e, runFor others fuel f v (NewCallFrame i r) = Some e → e ≠ faulted →
    ∃ m r1 r2 taken, (m < fuel)%nat ∧
      runFor others m f v (NewCallFrame (if taken : bool then i + k + SignedOffset w else i + k) r1) = Some e ∧
      differ_in r1 r2 names ∧
      dispatchStep g (NewCallFrame i r) =
        Some (opContinue (NewCallFrame (if taken then i + k + SignedOffset w else i + n) r2))) →
  passes_through others f g i ws.
Proof.
  intros Hs Hg Ho Hdead Hnt Hn Hnops Hold fuel v r e Hrun Hne.
  destruct (Hold fuel v r e Hrun Hne) as (m & r1 & r2 & taken & Hm & Hrun' & Hd & Hstep).
  pose proof (branch_close whenTrue b w names r1 r2 taken Hs Hg Ho Hdead Hd) as Hclose. cbv zeta in Hclose.
  replace (b + 1) with (i + k) in Hclose by lia.
  exists m, (NewCallFrame (if taken then i + k + SignedOffset w else i + k) r1),
    (NewCallFrame (if taken then i + k + SignedOffset w else i + k) r2).
  split; [done|]. split; [done|]. split; [|split; [done|]].
  - eapply reaches_step; [exact Hstep|]. destruct taken; [constructor|]. apply nops_reach.
    + rewrite (wd_body Hw), setWords_length. pose proof (wd_high Hw). lia.
    + intros j Hj. rewrite (wd_body Hw).
      pose proof (new_within body i ws (wd_low Hw) (wd_high Hw) (j - i) ltac:(lia)) as Hgj.
      replace (i + (j - i)) with j in Hgj by lia. rewrite Hgj. apply Hnops. lia.
  - cbn [ProgramCounter]. destruct taken; [done|lia].
Qed.
End branch.

(** A modelled instruction of a run that does not fault goes on. *)
Lemma run_modelled {W O} (others : W → Instruction → list Instruction → Registers → effect (W:=W) (O:=O))
    fuel v p r e instr h :
  runFor others fuel f v (NewCallFrame p r) = Some e → e ≠ faulted → zget body p = Some instr →
  flatDispatchSwitch instr = Some h → h f (NewCallFrame (p + 1) r) instr ≠ integerDivideByZero →
  ∃ y m, fuel = S m ∧ h f (NewCallFrame (p + 1) r) instr = opContinue y ∧ runFor others m f v y = Some e.
Proof.
  intros Hrun Hne Hg Hd Hdiv. destruct (runFor_modelled others fuel f v _ e instr h Hrun Hne Hg Hd) as [?|?]; [|done].
  by unfold advance in *.
Qed.

(** The words of a fused branch: the operation, its offset, and one word of
    padding or none. *)
Lemma offsetWord_padding offset : padding (offsetWord offset).
Proof. unfold offsetWord. destruct (SplitOffset offset). by left. Qed.

Lemma nop_padding : padding nop.
Proof. by right. Qed.

Lemma offsetWord_plain offset : plain_word (offsetWord offset).
Proof.
  unfold offsetWord. destruct (SplitOffset offset) as [lo hi] eqn:E. destruct (SplitOffset_bytes _ _ _ E).
  split; [by split_and!|]. split; [reflexivity|]. intros Ho. discriminate Ho.
Qed.

Lemma nop_plain : plain_word nop.
Proof. split; [by apply (bool_decide_unpack _)|]. split; [reflexivity|]. intros Ho. discriminate Ho. Qed.

Lemma nop_packed rest : packed rest → packed (nop :: rest).
Proof. intros Hr. by apply (packed_cons nop _ [] rest eq_refl). Qed.

(** What each fusion is to be. *)
Definition sound_window (g : CompiledFunction) (i : Z) : Prop :=
  ∃ ws, window f g i ws ∧
    ∀ W O (others : W → Instruction → list Instruction → Registers → effect (W:=W) (O:=O)),
      passes_through others f g i ws.

(** The offset of a jump that moves up a word or two still fits. *)
Lemma moved_offset whenTrue b w d :
  zget body b = Some w → iOp w = condition_jump whenTrue ∨ InstrIsTier1SubOp w SubOpJump = true → 0 <= d <= b →
  wrapS 16 (SignedOffset w + d) = SignedOffset w + d ∧ isS 16 (SignedOffset w + d).
Proof.
  intros Hg Ho Hd. assert (Ht : JumpTargetAt body b = Some (b + 1 + SignedOffset w)).
  { destruct Ho as [Ho|Ho]; [by eapply condition_target|]. apply row_jump; [done|by right]. }
  apply JumpTargetAt_elem in Ht. pose proof (cp_targets _ (fu_compactable _ Hfusible) _ Ht).
  pose proof (fu_short _ Hfusible). pose proof (JoinOffset_range (iB w) (iC w)) as Hr.
  fold (SignedOffset w) in Hr. unfold isS in *. split; [|lia]. apply wrapS_id; [lia|]. unfold isS. lia.
Qed.

Lemma fused_target i instr n offset rest :
  0 <= i → i + zlen (instr :: offsetWord offset :: rest) <= zlen body →
  JumpLayoutOf instr = (JumpLayoutExtension, n) → isS 16 offset →
  JumpTargetAt (setWords body i (instr :: offsetWord offset :: rest)) i = Some (i + 2 + n + offset).
Proof.
  intros Hi Hlen HL Hoff.
  pose proof (new_within body i (instr :: offsetWord offset :: rest) Hi Hlen) as Hat.
  assert (H0 : zget (setWords body i (instr :: offsetWord offset :: rest)) (i + 0) = Some instr)
    by (rewrite Hat by (cbn; lia); reflexivity).
  assert (H1 : zget (setWords body i (instr :: offsetWord offset :: rest)) (i + 1) = Some (offsetWord offset))
    by (rewrite Hat by (cbn; lia); reflexivity).
  rewrite Z.add_0_r in H0. unfold JumpTargetAt, extensionWordAt. rewrite H0, HL, H1.
  unfold offsetWord. destruct (SplitOffset offset) as [lo hi] eqn:E.
  change (iOp (NewInstruction OpExt lo hi 0) =? OpExt) with true. cbn [mbind option_bind iA iB WordCount].
  f_equal. unfold extensionJumpWordCount. by rewrite (JoinOffset_SplitOffset _ _ _ Hoff E).
Qed.

(** The words of a fused branch of two words and padding. *)
Lemma fused_packed instr h n offset pads :
  flatDispatchSwitch instr = Some h → iOp instr ≠ OpExt → JumpLayoutOf instr = (JumpLayoutExtension, n) →
  zlen pads = n → Forall (λ w, w = nop) pads → ∀ rest, packed rest → packed (instr :: offsetWord offset :: pads ++ rest).
Proof.
  intros Hd Ho HL Hn Hpads rest Hrest.
  apply (packed_cons instr h (offsetWord offset :: pads) rest); try done.
  - unfold span, JumpFootprint. rewrite HL. cbn [fst length WordCount]. unfold extensionJumpWordCount. lia.
  - constructor; [apply offsetWord_padding|]. eapply Forall_impl; [exact Hpads|]. intros ? ->. apply nop_padding.
  - unfold well_extended. rewrite HL. cbn [fst]. unfold extensionWordAt.
    change (zget (instr :: offsetWord offset :: pads) (0 + 1)) with (Some (offsetWord offset)).
    unfold offsetWord. destruct (SplitOffset offset). eauto.
Qed.

Lemma nops_packed c : packed (replicate c nop).
Proof. induction c as [|c IH]; cbn [replicate]; [constructor|by apply nop_packed]. Qed.

Lemma zget_replicate_nops c j instr' offset :
  2 <= j < zlen (instr' :: offsetWord offset :: replicate c nop) →
  zget (instr' :: offsetWord offset :: replicate c nop) j = Some nop.
Proof.
  intros Hj. cbn [length] in Hj. rewrite length_replicate in Hj. rewrite zget_lookup by lia.
  replace (Z.to_nat j) with (S (S (Z.to_nat (j - 2)))) by lia. apply lookup_replicate. split; [done|lia].
Qed.

Section branch_fusion.
Context (g : CompiledFunction) (i : Z) (instr' : Instruction) (h' : Handler) (n : Z) (c : nat) (offset : Z).
Context (whenTrue : bool) (w : Instruction) (names : list (RegisterKind * Z)).

#[local] Notation ws := (instr' :: offsetWord offset :: replicate c nop).

Context (Hd : flatDispatchSwitch instr' = Some h') (Ho : iOp instr' ≠ OpExt).
Context (HL : JumpLayoutOf instr' = (JumpLayoutExtension, n)) (Hn : 0 <= n <= Z.of_nat c).
Context (Hplain : plain_word instr') (Hoff : isS 16 offset).
Context (Hold : ∀ j, 0 <= j < zlen ws → ∃ w, zget body (i + j) = Some w ∧ one_word w).
Context (Hhead : ∀ w, zget body i = Some w → isCanonicalNop w = false ∧ InstrIsTier1SubOp w SubOpJump = false).
Context (Hguard : ∀ j, 0 < j < zlen ws → i + j ∉ J).
Context (Hg : zget body (i + zlen ws - 1) = Some w) (Hw : iOp w = condition_jump whenTrue).
Context (Htarget : 2 + n + offset = zlen ws + SignedOffset w).
Context (Hbody : Body g = setWords body i ws) (Hpools : pools_grow f g).

Lemma branch_window : window f g i ws ∧ ¬ (i < i + zlen ws + SignedOffset w < i + zlen ws).
Proof.
  assert (Hlen : zlen ws = Z.of_nat c + 2) by (cbn [length]; rewrite length_replicate; lia).
  destruct (Hold 0 ltac:(lia)) as (w0 & Hg0 & _). rewrite Z.add_0_r in Hg0. pose proof (zget_Some_range _ _ _ Hg0).
  pose proof (zget_Some_range _ _ _ Hg). pose proof (condition_target _ _ _ Hg Hw) as Ht.
  replace (i + zlen ws - 1 + 1) with (i + zlen ws) in Ht by lia. apply JumpTargetAt_elem in Ht.
  pose proof (no_jump_in i (zlen ws) Hguard _ Ht) as Hnt. split; [|done].
  apply (window_intro g i instr' h' (offsetWord offset :: replicate c nop)); try done.
  - intros p t _ _ Htp. apply (no_jump_in i (zlen ws) Hguard). by eapply JumpTargetAt_elem.
  - intros t Htn. rewrite (fused_target i instr' n offset (replicate c nop) ltac:(lia) ltac:(lia) HL Hoff) in Htn.
    replace t with (i + zlen ws + SignedOffset w) by (injection Htn; lia). done.
  - replace (replicate c nop) with (replicate (Z.to_nat n) nop ++ replicate (c - Z.to_nat n) nop).
    2: { rewrite <- replicate_add. f_equal. lia. }
    apply (fused_packed instr' h' n); [done|done|done|rewrite length_replicate; lia| |apply nops_packed].
    apply Forall_replicate. done.
  - constructor; [done|]. constructor; [apply offsetWord_plain|]. apply Forall_replicate, nop_plain.
  - constructor; [apply offsetWord_padding|]. apply Forall_replicate, nop_padding.
Qed.

(** The word a fused branch reads its offset from. *)
Lemma branch_offset_word :
  ∃ word, zget (Body g) (i + 1) = Some word ∧ JoinOffset (iA word) (iB word) = offset.
Proof.
  destruct branch_window as [Hwin _]. exists (offsetWord offset). split.
  - rewrite Hbody. assert (Hlen : zlen ws = Z.of_nat c + 2) by (cbn [length]; rewrite length_replicate; lia).
    by rewrite (new_within body i ws (wd_low Hwin) (wd_high Hwin) 1 ltac:(lia)).
  - unfold offsetWord. destruct (SplitOffset offset) as [lo hi] eqn:E. by apply JoinOffset_SplitOffset.
Qed.

Lemma branch_first_word : zget (Body g) i = Some instr'.
Proof.
  destruct branch_window as [Hwin _]. assert (Hlen : zlen ws = Z.of_nat c + 2) by (cbn [length]; rewrite length_replicate; lia).
  pose proof (new_within body i ws (wd_low Hwin) (wd_high Hwin) 0 ltac:(lia)) as H0. rewrite Z.add_0_r in H0.
  by rewrite Hbody, H0.
Qed.

Lemma branch_fusion :
  all_dead_after (i + zlen ws - 1) names →
  (∀ word, zget (Body g) (i + 1) = Some word → JoinOffset (iA word) (iB word) = offset →
    ∀ W O (others : W → Instruction → list Instruction → Registers → effect (W:=W) (O:=O)) fuel v r e,
    runFor others fuel f v (NewCallFrame i r) = Some e → e ≠ faulted →
    ∃ m r1 r2 taken, (m < fuel)%nat ∧
      runFor others m f v (NewCallFrame (if taken : bool then i + zlen ws + SignedOffset w else i + zlen ws) r1) = Some e ∧
      differ_in r1 r2 names ∧
      h' g (NewCallFrame (i + 1) r) instr' =
        opContinue (NewCallFrame (if taken then i + zlen ws + SignedOffset w else i + 2 + n) r2)) →
  sound_window g i.
Proof.
  intros Hdead Hruns. destruct branch_window as [Hwin Hnt].
  assert (Hlen : zlen ws = Z.of_nat c + 2) by (cbn [length]; rewrite length_replicate; lia).
  exists ws. split; [exact Hwin|]. intros W O others.
  apply (branch_passes others g i ws Hwin whenTrue w names (2 + n)); try done; try lia.
  - replace (i + zlen ws - 1) with (i + (zlen ws - 1)) by lia.
    apply (window_starts i (zlen ws)); [exact (wd_start Hwin)|done|lia].
  - intros j Hj. apply zget_replicate_nops. lia.
  - intros fuel v r e Hrun Hne. destruct branch_offset_word as (word & Hgw & Hword).
    destruct (Hruns word Hgw Hword W O others fuel v r e Hrun Hne) as (m & r1 & r2 & taken & Hm & Hr & Hdf & Hh).
    exists m, r1, r2, taken. split_and!; try done. rewrite (dispatch_here g i r instr' h' branch_first_word Hd), Hh.
    by rewrite Z.add_assoc.
Qed.
End branch_fusion.

(** ** The words of a window *)

Lemma words2_Some b i first second :
  words2 b i = Some (first, second) → zget b i = Some first ∧ zget b (i + 1) = Some second.
Proof.
  unfold words2. destruct (zget b i); [|done]. cbn. destruct (zget b (i + 1)); [|done]. cbn. by intros [= -> ->].
Qed.

Lemma words3_Some b i first second third :
  words3 b i = Some (first, second, third) →
  zget b i = Some first ∧ zget b (i + 1) = Some second ∧ zget b (i + 2) = Some third.
Proof.
  unfold words3. destruct (words2 b i) as [[w1 w2]|] eqn:E; [|done]. apply words2_Some in E as [H1 H2].
  cbn. destruct (zget b (i + 2)); [|done]. cbn. by intros [= -> -> ->].
Qed.

(** The words of a window, from those matched. *)
Lemma window_words2 b i w0 w1 :
  zget b i = Some w0 → zget b (i + 1) = Some w1 → one_word w0 → one_word w1 →
  ∀ j, 0 <= j < 2 → ∃ w, zget b (i + j) = Some w ∧ one_word w.
Proof.
  intros H0 H1 Hw0 Hw1 j Hj. destruct (decide (j = 0)) as [->|]; [exists w0; by rewrite Z.add_0_r|].
  exists w1. by replace j with 1 by lia.
Qed.

Lemma window_words3 b i w0 w1 w2 :
  zget b i = Some w0 → zget b (i + 1) = Some w1 → zget b (i + 2) = Some w2 →
  one_word w0 → one_word w1 → one_word w2 →
  ∀ j, 0 <= j < 3 → ∃ w, zget b (i + j) = Some w ∧ one_word w.
Proof.
  intros H0 H1 H2 Hw0 Hw1 Hw2 j Hj. destruct (decide (j = 2)) as [->|]; [by exists w2|].
  apply (window_words2 b i w0 w1); try done. lia.
Qed.

Lemma one_word_dispatch w h : flatDispatchSwitch w = Some h → span w = 1 → iOp w ≠ OpExt → one_word w.
Proof. intros. split; [eauto|done]. Qed.

(** The bytes of a matched word are bytes. *)
Lemma word_bytes p w : zget body p = Some w → wf_instruction w.
Proof. intros Hg. exact (wf_body_zget _ _ _ (wk_wf _ (td_walkable _ (fu_tidy _ Hfusible))) Hg). Qed.

Lemma guard2 i n : bool_decide (i + 1 ∈ J) = false → n = 2 → ∀ j, 0 < j < n → i + j ∉ J.
Proof. intros H%bool_decide_eq_false -> j Hj. by replace j with 1 by lia. Qed.

Lemma guard3 i n :
  bool_decide (i + 1 ∈ J) = false → bool_decide (i + 2 ∈ J) = false → n = 3 → ∀ j, 0 < j < n → i + j ∉ J.
Proof.
  intros H1%bool_decide_eq_false H2%bool_decide_eq_false -> j Hj.
  destruct (decide (j = 1)) as [->|]; [done|]. by replace j with 2 by lia.
Qed.

Lemma pools_grow_refl : ∀ words i, pools_grow f (rewrite f i words).
Proof. by intros words i. Qed.

Lemma fused_plain subOp b c :
  byte_ok subOp → resolved (NewTier1Instruction subOp b c) = true → byte_ok b → byte_ok c →
  plain_word (NewTier1Instruction subOp b c).
Proof.
  intros Hs Hr Hb Hc. split; [|split; [exact Hr|]].
  - split_and!; cbn; try done. by rewrite wrapU_id.
  - intros Ho. discriminate Ho.
Qed.

Lemma tier0_head w : iOp w ≠ OpDrillTier1 → isCanonicalNop w = false ∧ InstrIsTier1SubOp w SubOpJump = false.
Proof.
  intros Ho%Z.eqb_neq. unfold isCanonicalNop, InstrIsTier1SubOp. by rewrite Ho.
Qed.

Lemma tier1_head w sub :
  InstrIsTier1SubOp w sub = true → sub ≠ SubOpJump → sub ≠ SubOpDrillTier2 →
  isCanonicalNop w = false ∧ InstrIsTier1SubOp w SubOpJump = false.
Proof.
  unfold InstrIsTier1SubOp, isCanonicalNop. intros H Hj Hd. bool_hyps. subst.
  rewrite (proj2 (Z.eqb_neq _ _) Hj), (proj2 (Z.eqb_neq _ _) Hd), !andb_false_r. done.
Qed.

Lemma tier2_head w sub :
  InstrIsTier2SubOp w sub = true → sub ≠ SubOpTier2DrillTier3 →
  isCanonicalNop w = false ∧ InstrIsTier1SubOp w SubOpJump = false.
Proof.
  unfold InstrIsTier2SubOp, InstrIsTier1SubOp, isCanonicalNop. intros H Hd. bool_hyps.
  match goal with H : iA w = _ |- _ => rewrite H end. split; [|by rewrite andb_comm].
  match goal with H : iB w = _ |- _ => rewrite H end. by rewrite (proj2 (Z.eqb_neq _ _) Hd), !andb_false_r.
Qed.

(** *** Loads of constants *)

Lemma eval_loadUintSmall g p r instr :
  handleFlatSubOpLoadUintConstSmall g (NewCallFrame p r) instr = storesU p r (iB instr) (iC instr).
Proof. apply eval_setUint. Qed.

Lemma eval_loadIntSmall g p r instr :
  handleFlatSubOpLoadIntConstSmall g (NewCallFrame p r) instr = storesI p r (iB instr) (iC instr).
Proof. apply eval_setInt. Qed.

Lemma tier1_word w sub : InstrIsTier1SubOp w sub = true → w = NewInstruction OpDrillTier1 sub (iB w) (iC w).
Proof. destruct w as [op a b c]. unfold InstrIsTier1SubOp. cbn. intros H. bool_hyps. by subst. Qed.

(** A load of a small unsigned constant. *)
Lemma small_uint_load load v reg :
  typed_pools f → wf_instruction load → matchSmallUintConstLoad f load = Some (v, reg) →
  byte_ok v ∧ one_word load ∧ isCanonicalNop load = false ∧ InstrIsTier1SubOp load SubOpJump = false ∧
  ∃ h, flatDispatchSwitch load = Some h ∧ ∀ p r, h f (NewCallFrame p r) load = storesU p r reg v.
Proof.
  intros Hpools (_ & Ha & Hb & Hc). unfold matchSmallUintConstLoad.
  destruct (InstrIsTier1SubOp load SubOpLoadUintConstSmall) eqn:Hs.
  - intros [= <- <-]. destruct (tier1_head _ _ Hs ltac:(done) ltac:(done)) as [Hn Hj].
    apply tier1_word in Hs. split_and!; try done.
    + rewrite Hs. by eapply one_word_dispatch.
    + exists handleFlatSubOpLoadUintConstSmall. split; [by rewrite Hs|]. intros p r. apply eval_loadUintSmall.
  - case_if; [done|]. destruct (zget (UintConstants f) (iB load)) as [value|] eqn:Hv; [|done].
    case_if; [done|]. intros [= <- <-]. bool_hyps.
    match goal with H : iOp load = _ |- _ => rename H into Hload end.
    match goal with H : iC load = 0 |- _ => rename H into Hc0 end.
    pose proof (typed_uintConstant _ _ _ Hv Hpools) as Hu. unfold MaxUint8 in *.
    rewrite wrapU_id by (unfold isU in *; lia). destruct (tier0_head load) as [Hn Hj]; [by rewrite Hload|].
    split_and!; try done; [by (unfold byte_ok, isU in *; lia)| |].
    + destruct load as [o0 a0 b0 c0]. cbn [iOp] in *. subst. by eapply one_word_dispatch.
    + exists handleLoadUintConst. split; [destruct load as [o0 a0 b0 c0]; cbn [iOp] in *; by subst|].
      intros p r. by rewrite eval_loadUint, WideIndex_low, Hv.
Qed.

(** *** Fusions of straight code *)

Section straight_fusion.
Context (g : CompiledFunction) (i : Z) (instr' : Instruction) (h' : Handler) (pads : list Instruction) (n : Z).
Context (names : list (RegisterKind * Z)).

#[local] Notation ws := (instr' :: pads).
#[local] Notation k := (zlen ws).

Context (Hd : flatDispatchSwitch instr' = Some h') (HL : JumpLayoutOf instr' = (JumpLayoutNone, 0)).
Context (Hold : ∀ j, 0 <= j < k → ∃ w, zget body (i + j) = Some w ∧ one_word w).
Context (Hhead : ∀ w, zget body i = Some w → isCanonicalNop w = false ∧ InstrIsTier1SubOp w SubOpJump = false).
Context (Hguard : ∀ j, 0 < j < k → i + j ∉ J).
Context (Hpacked : packed ws) (Hplain : Forall plain_word ws) (Hpads : Forall padding pads).
Context (Hbody : Body g = setWords body i ws) (Hpools : pools_grow f g).
Context (Hn : 0 < n <= k) (Hnops : ∀ j, n <= j < k → zget ws j = Some nop).
Context (Hdead : Forall (λ name, registerDeadFrom f (fst name) (snd name) (i + k) = true) names).

Lemma straight_window : window f g i ws.
Proof.
  assert (Hlen : 0 < k) by (cbn; lia).
  destruct (Hold (k - 1) ltac:(lia)) as (w1 & Hg1 & _). pose proof (zget_Some_range _ _ _ Hg1).
  destruct (Hold 0 ltac:(lia)) as (w0 & Hg0 & _). rewrite Z.add_0_r in Hg0. pose proof (zget_Some_range _ _ _ Hg0).
  apply (window_intro g i instr' h' pads); try done.
  - intros p t _ _ Htp. apply (no_jump_in i k Hguard). by eapply JumpTargetAt_elem.
  - intros t Ht. pose proof (new_within body i ws ltac:(lia) ltac:(lia) 0 ltac:(lia)) as Hfirst.
    rewrite Z.add_0_r in Hfirst. unfold JumpTargetAt in Ht. rewrite Hfirst, zget_lookup in Ht by lia. change (Z.to_nat 0) with O in Ht. change (ws !! O) with (Some instr') in Ht. cbn [mbind option_bind] in Ht. by rewrite HL in Ht.
Qed.

Lemma straight_fusion :
  (∀ W O (others : W → Instruction → list Instruction → Registers → effect (W:=W) (O:=O)) fuel v r e,
    runFor others fuel f v (NewCallFrame i r) = Some e → e ≠ faulted →
    ∃ m r1 r2, (m < fuel)%nat ∧ runFor others m f v (NewCallFrame (i + k) r1) = Some e ∧
      differ_in r1 r2 names ∧ h' g (NewCallFrame (i + 1) r) instr' = opContinue (NewCallFrame (i + n) r2)) →
  sound_window g i.
Proof.
  intros Hruns. pose proof straight_window as Hwin. exists ws. split; [exact Hwin|].
  intros W O others fuel v r e Hrun Hne. destruct (Hruns W O others fuel v r e Hrun Hne) as (m & r1 & r2 & Hm & Hr & [Hsz Hdf] & Hh).
  pose proof (wd_low Hwin) as Hlow. pose proof (wd_high Hwin) as Hhigh.
  assert (Hat : words_at (Body g) i ws) by (rewrite Hbody; by apply new_within).
  assert (Hg0 : zget (Body g) i = Some instr') by (rewrite <- (Z.add_0_r i), Hat by (cbn; lia); done).
  exists m, (NewCallFrame (i + k) r1), (NewCallFrame (i + k) r2). split; [done|]. split; [done|].
  split; [|split; [|cbn [ProgramCounter]; lia]].
  - eapply reaches_step; [rewrite (dispatch_here g i r instr' h' Hg0 Hd), Hh; reflexivity|].
    apply nops_reach; [rewrite Hbody, setWords_length; lia|]. intros j Hj.
    replace j with (i + (j - i)) by lia. rewrite Hat by lia. apply Hnops. lia.
  - split; [done|]. split; [|split; [done|]]; cbn [ProgramCounter registers].
    + exact (wd_end _ _ _ _ Hwin).
    + intros kind reg Hk. apply registerDeadFrom_ok. exact (proj1 (Forall_forall _ _) Hdead _ (Hdf kind reg Hk)).
Qed.
End straight_fusion.
End fusion.

(** ** Running a window *)

(** Runs one modelled instruction of the window, whose handler the lemma
    evaluates, and what is left to show of lists and names. *)
Ltac window_length :=
  cbn [length replicate]; change (Z.of_nat 3) with 3; change (Z.of_nat 2) with 2.

Ltac dead_names :=
  unfold all_dead_after; repeat (apply Forall_cons_2; [cbn [fst snd]; assumption|]); apply Forall_nil_2.

Ltac split_zget H :=
  repeat match type of H with context [match zget ?l ?i with _ => _ end] =>
    let E := fresh "E" in destruct (zget l i) eqn:E; [|discriminate H] end.

Ltac split_goal :=
  repeat match goal with |- context [match zget ?l ?i with _ => _ end] => destruct (zget l i); [|discriminate] end;
  discriminate.

Ltac run_step Hrun Hne Hg Hd evaluate :=
  let y := fresh "y" in let m := fresh "m" in let Hy := fresh "Hy" in let Hnext := fresh "Hnext" in
  edestruct (run_modelled _ _ _ _ _ _ _ _ _ Hrun Hne Hg Hd) as (y & m & -> & Hy & Hnext);
  [rewrite evaluate; unfold storesI, storesU; split_goal|];
  rewrite evaluate in Hy; unfold storesI, storesU in Hy; split_zget Hy;
  injection Hy as <-; clear Hrun; rename Hnext into Hrun.

