(* ===== verification/CompareFusion.v ===== *)
(** * Comparisons fused with their branches

    The fusions of [Peephole] that end in a branch: a comparison with a
    constant or of registers, an increment or a length compared, a string or an
    unsigned constant.  Each leaves a window that does what the old one did, up
    to registers that are dead. *)

From S2P Require Import Prelude SafeConv Register Opcode Instruction Shapes Spec JumpLayout Jumps.
From S2P Require Import Extension Function Builder Verify VerifySound Machine MachineSafe MachineFlow.
From S2P Require Import FuseNarrow PassFacts Ranges RangesSolve Dominators Relocate Liveness OpenMachine LivenessSound LivenessRun.
From S2P Require Import Peephole Compact CompactMarks CompactRecode Splice SpliceRun.
From S2P Require Import FusionWindow.

Section fusion.
Context (f : CompiledFunction) (J : gset Z).
Context (Hfusible : fusible (Body f)) (HJ : JumpTargetsOf (Body f) ⊆ J).

#[local] Notation body := (Body f).
#[local] Notation sound_window := (FusionWindow.sound_window f).
#[local] Notation small_uint_load := (FusionWindow.small_uint_load f).
#[local] Notation moved_offset := (FusionWindow.moved_offset f Hfusible).
#[local] Notation word_bytes := (FusionWindow.word_bytes f Hfusible).
#[local] Notation branch_fusion := (FusionWindow.branch_fusion f J Hfusible HJ).
#[local] Notation guard2 := (FusionWindow.guard2 J).
#[local] Notation guard3 := (FusionWindow.guard3 J).

(** *** A comparison with a constant *)

(** The comparison of a fused branch, and when it is taken. *)
Record fuses_compare (fusion : compareConstFusion) (whenTrue : bool) (test : Z → Z → bool) : Prop := {
  fc_jump : jump fusion = condition_jump whenTrue;
  fc_compare a b c : ∃ h, flatDispatchSwitch (NewInstruction (compare fusion) a b c) = Some h ∧
    h = binaryInt (λ x y, boolToInt64 (test x y));
  fc_word a b c : one_word (NewInstruction (compare fusion) a b c);
  fc_fused b c : ∃ q, flatDispatchSwitch (NewTier1Instruction (fused fusion) b c) = Some (jumpIntConst q) ∧
    ∀ x k, q x k = eqb (test x k) whenTrue;
  fc_layout b c : JumpLayoutOf (NewTier1Instruction (fused fusion) b c) = (JumpLayoutExtension, 0);
  fc_plain b c : byte_ok b → byte_ok c → plain_word (NewTier1Instruction (fused fusion) b c);
}.

Lemma fuseCompareConstJump_ok fusion whenTrue test i g :
  fuses_compare fusion whenTrue test → fuseCompareConstJump J fusion f i = Some g → sound_window g i.
Proof.
  intros Hfc. unfold fuseCompareConstJump. destruct (words3 body i) as [[[load cmp] branch]|] eqn:Hwords; [|done].
  apply words3_Some in Hwords as (Hg0 & Hg1 & Hg2). cbn [mbind option_bind].
  case_if; [done|]. case_if; [done|]. intros [= <-]. bool_hyps.
  assert (Hjump : iOp branch = condition_jump whenTrue) by (by rewrite <- (fc_jump _ _ _ Hfc)).
  pose proof (zget_Some_range _ _ _ Hg0). pose proof (word_bytes _ _ Hg0) as (_ & _ & Hb0 & _).
  pose proof (word_bytes _ _ Hg1) as (_ & _ & Hb1 & _).
  destruct (moved_offset whenTrue (i + 2) branch 1 Hg2 (or_introl Hjump) ltac:(lia)) as [-> Hfit].
  destruct (fc_fused _ _ _ Hfc (iB cmp) (iB load)) as (q & Hq & Hqv).
  assert (Hw1 : one_word cmp) by (destruct cmp as [o1 a1 b1 c1]; cbn [iOp] in *; subst; apply (fc_word _ _ _ Hfc)).
  assert (Hw0 : one_word load ∧ flatDispatchSwitch load = Some handleLoadIntConst).
  { destruct load as [o0 a0 b0 c0]. cbn [iOp] in *. subst. split; [|done]. by eapply one_word_dispatch. }
  destruct Hw0 as [Hw0 Hd0].
  assert (Hd1 : flatDispatchSwitch cmp = Some (binaryInt (λ x y, boolToInt64 (test x y)))).
  { destruct cmp as [o1 a1 b1 c1]. cbn [iOp] in *. subst. destruct (fc_compare _ _ _ Hfc a1 b1 c1) as (h & -> & ->). done. }
  destruct (condition_one_word whenTrue branch Hjump) as ([h2 Hd2] & Hsp2 & Ho2).
  pose proof (λ p r, eval_jumpIf f p r branch h2 whenTrue Hd2 Hjump) as Hbranch.
  apply (branch_fusion _ i (NewTier1Instruction (fused fusion) (iB cmp) (iB load)) (jumpIntConst q) 0 1
    (SignedOffset branch + 1) whenTrue branch [(RegisterInt, iA cmp); (RegisterInt, iA load)]); try done.
  - apply (fc_layout _ _ _ Hfc).
  - by apply (fc_plain _ _ _ Hfc).
  - by apply (window_words3 _ _ load cmp branch).
  - intros w Hg. assert (w = load) as -> by congruence. destruct load as [o0 a0 b0 c0]. cbn [iOp] in *. by subst.
  - by apply guard3.
  - window_length. by replace (i + 3 - 1) with (i + 2) by lia.
  - window_length. lia.
  - window_length. replace (i + 3 - 1) with (i + 2) by lia. dead_names.
  - intros word Hgw Hword W O others fuel v r e Hrun Hne. window_length.
    run_step Hrun Hne Hg0 Hd0 eval_loadInt. run_step Hrun Hne Hg1 Hd1 eval_binaryInt.
    rewrite <- H7, get_setI_eq in E2 by eauto. rewrite get_setI_ne in E1 by done. injection E2 as <-.
    replace (i + 1 + 1) with (i + 2) in Hrun by lia. run_step Hrun Hne Hg2 Hd2 Hbranch.
    rewrite <- H6, get_setI_eq in E2 by eauto. injection E2 as <-. rewrite boolToInt64_test, negb_involutive in Hrun.
    exists m, (setI (setI r (iA load) z) (iA cmp) (boolToInt64 (test z1 z))), r, (eqb (test z1 z) whenTrue).
    split; [lia|]. split; [by replace (i + 3) with (i + 2 + 1) by lia|].
    split; [apply differ_setI, differ_setI, differ_in_refl|].
    rewrite (eval_jumpIntConst _ _ _ _ q z z1 word); [|by rewrite (WideIndex_low load) in E by done|done|done].
    rewrite Hqv, Hword. f_equal. f_equal. destruct (eqb _ _); lia.
Qed.

Ltac solve_fuses_compare :=
  split;
  [ reflexivity
  | intros; eexists; split; [reflexivity|reflexivity]
  | intros; split; [eexists; reflexivity|split; [reflexivity|discriminate]]
  | intros; eexists; split; [reflexivity|]; intros x k; cbv beta;
    destruct (Z.ltb_spec x k), (Z.leb_spec x k), (Z.ltb_spec k x), (Z.leb_spec k x), (Z.eqb_spec x k); first [reflexivity|exfalso; lia]
  | reflexivity
  | intros; apply fused_plain; [by vm_compute|reflexivity|done|done] ].

Lemma fuses_LeInt : fuses_compare
  {| compare := OpLeInt; jump := OpJumpIfFalse; fused := SubOpLeIntConstJumpFalse |} false Z.leb.
Proof. solve_fuses_compare. Qed.
Lemma fuses_LtInt : fuses_compare
  {| compare := OpLtInt; jump := OpJumpIfFalse; fused := SubOpLtIntConstJumpFalse |} false Z.ltb.
Proof. solve_fuses_compare. Qed.
Lemma fuses_EqInt : fuses_compare
  {| compare := OpEqInt; jump := OpJumpIfFalse; fused := SubOpEqIntConstJumpFalse |} false Z.eqb.
Proof. solve_fuses_compare. Qed.
Lemma fuses_EqInt_true : fuses_compare
  {| compare := OpEqInt; jump := OpJumpIfTrue; fused := SubOpEqIntConstJumpTrue |} true Z.eqb.
Proof. solve_fuses_compare. Qed.
Lemma fuses_GeInt : fuses_compare
  {| compare := OpGeInt; jump := OpJumpIfFalse; fused := SubOpGeIntConstJumpFalse |} false (λ x k, k <=? x).
Proof. solve_fuses_compare. Qed.
Lemma fuses_GtInt : fuses_compare
  {| compare := OpGtInt; jump := OpJumpIfFalse; fused := SubOpGtIntConstJumpFalse |} false (λ x k, k <? x).
Proof. solve_fuses_compare. Qed.

(** *** A comparison of registers *)

Lemma eval_jumpInts q x y word p r instr g :
  zget (Ints r) (iB instr) = Some x → zget (Ints r) (iC instr) = Some y → zget (Body g) p = Some word →
  jumpInts q g (NewCallFrame p r) instr =
    opContinue (NewCallFrame (if q x y then p + 1 + JoinOffset (iA word) (iB word) else p + 1) r).
Proof.
  intros Hx Hy Hg. unfold jumpInts, getInt, getReg. cbn [registers]. rewrite Hx. cbn [mbind OpResult_bind].
  rewrite Hy. cbn [mbind OpResult_bind]. by apply eval_conditionalJump.
Qed.

Record fuses_registers (cmpOp fusedSubOp : Z) (test : Z → Z → bool) : Prop := {
  fr_compare a b c : ∃ h, flatDispatchSwitch (NewInstruction cmpOp a b c) = Some h ∧
    h = binaryInt (λ x y, boolToInt64 (test x y));
  fr_tier0 : cmpOp ≠ OpDrillTier1;
  fr_word a b c : one_word (NewInstruction cmpOp a b c);
  fr_fused b c : ∃ q, flatDispatchSwitch (NewTier1Instruction fusedSubOp b c) = Some (jumpInts q) ∧
    ∀ x y, q x y = negb (test x y);
  fr_layout b c : JumpLayoutOf (NewTier1Instruction fusedSubOp b c) = (JumpLayoutExtension, 0);
  fr_plain b c : byte_ok b → byte_ok c → plain_word (NewTier1Instruction fusedSubOp b c);
}.

Lemma fuseCompareRegJump_ok cmpOp fusedSubOp test i g :
  fuses_registers cmpOp fusedSubOp test → fuseCompareRegJump J cmpOp fusedSubOp f i = Some g → sound_window g i.
Proof.
  intros Hfr. unfold fuseCompareRegJump. destruct (words2 body i) as [[cmp branch]|] eqn:Hwords; [|done].
  apply words2_Some in Hwords as (Hg1 & Hg2). cbn [mbind option_bind].
  case_if; [done|]. case_if; [done|]. intros [= <-]. bool_hyps.
  pose proof (zget_Some_range _ _ _ Hg1). pose proof (word_bytes _ _ Hg1) as (_ & _ & Hb & Hc).
  assert (Hjump : iOp branch = condition_jump false) by done.
  destruct (fr_fused _ _ _ Hfr (iB cmp) (iC cmp)) as (q & Hq & Hqv).
  assert (Hw1 : one_word cmp) by (destruct cmp as [o1 a1 b1 c1]; cbn [iOp] in *; subst; apply (fr_word _ _ _ Hfr)).
  assert (Hd1 : flatDispatchSwitch cmp = Some (binaryInt (λ x y, boolToInt64 (test x y)))).
  { destruct cmp as [o1 a1 b1 c1]. cbn [iOp] in *. subst. destruct (fr_compare _ _ _ Hfr a1 b1 c1) as (h & -> & ->). done. }
  destruct (condition_one_word false branch Hjump) as ([h2 Hd2] & Hsp2 & Ho2).
  pose proof (λ p r, eval_jumpIf f p r branch h2 false Hd2 Hjump) as Hbranch.
  apply (branch_fusion _ i (NewTier1Instruction fusedSubOp (iB cmp) (iC cmp)) (jumpInts q) 0 0
    (SignedOffset branch) false branch [(RegisterInt, iA cmp)]); try done.
  - apply (fr_layout _ _ _ Hfr).
  - by apply (fr_plain _ _ _ Hfr).
  - apply JoinOffset_range.
  - by apply (window_words2 _ _ cmp branch).
  - intros w Hg. assert (w = cmp) as -> by congruence. apply tier0_head. replace (iOp cmp) with cmpOp by congruence. apply Hfr.
  - by apply guard2.
  - window_length. by replace (i + 2 - 1) with (i + 1) by lia.
  - window_length. replace (i + 2 - 1) with (i + 1) by lia. dead_names.
  - intros word Hgw Hword W O others fuel v r e Hrun Hne. window_length.
    run_step Hrun Hne Hg1 Hd1 eval_binaryInt. run_step Hrun Hne Hg2 Hd2 Hbranch.
    assert (iA branch = iA cmp) as Ha by done. rewrite Ha, get_setI_eq in E3 by eauto. injection E3 as <-.
    rewrite boolToInt64_test, negb_involutive in Hrun.
    exists m0, (setI r (iA cmp) (boolToInt64 (test z z0))), r, (negb (test z z0)).
    split; [lia|]. split; [|split; [apply differ_setI, differ_in_refl|]].
    + replace (i + 2) with (i + 1 + 1) by lia. by destruct (test z z0).
    + rewrite (eval_jumpInts q z z0 word) by done. rewrite Hqv, Hword. f_equal. f_equal. destruct (test z z0); cbn; lia.
Qed.

Ltac solve_fuses_registers :=
  split;
  [ intros; eexists; split; [reflexivity|reflexivity]
  | discriminate
  | intros; split; [eexists; reflexivity|split; [reflexivity|discriminate]]
  | intros; eexists; split; [reflexivity|]; intros x k; cbv beta;
    destruct (Z.ltb_spec x k), (Z.leb_spec x k), (Z.ltb_spec k x), (Z.leb_spec k x), (Z.eqb_spec x k);
    first [reflexivity|exfalso; lia]
  | reflexivity
  | intros; apply fused_plain; [by vm_compute|reflexivity|done|done] ].

Lemma registers_LtInt : fuses_registers OpLtInt SubOpLtIntJumpFalse Z.ltb.
Proof. solve_fuses_registers. Qed.
Lemma registers_LeInt : fuses_registers OpLeInt SubOpLeIntJumpFalse Z.leb.
Proof. solve_fuses_registers. Qed.
Lemma registers_GtInt : fuses_registers OpGtInt SubOpGtIntJumpFalse (λ x y, y <? x).
Proof. solve_fuses_registers. Qed.
Lemma registers_GeInt : fuses_registers OpGeInt SubOpGeIntJumpFalse (λ x y, y <=? x).
Proof. solve_fuses_registers. Qed.
Lemma registers_EqInt : fuses_registers OpEqInt SubOpEqIntJumpFalse Z.eqb.
Proof. solve_fuses_registers. Qed.
Lemma registers_NeInt : fuses_registers OpNeInt SubOpNeIntJumpFalse (λ x y, negb (x =? y)).
Proof. solve_fuses_registers. Qed.

(** *** Loops and strings *)

Lemma fuseIncIntJumpLt_ok i g : fuseIncIntJumpLt J f i = Some g → sound_window g i.
Proof.
  unfold fuseIncIntJumpLt. destruct (words3 body i) as [[[inc cmp] branch]|] eqn:Hwords; [|done].
  apply words3_Some in Hwords as (Hg0 & Hg1 & Hg2). cbn [mbind option_bind].
  case_if; [done|]. case_if; [done|]. intros [= <-]. bool_hyps.
  match goal with H : InstrIsTier2SubOp inc _ = true |- _ => rename H into Hinc end.
  match goal with H : iB cmp = iC inc |- _ => rename H into Hbc end.
  match goal with H : iA branch = iA cmp |- _ => rename H into Hac end.
  match goal with H : iA cmp ≠ iC inc |- _ => rename H into Hne0 end.
  match goal with H : iOp cmp = _ |- _ => rename H into Hcmp end.
  assert (Hjump : iOp branch = condition_jump true) by done.
  pose proof (zget_Some_range _ _ _ Hg0). pose proof (word_bytes _ _ Hg0) as (_ & _ & _ & Hb0).
  pose proof (word_bytes _ _ Hg1) as (_ & _ & _ & Hb1).
  destruct (moved_offset true (i + 2) branch 1 Hg2 (or_introl Hjump) ltac:(lia)) as [-> Hfit].
  assert (Hw0 : one_word inc ∧ flatDispatchSwitch inc = Some (reshapeTier2 handleIncInt)).
  { destruct inc as [o0 a0 b0 c0]. unfold InstrIsTier2SubOp in Hinc. cbn in Hinc. bool_hyps. subst.
    split; [by eapply one_word_dispatch|done]. }
  destruct Hw0 as [Hw0 Hd0].
  assert (Hw1 : one_word cmp ∧ flatDispatchSwitch cmp = Some (binaryInt (λ x y, boolToInt64 (x <? y)))).
  { destruct cmp as [o1 a1 b1 c1]. cbn [iOp] in *. subst. split; [by eapply one_word_dispatch|done]. }
  destruct Hw1 as [Hw1 Hd1].
  destruct (condition_one_word true branch Hjump) as ([h2 Hd2] & Hsp2 & Ho2).
  pose proof (λ p r, eval_jumpIf f p r branch h2 true Hd2 Hjump) as Hbranch.
  apply (branch_fusion _ i (NewInstruction OpDrillTier1 SubOpIncIntJumpLt (iC inc) (iC cmp)) (reshapeTier1 handleIncIntJumpLt) 0 1
    (SignedOffset branch + 1) true branch [(RegisterInt, iA cmp)]); try done.
  - by apply (window_words3 _ _ inc cmp branch).
  - intros w Hg. assert (w = inc) as -> by congruence. by apply (tier2_head _ _ Hinc).
  - by apply guard3.
  - window_length. by replace (i + 3 - 1) with (i + 2) by lia.
  - window_length. lia.
  - window_length. replace (i + 3 - 1) with (i + 2) by lia. dead_names.
  - intros word Hgw Hword W O others fuel v r e Hrun Hne. window_length.
    run_step Hrun Hne Hg0 Hd0 eval_incInt. run_step Hrun Hne Hg1 Hd1 eval_binaryInt.
    replace (i + 1 + 1) with (i + 2) in Hrun by lia. run_step Hrun Hne Hg2 Hd2 Hbranch.
    rewrite Hac, get_setI_eq in E4 by eauto. injection E4 as <-. rewrite boolToInt64_test, negb_involutive in Hrun.
    rewrite Hbc, get_setI_eq in E1 by eauto. injection E1 as <-.
    exists m, (setI (setI r (iC inc) (wrapS 64 (z + 1))) (iA cmp) (boolToInt64 (wrapS 64 (z + 1) <? z1))),
      (setI r (iC inc) (wrapS 64 (z + 1))), (wrapS 64 (z + 1) <? z1).
    split; [lia|]. split; [|split; [apply differ_setI, differ_in_refl|]].
    + replace (i + 3) with (i + 2 + 1) by lia. by destruct (_ <? _).
    + rewrite (eval_incIntJumpLt _ _ _ _ z z1 word) by done. cbn [iB]. rewrite Hword. f_equal. f_equal.
      destruct (_ <? _); lia.
Qed.

Lemma fuseLenStringLtJump_ok i g : fuseLenStringLtJump J f i = Some g → sound_window g i.
Proof.
  unfold fuseLenStringLtJump. destruct (words3 body i) as [[[len cmp] branch]|] eqn:Hwords; [|done].
  apply words3_Some in Hwords as (Hg0 & Hg1 & Hg2). cbn [mbind option_bind].
  case_if; [done|]. case_if; [done|]. intros [= <-]. bool_hyps.
  match goal with H : InstrIsTier1SubOp len _ = true |- _ => rename H into Hlen end.
  match goal with H : iB len = iC cmp |- _ => rename H into Hbc end.
  match goal with H : iA cmp = iA branch |- _ => rename H into Hac end.
  match goal with H : iB cmp ≠ iB len |- _ => rename H into Hne0 end.
  match goal with H : iOp cmp = _ |- _ => rename H into Hcmp end.
  assert (Hjump : iOp branch = condition_jump false) by done.
  pose proof (zget_Some_range _ _ _ Hg0). pose proof (word_bytes _ _ Hg0) as (_ & _ & _ & Hb0).
  pose proof (word_bytes _ _ Hg1) as (_ & _ & Hb1 & _).
  destruct (moved_offset false (i + 2) branch 1 Hg2 (or_introl Hjump) ltac:(lia)) as [-> Hfit].
  assert (Hw0 : one_word len ∧ flatDispatchSwitch len = Some (reshapeTier1 handleLenString)).
  { destruct len as [o0 a0 b0 c0]. unfold InstrIsTier1SubOp in Hlen. cbn in Hlen. bool_hyps. subst.
    split; [by eapply one_word_dispatch|done]. }
  destruct Hw0 as [Hw0 Hd0].
  assert (Hw1 : one_word cmp ∧ flatDispatchSwitch cmp = Some (binaryInt (λ x y, boolToInt64 (x <? y)))).
  { destruct cmp as [o1 a1 b1 c1]. cbn [iOp] in *. subst. split; [by eapply one_word_dispatch|done]. }
  destruct Hw1 as [Hw1 Hd1].
  destruct (condition_one_word false branch Hjump) as ([h2 Hd2] & Hsp2 & Ho2).
  pose proof (λ p r, eval_jumpIf f p r branch h2 false Hd2 Hjump) as Hbranch.
  apply (branch_fusion _ i (NewInstruction OpDrillTier1 SubOpLenStringLtJumpFalse (iB cmp) (iC len))
    (reshapeTier1 handleLenStringLtJumpFalse) 0 1
    (SignedOffset branch + 1) false branch [(RegisterInt, iA cmp); (RegisterInt, iB len)]); try done.
  - by apply (window_words3 _ _ len cmp branch).
  - intros w Hg. assert (w = len) as -> by congruence. by apply (tier1_head _ _ Hlen).
  - by apply guard3.
  - window_length. by replace (i + 3 - 1) with (i + 2) by lia.
  - window_length. lia.
  - window_length. replace (i + 3 - 1) with (i + 2) by lia. dead_names.
  - intros word Hgw Hword W O others fuel v r e Hrun Hne. window_length.
    run_step Hrun Hne Hg0 Hd0 eval_lenString. run_step Hrun Hne Hg1 Hd1 eval_binaryInt.
    replace (i + 1 + 1) with (i + 2) in Hrun by lia. run_step Hrun Hne Hg2 Hd2 Hbranch.
    rewrite <- Hac, get_setI_eq in E4 by eauto. injection E4 as <-. rewrite boolToInt64_test, negb_involutive in Hrun.
    rewrite <- Hbc, get_setI_eq in E2 by eauto. injection E2 as <-. rewrite get_setI_ne in E1 by done.
    eexists m, _, r, (wrapS 64 (Z.of_nat (String.length s)) <=? z0).
    split; [lia|]. split; [|split; [apply differ_setI, differ_setI, differ_in_refl|]].
    + rewrite <- Hrun. f_equal. f_equal. replace (i + 3) with (i + 2 + 1) by lia.
      rewrite Z.leb_antisym. by destruct (_ <? _).
    + rewrite (eval_lenStringLtJump _ _ _ _ z0 s word) by done. rewrite Hword. f_equal. f_equal.
      destruct (_ <=? _); lia.
Qed.

Lemma fuseStringConstJump_ok i g : fuseStringConstJump J f i = Some g → sound_window g i.
Proof.
  unfold fuseStringConstJump. destruct (words3 body i) as [[[load cmp] branch]|] eqn:Hwords; [|done].
  apply words3_Some in Hwords as (Hg0 & Hg1 & Hg2). cbn [mbind option_bind].
  case_if; [done|]. case_if; [done|]. intros [= <-]. bool_hyps.
  match goal with H : iOp load = _ |- _ => rename H into Hload end.
  match goal with H : iOp cmp = _ |- _ => rename H into Hcmp end.
  match goal with H : iA load = iC cmp |- _ => rename H into Hbc end.
  match goal with H : iA cmp = iA branch |- _ => rename H into Hac end.
  match goal with H : iB cmp ≠ iA load |- _ => rename H into Hne0 end.
  match goal with H : iC load = 0 |- _ => rename H into Hc0 end.
  assert (Hjump : iOp branch = condition_jump false) by done.
  pose proof (zget_Some_range _ _ _ Hg0). pose proof (word_bytes _ _ Hg0) as (_ & _ & Hb0 & _).
  pose proof (word_bytes _ _ Hg1) as (_ & _ & Hb1 & _).
  destruct (moved_offset false (i + 2) branch 1 Hg2 (or_introl Hjump) ltac:(lia)) as [-> Hfit].
  assert (Hw0 : one_word load ∧ flatDispatchSwitch load = Some handleLoadStringConst).
  { destruct load as [o0 a0 b0 c0]. cbn [iOp] in *. subst. split; [by eapply one_word_dispatch|done]. }
  destruct Hw0 as [Hw0 Hd0].
  assert (Hw1 : one_word cmp ∧ flatDispatchSwitch cmp = Some (compareString String.eqb)).
  { destruct cmp as [o1 a1 b1 c1]. cbn [iOp] in *. subst. split; [by eapply one_word_dispatch|done]. }
  destruct Hw1 as [Hw1 Hd1].
  destruct (condition_one_word false branch Hjump) as ([h2 Hd2] & Hsp2 & Ho2).
  pose proof (λ p r, eval_jumpIf f p r branch h2 false Hd2 Hjump) as Hbranch.
  apply (branch_fusion _ i (NewTier1Instruction SubOpEqStringConstJumpFalse (iB cmp) (iB load))
    handleEqStringConstJumpFalse 0 1
    (SignedOffset branch + 1) false branch [(RegisterInt, iA cmp); (RegisterString, iA load)]); try done.
  - by apply (window_words3 _ _ load cmp branch).
  - intros w Hg. assert (w = load) as -> by congruence. apply tier0_head. by rewrite Hload.
  - by apply guard3.
  - window_length. by replace (i + 3 - 1) with (i + 2) by lia.
  - window_length. lia.
  - window_length. replace (i + 3 - 1) with (i + 2) by lia. dead_names.
  - intros word Hgw Hword W O others fuel v r e Hrun Hne. window_length.
    run_step Hrun Hne Hg0 Hd0 eval_loadString. run_step Hrun Hne Hg1 Hd1 eval_compareString.
    replace (i + 1 + 1) with (i + 2) in Hrun by lia. run_step Hrun Hne Hg2 Hd2 Hbranch.
    rewrite <- Hac, get_setI_eq in E4 by eauto. injection E4 as <-. rewrite boolToInt64_test, negb_involutive in Hrun.
    rewrite <- Hbc, get_setS_eq in E2 by eauto. injection E2 as <-. rewrite get_setS_ne in E1 by done.
    eexists m, _, r, (negb (String.eqb s1 s)).
    split; [lia|]. split; [|split; [apply differ_setI, differ_setS, differ_in_refl|]].
    + rewrite <- Hrun. f_equal. f_equal. replace (i + 3) with (i + 2 + 1) by lia. by destruct (String.eqb s1 s).
    + rewrite (eval_eqStringConstJump _ _ _ _ s s1 word); [|by rewrite (WideIndex_low load) in E by done|done|done].
      rewrite Hword. f_equal. f_equal. destruct (negb _); lia.
Qed.
Lemma fuseEqUintConstJumpFalse_ok i g :
  typed_pools f → fuseEqUintConstJumpFalse J f i = Some g → sound_window g i.
Proof.
  intros Hpools. unfold fuseEqUintConstJumpFalse. destruct (words3 body i) as [[[load cmp] branch]|] eqn:Hwords; [|done].
  apply words3_Some in Hwords as (Hg0 & Hg1 & Hg2). cbn [mbind option_bind].
  destruct (matchSmallUintConstLoad f load) as [[v constReg]|] eqn:Hm; [|done]. cbn [mbind option_bind].
  case_if; [done|]. case_if; [done|].
  destruct (if iC cmp =? constReg then Some (iB cmp) else if iB cmp =? constReg then Some (iC cmp) else None)
    as [valueReg|] eqn:Hsel; [|done].
  cbn [mbind option_bind]. case_if; [done|]. case_if; [done|]. intros [= <-]. bool_hyps.
  match goal with H : iA branch = iA cmp |- _ => rename H into Hac end.
  match goal with H : valueReg ≠ constReg |- _ => rename H into Hne0 end.
  match goal with H : iOp cmp = _ |- _ => rename H into Hcmp end.
  assert (Hjump : iOp branch = condition_jump false) by done.
  pose proof (zget_Some_range _ _ _ Hg0). pose proof (word_bytes _ _ Hg1) as (_ & _ & Hb1 & Hc1).
  destruct (small_uint_load _ _ _ Hpools (word_bytes _ _ Hg0) Hm) as (Hv & Hw0 & Hn0 & Hj0 & h0 & Hd0 & Hload).
  assert (Hw1 : one_word cmp ∧ flatDispatchSwitch cmp = Some (compareUint Z.eqb)).
  { destruct cmp as [o1 a1 b1 c1]. cbn [iOp] in *. subst. split; [by eapply one_word_dispatch|done]. }
  destruct Hw1 as [Hw1 Hd1].
  assert (Hvr : byte_ok valueReg) by (repeat case_match; by simplify_eq).
  destruct (condition_one_word false branch Hjump) as ([h2 Hd2] & Hsp2 & Ho2).
  pose proof (λ p r, eval_jumpIf f p r branch h2 false Hd2 Hjump) as Hbranch.
  apply (branch_fusion _ i (NewInstruction OpDrillTier1 SubOpEqUintConstJumpFalse valueReg v)
    handleSubOpEqUintConstJumpFalse 1 1
    (SignedOffset branch) false branch [(RegisterInt, iA cmp); (RegisterUint, constReg)]); try done.
  - apply JoinOffset_range.
  - by apply (window_words3 _ _ load cmp branch).
  - intros w Hg. assert (w = load) as -> by congruence. done.
  - by apply guard3.
  - window_length. by replace (i + 3 - 1) with (i + 2) by lia.
  - window_length. replace (i + 3 - 1) with (i + 2) by lia. dead_names.
  - intros word Hgw Hword W O others fuel s r e Hrun Hne. window_length.
    run_step Hrun Hne Hg0 Hd0 Hload. run_step Hrun Hne Hg1 Hd1 eval_compareUint.
    replace (i + 1 + 1) with (i + 2) in Hrun by lia. run_step Hrun Hne Hg2 Hd2 Hbranch.
    rewrite Hac, get_setI_eq in E3 by eauto. injection E3 as <-. rewrite boolToInt64_test, negb_involutive in Hrun.
    assert (Hx : ∃ x, zget (Uints r) valueReg = Some x ∧ (z0 =? z1) = (x =? v)).
    { destruct (Z.eqb_spec (iC cmp) constReg) as [Hc|_]; [|destruct (Z.eqb_spec (iB cmp) constReg) as [Hb|_]; [|done]];
        injection Hsel as <-.
      - rewrite Hc, get_setU_eq in E1 by eauto. rewrite get_setU_ne in E0 by done. exists z0. split; [done|congruence].
      - rewrite Hb, get_setU_eq in E0 by eauto. rewrite get_setU_ne in E1 by done. exists z1. split; [done|].
        injection E0 as <-. apply Z.eqb_sym. }
    destruct Hx as (x & Hx & Heq). rewrite Heq in Hrun.
    eexists m, _, r, (negb (x =? v)).
    split; [lia|]. split; [|split; [apply differ_setI, differ_setU, differ_in_refl|]].
    + rewrite <- Hrun. f_equal. f_equal. replace (i + 3) with (i + 2 + 1) by lia. by destruct (x =? v).
    + rewrite (eval_eqUintConstJump _ _ _ _ x word) by done. rewrite Hword. cbn [iC]. f_equal. f_equal.
      destruct (negb _); lia.
Qed.
End fusion.
