(* ===== verification/ConstFusion.v ===== *)
(** * Arithmetic with a constant

    The fusions of [Peephole] that put a loaded constant into the operation
    that reads it, growing the pools when the constant is not there, and the
    loads that become shorter. *)

From S2P Require Import Prelude SafeConv Register Opcode Instruction Shapes Spec JumpLayout Jumps.
From S2P Require Import Extension Function Builder Verify VerifySound Machine MachineSafe MachineFlow.
From S2P Require Import FuseNarrow PassFacts Ranges RangesSolve Dominators Relocate Liveness OpenMachine LivenessSound LivenessRun.
From S2P Require Import Peephole Compact CompactMarks CompactRecode Splice SpliceRun.
From S2P Require Import FusionWindow.

Section fusion.
Context (f : CompiledFunction) (J : gset Z).
Context (Hfusible : fusible (Body f)) (HJ : JumpTargetsOf (Body f) ⊆ J).

#[local] Notation body := (Body f).
#[local] Notation sound_window := (FusionWindow.sound_window f).
#[local] Notation word_bytes := (FusionWindow.word_bytes f Hfusible).
#[local] Notation straight_fusion := (FusionWindow.straight_fusion f J Hfusible HJ).
#[local] Notation guard2 := (FusionWindow.guard2 J).

(** *** Pools that grow *)

Lemma slicesIndex_Some pool value index : slicesIndex pool value = Some index → zget pool index = Some value ∧ 0 <= index.
Proof.
  unfold slicesIndex. destruct (list_find (λ v, v = value) pool) as [[n v]|] eqn:E; [|done]. cbn. intros [= <-].
  apply list_find_Some in E as (Hl & -> & _). split; [|lia]. by rewrite zget_lookup, Nat2Z.id by lia.
Qed.

Lemma zget_appended {A} (l : list A) x : zget (l ++ [x]) (zlen l) = Some x.
Proof. rewrite zget_lookup, Nat2Z.id by lia. by apply list_lookup_middle. Qed.

(** A pool index, and the function it is an index of. *)
Lemma intConstPoolIndex_ok load f' index :
  typed_pools f → wf_instruction load → intConstPoolIndex f load = Some (f', index) →
  Body f' = body ∧ pools_grow f f' ∧ typed_pools f' ∧ byte_ok index ∧
  (if iOp load =? OpLoadIntConst then index = iB load ∧ f' = f else zget (IntConstants f') index = Some (iC load)).
Proof.
  intros Hpools (_ & _ & Hb & Hc). unfold intConstPoolIndex.
  assert (Hrefl : pools_grow f f) by (by split_and!).
  destruct (iOp load =? OpLoadIntConst); [by intros [= <- <-]|].
  set (append := if MaxUint8 <? zlen (IntConstants f) then None else _).
  assert (Happend : append = Some (f', index) → Body f' = body ∧ pools_grow f f' ∧ typed_pools f' ∧ byte_ok index ∧
    zget (IntConstants f') index = Some (iC load)).
  { unfold append. destruct (Z.ltb_spec MaxUint8 (zlen (IntConstants f))) as [|Hl]; [done|]. rewrite length_app. cbn [length].
    replace (Z.of_nat (length (IntConstants f) + 1) - 1) with (zlen (IntConstants f)) by lia.
    unfold MustIntToUint8, MaxUint8 in *. rewrite (proj2 (Z.ltb_ge _ 0)), (proj2 (Z.ltb_ge 255 _)) by lia.
    cbn [orb mbind option_bind]. rewrite wrapU_id by (unfold isU; lia). intros [= <- <-]. cbn.
    split; [done|]. split; [split_and!; try done; by eexists|]. split; [|split; [unfold MaxUint8, byte_ok in *; lia|apply zget_appended]].
    destruct Hpools as [Hi Hu]. split; cbn; [|done]. apply Forall_app. split; [done|]. constructor; [|constructor].
    unfold isS, byte_ok in *. lia. }
  destruct (slicesIndex (IntConstants f) (iC load)) as [n|] eqn:E; [|done].
  destruct (Z.leb_spec n MaxUint8) as [Hl|]; [|done]. intros [= <- <-]. apply slicesIndex_Some in E as [Hg Hn].
  unfold MaxUint8 in Hl. rewrite wrapU_id by (unfold isU; lia). split_and!; try done; unfold byte_ok, isU; lia.
Qed.

Lemma uintConstPoolIndex_ok load f' index :
  typed_pools f → wf_instruction load → uintConstPoolIndex f load = Some (f', index) →
  Body f' = body ∧ pools_grow f f' ∧ typed_pools f' ∧ isU 16 index ∧
  (if iOp load =? OpLoadUintConst then index = WideIndex load ∧ f' = f else zget (UintConstants f') index = Some (iC load)).
Proof.
  intros Hpools (_ & _ & Hb & Hc). unfold uintConstPoolIndex.
  assert (Hrefl : pools_grow f f) by (by split_and!).
  destruct (iOp load =? OpLoadUintConst).
  { intros [= <- <-]. split_and!; try done. unfold WideIndex. rewrite JoinWide_spec by done. unfold byte_ok in *. lia. }
  set (append := if MaxUint16 <? zlen (UintConstants f) then None else _).
  assert (Happend : append = Some (f', index) → Body f' = body ∧ pools_grow f f' ∧ typed_pools f' ∧ isU 16 index ∧
    zget (UintConstants f') index = Some (iC load)).
  { unfold append. destruct (Z.ltb_spec MaxUint16 (zlen (UintConstants f))) as [|Hl]; [done|]. rewrite length_app. cbn [length].
    replace (Z.of_nat (length (UintConstants f) + 1) - 1) with (zlen (UintConstants f)) by lia.
    unfold MustIntToUint16, MaxUint16 in *. rewrite (proj2 (Z.ltb_ge _ 0)), (proj2 (Z.ltb_ge 65535 _)) by lia.
    cbn [orb mbind option_bind]. rewrite wrapU_id by (unfold isU; lia). intros [= <- <-]. cbn.
    split; [done|]. split; [split_and!; try done; by eexists|]. split; [|split; [unfold isU; lia|apply zget_appended]].
    destruct Hpools as [Hi Hu]. split; cbn; [done|]. apply Forall_app. split; [done|]. constructor; [|constructor].
    unfold isU, byte_ok in *. lia. }
  destruct (slicesIndex (UintConstants f) (iC load)) as [n|] eqn:E; [|done].
  destruct (Z.leb_spec n MaxUint16) as [Hl|]; [|done]. intros [= <- <-]. apply slicesIndex_Some in E as [Hg Hn].
  unfold MaxUint16 in Hl. rewrite wrapU_id by (unfold isU; lia). split_and!; try done; unfold byte_ok, isU; lia.
Qed.

(** *** Arithmetic with a constant *)

Lemma eval_intConst op g p r instr k x :
  zget (IntConstants g) (iC instr) = Some k → zget (Ints r) (iB instr) = Some x → is_Some (zget (Ints r) (iA instr)) →
  intConst op g (NewCallFrame p r) instr = opContinue (NewCallFrame p (setI r (iA instr) (op x k))).
Proof.
  intros Hk Hx [y Hy]. unfold intConst, getInt, getReg. rewrite Hk. cbn [registers]. rewrite Hx.
  cbn [mbind OpResult_bind]. rewrite eval_setInt. unfold storesI. by rewrite Hy.
Qed.

Lemma eval_uintConst op g p r instr k x w index :
  zget (Body g) p = Some w → SplitWide index = (iA w, iB w) → isU 16 index → zget (UintConstants g) index = Some k →
  zget (Uints r) (iB instr) = Some x → is_Some (zget (Uints r) (iA instr)) →
  uintConst op g (NewCallFrame p r) instr = opContinue (NewCallFrame (p + 1) (setU r (iA instr) (op x k))).
Proof.
  intros Hw Hs Hi Hk Hx [y Hy]. unfold uintConst, readExtensionWideIndex, readExtensionWord, getUint, getReg, advance.
  cbn [registers ProgramCounter]. rewrite Hw. cbn [mbind OpResult_bind mret OpResult_ret ProgramCounter].
  change (Z.lor (iA w) (wrapU 16 (Z.shiftl (iB w) 8))) with (JoinWide (iA w) (iB w)).
  rewrite (JoinWide_SplitWide index) by done. rewrite Hk. cbn [registers]. rewrite Hx. cbn [mbind OpResult_bind].
  rewrite eval_setUint. unfold storesU. by rewrite Hy.
Qed.

(** The load of an integer constant: a fault, or a store of what the pool
    index names. *)
Lemma int_load load loaded f' index :
  typed_pools f → wf_instruction load → intConstLoadDestination load = Some loaded →
  intConstPoolIndex f load = Some (f', index) →
  one_word load ∧ isCanonicalNop load = false ∧ InstrIsTier1SubOp load SubOpJump = false ∧
  ∃ h, flatDispatchSwitch load = Some h ∧
    ∀ p r, h f (NewCallFrame p r) load = match zget (IntConstants f') index with
      | Some v => storesI p r loaded v
      | None => boundsError boundsTableIntConstant (WideIndex load)
      end.
Proof.
  intros Hpools Hwf Hdest Hindex. pose proof Hwf as (_ & _ & Hb & Hc).
  apply intConstPoolIndex_ok in Hindex as (_ & _ & _ & _ & Hat); [|done..].
  unfold intConstLoadDestination in Hdest. destruct (Z.eqb_spec (iOp load) OpLoadIntConst) as [Ho|Ho].
  - destruct Hat as [-> ->]. destruct (Z.eqb_spec (iC load) 0) as [Hc0|]; cbn [andb] in Hdest.
    2: { unfold InstrIsTier1SubOp in Hdest. by rewrite Ho in Hdest. }
    injection Hdest as <-. destruct (tier0_head load) as [Hn Hj]; [by rewrite Ho|]. split_and!; try done.
    + destruct load as [o0 a0 b0 c0]. cbn [iOp] in *. subst. by eapply one_word_dispatch.
    + exists handleLoadIntConst. split; [destruct load as [o0 a0 b0 c0]; cbn [iOp] in *; by subst|].
      intros p r. by rewrite eval_loadInt, WideIndex_low.
  - cbn [andb] in Hdest. destruct (InstrIsTier1SubOp load SubOpLoadIntConstSmall) eqn:Hs; [|done]. injection Hdest as <-.
    destruct (tier1_head _ _ Hs ltac:(done) ltac:(done)) as [Hn Hj]. apply tier1_word in Hs. split_and!; try done.
    + rewrite Hs. by eapply one_word_dispatch.
    + exists handleFlatSubOpLoadIntConstSmall. split; [by rewrite Hs|]. intros p r. by rewrite Hat, eval_loadIntSmall.
Qed.

Record fuses_int (op fusedOp : Opcode) (test : Z → Z → Z) : Prop := {
  fi_tier0 : op ≠ OpDrillTier1;
  fi_op a b c : ∃ h, flatDispatchSwitch (NewInstruction op a b c) = Some h ∧ h = binaryInt test;
  fi_word a b c : one_word (NewInstruction op a b c);
  fi_fused a b c : ∃ h, flatDispatchSwitch (NewInstruction fusedOp a b c) = Some h ∧ h = intConst test;
  fi_fused_word a b c : one_word (NewInstruction fusedOp a b c);
  fi_layout a b c : JumpLayoutOf (NewInstruction fusedOp a b c) = (JumpLayoutNone, 0);
  fi_packed a b c : packed [NewInstruction fusedOp a b c; nop];
  fi_plain a b c : byte_ok a → byte_ok b → byte_ok c → plain_word (NewInstruction fusedOp a b c);
}.

Lemma intFusedOp_ok op fusedOp : intFusedOp op = Some fusedOp → ∃ test, fuses_int op fusedOp test.
Proof.
  unfold intFusedOp. repeat case_if; bool_hyps; intros [= <-]; subst; eexists;
    (split; [done|intros; eexists; split; reflexivity|intros; split; [eexists; reflexivity|split; [reflexivity|discriminate]]
      |intros; eexists; split; reflexivity|intros; split; [eexists; reflexivity|split; [reflexivity|discriminate]]
      |reflexivity| |]).
  all: try (intros; eapply (packed_cons _ _ [] [nop]); [reflexivity|done|reflexivity|constructor|done|apply nop_packed; constructor]).
  all: intros; split; [by split_and!|split; [reflexivity|intros Ho; discriminate Ho]].
Qed.

(** What is dropped of a load that only the fused operation reads. *)
Lemma consumed_names debugVars i next loaded kind :
  loadedRegisterConsumedOnlyByFusedOp debugVars f i next loaded kind = true →
  iB next ≠ loaded ∧
  Forall (λ name, registerDeadFrom f (fst name) (snd name) (i + 2) = true)
    (filter (λ name, name ≠ (kind, iA next)) [(kind, loaded)]).
Proof.
  unfold loadedRegisterConsumedOnlyByFusedOp. case_if; [done|]. bool_hyps. intros Hr. split; [done|].
  rewrite filter_cons, filter_nil. case_decide as Hne; [|constructor]. constructor; [|constructor]. cbn [fst snd].
  rewrite (proj2 (Z.eqb_neq (iA next) loaded)) in Hr by congruence. by bool_hyps.
Qed.

Lemma fuseIntArithConst_ok debugVars i g :
  typed_pools f → fuseIntArithConst debugVars J f i = Some g → sound_window g i ∧ typed_pools g.
Proof.
  intros Hpools. unfold fuseIntArithConst. destruct (words2 body i) as [[load next]|] eqn:Hwords; [|done].
  apply words2_Some in Hwords as (Hg0 & Hg1). cbn [mbind option_bind]. case_if; [done|].
  destruct (intConstLoadDestination load) as [loaded|] eqn:Hdest; [|done]. cbn [mbind option_bind]. case_if; [done|].
  destruct (intFusedOp (iOp next)) as [fusedOp|] eqn:Hfop; [|done]. cbn [mbind option_bind]. case_if; [done|].
  destruct (intConstPoolIndex f load) as [[f' index]|] eqn:Hindex; [|done]. cbn [mbind option_bind]. intros [= <-]. bool_hyps.
  match goal with H : loaded = iC next |- _ => rename H into Hloaded end.
  match goal with H : loadedRegisterConsumedOnlyByFusedOp _ _ _ _ _ _ = true |- _ =>
    apply consumed_names in H as [Hne0 Hnames] end.
  destruct (intFusedOp_ok _ _ Hfop) as (test & Hfi).
  pose proof (word_bytes _ _ Hg0) as Hwf0. pose proof (word_bytes _ _ Hg1) as (_ & Ha1 & Hb1 & _).
  destruct (int_load _ _ _ _ Hpools Hwf0 Hdest Hindex) as (Hw0 & Hn0 & Hj0 & h0 & Hd0 & Hload).
  destruct (intConstPoolIndex_ok _ _ _ Hpools Hwf0 Hindex) as (Hb & Hgrow & Htyped & Hix & _).
  assert (Hw1 : one_word next ∧ flatDispatchSwitch next = Some (binaryInt test)).
  { destruct next as [o1 a1 b1 c1]. cbn [iOp] in *. split; [apply (fi_word _ _ _ Hfi)|].
    by destruct (fi_op _ _ _ Hfi a1 b1 c1) as (h & -> & ->). }
  destruct Hw1 as [Hw1 Hd1]. split; [|by destruct Htyped; split].
  destruct (fi_fused _ _ _ Hfi (iA next) (iB next) index) as (h' & Hd' & ->).
  eapply (straight_fusion _ i (NewInstruction fusedOp (iA next) (iB next) index) _ [nop] 1); [exact Hd'|..].
  - apply (fi_layout _ _ _ Hfi).
  - by apply (window_words2 _ _ load next).
  - intros w Hg. assert (w = load) as -> by congruence. done.
  - by apply guard2.
  - apply (fi_packed _ _ _ Hfi).
  - constructor; [by apply (fi_plain _ _ _ Hfi)|]. constructor; [apply nop_plain|constructor].
  - constructor; [apply nop_padding|constructor].
  - cbn. by rewrite Hb.
  - exact Hgrow.
  - window_length. lia.
  - window_length. intros j Hj. assert (j = 1) as -> by lia. reflexivity.
  - window_length. exact Hnames.
  - window_length. intros W O others fuel s r e Hrun Hne.
    run_step Hrun Hne Hg0 Hd0 Hload. run_step Hrun Hne Hg1 Hd1 eval_binaryInt.
    replace (i + 1 + 1) with (i + 2) in Hrun by lia. rewrite <- Hloaded, get_setI_eq in E3 by eauto.
    injection E3 as <-. rewrite get_setI_ne in E2 by done.
    eexists m0, _, (setI r (iA next) (test z1 z)). split; [lia|]. split; [exact Hrun|].
    split; [apply differ_bothI, differ_setI, differ_in_refl|].
    rewrite (eval_intConst test _ _ _ (NewInstruction fusedOp (iA next) (iB next) index) z z1); [done|exact E0|exact E2|].
    cbn [iA].
    destruct (decide (loaded = iA next)) as [->|Hn]; [eauto|]. rewrite get_setI_ne in E4 by done. eauto.
Qed.

Record fuses_uint (op fusedSubOp : Z) (test : Z → Z → Z) : Prop := {
  fv_tier0 : op ≠ OpDrillTier1;
  fv_op a b c : ∃ h, flatDispatchSwitch (NewInstruction op a b c) = Some h ∧ h = binaryUint test;
  fv_word a b c : one_word (NewInstruction op a b c);
  fv_fused b c : ∃ h, flatDispatchSwitch (NewInstruction OpDrillTier1 fusedSubOp b c) = Some h ∧
    h = reshapeTier1 (uintConst test);
  fv_layout b c : JumpLayoutOf (NewInstruction OpDrillTier1 fusedSubOp b c) = (JumpLayoutNone, 0);
  fv_packed b c lo hi : packed [NewInstruction OpDrillTier1 fusedSubOp b c; NewInstruction OpExt lo hi 0];
  fv_plain b c : byte_ok b → byte_ok c → plain_word (NewInstruction OpDrillTier1 fusedSubOp b c);
}.

Lemma uintFusedSubOp_ok op fusedSubOp : uintFusedSubOp op = Some fusedSubOp → ∃ test, fuses_uint op fusedSubOp test.
Proof.
  unfold uintFusedSubOp. repeat case_if; bool_hyps; intros [= <-]; subst; eexists;
    (split; [done|intros; eexists; split; reflexivity|intros; split; [eexists; reflexivity|split; [reflexivity|discriminate]]
      |intros; eexists; split; reflexivity|reflexivity| |]).
  all: try (intros; eapply (packed_cons _ _ [_] []); [reflexivity|done|reflexivity
    |constructor; [by left|constructor]|intros _; split; [by eexists|done]|constructor]).
  all: intros; split; [by split_and!|split; [reflexivity|intros Ho; discriminate Ho]].
Qed.

(** The load of an unsigned constant. *)
Lemma uint_load load loaded f' index :
  typed_pools f → wf_instruction load →
  (if iOp load =? OpLoadUintConst then Some (iA load) else snd <$> matchSmallUintConstLoad f load) = Some loaded →
  uintConstPoolIndex f load = Some (f', index) →
  one_word load ∧ isCanonicalNop load = false ∧ InstrIsTier1SubOp load SubOpJump = false ∧
  ∃ h, flatDispatchSwitch load = Some h ∧
    ∀ p r, h f (NewCallFrame p r) load = match zget (UintConstants f') index with
      | Some v => storesU p r loaded v
      | None => boundsError boundsTableUintConstant (WideIndex load)
      end.
Proof.
  intros Hpools Hwf Hdest Hindex. apply uintConstPoolIndex_ok in Hindex as (_ & _ & _ & _ & Hat); [|done..].
  destruct (Z.eqb_spec (iOp load) OpLoadUintConst) as [Ho|Ho].
  - destruct Hat as [-> ->]. injection Hdest as <-. destruct (tier0_head load) as [Hn Hj]; [by rewrite Ho|]. split_and!; try done.
    + destruct load as [o0 a0 b0 c0]. cbn [iOp] in *. subst. by eapply one_word_dispatch.
    + exists handleLoadUintConst. split; [destruct load as [o0 a0 b0 c0]; cbn [iOp] in *; by subst|].
      intros p r. by rewrite eval_loadUint.
  - unfold matchSmallUintConstLoad in Hdest. rewrite (proj2 (Z.eqb_neq _ _) Ho) in Hdest.
    destruct (InstrIsTier1SubOp load SubOpLoadUintConstSmall) eqn:Hs; [|done]. injection Hdest as <-.
    destruct (tier1_head _ _ Hs ltac:(done) ltac:(done)) as [Hn Hj]. apply tier1_word in Hs. split_and!; try done.
    + rewrite Hs. by eapply one_word_dispatch.
    + exists handleFlatSubOpLoadUintConstSmall. split; [by rewrite Hs|]. intros p r. by rewrite Hat, eval_loadUintSmall.
Qed.

Lemma fuseUintArithConst_ok debugVars i g :
  typed_pools f → fuseUintArithConst debugVars J f i = Some g → sound_window g i ∧ typed_pools g.
Proof.
  intros Hpools. unfold fuseUintArithConst. destruct (words2 body i) as [[load next]|] eqn:Hwords; [|done].
  apply words2_Some in Hwords as (Hg0 & Hg1). cbn [mbind option_bind]. case_if; [done|].
  destruct (if iOp load =? OpLoadUintConst then Some (iA load) else snd <$> matchSmallUintConstLoad f load)
    as [loaded|] eqn:Hdest; [|done]. cbn [mbind option_bind]. case_if; [done|].
  destruct (uintFusedSubOp (iOp next)) as [fusedSubOp|] eqn:Hfop; [|done]. cbn [mbind option_bind]. case_if; [done|].
  destruct (uintConstPoolIndex f load) as [[f' index]|] eqn:Hindex; [|done]. cbn [mbind option_bind].
  destruct (SplitWide index) as [lo hi] eqn:Hsplit. intros [= <-]. bool_hyps.
  match goal with H : loaded = iC next |- _ => rename H into Hloaded end.
  match goal with H : loadedRegisterConsumedOnlyByFusedOp _ _ _ _ _ _ = true |- _ =>
    apply consumed_names in H as [Hne0 Hnames] end.
  destruct (uintFusedSubOp_ok _ _ Hfop) as (test & Hfi).
  pose proof (word_bytes _ _ Hg0) as Hwf0. pose proof (word_bytes _ _ Hg1) as (_ & Ha1 & Hb1 & _).
  pose proof (zget_Some_range _ _ _ Hg0). pose proof (zget_Some_range _ _ _ Hg1).
  destruct (uint_load _ _ _ _ Hpools Hwf0 Hdest Hindex) as (Hw0 & Hn0 & Hj0 & h0 & Hd0 & Hload).
  destruct (uintConstPoolIndex_ok _ _ _ Hpools Hwf0 Hindex) as (Hb & Hgrow & Htyped & Hix & _).
  destruct (SplitWide_bytes _ _ _ Hsplit) as [Hlo Hhi].
  assert (Hw1 : one_word next ∧ flatDispatchSwitch next = Some (binaryUint test)).
  { destruct next as [o1 a1 b1 c1]. cbn [iOp] in *. split; [apply (fv_word _ _ _ Hfi)|].
    by destruct (fv_op _ _ _ Hfi a1 b1 c1) as (h & -> & ->). }
  destruct Hw1 as [Hw1 Hd1]. split; [|by destruct Htyped; split].
  destruct (fv_fused _ _ _ Hfi (iA next) (iB next)) as (h' & Hd' & ->).
  eapply (straight_fusion _ i (NewInstruction OpDrillTier1 fusedSubOp (iA next) (iB next)) _
    [NewInstruction OpExt lo hi 0] 2); [exact Hd'|..].
  - apply (fv_layout _ _ _ Hfi).
  - by apply (window_words2 _ _ load next).
  - intros w Hg. assert (w = load) as -> by congruence. done.
  - by apply guard2.
  - apply (fv_packed _ _ _ Hfi).
  - constructor; [by apply (fv_plain _ _ _ Hfi)|]. constructor; [|constructor].
    split; [by split_and!|split; [reflexivity|intros Ho; discriminate Ho]].
  - constructor; [by left|constructor].
  - cbn. by rewrite Hb.
  - exact Hgrow.
  - window_length. lia.
  - window_length. intros j Hj. lia.
  - window_length. exact Hnames.
  - window_length. intros W O others fuel s r e Hrun Hne.
    run_step Hrun Hne Hg0 Hd0 Hload. run_step Hrun Hne Hg1 Hd1 eval_binaryUint.
    replace (i + 1 + 1) with (i + 2) in Hrun by lia. rewrite <- Hloaded, get_setU_eq in E3 by eauto.
    injection E3 as <-. rewrite get_setU_ne in E2 by done.
    eexists m0, _, (setU r (iA next) (test z1 z)). split; [lia|]. split; [exact Hrun|].
    split; [apply differ_bothU, differ_setU, differ_in_refl|].
    unfold reshapeTier1. replace (i + 2) with (i + 1 + 1) by lia.
    rewrite (eval_uintConst test _ _ _ _ z z1 (NewInstruction OpExt lo hi 0) index); try done.
    + cbn [Body rewrite setBody]. rewrite Hb, setWords_zget by (window_length; lia).
      window_length. rewrite bool_decide_eq_true_2 by lia. by replace (i + 1 - i) with 1 by lia.
    + cbn [iA]. destruct (decide (loaded = iA next)) as [->|Hn]; [eauto|]. rewrite get_setU_ne in E4 by done. eauto.
Qed.

(** *** Loads shortened *)

Definition steps_alike (w w' : Instruction) : Prop :=
  ∃ h h', flatDispatchSwitch w = Some h ∧ flatDispatchSwitch w' = Some h' ∧
    ∀ g p r, (∃ table n, h f (NewCallFrame p r) w = boundsError table n) ∨ h f (NewCallFrame p r) w = indexPanic ∨
      ∃ r', h f (NewCallFrame p r) w = opContinue (NewCallFrame p r') ∧ h' g (NewCallFrame p r) w' = opContinue (NewCallFrame p r').

Lemma one_word_window i w w' :
  zget body i = Some w → one_word w → isCanonicalNop w = false → InstrIsTier1SubOp w SubOpJump = false →
  one_word w' → plain_word w' → JumpLayoutOf w' = (JumpLayoutNone, 0) →
  hasFlag (shFlags (ShapeForInstruction w')) ShapeFlagFollowsExtension = false → steps_alike w w' →
  sound_window (rewrite f i [w']) i.
Proof.
  intros Hg Hw Hn Hj Hw' Hp' HL Hf (h & h' & Hd & Hd' & Hsteps). pose proof (zget_Some_range _ _ _ Hg).
  apply (straight_fusion _ i w' h' [] 1 []); try done.
  - intros j Hj0. exists w. cbn in Hj0. by replace (i + j) with i by lia.
  - intros w0 Hg0. by simplify_eq.
  - intros j Hj0. cbn in Hj0. lia.
  - replace [w'] with (w' :: [] ++ []) by done. destruct Hw' as (_ & Hs & Ho).
    apply (packed_cons w' h' [] []); [done|done|by rewrite Hs|constructor| |constructor].
    unfold well_extended. rewrite HL. cbn [fst]. intros Hx. congruence.
  - constructor; [done|constructor].
  - intros j Hj0. cbn in Hj0. lia.
  - intros W O others fuel s r e Hrun Hne. change (zlen [w']) with 1.
    destruct (Hsteps (rewrite f i [w']) (i + 1) r) as [(t & n & Hb)|[Hp|(r' & H1 & H2)]].
    + edestruct (run_modelled _ _ _ _ _ _ _ _ _ Hrun Hne Hg Hd) as (y & m & _ & Hy & _); [by rewrite Hb|congruence].
    + edestruct (run_modelled _ _ _ _ _ _ _ _ _ Hrun Hne Hg Hd) as (y & m & _ & Hy & _); [by rewrite Hp|congruence].
    + edestruct (run_modelled _ _ _ _ _ _ _ _ _ Hrun Hne Hg Hd) as (y & m & -> & Hy & Hnext); [by rewrite H1|].
      rewrite H1 in Hy. injection Hy as <-. exists m, r', r'. split_and!; try done; lia.
Qed.

Definition sound_step (g : CompiledFunction) (i : Z) : Prop := g = f ∨ sound_window g i.

Lemma OptimiseLoadIntConst_ok i : typed_pools f → sound_step (OptimiseLoadIntConst f i) i.
Proof.
  intros Hpools. unfold OptimiseLoadIntConst, sound_step. destruct (zget body i) as [w|] eqn:Hg; [|by left].
  case_if; [by left|]. destruct (zget (IntConstants f) (iB w)) as [v|] eqn:Hv; [|by left]. case_if; [|by left]. right.
  bool_hyps. destruct (word_bytes _ _ Hg) as (_ & Ha & Hb & _). destruct w as [op a b c]. cbn [iOp iA iB iC] in *. subst.
  unfold MaxSmallConstant in *.
  apply (one_word_window i (NewInstruction OpLoadIntConst a b 0)); try done.
  - split; [split_and!; try done; unfold byte_ok, isU in *; cbn in *; lia|split; [reflexivity|intros Ho; discriminate Ho]].
  - exists handleLoadIntConst, handleFlatSubOpLoadIntConstSmall. split; [done|]. split; [done|]. intros g p r.
    rewrite eval_loadInt, eval_loadIntSmall, WideIndex_low by done. cbn [iA iB iC]. rewrite Hv. unfold storesI.
    destruct (zget (Ints r) a); eauto.
Qed.

Lemma OptimiseLoadUintConst_ok i : typed_pools f → sound_step (OptimiseLoadUintConst f i) i.
Proof.
  intros Hpools. unfold OptimiseLoadUintConst, sound_step. destruct (zget body i) as [w|] eqn:Hg; [|by left].
  case_if; [by left|]. destruct (zget (UintConstants f) (iB w)) as [v|] eqn:Hv; [|by left]. case_if; [|by left]. right.
  bool_hyps. destruct (word_bytes _ _ Hg) as (_ & Ha & Hb & _). destruct w as [op a b c]. cbn [iOp iA iB iC] in *. subst.
  unfold MaxSmallConstant in *. pose proof (typed_uintConstant _ _ _ Hv Hpools) as Hu.
  apply (one_word_window i (NewInstruction OpLoadUintConst a b 0)); try done.
  - split; [split_and!; try done; unfold byte_ok, isU in *; cbn in *; lia|split; [reflexivity|intros Ho; discriminate Ho]].
  - exists handleLoadUintConst, handleFlatSubOpLoadUintConstSmall. split; [done|]. split; [done|]. intros g p r.
    rewrite eval_loadUint, eval_loadUintSmall, WideIndex_low by done. cbn [iA iB iC]. rewrite Hv. unfold storesU.
    destruct (zget (Uints r) a); eauto.
Qed.
End fusion.
