(* ===== verification/RangeFusion.v ===== *)
(** * The range check

    Eight words of [Peephole] that test both ends of a range become one
    instruction with two extension words. *)

From S2P Require Import Prelude SafeConv Register Opcode Instruction Shapes Spec JumpLayout Jumps.
From S2P Require Import Extension Function Builder Verify VerifySound Machine MachineSafe MachineFlow.
From S2P Require Import FuseNarrow PassFacts Ranges RangesSolve Dominators Relocate Liveness OpenMachine LivenessSound LivenessRun.
From S2P Require Import Peephole Compact CompactMarks CompactRecode Splice SpliceRun.
From S2P Require Import FusionWindow.

Section fusion.
Context (f : CompiledFunction) (J : gset Z).
Context (Hfusible : fusible (Body f)) (HJ : JumpTargetsOf (Body f) ⊆ J).

#[local] Notation body := (Body f).
#[local] Notation all_dead_after := (FusionWindow.all_dead_after f).
#[local] Notation sound_window := (FusionWindow.sound_window f).
#[local] Notation small_uint_load := (FusionWindow.small_uint_load f).
#[local] Notation condition_target := (FusionWindow.condition_target f).
#[local] Notation pools_grow_refl := (FusionWindow.pools_grow_refl f).
#[local] Notation window_starts := (FusionWindow.window_starts f Hfusible).
#[local] Notation window_intro := (FusionWindow.window_intro f Hfusible).
#[local] Notation word_bytes := (FusionWindow.word_bytes f Hfusible).
#[local] Notation branch_passes := (FusionWindow.branch_passes f Hfusible).

(** *** The range check *)

Lemma eval_rangeCheck g p r instr v w1 w2 :
  zget (Uints r) (iC instr) = Some v → zget (Body g) p = Some w1 → zget (Body g) (p + 1) = Some w2 →
  handleSubOpRangeCheckUintJumpFalse g (NewCallFrame p r) instr =
    opContinue (NewCallFrame (if (v <? iA w1) || (iB w1 <? v) then p + 7 + JoinOffset (iA w2) (iB w2) else p + 7) r).
Proof.
  intros Hv H1 H2. unfold handleSubOpRangeCheckUintJumpFalse, getUint, getReg, readExtensionWord, advance, RangeCheckUintFusionNopCount.
  cbn [registers ProgramCounter]. rewrite H1. cbn [mbind OpResult_bind registers ProgramCounter]. rewrite H2.
  cbn [mbind OpResult_bind registers ProgramCounter]. rewrite Hv.
  cbn [mbind OpResult_bind mret OpResult_ret]. replace (p + 1 + 1 + 5) with (p + 7) by lia. by case_match.
Qed.

Lemma no_incoming_jumps targetPC sourcePC p :
  countIncomingJumps body targetPC sourcePC = 0 → p ≠ sourcePC → JumpTargetAt body p ≠ Some targetPC.
Proof.
  unfold countIncomingJumps. intros H Hp Ht.
  assert (Hr : 0 <= p < zlen body).
  { unfold JumpTargetAt in Ht. destruct (zget body p) eqn:Hg; [|done]. by apply zget_Some_range in Hg. }
  assert (Hin : p ∈ filter (λ j, j ≠ sourcePC ∧ JumpTargetAt body j = Some targetPC) (seqZ 0 (zlen body))).
  { apply list_elem_of_filter. split; [done|]. apply elem_of_seqZ. lia. }
  destruct (filter _ (seqZ 0 _)) as [|x l]; [set_solver|cbn in H; lia].
Qed.

Lemma rangeCheckWords_Some b i w :
  rangeCheckWords b i = Some w →
  zget b i = Some (loadLo w) ∧ zget b (i + 1) = Some (compareLo w) ∧ zget b (i + 2) = Some (moveLo w) ∧
  zget b (i + 3) = Some (jumpLo w) ∧ zget b (i + 4) = Some (loadHi w) ∧ zget b (i + 5) = Some (compareHi w) ∧
  zget b (i + 6) = Some (moveHi w) ∧ zget b (i + 7) = Some (jumpHi w).
Proof.
  unfold rangeCheckWords, RangeCheckFirstJumpOffset, RangeCheckSecondLoadOffset, RangeCheckSecondMoveOffset, RangeCheckSecondJumpOffset.
  intros H. replace (i + 4 + 1) with (i + 5) in H by lia. repeat (match type of H with context [zget b ?n] => destruct (zget b n) eqn:?; [|discriminate H] end; cbn [mbind option_bind] in H).
  injection H as <-. by split_and!.
Qed.

(** What the eight words are. *)
Record range_check (i : Z) (w : rangeCheckWindow) (shape : rangeCheckShape) (valueReg condReg : Z) : Prop := {
  rc_words : rangeCheckWords body i = Some w;
  rc_lo : matchSmallUintConstLoad f (loadLo w) = Some (loImm shape, vRegLo shape);
  rc_hi : matchSmallUintConstLoad f (loadHi w) = Some (hiImm shape, vRegHi shape);
  rc_cmpLo : compareLo w = NewInstruction OpGeUint (iA (compareLo w)) valueReg (vRegLo shape);
  rc_cmpHi : compareHi w = NewInstruction OpLeUint (iA (compareHi w)) valueReg (vRegHi shape);
  rc_moveLo : moveLo w = NewInstruction OpDrillTier1 SubOpMoveInt condReg (iA (compareLo w));
  rc_moveHi : moveHi w = NewInstruction OpDrillTier1 SubOpMoveInt condReg (iA (compareHi w));
  rc_jumpLo : iOp (jumpLo w) = OpJumpIfFalse ∧ iA (jumpLo w) = condReg ∧ SignedOffset (jumpLo w) = 3;
  rc_jumpHi : iOp (jumpHi w) = OpJumpIfFalse ∧ iA (jumpHi w) = condReg ∧ 0 <= SignedOffset (jumpHi w);
  rc_clear : ∀ j, 0 < j < 7 → i + j ∉ J;
  rc_incoming : i + 7 ∈ J → countIncomingJumps body (i + 7) (i + 3) = 0;
  rc_value : valueReg ≠ vRegLo shape ∧ valueReg ≠ vRegHi shape;
  rc_dead : all_dead_after (i + 7) [(RegisterUint, vRegLo shape); (RegisterUint, vRegHi shape);
    (RegisterInt, iA (compareLo w)); (RegisterInt, iA (compareHi w)); (RegisterInt, condReg)];
}.

Lemma range_check_matched i g :
  fuseRangeCheckUintJumpFalse J f i = Some g → ∃ w shape valueReg condReg, range_check i w shape valueReg condReg ∧
    g = rewrite f i (NewTier2Instruction SubOpTier2RangeCheckUintJumpFalse valueReg ::
      NewInstruction OpExt (loImm shape) (hiImm shape) 0 :: offsetWord (SignedOffset (jumpHi w)) :: replicate 5 nop).
Proof.
  unfold fuseRangeCheckUintJumpFalse. destruct (rangeCheckWords body i) as [w|] eqn:Hwords; [|done]. cbn [mbind option_bind].
  destruct (matchRangeCheckShape f w) as [shape|] eqn:Hshape; [|done]. cbn [mbind option_bind].
  destruct (rangeCheckJumpTargetsClear body i J) eqn:Hclear; [|done]. cbn [negb].
  destruct (matchRangeCheckRegisters w (vRegLo shape) (vRegHi shape)) as [[valueReg condReg]|] eqn:Hregs; [|done].
  cbn [mbind option_bind]. destruct (validateRangeCheckOffsets w) as [off2|] eqn:Hoff; [|done]. cbn [mbind option_bind].
  destruct (rangeCheckDroppedWritesDead f i w shape valueReg condReg) eqn:Hdead; [|done]. cbn [negb].
  intros [= <-]. unfold validateRangeCheckOffsets in Hoff. destruct (negb _) eqn:E2 in Hoff; [done|].
  destruct (_ <? 0) eqn:E3 in Hoff; [done|]. injection Hoff as <-. exists w, shape, valueReg, condReg. split; [|done].
  destruct w as [w0 [o1 a1 b1 c1] [o2 a2 b2 c2] w3 w4 [o5 a5 b5 c5] [o6 a6 b6 c6] w7].
  unfold matchRangeCheckShape, InstrIsTier1SubOp in Hshape. cbn [loadLo loadHi iOp iA compareLo compareHi moveLo moveHi jumpLo jumpHi] in *.
  destruct (matchSmallUintConstLoad f w0) as [[lo regLo]|] eqn:Hlo; [|done]. cbn [mbind option_bind] in Hshape.
  destruct (negb _ || _ || _) eqn:E0 in Hshape; [done|].
  destruct (matchSmallUintConstLoad f w4) as [[hi regHi]|] eqn:Hhi; [|done]. cbn [mbind option_bind] in Hshape.
  destruct (negb _ || _ || _) eqn:E1 in Hshape; [done|]. injection Hshape as <-.
  unfold matchRangeCheckRegisters in Hregs. cbn in Hregs.
  repeat match type of Hregs with context [if ?b then _ else _] => destruct b eqn:?; [discriminate Hregs|] end.
  bool_hyps. injection Hregs as <- <-. subst.
  unfold rangeCheckJumpTargetsClear in Hclear. destruct (existsb _ _) eqn:Hex; [done|].
  unfold rangeCheckDroppedWritesDead in Hdead. destruct (_ || _) eqn:Hv; [done|]. cbn in *. bool_hyps.
  unfold RangeCheckSecondJumpOffset, RangeCheckFirstJumpOffset, RangeCheckSecondMoveOffset in *.
  split; cbn; try done.
  - intros j Hj Hin. assert (existsb (λ k, bool_decide (k ∈ J)) (seqZ (i + 1) 6) = true); [|congruence].
    apply existsb_exists. exists (i + j). split; [apply list_elem_of_In, elem_of_seqZ; lia|by apply bool_decide_eq_true].
  - intros Hin. destruct Hclear as [Hc|Hc]; [by apply bool_decide_eq_false in Hc|]. apply Z.ltb_ge in Hc.
    unfold countIncomingJumps in *. lia.
  - dead_names.
Qed.

Lemma rangeCheck_packed instr w1 offset :
  JumpLayoutOf instr = (JumpLayoutSecondExtension, 5) → is_Some (flatDispatchSwitch instr) → iOp instr ≠ OpExt →
  iOp w1 = OpExt → packed (instr :: w1 :: offsetWord offset :: replicate 5 nop).
Proof.
  intros HL [h Hd] Ho Hw1.
  replace (instr :: w1 :: offsetWord offset :: replicate 5 nop)
    with (instr :: (w1 :: offsetWord offset :: replicate 5 nop) ++ []) by (by rewrite app_nil_r).
  apply (packed_cons instr h); [done|done| | | |constructor].
  - unfold span, JumpFootprint. by rewrite HL.
  - constructor; [by left|]. constructor; [apply offsetWord_padding|]. apply Forall_replicate, nop_padding.
  - unfold well_extended. rewrite HL. cbn [fst]. destruct w1 as [o a b c]. cbn in Hw1. subst o.
    unfold offsetWord. destruct (SplitOffset offset). split; by eexists.
Qed.

Section range_check.
Context (i : Z) (w : rangeCheckWindow) (shape : rangeCheckShape) (valueReg condReg : Z).
Context (Hrc : range_check i w shape valueReg condReg) (Hpools : typed_pools f).

#[local] Notation instr' := (NewTier2Instruction SubOpTier2RangeCheckUintJumpFalse valueReg).
#[local] Notation ext' := (NewInstruction OpExt (loImm shape) (hiImm shape) 0).
#[local] Notation off2 := (SignedOffset (jumpHi w)).
#[local] Notation ws := (instr' :: ext' :: offsetWord off2 :: replicate 5 nop).
#[local] Notation g := (rewrite f i ws).

Lemma range_check_one_words :
  ∀ j, 0 <= j < 8 → ∃ word, zget body (i + j) = Some word ∧ one_word word.
Proof.
  destruct (rangeCheckWords_Some _ _ _ (rc_words _ _ _ _ _ Hrc)) as (H0 & H1 & H2 & H3 & H4 & H5 & H6 & H7).
  destruct (small_uint_load _ _ _ Hpools (word_bytes _ _ H0) (rc_lo _ _ _ _ _ Hrc)) as (_ & Hw0 & _).
  destruct (small_uint_load _ _ _ Hpools (word_bytes _ _ H4) (rc_hi _ _ _ _ _ Hrc)) as (_ & Hw4 & _).
  assert (Hw1 : one_word (compareLo w)) by (rewrite (rc_cmpLo _ _ _ _ _ Hrc); by eapply one_word_dispatch).
  assert (Hw2 : one_word (moveLo w)) by (rewrite (rc_moveLo _ _ _ _ _ Hrc); by eapply one_word_dispatch).
  assert (Hw5 : one_word (compareHi w)) by (rewrite (rc_cmpHi _ _ _ _ _ Hrc); by eapply one_word_dispatch).
  assert (Hw6 : one_word (moveHi w)) by (rewrite (rc_moveHi _ _ _ _ _ Hrc); by eapply one_word_dispatch).
  pose proof (condition_one_word false _ (proj1 (rc_jumpLo _ _ _ _ _ Hrc))) as Hw3.
  pose proof (condition_one_word false _ (proj1 (rc_jumpHi _ _ _ _ _ Hrc))) as Hw7.
  intros j Hj. assert (Hcase : j = 0 ∨ j = 1 ∨ j = 2 ∨ j = 3 ∨ j = 4 ∨ j = 5 ∨ j = 6 ∨ j = 7) by lia.
  destruct Hcase as [->|[->|[->|[->|[->|[->|[->| ->]]]]]]]; eexists; (split; [rewrite ?Z.add_0_r; eassumption|assumption]).
Qed.

Lemma range_check_window : window f g i ws.
Proof.
  destruct (rangeCheckWords_Some _ _ _ (rc_words _ _ _ _ _ Hrc)) as (H0 & H1 & H2 & H3 & H4 & H5 & H6 & H7).
  destruct (small_uint_load _ _ _ Hpools (word_bytes _ _ H0) (rc_lo _ _ _ _ _ Hrc)) as (Hlo & Hw0 & Hn0 & Hj0 & _).
  destruct (small_uint_load _ _ _ Hpools (word_bytes _ _ H4) (rc_hi _ _ _ _ _ Hrc)) as (Hhi & _).
  destruct (rc_jumpHi _ _ _ _ _ Hrc) as (Hjump & _ & Hoff).
  assert (Hvalue : byte_ok valueReg).
  { pose proof (word_bytes _ _ H1) as (_ & _ & Hb & _). by rewrite (rc_cmpLo _ _ _ _ _ Hrc) in Hb. }
  pose proof (zget_Some_range _ _ _ H0). pose proof (zget_Some_range _ _ _ H7).
  assert (Htarget : JumpTargetAt body (i + 7) = Some (i + 7 + 1 + off2)) by (by eapply (condition_target false)).
  apply (window_intro g i instr' handleSubOpRangeCheckUintJumpFalse (ext' :: offsetWord off2 :: replicate 5 nop)).
  - exact range_check_one_words.
  - intros word Hg. assert (word = loadLo w) as -> by congruence. done.
  - intros p t Hs Hp Ht Hin. change (i < t < i + 8) in Hin. change (¬ (i <= p < i + 8)) in Hp.
    assert (HtJ : t ∈ J) by (apply HJ; by eapply JumpTargetAt_elem).
    destruct (decide (t = i + 7)) as [->|Hne].
    + by apply (no_incoming_jumps (i + 7) (i + 3) p (rc_incoming _ _ _ _ _ Hrc HtJ) ltac:(lia)).
    + apply (rc_clear _ _ _ _ _ Hrc (t - i) ltac:(lia)). by replace (i + (t - i)) with t by lia.
  - intros t Ht. assert (t = i + 8 + off2) as ->.
    { assert (Hat : words_at (setWords body i ws) i ws) by (apply new_within; [lia|change (i + 8 <= zlen body); lia]).
      assert (HL : JumpLayoutOf instr' = (JumpLayoutSecondExtension, 5)) by reflexivity.
      pose proof (Hat 0 ltac:(change (0 <= 0 < 8); lia)) as Ha0. rewrite Z.add_0_r in Ha0.
      pose proof (Hat 1 ltac:(change (0 <= 1 < 8); lia)) as Ha1. pose proof (Hat 2 ltac:(change (0 <= 2 < 8); lia)) as Ha2.
      change (zget ws 0) with (Some instr') in Ha0. change (zget ws 1) with (Some ext') in Ha1.
      change (zget ws 2) with (Some (offsetWord off2)) in Ha2.
      unfold JumpTargetAt, extensionWordAt in Ht. rewrite Ha0, HL, Ha1, Ha2 in Ht.
      unfold offsetWord in Ht. destruct (SplitOffset off2) as [lo hi] eqn:E.
      change (iOp ext' =? OpExt) with true in Ht. change (iOp (NewInstruction OpExt lo hi 0) =? OpExt) with true in Ht.
      cbn [mbind option_bind iA iB WordCount] in Ht. unfold secondExtensionJumpWordCount in Ht.
      rewrite (JoinOffset_SplitOffset off2 _ _ (JoinOffset_range _ _) E) in Ht. injection Ht. lia. }
    split; [|change (¬ (i < i + 8 + off2 < i + 8)); lia].
    apply JumpTargetAt_elem in Htarget. by replace (i + 8 + off2) with (i + 7 + 1 + off2) by lia.
  - by apply rangeCheck_packed.
  - constructor; [split; [by split_and!|split; [reflexivity|intros Ho; discriminate Ho]]|].
    constructor; [split; [by split_and!|split; [reflexivity|intros Ho; discriminate Ho]]|].
    constructor; [apply offsetWord_plain|]. apply Forall_replicate, nop_plain.
  - constructor; [by left|]. constructor; [apply offsetWord_padding|]. apply Forall_replicate, nop_padding.
  - reflexivity.
  - reflexivity.
  - apply pools_grow_refl.
Qed.

#[local] Notation dropped := [(RegisterUint, vRegLo shape); (RegisterUint, vRegHi shape);
  (RegisterInt, iA (compareLo w)); (RegisterInt, iA (compareHi w)); (RegisterInt, condReg)].

(** The run of the eight words: the second half only when the first holds. *)
Lemma range_check_run {W O} (others : W → Instruction → list Instruction → Registers → effect (W:=W) (O:=O)) fuel s r e :
  runFor others fuel f s (NewCallFrame i r) = Some e → e ≠ faulted →
  ∃ m r1 v, (m < fuel)%nat ∧ zget (Uints r) valueReg = Some v ∧ differ_in r1 r dropped ∧
    runFor others m f s (NewCallFrame
      (if (v <? loImm shape) || (hiImm shape <? v) then i + 8 + off2 else i + 8) r1) = Some e.
Proof.
  intros Hrun Hne.
  destruct (rangeCheckWords_Some _ _ _ (rc_words _ _ _ _ _ Hrc)) as (H0 & H1 & H2 & H3 & H4 & H5 & H6 & H7).
  destruct (small_uint_load _ _ _ Hpools (word_bytes _ _ H0) (rc_lo _ _ _ _ _ Hrc)) as (_ & _ & _ & _ & h0 & Hd0 & Hl0).
  destruct (small_uint_load _ _ _ Hpools (word_bytes _ _ H4) (rc_hi _ _ _ _ _ Hrc)) as (_ & _ & _ & _ & h4 & Hd4 & Hl4).
  destruct (rc_jumpLo _ _ _ _ _ Hrc) as (Ho3 & Ha3 & Hoff3). destruct (rc_jumpHi _ _ _ _ _ Hrc) as (Ho7 & Ha7 & _).
  destruct (condition_one_word false _ Ho3) as ([h3 Hd3] & _). destruct (condition_one_word false _ Ho7) as ([h7 Hd7] & _).
  pose proof (λ p r, eval_jumpIf f p r (jumpLo w) h3 false Hd3 Ho3) as Hj3.
  pose proof (λ p r, eval_jumpIf f p r (jumpHi w) h7 false Hd7 Ho7) as Hj7. rewrite Ha3, Hoff3 in Hj3. rewrite Ha7 in Hj7.
  pose proof (rc_cmpLo _ _ _ _ _ Hrc) as Hc1. pose proof (rc_moveLo _ _ _ _ _ Hrc) as Hc2.
  pose proof (rc_cmpHi _ _ _ _ _ Hrc) as Hc5. pose proof (rc_moveHi _ _ _ _ _ Hrc) as Hc6.
  destruct (rc_value _ _ _ _ _ Hrc) as [Hvl Hvh].
  rewrite Hc1 in H1. rewrite Hc2 in H2. rewrite Hc5 in H5. rewrite Hc6 in H6.
  assert (Hd1 : flatDispatchSwitch (NewInstruction OpGeUint (iA (compareLo w)) valueReg (vRegLo shape)) =
    Some (compareUint (λ x y, y <=? x))) by reflexivity.
  assert (Hd2 : ∀ a, flatDispatchSwitch (NewInstruction OpDrillTier1 SubOpMoveInt condReg a) =
    Some (reshapeTier1 handleMoveInt)) by reflexivity.
  assert (Hd5 : flatDispatchSwitch (NewInstruction OpLeUint (iA (compareHi w)) valueReg (vRegHi shape)) =
    Some (compareUint (λ x y, x <=? y))) by reflexivity.
  run_step Hrun Hne H0 Hd0 Hl0. run_step Hrun Hne H1 Hd1 eval_compareUint. cbn [iA iB iC] in *.
  replace (i + 1 + 1) with (i + 2) in Hrun by lia. run_step Hrun Hne H2 (Hd2 (iA (compareLo w))) eval_moveInt. cbn [iA iB iC] in *.
  replace (i + 2 + 1) with (i + 3) in Hrun by lia. run_step Hrun Hne H3 Hd3 Hj3.
  rewrite get_setU_ne in E0 by done. rewrite get_setU_eq in E1 by eauto. injection E1 as <-.
  rewrite get_setI_eq in E3 by eauto. injection E3 as <-. rewrite get_setI_eq in E5 by eauto. injection E5 as <-.
  rewrite boolToInt64_test, negb_involutive in Hrun. destruct (Z.leb_spec (loImm shape) z0) as [Hle|Hlt]; cbn [eqb] in Hrun.
  - replace (i + 3 + 1) with (i + 4) in Hrun by lia. run_step Hrun Hne H4 Hd4 Hl4.
    replace (i + 4 + 1) with (i + 5) in Hrun by lia. run_step Hrun Hne H5 Hd5 eval_compareUint. cbn [iA iB iC] in *.
    replace (i + 5 + 1) with (i + 6) in Hrun by lia. run_step Hrun Hne H6 (Hd2 (iA (compareHi w))) eval_moveInt. cbn [iA iB iC] in *.
    replace (i + 6 + 1) with (i + 7) in Hrun by lia. run_step Hrun Hne H7 Hd7 Hj7.
    rewrite get_setU_ne in E3 by done. rewrite get_setU_eq in E5 by eauto. injection E5 as <-.
    cbn [Uints setI] in E3. rewrite get_setU_ne in E3 by done.
    rewrite get_setI_eq in E7 by eauto. injection E7 as <-. rewrite get_setI_eq in E9 by eauto. injection E9 as <-.
    rewrite boolToInt64_test, negb_involutive in Hrun.
    assert (z3 = z0) as -> by congruence.
    eexists m0, _, z0. split; [lia|]. split; [done|]. split.
    2: { rewrite <- Hrun. f_equal. f_equal. replace (i + 7 + 1) with (i + 8) by lia.
         rewrite (proj2 (Z.ltb_ge z0 (loImm shape))) by done. rewrite Z.leb_antisym. cbn [orb]. by destruct (_ <? _). }
    eapply differ_in_weaken; [apply differ_setI, differ_setI, differ_setU, differ_setI, differ_setI, differ_setU, differ_in_refl|].
    intros name. rewrite !elem_of_cons. tauto.
  - replace (i + 3 + 1 + 3) with (i + 7) in Hrun by lia. run_step Hrun Hne H7 Hd7 Hj7.
    rewrite get_setI_eq in E1 by eauto. injection E1 as <-. cbn in Hrun.
    eexists m, _, z0. split; [lia|]. split; [done|]. split.
    2: { rewrite <- Hrun. f_equal. f_equal. rewrite (proj2 (Z.ltb_lt z0 (loImm shape))) by done. cbn [orb]. lia. }
    eapply differ_in_weaken; [apply differ_setI, differ_setI, differ_setU, differ_in_refl|]. intros name. rewrite !elem_of_cons. tauto.
Qed.

Lemma range_check_passes {W O} (others : W → Instruction → list Instruction → Registers → effect (W:=W) (O:=O)) :
  passes_through others f g i ws.
Proof.
  pose proof range_check_window as Hwin.
  destruct (rangeCheckWords_Some _ _ _ (rc_words _ _ _ _ _ Hrc)) as (H0 & _ & _ & _ & _ & _ & _ & H7).
  destruct (rc_jumpHi _ _ _ _ _ Hrc) as (Hjump & _ & Hoff). pose proof (zget_Some_range _ _ _ H0).
  assert (Hat : words_at (Body g) i ws) by (apply new_within; [lia|exact (wd_high Hwin)]).
  apply (branch_passes others g i ws Hwin false (jumpHi w) dropped 8).
  - change (instruction_start body (i + 8 - 1)). replace (i + 8 - 1) with (i + 7) by lia.
    apply (window_starts i 8); [exact (wd_start Hwin)|exact range_check_one_words|lia].
  - change (zget body (i + 8 - 1) = Some (jumpHi w)). by replace (i + 8 - 1) with (i + 7) by lia.
  - exact Hjump.
  - change (all_dead_after (i + 8 - 1) dropped). replace (i + 8 - 1) with (i + 7) by lia. exact (rc_dead _ _ _ _ _ Hrc).
  - change (¬ (i < i + 8 + off2 < i + 8)). lia.
  - by change (0 < 8 <= 8).
  - intros j Hj. change (8 <= j < 8) in Hj. lia.
  - intros fuel s r e Hrun Hne. destruct (range_check_run others fuel s r e Hrun Hne) as (m & r1 & v & Hm & Hv & Hd & Hr).
    exists m, r1, r, ((v <? loImm shape) || (hiImm shape <? v)). change (zlen ws) with 8. split_and!; try done.
    pose proof (Hat 0 ltac:(by change (0 <= 0 < 8))) as Ha0. rewrite Z.add_0_r in Ha0.
    pose proof (Hat 1 ltac:(by change (0 <= 1 < 8))) as Ha1. pose proof (Hat 2 ltac:(by change (0 <= 2 < 8))) as Ha2.
    rewrite (dispatch_here g i r instr' handleSubOpRangeCheckUintJumpFalse Ha0 eq_refl).
    rewrite (eval_rangeCheck _ _ _ _ v ext' (offsetWord off2)); [|done|exact Ha1|by replace (i + 1 + 1) with (i + 2) by lia].
    change (iA ext') with (loImm shape). change (iB ext') with (hiImm shape).
    assert (Hword : JoinOffset (iA (offsetWord off2)) (iB (offsetWord off2)) = off2).
    { unfold offsetWord. destruct (SplitOffset off2) as [lo hi] eqn:E. cbn [iA iB].
      exact (JoinOffset_SplitOffset off2 _ _ (JoinOffset_range _ _) E). }
    rewrite Hword. replace (i + 1 + 7) with (i + 8) by lia. by destruct (_ || _).
Qed.
End range_check.

Lemma fuseRangeCheckUintJumpFalse_ok i g :
  typed_pools f → fuseRangeCheckUintJumpFalse J f i = Some g → sound_window g i.
Proof.
  intros Hpools H. apply range_check_matched in H as (w & shape & valueReg & condReg & Hrc & ->).
  eexists. split; [by eapply range_check_window|]. intros W O others. by eapply range_check_passes.
Qed.
End fusion.
