(* ===== verification/FusionPass.v ===== *)
(** * The peephole walk preserves execution

    [runPeepholeFusions] over a function on which the walk uses the fusions of
    [CompareFusion], [ConstFusion] and [RangeFusion] and the shortened loads:
    every run from the entry that ends without a fault ends alike in the
    rewritten function. *)

From S2P Require Import Prelude SafeConv Register Opcode Instruction Shapes Spec JumpLayout Jumps.
From S2P Require Import Extension Function Builder Verify VerifySound Machine MachineSafe MachineFlow.
From S2P Require Import FuseNarrow PassFacts Ranges RangesSolve Dominators Relocate Liveness OpenMachine LivenessSound LivenessRun.
From S2P Require Import Peephole CopyFusion MoveElim FuseDriver Compact CompactMarks CompactRecode CompactSound Splice SpliceRun.
From S2P Require Import FusionWindow CompareFusion ConstFusion RangeFusion.

(** ** What a pass is to keep *)

(** A function the fusions work on, its jump targets among those the walk
    started from. *)
Record workable (J : gset Z) (f : CompiledFunction) : Prop := {
  wo_fusible : fusible (Body f);
  wo_targets : JumpTargetsOf (Body f) ⊆ J;
  wo_pools : typed_pools f;
}.

(** The runs from the entry that do not fault. *)
Record preserves (f g : CompiledFunction) : Prop := {
  pr_call_sites : CallSites g = CallSites f;
  pr_result_kinds : ResultKinds g = ResultKinds f;
  pr_length : zlen (Body g) = zlen (Body f);
  pr_runs W O (others : W → Instruction → list Instruction → Registers → effect (W:=W) (O:=O)) w r e :
    Respects f others → ends others f w (NewCallFrame 0 r) e → e ≠ faulted →
    ends others g w (NewCallFrame 0 r) e;
}.

Lemma opVerdict_same f g body pc instr kind reg :
  CallSites g = CallSites f → ResultKinds g = ResultKinds f →
  opVerdict (setBody g body) pc instr kind reg = opVerdict (setBody f body) pc instr kind reg.
Proof.
  intros Hc Hr.
  assert (Hret : returnSlotCount (setBody g body) kind = returnSlotCount (setBody f body) kind)
    by (unfold returnSlotCount; cbn; by rewrite Hr).
  assert (Hclass : classify (setBody g body) instr kind reg = classify (setBody f body) instr kind reg)
    by (unfold classify, classifyCall, callSiteRegisterUse; cbn; by rewrite Hc).
  unfold opVerdict. by rewrite Hret, Hclass.
Qed.

Lemma respects_same {W O} f g (others : W → Instruction → list Instruction → Registers → effect (W:=W) (O:=O)) :
  CallSites g = CallSites f → ResultKinds g = ResultKinds f → Respects f others → Respects g others.
Proof.
  intros Hc Hr H w body pc instr r1 r2 Hg Hd Hres Hs Hdf. specialize (H w body pc instr r1 r2 Hg Hd Hres Hs).
  assert (Hsame := λ kind reg, opVerdict_same f g body pc instr kind reg Hc Hr).
  specialize (H ltac:(intros kind reg Hk; rewrite <- Hsame; by apply Hdf)).
  destruct (others w instr _ r1), (others w instr _ r2); try done.
  destruct H as (-> & -> & Hs' & Hleft). split; [done|]. split; [done|]. split; [done|].
  intros kind reg Hk. rewrite Hsame. by apply Hleft.
Qed.

Lemma preserves_refl f : preserves f f.
Proof. by split. Qed.

Lemma preserves_trans f g h : preserves f g → preserves g h → preserves f h.
Proof.
  intros [Hc1 Hr1 Hl1 H1] [Hc2 Hr2 Hl2 H2]. split; [congruence|congruence|congruence|].
  intros W O others w r e Hresp Hends Hne. apply H2; [by apply (respects_same f)|by apply H1|done].
Qed.

Lemma window_workable J f g i :
  workable J f → sound_window f g i → typed_pools g → workable J g ∧ preserves f g.
Proof.
  intros [Hf Ht _] (ws & Hw & Hpass) Hpools. pose proof (wd_pools Hw) as (_ & _ & _ & _ & Hc & Hr). split.
  - split; [by eapply window_fusible|intros t Hin; by eapply Ht, window_targets|done].
  - split; [done|done|by rewrite (wd_body Hw), setWords_length|].
    intros W O others w r e Hresp Hends Hne. apply (window_preserves others f g i ws); try done.
    + intros _. constructor.
    + cbn [ProgramCounter]. pose proof (wd_low Hw). lia.
Qed.

(** ** One turn *)

Lemma typed_rewrite f i ws : typed_pools f → typed_pools (rewrite f i ws).
Proof. by intros [Hi Hu]. Qed.

(** A fusion that matches leaves the pools as they were. *)
Ltac solve_rewrites :=
  intros H;
  repeat match type of H with
  | context [mbind _ ?o] => destruct o as [?|]; cbn [mbind option_bind] in H; [|discriminate H]
  | context [let '(_, _) := ?p in _] => destruct p; cbn [mbind option_bind] in H
  | context [if ?b then _ else _] => destruct b; try discriminate H
  end; injection H as <-; eauto.

Section turn.
Context (J : gset Z) (f : CompiledFunction) (Hf : workable J f).
Context (debugVars : option (list DebugVarEntry)) (StructLayoutTable : list StructFieldLayout).

Lemma rewrites_workable i g : sound_window f g i → (∃ ws, g = rewrite f i ws) → workable J g ∧ preserves f g.
Proof. intros Hw [ws ->]. eapply window_workable; [done|done|]. apply typed_rewrite, Hf. Qed.

Lemma CompareConst_rewrites fusion i g : fuseCompareConstJump J fusion f i = Some g → ∃ ws, g = rewrite f i ws.
Proof. unfold fuseCompareConstJump. solve_rewrites. Qed.
Lemma CompareReg_rewrites op sub i g : fuseCompareRegJump J op sub f i = Some g → ∃ ws, g = rewrite f i ws.
Proof. unfold fuseCompareRegJump. solve_rewrites. Qed.
Lemma IncIntJumpLt_rewrites i g : fuseIncIntJumpLt J f i = Some g → ∃ ws, g = rewrite f i ws.
Proof. unfold fuseIncIntJumpLt. solve_rewrites. Qed.
Lemma LenStringLt_rewrites i g : fuseLenStringLtJump J f i = Some g → ∃ ws, g = rewrite f i ws.
Proof. unfold fuseLenStringLtJump. solve_rewrites. Qed.
Lemma StringConst_rewrites i g : fuseStringConstJump J f i = Some g → ∃ ws, g = rewrite f i ws.
Proof. unfold fuseStringConstJump. solve_rewrites. Qed.
Lemma EqUintConst_rewrites i g : fuseEqUintConstJumpFalse J f i = Some g → ∃ ws, g = rewrite f i ws.
Proof. unfold fuseEqUintConstJumpFalse. solve_rewrites. Qed.
Lemma RangeCheck_rewrites i g : fuseRangeCheckUintJumpFalse J f i = Some g → ∃ ws, g = rewrite f i ws.
Proof. intros H. apply range_check_matched in H as (w & shape & v & c & _ & ->). eauto. Qed.

(** The fusions on operations the machine leaves out, moves, and the one of an
    addition with a jump. *)
Definition otherFusions : list (Z → option CompiledFunction) :=
  [FuseCopyStructFieldGeneralT0 StructLayoutTable J f;
   fuseNilTestJump J f;
   fuseMapIndexOkJumpFalse J OpMapIndexOkIntInt OpMapIndexOkJumpIfFalseIntInt f;
   fuseMapIndexOkJumpFalse J OpMapIndexOkStringInt OpMapIndexOkJumpIfFalseStringInt f;
   fuseMapIndexOkJumpFalse J OpMapIndexOkStringString OpMapIndexOkJumpIfFalseStringString f;
   fuseMapIndexOkJumpFalse J OpMapIndexOkIntString OpMapIndexOkJumpIfFalseIntString f;
   fuseMapIndexOkJumpFalse J OpMapIndexOkIntGeneral OpMapIndexOkJumpIfFalseIntGeneral f;
   fuseMapIndexOkJumpFalse J OpMapIndexOkStringGeneral OpMapIndexOkJumpIfFalseStringGeneral f;
   FuseAddIntJump J f;
   FuseConcatRune J f;
   FuseAppendMove J f;
   fuseMoveElimination J f;
   FuseStringIndexToInt J f].

Definition scalarAt (i : Z) : bool := match firstOf otherFusions i with None => true | Some _ => false end.

Lemma firstOf_Some {A B} (l : list (A → option B)) a b : firstOf l a = Some b → Exists (λ alt, alt a = Some b) l.
Proof.
  induction l as [|alt l IH]; cbn; [done|]. destruct (alt a) eqn:E; [|by right; apply IH].
  intros [= ->]. by left.
Qed.

Lemma firstOf_None {A B} (l : list (A → option B)) a : firstOf l a = None → Forall (λ alt, alt a = None) l.
Proof. induction l as [|alt l IH]; cbn; [done|]. destruct (alt a) eqn:E; [done|]. intros H. constructor; auto. Qed.

Ltac one_of_list H := repeat (apply Exists_cons in H as [H|H]); [..|by apply Exists_nil in H].

Lemma three_words_ok i g :
  scalarAt i = true → FuseThreeInstrPatterns J f i = Some g → sound_window f g i ∧ ∃ ws, g = rewrite f i ws.
Proof.
  unfold scalarAt. destruct (firstOf otherFusions i) eqn:Ho; [done|]. intros _ H.
  apply firstOf_None in Ho. unfold otherFusions in Ho. rewrite !Forall_cons in Ho.
  destruct Ho as (_ & Hnil & H1 & H2 & H3 & H4 & H5 & H6 & _).
  destruct Hf as [Hfu Ht Hp]. unfold FuseThreeInstrPatterns in H. apply firstOf_Some in H. one_of_list H; try congruence.
  - split; [exact (fuseCompareConstJump_ok f J Hfu Ht _ _ _ i g fuses_LeInt H)|by eapply CompareConst_rewrites].
  - split; [exact (fuseCompareConstJump_ok f J Hfu Ht _ _ _ i g fuses_LtInt H)|by eapply CompareConst_rewrites].
  - split; [exact (fuseCompareConstJump_ok f J Hfu Ht _ _ _ i g fuses_EqInt H)|by eapply CompareConst_rewrites].
  - split; [exact (fuseCompareConstJump_ok f J Hfu Ht _ _ _ i g fuses_EqInt_true H)|by eapply CompareConst_rewrites].
  - split; [exact (fuseCompareConstJump_ok f J Hfu Ht _ _ _ i g fuses_GeInt H)|by eapply CompareConst_rewrites].
  - split; [exact (fuseCompareConstJump_ok f J Hfu Ht _ _ _ i g fuses_GtInt H)|by eapply CompareConst_rewrites].
  - split; [by apply (fuseStringConstJump_ok f J)|by eapply StringConst_rewrites].
  - split; [by apply (fuseIncIntJumpLt_ok f J)|by eapply IncIntJumpLt_rewrites].
  - split; [by apply (fuseLenStringLtJump_ok f J)|by eapply LenStringLt_rewrites].
  - split; [by apply (fuseEqUintConstJumpFalse_ok f J)|by eapply EqUintConst_rewrites].
Qed.

Lemma registers_ok i g :
  FuseCompareRegJump J f i = Some g → sound_window f g i ∧ ∃ ws, g = rewrite f i ws.
Proof.
  destruct Hf as [Hfu Ht Hp]. unfold FuseCompareRegJump. intros H. apply firstOf_Some in H.
  one_of_list H; (split; [|by eapply CompareReg_rewrites]).
  - exact (fuseCompareRegJump_ok f J Hfu Ht _ _ _ i g registers_LtInt H).
  - exact (fuseCompareRegJump_ok f J Hfu Ht _ _ _ i g registers_LeInt H).
  - exact (fuseCompareRegJump_ok f J Hfu Ht _ _ _ i g registers_GtInt H).
  - exact (fuseCompareRegJump_ok f J Hfu Ht _ _ _ i g registers_GeInt H).
  - exact (fuseCompareRegJump_ok f J Hfu Ht _ _ _ i g registers_EqInt H).
  - exact (fuseCompareRegJump_ok f J Hfu Ht _ _ _ i g registers_NeInt H).
Qed.

Lemma fusion_ok i g :
  scalarAt i = true → firstOf (peepholeFusions debugVars StructLayoutTable J f) i = Some g →
  workable J g ∧ preserves f g.
Proof.
  intros Hs H. pose proof Hs as Ho. unfold scalarAt in Ho. destruct (firstOf otherFusions i) eqn:E; [done|]. clear Ho.
  apply firstOf_None in E. unfold otherFusions in E. rewrite !Forall_cons in E.
  destruct E as (Hcopy & _ & _ & _ & _ & _ & _ & _ & Hadd & Hrune & Happend & Hmove & Hindex & _).
  apply firstOf_Some in H. unfold peepholeFusions in H. one_of_list H; try congruence.
  - apply (rewrites_workable i); [|by eapply RangeCheck_rewrites]. destruct Hf. by apply (fuseRangeCheckUintJumpFalse_ok f J).
  - destruct (three_words_ok i g Hs H) as [Hw Hr]. by apply (rewrites_workable i).
  - destruct (registers_ok i g H) as [Hw Hr]. by apply (rewrites_workable i).
  - destruct Hf as [Hfu Ht Hp]. unfold FuseArithConst in H. apply firstOf_Some in H. one_of_list H.
    + destruct (fuseIntArithConst_ok f J Hfu Ht _ _ _ Hp H). by eapply window_workable.
    + destruct (fuseUintArithConst_ok f J Hfu Ht _ _ _ Hp H). by eapply window_workable.
Qed.
End turn.

Lemma OptimiseLoadInt_turn J f i : workable J f → workable J (OptimiseLoadIntConst f i) ∧ preserves f (OptimiseLoadIntConst f i).
Proof.
  intros Hf. pose proof Hf as [Hfu Ht Hp]. destruct (OptimiseLoadIntConst_ok f J Hfu Ht i Hp) as [->|Hw].
  - split; [done|apply preserves_refl].
  - eapply window_workable; [done|done|]. unfold OptimiseLoadIntConst. repeat case_match; try done; by apply typed_rewrite.
Qed.

Lemma OptimiseLoadUint_turn J f i : workable J f → workable J (OptimiseLoadUintConst f i) ∧ preserves f (OptimiseLoadUintConst f i).
Proof.
  intros Hf. pose proof Hf as [Hfu Ht Hp]. destruct (OptimiseLoadUintConst_ok f J Hfu Ht i Hp) as [->|Hw].
  - split; [done|apply preserves_refl].
  - eapply window_workable; [done|done|]. unfold OptimiseLoadUintConst. repeat case_match; try done; by apply typed_rewrite.
Qed.

(** ** The walk *)

Section walk.
Context (debugVars : option (list DebugVarEntry)) (StructLayoutTable : list StructFieldLayout) (cancelled : Z → bool).

#[local] Notation peepholeAt := (peepholeAt debugVars StructLayoutTable).
#[local] Notation peepholeWalk := (peepholeWalk debugVars StructLayoutTable cancelled).

(** No other fusion matches anywhere on the walk. *)
Fixpoint scalarWalk (J : gset Z) (f : CompiledFunction) (positions : list Z) : bool :=
  match positions with
  | [] => true
  | i :: positions => scalarAt J f StructLayoutTable i && scalarWalk J (peepholeAt J f i) positions
  end.

Lemma turn_ok J f i : workable J f → scalarAt J f StructLayoutTable i = true →
  workable J (peepholeAt J f i) ∧ preserves f (peepholeAt J f i).
Proof.
  intros Hf Hs. unfold FuseDriver.peepholeAt. destruct (firstOf _ i) as [g|] eqn:H; [by eapply fusion_ok|].
  destruct (OptimiseLoadInt_turn J f i Hf) as [H1 P1]. destruct (OptimiseLoadUint_turn J _ i H1) as [H2 P2].
  split; [done|by eapply preserves_trans].
Qed.

Lemma walk_ok J f positions : workable J f → scalarWalk J f positions = true →
  workable J (fst (peepholeWalk J f positions)) ∧ preserves f (fst (peepholeWalk J f positions)).
Proof.
  revert f. induction positions as [|i positions IH]; intros f Hf; cbn [scalarWalk FuseDriver.peepholeWalk].
  { intros _. split; [done|apply preserves_refl]. }
  intros [Hs Hrest]%andb_true_iff. case_match; [split; [done|apply preserves_refl]|].
  destruct (turn_ok J f i Hf Hs) as [H1 P1]. destruct (IH _ H1 Hrest) as [H2 P2].
  split; [done|by eapply preserves_trans].
Qed.
End walk.

(** ** An addition with a jump *)

(** The jump of the fused addition is one word further than the jump it
    replaces: the extension word holds the old offset and one more, but both
    are counted from the word after the window. *)
Section add_jump.
Context (J : gset Z) (f g : CompiledFunction) (i t : Z).
Context (Hfuse : FuseAddIntJump J f i = Some g) (Ht : JumpTargetAt (Body f) (i + 1) = Some t).
Context (Hfit : t < i + 2 + MaxInt16).

Lemma add_jump_words : ∃ add branch,
  zget (Body f) i = Some add ∧ zget (Body f) (i + 1) = Some branch ∧ iOp add = OpAddIntConst ∧
  InstrIsTier1SubOp branch SubOpJump = true ∧ t = i + 2 + SignedOffset branch ∧
  isS 16 (SignedOffset branch + 1) ∧
  g = rewrite f i [NewInstruction OpAddIntJump (iA add) (iB add) (iC add); offsetWord (SignedOffset branch + 1)].
Proof.
  revert Hfuse. unfold FuseAddIntJump. destruct (words2 (Body f) i) as [[add branch]|] eqn:Hwords; [|done].
  apply words2_Some in Hwords as [H0 H1]. cbn [mbind option_bind]. case_if; [done|]. intros [= <-]. bool_hyps.
  exists add, branch. rewrite (row_jump _ _ branch) in Ht by (done || by right). injection Ht as <-.
  pose proof (JoinOffset_range (iB branch) (iC branch)) as Hr. fold (SignedOffset branch) in Hr.
  assert (isS 16 (SignedOffset branch + 1)) by (unfold isS, MaxInt16 in *; lia).
  rewrite wrapS_id by done. split_and!; try done. lia.
Qed.

Lemma add_jump_target : JumpTargetAt (Body g) i = Some (t + 1).
Proof.
  destruct add_jump_words as (add & branch & H0 & H1 & _ & _ & -> & Hoff & ->).
  pose proof (zget_Some_range _ _ _ H0). pose proof (zget_Some_range _ _ _ H1).
  cbn [Body rewrite setBody].
  rewrite (fused_target f i (NewInstruction OpAddIntJump (iA add) (iB add) (iC add)) 0 (SignedOffset branch + 1) []);
    [f_equal; lia|lia|cbn; lia|done|done].
Qed.

Lemma add_jump_step r y1 y2 :
  dispatchStep f (NewCallFrame i r) = Some (opContinue y1) → dispatchStep f y1 = Some (opContinue y2) →
  ProgramCounter y2 = t ∧
  dispatchStep g (NewCallFrame i r) = Some (opContinue (NewCallFrame (t + 1) (registers y2))).
Proof.
  destruct add_jump_words as (add & branch & H0 & H1 & Hadd & Hjump & -> & Hoff & ->).
  pose proof (zget_Some_range _ _ _ H0). pose proof (zget_Some_range _ _ _ H1).
  set (ws := [NewInstruction OpAddIntJump (iA add) (iB add) (iC add); offsetWord (SignedOffset branch + 1)]).
  assert (Hat : words_at (setWords (Body f) i ws) i ws) by (apply new_within; cbn; lia).
  pose proof (Hat 0 ltac:(cbn; lia)) as Ha0. rewrite Z.add_0_r in Ha0. pose proof (Hat 1 ltac:(cbn; lia)) as Ha1.
  destruct add as [o a b c]. cbn in Hadd. subst o. rewrite (dispatch_here f i r _ (intConst (λ x k, wrapS 64 (x + k))) H0 eq_refl).
  cbn [iA iB iC] in *. unfold intConst at 1. cbn [iC iB iA registers].
  destruct (zget (IntConstants f) c) as [k|] eqn:Hk; [|done]. unfold getInt, getReg.
  destruct (zget (Ints r) b) as [x|] eqn:Hx; [|done]. cbn [mbind OpResult_bind]. rewrite eval_setInt. unfold storesI.
  destruct (zget (Ints r) a) as [y|] eqn:Hy; [|done]. intros [= <-].
  apply tier1_word in Hjump. rewrite Hjump in H1.
  rewrite (dispatch_here f (i + 1) _ _ handleJump H1 eq_refl). intros [= <-]. cbn [ProgramCounter registers].
  split; [change (i + 1 + 1 + SignedOffset branch = i + 2 + SignedOffset branch); lia|].
  set (g := rewrite f i ws).
  rewrite (dispatch_here g i r (NewInstruction OpAddIntJump a b c) handleAddIntJump Ha0 eq_refl).
  unfold handleAddIntJump. cbn [iA iB iC registers]. change (IntConstants g) with (IntConstants f). rewrite Hk.
  unfold getInt, getReg. rewrite Hx. cbn [mbind OpResult_bind]. rewrite eval_setInt. unfold storesI. rewrite Hy.
  cbn [mbind OpResult_bind]. rewrite (eval_conditionalJump g _ _ _ _ Ha1).
  f_equal. f_equal. unfold setI. cbn [registers]. f_equal.
  assert (Hword : JoinOffset (iA (offsetWord (SignedOffset branch + 1))) (iB (offsetWord (SignedOffset branch + 1))) =
    SignedOffset branch + 1).
  { unfold offsetWord. destruct (SplitOffset _) as [lo hi] eqn:E. cbn [iA iB]. by apply JoinOffset_SplitOffset. }
  rewrite Hword. lia.
Qed.
End add_jump.

(** ** Sample functions *)

(** A loop over a register, with a limit and a step that are constants. *)
Definition sample_fusions : CompiledFunction :=
  with_results (setBody (setIntPool (NewNamedFunction "f") [10] None)
    [NewInstruction OpLoadIntConst 2 0 0;
     NewInstruction OpLtInt 3 0 2;
     NewInstruction OpJumpIfFalse 3 3 0;
     NewInstruction OpDrillTier1 SubOpLoadIntConstSmall 4 5;
     NewInstruction OpAddInt 0 0 4;
     NewTier1Instruction SubOpJump 250 255;
     NewInstruction OpDrillTier1 SubOpDrillTier2 SubOpTier2Return 1]) [RegisterInt].

Definition sample_add_jump : CompiledFunction :=
  with_results (setBody (setIntPool (NewNamedFunction "f") [5] None)
    [NewInstruction OpAddIntConst 0 0 0;
     NewTier1Instruction SubOpJump 0 0;
     NewInstruction OpSubIntConst 0 0 0;
     NewInstruction OpDrillTier1 SubOpDrillTier2 SubOpTier2Return 1]) [RegisterInt].

Lemma sample_fusions_fusible : fusible (Body sample_fusions).
Proof.
  split; [apply checkTidy_ok; vm_compute; reflexivity|apply plain_compactable; vm_compute; reflexivity|vm_compute; done].
Qed.



(** C38: The jump of a fused addition lands one word late.  Where the fusion of an
    addition of a constant with the jump after it matches, and the offset it
    writes fits, the fused instruction jumps one word past the target of the
    jump it replaces: the extension word holds the old offset and one more,
    though old and new offset are counted from the same word.  One step of the
    rewritten function adds what two steps of the old one added and goes to the
    word after the one they go to. *)
Theorem fused_add_jump_lands_one_word_late J f g i t :
  FuseAddIntJump J f i = Some g → JumpTargetAt (Body f) (i + 1) = Some t → t < i + 2 + MaxInt16 →
  JumpTargetAt (Body g) i = Some (t + 1) ∧
  ∀ r y1 y2, dispatchStep f (NewCallFrame i r) = Some (opContinue y1) → dispatchStep f y1 = Some (opContinue y2) →
    ProgramCounter y2 = t ∧
    dispatchStep g (NewCallFrame i r) = Some (opContinue (NewCallFrame (t + 1) (registers y2))).
Proof.
  intros Hfuse Ht Hfit. split; [by apply (add_jump_target J f)|]. intros r y1 y2. by apply (add_jump_step J f).
Qed.

Theorem fused_add_jump_lands_one_word_late_witness :
  ∃ g, FuseAddIntJump (JumpTargetsOf (Body sample_add_jump)) sample_add_jump 0 = Some g ∧
    JumpTargetAt (Body sample_add_jump) 1 = Some 2 ∧ JumpTargetAt (Body g) 0 = Some 3 ∧
    let start := NewCallFrame 0 (NewRegisters [1] [] [] []) in
    runFor (sampleOthers sample_add_jump) 9 sample_add_jump tt start = Some (ended [Some (VInt 1)]) ∧
    runFor (sampleOthers sample_add_jump) 9 g tt start = Some (ended [Some (VInt 6)]).
Proof.
  eexists. split; [vm_compute; reflexivity|]. split; [vm_compute; reflexivity|]. split.
  - refine (proj1 (fused_add_jump_lands_one_word_late (JumpTargetsOf (Body sample_add_jump)) sample_add_jump _ 0 2 _ _ _)); vm_compute; reflexivity.
  - split; vm_compute; reflexivity.
Defined.
