(* ===== verification/GvnSound.v ===== *)
(** * What value numbers mean

    The invariant of the scan of [Gvn] over straight code: there is a value for
    every number, the registers with a definition hold the values of their
    numbers, and an entry of the table is an instruction whose value its
    operands determine. *)

From S2P Require Import Prelude SafeConv Register Opcode Instruction Shapes Spec JumpLayout Jumps.
From S2P Require Import Extension Function Builder Verify VerifySound Machine MachineSafe MachineFlow.
From S2P Require Import FuseNarrow PassFacts Ranges RangesSolve Dominators Relocate Liveness OpenMachine LivenessSound LivenessRun.
From S2P Require Import Peephole MoveElim FuseDriver Gvn Compact CompactMarks CompactRecode Splice SpliceRun FusionWindow.

(** ** The tables of the scan *)

(** The number the value of the word at [d] goes by. *)
Definition number (state : gvnState) (d : Z) : Z :=
  match zget (perPCValueNum state) d with
  | Some num => if num =? gvnNoDefiningPC then d else num
  | None => d
  end.

Lemma lookup_number state reg bank n :
  gvnLookupValueNumber state reg bank = Some n →
  lastDef state bank reg ≠ gvnNoDefiningPC ∧ n = number state (lastDef state bank reg).
Proof.
  unfold gvnLookupValueNumber, number. destruct (_ || _); [done|].
  destruct (lastDef state bank reg =? gvnNoDefiningPC) eqn:Hd; [done|]. bool_hyps.
  destruct (zget (perPCValueNum state) _) as [num|]; intros [= <-]; [|done].
  split; [done|]. by destruct (num =? gvnNoDefiningPC).
Qed.

Lemma lastDef_set state bank reg pc b r :
  lastDef (setLastDef state bank reg pc) b r ≠ gvnNoDefiningPC →
  (b = bank ∧ r = reg ∧ lastDef (setLastDef state bank reg pc) b r = pc) ∨
  ((b, r) ≠ (bank, reg) ∧ lastDef (setLastDef state bank reg pc) b r = lastDef state b r).
Proof.
  unfold lastDef, setLastDef. cbn [regLastDef]. destruct (decide (b = bank)) as [->|Hb].
  2: { rewrite zget_zset_ne by done. right. split; [congruence|done]. }
  destruct (zget (regLastDef state) bank) as [row|] eqn:Hrow; cbn [default].
  2: { assert (zget (zset (regLastDef state) bank (zset [] reg pc)) bank = None) as ->; [|done].
       apply zget_None. rewrite length_zset. by apply zget_None. }
  rewrite zget_zset_eq by (by eapply zget_Some_range). cbn [mbind option_bind].
  destruct (decide (r = reg)) as [->|Hr].
  2: { rewrite zget_zset_ne by done. right. split; [congruence|done]. }
  destruct (zget row reg) as [old|] eqn:Hold.
  - rewrite zget_zset_eq by (by eapply zget_Some_range). by left.
  - cbn. assert (zget (zset row reg pc) reg = None) as ->; [|done].
    apply zget_None. rewrite length_zset. by apply zget_None.
Qed.

Lemma zget_imap {A B} (g : nat → A → B) l i : zget (imap g l) i = g (Z.to_nat i) <$> zget l i.
Proof. unfold zget. destruct (i <? 0)%Z; [done|]. by rewrite list_lookup_imap. Qed.

Lemma lastDef_killed table nums defs inst b r :
  let state := NewGvnState table nums defs in
  let killed := NewGvnState table nums (imap (λ bank row, killedRow inst (Z.of_nat bank) row) defs) in
  lastDef killed b r ≠ gvnNoDefiningPC →
  lastDef killed b r = lastDef state b r ∧
  ∀ role, gvnBankToRole b = Some role → instructionWritesRegisterInBank inst role r = false.
Proof.
  unfold lastDef. cbn [regLastDef]. rewrite zget_imap.
  destruct (zget defs b) as [row|] eqn:Hrow; [|done]. cbn [fmap option_fmap option_map mbind option_bind].
  apply zget_Some_range in Hrow. unfold killedRow. rewrite Z2Nat.id by lia.
  destruct (gvnBankToRole b) as [role|]; [|done]. rewrite zget_imap.
  destruct (zget row r) as [def|] eqn:Hd; [|done]. cbn [fmap option_fmap option_map default].
  apply zget_Some_range in Hd. unfold killedDef. rewrite Z2Nat.id by lia.
  destruct (def =? gvnNoDefiningPC) eqn:Hn; bool_hyps; [by subst|].
  destruct (instructionWritesRegisterInBank inst role r) eqn:Hw; [done|]. intros _. split; [done|].
  by intros ? [= <-].
Qed.

Lemma lastDef_none b r table nums : lastDef (NewGvnState table nums noDefinitions) b r = gvnNoDefiningPC.
Proof.
  unfold lastDef, noDefinitions. cbn [regLastDef].
  destruct (zget (replicate _ _) b) as [row|] eqn:Hrow; [|done]. cbn.
  rewrite zget_lookup in Hrow by (by eapply zget_Some_range). apply lookup_replicate in Hrow as [-> _].
  destruct (zget _ r) as [d|] eqn:Hd; [|done].
  rewrite zget_lookup in Hd by (by eapply zget_Some_range). by apply lookup_replicate in Hd as [-> _].
Qed.

Lemma number_set state pc num d :
  zlen (perPCValueNum state) > pc → 0 <= pc → num ≠ gvnNoDefiningPC →
  number (setValueNum state pc num) d = if bool_decide (d = pc) then num else number state d.
Proof.
  intros Hlt Hpc Hnum. unfold setValueNum. rewrite (proj2 (Z.leb_le _ _)), (proj2 (Z.ltb_lt _ _)) by lia. cbn [andb].
  unfold number. cbn [perPCValueNum]. case_bool_decide as Hd.
  - subst d. rewrite zget_zset_eq by lia. by rewrite (proj2 (Z.eqb_neq _ _)).
  - by rewrite zget_zset_ne.
Qed.

Lemma setValueNum_rest state pc num :
  valueTable (setValueNum state pc num) = valueTable state ∧
  zlen (perPCValueNum (setValueNum state pc num)) = zlen (perPCValueNum state) ∧
  (∀ b r, lastDef (setValueNum state pc num) b r = lastDef state b r).
Proof. unfold setValueNum. destruct (_ && _); [|done]. cbn. by rewrite length_zset. Qed.

(** ** What a computation computes *)

Definition intOperation (op : Opcode) : option (Z → Z → option Z) :=
  if one_of op [OpAddInt; OpAddIntConst] then Some (λ x y, Some (wrapS 64 (x + y)))
  else if one_of op [OpSubInt; OpSubIntConst] then Some (λ x y, Some (wrapS 64 (x - y)))
  else if one_of op [OpMulInt; OpMulIntConst] then Some (λ x y, Some (wrapS 64 (x * y)))
  else if op =? OpDivInt then Some (λ x y, if y =? 0 then None else Some (wrapS 64 (Z.quot x y)))
  else None.

Definition uintOperation (op : Opcode) : option (Z → Z → option Z) :=
  if op =? OpAddUint then Some (λ x y, Some (wrapU 64 (x + y)))
  else if op =? OpSubUint then Some (λ x y, Some (wrapU 64 (x - y)))
  else if op =? OpMulUint then Some (λ x y, Some (wrapU 64 (x * y)))
  else if op =? OpDivUint then Some (λ x y, if y =? 0 then None else Some (x / y))
  else None.

Definition valueOf (op : Opcode) (left right : option RegValue) : option RegValue :=
  match intOperation op, uintOperation op, left, right with
  | Some g, _, Some (VInt x), Some (VInt y) => VInt <$> g x y
  | None, Some g, Some (VUint x), Some (VUint y) => VUint <$> g x y
  | _, _, _, _ => None
  end.

Definition constantOps : list Opcode := [OpAddIntConst; OpSubIntConst; OpMulIntConst].
Definition floatOps : list Opcode := [OpAddFloat; OpSubFloat; OpMulFloat; OpDivFloat].
Definition commutativeOps : list Opcode := [OpAddInt; OpMulInt; OpAddUint; OpMulUint; OpAddFloat; OpMulFloat].

(** The operations that get a key, those on floats apart. *)
Definition keyedOps : list Opcode :=
  [OpAddInt; OpSubInt; OpMulInt; OpDivInt; OpAddUint; OpSubUint; OpMulUint; OpDivUint] ++ constantOps.

Definition keyBank (op : Opcode) : Z := if one_of op constantOps then gvnBankIndexInt else gvnBankForArithmetic op.

(** One goal for each opcode of a list. *)
Ltac each_op Hop :=
  unfold keyedOps, constantOps, commutativeOps in Hop; cbn [app] in Hop;
  repeat (apply elem_of_cons in Hop; destruct Hop as [Hop|Hop]);
  try (by apply elem_of_nil in Hop);
  lazymatch type of Hop with ?op = _ => subst op end.

Lemma valueOf_comm op x y : op ∈ commutativeOps → valueOf op x y = valueOf op y x.
Proof.
  intros Hop. each_op Hop; unfold valueOf; cbn;
    destruct x as [[]|], y as [[]|]; cbn; try done; do 3 f_equal; lia.
Qed.

Section computation.
Context (f : CompiledFunction) (p : Z) (r : Registers) (instr : Instruction).

Definition secondOperand : option RegValue :=
  if one_of (iOp instr) constantOps then VInt <$> zget (IntConstants f) (iC instr)
  else readReg r (keyBank (iOp instr)) (iC instr).

Definition computed : option RegValue :=
  valueOf (iOp instr) (readReg r (keyBank (iOp instr)) (iB instr)) secondOperand.

Definition storeValue (a : Z) (v : RegValue) : OpResult CallFrame :=
  match v with VInt x => storesI p r a x | VUint x => storesU p r a x | _ => indexPanic end.

Definition handles (h : Handler) : Prop :=
  flatDispatchSwitch instr = Some h ∧
  (∀ v, computed = Some v → h f (NewCallFrame p r) instr = storeValue (iA instr) v) ∧
  (∀ y, h f (NewCallFrame p r) instr = opContinue y → is_Some computed).

Lemma keyed_handler : iOp instr ∈ keyedOps → ∃ h, handles h.
Proof.
  intros Hop. unfold handles, computed, secondOperand, storeValue.
  destruct instr as [op a b c]. cbn [iOp iA iB iC] in *. each_op Hop; eexists; (split; [reflexivity|]);
    unfold valueOf, readReg, storesI, storesU; cbn; unfold_operation;
    unfold binaryInt, binaryUint, intConst, withRegisters, getInt, getUint, setInt, setUint, getReg, setReg; cbn.
  all: repeat match goal with
    | |- context [zget ?l ?i] => destruct (zget l i); cbn; try done
    | |- context [if ?b then _ else _] => destruct b; cbn; try done
    end.
  all: split; [by intros ? [= <-]|eauto].
Qed.
End computation.

Definition kindOf (v : RegValue) : RegisterKind :=
  match v with
  | VInt _ => RegisterInt
  | VUint _ => RegisterUint
  | VString _ => RegisterString
  | VBool _ => RegisterBool
  end.

Lemma valueOf_kind op x y v : op ∈ keyedOps → valueOf op x y = Some v → kindOf v = keyBank op.
Proof.
  intros Hop. each_op Hop; unfold valueOf; cbn;
    destruct x as [[]|], y as [[]|]; cbn; try done; try (case_if; [done|]); by intros [= <-].
Qed.

Lemma storeValue_continue p r a v y :
  storeValue p r a v = opContinue y → ProgramCounter y = p ∧ readReg (registers y) (kindOf v) a = Some v.
Proof.
  unfold storeValue, storesI, storesU. destruct v; [| |done|done]; destruct (zget _ a) eqn:Hg; try done;
    intros [= <-]; (split; [done|]); apply zget_Some_range in Hg; cbn; unfold readReg; cbn;
    by rewrite zget_zset_eq by lia.
Qed.

(** The banks whose registers the machine has a value for. *)
Definition numberedBanks : list Z := [gvnBankIndexInt; gvnBankIndexUint].

Lemma move_handler f p r bank a src v :
  bank ∈ numberedBanks → readReg r bank src = Some v →
  ∃ move h, gvnEmitMoveForBank bank a src = Some move ∧ flatDispatchSwitch move = Some h ∧
    h f (NewCallFrame p r) move = storeValue p r a v.
Proof.
  intros Hb. unfold numberedBanks in Hb. each_op Hb; unfold readReg; cbn;
    (destruct (zget _ src) as [x|] eqn:Hx; [|done]); intros [= <-]; eexists _, _; (split; [reflexivity|]);
    (split; [reflexivity|]); unfold reshapeTier1; unfold_operation; unfold unaryInt, unaryUint,
    withRegisters, getInt, getUint, setInt, setUint, getReg, setReg; cbn; rewrite Hx; cbn; unfold storesI, storesU; by destruct (zget _ a).
Qed.

(** ** What a tracked instruction writes *)

Definition trackedOps : list Opcode :=
  [OpAddInt; OpSubInt; OpMulInt; OpDivInt; OpRemInt; OpAddIntConst; OpSubIntConst; OpMulIntConst; OpLoadIntConst] ++
  [OpAddUint; OpSubUint; OpMulUint; OpDivUint; OpRemUint; OpLoadUintConst] ++
  [OpAddFloat; OpSubFloat; OpMulFloat; OpDivFloat; OpLoadFloatConst].

Lemma dest_tracked instr bank reg :
  gvnInstructionDest instr = Some (bank, reg) → iOp instr ∈ trackedOps ∧ reg = iA instr.
Proof.
  unfold gvnInstructionDest, trackedOps. rewrite !elem_of_app, <- !one_of_spec.
  repeat (case_if; [intros [= _ <-]; tauto|]). done.
Qed.

Lemma dest_writes instr bank reg kind reg' :
  gvnInstructionDest instr = Some (bank, reg) → kind ∈ numberedBanks → (kind, reg') ≠ (bank, reg) →
  instructionWritesRegisterInBank instr (RoleForKind kind) reg' = false.
Proof.
  intros Hdest Hk Hne. pose proof (dest_tracked _ _ _ Hdest) as [Hop _].
  unfold trackedOps in Hop. destruct instr as [op a b c]. cbn [iOp] in Hop. unfold numberedBanks in Hk.
  apply not_true_is_false. intros Hw.
  apply instructionWrites_spec in Hw as (position & role & Hin & Hmask & Hmatch);
    [|by apply RoleForKind_neq_RoleNone|each_op Hop; reflexivity|each_op Hop; reflexivity].
  unfold operands in Hin. cbn [iA iB iC] in Hin. rewrite !elem_of_cons, elem_of_nil in Hin.
  each_op Hop; injection Hdest as <- <-; destruct_or! Hin; try done; injection Hin as -> -> ->;
    try discriminate Hmask; each_op Hk; try discriminate Hmatch; congruence.
Qed.

Lemma dest_modelled instr bank reg :
  gvnInstructionDest instr = Some (bank, reg) → bank ∈ numberedBanks → ∃ h, flatDispatchSwitch instr = Some h.
Proof.
  intros Hdest Hb. pose proof (dest_tracked _ _ _ Hdest) as [Hop _]. unfold trackedOps in Hop.
  destruct instr as [op a b c]. cbn [iOp] in Hop.
  each_op Hop; try (eexists; reflexivity); injection Hdest as <- <-; exfalso; revert Hb; unfold numberedBanks;
    by rewrite <- one_of_spec.
Qed.

Lemma zset_is_Some {A} (l : list A) i v : is_Some (zget l i) → is_Some (zget (zset l i v) i).
Proof. intros [x Hg]. rewrite zget_zset_eq; [done|]. by eapply zget_Some_range. Qed.

Lemma dest_written f p r instr h y bank reg :
  gvnInstructionDest instr = Some (bank, reg) → bank ∈ numberedBanks → flatDispatchSwitch instr = Some h →
  h f (NewCallFrame p r) instr = opContinue y → is_Some (readReg (registers y) bank reg).
Proof.
  intros Hdest Hb. pose proof (dest_tracked _ _ _ Hdest) as [Hop _]. unfold trackedOps in Hop.
  destruct instr as [op a b c]. cbn [iOp] in Hop. intros Hd Hrun.
  each_op Hop; injection Hdest as <- <-;
    try (exfalso; revert Hb; unfold numberedBanks; by rewrite <- one_of_spec);
    injection Hd as <-; revert Hrun; unfold_handler; intros Hrun; handler_inv; cbn [registers]; unfold readReg; cbn;
    apply fmap_is_Some, zset_is_Some; assumption.
Qed.

Lemma modelled_covers f p r instr h y kind reg :
  wf_instruction instr → narrows_known instr → flatDispatchSwitch instr = Some h →
  h f (NewCallFrame p r) instr = opContinue y →
  instructionWritesRegisterInBank instr (RoleForKind kind) reg = false →
  readReg (registers y) kind reg = readReg r kind reg.
Proof.
  intros Hwf Hn Hd Hrun Hnot. destruct (decide (iOp instr = OpTruncateNarrow)) as [Hop|Hop].
  2: { by eapply (written_covers f (NewCallFrame p r)). }
  assert (Hne : (kind, reg) ≠ (iC instr, iA instr)).
  { intros [= -> ->]. apply not_true_iff_false in Hnot. destruct instr as [op a b c]. cbn [iOp iA iC] in *. subst op. apply Hnot.
    apply instructionWrites_spec; [by apply RoleForKind_neq_RoleNone|reflexivity|reflexivity|].
    exists 0, RoleRegDynamic. split; [apply list_elem_of_here|]. split; [reflexivity|].
    unfold operandWriteMatchesBank. rewrite bool_decide_eq_false_2 by apply RoleForKind_neq_Dynamic. 
    rewrite bool_decide_eq_false_2 by (intros ?; done). by apply bool_decide_eq_true_2. }
  destruct instr as [op a b c]. cbn [iOp iA iC] in *. subst op. injection Hd as <-.
  destruct (Hn eq_refl) as [Hc|Hc]; cbn [iC] in Hc; subst c; revert Hrun; unfold HandleTruncateNarrow; cbn [iA iB iC registers];
    [change (RegisterInt =? RegisterUint) with false|change (RegisterUint =? RegisterUint) with true]; cbv iota zeta;
    unfold withRegisters, getInt, getUint, setInt, setUint, getReg, setReg;
    (destruct (zget _ a); [|done]); cbn; intros [= <-]; cbn [registers].
  - by apply readReg_setInts.
  - by apply readReg_setUints.
Qed.

(** ** The invariant *)

Section invariant.
Context (f : CompiledFunction).

(** What the second part of a key stands for. *)
Definition keyRight (ν : Z → option RegValue) (op : Opcode) (b : Z) : option RegValue :=
  if one_of op constantOps then VInt <$> zget (IntConstants f) b else ν b.

(** Before the word at [pc], in a body rewritten up to there: [ν] gives the
    numbers their values. *)
Record numbered (cur : list Instruction) (state : gvnState) (pc : Z) (ν : Z → option RegValue) (r : Registers)
    : Prop := {
  nb_length : zlen (perPCValueNum state) = zlen cur;
  nb_defs bank reg : bank ∈ numberedBanks → lastDef state bank reg ≠ gvnNoDefiningPC →
    0 <= lastDef state bank reg < pc ∧ 0 <= number state (lastDef state bank reg) < pc ∧
    is_Some (ν (number state (lastDef state bank reg))) ∧
    readReg r bank reg = ν (number state (lastDef state bank reg));
  nb_table op a b c : valueTable state !! (op, a, b) = Some c → op ∈ keyedOps →
    0 <= c < pc ∧ number state c = c ∧ 0 <= a < pc ∧ (one_of op constantOps = false → 0 <= b < pc) ∧
    (∃ inst, zget cur c = Some inst ∧ iOp inst = op) ∧ ν c = valueOf op (ν a) (keyRight ν op b);
}.

(** Registers of the numbered banks that an instruction does not write. *)
Definition keeps (inst : Instruction) (r r' : Registers) : Prop :=
  ∀ kind reg, kind ∈ numberedBanks → instructionWritesRegisterInBank inst (RoleForKind kind) reg = false →
    readReg r' kind reg = readReg r kind reg.

Lemma numbered_start r ν : numbered (Body f) (newGvnState (zlen (Body f))) 0 ν r.
Proof.
  split.
  - cbn. rewrite length_replicate. lia.
  - intros bank reg _ H. by destruct (H (lastDef_none _ _ _ _)).
  - intros op a b c H. done.
Qed.

Lemma numbered_clear cur state pc pc' ν ν' r r' :
  numbered cur state pc ν r → numbered cur (clearOnCall state) pc' ν' r'.
Proof.
  intros H. split; [exact (nb_length _ _ _ _ _ H)| |done].
  intros bank reg _ Hd. by destruct (Hd (lastDef_none _ _ _ _)).
Qed.

Lemma bank_role bank : bank ∈ numberedBanks → gvnBankToRole bank = Some (RoleForKind bank).
Proof. intros Hb. unfold numberedBanks in Hb. by each_op Hb. Qed.

Lemma numbered_kill cur state pc ν r r' inst :
  numbered cur state pc ν r → gvnInstructionDest inst = None → keeps inst r r' →
  numbered cur (updateRegLastDef state inst pc) (pc + 1) ν r'.
Proof.
  intros [Hlen Hdefs Htable] Hdest Hkeeps. unfold updateRegLastDef. rewrite Hdest. destruct state as [table nums defs].
  cbn [valueTable perPCValueNum regLastDef] in *. split; [exact Hlen| |].
  - intros bank reg Hb Hd. destruct (lastDef_killed table nums defs inst bank reg Hd) as [Heq Hw].
    rewrite Heq in Hd |- *. destruct (Hdefs bank reg Hb Hd) as (H1 & H2 & H3 & H4).
    split; [lia|]. split; [change (number _ ?d) with (number (NewGvnState table nums defs) d); lia|].
    split; [exact H3|]. rewrite (Hkeeps bank reg Hb); [exact H4|]. by apply Hw, bank_role.
  - intros op a b c Hc Hop. destruct (Htable op a b c Hc Hop) as (H1 & H2 & H3 & H4 & H5).
    split; [lia|]. split; [exact H2|]. split; [lia|]. split; [intros Hk; specialize (H4 Hk); lia|done].
Qed.

(** A number is given to what the word at [pc] computes: its own, or that of an
    earlier word. *)
Lemma numbered_define cur cur' state pc ν ν' r r' inst bank reg num :
  numbered cur state pc ν r → gvnInstructionDest inst = Some (bank, reg) → keeps inst r r' →
  0 <= pc < zlen cur → zlen cur' = zlen cur → (∀ c, c < pc → zget cur' c = zget cur c) → (∀ d, d ≠ pc → ν' d = ν d) →
  0 <= num <= pc → (bank ∈ numberedBanks → is_Some (ν' num) ∧ readReg r' bank reg = ν' num) →
  numbered cur' (setValueNum (setLastDef state bank reg pc) pc num) (pc + 1) ν' r'.
Proof.
  intros [Hlen Hdefs Htable] Hdest Hkeeps Hpc Hcur Hsame Hν Hnum Hval.
  destruct (setValueNum_rest (setLastDef state bank reg pc) pc num) as (Htab & Hlens & Hlast).
  assert (Hn : ∀ d, number (setValueNum (setLastDef state bank reg pc) pc num) d =
    if bool_decide (d = pc) then num else number state d).
  { intros d. rewrite number_set by (cbn; unfold gvnNoDefiningPC; lia). done. }
  split; [rewrite Hlens; cbn; lia| |].
  - intros b s Hb. rewrite Hlast. intros Hd.
    destruct (lastDef_set _ _ _ _ _ _ Hd) as [(-> & -> & Heq)|[Hne Heq]]; rewrite Heq in Hd |- *; rewrite Hn.
    + rewrite bool_decide_eq_true_2 by done. destruct (Hval Hb). split_and!; [lia|lia|lia|lia|done|done].
    + destruct (Hdefs b s Hb Hd) as (H1 & H2 & H3 & H4). rewrite bool_decide_eq_false_2 by lia.
      rewrite Hν by lia. split_and!; [lia|lia|lia|lia|done|]. rewrite (Hkeeps b s Hb); [done|].
      by apply (dest_writes inst bank reg).
  - intros op a b c. rewrite Htab. intros Hc Hop. destruct (Htable op a b c Hc Hop) as (H1 & H2 & H3 & H4 & H5 & H6).
    rewrite Hn, bool_decide_eq_false_2, Hsame, (Hν c), (Hν a) by lia. split_and!; try lia; [|done|].
    + intros Hk. specialize (H4 Hk). lia.
    + rewrite H6. unfold keyRight. destruct (one_of op constantOps) eqn:Hk; [done|]. specialize (H4 eq_refl).
      by rewrite Hν by lia.
Qed.

(** An entry for the word before [pc]. *)
Lemma numbered_entry cur state pc ν r op a b c :
  numbered cur state pc ν r →
  (op ∈ keyedOps → 0 <= c < pc ∧ number state c = c ∧ 0 <= a < pc ∧ (one_of op constantOps = false → 0 <= b < pc) ∧
    (∃ inst, zget cur c = Some inst ∧ iOp inst = op) ∧ ν c = valueOf op (ν a) (keyRight ν op b)) →
  numbered cur (setTable state (op, a, b) c) pc ν r.
Proof.
  intros [Hlen Hdefs Htable] Hentry. split; [done|done|].
  intros op' a' b' c'. cbn [setTable valueTable]. rewrite lookup_insert_Some.
  intros [[[= <- <- <-] <-]|[_ Hc]]; [exact Hentry|by apply Htable].
Qed.

(** ** Keys *)

Lemma keyed_bank op : op ∈ keyedOps → keyBank op ∈ numberedBanks.
Proof. intros Hop. unfold numberedBanks. each_op Hop; rewrite <- one_of_spec; reflexivity. Qed.

Lemma lookup_value cur state pc ν r bank reg n :
  numbered cur state pc ν r → bank ∈ numberedBanks → gvnLookupValueNumber state reg bank = Some n →
  0 <= n < pc ∧ readReg r bank reg = ν n.
Proof.
  intros H Hb Hn. apply lookup_number in Hn as [Hd ->]. by destruct (nb_defs _ _ _ _ _ H bank reg Hb Hd) as (_ & ? & _ & ?).
Qed.

Lemma key_op inst state op a b : computeGvnValueKey inst state = Some (op, a, b) → iOp inst ∉ floatOps →
  op = iOp inst ∧ op ∈ keyedOps.
Proof.
  unfold computeGvnValueKey. intros Hkey Hf.
  destruct (one_of (iOp inst) [OpAddInt; OpMulInt; OpAddUint; OpMulUint; OpAddFloat; OpMulFloat]) eqn:H1;
    [|destruct (one_of (iOp inst) [OpSubInt; OpSubUint; OpSubFloat; OpDivInt; OpDivUint; OpDivFloat]) eqn:H2;
      [|destruct (one_of (iOp inst) [OpAddIntConst; OpSubIntConst; OpMulIntConst]) eqn:H3; [|done]]].
  all: repeat (apply bind_Some in Hkey as (? & _ & Hkey)).
  all: assert (Hop : op = iOp inst) by (try destruct (_ <? _); congruence); (split; [exact Hop|]); clear Hkey; subst op;
    unfold floatOps, keyedOps, constantOps in *; rewrite one_of_spec in *; cbn [app];
    rewrite ?not_elem_of_cons in Hf; rewrite ?elem_of_cons in *; tauto.
Qed.

Lemma key_value cur state pc ν r inst op a b :
  numbered cur state pc ν r → computeGvnValueKey inst state = Some (op, a, b) → iOp inst ∉ floatOps →
  0 <= a < pc ∧ (one_of op constantOps = false → 0 <= b < pc) ∧
  computed f r inst = valueOf op (ν a) (keyRight ν op b).
Proof.
  intros H Hkey Hf. destruct (key_op _ _ _ _ _ Hkey Hf) as [Hop Hin]. pose proof (keyed_bank _ Hin) as Hb.
  subst op. revert Hkey. unfold computeGvnValueKey, computed, secondOperand, keyRight, keyBank in *. fold constantOps.
  destruct (one_of (iOp inst) constantOps) eqn:Hc.
  - assert (one_of (iOp inst) [OpAddInt; OpMulInt; OpAddUint; OpMulUint; OpAddFloat; OpMulFloat] = false ∧
      one_of (iOp inst) [OpSubInt; OpSubUint; OpSubFloat; OpDivInt; OpDivUint; OpDivFloat] = false) as [-> ->].
    { rewrite one_of_spec in Hc. revert Hc. generalize (iOp inst). intros o Hc. by each_op Hc. }
    intros (n & Hn & [= <- <-])%bind_Some. destruct (lookup_value _ _ _ _ _ _ _ _ H Hb Hn) as [Hr ->]. done.
  - destruct (one_of (iOp inst) [OpAddInt; OpMulInt; OpAddUint; OpMulUint; OpAddFloat; OpMulFloat]) eqn:H1;
      [|destruct (one_of (iOp inst) [OpSubInt; OpSubUint; OpSubFloat; OpDivInt; OpDivUint; OpDivFloat]); [|done]];
      intros (left & Hl & (right & Hr & Heq)%bind_Some)%bind_Some;
      destruct (lookup_value _ _ _ _ _ _ _ _ H Hb Hl) as [? ->], (lookup_value _ _ _ _ _ _ _ _ H Hb Hr) as [? ->].
    + rewrite one_of_spec in H1. destruct (right <? left); injection Heq as <- <-; [|done].
      split; [done|]. split; [done|]. by apply valueOf_comm.
    + by injection Heq as <- <-.
Qed.

(** ** A word of the scan *)

Lemma keyed_dest inst : iOp inst ∈ keyedOps → gvnInstructionDest inst = Some (keyBank (iOp inst), iA inst).
Proof. destruct inst as [op a b c]. cbn [iOp iA]. intros Hop. by each_op Hop. Qed.

Lemma keyed_not_call inst state key : computeGvnValueKey inst state = Some key → IsCallInstruction inst = false.
Proof.
  intros Hkey. unfold IsCallInstruction. destruct (iOp inst =? OpDrillTier1) eqn:Ho; [|done]. bool_hyps.
  revert Hkey. unfold computeGvnValueKey. by rewrite Ho.
Qed.

Section word.
Context (dom : option functionDominators) (cur : list Instruction) (state : gvnState) (pc : Z).
Context (ν : Z → option RegValue) (r : Registers) (inst : Instruction).
Context (Hnum : numbered cur state pc ν r) (Hget : zget cur pc = Some inst) (Hfloat : iOp inst ∉ floatOps).

(** The move a computation becomes stores the value it computes. *)
Lemma rewritten_value key c cur' :
  computeGvnValueKey inst state = Some key → valueTable state !! key = Some c →
  gvnRewriteIfSafe dom cur pc c state = Some cur' →
  iOp inst ∈ keyedOps ∧ 0 <= c < pc ∧ ∃ v src move,
    computed f r inst = Some v ∧ ν c = Some v ∧ readReg r (keyBank (iOp inst)) src = Some v ∧
    gvnEmitMoveForBank (keyBank (iOp inst)) (iA inst) src = Some move ∧ cur' = zset cur pc move ∧
    ∃ inst', zget cur c = Some inst' ∧ src = iA inst'.
Proof.
  intros Hkey Htab Hsafe. destruct key as [[op a] b]. destruct (key_op _ _ _ _ _ Hkey Hfloat) as [-> Hin].
  split; [done|].
  destruct (key_value _ _ _ _ _ _ _ _ _ Hnum Hkey Hfloat) as (Ha & Hb & Hcomp).
  destruct (nb_table _ _ _ _ _ Hnum _ _ _ _ Htab Hin) as (Hc & Hself & _ & _ & (inst' & Hg' & Hop') & Hν).
  split; [done|]. unfold gvnRewriteIfSafe in Hsafe. destruct (negb _); [done|].
  rewrite Hg' in Hsafe. cbn [mbind option_bind] in Hsafe. rewrite (keyed_dest inst'), Hop' in Hsafe by (by rewrite Hop').
  cbn [mbind option_bind] in Hsafe.
  destruct (negb _) eqn:Hlast; [done|]. bool_hyps. rewrite Hget in Hsafe.
  cbn [mbind option_bind] in Hsafe. rewrite (keyed_dest inst Hin) in Hsafe. cbn [mbind option_bind] in Hsafe. apply bind_Some in Hsafe as (move & Hmove & [= <-]).
  pose proof (keyed_bank _ Hin) as Hbank.
  destruct (nb_defs _ _ _ _ _ Hnum (keyBank (iOp inst)) (iA inst') Hbank) as (_ & _ & [v Hv] & Hread).
  { rewrite Hlast. unfold gvnNoDefiningPC. lia. }
  rewrite Hlast, Hself in Hv, Hread. exists v, (iA inst'), move. rewrite Hcomp, <- Hν, Hread. eauto 10.
Qed.

(** What a step of the word does to the registers. *)
Definition steps_to (r' : Registers) : Prop :=
  IsCallInstruction inst = true ∨
  (keeps inst r r' ∧ ∀ bank reg, gvnInstructionDest inst = Some (bank, reg) → bank ∈ numberedBanks →
    ∃ p h y, flatDispatchSwitch inst = Some h ∧ h f (NewCallFrame p r) inst = opContinue y ∧ registers y = r').

Lemma keyed_step r' :
  iOp inst ∈ keyedOps → IsCallInstruction inst = false → steps_to r' →
  ∃ v, computed f r inst = Some v ∧ readReg r' (keyBank (iOp inst)) (iA inst) = Some v.
Proof.
  intros Hin Hcall [?|[_ Hstep]]; [congruence|].
  destruct (Hstep _ _ (keyed_dest inst Hin) (keyed_bank _ Hin)) as (p & h & y & Hd & Hrun & <-).
  destruct (keyed_handler f p r inst Hin) as (h' & Hd' & Hv & Hs). assert (h' = h) as -> by congruence.
  destruct (Hs y Hrun) as [v Hcomp]. exists v. split; [done|]. rewrite (Hv v Hcomp) in Hrun.
  apply storeValue_continue in Hrun as [_ Hread]. by rewrite <- (valueOf_kind _ _ _ _ Hin Hcomp).
Qed.

(** A word that keeps its place. *)
Lemma numbered_tracked r' :
  IsCallInstruction inst = false → steps_to r' →
  ∃ ν', numbered cur (updateRegLastDef state inst pc) (pc + 1) ν' r' ∧ (∀ d, d ≠ pc → ν' d = ν d) ∧
    (iOp inst ∈ keyedOps → ν' pc = computed f r inst ∧ number (updateRegLastDef state inst pc) pc = pc).
Proof.
  intros Hcall [?|[Hkeeps Hstep]]; [congruence|]. pose proof (zget_Some_range _ _ _ Hget) as Hpc.
  destruct (gvnInstructionDest inst) as [[bank reg]|] eqn:Hdest.
  2: { exists ν. split; [by apply numbered_kill with r|]. split; [done|]. intros Hin%keyed_dest. congruence. }
  exists (λ d, if bool_decide (d = pc) then readReg r' bank reg else ν d).
  assert (Hval : bank ∈ numberedBanks → is_Some (readReg r' bank reg)).
  { intros Hb. destruct (Hstep bank reg eq_refl Hb) as (p & h & y & Hd & Hrun & <-).
    eapply dest_written; done. }
  split; [|split].
  - unfold updateRegLastDef. rewrite Hdest. apply (numbered_define cur cur state pc ν _ r r' inst); try done; [|lia|].
    + intros d Hd. by rewrite bool_decide_eq_false_2.
    + intros Hb. rewrite bool_decide_eq_true_2 by done. by split; [apply Hval|].
  - intros d Hd. by rewrite bool_decide_eq_false_2.
  - intros Hin. rewrite bool_decide_eq_true_2 by done. pose proof (keyed_dest inst Hin) as Hk.
    destruct (keyed_step r' Hin Hcall) as (v & Hcomp & Hread); [right; split; [done|]; by rewrite Hdest|].
    split; [rewrite Hcomp; congruence|]. unfold updateRegLastDef. rewrite Hk.
    rewrite number_set by (cbn; rewrite ?(nb_length _ _ _ _ _ Hnum); unfold gvnNoDefiningPC; lia).
    by rewrite bool_decide_eq_true_2.
Qed.

Lemma updateRegLastDef_table key c :
  updateRegLastDef (setTable state key c) inst pc = setTable (updateRegLastDef state inst pc) key c.
Proof.
  unfold updateRegLastDef, setTable, setLastDef, setValueNum. destruct (gvnInstructionDest inst) as [[bank reg]|]; [|done].
  cbn. by destruct (_ && _).
Qed.

Lemma numbered_word r' :
  steps_to r' →
  ∃ ν', numbered (fst (applyGvnAtPC dom (cur, state) pc)) (snd (applyGvnAtPC dom (cur, state) pc)) (pc + 1) ν' r'.
Proof.
  intros Hstep. unfold applyGvnAtPC. rewrite Hget. pose proof (zget_Some_range _ _ _ Hget) as Hpc.
  destruct (IsCallInstruction inst) eqn:Hcall; [exists ν; by apply numbered_clear with pc ν r|].
  destruct (numbered_tracked r' Hcall Hstep) as (ν' & Hnum' & Hsame & Hkeyed).
  destruct (computeGvnValueKey inst state) as [[[op a] b]|] eqn:Hkey; [|by exists ν'].
  destruct (key_op _ _ _ _ _ Hkey Hfloat) as [-> Hin].
  assert (Hentry : numbered cur (updateRegLastDef (setTable state (iOp inst, a, b) pc) inst pc) (pc + 1) ν' r').
  { rewrite updateRegLastDef_table. apply numbered_entry; [done|]. intros _.
    destruct (key_value _ _ _ _ _ _ _ _ _ Hnum Hkey Hfloat) as (Ha & Hb & Hcomp). destruct (Hkeyed Hin) as [Hν Hself].
    split_and!; try lia; [|eauto|].
    - intros Hk. specialize (Hb Hk). lia.
    - rewrite Hν, Hcomp, (Hsame a) by lia. unfold keyRight. destruct (one_of (iOp inst) constantOps) eqn:Hk; [done|].
      specialize (Hb eq_refl). by rewrite Hsame by lia. }
  destruct (valueTable state !! (iOp inst, a, b)) as [c|] eqn:Htab; cbn [mbind option_bind];
    [destruct (gvnRewriteIfSafe dom cur pc c state) as [cur'|] eqn:Hsafe; cbn [mbind option_bind]|].
  - destruct (rewritten_value _ _ _ Hkey Htab Hsafe) as (_ & Hc & v & src & move & Hcomp & Hν & Hsrc & _ & -> & _).
    exists ν. cbn [fst snd]. unfold recordRewrite. rewrite (keyed_dest inst Hin).
    destruct (keyed_step r' Hin Hcall Hstep) as (v' & Hcomp' & Hread).
    destruct Hstep as [?|[Hkeeps _]]; [congruence|].
    apply (numbered_define cur _ state pc ν ν r r' inst); try done; [by apply keyed_dest|by rewrite length_zset| |lia|].
    + intros d Hd. apply zget_zset_ne. lia.
    + intros _. rewrite Hread, Hν. split; [done|]. congruence.
  - by exists ν'.
  - by exists ν'.
Qed.
End word.
End invariant.
