(* ===== verification/GvnRun.v ===== *)
(** * Value numbering and runs

    Where every rewritten word comes before the first jump target, the runs of
    the rewritten body end as those of the old one; where one does not, they
    need not. *)

From S2P Require Import Prelude SafeConv Register Opcode Instruction Shapes Spec JumpLayout Jumps.
From S2P Require Import Extension Function Builder Verify VerifySound Machine MachineSafe MachineFlow.
From S2P Require Import FuseNarrow PassFacts Ranges RangesSolve Dominators Relocate Liveness OpenMachine LivenessSound LivenessRun.
From S2P Require Import Peephole MoveElim FuseDriver Gvn Compact CompactMarks CompactRecode CompactSound Splice SpliceRun FusionWindow.
From S2P Require Import FusionPass GvnSound.

(** Operations outside the model write, calls apart, only the registers the
    passes say they do. *)
Class WritesReported {W O} (others : W → Instruction → list Instruction → Registers → effect (W:=W) (O:=O)) :=
  writes_reported w instr words r w' r' e :
    flatDispatchSwitch instr = None → IsCallInstruction instr = false →
    others w instr words r = goesOn w' r' e → keeps instr r r'.

Definition hasFloatArithmetic (body : list Instruction) : bool := existsb (λ w, one_of (iOp w) floatOps) body.

(** ** The scan *)

Section scan.
Context (f : CompiledFunction) (dom : option functionDominators).

#[local] Notation body := (Body f).
#[local] Notation n := (zlen body).

(** The body and the tables before the word at [pc]. *)
Definition scan (pc : Z) : list Instruction * gvnState :=
  foldl (applyGvnAtPC dom) (body, newGvnState n) (seqZ 0 pc).

Definition scanned (pc : Z) : CompiledFunction := setBody f (fst (scan pc)).

Lemma scan_succ pc : 0 <= pc → scan (pc + 1) = applyGvnAtPC dom (scan pc) pc.
Proof. intros H. unfold scan. rewrite seqZ_app by lia. rewrite foldl_app. by cbn. Qed.

Lemma gvnRewriteIfSafe_body cur pc c state cur' :
  gvnRewriteIfSafe dom cur pc c state = Some cur' → ∃ move, cur' = zset cur pc move.
Proof.
  unfold gvnRewriteIfSafe. destruct (negb _); [done|].
  intros (candidate & _ & ([bank dest] & _ & H)%bind_Some)%bind_Some; destruct (negb _); [done|];
    apply bind_Some in H as (inst & _ & ([? ?] & _ & (move & _ & [= <-])%bind_Some)%bind_Some); by exists move.
Qed.

(** A word stays or becomes a move. *)
Lemma apply_body cur state pc :
  fst (applyGvnAtPC dom (cur, state) pc) = cur ∨
  ∃ inst key c cur', zget cur pc = Some inst ∧ computeGvnValueKey inst state = Some key ∧
    valueTable state !! key = Some c ∧ gvnRewriteIfSafe dom cur pc c state = Some cur' ∧
    fst (applyGvnAtPC dom (cur, state) pc) = cur'.
Proof.
  unfold applyGvnAtPC. destruct (zget cur pc) as [inst|]; [|by left].
  destruct (IsCallInstruction inst); [by left|].
  destruct (computeGvnValueKey inst state) as [key|] eqn:Hkey; [|by left].
  destruct (valueTable state !! key) as [c|] eqn:Htab; cbn [mbind option_bind]; [|by left].
  destruct (gvnRewriteIfSafe dom cur pc c state) as [cur'|] eqn:Hsafe; cbn [mbind option_bind]; [|by left].
  right. by exists inst, key, c, cur'.
Qed.

Lemma scan_rest pc : 0 <= pc →
  zlen (fst (scan pc)) = n ∧ ∀ q, pc <= q → zget (fst (scan pc)) q = zget body q.
Proof.
  revert pc. apply natlike_ind; [done|]. intros pc Hpc [Hl Hrest]. unfold Z.succ. rewrite scan_succ by done.
  destruct (scan pc) as [cur state] eqn:Hscan. cbn [fst] in *.
  destruct (apply_body cur state pc) as [->|(inst & key & c & cur' & _ & _ & _ & Hsafe & ->)].
  - split; [done|]. intros q Hq. apply Hrest. lia.
  - apply gvnRewriteIfSafe_body in Hsafe as [move ->]. rewrite length_zset. split; [done|]. intros q Hq.
    rewrite zget_zset_ne by lia. apply Hrest. lia.
Qed.

Lemma scan_word pc : 0 <= pc → zget (fst (scan pc)) pc = zget body pc.
Proof. intros H. apply (scan_rest pc H). lia. Qed.

(** Later words leave a word alone. *)
Lemma scan_keeps pc q m : 0 <= pc → pc < q → 0 <= m → zget (fst (scan (q + m))) pc = zget (fst (scan q)) pc.
Proof.
  intros Hpc Hq. revert m. apply natlike_ind; [by rewrite Z.add_0_r|]. intros m Hm IH.
  replace (q + Z.succ m) with ((q + m) + 1) by lia. rewrite scan_succ by lia. rewrite <- IH.
  destruct (scan (q + m)) as [cur state]. cbn [fst].
  destruct (apply_body cur state (q + m)) as [->|(inst & key & c & cur' & _ & _ & _ & Hsafe & ->)]; [done|].
  apply gvnRewriteIfSafe_body in Hsafe as [move ->]. apply zget_zset_ne. lia.
Qed.

(** ** The invariant along a run *)

Definition soundAt (pc : Z) (r : Registers) : Prop := ∃ ν, numbered f (fst (scan pc)) (snd (scan pc)) pc ν r.

Context (Hfus : fusible body) (Hfloat : hasFloatArithmetic body = false).

Lemma no_float pc w : zget body pc = Some w → iOp w ∉ floatOps.
Proof.
  intros Hg Hin. apply not_true_iff_false in Hfloat. apply Hfloat, existsb_exists. exists w.
  split; [|by apply one_of_spec]. apply list_elem_of_In. by eapply zget_elem.
Qed.

Lemma sound_word pc r r' w :
  zget body pc = Some w → soundAt pc r → steps_to f r w r' → soundAt (pc + 1) r'.
Proof.
  intros Hg [ν Hnum] Hstep. pose proof (zget_Some_range _ _ _ Hg). unfold soundAt. rewrite scan_succ by lia.
  pose proof (scan_word pc ltac:(lia)) as Hw. rewrite Hg in Hw. destruct (scan pc) as [cur state]. cbn [fst snd] in *.
  apply (numbered_word f dom cur state pc ν r w Hnum Hw (no_float pc w Hg) r' Hstep).
Qed.

Lemma padding_word w : padding w → IsCallInstruction w = false ∧ gvnInstructionDest w = None.
Proof.
  intros [Ho|Hn].
  - unfold IsCallInstruction, gvnInstructionDest. by rewrite Ho.
  - by apply isCanonicalNop_nop in Hn as ->.
Qed.

Lemma sound_padding m pc r :
  0 <= m → (∀ j, 0 <= j < m → ∃ w, zget body (pc + j) = Some w ∧ padding w) → soundAt pc r → soundAt (pc + m) r.
Proof.
  intros Hm. revert m Hm. apply (natlike_ind (λ m, (∀ j, 0 <= j < m → _) → _ → _)); [by rewrite Z.add_0_r|].
  intros m Hm IH Hpad Hs. replace (pc + Z.succ m) with ((pc + m) + 1) by lia.
  destruct (Hpad m ltac:(lia)) as (w & Hg & Hw). apply (sound_word _ r r w Hg).
  - apply IH; [|done]. intros j Hj. apply Hpad. lia.
  - right. destruct (padding_word w Hw) as [_ Hd]. split; [done|]. intros bank reg. by rewrite Hd.
Qed.

Lemma sound_next pc r r' w :
  instruction_start body pc → zget body pc = Some w → soundAt pc r → steps_to f r w r' →
  soundAt (pc + instructionFootprint body pc) r'.
Proof.
  intros Hst Hg Hs Hstep. pose proof (instructionFootprint_pos body pc).
  replace (pc + instructionFootprint body pc) with ((pc + 1) + (instructionFootprint body pc - 1)) by lia.
  apply sound_padding; [lia| |by eapply sound_word]. intros j Hj. rewrite <- Z.add_assoc.
  apply (cp_inner _ (fu_compactable _ Hfus) pc (1 + j) Hst). lia.
Qed.

(** Before every jump target. *)
Definition early (pc : Z) : Prop := ∀ t, t ∈ JumpTargetsOf body → pc < t.

Definition fine (x : CallFrame) : Prop :=
  (ProgramCounter x < n → instruction_start body (ProgramCounter x)) ∧
  (early (ProgramCounter x) → soundAt (ProgramCounter x) (registers x)).

Lemma fine_target r t : t ∈ JumpTargetsOf body → fine (NewCallFrame t r).
Proof.
  intros Ht. split; cbn [ProgramCounter].
  - by apply (start_at_target f (fu_tidy _ Hfus)).
  - intros He. specialize (He t Ht). lia.
Qed.

Lemma fine_next pc r r' w :
  instruction_start body pc → zget body pc = Some w → (early pc → soundAt pc r) → steps_to f r w r' →
  fine (NewCallFrame (pc + instructionFootprint body pc) r').
Proof.
  intros Hst Hg Hs Hstep. pose proof (zget_Some_range _ _ _ Hg). pose proof (instructionFootprint_pos body pc).
  split; cbn [ProgramCounter registers].
  - intros _. by apply start_next; [|lia].
  - intros He. apply (sound_next pc r r' w); try done. apply Hs. intros t Ht. specialize (He t Ht). lia.
Qed.

Context {W O : Type} (others : W → Instruction → list Instruction → Registers → effect (W:=W) (O:=O)).
Context (Hothers : WritesReported others).

Lemma fine_step w x w' x' :
  fine x → openStep others f w x = goto w' x' → fine x'.
Proof.
  destruct x as [pc r]. intros [Hst Hs]. cbn [ProgramCounter registers] in *. unfold openStep. cbn [ProgramCounter registers].
  destruct (n <=? pc) eqn:Hn; [done|]. bool_hyps. destruct (zget body pc) as [instr|] eqn:Hg; [|done].
  specialize (Hst ltac:(lia)). pose proof (td_walkable _ (fu_tidy _ Hfus)) as Hwalk.
  destruct (flatDispatchSwitch instr) as [h|] eqn:Hd.
  - unfold advance. cbn [ProgramCounter registers].
    destruct (h f (NewCallFrame (pc + 1) r) instr) as [y| | |] eqn:Hrun; try done. intros [= <- <-].
    destruct y as [pc' r'].
    destruct (modelled_target f pc r instr h _ Hwalk Hst Hg Hd Hrun) as [Ht|[Hpc _]]; cbn [ProgramCounter] in *.
    + apply fine_target. by eapply JumpTargetAt_elem.
    + rewrite Hpc. apply (fine_next pc r r' instr); try done. right. split.
      * intros kind reg _ Hnot.
        refine (modelled_covers f (pc + 1) r instr h (NewCallFrame pc' r') kind reg _ _ Hd Hrun Hnot).
        -- by apply (wf_body_zget _ _ _ (wk_wf _ Hwalk) Hg).
        -- apply (proj1 (Forall_forall _ _) (td_narrows _ (fu_tidy _ Hfus))). by eapply zget_elem.
      * intros bank reg _ _. by exists (pc + 1), h, (NewCallFrame pc' r').
  - destruct (others w instr (extensionsAt body pc) r) as [w1 r' e|o] eqn:Ho; [|done].
    destruct (edgeTarget body pc instr e) as [t|] eqn:He; [|done]. intros [= <- <-].
    destruct e as [| |k]; cbn [edgeTarget] in He.
    + injection He as <-. apply (fine_next pc r r' instr); try done.
      destruct (IsCallInstruction instr) eqn:Hcall; [by left|right].
      split; [by eapply writes_reported|]. intros bank reg Hdest Hb.
      destruct (dest_modelled _ _ _ Hdest Hb) as [h Hd']. congruence.
    + apply fine_target. by eapply JumpTargetAt_elem.
    + destruct (InstrIsTier1SubOp instr SubOpTypeSwitchJump); [|done]. apply fine_target. by eapply switchTarget_targets.
Qed.

(** ** The rewritten words *)

(** An entry of the table is a computation that was not rewritten. *)
Lemma scan_table pc : 0 <= pc → ∀ op a b c, valueTable (snd (scan pc)) !! (op, a, b) = Some c →
  op ∈ keyedOps ∧ 0 <= c < pc ∧ ∃ inst, zget (fst (scan pc)) c = Some inst ∧ iOp inst = op.
Proof.
  revert pc. apply (natlike_ind (λ pc, ∀ op a b c, valueTable (snd (scan pc)) !! (op, a, b) = Some c → _)); [done|].
  intros pc Hpc IH op a b c. unfold Z.succ. rewrite scan_succ by done.
  pose proof (scan_word pc Hpc) as Hw. destruct (scan pc) as [cur state]. cbn [fst snd] in *.
  intros Htab. assert (Hcase : valueTable state !! (op, a, b) = Some c ∨
    (c = pc ∧ fst (applyGvnAtPC dom (cur, state) pc) = cur ∧
     ∃ inst, zget cur pc = Some inst ∧ computeGvnValueKey inst state = Some (op, a, b))).
  { assert (Hupdate : ∀ st inst, valueTable (updateRegLastDef st inst pc) = valueTable st).
    { intros st inst. unfold updateRegLastDef. destruct (gvnInstructionDest inst) as [[bank reg]|]; [|done].
      by destruct (setValueNum_rest (setLastDef st bank reg pc) pc pc) as [-> _]. }
    revert Htab. unfold applyGvnAtPC. destruct (zget cur pc) as [inst|]; [|by left].
    destruct (IsCallInstruction inst); [done|].
    destruct (computeGvnValueKey inst state) as [key|] eqn:Hkey; [|cbn [fst snd]; rewrite Hupdate; by left].
    destruct (c' ← valueTable state !! key; _) as [[cur' state']|] eqn:Hnew.
    - apply bind_Some in Hnew as (c' & _ & (cur'' & _ & [= <- <-])%bind_Some). cbn [snd]. unfold recordRewrite.
      destruct (gvnInstructionDest inst) as [[bank reg]|]; [|by left].
      destruct (setValueNum_rest (setLastDef state bank reg pc) pc c') as [-> _]. by left.
    - cbn [fst snd]. rewrite Hupdate. cbn [setTable valueTable]. rewrite lookup_insert_Some.
      intros [[-> <-]|[_ ?]]; [right; eauto|by left]. }
  destruct Hcase as [Hold|(-> & Heq & inst & Hg & Hkey)].
  - destruct (IH _ _ _ _ Hold) as (Hop & Hc & inst & Hg & Hi). split; [done|]. split; [lia|]. exists inst.
    split; [|done]. destruct (apply_body cur state pc) as [->|(inst' & key & c' & cur' & _ & _ & _ & Hsafe & ->)]; [done|].
    apply gvnRewriteIfSafe_body in Hsafe as [move ->]. by rewrite zget_zset_ne by lia.
  - rewrite Heq. destruct (key_op _ _ _ _ _ Hkey) as [-> Hop]; [apply (no_float pc); congruence|].
    split; [done|]. split; [lia|]. eauto.
Qed.

(** The word at [pc] becomes a move of what the candidate computed. *)
Definition rewrittenAt (pc : Z) (inst move : Instruction) : Prop :=
  zget body pc = Some inst ∧ iOp inst ∈ keyedOps ∧ fst (scan (pc + 1)) = zset (fst (scan pc)) pc move ∧
  (∃ src, byte_ok src ∧ gvnEmitMoveForBank (keyBank (iOp inst)) (iA inst) src = Some move) ∧
  ∀ r, soundAt pc r → ∃ src v, gvnEmitMoveForBank (keyBank (iOp inst)) (iA inst) src = Some move ∧
    computed f r inst = Some v ∧ readReg r (keyBank (iOp inst)) src = Some v.

Lemma scan_cases pc :
  0 <= pc < n → wf_body (fst (scan pc)) → fst (scan (pc + 1)) = fst (scan pc) ∨ ∃ inst move, rewrittenAt pc inst move.
Proof.
  intros Hpc Hwf. pose proof (scan_word pc ltac:(lia)) as Hw. pose proof (scan_table pc ltac:(lia)) as Htable.
  unfold rewrittenAt, soundAt. rewrite scan_succ by lia. destruct (scan pc) as [cur state]. cbn [fst snd] in *.
  destruct (apply_body cur state pc) as [->|(inst & [[op a] b] & c & cur' & Hg & Hkey & Htab & Hsafe & ->)]; [by left|right].
  rewrite Hw in Hg. destruct (key_op _ _ _ _ _ Hkey (no_float _ _ Hg)) as [-> Hop]. exists inst.
  destruct (Htable _ _ _ _ Htab) as (_ & Hc & inst' & Hg' & Hop').
  pose proof Hsafe as Hsafe'. unfold gvnRewriteIfSafe in Hsafe'. destruct (negb _); [done|].
  rewrite Hg' in Hsafe'. cbn [mbind option_bind] in Hsafe'. rewrite (keyed_dest inst'), Hop' in Hsafe' by (by rewrite Hop').
  cbn [mbind option_bind] in Hsafe'. destruct (negb _); [done|]. rewrite Hw, Hg in Hsafe'.
  cbn [mbind option_bind] in Hsafe'. rewrite (keyed_dest inst Hop) in Hsafe'. cbn [mbind option_bind] in Hsafe'.
  apply bind_Some in Hsafe' as (move & Hmove & [= <-]). exists move.
  split; [done|]. split; [done|]. split; [done|]. split.
  { exists (iA inst'). split; [|done]. by destruct (wf_body_zget _ _ _ Hwf Hg') as (_ & ? & _). }
  intros r [ν Hnum]. rewrite <- Hw in Hg.
  destruct (rewritten_value f dom cur state pc ν r inst Hnum Hg (no_float pc inst ltac:(congruence)) _ _ _ Hkey Htab Hsafe)
    as (_ & _ & v & src & move' & Hcomp & _ & Hread & Hmove' & Heq & inst'' & Hg'' & ->).
  assert (inst'' = inst') as -> by congruence. assert (move' = move) as -> by congruence. eauto.
Qed.

Lemma emitted_plain bank a src move :
  bank ∈ numberedBanks → byte_ok a → byte_ok src → gvnEmitMoveForBank bank a src = Some move →
  plain_word move ∧ packed [move] ∧ iOp move = OpDrillTier1 ∧ fst (JumpLayoutOf move) = JumpLayoutNone.
Proof.
  intros Hb Ha Hs. unfold numberedBanks in Hb. each_op Hb; intros [= <-].
  all: split; [split; [split_and!; cbn; try done; unfold isU; cbv; done|split; [reflexivity|by intros ?]]|].
  all: split; [|split; reflexivity].
  all: eapply (packed_cons _ _ [] []); [reflexivity|done|reflexivity|constructor|by intros ?|constructor].
Qed.

Lemma keyed_word inst : iOp inst ∈ keyedOps →
  iOp inst ≠ OpExt ∧ iOp inst ≠ OpDrillTier1 ∧ iOp inst ≠ OpTypeSwitchCase ∧ iOp inst ≠ OpDefer ∧ span inst = 1 ∧
  isCanonicalNop inst = false ∧ InstrIsTier1SubOp inst SubOpJump = false ∧ ∃ h, flatDispatchSwitch inst = Some h.
Proof. destruct inst as [op a b c]. cbn [iOp]. intros Hop. each_op Hop; split_and!; try done; by eexists. Qed.

Lemma scanned_window pc inst move :
  0 <= pc < n → fusible (Body (scanned pc)) → rewrittenAt pc inst move →
  window (scanned pc) (scanned (pc + 1)) pc [move].
Proof.
  intros Hpc Hf (Hg & Hop & Hbody & (src & Hsrc & Hmove) & _).
  destruct (scan_rest pc ltac:(lia)) as [Hlen _]. pose proof (scan_word pc ltac:(lia)) as Hw. rewrite Hg in Hw.
  destruct (keyed_word inst Hop) as (Hext & _ & Hcase & Hdefer & Hspan & Hnop & Hjump & h & Hd).
  pose proof (td_walkable _ (fu_tidy _ Hf)) as Hwalk.
  destruct (wf_body_zget _ _ _ (wk_wf _ Hwalk) Hw) as (_ & Ha & _).
  destruct (emitted_plain _ _ _ _ (keyed_bank _ Hop) Ha Hsrc Hmove) as (Hplain & Hpacked & Hdrill & Hlayout).
  assert (Hst : instruction_start (Body (scanned pc)) pc).
  { destruct (old_words (Body (scanned pc)) pc Hf) as [?|(w & Hgw & Hpad)]; [cbn; lia|done|].
    exfalso. cbn in Hgw. rewrite Hw in Hgw. injection Hgw as <-. destruct Hpad; [done|congruence]. }
  split; cbn [length]; try done; cbn [scanned setBody Body] in *; try lia.
  - intros _. pose proof (wk_span _ Hwalk pc inst h Hst Hw Hd) as Hfoot. rewrite Hspan in Hfoot.
    change (Z.of_nat 1) with 1. rewrite Hfoot. apply start_next; [done|]. cbn. lia.
  - by apply Forall_singleton.
  - intros w Hgw. assert (w = inst) as -> by congruence. done.
  - intros w p Hp Hgw. assert (p = pc) as -> by lia. assert (w = inst) as -> by congruence. done.
  - intros p t Hp Ht. assert (p = pc) as -> by lia. exfalso. revert Ht. cbn [setWords]. unfold JumpTargetAt.
    rewrite zget_zset_eq by lia. by destruct (JumpLayoutOf move) as [[] ?].
Qed.

Lemma scanned_step pc inst move w r :
  0 <= pc < n → rewrittenAt pc inst move → soundAt pc r →
  openStep others (scanned (pc + 1)) w (NewCallFrame pc r) = openStep others f w (NewCallFrame pc r).
Proof.
  intros Hpc (Hg & Hop & Hbody & _ & Hval) Hs. destruct (Hval r Hs) as (src & v & Hmove & Hcomp & Hread).
  destruct (scan_rest pc ltac:(lia)) as [Hlen _].
  unfold openStep. cbn [ProgramCounter registers scanned setBody Body]. rewrite Hbody, length_zset, Hlen.
  rewrite (proj2 (Z.leb_gt _ _)), zget_zset_eq, Hg by lia. unfold advance. cbn [ProgramCounter registers].
  destruct (keyed_handler f (pc + 1) r inst Hop) as (h & -> & Hh & _). rewrite (Hh v Hcomp).
  destruct (move_handler (scanned (pc + 1)) (pc + 1) r _ (iA inst) src v (keyed_bank _ Hop) Hread) as (move' & h' & Hm & Hd & Hrun).
  assert (move' = move) as -> by congruence. rewrite Hd. cbn [scanned setBody Body] in Hrun. rewrite Hrun.
  destruct v; cbn [storeValue]; unfold storesI, storesU; [destruct (zget (Ints r) (iA inst))|destruct (zget (Uints r) (iA inst))| |]; done.
Qed.

(** ** The chain of functions *)

Definition rewritten (pc : Z) : Prop := fst (scan (pc + 1)) ≠ fst (scan pc).

Lemma rewrittenAt_changes pc inst move :
  0 <= pc < n → rewrittenAt pc inst move → zget (fst (scan (pc + 1))) pc ≠ zget body pc.
Proof.
  intros Hpc (Hg & Hop & -> & (src & _ & Hmove) & _). destruct (scan_rest pc ltac:(lia)) as [Hlen _].
  rewrite zget_zset_eq, Hg by lia. intros [= ->]. destruct (keyed_word _ Hop) as (_ & Hdrill & _).
  revert Hmove Hdrill. unfold gvnEmitMoveForBank. repeat (case_if; [intros [= <-]; done|]). done.
Qed.

(** The steps of the function as the scan has left it are those of the old. *)
Record follows (k : Z) : Prop := {
  fo_fusible : fusible (Body (scanned k));
  fo_starts p : instruction_start body p → p < n → instruction_start (Body (scanned k)) p;
  fo_steps w pc r : instruction_start body pc → pc < n → (pc < k → rewritten pc → soundAt pc r) →
    match openStep others f w (NewCallFrame pc r) with
    | done_ faulted => True
    | s => openStep others (scanned k) w (NewCallFrame pc r) = s
    end;
}.

Lemma follows_scan k :
  0 <= k → k <= n → follows k.
Proof.
  revert k. apply (natlike_ind (λ k, k <= n → follows k)).
  - intros _. assert (scanned 0 = f) as Heq by apply setBody_id. split; rewrite Heq; [done|done|].
    intros w pc r _ _ _. by destruct (openStep others f w _) as [|[]].
  - intros k Hk IH Hle. specialize (IH ltac:(lia)). unfold Z.succ in *. destruct IH as [Hf Hstarts Hsteps].
    destruct (scan_cases k ltac:(lia) (wk_wf _ (td_walkable _ (fu_tidy _ Hf)))) as [Hsame|(inst & move & Hrw)].
    { assert (scanned (k + 1) = scanned k) as Heq by (unfold scanned; by rewrite Hsame). split; rewrite Heq; [done|done|].
      intros w pc r Hst Hlt Hs. apply Hsteps; [done|done|]. intros Hpc. apply Hs. lia. }
    pose proof (scanned_window k inst move ltac:(lia) Hf Hrw) as Hwin.
    destruct (scan_rest k ltac:(lia)) as [Hlen _].
    split.
    + by apply (window_fusible (scanned k) (scanned (k + 1)) k [move]).
    + intros p Hp Hlt. rewrite (wd_body Hwin).
      apply (starts_forth (Body (scanned k)) k [move] Hf (wd_low Hwin) (wd_high Hwin) ltac:(cbn; lia) (wd_start Hwin)
        (wd_end _ _ _ _ Hwin) (wd_packed _ _ _ _ Hwin)); [by apply Hstarts|cbn; lia|cbn; lia].
    + intros w pc r Hst Hlt Hs. destruct (decide (pc = k)) as [->|Hne].
      * pose proof (rewrittenAt_changes k inst move ltac:(lia) Hrw) as Hchange.
        assert (Hrewritten : rewritten k).
        { intros Heq. apply Hchange. rewrite Heq. apply scan_word. lia. }
        rewrite (scanned_step k inst move w r ltac:(lia) Hrw (Hs ltac:(lia) Hrewritten)).
        by destruct (openStep others f w _) as [|[]].
      * specialize (Hsteps w pc r Hst Hlt ltac:(intros Hpc; apply Hs; lia)).
        pose proof (outside_step others (scanned k) (scanned (k + 1)) k [move] Hwin w pc r (Hstarts pc Hst Hlt)
          ltac:(cbn; lia) ltac:(cbn; lia)) as Hout.
        destruct (openStep others f w (NewCallFrame pc r)) as [w' x|[]]; try done; rewrite Hsteps in Hout; [by destruct Hout|done..].
Qed.

(** The runs from the entry, when what the scan has rewritten comes early. *)
Lemma scanned_ends k w r e :
  0 <= k <= n → (∀ p, zget (fst (scan k)) p ≠ zget body p → early p) →
  ends others f w (NewCallFrame 0 r) e → e ≠ faulted → ends others (scanned k) w (NewCallFrame 0 r) e.
Proof.
  intros Hk Hearly. destruct (follows_scan k) as [_ _ Hsteps]; [lia|lia|].
  destruct (scan_rest k ltac:(lia)) as [Hlen _].
  apply (simulated others f (scanned k) (λ _ x y, x = y ∧ fine x)).
  2: { split; [done|]. split; [intros; constructor|]. intros _. exists (λ _, None). apply numbered_start. }
  intros fuel w' x y e' [-> Hfine] Hrun Hne. destruct fuel as [|fuel]; [done|]. cbn [runFor] in Hrun.
  destruct y as [pc r']. destruct (decide (pc < n)) as [Hlt|Hge].
  2: { left. apply ends_now. unfold openStep in *. cbn [ProgramCounter scanned setBody Body] in *. rewrite Hlen.
    rewrite (proj2 (Z.leb_le _ _)) in Hrun |- * by lia. congruence. }
  assert (Hstep := Hsteps w' pc r' (proj1 Hfine Hlt) Hlt).
  assert (Hsound : pc < k → rewritten pc → soundAt pc r').
  { intros Hpc Hrw. apply (proj2 Hfine), Hearly. cbn [ProgramCounter].
    pose proof (start_nonneg _ _ (proj1 Hfine Hlt)) as H0. cbn [ProgramCounter] in H0.
    replace k with (pc + 1 + (k - (pc + 1))) by lia. rewrite scan_keeps by lia.
    destruct (follows_scan pc) as [Hf _ _]; [lia|lia|].
    destruct (scan_cases pc ltac:(lia) (wk_wf _ (td_walkable _ (fu_tidy _ Hf)))) as [?|(inst & move & Hat)]; [done|].
    by eapply rewrittenAt_changes. }
  specialize (Hstep Hsound).
  destruct (openStep others f w' (NewCallFrame pc r')) as [w1 x1|e1] eqn:Hs.
  - right. exists fuel, w1, x1, x1. split_and!; [lia|done| |done|by eapply fine_step].
    intros e2 He2. by eapply ends_later.
  - left. injection Hrun as ->. apply ends_now. by destruct e'.
Qed.
End scan.

Lemma gvnWalk_scan f dom cancelled :
  ∃ k, 0 <= k <= zlen (Body f) ∧
    fst (gvnWalk dom cancelled (Body f, newGvnState (zlen (Body f))) (seqZ 0 (zlen (Body f)))) = fst (scan f dom k).
Proof.
  assert (Hgo : ∀ m i, zlen (Body f) = i + Z.of_nat m → 0 <= i → ∃ k, 0 <= k <= zlen (Body f) ∧
    fst (gvnWalk dom cancelled (scan f dom i) (seqZ i (Z.of_nat m))) = fst (scan f dom k)).
  { induction m as [|m IH]; intros i Hi H0; [exists i; split; [lia|done]|].
    rewrite seqZ_cons by lia. cbn [gvnWalk]. case_if; [exists i; split; [lia|done]|].
    rewrite <- scan_succ by done. replace (Z.pred (Z.of_nat (S m))) with (Z.of_nat m) by lia.
    apply IH; lia. }
  apply (Hgo (length (Body f)) 0); lia.
Qed.

(** ** Sample functions *)

#[export] Instance sampleOthers_reported f : WritesReported (sampleOthers f).
Proof.
  intros w instr words r w' r' e _ _. unfold sampleOthers. destruct (IsReturnInstruction instr); [done|].
  destruct words as [|word1 [|word2 [|]]]; try done.
  destruct (iOp instr =? OpGetStructFieldSliceIndexScalar) eqn:Ho; [|done]. cbn [andb].
  destruct (iC word2 =? RegisterUint); [|done]. intros [= _ <- _] kind reg _ Hnot.
  apply readReg_setUints. intros [= -> ->]. apply not_true_iff_false in Hnot. apply Hnot. bool_hyps.
  destruct instr as [op a b c]. cbn [iOp] in Ho. subst op.
  apply instructionWrites_spec; [by apply RoleForKind_neq_RoleNone|reflexivity|reflexivity|].
  exists 0, RoleRegDynamic. split; [apply list_elem_of_here|]. split; reflexivity.
Qed.

(** A sum computed twice, and a loop after it. *)
Definition sample_numbering : CompiledFunction :=
  with_results (setBody (setIntPool (NewNamedFunction "f") [3; 4] None)
    [NewInstruction OpLoadIntConst 1 0 0;
     NewInstruction OpLoadIntConst 2 1 0;
     NewInstruction OpAddInt 3 1 2;
     NewInstruction OpAddInt 4 2 1;
     NewInstruction OpAddInt 0 0 4;
     NewInstruction OpLtInt 7 0 6;
     NewInstruction OpJumpIfTrue 7 253 255;
     NewInstruction OpDrillTier1 SubOpDrillTier2 SubOpTier2Return 1]) [RegisterInt].

(** The sum in the loop is the one before it, until the loop changes register
    1. *)
Definition sample_gvn_loop : CompiledFunction :=
  with_results (setBody (setIntPool (NewNamedFunction "f") [1; 2] None)
    [NewInstruction OpLoadIntConst 1 0 0;
     NewInstruction OpLoadIntConst 2 1 0;
     NewInstruction OpAddInt 3 1 2;
     NewInstruction OpAddInt 4 1 2;
     NewInstruction OpAddInt 0 0 4;
     NewInstruction OpMulInt 1 1 2;
     NewInstruction OpDrillTier1 SubOpDrillTier2 SubOpTier2IncInt 5;
     NewInstruction OpLtInt 7 5 6;
     NewInstruction OpJumpIfTrue 7 250 255;
     NewInstruction OpDrillTier1 SubOpDrillTier2 SubOpTier2Return 1]) [RegisterInt].

(** Register 4 gets the sum on one path only. *)
Definition sample_gvn_join : CompiledFunction :=
  with_results (setBody (setIntPool (NewNamedFunction "f") [1; 2; 10] None)
    [NewInstruction OpLoadIntConst 1 0 0;
     NewInstruction OpLoadIntConst 2 1 0;
     NewInstruction OpLoadIntConst 5 2 0;
     NewInstruction OpAddInt 3 1 2;
     NewInstruction OpMulInt 6 3 5;
     NewInstruction OpJumpIfFalse 7 1 0;
     NewInstruction OpAddInt 4 1 2;
     NewInstruction OpMulInt 0 4 5;
     NewInstruction OpDrillTier1 SubOpDrillTier2 SubOpTier2Return 1]) [RegisterInt].

Definition dominatorsOf (f : CompiledFunction) : option functionDominators :=
  default None (ComputeFunctionDominators (Body f)).

(** C6: Value numbering preserves execution before the first jump target.  Let
    the scan, whole or cancelled half-way, rewrite only words that come before
    every jump target of a function whose words are laid out as the emitters
    lay them out and that computes no floats.  Then every run from the entry
    that does not fault ends in the same way in the rewritten function, with
    the same results, whatever the operations outside the model do to the
    registers they are known to write, and calls to any. *)
Theorem value_numbering_preserves_execution {W O} f dom cancelled
    (others : W → Instruction → list Instruction → Registers → effect (W:=W) (O:=O)) body' complete w r e :
  fusible (Body f) → hasFloatArithmetic (Body f) = false → WritesReported others →
  gvnWalk dom cancelled (Body f, newGvnState (zlen (Body f))) (seqZ 0 (zlen (Body f))) = (body', complete) →
  (∀ p t, zget body' p ≠ zget (Body f) p → t ∈ JumpTargetsOf (Body f) → p < t) →
  ends others f w (NewCallFrame 0 r) e → e ≠ faulted → ends others (setBody f body') w (NewCallFrame 0 r) e.
Proof.
  intros Hf Hfloat Hothers Hwalk Hearly. destruct (gvnWalk_scan f dom cancelled) as (k & Hk & Heq).
  rewrite Hwalk in Heq. cbn [fst] in Heq. subst body'.
  apply (scanned_ends f dom Hf Hfloat others Hothers k); [done|]. intros p Hp t. by apply Hearly.
Qed.

Theorem value_numbering_preserves_execution_witness :
  let f := sample_numbering in
  let body' := zset (Body f) 3 (NewInstruction OpDrillTier1 SubOpMoveInt 4 3) in
  let start := NewCallFrame 0 (NewRegisters [0; 0; 0; 0; 0; 0; 10; 0] [] [] []) in
  gvnWalk (dominatorsOf f) (λ _, false) (Body f, newGvnState (zlen (Body f))) (seqZ 0 (zlen (Body f))) = (body', true) ∧
  ends (sampleOthers f) (setBody f body') tt start (ended [Some (VInt 14)]).
Proof.
  cbv zeta. assert (Hwalk : gvnWalk (dominatorsOf sample_numbering) (λ _, false)
    (Body sample_numbering, newGvnState (zlen (Body sample_numbering))) (seqZ 0 (zlen (Body sample_numbering))) =
    (zset (Body sample_numbering) 3 (NewInstruction OpDrillTier1 SubOpMoveInt 4 3), true)) by (vm_compute; reflexivity).
  split; [exact Hwalk|].
  apply (value_numbering_preserves_execution sample_numbering _ _ (sampleOthers sample_numbering) _ _ _ _ _) with (4 := Hwalk).
  - split; [apply checkTidy_ok; vm_compute; reflexivity|apply plain_compactable; vm_compute; reflexivity|vm_compute; done].
  - reflexivity.
  - apply sampleOthers_reported.
  - intros p t Hp Ht. assert (p = 3) as ->.
    { destruct (decide (p = 3)); [done|]. exfalso. apply Hp. by apply zget_zset_ne. }
    assert (Hall : set_Forall (λ t, 3 < t) (JumpTargetsOf (Body sample_numbering)))
      by (eapply bool_decide_unpack; vm_compute; exact I).
    by apply Hall.
  - apply (runFor_ends _ 14). vm_compute. reflexivity.
  - done.
Defined.

(** C40: Value numbering changes what two functions compute.  The scan goes
    through the words once, in their order, and forgets nothing where paths
    meet.  In the first function a sum computed before a loop is taken for the
    same sum in the loop, whose end changes an operand; the second turn adds
    the old sum.  In the second a register gets the sum on one path, and its
    product after the paths meet becomes the product of the sum on both. *)
Theorem value_numbering_forgets_joins :
  let start v := NewCallFrame 0 (NewRegisters [0; 0; 0; 0; v; 0; 2; 0] [] [] []) in
  let result f v := runFor (sampleOthers f) 60 f tt (start v) in
  (∃ g, RunFunctionGvn false (λ _, false) sample_gvn_loop = Some (g, true) ∧
    result sample_gvn_loop 0 = Some (ended [Some (VInt 7)]) ∧ result g 0 = Some (ended [Some (VInt 6)])) ∧
  (∃ g, RunFunctionGvn false (λ _, false) sample_gvn_join = Some (g, true) ∧
    result sample_gvn_join 9 = Some (ended [Some (VInt 90)]) ∧ result g 9 = Some (ended [Some (VInt 30)])) ∧
  fusible (Body sample_gvn_loop) ∧ fusible (Body sample_gvn_join).
Proof.
  cbv zeta. split; [|split; [|split]].
  - eexists. split; [vm_compute; reflexivity|]. split; vm_compute; reflexivity.
  - eexists. split; [vm_compute; reflexivity|]. split; vm_compute; reflexivity.
  - split; [apply checkTidy_ok; vm_compute; reflexivity|apply plain_compactable; vm_compute; reflexivity|vm_compute; done].
  - split; [apply checkTidy_ok; vm_compute; reflexivity|apply plain_compactable; vm_compute; reflexivity|vm_compute; done].
Qed.
