(* ===== verification/Text.v ===== *)
(** * Go strings

    The parts of [strings], [utf8] and [strconv] the modelled code calls, on
    strings as lists of bytes, with their lemmas.  The case tables of [unicode]
    beyond ASCII are an argument. *)

From S2P Require Import Prelude.
From Stdlib Require Import Ascii DecimalN.
#[local] Open Scope Z_scope.

(** A string literal. *)
Fixpoint bytes (s : string) : list Z :=
  match s with
  | EmptyString => []
  | String c s => Z.of_N (N_of_ascii c) :: bytes s
  end.

(** ** UTF-8 *)

Definition runeError : Z := 0xFFFD.

Definition continuation (b : Z) : bool := (0x80 <=? b) && (b <=? 0xBF).

Definition two (b0 b1 : Z) : bool := (0xC2 <=? b0) && (b0 <=? 0xDF) && continuation b1.

Definition three (b0 b1 b2 : Z) : bool :=
  (0xE0 <=? b0) && (b0 <=? 0xEF) && continuation b1 && continuation b2 &&
  negb ((b0 =? 0xE0) && (b1 <? 0xA0)) && negb ((b0 =? 0xED) && (0x9F <? b1)).

Definition four (b0 b1 b2 b3 : Z) : bool :=
  (0xF0 <=? b0) && (b0 <=? 0xF4) && continuation b1 && continuation b2 && continuation b3 &&
  negb ((b0 =? 0xF0) && (b1 <? 0x90)) && negb ((b0 =? 0xF4) && (0x8F <? b1)).

(** The runes a [range] over a string visits, each with whether its encoding
    is valid; an invalid byte is one rune. *)
Fixpoint decodeRunes (s : list Z) : list (Z * bool) :=
  match s with
  | [] => []
  | b0 :: s1 =>
      if b0 <? 0x80 then (b0, true) :: decodeRunes s1
      else match s1 with
      | [] => [(runeError, false)]
      | b1 :: s2 =>
          if two b0 b1 then ((b0 - 0xC0) * 64 + (b1 - 0x80), true) :: decodeRunes s2
          else match s2 with
          | [] => (runeError, false) :: decodeRunes s1
          | b2 :: s3 =>
              if three b0 b1 b2
              then ((b0 - 0xE0) * 4096 + (b1 - 0x80) * 64 + (b2 - 0x80), true) :: decodeRunes s3
              else match s3 with
              | [] => (runeError, false) :: decodeRunes s1
              | b3 :: s4 =>
                  if four b0 b1 b2 b3
                  then ((b0 - 0xF0) * 262144 + (b1 - 0x80) * 4096 + (b2 - 0x80) * 64 + (b3 - 0x80), true)
                       :: decodeRunes s4
                  else (runeError, false) :: decodeRunes s1
              end
          end
      end
  end.

Definition runes (s : list Z) : list Z := map fst (decodeRunes s).

Definition ValidString (s : list Z) : bool := forallb snd (decodeRunes s).

Definition encodeRune (r : Z) : list Z :=
  if (r <? 0) || (0x10FFFF <? r) || ((0xD800 <=? r) && (r <=? 0xDFFF)) then [0xEF; 0xBF; 0xBD]
  else if r <? 0x80 then [r]
  else if r <? 0x800 then [0xC0 + r / 64; 0x80 + r mod 64]
  else if r <? 0x10000 then [0xE0 + r / 4096; 0x80 + r / 64 mod 64; 0x80 + r mod 64]
  else [0xF0 + r / 262144; 0x80 + r / 4096 mod 64; 0x80 + r / 64 mod 64; 0x80 + r mod 64].

(** ** Case *)

(** [unicode.ToLower] and [unicode.ToUpper] beyond ASCII. *)
Class CaseTables := { lowerTable : Z → Z; upperTable : Z → Z }.

Definition toLowerRune `{CaseTables} (r : Z) : Z :=
  if r <? 0x80 then (if (65 <=? r) && (r <=? 90) then r + 32 else r) else lowerTable r.
Definition toUpperRune `{CaseTables} (r : Z) : Z :=
  if r <? 0x80 then (if (97 <=? r) && (r <=? 122) then r - 32 else r) else upperTable r.

Definition ToLower `{CaseTables} (s : list Z) : list Z := concat (map (λ r, encodeRune (toLowerRune r)) (runes s)).
Definition ToUpper `{CaseTables} (s : list Z) : list Z := concat (map (λ r, encodeRune (toUpperRune r)) (runes s)).

(** ** Slicing *)

Fixpoint CutPrefix (s prefix : list Z) {struct prefix} : list Z * bool :=
  match prefix, s with
  | [], _ => (s, true)
  | p :: prefix', c :: s' =>
      if p =? c then let '(rest, found) := CutPrefix s' prefix' in if found : bool then (rest, true) else (s, false)
      else (s, false)
  | _ :: _, [] => (s, false)
  end.

Definition HasPrefix (s prefix : list Z) : bool := snd (CutPrefix s prefix).
Definition HasSuffix (s suffix : list Z) : bool := HasPrefix (rev s) (rev suffix).

(** [strings.Split] at one byte: never empty. *)
Fixpoint Split (s : list Z) (separator : Z) : list (list Z) :=
  match s with
  | [] => [[]]
  | c :: s =>
      if c =? separator then [] :: Split s separator
      else match Split s separator with
      | part :: parts => (c :: part) :: parts
      | [] => [[c]]
      end
  end.

Definition CutBefore (s : list Z) (separator : Z) : list Z := hd [] (Split s separator).

(** [strings.TrimRight] of one byte. *)
Fixpoint TrimLeft (s : list Z) (c : Z) : list Z :=
  match s with
  | b :: s' => if b =? c then TrimLeft s' c else s
  | [] => []
  end.
Definition TrimRight (s : list Z) (c : Z) : list Z := rev (TrimLeft (rev s) c).

(** ** Numbers *)

Fixpoint digits (d : Decimal.uint) : list Z :=
  match d with
  | Decimal.Nil => []
  | Decimal.D0 d => 48 :: digits d | Decimal.D1 d => 49 :: digits d | Decimal.D2 d => 50 :: digits d
  | Decimal.D3 d => 51 :: digits d | Decimal.D4 d => 52 :: digits d | Decimal.D5 d => 53 :: digits d
  | Decimal.D6 d => 54 :: digits d | Decimal.D7 d => 55 :: digits d | Decimal.D8 d => 56 :: digits d
  | Decimal.D9 d => 57 :: digits d
  end.

(** [strconv.FormatUint] in base ten. *)
Definition FormatUint (n : Z) : list Z := digits (N.to_uint (Z.to_N n)).

Lemma digits_inj d d' : digits d = digits d' → d = d'.
Proof. revert d'. induction d; intros []; cbn; try done; intros [= Heq]; f_equal; auto. Qed.

Lemma FormatUint_inj n m : 0 <= n → 0 <= m → FormatUint n = FormatUint m → n = m.
Proof.
  intros Hn Hm Heq%digits_inj%DecimalN.Unsigned.to_uint_inj. lia.
Qed.

Lemma digits_range d c : c ∈ digits d → 48 <= c <= 57.
Proof.
  induction d; cbn [digits]; [by intros ?%elem_of_nil|..]; intros [->|Hin]%elem_of_cons; try lia; auto.
Qed.

(** ** ASCII bytes *)

Lemma continuation_high b : continuation b = true → 0x80 <= b.
Proof. unfold continuation. intros. bool_hyps. lia. Qed.

(** An ASCII byte is a rune of its own. *)
Lemma ascii_in_runes s c : c < 0x80 → c ∈ s → c ∈ runes s.
Proof.
  intros Hc. unfold runes. remember (length s) as n eqn:Hn. revert s Hn.
  induction (lt_wf n) as [n _ IH]. intros s -> Hin.
  destruct s as [|b0 s1]; [by apply elem_of_nil in Hin|]. cbn [decodeRunes].
  destruct (Z.ltb_spec b0 0x80).
  { cbn. apply elem_of_cons in Hin as [->|Hin]; [by left|right]. exact (IH (length s1) ltac:(cbn; lia) s1 eq_refl Hin). }
  apply elem_of_cons in Hin as [->|Hin]; [lia|].
  assert (Hrest : ∀ s' r v, (length s' < S (length s1))%nat → c ∈ s' → c ∈ map fst ((r, v) :: decodeRunes s')).
  { intros s' r v Hl Hs. right. exact (IH (length s') ltac:(cbn; lia) s' eq_refl Hs). }
  destruct s1 as [|b1 s2]; [by apply elem_of_nil in Hin|].
  destruct (two b0 b1) eqn:E2.
  { unfold two in E2. bool_hyps. apply continuation_high in H1. apply elem_of_cons in Hin as [->|Hin]; [lia|].
    apply Hrest; [cbn; lia|done]. }
  destruct s2 as [|b2 s3]; [apply Hrest; [cbn; lia|done]|].
  destruct (three b0 b1 b2) eqn:E3.
  { unfold three in E3. bool_hyps. repeat match goal with H : continuation _ = true |- _ => apply continuation_high in H end.
    apply elem_of_cons in Hin as [->|Hin]; [lia|]. apply elem_of_cons in Hin as [->|Hin]; [lia|].
    apply Hrest; [cbn; lia|done]. }
  destruct s3 as [|b3 s4]; [apply Hrest; [cbn; lia|done]|].
  destruct (four b0 b1 b2 b3) eqn:E4; [|apply Hrest; [cbn; lia|done]].
  unfold four in E4. bool_hyps. repeat match goal with H : continuation _ = true |- _ => apply continuation_high in H end.
  apply elem_of_cons in Hin as [->|Hin]; [lia|]. apply elem_of_cons in Hin as [->|Hin]; [lia|].
  apply elem_of_cons in Hin as [->|Hin]; [lia|]. apply Hrest; [cbn; lia|done].
Qed.

Lemma ascii_decode s : Forall (λ c, c < 0x80) s → runes s = s.
Proof.
  induction 1 as [|c s Hc _ IH]; [done|]. unfold runes in *. cbn [decodeRunes].
  rewrite (proj2 (Z.ltb_lt _ _)) by lia. cbn. by rewrite IH.
Qed.

(** A lower-case ASCII string is its own lower case. *)
Lemma ToLower_lower `{CaseTables} s :
  Forall (λ c, 0 <= c < 0x80 ∧ ¬ (65 <= c <= 90)) s → ToLower s = s.
Proof.
  intros Hs. unfold ToLower. rewrite ascii_decode by (eapply Forall_impl; [exact Hs|]; cbn; lia).
  induction Hs as [|c s Hc _ IH]; [done|]. cbn [map concat]. rewrite IH. unfold toLowerRune, encodeRune.
  rewrite (proj2 (Z.ltb_lt c 0x80)) by lia.
  destruct (Z.leb_spec 65 c); cbn [andb]; [rewrite (proj2 (Z.leb_gt c 90)) by lia|];
    repeat (case_if; bool_hyps; try lia); done.
Qed.

(** ** Prefixes and parts *)

Lemma HasPrefix_app p s : HasPrefix (p ++ s) p = true.
Proof.
  unfold HasPrefix. induction p as [|c p IH]; [done|]. cbn. rewrite Z.eqb_refl.
  destruct (CutPrefix (p ++ s) p) as [rest found]. cbn in *. by subst.
Qed.

Lemma HasPrefix_Some s p : HasPrefix s p = true → ∃ rest, s = p ++ rest.
Proof.
  unfold HasPrefix. revert s. induction p as [|c p IH]; intros s; [intros _; by exists s|].
  destruct s as [|b s]; [done|]. cbn. destruct (Z.eqb_spec c b) as [->|]; [|done].
  destruct (CutPrefix s p) as [rest found] eqn:Hc. destruct found; [|done]. intros _.
  destruct (IH s) as [rest' ->]; [by rewrite Hc|]. by exists rest'.
Qed.

Lemma HasSuffix_snoc s c : HasSuffix (s ++ [c]) [c] = true.
Proof. unfold HasSuffix. rewrite rev_app_distr. apply (HasPrefix_app [c] (rev s)). Qed.

Lemma Split_nonempty s c : Split s c ≠ [].
Proof. destruct s as [|b s]; cbn; [done|]. case_if; [done|]. by destruct (Split s c). Qed.

(** The parts hold the bytes of the string but the separators. *)
Lemma elem_of_Split s c part b : part ∈ Split s c → b ∈ part → b ∈ s ∧ b ≠ c.
Proof.
  revert part. induction s as [|x s IH]; intros part; cbn [Split].
  { intros ->%list_elem_of_singleton. by intros ?%elem_of_nil. }
  destruct (Z.eqb_spec x c) as [->|Hne].
  - intros [->|Hin]%elem_of_cons Hb; [by apply elem_of_nil in Hb|]. destruct (IH _ Hin Hb). split; [by right|done].
  - destruct (Split s c) as [|first rest] eqn:Hs; [by apply Split_nonempty in Hs|].
    intros [->|Hin]%elem_of_cons Hb.
    + apply elem_of_cons in Hb as [->|Hb]; [split; [by left|done]|]. destruct (IH first ltac:(by left) Hb).
      split; [by right|done].
    + destruct (IH part ltac:(by right) Hb). split; [by right|done].
Qed.

