(* ===== verification/Broker.v ===== *)
(** * The authority of the filesystem broker

    [internal/sandboxbroker]: which paths and roots a worker may name
    ([path.go], [staging.go]), how a request and a response are checked
    ([filesystem_request.go], [response.go]) and the budget that admits calls
    ([filesystem_budget.go], [filesystem_call.go]).

    The mutex of a budget makes each operation one step; the flag a call and
    its copies share is a cell of the system.  What [encoding/json] makes of a
    payload is an argument.  Nil receivers are not represented. *)

From S2P Require Import Prelude Wire Text.

(** ** Paths and names *)

Definition maximumPathBytes : Z := 4096.
Definition maximumPathDepth : Z := 64.
Definition maximumNameBytes : Z := 255.
Definition maximumRootNameBytes : Z := 64.

Definition stagingPrefix : list Z := bytes ".pipit-stage-".
Definition stagingNamespaceBytes : Z := 16.

(** The characters of a host path that mean something to some host. *)
Definition reservedCharacters : list Z := 34 :: bytes "\:<>|?*".

Definition deviceNames : list (list Z) := map bytes ["CON"; "PRN"; "AUX"; "NUL"; "CONIN$"; "CONOUT$"].
Definition deviceSuffixes : list (list Z) :=
  map bytes ["1"; "2"; "3"; "4"; "5"; "6"; "7"; "8"; "9"] ++ [[0xC2; 0xB9]; [0xC2; 0xB2]; [0xC2; 0xB3]].

Definition isDevice (base : list Z) : bool :=
  bool_decide (base ∈ deviceNames) ||
  (let '(suffix, device) := CutPrefix base (bytes "COM") in
   let '(suffix, device) := if device : bool then (suffix, true) else CutPrefix base (bytes "LPT") in
   (device : bool) && bool_decide (suffix ∈ deviceSuffixes)).

Definition validPathComponent `{CaseTables} (name : list Z) : bool :=
  if HasPrefix (ToLower name) stagingPrefix then false
  else if bool_decide (name = []) || bool_decide (name = bytes ".") || bool_decide (name = bytes "..")
          || (maximumNameBytes <? zlen name) || HasSuffix name (bytes ".") || HasSuffix name (bytes " ")
  then false
  else if existsb (λ character, (character <? 32) || (character =? 127)
                     || bool_decide (character ∈ reservedCharacters)) (runes name)
  then false
  else negb (isDevice (ToUpper (TrimRight (CutBefore name 46) 32))).

Definition validRelativePath `{CaseTables} (name : list Z) (allowRoot : bool) : bool :=
  if bool_decide (name = bytes ".") then allowRoot
  else if bool_decide (name = []) || (maximumPathBytes <? zlen name) || negb (ValidString name) then false
  else
    let parts := Split name 47 in
    if maximumPathDepth <? zlen parts then false else forallb validPathComponent parts.

Definition validRootName (name : list Z) : bool :=
  match name with
  | [] => false
  | first :: _ =>
      if (maximumRootNameBytes <? zlen name) || (first <? 97) || (122 <? first) then false
      else forallb (λ character, ((97 <=? character) && (character <=? 122))
                      || ((48 <=? character) && (character <=? 57)) || (character =? 95) || (character =? 45))
             (runes name)
  end.

Definition validStagingNamespace (namespace : list Z) : bool :=
  if negb (zlen namespace =? 2 * stagingNamespaceBytes) then false
  else forallb (λ character, ((48 <=? character) && (character <=? 57))
                  || ((97 <=? character) && (character <=? 102))) (runes namespace).

(** ** Requests *)

(** [wireError] is an error of the wire protocol, [ErrClosedBudget] the
    [ErrClosed] of this package. *)
Inductive BrokerError := wireError (e : WireError) | ErrDenied | errLimit | errBusy | ErrClosedBudget | ErrInvalidPolicy.

Definition StagingName (namespace : list Z) (identity : Z) : BrokerError + list Z :=
  if negb (validStagingNamespace namespace) || (identity =? 0) then inl ErrInvalidPolicy
  else inr (stagingPrefix ++ namespace ++ bytes "-" ++ FormatUint identity).

(** An operation is a string: one of the three constants, or any other. *)
Inductive Operation := ReadFile | WriteFile | ListDirectory | OtherOperation (name : string).

#[export] Instance Operation_eq_dec : EqDecision Operation.
Proof. solve_decision. Defined.

Definition maximumRequestBytes : Z := Z.shiftl 128 10.
Definition maximumFileBytes : Z := Z.shiftl 64 10.
Definition maximumListEntries : Z := 256.

Record filesystemRequest := NewFilesystemRequest {
  operation : Operation;
  root : list Z;
  path : list Z;
  data : list Z;
  limit : Z;
}.

(** A raw field is [None] when the message leaves it out. *)
Record filesystemWireRequest := NewFilesystemWireRequest {
  wOperation : Operation;
  wRoot : list Z;
  wPath : list Z;
  wData : option (list Z);
  wMaxBytes : option (list Z);
  wMaxEntries : option (list Z);
}.

(** ** Responses *)

Definition maximumBrokerFrameBytes : Z := Z.shiftl 512 10.

(** A nil slice is [None]. *)
Record FilesystemResponse := NewFilesystemResponse {
  Code : string;
  Data : option (list Z);
  Entries : option (list (list Z));
  Written : Z;
  Skipped : Z;
}.

Record filesystemWireResponse := NewFilesystemWireResponse {
  rCode : option (list Z);
  rData : option (list Z);
  rEntries : option (list Z);
  rWritten : option (list Z);
  rSkipped : option (list Z);
}.

(** What [DecodePayload] makes of a payload for each schema, and
    [json.Unmarshal] of a raw field: into a byte slice, where null is a nil
    slice, and into an integer that is zero before, where null leaves zero. *)
Class BrokerJSON := {
  DecodeRequest : list Z → WireError + filesystemWireRequest;
  DecodeWireResponse : list Z → WireError + filesystemWireResponse;
  DecodeResponse : list Z → WireError + FilesystemResponse;
  UnmarshalBytes : list Z → option (option (list Z));
  UnmarshalInt : list Z → option Z;
}.

(** [bytes.TrimSpace] at the other end, on the reversed bytes. *)
Fixpoint trimLastSpace (payload : list Z) : list Z :=
  match payload with
  | c :: rest =>
      if (c =? 32) || ((9 <=? c) && (c <=? 13)) then trimLastSpace rest
      else match rest with
      | d :: rest =>
          if (d =? 0xC2) && ((c =? 0x85) || (c =? 0xA0)) then trimLastSpace rest
          else match rest with
          | e :: rest =>
              if ((e =? 0xE1) && (d =? 0x9A) && (c =? 0x80))
                 || ((e =? 0xE2) && (d =? 0x80) &&
                     (((0x80 <=? c) && (c <=? 0x8A)) || (c =? 0xA8) || (c =? 0xA9) || (c =? 0xAF)))
                 || ((e =? 0xE2) && (d =? 0x81) && (c =? 0x9F))
                 || ((e =? 0xE3) && (d =? 0x80) && (c =? 0x80))
              then trimLastSpace rest else payload
          | [] => payload
          end
      | [] => payload
      end
  | [] => []
  end.

Definition TrimSpace (payload : option (list Z)) : list Z :=
  rev (trimLastSpace (rev (trimLeftSpace (default [] payload)))).

Section broker.
Context `{CaseTables} `{BrokerJSON}.

Definition decodeFilesystemLimit (encoded : option (list Z)) (maximum : Z) : WireError + Z :=
  match UnmarshalInt (default [] encoded) with
  | Some limit => if (limit <=? 0) || (maximum <? limit) then inl ErrProtocol else inr limit
  | None => inl ErrProtocol
  end.

Definition decodeFilesystemWrite (wire : filesystemWireRequest) : WireError + (list Z * Z) :=
  if bool_decide (wMaxBytes wire ≠ None) || bool_decide (wMaxEntries wire ≠ None) then inl ErrProtocol
  else if match TrimSpace (wData wire) with c :: _ => negb (c =? 34) | [] => true end then inl ErrProtocol
  else match UnmarshalBytes (default [] (wData wire)) with
  | Some (Some payload) => if maximumFileBytes <? zlen payload then inl ErrProtocol else inr (payload, zlen payload)
  | _ => inl ErrProtocol
  end.

(** The data and the limit of the request. *)
Definition decodeFilesystemArguments (wire : filesystemWireRequest) : WireError + (list Z * Z) :=
  match wOperation wire with
  | ReadFile =>
      if bool_decide (wData wire ≠ None) || bool_decide (wMaxEntries wire ≠ None) then inl ErrProtocol
      else match decodeFilesystemLimit (wMaxBytes wire) maximumFileBytes with
      | inl error => inl error | inr limit => inr ([], limit) end
  | WriteFile => decodeFilesystemWrite wire
  | ListDirectory =>
      if bool_decide (wData wire ≠ None) || bool_decide (wMaxBytes wire ≠ None) then inl ErrProtocol
      else match decodeFilesystemLimit (wMaxEntries wire) maximumListEntries with
      | inl error => inl error | inr limit => inr ([], limit) end
  | OtherOperation _ => inl ErrProtocol
  end.

Definition decodeFilesystemRequest (message : Message) : WireError + filesystemRequest :=
  if negb (bool_decide (mKind message = Call)) || (ID message =? 0)
     || (maximumRequestBytes <? zlen (Payload message))
  then inl ErrProtocol
  else match DecodeRequest (Payload message) with
  | inl error => inl error
  | inr wire =>
      if negb (validRootName (wRoot wire))
         || negb (validRelativePath (wPath wire) (bool_decide (wOperation wire = ListDirectory)))
      then inl ErrProtocol
      else match decodeFilesystemArguments wire with
      | inl error => inl error
      | inr (payload, limit) =>
          inr (NewFilesystemRequest (wOperation wire) (wRoot wire) (wPath wire) payload limit)
      end
  end.

(** ** The budget *)

Definition Read : Z := 1.
Definition Write : Z := 2.
Definition List : Z := 4.
Definition maximumRoots : Z := 64.
Definition defaultCalls : Z := 100.
Definition defaultOutstanding : Z := 4.
Definition defaultReadBytes : Z := Z.shiftl 4 20.
Definition defaultWriteBytes : Z := Z.shiftl 4 20.
Definition defaultEntries : Z := 4096.

Record RootGrant := NewRootGrant { Name : list Z; Rights : Z }.

Record FilesystemLimits := NewFilesystemLimits {
  Calls : Z;
  Outstanding : Z;
  ReadBytes : Z;
  WriteBytes : Z;
  ListEntries : Z;
}.

Record FilesystemBudget := MkFilesystemBudget {
  roots : gmap (list Z) Z;
  limits : FilesystemLimits;
  lastID : Z;
  calls : Z;
  outstanding : Z;
  readRemaining : Z;
  writeRemaining : Z;
  entriesRemaining : Z;
  closed : bool;
}.

(** One turn of the loop over the settings. *)
Definition quotaSetting (value fallback : Z) : option Z :=
  if (value <? 0) || (fallback <? value) then None else Some (if value =? 0 then fallback else value).

Definition quotaSettings (l : FilesystemLimits) : option FilesystemLimits :=
  c ← quotaSetting (Calls l) defaultCalls;
  o ← quotaSetting (Outstanding l) defaultOutstanding;
  r ← quotaSetting (ReadBytes l) defaultReadBytes;
  w ← quotaSetting (WriteBytes l) defaultWriteBytes;
  e ← quotaSetting (ListEntries l) defaultEntries;
  Some (NewFilesystemLimits c o r w e).

(** The loop over the grants; a right is a byte. *)
Fixpoint addGrants (grants : list RootGrant) (roots : gmap (list Z) Z) : option (gmap (list Z) Z) :=
  match grants with
  | [] => Some roots
  | grant :: grants =>
      if negb (validRootName (Name grant)) || (Rights grant =? 0)
         || negb (Z.land (Rights grant) (255 - Z.lor Read (Z.lor Write List)) =? 0)
      then None
      else match roots !! Name grant with
      | Some _ => None
      | None => addGrants grants (<[Name grant := Rights grant]> roots)
      end
  end.

Definition NewFilesystemBudget (grants : list RootGrant) (l : FilesystemLimits) : BrokerError + FilesystemBudget :=
  if maximumRoots <? zlen grants then inl ErrInvalidPolicy
  else match quotaSettings l with
  | None => inl ErrInvalidPolicy
  | Some l =>
      if Calls l <? Outstanding l then inl ErrInvalidPolicy
      else match addGrants grants ∅ with
      | None => inl ErrInvalidPolicy
      | Some roots =>
          inr (MkFilesystemBudget roots l 0 0 0 (ReadBytes l) (WriteBytes l) (ListEntries l) false)
      end
  end.

Definition rightOf (request : filesystemRequest) : Z :=
  match operation request with WriteFile => Write | ListDirectory => List | _ => Read end.

Definition authorised (budget : FilesystemBudget) (request : filesystemRequest) : bool :=
  negb (Z.land (default 0 (roots budget !! root request)) (rightOf request) =? 0).

Definition setRemaining (budget : FilesystemBudget) (readBytes writeBytes entries : Z) : FilesystemBudget :=
  MkFilesystemBudget (roots budget) (limits budget) (lastID budget) (calls budget) (outstanding budget)
    readBytes writeBytes entries (closed budget).

Definition reserve (budget : FilesystemBudget) (request : filesystemRequest) : option FilesystemBudget :=
  let r := readRemaining budget in let w := writeRemaining budget in let e := entriesRemaining budget in
  match operation request with
  | WriteFile => if w <? limit request then None else Some (setRemaining budget r (w - limit request) e)
  | ListDirectory => if e <? limit request then None else Some (setRemaining budget r w (e - limit request))
  | _ => if r <? limit request then None else Some (setRemaining budget (r - limit request) w e)
  end.

(** The mutations of [Admit] and [Finish]. *)
Definition setCounters (budget : FilesystemBudget) (lastID calls outstanding : Z) (closed : bool) : FilesystemBudget :=
  MkFilesystemBudget (roots budget) (limits budget) lastID calls outstanding
    (readRemaining budget) (writeRemaining budget) (entriesRemaining budget) closed.

Definition Close (budget : FilesystemBudget) : FilesystemBudget :=
  setCounters budget (lastID budget) (calls budget) (outstanding budget) true.

(** A call: the request it was admitted for, and its identifier. *)
Record FilesystemCall := NewFilesystemCall { request : filesystemRequest; identity : Z }.

Definition Admit (budget : FilesystemBudget) (message : Message) : FilesystemBudget * (BrokerError + FilesystemCall) :=
  if closed budget then (budget, inl ErrClosedBudget)
  else if negb (bool_decide (mKind message = Call)) || (ID message <=? lastID budget)
  then (Close budget, inl (wireError ErrProtocol))
  else
    let budget := setCounters budget (ID message) (calls budget) (outstanding budget) (closed budget) in
    if calls budget =? Calls (limits budget) then (Close budget, inl errLimit)
    else
      let budget := setCounters budget (lastID budget) (calls budget + 1) (outstanding budget) (closed budget) in
      match decodeFilesystemRequest message with
      | inl error => (Close budget, inl (wireError error))
      | inr request =>
          if negb (authorised budget request) then (budget, inl ErrDenied)
          else if outstanding budget =? Outstanding (limits budget) then (budget, inl errBusy)
          else match reserve budget request with
          | None => (budget, inl errLimit)
          | Some budget =>
              (setCounters budget (lastID budget) (calls budget) (outstanding budget + 1) (closed budget),
               inr (NewFilesystemCall request (ID message)))
          end
      end.

(** [finished] is the cell the call shares with its copies. *)
Definition Finish (budget : FilesystemBudget) (call : FilesystemCall) (finished : bool) (used : Z)
    : FilesystemBudget * bool * option BrokerError :=
  if finished then (Close budget, true, Some (wireError ErrProtocol))
  else
    let budget := setCounters budget (lastID budget) (calls budget) (outstanding budget - 1) (closed budget) in
    if (used <? 0) || (limit (request call) <? used) then (Close budget, true, Some errLimit)
    else (budget, true, None).

(** ** Checking a response *)

Definition firstIs (field : list Z) (test : Z → bool) : bool :=
  match field with c :: _ => test c | [] => false end.

Definition digit (c : Z) : bool := (48 <=? c) && (c <=? 57).

Definition validFilesystemResponseFields (wire : filesystemWireResponse) : bool :=
  let code := TrimSpace (rCode wire) in let data := TrimSpace (rData wire) in
  let entries := TrimSpace (rEntries wire) in let written := TrimSpace (rWritten wire) in
  let skipped := TrimSpace (rSkipped wire) in
  firstIs code (λ c, c =? 34) &&
  (firstIs data (λ c, c =? 34) || bool_decide (data = bytes "null")) &&
  (firstIs entries (λ c, c =? 91) || bool_decide (entries = bytes "null")) &&
  firstIs written digit && firstIs skipped digit.

Definition entriesOf (response : FilesystemResponse) : list (list Z) := default [] (Entries response).

Definition validFilesystemListing (response : FilesystemResponse) (call : FilesystemCall) : bool :=
  if bool_decide (Data response ≠ None) || negb (Written response =? 0)
     || (limit (request call) <? wrapS 64 (zlen (entriesOf response) + Skipped response))
  then false
  else forallb (λ entry, negb (bool_decide (47 ∈ entry)) && validRelativePath entry false) (entriesOf response).

Definition validFilesystemResult (response : FilesystemResponse) (call : FilesystemCall) : bool :=
  match operation (request call) with
  | ReadFile =>
      (zlen (default [] (Data response)) <=? limit (request call)) && bool_decide (Entries response = None)
      && (Written response =? 0) && (Skipped response =? 0)
  | WriteFile =>
      bool_decide (Data response = None) && bool_decide (Entries response = None)
      && (Written response =? limit (request call)) && (Skipped response =? 0)
  | ListDirectory => validFilesystemListing response call
  | OtherOperation _ => false
  end.

Definition validFilesystemResponse (response : FilesystemResponse) (call : FilesystemCall) : bool :=
  if Skipped response <? 0 then false
  else if bool_decide (Code response = EmptyString) then validFilesystemResult response call
  else if bool_decide (Code response ∈ ["denied"; "limit"; "closed"; "io"]%string)
  then bool_decide (Data response = None) && bool_decide (Entries response = None)
       && (Written response =? 0) && (Skipped response =? 0)
  else false.

Definition decodeFilesystemResponse (message : Message) (identity : Z) (call : FilesystemCall)
    : WireError + FilesystemResponse :=
  if (identity =? 0) || negb (bool_decide (mKind message = Result)) || negb (ID message =? identity)
     || (maximumBrokerFrameBytes <? zlen (Payload message))
  then inl ErrProtocol
  else match DecodeWireResponse (Payload message) with
  | inl error => inl error
  | inr wire =>
      if negb (validFilesystemResponseFields wire) then inl ErrProtocol
      else match DecodeResponse (Payload message) with
      | inl error => inl error
      | inr response =>
          if negb (validFilesystemResponse response call) then inl ErrProtocol else inr response
      end
  end.

(** What the host reports to [Finish] after a response without an error
    ([FilesystemClient.exchange]), and what the worker does
    ([FilesystemProxy.exchange]). *)
Definition clientUsed (response : FilesystemResponse) : Z :=
  wrapS 64 (zlen (default [] (Data response)) + zlen (entriesOf response) + Written response).

Definition proxyUsed (response : FilesystemResponse) : Z :=
  wrapS 64 (zlen (default [] (Data response)) + zlen (entriesOf response) + Skipped response + Written response).
End broker.
