(* ===== verification/BrokerSound.v ===== *)
(** * What the filesystem broker grants

    A worker cannot name a path outside its root nor a staging link; over every
    interleaving of admissions and completions the budget grants what a ledger
    of the calls admitted so far allows; a response that is accepted fits the
    reservation, but for the overflow of one sum. *)

From S2P Require Import Prelude Wire Text Broker.
From Stdlib Require Import Sorting.Sorted.

(** ** Paths *)

(** How a host resolves the parts of a path below a root: the stack of
    directories entered, or none once the path leaves the root. *)
Fixpoint resolve (stack : list (list Z)) (parts : list (list Z)) : option (list (list Z)) :=
  match parts with
  | [] => Some stack
  | part :: parts =>
      if bool_decide (part = []) || bool_decide (part = bytes ".") then resolve stack parts
      else if bool_decide (part = bytes "..") then
        match stack with [] => None | _ :: stack => resolve stack parts end
      else resolve (part :: stack) parts
  end.

Section paths.
Context `{CaseTables}.

Record portable (name : list Z) : Prop := {
  po_plain : name ≠ [] ∧ name ≠ bytes "." ∧ name ≠ bytes "..";
  po_bytes c : c ∈ name → 32 <= c ∧ c ≠ 127 ∧ c ∉ reservedCharacters ∨ 128 <= c;
  po_staging : HasPrefix (ToLower name) stagingPrefix = false;
  po_device : isDevice (ToUpper (TrimRight (CutBefore name 46) 32)) = false;
  po_short : zlen name <= maximumNameBytes;
}.

Lemma component_portable name : validPathComponent name = true → portable name.
Proof.
  unfold validPathComponent. intros Hv. destruct (HasPrefix _ _) eqn:Hp; [done|].
  match type of Hv with (if ?b then _ else _) = _ => destruct b eqn:Hb; [done|] end.
  match type of Hv with (if ?b then _ else _) = _ => destruct b eqn:Hc; [done|] end.
  bool_hyps. split; try done; try lia.
  - split_and!; by eapply bool_decide_eq_false.
  - intros c Hin. destruct (Z.lt_ge_cases c 128) as [Hlt|]; [left|right; done].
    pose proof (ascii_in_runes name c Hlt Hin) as Hr.
    assert (Hbad : (c <? 32) || (c =? 127) || bool_decide (c ∈ reservedCharacters) = false).
    { destruct (_ || _) eqn:E; [|done]. enough (existsb (λ character, (character <? 32) || (character =? 127)
        || bool_decide (character ∈ reservedCharacters)) (runes name) = true) by congruence.
      apply existsb_exists. exists c. split; [by apply list_elem_of_In|done]. }
    bool_hyps. split_and!; [lia|done|]. by eapply bool_decide_eq_false.
Qed.
End paths.
Section paths_below.
Context `{CaseTables}.

Lemma resolve_portable stack parts :
  Forall portable parts → resolve stack parts = Some (rev parts ++ stack).
Proof.
  intros Hp. revert stack. induction Hp as [|part parts Hpart _ IH]; intros stack; [done|].
  destruct (po_plain _ Hpart) as (H1 & H2 & H3). cbn [resolve rev].
  rewrite !bool_decide_eq_false_2 by done. cbn [orb]. by rewrite IH, <- app_assoc.
Qed.

Lemma ToLower_staging namespace identity link :
  StagingName namespace identity = inr link → HasPrefix link stagingPrefix = true.
Proof.
  unfold StagingName. case_if; [done|]. generalize stagingPrefix as prefix. intros prefix [= <-]. apply HasPrefix_app.
Qed.

Lemma path_parts name allowRoot :
  validRelativePath name allowRoot = true →
  (name = bytes "." ∧ allowRoot = true) ∨ (Forall portable (Split name 47) ∧ zlen (Split name 47) <= maximumPathDepth).
Proof.
  unfold validRelativePath. case_bool_decide as Hdot; [by left|]. intros Hv. right.
  destruct (_ || _) eqn:E1 in Hv; [done|]. destruct (_ <? _) eqn:E2 in Hv; [done|]. bool_hyps. split; [|lia].
  apply Forall_forall. intros part Hin. apply component_portable. rewrite forallb_forall in Hv.
  apply Hv. by apply list_elem_of_In.
Qed.

(** C25: A path a request may name stays below its root: its parts, taken one by
    one as a host resolves them, enter one directory each and never leave the
    root; none is empty, a dot, a device, holds a control character, a
    separator of another host or more bytes than a name may, and none is, in
    any letter case, the name of a staging link. *)
Theorem admitted_paths_stay_below name allowRoot :
  validRelativePath name allowRoot = true →
  ∃ directories, resolve [] (Split name 47) = Some directories ∧
    (directories = rev (Split name 47) ∨ (directories = [] ∧ name = bytes "." ∧ allowRoot = true)) ∧
    Forall portable directories ∧ zlen directories <= maximumPathDepth ∧
    ∀ namespace identity link, StagingName namespace identity = inr link →
      link ∉ map ToLower directories.
Proof.
  intros [[-> ->]|[Hp Hdepth]]%path_parts.
  { exists []. split_and!; [reflexivity|by right|constructor|done|]. by intros ???? ?%elem_of_nil. }
  exists (rev (Split name 47)). split_and!.
  - by rewrite resolve_portable, app_nil_r.
  - by left.
  - by apply Forall_rev.
  - by rewrite length_rev.
  - intros namespace identity link Hlink Hin. apply list_elem_of_fmap in Hin as (part & -> & Hpart).
    apply ToLower_staging in Hlink.
    assert (Hin : part ∈ Split name 47) by (apply list_elem_of_In, in_rev, list_elem_of_In; exact Hpart).
    rewrite Forall_forall in Hp. by rewrite (po_staging _ (Hp _ Hin)) in Hlink.
Qed.
End paths_below.

(** Cases of letters beyond ASCII left as they are. *)
#[local] Instance plainTables : CaseTables := { lowerTable := λ r, r; upperTable := λ r, r }.

Theorem admitted_paths_stay_below_witness :
  validRelativePath (bytes "src/Main.go") false = true ∧
  validRelativePath (bytes "../etc/passwd") false = false ∧
  validRelativePath (bytes "a/.PIPIT-stage-0") false = false ∧
  validRelativePath (bytes "a/com1.txt") false = false ∧
  validRelativePath (bytes "a\..\b") false = false ∧
  ∃ directories, resolve [] (Split (bytes "src/Main.go") 47) = Some directories ∧
    (directories = rev (Split (bytes "src/Main.go") 47) ∨
     (directories = [] ∧ bytes "src/Main.go" = bytes "." ∧ false = true)) ∧
    Forall portable directories ∧ zlen directories <= maximumPathDepth ∧
    ∀ namespace identity link, StagingName namespace identity = inr link →
      link ∉ map ToLower directories.
Proof.
  do 5 (split; [vm_compute; reflexivity|]). apply (admitted_paths_stay_below (bytes "src/Main.go") false).
  vm_compute. reflexivity.
Defined.

(** ** The budget against a ledger *)

Section budget.
Context `{CaseTables} `{BrokerJSON}.

(** A budget with the calls it has admitted, each with its cell. *)
Record system := NewSystem { budget : FilesystemBudget; admitted : list (FilesystemCall * bool) }.

Inductive event := admitting (message : Message) | finishing (index : nat) (used : Z) | closing.

Inductive answer := admission (result : BrokerError + FilesystemCall) | completion (result : option BrokerError) | none.

Definition perform (s : system) (e : event) : system * answer :=
  match e with
  | admitting message =>
      let '(b, result) := Admit (budget s) message in
      (NewSystem b (match result with inr call => admitted s ++ [(call, false)] | inl _ => admitted s end),
       admission result)
  | finishing index used =>
      match admitted s !! index with
      | None => (s, none)
      | Some (call, finished) =>
          let '(b, finished, result) := Finish (budget s) call finished used in
          (NewSystem b (<[index := (call, finished)]> (admitted s)), completion result)
      end
  | closing => (NewSystem (Close (budget s)) (admitted s), none)
  end.

(** What the budget promises: only the calls admitted, how many attempts were
    counted, the latest identifier and whether the budget is closed; what is
    left of a quota follows from the calls. *)
Record ledger := NewLedger { granted : list (FilesystemCall * bool); attempts : Z; latest : Z; dead : bool }.

Definition unfinished (calls : list (FilesystemCall * bool)) : Z := zlen (filter (λ c, snd c = false) calls).

(** The bytes or entries reserved by the calls of one right. *)
Fixpoint reserved (right : Z) (calls : list (FilesystemCall * bool)) : Z :=
  match calls with
  | [] => 0
  | c :: calls =>
      (if rightOf (request (fst c)) =? right then limit (request (fst c)) else 0) + reserved right calls
  end.

Definition quota (l : FilesystemLimits) (right : Z) : Z :=
  if right =? Write then WriteBytes l else if right =? List then ListEntries l else ReadBytes l.

Definition permits (grants : list RootGrant) (name : list Z) (right : Z) : bool :=
  existsb (λ grant, bool_decide (Name grant = name) && negb (Z.land (Rights grant) right =? 0)) grants.

Definition kill (L : ledger) : ledger := NewLedger (granted L) (attempts L) (latest L) true.

Definition decide_admission (grants : list RootGrant) (l : FilesystemLimits) (L : ledger) (message : Message)
    : ledger * (BrokerError + FilesystemCall) :=
  if dead L then (L, inl ErrClosedBudget)
  else if negb (bool_decide (mKind message = Call)) || (ID message <=? latest L)
  then (kill L, inl (wireError ErrProtocol))
  else if attempts L =? Calls l then (NewLedger (granted L) (attempts L) (ID message) true, inl errLimit)
  else
    let L := NewLedger (granted L) (attempts L + 1) (ID message) false in
    match decodeFilesystemRequest message with
    | inl error => (kill L, inl (wireError error))
    | inr request =>
        if negb (permits grants (root request) (rightOf request)) then (L, inl ErrDenied)
        else if unfinished (granted L) =? Outstanding l then (L, inl errBusy)
        else if quota l (rightOf request) <? reserved (rightOf request) (granted L) + limit request
        then (L, inl errLimit)
        else
          let call := NewFilesystemCall request (ID message) in
          (NewLedger (granted L ++ [(call, false)]) (attempts L) (latest L) false, inr call)
    end.

Definition record_event (grants : list RootGrant) (l : FilesystemLimits) (L : ledger) (e : event) : ledger * answer :=
  match e with
  | admitting message => let '(L, result) := decide_admission grants l L message in (L, admission result)
  | finishing index used =>
      match granted L !! index with
      | None => (L, none)
      | Some (call, true) => (kill L, completion (Some (wireError ErrProtocol)))
      | Some (call, false) =>
          let bad := (used <? 0) || (limit (request call) <? used) in
          (NewLedger (<[index := (call, true)]> (granted L)) (attempts L) (latest L) (dead L || bad),
           completion (if bad then Some errLimit else None))
      end
  | closing => (kill L, none)
  end.

Fixpoint answers {S} (step : S → event → S * answer) (s : S) (events : list event) : S * list answer :=
  match events with
  | [] => (s, [])
  | e :: events =>
      let '(s, a) := step s e in let '(s, rest) := answers step s events in (s, a :: rest)
  end.

(** ** The budget implements the ledger *)

Definition remaining (b : FilesystemBudget) (right : Z) : Z :=
  if right =? Write then writeRemaining b else if right =? List then entriesRemaining b else readRemaining b.

Record represents (grants : list RootGrant) (l : FilesystemLimits) (L : ledger) (s : system) : Prop := {
  re_calls : admitted s = granted L;
  re_attempts : calls (budget s) = attempts L;
  re_latest : lastID (budget s) = latest L;
  re_dead : closed (budget s) = dead L;
  re_limits : limits (budget s) = l;
  re_outstanding : outstanding (budget s) = unfinished (granted L);
  re_remaining right : remaining (budget s) right = quota l right - reserved (
    if right =? Write then Write else if right =? List then List else Read) (granted L);
  re_roots request : authorised (budget s) request = permits grants (root request) (rightOf request);
}.

Lemma unfinished_snoc cs c : unfinished (cs ++ [(c, false)]) = unfinished cs + 1.
Proof. unfold unfinished. rewrite filter_app, length_app, filter_cons_True by done. cbn [length filter list_filter]. lia. Qed.

Lemma reserved_app right cs cs' : reserved right (cs ++ cs') = reserved right cs + reserved right cs'.
Proof. induction cs as [|c cs IH]; [done|]. cbn [reserved app]. lia. Qed.

Lemma unfinished_insert cs i c :
  cs !! i = Some (c, false) → unfinished (<[i := (c, true)]> cs) = unfinished cs - 1.
Proof.
  unfold unfinished. revert i. induction cs as [|x cs IH]; intros [|i] Hi; try done.
  - injection Hi as ->. change (<[0%nat := (c, true)]> ((c, false) :: cs)) with ((c, true) :: cs).
    rewrite (filter_cons_False _ (c, true)), (filter_cons_True _ (c, false)) by (cbn; congruence || done).
    cbn [length]. lia.
  - change (<[S i := (c, true)]> (x :: cs)) with (x :: <[i := (c, true)]> cs). specialize (IH i Hi).
    rewrite !filter_cons. case_decide; cbn [length]; lia.
Qed.

Lemma reserved_insert right cs i c f f' :
  cs !! i = Some (c, f) → reserved right (<[i := (c, f')]> cs) = reserved right cs.
Proof.
  revert i. induction cs as [|x cs IH]; intros [|i] Hi; try done.
  - by injection Hi as ->.
  - change (<[S i := (c, f')]> (x :: cs)) with (x :: <[i := (c, f')]> cs). cbn [reserved]. by rewrite (IH i Hi).
Qed.

Lemma addGrants_roots grants acc roots name right :
  addGrants grants acc = Some roots →
  negb (Z.land (default 0 (roots !! name)) right =? 0) =
  negb (Z.land (default 0 (acc !! name)) right =? 0) || permits grants name right.
Proof.
  revert acc. induction grants as [|g grants IH]; intros acc; cbn [addGrants permits existsb].
  { intros [= ->]. by rewrite orb_false_r. }
  case_if; [done|]. destruct (acc !! Name g) eqn:Hg; [done|]. intros Hadd. rewrite (IH _ Hadd).
  fold (permits grants name right). destruct (decide (Name g = name)) as [<-|Hne].
  - rewrite lookup_insert_eq, Hg, bool_decide_eq_true_2 by done. cbn [default andb]. rewrite Z.land_0_l. done.
  - rewrite lookup_insert_ne, bool_decide_eq_false_2 by done. done.
Qed.

Lemma new_represents grants l b :
  NewFilesystemBudget grants l = inr b →
  ∃ l', quotaSettings l = Some l' ∧ represents grants l' (NewLedger [] 0 0 false) (NewSystem b []).
Proof.
  unfold NewFilesystemBudget. case_if; [done|]. destruct (quotaSettings l) as [l'|]; [|done]. case_if; [done|].
  destruct (addGrants grants ∅) as [roots|] eqn:Ha; [|done]. intros [= <-]. exists l'. split; [done|].
  split; cbn; try done.
  - intros right. unfold remaining, quota. cbn. by repeat case_if; rewrite Z.sub_0_r.
  - intros request. unfold authorised. cbn. by rewrite (addGrants_roots _ _ _ _ _ Ha), lookup_empty.
Qed.

Lemma rightOf_cases request : rightOf request = Read ∨ rightOf request = Write ∨ rightOf request = List.
Proof. unfold rightOf. destruct (operation request); auto. Qed.

Lemma reserve_spec b req :
  match reserve b req with
  | None => remaining b (rightOf req) < limit req
  | Some b' => limit req <= remaining b (rightOf req) ∧ roots b' = roots b ∧ limits b' = limits b ∧
      lastID b' = lastID b ∧ calls b' = calls b ∧ outstanding b' = outstanding b ∧ closed b' = closed b ∧
      ∀ right, remaining b' right = remaining b right -
        if rightOf req =? (if right =? Write then Write else if right =? List then List else Read) then limit req else 0
  end.
Proof.
  unfold reserve, rightOf, remaining, Write, List, Read. destruct (operation req); cbn [Z.eqb Pos.eqb];
    case_if; bool_hyps; try lia; (split_and!; [lia|done..|]); intros right; cbn;
    (destruct (right =? 2) eqn:E2; [|destruct (right =? 4) eqn:E4]); cbn; lia.
Qed.

Ltac solve_rep := split; [done|split; cbn; first [done|congruence|lia|auto]].

Lemma admit_represents grants l L s message :
  represents grants l L s →
  let '(s', a) := perform s (admitting message) in
  let '(L', a') := record_event grants l L (admitting message) in
  a = a' ∧ represents grants l L' s'.
Proof.
  intros [Hc Ha Hl Hd Hli Ho Hr Hg]. cbn [perform record_event]. unfold Admit, decide_admission.
  destruct s as [b cs]. cbn [budget admitted] in *. subst cs. rewrite Hd, Hl.
  destruct (dead L) eqn:HL; [by solve_rep|].
  destruct (_ || _) eqn:E1; [by solve_rep|].
  cbn [calls limits setCounters]. rewrite Ha, Hli. destruct (attempts L =? Calls l) eqn:E2; [by solve_rep|].
  destruct (decodeFilesystemRequest message) as [e|req]; [by solve_rep|].
  specialize (Hg req) as Hgr.
  cbn [lastID calls outstanding closed setCounters]. rewrite ?Ha.
  match goal with |- context [authorised ?x req] => set (b1 := x) end.
  assert (Hb1 : ∀ right, remaining b1 right = remaining b right) by done.
  change (authorised b1 req) with (authorised b req). rewrite Hgr.
  destruct (permits grants (root req) (rightOf req)) eqn:E3; cbn [negb]; [|by solve_rep].
  change (outstanding b1) with (outstanding b). change (limits b1) with (limits b). rewrite ?Hli, Ho. cbn [granted].
  destruct (unfinished (granted L) =? Outstanding l) eqn:E4; [by solve_rep|].
  assert (Hnorm : (if rightOf req =? Write then Write else if rightOf req =? List then List else Read) = rightOf req)
    by (destruct (rightOf_cases req) as [-> |[-> | ->]]; done).
  pose proof (reserve_spec b1 req) as Hres. rewrite Hb1, Hr, Hnorm in Hres.
  destruct (reserve b1 req) as [b'|]; [|rewrite (proj2 (Z.ltb_lt _ _)) by lia; by solve_rep].
  destruct Hres as (Hle & Hroots & Hlim & Hid & Hca & Hou & Hcl & Hrem).
  rewrite (proj2 (Z.ltb_ge _ _)) by lia. split; [done|].
  split; cbn [budget admitted setCounters calls lastID closed limits outstanding granted attempts latest dead].
  - done.
  - rewrite Hca. cbn. lia.
  - by rewrite Hid.
  - by rewrite Hcl.
  - by rewrite Hlim.
  - rewrite unfinished_snoc, Hou. cbn. lia.
  - intros right. rewrite reserved_app. cbn [reserved fst request]. rewrite Z.add_0_r.
    change (remaining b' right = quota l right -
      (reserved (if right =? Write then Write else if right =? List then List else Read) (granted L) +
       (if rightOf req =? (if right =? Write then Write else if right =? List then List else Read) then limit req else 0))).
    rewrite Hrem, Hb1, Hr. lia.
  - intros request. unfold authorised. cbn [roots setCounters]. rewrite Hroots. apply Hg.
Qed.

Lemma event_represents grants l L s e :
  represents grants l L s →
  let '(s', a) := perform s e in let '(L', a') := record_event grants l L e in
  a = a' ∧ represents grants l L' s'.
Proof.
  destruct e as [message|index used|]; [apply admit_represents|..]; intros Hrep;
    pose proof Hrep as [Hc Ha Hl Hd Hli Ho Hr Hg]; cbn [perform record_event].
  - rewrite Hc. destruct (granted L !! index) as [[call finished]|] eqn:Hi; [|by split].
    unfold Finish. destruct finished; [by (rewrite (list_insert_id _ _ _ Hi); solve_rep)|].
    assert (Hun : unfinished (<[index := (call, true)]> (granted L)) = unfinished (granted L) - 1)
      by by apply unfinished_insert.
    assert (Hre : ∀ right, reserved right (<[index := (call, true)]> (granted L)) = reserved right (granted L))
      by (intros; by eapply reserved_insert).
    destruct (_ || _) eqn:Hbad; (split; [done|]); split;
      cbn [budget admitted granted attempts latest dead calls lastID closed limits outstanding setCounters Close];
      rewrite ?Hun, ?orb_true_r, ?orb_false_r; try done; try lia; intros right; rewrite Hre; apply Hr.
  - by solve_rep.
Qed.

Lemma run_represents grants l events L s :
  represents grants l L s →
  let '(s', a) := answers perform s events in let '(L', a') := answers (record_event grants l) L events in
  a = a' ∧ represents grants l L' s'.
Proof.
  revert L s. induction events as [|e events IH]; intros L s Hrep; cbn [answers]; [done|].
  pose proof (event_represents grants l L s e Hrep) as He.
  destruct (perform s e) as [s1 a], (record_event grants l L e) as [L1 a1]. destruct He as [-> Hrep1].
  specialize (IH L1 s1 Hrep1).
  destruct (answers perform s1 events) as [s2 r], (answers (record_event grants l) L1 events) as [L2 r2].
  destruct IH as [-> Hrep2]. done.
Qed.

(** C24: However admissions, completions and a close are interleaved on a
    budget, every answer it gives is the one of a ledger that only remembers
    the calls granted, how many attempts were made, the latest identifier and
    whether the budget is closed: a request is granted when its identifier is
    new, attempts are left, it decodes, a grant names its root with its right,
    fewer calls are unfinished than may be, and the calls granted of that right
    leave room for it in the quota. *)
Theorem budget_follows_ledger grants l b events :
  NewFilesystemBudget grants l = inr b →
  ∃ l', quotaSettings l = Some l' ∧
    let '(s, given) := answers perform (NewSystem b []) events in
    let '(L, expected) := answers (record_event grants l') (NewLedger [] 0 0 false) events in
    given = expected ∧ admitted s = granted L ∧ closed (budget s) = dead L.
Proof.
  intros Hnew. destruct (new_represents grants l b Hnew) as (l' & Hl' & Hrep). exists l'. split; [done|].
  pose proof (run_represents grants l' events _ _ Hrep) as Hrun.
  destruct (answers perform _ events) as [s a], (answers _ _ events) as [L a'].
  destruct Hrun as [-> Hrep']. split_and!; [done|apply (re_calls _ _ _ _ Hrep')|apply (re_dead _ _ _ _ Hrep')].
Qed.

(** ** What has been granted *)

Record call_ok (grants : list RootGrant) (c : FilesystemCall) : Prop := {
  ca_granted : permits grants (root (request c)) (rightOf (request c)) = true;
  ca_path : validRelativePath (path (request c)) (bool_decide (operation (request c) = ListDirectory)) = true;
  ca_limit : 0 <= limit (request c) <= maximumFileBytes;
  ca_data : operation (request c) = WriteFile → limit (request c) = zlen (data (request c));
}.

Record ledger_ok (grants : list RootGrant) (l : FilesystemLimits) (L : ledger) : Prop := {
  lo_calls : Forall (λ c, call_ok grants (fst c)) (granted L);
  lo_reserved right : reserved right (granted L) <= quota l right;
  lo_unfinished : unfinished (granted L) <= Outstanding l;
  lo_attempts : zlen (granted L) <= attempts L <= Calls l;
  lo_sorted : StronglySorted Z.lt (map (λ c, identity (fst c)) (granted L));
  lo_latest : Forall (λ c, identity (fst c) <= latest L) (granted L);
}.

Lemma decodeFilesystemLimit_ok encoded maximum n : decodeFilesystemLimit encoded maximum = inr n → 0 <= n <= maximum.
Proof.
  unfold decodeFilesystemLimit. destruct (UnmarshalInt _); [|done]. case_if; [done|]. bool_hyps. intros [= <-]. lia.
Qed.

Lemma decodeFilesystemRequest_ok message req :
  decodeFilesystemRequest message = inr req →
  validRelativePath (path req) (bool_decide (operation req = ListDirectory)) = true ∧
  0 <= limit req <= maximumFileBytes ∧ (operation req = WriteFile → limit req = zlen (data req)).
Proof.
  unfold decodeFilesystemRequest. match goal with |- (if ?c then _ else _) = _ → _ => destruct c; [done|] end.
  destruct (DecodeRequest _) as [|wire]; [done|].
  match goal with |- (if ?c then _ else _) = _ → _ => destruct c eqn:Hv; [done|] end. bool_hyps.
  destruct (decodeFilesystemArguments wire) as [|[payload n]] eqn:Ha; [done|]. intros [= <-]. cbn [path operation limit data]. split; [done|].
  unfold decodeFilesystemArguments, decodeFilesystemWrite in Ha.
  assert (Hm : maximumListEntries <= maximumFileBytes) by (vm_compute; discriminate).
  destruct (wOperation wire); [..|done];
    repeat (match type of Ha with
    | context [if ?c then _ else _] => destruct c eqn:?
    | context [match ?m with _ => _ end] => destruct m eqn:?
    end; try done); bool_hyps; injection Ha as <- <-;
    repeat match goal with H : decodeFilesystemLimit _ _ = inr _ |- _ => apply decodeFilesystemLimit_ok in H end;
    (split; [lia|done]).
Qed.

Lemma StronglySorted_snoc (xs : list Z) x :
  StronglySorted Z.lt xs → Forall (λ y, y < x) xs → StronglySorted Z.lt (xs ++ [x]).
Proof.
  induction 1 as [|y xs Hs IH Hy]; intros Hx; cbn; [by repeat constructor|].
  apply Forall_cons in Hx as [? Hx]. constructor; [by apply IH|]. apply Forall_app. split; [done|by repeat constructor].
Qed.

Lemma fst_insert (cs : list (FilesystemCall * bool)) i c f f' : cs !! i = Some (c, f) → map fst (<[i := (c, f')]> cs) = map fst cs.
Proof.
  intros Hi. change (fst <$> <[i := (c, f')]> cs = fst <$> cs). rewrite list_fmap_insert. apply list_insert_id.
  by rewrite list_lookup_fmap, Hi.
Qed.

Lemma event_ok grants l L e :
  (∀ right, 0 <= quota l right) → ledger_ok grants l L → ledger_ok grants l (fst (record_event grants l L e)).
Proof.
  intros Hq HL. pose proof HL as [Hcs Hres Hun Hat Hso Hla].
  destruct e as [message|index used|]; cbn [record_event].
  - unfold decide_admission. destruct (dead L); [done|]. destruct (_ || _) eqn:E1; [by split|]. bool_hyps.
    assert (Hla' : Forall (λ c, identity (fst c) <= ID message) (granted L))
      by (eapply Forall_impl; [exact Hla|cbn; lia]).
    destruct (attempts L =? Calls l) eqn:E2; [by split|]. bool_hyps.
    destruct (decodeFilesystemRequest message) as [err|req] eqn:Hd; [split; cbn; try done; lia|].
    destruct (permits _ _ _) eqn:E3; cbn [negb]; [|split; cbn; try done; lia].
    cbn [granted]. destruct (unfinished (granted L) =? Outstanding l) eqn:E4; [split; cbn; try done; lia|].
    destruct (_ <? _) eqn:E5; [split; cbn; try done; lia|]. bool_hyps. cbn [fst].
    destruct (decodeFilesystemRequest_ok _ _ Hd) as (Hpath & Hlim & Hdata).
    split; cbn [granted attempts latest].
    + apply Forall_app. split; [done|]. apply Forall_singleton. by split.
    + intros right. rewrite reserved_app. cbn [reserved fst request].
      destruct (Z.eqb_spec (rightOf req) right) as [<-|]; [lia|]. specialize (Hres right). lia.
    + rewrite unfinished_snoc. lia.
    + rewrite length_app. cbn. lia.
    + rewrite map_app. apply StronglySorted_snoc; [done|]. apply Forall_map.
      eapply Forall_impl; [exact Hla|]. cbn. lia.
    + apply Forall_app. split; [done|]. apply Forall_singleton. cbn. lia.
  - destruct (granted L !! index) as [[call []]|] eqn:Hi; [by split| |done]. cbn [fst].
    pose proof (fst_insert _ _ _ _ true Hi) as Hmap.
    assert (Hid : map (λ c, identity (fst c)) (<[index := (call, true)]> (granted L)) =
      map (λ c, identity (fst c)) (granted L)) by (rewrite <- !(map_map fst identity); by rewrite Hmap).
    split; cbn [granted attempts latest].
    + apply Forall_insert; [done|]. rewrite Forall_lookup in Hcs. apply (Hcs _ _ Hi).
    + intros right. rewrite (reserved_insert _ _ _ _ _ _ Hi). apply Hres.
    + rewrite (unfinished_insert _ _ _ Hi). lia.
    + by rewrite length_insert.
    + by rewrite Hid.
    + apply Forall_insert; [done|]. rewrite Forall_lookup in Hla. apply (Hla _ _ Hi).
  - by split.
Qed.

Lemma quotaSetting_range value fallback v :
  0 <= fallback → quotaSetting value fallback = Some v → 0 <= v <= fallback.
Proof. unfold quotaSetting. intros Hf. case_if; [done|]. bool_hyps. intros [= <-]. case_if; lia. Qed.

Lemma quotaSettings_range l l' : quotaSettings l = Some l' →
  (∀ right, 0 <= quota l' right <= defaultReadBytes) ∧ 0 <= Outstanding l' <= defaultOutstanding ∧
  0 <= Calls l' <= defaultCalls.
Proof.
  unfold quotaSettings.
  destruct (quotaSetting (Calls l) _) as [c|] eqn:H1; [|done]. destruct (quotaSetting (Outstanding l) _) as [o|] eqn:H2; [|done].
  destruct (quotaSetting (ReadBytes l) _) as [r|] eqn:H3; [|done]. destruct (quotaSetting (WriteBytes l) _) as [w|] eqn:H4; [|done].
  destruct (quotaSetting (ListEntries l) _) as [e|] eqn:H5; [|done]. cbn [mbind option_bind]. intros [= <-].
  apply quotaSetting_range in H1, H2, H3, H4, H5; try (apply Z.leb_le; reflexivity).
  cbn [Calls Outstanding]. split_and!; try lia. intros right. unfold quota. cbn [ReadBytes WriteBytes ListEntries].
  assert (defaultEntries <= defaultReadBytes) by (apply Z.leb_le; reflexivity).
  change defaultWriteBytes with defaultReadBytes in *. repeat case_if; lia.
Qed.

Lemma run_ok grants l events L :
  (∀ right, 0 <= quota l right) → ledger_ok grants l L →
  ledger_ok grants l (fst (answers (record_event grants l) L events)).
Proof.
  intros Hq. revert L. induction events as [|e events IH]; intros L HL; cbn [answers]; [done|].
  pose proof (event_ok grants l L e Hq HL) as He. destruct (record_event grants l L e) as [L1 a]. specialize (IH L1 He).
  by destruct (answers (record_event grants l) L1 events).
Qed.

End budget.

(** ** Responses *)

Section responses.
Context `{CaseTables} `{BrokerJSON}.

Lemma decodeFilesystemResponse_valid message identity call response :
  decodeFilesystemResponse message identity call = inr response → validFilesystemResponse response call = true.
Proof.
  unfold decodeFilesystemResponse. match goal with |- (if ?c then _ else _) = _ → _ => destruct c; [done|] end.
  destruct (DecodeWireResponse _) as [|wire]; [done|].
  match goal with |- (if ?c then _ else _) = _ → _ => destruct c; [done|] end.
  destruct (DecodeResponse _) as [|r]; [done|].
  match goal with |- (if ?c then _ else _) = _ → _ => destruct c eqn:Hv; [done|] end. intros [= <-]. by bool_hyps.
Qed.

(** A response fits a reservation: no more data, entries and omissions than it
    was granted, a write in full, and the entries single portable names. *)
Record fits (response : FilesystemResponse) (call : FilesystemCall) : Prop := {
  fi_data : zlen (default [] (Data response)) <= limit (request call);
  fi_entries : zlen (entriesOf response) + Skipped response <= limit (request call);
  fi_written : 0 <= Written response <= limit (request call);
  fi_names entry : entry ∈ entriesOf response → 47 ∉ entry ∧ portable entry;
  fi_one : zlen (default [] (Data response)) + zlen (entriesOf response) + Skipped response + Written response
    <= limit (request call);
}.

Lemma accepted_fits response call :
  validFilesystemResponse response call = true → 0 <= limit (request call) →
  zlen (entriesOf response) + Skipped response < 2 ^ 63 → fits response call.
Proof.
  unfold validFilesystemResponse. intros Hv Hl Hsum.
  destruct (Z.ltb_spec (Skipped response) 0) as [|Hs]; [done|].
  assert (Hnothing : Data response = None → Entries response = None → Written response = 0 → Skipped response = 0 →
    fits response call).
  { intros H1 H2 H3 H4. split; unfold entriesOf; rewrite ?H1, ?H2, ?H3, ?H4; cbn; try lia.
    by intros entry ?%elem_of_nil. }
  case_bool_decide; [|case_bool_decide; [|done]; bool_hyps; apply Hnothing; try done; by eapply bool_decide_eq_true].
  unfold validFilesystemResult in Hv. destruct (operation (request call)); [..|done].
  - bool_hyps. assert (Entries response = None) as He by by eapply bool_decide_eq_true.
    split; unfold entriesOf; rewrite ?He; cbn; try lia. by intros entry ?%elem_of_nil.
  - bool_hyps. assert (Entries response = None) as He by by eapply bool_decide_eq_true.
    assert (Data response = None) as Hd by by eapply bool_decide_eq_true.
    split; unfold entriesOf; rewrite ?He, ?Hd; cbn; try lia. by intros entry ?%elem_of_nil.
  - unfold validFilesystemListing in Hv.
    destruct (_ || _) eqn:E in Hv; [done|]. bool_hyps.
    assert (Data response = None) as Hd by by (apply dec_stable; eapply bool_decide_eq_false).
    rewrite wrapS_id in * by (unfold isS; lia). rewrite Hd in *.
    split; rewrite ?Hd; cbn [default length]; try lia. intros entry Hin. rewrite forallb_forall in Hv.
    specialize (Hv entry ltac:(by apply list_elem_of_In)). bool_hyps. split; [by eapply bool_decide_eq_false|].
    destruct (path_parts entry false) as [[_ ?]|[Hp _]]; [done|done|].
    assert (Hsplit : Split entry 47 = [entry]).
    { assert (Hno : 47 ∉ entry) by by eapply bool_decide_eq_false. clear -Hno.
      induction entry as [|c entry IH]; [done|]. apply not_elem_of_cons in Hno as [Hc Hno]. cbn.
      rewrite (proj2 (Z.eqb_neq c 47)) by done. by rewrite IH. }
    rewrite Hsplit in Hp. exact (Forall_inv Hp).
Qed.

End responses.

(** A listing of one name that was to return at most one. *)
Definition oneName : FilesystemCall :=
  NewFilesystemCall (NewFilesystemRequest ListDirectory (bytes "data") (bytes ".") [] 1) 1.

Definition overflowing : FilesystemResponse :=
  NewFilesystemResponse EmptyString None (Some [bytes "a"; bytes "b"; bytes "c"]) 0 (2 ^ 63 - 1).

(** The check of a listing adds the names listed and the count of names
    left out, which the other side chooses, in a machine integer: with a count
    near the largest the sum is negative, so that a listing of three names and
    a huge count is accepted for a reservation of one name; with one name the
    host, which leaves the count out of what it reports, settles the call. *)
Theorem listing_check_overflows :
  validFilesystemResponse overflowing oneName = true ∧
  limit (request oneName) < zlen (entriesOf overflowing) ∧ limit (request oneName) < Skipped overflowing ∧
  ∀ b, let response := NewFilesystemResponse EmptyString None (Some [bytes "a"]) 0 (2 ^ 63 - 1) in
    validFilesystemResponse response oneName = true ∧
    snd (Finish b oneName false (clientUsed response)) = None ∧
    snd (Finish b oneName false (proxyUsed response)) = Some errLimit.
Proof.
  split_and!; try (vm_compute; reflexivity). intros b response. split_and!; vm_compute; reflexivity.
Qed.

(** ** Concrete runs *)

(** A JSON of two payloads: a read of [n] bytes and a listing of [n] names of
    one root, and responses of [n] bytes. *)
#[local] Instance sampleJSON : BrokerJSON := {
  DecodeRequest payload := match payload with
    | [0; n] => inr (NewFilesystemWireRequest ReadFile (bytes "data") (bytes "a/b") None (Some [n]) None)
    | [1; n] => inr (NewFilesystemWireRequest ListDirectory (bytes "data") (bytes ".") None None (Some [n]))
    | _ => inl ErrProtocol end;
  DecodeWireResponse payload :=
    inr (NewFilesystemWireResponse (Some [34]) (Some [34]) (Some (bytes "null")) (Some [48]) (Some [48]));
  DecodeResponse payload := inr (NewFilesystemResponse EmptyString (Some payload) None 0 0);
  UnmarshalBytes payload := None;
  UnmarshalInt payload := match payload with [n] => Some n | _ => None end;
}.

Definition sample_grants : list RootGrant := [NewRootGrant (bytes "data") Read].

Definition sample_limits : FilesystemLimits := NewFilesystemLimits 0 1 20 0 0.

Definition sample_budget : FilesystemBudget :=
  MkFilesystemBudget {[bytes "data" := Read]} (NewFilesystemLimits 100 1 20 defaultWriteBytes defaultEntries)
    0 0 0 20 defaultWriteBytes defaultEntries false.

Definition sample_read (n id : Z) : event := admitting (NewMessage Call [0; n] id).

(** A read, one while it is unfinished, a listing, its end, one past the
    quota, a second end, and a read on the closed budget. *)
Definition sample_events : list event :=
  [sample_read 15 1; sample_read 5 2; admitting (NewMessage Call [1; 5] 3); finishing 0 15; sample_read 6 4;
   finishing 0 15; sample_read 1 5].

Definition sample_answers : list answer :=
  [admission (inr (NewFilesystemCall (NewFilesystemRequest ReadFile (bytes "data") (bytes "a/b") [] 15) 1));
   admission (inl errBusy); admission (inl ErrDenied); completion None; admission (inl errLimit);
   completion (Some (wireError ErrProtocol)); admission (inl ErrClosedBudget)].

Theorem budget_follows_ledger_witness :
  snd (answers perform (NewSystem sample_budget []) sample_events) = sample_answers ∧
  ∃ l', quotaSettings sample_limits = Some l' ∧
    let '(s, given) := answers perform (NewSystem sample_budget []) sample_events in
    let '(L, expected) := answers (record_event sample_grants l') (NewLedger [] 0 0 false) sample_events in
    given = expected ∧ admitted s = granted L ∧ closed (budget s) = dead L.
Proof.
  split; [vm_compute; reflexivity|].
  apply (budget_follows_ledger sample_grants sample_limits sample_budget sample_events). vm_compute. reflexivity.
Defined.


Definition sample_call : FilesystemCall :=
  NewFilesystemCall (NewFilesystemRequest ReadFile (bytes "data") (bytes "a/b") [] 15) 1.

