(* ===== verification/Pool.v ===== *)
(** * The object pool

    [internal/stablepool], the persistent mode of the default build: objects
    are addresses, the free stack of a shard is threaded through the links of
    the objects on it, and goroutines run [Get], [MustGet] and [Put] one atomic
    access at a time: a swap or a compare-and-swap of a slot, a push or a pop
    under the mutex of a shard, a phase of [grow] under the mutex of the slabs.

    What an initialiser leaves in the link of an object is an argument; while
    an object is in the hands of a caller its link may change.  The counter of
    objects in flight moves with the access that hands an object out. *)

From S2P Require Import Prelude SafeConv.

(** ** Construction *)

Inductive PoolError := ErrNoInitialiser | ErrBadCapacity | ErrBadGrowth | ErrBadShardCount.

Record config := NewConfig { shardCount : Z; maxCapacity : Z; metrics : bool }.

(** [resolvePoolConfig], with the options already applied to the defaults. *)
Definition resolvePoolConfig (initialised : bool) (capacity : Z) (c : config) : PoolError + config :=
  if negb initialised then inl ErrNoInitialiser
  else if capacity <=? 0 then inl ErrBadCapacity
  else if shardCount c <=? 0 then inl ErrBadShardCount
  else if (0 <? maxCapacity c) && (maxCapacity c <? capacity) then inl ErrBadGrowth
  else inr c.

(** [bits.Len] of a positive number. *)
Definition bitsLen (n : Z) : Z := if n <=? 0 then 0 else Z.log2 n + 1.

Definition nextPow2 (n : Z) : Z := if n <=? 1 then 1 else wrapS 64 (Z.shiftl 1 (bitsLen (n - 1))).

(** ** State *)

(** The slot and the head of the free stack. *)
Record shard := NewShard { slot : option Z; freeHead : option Z }.

(** Where a goroutine stands in an operation. *)
Inductive point :=
  | Returned (result : option Z)
  | GetSlot (s : Z) (must : bool)
  | GetFree (s : Z) (must : bool)
  | GetSteal (s i : Z) (must : bool)
  | GrowLock (s : Z) (must : bool)
  | GrowSteal (s i : Z) (must : bool)
  | GrowFree (s : Z) (must : bool)
  | GrowCheck (s : Z) (must : bool)
  | GrowPush (s : Z) (objects : list Z) (i : Z) (must : bool)
  | GrowPop (s : Z) (must : bool)
  | GrowStealAgain (s i : Z) (must : bool)
  | PutSlot (s : Z) (object : Z)
  | PutFree (s : Z) (object : Z).

(** [next] is the next address to allocate, [links] the link of every object,
    [inUse] the objects in the hands of callers. *)
Record pool := NewPool {
  shards : list shard;
  links : gmap Z (option Z);
  capacity : Z;
  slabsMu : option nat;
  inFlight : Z;
  next : Z;
  inUse : list Z;
  routines : list point;
}.

Section pool.
Context (poolConfig : config) (initialLink : Z → option Z).

Definition shardMask (p : pool) : Z := zlen (shards p) - 1.

(** The shard of a processor, and the shard [i] further on. *)
Definition shardOf (p : pool) (pid : Z) : Z := Z.land (wrapU 32 pid) (shardMask p).

Definition setShards (p : pool) (s : list shard) : pool :=
  NewPool s (links p) (capacity p) (slabsMu p) (inFlight p) (next p) (inUse p) (routines p).
Definition setLinks (p : pool) (l : gmap Z (option Z)) : pool :=
  NewPool (shards p) l (capacity p) (slabsMu p) (inFlight p) (next p) (inUse p) (routines p).
Definition setMutex (p : pool) (m : option nat) : pool :=
  NewPool (shards p) (links p) (capacity p) m (inFlight p) (next p) (inUse p) (routines p).
Definition setRoutine (p : pool) (tid : nat) (at_ : point) : pool :=
  NewPool (shards p) (links p) (capacity p) (slabsMu p) (inFlight p) (next p) (inUse p)
    (<[tid := at_]> (routines p)).
Definition setInUse (p : pool) (objects : list Z) (count : Z) : pool :=
  NewPool (shards p) (links p) (capacity p) (slabsMu p) count (next p) objects (routines p).

(** ** A shard *)

(** [tryTake]: a swap with nil. *)
Definition tryTake (p : pool) (s : Z) : option (pool * option Z) :=
  sh ← zget (shards p) s;
  Some (setShards p (zset (shards p) s (NewShard None (freeHead sh))), slot sh).

(** [tryPut]: a compare-and-swap of nil for the object. *)
Definition tryPut (p : pool) (s object : Z) : option (pool * bool) :=
  sh ← zget (shards p) s;
  match slot sh with
  | Some _ => Some (p, false)
  | None => Some (setShards p (zset (shards p) s (NewShard (Some object) (freeHead sh))), true)
  end.

Definition popFree (p : pool) (s : Z) : option (pool * option Z) :=
  sh ← zget (shards p) s;
  match freeHead sh with
  | None => Some (p, None)
  | Some head =>
      following ← links p !! head;
      Some (setShards p (zset (shards p) s (NewShard (slot sh) following)), Some head)
  end.

Definition pushFree (p : pool) (s object : Z) : option pool :=
  sh ← zget (shards p) s;
  Some (setLinks (setShards p (zset (shards p) s (NewShard (slot sh) (Some object))))
          (<[object := freeHead sh]> (links p))).

(** ** Allocation *)

(** [size] new objects, initialised. *)
Definition allocate (p : pool) (size : Z) : pool * list Z :=
  let objects := seqZ (next p) size in
  (NewPool (shards p) (foldr (λ o l, <[o := initialLink o]> l) (links p) objects) (capacity p)
     (slabsMu p) (inFlight p) (next p + size) (inUse p) (routines p), objects).

Definition addCapacity (p : pool) (size : Z) : pool :=
  NewPool (shards p) (links p) (capacity p + size) (slabsMu p) (inFlight p) (next p) (inUse p) (routines p).

(** ** The operations, one access at a time *)

Definition count (p : pool) (delta : Z) : Z := if metrics poolConfig then inFlight p + delta else inFlight p.

(** The operation ends with an object, or without; [MustGet] then allocates
    one. *)
Definition hand (p : pool) (tid : nat) (object : Z) : pool :=
  setRoutine (setInUse p (object :: inUse p) (count p 1)) tid (Returned (Some object)).

Definition nothing (p : pool) (tid : nat) (must : bool) : pool :=
  if must then
    let '(p, objects) := allocate p 1 in
    match objects with object :: _ => hand p tid object | [] => p end
  else setRoutine p tid (Returned None).

(** One turn of the loop of [steal]. *)
Definition stealAt (p : pool) (tid : nat) (s i : Z) (found : pool → Z → pool) (again over : point) : option pool :=
  if i <? zlen (shards p) then
    '(p, object) ← popFree p (Z.land (wrapU 32 (s + i)) (shardMask p));
    Some (match object with Some object => found p object | None => setRoutine p tid again end)
  else Some (setRoutine p tid over).

Definition unlock (p : pool) : pool := setMutex p None.

Definition advance (p : pool) (tid : nat) : option pool :=
  match routines p !! tid with
  | None | Some (Returned _) => None
  | Some (GetSlot s must) =>
      '(p, object) ← tryTake p s;
      Some (match object with Some object => hand p tid object | None => setRoutine p tid (GetFree s must) end)
  | Some (GetFree s must) =>
      '(p, object) ← popFree p s;
      Some (match object with Some object => hand p tid object | None => setRoutine p tid (GetSteal s 1 must) end)
  | Some (GetSteal s i must) =>
      stealAt p tid s i (λ p object, hand p tid object) (GetSteal s (i + 1) must) (GrowLock s must)
  | Some (GrowLock s must) =>
      if maxCapacity poolConfig =? 0 then Some (nothing p tid must)
      else match slabsMu p with
      | Some _ => None
      | None => Some (setRoutine (setMutex p (Some tid)) tid (GrowSteal s 1 must))
      end
  | Some (GrowSteal s i must) =>
      stealAt p tid s i (λ p object, hand (unlock p) tid object) (GrowSteal s (i + 1) must) (GrowFree s must)
  | Some (GrowFree s must) =>
      '(p, object) ← popFree p s;
      Some (match object with
            | Some object => hand (unlock p) tid object | None => setRoutine p tid (GrowCheck s must) end)
  | Some (GrowCheck s must) =>
      if maxCapacity poolConfig <=? capacity p then Some (nothing (unlock p) tid must)
      else
        let chunk := Z.min (capacity p) (maxCapacity poolConfig - capacity p) in
        if chunk <=? 0 then Some (nothing (unlock p) tid must)
        else
          let '(p, objects) := allocate p chunk in
          Some (setRoutine (addCapacity p chunk) tid (GrowPush s objects 0 must))
  | Some (GrowPush s objects i must) =>
      match objects with
      | [] => Some (setRoutine p tid (GrowPop s must))
      | object :: objects =>
          p ← pushFree p (Z.land (wrapU 32 (s + i)) (shardMask p)) object;
          Some (setRoutine p tid (GrowPush s objects (i + 1) must))
      end
  | Some (GrowPop s must) =>
      '(p, object) ← popFree p s;
      Some (match object with
            | Some object => hand (unlock p) tid object | None => setRoutine p tid (GrowStealAgain s 1 must) end)
  | Some (GrowStealAgain s i must) =>
      if i <? zlen (shards p) then
        stealAt p tid s i (λ p object, hand (unlock p) tid object) (GrowStealAgain s (i + 1) must) (Returned None)
      else Some (nothing (unlock p) tid must)
  | Some (PutSlot s object) =>
      '(p, stored) ← tryPut p s object;
      Some (setRoutine p tid (if stored : bool then Returned None else PutFree s object))
  | Some (PutFree s object) =>
      p ← pushFree p s object;
      Some (setRoutine p tid (Returned None))
  end.

Definition idle (p : pool) (tid : nat) : Prop := ∃ result, routines p !! tid = Some (Returned result).

(** A goroutine begins [Get] or [MustGet] on a processor. *)
Definition beginGet (p : pool) (tid : nat) (pid : Z) (must : bool) : pool :=
  setRoutine p tid (GetSlot (shardOf p pid) must).

(** A goroutine begins [Put] of an object a caller holds. *)
Definition beginPut (p : pool) (tid : nat) (pid object : Z) (others : list Z) : pool :=
  setRoutine (setInUse p others (count p (-1))) tid (PutSlot (shardOf p pid) object).

(** Every interleaving of the goroutines, and of writes by callers to the
    links of the objects they hold. *)
Inductive step : pool → pool → Prop :=
  | step_get p tid pid must : idle p tid → 0 <= pid → step p (beginGet p tid pid must)
  | step_put p tid pid object others :
      idle p tid → 0 <= pid → Permutation (inUse p) (object :: others) → step p (beginPut p tid pid object others)
  | step_run p tid p' : advance p tid = Some p' → step p p'
  | step_write p object link : object ∈ inUse p → step p (setLinks p (<[object := link]> (links p))).

Inductive steps : pool → pool → Prop :=
  | steps_refl p : steps p p
  | steps_more p q r : steps p q → step q r → steps p r.

(** ** Construction and draining *)

(** The loop of [appendSlab] over the objects. *)
Fixpoint distribute (p : pool) (objects : list Z) (preferShard i : Z) : option pool :=
  match objects with
  | [] => Some p
  | object :: objects =>
      p ← pushFree p (Z.land (wrapU 32 (preferShard + i)) (shardMask p)) object;
      distribute p objects preferShard (i + 1)
  end.

(** [appendSlab] by one goroutine, as [bootstrapStorage] runs it. *)
Definition appendSlab (p : pool) (size preferShard : Z) : option pool :=
  let '(p, objects) := allocate p size in distribute (addCapacity p size) objects preferShard 0.

(** [New] in persistent mode, with the goroutines that will use the pool. *)
Definition New (size : Z) (users : nat) : option (PoolError + pool) :=
  match resolvePoolConfig true size poolConfig with
  | inl error => Some (inl error)
  | inr c =>
      let empty := replicate (Z.to_nat (nextPow2 (shardCount c))) (NewShard None None) in
      p ← appendSlab (NewPool empty ∅ 0 None 0 0 [] (replicate users (Returned None))) size 0;
      Some (inr p)
  end.

(** The loops of [Drain]. *)
Fixpoint drainSlots (p : pool) (indexes : list Z) (out : list Z) : option (pool * list Z) :=
  match indexes with
  | [] => Some (p, out)
  | s :: indexes =>
      '(p, object) ← tryTake p s;
      drainSlots p indexes (match object with Some object => out ++ [object] | None => out end)
  end.

Fixpoint drainStack (fuel : nat) (p : pool) (s : Z) (out : list Z) : option (pool * list Z) :=
  match fuel with
  | O => None
  | S fuel =>
      '(p, object) ← popFree p s;
      match object with Some object => drainStack fuel p s (out ++ [object]) | None => Some (p, out) end
  end.

Fixpoint drainStacks (fuel : nat) (p : pool) (indexes : list Z) (out : list Z) : option (pool * list Z) :=
  match indexes with
  | [] => Some (p, out)
  | s :: indexes => '(p, out) ← drainStack fuel p s out; drainStacks fuel p indexes out
  end.

(** A stack holds fewer objects than were ever allocated. *)
Definition Drain (p : pool) : option (pool * list Z) :=
  let indexes := seqZ 0 (zlen (shards p)) in
  '(p, out) ← drainSlots p indexes [];
  drainStacks (S (Z.to_nat (next p))) p indexes out.
End pool.
