(* ===== verification/PoolSound.v ===== *)
(** * The object pool keeps its objects apart

    Over every interleaving of the goroutines each object ever allocated is in
    exactly one place: a slot, one free stack, the hands of a caller or those of
    a goroutine inside an operation. *)

From S2P Require Import Prelude SafeConv Pool.

(** ** Occurrences *)

Fixpoint occurrences (o : Z) (l : list Z) : nat :=
  match l with [] => O | x :: l => ((if decide (o = x) then 1 else 0) + occurrences o l)%nat end.

Fixpoint total {A} (f : A → nat) (l : list A) : nat :=
  match l with [] => O | x :: l => (f x + total f l)%nat end.

Lemma total_zset {A} (f : A → nat) l i x y :
  zget l i = Some x → (total f (zset l i y) + f x = total f l + f y)%nat.
Proof.
  intros Hi. pose proof (zget_Some_range _ _ _ Hi) as Hr. rewrite zget_lookup in Hi by lia.
  unfold zset. rewrite (proj2 (Z.ltb_ge i 0)) by lia. revert Hi. generalize (Z.to_nat i) as n. clear Hr.
  induction l as [|z l IH]; intros [|n] Hn; try done.
  - injection Hn as ->. change (<[0%nat := y]> (x :: l)) with (y :: l). cbn [total]. lia.
  - change (<[S n := y]> (z :: l)) with (z :: <[n := y]> l). cbn [total]. specialize (IH n Hn). lia.
Qed.

Lemma total_insert {A} (f : A → nat) l (i : nat) x y :
  l !! i = Some x → (total f (<[i := y]> l) + f x = total f l + f y)%nat.
Proof.
  intros Hi. pose proof (total_zset f l (Z.of_nat i) x y) as H. rewrite zget_lookup, Nat2Z.id in H by lia.
  specialize (H Hi). unfold zset in H. rewrite (proj2 (Z.ltb_ge _ 0)), Nat2Z.id in H by lia. exact H.
Qed.

Lemma total_lower {A} (f : A → nat) l x : x ∈ l → (f x <= total f l)%nat.
Proof. induction l as [|y l IH]; [by intros ?%elem_of_nil|]. intros [->|Hin]%elem_of_cons; cbn; [lia|]. specialize (IH Hin). lia. Qed.

Lemma occurrences_app o l l' : occurrences o (l ++ l') = (occurrences o l + occurrences o l')%nat.
Proof. induction l as [|x l IH]; [done|]. cbn. lia. Qed.

Lemma occurrences_perm o l l' : Permutation l l' → occurrences o l = occurrences o l'.
Proof. induction 1; cbn; lia. Qed.

Lemma occurrences_pos o l : o ∈ l ↔ (0 < occurrences o l)%nat.
Proof.
  induction l as [|x l IH]; cbn; [split; [by intros ?%elem_of_nil|lia]|]. rewrite elem_of_cons.
  case_decide; [split; [lia|by left]|]. rewrite IH. split; [intros [|]; [done|lia]|right; lia].
Qed.

Lemma occurrences_seqZ o from size :
  occurrences o (seqZ from size) = if (from <=? o) && (o <? from + size) then 1%nat else 0%nat.
Proof.
  destruct (Z.le_gt_cases size 0) as [Hs|Hs].
  { rewrite seqZ_nil by done. cbn [occurrences]. case_if; bool_hyps; lia. }
  remember (Z.to_nat size) as n eqn:Hn. revert from size Hs Hn. induction n as [|n IH]; intros from size Hs Hn; [lia|].
  rewrite seqZ_cons by done. cbn [occurrences].
  assert (Hrest : occurrences o (seqZ (Z.succ from) (Z.pred size)) =
    if (from + 1 <=? o) && (o <? from + size) then 1%nat else 0%nat).
  { destruct (decide (Z.pred size = 0)) as [He|]; [rewrite seqZ_nil by lia; cbn [occurrences]; case_if; bool_hyps; lia|].
    rewrite IH by lia. repeat (case_if; bool_hyps); destruct_or?; bool_hyps; lia. }
  rewrite Hrest. case_decide; repeat (case_if; bool_hyps); destruct_or?; bool_hyps; lia.
Qed.

(** ** Places *)

(** The stack threaded through the links from a head. *)
Fixpoint chain (links : gmap Z (option Z)) (head : option Z) (stack : list Z) : Prop :=
  match stack with
  | [] => head = None
  | o :: stack => head = Some o ∧ ∃ following, links !! o = Some following ∧ chain links following stack
  end.

Lemma chain_frame links head stack o v : o ∉ stack → chain links head stack → chain (<[o := v]> links) head stack.
Proof.
  revert head. induction stack as [|x stack IH]; intros head Ho; cbn; [done|].
  apply not_elem_of_cons in Ho as [Hne Ho]. intros (-> & following & Hl & Hc). split; [done|].
  exists following. rewrite lookup_insert_ne by done. auto.
Qed.

(** The objects a goroutine holds inside an operation. *)
Definition carried (at_ : point) : list Z :=
  match at_ with GrowPush _ objects _ _ => objects | PutSlot _ object | PutFree _ object => [object] | _ => [] end.

Definition slotted (sh : shard) : list Z := match slot sh with Some object => [object] | None => [] end.

(** How often an object is in the slots, the free stacks, the operations under
    way and the hands of callers. *)
Definition places (p : pool) (stacks : list (list Z)) (o : Z) : nat :=
  (total (λ sh, occurrences o (slotted sh)) (shards p) + total (occurrences o) stacks +
   total (λ at_, occurrences o (carried at_)) (routines p) + occurrences o (inUse p))%nat.

Definition allocated (p : pool) (o : Z) : nat := if (0 <=? o) && (o <? next p) then 1%nat else 0%nat.

(** The goroutines between [GrowLock] and the end of [grow]. *)
Definition growing (at_ : point) : bool :=
  match at_ with
  | GrowSteal _ _ _ | GrowFree _ _ | GrowCheck _ _ | GrowPush _ _ _ _ | GrowPop _ _ | GrowStealAgain _ _ _ => true
  | _ => false
  end.

(** The shard an operation works on. *)
Definition shardIn (at_ : point) : option Z :=
  match at_ with
  | Returned _ => None
  | GetSlot s _ | GetFree s _ | GetSteal s _ _ | GrowLock s _ | GrowSteal s _ _ | GrowFree s _ | GrowCheck s _
  | GrowPush s _ _ _ | GrowPop s _ | GrowStealAgain s _ _ | PutSlot s _ | PutFree s _ => Some s
  end.

(** ** Memory *)

(** The slots, the stacks and the objects, [extra] being objects a goroutine
    has taken and not yet put anywhere. *)
Record memory_ok (p : pool) (stacks : list (list Z)) (extra : list Z) : Prop := {
  me_shards : ∃ k : nat, zlen (shards p) = 2 ^ Z.of_nat k ∧ (k <= 32)%nat;
  me_length : length stacks = length (shards p);
  me_chains i sh st : zget (shards p) i = Some sh → zget stacks i = Some st → chain (links p) (freeHead sh) st;
  me_places o : (places p stacks o + occurrences o extra)%nat = allocated p o;
  me_links o : 0 <= o < next p → is_Some (links p !! o);
  me_next : 0 <= next p;
}.

Lemma mask_shard p stacks extra x : memory_ok p stacks extra →
  0 <= Z.land (wrapU 32 x) (shardMask p) < zlen (shards p) ∧
  Z.land (wrapU 32 x) (shardMask p) = x mod zlen (shards p).
Proof.
  intros Hok. destruct (me_shards _ _ _ Hok) as (k & Hk & Hk32). unfold shardMask. rewrite Hk.
  replace (2 ^ Z.of_nat k - 1) with (Z.ones (Z.of_nat k)) by (rewrite Z.ones_equiv; lia).
  rewrite Z.land_ones by lia. unfold wrapU.
  assert (Hdiv : (x mod 2 ^ 32) mod 2 ^ Z.of_nat k = x mod 2 ^ Z.of_nat k).
  { replace 32 with (Z.of_nat k + (32 - Z.of_nat k)) by lia. rewrite Z.pow_add_r by lia.
    rewrite Z.rem_mul_r by (try apply Z.pow_nonzero; lia || (apply Z.pow_pos_nonneg; lia)).
    rewrite Z.mul_comm, Z.mod_add by (apply Z.pow_nonzero; lia). apply Z.mod_mod, Z.pow_nonzero; lia. }
  rewrite Hdiv. split; [|done]. apply Z.mod_pos_bound, Z.pow_pos_nonneg; lia.
Qed.

Lemma shard_at p stacks extra s : memory_ok p stacks extra → 0 <= s < zlen (shards p) →
  ∃ sh st, zget (shards p) s = Some sh ∧ zget stacks s = Some st ∧ chain (links p) (freeHead sh) st.
Proof.
  intros Hok Hs. destruct (zget_is_Some _ _ Hs) as [sh Hsh].
  destruct (zget_is_Some stacks s) as [st Hst]; [by rewrite (me_length _ _ _ Hok)|].
  exists sh, st. split_and!; [done|done|]. by eapply me_chains.
Qed.

(** An object in a stack or outside is in no other stack. *)
Lemma once p stacks extra o : memory_ok p stacks extra →
  (places p stacks o + occurrences o extra <= 1)%nat.
Proof. intros Hok. rewrite (me_places _ _ _ Hok). unfold allocated. case_if; lia. Qed.

(** What the accesses to a shard leave alone. *)
Record same_control (p p' : pool) : Prop := {
  sc_capacity : capacity p' = capacity p;
  sc_mutex : slabsMu p' = slabsMu p;
  sc_flight : inFlight p' = inFlight p;
  sc_inUse : inUse p' = inUse p;
  sc_routines : routines p' = routines p;
  sc_next : next p' = next p;
  sc_length : length (shards p') = length (shards p);
}.

Lemma same_control_refl p : same_control p p.
Proof. by split. Qed.

Lemma places_same p p' stacks stacks' o :
  same_control p p' →
  (total (λ sh, occurrences o (slotted sh)) (shards p') + total (occurrences o) stacks' =
   total (λ sh, occurrences o (slotted sh)) (shards p) + total (occurrences o) stacks)%nat →
  places p' stacks' o = places p stacks o.
Proof. intros Hs Heq. unfold places. rewrite (sc_routines _ _ Hs), (sc_inUse _ _ Hs). lia. Qed.

Lemma tryTake_ok p stacks extra s :
  memory_ok p stacks extra → 0 <= s < zlen (shards p) →
  ∃ p' r, tryTake p s = Some (p', r) ∧ same_control p p' ∧
    memory_ok p' stacks (match r with Some o => o :: extra | None => extra end).
Proof.
  intros Hok Hs. destruct (shard_at _ _ _ _ Hok Hs) as (sh & st & Hsh & Hst & Hc).
  unfold tryTake. rewrite Hsh. cbn [mbind option_bind]. eexists _, _. split; [done|].
  assert (Hsame : same_control p (setShards p (zset (shards p) s (NewShard None (freeHead sh)))))
    by (split; try done; cbn; apply length_zset).
  split; [done|]. destruct Hok as [Hk Hl Hch Hpl Hli Hn]. split; cbn [shards links next setShards]; try done.
  - by rewrite length_zset.
  - by rewrite length_zset.
  - intros i sh' st'. rewrite zget_zset. destruct (Z.eqb_spec s i) as [<-|]; [|by apply Hch].
    case_bool_decide; [|done]. intros [= <-] Hst'. cbn. rewrite Hst in Hst'. by injection Hst' as <-.
  - intros o. specialize (Hpl o). change (allocated _ o) with (allocated p o). rewrite <- Hpl. unfold places.
    cbn [shards routines inUse setShards].
    pose proof (total_zset (λ sh, occurrences o (slotted sh)) _ _ _ (NewShard None (freeHead sh)) Hsh) as Ht.
    cbn in Ht. unfold slotted in Ht at 2. destruct (slot sh); cbn [occurrences] in *; lia.
Qed.

Lemma tryPut_ok p stacks extra s object :
  memory_ok p stacks (object :: extra) → 0 <= s < zlen (shards p) →
  ∃ p' (stored : bool), tryPut p s object = Some (p', stored) ∧ same_control p p' ∧
    memory_ok p' stacks (if stored then extra else object :: extra).
Proof.
  intros Hok Hs. destruct (shard_at _ _ _ _ Hok Hs) as (sh & st & Hsh & Hst & Hc).
  unfold tryPut. rewrite Hsh. cbn [mbind option_bind]. destruct (slot sh) as [x|] eqn:Hslot.
  { exists p, false. split_and!; [done|apply same_control_refl|done]. }
  eexists _, true. split; [done|].
  assert (Hsame : same_control p (setShards p (zset (shards p) s (NewShard (Some object) (freeHead sh)))))
    by (split; try done; cbn; apply length_zset).
  split; [done|]. destruct Hok as [Hk Hl Hch Hpl Hli Hn]. split; cbn [shards links next setShards]; try done.
  - by rewrite length_zset.
  - by rewrite length_zset.
  - intros i sh' st'. rewrite zget_zset. destruct (Z.eqb_spec s i) as [<-|]; [|by apply Hch].
    case_bool_decide; [|done]. intros [= <-] Hst'. cbn. rewrite Hst in Hst'. by injection Hst' as <-.
  - intros o. specialize (Hpl o). cbn [occurrences] in Hpl. change (allocated _ o) with (allocated p o).
    rewrite <- Hpl. unfold places. cbn [shards routines inUse setShards].
    pose proof (total_zset (λ sh, occurrences o (slotted sh)) _ _ _ (NewShard (Some object) (freeHead sh)) Hsh) as Ht.
    cbn in Ht. unfold slotted in Ht at 2. rewrite Hslot in Ht. cbn in Ht. lia.
Qed.

Lemma popFree_ok p stacks extra s st :
  memory_ok p stacks extra → zget stacks s = Some st →
  match st with
  | [] => popFree p s = Some (p, None)
  | o :: rest => ∃ p', popFree p s = Some (p', Some o) ∧ same_control p p' ∧
      memory_ok p' (zset stacks s rest) (o :: extra)
  end.
Proof.
  intros Hok Hst. pose proof (zget_Some_range _ _ _ Hst) as Hs. rewrite (me_length _ _ _ Hok) in Hs.
  destruct (shard_at _ _ _ _ Hok Hs) as (sh & st' & Hsh & Hst' & Hc). rewrite Hst in Hst'. injection Hst' as <-.
  unfold popFree. rewrite Hsh. cbn [mbind option_bind]. destruct st as [|o rest]; cbn [chain] in Hc; [by rewrite Hc|].
  destruct Hc as (-> & following & Hl & Hc). rewrite Hl. cbn [mbind option_bind]. eexists. split; [done|].
  split; [split; try done; cbn; apply length_zset|].
  destruct Hok as [Hk Hle Hch Hpl Hli Hn]. split; cbn [shards links next setShards]; try done.
  - by rewrite length_zset.
  - by rewrite !length_zset.
  - intros i sh' st'. rewrite !zget_zset. destruct (Z.eqb_spec s i) as [<-|]; [|by apply Hch].
    case_bool_decide; [|done]. intros [= <-]. case_bool_decide; [|done]. by intros [= <-].
  - intros o'. specialize (Hpl o'). change (allocated _ o') with (allocated p o'). rewrite <- Hpl.
    unfold places. cbn [shards routines inUse setShards occurrences].
    pose proof (total_zset (λ sh, occurrences o' (slotted sh)) _ _ _ (NewShard (slot sh) following) Hsh) as Ht.
    pose proof (total_zset (occurrences o') _ _ _ rest Hst) as Ht'. cbn [occurrences] in Ht'.
    unfold slotted in *. cbn [slot] in Ht. lia.
Qed.

Lemma pushFree_ok p stacks extra s object :
  memory_ok p stacks (object :: extra) → 0 <= s < zlen (shards p) →
  ∃ p' st, zget stacks s = Some st ∧ pushFree p s object = Some p' ∧ same_control p p' ∧
    memory_ok p' (zset stacks s (object :: st)) extra.
Proof.
  intros Hok Hs. destruct (shard_at _ _ _ _ Hok Hs) as (sh & st & Hsh & Hst & Hc).
  unfold pushFree. rewrite Hsh. cbn [mbind option_bind]. eexists _, st. split; [done|]. split; [done|].
  split; [split; try done; cbn; apply length_zset|].
  assert (Hout : ∀ i st', zget stacks i = Some st' → object ∉ st').
  { intros i st' Hi Hin. pose proof (once _ _ _ object Hok) as Hone. cbn [occurrences] in Hone.
    rewrite decide_True in Hone by done. apply occurrences_pos in Hin.
    pose proof (total_lower (occurrences object) stacks st' (proj2 (elem_of_zget stacks st') (ex_intro _ i Hi))).
    unfold places in Hone. lia. }
  destruct Hok as [Hk Hle Hch Hpl Hli Hn]. split; cbn [shards links next setShards setLinks]; try done.
  - by rewrite length_zset.
  - by rewrite !length_zset.
  - intros i sh' st'. rewrite !zget_zset. destruct (Z.eqb_spec s i) as [<-|].
    + case_bool_decide; [|done]. intros [= <-]. case_bool_decide; [|done]. intros [= <-]. cbn [chain freeHead].
      split; [done|]. exists (freeHead sh). rewrite lookup_insert_eq. split; [done|].
      apply chain_frame; [by eapply Hout|done].
    + intros Hi Hj. apply chain_frame; [by eapply Hout|by apply (Hch i)].
  - intros o'. specialize (Hpl o'). change (allocated _ o') with (allocated p o'). rewrite <- Hpl.
    unfold places. cbn [shards routines inUse setShards setLinks occurrences].
    pose proof (total_zset (λ sh, occurrences o' (slotted sh)) _ _ _ (NewShard (slot sh) (Some object)) Hsh) as Ht.
    pose proof (total_zset (occurrences o') _ _ _ (object :: st) Hst) as Ht'. cbn [occurrences] in Ht'.
    unfold slotted in *. cbn [slot] in Ht. lia.
  - intros o' Ho'. destruct (decide (object = o')) as [<-|]; [by rewrite lookup_insert_eq|].
    rewrite lookup_insert_ne by done. by apply Hli.
Qed.

(** ** Goroutines *)

Section invariant.
Context (poolConfig : config) (initialLink : Z → option Z) (size : Z).

#[local] Notation hand := (hand poolConfig).
#[local] Notation allocate := (allocate initialLink).
#[local] Notation nothing := (nothing poolConfig initialLink).
#[local] Notation advance := (advance poolConfig initialLink).

Record control_ok (p : pool) : Prop := {
  co_capacity : 0 < capacity p <= Z.max size (maxCapacity poolConfig);
  co_grow : maxCapacity poolConfig = 0 → capacity p = size;
  co_mutex tid at_ : routines p !! tid = Some at_ → growing at_ = true → slabsMu p = Some tid;
  co_flight : metrics poolConfig = true → inFlight p = zlen (inUse p);
  co_shard tid at_ s : routines p !! tid = Some at_ → shardIn at_ = Some s → 0 <= s < zlen (shards p);
}.

Definition pool_ok (p : pool) (stacks : list (list Z)) : Prop := memory_ok p stacks [] ∧ control_ok p.

Lemma setRoutine_ok p stacks extra extra' tid at_ at' :
  memory_ok p stacks extra → routines p !! tid = Some at_ →
  (∀ o, occurrences o extra + occurrences o (carried at_) = occurrences o extra' + occurrences o (carried at'))%nat →
  memory_ok (setRoutine p tid at') stacks extra'.
Proof.
  intros [Hk Hl Hch Hpl Hli Hn] Hat Hsame. split; try done. intros o. specialize (Hpl o). specialize (Hsame o).
  change (allocated _ o) with (allocated p o). rewrite <- Hpl. unfold places. cbn [shards routines inUse setRoutine].
  pose proof (total_insert (λ at_, occurrences o (carried at_)) _ _ _ at' Hat) as Ht. cbn beta in Ht. lia.
Qed.

Lemma hand_ok p stacks tid at_ o :
  memory_ok p stacks [o] → routines p !! tid = Some at_ → carried at_ = [] → memory_ok (hand p tid o) stacks [].
Proof.
  intros Hok Hat Hc. apply (setRoutine_ok _ _ [] [] tid at_); [|done|by rewrite Hc].
  destruct Hok as [Hk Hl Hch Hpl Hli Hn]. split; try done. intros o'. specialize (Hpl o').
  change (allocated _ o') with (allocated p o'). rewrite <- Hpl. unfold places.
  cbn [shards routines inUse setInUse occurrences]. lia.
Qed.

Lemma foldr_links objects (l : gmap Z (option Z)) o :
  foldr (λ o l, <[o := initialLink o]> l) l objects !! o =
  if decide (o ∈ objects) then Some (initialLink o) else l !! o.
Proof.
  induction objects as [|x objects IH]; [by rewrite decide_False by apply not_elem_of_nil|]. cbn [foldr].
  destruct (decide (x = o)) as [->|Hne]; [rewrite lookup_insert_eq, decide_True by (by left); done|].
  rewrite lookup_insert_ne, IH by done. destruct (decide (o ∈ objects)).
  - by rewrite decide_True by (by right).
  - rewrite decide_False; [done|]. by intros [->|]%elem_of_cons.
Qed.

Lemma chain_frames links' l head stack :
  (∀ o, o ∈ stack → links' !! o = l !! o) → chain l head stack → chain links' head stack.
Proof.
  revert head. induction stack as [|o stack IH]; intros head Hsame; cbn; [done|].
  intros (-> & following & Hl & Hc). split; [done|]. exists following. split; [by rewrite Hsame by (by left)|].
  apply IH; [|done]. intros o' Ho'. apply Hsame. by right.
Qed.

Lemma allocate_ok p stacks extra n :
  memory_ok p stacks extra → 0 <= n →
  memory_ok (fst (allocate p n)) stacks (seqZ (next p) n ++ extra).
Proof.
  intros Hok Hs. pose proof Hok as [Hk Hl Hch Hpl Hli Hn].
  split; cbn [fst Pool.allocate shards links next]; try done; try lia.
  - intros i sh st Hi Hj. apply (chain_frames _ (links p)); [|by apply (Hch i)]. intros o Ho.
    rewrite foldr_links, decide_False; [done|]. intros Hnew%elem_of_seqZ.
    specialize (Hpl o). unfold allocated in Hpl. rewrite (proj2 (Z.ltb_ge o (next p))), andb_false_r in Hpl by lia.
    pose proof (total_lower (occurrences o) stacks st (proj2 (elem_of_zget stacks st) (ex_intro _ i Hj))).
    apply occurrences_pos in Ho. unfold places in Hpl. lia.
  - intros o. specialize (Hpl o). rewrite occurrences_app, occurrences_seqZ. unfold places, allocated in *.
    cbn [shards routines inUse next Pool.allocate fst].
    destruct (Z.leb_spec 0 o), (Z.ltb_spec o (next p)), (Z.leb_spec (next p) o), (Z.ltb_spec o (next p + n));
      cbn [andb] in *; lia.
  - intros o Ho. rewrite foldr_links. case_decide as Hin; [done|]. rewrite elem_of_seqZ in Hin. apply Hli. lia.
Qed.

Lemma nothing_ok p stacks tid must at_ :
  memory_ok p stacks [] → routines p !! tid = Some at_ → carried at_ = [] → memory_ok (nothing p tid must) stacks [].
Proof.
  intros Hok Hat Hc. unfold Pool.nothing. destruct must.
  - pose proof (allocate_ok _ _ _ 1 Hok ltac:(lia)) as Ha. unfold Pool.allocate in *. cbn [fst] in Ha.
    change (seqZ (next p) 1) with [next p] in *. cbn [app foldr] in *.
    by apply (hand_ok _ _ _ at_).
  - apply (setRoutine_ok _ _ [] [] tid at_); [done|done|by rewrite Hc].
Qed.

(** *** The control of a goroutine moves *)

(** How the mutex of the slabs follows a goroutine that moves. *)
Definition mutex_moves (p p' : pool) (tid : nat) (at_ at' : point) : Prop :=
  (slabsMu p' = slabsMu p ∧ (growing at' = true → slabsMu p = Some tid)) ∨
  (growing at_ = true ∧ slabsMu p' = None ∧ growing at' = false) ∨
  (slabsMu p = None ∧ slabsMu p' = Some tid).

Lemma control_moves p p' tid at_ at' :
  control_ok p → routines p !! tid = Some at_ → routines p' = <[tid := at']> (routines p) →
  length (shards p') = length (shards p) → capacity p' = capacity p →
  (metrics poolConfig = true → inFlight p' = zlen (inUse p')) →
  (shardIn at' = None ∨ shardIn at' = shardIn at_) → mutex_moves p p' tid at_ at' → control_ok p'.
Proof.
  intros [Hc Hg Hm Hf Hs] Hat Hr Hl Hcap Hfl Hsh Hmu. split; rewrite ?Hcap; try done.
  - intros t a. rewrite Hr.
    destruct (decide (t = tid)) as [->|Hne].
    + rewrite list_lookup_insert_eq by (by eapply lookup_lt_Some). intros [= <-] Hgr.
      destruct Hmu as [[-> H1]|[(_ & _ & H1)|[_ H1]]]; [auto|congruence|done].
    + rewrite list_lookup_insert_ne by done. intros Ha Hgr. pose proof (Hm _ _ Ha Hgr) as Ht.
      destruct Hmu as [[-> _]|[(H1 & _ & _)|[H1 _]]]; [done| |congruence].
      pose proof (Hm _ _ Hat H1). congruence.
  - intros t a s. rewrite Hr, Hl. destruct (decide (t = tid)) as [->|Hne].
    + rewrite list_lookup_insert_eq by (by eapply lookup_lt_Some). intros [= <-] Hsa.
      apply (Hs tid at_); [done|]. destruct Hsh; congruence.
    + rewrite list_lookup_insert_ne by done. apply Hs.
Qed.

Lemma same_control_ok p p' : same_control p p' → control_ok p → control_ok p'.
Proof.
  intros [H1 H2 H3 H4 H5 H6 H7] [Hc Hg Hm Hf Hs]. split; rewrite ?H1, ?H2, ?H3, ?H4, ?H7; try done;
    setoid_rewrite H5; done.
Qed.

Lemma allocate_control p n : control_ok p → control_ok (fst (allocate p n)).
Proof. by intros [Hc Hg Hm Hf Hs]. Qed.

Lemma count_ok p delta : control_ok p → metrics poolConfig = true → count poolConfig p delta = zlen (inUse p) + delta.
Proof. intros Hok Hm. unfold count. rewrite Hm, (co_flight p Hok Hm). done. Qed.

(** The mutex once the goroutine leaves [grow]. *)
Definition leave (at_ : point) (p : pool) : pool := if growing at_ then unlock p else p.

Lemma leave_mutex at_ p p' tid at' :
  slabsMu p' = slabsMu (leave at_ p) → growing at' = false → mutex_moves p p' tid at_ at'.
Proof. unfold leave. destruct (growing at_) eqn:Hg; cbn; intros Hs Ha; [right; left|left; rewrite Ha]; done. Qed.

Lemma leave_memory at_ p stacks extra : memory_ok p stacks extra → memory_ok (leave at_ p) stacks extra.
Proof. unfold leave. destruct (growing at_); [|done]. intros [Hk Hl Hch Hpl Hli Hn]. by split. Qed.

Lemma leave_same at_ p : routines (leave at_ p) = routines p ∧ shards (leave at_ p) = shards p ∧
  capacity (leave at_ p) = capacity p ∧ inUse (leave at_ p) = inUse p ∧ inFlight (leave at_ p) = inFlight p.
Proof. unfold leave. by destruct (growing at_). Qed.

Lemma count_leave at_ p delta : count poolConfig (leave at_ p) delta = count poolConfig p delta.
Proof. unfold count, leave. by destruct (growing at_). Qed.

Lemma hand_pool_ok p stacks tid at_ o :
  memory_ok p stacks [o] → control_ok p → routines p !! tid = Some at_ → carried at_ = [] →
  pool_ok (hand (leave at_ p) tid o) stacks.
Proof.
  intros Hm Hc Hat Hca. destruct (leave_same at_ p) as (H1 & H2 & H3 & H4 & H5). split.
  - apply (hand_ok _ _ _ at_); [by apply leave_memory|by rewrite H1|done].
  - apply (control_moves p _ tid at_ (Returned (Some o))); try done; cbn [Pool.hand setRoutine setInUse routines shards capacity inFlight inUse].
    + by rewrite H1.
    + by rewrite H2.
    + intros Hme. rewrite count_leave, count_ok, H4 by done. cbn. lia.
    + by left.
    + by apply leave_mutex.
Qed.

Lemma nothing_pool_ok p stacks tid must at_ :
  memory_ok p stacks [] → control_ok p → routines p !! tid = Some at_ → carried at_ = [] →
  pool_ok (nothing (leave at_ p) tid must) stacks.
Proof.
  intros Hm Hc Hat Hca. destruct (leave_same at_ p) as (H1 & H2 & H3 & H4 & H5). split.
  { apply (nothing_ok _ _ _ _ at_); [by apply leave_memory|by rewrite H1|done]. }
  unfold Pool.nothing. destruct must.
  - change (seqZ (next (leave at_ p)) 1) with [next (leave at_ p)]. unfold Pool.allocate.
    change (seqZ (next (leave at_ p)) 1) with [next (leave at_ p)].
    apply (control_moves p _ tid at_ (Returned (Some (next (leave at_ p))))); try done;
      cbn [Pool.hand setRoutine setInUse routines shards capacity inFlight inUse].
    + by rewrite H1.
    + by rewrite H2.
    + intros Hme. unfold count. rewrite Hme. cbn [inFlight]. rewrite H4, H5, (co_flight p Hc Hme). cbn. lia.
    + by left.
    + by apply leave_mutex.
  - apply (control_moves p _ tid at_ (Returned None)); try done; cbn [setRoutine routines shards capacity inFlight inUse].
    + by rewrite H1.
    + by rewrite H2.
    + intros Hme. rewrite H4, H5. by apply co_flight.
    + by left.
    + by apply leave_mutex.
Qed.

(** A goroutine goes on within its operation, in the same shard and on the same
    side of the mutex. *)
Lemma goes_on p stacks extra tid at_ at' :
  memory_ok p stacks extra → control_ok p → routines p !! tid = Some at_ →
  (∀ o, (occurrences o extra + occurrences o (carried at_) = occurrences o (carried at'))%nat) →
  (shardIn at' = None ∨ shardIn at' = shardIn at_) → (growing at' = true → growing at_ = true) →
  growing at_ = growing at' → pool_ok (setRoutine p tid at') stacks.
Proof.
  intros Hm Hc Hat Hca Hsh Hg Hgg. split.
  - apply (setRoutine_ok p _ extra [] tid at_); [done|done|]. cbn. apply Hca.
  - apply (control_moves p _ tid at_ at'); try done; [exact (co_flight p Hc)|].
    left. split; [done|]. intros Hgr. apply (co_mutex p Hc tid at_); auto.
Qed.

Lemma stealAt_ok p stacks tid s i at_ (found : pool → Z → pool) again over :
  pool_ok p stacks → routines p !! tid = Some at_ → carried at_ = [] →
  (∀ p1 stacks1 o, memory_ok p1 stacks1 [o] → control_ok p1 → routines p1 !! tid = Some at_ →
    pool_ok (found p1 o) stacks1) →
  pool_ok (setRoutine p tid again) stacks → (zlen (shards p) <= i → pool_ok (setRoutine p tid over) stacks) →
  ∃ p' stacks', stealAt p tid s i found again over = Some p' ∧ pool_ok p' stacks'.
Proof.
  intros [Hm Hc] Hat Hca Hf Ha Ho. unfold stealAt. case_if; bool_hyps; [|exists (setRoutine p tid over), stacks; auto].
  destruct (mask_shard p stacks [] (s + i) Hm) as [Hr _].
  destruct (shard_at _ _ _ _ Hm Hr) as (sh & st & Hsh & Hst & _).
  pose proof (popFree_ok _ _ _ _ _ Hm Hst) as Hp. destruct st as [|o rest].
  - rewrite Hp. cbn. by exists (setRoutine p tid again), stacks.
  - destruct Hp as (p1 & -> & Hs1 & Hm1). cbn. eexists _, _. split; [done|].
    apply Hf; [done|by eapply same_control_ok|by rewrite (sc_routines _ _ Hs1)].
Qed.

Ltac still := first [by apply nothing_pool_ok | by (eapply goes_on; eauto)].

Lemma unlock_leave at_ p : growing at_ = true → unlock p = leave at_ p.
Proof. unfold leave. by intros ->. Qed.
Lemma stay_leave at_ p : growing at_ = false → p = leave at_ p.
Proof. unfold leave. by intros ->. Qed.

Lemma pop_or p stacks tid s at_ (found : pool → Z → pool) again :
  pool_ok p stacks → routines p !! tid = Some at_ → carried at_ = [] → shardIn at_ = Some s →
  (∀ p1 stacks1 o, memory_ok p1 stacks1 [o] → control_ok p1 → routines p1 !! tid = Some at_ →
    pool_ok (found p1 o) stacks1) →
  pool_ok (setRoutine p tid again) stacks →
  ∃ p' stacks', ('(p, object) ← popFree p s;
    Some (match object with Some object => found p object | None => setRoutine p tid again end)) = Some p' ∧
    pool_ok p' stacks'.
Proof.
  intros [Hm Hc] Hat Hca Hs Hf Ha. destruct (shard_at _ _ _ _ Hm (co_shard p Hc _ _ _ Hat Hs)) as (sh & st & Hsh & Hst & _).
  pose proof (popFree_ok _ _ _ _ _ Hm Hst) as Hp. destruct st as [|o rest].
  - rewrite Hp. cbn. by exists (setRoutine p tid again), stacks.
  - destruct Hp as (p1 & -> & Hs1 & Hm1). cbn. eexists _, _. split; [done|].
    apply Hf; [done|by eapply same_control_ok|by rewrite (sc_routines _ _ Hs1)].
Qed.

(** A goroutine that stops holding its object. *)
Lemma leave_put p stacks tid at_ o :
  pool_ok p stacks → routines p !! tid = Some at_ → carried at_ = [o] → growing at_ = false →
  memory_ok (setRoutine p tid (Returned None)) stacks [o] ∧ control_ok (setRoutine p tid (Returned None)).
Proof.
  intros [Hm Hc] Hat Hca Hg. split.
  - apply (setRoutine_ok p stacks [] [o] tid at_); [done|done|]. intros o'. rewrite Hca. cbn. lia.
  - apply (control_moves p _ tid at_ (Returned None)); try done; [exact (co_flight p Hc)|by left|by left].
Qed.

(** An idle goroutine begins an operation. *)
Lemma begins p p' tid at_ at' :
  control_ok p → routines p !! tid = Some at_ → routines p' = <[tid := at']> (routines p) →
  shards p' = shards p → capacity p' = capacity p → slabsMu p' = slabsMu p →
  (metrics poolConfig = true → inFlight p' = zlen (inUse p')) →
  growing at' = false → (∀ s, shardIn at' = Some s → 0 <= s < zlen (shards p)) → control_ok p'.
Proof.
  intros [Hc Hg Hm Hf Hs] Hat Hr Hl Hcap Hmu Hfl Hgr Hsh. split; rewrite ?Hcap, ?Hmu, ?Hl; try done.
  - intros t a. rewrite Hr. destruct (decide (t = tid)) as [->|Hne].
    + rewrite list_lookup_insert_eq by (by eapply lookup_lt_Some). intros [= <-]. congruence.
    + rewrite list_lookup_insert_ne by done. apply Hm.
  - intros t a s. rewrite Hr. destruct (decide (t = tid)) as [->|Hne].
    + rewrite list_lookup_insert_eq by (by eapply lookup_lt_Some). intros [= <-]. apply Hsh.
    + rewrite list_lookup_insert_ne by done. apply Hs.
Qed.

(** No access goes wrong: a goroutine in an operation moves, unless it waits
    for the mutex of the slabs, and the pool stays well formed. *)
Lemma advance_ok p stacks tid at_ :
  pool_ok p stacks → routines p !! tid = Some at_ →
  match at_ with
  | Returned _ => advance p tid = None
  | GrowLock _ _ =>
      (advance p tid = None ∧ maxCapacity poolConfig ≠ 0 ∧ is_Some (slabsMu p)) ∨
      ∃ p' stacks', advance p tid = Some p' ∧ pool_ok p' stacks'
  | _ => ∃ p' stacks', advance p tid = Some p' ∧ pool_ok p' stacks'
  end.
Proof.
  intros Hok Hat. pose proof Hok as [Hm Hc]. unfold Pool.advance. rewrite Hat.
  assert (Hgo : ∀ at', carried at_ = [] → carried at' = [] → (shardIn at' = None ∨ shardIn at' = shardIn at_) →
    growing at_ = growing at' → pool_ok (setRoutine p tid at') stacks).
  { intros at' Hca Hca' Hsh Hgg. apply (goes_on p stacks [] tid at_); try done; [by rewrite Hca, Hca'|by rewrite Hgg]. }
  assert (Hhand : ∀ p1 stacks1 o, carried at_ = [] → memory_ok p1 stacks1 [o] → control_ok p1 →
    routines p1 !! tid = Some at_ → pool_ok (hand (leave at_ p1) tid o) stacks1).
  { intros. by apply hand_pool_ok. }
  assert (Hnone : ∀ must, carried at_ = [] → pool_ok (nothing (leave at_ p) tid must) stacks).
  { intros. by apply nothing_pool_ok. }
  destruct at_ as [r|s must|s must|s i must|s must|s i must|s must|s must|s objects i must|s must|s i must|s o|s o];
    cbn [carried shardIn growing] in *; unfold leave in *; cbn [growing] in *.
  - done.
  - destruct (tryTake_ok _ _ _ s Hm) as (p1 & r & -> & Hs1 & Hm1); [by eapply co_shard|]. cbn.
    eexists _, stacks. split; [done|]. destruct r as [o|].
    + apply Hhand; [done|done|by eapply same_control_ok|by rewrite (sc_routines _ _ Hs1)].
    + apply (goes_on p1 stacks [] tid (GetSlot s must)); try done; [by eapply same_control_ok|by rewrite (sc_routines _ _ Hs1)|by right].
  - apply (pop_or p stacks tid s (GetFree s must)); auto.
  - apply (stealAt_ok p stacks tid s i (GetSteal s i must)); auto.
  - case_if; [right; eexists _, stacks; split; [done|]; auto|]. bool_hyps.
    destruct (slabsMu p) as [t|] eqn:Hmu; [left; by split_and!|]. right. eexists _, stacks. split; [done|]. split.
    + apply (setRoutine_ok (setMutex p (Some tid)) _ [] [] tid (GrowLock s must)); try done. by destruct Hm.
    + apply (control_moves p _ tid (GrowLock s must) (GrowSteal s 1 must)); try done; [exact (co_flight p Hc)|by right|].
      by right; right.
  - apply (stealAt_ok p stacks tid s i (GrowSteal s i must)); auto.
  - apply (pop_or p stacks tid s (GrowFree s must)); auto.
  - case_if; [eexists _, stacks; split; [done|]; auto|]. bool_hyps.
    case_if; [eexists _, stacks; split; [done|]; auto|]. bool_hyps.
    set (chunk := Z.min (capacity p) (maxCapacity poolConfig - capacity p)) in *.
    pose proof (allocate_ok p stacks [] chunk Hm ltac:(lia)) as Ha. pose proof (allocate_control p chunk Hc) as Hca.
    unfold Pool.allocate in *. cbn [fst] in *. eexists _, stacks. split; [done|].
    rewrite app_nil_r in Ha. split.
    + apply (setRoutine_ok (addCapacity _ chunk) _ (seqZ (next p) chunk) [] tid (GrowCheck s must)); try done. by destruct Ha.
    + apply (control_moves (addCapacity (fst (allocate p chunk)) chunk) _ tid (GrowCheck s must)
        (GrowPush s (seqZ (next p) chunk) 0 must)); try done; [|exact (co_flight p Hc)|by right|].
      * destruct Hc as [Hc1 Hg1 Hm1 Hf1 Hs1]. split; try done; cbn [addCapacity Pool.allocate fst capacity]; lia.
      * left. split; [done|]. intros _. by apply (co_mutex p Hc tid (GrowCheck s must)).
  - destruct objects as [|o objects]; [eexists _, stacks; split; [done|]; apply (goes_on p stacks [] tid (GrowPush s [] i must)); try done; by right|].
    assert (Hm0 : memory_ok (setRoutine p tid (GrowPush s objects (i + 1) must)) stacks [o]).
    { apply (setRoutine_ok p stacks [] [o] tid (GrowPush s (o :: objects) i must)); [done|done|].
      intros o'. cbn [occurrences carried]. lia. }
    assert (Hc0 : control_ok (setRoutine p tid (GrowPush s objects (i + 1) must))).
    { apply (control_moves p _ tid (GrowPush s (o :: objects) i must) (GrowPush s objects (i + 1) must)); try done;
        [exact (co_flight p Hc)|by right|].
      left. split; [done|]. intros _. by apply (co_mutex p Hc tid (GrowPush s (o :: objects) i must)). }
    destruct (mask_shard p stacks [] (s + i) Hm) as [Hr _].
    destruct (pushFree_ok _ _ _ (Z.land (wrapU 32 (s + i)) (shardMask p)) _ Hm0 Hr) as (p1 & st & Hst & Hp & Hs1 & Hm1).
    unfold pushFree in *. cbn [setRoutine shards links] in Hp.
    destruct (zget (shards p) _) as [sh|]; [|done]. cbn in Hp |- *. injection Hp as <-.
    eexists _, _. split; [done|]. split; [exact Hm1|by eapply same_control_ok].
  - apply (pop_or p stacks tid s (GrowPop s must)); auto.
  - case_if; [|eexists _, stacks; split; [done|]; auto].
    bool_hyps. apply (stealAt_ok p stacks tid s i (GrowStealAgain s i must)); auto. lia.
  - pose proof (co_shard p Hc tid _ s Hat eq_refl) as Hr.
    destruct (leave_put p stacks tid (PutSlot s o) o Hok Hat eq_refl eq_refl) as [Hm0 Hc0].
    destruct (tryPut_ok _ _ _ _ _ Hm0 Hr) as (p1 & stored & Hp & Hs1 & Hm1).
    unfold tryPut in *. cbn [setRoutine shards] in Hp. destruct (zget (shards p) s) as [sh|]; [|done].
    cbn [mbind option_bind] in Hp |- *. destruct (slot sh); injection Hp as <- <-; eexists _, stacks; (split; [done|]).
    + apply (goes_on p stacks [] tid (PutSlot s o)); try done. by right.
    + split; [exact Hm1|by eapply same_control_ok].
  - pose proof (co_shard p Hc tid _ s Hat eq_refl) as Hr.
    destruct (leave_put p stacks tid (PutFree s o) o Hok Hat eq_refl eq_refl) as [Hm0 Hc0].
    destruct (pushFree_ok _ _ _ _ _ Hm0 Hr) as (p1 & st & Hst & Hp & Hs1 & Hm1).
    unfold pushFree in *. cbn [setRoutine shards links] in Hp. destruct (zget (shards p) s) as [sh|]; [|done].
    cbn [mbind option_bind] in Hp |- *. injection Hp as <-. eexists _, _. split; [done|].
    split; [exact Hm1|by eapply same_control_ok].
Qed.

Lemma step_ok p p' stacks : pool_ok p stacks → step poolConfig initialLink p p' → ∃ stacks', pool_ok p' stacks'.
Proof.
  intros Hok Hst. pose proof Hok as [Hm Hc]. destruct Hst as [p tid pid must [r Hat] Hpid|p tid pid object others [r Hat] Hpid Hperm|p tid p' Ha|p object link Hin].
  - exists stacks. destruct (mask_shard p stacks [] pid Hm) as [Hr _]. split.
    + by apply (setRoutine_ok p _ [] [] tid (Returned r)).
    + apply (begins p _ tid (Returned r) (GetSlot (shardOf p pid) must)); try done; [exact (co_flight p Hc)|by intros ? [= <-]].
  - exists stacks. destruct (mask_shard p stacks [] pid Hm) as [Hr _]. split.
    + assert (Hm0 : memory_ok (setInUse p others (count poolConfig p (-1))) stacks [object]).
      { destruct Hm as [Hk Hl Hch Hpl Hli Hn]. split; try done. intros o. specialize (Hpl o).
        change (allocated _ o) with (allocated p o). rewrite <- Hpl. unfold places. cbn [setInUse shards routines inUse].
        rewrite (occurrences_perm o _ _ Hperm). cbn [occurrences]. lia. }
      apply (setRoutine_ok _ _ [object] [] tid (Returned r)); [done|done|]. intros o. cbn. lia.
    + apply (begins p _ tid (Returned r) (PutSlot (shardOf p pid) object)); try done; [|by intros ? [= <-]].
      intros Hme. cbn [beginPut setRoutine setInUse inFlight inUse]. rewrite count_ok by done.
      rewrite Hperm. cbn [length]. lia.
  - destruct (routines p !! tid) as [at_|] eqn:Hat; [|by unfold Pool.advance in Ha; rewrite Hat in Ha].
    pose proof (advance_ok p stacks tid at_ Hok Hat) as Hadv.
    destruct at_; try congruence; (destruct Hadv as [(Hn & _)|(p1 & stacks1 & Hp1 & Hok1)] || destruct Hadv as (p1 & stacks1 & Hp1 & Hok1)); try congruence;
      exists stacks1; congruence.
  - exists stacks. split; [|by destruct Hc as [Hc1 Hg1 Hm1 Hf1 Hs1]].
    destruct Hm as [Hk Hl Hch Hpl Hli Hn]. split; try done; cbn [setLinks links shards next].
    + intros i sh st Hi Hj. apply chain_frame; [|by apply (Hch i)]. intros Hst.
      specialize (Hpl object). apply occurrences_pos in Hst. apply occurrences_pos in Hin.
      pose proof (total_lower (occurrences object) stacks st (proj2 (elem_of_zget stacks st) (ex_intro _ i Hj))).
      unfold places, allocated in Hpl. destruct ((0 <=? object) && (object <? next p)); lia.
    + intros o Ho. destruct (decide (object = o)) as [<-|]; [by rewrite lookup_insert_eq|].
      rewrite lookup_insert_ne by done. by apply Hli.
Qed.

Lemma steps_ok p p' stacks : pool_ok p stacks → steps poolConfig initialLink p p' → ∃ stacks', pool_ok p' stacks'.
Proof.
  intros Hok Hst. revert Hok. induction Hst as [|p q r Hpq IH Hqr]; intros Hok; [by exists stacks|].
  destruct (IH Hok) as [stacks1 Hq]. by eapply step_ok.
Qed.
End invariant.

(** ** Construction *)

Lemma nextPow2_power n : 0 < n <= 2 ^ 32 → ∃ k : nat, nextPow2 n = 2 ^ Z.of_nat k ∧ (k <= 32)%nat.
Proof.
  intros Hn. unfold nextPow2. case_if; bool_hyps; [by exists 0%nat; split; [|lia]|].
  unfold bitsLen. case_if; bool_hyps; [lia|].
  pose proof (Z.log2_nonneg (n - 1)). pose proof (Z.log2_lt_pow2 (n - 1) 32 ltac:(lia)) as [Hl _].
  specialize (Hl ltac:(lia)). exists (Z.to_nat (Z.log2 (n - 1) + 1)). rewrite Z2Nat.id by lia.
  rewrite Z.shiftl_1_l. split; [|lia]. apply wrapS_id; [lia|]. unfold isS.
  pose proof (Z.pow_le_mono_r 2 (Z.log2 (n - 1) + 1) 32 ltac:(lia) ltac:(lia)).
  pose proof (Z.pow_nonneg 2 (Z.log2 (n - 1) + 1)). cbn [Z.sub]. change (2 ^ (64 - 1)) with (2 ^ 63). lia.
Qed.

Lemma distribute_ok p stacks objects prefer i :
  memory_ok p stacks objects →
  ∃ p' stacks', distribute p objects prefer i = Some p' ∧ same_control p p' ∧ memory_ok p' stacks' [].
Proof.
  revert p stacks i. induction objects as [|o objects IH]; intros p stacks i Hok; cbn [distribute].
  { exists p, stacks. split_and!; [done|apply same_control_refl|done]. }
  destruct (mask_shard p stacks _ (prefer + i) Hok) as [Hr _].
  destruct (pushFree_ok _ _ _ _ _ Hok Hr) as (p1 & st & Hst & -> & Hs1 & Hm1). cbn [mbind option_bind].
  destruct (IH _ _ (i + 1) Hm1) as (p' & stacks' & Hd & Hs2 & Hm2). exists p', stacks'. split_and!; [done| |done].
  destruct Hs1 as [H1 H2 H3 H4 H5 H6 H7], Hs2 as [G1 G2 G3 G4 G5 G6 G7]. split; congruence.
Qed.

Lemma zlen_replicate {A} (n : Z) (x : A) : 0 <= n → zlen (replicate (Z.to_nat n) x) = n.
Proof. intros Hn. rewrite length_replicate. lia. Qed.

Lemma total_replicate {A} (f : A → nat) n x : total f (replicate n x) = (n * f x)%nat.
Proof. induction n as [|n IH]; [done|]. cbn [replicate total]. rewrite IH. lia. Qed.

Lemma addCapacity_ok p stacks extra n : memory_ok p stacks extra → memory_ok (addCapacity p n) stacks extra.
Proof. by intros [Hk Hl Hch Hpl Hli Hn]. Qed.

Section construction.
Context (poolConfig : config) (initialLink : Z → option Z).

Lemma New_ok size users p :
  shardCount poolConfig <= 2 ^ 32 → New poolConfig initialLink size users = Some (inr p) →
  ∃ stacks, pool_ok poolConfig size p stacks.
Proof.
  intros Hsc. unfold New, resolvePoolConfig. cbn [negb].
  destruct (size <=? 0) eqn:Hs; [done|]. destruct (shardCount poolConfig <=? 0) eqn:Hc; [done|].
  destruct ((0 <? maxCapacity poolConfig) && _) eqn:Hg; [done|]. bool_hyps.
  destruct (nextPow2_power (shardCount poolConfig)) as (k & Hk & Hk32); [lia|]. rewrite Hk.
  set (empty := NewPool _ _ _ _ _ _ _ _). unfold appendSlab.
  assert (Hm : memory_ok empty (replicate (Z.to_nat (2 ^ Z.of_nat k)) []) []).
  { split; cbn [shards routines inUse next links empty].
    - exists k. split; [|done]. by apply zlen_replicate, Z.pow_nonneg.
    - by rewrite !length_replicate.
    - intros i sh st Hi Hj. apply (ex_intro (λ i, zget _ i = Some _)), elem_of_zget, elem_of_replicate in Hi as [-> _].
      apply (ex_intro (λ i, zget _ i = Some _)), elem_of_zget, elem_of_replicate in Hj as [-> _]. done.
    - intros o. unfold places, allocated. subst empty. cbn [shards routines inUse next occurrences].
      rewrite !(total_replicate (λ sh, occurrences o (slotted sh))), !(total_replicate (occurrences o)),
        !(total_replicate (λ at_, occurrences o (carried at_))).
      cbn [slotted slot carried occurrences]. rewrite !Nat.mul_0_r.
      destruct (Z.leb_spec 0 o), (Z.ltb_spec o 0); cbn [andb Nat.add]; lia.
    - lia.
    - done. }
  pose proof (allocate_ok initialLink _ _ _ size Hm ltac:(lia)) as Ha. rewrite app_nil_r in Ha.
  unfold allocate in *. cbn [fst] in Ha. cbn [next empty] in *.
  destruct (distribute_ok (addCapacity _ size) _ _ 0 0 (addCapacity_ok _ _ _ _ Ha)) as (p' & stacks & Hd & Hs1 & Hm1).
  cbn [addCapacity] in Hd |- *. rewrite Hd. cbn. intros [= <-]. exists stacks. split; [done|].
  destruct Hs1 as [H1 H2 H3 H4 H5 H6 H7]. cbn in H1, H2, H3, H4, H5, H6.
  split; rewrite ?H1, ?H2, ?H3, ?H4, ?H5; try done; try lia.
  - intros t a Hat. apply lookup_replicate in Hat as [-> _]. done.
  - intros t a s Hat. apply lookup_replicate in Hat as [-> _]. done.
Qed.
End construction.
