(* ===== verification/PoolRun.v ===== *)
(** * A goroutine alone in the object pool

    Run without interruption a [Get] ends, and it ends without an object
    exactly when its own slot is empty, every free stack is empty and the pool
    may not grow: the slots of the other shards are never looked at. *)

From S2P Require Import Prelude SafeConv Pool PoolSound.

Section alone.
Context (poolConfig : config) (initialLink : Z → option Z) (size : Z).

#[local] Notation advance := (advance poolConfig initialLink).
#[local] Notation pool_ok := (pool_ok poolConfig size).

(** The accesses of one goroutine, until it has nothing left to do. *)
Fixpoint alone (fuel : nat) (p : pool) (tid : nat) : pool :=
  match fuel with
  | O => p
  | S fuel => match advance p tid with Some p' => alone fuel p' tid | None => p end
  end.

(** The goroutine returns within [n] accesses, whatever the fuel beyond. *)
Definition ends (p : pool) (tid : nat) (n : Z) (r : option Z) : Prop :=
  ∀ fuel, n <= Z.of_nat fuel → routines (alone fuel p tid) !! tid = Some (Returned r).

Lemma ends_done p tid n r : routines p !! tid = Some (Returned r) → ends p tid n r.
Proof. intros Hr [|fuel] _; cbn; [done|]. unfold Pool.advance. by rewrite Hr. Qed.

Lemma ends_step p tid p' n m r : advance p tid = Some p' → ends p' tid m r → m < n → 0 <= m → ends p tid n r.
Proof. intros Ha He Hm Hp [|fuel] Hf; [lia|]. cbn. rewrite Ha. apply He. lia. Qed.

Lemma ends_next p tid p' m r : advance p tid = Some p' → ends p' tid m r → 0 <= m → ends p tid (m + 1) r.
Proof. intros Ha He Hm. apply (ends_step _ _ _ _ _ _ Ha He); lia. Qed.

Lemma ends_more p tid m n r : ends p tid m r → m <= n → ends p tid n r.
Proof. intros He Hm fuel Hf. apply He. lia. Qed.

(** The stack of a shard is empty. *)
Definition emptyAt (p : pool) (s : Z) : bool :=
  match zget (shards p) s with Some sh => bool_decide (freeHead sh = None) | None => true end.

Definition noneFree (p : pool) : bool := forallb (λ sh, bool_decide (freeHead sh = None)) (shards p).

Lemma noneFree_at p s : noneFree p = true → emptyAt p s = true.
Proof.
  unfold noneFree, emptyAt. intros Hn. destruct (zget (shards p) s) as [sh|] eqn:Hs; [|done].
  assert (Hin : sh ∈ shards p) by (apply elem_of_zget; eauto). rewrite forallb_forall in Hn.
  apply Hn. by apply list_elem_of_In.
Qed.

Lemma pop_total p stacks s :
  pool_ok p stacks → 0 <= s < zlen (shards p) →
  (emptyAt p s = true ∧ ∀ p', shards p' = shards p → popFree p' s = Some (p', None)) ∨
  (emptyAt p s = false ∧ ∀ p', shards p' = shards p → links p' = links p →
    ∃ q o, popFree p' s = Some (q, Some o) ∧ routines q = routines p' ∧ slabsMu q = slabsMu p').
Proof.
  intros [Hm _] Hs. destruct (shard_at _ _ _ _ Hm Hs) as (sh & st & Hsh & Hst & Hc). unfold emptyAt. rewrite Hsh.
  destruct st as [|o st]; cbn [chain] in Hc.
  - left. split; [by rewrite Hc|]. intros p' Hp. unfold popFree. rewrite Hp, Hsh. cbn. by rewrite Hc.
  - right. destruct Hc as (Hh & following & Hl & _). split; [by rewrite Hh|]. intros p' Hp Hl'.
    unfold popFree. rewrite Hp, Hsh. cbn. rewrite Hh, Hl', Hl. cbn. eexists _, _. done.
Qed.

Lemma own_shard p stacks s : pool_ok p stacks → 0 <= s < zlen (shards p) →
  Z.land (wrapU 32 (s + 0)) (shardMask p) = s.
Proof.
  intros [Hm _] Hs. destruct (mask_shard p stacks [] (s + 0) Hm) as [_ ->]. rewrite Z.add_0_r. by apply Z.mod_small.
Qed.

(** Some shard is reached by the walk of [steal]. *)
Lemma walk_reaches p stacks s t : pool_ok p stacks → 0 <= s < zlen (shards p) → 0 <= t < zlen (shards p) →
  s ≠ t → ∃ j, 1 <= j < zlen (shards p) ∧ Z.land (wrapU 32 (s + j)) (shardMask p) = t.
Proof.
  intros [Hm _] Hs Ht Hne. exists ((t - s) mod zlen (shards p)).
  pose proof (Z.mod_pos_bound (t - s) (zlen (shards p)) ltac:(lia)).
  destruct (mask_shard p stacks [] (s + (t - s) mod zlen (shards p)) Hm) as [_ ->].
  rewrite Z.add_mod_idemp_r by lia. replace (s + (t - s)) with t by lia. rewrite (Z.mod_small t) by lia. split; [|done].
  enough ((t - s) mod zlen (shards p) <> 0) by lia. intros H0. apply Hne.
  apply Z.mod_divide in H0 as [k Hk]; [|lia].
  destruct (Z.lt_trichotomy k 0) as [|[->|]]; nia.
Qed.

Lemma free_somewhere p stacks s : pool_ok p stacks → 0 <= s < zlen (shards p) → noneFree p = false →
  emptyAt p s = true →
  ∃ j, 1 <= j < zlen (shards p) ∧ emptyAt p (Z.land (wrapU 32 (s + j)) (shardMask p)) = false.
Proof.
  intros Hok Hs Hn He. unfold noneFree in Hn. apply not_true_iff_false in Hn. rewrite forallb_forall in Hn.
  destruct (list_find (λ sh, freeHead sh ≠ None) (shards p)) as [[i sh]|] eqn:Hf.
  - apply list_find_Some in Hf as (Hi & Hne & _). pose proof (lookup_lt_Some _ _ _ Hi).
    destruct (walk_reaches p stacks s (Z.of_nat i) Hok Hs) as (j & Hj & Hland); [lia| |].
    + intros ->. unfold emptyAt in He. rewrite zget_lookup, Nat2Z.id, Hi in He by lia. by apply bool_decide_eq_true in He.
    + exists j. split; [done|]. unfold emptyAt. rewrite Hland, zget_lookup, Nat2Z.id, Hi by lia.
      by apply bool_decide_eq_false.
  - apply list_find_None in Hf. destruct Hn. intros sh Hin%list_elem_of_In. apply bool_decide_eq_true.
    rewrite Forall_forall in Hf. specialize (Hf _ Hin). by destruct (decide (freeHead sh = None)) as [|Hx].
Qed.

Lemma setRoutine_twice p tid a b : setRoutine (setRoutine p tid a) tid b = setRoutine p tid b.
Proof. unfold setRoutine. cbn. by rewrite list_insert_insert_eq. Qed.

Lemma setRoutine_at p tid a b : routines p !! tid = Some a → routines (setRoutine p tid b) !! tid = Some b.
Proof. intros Ha. cbn. apply list_lookup_insert_eq. by eapply lookup_lt_Some. Qed.

Lemma hand_ends p tid a o n : routines p !! tid = Some a → ends (hand poolConfig p tid o) tid n (Some o).
Proof. intros Ha. apply ends_done. cbn. apply list_lookup_insert_eq. by eapply lookup_lt_Some. Qed.

Lemma nothing_ends p tid a must n : routines p !! tid = Some a →
  ∃ r, ends (nothing poolConfig initialLink p tid must) tid n r ∧ (r = None ↔ must = false).
Proof.
  intros Ha. unfold nothing. destruct must.
  - change (seqZ (next p) 1) with [next p]. unfold allocate. change (seqZ (next p) 1) with [next p].
    exists (Some (next p)). split; [by eapply hand_ends|done].
  - exists None. split; [|done]. apply ends_done. by eapply setRoutine_at.
Qed.

(** The walk of [steal] from turn [i]: it ends the operation with an object, or
    finds every stack it looks at empty and goes over to the next access. *)
Lemma walk_ends p base stacks tid s i n (at_ : Z → point) (found : pool → Z → pool) over a :
  pool_ok base stacks → shards p = shards base → links p = links base → routines p !! tid = Some a →
  (∀ j, advance (setRoutine p tid (at_ j)) tid =
    stealAt (setRoutine p tid (at_ j)) tid s j found (at_ (j + 1)) over) →
  (∀ q o b m, routines q !! tid = Some b → ends (found q o) tid m (Some o)) →
  1 <= i → Z.of_nat n = Z.max 0 (zlen (shards base) - i) →
  ((∃ j, i <= j < zlen (shards base) ∧ emptyAt base (Z.land (wrapU 32 (s + j)) (shardMask base)) = false) ∧
   ∃ o, ends (setRoutine p tid (at_ i)) tid (Z.of_nat n + 1) (Some o)) ∨
  ((∀ j, i <= j < zlen (shards base) → emptyAt base (Z.land (wrapU 32 (s + j)) (shardMask base)) = true) ∧
   ∀ m r, 0 <= m → ends (setRoutine p tid over) tid m r → ends (setRoutine p tid (at_ i)) tid (Z.of_nat n + 1 + m) r).
Proof.
  intros Hok Hsh Hli Ha Hadv Hfound. revert i. induction n as [|n IH]; intros i Hi Hn.
  - right. split; [lia|]. intros m r Hm He. apply (ends_step _ _ (setRoutine p tid over) _ m); [|done|lia|done].
    rewrite Hadv. unfold stealAt. cbn [setRoutine shards]. rewrite Hsh, (proj2 (Z.ltb_ge i _)) by lia.
    by rewrite setRoutine_twice.
  - destruct (mask_shard base stacks [] (s + i) (proj1 Hok)) as [Hr _].
    assert (Hadv1 : ∀ r, popFree (setRoutine p tid (at_ i)) (Z.land (wrapU 32 (s + i)) (shardMask base)) = Some r →
      advance (setRoutine p tid (at_ i)) tid =
      Some (match r.2 with Some o => found r.1 o | None => setRoutine r.1 tid (at_ (i + 1)) end)).
    { intros [q o] Hp. rewrite Hadv. unfold stealAt, shardMask in *. cbn [setRoutine shards]. rewrite Hsh.
      rewrite (proj2 (Z.ltb_lt i _)) by lia. rewrite Hp. done. }
    destruct (pop_total base stacks _ Hok Hr) as [[He Hp]|[He Hp]].
    + specialize (Hadv1 _ (Hp (setRoutine p tid (at_ i)) Hsh)). cbn in Hadv1. rewrite setRoutine_twice in Hadv1.
      destruct (IH (i + 1)) as [[[j [Hj Hje]] [o Ho]]|[Hall Hgo]]; [lia|lia| |].
      * left. split; [exists j; split; [lia|done]|]. exists o. apply (ends_step _ _ _ _ _ _ Hadv1 Ho); lia.
      * right. split.
        -- intros j Hj. destruct (decide (j = i)) as [->|]; [done|]. apply Hall. lia.
        -- intros m r Hm Hov. apply (ends_step _ _ _ _ _ _ Hadv1 (Hgo m r Hm Hov)); lia.
    + destruct (Hp (setRoutine p tid (at_ i)) Hsh Hli) as (q & o & Hq & Hrq & _).
      left. split; [exists i; split; [lia|done]|]. exists o. apply (ends_step _ _ _ _ 0 _ (Hadv1 _ Hq)); [|lia|lia]. cbn [fst snd].
      apply (Hfound _ _ (at_ i)). rewrite Hrq. by eapply setRoutine_at.
Qed.

Lemma pop_ends p stacks tid s must :
  pool_ok p stacks → routines p !! tid = Some (GrowPop s must) → emptyAt p s = false →
  ∃ o, ends p tid 1 (Some o).
Proof.
  intros Hok Ha He. pose proof (co_shard _ _ p (proj2 Hok) _ _ s Ha eq_refl) as Hs.
  destruct (pop_total p stacks s Hok Hs) as [[He' _]|[_ Hp]]; [congruence|].
  destruct (Hp p eq_refl eq_refl) as (q & o & Hq & Hr & _). exists o.
  apply (ends_step _ _ (hand poolConfig (unlock q) tid o) _ 0); [|eapply hand_ends|lia|lia].
  - unfold Pool.advance. rewrite Ha, Hq. done.
  - cbn. rewrite Hr. exact Ha.
Qed.

(** The pushes of [grow] leave an object on the stack of the goroutine. *)
Lemma push_ends objects p stacks tid s i must :
  pool_ok p stacks → routines p !! tid = Some (GrowPush s objects i must) →
  emptyAt p s = false ∨ (i = 0 ∧ objects ≠ []) →
  ∃ o, ends p tid (zlen objects + 2) (Some o).
Proof.
  revert p stacks i. induction objects as [|x objects IH]; intros p stacks i Hok Ha Hne.
  - destruct Hne as [Hne|[_ []]]; [|done].
    destruct (pop_ends (setRoutine p tid (GrowPop s must)) stacks tid s must) as [o Ho].
    + destruct Hok as [Hm Hc]. apply (goes_on _ _ p stacks [] tid (GrowPush s [] i must)); try done. by right.
    + by eapply setRoutine_at.
    + done.
    + exists o. apply (ends_step _ _ _ _ _ _ ltac:(unfold Pool.advance; rewrite Ha; done) Ho); cbn; lia.
  - pose proof (advance_ok poolConfig initialLink size p stacks tid _ Hok Ha) as (p' & stacks' & Hp' & Hok').
    pose proof Hp' as Hadv. unfold Pool.advance in Hadv. rewrite Ha in Hadv.
    destruct (pushFree p _ x) as [p1|] eqn:Hpush; [|done]. injection Hadv as <-.
    unfold pushFree in Hpush. set (t := Z.land (wrapU 32 (s + i)) (shardMask p)) in *.
    destruct (zget (shards p) t) as [sh|] eqn:Hsh; [|done]. injection Hpush as <-.
    destruct (IH _ stacks' (i + 1) Hok') as [o Ho].
    + cbn. apply list_lookup_insert_eq. by eapply lookup_lt_Some.
    + left. unfold emptyAt. cbn [setRoutine setLinks setShards shards]. rewrite zget_zset.
      pose proof (zget_Some_range _ _ _ Hsh). destruct (Z.eqb_spec t s) as [Hts|Hts].
      * rewrite bool_decide_eq_true_2 by (rewrite <- Hts; lia). by apply bool_decide_eq_false.
      * destruct Hne as [Hne|[-> _]]; [exact Hne|]. subst t. exfalso. apply Hts, (own_shard p stacks); [done|].
        by eapply (co_shard _ _ p (proj2 Hok) _ _ s Ha).
    + exists o. apply (ends_step _ _ _ _ _ _ Hp' Ho); cbn [length]; lia.
Qed.

(** Under the mutex, with every stack empty. *)
Lemma grow_ends p stacks tid s must a :
  pool_ok p stacks → routines p !! tid = Some a → carried a = [] → growing a = false → 0 <= s < zlen (shards p) →
  slabsMu p = None → noneFree p = true → maxCapacity poolConfig ≠ 0 →
  ∃ r, ends (setRoutine (setMutex p (Some tid)) tid (GrowCheck s must)) tid (capacity p + 3) r ∧
    (r = None ↔ must = false ∧ maxCapacity poolConfig <= capacity p).
Proof.
  intros Hok Ha Hca Hg Hs Hmu Hn Hmax. set (q := setRoutine _ _ _).
  assert (Hq : routines q !! tid = Some (GrowCheck s must)) by (unfold q; cbn; apply list_lookup_insert_eq; by eapply lookup_lt_Some).
  assert (Hokq : pool_ok q stacks).
  { destruct Hok as [Hm Hc]. split.
    - apply (setRoutine_ok (setMutex p (Some tid)) _ [] [] tid a); [by destruct Hm|done|by rewrite Hca].
    - destruct Hc as [Hc1 Hg1 Hm1 Hf1 Hs1]. split; try done; unfold q; cbn [setRoutine setMutex routines slabsMu shards].
      + intros t b. destruct (decide (t = tid)) as [->|Hne]; [done|]. rewrite list_lookup_insert_ne by done.
        intros Hb Hgb. pose proof (Hm1 _ _ Hb Hgb). congruence.
      + intros t b s'. destruct (decide (t = tid)) as [->|Hne].
        * rewrite list_lookup_insert_eq by (by eapply lookup_lt_Some). intros [= <-]. by intros [= <-].
        * rewrite list_lookup_insert_ne by done. apply Hs1. }
  pose proof (co_capacity _ _ p (proj2 Hok)) as [Hpos _].
  destruct (advance_ok poolConfig initialLink size q stacks tid _ Hokq Hq) as (q' & stacks' & Hq' & Hok').
  pose proof Hq' as Hadv. unfold Pool.advance in Hadv. rewrite Hq in Hadv. change (capacity q) with (capacity p) in Hadv.
  destruct (Z.leb_spec (maxCapacity poolConfig) (capacity p)) as [Hle|Hlt].
  - injection Hadv as <-. destruct (nothing_ends (unlock q) tid _ must 0 Hq) as (r & Hr & Hiff).
    exists r. split; [by apply (ends_step _ _ _ _ 0 _ Hq'); [|lia|lia]|]. rewrite Hiff. tauto.
  - rewrite (proj2 (Z.leb_gt _ 0)) in Hadv by lia. unfold allocate in Hadv. injection Hadv as <-.
    set (chunk := Z.min _ _) in *.
    edestruct (push_ends (seqZ (next q) chunk)) as [o Ho]; [exact Hok'| | |].
    + cbn. rewrite list_lookup_insert_eq; [done|]. rewrite length_insert. by eapply lookup_lt_Some.
    + right. split; [done|]. intros Hnil%(f_equal length). rewrite length_seqZ in Hnil. cbn in Hnil. lia.
    + exists (Some o). split; [|split; [done|lia]]. apply (ends_step _ _ _ _ _ _ Hq' Ho); rewrite length_seqZ; lia.
Qed.

Definition ownSlot (p : pool) (s : Z) : option Z := sh ← zget (shards p) s; slot sh.

(** From the mutex of [grow] on, with every stack empty. *)
Lemma lock_ends p stacks tid s must a :
  pool_ok p stacks → routines p !! tid = Some a → carried a = [] → growing a = false → 0 <= s < zlen (shards p) →
  slabsMu p = None → noneFree p = true →
  ∃ r, ends (setRoutine p tid (GrowLock s must)) tid (zlen (shards p) + capacity p + 6) r ∧
    (r = None ↔ must = false ∧ (maxCapacity poolConfig = 0 ∨ maxCapacity poolConfig <= capacity p)).
Proof.
  intros Hok Ha Hca Hg Hs Hmu Hn. pose proof (co_capacity _ _ p (proj2 Hok)) as [Hpos _].
  assert (Hat : ∀ q b, routines q = routines p → routines (setRoutine q tid b) !! tid = Some b).
  { intros q b Hq. cbn. rewrite Hq. apply list_lookup_insert_eq. by eapply lookup_lt_Some. }
  destruct (Z.eq_dec (maxCapacity poolConfig) 0) as [H0|H0].
  { destruct (nothing_ends (setRoutine p tid (GrowLock s must)) tid _ must 0 (Hat _ _ eq_refl)) as (r & Hr & Hiff).
    exists r. split; [|rewrite Hiff; tauto].
    refine (ends_step _ _ _ _ 0 _ _ Hr _ _); [|lia|lia]. unfold Pool.advance. rewrite Hat, (proj2 (Z.eqb_eq _ _)) by done. done. }
  set (m := setMutex p (Some tid)).
  assert (Hlock : advance (setRoutine p tid (GrowLock s must)) tid = Some (setRoutine m tid (GrowSteal s 1 must))).
  { unfold Pool.advance. rewrite Hat, (proj2 (Z.eqb_neq _ _)) by done. cbn [setRoutine slabsMu]. rewrite Hmu.
    unfold m, setMutex, setRoutine. cbn. by rewrite list_insert_insert_eq. }
  destruct (walk_ends m p stacks tid s 1 (Z.to_nat (zlen (shards p) - 1)) (λ j, GrowSteal s j must)
    (λ p object, hand poolConfig (unlock p) tid object) (GrowFree s must) a Hok eq_refl eq_refl Ha) as [[(j & Hj & Hje) _]|[_ Hgo]]; try lia.
  { intros j. unfold Pool.advance. by rewrite Hat. }
  { intros q o b k Hb. by eapply hand_ends. }
  { by rewrite noneFree_at in Hje. }
  destruct (pop_total p stacks s Hok Hs) as [[_ Hp]|[He' _]]; [|by rewrite noneFree_at in He'].
  assert (Hfree : advance (setRoutine m tid (GrowFree s must)) tid = Some (setRoutine m tid (GrowCheck s must))).
  { unfold Pool.advance. rewrite Hat by done. rewrite Hp by done. cbn [mbind option_bind]. by rewrite setRoutine_twice. }
  destruct (grow_ends p stacks tid s must a) as (r & Hr & Hiff); try done.
  exists r. split; [|rewrite Hiff; tauto].
  refine (ends_step _ _ _ _ _ _ Hlock (Hgo (capacity p + 4) r _ _) _ _); try lia.
  refine (ends_step _ _ _ _ _ _ Hfree Hr _ _); lia.
Qed.

Lemma get_ends p stacks tid s must a :
  pool_ok p stacks → routines p !! tid = Some a → carried a = [] → growing a = false → 0 <= s < zlen (shards p) →
  slabsMu p = None →
  ∃ r, ends (setRoutine p tid (GetSlot s must)) tid (2 * zlen (shards p) + capacity p + 10) r ∧
    (r = None ↔ must = false ∧ ownSlot p s = None ∧ noneFree p = true ∧
      (maxCapacity poolConfig = 0 ∨ maxCapacity poolConfig <= capacity p)).
Proof.
  intros Hok Ha Hca Hg Hs Hmu. pose proof (co_capacity _ _ p (proj2 Hok)) as [Hpos _].
  assert (Hat : ∀ q b, routines q = routines p → routines (setRoutine q tid b) !! tid = Some b).
  { intros q b Hq. cbn. rewrite Hq. apply list_lookup_insert_eq. by eapply lookup_lt_Some. }
  destruct (zget_is_Some _ _ Hs) as [sh Hsh]. unfold ownSlot. rewrite Hsh. cbn [mbind option_bind].
  assert (Htake : advance (setRoutine p tid (GetSlot s must)) tid =
    Some (match slot sh with
          | Some o => hand poolConfig (setShards (setRoutine p tid (GetSlot s must)) (zset (shards p) s (NewShard None (freeHead sh)))) tid o
          | None => setRoutine p tid (GetFree s must) end)).
  { unfold Pool.advance. rewrite Hat by done. unfold tryTake. cbn [setRoutine shards]. rewrite Hsh. cbn [mbind option_bind].
    destruct sh as [[o|] fh]; [done|]. cbn [slot freeHead]. f_equal.
    unfold setShards, setRoutine. cbn. rewrite list_insert_insert_eq. f_equal. by apply zset_id. }
  destruct (slot sh) as [o|].
  { exists (Some o). split; [|by split; [|intros (_ & ? & _)]]. refine (ends_step _ _ _ _ 0 _ Htake _ _ _); [|lia|lia].
    apply (hand_ends _ _ (GetSlot s must)). by apply (Hat p). }
  destruct (pop_total p stacks s Hok Hs) as [[He Hp]|[He Hp]].
  2:{ destruct (Hp (setRoutine p tid (GetFree s must)) eq_refl eq_refl) as (q & o & Hq & Hrq & _).
      exists (Some o). split; [|split; [done|intros (_ & _ & Hn & _); by rewrite noneFree_at in He]].
      refine (ends_step _ _ _ _ 1 _ Htake _ _ _); [|lia|lia].
      refine (ends_step _ _ (hand poolConfig q tid o) _ 0 _ _ _ _ _); [| |lia|lia].
      - unfold Pool.advance. rewrite Hat by done. by rewrite Hq.
      - apply (hand_ends _ _ (GetFree s must)). rewrite Hrq. by apply (Hat p). }
  assert (Hfree : advance (setRoutine p tid (GetFree s must)) tid = Some (setRoutine p tid (GetSteal s 1 must))).
  { unfold Pool.advance. rewrite Hat by done. rewrite Hp by done. cbn [mbind option_bind]. by rewrite setRoutine_twice. }
  destruct (walk_ends p p stacks tid s 1 (Z.to_nat (zlen (shards p) - 1)) (λ j, GetSteal s j must)
    (λ p object, hand poolConfig p tid object) (GrowLock s must) a Hok eq_refl eq_refl Ha)
    as [[(j & Hj & Hje) [o Ho]]|[Hall Hgo]]; try lia.
  { intros j. unfold Pool.advance. by rewrite Hat. }
  { intros q o b k Hb. by eapply hand_ends. }
  { exists (Some o). split; [|split; [done|intros (_ & _ & Hn & _); by rewrite noneFree_at in Hje]].
    refine (ends_more _ _ _ _ _ (ends_next _ _ _ _ _ Htake (ends_next _ _ _ _ _ Hfree Ho _) _) _); lia. }
  assert (Hn : noneFree p = true).
  { apply not_false_iff_true. intros Hn. destruct (free_somewhere p stacks s Hok Hs Hn He) as (j & Hj & Hje).
    rewrite Hall in Hje by done. done. }
  destruct (lock_ends p stacks tid s must a) as (r & Hr & Hiff); try done.
  exists r. split; [|rewrite Hiff; tauto].
  refine (ends_more _ _ _ _ _ (ends_next _ _ _ _ _ Htake (ends_next _ _ _ _ _ Hfree (Hgo _ _ _ Hr) _) _) _); lia.
Qed.
End alone.

(** ** Whatever happened before *)

(** C23: On a pool [New] built, after any interleaving of gets, puts and writes
    to the objects in hand, a goroutine that runs a [Get] or [MustGet] alone
    while nobody grows the pool returns within two walks over the shards and the
    pushes of a slab.  It returns without an object exactly when it is [Get],
    the slot of its own shard is empty, every free stack is empty and the pool
    has no capacity left to grow by. *)
Theorem get_alone_returns (c : config) (initialLink : Z → option Z) size users p0 p tid pid must :
  shardCount c <= 2 ^ 32 → New c initialLink size users = Some (inr p0) → steps c initialLink p0 p →
  idle p tid → slabsMu p = None → 0 <= pid →
  ∃ r, routines (alone c initialLink (Z.to_nat (2 * zlen (shards p) + capacity p + 10)) (beginGet p tid pid must) tid)
         !! tid = Some (Returned r) ∧
    (r = None ↔ must = false ∧ ownSlot p (shardOf p pid) = None ∧ noneFree p = true ∧
      (maxCapacity c = 0 ∨ maxCapacity c <= capacity p)).
Proof.
  intros Hsc Hnew Hst [a Ha] Hmu Hpid. destruct (New_ok _ _ _ _ _ Hsc Hnew) as [stacks0 Hok0].
  destruct (steps_ok _ _ _ _ _ _ Hok0 Hst) as [stacks Hok].
  destruct (mask_shard p stacks [] pid (proj1 Hok)) as [Hs _].
  destruct (get_ends c initialLink size p stacks tid (shardOf p pid) must (Returned a)) as (r & Hr & Hiff); try done.
  exists r. split; [|done]. apply Hr. lia.
Qed.

(** C17: After any interleaving every object ever allocated is in exactly one
    place: a slot, a free stack, an operation under way or the hands of a
    caller, and the free stack of every shard is the chain the links spell out
    from its head; at most one goroutine is inside [grow]; the capacity stays
    positive and at most the larger of the initial and the maximal one, and
    never moves without growth; and the counter of objects in flight, when kept,
    is the number of objects in hand. *)
Theorem objects_in_one_place (c : config) (initialLink : Z → option Z) size users p0 p :
  shardCount c <= 2 ^ 32 → New c initialLink size users = Some (inr p0) → steps c initialLink p0 p →
  (∃ stacks, length stacks = length (shards p) ∧
    (∀ i sh st, zget (shards p) i = Some sh → zget stacks i = Some st → chain (links p) (freeHead sh) st) ∧
    ∀ o, places p stacks o = if (0 <=? o) && (o <? next p) then 1%nat else 0%nat) ∧
  (∀ t u a b, routines p !! t = Some a → routines p !! u = Some b → growing a = true → growing b = true → t = u) ∧
  (0 < capacity p <= Z.max size (maxCapacity c)) ∧ (maxCapacity c = 0 → capacity p = size) ∧
  (metrics c = true → inFlight p = zlen (inUse p)).
Proof.
  intros Hsc Hnew Hst. destruct (New_ok _ _ _ _ _ Hsc Hnew) as [stacks0 Hok0].
  destruct (steps_ok _ _ _ _ _ _ Hok0 Hst) as [stacks [[Hk Hl Hch Hpl Hli Hn] [Hc Hg Hm Hf Hs]]].
  split; [|split; [|done]].
  - exists stacks. split_and!; [done|done|]. intros o. specialize (Hpl o). cbn in Hpl.
    rewrite Nat.add_0_r in Hpl. exact Hpl.
  - intros t u a b Ha Hb Hga Hgb. pose proof (Hm _ _ Ha Hga). pose proof (Hm _ _ Hb Hgb). congruence.
Qed.

Lemma alone_steps c initialLink fuel p tid : steps c initialLink p (alone c initialLink fuel p tid).
Proof.
  enough (H : ∀ fuel p q, steps c initialLink q p → steps c initialLink q (alone c initialLink fuel p tid)) by (apply H, steps_refl).
  clear. induction fuel as [|fuel IH]; intros p q Hq; cbn; [done|].
  destruct (advance _ _ p tid) as [p'|] eqn:Ha; [|done]. apply IH. eapply steps_more; [done|]. by apply (step_run _ _ _ tid).
Qed.

Lemma steps_trans c initialLink p q r : steps c initialLink p q → steps c initialLink q r → steps c initialLink p r.
Proof. intros Hp Hq. induction Hq as [|q r t Hqr IH Ht]; [done|]. exact (steps_more _ _ _ _ _ (IH Hp) Ht). Qed.

Lemma get_steps c initialLink fuel p tid pid must : idle p tid → 0 <= pid →
  steps c initialLink p (alone c initialLink fuel (beginGet p tid pid must) tid).
Proof. intros Hi Hp. eapply steps_trans; [|apply alone_steps]. eapply steps_more; [apply steps_refl|]. by apply step_get. Qed.

Lemma put_steps c initialLink fuel p tid pid object others : idle p tid → 0 <= pid →
  Permutation (inUse p) (object :: others) →
  steps c initialLink p (alone c initialLink fuel (beginPut c p tid pid object others) tid).
Proof.
  intros Hi Hp Hin. eapply steps_trans; [|apply alone_steps]. eapply steps_more; [apply steps_refl|]. by apply step_put.
Qed.

(** Two shards, one object, no growth. *)
Definition pairConfig : config := NewConfig 2 0 false.
Definition noLink (o : Z) : option Z := None.

(** On a machine with two shards and room for one object, one [Get] and one
    [Put] on the first processor leave the object in the first slot, and a
    [Get] on the second processor then returns nothing, although the pool is
    not drained and nobody holds the object. *)
Theorem get_misses_other_slots :
  ∃ p0 p, New pairConfig noLink 1 1 = Some (inr p0) ∧ steps pairConfig noLink p0 p ∧
    inUse p = [] ∧ ownSlot p 0 = Some 0 ∧
    routines (alone pairConfig noLink 20 (beginGet p 0 1 false) 0) !! 0%nat = Some (Returned None).
Proof.
  destruct (New pairConfig noLink 1 1) as [[|p0]|] eqn:Hnew; [vm_compute in Hnew; discriminate| |vm_compute in Hnew; discriminate].
  pose (p1 := alone pairConfig noLink 20 (beginGet p0 0 0 false) 0).
  pose (p := alone pairConfig noLink 20 (beginPut pairConfig p1 0 0 0 []) 0).
  exists p0, p. split; [done|]. assert (Hp0 : Some (inr p0) = New pairConfig noLink 1 1) by done.
  vm_compute in Hp0. injection Hp0 as ->. split; [|vm_compute; done].
  eapply steps_trans; [apply (get_steps _ _ 20 _ 0 0 false)|apply (put_steps _ _ 20 p1 0 0 0 [])].
  - by exists None.
  - lia.
  - by exists (Some 0).
  - lia.
  - by vm_compute.
Qed.

(** A pool of two shards and three objects that may grow to five. *)
Definition growConfig : config := NewConfig 2 5 true.

Lemma objects_in_one_place_witness :
  ∃ p0, New growConfig noLink 3 2 = Some (inr p0) ∧
    zlen (inUse (alone growConfig noLink 40 (beginGet p0 0 1 false) 0)) = 1 ∧
    inFlight (alone growConfig noLink 40 (beginGet p0 0 1 false) 0) =
    zlen (inUse (alone growConfig noLink 40 (beginGet p0 0 1 false) 0)).
Proof.
  destruct (New growConfig noLink 3 2) as [[|p0]|] eqn:Hnew; [vm_compute in Hnew; discriminate| |vm_compute in Hnew; discriminate].
  exists p0. split; [done|].
  assert (Hs : shardCount growConfig <= 2 ^ 32) by (apply Z.leb_le; reflexivity).
  assert (Hst : steps growConfig noLink p0 (alone growConfig noLink 40 (beginGet p0 0 1 false) 0)).
  { apply get_steps; [|lia]. vm_compute in Hnew. injection Hnew as <-. by exists None. }
  destruct (objects_in_one_place growConfig noLink 3 2 p0 _ Hs Hnew Hst) as (_ & _ & _ & _ & Hf).
  split; [|exact (Hf eq_refl)]. vm_compute in Hnew. injection Hnew as <-. vm_compute. reflexivity.
Defined.

Lemma get_alone_returns_witness :
  ∃ p0 r, New growConfig noLink 3 2 = Some (inr p0) ∧
    routines (alone growConfig noLink (Z.to_nat (2 * zlen (shards p0) + capacity p0 + 10)) (beginGet p0 0 1 false) 0)
      !! 0%nat = Some (Returned (Some r)).
Proof.
  destruct (New growConfig noLink 3 2) as [[|p0]|] eqn:Hnew; [vm_compute in Hnew; discriminate| |vm_compute in Hnew; discriminate].
  assert (Hs : shardCount growConfig <= 2 ^ 32) by (apply Z.leb_le; reflexivity).
  assert (Hp0 : idle p0 0 ∧ slabsMu p0 = None ∧ noneFree p0 = false).
  { vm_compute in Hnew. injection Hnew as <-. split_and!; try done. by exists None. }
  destruct Hp0 as (Hi & Hmu & Hn).
  destruct (get_alone_returns growConfig noLink 3 2 p0 p0 0 1 false Hs Hnew (steps_refl _ _ _) Hi Hmu ltac:(lia)) as ([r|] & Hr & Hiff).
  - by exists p0, r.
  - destruct (proj1 Hiff eq_refl) as (_ & _ & Hn' & _). congruence.
Defined.
