(* ===== verification/PoolDrain.v ===== *)
(** * Draining the object pool

    [Drain] takes every object out of the slots and the free stacks, each once,
    and leaves those in the hands of callers alone. *)

From S2P Require Import Prelude SafeConv Pool PoolSound.

Lemma memory_perm p stacks extra extra' : Permutation extra extra' → memory_ok p stacks extra → memory_ok p stacks extra'.
Proof.
  intros Hp [Hk Hl Hch Hpl Hli Hn]. split; try done. intros o. rewrite <- (Hpl o). by rewrite (occurrences_perm o _ _ Hp).
Qed.

Lemma same_control_trans p q r : same_control p q → same_control q r → same_control p r.
Proof. intros [H1 H2 H3 H4 H5 H6 H7] [G1 G2 G3 G4 G5 G6 G7]. split; congruence. Qed.

(** A stack holds fewer objects than were allocated. *)
Lemma stack_short p stacks extra i st : memory_ok p stacks extra → zget stacks i = Some st → zlen st <= next p.
Proof.
  intros Hok Hi. assert (Hone : ∀ o, (occurrences o st <= allocated p o)%nat).
  { intros o. rewrite <- (me_places _ _ _ Hok o). unfold places.
    pose proof (total_lower (occurrences o) stacks st (proj2 (elem_of_zget stacks st) (ex_intro _ i Hi))). lia. }
  assert (Hnd : NoDup st).
  { assert (Hle : ∀ o, (occurrences o st <= 1)%nat) by (intros o; specialize (Hone o); unfold allocated in Hone; destruct (_ && _); lia).
    clear -Hle. induction st as [|x st IH]; [constructor|]. constructor.
    - intros Hin%occurrences_pos. specialize (Hle x). cbn in Hle. rewrite decide_True in Hle by done. lia.
    - apply IH. intros o. specialize (Hle o). cbn in Hle. lia. }
  assert (Hsub : st ⊆ seqZ 0 (next p)).
  { intros o Ho%occurrences_pos. apply occurrences_pos. rewrite occurrences_seqZ. specialize (Hone o). unfold allocated in Hone.
    rewrite Z.add_0_l. destruct (_ && _); lia. }
  pose proof (NoDup_submseteq st (seqZ 0 (next p)) Hnd) as Hs. specialize (Hs Hsub).
  apply submseteq_length in Hs. rewrite length_seqZ in Hs. pose proof (me_next _ _ _ Hok). lia.
Qed.

Definition emptied (p : pool) (indexes : list Z) : Prop :=
  ∀ s sh, s ∈ indexes → zget (shards p) s = Some sh → slot sh = None.

Lemma drainSlots_ok p stacks indexes extra :
  memory_ok p stacks extra → (∀ s, s ∈ indexes → 0 <= s < zlen (shards p)) →
  ∀ out, ∃ p' taken, drainSlots p indexes out = Some (p', out ++ taken) ∧ same_control p p' ∧
    memory_ok p' stacks (taken ++ extra) ∧ emptied p' indexes ∧
    (∀ s, (∃ sh, zget (shards p) s = Some sh ∧ slot sh = None) → ∃ sh, zget (shards p') s = Some sh ∧ slot sh = None).
Proof.
  revert p extra. induction indexes as [|s indexes IH]; intros p extra Hok Hin out; cbn [drainSlots].
  { exists p, []. rewrite app_nil_r. split_and!; try done. by intros ? ? ?%elem_of_nil. }
  assert (Hs : 0 <= s < zlen (shards p)) by (apply Hin; by left).
  destruct (tryTake_ok _ _ _ _ Hok Hs) as (p1 & r & Ht & Hs1 & Hm1). rewrite Ht. cbn [mbind option_bind].
  assert (Hnone : ∃ sh, zget (shards p1) s = Some sh ∧ slot sh = None).
  { unfold tryTake in Ht. destruct (zget (shards p) s) as [sh|] eqn:Hsh; [|done]. injection Ht as <- _.
    exists (NewShard None (freeHead sh)). split; [|done]. cbn [shards setShards]. by rewrite (zget_zset_eq _ _ _ Hs). }
  destruct (IH p1 _ Hm1 ltac:(intros t Ht'; rewrite (sc_length _ _ Hs1); apply Hin; by right)
    (match r with Some object => out ++ [object] | None => out end)) as (p' & taken & Hd & Hs2 & Hm2 & He & Hkeep).
  exists p', (match r with Some o => o :: taken | None => taken end). split_and!.
  - rewrite Hd. destruct r; [|done]. by rewrite <- app_assoc.
  - by eapply same_control_trans.
  - destruct r as [o|]; [|done]. eapply memory_perm; [|exact Hm2]. cbn [app]. by rewrite Permutation_middle.
  - intros t sh [->|Hin']%elem_of_cons Hsh; [|by apply (He t)].
    destruct (Hkeep s Hnone) as (sh' & Hsh' & Hn'). congruence.
  - intros t (sh & Hsh & Hn). apply Hkeep. unfold tryTake in Ht. destruct (zget (shards p) s) as [sh0|] eqn:Hsh0; [|done].
    injection Ht as <- _. cbn [shards setShards]. destruct (decide (s = t)) as [->|Hne].
    + exists (NewShard None (freeHead sh0)). by rewrite (zget_zset_eq _ _ _ Hs).
    + exists sh. by rewrite zget_zset_ne.
Qed.

(** One stack, popped to its end. *)
Lemma drainStack_ok fuel p stacks extra s st :
  memory_ok p stacks extra → zget stacks s = Some st → (length st < fuel)%nat →
  ∀ out, ∃ p', drainStack fuel p s out = Some (p', out ++ st) ∧ same_control p p' ∧
    memory_ok p' (zset stacks s []) (st ++ extra) ∧
    (∀ t, option_map slot (zget (shards p') t) = option_map slot (zget (shards p) t)).
Proof.
  revert p stacks extra st. induction fuel as [|fuel IH]; intros p stacks extra st Hok Hst Hf out; [lia|].
  cbn [drainStack]. pose proof (popFree_ok _ _ _ _ _ Hok Hst) as Hp. destruct st as [|o st].
  - rewrite Hp. cbn. rewrite app_nil_r. exists p. rewrite zset_id by done. by split_and!.
  - destruct Hp as (p1 & Hp & Hs1 & Hm1). rewrite Hp. cbn [mbind option_bind].
    pose proof (zget_Some_range _ _ _ Hst) as Hr.
    destruct (IH p1 _ _ st Hm1 (zget_zset_eq _ _ _ Hr) ltac:(cbn in Hf; lia) (out ++ [o])) as (p' & Hd & Hs2 & Hm2 & Hsl).
    exists p'. split_and!.
    + rewrite Hd. by rewrite <- app_assoc.
    + by eapply same_control_trans.
    + replace (zset stacks s []) with (zset (zset stacks s st) s ([] : list Z)).
      * eapply memory_perm; [|exact Hm2]. cbn [app]. by rewrite Permutation_middle.
      * unfold zset. case_if; bool_hyps; [done|]. apply list_insert_insert_eq.
    + intros t. rewrite Hsl. unfold popFree in Hp. destruct (zget (shards p) s) as [sh|] eqn:Hsh; [|done]. cbn in Hp.
      destruct (freeHead sh) as [h|]; [|done]. cbn in Hp. destruct (links p !! h); [|done]. injection Hp as <- _.
      cbn [shards setShards]. destruct (decide (s = t)) as [->|]; [|by rewrite zget_zset_ne].
      rewrite Hsh, zget_zset_eq by (by eapply zget_Some_range). done.
Qed.

Lemma drainStacks_ok fuel p stacks extra indexes :
  memory_ok p stacks extra → (∀ s, s ∈ indexes → 0 <= s < zlen (shards p)) → next p < Z.of_nat fuel →
  ∀ out, ∃ p' stacks' taken, drainStacks fuel p indexes out = Some (p', out ++ taken) ∧ same_control p p' ∧
    memory_ok p' stacks' (taken ++ extra) ∧
    (∀ s, s ∈ indexes ∨ zget stacks s = Some [] → zget stacks' s = Some []) ∧
    (∀ t, option_map slot (zget (shards p') t) = option_map slot (zget (shards p) t)).
Proof.
  revert p stacks extra. induction indexes as [|s indexes IH]; intros p stacks extra Hok Hin Hf out; cbn [drainStacks].
  { exists p, stacks, []. rewrite app_nil_r. split_and!; try done. by intros s [?%elem_of_nil|Hs]. }
  assert (Hs : 0 <= s < zlen (shards p)) by (apply Hin; by left).
  destruct (shard_at _ _ _ _ Hok Hs) as (sh & st & Hsh & Hst & _).
  pose proof (stack_short _ _ _ _ _ Hok Hst).
  destruct (drainStack_ok fuel p stacks extra s st Hok Hst ltac:(lia) out) as (p1 & Hd & Hs1 & Hm1 & Hsl1).
  rewrite Hd. cbn [mbind option_bind].
  destruct (IH p1 _ _ Hm1 ltac:(intros t Ht'; rewrite (sc_length _ _ Hs1); apply Hin; by right)
    ltac:(rewrite (sc_next _ _ Hs1); lia) (out ++ st)) as (p' & stacks' & taken & Hd' & Hs2 & Hm2 & He & Hsl2).
  exists p', stacks', (st ++ taken). split_and!.
  - rewrite Hd'. by rewrite app_assoc.
  - by eapply same_control_trans.
  - eapply memory_perm; [|exact Hm2]. rewrite !app_assoc. by rewrite (Permutation_app_comm taken st).
  - intros t Ht. apply He. pose proof (zget_Some_range _ _ _ Hst) as Hr.
    destruct (decide (s = t)) as [->|Hne]; [right; by apply zget_zset_eq|].
    rewrite zget_zset_ne by done. destruct Ht as [[->|Ht]%elem_of_cons|Ht]; [done|by left|by right].
  - intros t. by rewrite Hsl2.
Qed.

Lemma total_zero {A} (f : A → nat) l : (∀ x, x ∈ l → f x = 0%nat) → total f l = 0%nat.
Proof.
  induction l as [|x l IH]; intros Hz; [done|]. cbn. rewrite Hz by (by left). apply IH. intros y Hy. apply Hz. by right.
Qed.

(** Draining takes every object out of the slots and the free stacks, each
    once: an object allocated so far that no caller holds and no operation
    carries is in the result exactly once, and no other object is.  The walk
    ends, and the pool left has its callers and its counters as they were. *)
Theorem drain_returns_the_rest (c : config) (initialLink : Z → option Z) size users p0 p :
  shardCount c <= 2 ^ 32 → New c initialLink size users = Some (inr p0) → steps c initialLink p0 p →
  ∃ p' out, Drain p = Some (p', out) ∧ inUse p' = inUse p ∧ routines p' = routines p ∧ inFlight p' = inFlight p ∧
    ∀ o, (occurrences o out + total (λ at_, occurrences o (carried at_)) (routines p) + occurrences o (inUse p))%nat =
      if (0 <=? o) && (o <? next p) then 1%nat else 0%nat.
Proof.
  intros Hsc Hnew Hst. destruct (New_ok _ _ _ _ _ Hsc Hnew) as [stacks0 Hok0].
  destruct (steps_ok _ _ _ _ _ _ Hok0 Hst) as [stacks [Hm _]].
  assert (Hin : ∀ s, s ∈ seqZ 0 (zlen (shards p)) → 0 <= s < zlen (shards p)) by (intros s ?%elem_of_seqZ; lia).
  destruct (drainSlots_ok p stacks _ [] Hm Hin []) as (p1 & out1 & Hd1 & Hs1 & Hm1 & He1 & _).
  assert (Hin1 : ∀ s, s ∈ seqZ 0 (zlen (shards p)) → 0 <= s < zlen (shards p1)) by (rewrite (sc_length _ _ Hs1); done).
  destruct (drainStacks_ok (S (Z.to_nat (next p))) p1 stacks _ _ Hm1 Hin1
    ltac:(rewrite (sc_next _ _ Hs1); lia) out1) as (p2 & stacks2 & out2 & Hd2 & Hs2 & Hm2 & He2 & Hsl).
  pose proof (same_control_trans _ _ _ Hs1 Hs2) as [_ _ Hfl Hiu Hro Hnx Hle].
  exists p2, (out1 ++ out2). unfold Drain. rewrite Hd1. cbn [mbind option_bind app].
  split_and!; [by rewrite (sc_next _ _ Hs1)|done|done|done|]. intros o.
  pose proof (me_places _ _ _ Hm2 o) as Hpl. unfold allocated in Hpl. rewrite Hnx in Hpl. rewrite <- Hpl.
  unfold places. rewrite Hro, Hiu, (total_zero (λ sh, occurrences o (slotted sh)) (shards p2)), (total_zero (occurrences o) stacks2).
  - rewrite app_nil_r, !occurrences_app. lia.
  - intros st [i Hi]%elem_of_zget. pose proof (zget_Some_range _ _ _ Hi) as Hr. rewrite (me_length _ _ _ Hm2), Hle in Hr.
    rewrite He2 in Hi by (left; apply elem_of_seqZ; lia). by injection Hi as <-.
  - intros sh [i Hi]%elem_of_zget. pose proof (zget_Some_range _ _ _ Hi) as Hr. rewrite Hle in Hr.
    specialize (Hsl i). rewrite Hi in Hsl. cbn in Hsl. destruct (zget (shards p1) i) as [sh1|] eqn:Hi1; [|done].
    injection Hsl as Hsl. unfold slotted. rewrite Hsl, (He1 i sh1); [done|apply elem_of_seqZ; lia|done].
Qed.

(** Two of three objects are left in the pool. *)
Definition drainConfig : config := NewConfig 2 0 true.

Lemma drain_returns_the_rest_witness :
  ∃ p0, New drainConfig (λ _, None) 3 1 = Some (inr p0) ∧
    ∃ p' out, Drain p0 = Some (p', out) ∧ occurrences 2 out = 1%nat ∧ occurrences 3 out = 0%nat.
Proof.
  destruct (New drainConfig (λ _, None) 3 1) as [[|p0]|] eqn:Hnew; [vm_compute in Hnew; discriminate| |vm_compute in Hnew; discriminate].
  assert (Hs : shardCount drainConfig <= 2 ^ 32) by (apply Z.leb_le; reflexivity).
  destruct (drain_returns_the_rest drainConfig (λ _, None) 3 1 p0 p0 Hs Hnew (steps_refl _ _ _)) as (p' & out & Hd & _ & _ & _ & Ho).
  exists p0. split; [done|]. exists p', out. split; [done|]. vm_compute in Hnew. injection Hnew as <-.
  pose proof (Ho 2) as H2. pose proof (Ho 3) as H3. cbn in H2, H3. split; lia.
Defined.
