(* ===== verification/Arena.v ===== *)
(** * The register arena and the call stack

    [internal/engine/register_arena.go], [register_arena_grow.go],
    [register_arena_scalar_shrink.go] and the parts of [vm.go],
    [vm_handler_calls.go], [vm_handler_calls_tail.go], [defer.go] and
    [defer_helpers.go] that push and pop call frames.

    A slab is an array in a shared memory: growing a bank copies it to a new
    array, and the frames already on the stack keep their windows into the old
    one.  Every class of slab that is saved and restored per frame is here: the
    thirteen register banks, then the upvalue cells and references.  The slabs
    of strings, boxes and slice backings, which only [Reset] reclaims, are not. *)

From S2P Require Import Prelude Register.

(** ** Classes of slabs *)

Definition upvalueCellClass : Z := NumRegisterKinds.
Definition upvalueReferenceClass : Z := NumRegisterKinds + 1.
Definition banks : list Z := seqZ 0 NumRegisterKinds.
Definition classes : list Z := seqZ 0 (NumRegisterKinds + 2).

(** [initialIntSlabs] and its fellows, in the order of the classes. *)
Definition initialSlabs : list Z := [512; 128; 32; 32; 128; 128; 64; 32; 32; 32; 32; 32; 32; 64; 64].
Definition initialSlab (k : Z) : Z := default 0 (zget initialSlabs k).
Definition maxArenaMultiplier : Z := 8.
Definition backingSlabIdleResetsBeforeShrink : Z := 4.
Definition backingSlabLowUseRatioDenominator : Z := 4.

(** The banks whose slots hold pointers, which [Restore] clears. *)
Definition gcVisible (k : Z) : bool :=
  one_of k [RegisterString; RegisterGeneral; RegisterSliceInt; RegisterSliceFloat; RegisterSliceString;
    RegisterSliceBool; RegisterSliceUint; RegisterSliceByte].

(** The banks the dispatch context mirrors. *)
Definition ctxMirrored (k : Z) : bool :=
  one_of k [RegisterInt; RegisterFloat; RegisterString; RegisterGeneral; RegisterBool; RegisterUint; RegisterSliceByte].

Definition isScalarBank (k : Z) : bool := (0 <=? k) && (k <=? RegisterComplex).

(** ** Register counts *)

Definition ArenaCountsFromNumRegs (numRegs : list Z) : list Z := map (λ k, default 0 (zget numRegs k)) banks.

Definition computeNonZeroBankMask (numRegs : list Z) : Z :=
  foldl (λ mask k, if 0 <? default 0 (zget numRegs k) then Z.lor mask (Z.shiftl 1 k) else mask) 0 banks.

(** ** State *)

(** A Go slice into a slab. *)
Record window := NewWindow { base : Z; offset : Z; size : Z }.

(** A nil bank is [None]. *)
Record Registers := NewRegisters { windows : list (option window); lastAllocMask : Z }.

Definition noRegisters : Registers := NewRegisters (replicate (Z.to_nat NumRegisterKinds) None) 0.

Record CallFrame := NewCallFrame { Registers_ : Registers; arenaSave : list Z; Function : option (list Z) }.

Definition emptyFrame : CallFrame := NewCallFrame noRegisters (replicate (length initialSlabs) 0) None.

Section arena.
Context {V : Type} (zero : Z → V).

Record RegisterArena := NewArena {
  memory : gmap Z (list V);
  nextAddress : Z;
  slabs : list Z;
  arenaIndices : list Z;
  slabGeneration : Z;
  scalarDemandSinceReset : list Z;
  scalarDemandLastReset : list Z;
  scalarIdleResets : list Z;
}.

Definition setMemory (a : RegisterArena) (m : gmap Z (list V)) : RegisterArena :=
  NewArena m (nextAddress a) (slabs a) (arenaIndices a) (slabGeneration a)
    (scalarDemandSinceReset a) (scalarDemandLastReset a) (scalarIdleResets a).
Definition setIndices (a : RegisterArena) (i : list Z) : RegisterArena :=
  NewArena (memory a) (nextAddress a) (slabs a) i (slabGeneration a)
    (scalarDemandSinceReset a) (scalarDemandLastReset a) (scalarIdleResets a).
Definition setDemand (a : RegisterArena) (since last idle : list Z) : RegisterArena :=
  NewArena (memory a) (nextAddress a) (slabs a) (arenaIndices a) (slabGeneration a) since last idle.

Definition slabAddress (a : RegisterArena) (k : Z) : Z := default (-1) (zget (slabs a) k).
Definition slab (a : RegisterArena) (k : Z) : list V := default [] (memory a !! slabAddress a k).
Definition index (a : RegisterArena) (k : Z) : Z := default 0 (zget (arenaIndices a) k).
Definition at_ (l : list Z) (k : Z) : Z := default 0 (zget l k).

(** [make], installed as the slab of a class; [bump] when the code counts a new
    generation of slabs. *)
Definition installSlab (bump : bool) (a : RegisterArena) (k : Z) (contents : list V) : RegisterArena :=
  NewArena (<[nextAddress a := contents]> (memory a)) (nextAddress a + 1) (zset (slabs a) k (nextAddress a))
    (arenaIndices a) (slabGeneration a + (if bump then 1 else 0))
    (scalarDemandSinceReset a) (scalarDemandLastReset a) (scalarIdleResets a).

Definition makeSlab (k n : Z) : list V := replicate (Z.to_nat n) (zero k).

(** [initRegisterArenaInPlace] of an arena without slabs. *)
Definition initRegisterArenaInPlace : RegisterArena :=
  foldl (λ a k, installSlab (ctxMirrored k) a k (makeSlab k (initialSlab k)))
    (NewArena ∅ 0 (replicate (length initialSlabs) (-1)) (replicate (length initialSlabs) 0) 0
       (replicate 7 0) (replicate 7 0) (replicate 7 0)) classes.

(** ** Growing *)

Definition growSlab (a : RegisterArena) (k minCap : Z) : RegisterArena :=
  let old := slab a k in
  let newCap := Z.max (zlen old * 2) minCap in
  let a := installSlab (ctxMirrored k) a k (old ++ makeSlab k (newCap - zlen old)) in
  if isScalarBank k then
    setDemand a (zset (scalarDemandSinceReset a) k (Z.max (at_ (scalarDemandSinceReset a) k) newCap))
      (scalarDemandLastReset a) (scalarIdleResets a)
  else a.

Definition short (a : RegisterArena) (counts : list Z) (k : Z) : bool := zlen (slab a k) <? index a k + at_ counts k.

Definition needsGrow (a : RegisterArena) (counts : list Z) : bool := existsb (short a counts) banks.

Definition growSlabs (a : RegisterArena) (counts : list Z) : RegisterArena :=
  foldl (λ a k, if short a counts k then growSlab a k (index a k + at_ counts k) else a) a banks.

(** ** Allocating *)

(** [slab[index : index+n]]. *)
Definition windowOf (a : RegisterArena) (k n : Z) : option window :=
  if (0 <=? n) && (index a k + n <=? zlen (slab a k)) then Some (NewWindow (slabAddress a k) (index a k) n) else None.

Definition bumpIndices (a : RegisterArena) (counts : list Z) : RegisterArena :=
  setIndices a (imap (λ k i, i + at_ counts (Z.of_nat k)) (arenaIndices a)).

(** [assignCachedScalarBanks] and [assignCachedSliceBanks], one bank. *)
Definition assignCached (a : RegisterArena) (r : Registers) (counts : list Z) (mask k : Z) : option (option window) :=
  if Z.testbit mask k then w ← windowOf a k (at_ counts k); Some (Some w)
  else Some (if Z.testbit (lastAllocMask r) k then None else default None (zget (windows r) k)).

Definition grown (a : RegisterArena) (counts : list Z) : RegisterArena :=
  if needsGrow a counts then growSlabs a counts else a.

Definition allocRegistersIntoCached (a : RegisterArena) (r : Registers) (counts : list Z) (mask : Z)
    : option (RegisterArena * Registers) :=
  let a := grown a counts in
  ws ← mapM (assignCached a r counts mask) banks;
  Some (bumpIndices a counts, NewRegisters ws mask).

(** [assignScalarBanksFromCounts] and [assignSliceBanksFromCounts], one bank:
    the int, general and uint banks are assigned even when empty. *)
Definition assignFromCounts (a : RegisterArena) (counts : list Z) (k : Z) : option (option window) :=
  if one_of k [RegisterInt; RegisterGeneral; RegisterUint] || (0 <? at_ counts k)
  then w ← windowOf a k (at_ counts k); Some (Some w)
  else Some None.

Definition allocRegistersIntoFromCounts (a : RegisterArena) (r : Registers) (counts : list Z)
    : option (RegisterArena * Registers) :=
  let a := grown a counts in
  ws ← mapM (assignFromCounts a counts) banks;
  Some (bumpIndices a counts, NewRegisters ws (lastAllocMask r)).

Definition allocRegistersInto (a : RegisterArena) (r : Registers) (numRegs : list Z)
    : option (RegisterArena * Registers) :=
  allocRegistersIntoFromCounts a r (ArenaCountsFromNumRegs numRegs).

(** [clear] of a part of a slab. *)
Definition clearRange (a : RegisterArena) (k low high : Z) : option RegisterArena :=
  let l := slab a k in
  if (0 <=? low) && (low <=? high) && (high <=? zlen l)
  then Some (setMemory a (<[slabAddress a k := take (Z.to_nat low) l ++ makeSlab k (high - low) ++ drop (Z.to_nat high) l]>
                            (memory a)))
  else None.

Definition SaveInto (a : RegisterArena) : list Z := arenaIndices a.

Definition restoreBank (sp : list Z) (a : RegisterArena) (k : Z) : option RegisterArena :=
  if gcVisible k && (at_ sp k <? index a k) then clearRange a k (at_ sp k) (index a k) else Some a.

Fixpoint eachBank (f : RegisterArena → Z → option RegisterArena) (a : RegisterArena) (ks : list Z) : option RegisterArena :=
  match ks with [] => Some a | k :: ks => a ← f a k; eachBank f a ks end.

Definition Restore (a : RegisterArena) (sp : list Z) : option RegisterArena :=
  a ← eachBank (restoreBank sp) a banks;
  Some (setIndices a sp).

(** [allocUpvalueCells] and [allocUpvalueRefs]. *)
Definition allocUpvalues (a : RegisterArena) (k n : Z) : option (RegisterArena * window) :=
  let a := if zlen (slab a k) <? index a k + n then growSlab a k (index a k + n) else a in
  let start := index a k in
  let a := setIndices a (zset (arenaIndices a) k (start + n)) in
  a ← clearRange a k start (start + n);
  Some (a, NewWindow (slabAddress a k) start n).

(** ** Pre-sizing *)

Definition ensureBank (counts : list Z) (a : RegisterArena) (k : Z) : RegisterArena :=
  if zlen (slab a k) <? at_ counts k then installSlab (ctxMirrored k) a k (makeSlab k (at_ counts k)) else a.

(** [ensureScalarBankCapacity], [ensureSliceBankCapacity] and
    [ensureUpvalueCapacity]. *)
Definition ensureBankCapacity (a : RegisterArena) (counts : list Z) : RegisterArena :=
  let demand := imap (λ k d, Z.max d (at_ counts (Z.of_nat k))) (scalarDemandSinceReset a) in
  foldl (ensureBank counts) (setDemand a demand (scalarDemandLastReset a) (scalarIdleResets a)) classes.

(** ** Resetting *)

Definition clearAllocatedRegisterRanges (a : RegisterArena) : option RegisterArena :=
  eachBank (λ a k, clearRange a k 0 (index a k)) a classes.

(** [shrinkSlabWithHysteresis]: whether to replace the slab, and the counter. *)
Definition shrinkSlabWithHysteresis (len initial usedLastExecute idleResets : Z) : bool * Z :=
  if len <=? initial * maxArenaMultiplier then (false, 0)
  else if len / backingSlabLowUseRatioDenominator <? usedLastExecute then (false, 0)
  else
    let idleResets := wrapU 32 (idleResets + 1) in
    if idleResets <? backingSlabIdleResetsBeforeShrink then (false, idleResets) else (true, 0).

Definition shrinkBank (a : RegisterArena) (k : Z) : RegisterArena :=
  if isScalarBank k then
    let '(replace, idle) :=
      shrinkSlabWithHysteresis (zlen (slab a k)) (initialSlab k) (at_ (scalarDemandLastReset a) k) (at_ (scalarIdleResets a) k) in
    let a := setDemand a (scalarDemandSinceReset a) (scalarDemandLastReset a) (zset (scalarIdleResets a) k idle) in
    if replace : bool then installSlab true a k (makeSlab k (initialSlab k)) else a
  else if initialSlab k * maxArenaMultiplier <? zlen (slab a k) then installSlab (ctxMirrored k) a k (makeSlab k (initialSlab k))
  else a.

(** [Reset], of the classes modelled. *)
Definition Reset (a : RegisterArena) : option RegisterArena :=
  let a := setDemand a (replicate 7 0) (scalarDemandSinceReset a) (scalarIdleResets a) in
  a ← clearAllocatedRegisterRanges a;
  let a := setIndices a (replicate (length initialSlabs) 0) in
  Some (foldl shrinkBank a classes).

(** ** The call stack *)

Record VM := NewVM {
  Arena : RegisterArena;
  CallStack : list CallFrame;
  FramePointer : Z;
  MaxCallDepth : Z;
  ObservedCallDepth : Z;
}.

Definition maxCallDepth : Z := 10000.
Definition callDepthLimit (vm : VM) : Z := if 0 <? MaxCallDepth vm then MaxCallDepth vm else maxCallDepth.

(** A stack overflow is a panic the interpreter reports; [None] below is a
    fault of the interpreter itself. *)
Inductive pushed := Pushed (vm : VM) | stackOverflow (vm : VM).

Definition setArena (vm : VM) (a : RegisterArena) : VM := NewVM a (CallStack vm) (FramePointer vm) (MaxCallDepth vm) (ObservedCallDepth vm).

Definition setStack (vm : VM) (stack : list CallFrame) (fp : Z) : VM :=
  NewVM (Arena vm) stack fp (MaxCallDepth vm) (ObservedCallDepth vm).

Definition frameStackSafetyMargin : Z := 16.
Definition observedFrameStackTarget (vm : VM) (observed : Z) : Z :=
  Z.min observed (callDepthLimit vm) + frameStackSafetyMargin.

(** [growCallStack] and [growFrameStack]; the observed depth is nought when no
    earlier run of the program is known. *)
Definition growCallStack (vm : VM) : VM :=
  let newCap := zlen (CallStack vm) * 2 in
  let newCap :=
    if 0 <? ObservedCallDepth vm then Z.max newCap (observedFrameStackTarget vm (ObservedCallDepth vm)) else newCap in
  setStack vm (CallStack vm ++ replicate (Z.to_nat (newCap - zlen (CallStack vm))) emptyFrame) (FramePointer vm).

(** The frame above the current one. *)
Definition enterFrame (vm : VM) : VM :=
  let vm := setStack vm (CallStack vm) (FramePointer vm + 1) in
  if zlen (CallStack vm) <=? FramePointer vm then growCallStack vm else vm.

Definition allocFrame (vm : VM) (upvalues : Z) (numRegs : list Z) : option VM :=
  f ← zget (CallStack vm) (FramePointer vm);
  let save := SaveInto (Arena vm) in
  a ← (if 0 <? upvalues then '(a, _) ← allocUpvalues (Arena vm) upvalueReferenceClass upvalues; Some a else Some (Arena vm));
  '(a, r) ← allocRegistersIntoCached a (Registers_ f) (ArenaCountsFromNumRegs numRegs) (computeNonZeroBankMask numRegs);
  Some (setStack (setArena vm a) (zset (CallStack vm) (FramePointer vm) (NewCallFrame r save (Some numRegs))) (FramePointer vm)).

(** [PushFrame], and the frame pushes of [handleCall], [handleCallScalar] and
    [handleCallIIFE]: the last allocates upvalue references first. *)
Definition PushFrame (vm : VM) (upvalues : Z) (numRegs : list Z) : option pushed :=
  if callDepthLimit vm <=? FramePointer vm then Some (stackOverflow vm)
  else vm ← allocFrame (enterFrame vm) upvalues numRegs; Some (Pushed vm).

(** [pushDeferredFrame]: the registers come before the guard. *)
Definition pushDeferredFrame (vm : VM) (numRegs : list Z) : option pushed :=
  let save := SaveInto (Arena vm) in
  '(a, r) ← allocRegistersInto (Arena vm) noRegisters numRegs;
  let vm := setArena vm a in
  if callDepthLimit vm <=? FramePointer vm then Some (stackOverflow vm)
  else
    let vm := enterFrame vm in
    _ ← zget (CallStack vm) (FramePointer vm);
    Some (Pushed (setStack vm (zset (CallStack vm) (FramePointer vm) (NewCallFrame r save (Some numRegs))) (FramePointer vm))).

Definition popFrame (vm : VM) : option VM :=
  f ← zget (CallStack vm) (FramePointer vm);
  a ← Restore (Arena vm) (arenaSave f);
  Some (setStack (setArena vm a) (CallStack vm) (FramePointer vm - 1)).

(** [reallocateTailCallFrame] and the frame fields of [handleTailCall]. *)
Definition reallocateTailCallFrame (vm : VM) (numRegs : list Z) : option VM :=
  f ← zget (CallStack vm) (FramePointer vm);
  a ← Restore (Arena vm) (arenaSave f);
  let save := SaveInto a in
  '(a, r) ← allocRegistersIntoCached a (Registers_ f) (ArenaCountsFromNumRegs numRegs) (computeNonZeroBankMask numRegs);
  Some (setStack (setArena vm a) (zset (CallStack vm) (FramePointer vm) (NewCallFrame r save (Some numRegs))) (FramePointer vm)).

(** ** Registers of a frame *)

Definition bankOf (vm : VM) (fp k : Z) : option window :=
  f ← zget (CallStack vm) fp;
  w ← zget (windows (Registers_ f)) k;
  w.

Definition readRegister (vm : VM) (fp k r : Z) : option V :=
  w ← bankOf vm fp k;
  if (0 <=? r) && (r <? size w) then contents ← memory (Arena vm) !! base w; zget contents (offset w + r) else None.

Definition writeRegister (vm : VM) (fp k r : Z) (v : V) : option VM :=
  w ← bankOf vm fp k;
  if (0 <=? r) && (r <? size w) then
    contents ← memory (Arena vm) !! base w;
    Some (setArena vm (setMemory (Arena vm) (<[base w := zset contents (offset w + r) v]> (memory (Arena vm)))))
  else None.

(** [copySameKind], of [copyReturnValueAt] and of the argument copies. *)
Definition copySameKind (vm : VM) (toFrame k toRegister fromFrame fromRegister : Z) : option VM :=
  v ← readRegister vm fromFrame k fromRegister;
  writeRegister vm toFrame k toRegister v.
End arena.
