(* ===== verification/ArenaSound.v ===== *)
(** * Allocating and restoring register banks

    The invariant of an arena, and what growing, allocating, clearing and
    restoring leave to the windows below a limit. *)

From S2P Require Import Prelude Register Arena.

Section sound.
Context {V : Type} (zero : Z → V).

#[local] Notation RegisterArena := (RegisterArena (V:=V)).
#[local] Notation grown := (grown zero).
#[local] Notation growSlab := (growSlab zero).
#[local] Notation growSlabs := (growSlabs zero).
#[local] Notation makeSlab := (makeSlab zero).
Implicit Types (a : RegisterArena) (l : list V) (own : Z → Z) (k j : Z).

(** ** Arenas *)

(** Every class has an array of its own, [own] telling which class an array
    serves; what lies above the index of a bank of pointers is zero. *)
Record arena_ok (own : Z → Z) (a : RegisterArena) : Prop := {
  ao_slabs : zlen (slabs a) = NumRegisterKinds + 2;
  ao_indices : zlen (arenaIndices a) = NumRegisterKinds + 2;
  ao_slab k : 0 <= k < NumRegisterKinds + 2 →
    memory a !! slabAddress a k = Some (slab a k) ∧ own (slabAddress a k) = k ∧ 0 <= index a k <= zlen (slab a k);
  ao_zero k j x : 0 <= k < NumRegisterKinds → gcVisible k = true →
    index a k <= j → zget (slab a k) j = Some x → x = zero k;
  ao_fresh b l : memory a !! b = Some l → 0 <= b < nextAddress a;
  ao_idle : zlen (scalarIdleResets a) = 7;
}.

(** The later arena has all arrays of the earlier one. *)
Record extends (own : Z → Z) (a : RegisterArena) (own' : Z → Z) (a' : RegisterArena) : Prop := {
  ex_memory b l : memory a !! b = Some l → memory a' !! b = Some l ∧ own' b = own b;
  ex_indices : arenaIndices a' = arenaIndices a;
}.

Lemma extends_refl own a : extends own a own a.
Proof. by split. Qed.

Lemma extends_trans own a own' a' own'' a'' :
  extends own a own' a' → extends own' a' own'' a'' → extends own a own'' a''.
Proof.
  intros [H1 H2] [G1 G2]. split; [|congruence]. intros b l Hb. destruct (H1 b l Hb) as [Hb' Ho].
  destruct (G1 b l Hb') as [Hb'' Ho']. split; [done|congruence].
Qed.

Lemma gcVisible_bank k : gcVisible k = true → 0 <= k < NumRegisterKinds.
Proof.
  unfold gcVisible. rewrite one_of_spec, !elem_of_cons, elem_of_nil. unfold NumRegisterKinds.
  intros Hk. repeat (destruct Hk as [->|Hk]; [by vm_compute|]). done.
Qed.

Lemma length_makeSlab k n : 0 <= n → zlen (makeSlab k n) = n.
Proof. intros Hn. unfold Arena.makeSlab. rewrite length_replicate. lia. Qed.

Lemma zget_makeSlab k n j x : zget (makeSlab k n) j = Some x → x = zero k.
Proof. intros H. apply (ex_intro (λ j, zget _ j = Some x)), elem_of_zget, elem_of_replicate in H as [-> _]. done. Qed.

Lemma slabAddress_install bump a k l j :
  zlen (slabs a) = NumRegisterKinds + 2 → 0 <= k < NumRegisterKinds + 2 →
  slabAddress (installSlab bump a k l) j = if k =? j then nextAddress a else slabAddress a j.
Proof.
  intros Hl Hk. unfold slabAddress. cbn [installSlab slabs]. rewrite zget_zset. case_if; bool_hyps; [|done].
  subst j. by rewrite bool_decide_eq_true_2 by lia.
Qed.

Lemma slab_install bump own a k l j :
  arena_ok own a → 0 <= k < NumRegisterKinds + 2 → 0 <= j < NumRegisterKinds + 2 →
  slab (installSlab bump a k l) j = if k =? j then l else slab a j.
Proof.
  intros Hok Hk Hj. unfold slab. rewrite slabAddress_install by (done || by eapply ao_slabs).
  cbn [installSlab memory]. case_if; bool_hyps; [by rewrite lookup_insert_eq|].
  rewrite lookup_insert_ne; [done|]. destruct (ao_slab _ _ Hok j Hj) as [Hm _]. apply (ao_fresh _ _ Hok) in Hm. lia.
Qed.

Lemma install_ok bump own a k l :
  arena_ok own a → 0 <= k < NumRegisterKinds + 2 → index a k <= zlen l →
  (gcVisible k = true → ∀ j x, index a k <= j → zget l j = Some x → x = zero k) →
  let own' b := if b =? nextAddress a then k else own b in
  arena_ok own' (installSlab bump a k l) ∧ extends own a own' (installSlab bump a k l).
Proof.
  intros Hok Hk Hl Hz own'. pose proof Hok as [H1 H2 H3 H4 H5 H6].
  assert (Haddr := λ j, slabAddress_install bump a k l j H1 Hk).
  assert (Hslab := λ j, slab_install bump own a k l j Hok Hk).
  assert (Hold : ∀ b l', memory a !! b = Some l' → b =? nextAddress a = false).
  { intros b l' Hb. apply H5 in Hb. lia. }
  split; [split|split]; try done.
  - cbn [installSlab slabs]. by rewrite length_zset.
  - intros j Hj. change (index (installSlab bump a k l) j) with (index a j). rewrite Haddr, (Hslab j Hj).
    destruct (H3 j Hj) as (Hm & Ho & Hi). unfold own'. cbn [installSlab memory]. destruct (Z.eqb_spec k j) as [->|Hne].
    + rewrite lookup_insert_eq, Z.eqb_refl. split_and!; try done; lia.
    + rewrite (Hold _ _ Hm), lookup_insert_ne by (intros He; apply Hold in Hm; lia). done.
  - intros j i x Hj Hg. change (index (installSlab bump a k l) j) with (index a j). rewrite (Hslab j) by (unfold NumRegisterKinds in *; lia).
    destruct (Z.eqb_spec k j) as [->|Hne]; [intros; by eapply Hz|intros; by eapply H4].
  - intros b l'. cbn [installSlab memory nextAddress]. rewrite lookup_insert_Some. intros [[<- _]|[_ Hb]].
    + assert (Hb : ∃ l', memory a !! slabAddress a k = Some l') by (destruct (H3 k Hk) as [Hm _]; eauto).
      destruct Hb as [l'' Hb]. apply H5 in Hb. lia.
    + apply H5 in Hb. lia.
  - intros b l' Hb. unfold own'. rewrite (Hold _ _ Hb). cbn [installSlab memory].
    by rewrite lookup_insert_ne by (intros <-; apply H5 in Hb; lia).
Qed.

Lemma setDemand_ok own a x y z : arena_ok own a → zlen z = 7 → arena_ok own (setDemand a x y z).
Proof. by intros [H1 H2 H3 H4 H5 H6] Hz. Qed.

Lemma grow_ok own a k minCap :
  arena_ok own a → 0 <= k < NumRegisterKinds + 2 → index a k <= minCap →
  ∃ own', arena_ok own' (growSlab a k minCap) ∧ extends own a own' (growSlab a k minCap) ∧
    minCap <= zlen (slab (growSlab a k minCap) k) ∧
    ∀ j, 0 <= j < NumRegisterKinds + 2 → j ≠ k → slab (growSlab a k minCap) j = slab a j.
Proof.
  intros Hok Hk Hm. destruct (ao_slab _ _ Hok k Hk) as (_ & _ & Hi).
  set (newCap := Z.max (zlen (slab a k) * 2) minCap).
  set (l := slab a k ++ makeSlab k (newCap - zlen (slab a k))).
  assert (Hl : zlen l = newCap) by (subst l; rewrite length_app, Nat2Z.inj_add, length_makeSlab by lia; lia).
  destruct (install_ok (ctxMirrored k) own a k l Hok Hk ltac:(lia)) as [Hok' Hex].
  { intros Hg j x Hj Hx. unfold l in Hx. destruct (decide (j < zlen (slab a k))).
    - unfold zget in Hx. destruct (j <? 0) eqn:E; [done|]. rewrite lookup_app_l in Hx by lia.
      apply (ao_zero _ _ Hok k j); [by apply gcVisible_bank|done|done|unfold zget; by rewrite E].
    - unfold zget in Hx. destruct (j <? 0) eqn:E; [done|]. rewrite lookup_app_r in Hx by lia.
      apply (zget_makeSlab k (newCap - zlen (slab a k)) (j - zlen (slab a k))).
      unfold zget. rewrite (proj2 (Z.ltb_ge _ 0)) by lia. by replace (Z.to_nat (j - zlen (slab a k))) with (Z.to_nat j - length (slab a k))%nat by lia. }
  assert (Hd : ∀ Q : RegisterArena → Prop, Q (installSlab (ctxMirrored k) a k l) →
    (∀ x y, Q (setDemand (installSlab (ctxMirrored k) a k l) x y (scalarIdleResets a))) → Q (growSlab a k minCap)).
  { intros Q HQ HQ'. unfold Arena.growSlab. fold newCap. fold l. destruct (isScalarBank k); [apply HQ'|exact HQ]. }
  eexists. apply Hd.
  - split_and!; [exact Hok'|exact Hex| |].
    + rewrite (slab_install _ own) by done. rewrite Z.eqb_refl. lia.
    + intros j Hj Hne. rewrite (slab_install _ own) by done. by rewrite (proj2 (Z.eqb_neq k j)) by done.
  - intros x y. split_and!; [apply setDemand_ok; [done|by destruct Hok]|by destruct Hex| |].
    + change (slab (setDemand ?q _ _ _) k) with (slab q k). rewrite (slab_install _ own) by done. rewrite Z.eqb_refl. lia.
    + intros j Hj Hne. change (slab (setDemand ?q _ _ _) j) with (slab q j).
      rewrite (slab_install _ own) by done. by rewrite (proj2 (Z.eqb_neq k j)) by done.
Qed.

#[local] Notation n := NumRegisterKinds.

Lemma elem_of_banks k : k ∈ banks ↔ 0 <= k < n.
Proof. unfold banks. rewrite elem_of_seqZ. lia. Qed.

Lemma growSlabs_ok own a counts ks :
  arena_ok own a → (∀ k, 0 <= at_ counts k) → (∀ k, k ∈ ks → 0 <= k < n) → NoDup ks →
  let a' := foldl (λ a k, if short a counts k then growSlab a k (index a k + at_ counts k) else a) a ks in
  ∃ own', arena_ok own' a' ∧ extends own a own' a' ∧
    (∀ k, k ∈ ks → index a k + at_ counts k <= zlen (slab a' k)) ∧
    (∀ k, 0 <= k < n + 2 → k ∉ ks → slab a' k = slab a k).
Proof.
  intros Hok Hc. revert own a Hok. induction ks as [|k ks IH]; intros own a Hok Hks Hnd; cbn [foldl].
  { exists own. split_and!; [done|apply extends_refl|by intros ? ?%elem_of_nil|done]. }
  apply NoDup_cons in Hnd as [Hnk Hnd]. assert (Hk : 0 <= k < n) by (apply Hks; by left).
  assert (Hk2 : 0 <= k < n + 2) by lia.
  destruct (ao_slab _ _ Hok k Hk2) as (_ & _ & Hi). pose proof (Hc k) as Hck.
  set (a1 := if short a counts k then growSlab a k (index a k + at_ counts k) else a).
  assert (H1 : ∃ own1, arena_ok own1 a1 ∧ extends own a own1 a1 ∧ index a k + at_ counts k <= zlen (slab a1 k) ∧
    ∀ j, 0 <= j < n + 2 → j ≠ k → slab a1 j = slab a j).
  { unfold a1, short. destruct (Z.ltb_spec (zlen (slab a k)) (index a k + at_ counts k)).
    - apply (grow_ok own); [done|done|lia].
    - exists own. split_and!; [done|apply extends_refl|lia|done]. }
  destruct H1 as (own1 & Hok1 & Hex1 & Hroom & Hsame).
  destruct (IH own1 a1 Hok1 ltac:(intros; apply Hks; by right) Hnd) as (own' & Hok' & Hex' & Hrooms & Hsames).
  exists own'. split_and!; [done|by eapply extends_trans| |].
  - assert (Hidx : ∀ j, index a1 j = index a j) by (intros; unfold index; by rewrite (ex_indices _ _ _ _ Hex1)).
    intros j [->|Hj]%elem_of_cons.
    + rewrite Hsames by done. done.
    + rewrite <- Hidx. by apply Hrooms.
  - intros j Hj [Hne Hnj]%not_elem_of_cons. rewrite Hsames by done. by apply Hsame.
Qed.

Lemma grown_ok own a counts :
  arena_ok own a → (∀ k, 0 <= at_ counts k) →
  ∃ own', arena_ok own' (grown a counts) ∧ extends own a own' (grown a counts) ∧
    ∀ k, 0 <= k < n → index a k + at_ counts k <= zlen (slab (grown a counts) k).
Proof.
  intros Hok Hc. unfold Arena.grown. destruct (needsGrow a counts) eqn:Hn.
  - destruct (growSlabs_ok own a counts banks Hok Hc) as (own' & H1 & H2 & H3 & _); [by intros k ?%elem_of_banks|apply NoDup_seqZ|].
    exists own'. split_and!; [done|done|]. intros k Hk. apply H3. by apply elem_of_banks.
  - exists own. split_and!; [done|apply extends_refl|]. intros k Hk. unfold needsGrow in Hn.
    apply not_true_iff_false in Hn. rewrite existsb_exists in Hn.
    destruct (short a counts k) eqn:Hs; [|unfold short in Hs; lia]. exfalso. apply Hn. exists k. split; [|done].
    apply list_elem_of_In. by apply elem_of_banks.
Qed.

Lemma mapM_banks {B} (f : Z → option B) :
  (∀ k, 0 <= k < n → is_Some (f k)) →
  ∃ ws, mapM f banks = Some ws ∧ zlen ws = n ∧ ∀ k, 0 <= k < n → zget ws k = f k.
Proof.
  intros Hf. destruct (mapM_is_Some_2 f banks) as [ws Hws].
  { apply Forall_forall. intros k Hk. apply Hf. by apply elem_of_banks. }
  exists ws. split; [done|]. apply mapM_Some in Hws.
  assert (Hlen : length ws = length banks) by (symmetry; by eapply Forall2_length). split.
  { rewrite Hlen. unfold banks. rewrite length_seqZ. done. }
  intros k Hk. destruct (zget_is_Some ws k) as [w Hw]; [rewrite Hlen; unfold banks; rewrite length_seqZ; lia|].
  rewrite Hw. rewrite zget_lookup in Hw by lia.
  destruct (Forall2_lookup_r _ _ _ _ _ Hws Hw) as (k' & Hk' & Hfk). unfold banks in Hk'.
  apply lookup_seqZ in Hk' as [-> Hk'']. by replace (0 + Z.of_nat (Z.to_nat k)) with k in Hfk by lia.
Qed.

Lemma index_bump a counts k : zlen (arenaIndices a) = n + 2 → 0 <= k < n + 2 →
  index (bumpIndices a counts) k = index a k + at_ counts k.
Proof.
  intros Hl Hk. unfold index. cbn [bumpIndices setIndices arenaIndices]. rewrite !zget_lookup by lia.
  rewrite list_lookup_imap. rewrite Z2Nat.id by lia.
  destruct (lookup_lt_is_Some_2 (arenaIndices a) (Z.to_nat k)) as [i Hi]; [lia|]. by rewrite Hi.
Qed.

Lemma bump_ok own a counts :
  arena_ok own a → (∀ k, 0 <= at_ counts k) → at_ counts n = 0 → at_ counts (n + 1) = 0 →
  (∀ k, 0 <= k < n → index a k + at_ counts k <= zlen (slab a k)) → arena_ok own (bumpIndices a counts).
Proof.
  intros Hok Hc H0 H1 Hroom. pose proof Hok as [G1 G2 G3 G4 G5 G6]. split; try done.
  - cbn. by rewrite length_imap.
  - intros k Hk. rewrite index_bump by done. change (slab (bumpIndices a counts) k) with (slab a k).
    destruct (G3 k Hk) as (Hm & Ho & Hi). split_and!; [done|done| |]; [specialize (Hc k); lia|].
    destruct (decide (k < n)) as [Hlt|Hge]; [apply Hroom; lia|].
    assert (k = n ∨ k = n + 1) as [-> | ->] by lia; lia.
  - intros k j x Hk Hg Hj. rewrite index_bump in Hj by (done || lia). apply (G4 k j x Hk Hg). specialize (Hc k). lia.
Qed.

(** ** Allocating the banks of a frame *)

(** The banks a function uses are windows of an arena, from the indices [save]
    on. *)
Definition banks_at (own : Z → Z) (a : RegisterArena) (ws : list (option window)) (save counts : list Z) : Prop :=
  zlen ws = n ∧
  ∀ k, 0 <= k < n → 0 < at_ counts k → ∃ b l,
    zget ws k = Some (Some (NewWindow b (at_ save k) (at_ counts k))) ∧ own b = k ∧
    memory a !! b = Some l ∧ 0 <= at_ save k ∧ at_ save k + at_ counts k <= zlen l.

Definition counts_ok (counts : list Z) : Prop :=
  (∀ k, 0 <= at_ counts k) ∧ at_ counts n = 0 ∧ at_ counts (n + 1) = 0.

Lemma windowOf_grown own a counts k :
  arena_ok own (grown a counts) → (∀ k, 0 <= at_ counts k) → 0 <= k < n →
  index a k + at_ counts k <= zlen (slab (grown a counts) k) → arenaIndices (grown a counts) = arenaIndices a →
  windowOf (grown a counts) k (at_ counts k) =
    Some (NewWindow (slabAddress (grown a counts) k) (index a k) (at_ counts k)).
Proof.
  intros Hok Hc Hk Hroom Hi. unfold windowOf, index in *. rewrite Hi. specialize (Hc k).
  rewrite (proj2 (Z.leb_le 0 _)) by lia. by rewrite (proj2 (Z.leb_le _ _)) by lia.
Qed.

Lemma alloc_ok own a counts (assign : RegisterArena → Z → option (option window)) :
  arena_ok own a → counts_ok counts →
  (∀ k, 0 <= k < n → is_Some (windowOf (grown a counts) k (at_ counts k)) → is_Some (assign (grown a counts) k)) →
  (∀ k, 0 < at_ counts k → assign (grown a counts) k = w ← windowOf (grown a counts) k (at_ counts k); Some (Some w)) →
  ∃ own' ws, mapM (assign (grown a counts)) banks = Some ws ∧
    arena_ok own' (bumpIndices (grown a counts) counts) ∧
    (∀ b l, memory a !! b = Some l → memory (bumpIndices (grown a counts) counts) !! b = Some l ∧ own' b = own b) ∧
    (∀ k, 0 <= k < n + 2 → index (bumpIndices (grown a counts) counts) k = index a k + at_ counts k) ∧
    banks_at own' (bumpIndices (grown a counts) counts) ws (arenaIndices a) counts ∧
    (∀ k x j, 0 <= k < n → gcVisible k = true → index a k <= j → zget (slab (grown a counts) k) j = Some x → x = zero k) ∧
    (∀ k, 0 <= k < n → 0 < at_ counts k → ∃ w, zget ws k = Some (Some w) ∧ base w = slabAddress (grown a counts) k).
Proof.
  intros Hok (Hc & Hc1 & Hc2) Hsome Huse.
  destruct (grown_ok own a counts Hok Hc) as (own' & Hok' & Hex & Hroom).
  assert (Hi : ∀ k, index (grown a counts) k = index a k) by (intros; unfold index; by rewrite (ex_indices _ _ _ _ Hex)).
  assert (Hw : ∀ k, 0 <= k < n → windowOf (grown a counts) k (at_ counts k) =
    Some (NewWindow (slabAddress (grown a counts) k) (index a k) (at_ counts k))).
  { intros k Hk. apply (windowOf_grown own'); [done|done|done|by apply Hroom|by eapply ex_indices]. }
  destruct (mapM_banks (assign (grown a counts))) as (ws & Hws & Hlen & Hget).
  { intros k Hk. apply Hsome; [done|]. rewrite Hw by done. by eexists. }
  exists own', ws. split_and!; [done| | | | | |].
  - apply bump_ok; [done|done|done|done|]. intros k Hk. rewrite Hi. by apply Hroom.
  - intros b l Hb. by apply (ex_memory _ _ _ _ Hex).
  - intros k Hk. rewrite index_bump by (done || by eapply ao_indices). by rewrite Hi.
  - split; [done|]. intros k Hk Hpos. rewrite Hget, Huse, Hw by done. cbn [mbind option_bind].
    destruct (ao_slab _ _ Hok' k ltac:(lia)) as (Hm & Ho & Hr). specialize (Hroom k Hk). rewrite Hi in Hr.
    change (at_ (arenaIndices a) k) with (index a k).
    eexists _, _. split_and!; [done|done|exact Hm|lia|lia].
  - intros k x j Hk Hg Hj Hx. apply (ao_zero _ _ Hok' k j); [done|done|by rewrite Hi|done].
  - intros k Hk Hpos. rewrite Hget, Huse, Hw by done. by eexists.
Qed.

(** ** Clearing and restoring *)

Lemma clearRange_ok own a k low high :
  arena_ok own a → 0 <= k < n + 2 → 0 <= low <= high → high <= zlen (slab a k) →
  ∃ a', clearRange zero a k low high = Some a' ∧ arenaIndices a' = arenaIndices a ∧ slabs a' = slabs a ∧
    nextAddress a' = nextAddress a ∧
    (∀ b, b ≠ slabAddress a k → memory a' !! b = memory a !! b) ∧
    memory a' !! slabAddress a k = Some (slab a' k) ∧ zlen (slab a' k) = zlen (slab a k) ∧
    (∀ j, j < low ∨ high <= j → zget (slab a' k) j = zget (slab a k) j) ∧
    (∀ j, low <= j < high → zget (slab a' k) j = Some (zero k)).
Proof.
  intros Hok Hk Hlow Hhigh. unfold clearRange.
  rewrite (proj2 (Z.leb_le 0 low)), (proj2 (Z.leb_le low high)), (proj2 (Z.leb_le high _)) by lia. cbn [andb].
  eexists. split; [done|]. set (l := slab a k) in *.
  set (l' := take (Z.to_nat low) l ++ makeSlab k (high - low) ++ drop (Z.to_nat high) l).
  assert (Hs : slab (setMemory a (<[slabAddress a k := l']> (memory a))) k = l').
  { unfold slab. cbn [setMemory memory slabs slabAddress]. unfold slabAddress. cbn [setMemory slabs].
    by rewrite lookup_insert_eq. }
  assert (Hlen : length (take (Z.to_nat low) l) = Z.to_nat low) by (apply length_take_le; lia).
  assert (Hmid : length (makeSlab k (high - low)) = Z.to_nat (high - low)) by apply length_replicate.
  rewrite Hs. split_and!; try done.
  - intros b Hb. cbn [setMemory memory]. by rewrite lookup_insert_ne.
  - cbn [setMemory memory]. by rewrite lookup_insert_eq.
  - unfold l'. rewrite !length_app, Hlen, Hmid, length_drop. lia.
  - intros j Hj. unfold zget. destruct (j <? 0) eqn:E; [done|]. unfold l'. destruct Hj.
    + rewrite lookup_app_l by lia. by rewrite lookup_take_lt by lia.
    + rewrite lookup_app_r by lia. rewrite lookup_app_r by lia. rewrite lookup_drop. f_equal. lia.
  - intros j Hj. unfold zget. rewrite (proj2 (Z.ltb_ge j 0)) by lia. unfold l'.
    rewrite lookup_app_r by lia. rewrite lookup_app_l by lia. apply lookup_replicate_2. lia.
Qed.

Lemma slab_other own a a' k j :
  arena_ok own a → 0 <= k < n + 2 → 0 <= j < n + 2 → j ≠ k → slabs a' = slabs a →
  (∀ b, b ≠ slabAddress a k → memory a' !! b = memory a !! b) → slab a' j = slab a j ∧ slabAddress a j ≠ slabAddress a k.
Proof.
  intros Hok Hk Hj Hne Hs Hm. destruct (ao_slab _ _ Hok j Hj) as (_ & Hoj & _). destruct (ao_slab _ _ Hok k Hk) as (_ & Hok' & _).
  assert (Hd : slabAddress a j ≠ slabAddress a k) by congruence.
  split; [|done]. unfold slab, slabAddress in *. rewrite Hs. by rewrite Hm.
Qed.

Lemma clearRange_demand (a a' : RegisterArena) k low high : clearRange zero a k low high = Some a' →
  scalarDemandSinceReset a' = scalarDemandSinceReset a ∧ scalarDemandLastReset a' = scalarDemandLastReset a ∧
  scalarIdleResets a' = scalarIdleResets a.
Proof. unfold clearRange. case_if; [|done]. by intros [= <-]. Qed.

(** What a clear changes: one class, between the bounds. *)
Definition cleared (own : Z → Z) (a a' : RegisterArena) (k low high : Z) : Prop :=
  arenaIndices a' = arenaIndices a ∧ slabs a' = slabs a ∧
  (∀ b l, memory a !! b = Some l → ∃ l', memory a' !! b = Some l' ∧ zlen l' = zlen l ∧
    ∀ j, own b ≠ k ∨ j < low ∨ high <= j → zget l' j = zget l j) ∧
  (∀ j, low <= j < high → zget (slab a' k) j = Some (zero k)) ∧
  (∀ j, 0 <= j < n + 2 → j ≠ k → slab a' j = slab a j) ∧
  (∀ j, j < low ∨ high <= j → zget (slab a' k) j = zget (slab a k) j) ∧ zlen (slab a' k) = zlen (slab a k).

Lemma clear_ok own a k low high :
  arena_ok own a → 0 <= k < n + 2 → 0 <= low <= high → high <= zlen (slab a k) →
  ∃ a', clearRange zero a k low high = Some a' ∧ arena_ok own a' ∧ cleared own a a' k low high.
Proof.
  intros Hok Hk Hlow Hhigh.
  destruct (clearRange_ok own a k low high Hok Hk Hlow Hhigh) as (a' & Ha' & Hi & Hs & Hn & Hm & Hmk & Hlen & Hout & Hin).
  pose proof Hok as [G1 G2 G3 G4 G5 G6]. exists a'. split; [done|].
  assert (Haddr : ∀ j, slabAddress a' j = slabAddress a j) by (intros; unfold slabAddress; by rewrite Hs).
  assert (Hidx : ∀ j, index a' j = index a j) by (intros; unfold index; by rewrite Hi).
  assert (Hother : ∀ j, 0 <= j < n + 2 → j ≠ k → slab a' j = slab a j ∧ slabAddress a j ≠ slabAddress a k).
  { intros. by apply (slab_other own a a' k). }
  split; [split|].
  - by rewrite Hs.
  - by rewrite Hi.
  - intros j Hj. rewrite Haddr, Hidx. destruct (G3 j Hj) as (Hmj & Hoj & Hij). destruct (decide (j = k)) as [->|Hne].
    + split_and!; try done; lia.
    + destruct (Hother j Hj Hne) as [Hsj Hd]. rewrite Hsj, Hm by done. exact (G3 j Hj).
  - intros j i x Hj Hg. rewrite Hidx. destruct (decide (j = k)) as [->|Hne].
    + intros Hi' Hx. destruct (decide (low <= i < high)) as [Hb|Hb]; [rewrite Hin in Hx by done; by injection Hx as <-|].
      rewrite Hout in Hx by lia. by apply (G4 k i).
    + destruct (Hother j ltac:(lia) Hne) as [-> _]. by apply G4.
  - intros b l Hb. rewrite Hn. destruct (decide (b = slabAddress a k)) as [->|Hne].
    + destruct (G3 k Hk) as [Hmem _]. by apply (G5 _ _ Hmem).
    + rewrite Hm in Hb by done. by apply (G5 _ _ Hb).
  - destruct (clearRange_demand a a' k low high Ha') as (_ & _ & ->). done.
  - split_and!; try done; [|intros j Hj Hne; by apply Hother]. intros b l Hb. destruct (decide (b = slabAddress a k)) as [->|Hne].
    + destruct (G3 k Hk) as (Hmem & Hown & _). rewrite Hmem in Hb. injection Hb as <-. exists (slab a' k). split_and!; [done|lia|].
      intros j [Hj|Hj]; [congruence|by apply Hout].
    + exists l. rewrite Hm by done. by split_and!.
Qed.

Lemma restoreBank_ok own a sp k :
  arena_ok own a → 0 <= k < n → 0 <= at_ sp k <= index a k →
  ∃ a', restoreBank zero sp a k = Some a' ∧ arena_ok own a' ∧ arenaIndices a' = arenaIndices a ∧
    (∀ b l, memory a !! b = Some l → ∃ l', memory a' !! b = Some l' ∧ zlen l' = zlen l ∧
      ∀ j, j < at_ sp (own b) → zget l' j = zget l j) ∧
    (gcVisible k = true → ∀ j x, at_ sp k <= j → zget (slab a' k) j = Some x → x = zero k) ∧
    (∀ j, 0 <= j < n → j ≠ k → slab a' j = slab a j).
Proof.
  intros Hok Hk Hsp. unfold restoreBank. destruct (gcVisible k && (at_ sp k <? index a k)) eqn:Hc; bool_hyps.
  - destruct (ao_slab _ _ Hok k ltac:(lia)) as (_ & _ & Hi).
    destruct (clear_ok own a k (at_ sp k) (index a k)) as (a' & Ha' & Hok' & H1 & H2 & H3 & H4 & H5 & H6 & H7); [done|lia|lia|lia|].
    exists a'. split_and!; [done|done|done| | |].
    + intros b l Hb. destruct (H3 b l Hb) as (l' & Hb' & Hl' & Heq). exists l'. split_and!; [done|done|].
      intros j Hj. apply Heq. destruct (decide (own b = k)) as [Ho|]; [rewrite Ho in Hj; auto|auto].
    + intros Hg j x Hj Hx. destruct (decide (j < index a k)); [rewrite H4 in Hx by lia; by injection Hx as <-|].
      apply (ao_zero _ _ Hok k j); [done|done|lia|]. rewrite <- H6 by lia. done.
    + intros j Hj Hne. apply H5; [lia|done].
  - exists a. split_and!; [done|done|done|by intros b l Hb; exists l| |done].
    intros Hg j x Hj Hx. rewrite Hg in Hc. cbn in Hc. apply (ao_zero _ _ Hok k j); [done|done|lia|done].
Qed.

Lemma eachBank_ok own a sp ks :
  arena_ok own a → (∀ k, k ∈ ks → 0 <= k < n) → (∀ k, 0 <= k < n → 0 <= at_ sp k <= index a k) →
  ∃ a', eachBank (restoreBank zero sp) a ks = Some a' ∧ arena_ok own a' ∧ arenaIndices a' = arenaIndices a ∧
    (∀ b l, memory a !! b = Some l → ∃ l', memory a' !! b = Some l' ∧ zlen l' = zlen l ∧
      ∀ j, j < at_ sp (own b) → zget l' j = zget l j) ∧
    (∀ k j x, k ∈ ks ∨ (∀ j x, at_ sp k <= j → zget (slab a k) j = Some x → x = zero k) → 0 <= k < n →
      gcVisible k = true → at_ sp k <= j → zget (slab a' k) j = Some x → x = zero k).
Proof.
  revert a. induction ks as [|k ks IH]; intros a Hok Hks Hsp; cbn [eachBank].
  { exists a. split_and!; [done|done|done|by intros b l Hb; exists l|].
    intros k j x [?%elem_of_nil|Hz] _ _; [done|by apply Hz]. }
  destruct (restoreBank_ok own a sp k Hok ltac:(apply Hks; by left) ltac:(apply Hsp, Hks; by left))
    as (a1 & Ha1 & Hok1 & Hi1 & Hm1 & Hz1 & Hs1).
  assert (Hidx : ∀ j, index a1 j = index a j) by (intros; unfold index; by rewrite Hi1).
  destruct (IH a1 Hok1 ltac:(intros; apply Hks; by right) ltac:(intros; rewrite Hidx; by apply Hsp))
    as (a' & Ha' & Hok' & Hi' & Hm' & Hz').
  exists a'. rewrite Ha1. cbn [mbind option_bind]. split_and!; [done|done|congruence| |].
  - intros b l Hb. destruct (Hm1 b l Hb) as (l1 & Hb1 & Hl1 & He1). destruct (Hm' b l1 Hb1) as (l' & Hb' & Hl' & He').
    exists l'. split_and!; [done|lia|]. intros j Hj. rewrite He', He1 by done. done.
  - intros j i x Hj Hjn Hg. apply Hz'; [|done|done]. destruct (decide (j = k)) as [->|Hne].
    + right. intros i' x' Hi2 Hx'. by apply (Hz1 Hg i').
    + destruct Hj as [[->|Hj]%elem_of_cons|Hj]; [done|by left|]. right. rewrite Hs1 by done. exact Hj.
Qed.

Lemma Restore_ok own a sp :
  arena_ok own a → zlen sp = n + 2 → (∀ k, 0 <= k < n + 2 → 0 <= at_ sp k <= index a k) →
  ∃ a', Restore zero a sp = Some a' ∧ arena_ok own a' ∧ arenaIndices a' = sp ∧
    ∀ b l, memory a !! b = Some l → ∃ l', memory a' !! b = Some l' ∧ zlen l' = zlen l ∧
      ∀ j, j < at_ sp (own b) → zget l' j = zget l j.
Proof.
  intros Hok Hl Hsp. destruct (eachBank_ok own a sp banks Hok) as (a1 & Ha1 & Hok1 & Hi1 & Hm1 & Hz1);
    [by intros k ?%elem_of_banks|intros; apply Hsp; lia|].
  unfold Restore. rewrite Ha1. cbn [mbind option_bind]. eexists. split; [done|].
  assert (Hidx : ∀ j, index a1 j = index a j) by (intros; unfold index; by rewrite Hi1).
  split_and!; [|done|done]. destruct Hok1 as [G1 G2 G3 G4 G5 G6]. split; try done.
  - intros k Hk. change (slab (setIndices a1 sp) k) with (slab a1 k). change (index (setIndices a1 sp) k) with (at_ sp k).
    destruct (G3 k Hk) as (Hmk & Hok2 & Hik). specialize (Hsp k Hk). rewrite Hidx in Hik. split_and!; [done|done|lia|lia].
  - intros k j x Hk Hg Hj. change (index (setIndices a1 sp) k) with (at_ sp k) in Hj.
    apply Hz1; [left; by apply elem_of_banks|done|done|done].
Qed.

(** ** What an operation leaves to the frames below a limit *)

Definition kept (own : Z → Z) (a : RegisterArena) (own' : Z → Z) (a' : RegisterArena) (limit : Z → Z) : Prop :=
  ∀ b l, memory a !! b = Some l → 0 <= own b < n → ∃ l', memory a' !! b = Some l' ∧ zlen l' = zlen l ∧
    own' b = own b ∧ ∀ j, j < limit (own b) → zget l' j = zget l j.

Lemma extends_kept own a own' a' limit : extends own a own' a' → kept own a own' a' limit.
Proof. intros [Hm _] b l Hb _. destruct (Hm b l Hb) as [Hb' Ho]. exists l. by split_and!. Qed.

Lemma kept_trans own a own' a' own'' a'' limit :
  kept own a own' a' limit → kept own' a' own'' a'' limit → kept own a own'' a'' limit.
Proof.
  intros H1 H2 b l Hb Ho. destruct (H1 b l Hb Ho) as (l1 & Hb1 & Hl1 & Ho1 & He1).
  destruct (H2 b l1 Hb1 ltac:(by rewrite Ho1)) as (l2 & Hb2 & Hl2 & Ho2 & He2).
  exists l2. split_and!; [done|congruence|congruence|]. intros j Hj. rewrite He2, He1 by congruence. done.
Qed.

Lemma banks_kept own a own' a' limit ws save counts :
  kept own a own' a' limit → banks_at own a ws save counts → banks_at own' a' ws save counts.
Proof.
  intros Hk [Hl Hw]. split; [done|]. intros k Hkn Hpos. destruct (Hw k Hkn Hpos) as (b & l & Hz & Ho & Hm & Hs & Hb).
  destruct (Hk b l Hm ltac:(by rewrite Ho)) as (l' & Hm' & Hl' & Ho' & _).
  exists b, l'. split_and!; [done|congruence|done|done|lia].
Qed.

Definition readBank (a : RegisterArena) (ws : list (option window)) (k r : Z) : option V :=
  w ← zget ws k; w ← w;
  if (0 <=? r) && (r <? size w) then contents ← memory a !! base w; zget contents (offset w + r) else None.

Lemma read_kept own a own' a' limit ws save counts k r :
  kept own a own' a' limit → banks_at own a ws save counts → 0 <= k < n →
  at_ save k + at_ counts k <= limit k → 0 <= r < at_ counts k → readBank a' ws k r = readBank a ws k r.
Proof.
  intros Hk [Hl Hw] Hkn Hlim Hr. destruct (Hw k Hkn ltac:(lia)) as (b & l & Hz & Ho & Hm & Hs & Hb).
  destruct (Hk b l Hm ltac:(by rewrite Ho)) as (l' & Hm' & Hl' & Ho' & He).
  unfold readBank. rewrite Hz. cbn [mbind option_bind size base offset].
  rewrite (proj2 (Z.leb_le 0 r)), (proj2 (Z.ltb_lt r _)) by lia. cbn [andb]. rewrite Hm, Hm'. cbn [mbind option_bind].
  apply He. rewrite Ho. lia.
Qed.

Lemma allocUpvalues_ok own a m :
  arena_ok own a → 0 <= m →
  ∃ own' a' w, allocUpvalues zero a upvalueReferenceClass m = Some (a', w) ∧ arena_ok own' a' ∧
    (∀ limit, kept own a own' a' limit) ∧
    ∀ k, 0 <= k < n + 2 → index a' k = index a k + (if k =? upvalueReferenceClass then m else 0).
Proof.
  intros Hok Hm. unfold allocUpvalues. set (c := upvalueReferenceClass). assert (Hc : 0 <= c < n + 2) by (vm_compute; done).
  set (a1 := if zlen (slab a c) <? index a c + m then growSlab a c (index a c + m) else a).
  assert (H1 : ∃ own1, arena_ok own1 a1 ∧ extends own a own1 a1 ∧ index a c + m <= zlen (slab a1 c)).
  { unfold a1. destruct (Z.ltb_spec (zlen (slab a c)) (index a c + m)).
    - destruct (grow_ok own a c (index a c + m)) as (own1 & ? & ? & ? & _); [done|done|lia|]. by exists own1.
    - exists own. split_and!; [done|apply extends_refl|lia]. }
  destruct H1 as (own1 & Hok1 & Hex & Hroom).
  assert (Hidx : ∀ j, index a1 j = index a j) by (intros; unfold index; by rewrite (ex_indices _ _ _ _ Hex)).
  rewrite (Hidx c). set (a2 := setIndices a1 (zset (arenaIndices a1) c (index a c + m))).
  destruct (ao_slab _ _ Hok1 c Hc) as (_ & _ & Hi1). rewrite Hidx in Hi1.
  assert (Hidx2 : ∀ j, 0 <= j < n + 2 → index a2 j = index a j + (if j =? c then m else 0)).
  { intros j Hj. unfold a2, index at 1. cbn [setIndices arenaIndices]. rewrite zget_zset.
    rewrite Z.eqb_sym. destruct (Z.eqb_spec j c) as [->|Hne].
    - rewrite bool_decide_eq_true_2 by (rewrite (ao_indices _ _ Hok1); lia). done.
    - rewrite Z.add_0_r. apply Hidx. }
  assert (Hok2 : arena_ok own1 a2).
  { pose proof Hok1 as [G1 G2 G3 G4 G5 G6]. split; try done.
    - cbn. by rewrite length_zset.
    - intros k Hk. rewrite Hidx2 by done. change (slab a2 k) with (slab a1 k). destruct (G3 k Hk) as (? & ? & Hi). rewrite Hidx in Hi.
      split_and!; [done|done| |]; destruct (Z.eqb_spec k c) as [->|]; lia.
    - intros k j x Hk Hg. rewrite Hidx2 by lia. rewrite (proj2 (Z.eqb_neq k c)) by (unfold c, upvalueReferenceClass; lia).
      rewrite Z.add_0_r, <- Hidx. by apply G4. }
  destruct (clear_ok own1 a2 c (index a c) (index a c + m)) as (a3 & Ha3 & Hok3 & Hi3 & _ & Hm3 & _); [done|done|lia|exact Hroom|].
  rewrite Ha3. cbn [mbind option_bind]. eexists own1, a3, _. split_and!; [done|done| |].
  - intros limit. eapply kept_trans; [by apply (extends_kept _ _ _ a1)|]. intros b l Hb Ho.
    destruct (Hm3 b l Hb) as (l' & Hb' & Hl' & He). exists l'. split_and!; [done|done|done|].
    intros j _. apply He. left. unfold c, upvalueReferenceClass. lia.
  - intros k Hk. rewrite <- Hidx2 by done. unfold index. by rewrite Hi3.
Qed.

(** ** Counts *)

Definition numRegs_ok (numRegs : list Z) : Prop := ∀ k, 0 <= default 0 (zget numRegs k).

Lemma at_counts numRegs k : at_ (ArenaCountsFromNumRegs numRegs) k =
  if decide (0 <= k < n) then default 0 (zget numRegs k) else 0.
Proof.
  unfold at_, ArenaCountsFromNumRegs. case_decide as Hk.
  - destruct (zget (map (λ k, default 0 (zget numRegs k)) banks) k) as [c|] eqn:Hc.
    + apply zget_map in Hc as (k' & Hk' & ->). unfold banks in Hk'. rewrite zget_seqZ in Hk' by done. by injection Hk' as <-.
    + apply zget_None in Hc. destruct Hc. rewrite length_map. unfold banks. rewrite length_seqZ. lia.
  - replace (zget (map _ banks) k) with (@None Z); [done|]. symmetry. apply zget_None. rewrite length_map. unfold banks.
    rewrite length_seqZ. lia.
Qed.

Lemma counts_numRegs numRegs : numRegs_ok numRegs → counts_ok (ArenaCountsFromNumRegs numRegs).
Proof.
  intros Hn. split_and!.
  - intros k. rewrite at_counts. case_decide; [apply Hn|done].
  - rewrite at_counts. by rewrite decide_False by lia.
  - rewrite at_counts. by rewrite decide_False by lia.
Qed.

Lemma mask_bit numRegs k : numRegs_ok numRegs → 0 <= k < n →
  Z.testbit (computeNonZeroBankMask numRegs) k = (0 <? at_ (ArenaCountsFromNumRegs numRegs) k).
Proof.
  intros Hn Hk. rewrite at_counts, decide_True by done. unfold computeNonZeroBankMask.
  assert (H : ∀ ks mask, (∀ k, k ∈ ks → 0 <= k) →
    Z.testbit (foldl (λ mask k, if 0 <? default 0 (zget numRegs k) then Z.lor mask (Z.shiftl 1 k) else mask) mask ks) k =
    Z.testbit mask k || bool_decide (k ∈ ks ∧ 0 < default 0 (zget numRegs k))).
  { induction ks as [|x ks IH]; intros mask Hks; cbn [foldl].
    - rewrite bool_decide_eq_false_2; [by rewrite orb_false_r|]. by intros [?%elem_of_nil _].
    - rewrite IH by (intros; apply Hks; by right). assert (0 <= x) by (apply Hks; by left).
      destruct (Z.ltb_spec 0 (default 0 (zget numRegs x))) as [Hx|Hx].
      + rewrite Z.lor_spec, Z.shiftl_1_l, Z.pow2_bits_eqb by done. destruct (Z.eqb_spec x k) as [->|Hne].
        * rewrite orb_true_r, (bool_decide_eq_true_2 (k ∈ k :: ks ∧ _)) by (split; [by left|done]). by rewrite !orb_true_r.
        * rewrite orb_false_r. f_equal. apply bool_decide_ext. rewrite elem_of_cons. naive_solver.
      + f_equal. apply bool_decide_ext. rewrite elem_of_cons. split; [naive_solver|]. intros [[->|] ?]; [lia|done]. }
  rewrite H by (intros ? ?%elem_of_banks; lia). rewrite Z.testbit_0_l. cbn [orb].
  destruct (Z.ltb_spec 0 (default 0 (zget numRegs k))).
  - apply bool_decide_eq_true_2. split; [by apply elem_of_banks|done].
  - apply bool_decide_eq_false_2. lia.
Qed.
End sound.
