(* ===== verification/CallStack.v ===== *)
(** * The call stack keeps its register files apart

    However frames are pushed, popped, replaced by tail calls and written to,
    the machine behaves like a stack of register files of their own: growing a
    slab, reusing a frame slot and clearing what a frame held change no register
    of another frame. *)

From S2P Require Import Prelude Register Arena ArenaSound.

Section stack.
Context {V : Type} (zero : Z → V).

#[local] Notation n := NumRegisterKinds.
#[local] Notation VM := (VM (V:=V)).
#[local] Notation arena_ok := (arena_ok zero).
Implicit Types (vm : VM) (own : Z → Z) (k i : Z).

(** ** The invariant *)

Definition countsOf (f : CallFrame) : list Z :=
  match Function f with Some numRegs => ArenaCountsFromNumRegs numRegs | None => [] end.

Record frame_ok (own : Z → Z) (a : RegisterArena (V:=V)) (f : CallFrame) : Prop := {
  fo_function : ∃ numRegs, Function f = Some numRegs ∧ numRegs_ok numRegs;
  fo_save : zlen (arenaSave f) = n + 2;
  fo_banks : banks_at own a (windows (Registers_ f)) (arenaSave f) (countsOf f);
  fo_below k : 0 <= k < n + 2 → 0 <= at_ (arenaSave f) k ∧ at_ (arenaSave f) k + at_ (countsOf f) k <= index a k;
}.

(** The frames up to the frame pointer are live; each begins above the banks of
    the frames below it. *)
Record vm_ok (own : Z → Z) (vm : VM) : Prop := {
  vo_arena : arena_ok own (Arena vm);
  vo_pointer : -1 <= FramePointer vm < zlen (CallStack vm);
  vo_stack : 0 < zlen (CallStack vm);
  vo_frame i f : i <= FramePointer vm → zget (CallStack vm) i = Some f → frame_ok own (Arena vm) f;
  vo_order i j f g k : i < j <= FramePointer vm → zget (CallStack vm) i = Some f → zget (CallStack vm) j = Some g →
    0 <= k < n + 2 → at_ (arenaSave f) k + at_ (countsOf f) k <= at_ (arenaSave g) k;
  vo_slots f : f ∈ CallStack vm → zlen (windows (Registers_ f)) = n;
}.

(** ** Register files *)

(** The file of a frame: the values of every bank its function uses. *)
Definition file_of (a : RegisterArena (V:=V)) (f : CallFrame) (file : list (list V)) : Prop :=
  zlen file = n ∧ ∀ k, 0 <= k < n → ∃ l, zget file k = Some l ∧ zlen l = at_ (countsOf f) k ∧
    ∀ r, 0 <= r < at_ (countsOf f) k → readBank a (windows (Registers_ f)) k r = zget l r.

Definition represents (vm : VM) (files : list (list (list V))) : Prop :=
  zlen files = FramePointer vm + 1 ∧
  ∀ i f, i <= FramePointer vm → zget (CallStack vm) i = Some f →
    ∃ file, zget files i = Some file ∧ file_of (Arena vm) f file.

(** A new file: as many registers as the function asks for, and nil in the banks
    of pointers. *)
Definition fresh (numRegs : list Z) (file : list (list V)) : Prop :=
  zlen file = n ∧ ∀ k, 0 <= k < n → ∃ l, zget file k = Some l ∧ zlen l = at_ (ArenaCountsFromNumRegs numRegs) k ∧
    (gcVisible k = true → l = makeSlab zero k (zlen l)).

Definition file_set (file : list (list V)) (k r : Z) (v : V) : list (list V) :=
  match zget file k with Some l => zset file k (zset l r v) | None => file end.

(** The machine a program believes it runs on. *)
Inductive file_step : list (list (list V)) → list (list (list V)) → Prop :=
  | file_push files numRegs file : fresh numRegs file → file_step files (files ++ [file])
  | file_overflow files : file_step files files
  | file_pop files file : file_step (files ++ [file]) files
  | file_tail files file numRegs file' : fresh numRegs file' → file_step (files ++ [file]) (files ++ [file'])
  | file_write files i file k r l v :
      zget files i = Some file → zget file k = Some l → 0 <= r < zlen l →
      file_step files (zset files i (file_set file k r v)).

(** ** Frames under the operations of the arena *)

Lemma counts_frame f numRegs : Function f = Some numRegs → countsOf f = ArenaCountsFromNumRegs numRegs.
Proof. unfold countsOf. by intros ->. Qed.

Lemma file_kept own a own' a' limit f file :
  kept own a own' a' limit → frame_ok own a f →
  (∀ k, 0 <= k < n → at_ (arenaSave f) k + at_ (countsOf f) k <= limit k) →
  file_of a f file → file_of a' f file.
Proof.
  intros Hk Hf Hlim [Hl Hfile]. split; [done|]. intros k Hkn. destruct (Hfile k Hkn) as (l & Hz & Hlen & Hr).
  exists l. split_and!; [done|done|]. intros r Hrr. rewrite <- Hr by done.
  apply (read_kept own a own' a' limit _ (arenaSave f) (countsOf f)); [done|by eapply fo_banks|done|by apply Hlim|done].
Qed.

Lemma frame_kept own a own' a' limit f :
  kept own a own' a' limit → frame_ok own a f →
  (∀ k, 0 <= k < n + 2 → at_ (arenaSave f) k + at_ (countsOf f) k <= index a' k) → frame_ok own' a' f.
Proof.
  intros Hk [H1 H2 H3 H4] Hi. split; [done|done|by eapply banks_kept|]. intros k Hkn. destruct (H4 k Hkn). auto.
Qed.

(** The values a list of banks holds. *)
Definition contents_of (a : RegisterArena (V:=V)) (ws : list (option window)) (counts : list Z) : list (list V) :=
  map (λ k, omap (λ r, readBank a ws k r) (seqZ 0 (at_ counts k))) banks.

Lemma omap_all {A B} (f : A → option B) (l : list A) :
  (∀ x, x ∈ l → is_Some (f x)) → length (omap f l) = length l ∧ ∀ (m : nat) x, l !! m = Some x → omap f l !! m = f x.
Proof.
  induction l as [|x l IH]; intros Hf; [done|]. destruct (Hf x ltac:(by left)) as [y Hy].
  destruct IH as [Hl Hi]; [intros; apply Hf; by right|]. cbn. rewrite Hy. split; [by cbn; rewrite Hl|].
  intros [|m] z; cbn; [by intros [= <-]|apply Hi].
Qed.

Lemma read_at own (a : RegisterArena (V:=V)) ws save counts k r :
  banks_at own a ws save counts → 0 <= k < n → 0 <= r < at_ counts k → is_Some (readBank a ws k r).
Proof.
  intros [_ Hw] Hk Hr. destruct (Hw k Hk ltac:(lia)) as (b & l & Hz & _ & Hm & Hs & Hb).
  unfold readBank. rewrite Hz. cbn [mbind option_bind size base offset].
  rewrite (proj2 (Z.leb_le 0 r)), (proj2 (Z.ltb_lt r _)) by lia. cbn [andb]. rewrite Hm. cbn [mbind option_bind].
  destruct (zget_is_Some l (at_ save k + r)) as [x Hx]; [lia|]. by exists x.
Qed.

Lemma contents_file own (a : RegisterArena (V:=V)) f :
  banks_at own a (windows (Registers_ f)) (arenaSave f) (countsOf f) → (∀ k, 0 <= at_ (countsOf f) k) →
  file_of a f (contents_of a (windows (Registers_ f)) (countsOf f)).
Proof.
  intros Hb Hc. unfold contents_of. split; [rewrite length_map; unfold banks; rewrite length_seqZ; done|].
  intros k Hk. destruct (omap_all (λ r, readBank a (windows (Registers_ f)) k r) (seqZ 0 (at_ (countsOf f) k))) as [Hl Hi].
  { intros r Hr%elem_of_seqZ. eapply read_at; [done|done|lia]. }
  eexists. split; [apply zget_map; exists k; split; [by apply zget_seqZ|reflexivity]|]. split.
  - rewrite Hl, length_seqZ. specialize (Hc k). lia.
  - intros r Hr. rewrite (zget_lookup _ r) by lia. symmetry. apply Hi. rewrite lookup_seqZ. lia.
Qed.

(** ** Entering and leaving *)

Lemma enterFrame_ok own vm : vm_ok own vm →
  Arena (enterFrame vm) = Arena vm ∧ FramePointer (enterFrame vm) = FramePointer vm + 1 ∧
  (∃ extra, CallStack (enterFrame vm) = CallStack vm ++ replicate extra emptyFrame) ∧
  FramePointer vm + 1 < zlen (CallStack (enterFrame vm)) ∧
  (∀ f, f ∈ CallStack (enterFrame vm) → zlen (windows (Registers_ f)) = n).
Proof.
  intros [_ Hfp Hpos _ _ Hslots]. unfold enterFrame. cbn [setStack CallStack FramePointer].
  destruct (Z.leb_spec (zlen (CallStack vm)) (FramePointer vm + 1)).
  - unfold growCallStack. cbn [setStack CallStack FramePointer Arena ObservedCallDepth].
    set (newCap := if 0 <? _ then _ else _).
    assert (Hcap : zlen (CallStack vm) * 2 <= newCap) by (unfold newCap; destruct (0 <? _); lia).
    split_and!; [done|done|by eexists| |].
    + rewrite length_app, length_replicate. lia.
    + intros f [Hf|Hf]%elem_of_app; [by apply Hslots|]. apply elem_of_replicate in Hf as [-> _]. done.
  - split_and!; [done|done|exists 0%nat; by rewrite app_nil_r|cbn; lia|done].
Qed.

Lemma zget_app_below {A} (l l' : list A) i : i < zlen l → zget (l ++ l') i = zget l i.
Proof. intros Hi. unfold zget. destruct (i <? 0) eqn:E; [done|]. by rewrite lookup_app_l by lia. Qed.

Lemma entered_at own vm i : vm_ok own vm → i <= FramePointer vm → zget (CallStack (enterFrame vm)) i = zget (CallStack vm) i.
Proof.
  intros Hok Hi. destruct (enterFrame_ok own vm Hok) as (_ & _ & (extra & ->) & _).
  apply zget_app_below. destruct (vo_pointer _ _ Hok). lia.
Qed.

(** A frame put on top of the stack, over an arena that keeps the frames below. *)
Lemma put_frame own vm own' (a' : RegisterArena (V:=V)) (r : Registers) numRegs :
  vm_ok own vm → arena_ok own' a' → kept own (Arena vm) own' a' (index (Arena vm)) → numRegs_ok numRegs →
  let f := NewCallFrame r (arenaIndices (Arena vm)) (Some numRegs) in
  banks_at own' a' (windows r) (arenaSave f) (countsOf f) → zlen (windows r) = n →
  (∀ k, 0 <= k < n + 2 → index (Arena vm) k + at_ (countsOf f) k <= index a' k) →
  let vm' := setStack (setArena (enterFrame vm) a') (zset (CallStack (enterFrame vm)) (FramePointer vm + 1) f) (FramePointer vm + 1) in
  vm_ok own' vm' ∧ ∀ files file, represents vm files → file_of a' f file → represents vm' (files ++ [file]).
Proof.
  intros Hok Ha' Hkept Hnum f Hb Hw Hi vm'. pose proof Hok as [Ha Hfp Hpos Hfr Hord Hsl].
  destruct (enterFrame_ok own vm Hok) as (_ & _ & _ & Hlt & Hslots).
  assert (Hc : ∀ k, 0 <= at_ (countsOf f) k) by (by apply counts_numRegs).
  assert (Hat : ∀ i g, i <= FramePointer vm + 1 → zget (CallStack vm') i = Some g →
    (i = FramePointer vm + 1 ∧ g = f) ∨ (i <= FramePointer vm ∧ zget (CallStack vm) i = Some g)).
  { intros i g Hil. unfold vm'. cbn [setStack setArena CallStack]. rewrite zget_zset.
    destruct (Z.eqb_spec (FramePointer vm + 1) i) as [<-|Hne].
    - rewrite bool_decide_eq_true_2 by lia. intros [= <-]. by left.
    - intros Hg. right. split; [lia|]. by rewrite (entered_at own) in Hg by (done || lia). }
  assert (Hsave : ∀ k, 0 <= k < n + 2 → 0 <= index (Arena vm) k).
  { intros k Hk. destruct (ao_slab _ _ _ Ha k Hk) as (_ & _ & ?). lia. }
  assert (Hold : ∀ i g k, i <= FramePointer vm → zget (CallStack vm) i = Some g → 0 <= k < n + 2 →
    at_ (arenaSave g) k + at_ (countsOf g) k <= index (Arena vm) k).
  { intros i g k Hil Hg Hk. by apply (fo_below _ _ _ (Hfr i g Hil Hg)). }
  split; [split|].
  - done.
  - unfold vm'. cbn [setStack setArena CallStack FramePointer]. rewrite length_zset. lia.
  - unfold vm'. cbn [setStack setArena CallStack]. rewrite length_zset. lia.
  - intros i g Hil Hg. destruct (Hat i g Hil Hg) as [[-> ->]|[Hil' Hg']].
    + split; [by eexists|apply (ao_indices _ _ _ Ha)|done|]. intros k Hk. specialize (Hsave k Hk). specialize (Hi k Hk).
      change (at_ (arenaSave f) k) with (index (Arena vm) k). change (Arena vm') with a'. lia.
    + eapply frame_kept; [done|by eapply Hfr|]. intros k Hk. change (Arena vm') with a'.
      specialize (Hold i g k Hil' Hg' Hk). specialize (Hi k Hk). specialize (Hc k). lia.
  - intros i j g h k Hij Hg Hh Hk. destruct (Hat i g ltac:(unfold vm' in Hij; cbn in Hij; lia) Hg) as [[-> ->]|[Hil Hg']];
      destruct (Hat j h ltac:(unfold vm' in Hij; cbn in Hij; lia) Hh) as [[-> ->]|[Hjl Hh']].
    + lia.
    + lia.
    + change (at_ (arenaSave f) k) with (index (Arena vm) k). by eapply Hold.
    + eapply (Hord i j); [lia|done|done|done].
  - intros g Hg. unfold vm' in Hg. cbn [setStack setArena CallStack] in Hg.
    apply elem_of_zget in Hg as [i Hg]. rewrite zget_zset in Hg. destruct (_ =? i); [|apply Hslots, elem_of_zget; by exists i].
    case_bool_decide; [|done]. by injection Hg as <-.
  - intros files file [Hl Hrep] Hfile. split.
    + rewrite length_app. change (FramePointer vm') with (FramePointer vm + 1). cbn [length]. lia.
    + intros i g Hil Hg. destruct (Hat i g Hil Hg) as [[-> ->]|[Hil' Hg']].
      * exists file. split; [|done]. unfold zget. rewrite (proj2 (Z.ltb_ge _ 0)) by lia.
        rewrite lookup_app_r by lia. by replace (Z.to_nat (FramePointer vm + 1) - length files)%nat with 0%nat by lia.
      * destruct (Hrep i g Hil' Hg') as (file' & Hz & Hf'). exists file'. split; [by rewrite zget_app_below by lia|].
        eapply file_kept; [done|by eapply Hfr| |done]. intros k Hk. eapply Hold; [done|done|lia].
Qed.

(** ** Pushing *)

Lemma upvalues_ok own (a : RegisterArena (V:=V)) m : arena_ok own a →
  ∃ own' a', (if 0 <? m then '(a, _) ← allocUpvalues zero a upvalueReferenceClass m; Some a else Some a) = Some a' ∧
    arena_ok own' a' ∧ kept own a own' a' (index a) ∧ ∀ k, 0 <= k < n + 2 → index a k <= index a' k ∧ (k < n → index a' k = index a k).
Proof.
  intros Hok. destruct (Z.ltb_spec 0 m).
  - destruct (allocUpvalues_ok zero own a m Hok ltac:(lia)) as (own' & a' & w & -> & Hok' & Hk & Hi).
    exists own', a'. split_and!; [done|done|done|]. intros k Hkn. rewrite Hi by done. unfold upvalueReferenceClass.
    destruct (Z.eqb_spec k (n + 1)); lia.
  - exists own, a. split_and!; [done|done|by apply extends_kept, extends_refl|]. intros k _. split; [lia|done].
Qed.

(** The fresh windows hold nil in the banks of pointers. *)
Lemma fresh_contents own (a : RegisterArena (V:=V)) (ws : list (option window)) save numRegs :
  numRegs_ok numRegs → banks_at own a ws save (ArenaCountsFromNumRegs numRegs) →
  (∀ k, 0 <= k < n → gcVisible k = true → 0 < at_ (ArenaCountsFromNumRegs numRegs) k →
    ∀ r x, 0 <= r → readBank a ws k r = Some x → x = zero k) →
  fresh numRegs (contents_of a ws (ArenaCountsFromNumRegs numRegs)).
Proof.
  intros Hn Hb Hz. destruct (counts_numRegs _ Hn) as [Hc _].
  destruct (contents_file own a (NewCallFrame (NewRegisters ws 0) save (Some numRegs)) Hb Hc) as [Hl Hf]. split; [done|].
  intros k Hk. destruct (Hf k Hk) as (l & Hzl & Hlen & Hr). exists l. split_and!; [done|done|].
  intros Hg. change (countsOf _) with (ArenaCountsFromNumRegs numRegs) in *. cbn [Registers_ windows] in Hr.
  apply list_eq. intros i. unfold makeSlab. destruct (decide (i < length l)%nat) as [Hi|Hi].
  - rewrite lookup_replicate_2 by lia. specialize (Hr (Z.of_nat i) ltac:(lia)). rewrite zget_lookup, Nat2Z.id in Hr by lia.
    destruct (lookup_lt_is_Some_2 l i Hi) as [x Hx]. rewrite Hx in *. f_equal.
    apply (Hz k Hk Hg ltac:(lia) (Z.of_nat i)); [lia|done].
  - rewrite !(proj2 (lookup_ge_None _ _)); [done| |lia]. rewrite length_replicate. lia.
Qed.

(** Allocation over an arena, for either way of assigning the banks. *)
Lemma assigned_ok own (a : RegisterArena (V:=V)) numRegs assign :
  arena_ok own a → numRegs_ok numRegs →
  let counts := ArenaCountsFromNumRegs numRegs in
  (∀ k, 0 <= k < n → is_Some (windowOf (grown zero a counts) k (at_ counts k)) → is_Some (assign (grown zero a counts) k)) →
  (∀ k, 0 <= k < n → 0 < at_ counts k → assign (grown zero a counts) k = w ← windowOf (grown zero a counts) k (at_ counts k); Some (Some w)) →
  ∃ own' ws, mapM (assign (grown zero a counts)) banks = Some ws ∧
    arena_ok own' (bumpIndices (grown zero a counts) counts) ∧
    (∀ limit, kept own a own' (bumpIndices (grown zero a counts) counts) limit) ∧
    (∀ k, 0 <= k < n + 2 → index (bumpIndices (grown zero a counts) counts) k = index a k + at_ counts k) ∧
    banks_at own' (bumpIndices (grown zero a counts) counts) ws (arenaIndices a) counts ∧
    fresh numRegs (contents_of (bumpIndices (grown zero a counts) counts) ws counts).
Proof.
  intros Hok Hn counts Hsome Huse. pose proof (counts_numRegs _ Hn) as Hcounts.
  assert (Huse' : ∀ k, 0 < at_ counts k → 0 <= k < n).
  { intros k. unfold counts. rewrite at_counts. case_decide; [done|lia]. }
  destruct (alloc_ok zero own a counts assign Hok Hcounts Hsome ltac:(intros; apply Huse; auto))
    as (own' & ws & Hws & Hok' & Hmem & Hi & Hb & Hz & Hbase).
  exists own', ws. split_and!; [done|done| |done|done|].
  - intros limit b l Hbl _. destruct (Hmem b l Hbl) as [Hb' Ho]. exists l. by split_and!.
  - apply (fresh_contents own' _ ws (arenaIndices a)); [done|done|]. intros k Hk Hg Hpos r x Hr Hx.
    destruct (Hbase k Hk Hpos) as (w & Hw & Hbw). destruct Hb as [_ Hb].
    destruct (Hb k Hk Hpos) as (b & l & Hw' & _ & Hm & _). rewrite Hw in Hw'. injection Hw' as ->. cbn in Hbw.
    unfold readBank in Hx. rewrite Hw in Hx. cbn [mbind option_bind base size offset] in Hx.
    destruct (_ && _); [|done]. rewrite Hm in Hx. cbn [mbind option_bind] in Hx.
    apply (Hz k x (at_ (arenaIndices a) k + r) Hk Hg); [change (at_ (arenaIndices a) k) with (index a k); lia|].
    unfold slab. rewrite <- Hbw. change (memory (grown zero a counts)) with (memory (bumpIndices (grown zero a counts) counts)).
    by rewrite Hm.
Qed.

Lemma cached_ok own (a : RegisterArena (V:=V)) (r : Registers) numRegs :
  arena_ok own a → numRegs_ok numRegs →
  let counts := ArenaCountsFromNumRegs numRegs in
  ∃ own' a' r', allocRegistersIntoCached zero a r counts (computeNonZeroBankMask numRegs) = Some (a', r') ∧
    arena_ok own' a' ∧ (∀ limit, kept own a own' a' limit) ∧ (∀ k, 0 <= k < n + 2 → index a' k = index a k + at_ counts k) ∧
    banks_at own' a' (windows r') (arenaIndices a) counts ∧ fresh numRegs (contents_of a' (windows r') counts).
Proof.
  intros Hok Hn counts. subst counts. pose proof (λ k, mask_bit zero numRegs k Hn) as Hbit.
  destruct (assigned_ok own a numRegs (λ a k, assignCached a r (ArenaCountsFromNumRegs numRegs) (computeNonZeroBankMask numRegs) k) Hok Hn)
    as (own' & ws & Hws & Hrest).
  - intros k Hk [w Hw]. unfold assignCached. cbn beta. rewrite Hw. destruct (Z.testbit _ k); by eexists.
  - intros k Hk Hpos. unfold assignCached. rewrite Hbit by done. by rewrite (proj2 (Z.ltb_lt 0 _)).
  - unfold allocRegistersIntoCached. change (mapM (assignCached (grown zero a (ArenaCountsFromNumRegs numRegs)) r
      (ArenaCountsFromNumRegs numRegs) (computeNonZeroBankMask numRegs)) banks = Some ws) in Hws.
    rewrite Hws. cbn [mbind option_bind].
    eexists own', _, _. split; [done|]. exact Hrest.
Qed.

Lemma counted_ok own (a : RegisterArena (V:=V)) (r : Registers) numRegs :
  arena_ok own a → numRegs_ok numRegs →
  let counts := ArenaCountsFromNumRegs numRegs in
  ∃ own' a' r', allocRegistersInto zero a r numRegs = Some (a', r') ∧
    arena_ok own' a' ∧ (∀ limit, kept own a own' a' limit) ∧ (∀ k, 0 <= k < n + 2 → index a' k = index a k + at_ counts k) ∧
    banks_at own' a' (windows r') (arenaIndices a) counts ∧ fresh numRegs (contents_of a' (windows r') counts).
Proof.
  intros Hok Hn counts. subst counts.
  destruct (assigned_ok own a numRegs (λ a k, assignFromCounts a (ArenaCountsFromNumRegs numRegs) k) Hok Hn) as (own' & ws & Hws & Hrest).
  - intros k Hk [w Hw]. unfold assignFromCounts. cbn beta. rewrite Hw. destruct (_ || _); by eexists.
  - intros k Hk Hpos. unfold assignFromCounts. rewrite (proj2 (Z.ltb_lt 0 _)) by done. by rewrite orb_true_r.
  - unfold allocRegistersInto, allocRegistersIntoFromCounts.
    change (mapM (assignFromCounts (grown zero a (ArenaCountsFromNumRegs numRegs)) (ArenaCountsFromNumRegs numRegs)) banks
      = Some ws) in Hws. rewrite Hws. cbn [mbind option_bind]. eexists own', _, _. split; [done|]. exact Hrest.
Qed.

Lemma banks_save own (a : RegisterArena (V:=V)) (ws : list (option window)) save save' counts :
  (∀ k, 0 <= k < n → at_ save' k = at_ save k) → banks_at own a ws save counts → banks_at own a ws save' counts.
Proof.
  intros Hs [Hl Hw]. split; [done|]. intros k Hk Hpos. destruct (Hw k Hk Hpos) as (b & l & Hz & ? & ? & ? & ?).
  exists b, l. rewrite Hs by done. by split_and!.
Qed.

Lemma allocFrame_ok own vm m numRegs : vm_ok own vm → numRegs_ok numRegs →
  ∃ own' vm', allocFrame zero (enterFrame vm) m numRegs = Some vm' ∧ vm_ok own' vm' ∧
    ∀ files, represents vm files → ∃ file, fresh numRegs file ∧ represents vm' (files ++ [file]).
Proof.
  intros Hok Hn. destruct (enterFrame_ok own vm Hok) as (HA & HF & _ & Hlt & _).
  destruct (upvalues_ok own (Arena vm) m (vo_arena _ _ Hok)) as (own1 & a1 & Ha1 & Hok1 & Hk1 & Hi1).
  destruct (zget_is_Some (CallStack (enterFrame vm)) (FramePointer vm + 1)) as [f Hf].
  { pose proof (vo_pointer _ _ Hok). lia. }
  destruct (cached_ok own1 a1 (Registers_ f) numRegs Hok1 Hn) as (own' & a' & r' & Hr & Hok' & Hk' & Hi' & Hb & Hfresh).
  assert (Hb' : banks_at own' a' (windows r') (arenaIndices (Arena vm)) (ArenaCountsFromNumRegs numRegs)).
  { eapply banks_save; [|done]. intros k Hk. symmetry. apply (Hi1 k); lia. }
  destruct (put_frame own vm own' a' r' numRegs Hok Hok') as [Hvm Hrep]; [by eapply kept_trans|done|done|apply Hb| |].
  { intros k Hk. rewrite Hi' by done. destruct (Hi1 k Hk). change (countsOf _) with (ArenaCountsFromNumRegs numRegs). lia. }
  unfold allocFrame. rewrite HF, Hf, HA. cbn [mbind option_bind]. rewrite Ha1. cbn [mbind option_bind].
  rewrite Hr. cbn [mbind option_bind]. eexists own', _. split_and!; [done|exact Hvm|].
  intros files Hfiles. eexists. split; [exact Hfresh|]. apply Hrep; [done|].
  apply (contents_file own'); [exact Hb'|]. by apply counts_numRegs.
Qed.

Lemma PushFrame_ok own vm m numRegs : vm_ok own vm → numRegs_ok numRegs →
  if callDepthLimit vm <=? FramePointer vm then PushFrame zero vm m numRegs = Some (stackOverflow vm)
  else ∃ own' vm', PushFrame zero vm m numRegs = Some (Pushed vm') ∧ vm_ok own' vm' ∧
    ∀ files, represents vm files → ∃ file, fresh numRegs file ∧ represents vm' (files ++ [file]).
Proof.
  intros Hok Hn. unfold PushFrame. case_if; [done|].
  destruct (allocFrame_ok own vm m numRegs Hok Hn) as (own' & vm' & -> & Hrest). by exists own', vm'.
Qed.

(** An arena with more in use than the top frame asks for. *)
Lemma larger_arena own vm own' (a' : RegisterArena (V:=V)) :
  vm_ok own vm → arena_ok own' a' → kept own (Arena vm) own' a' (index (Arena vm)) →
  (∀ k, 0 <= k < n + 2 → index (Arena vm) k <= index a' k) →
  vm_ok own' (setArena vm a') ∧ ∀ files, represents vm files → represents (setArena vm a') files.
Proof.
  intros [Ha Hfp Hpos Hfr Hord Hsl] Ha' Hk Hi.
  assert (Hlim : ∀ i f k, i <= FramePointer vm → zget (CallStack vm) i = Some f → 0 <= k < n + 2 →
    at_ (arenaSave f) k + at_ (countsOf f) k <= index (Arena vm) k).
  { intros i f k Hil Hf Hkn. by apply (fo_below _ _ _ (Hfr i f Hil Hf)). }
  split; [split; try done|].
  - intros i f Hil Hf. eapply frame_kept; [done|by eapply Hfr|]. intros k Hkn. specialize (Hlim i f k Hil Hf Hkn).
    specialize (Hi k Hkn). change (Arena (setArena vm a')) with a'. lia.
  - intros files [Hl Hrep]. split; [done|]. intros i f Hil Hf. destruct (Hrep i f Hil Hf) as (file & Hz & Hfile).
    exists file. split; [done|]. eapply file_kept; [done|by eapply Hfr| |done]. intros k Hkn. eapply Hlim; [done|done|lia].
Qed.

Lemma pushDeferredFrame_ok own vm numRegs : vm_ok own vm → numRegs_ok numRegs →
  if callDepthLimit vm <=? FramePointer vm
  then ∃ own' vm', pushDeferredFrame zero vm numRegs = Some (stackOverflow vm') ∧ vm_ok own' vm' ∧
    ∀ files, represents vm files → represents vm' files
  else ∃ own' vm', pushDeferredFrame zero vm numRegs = Some (Pushed vm') ∧ vm_ok own' vm' ∧
    ∀ files, represents vm files → ∃ file, fresh numRegs file ∧ represents vm' (files ++ [file]).
Proof.
  intros Hok Hn. destruct (counted_ok own (Arena vm) noRegisters numRegs (vo_arena _ _ Hok) Hn)
    as (own' & a' & r' & Hr & Hok' & Hk' & Hi' & Hb & Hfresh).
  unfold pushDeferredFrame. rewrite Hr. cbn [mbind option_bind].
  change (callDepthLimit (setArena vm a')) with (callDepthLimit vm). change (FramePointer (setArena vm a')) with (FramePointer vm).
  case_if.
  - destruct (larger_arena own vm own' a' Hok Hok' (Hk' _)) as [Hvm Hrep].
    { intros k Hkn. rewrite Hi' by done. pose proof (proj1 (counts_numRegs _ Hn) k). lia. }
    by exists own', (setArena vm a').
  - destruct (enterFrame_ok own vm Hok) as (HA & HF & _ & Hlt & _).
    assert (He : enterFrame (setArena vm a') = setArena (enterFrame vm) a').
    { unfold enterFrame. cbn [setArena setStack CallStack FramePointer]. by case_if. }
    rewrite He. cbn [setArena CallStack FramePointer]. rewrite HF.
    destruct (zget_is_Some (CallStack (enterFrame vm)) (FramePointer vm + 1)) as [f ->].
    { pose proof (vo_pointer _ _ Hok). lia. }
    cbn [mbind option_bind].
    destruct (put_frame own vm own' a' r' numRegs Hok Hok' (Hk' _) Hn) as [Hvm Hrep]; [exact Hb|apply Hb| |].
    { intros k Hkn. rewrite Hi' by done. change (countsOf _) with (ArenaCountsFromNumRegs numRegs). lia. }
    eexists own', _. split_and!; [done|exact Hvm|]. intros files Hfiles. eexists. split; [exact Hfresh|].
    apply Hrep; [done|]. apply (contents_file own'); [exact Hb|]. by apply counts_numRegs.
Qed.

(** ** Popping *)

Lemma popFrame_ok own vm : vm_ok own vm → 0 <= FramePointer vm →
  ∃ vm', popFrame zero vm = Some vm' ∧ vm_ok own vm' ∧ FramePointer vm' = FramePointer vm - 1 ∧
    CallStack vm' = CallStack vm ∧
    ∀ files, represents vm files → ∃ files' file, files = files' ++ [file] ∧ represents vm' files'.
Proof.
  intros Hok Hfp0. pose proof Hok as [Ha Hfp Hpos Hfr Hord Hsl].
  destruct (zget_is_Some (CallStack vm) (FramePointer vm)) as [f Hf]; [lia|].
  pose proof (Hfr (FramePointer vm) f (Z.le_refl _) Hf) as Hfo. pose proof (counts_numRegs) as Hcn.
  assert (Hc : ∀ k, 0 <= at_ (countsOf f) k).
  { destruct (fo_function _ _ _ Hfo) as (numRegs & Hfn & Hn). rewrite (counts_frame _ _ Hfn). by apply Hcn. }
  destruct (Restore_ok zero own (Arena vm) (arenaSave f) Ha (fo_save _ _ _ Hfo)) as (a' & Ha' & Hok' & Hi' & Hm').
  { intros k Hk. destruct (fo_below _ _ _ Hfo k Hk). specialize (Hc k). lia. }
  unfold popFrame. rewrite Hf. cbn [mbind option_bind]. rewrite Ha'. cbn [mbind option_bind]. eexists. split; [done|].
  assert (Hkept : kept own (Arena vm) own a' (at_ (arenaSave f))).
  { intros b l Hb _. destruct (Hm' b l Hb) as (l' & Hb' & Hl' & He). exists l'. by split_and!. }
  assert (Hlim : ∀ i g k, i <= FramePointer vm - 1 → zget (CallStack vm) i = Some g → 0 <= k < n + 2 →
    at_ (arenaSave g) k + at_ (countsOf g) k <= at_ (arenaSave f) k).
  { intros i g k Hil Hg Hk. apply (Hord i (FramePointer vm) g f k); [lia|done|done|done]. }
  assert (Hidx : ∀ k, index a' k = at_ (arenaSave f) k) by (intros; unfold index; by rewrite Hi').
  split; [split; cbn [setStack setArena Arena CallStack FramePointer]; try done; try lia|].
  - intros i g Hil Hg. eapply frame_kept; [done|eapply Hfr; [|done]; lia|]. intros k Hk. rewrite Hidx. by eapply Hlim.
  - intros i j g h k Hij. apply Hord. lia.
  - split_and!; [done|done|]. intros files [Hl Hrep]. cbn [setStack FramePointer].
    destruct files as [|file files _] using rev_ind; [cbn in Hl; lia|]. rewrite length_app in Hl. cbn [length] in Hl.
    exists files, file. split; [done|]. split; [cbn; lia|]. intros i g Hil Hg. cbn [setStack FramePointer CallStack] in Hil, Hg.
    destruct (Hrep i g ltac:(lia) Hg) as (file' & Hz & Hfile). exists file'. split; [by rewrite zget_app_below in Hz by lia|].
    eapply file_kept; [done|eapply Hfr; [|done]; lia| |done]. intros k Hk. eapply Hlim; [done|done|lia].
Qed.

(** A tail call is a return followed by a call. *)
Lemma tail_call vm numRegs : 0 <= FramePointer vm < zlen (CallStack vm) →
  reallocateTailCallFrame zero vm numRegs = vm' ← popFrame zero vm; allocFrame zero (enterFrame vm') 0 numRegs.
Proof.
  intros Hfp. unfold reallocateTailCallFrame, popFrame. destruct (zget (CallStack vm) (FramePointer vm)) as [f|] eqn:Hf; [|done].
  cbn [mbind option_bind]. destruct (Restore zero (Arena vm) (arenaSave f)) as [a|]; [|done]. cbn [mbind option_bind].
  assert (He : enterFrame (setStack (setArena vm a) (CallStack vm) (FramePointer vm - 1)) = setArena vm a).
  { unfold enterFrame. cbn [setStack setArena CallStack FramePointer]. replace (FramePointer vm - 1 + 1) with (FramePointer vm) by lia.
    rewrite (proj2 (Z.leb_gt _ _)) by lia. done. }
  rewrite He. unfold allocFrame. cbn [setArena setStack CallStack FramePointer Arena]. rewrite Hf. done.
Qed.

(** ** Writing a register *)

(** The cell of a register a function uses. *)
Lemma live_cell own vm i f k r : vm_ok own vm → i <= FramePointer vm → zget (CallStack vm) i = Some f →
  0 <= k < n → 0 <= r < at_ (countsOf f) k →
  ∃ b l, zget (windows (Registers_ f)) k = Some (Some (NewWindow b (at_ (arenaSave f) k) (at_ (countsOf f) k))) ∧
    own b = k ∧ memory (Arena vm) !! b = Some l ∧ 0 <= at_ (arenaSave f) k ∧
    at_ (arenaSave f) k + at_ (countsOf f) k <= zlen l ∧ at_ (arenaSave f) k + at_ (countsOf f) k <= index (Arena vm) k.
Proof.
  intros Hok Hi Hf Hk Hr. pose proof (vo_frame _ _ Hok i f Hi Hf) as Hfo.
  destruct (fo_banks _ _ _ Hfo) as [_ Hw]. destruct (Hw k Hk ltac:(lia)) as (b & l & Hz & Ho & Hm & Hs & Hb).
  exists b, l. split_and!; try done. by apply (fo_below _ _ _ Hfo); lia.
Qed.

(** Two registers share a cell only if they are the same one. *)
Lemma cells_apart own vm i f j g k k' r r' b c c' s s' :
  vm_ok own vm → i <= FramePointer vm → zget (CallStack vm) i = Some f →
  j <= FramePointer vm → zget (CallStack vm) j = Some g → 0 <= k < n → 0 <= k' < n →
  0 <= r < at_ (countsOf f) k → 0 <= r' < at_ (countsOf g) k' →
  zget (windows (Registers_ f)) k = Some (Some (NewWindow b s c)) →
  zget (windows (Registers_ g)) k' = Some (Some (NewWindow b s' c')) → s + r = s' + r' → i = j ∧ k = k' ∧ r = r'.
Proof.
  intros Hok Hi Hf Hj Hg Hk Hk' Hr Hr' Hw Hw' Hs.
  destruct (live_cell own vm i f k r Hok Hi Hf Hk Hr) as (b1 & l1 & Hz1 & Ho1 & _).
  destruct (live_cell own vm j g k' r' Hok Hj Hg Hk' Hr') as (b2 & l2 & Hz2 & Ho2 & _).
  rewrite Hw in Hz1. rewrite Hw' in Hz2. injection Hz1 as <- -> ->. injection Hz2 as <- -> ->.
  assert (k = k') as <- by congruence.
  destruct (Z.lt_trichotomy i j) as [Hlt|[<-|Hlt]].
  - pose proof (vo_order _ _ Hok i j f g k ltac:(lia) Hf Hg ltac:(lia)). lia.
  - rewrite Hf in Hg. injection Hg as <-. split_and!; [done|done|lia].
  - pose proof (vo_order _ _ Hok j i g f k ltac:(lia) Hg Hf ltac:(lia)). lia.
Qed.

Lemma slab_after_write own (a : RegisterArena (V:=V)) b l x j :
  memory a !! b = Some l → arena_ok own a → 0 <= j < n + 2 →
  slab (setMemory a (<[b := x]> (memory a))) j = if decide (slabAddress a j = b) then x else slab a j.
Proof.
  intros Hb Hok Hj. unfold slab. change (slabAddress (setMemory a _) j) with (slabAddress a j). cbn [setMemory memory].
  case_decide as Hd; [rewrite Hd; by rewrite lookup_insert_eq|]. by rewrite lookup_insert_ne.
Qed.

Lemma write_ok own vm i f k r v : vm_ok own vm → 0 <= i <= FramePointer vm → zget (CallStack vm) i = Some f →
  0 <= k < n → 0 <= r < at_ (countsOf f) k →
  ∃ vm', writeRegister vm i k r v = Some vm' ∧ vm_ok own vm' ∧
    ∀ files, represents vm files → ∃ file l, zget files i = Some file ∧ zget file k = Some l ∧ r < zlen l ∧
      represents vm' (zset files i (file_set file k r v)).
Proof.
  intros Hok Hi Hf Hk Hr.
  destruct (live_cell own vm i f k r Hok ltac:(lia) Hf Hk Hr) as (b & l & Hw & Ho & Hm & Hs & Hlen & Hidx).
  unfold writeRegister, bankOf. rewrite Hf. cbn [mbind option_bind]. rewrite Hw. cbn [mbind option_bind size base offset].
  rewrite (proj2 (Z.leb_le 0 r)), (proj2 (Z.ltb_lt r _)) by lia. cbn [andb]. rewrite Hm. cbn [mbind option_bind].
  eexists. split; [done|]. set (s := at_ (arenaSave f) k) in *. set (l' := zset l (s + r) v).
  set (a' := setMemory (Arena vm) (<[b := l']> (memory (Arena vm)))).
  assert (Hl' : zlen l' = zlen l) by (unfold l'; by rewrite length_zset).
  assert (Hread : ∀ c x, memory (Arena vm) !! c = Some x → ∃ x', memory a' !! c = Some x' ∧ zlen x' = zlen x ∧
    ∀ j, c ≠ b ∨ j ≠ s + r → zget x' j = zget x j).
  { intros c x Hc. destruct (decide (c = b)) as [->|Hne].
    - rewrite Hm in Hc. injection Hc as <-. exists l'. unfold a'. cbn [setMemory memory]. rewrite lookup_insert_eq.
      split_and!; [done|done|]. intros j [?|Hj]; [done|]. unfold l'. by rewrite zget_zset_ne by congruence.
    - exists x. unfold a'. cbn [setMemory memory]. rewrite lookup_insert_ne by done. by split_and!. }
  pose proof Hok as [Ha Hfp Hpos Hfr Hord Hsl]. assert (Ha' : arena_ok own a').
  { pose proof Ha as [G1 G2 G3 G4 G5 G6]. split; [done|done| | | |done].
    - intros j Hj. destruct (G3 j Hj) as (Hmj & Hoj & Hij). change (slabAddress a' j) with (slabAddress (Arena vm) j).
      change (index a' j) with (index (Arena vm) j). unfold a'. rewrite (slab_after_write own _ b l l' j Hm Ha Hj).
      cbn [setMemory memory]. case_decide as Hd.
      + rewrite Hd, lookup_insert_eq. rewrite Hd in Hmj. rewrite Hm in Hmj. injection Hmj as Hmj. rewrite <- Hd.
        rewrite Hl', Hmj. split_and!; try done; lia.
      + rewrite lookup_insert_ne by done. split_and!; try done; lia.
    - intros j q x Hj Hg Hq. change (index a' j) with (index (Arena vm) j) in Hq. unfold a'.
      rewrite (slab_after_write own _ b l l' j Hm Ha ltac:(lia)). case_decide as Hd; [|by apply G4].
      destruct (G3 j ltac:(lia)) as (Hmj & Hoj & _). rewrite Hd in Hmj, Hoj. rewrite Hm in Hmj. injection Hmj as Hmj.
      rewrite Ho in Hoj. subst j. unfold l'. rewrite zget_zset_ne by lia. rewrite Hmj. by apply G4.
    - intros c x. unfold a'. cbn [setMemory memory nextAddress]. rewrite lookup_insert_Some.
      intros [[<- _]|[_ Hc]]; [by apply (G5 _ _ Hm)|by apply (G5 _ _ Hc)]. }
  split; [split; try done|].
  - intros j g Hj Hg. destruct (Hfr j g Hj Hg) as [F1 F2 [F3 F4] F5]. split; [done|done| |done]. split; [done|].
    intros k' Hk' Hpos'. destruct (F4 k' Hk' Hpos') as (c & x & Hz & Hoc & Hmc & Hsc & Hlc).
    destruct (Hread c x Hmc) as (x' & Hmc' & Hlx & _). exists c, x'. split_and!; try done. lia.
  - intros files [Hlf Hrep]. destruct (Hrep i f ltac:(lia) Hf) as (file & Hzf & Hfl & Hfile).
    destruct (Hfile k Hk) as (lk & Hzk & Hlk & Hrk). exists file, lk. split_and!; [done|done|lia|].
    split; [by rewrite length_zset|]. intros j g Hj Hg. change (FramePointer (setArena vm a')) with (FramePointer vm) in Hj.
    change (CallStack (setArena vm a')) with (CallStack vm) in Hg. destruct (Hrep j g Hj Hg) as (file' & Hzj & Hfl' & Hfile').
    change (Arena (setArena vm a')) with a'. pose proof (zget_Some_range _ _ _ Hzj) as Hjr.
    exists (if j =? i then file_set file k r v else file'). split.
    { rewrite zget_zset, Z.eqb_sym. case_if; bool_hyps; [|done]. by rewrite bool_decide_eq_true_2. }
    assert (Hsame : ∀ k' r', 0 <= k' < n → 0 <= r' < at_ (countsOf g) k' → ¬ (j = i ∧ k' = k ∧ r' = r) →
      readBank a' (windows (Registers_ g)) k' r' = readBank (Arena vm) (windows (Registers_ g)) k' r').
    { intros k' r' Hk' Hr' Hne. destruct (live_cell own vm j g k' r' Hok Hj Hg Hk' Hr') as (c & x & Hz & _ & Hmc & _).
      destruct (Hread c x Hmc) as (x' & Hmc' & _ & He). unfold readBank. rewrite Hz. cbn [mbind option_bind size base offset].
      rewrite Hmc, Hmc'. cbn [mbind option_bind]. destruct (_ && _); [|done]. apply He.
      destruct (decide (c = b)) as [->|]; [|by left]. right. intros Heq. apply Hne.
      destruct (cells_apart own vm j g i f k' k r' r b _ _ _ _ Hok Hj Hg ltac:(lia) Hf Hk' Hk Hr' Hr Hz Hw Heq) as (? & ? & ?). done. }
    assert (Hhit : readBank a' (windows (Registers_ f)) k r = Some v).
    { unfold readBank. rewrite Hw. cbn [mbind option_bind size base offset].
      rewrite (proj2 (Z.leb_le 0 r)), (proj2 (Z.ltb_lt r _)) by lia. cbn [andb]. unfold a'. cbn [setMemory memory].
      rewrite lookup_insert_eq. cbn [mbind option_bind]. apply zget_zset_eq. lia. }
    destruct (Z.eqb_spec j i) as [->|Hne].
    + rewrite Hf in Hg. injection Hg as <-. rewrite Hzf in Hzj. injection Hzj as <-. unfold file_set. rewrite Hzk.
      split; [by rewrite length_zset|]. intros k' Hk'. rewrite zget_zset. destruct (Z.eqb_spec k k') as [<-|Hnk].
      * rewrite bool_decide_eq_true_2 by lia. eexists. split; [done|]. rewrite length_zset. split; [done|].
        intros r' Hr'. rewrite zget_zset. destruct (Z.eqb_spec r r') as [<-|Hnr].
        -- by rewrite bool_decide_eq_true_2 by lia.
        -- rewrite Hsame by (done || naive_solver). by apply Hrk.
      * destruct (Hfile k' Hk') as (l2 & Hz2 & Hl2 & Hr2). exists l2. split_and!; [done|done|].
        intros r' Hr'. rewrite Hsame by (done || naive_solver). by apply Hr2.
    + split; [done|]. intros k' Hk'. destruct (Hfile' k' Hk') as (l2 & Hz2 & Hl2 & Hr2). exists l2. split_and!; [done|done|].
      intros r' Hr'. rewrite Hsame by (done || naive_solver). by apply Hr2.
Qed.

(** ** Every interleaving *)

(** A register the function of a live frame has. *)
Definition live (vm : VM) (i k r : Z) : Prop :=
  0 <= i <= FramePointer vm ∧ 0 <= k < n ∧ 0 <= r ∧
  ∃ f, zget (CallStack vm) i = Some f ∧ r < at_ (countsOf f) k.

(** What handlers do to the call stack and to the registers. *)
Inductive vm_step : VM → VM → Prop :=
  | step_push vm m numRegs vm' : numRegs_ok numRegs → PushFrame zero vm m numRegs = Some (Pushed vm') → vm_step vm vm'
  | step_push_overflow vm m numRegs vm' :
      numRegs_ok numRegs → PushFrame zero vm m numRegs = Some (stackOverflow vm') → vm_step vm vm'
  | step_defer vm numRegs vm' : numRegs_ok numRegs → pushDeferredFrame zero vm numRegs = Some (Pushed vm') → vm_step vm vm'
  | step_defer_overflow vm numRegs vm' :
      numRegs_ok numRegs → pushDeferredFrame zero vm numRegs = Some (stackOverflow vm') → vm_step vm vm'
  | step_pop vm vm' : 0 <= FramePointer vm → popFrame zero vm = Some vm' → vm_step vm vm'
  | step_tail vm numRegs vm' :
      0 <= FramePointer vm → numRegs_ok numRegs → reallocateTailCallFrame zero vm numRegs = Some vm' → vm_step vm vm'
  | step_write vm i k r v vm' : live vm i k r → writeRegister vm i k r v = Some vm' → vm_step vm vm'
  | step_copy vm i j k r r' vm' :
      live vm i k r → live vm j k r' → copySameKind vm i k r j r' = Some vm' → vm_step vm vm'.

Inductive star {A} (R : A → A → Prop) (x : A) : A → Prop :=
  | star_refl : star R x x
  | star_step y z : star R x y → R y z → star R x z.

Lemma tail_ok own vm numRegs : vm_ok own vm → 0 <= FramePointer vm → numRegs_ok numRegs →
  ∃ own' vm', reallocateTailCallFrame zero vm numRegs = Some vm' ∧ vm_ok own' vm' ∧
    ∀ files, represents vm files → ∃ below file file', files = below ++ [file] ∧ fresh numRegs file' ∧
      represents vm' (below ++ [file']).
Proof.
  intros Hok Hfp Hn. rewrite tail_call by (pose proof (vo_pointer _ _ Hok); lia).
  destruct (popFrame_ok own vm Hok Hfp) as (vm1 & -> & Hok1 & _ & _ & Hrep1). cbn [mbind option_bind].
  destruct (allocFrame_ok own vm1 0 numRegs Hok1 Hn) as (own' & vm' & -> & Hok' & Hrep').
  exists own', vm'. split_and!; [done|done|]. intros files Hf. destruct (Hrep1 files Hf) as (below & file & -> & Hb).
  destruct (Hrep' below Hb) as (file' & Hfr & Hr). by exists below, file, file'.
Qed.

Lemma write_simulated own vm i k r v vm' files :
  vm_ok own vm → represents vm files → live vm i k r → writeRegister vm i k r v = Some vm' →
  ∃ own' files', vm_ok own' vm' ∧ represents vm' files' ∧ file_step files files'.
Proof.
  intros Hok Hrep (Hi & Hk & Hr & f & Hf & Hrc) Hw.
  destruct (write_ok own vm i f k r v Hok Hi Hf Hk ltac:(lia)) as (vm1 & Hw1 & Hok1 & Hrep1).
  rewrite Hw1 in Hw. injection Hw as <-. destruct (Hrep1 files Hrep) as (file & l & Hz & Hzk & Hlt & Hr').
  exists own, (zset files i (file_set file k r v)). split_and!; [done|done|]. by apply (file_write files i file k r l v).
Qed.

Lemma step_simulated own vm vm' files : vm_ok own vm → represents vm files → vm_step vm vm' →
  ∃ own' files', vm_ok own' vm' ∧ represents vm' files' ∧ file_step files files'.
Proof.
  intros Hok Hrep Hstep. destruct Hstep as [vm m numRegs vm' Hn H|vm m numRegs vm' Hn H|vm numRegs vm' Hn H|vm numRegs vm' Hn H
    |vm vm' Hfp H|vm numRegs vm' Hfp Hn H|vm i k r v vm' Hl H|vm i j k r r' vm' Hl Hl' H].
  - pose proof (PushFrame_ok own vm m numRegs Hok Hn) as HP. destruct (_ <=? _); [congruence|].
    destruct HP as (own' & vm1 & H1 & Hok1 & Hr1). rewrite H1 in H. injection H as <-.
    destruct (Hr1 files Hrep) as (file & Hfr & Hr). exists own', (files ++ [file]). split_and!; [done|done|by eapply file_push].
  - pose proof (PushFrame_ok own vm m numRegs Hok Hn) as HP. destruct (_ <=? _).
    + rewrite HP in H. injection H as <-. exists own, files. split_and!; [done|done|constructor].
    + destruct HP as (own' & vm1 & H1 & _). congruence.
  - pose proof (pushDeferredFrame_ok own vm numRegs Hok Hn) as HP.
    destruct (_ <=? _); destruct HP as (own' & vm1 & H1 & Hok1 & Hr1); [congruence|]. rewrite H1 in H. injection H as <-.
    destruct (Hr1 files Hrep) as (file & Hfr & Hr). exists own', (files ++ [file]). split_and!; [done|done|by eapply file_push].
  - pose proof (pushDeferredFrame_ok own vm numRegs Hok Hn) as HP.
    destruct (_ <=? _); destruct HP as (own' & vm1 & H1 & Hok1 & Hr1); [|congruence]. rewrite H1 in H. injection H as <-.
    exists own', files. split_and!; [done|by apply Hr1|constructor].
  - destruct (popFrame_ok own vm Hok Hfp) as (vm1 & H1 & Hok1 & _ & _ & Hr1). rewrite H1 in H. injection H as <-.
    destruct (Hr1 files Hrep) as (below & file & -> & Hb). exists own, below. split_and!; [done|done|constructor].
  - destruct (tail_ok own vm numRegs Hok Hfp Hn) as (own' & vm1 & H1 & Hok1 & Hr1). rewrite H1 in H. injection H as <-.
    destruct (Hr1 files Hrep) as (below & file & file' & -> & Hfr & Hr). exists own', (below ++ [file']).
    split_and!; [done|done|by eapply file_tail].
  - by eapply write_simulated.
  - unfold copySameKind in H. destruct (readRegister vm j k r') as [v|]; [|done].
    cbn [mbind option_bind] in H. exact (write_simulated own vm i k r v vm' files Hok Hrep Hl H).
Qed.

(** ** The machine at the start *)

Definition firstSlabs (m : nat) : RegisterArena (V:=V) :=
  foldl (λ a k, installSlab (ctxMirrored k) a k (makeSlab zero k (initialSlab k)))
    (NewArena ∅ 0 (replicate (length initialSlabs) (-1)) (replicate (length initialSlabs) 0) 0
       (replicate 7 0) (replicate 7 0) (replicate 7 0)) (seqZ 0 (Z.of_nat m)).

Lemma init_slabs m : (m <= 15)%nat →
  nextAddress (firstSlabs m) = Z.of_nat m ∧ zlen (slabs (firstSlabs m)) = 15 ∧
  arenaIndices (firstSlabs m) = replicate 15 0 ∧
  (∀ k, 0 <= k < Z.of_nat m → zget (slabs (firstSlabs m)) k = Some k ∧
    memory (firstSlabs m) !! k = Some (makeSlab zero k (initialSlab k))) ∧
  (∀ b l, memory (firstSlabs m) !! b = Some l → 0 <= b < Z.of_nat m) ∧
  scalarIdleResets (firstSlabs m) = replicate 7 0.
Proof.
  induction m as [|m IH]; intros Hm.
  - split_and!; try done. intros k ?. lia.
  - destruct (IH ltac:(lia)) as (H1 & H2 & H3 & H4 & H5 & H6).
    assert (Hs : firstSlabs (S m) = installSlab (ctxMirrored (Z.of_nat m)) (firstSlabs m) (Z.of_nat m)
      (makeSlab zero (Z.of_nat m) (initialSlab (Z.of_nat m)))).
    { unfold firstSlabs. by rewrite seqZ_S, foldl_app. }
    rewrite Hs. cbn [installSlab nextAddress slabs arenaIndices memory]. rewrite H1.
    split_and!; [lia|by rewrite length_zset|done| | |done].
    + intros k Hk. rewrite zget_zset. destruct (Z.eqb_spec (Z.of_nat m) k) as [<-|Hne].
      * rewrite bool_decide_eq_true_2 by lia. by rewrite lookup_insert_eq.
      * rewrite lookup_insert_ne by done. apply H4. lia.
    + intros b l. rewrite lookup_insert_Some. intros [[<- _]|[_ Hb]]; [lia|]. apply H5 in Hb. lia.
Qed.

Lemma init_first : initRegisterArenaInPlace zero = firstSlabs 15.
Proof. unfold initRegisterArenaInPlace, firstSlabs. f_equal. Qed.

Lemma init_ok : arena_ok (λ b, b) (initRegisterArenaInPlace zero) ∧ arenaIndices (initRegisterArenaInPlace zero) = replicate 15 0.
Proof.
  destruct (init_slabs 15 ltac:(lia)) as (H1 & H2 & H3 & H4 & H5 & H6). rewrite init_first. generalize dependent (firstSlabs 15).
  intros a H1 H2 H3 H4 H5 H6. change (Z.of_nat 15) with (n + 2) in *. change 15 with (n + 2) in H2.
  assert (Haddr : ∀ k, 0 <= k < n + 2 → slabAddress a k = k).
  { intros k Hk. unfold slabAddress. destruct (H4 k Hk) as [-> _]. done. }
  assert (Hslab : ∀ k, 0 <= k < n + 2 → slab a k = makeSlab zero k (initialSlab k)).
  { intros k Hk. unfold slab. rewrite Haddr by done. destruct (H4 k Hk) as [_ ->]. done. }
  assert (Hidx : ∀ k, 0 <= k < n + 2 → index a k = 0).
  { intros k Hk. unfold index. rewrite H3, zget_replicate by exact Hk. done. }
  split; [split|done]; [done|by rewrite H3| | |by rewrite H1|by rewrite H6].
  - intros k Hk. rewrite Haddr, Hslab, Hidx by done. destruct (H4 k Hk) as [_ ->]. split_and!; [done|done|lia|lia].
  - intros k j x Hk _ _. rewrite Hslab by lia. apply zget_makeSlab.
Qed.

Lemma ensureBanks_ok own (a : RegisterArena (V:=V)) counts ks :
  arena_ok own a → (∀ k, k ∈ ks → 0 <= k < n + 2) → (∀ k, 0 <= k < n + 2 → index a k = 0) →
  ∃ own', arena_ok own' (foldl (ensureBank zero counts) a ks) ∧
    arenaIndices (foldl (ensureBank zero counts) a ks) = arenaIndices a.
Proof.
  revert own a. induction ks as [|k ks IH]; intros own a Hok Hks Hi; cbn [foldl]; [by exists own|].
  assert (H1 : ∃ own1, arena_ok own1 (ensureBank zero counts a k) ∧ arenaIndices (ensureBank zero counts a k) = arenaIndices a).
  { unfold ensureBank. case_if; [|by exists own]. destruct (install_ok zero (ctxMirrored k) own a k (makeSlab zero k (at_ counts k)) Hok)
      as [Hok1 Hex]; [apply Hks; by left| |by intros _ j x _ ?%zget_makeSlab|by eexists].
    rewrite Hi by (apply Hks; by left). lia. }
  destruct H1 as (own1 & Hok1 & Hi1). destruct (IH own1 _ Hok1) as (own' & Hok' & Hi').
  - intros; apply Hks; by right.
  - intros j Hj. unfold index. rewrite Hi1. by apply Hi.
  - exists own'. split; [done|congruence].
Qed.

Lemma ensureBankCapacity_ok own (a : RegisterArena (V:=V)) counts :
  arena_ok own a → (∀ k, 0 <= k < n + 2 → index a k = 0) → ∃ own', arena_ok own' (ensureBankCapacity zero a counts).
Proof.
  intros Hok Hi. unfold ensureBankCapacity. set (demand := imap _ _).
  destruct (ensureBanks_ok own (setDemand a demand (scalarDemandLastReset a) (scalarIdleResets a)) counts classes)
    as (own' & Hok' & _); [apply setDemand_ok; [done|by destruct Hok]| |done|by exists own'].
  intros k. unfold classes. rewrite elem_of_seqZ. lia.
Qed.
End stack.
