(* ===== verification/ArenaPool.v ===== *)
(** * Arenas lent from the pool

    [internal/engine/register_arena.go] ([Reset], [PutRegisterArena],
    [resetFrameSlots]), [register_arena_frame_policy.go] and the parts of
    [vm.go] that acquire and release an arena: one arena serves machine after
    machine, and is reset in between.  Every one of them keeps its register
    files apart, a reset arena holds no value of the previous run in its banks
    of pointers, and an arena that lies idle shrinks. *)

From S2P Require Import Prelude Register Arena ArenaSound CallStack.

(** ** Lending and taking back *)

Definition initialFrameSlabs : Z := 64.

Definition growFrameStack (frames : list CallFrame) (minCap : Z) : list CallFrame :=
  let newCap := Z.max (zlen frames * 2) minCap in
  frames ++ replicate (Z.to_nat (newCap - zlen frames)) emptyFrame.

Definition ensureFrameStackCapacity (frames : list CallFrame) (minDepth : Z) : list CallFrame :=
  if minDepth <=? zlen frames then frames else growFrameStack frames minDepth.

(** The highest slot with a function, from the recorded mark up. *)
Definition frameStackPeak (framesUsed : Z) (frames : list CallFrame) : Z :=
  foldl (λ peak i, match f ← zget frames i; Function f with Some _ => i + 1 | None => peak end)
    framesUsed (seqZ framesUsed (zlen frames - framesUsed)).

(** The banks of pointers and the function of a slot; the other banks, the mask
    and the save point are left. *)
Definition resetFrame (f : CallFrame) : CallFrame :=
  NewCallFrame
    (NewRegisters (imap (λ k w, if gcVisible (Z.of_nat k) then None else w) (windows (Registers_ f)))
       (lastAllocMask (Registers_ f)))
    (arenaSave f) None.

Definition resetFrameSlots (framesUsed : Z) (frames : list CallFrame) : list CallFrame :=
  imap (λ i f, if Z.of_nat i <? framesUsed then resetFrame f else f) frames.

(** Whether to replace is decided by length in the code; here by the answer of
    the policy, whose fresh slab is always shorter. *)
Definition shrinkFrameStackWithHysteresis (frames : list CallFrame) (peak idle : Z) : list CallFrame * Z :=
  let '(replace, idle) := shrinkSlabWithHysteresis (zlen frames) initialFrameSlabs peak idle in
  (if replace : bool then replicate (Z.to_nat initialFrameSlabs) emptyFrame else frames, idle).

Section pool.
Context {V : Type} (zero : Z → V).

#[local] Notation n := NumRegisterKinds.
#[local] Notation VM := (VM (V:=V)).
#[local] Notation RegisterArena := (RegisterArena (V:=V)).
#[local] Notation arena_ok := (arena_ok zero).

Record pooled := NewPooled { lent : RegisterArena; frameSlab : list CallFrame; frameStackIdleResets : Z }.

Definition newPooled : pooled :=
  NewPooled (initRegisterArenaInPlace zero) (replicate (Z.to_nat initialFrameSlabs) emptyFrame) 0.

(** [prepareForExecution] and [PrepareForFileSet]: the arena is sized by
    [ensureCapacity] and its frames become the call stack. *)
Definition prepareForExecution (p : pooled) (counts : list Z) (FrameStack limit observed : Z) : VM :=
  NewVM (ensureBankCapacity zero (lent p) counts) (ensureFrameStackCapacity (frameSlab p) FrameStack) (-1) limit observed.

(** [PutRegisterArena]; the arena records how many frames [PushFrame] used. *)
Definition PutRegisterArena (vm : VM) (framesUsed idle : Z) : option pooled :=
  let peak := frameStackPeak framesUsed (CallStack vm) in
  a ← Reset zero (Arena vm);
  let '(frames, idle) := shrinkFrameStackWithHysteresis (resetFrameSlots peak (CallStack vm)) peak idle in
  Some (NewPooled a frames idle).

(** The machines an arena serves, one after the other. *)
Inductive serves : VM → Prop :=
  | serves_first counts FrameStack limit observed : serves (prepareForExecution newPooled counts FrameStack limit observed)
  | serves_step vm vm' : serves vm → vm_step zero vm vm' → serves vm'
  | serves_again vm framesUsed idle p counts FrameStack limit observed :
      serves vm → PutRegisterArena vm framesUsed idle = Some p →
      serves (prepareForExecution p counts FrameStack limit observed).

Implicit Types (a : RegisterArena) (vm : VM) (own : Z → Z) (k : Z).

(** ** Clearing every slab *)

Lemma clearAll_ok own a ks :
  arena_ok own a → NoDup ks → (∀ k, k ∈ ks → 0 <= k < n + 2) →
  ∃ a', eachBank (λ a k, clearRange zero a k 0 (index a k)) a ks = Some a' ∧ arena_ok own a' ∧
    arenaIndices a' = arenaIndices a ∧ slabs a' = slabs a ∧
    scalarDemandSinceReset a' = scalarDemandSinceReset a ∧ scalarDemandLastReset a' = scalarDemandLastReset a ∧
    scalarIdleResets a' = scalarIdleResets a ∧
    (∀ k, 0 <= k < n + 2 → zlen (slab a' k) = zlen (slab a k)) ∧
    (∀ k j, k ∈ ks → 0 <= j < index a k → zget (slab a' k) j = Some (zero k)) ∧
    (∀ k, 0 <= k < n + 2 → k ∉ ks → slab a' k = slab a k).
Proof.
  revert a. induction ks as [|k ks IH]; intros a Hok Hnd Hks; cbn [eachBank].
  { exists a. split_and!; try done. by intros k j ?%elem_of_nil. }
  apply NoDup_cons in Hnd as [Hnk Hnd]. assert (Hk : 0 <= k < n + 2) by (apply Hks; by left).
  destruct (ao_slab _ _ _ Hok k Hk) as (_ & _ & Hi).
  destruct (clear_ok zero own a k 0 (index a k)) as (a1 & Ha1 & Hok1 & H1 & H2 & _ & H4 & H5 & _ & H7); [done|done|lia|lia|].
  destruct (clearRange_demand zero a a1 k 0 (index a k) Ha1) as (D1 & D2 & D3).
  assert (Hidx : ∀ j, index a1 j = index a j) by (intros; unfold index; by rewrite H1).
  destruct (IH a1 Hok1 Hnd) as (a' & Ha' & Hok' & G1 & G2 & G3 & G4 & G5 & G6 & G7 & G8); [intros; apply Hks; by right|].
  exists a'. rewrite Ha1. cbn [mbind option_bind]. split_and!; [done|done|congruence..| | |].
  - intros j Hj. rewrite G6 by done. destruct (decide (j = k)) as [->|Hne]; [done|by rewrite H5].
  - intros j i [->|Hj]%elem_of_cons Hi'; [rewrite G8 by done; by apply H4|apply G7; [done|by rewrite Hidx]].
  - intros j Hj [Hne Hnj]%not_elem_of_cons. rewrite G8 by done. by apply H5.
Qed.

Lemma elem_of_classes k : k ∈ classes ↔ 0 <= k < n + 2.
Proof. unfold classes. rewrite elem_of_seqZ. lia. Qed.

(** The banks of pointers of an arena hold nothing. *)
Definition clean a : Prop := ∀ k j x, 0 <= k < n → gcVisible k = true → zget (slab a k) j = Some x → x = zero k.
Definition unused a : Prop := ∀ k, 0 <= k < n + 2 → index a k = 0.

Lemma reset_indices_ok own a :
  arena_ok own a → clean a → arena_ok own (setIndices a (replicate (length initialSlabs) 0)) ∧
  unused (setIndices a (replicate (length initialSlabs) 0)).
Proof.
  intros [G1 G2 G3 G4 G5 G6] Hc. assert (Hu : unused (setIndices a (replicate (length initialSlabs) 0))).
  { intros k Hk. unfold index. cbn [setIndices arenaIndices]. by rewrite zget_replicate. }
  split; [split|]; try done.
  - intros k Hk. rewrite Hu by done. destruct (G3 k Hk) as (Hm & Ho & Hi).
    change (slab (setIndices a ?i) k) with (slab a k). split_and!; try done; lia.
  - intros k j x Hk Hg _ Hx. by apply (Hc k j).
Qed.

Lemma clear_clean own a a' :
  arena_ok own a → (∀ k, 0 <= k < n + 2 → zlen (slab a' k) = zlen (slab a k)) → arena_ok own a' →
  arenaIndices a' = arenaIndices a →
  (∀ k j, k ∈ classes → 0 <= j < index a k → zget (slab a' k) j = Some (zero k)) → clean a'.
Proof.
  intros Hok Hl Hok' Hi Hz k j x Hk Hg Hx. pose proof (zget_Some_range _ _ _ Hx) as Hj. destruct (decide (j < index a k)).
  - rewrite Hz in Hx by (try apply elem_of_classes; lia). by injection Hx as <-.
  - apply (ao_zero _ _ _ Hok' k j); [done|done| |done]. unfold index in *. rewrite Hi. lia.
Qed.

(** ** Shrinking *)

(** What a reset makes of the length and the idle counter of a bank of scalars. *)
Definition shrunk (len k demand idle : Z) : Z * Z :=
  let '(replace, idle) := shrinkSlabWithHysteresis len (initialSlab k) demand idle in
  (if replace : bool then initialSlab k else len, idle).

Definition lengthAfter (a : RegisterArena) k : Z :=
  if isScalarBank k
  then (shrunk (zlen (slab a k)) k (at_ (scalarDemandLastReset a) k) (at_ (scalarIdleResets a) k)).1
  else if initialSlab k * maxArenaMultiplier <? zlen (slab a k) then initialSlab k else zlen (slab a k).

Definition idleAfter (a : RegisterArena) k : Z :=
  if isScalarBank k
  then (shrunk (zlen (slab a k)) k (at_ (scalarDemandLastReset a) k) (at_ (scalarIdleResets a) k)).2
  else at_ (scalarIdleResets a) k.

Lemma initialSlab_pos k : 0 <= k < n + 2 → 0 < initialSlab k.
Proof.
  intros Hk. apply elem_of_classes in Hk.
  assert (Hall : Forall (λ k, 0 <? initialSlab k = true) classes) by (repeat constructor).
  rewrite Forall_forall in Hall. specialize (Hall k Hk). lia.
Qed.

Record shrinks own a own' a' k : Prop := {
  sh_ok : arena_ok own' a';
  sh_indices : arenaIndices a' = arenaIndices a;
  sh_since : scalarDemandSinceReset a' = scalarDemandSinceReset a;
  sh_last : scalarDemandLastReset a' = scalarDemandLastReset a;
  sh_clean : clean a → clean a';
  sh_length : zlen (slab a' k) = lengthAfter a k;
  sh_idle : at_ (scalarIdleResets a') k = idleAfter a k;
  sh_other j : 0 <= j < n + 2 → j ≠ k → zlen (slab a' j) = zlen (slab a j) ∧ at_ (scalarIdleResets a') j = at_ (scalarIdleResets a) j;
}.

Lemma install_fresh own a k bump :
  arena_ok own a → 0 <= k < n + 2 → index a k = 0 →
  ∃ own', arena_ok own' (installSlab bump a k (makeSlab zero k (initialSlab k))) ∧
    (clean a → clean (installSlab bump a k (makeSlab zero k (initialSlab k)))) ∧
    zlen (slab (installSlab bump a k (makeSlab zero k (initialSlab k))) k) = initialSlab k ∧
    ∀ j, 0 <= j < n + 2 → j ≠ k → slab (installSlab bump a k (makeSlab zero k (initialSlab k))) j = slab a j.
Proof.
  intros Hok Hk Hi. pose proof (initialSlab_pos k Hk) as Hp.
  destruct (install_ok zero bump own a k (makeSlab zero k (initialSlab k)) Hok Hk) as [Hok' _].
  { rewrite Hi. lia. } { intros _ j x _. apply zget_makeSlab. }
  assert (Hs := λ j, slab_install zero bump own a k (makeSlab zero k (initialSlab k)) j Hok Hk).
  eexists. split; [exact Hok'|]. split_and!.
  - intros Hc j i x Hj Hg. rewrite (Hs j) by lia. destruct (Z.eqb_spec k j) as [->|]; [intros ?%zget_makeSlab; done|by apply Hc].
  - rewrite (Hs k Hk), Z.eqb_refl. apply length_makeSlab. lia.
  - intros j Hj Hne. rewrite (Hs j Hj). by rewrite (proj2 (Z.eqb_neq k j)) by congruence.
Qed.

Lemma shrinkBank_shrinks own a k :
  arena_ok own a → 0 <= k < n + 2 → index a k = 0 → ∃ own', shrinks own a own' (shrinkBank zero a k) k.
Proof.
  intros Hok Hk Hi. unfold shrinkBank. destruct (isScalarBank k) eqn:Hs.
  - destruct (shrinkSlabWithHysteresis _ _ _ _) as [replace idle] eqn:Hh.
    set (a1 := setDemand a (scalarDemandSinceReset a) (scalarDemandLastReset a) (zset (scalarIdleResets a) k idle)).
    assert (Hok1 : arena_ok own a1) by (apply setDemand_ok; [done|rewrite length_zset; by destruct Hok]).
    assert (Hlen : lengthAfter a k = (if replace then initialSlab k else zlen (slab a k)) ∧ idleAfter a k = idle).
    { unfold lengthAfter, idleAfter, shrunk. by rewrite Hs, Hh. }
    assert (Hidle : ∀ j, at_ (zset (scalarIdleResets a) k idle) j = if k =? j then idle else at_ (scalarIdleResets a) j).
    { intros j. unfold at_. rewrite zget_zset, (ao_idle _ _ _ Hok). case_if; bool_hyps; [|done]. subst j.
      unfold isScalarBank, RegisterComplex in Hs. bool_hyps. by rewrite bool_decide_eq_true_2 by lia. }
    destruct Hlen as [Hl Hd]. destruct replace.
    + destruct (install_fresh own a1 k true Hok1 Hk Hi) as (own' & Hok' & Hc & Hlk & Ho). exists own'.
      split; cbn [installSlab arenaIndices scalarDemandSinceReset scalarDemandLastReset scalarIdleResets]; try done.
      * by rewrite Hlk.
      * cbn. rewrite Hidle, Z.eqb_refl. done.
      * intros j Hj Hne. rewrite (Ho j Hj Hne). cbn. rewrite Hidle, (proj2 (Z.eqb_neq k j)) by congruence. done.
    + exists own. split; try done.
      * cbn. rewrite Hidle, Z.eqb_refl. done.
      * intros j Hj Hne. cbn. rewrite Hidle, (proj2 (Z.eqb_neq k j)) by congruence. done.
  - destruct (Z.ltb_spec (initialSlab k * maxArenaMultiplier) (zlen (slab a k))) as [Hlt|Hge].
    + destruct (install_fresh own a k (ctxMirrored k) Hok Hk Hi) as (own' & Hok' & Hc & Hlk & Ho). exists own'.
      split; try done.
      * rewrite Hlk. unfold lengthAfter. by rewrite Hs, (proj2 (Z.ltb_lt _ _)).
      * unfold idleAfter. by rewrite Hs.
      * intros j Hj Hne. by rewrite Ho.
    + exists own. split; try done.
      * unfold lengthAfter. by rewrite Hs, (proj2 (Z.ltb_ge _ _)).
      * unfold idleAfter. by rewrite Hs.
Qed.

Lemma shrinkAll_shrinks own a ks :
  arena_ok own a → unused a → NoDup ks → (∀ k, k ∈ ks → 0 <= k < n + 2) →
  ∃ own', let a' := foldl (shrinkBank zero) a ks in
    arena_ok own' a' ∧ unused a' ∧ scalarDemandSinceReset a' = scalarDemandSinceReset a ∧ (clean a → clean a') ∧
    (∀ k, k ∈ ks → zlen (slab a' k) = lengthAfter a k ∧ at_ (scalarIdleResets a') k = idleAfter a k) ∧
    (∀ k, 0 <= k < n + 2 → k ∉ ks → zlen (slab a' k) = zlen (slab a k) ∧ at_ (scalarIdleResets a') k = at_ (scalarIdleResets a) k).
Proof.
  revert own a. induction ks as [|k ks IH]; intros own a Hok Hu Hnd Hks; cbn [foldl].
  { exists own. split_and!; try done. by intros k ?%elem_of_nil. }
  apply NoDup_cons in Hnd as [Hnk Hnd]. assert (Hk : 0 <= k < n + 2) by (apply Hks; by left).
  destruct (shrinkBank_shrinks own a k Hok Hk (Hu k Hk)) as (own1 & [S1 S2 S3 S4 S5 S6 S7 S8]).
  assert (Hu1 : unused (shrinkBank zero a k)) by (intros j Hj; unfold index; rewrite S2; by apply Hu).
  destruct (IH own1 _ S1 Hu1 Hnd) as (own' & H1 & H2 & H3 & H4 & H5 & H6); [intros; apply Hks; by right|].
  exists own'. split_and!; [done|done|congruence|by auto| |].
  - intros j [->|Hj]%elem_of_cons; [destruct (H6 k Hk Hnk) as [-> ->]; done|].
    assert (Hj' : 0 <= j < n + 2) by (apply Hks; by right). assert (Hne : j ≠ k) by (intros ->; done).
    destruct (H5 j Hj) as [-> ->]. destruct (S8 j Hj' Hne) as [E1 E2]. unfold lengthAfter, idleAfter. by rewrite S4, E1, E2.
  - intros j Hj [Hne Hnj]%not_elem_of_cons. destruct (H6 j Hj Hnj) as [-> ->]. by apply S8.
Qed.

(** ** Reset *)

Record reset own a a' : Prop := {
  re_ok : arena_ok own a';
  re_unused : unused a';
  re_clean : clean a';
  re_since : scalarDemandSinceReset a' = replicate 7 0;
  re_length k : 0 <= k < n + 2 → zlen (slab a' k) =
    lengthAfter (setDemand a (replicate 7 0) (scalarDemandSinceReset a) (scalarIdleResets a)) k;
  re_idle k : 0 <= k < n + 2 → at_ (scalarIdleResets a') k =
    idleAfter (setDemand a (replicate 7 0) (scalarDemandSinceReset a) (scalarIdleResets a)) k;
}.

Lemma Reset_ok own a : arena_ok own a → ∃ own' a', Reset zero a = Some a' ∧ reset own' a a'.
Proof.
  intros Hok. unfold Reset. set (a0 := setDemand a _ _ _).
  assert (Hok0 : arena_ok own a0) by (apply setDemand_ok; [done|by destruct Hok]).
  destruct (clearAll_ok own a0 classes Hok0) as (a1 & Ha1 & Hok1 & Hi1 & Hs1 & D1 & D2 & D3 & L1 & Z1 & _);
    [apply NoDup_seqZ|by intros k ?%elem_of_classes|].
  unfold clearAllocatedRegisterRanges. rewrite Ha1. cbn [mbind option_bind].
  pose proof (clear_clean own a0 a1 Hok0 L1 Hok1 Hi1 Z1) as Hc1.
  destruct (reset_indices_ok own a1 Hok1 Hc1) as [Hok2 Hu2]. set (a2 := setIndices a1 _) in *.
  destruct (shrinkAll_shrinks own a2 classes Hok2 Hu2) as (own' & H1 & H2 & H3 & H4 & H5 & _);
    [apply NoDup_seqZ|by intros k ?%elem_of_classes|].
  exists own', (foldl (shrinkBank zero) a2 classes). split; [done|].
  assert (E : ∀ k, 0 <= k < n + 2 → lengthAfter a2 k = lengthAfter a0 k ∧ idleAfter a2 k = idleAfter a0 k).
  { intros k Hk. unfold lengthAfter, idleAfter. change (slab a2 k) with (slab a1 k).
    change (scalarDemandLastReset a2) with (scalarDemandLastReset a1). change (scalarIdleResets a2) with (scalarIdleResets a1).
    by rewrite D2, D3, L1. }
  split; [done|done|by apply H4|by rewrite H3; cbn; rewrite D1| |].
  - intros k Hk. rewrite (proj1 (H5 k ltac:(by apply elem_of_classes))). by apply E.
  - intros k Hk. rewrite (proj2 (H5 k ltac:(by apply elem_of_classes))). by apply E.
Qed.

(** ** Frame slots *)

Lemma peak_covers framesUsed frames i f :
  zget frames i = Some f → is_Some (Function f) → i < frameStackPeak framesUsed frames.
Proof.
  intros Hz [g Hf]. unfold frameStackPeak. pose proof (zget_Some_range _ _ _ Hz) as Hr.
  set (step := λ peak i, match f ← zget frames i; Function f with Some _ => i + 1 | None => peak end).
  assert (Hm : ∀ m : nat, let peak := foldl step framesUsed (seqZ framesUsed (Z.of_nat m)) in
    framesUsed <= peak <= framesUsed + Z.of_nat m ∧ (i < framesUsed + Z.of_nat m → i < peak)).
  { induction m as [|m [IH1 IH2]]; [rewrite seqZ_nil by done; cbn [foldl]; lia|]. rewrite seqZ_S, foldl_app. cbn [foldl].
    set (q := foldl step framesUsed (seqZ framesUsed (Z.of_nat m))) in *. unfold step at 1 2 3.
    destruct (f ← zget frames (framesUsed + Z.of_nat m); Function f) eqn:E; [lia|]. split; [lia|]. intros Hi. apply IH2.
    assert (i ≠ framesUsed + Z.of_nat m); [|lia]. intros ->. rewrite Hz in E. cbn in E. congruence. }
  destruct (decide (zlen frames <= framesUsed)) as [Hle|Hgt].
  - destruct (Hm 0%nat) as [H1 _]. rewrite seqZ_nil by lia. cbn [foldl]. lia.
  - destruct (Hm (Z.to_nat (zlen frames - framesUsed))) as [_ H2]. rewrite Z2Nat.id in H2 by lia. apply H2. lia.
Qed.

(** A slot without a function has no bank of pointers. *)
Definition slot_clean (f : CallFrame) : Prop :=
  Function f = None → ∀ k, gcVisible k = true → zget (windows (Registers_ f)) k = Some None.

Lemma emptyFrame_clean : slot_clean emptyFrame.
Proof. intros _ k Hg%gcVisible_bank. cbn [emptyFrame Registers_ noRegisters windows]. by rewrite zget_replicate. Qed.

Lemma resetFrame_clean f : zlen (windows (Registers_ f)) = n →
  zlen (windows (Registers_ (resetFrame f))) = n ∧ slot_clean (resetFrame f).
Proof.
  intros Hl. split; [by cbn; rewrite length_imap|]. intros _ k Hg. pose proof (gcVisible_bank k Hg) as Hk.
  cbn [resetFrame Registers_ windows]. rewrite zget_lookup, list_lookup_imap by lia.
  destruct (lookup_lt_is_Some_2 (windows (Registers_ f)) (Z.to_nat k)) as [w ->]; [lia|].
  cbn [fmap option_fmap option_map]. rewrite Z2Nat.id by lia. by rewrite Hg.
Qed.

(** Frames ready to be lent: none with a function or a bank of pointers. *)
Definition frames_ready (frames : list CallFrame) : Prop :=
  0 < zlen frames ∧ ∀ f, f ∈ frames → zlen (windows (Registers_ f)) = n ∧ Function f = None ∧ slot_clean f.

Lemma emptyFrames_ready m : 0 < m → frames_ready (replicate (Z.to_nat m) emptyFrame).
Proof.
  intros Hm. split; [rewrite length_replicate; lia|]. intros f [-> _]%elem_of_replicate. split_and!; [done|done|apply emptyFrame_clean].
Qed.

Lemma reset_ready frames framesUsed :
  0 < zlen frames → (∀ f, f ∈ frames → zlen (windows (Registers_ f)) = n ∧ slot_clean f) →
  frames_ready (resetFrameSlots (frameStackPeak framesUsed frames) frames).
Proof.
  intros Hpos Hf. split; [unfold resetFrameSlots; by rewrite length_imap|]. intros f Hin.
  apply elem_of_lookup_imap in Hin as (i & g & -> & Hi). assert (Hg : g ∈ frames) by (by eapply list_elem_of_lookup_2).
  destruct (Hf g Hg) as [Hl Hc]. destruct (Z.ltb_spec (Z.of_nat i) (frameStackPeak framesUsed frames)) as [Hlt|Hge].
  - destruct (resetFrame_clean g Hl). done.
  - split_and!; [done| |done]. destruct (Function g) as [r|] eqn:E; [|done]. exfalso.
    assert (Hz : zget frames (Z.of_nat i) = Some g) by (rewrite zget_lookup by lia; by rewrite Nat2Z.id).
    pose proof (peak_covers framesUsed frames (Z.of_nat i) g Hz ltac:(by rewrite E)). lia.
Qed.

Lemma shrinkFrames_ready frames peak idle :
  frames_ready frames → frames_ready (shrinkFrameStackWithHysteresis frames peak idle).1.
Proof.
  intros Hr. unfold shrinkFrameStackWithHysteresis. destruct (shrinkSlabWithHysteresis _ _ _ _) as [[] ?]; cbn [fst]; [|done].
  by apply emptyFrames_ready.
Qed.

Lemma ensureFrames_ready frames m : frames_ready frames → frames_ready (ensureFrameStackCapacity frames m).
Proof.
  intros [Hp Hf]. unfold ensureFrameStackCapacity, growFrameStack. case_if; [done|]. split; [rewrite length_app; lia|].
  intros f [Hin|[-> _]%elem_of_replicate]%elem_of_app; [by apply Hf|]. split_and!; [done|done|apply emptyFrame_clean].
Qed.

(** What a step does to the slots: it leaves them, appends empty ones or fills
    one. *)
Definition slots_from (frames frames' : list CallFrame) : Prop :=
  ∀ f, f ∈ frames' → f ∈ frames ∨ f = emptyFrame ∨ is_Some (Function f).

Lemma slots_clean_from frames frames' : slots_from frames frames' → Forall slot_clean frames → Forall slot_clean frames'.
Proof.
  rewrite !Forall_forall. intros Hs Hc f Hf. destruct (Hs f Hf) as [|[->|[g Hg]]]; [by apply Hc|apply emptyFrame_clean|].
  intros Hn. congruence.
Qed.

Lemma slots_zset frames frames' i (f : CallFrame) : is_Some (Function f) → slots_from frames frames' → slots_from frames (zset frames' i f).
Proof.
  intros Hf Hs g [j Hj]%elem_of_zget. rewrite zget_zset in Hj. destruct (i =? j); [|apply Hs, elem_of_zget; by exists j].
  destruct (bool_decide _); [|done]. injection Hj as <-. auto.
Qed.

Lemma enterFrame_slots vm : slots_from (CallStack vm) (CallStack (enterFrame vm)).
Proof.
  unfold enterFrame, growCallStack. case_if; cbn; [|by intros f Hf; left].
  intros f [Hf|[-> _]%elem_of_replicate]%elem_of_app; auto.
Qed.

Lemma allocFrame_slots vm m numRegs vm' frames :
  allocFrame zero vm m numRegs = Some vm' → slots_from frames (CallStack vm) → slots_from frames (CallStack vm').
Proof.
  unfold allocFrame. intros H Hs. destruct (zget _ _) as [f|]; [|done]. cbn [mbind option_bind] in H.
  destruct (if 0 <? m then _ else _) as [a|]; [|done]. cbn [mbind option_bind] in H.
  destruct (allocRegistersIntoCached _ _ _ _ _) as [[a' r]|]; [|done]. cbn [mbind option_bind] in H.
  injection H as <-. cbn. apply slots_zset; [by eexists|done].
Qed.

Lemma write_slots vm i k r v vm' : writeRegister vm i k r v = Some vm' → CallStack vm' = CallStack vm.
Proof.
  unfold writeRegister. destruct (bankOf _ _ _); [|done]. cbn [mbind option_bind]. case_if; [|done].
  destruct (memory _ !! _); [|done]. by intros [= <-].
Qed.

Lemma step_slots vm vm' : vm_step zero vm vm' → slots_from (CallStack vm) (CallStack vm').
Proof.
  assert (Hid : ∀ frames, slots_from frames frames) by (intros frames f; by left).
  destruct 1 as [vm m numRegs vm' Hn H|vm m numRegs vm' Hn H|vm numRegs vm' Hn H|vm numRegs vm' Hn H
    |vm vm' Hfp H|vm numRegs vm' Hfp Hn H|vm i k r v vm' Hl H|vm i j k r r' vm' Hl Hl' H].
  - unfold PushFrame in H. destruct (callDepthLimit _ <=? _); [done|]. destruct (allocFrame _ _ _ _) as [vm1|] eqn:E; [|done]. injection H as <-.
    apply (allocFrame_slots _ _ _ _ _ E), enterFrame_slots.
  - unfold PushFrame in H. destruct (callDepthLimit _ <=? _); [by injection H as <-|]. by destruct (allocFrame _ _ _ _) as [vm1|].
  - unfold pushDeferredFrame in H. destruct (allocRegistersInto _ _ _ _) as [[a r]|]; [|done]. cbn [mbind option_bind] in H.
    destruct (callDepthLimit _ <=? _); [done|]. destruct (zget _ _); [|done]. injection H as <-. cbn [setStack CallStack].
    apply slots_zset; [by eexists|]. apply (enterFrame_slots (setArena vm a)).
  - unfold pushDeferredFrame in H. destruct (allocRegistersInto _ _ _ _) as [[a r]|]; [|done]. cbn [mbind option_bind] in H.
    destruct (callDepthLimit _ <=? _); [by injection H as <-|]. by destruct (zget _ _).
  - unfold popFrame in H. destruct (zget _ _); [|done]. cbn [mbind option_bind] in H. destruct (Restore _ _ _); [|done].
    by injection H as <-.
  - unfold reallocateTailCallFrame in H. destruct (zget _ _); [|done]. cbn [mbind option_bind] in H.
    destruct (Restore _ _ _); [|done]. cbn [mbind option_bind] in H.
    destruct (allocRegistersIntoCached _ _ _ _ _) as [[a' q]|]; [|done]. injection H as <-. cbn. apply slots_zset; [by eexists|done].
  - by rewrite (write_slots vm i k r v vm' H).
  - unfold copySameKind in H. destruct (readRegister _ _ _ _); [|done]. by rewrite (write_slots vm i k r _ vm' H).
Qed.

(** ** Every machine an arena serves *)

Record pooled_ok own (p : pooled) : Prop := {
  po_arena : arena_ok own (lent p);
  po_unused : unused (lent p);
  po_frames : frames_ready (frameSlab p);
}.

Lemma newPooled_ok : pooled_ok (λ b, b) newPooled.
Proof.
  destruct (init_ok zero) as [Hok Hi]. split; [exact Hok| |by apply emptyFrames_ready].
  intros k Hk. unfold index. cbn [newPooled lent]. rewrite Hi. by rewrite zget_replicate.
Qed.

Definition served own vm : Prop := vm_ok zero own vm ∧ Forall slot_clean (CallStack vm).

Lemma prepare_ok own p counts FrameStack limit observed :
  pooled_ok own p → ∃ own', served own' (prepareForExecution p counts FrameStack limit observed) ∧
    represents (prepareForExecution p counts FrameStack limit observed) [].
Proof.
  intros [Hok Hu Hfr]. destruct (ensureBankCapacity_ok zero own (lent p) counts Hok Hu) as [own' Hok'].
  pose proof (ensureFrames_ready _ FrameStack Hfr) as [Hpos Hf]. unfold prepareForExecution.
  exists own'. split; [split|].
  - split; cbn [Arena FramePointer CallStack]; [done|lia|done| | |].
    + intros i f Hi Hz. apply zget_Some_range in Hz. lia.
    + intros i j f g k Hij Hz. apply zget_Some_range in Hz. lia.
    + intros f Hin. by apply Hf.
  - apply Forall_forall. intros f Hin. by apply Hf.
  - split; [done|]. cbn [FramePointer CallStack]. intros i f Hi Hz. apply zget_Some_range in Hz. lia.
Qed.

Lemma put_ok own vm framesUsed idle :
  served own vm → ∃ own' p, PutRegisterArena vm framesUsed idle = Some p ∧ pooled_ok own' p ∧ reset own' (Arena vm) (lent p).
Proof.
  intros [Hok Hc]. destruct (Reset_ok own (Arena vm) (vo_arena _ _ _ Hok)) as (own' & a & Ha & Hre).
  unfold PutRegisterArena. rewrite Ha. cbn [mbind option_bind].
  assert (Hr : frames_ready (resetFrameSlots (frameStackPeak framesUsed (CallStack vm)) (CallStack vm))).
  { apply reset_ready; [by destruct Hok|]. rewrite Forall_forall in Hc. intros f Hf.
    split; [by apply (vo_slots _ _ _ Hok)|by apply Hc]. }
  pose proof (shrinkFrames_ready _ (frameStackPeak framesUsed (CallStack vm)) idle Hr) as Hr'.
  destruct (shrinkFrameStackWithHysteresis _ _ _) as [frames idle']. cbn [fst] in Hr'.
  exists own', (NewPooled a frames idle'). split_and!; [done| |done]. by destruct Hre.
Qed.

Lemma serves_ok vm : serves vm → ∃ own files, served own vm ∧ represents vm files ∧ star (file_step zero) [] files.
Proof.
  induction 1 as [counts FrameStack limit observed|vm vm' _ IH Hs|vm framesUsed idle p counts FrameStack limit observed _ IH Hp].
  - destruct (prepare_ok _ newPooled counts FrameStack limit observed newPooled_ok) as (own & Hs & Hr).
    exists own, []. split_and!; [done|done|constructor].
  - destruct IH as (own & files & [Hok Hc] & Hr & Hf).
    destruct (step_simulated zero own vm vm' files Hok Hr Hs) as (own' & files' & Hok' & Hr' & Hf').
    exists own', files'. split_and!; [|done|by eapply star_step]. split; [done|].
    eapply slots_clean_from; [by eapply step_slots|done].
  - destruct IH as (own & files & Hsv & _ & _). destruct (put_ok own vm framesUsed idle Hsv) as (own' & q & Hq & Hok & _).
    assert (q = p) as -> by congruence. destruct (prepare_ok own' p counts FrameStack limit observed Hok) as (own'' & Hs' & Hr').
    exists own'', []. split_and!; [done|done|constructor].
Qed.


(** ** What a release leaves *)

Lemma shrunk_bound len k demand idle :
  0 <= k < n + 2 → initialSlab k * maxArenaMultiplier < len → idle = 3 → demand <= len / backingSlabLowUseRatioDenominator →
  shrunk len k demand idle = (initialSlab k, 0).
Proof.
  intros Hk Hl -> Hd. unfold shrunk, shrinkSlabWithHysteresis. rewrite (proj2 (Z.leb_gt _ _)) by done.
  rewrite (proj2 (Z.ltb_ge _ _)) by done. done.
Qed.

(** A bank is small, or its counter says for how many resets it has been idle. *)
Definition waned (m : Z) a : Prop :=
  ∀ k, 0 <= k < n + 2 →
    zlen (slab a k) <= initialSlab k * maxArenaMultiplier ∨ isScalarBank k = true ∧ m <= at_ (scalarIdleResets a) k < 4.

Lemma reset_wanes own a a' m :
  reset own a a' → -1 <= m → (m = -1 ∨ waned m a ∧ ∀ k, 0 <= k < n + 2 → isScalarBank k = true →
    initialSlab k * maxArenaMultiplier < zlen (slab a k) →
    at_ (scalarDemandSinceReset a) k <= zlen (slab a k) / backingSlabLowUseRatioDenominator) → waned (m + 1) a'.
Proof.
  intros Hre Hm Hw k Hk. pose proof (initialSlab_pos k Hk) as Hp. rewrite (re_length _ _ _ Hre k Hk), (re_idle _ _ _ Hre k Hk).
  unfold lengthAfter, idleAfter. cbn [setDemand scalarDemandLastReset scalarIdleResets slab memory slabs slabAddress].
  change (slab (setDemand a ?x ?y ?z) k) with (slab a k). unfold maxArenaMultiplier in *.
  destruct (isScalarBank k) eqn:Hs; [|left; destruct (Z.ltb_spec (initialSlab k * 8) (zlen (slab a k))); lia].
  unfold shrunk, shrinkSlabWithHysteresis, maxArenaMultiplier, backingSlabIdleResetsBeforeShrink.
  destruct (Z.leb_spec (zlen (slab a k)) (initialSlab k * 8)) as [Hle|Hgt]; [left; cbn; lia|].
  destruct (Z.ltb_spec (zlen (slab a k) / backingSlabLowUseRatioDenominator) (at_ (scalarDemandSinceReset a) k)) as [Hhot|Hcold].
  - right. cbn. destruct Hw as [->|[_ Hd]]; [lia|]. specialize (Hd k Hk Hs Hgt). lia.
  - pose proof (wrapU_range 32 (at_ (scalarIdleResets a) k + 1) ltac:(lia)) as Hr. unfold isU in Hr.
    destruct (Z.ltb_spec (wrapU 32 (at_ (scalarIdleResets a) k + 1)) 4) as [Hlt|Hge]; cbn; [|left; lia]. right. split; [done|].
    destruct Hw as [->|[Hw _]]; [lia|]. destruct (Hw k Hk) as [?|[_ ?]]; [unfold maxArenaMultiplier in *; lia|].
    rewrite (wrapU_id 32 (at_ (scalarIdleResets a) k + 1)) in * by (unfold isU; lia). lia.
Qed.

(** A program that asks for little, and runs without growing a bank. *)
Definition small (counts : list Z) : Prop := ∀ k, 0 <= k < n + 2 → at_ counts k <= initialSlab k * 2.

Lemma ensureBanks_lengths own a counts ks :
  arena_ok own a → unused a → (∀ k, k ∈ ks → 0 <= k < n + 2) →
  let a' := foldl (ensureBank zero counts) a ks in
  scalarIdleResets a' = scalarIdleResets a ∧ scalarDemandSinceReset a' = scalarDemandSinceReset a ∧
  ∀ k, 0 <= k < n + 2 → zlen (slab a k) <= zlen (slab a' k) <= Z.max (zlen (slab a k)) (at_ counts k).
Proof.
  revert own a. induction ks as [|k ks IH]; intros own a Hok Hu Hks; cbn [foldl]; [split_and!; try done; lia|].
  assert (Hk : 0 <= k < n + 2) by (apply Hks; by left).
  assert (H1 : ∃ own1, arena_ok own1 (ensureBank zero counts a k) ∧ unused (ensureBank zero counts a k) ∧
    scalarIdleResets (ensureBank zero counts a k) = scalarIdleResets a ∧
    scalarDemandSinceReset (ensureBank zero counts a k) = scalarDemandSinceReset a ∧
    ∀ j, 0 <= j < n + 2 → zlen (slab a j) <= zlen (slab (ensureBank zero counts a k) j) <= Z.max (zlen (slab a j)) (at_ counts j)).
  { unfold ensureBank. destruct (Z.ltb_spec (zlen (slab a k)) (at_ counts k)) as [Hlt|Hge].
    - destruct (install_ok zero (ctxMirrored k) own a k (makeSlab zero k (at_ counts k)) Hok Hk) as [Hok1 _].
      { rewrite Hu by done. lia. } { intros _ j x _. apply zget_makeSlab. }
      eexists. split_and!; [exact Hok1|exact Hu|done|done|]. intros j Hj. rewrite (slab_install zero _ own) by done.
      destruct (Z.eqb_spec k j) as [->|]; [rewrite length_makeSlab; lia|lia].
    - exists own. split_and!; try done. lia. }
  destruct H1 as (own1 & Hok1 & Hu1 & E1 & E2 & E3).
  destruct (IH own1 _ Hok1 Hu1) as (F1 & F2 & F3); [intros; apply Hks; by right|].
  split_and!; [congruence|congruence|]. intros j Hj. specialize (E3 j Hj). specialize (F3 j Hj). lia.
Qed.

Lemma demand_zero counts k : at_ (imap (λ i d, Z.max d (at_ counts (Z.of_nat i))) (replicate 7 0)) k <= Z.max 0 (at_ counts k).
Proof.
  unfold at_ at 1. destruct (zget _ k) as [d|] eqn:Hz; [|cbn; lia]. cbn. pose proof (zget_Some_range _ _ _ Hz) as Hr.
  rewrite zget_lookup, list_lookup_imap in Hz by lia. destruct (replicate 7 0 !! Z.to_nat k) as [x|] eqn:E; [|done].
  apply lookup_replicate in E as [-> _]. cbn in Hz. rewrite Z2Nat.id in Hz by lia. injection Hz as <-. lia.
Qed.

Lemma ensureBankCapacity_lengths own a counts :
  arena_ok own a → unused a → scalarDemandSinceReset a = replicate 7 0 →
  scalarIdleResets (ensureBankCapacity zero a counts) = scalarIdleResets a ∧
  (∀ k, at_ (scalarDemandSinceReset (ensureBankCapacity zero a counts)) k <= Z.max 0 (at_ counts k)) ∧
  ∀ k, 0 <= k < n + 2 → zlen (slab a k) <= zlen (slab (ensureBankCapacity zero a counts) k) <= Z.max (zlen (slab a k)) (at_ counts k).
Proof.
  intros Hok Hu Hd. unfold ensureBankCapacity.
  destruct (ensureBanks_lengths own (setDemand a (imap (λ i d, Z.max d (at_ counts (Z.of_nat i))) (scalarDemandSinceReset a))
    (scalarDemandLastReset a) (scalarIdleResets a)) counts classes) as (E1 & E2 & E3);
    [apply setDemand_ok; [done|by destruct Hok]|done|by intros k ?%elem_of_classes|].
  split_and!; [exact E1| |exact E3]. intros k. rewrite E2. cbn [setDemand scalarDemandSinceReset]. rewrite Hd. apply demand_zero.
Qed.

Lemma small_wanes own own' a a' counts m :
  arena_ok own a → unused a → scalarDemandSinceReset a = replicate 7 0 → small counts → 0 <= m → waned m a →
  reset own' (ensureBankCapacity zero a counts) a' → waned (m + 1) a'.
Proof.
  intros Hok Hu Hd Hsmall Hm Hw Hre. destruct (ensureBankCapacity_lengths own a counts Hok Hu Hd) as (E1 & E2 & E3).
  revert E1 E2 E3 Hre. generalize (ensureBankCapacity zero a counts). intros b E1 E2 E3 Hre.
  apply (reset_wanes _ _ _ m Hre); [lia|]. right. split.
  - intros k Hk. rewrite E1. specialize (E3 k Hk). specialize (Hsmall k Hk). specialize (Hw k Hk). unfold maxArenaMultiplier in *.
    destruct Hw as [Hw|Hw]; [left; pose proof (initialSlab_pos k Hk); lia|by right].
  - intros k Hk Hs Hbig. specialize (E2 k). specialize (Hsmall k Hk). pose proof (initialSlab_pos k Hk).
    unfold maxArenaMultiplier, backingSlabLowUseRatioDenominator in *. apply Z.div_le_lower_bound; lia.
Qed.

(** Machines that ask for little and only come and go. *)
Fixpoint idleRounds (p : pooled) (programs : list (list Z)) : option pooled :=
  match programs with
  | [] => Some p
  | counts :: programs =>
      p ← PutRegisterArena (prepareForExecution p counts 0 0 0) 0 (frameStackIdleResets p);
      idleRounds p programs
  end.

Lemma prepare_arena p counts FrameStack limit observed :
  Arena (prepareForExecution p counts FrameStack limit observed) = ensureBankCapacity zero (lent p) counts.
Proof. done. Qed.

Lemma rounds_wane own p programs m :
  pooled_ok own p → scalarDemandSinceReset (lent p) = replicate 7 0 → Forall small programs → 0 <= m → waned m (lent p) →
  ∃ q, idleRounds p programs = Some q ∧ waned (m + zlen programs) (lent q).
Proof.
  revert own p m. induction programs as [|counts programs IH]; intros own p m Hp Hd Hs Hm Hw; cbn [idleRounds].
  { exists p. cbn [length]. by replace (m + Z.of_nat 0) with m by lia. }
  apply Forall_cons in Hs as [Hc Hs]. destruct (prepare_ok own p counts 0 0 0 Hp) as (own1 & Hs1 & _).
  destruct (put_ok own1 _ 0 (frameStackIdleResets p) Hs1) as (own2 & q & Hq & Hpq & Hre). rewrite Hq. cbn [mbind option_bind].
  rewrite prepare_arena in Hre. pose proof (small_wanes own own2 (lent p) (lent q) counts m (po_arena _ _ Hp) (po_unused _ _ Hp) Hd Hc Hm Hw Hre) as Hw'.
  destruct (IH own2 q (m + 1) Hpq (re_since _ _ _ Hre) Hs ltac:(lia) Hw') as (q' & Hq' & Hwq). exists q'. split; [done|].
  cbn [length]. by replace (m + Z.of_nat (S (length programs))) with (m + 1 + zlen programs) by lia.
Qed.

End pool.

(** ** Runs *)

Definition noValue (k : Z) : Z := 0.
Definition oneInt : list Z := [1].
Definition afterCall (vm : VM (V:=Z)) (numRegs : list Z) : VM :=
  match PushFrame noValue vm 0 numRegs with Some (Pushed vm) => vm | _ => vm end.
Definition afterDefer (vm : VM (V:=Z)) (numRegs : list Z) : VM :=
  match pushDeferredFrame noValue vm numRegs with Some (Pushed vm) => vm | _ => vm end.
Definition afterReturn (vm : VM (V:=Z)) : VM := default vm (popFrame noValue vm).
Definition afterWrite (vm : VM (V:=Z)) (i k r v : Z) : VM := default vm (writeRegister vm i k r v).

Definition firstVM : VM := prepareForExecution noValue (newPooled noValue) [] 0 0 0.

Lemma counts_sample numRegs : forallb (Z.leb 0) numRegs = true → numRegs_ok numRegs.
Proof.
  intros Hf k. destruct (zget numRegs k) as [c|] eqn:Hc; [|done]. cbn. rewrite forallb_forall in Hf.
  apply Z.leb_le, Hf, list_elem_of_In, elem_of_zget. by exists k.
Qed.

(** A caller writes its register and calls a function that needs more than a
    slab. *)
Definition calledVM : VM := afterCall (afterWrite (afterCall firstVM oneInt) 0 0 0 7) [600].

Lemma serves_calledVM : serves noValue calledVM.
Proof.
  apply serves_step with (afterWrite (afterCall firstVM oneInt) 0 0 0 7).
  - apply serves_step with (afterCall firstVM oneInt).
    + apply serves_step with firstVM; [apply serves_first|].
      apply (step_push noValue _ 0 oneInt); [by apply counts_sample|vm_compute; reflexivity].
    + apply (step_write noValue _ 0 0 0 7); [|vm_compute; reflexivity].
      split_and!; try done. eexists. split; [vm_compute; reflexivity|]. vm_compute. reflexivity.
  - apply (step_push noValue _ 0 [600]); [by apply counts_sample|vm_compute; reflexivity].
Qed.



(** A deferred call leaves its frame without the mask of the banks it was
    given, so that the next call on the same frame slot does not reset the banks
    it does not use to nil: the frame of a function with no register at all
    still has the int bank of the deferred function that ran before it. *)
Theorem stale_bank_survives :
  ∃ vm, serves noValue vm ∧
    ∃ f, zget (CallStack vm) (FramePointer vm) = Some f ∧ Function f = Some [] ∧
      zget (windows (Registers_ f)) RegisterInt = Some (Some (NewWindow 0 0 1)).
Proof.
  exists (afterCall (afterReturn (afterDefer firstVM oneInt)) []). split.
  - apply serves_step with (afterReturn (afterDefer firstVM oneInt)).
    + apply serves_step with (afterDefer firstVM oneInt).
      * apply serves_step with firstVM; [apply serves_first|].
        apply (step_defer noValue _ oneInt); [by apply counts_sample|vm_compute; reflexivity].
      * apply step_pop; [vm_compute; done|vm_compute; reflexivity].
    + apply (step_push noValue _ 0 []); [by apply counts_sample|vm_compute; reflexivity].
  - eexists. vm_compute. split_and!; reflexivity.
Qed.

(** A reset clears the registers below the indices it finds, so what a frame that
    returned before left above them stays. *)
Definition returnedVM : VM := afterReturn (afterWrite (afterCall firstVM oneInt) 0 RegisterInt 0 7).

Definition released : pooled (V:=Z) := default (newPooled noValue) (PutRegisterArena noValue returnedVM 1 0).

Definition secondVM : VM := afterCall (prepareForExecution noValue released [] 0 0 0) oneInt.

(** A released arena is not freshly zeroed: an int written by a function that
    returned before the release is what the first function of the next program
    that asks for an int register finds in it. *)
Theorem release_leaves_scalars :
  serves noValue secondVM ∧ readRegister secondVM 0 RegisterInt 0 = Some 7.
Proof.
  split; [|vm_compute; reflexivity].
  assert (Hr : serves noValue returnedVM).
  { apply serves_step with (afterWrite (afterCall firstVM oneInt) 0 RegisterInt 0 7).
    - apply serves_step with (afterCall firstVM oneInt).
      + apply serves_step with firstVM; [apply serves_first|].
        apply (step_push noValue _ 0 oneInt); [by apply counts_sample|vm_compute; reflexivity].
      + apply (step_write noValue _ 0 0 0 7); [|vm_compute; reflexivity].
        split_and!; try done. eexists. split; [vm_compute; reflexivity|]. vm_compute. reflexivity.
    - apply step_pop; [vm_compute; done|vm_compute; reflexivity]. }
  apply serves_step with (prepareForExecution noValue released [] 0 0 0).
  - apply (serves_again noValue returnedVM 1 0); [exact Hr|vm_compute; reflexivity].
  - apply (step_push noValue _ 0 oneInt); [by apply counts_sample|vm_compute; reflexivity].
Qed.
