(* ===== verification/ArenaSizing.v ===== *)
(** * Sizing an arena for a program

    [internal/engine/vm_arena_sizing.go], [vm_arena_hints.go], the saturating
    arithmetic of [vm.go] and [program/observed_call_depth.go]: what an arena is
    sized for before a program runs.

    A program is its root function, the table the root carries and the
    initialiser of its variables; of the upvalue descriptors of a function only
    their number matters. *)

From S2P Require Import Prelude SafeConv Register Opcode Instruction Function CallGraph Arena.

Record SizedFunction := NewSizedFunction { code : CompiledFunction; UpvalueDescriptors : Z }.

Record Program := NewProgram {
  root : SizedFunction;
  table : list SizedFunction;
  VariableInitFunction : option SizedFunction;
}.

Definition codes (functions : list SizedFunction) : list CompiledFunction := map code functions.

(** ** Saturating arithmetic *)

Definition maxArenaPreSizeBacking : Z := 2 ^ 26.
Definition maxFrameStackPreSize : Z := 4096.
Definition maxBoxSlabPreSize : Z := 2 ^ 16.
Definition maxUpvalueSlabPreSize : Z := 2 ^ 16.
Definition maxGenericBytesPreSize : Z := 4 * 2 ^ 20.
Definition maxSliceHeaderPreSize : Z := 2 ^ 16.
Definition boxSlabPerOccurrenceFactor : Z := 4.
Definition arenaDepthEstimateFloor : Z := 8.
Definition arenaDepthEstimateCeiling : Z := 64.

Definition saturatingProduct (a b : Z) : Z :=
  if (a <=? 0) || (b <=? 0) then 0
  else if maxArenaPreSizeBacking / b <? a then maxArenaPreSizeBacking
  else a * b.

Definition saturatingProduct3 (a b c : Z) : Z := saturatingProduct (saturatingProduct a b) c.

Definition clampAtMost (value ceiling : Z) : Z :=
  if value <? 0 then 0 else if ceiling <? value then ceiling else value.

(** ** Hints *)

Definition arenaConcatStringAvgBytes : Z := 32.
Definition arenaConcatRuneStringAvgBytes : Z := 16.
Definition arenaRuneToStringMaxBytes : Z := 4.
Definition arenaBytesToStringAvgBytes : Z := 64.
Definition arenaItoaMaxBytes : Z := 20.
Definition arenaFormatIntMaxBytes : Z := 65.
Definition arenaMakeSliceAvgCapacity : Z := 16.
Definition arenaMakeSliceGenericAvgBytes : Z := 32.
Definition arenaMakeMapAvgBytes : Z := 48.
Definition arenaAllocIndirectAvgBytes : Z := 64.

(** The hints that size a slab; the four counters of occurrences that nothing
    reads are left out. *)
Inductive hint :=
  | hintBytes | hintMakeSliceInt | hintMakeSliceFloat | hintMakeSliceString | hintMakeSliceBool | hintMakeSliceUint
  | hintGenericBytes | hintSliceHeaders | hintBoxInts | hintBoxUints | hintBoxFloats | hintBoxStrings | hintBoxComplexes
  | hintUpvalueCells | hintUpvalueReferences.

#[export] Instance hint_eq_dec : EqDecision hint.
Proof. solve_decision. Defined.

Definition arenaBytecodeHints : Type := hint → Z.
Definition noHints : arenaBytecodeHints := λ _, 0.
Definition bump (hints : arenaBytecodeHints) (h : hint) (by_ : Z) : arenaBytecodeHints :=
  λ h', if bool_decide (h = h') then hints h' + by_ else hints h'.

Definition accumulateTier2Hints (hints : arenaBytecodeHints) (subOp : Z) : arenaBytecodeHints :=
  if one_of subOp [SubOpTier2MakeMap; SubOpTier2AllocStructLiteral] then bump hints hintGenericBytes arenaMakeMapAvgBytes
  else hints.

Definition accumulateTier1Hints (hints : arenaBytecodeHints) (subOp : Z) : arenaBytecodeHints :=
  if subOp =? SubOpBytesToString then bump hints hintBytes arenaBytesToStringAvgBytes
  else if subOp =? SubOpStrconvItoa then bump hints hintBytes arenaItoaMaxBytes
  else if subOp =? SubOpStrconvFormatInt then bump hints hintBytes arenaFormatIntMaxBytes
  else if subOp =? SubOpRuneToString then bump hints hintBytes arenaRuneToStringMaxBytes
  else if subOp =? SubOpMakeSliceInt then bump hints hintMakeSliceInt 1
  else if subOp =? SubOpMakeSliceFloat then bump hints hintMakeSliceFloat 1
  else if subOp =? SubOpMakeSliceString then bump hints hintMakeSliceString 1
  else if subOp =? SubOpMakeSliceBool then bump hints hintMakeSliceBool 1
  else if subOp =? SubOpMakeSliceUint then bump hints hintMakeSliceUint 1
  else hints.

Definition accumulatePackHint (hints : arenaBytecodeHints) (sourceKind : RegisterKind) : arenaBytecodeHints :=
  if sourceKind =? RegisterInt then bump hints hintBoxInts 1
  else if sourceKind =? RegisterUint then bump hints hintBoxUints 1
  else if sourceKind =? RegisterFloat then bump hints hintBoxFloats 1
  else if sourceKind =? RegisterString then bump hints hintBoxStrings 1
  else if sourceKind =? RegisterComplex then bump hints hintBoxComplexes 1
  else if one_of sourceKind [RegisterSliceInt; RegisterSliceFloat; RegisterSliceString; RegisterSliceBool;
                             RegisterSliceUint; RegisterSliceByte] then bump hints hintSliceHeaders 1
  else hints.

Definition accumulateClosureHint (hints : arenaBytecodeHints) (instr : Instruction) (allFuncs : list SizedFunction)
    : arenaBytecodeHints :=
  match zget allFuncs (WideIndex instr) with
  | None => hints
  | Some callee =>
      bump (bump hints hintUpvalueCells (UpvalueDescriptors callee)) hintUpvalueReferences (UpvalueDescriptors callee)
  end.

(** One instruction. *)
Definition accumulateOne (allFuncs : list SizedFunction) (hints : arenaBytecodeHints) (i : Instruction) : arenaBytecodeHints :=
  if iOp i =? OpConcatString then bump hints hintBytes arenaConcatStringAvgBytes
  else if iOp i =? OpConcatRuneString then bump hints hintBytes arenaConcatRuneStringAvgBytes
  else if iOp i =? OpDrillTier1 then
    if iA i =? SubOpDrillTier2 then accumulateTier2Hints hints (iB i) else accumulateTier1Hints hints (iA i)
  else if one_of (iOp i) [OpPackInterface; OpPackTyped] then accumulatePackHint hints (iC i)
  else if iOp i =? OpMakeClosure then accumulateClosureHint hints i allFuncs
  else if one_of (iOp i) [OpAppend; OpAppendSpread; OpAppendInPlace; OpAppendSpreadInPlace; OpAppendStructFast;
                          OpAppendByteFast; OpAppendByteFastInPlace; OpAppendIntFast; OpAppendFloatFast; OpAppendStringFast]
       then bump hints hintSliceHeaders 1
  else if iOp i =? OpMakeSlice then bump (bump hints hintSliceHeaders 1) hintGenericBytes arenaMakeSliceGenericAvgBytes
  else if iOp i =? OpAllocIndirect then bump (bump hints hintSliceHeaders 1) hintGenericBytes arenaAllocIndirectAvgBytes
  else hints.

Definition accumulateArenaBytecodeHints (hints : arenaBytecodeHints) (body : list Instruction) (allFuncs : list SizedFunction)
    : arenaBytecodeHints :=
  foldl (accumulateOne allFuncs) hints body.

(** ** Reachable functions *)

Definition functionHasUnresolvableCalls (function : CompiledFunction) : bool :=
  existsb (λ site, IsClosure site || IsMethod site) (CallSites function).

Inductive walk := Resolved (reachable : list Z) | Unresolvable | OutOfFuel.

(** The callees that are pushed. *)
Definition pushedCallees (adjacency : list (list Z)) (visited : list bool) (node : Z) : list Z :=
  filter (λ callee, (callee <? zlen adjacency) && negb (default false (zget visited callee)) = true) (neighbours adjacency node).

(** The stack has its top last. *)
Fixpoint walkLoop (fuel : nat) (functions : list CompiledFunction) (adjacency : list (list Z)) (visited : list bool)
    (reachable stack : list Z) : walk :=
  match fuel with
  | O => OutOfFuel
  | S fuel =>
      match last stack with
      | None => Resolved reachable
      | Some index =>
          let stack := removelast stack in
          if default false (zget visited index) then walkLoop fuel functions adjacency visited reachable stack
          else
            let visited := zset visited index true in
            match zget functions index with
            | None => Unresolvable
            | Some function =>
                if functionHasUnresolvableCalls function then Unresolvable
                else walkLoop fuel functions adjacency visited (reachable ++ [index])
                       (stack ++ pushedCallees adjacency visited index)
            end
      end
  end.

Definition walkStaticCallees (functions : list CompiledFunction) (entryIndex : Z) : walk :=
  let adjacency := BuildCallAdjacency functions in
  walkLoop (2 + edgeCount adjacency) functions adjacency (replicate (length functions) false) [] [entryIndex].

Definition allFunctions (p : Program) : list SizedFunction :=
  root p :: table p ++ match VariableInitFunction p with Some f => [f] | None => [] end.

(** [entry] is the index of the entry in the table, [None] when it is the root
    or not there. *)
Definition functionsReachableFrom (p : Program) (entry : option Z) : list CompiledFunction :=
  match entry with
  | None => codes (allFunctions p)
  | Some index =>
      match walkStaticCallees (codes (table p)) index with
      | Resolved reachable => omap (zget (codes (table p))) reachable
      | _ => codes (allFunctions p)
      end
  end.

(** ** Counts *)

(** The banks the peak is taken of: all but byte slices. *)
Definition peakBanks : list Z :=
  [RegisterInt; RegisterFloat; RegisterString; RegisterGeneral; RegisterBool; RegisterUint; RegisterComplex;
   RegisterSliceInt; RegisterSliceFloat; RegisterSliceString; RegisterSliceBool; RegisterSliceUint].

Definition peakOf (functions : list CompiledFunction) (k : Z) : Z :=
  foldl (λ peak f, Z.max peak (at_ (NumRegisters f) k)) 0 functions.

Definition peakRegisterCounts (functions : list CompiledFunction) : list Z :=
  map (λ k, if one_of k peakBanks then peakOf functions k else 0) banks.

Definition scale (counts : list Z) (depth : Z) : list Z := map (λ c, c * depth) counts.

Definition clampedArenaDepth (p : Program) : Z :=
  Z.min (Z.max (EstimateMaxCallDepth (codes (table p)) + frameStackSafetyMargin) arenaDepthEstimateFloor) arenaDepthEstimateCeiling.

Definition frameStackPreSize {V} (vm : VM (V:=V)) (p : Program) (observed : Z) : Z :=
  let frames := clampAtMost (EstimateMaxCallDepth (codes (table p)) + frameStackSafetyMargin) maxFrameStackPreSize in
  if 0 <? observed then Z.max frames (observedFrameStackTarget vm observed) else frames.

Record TypedSlabCounts := NewTypedSlabCounts {
  Registers_count : list Z;
  UpvalueCells : Z;
  UpvalueReferences : Z;
  FrameStack : Z;
  Bytes : Z;
  IntBacking : Z;
  FloatBacking : Z;
  StringBacking : Z;
  BoolBacking : Z;
  UintBacking : Z;
  GenericBytes : Z;
  SliceHeaders : Z;
  IntBoxes : Z;
  UintBoxes : Z;
  FloatBoxes : Z;
  StringBoxes : Z;
  ComplexBoxes : Z;
}.

Definition programHints (p : Program) : arenaBytecodeHints :=
  foldl (λ hints f, accumulateArenaBytecodeHints hints (Body (code f)) (allFunctions p)) noHints (allFunctions p).

(** [sizeArenaForEntry], the counts it hands to [ensureCapacity]. *)
Definition sizeArenaForEntry {V} (vm : VM (V:=V)) (p : Program) (entry : option Z) (observed : Z) : TypedSlabCounts :=
  let hints := programHints p in
  let depthEstimate := arenaDepthEstimateCeiling in
  let boxes h := clampAtMost (saturatingProduct (hints h) boxSlabPerOccurrenceFactor) maxBoxSlabPreSize in
  let backing h := saturatingProduct3 (hints h) arenaMakeSliceAvgCapacity depthEstimate in
  NewTypedSlabCounts
    (scale (peakRegisterCounts (functionsReachableFrom p entry)) (clampedArenaDepth p))
    (clampAtMost (saturatingProduct (hints hintUpvalueCells) depthEstimate) maxUpvalueSlabPreSize)
    (clampAtMost (saturatingProduct (hints hintUpvalueReferences) depthEstimate) maxUpvalueSlabPreSize)
    (frameStackPreSize vm p observed)
    (saturatingProduct (hints hintBytes) depthEstimate)
    (backing hintMakeSliceInt) (backing hintMakeSliceFloat) (backing hintMakeSliceString) (backing hintMakeSliceBool)
    (backing hintMakeSliceUint)
    (clampAtMost (saturatingProduct (hints hintGenericBytes) depthEstimate) maxGenericBytesPreSize)
    (clampAtMost (saturatingProduct (hints hintSliceHeaders) depthEstimate) maxSliceHeaderPreSize)
    (boxes hintBoxInts) (boxes hintBoxUints) (boxes hintBoxFloats) (boxes hintBoxStrings) (boxes hintBoxComplexes).

(** The counts of the classes of slabs [ensureCapacity] compares. *)
Definition classCounts (t : TypedSlabCounts) : list Z := Registers_count t ++ [UpvalueCells t; UpvalueReferences t].

(** [RecordObservedCallDepth]; the loop of the compare-and-swap keeps the
    maximum. *)
Definition RecordObservedCallDepth (current depth : Z) : Z :=
  if depth <=? 0 then current else Z.max current (IntToInt32 depth).
