(* ===== verification/SizingWalk.v ===== *)
(** * What an arena is sized for

    The walk of [vm_arena_sizing.go] finds exactly the functions an entry can
    reach, and the counts an arena is sized for are bounded. *)

From stdpp Require Import relations.
From S2P Require Import Prelude SafeConv Register Opcode Instruction Function CallGraph CallGraphScc Arena ArenaSizing.

(** ** The walk *)

Section walk.
Context (functions : list CompiledFunction) (Hwf : wf_sites functions).

#[local] Notation n := (zlen functions).
#[local] Notation adjacency := (BuildCallAdjacency functions).
#[local] Notation E := (edge adjacency).

Lemma adjacency_length : zlen adjacency = n.
Proof. unfold BuildCallAdjacency. by rewrite length_map. Qed.

Lemma edge_below u w : E u w → 0 <= u < n ∧ 0 <= w < n.
Proof.
  intros H. rewrite <- adjacency_length. split; [by eapply edge_source|]. by eapply BuildCallAdjacency_wf.
Qed.

(** The edges of the nodes not yet visited. *)
Fixpoint pendingEdges (visited : list bool) (edges : list (list Z)) : nat :=
  match visited, edges with
  | v :: visited, l :: edges => ((if v then 0 else length l) + pendingEdges visited edges)%nat
  | _, _ => 0%nat
  end.

Lemma pendingEdges_visit visited edges i l :
  visited !! i = Some false → edges !! i = Some l →
  (pendingEdges (<[i := true]> visited) edges + length l = pendingEdges visited edges)%nat.
Proof.
  revert edges i. induction visited as [|v visited IH]; intros [|m edges] [|i]; cbn; try done.
  - intros [= ->] [= ->]. lia.
  - intros Hv Hl. rewrite <- Nat.add_assoc. f_equal. by apply IH.
Qed.

Lemma pendingEdges_start edges : pendingEdges (replicate (length edges) false) edges = sum_list (map length edges).
Proof. induction edges as [|l edges IH]; cbn; [done|]. by rewrite IH. Qed.

Definition resolvable u : Prop := ∃ f, zget functions u = Some f ∧ functionHasUnresolvableCalls f = false.

Record walking (entry : Z) (visited : list bool) (reachable stack : list Z) : Prop := {
  wk_length : length visited = length functions;
  wk_visited u : default false (zget visited u) = true ↔ u ∈ reachable;
  wk_reached u : u ∈ reachable → rtc E entry u ∧ resolvable u;
  wk_once : NoDup reachable;
  wk_stack u : u ∈ stack → rtc E entry u ∧ 0 <= u < n;
  wk_closed u w : u ∈ reachable → E u w → w ∈ reachable ∨ w ∈ stack;
  wk_entry : entry ∈ reachable ∨ entry ∈ stack;
}.

Lemma elem_of_snoc {A} (l : list A) x y : x ∈ l ++ [y] ↔ x ∈ l ∨ x = y.
Proof. by rewrite elem_of_app, list_elem_of_singleton. Qed.

Lemma walkLoop_ok fuel entry visited reachable stack :
  walking entry visited reachable stack → (length stack + pendingEdges visited adjacency < fuel)%nat →
  match walkLoop fuel functions adjacency visited reachable stack with
  | Resolved l => NoDup l ∧ (∀ u, u ∈ l ↔ rtc E entry u) ∧ ∀ u, u ∈ l → resolvable u
  | Unresolvable => ∃ u, rtc E entry u ∧ ¬ resolvable u
  | OutOfFuel => False
  end.
Proof.
  revert visited reachable stack. induction fuel as [|fuel IH]; intros visited reachable stack Hw Hf; [lia|]. cbn [walkLoop].
  destruct (last stack) as [index|] eqn:Hlast.
  - apply last_Some in Hlast as [below ->]. rewrite removelast_app by done. cbn [removelast]. rewrite app_nil_r.
    rewrite length_app in Hf. cbn [length] in Hf. pose proof Hw as [W1 W2 W3 W4 W5 W6 W7].
    destruct (default false (zget visited index)) eqn:Hv.
    + apply IH; [|lia]. apply W2 in Hv. split; try done.
      * intros u Hu. apply W5, elem_of_snoc. by left.
      * intros u w Hu Hedge. destruct (W6 u w Hu Hedge) as [?|[?| ->]%elem_of_snoc]; auto.
      * destruct W7 as [?|[?| ->]%elem_of_snoc]; auto.
    + destruct (W5 index) as [Hr Hi]; [apply elem_of_snoc; by right|].
      destruct (zget_is_Some functions index Hi) as [f Hfn]. rewrite Hfn.
      destruct (functionHasUnresolvableCalls f) eqn:Hun; [exists index; split; [done|]; by intros (f' & ? & ?); congruence|].
      assert (Hvi : visited !! Z.to_nat index = Some false).
      { destruct (zget_is_Some visited index) as [b Hb]; [lia|]. rewrite Hb in Hv. cbn in Hv. subst b.
        by rewrite zget_lookup in Hb by lia. }
      destruct (zget_is_Some adjacency index) as [l Hl]; [rewrite adjacency_length; lia|].
      assert (Hpend := pendingEdges_visit visited adjacency (Z.to_nat index) l Hvi ltac:(by rewrite zget_lookup in Hl by lia)).
      assert (Hnb : neighbours adjacency index = l) by (unfold neighbours; by rewrite Hl).
      assert (Hset : zset visited index true = <[Z.to_nat index := true]> visited).
      { unfold zset. by rewrite (proj2 (Z.ltb_ge index 0)) by lia. }
      rewrite Hset. set (visited' := <[Z.to_nat index := true]> visited) in *.
      assert (Hvis : ∀ u, default false (zget visited' u) = true ↔ u = index ∨ u ∈ reachable).
      { intros u. rewrite <- Hset, zget_zset. destruct (Z.eqb_spec index u) as [->|Hne].
        - rewrite bool_decide_eq_true_2 by lia. naive_solver.
        - rewrite W2. naive_solver. }
      assert (Hpushed : ∀ u, u ∈ pushedCallees adjacency visited' index ↔ E index u ∧ u ≠ index ∧ u ∉ reachable).
      { intros u. unfold pushedCallees. rewrite list_elem_of_filter, andb_true_iff, negb_true_iff, <- not_true_iff_false, Hvis.
        change (u ∈ neighbours adjacency index) with (E index u). split; [naive_solver|]. intros (He & ? & ?).
        split; [|done]. split; [|naive_solver]. rewrite adjacency_length. apply Z.ltb_lt. destruct (edge_below _ _ He) as [_ ?]. lia. }
      apply IH.
      * split.
        -- unfold visited'. by rewrite length_insert.
        -- intros u. rewrite Hvis, elem_of_snoc. naive_solver.
        -- intros u [Hu| ->]%elem_of_snoc; [by apply W3|]. split; [done|by exists f].
        -- apply NoDup_app. split_and!; [done| |by apply NoDup_singleton]. intros u Hu ->%list_elem_of_singleton.
           apply W2 in Hu. congruence.
        -- intros u [Hu|Hu]%elem_of_app; [apply W5, elem_of_snoc; by left|]. apply Hpushed in Hu as (He & _).
           split; [by eapply rtc_r|]. by destruct (edge_below _ _ He).
        -- intros u w Hu Hedge. rewrite !elem_of_app, list_elem_of_singleton, Hpushed.
           destruct (decide (w = index)) as [->|Hne]; [auto|]. destruct (decide (w ∈ reachable)) as [|Hnr]; [auto|].
           apply elem_of_snoc in Hu as [Hu| ->]; [|auto]. destruct (W6 u w Hu Hedge) as [?|[?|?]%elem_of_snoc]; auto.
        -- rewrite !elem_of_app, list_elem_of_singleton. destruct W7 as [?|[?|?]%elem_of_snoc]; auto.
      * rewrite length_app. pose proof (length_filter (λ callee, (callee <? zlen adjacency) && negb (default false (zget visited' callee)) = true) l) as Hle. unfold pushedCallees. rewrite Hnb. lia.
  - apply last_None in Hlast as ->. destruct Hw as [W1 W2 W3 W4 W5 W6 W7]. split_and!; [done| |intros u Hu; by apply W3].
    assert (Hin : entry ∈ reachable) by (destruct W7 as [?|?%elem_of_nil]; done).
    intros u. split; [intros Hu; by apply W3|].
    revert u. apply rtc_ind_r; [done|]. intros u v _ Huv IHr. destruct (W6 u v IHr Huv) as [?|?%elem_of_nil]; done.
Qed.
End walk.

Lemma walkStaticCallees_ok functions entry :
  wf_sites functions → 0 <= entry < zlen functions →
  match walkStaticCallees functions entry with
  | Resolved reachable =>
      NoDup reachable ∧ (∀ i, i ∈ reachable ↔ rtc (calls functions) entry i) ∧
      ∀ i f, i ∈ reachable → zget functions i = Some f → functionHasUnresolvableCalls f = false
  | Unresolvable => ∃ i f, rtc (calls functions) entry i ∧ zget functions i = Some f ∧ functionHasUnresolvableCalls f = true
  | OutOfFuel => False
  end.
Proof.
  intros Hwf He. assert (Hrtc : ∀ i, rtc (edge (BuildCallAdjacency functions)) entry i ↔ rtc (calls functions) entry i).
  { intros i. split; apply (rtc_congruence id); intros x y; apply edge_calls. }
  assert (Hl : length functions = length (BuildCallAdjacency functions)) by (unfold BuildCallAdjacency; by rewrite length_map).
  assert (Hstart : walking functions entry (replicate (length functions) false) [] [entry]).
  { split; [by rewrite length_replicate| |by intros u ?%elem_of_nil|constructor| |by intros u w ?%elem_of_nil|right; by left].
    - intros u. split; [|by intros ?%elem_of_nil]. destruct (zget _ u) as [b|] eqn:Hb; [|done].
      apply (ex_intro (λ u, zget _ u = Some b)), elem_of_zget, elem_of_replicate in Hb as [-> _]. done.
    - by intros u ->%list_elem_of_singleton. }
  pose proof (walkLoop_ok functions Hwf (2 + edgeCount (BuildCallAdjacency functions)) entry (replicate (length functions) false) [] [entry] Hstart) as Hw.
  unfold walkStaticCallees. destruct (walkLoop _ _ _ _ _ _) as [reachable| |].
  - destruct Hw as (H1 & H2 & H3); [rewrite Hl, pendingEdges_start; unfold edgeCount; cbn [length]; lia|]. split_and!; [done| |].
    + intros i. by rewrite H2, Hrtc.
    + intros i f Hi Hf. destruct (H3 i Hi) as (f' & Hf' & Hr). congruence.
  - destruct Hw as (u & Hu & Hn); [rewrite Hl, pendingEdges_start; unfold edgeCount; cbn [length]; lia|].
    apply Hrtc in Hu. assert (Hui : 0 <= u < zlen functions).
    { apply rtc_inv_r in Hu as [<-|(w & _ & f & cs & Hf & Hcs & _ & _ & Hj & Hlt)]; [done|]. split; [|done].
      unfold wf_sites in Hwf. rewrite Forall_forall in Hwf. assert (Hin : f ∈ functions) by (apply elem_of_zget; by exists w).
      specialize (Hwf f Hin). rewrite Forall_forall in Hwf. specialize (Hwf cs Hcs). word. }
    destruct (zget_is_Some functions u Hui) as [f Hf]. exists u, f. split_and!; [done|done|].
    destruct (functionHasUnresolvableCalls f) eqn:E; [done|]. destruct Hn. by exists f.
  - apply Hw. rewrite Hl, pendingEdges_start. unfold edgeCount. cbn [length]. lia.
Qed.

(** Sizing for an entry of the table takes in what the entry can call:
    the walk ends, and either some function it can reach has a call whose callee
    the graph does not name, or it returns every function reachable by direct
    calls, each once, and no other. *)
Theorem walk_finds_reachable functions entry :
  wf_sites functions → 0 <= entry < zlen functions →
  match walkStaticCallees functions entry with
  | Resolved reachable =>
      NoDup reachable ∧ (∀ i, i ∈ reachable ↔ rtc (calls functions) entry i) ∧
      ∀ i f, i ∈ reachable → zget functions i = Some f → functionHasUnresolvableCalls f = false
  | Unresolvable => ∃ i f, rtc (calls functions) entry i ∧ zget functions i = Some f ∧ functionHasUnresolvableCalls f = true
  | OutOfFuel => False
  end.
Proof. apply walkStaticCallees_ok. Qed.

(** Function 1 calls 0 and 3; 2 is not reached. *)
Lemma walk_finds_reachable_witness :
  let program := [calling []; calling [0; 3]; calling [1]; calling [0]] in
  walkStaticCallees program 1 = Resolved [1; 3; 0] ∧ ¬ rtc (calls program) 1 2.
Proof.
  intros program. assert (Hwf : wf_sites program) by (eapply bool_decide_unpack; vm_compute; exact I).
  pose proof (walk_finds_reachable program 1 Hwf) as Hw.
  assert (Heq : walkStaticCallees program 1 = Resolved [1; 3; 0]) by (vm_compute; reflexivity).
  split; [exact Heq|]. rewrite Heq in Hw. destruct Hw as (_ & Hiff & _); [split; reflexivity || done|].
  intros Hr. apply Hiff in Hr. rewrite !elem_of_cons, elem_of_nil in Hr. lia.
Defined.

(** ** Bounds *)

Lemma clampAtMost_range value ceiling : 0 <= ceiling → 0 <= clampAtMost value ceiling <= ceiling.
Proof. unfold clampAtMost. destruct (Z.ltb_spec value 0), (Z.ltb_spec ceiling value); lia. Qed.

Lemma saturatingProduct_range a b : 0 <= saturatingProduct a b <= maxArenaPreSizeBacking.
Proof.
  unfold saturatingProduct. assert (0 <= maxArenaPreSizeBacking) by done.
  destruct (Z.leb_spec a 0), (Z.leb_spec b 0); cbn [orb]; try lia.
  destruct (Z.ltb_spec (maxArenaPreSizeBacking / b) a) as [Hlt|Hge]; [lia|].
  assert (b * (maxArenaPreSizeBacking / b) <= maxArenaPreSizeBacking) by (apply Z.mul_div_le; lia). nia.
Qed.

Lemma saturatingProduct_exact a b : 0 <= a → 0 <= b → saturatingProduct a b = Z.min (a * b) maxArenaPreSizeBacking.
Proof.
  intros Ha Hb. unfold saturatingProduct. assert (0 <= maxArenaPreSizeBacking) by done.
  destruct (Z.leb_spec a 0), (Z.leb_spec b 0); cbn [orb]; try (assert (a * b = 0) by nia; lia).
  destruct (Z.ltb_spec (maxArenaPreSizeBacking / b) a) as [Hlt|Hge].
  - assert (maxArenaPreSizeBacking < b * Z.succ (maxArenaPreSizeBacking / b)) by (apply Z.mul_succ_div_gt; lia). nia.
  - assert (b * (maxArenaPreSizeBacking / b) <= maxArenaPreSizeBacking) by (apply Z.mul_div_le; lia). nia.
Qed.

(** What an arena is sized for is bounded whatever the program: between 8 and
    64 frames of registers, backings and bytes within 2^26 elements, boxes,
    headers and upvalues within 2^16, generic bytes within 4 MiB, frames within
    4096 or, after a deeper run, the depth limit and its margin; and the
    saturating products lose nothing below their bound. *)
Theorem sized_counts_bounded {V} (vm : VM (V:=V)) p entry observed :
  let t := sizeArenaForEntry vm p entry observed in
  arenaDepthEstimateFloor <= clampedArenaDepth p <= arenaDepthEstimateCeiling ∧
  Forall (λ c, 0 <= c <= maxArenaPreSizeBacking)
    [Bytes t; IntBacking t; FloatBacking t; StringBacking t; BoolBacking t; UintBacking t] ∧
  Forall (λ c, 0 <= c <= maxBoxSlabPreSize)
    [IntBoxes t; UintBoxes t; FloatBoxes t; StringBoxes t; ComplexBoxes t; SliceHeaders t; UpvalueCells t; UpvalueReferences t] ∧
  0 <= GenericBytes t <= maxGenericBytesPreSize ∧
  0 <= FrameStack t <= Z.max maxFrameStackPreSize (callDepthLimit vm + frameStackSafetyMargin) ∧
  ∀ a b, 0 <= a → 0 <= b → a * b <= maxArenaPreSizeBacking → saturatingProduct a b = a * b.
Proof.
  intros t. split_and!.
  - unfold clampedArenaDepth, arenaDepthEstimateFloor, arenaDepthEstimateCeiling. lia.
  - unfold clampedArenaDepth, arenaDepthEstimateFloor, arenaDepthEstimateCeiling. lia.
  - repeat (apply Forall_cons; split; [apply saturatingProduct_range|]). constructor.
  - repeat (apply Forall_cons; split; [apply clampAtMost_range; done|]). constructor.
  - by apply clampAtMost_range.
  - by apply clampAtMost_range.
  - cbn [t sizeArenaForEntry FrameStack]. unfold frameStackPreSize.
    pose proof (clampAtMost_range (EstimateMaxCallDepth (codes (table p)) + frameStackSafetyMargin) maxFrameStackPreSize ltac:(done)).
    case_if; lia.
  - cbn [t sizeArenaForEntry FrameStack]. unfold frameStackPreSize, observedFrameStackTarget.
    pose proof (clampAtMost_range (EstimateMaxCallDepth (codes (table p)) + frameStackSafetyMargin) maxFrameStackPreSize ltac:(done)).
    case_if; lia.
  - intros a b Ha Hb Hab. rewrite saturatingProduct_exact by done. lia.
Qed.
