(* ===== verification/ArenaSized.v ===== *)
(** * A sized arena does not grow

    What sizing is for: a program without recursion, of functions without byte
    slices, runs without growing a slab or the frame stack; and what sizing
    leaves out. *)

From stdpp Require Import relations.
From S2P Require Import Prelude SafeConv Register Opcode Instruction Function CallGraph CallGraphScc CallDepth Arena ArenaSound CallStack ArenaPool ArenaSizing SizingWalk.

(** ** Running without growing *)

Section roomy.
Context {V : Type} (zero : Z → V).

#[local] Notation n := NumRegisterKinds.
#[local] Notation VM := (VM (V:=V)).
#[local] Notation RegisterArena := (RegisterArena (V:=V)).
Implicit Types (a : RegisterArena) (vm : VM) (k : Z).

(** The slabs are those of an earlier arena, at the same lengths. *)
Definition sameSlabs a0 a : Prop :=
  slabs a = slabs a0 ∧ ∀ b, length (default [] (memory a !! b)) = length (default [] (memory a0 !! b)).

Lemma sameSlabs_trans a0 a1 a2 : sameSlabs a0 a1 → sameSlabs a1 a2 → sameSlabs a0 a2.
Proof. intros [H1 H2] [G1 G2]. split; [congruence|]. intros b. by rewrite G2. Qed.

Lemma sameSlabs_length a0 a k : sameSlabs a0 a → zlen (slab a k) = zlen (slab a0 k).
Proof. intros [Hs Hm]. unfold slab, slabAddress. rewrite Hs. by rewrite Hm. Qed.

Lemma clearRange_same a a' k low high : clearRange zero a k low high = Some a' → sameSlabs a a' ∧ arenaIndices a' = arenaIndices a.
Proof.
  unfold clearRange. destruct (_ && _) eqn:Hg; [|done]. bool_hyps. intros [= <-]. split; [split|]; try done. intros b.
  cbn [setMemory memory]. destruct (decide (slabAddress a k = b)) as [<-|Hne]; [|by rewrite lookup_insert_ne].
  rewrite lookup_insert_eq. change (default [] (memory a !! slabAddress a k)) with (slab a k). cbn [default from_option id].
  unfold makeSlab. rewrite !length_app, length_take, length_drop, length_replicate. lia.
Qed.

Lemma Restore_same a a' sp : Restore zero a sp = Some a' → sameSlabs a a' ∧ arenaIndices a' = sp.
Proof.
  unfold Restore. intros H. destruct (eachBank _ a banks) as [a1|] eqn:E; [|done]. injection H as <-. split; [|done].
  change (sameSlabs a a1). revert a E. induction banks as [|k ks IH]; intros a; cbn [eachBank]; [by intros [= ->]|].
  intros E. destruct (restoreBank zero sp a k) as [a2|] eqn:E2; [|done]. cbn [mbind option_bind] in E.
  apply sameSlabs_trans with a2; [|by apply IH]. unfold restoreBank in E2. destruct (_ && _); [|injection E2 as ->; by split].
  by destruct (clearRange_same _ _ _ _ _ E2).
Qed.

Lemma writeRegister_same vm i k r v vm' :
  writeRegister vm i k r v = Some vm' → sameSlabs (Arena vm) (Arena vm') ∧ arenaIndices (Arena vm') = arenaIndices (Arena vm) ∧
    CallStack vm' = CallStack vm ∧ FramePointer vm' = FramePointer vm.
Proof.
  unfold writeRegister. destruct (bankOf vm i k) as [w|]; [|done]. cbn [mbind option_bind]. destruct (_ && _); [|done].
  destruct (memory (Arena vm) !! base w) as [l|] eqn:Hl; [|done]. intros [= <-]. split_and!; try done. split; [done|]. intros b.
  cbn [setArena Arena setMemory memory]. destruct (decide (base w = b)) as [<-|Hne]; [|by rewrite lookup_insert_ne].
  rewrite lookup_insert_eq, Hl. cbn [from_option id]. by rewrite length_zset.
Qed.

(** Room for [depth] frames of [peak] registers in each bank. *)
Context (a0 : RegisterArena) (frames depth : Z) (peak : Z → Z).
Hypothesis room : ∀ k, 0 <= k < n → depth * peak k <= zlen (slab a0 k).
Hypothesis deep : depth <= frames.

Record roomy vm : Prop := {
  ro_same : sameSlabs a0 (Arena vm);
  ro_indices : zlen (arenaIndices (Arena vm)) = n + 2;
  ro_index k : 0 <= k < n → index (Arena vm) k <= (FramePointer vm + 1) * peak k;
  ro_save i f : 0 <= i <= FramePointer vm → zget (CallStack vm) i = Some f →
    zlen (arenaSave f) = n + 2 ∧ ∀ k, 0 <= k < n → at_ (arenaSave f) k <= i * peak k;
  ro_frames : zlen (CallStack vm) = frames;
  ro_pointer : -1 <= FramePointer vm;
}.

Definition fits (numRegs : list Z) : Prop := ∀ k, 0 <= k < n → at_ (ArenaCountsFromNumRegs numRegs) k <= peak k.

Lemma no_growth a counts i :
  sameSlabs a0 a → (∀ k, 0 <= k < n → index a k <= i * peak k ∧ at_ counts k <= peak k) → 0 <= i < depth → (∀ k, 0 <= k < n → 0 <= peak k) →
  grown zero a counts = a.
Proof.
  intros Hs Hk Hi Hp. unfold grown. destruct (needsGrow a counts) eqn:Hn; [|done]. exfalso. unfold needsGrow in Hn.
  apply existsb_exists in Hn as (k & Hin & Hsh). apply list_elem_of_In, elem_of_banks in Hin. unfold short in Hsh. bool_hyps.
  rewrite (sameSlabs_length a0) in Hsh by done. specialize (room k Hin). destruct (Hk k Hin). specialize (Hp k Hin). nia.
Qed.

Hypothesis peak_pos : ∀ k, 0 <= k < n → 0 <= peak k.

Lemma alloc_same a r counts mask i a' r' :
  sameSlabs a0 a → zlen (arenaIndices a) = n + 2 → (∀ k, 0 <= k < n → index a k <= i * peak k ∧ at_ counts k <= peak k) → 0 <= i < depth →
  allocRegistersIntoCached zero a r counts mask = Some (a', r') →
  sameSlabs a0 a' ∧ zlen (arenaIndices a') = n + 2 ∧ ∀ k, 0 <= k < n → index a' k <= (i + 1) * peak k.
Proof.
  intros Hs Hl Hk Hi Ha. unfold allocRegistersIntoCached in Ha. rewrite (no_growth a counts i) in Ha by done.
  destruct (mapM _ _) as [ws|]; [|done]. cbn [mbind option_bind] in Ha. injection Ha as <- <-. split_and!; [done| |].
  - cbn. by rewrite length_imap.
  - intros k Hkn. rewrite index_bump by (done || lia). destruct (Hk k Hkn). lia.
Qed.

Lemma allocFrame_roomy vm i f numRegs a r mask frame :
  zget (CallStack vm) i = Some f → sameSlabs a0 (Arena vm) → zlen (arenaIndices (Arena vm)) = n + 2 →
  (∀ k, 0 <= k < n → index (Arena vm) k <= i * peak k) → 0 <= i < depth → zlen (CallStack vm) = frames → fits numRegs →
  (∀ j g, 0 <= j < i → zget (CallStack vm) j = Some g → zlen (arenaSave g) = n + 2 ∧ ∀ k, 0 <= k < n → at_ (arenaSave g) k <= j * peak k) →
  allocRegistersIntoCached zero (Arena vm) (Registers_ f) (ArenaCountsFromNumRegs numRegs) mask = Some (a, r) →
  frame = NewCallFrame r (SaveInto (Arena vm)) (Some numRegs) →
  roomy (setStack (setArena vm a) (zset (CallStack vm) i frame) i).
Proof.
  intros Hf Hs Hl Hidx Hi Hfr Hfit Hsave Ha ->.
  destruct (alloc_same (Arena vm) (Registers_ f) (ArenaCountsFromNumRegs numRegs) mask i a r) as (H1 & H2 & H3); try done.
  { intros k Hk. split; [by apply Hidx|by apply Hfit]. }
  split; cbn [setStack setArena Arena CallStack FramePointer]; try done; [|by rewrite length_zset|lia].
  intros j g Hj. rewrite zget_zset. destruct (Z.eqb_spec i j) as [<-|Hne].
  - case_bool_decide; [|done]. intros [= <-]. split; [exact Hl|]. exact Hidx.
  - apply Hsave. lia.
Qed.

Lemma PushFrame_roomy vm numRegs vm' :
  roomy vm → FramePointer vm + 1 < depth → fits numRegs → PushFrame zero vm 0 numRegs = Some (Pushed vm') →
  roomy vm' ∧ FramePointer vm' = FramePointer vm + 1.
Proof.
  intros [R1 R2 R3 R4 R5 R6] Hd Hfit H. unfold PushFrame in H. destruct (callDepthLimit vm <=? FramePointer vm); [done|].
  unfold enterFrame in H. cbn [setStack CallStack FramePointer] in H. rewrite (proj2 (Z.leb_gt _ _)) in H by lia.
  unfold allocFrame in H. cbn [setStack CallStack FramePointer Arena] in H.
  destruct (zget (CallStack vm) (FramePointer vm + 1)) as [f|] eqn:Hf; [|done]. cbn [mbind option_bind] in H.
  change (0 <? 0) with false in H. cbn [mbind option_bind] in H.
  destruct (allocRegistersIntoCached _ _ _ _ _) as [[a r]|] eqn:Ha; [|done]. cbn [mbind option_bind] in H. injection H as <-.
  split; [|done]. eapply (allocFrame_roomy vm (FramePointer vm + 1)); try done; [lia|]. intros j g Hj. apply R4. lia.
Qed.

Lemma popFrame_roomy vm vm' :
  roomy vm → 0 <= FramePointer vm → popFrame zero vm = Some vm' → roomy vm' ∧ FramePointer vm' = FramePointer vm - 1.
Proof.
  intros [R1 R2 R3 R4 R5 R6] Hp H. unfold popFrame in H. destruct (zget (CallStack vm) (FramePointer vm)) as [f|] eqn:Hf; [|done].
  cbn [mbind option_bind] in H. destruct (Restore zero (Arena vm) (arenaSave f)) as [a|] eqn:Ha; [|done]. injection H as <-.
  destruct (Restore_same _ _ _ Ha) as [Hs Hi]. destruct (R4 (FramePointer vm) f ltac:(lia) Hf) as [Hl Hk]. split; [|done].
  split; cbn [setStack setArena Arena CallStack FramePointer]; try done; [by eapply sameSlabs_trans|by rewrite Hi| | |lia].
  - intros k Hkn. unfold index. rewrite Hi. specialize (Hk k Hkn). unfold at_ in Hk. replace (FramePointer vm - 1 + 1) with (FramePointer vm) by lia. done.
  - intros i g Hig. apply R4. lia.
Qed.

Lemma tail_roomy vm numRegs vm' :
  roomy vm → 0 <= FramePointer vm < depth → fits numRegs → reallocateTailCallFrame zero vm numRegs = Some vm' →
  roomy vm' ∧ FramePointer vm' = FramePointer vm.
Proof.
  intros [R1 R2 R3 R4 R5 R6] Hp Hfit H. unfold reallocateTailCallFrame in H.
  destruct (zget (CallStack vm) (FramePointer vm)) as [f|] eqn:Hf; [|done].
  cbn [mbind option_bind] in H. destruct (Restore zero (Arena vm) (arenaSave f)) as [a|] eqn:Ha; [|done]. cbn [mbind option_bind] in H.
  destruct (allocRegistersIntoCached _ _ _ _ _) as [[a' r]|] eqn:Hal; [|done]. cbn [mbind option_bind] in H. injection H as <-.
  destruct (Restore_same _ _ _ Ha) as [Hs Hi]. destruct (R4 (FramePointer vm) f ltac:(lia) Hf) as [Hl Hk]. split; [|done].
  change (roomy (setStack (setArena (setArena vm a) a') (zset (CallStack (setArena vm a)) (FramePointer vm)
    (NewCallFrame r (SaveInto (Arena (setArena vm a))) (Some numRegs))) (FramePointer vm))).
  eapply (allocFrame_roomy (setArena vm a) (FramePointer vm) f); try done.
  - by eapply sameSlabs_trans.
  - cbn. by rewrite Hi.
  - intros k Hkn. unfold index. cbn [setArena Arena]. rewrite Hi. by apply Hk.
  - intros j g Hj. apply R4. lia.
Qed.

Lemma write_roomy vm i k r v vm' : roomy vm → writeRegister vm i k r v = Some vm' → roomy vm' ∧ FramePointer vm' = FramePointer vm.
Proof.
  intros [R1 R2 R3 R4 R5 R6] H. destruct (writeRegister_same _ _ _ _ _ _ H) as (Hs & Hi & Hc & Hf). split; [|done].
  split; rewrite ?Hi, ?Hc, ?Hf; try done; [by eapply sameSlabs_trans|]. intros q Hq. unfold index. rewrite Hi. by apply R3.
Qed.
End roomy.

(** ** Chains of calls *)

Lemma tc_path (R : Z → Z → Prop) u v : tc R u v → ∃ m, chain R u (m ++ [v]).
Proof. induction 1 as [u v Huv|u v w Huv _ [m IH]]; [by exists []|]. by exists (v :: m). Qed.

Lemma chain_app (R : Z → Z → Prop) u l v l' : last (u :: l) = Some v → chain R u l → chain R v l' → chain R u (l ++ l').
Proof.
  revert u. induction l as [|w l IH]; intros u Hl; cbn [chain app]; [injection Hl as ->; done|].
  intros [Huw Hc] Hv. split; [done|]. by apply IH.
Qed.

(** A stack of functions, its top first, each called by what the one below it
    called, perhaps through tail calls: there is a chain of calls as long. *)
Lemma stack_chain (R : Z → Z → Prop) top l :
  chain (λ j i, tc R i j) top l →
  ∃ u l', last (u :: l') = Some top ∧ chain R u l' ∧ zlen l <= zlen l' ∧ (last (top :: l) = Some u).
Proof.
  revert top. induction l as [|v l IH]; intros top; cbn [chain]; [intros _; by exists top, []|]. intros [Hvt Hc].
  destruct (IH v Hc) as (u & l' & Hlast & Hc' & Hlen & Hu). destruct (tc_path R v top Hvt) as [m Hm].
  exists u, (l' ++ m ++ [top]). split_and!.
  - rewrite app_assoc. change (u :: (l' ++ m) ++ [top]) with ((u :: l' ++ m) ++ [top]). by rewrite last_snoc.
  - by eapply chain_app.
  - rewrite !length_app. cbn [length]. lia.
  - exact Hu.
Qed.

(** ** Programs *)

Lemma peakOf_mono functions k start : start <= foldl (λ peak f, Z.max peak (at_ (NumRegisters f) k)) start functions.
Proof. revert start. induction functions as [|f functions IH]; intros start; cbn [foldl]; [lia|]. specialize (IH (Z.max start (at_ (NumRegisters f) k))). lia. Qed.

Lemma peakOf_member functions f k : f ∈ functions → at_ (NumRegisters f) k <= peakOf functions k.
Proof.
  unfold peakOf. generalize 0. induction functions as [|g functions IH]; intros start; [by intros ?%elem_of_nil|].
  intros [->|Hf]%elem_of_cons; cbn [foldl]; [|by apply IH]. pose proof (peakOf_mono functions k (Z.max start (at_ (NumRegisters g) k))). lia.
Qed.

Lemma at_peak functions k : 0 <= k < NumRegisterKinds →
  at_ (peakRegisterCounts functions) k = if one_of k peakBanks then peakOf functions k else 0.
Proof.
  intros Hk. unfold at_ at 1, peakRegisterCounts. rewrite zget_lookup, list_lookup_fmap by lia. unfold banks.
  rewrite lookup_seqZ_lt by lia. cbn [fmap option_fmap option_map from_option id].
  by replace (0 + Z.of_nat (Z.to_nat k)) with k by lia.
Qed.

Lemma at_sized {V} (vm : VM (V:=V)) p entry observed k : 0 <= k < NumRegisterKinds →
  at_ (classCounts (sizeArenaForEntry vm p entry observed)) k =
    at_ (peakRegisterCounts (functionsReachableFrom p entry)) k * clampedArenaDepth p.
Proof.
  intros Hk. unfold classCounts, at_. cbn [sizeArenaForEntry Registers_count]. rewrite !zget_lookup by lia.
  assert (Hl : length (peakRegisterCounts (functionsReachableFrom p entry)) = Z.to_nat NumRegisterKinds).
  { unfold peakRegisterCounts, banks. rewrite length_map, length_seqZ. done. }
  rewrite lookup_app_l by (unfold scale; rewrite length_map, Hl; lia). unfold scale. rewrite list_lookup_fmap.
  destruct (lookup_lt_is_Some_2 (peakRegisterCounts (functionsReachableFrom p entry)) (Z.to_nat k)) as [c ->]; [rewrite Hl; lia|]. done.
Qed.

Lemma not_peak k : 0 <= k < NumRegisterKinds → one_of k peakBanks = false → k = RegisterSliceByte.
Proof.
  intros Hk Hn. assert (Hall : Forall (λ k, one_of k peakBanks || (k =? RegisterSliceByte) = true) banks) by (repeat constructor).
  rewrite Forall_forall in Hall. specialize (Hall k ltac:(by apply elem_of_banks)). rewrite Hn in Hall. cbn in Hall. lia.
Qed.

(** The functions an entry of the table can reach are among those the arena is
    sized for. *)
Lemma sized_for_reachable p entry i f :
  wf_sites (codes (table p)) → 0 <= entry < zlen (table p) → rtc (calls (codes (table p))) entry i → zget (codes (table p)) i = Some f →
  f ∈ functionsReachableFrom p None ∧ f ∈ functionsReachableFrom p (Some entry).
Proof.
  intros Hwf He Hr Hf. assert (Hall : f ∈ codes (allFunctions p)).
  { unfold allFunctions, codes in *. rewrite map_cons, map_app. right. apply elem_of_app. left. apply elem_of_zget. by exists i. }
  split; [exact Hall|]. unfold functionsReachableFrom.
  pose proof (walkStaticCallees_ok (codes (table p)) entry Hwf ltac:(unfold codes; rewrite length_map; done)) as Hw.
  destruct (walkStaticCallees _ _) as [reachable| |]; [|done|done]. destruct Hw as (_ & Hiff & _).
  apply list_elem_of_omap. exists i. split; [by apply Hiff|done].
Qed.

Section run.
Context {V : Type} (zero : Z → V).

#[local] Notation VM := (VM (V:=V)).
#[local] Notation n := NumRegisterKinds.

(** A run of compiled functions: the machine and the functions on its stack, the
    top first. *)
Inductive run_step (functions : list CompiledFunction) : VM * list Z → VM * list Z → Prop :=
  | run_call vm i st j f vm' :
      calls functions i j → zget functions j = Some f → PushFrame zero vm 0 (NumRegisters f) = Some (Pushed vm') →
      run_step functions (vm, i :: st) (vm', j :: i :: st)
  | run_tail vm i st j f vm' :
      calls functions i j → zget functions j = Some f → reallocateTailCallFrame zero vm (NumRegisters f) = Some vm' →
      run_step functions (vm, i :: st) (vm', j :: st)
  | run_return vm i j st vm' : popFrame zero vm = Some vm' → run_step functions (vm, i :: j :: st) (vm', j :: st)
  | run_write vm st i k r v vm' : writeRegister vm i k r v = Some vm' → run_step functions (vm, st) (vm', st).

Lemma ensureBanks_room own a counts ks k :
  arena_ok zero own a → unused a → (∀ k, k ∈ ks → 0 <= k < n + 2) → k ∈ ks → at_ counts k <= zlen (slab (foldl (ensureBank zero counts) a ks) k).
Proof.
  revert own a. induction ks as [|j ks IH]; intros own a Hok Hu Hks Hin; [by apply elem_of_nil in Hin|]. cbn [foldl].
  assert (Hj : 0 <= j < n + 2) by (apply Hks; by left).
  destruct (ensureBanks_ok zero own a counts [j] Hok) as (own1 & Hok1 & Hi1); [by intros i ->%list_elem_of_singleton|done|]. cbn [foldl] in Hok1, Hi1.
  assert (Hu1 : unused (ensureBank zero counts a j)) by (intros i Hi; unfold index; rewrite Hi1; by apply Hu).
  apply elem_of_cons in Hin as [->|Hin]; [|eapply IH; [exact Hok1|exact Hu1|intros; apply Hks; by right|done]].
  destruct (ensureBanks_lengths zero own1 (ensureBank zero counts a j) counts ks Hok1 Hu1) as (_ & _ & Hl); [intros; apply Hks; by right|].
  specialize (Hl j Hj). assert (at_ counts j <= zlen (slab (ensureBank zero counts a j) j)); [|lia].
  unfold ensureBank. destruct (Z.ltb_spec (zlen (slab a j)) (at_ counts j)) as [Hlt|Hge]; [|lia].
  rewrite (slab_install zero _ own) by done. rewrite Z.eqb_refl. rewrite length_makeSlab; lia.
Qed.

Lemma capacity_room own a counts k :
  arena_ok zero own a → unused a → 0 <= k < n + 2 → at_ counts k <= zlen (slab (ensureBankCapacity zero a counts) k).
Proof.
  intros Hok Hu Hk. unfold ensureBankCapacity.
  apply (ensureBanks_room own (setDemand a _ (scalarDemandLastReset a) (scalarIdleResets a)) counts classes k).
  - apply setDemand_ok; [done|by destruct Hok].
  - exact Hu.
  - by intros j ?%elem_of_classes.
  - by apply elem_of_classes.
Qed.

(** An arena of the pool: new, or released by a machine it served. *)
Definition inPool (pool : pooled (V:=V)) : Prop :=
  pool = newPooled zero ∨ ∃ vm framesUsed idle, serves zero vm ∧ PutRegisterArena zero vm framesUsed idle = Some pool.

Lemma inPool_ok pool : inPool pool → ∃ own, pooled_ok zero own pool.
Proof.
  intros [->|(vm & framesUsed & idle & Hs & Hp)]; [eexists; apply newPooled_ok|].
  destruct (serves_ok zero vm Hs) as (own & files & Hsv & _). destruct (put_ok zero own vm framesUsed idle Hsv) as (own' & q & Hq & Hok & _).
  exists own'. by simplify_eq.
Qed.

Section never_grows.
Context (functions : list CompiledFunction) (Hwf : wf_sites functions).
Context (a0 : RegisterArena (V:=V)) (frames depth : Z) (peak : Z → Z) (entry : Z).
Hypothesis room : ∀ k, 0 <= k < n → depth * peak k <= zlen (slab a0 k).
Hypothesis deep : depth <= frames.
Hypothesis peak_pos : ∀ k, 0 <= k < n → 0 <= peak k.
Hypothesis entry_range : 0 <= entry < zlen functions.
Hypothesis all_fit : ∀ i f, rtc (calls functions) entry i → zget functions i = Some f → fits peak (NumRegisters f).
Hypothesis chains_bounded : ∀ u l, 0 <= u < zlen functions → chain (calls functions) u l → zlen (u :: l) <= depth.

Lemma callees_range i : rtc (calls functions) entry i → 0 <= i < zlen functions.
Proof.
  intros Hr. apply rtc_inv_r in Hr as [<-|(u & _ & Hc)]; [done|]. apply edge_calls in Hc.
  by destruct (edge_below functions Hwf _ _ Hc).
Qed.

(** The machine is roomy and its stack is a stack of calls. *)
Record running (state : VM * list Z) : Prop := {
  ru_roomy : roomy a0 frames peak state.1;
  ru_pointer : FramePointer state.1 = zlen state.2 - 1;
  ru_stack : ∃ top rest, state.2 = top :: rest ∧ chain (λ j i, tc (calls functions) i j) top rest;
  ru_reach i : i ∈ state.2 → rtc (calls functions) entry i;
}.

Lemma stack_bounded top rest :
  chain (λ j i, tc (calls functions) i j) top rest → (∀ i, i ∈ top :: rest → rtc (calls functions) entry i) → zlen (top :: rest) <= depth.
Proof.
  intros Hc Hr. destruct (stack_chain _ _ _ Hc) as (u & l' & _ & Hc' & Hlen & Hu).
  assert (Hur : 0 <= u < zlen functions) by (apply callees_range, Hr; by eapply last_Some_elem_of).
  pose proof (chains_bounded u l' Hur Hc'). cbn [length] in *. lia.
Qed.

Lemma run_step_ok state state' : running state → run_step functions state state' → running state'.
Proof.
  intros [Hro Hfp (top & rest & Hst & Hch) Hre] Hstep.
  destruct Hstep as [vm i st j f vm' Hc Hf Hp|vm i st j f vm' Hc Hf Hp|vm i j st vm' Hp|vm st i k r v vm' Hp]; cbn [fst snd] in *;
    try (injection Hst as <- <-).
  - assert (Hre' : ∀ x, x ∈ j :: i :: st → rtc (calls functions) entry x).
    { intros x [->|Hx]%elem_of_cons; [|by apply Hre]. eapply rtc_r; [apply Hre; by left|done]. }
    assert (Hch' : chain (λ j i, tc (calls functions) i j) j (i :: st)) by (split; [by apply tc_once|done]).
    pose proof (stack_bounded j (i :: st) Hch' Hre') as Hb. cbn [length] in Hb, Hfp.
    destruct (PushFrame_roomy zero a0 frames depth peak room deep peak_pos vm (NumRegisters f) vm' Hro) as [Hro' Hfp'];
      [lia|eapply all_fit; [apply Hre'; by left|done]|done|].
    split; cbn [fst snd]; [done|cbn [length]; lia|by exists j, (i :: st)|done].
  - assert (Hre' : ∀ x, x ∈ j :: st → rtc (calls functions) entry x).
    { intros x [->|Hx]%elem_of_cons; [|apply Hre; by right]. eapply rtc_r; [apply Hre; by left|done]. }
    assert (Hch' : chain (λ j i, tc (calls functions) i j) j st).
    { destruct st as [|u st]; [done|]. destruct Hch as [Hiu Hst]. split; [by eapply tc_r|done]. }
    pose proof (stack_bounded j st Hch' Hre') as Hb. cbn [length] in Hb, Hfp.
    destruct (tail_roomy zero a0 frames depth peak room peak_pos vm (NumRegisters f) vm' Hro) as [Hro' Hfp'];
      [lia|eapply all_fit; [apply Hre'; by left|done]|done|].
    split; cbn [fst snd]; [done|cbn [length]; lia|by exists j, st|done].
  - destruct (popFrame_roomy zero a0 frames peak vm vm' Hro) as [Hro' Hfp']; [cbn [length] in Hfp; lia|done|].
    split; cbn [fst snd]; [done|cbn [length] in Hfp |- *; lia|exists j, st; split; [done|by destruct Hch]|intros x Hx; apply Hre; by right].
  - destruct (write_roomy a0 frames peak vm i k r v vm' Hro Hp) as [Hro' Hfp'].
    split; cbn [fst snd]; [done|lia|by exists top, rest|done].
Qed.

Lemma running_ok state state' : running state → star (run_step functions) state state' → running state'.
Proof. intros Hr. induction 1 as [|s1 s2 _ IH Hs]; [done|]. by eapply run_step_ok. Qed.
End never_grows.

Lemma sized_frames (machine : VM) p sizedFor observed :
  0 < EstimateMaxCallDepth (codes (table p)) <= arenaDepthEstimateCeiling →
  EstimateMaxCallDepth (codes (table p)) <= clampedArenaDepth p ∧
  EstimateMaxCallDepth (codes (table p)) <= FrameStack (sizeArenaForEntry machine p sizedFor observed).
Proof.
  unfold clampedArenaDepth, arenaDepthEstimateCeiling, arenaDepthEstimateFloor. cbn [sizeArenaForEntry FrameStack].
  unfold frameStackPreSize, clampAtMost, maxFrameStackPreSize. change frameStackSafetyMargin with 16.
  generalize (EstimateMaxCallDepth (codes (table p))). intros est Hest. split; [lia|].
  destruct (Z.ltb_spec (est + 16) 0); [lia|]. destruct (Z.ltb_spec 4096 (est + 16)); [lia|]. case_if; lia.
Qed.

Lemma frames_length frames m : m <= zlen (ensureFrameStackCapacity frames m).
Proof.
  unfold ensureFrameStackCapacity, growFrameStack. destruct (Z.leb_spec m (zlen frames)); [done|].
  rewrite length_app, length_replicate. lia.
Qed.

Lemma prepared_indices own pool counts FrameStack limit observed :
  pooled_ok zero own pool →
  arenaIndices (Arena (prepareForExecution zero pool counts FrameStack limit observed)) = arenaIndices (lent pool).
Proof.
  intros [Pok Pun _]. rewrite prepare_arena. unfold ensureBankCapacity. set (a1 := setDemand _ _ _ _).
  destruct (ensureBanks_ok zero own a1 counts classes) as (own' & _ & ->); [|by intros k ?%elem_of_classes|exact Pun|done].
  apply setDemand_ok; [done|by destruct Pok].
Qed.

Lemma prepared_roomy own pool counts FrameStack limit observed peak :
  let start := prepareForExecution zero pool counts FrameStack limit observed in
  pooled_ok zero own pool → roomy (Arena start) (zlen (CallStack start)) peak start.
Proof.
  intros start Hp. pose proof (prepared_indices own pool counts FrameStack limit observed Hp) as Hidx. fold start in Hidx.
  destruct Hp as [Pok Pun _]. split; [by split|rewrite Hidx; by destruct Pok| | |done|done].
  - intros k Hk. unfold index. rewrite Hidx. specialize (Pun k ltac:(lia)). unfold index in Pun. rewrite Pun.
    cbn [start prepareForExecution FramePointer]. lia.
  - intros i f Hi. cbn [start prepareForExecution FramePointer] in Hi. lia.
Qed.

(** The peaks cover what the entry can reach, byte slices apart. *)
Lemma sized_fits p sizedFor entry :
  sizedFor = None ∨ sizedFor = Some entry → wf_sites (codes (table p)) → 0 <= entry < zlen (codes (table p)) →
  (∀ g, g ∈ codes (table p) → at_ (NumRegisters g) RegisterSliceByte <= 0) →
  ∀ i g, rtc (calls (codes (table p))) entry i → zget (codes (table p)) i = Some g →
    fits (at_ (peakRegisterCounts (functionsReachableFrom p sizedFor))) (NumRegisters g).
Proof.
  intros Hsized Hwf He Hbytes i g Hr Hg k Hk. rewrite at_counts, decide_True by done.
  fold (at_ (peakRegisterCounts (functionsReachableFrom p sizedFor)) k). rewrite at_peak by done. destruct (one_of k peakBanks) eqn:Hb.
  - apply peakOf_member. destruct (sized_for_reachable p entry i g Hwf) as [H1 H2];
      [unfold codes in He; rewrite length_map in He; lia|done|done|]. by destruct Hsized as [->| ->].
  - rewrite (not_peak k Hk Hb). apply Hbytes, elem_of_zget. by exists i.
Qed.

Lemma peak_nonneg functions k : 0 <= k < n → 0 <= at_ (peakRegisterCounts functions) k.
Proof. intros Hk. rewrite at_peak by done. case_if; [apply peakOf_mono|lia]. Qed.

End run.

(** ** Runs *)

Definition withRegisters (numRegisters : list Z) (f : CompiledFunction) : CompiledFunction :=
  NewCompiledFunction (Name f) (Body f) (Functions f) (StringConstants f) (BoolConstants f) (UintConstants f) (IntConstants f)
    (StringConstIndex f) (UintConstIndex f) (IntConstIndex f) (CallSites f) (ParameterKinds f) (ParameterRegisters f)
    (ResultKinds f) numRegisters (methodTable f) (maxConstantPoolSize f) (maxSpecialisations f) (maxMethods f)
    (EmittedInlineBlocker f) (JumpRangeExceeded f).

Definition withInts (count : Z) (f : CompiledFunction) : CompiledFunction :=
  withRegisters (zset (replicate (Z.to_nat NumRegisterKinds) 0) RegisterInt count) f.

(** The entry calls a function; each needs 300 ints. *)
Definition pairProgram : Program :=
  NewProgram (NewSizedFunction (calling [0]) 0)
    [NewSizedFunction (withInts 300 (calling [1])) 0; NewSizedFunction (withInts 300 (calling [])) 0] None.

Definition idleVM : VM (V:=Z) := prepareForExecution noValue (newPooled noValue) [] 0 0 0.

Definition pairStart : VM (V:=Z) :=
  let t := sizeArenaForEntry idleVM pairProgram (Some 0) 0 in
  prepareForExecution noValue (newPooled noValue) (classCounts t) (FrameStack t) 0 0.

Definition pairEntry : VM (V:=Z) := afterCall pairStart (NumRegisters (withInts 300 (calling [1]))).
Definition pairCallee : VM (V:=Z) := afterCall pairEntry (NumRegisters (withInts 300 (calling []))).

Lemma pairProgram_calls x y : calls (codes (table pairProgram)) x y ↔ edge [[1]; []] x y.
Proof.
  rewrite <- edge_calls. assert (BuildCallAdjacency (codes (table pairProgram)) = [[1]; []]) as -> by (vm_compute; reflexivity). done.
Qed.

Lemma pairProgram_acyclic i : ¬ tc (calls (codes (table pairProgram))) i i.
Proof.
  assert (Hup : ∀ x y, calls (codes (table pairProgram)) x y → x < y).
  { intros x y Hxy%pairProgram_calls. pose proof (edge_source _ _ _ Hxy) as Hx. cbn [length] in Hx. unfold edge, neighbours in Hxy.
    assert (x = 0 ∨ x = 1) as [->| ->] by lia; [change (y ∈ [1]) in Hxy|by apply elem_of_nil in Hxy].
    apply list_elem_of_singleton in Hxy. lia. }
  assert (Hlt : ∀ a b, tc (calls (codes (table pairProgram))) a b → a < b).
  { induction 1 as [a b Hab|a b c Hab _ IH]; apply Hup in Hab; lia. }
  intros Ht. specialize (Hlt i i Ht). lia.
Qed.


(** ** What sizing leaves out *)

(** A function with 40 registers of byte slices. *)
Definition byteFunction : CompiledFunction :=
  withRegisters (zset (replicate (Z.to_nat NumRegisterKinds) 0) RegisterSliceByte 40) (calling []).
Definition byteProgram : Program := NewProgram (NewSizedFunction (calling [0]) 0) [NewSizedFunction byteFunction 0] None.
Definition byteStart : VM (V:=Z) :=
  let t := sizeArenaForEntry idleVM byteProgram None 0 in
  prepareForExecution noValue (newPooled noValue) (classCounts t) (FrameStack t) 0 0.

(** An arena is not sized for byte slices: the peaks leave their bank out,
    and the first call of a function with forty registers of byte slices grows
    the slab of an arena that was sized for it. *)
Theorem byte_slices_not_sized :
  ∃ vm, PushFrame noValue byteStart 0 (NumRegisters byteFunction) = Some (Pushed vm) ∧
    at_ (slabs (Arena vm)) RegisterSliceByte ≠ at_ (slabs (Arena byteStart)) RegisterSliceByte ∧
    zlen (slab (Arena byteStart) RegisterSliceByte) = 32.
Proof.
  exists (afterCall byteStart (NumRegisters byteFunction)). split; [vm_compute; reflexivity|]. split; [vm_compute; congruence|].
  vm_compute. reflexivity.
Qed.

(** C37: The closure hint counts the upvalues of the wrong function: the index of
    a closure names a function of the table, and the hint looks it up in the list
    of all functions, where the root comes first.  A root that makes a closure
    of a function with three upvalues is sized for none. *)
Theorem closure_hint_reads_wrong_function :
  ∃ p instr callee,
    Body (code (root p)) = [instr] ∧ iOp instr = OpMakeClosure ∧ zget (table p) (WideIndex instr) = Some callee ∧
    UpvalueDescriptors callee = 3 ∧ ∀ V (vm : VM (V:=V)), UpvalueCells (sizeArenaForEntry vm p None 0) = 0.
Proof.
  exists (NewProgram (NewSizedFunction (setBody (calling []) [NewInstruction OpMakeClosure 0 0 0]) 0) [NewSizedFunction (calling []) 3] None),
    (NewInstruction OpMakeClosure 0 0 0), (NewSizedFunction (calling []) 3).
  split_and!; [reflexivity..|]. intros V vm. reflexivity.
Qed.
